(* ===== verification/_CoqProject ===== *)
-Q . S2P
Prelude.v
JsMap.v
JsStrings.v
JsNumbers.v
Json.v
Encodings.v
OrderBy.v
ModuleRegistry.v
ModuleCatalogue.v
PermissionCache.v
AuthCache.v
PermissionService.v
PathGate.v
AuthMiddleware.v
RateLimiter.v
Accounts.v
AuthService.v
Sessions.v
AuditChain.v
Numbering.v
AuditWorkflow.v
CircuitBreaker.v
ReadWriteLock.v
Transactions.v
Pagination.v
Cursors.v
TwoFactor.v
RequestGuards.v
SessionCookies.v
Responses.v
Regex.v
ErrorHandler.v
Idempotency.v
Records.v
AppCodes.v
GenericRecords.v
SoftDelete.v
BulkOperations.v
CrudRoutes.v
Correspondence.v
Archive.v
AuditPrograms.v
Configuration.v
Paths.v
SecureFiles.v
FileEncryption.v
Startup.v
Catalogue.v
MigrationRunner.v
Calendar.v
Partitions.v
Schema.v
SchemaUse.v
PermissionAdmin.v
Backups.v
KeyStore.v
WebSockets.v
Notifications.v
Queues.v
Cron.v
RedisManager.v
ReleaseGates.v
DbWrapper.v
QueryBuilder.v
PdfTemplates.v
Governance.v
UserDirectory.v
PasswordReset.v
Health.v
Uploads.v
OrgTree.v
FallbackTemplates.v
PdfRendering.v
ErrorLogs.v
PdfJobs.v
