(* ===== verification/Prelude.v ===== *)
(** * alsaqi-backend: verification library

    A shallow embedding of the core of the backend: who may do what
    (modules, permissions, sessions), what protects the entry points (path gate,
    rate limiter, login lockout, second factor), what keeps the audit records
    straight (hash chain, numbering, the state machines of findings,
    recommendations, tasks and plans), and what the process rests on (schema and
    migrations, the database and Redis connections, backups, keys, queues,
    scheduled jobs, release gates).  Paths below are relative to [src/src/].

    ** How the program is put together

    A process passes the checks of [Startup.v], connects ([DbWrapper.v],
    [RedisManager.v]) and migrates ([MigrationRunner.v], [Schema.v]).  A request
    passes the guards and the rate limiter, then [authenticate] (token, account
    row from Redis or the database, session version, password-change gate), then
    [checkPermission] or the file scoping, and reaches a service.  Permission
    decisions come from [PermissionService], which reads the tables
    [permissions], [role_permissions], [user_permissions] and keeps results in
    an in-memory cache; mutations invalidate that cache and the Redis copies of
    the account rows through [AuthCacheInvalidator].  The services of the audit
    entities change their tables in transactions and take codes from
    [NumberingService]; [AuditChainService] keeps the audit trail; notifications
    go through the job queue or around it to tables and web sockets.

    ** Conventions

    - Stateful code is [action error state], a state and error monad: a value
      or an error, together with the state reached.  An error keeps the state
      reached so far; [transaction] undoes it by the rollback it is given.
    - A table is the list of its rows; [select], [select_one], [count_where],
      [update_where], [delete_where] are the SQL statements.  A [Map] of the
      program is an association list in insertion order ([JsMap.v]); strings
      are their UTF-8 bytes, with [.length] counting UTF-16 units
      ([JsStrings.v]).
    - The clock ([Date.now()]), the ids the database generates, whether Redis
      and the database answer, and what each of several attempts does are
      arguments, so that theorems hold for all of them.  JWT, bcrypt, AES, HKDF,
      SHA-256, HMAC, tar, BullMQ, ioredis and the rendering of a date are
      parameters; where a theorem needs two hashes to differ, or decryption to
      undo encryption, it says so.
    - A database driver turns a count into a JavaScript value: [number_driver]
      as a number (the embedded engine), [string_driver] as a string (the
      server's driver, for a 64-bit count).  Code that compares with [===]
      distinguishes the two ([strict_zero]).
    - [app_error] keeps the class of an exception and a tag for the place that
      throws it in place of the bilingual message.

    ** Files

    The runtime:

    - [Prelude.v]: errors, the monad, tables, tactics, shared lemmas.
    - [JsMap.v], [JsStrings.v], [JsNumbers.v], [Json.v], [Encodings.v],
      [Calendar.v]: maps, strings, numbers, JSON, base64url and UTF-8, and dates
      as ECMAScript and Node define them; [OrderBy.v]: the order of SQL.

    Permissions and sessions:

    - [ModuleRegistry.v] ([permissions/registry.ts], [types.ts]) and
      [ModuleCatalogue.v] ([permissions/modules.ts]): registration, its
      validation, the lookups; the catalogue loads without error.
    - [PermissionCache.v] ([services/PermissionCache.ts]): the bounded cache.  A
      hit is the last write no invalidation has covered, within its time to
      live; the entry evicted is the least recently used.
    - [AuthCache.v] ([services/AuthCacheInvalidator.ts]): Redis keys, force-read
      flags, three attempts.
    - [PermissionService.v] ([services/PermissionService.ts]): [granted] is the
      decision the tables give; [hasPermission] with its cache computes it
      always, given the invariant [coherent], which every mutation keeps; the
      SQL listing and the grouped listing agree with it; what a role update and
      an override change, and that they change nothing else.
    - [PermissionAdmin.v] ([routes/permissionAdmin.ts],
      [services/PermissionAuditService.ts]): roles, matrices, overrides, their log.
    - [PathGate.v] ([middleware/pathGate.ts]): decoding in at most sixteen
      rounds, segments, the allow list.
    - [AuthMiddleware.v] ([middleware/auth.ts], [middleware/secureFileScoping.ts],
      [services/accountStatus.ts]): what a request that gets through has shown,
      and that an invalidation reaches the next request.
    - [RateLimiter.v] ([middleware/rateLimiter.ts]): the in-process store refines
      a log of all allowed requests; the Redis script.
    - [Accounts.v] ([services/UserService.ts], [middleware/lastAdminGuard.ts],
      [routes/users.ts]): the account table, its operations, the guard of the
      last administrator.
    - [UserDirectory.v] ([services/UserService.ts], [routes/users.ts]): creation
      with its employee number inside a transaction that a failed statement
      aborts, the update with its log, listings and the start page.
    - [PasswordReset.v] ([services/PasswordService.ts], [routes/auth/password.ts]):
      a user has one open request at most, and what an approval closes.
    - [OrgTree.v] ([services/DepartmentService.ts], [services/OrgService.ts]): the
      entities of the organization and the tree built from them, which ends and
      is complete for every table.
    - [Governance.v] ([services/FraudService.ts], [CoiService.ts], [IntegrityService.ts],
      [PolicyService.ts], [JobTitleService.ts]): requests for access to the fraud log as a
      state machine, declarations, policies and job titles.
    - [AuthService.v] ([services/AuthService.ts]): login, failed attempts, lockout.
    - [Sessions.v] ([services/SessionService.ts], [refreshTokenHash.ts],
      [PasswordService.ts], [passwordPolicy.ts]): rotation, revocation,
      password changes.
    - [TwoFactor.v] ([services/TOTPService.ts], [routes/auth/]) and
      [SessionCookies.v]: codes are accepted once, no session without the second
      factor, and which cookies a browser sends back.
    - [KeyStore.v] ([utils/keyStore.ts], [auth/jwtVerificationKeys.ts]): the RSA
      pair survives a restart; which tokens a rotation accepts.

    Requests and answers:

    - [RequestGuards.v], [Responses.v], [Idempotency.v] ([middleware/]): CSRF,
      CORS, versions and bodies; envelopes; a repeated request is replayed.
    - [ErrorHandler.v] ([middleware/error.ts], [validate.ts]) over [Regex.v]: what of an
      error a client sees, and the masking of its message; the checks of a request.
    - [Pagination.v], [Cursors.v], [QueryBuilder.v] ([utils/]): pages, keyset
      cursors that visit every row once and miss none but those a rounded key passes
      over, and as many parameters as placeholders.
    - [Paths.v], [SecureFiles.v], [FileEncryption.v]: containment, signed links,
      encryption at rest and the rotation of its key; [Uploads.v]
      ([utils/serverUtils.ts]): a stored file stays in its directory, and an
      encrypted upload has its row and its file or neither.

    Records:

    - [AuditChain.v] ([services/AuditChainService.ts]): appending and verifying,
      and which tampering verification reports.
    - [Numbering.v] ([services/NumberingService.ts]): counters and codes.
    - [AuditWorkflow.v] ([services/AuditService.ts], [RecommendationService.ts],
      [AuditTaskService.ts], [AuditPlanService.ts], [routes/recommendations.ts]):
      findings with their recommendation, the cascade that closes a finding,
      task transitions and assignments, plans.
    - [Records.v], [AppCodes.v], [GenericRecords.v], [CrudRoutes.v],
      [SoftDelete.v], [BulkOperations.v]: tables with named columns and the
      generic service of every register, its codes, routes, soft deletion and
      bulk operations.
    - [Correspondence.v], [AuditPrograms.v], [Archive.v], [PdfTemplates.v]: letters,
      programs, the archive of a plan, and the templates of documents.
    - [FallbackTemplates.v], [PdfRendering.v], [PdfJobs.v] ([constants/], [services/PdfEngine.ts],
      [BrowserPool.ts], [pdfHelpers.ts], [queues/workers/pdfWorker.ts]): the page around a
      document, the cache of templates, and renderings that end and give their
      browser back however the browser answers.
    - [Notifications.v], [Queues.v], [WebSockets.v], [Cron.v]: a notification
      reaches all its recipients or none, through the queue or around it; sockets
      are bounded and watched; the daily jobs.

    The process:

    - [Configuration.v], [Startup.v]: the environment, what a process checks
      before it listens, and how it stops.
    - [ReadWriteLock.v], [Transactions.v], [DbWrapper.v] ([db/index.ts],
      [services/transactionalEvents.ts]): the lock of the embedded engine for all
      interleavings; transactions with their event buffer over a database of connections that
      may fail, abort or be replaced between two commands; statements with their
      retries.  The other files use [Prelude.transaction],
      the case without nesting.
    - [CircuitBreaker.v] ([services/CircuitBreaker.ts]), [RedisManager.v]
      ([cache/redisManager.ts]): calls, probes, timers and events interleaved as
      step relations.
    - [Catalogue.v], [Schema.v], [SchemaUse.v], [MigrationRunner.v],
      [Partitions.v] ([db/migrations.ts], [migrationRunner.ts],
      [services/PartitionManager.ts]): the statements that build the schema, the
      inserts that must fit it, and the partitions of the audit trail.
    - [Backups.v] ([utils/backup.ts], [scripts/restoreDrill.ts]): what is backed
      up is restored, and what retention deletes.
    - [Health.v] ([index.ts], [routes/health.ts]): which handler answers a health path
      and what it says; the report of the six checks, which no path reaches.
    - [ErrorLogs.v] ([services/LogService.ts], [routes/logs.ts]): reports of errors
      carry no markup, the listings are complete, and the export reads back.
    - [ReleaseGates.v] ([launch/], [security/], [docs/], [scripts/]): what lets a
      build through.

    Each file states its invariants before its operations' theorems and ends
    with a [Module] of concrete data on which the theorems are applied.  The
    theorems that end in [_gaps] record inputs on which the code does not do what
    its comments say.

    ** Bounds and fuel

    Sixteen decoding rounds, three invalidation attempts, three attempts at the
    recommendations of a finding, two retries of a statement and three connection
    attempts are constants of the code.  Where a recursion is not structural the
    fuel is the length of what is left to read (the JSON reader, [replace_ci],
    paths, [batches]), which every step shortens, the levels of a tree, of which there
    are at most as many as rows ([buildTree]), or the number of days or
    seconds in the range the loop walks ([iter_dates], [wait_loop]); the theorems
    about these functions are stated for the fuel the definitions pass.  Numbers
    are unbounded integers: the code's are milliseconds, counters and counts far
    below 2^53; where a number comes from a text, [JsNumbers.v] keeps infinity
    and NaN.

    ** What is not modelled

    - HTTP parsing, mail, webhooks of n8n, Handlebars, the sanitizer and the browser
      that prints documents, metrics and logs: input and output around the rules above.  Failures the code
      catches and drops change no table here.
    - Listings and statistics that only join and aggregate rows.
    - What PostgreSQL refuses (types, CHECK conditions) is a parameter where a
      request chooses the columns ([accepts]), a unique constraint where a theorem
      depends on it, and otherwise left out; the columns every insert needs are in
      [SchemaUse.v].
    - An operation runs to its end before the next one starts, except where
      steps are interleaved explicitly (the circuit breaker, the lock, Redis, web
      sockets, idempotency keys, concurrent failed logins, two guarded
      removals). *)

From stdpp Require Export base tactics option list strings pretty numbers sorting.
From stdpp Require Export gmap.
From Stdlib Require Export Ascii ZArith Lia.

Create HintDb alsaqi.

(** ** Outcomes and stateful actions *)

(** The classes of [src/utils/errors.ts] a service throws.  The argument
    tells apart the throw sites; it stands for the message. *)
Inductive app_error : Type :=
  | ValidationError (what : string)
  | AuthError (what : string)
  | InvalidCredentialsError
  | ForbiddenError (what : string)
  | NotFoundError (what : string)
  | ConflictError (what : string)
  | GenericError (what : string).

#[export] Instance app_error_eq_dec : EqDecision app_error.
Proof. solve_decision. Defined.

(** The HTTP status the error class carries ([AppError.statusCode]; an error
    that is not an [AppError] has none and is answered with 500). *)
Definition statusCode (e : app_error) : Z :=
  match e with
  | ValidationError _ => 400
  | AuthError _ | InvalidCredentialsError => 401
  | ForbiddenError _ => 403
  | NotFoundError _ => 404
  | ConflictError _ => 409
  | GenericError _ => 500
  end.

Inductive outcome (E A : Type) : Type :=
  | Ok (a : A)
  | Throw (e : E).
Arguments Ok {E A} a.
Arguments Throw {E A} e.

Definition is_ok {E A} (r : outcome E A) : bool :=
  match r with Ok _ => true | Throw _ => false end.

(** An [async] method over a state [S]: it returns or throws, and leaves a
    state behind in both cases. *)
Definition action (E S A : Type) : Type := S → outcome E A * S.

#[export] Instance action_ret E S : MRet (action E S) := λ A a s, (Ok a, s).
#[export] Instance action_bind E S : MBind (action E S) := λ A B f m s,
  match m s with
  | (Ok a, s') => f a s'
  | (Throw e, s') => (Throw e, s')
  end.

Definition throw {E S A} (e : E) : action E S A := λ s, (Throw e, s).
Definition get_state {E S} : action E S S := λ s, (Ok s, s).
Definition gets {E S A} (f : S → A) : action E S A := λ s, (Ok (f s), s).
Definition modify {E S} (f : S → S) : action E S unit := λ s, (Ok tt, f s).

(** [if (!b) throw e] *)
Definition ensure {E S} (b : bool) (e : E) : action E S unit :=
  if b then mret tt else throw e.

(** [try { m } catch { h }] *)
Definition try_catch {E S A} (m : action E S A) (h : E → action E S A) : action E S A := λ s,
  match m s with
  | (Ok a, s') => (Ok a, s')
  | (Throw e, s') => h e s'
  end.

(** [db.transaction(fn)]: the rows written by [fn] survive exactly when [fn]
    returns.  [rollback old new] puts the database part of [old] back and
    keeps what no database holds (in-memory caches, events already sent). *)
Definition transaction {E S A} (rollback : S → S → S) (m : action E S A) : action E S A := λ s,
  match m s with
  | (Ok a, s') => (Ok a, s')
  | (Throw e, s') => (Throw e, rollback s s')
  end.

Fixpoint for_each {E S A} (f : A → action E S unit) (l : list A) : action E S unit :=
  match l with
  | [] => mret tt
  | x :: l' => f x ≫= λ _, for_each f l'
  end.

(** What a middleware does with a request: hands it to the next handler, or
    answers it with a status and the error code (or message) of the body. *)
Inductive reply : Type :=
  | Next
  | Reply (status : Z) (body : string).

#[export] Instance reply_eq_dec : EqDecision reply.
Proof. solve_decision. Defined.

(** A value a query returns, as JavaScript sees it.  [COUNT( * )] is a 64-bit
    integer, and whether the driver hands it over as a number or as a decimal
    string is the driver's choice: the code that compares it takes the driver
    as a parameter. *)
Inductive js_value : Type :=
  | JsNumber (n : Z)
  | JsString (s : string).

(** [v === 0] *)
Definition strict_zero (v : js_value) : bool :=
  match v with JsNumber n => (n =? 0)%Z | JsString _ => false end.

(** Two drivers: the embedded engine parses the count, the server's driver does not. *)
Definition number_driver (n : Z) : js_value := JsNumber n.
Definition string_driver (n : Z) : js_value := JsString (pretty n).

(** ** Laws of actions *)

Section action_laws.
Context {E S : Type}.

Lemma bind_Ok {A B} (m : action E S A) (f : A → action E S B) s b s2 :
  (m ≫= f) s = (Ok b, s2) ↔ ∃ a s1, m s = (Ok a, s1) ∧ f a s1 = (Ok b, s2).
Proof.
  unfold mbind, action_bind. destruct (m s) as [[a|e] s1]; split.
  - intros H; by exists a, s1.
  - intros (a' & s1' & [= <- <-] & H); exact H.
  - intros [=].
  - intros (a' & s1' & [=] & _).
Qed.

Lemma bind_Throw {A B} (m : action E S A) (f : A → action E S B) s e s2 :
  (m ≫= f) s = (Throw e, s2) ↔
  m s = (Throw e, s2) ∨ ∃ a s1, m s = (Ok a, s1) ∧ f a s1 = (Throw e, s2).
Proof.
  unfold mbind, action_bind. destruct (m s) as [[a|e'] s1]; split.
  - intros H; right; by exists a, s1.
  - intros [[=]|(a' & s1' & [= <- <-] & H)]; exact H.
  - intros [= -> ->]; by left.
  - intros [[= -> ->]|(a' & s1' & [=] & _)]; done.
Qed.

(** One step of a run. *)
Lemma ensure_bind {B} (b : bool) e (k : unit → action E S B) s : (ensure b e ≫= k) s = if b then k tt s else (Throw e, s).
Proof. unfold mbind, action_bind, ensure. by destruct b. Qed.
Lemma ok_bind {A B} (m : action E S A) (k : A → action E S B) s a s1 : m s = (Ok a, s1) → (m ≫= k) s = k a s1.
Proof. intros H. unfold mbind, action_bind. by rewrite H. Qed.
Lemma bind_bind {A B C} (m : action E S A) (f : A → action E S B) (k : B → action E S C) s :
  ((m ≫= f) ≫= k) s = (m ≫= (λ a, f a ≫= k)) s.
Proof. unfold mbind, action_bind. by destruct (m s) as [[a|e] s']. Qed.

Lemma transaction_Ok {A} rb (m : action E S A) s a s' :
  transaction rb m s = (Ok a, s') ↔ m s = (Ok a, s').
Proof. unfold transaction. destruct (m s) as [[?|?] ?]; naive_solver. Qed.

Lemma transaction_Throw {A} rb (m : action E S A) s e s' :
  transaction rb m s = (Throw e, s') → ∃ s1, m s = (Throw e, s1) ∧ s' = rb s s1.
Proof. unfold transaction. destruct (m s) as [[?|?] ?]; naive_solver. Qed.

(** [m] keeps [P], whether it returns or throws. *)
Definition preserves {A} (P : S → Prop) (m : action E S A) : Prop :=
  ∀ s, P s → P (m s).2.

Lemma preserves_ret {A} P (a : A) : preserves P (mret a).
Proof. by intros s H. Qed.
Lemma preserves_throw {A} P e : preserves (A:=A) P (throw e).
Proof. by intros s H. Qed.
Lemma preserves_get P : preserves P get_state.
Proof. by intros s H. Qed.
Lemma preserves_gets {A} P (f : S → A) : preserves P (gets f).
Proof. by intros s H. Qed.
Lemma preserves_ensure P b e : preserves P (ensure b e).
Proof. destruct b; by intros s H. Qed.
Lemma preserves_modify P f : (∀ s, P s → P (f s)) → preserves P (modify f).
Proof. intros Hf s H; by apply Hf. Qed.
Lemma preserves_bind {A B} P (m : action E S A) (f : A → action E S B) :
  preserves P m → (∀ a, preserves P (f a)) → preserves P (m ≫= f).
Proof.
  intros Hm Hf s H. specialize (Hm s H). unfold mbind, action_bind.
  destruct (m s) as [[a|e] s1]; [by apply Hf|done].
Qed.
Lemma preserves_for_each {A} P (f : A → action E S unit) l :
  (∀ x, preserves P (f x)) → preserves P (for_each f l).
Proof.
  intros Hf. induction l as [|x l IH]; [apply preserves_ret|].
  by apply preserves_bind.
Qed.
Lemma preserves_transaction {A} P rb (m : action E S A) :
  (∀ s s', P s → P s' → P (rb s s')) → preserves P m → preserves P (transaction rb m).
Proof.
  intros Hrb Hm s H. specialize (Hm s H). unfold transaction.
  destruct (m s) as [[a|e] s1]; [done|by apply Hrb].
Qed.
Lemma preserves_if {A} P (b : bool) (m1 m2 : action E S A) :
  preserves P m1 → preserves P m2 → preserves P (if b then m1 else m2).
Proof. by destruct b. Qed.
End action_laws.

#[export] Hint Resolve preserves_ret preserves_throw preserves_get preserves_gets
  preserves_ensure preserves_modify preserves_bind preserves_for_each
  preserves_transaction preserves_if : alsaqi.

(** Runs the head of an action that is applied to a state. *)
Ltac run_action :=
  unfold mret, mbind, action_ret, action_bind, throw, get_state, gets, modify, ensure in *;
  cbn in *.

(** Splits a run that ended in [Ok] along its binds. *)
Ltac inv_ok :=
  repeat match goal with
  | H : (_ ≫= _) _ = (Ok _, _) |- _ =>
      let a := fresh "r" in let s := fresh "s" in let H1 := fresh "Hrun" in
      apply bind_Ok in H as (a & s & H1 & H)
  | H : mret _ _ = (_, _) |- _ => injection H as <- <-
  | H : gets _ _ = (_, _) |- _ => injection H as <- <-
  | H : get_state _ = (_, _) |- _ => injection H as <- <-
  | H : modify _ _ = (_, _) |- _ => injection H as <- <-
  | H : throw _ _ = (Ok _, _) |- _ => discriminate H
  | H : ensure ?b _ _ = (Ok _, _) |- _ =>
      let Hb := fresh "Hguard" in
      destruct b eqn:Hb; [injection H as <- <-|discriminate H]
  | H : transaction _ _ _ = (Ok _, _) |- _ => apply transaction_Ok in H
  end.

(** Turns the boolean tests of the code into propositions. *)
Ltac bools :=
  repeat match goal with
  | H : _ && _ = true |- _ => apply andb_true_iff in H as [? ?]
  | H : _ || _ = false |- _ => apply orb_false_iff in H as [? ?]
  | H : negb _ = true |- _ => apply negb_true_iff in H
  | H : negb _ = false |- _ => apply negb_false_iff in H
  | H : bool_decide _ = true |- _ => apply bool_decide_eq_true in H
  | H : bool_decide _ = false |- _ => apply bool_decide_eq_false in H
  | H : Z.leb _ _ = true |- _ => apply Z.leb_le in H
  | H : Z.leb _ _ = false |- _ => apply Z.leb_gt in H
  | H : Z.ltb _ _ = true |- _ => apply Z.ltb_lt in H
  | H : Z.ltb _ _ = false |- _ => apply Z.ltb_ge in H
  end.

(** ** Tables: lists of rows, as the SQL statements read and write them *)

(** A filter that everything passes *)
Lemma filter_all {A} (p : A → bool) l : (∀ x, x ∈ l → p x = true) → List.filter p l = l.
Proof.
  induction l as [|x l IH]; cbn; intros H; [done|].
  rewrite H by set_solver. f_equal. apply IH. set_solver.
Qed.

Section tables.
Context {row : Type}.

(** [SELECT .. WHERE p] *)
Definition select (p : row → bool) (t : list row) : list row := List.filter p t.
(** [SELECT .. WHERE p] through [.get()]: the first row *)
Definition select_one (p : row → bool) (t : list row) : option row := List.find p t.
(** [SELECT COUNT( * ) .. WHERE p] *)
Definition count_where (p : row → bool) (t : list row) : Z := Z.of_nat (length (select p t)).
(** [UPDATE .. SET f WHERE p] *)
Definition update_where (p : row → bool) (f : row → row) (t : list row) : list row :=
  map (λ r, if p r then f r else r) t.
(** [DELETE .. WHERE p] *)
Definition delete_where (p : row → bool) (t : list row) : list row :=
  List.filter (λ r, negb (p r)) t.

Lemma elem_of_select p t r : r ∈ select p t ↔ r ∈ t ∧ p r = true.
Proof. unfold select. rewrite !list_elem_of_In, List.filter_In. done. Qed.

Lemma elem_of_delete_where p t r : r ∈ delete_where p t ↔ r ∈ t ∧ p r = false.
Proof.
  unfold delete_where. rewrite !list_elem_of_In, List.filter_In, negb_true_iff. done.
Qed.

Lemma elem_of_update_where p f t r :
  r ∈ update_where p f t ↔ ∃ r0, r0 ∈ t ∧ r = if p r0 then f r0 else r0.
Proof.
  unfold update_where. rewrite list_elem_of_In, in_map_iff.
  setoid_rewrite list_elem_of_In. naive_solver.
Qed.

Lemma length_update_where p f t : length (update_where p f t) = length t.
Proof. apply length_map. Qed.

Lemma select_one_Some p t r : select_one p t = Some r → r ∈ t ∧ p r = true.
Proof. intros H%List.find_some. by rewrite list_elem_of_In. Qed.

Lemma select_one_None p t : select_one p t = None ↔ ∀ r, r ∈ t → p r = false.
Proof.
  split.
  - intros H r Hr. apply list_elem_of_In in Hr. by eapply List.find_none in H.
  - intros H. destruct (select_one p t) as [r|] eqn:Hf; [|done].
    apply select_one_Some in Hf as [Hr Hp]. by rewrite H in Hp.
Qed.

Lemma select_nil p t : select p t = [] ↔ ∀ r, r ∈ t → p r = false.
Proof.
  split.
  - intros H r Hr. destruct (p r) eqn:Hp; [|done].
    assert (Hs : r ∈ select p t) by by apply elem_of_select.
    rewrite H in Hs. by apply not_elem_of_nil in Hs.
  - intros H. destruct (select p t) as [|r l] eqn:Hs; [done|].
    assert (Hr : r ∈ select p t) by (rewrite Hs; apply elem_of_cons; by left).
    apply elem_of_select in Hr as [Hr Hp]. by rewrite H in Hp.
Qed.

Lemma count_where_zero p t : count_where p t = 0%Z ↔ ∀ r, r ∈ t → p r = false.
Proof.
  rewrite <- select_nil. unfold count_where. destruct (select p t); cbn; [done|]. split; [lia|done].
Qed.

Lemma count_where_nonneg p t : (0 ≤ count_where p t)%Z.
Proof. unfold count_where. lia. Qed.

(** An update that keeps a column keeps the column of the whole table. *)
Lemma update_where_column {C} (col : row → C) p f t :
  (∀ r, p r = true → col (f r) = col r) → map col (update_where p f t) = map col t.
Proof.
  intros H. unfold update_where. rewrite map_map. apply map_ext.
  intros r. destruct (p r) eqn:Hp; auto.
Qed.
End tables.


(** [SELECT .. LIMIT 1] after an [UPDATE] that keeps the columns it filters on. *)
Lemma select_one_update {row : Type} (p q : row → bool) f (t : list row) :
  (∀ r, q r = true → p (f r) = p r) →
  select_one p (update_where q f t) = (λ r, if q r then f r else r) <$> select_one p t.
Proof.
  intros H. unfold select_one, update_where. induction t as [|r t IH]; [done|]. cbn.
  assert (p (if q r then f r else r) = p r) as -> by (destruct (q r) eqn:?; auto).
  by destruct (p r).
Qed.

Lemma map_unique {row key : Type} (col : row → key) (t : list row) r r' :
  NoDup (map col t) → r ∈ t → r' ∈ t → col r = col r' → r = r'.
Proof.
  induction t as [|x t IH]; cbn; [set_solver|].
  intros [Hni Hnd]%NoDup_cons [->|Hr]%elem_of_cons [->|Hr']%elem_of_cons Hc; auto.
  - destruct Hni. rewrite Hc. by apply (list_elem_of_fmap_2 col).
  - destruct Hni. rewrite <- Hc. by apply (list_elem_of_fmap_2 col).
Qed.
