(* ===== verification/JsMap.v ===== *)
(** * JavaScript [Map]s and [Set]s

    A [Map] iterates in insertion order: [set] on a present key keeps its
    position, [set] on a new key appends, [delete] removes.  The permission
    cache depends on that order for its eviction policy, so a map is an
    association list and not a finite map.  A [Set] of values is a list
    without repetition, kept in insertion order as well. *)

From S2P Require Import Prelude.

Section js_map.
Context {K V : Type} `{EqDecision K}.
Implicit Types (m : list (K * V)) (k : K) (v : V).

Fixpoint map_get (k : K) m : option V :=
  match m with
  | [] => None
  | (k', v) :: m' => if bool_decide (k = k') then Some v else map_get k m'
  end.

Definition map_has (k : K) m : bool := bool_decide (is_Some (map_get k m)).

Definition map_delete (k : K) m : list (K * V) :=
  List.filter (λ p, negb (bool_decide (k = p.1))) m.

Fixpoint map_set (k : K) (v : V) m : list (K * V) :=
  match m with
  | [] => [(k, v)]
  | (k', v') :: m' =>
      if bool_decide (k = k') then (k, v) :: m' else (k', v') :: map_set k v m'
  end.

Definition keys m : list K := m.*1.
Definition map_wf m : Prop := NoDup (keys m).

Lemma map_get_None k m : map_get k m = None ↔ k ∉ keys m.
Proof.
  unfold keys. induction m as [|[k' v] m IH]; cbn; [set_solver|].
  case_bool_decide; set_solver.
Qed.

Lemma map_get_Some_elem k v m : map_get k m = Some v → (k, v) ∈ m.
Proof.
  induction m as [|[k' v'] m IH]; cbn; [done|].
  case_bool_decide; set_solver.
Qed.

Lemma map_get_elem k v m : map_wf m → (k, v) ∈ m → map_get k m = Some v.
Proof.
  unfold map_wf, keys. induction m as [|[k' v'] m IH]; cbn; [set_solver|].
  intros Hnd Hin. inversion_clear Hnd as [|? ? Hni Hnd'].
  case_bool_decide as Hk; [subst|set_solver].
  apply elem_of_cons in Hin as [[= ->]|Hin]; [done|].
  destruct Hni. by apply list_elem_of_fmap_2' with (x := (k', v)).
Qed.

Lemma map_get_delete_eq k m : map_get k (map_delete k m) = None.
Proof.
  unfold map_delete. induction m as [|[k' v] m IH]; cbn; [done|].
  case_bool_decide as Hk; cbn; [done|]. by rewrite bool_decide_eq_false_2.
Qed.

Lemma map_get_delete_ne k k' m : k ≠ k' → map_get k (map_delete k' m) = map_get k m.
Proof.
  intros Hne. unfold map_delete. induction m as [|[k2 v] m IH]; cbn; [done|].
  repeat case_bool_decide; cbn; repeat case_bool_decide; congruence.
Qed.

Lemma map_get_set_eq k v m : map_get k (map_set k v m) = Some v.
Proof.
  induction m as [|[k' v'] m IH]; cbn; [by rewrite bool_decide_eq_true_2|].
  case_bool_decide as Hk; cbn.
  - by rewrite bool_decide_eq_true_2.
  - by rewrite bool_decide_eq_false_2.
Qed.

Lemma map_get_set_ne k k' v m : k ≠ k' → map_get k (map_set k' v m) = map_get k m.
Proof.
  intros Hne. induction m as [|[k2 v2] m IH]; cbn; repeat case_bool_decide; cbn;
    repeat case_bool_decide; congruence.
Qed.

Lemma keys_delete k m : keys (map_delete k m) = List.filter (λ k', negb (bool_decide (k = k'))) (keys m).
Proof.
  unfold keys, map_delete. induction m as [|[k' v] m IH]; cbn; [done|].
  destruct (negb _); cbn; congruence.
Qed.

Lemma elem_of_keys_delete k k' m : k' ∈ keys (map_delete k m) ↔ k' ≠ k ∧ k' ∈ keys m.
Proof.
  rewrite keys_delete, !list_elem_of_In, List.filter_In, negb_true_iff, bool_decide_eq_false.
  naive_solver.
Qed.

Lemma map_delete_wf k m : map_wf m → map_wf (map_delete k m).
Proof.
  unfold map_wf. rewrite keys_delete, !NoDup_ListNoDup. apply List.NoDup_filter.
Qed.

Lemma map_delete_absent k m : k ∉ keys m → map_delete k m = m.
Proof.
  unfold keys, map_delete. induction m as [|[k' v] m IH]; cbn; [done|].
  intros Hni. rewrite bool_decide_eq_false_2 by set_solver. cbn.
  f_equal. apply IH. set_solver.
Qed.

Lemma map_set_absent k v m : k ∉ keys m → map_set k v m = m ++ [(k, v)].
Proof.
  unfold keys. induction m as [|[k' v'] m IH]; cbn; [done|].
  intros Hni. rewrite bool_decide_eq_false_2 by set_solver.
  f_equal. apply IH. set_solver.
Qed.

Lemma keys_cons k v m : keys ((k, v) :: m) = k :: keys m.
Proof. done. Qed.

Lemma elem_of_keys k v m : (k, v) ∈ m → k ∈ keys m.
Proof. intros H. by apply (list_elem_of_fmap_2' fst m (k, v)). Qed.

Lemma keys_app m1 m2 : keys (m1 ++ m2) = keys m1 ++ keys m2.
Proof. apply fmap_app. Qed.

Lemma elem_of_keys_set k k' v m : k' ∈ keys (map_set k v m) ↔ k' = k ∨ k' ∈ keys m.
Proof.
  unfold keys. induction m as [|[k2 v2] m IH]; cbn; [set_solver|].
  case_bool_decide; cbn; set_solver.
Qed.

Lemma keys_set_present k v m : k ∈ keys m → keys (map_set k v m) = keys m.
Proof.
  induction m as [|[k' v'] m IH]; [intros Hk; by apply elem_of_nil in Hk|]. intros Hk. cbn.
  case_bool_decide as Heq; [by subst|]. cbn. f_equal. apply IH.
  by apply elem_of_cons in Hk as [Hk|Hk].
Qed.

Lemma map_set_wf k v m : map_wf m → map_wf (map_set k v m).
Proof.
  unfold map_wf. induction m as [|[k' v'] m IH]; cbn; [intros _; apply NoDup_singleton|].
  intros Hnd. inversion_clear Hnd as [|? ? Hni Hnd'].
  case_bool_decide as Hk; cbn; constructor; subst; auto.
  fold (keys (map_set k v m)). rewrite elem_of_keys_set. naive_solver.
Qed.

Lemma length_map_delete k m : length (map_delete k m) ≤ length m.
Proof. apply List.filter_length_le. Qed.

Lemma length_map_delete_present k m : k ∈ keys m → length (map_delete k m) < length m.
Proof.
  unfold keys, map_delete. induction m as [|[k' v] m IH]; cbn; [set_solver|].
  intros Hin. case_bool_decide as Hk; cbn.
  - pose proof (length_map_delete k m). unfold map_delete in *. lia.
  - apply elem_of_cons in Hin as [->|Hin]; [done|]. specialize (IH Hin). lia.
Qed.
End js_map.

Arguments map_wf {K V} m.
Arguments keys {K V} m.

#[export] Hint Resolve map_delete_wf map_set_wf : alsaqi.

(** [Set]s: [new Set(l)], [has], [add] and [delete]. *)
Section js_set.
Context {A : Type} `{EqDecision A}.

Definition set_has (x : A) (s : list A) : bool := bool_decide (x ∈ s).
Definition set_add (x : A) (s : list A) : list A := if set_has x s then s else s ++ [x].
Definition set_delete (x : A) (s : list A) : list A :=
  List.filter (λ y, negb (bool_decide (x = y))) s.
Definition set_of_list (l : list A) : list A := foldl (λ s x, set_add x s) [] l.

Lemma elem_of_set_add x y s : y ∈ set_add x s ↔ y = x ∨ y ∈ s.
Proof. unfold set_add, set_has. case_bool_decide; set_solver. Qed.

Lemma elem_of_set_delete x y s : y ∈ set_delete x s ↔ y ≠ x ∧ y ∈ s.
Proof.
  unfold set_delete. rewrite !list_elem_of_In, List.filter_In, negb_true_iff, bool_decide_eq_false.
  naive_solver.
Qed.

Lemma set_add_NoDup x s : NoDup s → NoDup (set_add x s).
Proof.
  unfold set_add, set_has. case_bool_decide; [done|]. intros.
  apply NoDup_app. split; [done|]. split; [set_solver|]. apply NoDup_singleton.
Qed.

Lemma set_of_list_spec l :
  NoDup (set_of_list l) ∧ ∀ x, x ∈ set_of_list l ↔ x ∈ l.
Proof.
  unfold set_of_list.
  assert (H : ∀ acc, NoDup acc → NoDup (foldl (λ s x, set_add x s) acc l) ∧
              ∀ x, x ∈ foldl (λ s x, set_add x s) acc l ↔ x ∈ acc ∨ x ∈ l).
  { induction l as [|y l IH]; intros acc Hacc; cbn; [set_solver|].
    destruct (IH (set_add y acc)) as [Hn He]; [by apply set_add_NoDup|].
    split; [done|]. intros x. rewrite He, elem_of_set_add. set_solver. }
  destruct (H []) as [Hn He]; [constructor|]. split; [done|]. set_solver.
Qed.

(** [new Set(l).size !== l.length] detects a repeated element. *)
Lemma set_of_list_length l : length (set_of_list l) = length l ↔ NoDup l.
Proof.
  destruct (set_of_list_spec l) as [Hn He]. split; intros H.
  - assert (Hp : set_of_list l ≡ₚ l).
    { apply submseteq_length_Permutation; [|lia].
      apply NoDup_submseteq; [done|]. intros x. apply He. }
    by rewrite <- Hp.
  - apply Permutation_length, NoDup_Permutation; auto.
Qed.
End js_set.
