(* ===== verification/JsStrings.v ===== *)
(** * JavaScript strings

    A string is its UTF-8 bytes.  [utf16_length] is [.length], which counts
    UTF-16 code units; for an ASCII string it is the number of bytes.  The
    case conversions and [trim] are exact on ASCII, the only part of them
    the modelled code depends on. *)

From S2P Require Import Prelude.

Definition chars (s : string) : list ascii := String.list_ascii_of_string s.
Definition of_chars (l : list ascii) : string := String.string_of_list_ascii l.
Definition code (c : ascii) : N := N_of_ascii c.
Definition in_range (lo hi : N) (c : ascii) : bool := (lo <=? code c)%N && (code c <=? hi)%N.

Definition is_upper : ascii → bool := in_range 65 90.
Definition is_lower : ascii → bool := in_range 97 122.
Definition is_digit : ascii → bool := in_range 48 57.
Definition is_alnum (c : ascii) : bool := is_upper c || is_lower c || is_digit c.
(** [\s] and [String.prototype.trim] on ASCII: tab to carriage return, space *)
Definition is_js_space (c : ascii) : bool := in_range 9 13 c || (code c =? 32)%N.

Definition all_chars (p : ascii → bool) (s : string) : bool := forallb p (chars s).
Definition some_char (p : ascii → bool) (s : string) : bool := existsb p (chars s).

Definition starts_with (s p : string) : bool := String.prefix p s.

(** [s.length] *)
Definition utf16_units (c : ascii) : nat :=
  if in_range 128 191 c then 0 else if (240 <=? code c)%N then 2 else 1.
Definition utf16_length (s : string) : nat := sum_list_with utf16_units (chars s).

Definition lower_char (c : ascii) : ascii :=
  if is_upper c then ascii_of_N (code c + 32) else c.
Definition upper_char (c : ascii) : ascii :=
  if is_lower c then ascii_of_N (code c - 32) else c.
Definition toLowerCase (s : string) : string := of_chars (map lower_char (chars s)).
Definition toUpperCase (s : string) : string := of_chars (map upper_char (chars s)).

Fixpoint drop_while {A} (p : A → bool) (l : list A) : list A :=
  match l with
  | [] => []
  | x :: l' => if p x then drop_while p l' else l
  end.
Definition trim (s : string) : string :=
  of_chars (rev (drop_while is_js_space (rev (drop_while is_js_space (chars s))))).

(** [s.split(c)] for a one-character separator *)
Fixpoint split_chars (c : ascii) (l : list ascii) : list (list ascii) :=
  match l with
  | [] => [[]]
  | x :: l' =>
      if bool_decide (x = c) then [] :: split_chars c l'
      else match split_chars c l' with
           | [] => [[x]]
           | seg :: segs => (x :: seg) :: segs
           end
  end.
Definition split (c : ascii) (s : string) : list string := map of_chars (split_chars c (chars s)).

(** [l.join(sep)] *)
Definition join (sep : string) (l : list string) : string := String.concat sep l.

(** [String(n).padStart(w, '0')] *)
Fixpoint zeros (n : nat) : string :=
  match n with O => "" | S n' => String "0" (zeros n') end.
Definition pad_start (w : nat) (s : string) : string := zeros (w - String.length s) +:+ s.

(** The value a string of decimal digits denotes. *)
Definition digit_value (c : ascii) : N := (code c - 48)%N.
Definition decimal_value (s : string) : N :=
  foldl (λ acc c, acc * 10 + digit_value c)%N 0%N (chars s).

(** ** Lemmas *)

Lemma chars_app s1 s2 : chars (s1 +:+ s2) = chars s1 ++ chars s2.
Proof.
  induction s1 as [|c s1 IH]; [done|].
  change (c :: chars (s1 +:+ s2) = c :: chars s1 ++ chars s2). by rewrite IH.
Qed.

Lemma chars_of_chars l : chars (of_chars l) = l.
Proof. apply String.list_ascii_of_string_of_list_ascii. Qed.

Lemma of_chars_chars s : of_chars (chars s) = s.
Proof. apply String.string_of_list_ascii_of_string. Qed.

#[export] Instance chars_inj : Inj (=) (=) chars.
Proof. intros s1 s2 H. by rewrite <- (of_chars_chars s1), H, of_chars_chars. Qed.

#[export] Instance of_chars_inj : Inj (=) (=) of_chars.
Proof. intros l1 l2 H. by rewrite <- (chars_of_chars l1), H, chars_of_chars. Qed.

Lemma length_chars s : length (chars s) = String.length s.
Proof. unfold chars. induction s as [|c s IH]; cbn; [done|]. by rewrite IH. Qed.

Lemma app_length_str s1 s2 :
  String.length (s1 +:+ s2) = (String.length s1 + String.length s2)%nat.
Proof. by rewrite <- !length_chars, chars_app, length_app. Qed.

Lemma starts_with_spec s p : starts_with s p = true ↔ ∃ t, s = p +:+ t.
Proof.
  unfold starts_with. revert s. induction p as [|c p IH]; intros s.
  - split; [by exists s|by destruct s].
  - destruct s as [|c' s]; [split; [done|by intros [t [=]]]|].
    change (String.prefix (String c p) (String c' s))
      with (if ascii_dec c c' then String.prefix p s else false).
    destruct (ascii_dec c c') as [->|Hne].
    + rewrite IH. split; intros [t Ht]; exists t; [by rewrite Ht|by injection Ht].
    + split; [done|]. intros [t [= ? ?]]. congruence.
Qed.

Lemma starts_with_app p t : starts_with (p +:+ t) p = true.
Proof. apply starts_with_spec. by exists t. Qed.

Lemma all_chars_Forall p s : all_chars p s = true ↔ Forall (λ c, p c = true) (chars s).
Proof. unfold all_chars. rewrite forallb_forall, Forall_forall. by setoid_rewrite list_elem_of_In. Qed.

(** A separator that does not occur after it splits a string one way only. *)
Lemma split_last_unique {A} (x : A) l1 l2 l1' l2' :
  l1 ++ x :: l2 = l1' ++ x :: l2' → x ∉ l2 → x ∉ l2' → l1 = l1' ∧ l2 = l2'.
Proof.
  revert l1'. induction l1 as [|y l1 IH]; intros [|y' l1'] Heq H1 H2; cbn in *.
  - by injection Heq.
  - injection Heq as <- ->. set_solver.
  - injection Heq as <- <-. set_solver.
  - injection Heq as <- Heq. destruct (IH l1') as [-> ->]; auto.
Qed.

Lemma split_last_unique_str c s1 s2 s1' s2' :
  s1 +:+ String c s2 = s1' +:+ String c s2' → c ∉ chars s2 → c ∉ chars s2' →
  s1 = s1' ∧ s2 = s2'.
Proof.
  intros Heq H1 H2. apply (f_equal chars) in Heq. rewrite !chars_app in Heq. cbn in Heq.
  destruct (split_last_unique _ _ _ _ _ Heq H1 H2) as [Ha Hb].
  split; by apply (inj chars).
Qed.

Lemma decimal_value_app s c :
  decimal_value (s +:+ String c "") = (decimal_value s * 10 + digit_value c)%N.
Proof. unfold decimal_value. by rewrite chars_app, foldl_app. Qed.

Lemma foldl_decimal_shift l acc :
  foldl (λ a c, a * 10 + digit_value c)%N acc l =
  (acc * 10 ^ N.of_nat (length l) + foldl (λ a c, a * 10 + digit_value c)%N 0%N l)%N.
Proof.
  revert acc. induction l as [|c l IH]; intros acc.
  - cbn. lia.
  - cbn [foldl]. rewrite (IH (acc * 10 + digit_value c)%N), (IH (0 * 10 + digit_value c)%N).
    cbn [length]. rewrite Nat2N.inj_succ, N.pow_succ_r'. lia.
Qed.

Lemma decimal_value_cons c s :
  decimal_value (String c s) =
  (digit_value c * 10 ^ N.of_nat (String.length s) + decimal_value s)%N.
Proof.
  unfold decimal_value at 1. cbn [chars String.list_ascii_of_string foldl].
  rewrite foldl_decimal_shift. fold (chars s). rewrite length_chars.
  fold (decimal_value s). lia.
Qed.

Lemma digit_value_char n : (n < 10)%N → digit_value (pretty_N_char n) = n.
Proof.
  intros Hn. destruct n as [|p]; [done|].
  do 9 (destruct p as [p|p|]; try reflexivity; try lia).
Qed.

Lemma decimal_value_go n s :
  decimal_value (pretty_N_go n s) =
  (n * 10 ^ N.of_nat (String.length s) + decimal_value s)%N.
Proof.
  revert s. induction (N.lt_wf_0 n) as [n _ IH]. intros s.
  destruct (decide (n = 0)%N) as [->|Hn]; [rewrite pretty_N_go_0; lia|].
  rewrite pretty_N_go_step by lia. rewrite IH by (apply N.div_lt; lia).
  rewrite decimal_value_cons, digit_value_char by (apply N.mod_lt; lia).
  cbn [String.length]. rewrite Nat2N.inj_succ, N.pow_succ_r'.
  pose proof (N.div_mod' n 10) as Hd.
  rewrite Hd at 3. lia.
Qed.

Lemma decimal_value_pretty (n : N) : decimal_value (pretty n) = n.
Proof.
  unfold pretty, pretty_N. case_decide as H; [by subst|].
  rewrite decimal_value_go. cbn. lia.
Qed.

Lemma decimal_value_pad w s : decimal_value (pad_start w s) = decimal_value s.
Proof.
  unfold pad_start. induction (w - String.length s)%nat as [|k IH]; [done|].
  cbn [zeros]. change (String "0" (zeros k) +:+ s) with (String "0" (zeros k +:+ s)).
  rewrite decimal_value_cons, IH. change (digit_value "0") with 0%N. lia.
Qed.

(** Two padded counters are equal only when the counters are. *)
Lemma pad_start_inj w w' (n m : N) :
  pad_start w (pretty n) = pad_start w' (pretty m) → n = m.
Proof.
  intros H. apply (f_equal decimal_value) in H.
  by rewrite !decimal_value_pad, !decimal_value_pretty in H.
Qed.

(** ** [includes] *)

(** [s.includes(sub)] *)
Fixpoint includes (s sub : string) : bool :=
  starts_with s sub ||
  match s with
  | "" => false
  | String _ s' => includes s' sub
  end.

Lemma includes_spec s sub : includes s sub = true ↔ ∃ a b, s = a +:+ sub +:+ b.
Proof.
  induction s as [|c s IH].
  - cbn [includes]. rewrite orb_false_r, starts_with_spec. split.
    + intros [t Ht]. by exists "", t.
    + intros (a & b & Hab). exists b. by destruct a.
  - cbn [includes]. rewrite orb_true_iff, IH, starts_with_spec. split.
    + intros [[t Ht]|(a & b & ->)]; [by exists "", t|]. by exists (String c a), b.
    + intros ([|c' a] & b & Hab); [left; by exists b|right].
      injection Hab as -> ->. by exists a, b.
Qed.

Lemma app_assoc_str (a b c : string) : (a +:+ b) +:+ c = a +:+ b +:+ c.
Proof. apply (inj chars). by rewrite !chars_app, app_assoc. Qed.

Lemma app_nil_r_str (a : string) : a +:+ "" = a.
Proof. apply (inj chars). rewrite chars_app. apply app_nil_r. Qed.

Lemma app_inj_l_str (a b c : string) : a +:+ b = a +:+ c → b = c.
Proof.
  intros H. apply (f_equal chars) in H. rewrite !chars_app in H.
  apply (inj chars). by apply app_inv_head in H.
Qed.

Lemma String_app c s t : String c s +:+ t = String c (s +:+ t).
Proof. done. Qed.

(** A string of characters that satisfy [p] holds no other character. *)
Lemma all_chars_not_in p s c : all_chars p s = true → p c = false → c ∉ chars s.
Proof.
  intros H%all_chars_Forall Hc Hin. rewrite Forall_forall in H. by rewrite (H c Hin) in Hc.
Qed.

(** A number prints as digits. *)
Lemma pretty_go_digits n : ∀ s, all_chars is_digit s = true → all_chars is_digit (pretty_N_go n s) = true.
Proof.
  induction (N.lt_wf_0 n) as [n _ IH]. intros s Hs.
  destruct (decide (n = 0)%N) as [->|Hn]; [by rewrite pretty_N_go_0|].
  rewrite pretty_N_go_step by lia. apply IH; [apply N.div_lt; lia|].
  unfold all_chars. change (chars (String ?c s)) with (c :: chars s). cbn [forallb].
  apply andb_true_iff. split; [|exact Hs]. pose proof (N.mod_lt n 10 ltac:(lia)) as Hm.
  destruct (n `mod` 10)%N as [|p]; [done|]. do 9 (destruct p as [p|p|]; try reflexivity; try lia).
Qed.

Lemma pretty_digits (n : N) : all_chars is_digit (pretty n) = true.
Proof. unfold pretty, pretty_N. case_decide; [done|]. by apply pretty_go_digits. Qed.

Lemma pad_digits w s : all_chars is_digit s = true → all_chars is_digit (pad_start w s) = true.
Proof.
  intros Hs. unfold pad_start, all_chars. rewrite chars_app, forallb_app. apply andb_true_iff. split; [|done].
  by induction (w - String.length s)%nat.
Qed.

Lemma split_chars_nonempty c l : split_chars c l ≠ [].
Proof. induction l as [|x l IH]; cbn; [done|]. case_bool_decide; [done|]. by destruct (split_chars c l). Qed.
