(* ===== verification/JsNumbers.v ===== *)
(** * JavaScript numbers read from strings

    [Number(s)], [parseInt(s, 10)], [parseInt(s)] and the few operations of
    [Math] and [Number] that paging and configuration use.  A finite number is
    a rational: rounding to the nearest double is not modelled; the overflow of
    [Number] to infinity and its underflow to zero are, that of [parseInt], which
    takes more than 308 digits, is not. *)

From Stdlib Require Export QArith Qround.
From S2P Require Import Prelude JsStrings.
Local Open Scope Z_scope.

Inductive js_num : Type :=
  | Finite (q : Q)
  | Infinite (negative : bool)
  | NaN.

Definition int (z : Z) : js_num := Finite (inject_Z z).

Definition isNaN (x : js_num) : bool := match x with NaN => true | _ => false end.
Definition isFinite (x : js_num) : bool := match x with Finite _ => true | _ => false end.
Definition isInteger (x : js_num) : bool :=
  match x with Finite q => Qeq_bool q (inject_Z (Qfloor q)) | _ => false end.

(** [x < y]; false when either is [NaN] *)
Definition js_lt (x y : js_num) : bool :=
  match x, y with
  | Finite p, Finite q => negb (Qle_bool q p)
  | Infinite n, Finite _ => n
  | Finite _, Infinite n => negb n
  | Infinite n, Infinite m => n && negb m
  | _, _ => false
  end.

Definition js_floor (x : js_num) : js_num :=
  match x with Finite q => int (Qfloor q) | _ => x end.
Definition js_max (x y : js_num) : js_num :=
  if isNaN x || isNaN y then NaN else if js_lt x y then y else x.
Definition js_min (x y : js_num) : js_num :=
  if isNaN x || isNaN y then NaN else if js_lt y x then y else x.

(** [x || d]: zero and [NaN] are falsy. *)
Definition js_or (x : js_num) (d : Z) : js_num :=
  match x with
  | Finite q => if Qeq_bool q 0 then int d else x
  | Infinite _ => x
  | NaN => int d
  end.

(** ** Reading digits *)

Definition digit_in (radix : N) (c : ascii) : option N :=
  let v := if is_digit c then Some (code c - 48)%N
           else if is_lower c then Some (code c - 87)%N
           else if is_upper c then Some (code c - 55)%N else None in
  v ≫= λ n, if (n <? radix)%N then Some n else None.

(** The value of the leading digits, how many there are, what follows them. *)
Fixpoint read_digits (radix acc : N) (count : nat) (l : list ascii) : N * nat * list ascii :=
  match l with
  | c :: l' =>
      match digit_in radix c with
      | Some d => read_digits radix (acc * radix + d) (S count) l'
      | None => (acc, count, l)
      end
  | [] => (acc, count, [])
  end.

Definition read_sign (l : list ascii) : bool * list ascii :=
  match l with
  | c :: l' => if bool_decide (c = "-"%char) then (true, l')
               else if bool_decide (c = "+"%char) then (false, l') else (false, l)
  | [] => (false, [])
  end.

Definition signed (negative : bool) (n : N) : Z := if negative then - Z.of_N n else Z.of_N n.

Definition is_x (c : ascii) : bool := bool_decide (c = "x"%char) || bool_decide (c = "X"%char).

(** [parseInt(s, 10)] *)
Definition parseInt_10 (s : string) : js_num :=
  let '(neg, l) := read_sign (drop_while is_js_space (chars s)) in
  match read_digits 10 0 0 l with
  | (_, O, _) => NaN
  | (n, S _, _) => int (signed neg n)
  end.

(** [parseInt(s)]: a [0x] prefix selects base 16. *)
Definition parseInt (s : string) : js_num :=
  let '(neg, l) := read_sign (drop_while is_js_space (chars s)) in
  let '(radix, l') := match l with
                      | z :: x :: l2 => if bool_decide (z = "0"%char) && is_x x then (16%N, l2) else (10%N, l)
                      | _ => (10%N, l) end in
  match read_digits radix 0 0 l' with
  | (_, O, _) => NaN
  | (n, S _, _) => int (signed neg n)
  end.

(** The least integer that rounds to infinity. *)
Definition overflow : Z := 2 ^ 1024 - 2 ^ 970.

(** [m * 10^e].  The first two tests keep the powers small: [2^(3 k)] is at most [10^k]. *)
Definition scaled (neg : bool) (m : N) (e : Z) : js_num :=
  let bits := Z.of_N (N.log2 m) in
  if (m =? 0)%N then int 0
  else if 0 <=? e then
    if (1024 <? bits + 3 * e) || (overflow <=? Z.of_N m * 10 ^ e) then Infinite neg
    else int (signed neg m * 10 ^ e)
  else if bits + 1 + 3 * e <=? -1075 then int 0
  else if overflow * 10 ^ (- e) <=? Z.of_N m then Infinite neg
  else Finite (Qmake (signed neg m) (Z.to_pos (10 ^ (- e)))).

(** An optional exponent to the end of the text. *)
Definition read_exponent (l : list ascii) : option Z :=
  match l with
  | [] => Some 0
  | c :: l' =>
      if bool_decide (c = "e"%char) || bool_decide (c = "E"%char) then
        let '(neg, l2) := read_sign l' in
        match read_digits 10 0 0 l2 with
        | (n, S _, []) => Some (signed neg n)
        | _ => None
        end
      else None
  end.

Definition read_decimal (neg : bool) (l : list ascii) : js_num :=
  let '(m, n, r) := read_digits 10 0 0 l in
  let '(m', k, r') := match r with
                      | c :: r2 => if bool_decide (c = "."%char) then
                                     let '(m2, n2, r3) := read_digits 10 m 0 r2 in (m2, n2, r3)
                                   else (m, O, r)
                      | [] => (m, O, []) end in
  match (n + k)%nat, read_exponent r' with
  | S _, Some e => scaled neg m' (e - Z.of_nat k)
  | _, _ => NaN
  end.

Definition read_radix (radix : N) (l : list ascii) : js_num :=
  match read_digits radix 0 0 l with (n, S _, []) => int (Z.of_N n) | _ => NaN end.

(** [Number(s)] *)
Definition js_Number (s : string) : js_num :=
  match chars (trim s) with
  | [] => int 0
  | l =>
      let prefix := match l with
                    | z :: x :: l2 =>
                        if bool_decide (z = "0"%char) then
                          if is_x x then Some (16%N, l2)
                          else if bool_decide (x = "o"%char) || bool_decide (x = "O"%char) then Some (8%N, l2)
                          else if bool_decide (x = "b"%char) || bool_decide (x = "B"%char) then Some (2%N, l2)
                          else None
                        else None
                    | _ => None end in
      match prefix with
      | Some (r, l2) => read_radix r l2
      | None =>
          let '(neg, l') := read_sign l in
          if bool_decide (l' = chars "Infinity") then Infinite neg else read_decimal neg l'
      end
  end.

Example Number_reads :
  map js_Number ["12"; " 7 "; ""; "0x1F"; "1e2"; "x"; "1.5.2"; "-Infinity"; "1e999"; "-3"]
  = [int 12; int 7; int 0; int 31; int 100; NaN; NaN; Infinite true; Infinite false; int (-3)].
Proof. vm_compute. reflexivity. Qed.

Example Number_fraction : isInteger (js_Number "2.50") = false ∧ isInteger (js_Number "2.0e0") = true.
Proof. by vm_compute. Qed.

(** ** Lemmas *)

Lemma isInteger_int z : isInteger (int z) = true.
Proof. unfold isInteger, int. apply Qeq_bool_iff. by rewrite Qfloor_Z. Qed.

Lemma js_lt_int a b : js_lt (int a) (int b) = (a <? b).
Proof.
  unfold js_lt, int, Qle_bool, inject_Z. cbn [Qnum Qden]. rewrite !Z.mul_1_r.
  destruct (Z.leb_spec b a), (Z.ltb_spec a b); cbn; lia || done.
Qed.

Lemma js_max_int a b : js_max (int a) (int b) = int (Z.max a b).
Proof.
  unfold js_max. cbn [isNaN int orb]. rewrite js_lt_int.
  destruct (Z.ltb_spec a b); f_equal; f_equal; lia.
Qed.

Lemma js_min_int a b : js_min (int a) (int b) = int (Z.min a b).
Proof.
  unfold js_min. cbn [isNaN int orb]. rewrite js_lt_int.
  destruct (Z.ltb_spec b a); f_equal; f_equal; lia.
Qed.

Lemma js_or_int a d : js_or (int a) d = int (if a =? 0 then d else a).
Proof.
  unfold js_or, int, Qeq_bool, inject_Z. cbn [Qnum Qden].
  rewrite Z.mul_1_r, Z.mul_0_l. by destruct (a =? 0).
Qed.

Lemma parseInt_10_cases s : parseInt_10 s = NaN ∨ ∃ z, parseInt_10 s = int z.
Proof.
  unfold parseInt_10. destruct (read_sign _) as [neg l].
  destruct (read_digits 10 0 0 l) as [[n [|k]] r]; [by left|right; by eexists].
Qed.

Lemma parseInt_cases s : parseInt s = NaN ∨ ∃ z, parseInt s = int z.
Proof.
  unfold parseInt. destruct (read_sign _) as [neg l].
  destruct (match l with _ :: _ :: _ => _ | _ => _ end) as [radix l'].
  destruct (read_digits radix 0 0 l') as [[n [|k]] r]; [by left|right; by eexists].
Qed.

Lemma read_digits_all l : ∀ acc count,
  forallb is_digit l = true →
  read_digits 10 acc count l =
  (foldl (λ a c, a * 10 + digit_value c)%N acc l, (count + length l)%nat, []).
Proof.
  induction l as [|c l IH]; intros acc count H; cbn [forallb read_digits foldl length] in *.
  - by rewrite Nat.add_0_r.
  - apply andb_true_iff in H as [Hc H].
    assert (digit_in 10 c = Some (code c - 48)%N) as ->.
    { unfold digit_in. rewrite Hc. cbn. unfold is_digit, in_range in Hc.
      apply andb_true_iff in Hc as [H1%N.leb_le H2%N.leb_le].
      by destruct (N.ltb_spec (code c - 48) 10); [|lia]. }
    rewrite IH by done. unfold digit_value. f_equal. f_equal. lia.
Qed.

Lemma drop_while_head {A} (p : A → bool) x l : p x = false → drop_while p (x :: l) = x :: l.
Proof. intros H. cbn. by rewrite H. Qed.

Lemma digit_not_sign c l : is_digit c = true → read_sign (c :: l) = (false, c :: l).
Proof. destruct c as [[] [] [] [] [] [] [] []]; try discriminate; reflexivity. Qed.

Lemma digit_not_space c : is_digit c = true → is_js_space c = false.
Proof. destruct c as [[] [] [] [] [] [] [] []]; try discriminate; reflexivity. Qed.

Lemma digit_not_x c : is_digit c = true → is_x c = false.
Proof. destruct c as [[] [] [] [] [] [] [] []]; try discriminate; reflexivity. Qed.

(** A string of digits reads as its decimal value. *)
Lemma parseInt_10_digits s :
  s ≠ "" → all_chars is_digit s = true → parseInt_10 s = int (Z.of_N (decimal_value s)).
Proof.
  intros Hne Hall. unfold parseInt_10, all_chars, decimal_value in *.
  destruct s as [|c s]; [done|]. change (chars (String c s)) with (c :: chars s) in *.
  pose proof Hall as Hc. cbn [forallb] in Hc. apply andb_true_iff in Hc as [Hc _].
  rewrite drop_while_head by by apply digit_not_space.
  rewrite digit_not_sign by done. by rewrite read_digits_all.
Qed.

Lemma parseInt_digits s :
  s ≠ "" → all_chars is_digit s = true → parseInt s = int (Z.of_N (decimal_value s)).
Proof.
  intros Hne Hall. unfold parseInt, all_chars, decimal_value in *.
  destruct s as [|c s]; [done|]. change (chars (String c s)) with (c :: chars s) in *.
  pose proof Hall as Hc. cbn [forallb] in Hc. apply andb_true_iff in Hc as [Hc Hr].
  rewrite drop_while_head by by apply digit_not_space.
  rewrite digit_not_sign by done. destruct (chars s) as [|x l]; [by rewrite read_digits_all|].
  cbn [forallb] in Hr. apply andb_true_iff in Hr as [Hx _].
  rewrite (digit_not_x x) by done. rewrite andb_false_r. by rewrite read_digits_all.
Qed.

(** ** Integer texts: [/^[+-]?\d+$/] *)

Definition integer_text (t : string) : bool :=
  let '(_, l) := read_sign (chars t) in negb (bool_decide (l = [])) && forallb is_digit l.

(** The integer such a text denotes. *)
Definition text_value (t : string) : Z :=
  let '(neg, l) := read_sign (chars t) in signed neg (decimal_value (of_chars l)).

Lemma trim_no_space t : forallb (λ c, negb (is_js_space c)) (chars t) = true → trim t = t.
Proof.
  intros H. unfold trim. rewrite forallb_forall in H.
  assert (Hd : ∀ l, (∀ c, In c l → In c (chars t)) → drop_while is_js_space l = l).
  { intros [|c l] Hl; [done|]. apply drop_while_head, negb_true_iff, H, Hl. by left. }
  rewrite (Hd (chars t)), (Hd (rev (chars t))), rev_involutive, of_chars_chars by
    (intros c; rewrite <- ?in_rev; done). done.
Qed.

Lemma integer_text_cases t : integer_text t = true →
  ∃ neg l sign, chars t = sign ++ l ∧ (sign = [] ∨ sign = ["-"%char] ∨ sign = ["+"%char]) ∧
    read_sign (chars t) = (neg, l) ∧ l ≠ [] ∧ forallb is_digit l = true.
Proof.
  unfold integer_text. destruct (read_sign (chars t)) as [neg l] eqn:Hs. intros H.
  apply andb_true_iff in H as [Hne%negb_true_iff%bool_decide_eq_false Hd].
  unfold read_sign in Hs. destruct (chars t) as [|c r]; [by injection Hs as <- <-|].
  destruct (bool_decide_reflect (c = "-"%char)) as [->|].
  { injection Hs as <- <-. exists true, r, ["-"%char]. naive_solver. }
  destruct (bool_decide_reflect (c = "+"%char)) as [->|]; injection Hs as <- <-.
  - exists false, r, ["+"%char]. naive_solver.
  - exists false, (c :: r), []. naive_solver.
Qed.

Lemma integer_text_no_space t : integer_text t = true → forallb (λ c, negb (is_js_space c)) (chars t) = true.
Proof.
  intros (neg & l & sign & -> & Hsign & _ & _ & Hd)%integer_text_cases.
  rewrite forallb_app. apply andb_true_iff. split.
  - by destruct Hsign as [->|[->| ->]].
  - apply forallb_forall. intros c Hc. rewrite forallb_forall in Hd. by rewrite digit_not_space by auto.
Qed.

Lemma integer_text_parseInt t : integer_text t = true → parseInt_10 t = int (text_value t).
Proof.
  intros Ht. pose proof (integer_text_no_space t Ht) as Hsp.
  apply integer_text_cases in Ht as (neg & l & sign & Hc & Hsign & Hs & Hne & Hd).
  unfold parseInt_10, text_value.
  assert (drop_while is_js_space (chars t) = chars t) as ->.
  { destruct (chars t) as [|c r]; [done|]. apply drop_while_head. cbn in Hsp.
    apply andb_true_iff in Hsp as [Hsp _]. by apply negb_true_iff in Hsp. }
  rewrite Hs, read_digits_all by done. destruct l as [|c l]; [done|]. cbn [length Nat.add].
  unfold decimal_value. by rewrite chars_of_chars.
Qed.

Lemma digit_not_letter c : is_digit c = true →
  is_x c = false ∧ bool_decide (c = "o"%char) || bool_decide (c = "O"%char) = false ∧
  bool_decide (c = "b"%char) || bool_decide (c = "B"%char) = false ∧ c ≠ "I"%char.
Proof. destruct c as [[] [] [] [] [] [] [] []]; try discriminate; by repeat split. Qed.

Lemma read_decimal_digits neg l : l ≠ [] → forallb is_digit l = true →
  read_decimal neg l = scaled neg (foldl (λ a c, a * 10 + digit_value c)%N 0%N l) 0.
Proof.
  intros Hne Hd. unfold read_decimal. rewrite read_digits_all by done. rewrite Nat.add_0_r.
  by destruct l.
Qed.

(** [Number] of an integer text is its value, or infinite when that is too big. *)
Lemma integer_text_Number t : integer_text t = true →
  js_Number t = int (text_value t) ∨ ∃ neg, js_Number t = Infinite neg ∧ 1000000 <= Z.abs (text_value t).
Proof.
  intros Ht. unfold js_Number. rewrite trim_no_space by by apply integer_text_no_space.
  apply integer_text_cases in Ht as (neg & l & sign & Hc & Hsign & Hs & Hne & Hd).
  assert (js_Number_tail : (let '(neg, l') := read_sign (chars t) in
             if bool_decide (l' = chars "Infinity") then Infinite neg else read_decimal neg l') = int (text_value t)
           ∨ ∃ neg, (let '(neg, l') := read_sign (chars t) in
             if bool_decide (l' = chars "Infinity") then Infinite neg else read_decimal neg l') = Infinite neg ∧
             1000000 <= Z.abs (text_value t)).
  { rewrite Hs. rewrite bool_decide_eq_false_2; [|by intros ->]. rewrite read_decimal_digits by done.
    unfold text_value. rewrite Hs. unfold decimal_value. rewrite chars_of_chars.
    unfold scaled. case_match eqn:Hz; [apply N.eqb_eq in Hz; rewrite Hz; left; by destruct neg|].
    cbn [Z.leb Z.compare]. set (m := foldl _ _ _). destruct (_ || _) eqn:Hbig.
    + right. exists neg. split; [done|].
      assert (Hm : 1000000 <= Z.of_N m).
      { destruct (Z.le_gt_cases 1000000 (Z.of_N m)) as [|Hlt]; [done|]. exfalso.
        assert (Hlog : (N.log2 m <= N.log2 1000000)%N) by (apply N.log2_le_mono; lia).
        change (N.log2 1000000) with 19%N in Hlog.
        assert (Hof : 1000000 <= overflow) by (apply Z.leb_le; vm_compute; reflexivity).
        apply orb_true_iff in Hbig as [Hbig%Z.ltb_lt|Hbig%Z.leb_le]; lia. }
      destruct neg; cbn [signed]; lia.
    + left. f_equal. lia. }
  destruct (chars t) as [|z [|x l2]] eqn:Hct.
  - by destruct Hsign as [->|[->| ->]]; destruct l.
  - exact js_Number_tail.
  - destruct (bool_decide_reflect (z = "0"%char)) as [->|]; [|exact js_Number_tail].
    assert (Hx : is_digit x = true).
    { destruct Hsign as [->|[->| ->]]; [|discriminate|discriminate]. cbn in Hc. subst l.
      cbn [forallb] in Hd. apply andb_true_iff in Hd as [_ Hd]. by apply andb_true_iff in Hd as [Hd _]. }
    destruct (digit_not_letter x Hx) as (-> & -> & -> & _). exact js_Number_tail.
Qed.

Lemma integer_text_finite t : integer_text t = true → Z.abs (text_value t) < 1000000 →
  isFinite (js_Number t) = true.
Proof. intros Ht Hv. destruct (integer_text_Number t Ht) as [->|(neg & _ & Hbig)]; [done|lia]. Qed.
