(* ===== verification/Json.v ===== *)
(** * JSON as the runtime provides it

    [JSON.stringify] and [JSON.parse] (ECMA-404 as V8 implements it).  Cursors
    and stored responses go through them.

    A number is kept as its source text, so [JSON.parse] keeps the digits and
    not the nearest double.  An object is an association list in insertion
    order ([JsMap.v]); JavaScript would move keys that look like array indices
    to the front, and no payload modelled has one.  A lone surrogate written
    as an escape is kept as its three bytes. *)

From S2P Require Import Prelude JsMap JsStrings.

(** ** Values *)

Inductive json : Type :=
  | JNull
  | JBool (b : bool)
  | JNum (lexeme : string)
  | JStr (s : string)
  | JArr (l : list json)
  | JObj (l : list (string * json)).

Section json_ind.
Context (P : json → Prop).
Hypotheses (HNull : P JNull) (HBool : ∀ b, P (JBool b)) (HNum : ∀ n, P (JNum n))
  (HStr : ∀ s, P (JStr s)) (HArr : ∀ l, Forall P l → P (JArr l))
  (HObj : ∀ l, Forall (λ m, P m.2) l → P (JObj l)).

Fixpoint json_nested_ind (v : json) {struct v} : P v :=
  match v with
  | JNull => HNull
  | JBool b => HBool b
  | JNum n => HNum n
  | JStr s => HStr s
  | JArr l => HArr l ((fix go l := match l return Forall P l with
      | [] => Forall_nil_2 _
      | x :: l' => Forall_cons_2 _ _ _ (json_nested_ind x) (go l') end) l)
  | JObj l => HObj l ((fix go l := match l return Forall (λ m, P m.2) l with
      | [] => Forall_nil_2 _
      | x :: l' => Forall_cons_2 _ _ _ (json_nested_ind x.2) (go l') end) l)
  end.
End json_ind.

(** [typeof v === 'string'] *)
Definition json_string (v : json) : option string :=
  match v with JStr s => Some s | _ => None end.

(** [v.k] of a non-null value; [None] is [undefined]. *)
Definition json_field (k : string) (v : json) : option json :=
  match v with JObj l => map_get k l | _ => None end.

(** ** [JSON.stringify] *)

Definition chr (n : N) : ascii := ascii_of_N n.
Definition is_code (n : N) (c : ascii) : bool := (code c =? n)%N.

Definition hex_digit (n : N) : ascii := if (n <? 10)%N then chr (48 + n) else chr (87 + n).

Definition escape_char (c : ascii) : list ascii :=
  let n := code c in
  if (n =? 34)%N then [chr 92; chr 34]
  else if (n =? 92)%N then [chr 92; chr 92]
  else if (n =? 8)%N then [chr 92; "b"%char]
  else if (n =? 9)%N then [chr 92; "t"%char]
  else if (n =? 10)%N then [chr 92; "n"%char]
  else if (n =? 12)%N then [chr 92; "f"%char]
  else if (n =? 13)%N then [chr 92; "r"%char]
  else if (n <? 32)%N then
    [chr 92; "u"%char; "0"%char; "0"%char; hex_digit (n / 16); hex_digit (n mod 16)]
  else [c].

Definition print_string (s : string) : list ascii :=
  chr 34 :: flat_map escape_char (chars s) ++ [chr 34].

Fixpoint commas (l : list (list ascii)) : list ascii :=
  match l with
  | [] => []
  | [x] => x
  | x :: l' => x ++ ","%char :: commas l'
  end.

Fixpoint print_json (v : json) : list ascii :=
  match v with
  | JNull => chars "null"
  | JBool b => chars (if b then "true" else "false")
  | JNum n => chars n
  | JStr s => print_string s
  | JArr l => "["%char :: commas (map print_json l) ++ ["]"%char]
  | JObj l =>
      "{"%char :: commas (map (λ m, print_string m.1 ++ ":"%char :: print_json m.2) l) ++ ["}"%char]
  end.

Definition stringify (v : json) : string := of_chars (print_json v).

(** ** [JSON.parse] *)

Definition is_json_space (c : ascii) : bool :=
  is_code 32 c || is_code 9 c || is_code 10 c || is_code 13 c.
Definition skip_ws : list ascii → list ascii := drop_while is_json_space.

Definition hex_of (c : ascii) : option N :=
  if is_digit c then Some (code c - 48)%N
  else if in_range 65 70 c then Some (code c - 55)%N
  else if in_range 97 102 c then Some (code c - 87)%N
  else None.

(** The characters of a string literal after its opening quote: raw bytes
    and the code units of [\u] escapes. *)
Fixpoint parse_chars (l : list ascii) : option (list (ascii + N) * list ascii) :=
  match l with
  | [] => None
  | c :: l' =>
      if is_code 34 c then Some ([], l')
      else if is_code 92 c then
        match l' with
        | [] => None
        | e :: l2 =>
            if is_code 117 e then
              match l2 with
              | h1 :: h2 :: h3 :: h4 :: l3 =>
                  n1 ← hex_of h1; n2 ← hex_of h2; n3 ← hex_of h3; n4 ← hex_of h4;
                  '(s, r) ← parse_chars l3;
                  Some (inr (n1 * 4096 + n2 * 256 + n3 * 16 + n4)%N :: s, r)
              | _ => None
              end
            else
              x ← (if is_code 34 e || is_code 92 e || is_code 47 e then Some e
                   else if is_code 98 e then Some (chr 8)
                   else if is_code 116 e then Some (chr 9)
                   else if is_code 110 e then Some (chr 10)
                   else if is_code 102 e then Some (chr 12)
                   else if is_code 114 e then Some (chr 13)
                   else None);
              '(s, r) ← parse_chars l2; Some (inl x :: s, r)
        end
      else if (code c <? 32)%N then None
      else '(s, r) ← parse_chars l'; Some (inl c :: s, r)
  end.

(** The UTF-8 bytes of a code point. *)
Definition utf8_encode (n : N) : list ascii :=
  if (n <? 128)%N then [chr n]
  else if (n <? 2048)%N then [chr (192 + n / 64); chr (128 + n mod 64)]
  else if (n <? 65536)%N then
    [chr (224 + n / 4096); chr (128 + n / 64 mod 64); chr (128 + n mod 64)]
  else [chr (240 + n / 262144); chr (128 + n / 4096 mod 64); chr (128 + n / 64 mod 64);
        chr (128 + n mod 64)].

(** Two escapes that form a surrogate pair are one code point. *)
Fixpoint assemble (l : list (ascii + N)) : list ascii :=
  match l with
  | [] => []
  | inl c :: l' => c :: assemble l'
  | inr u :: l' =>
      match l' with
      | inr w :: l'' =>
          if ((55296 <=? u) && (u <? 56320) && (56320 <=? w) && (w <? 57344))%N
          then utf8_encode (65536 + (u - 55296) * 1024 + (w - 56320)) ++ assemble l''
          else utf8_encode u ++ assemble l'
      | _ => utf8_encode u ++ assemble l'
      end
  end.

Definition parse_string (l : list ascii) : option (string * list ascii) :=
  '(s, r) ← parse_chars l; Some (of_chars (assemble s), r).

(** Numbers: [-? (0 | [1-9][0-9]* ) (. [0-9]+)? ([eE] [+-]? [0-9]+)?] *)
Definition is_number_char (c : ascii) : bool :=
  is_digit c || is_code 43 c || is_code 45 c || is_code 46 c || is_code 69 c || is_code 101 c.

Fixpoint take_while (p : ascii → bool) (l : list ascii) : list ascii * list ascii :=
  match l with
  | [] => ([], [])
  | c :: l' => if p c then let '(a, b) := take_while p l' in (c :: a, b) else ([], l)
  end.

Definition digits1 (l : list ascii) : option (list ascii) :=
  match take_while is_digit l with ([], _) => None | (_, r) => Some r end.

Definition valid_exponent (l : list ascii) : bool :=
  match l with
  | [] => true
  | c :: l' =>
      if is_code 69 c || is_code 101 c then
        let l2 := match l' with
                  | s :: l3 => if is_code 43 s || is_code 45 s then l3 else l'
                  | [] => l' end in
        match digits1 l2 with Some [] => true | _ => false end
      else false
  end.

Definition valid_fraction (l : list ascii) : bool :=
  match l with
  | c :: l' =>
      if is_code 46 c then
        match digits1 l' with Some r => valid_exponent r | None => false end
      else valid_exponent l
  | [] => true
  end.

Definition valid_number (l : list ascii) : bool :=
  let l1 := match l with c :: l' => if is_code 45 c then l' else l | [] => l end in
  match l1 with
  | [] => false
  | c :: l' =>
      if is_code 48 c then valid_fraction l'
      else if is_digit c then valid_fraction (take_while is_digit l').2
      else false
  end.

Definition parse_number (l : list ascii) : option (json * list ascii) :=
  let '(n, r) := take_while is_number_char l in
  if valid_number n then Some (JNum (of_chars n), r) else None.

(** The rest of [l] after the word [w]. *)
Fixpoint strip (w l : list ascii) : option (list ascii) :=
  match w, l with
  | [], _ => Some l
  | a :: w', b :: l' => if bool_decide (a = b) then strip w' l' else None
  | _ :: _, [] => None
  end.

Definition parse_word (w : string) (v : json) (l : list ascii) : option (json * list ascii) :=
  r ← strip (chars w) l; Some (v, r).

(** [l], skipping white space, starts with the character [n]. *)
Definition eat (n : N) (l : list ascii) : option (list ascii) :=
  match skip_ws l with
  | c :: l' => if is_code n c then Some l' else None
  | [] => None
  end.

Section parser.
(** One level of the parser, given the parser of the level below. *)
Context (value : list ascii → option (json * list ascii))
        (elems : list json → list ascii → option (list json * list ascii))
        (members : list (string * json) → list ascii → option (list (string * json) * list ascii)).

Definition value_step (l : list ascii) : option (json * list ascii) :=
  match skip_ws l with
  | [] => None
  | c :: l1 =>
      if is_code 123 c then
        match eat 125 l1 with
        | Some l2 => Some (JObj [], l2)
        | None => '(ms, l2) ← members [] l1; Some (JObj ms, l2)
        end
      else if is_code 91 c then
        match eat 93 l1 with
        | Some l2 => Some (JArr [], l2)
        | None => '(vs, l2) ← elems [] l1; Some (JArr vs, l2)
        end
      else if is_code 34 c then '(s, l2) ← parse_string l1; Some (JStr s, l2)
      else if is_code 116 c then parse_word "rue" (JBool true) l1
      else if is_code 102 c then parse_word "alse" (JBool false) l1
      else if is_code 110 c then parse_word "ull" JNull l1
      else parse_number (c :: l1)
  end.

Definition elems_step (acc : list json) (l : list ascii) : option (list json * list ascii) :=
  '(v, l1) ← value l;
  match eat 44 l1 with
  | Some l2 => elems (acc ++ [v]) l2
  | None => l2 ← eat 93 l1; Some (acc ++ [v], l2)
  end.

(** A repeated key keeps its first place and its last value. *)
Definition members_step (acc : list (string * json)) (l : list ascii)
    : option (list (string * json) * list ascii) :=
  l1 ← eat 34 l; '(k, l2) ← parse_string l1; l3 ← eat 58 l2; '(v, l4) ← value l3;
  match eat 44 l4 with
  | Some l5 => members (map_set k v acc) l5
  | None => l5 ← eat 125 l4; Some (map_set k v acc, l5)
  end.
End parser.

Fixpoint parse_value (fuel : nat) (l : list ascii) : option (json * list ascii) :=
  match fuel with
  | O => None
  | S n => value_step (parse_elems n) (parse_members n) l
  end
with parse_elems (fuel : nat) (acc : list json) (l : list ascii) : option (list json * list ascii) :=
  match fuel with
  | O => None
  | S n => elems_step (parse_value n) (parse_elems n) acc l
  end
with parse_members (fuel : nat) (acc : list (string * json)) (l : list ascii)
    : option (list (string * json) * list ascii) :=
  match fuel with
  | O => None
  | S n => members_step (parse_value n) (parse_members n) acc l
  end.

(** Two levels read at least one character, so twice the length is enough
    ([parse_fuel_enough]). *)
Definition parse_fuel (l : list ascii) : nat := 2 * length l + 2.

Definition JSON_parse (s : string) : option json :=
  '(v, r) ← parse_value (parse_fuel (chars s)) (chars s);
  match skip_ws r with [] => Some v | _ => None end.

(** ** The fuel is enough *)

Lemma skip_ws_length l : length (skip_ws l) ≤ length l.
Proof. unfold skip_ws. induction l as [|c l IH]; cbn; [done|]. destruct (is_json_space c); cbn; lia. Qed.

Lemma eat_length n l r : eat n l = Some r → length r < length l.
Proof.
  unfold eat. pose proof (skip_ws_length l) as Hl. destruct (skip_ws l) as [|c l']; [done|].
  destruct (is_code n c); intros [= ->]. cbn in Hl. lia.
Qed.

Lemma parse_chars_length l s r : parse_chars l = Some (s, r) → length r < length l.
Proof.
  revert s r. induction (Wf_nat.well_founded_ltof _ (@length ascii) l) as [l _ IH].
  unfold Wf_nat.ltof in IH. intros s r. destruct l as [|c l]; [done|]. cbn -[Nat.lt].
  destruct (is_code 34 c); [intros [= <- ->]; cbn; lia|].
  destruct (is_code 92 c).
  - destruct l as [|e l2]; [done|]. destruct (is_code 117 e).
    + destruct l2 as [|h1 [|h2 [|h3 [|h4 l3]]]]; try done.
      intros (? & _ & (? & _ & (? & _ & (? & _ & ([s' r'] & Hp & [= <- ->])%bind_Some)%bind_Some)%bind_Some)%bind_Some)%bind_Some.
      apply IH in Hp; cbn in *; lia.
    + intros (? & _ & ([s' r'] & Hp & [= <- ->])%bind_Some)%bind_Some.
      apply IH in Hp; cbn in *; lia.
  - destruct (code c <? 32)%N; [done|].
    intros ([s' r'] & Hp & [= <- ->])%bind_Some. apply IH in Hp; cbn in *; lia.
Qed.

Lemma parse_string_length l s r : parse_string l = Some (s, r) → length r < length l.
Proof. unfold parse_string. intros ([x r'] & H & [= <- ->])%bind_Some. by eapply parse_chars_length. Qed.

Lemma take_while_app p l : l = (take_while p l).1 ++ (take_while p l).2.
Proof.
  induction l as [|c l IH]; cbn; [done|]. destruct (p c); [|done].
  destruct (take_while p l); cbn in *. by f_equal.
Qed.

Lemma parse_number_length l v r : parse_number l = Some (v, r) → length r < length l.
Proof.
  unfold parse_number. pose proof (take_while_app is_number_char l) as Hl.
  destruct (take_while is_number_char l) as [n r'] eqn:Ht. cbn in Hl. subst l.
  destruct n as [|c n]; [done|]. destruct (valid_number _); intros [= _ ->].
  cbn. rewrite length_app. lia.
Qed.

Lemma strip_length w l r : strip w l = Some r → length r ≤ length l.
Proof.
  revert l r. induction w as [|a w IH]; intros [|b l] r; cbn -[bool_decide]; try (by intros [= <-]).
  case_bool_decide; [|done]. intros Hs%IH. lia.
Qed.

Lemma parse_word_length w v l v' r : parse_word w v l = Some (v', r) → length r ≤ length l.
Proof. unfold parse_word. intros (r' & H & [= _ ->])%bind_Some. by eapply strip_length. Qed.

Section levels.
Context (val1 val2 : list ascii → option (json * list ascii))
        (els1 els2 : list json → list ascii → option (list json * list ascii))
        (mem1 mem2 : list (string * json) → list ascii → option (list (string * json) * list ascii)).

(** A level's result depends on the levels below at shorter inputs only. *)
Lemma value_step_ext l :
  (∀ acc r, length r < length l → els1 acc r = els2 acc r) →
  (∀ acc r, length r < length l → mem1 acc r = mem2 acc r) →
  value_step els1 mem1 l = value_step els2 mem2 l.
Proof.
  intros He Hm. unfold value_step. pose proof (skip_ws_length l) as Hl.
  destruct (skip_ws l) as [|c l1]; [done|]. cbn in Hl.
  rewrite He, Hm by lia. done.
Qed.

Lemma elems_step_ext acc l :
  val1 l = val2 l → (∀ v r, val1 l = Some (v, r) → length r < length l) →
  (∀ acc r, length r < length l → els1 acc r = els2 acc r) →
  elems_step val1 els1 acc l = elems_step val2 els2 acc l.
Proof.
  intros Hv Hlen He. unfold elems_step. rewrite <- Hv.
  destruct (val1 l) as [[v r]|] eqn:Hval; [|done]. cbn. specialize (Hlen v r eq_refl).
  destruct (eat 44 r) as [r2|] eqn:Heat; [|done]. apply eat_length in Heat. apply He. lia.
Qed.

Lemma members_step_ext acc l :
  (∀ r, length r < length l → val1 r = val2 r) →
  (∀ v l' r, length l' < length l → val1 l' = Some (v, r) → length r < length l') →
  (∀ acc r, length r < length l → mem1 acc r = mem2 acc r) →
  members_step val1 mem1 acc l = members_step val2 mem2 acc l.
Proof.
  intros Hv Hlen Hm. unfold members_step.
  destruct (eat 34 l) as [l1|] eqn:H1; [|done]. apply eat_length in H1. cbn.
  destruct (parse_string l1) as [[k l2]|] eqn:H2; [|done]. apply parse_string_length in H2. cbn.
  destruct (eat 58 l2) as [l3|] eqn:H3; [|done]. apply eat_length in H3. cbn.
  rewrite <- Hv by lia. destruct (val1 l3) as [[v l4]|] eqn:H4; [|done].
  apply Hlen in H4; [|lia]. cbn.
  destruct (eat 44 l4) as [l5|] eqn:H5; [|done]. apply eat_length in H5. apply Hm. lia.
Qed.
End levels.

(** What is left is shorter than what was read. *)
Lemma parse_length fuel :
  (∀ l v r, parse_value fuel l = Some (v, r) → length r < length l) ∧
  (∀ acc l vs r, parse_elems fuel acc l = Some (vs, r) → length r < length l) ∧
  (∀ acc l ms r, parse_members fuel acc l = Some (ms, r) → length r < length l).
Proof.
  induction fuel as [|n (IHv & IHe & IHm)]; [done|]. split_and!.
  - intros l v r. cbn [parse_value]. unfold value_step.
    pose proof (skip_ws_length l) as Hl. destruct (skip_ws l) as [|c l1]; [done|]. cbn in Hl.
    destruct (is_code 123 c).
    { destruct (eat 125 l1) as [l2|] eqn:H; [intros [= _ ->]; apply eat_length in H; lia|].
      intros ([ms l2] & H2%IHm & [= _ ->])%bind_Some. lia. }
    destruct (is_code 91 c).
    { destruct (eat 93 l1) as [l2|] eqn:H; [intros [= _ ->]; apply eat_length in H; lia|].
      intros ([ms l2] & H2%IHe & [= _ ->])%bind_Some. lia. }
    destruct (is_code 34 c).
    { intros ([s l2] & H2%parse_string_length & [= _ ->])%bind_Some. lia. }
    destruct (is_code 116 c); [intros H%parse_word_length; lia|].
    destruct (is_code 102 c); [intros H%parse_word_length; lia|].
    destruct (is_code 110 c); [intros H%parse_word_length; lia|].
    intros H%parse_number_length. cbn in H. lia.
  - intros acc l vs r. cbn [parse_elems]. unfold elems_step.
    intros ([v l1] & H1%IHv & H)%bind_Some.
    destruct (eat 44 l1) as [l2|] eqn:H2; [apply eat_length in H2; apply IHe in H; lia|].
    apply bind_Some in H as (l2 & H3%eat_length & [= _ ->]). lia.
  - intros acc l ms r. cbn [parse_members]. unfold members_step.
    intros (l1 & H1%eat_length & ([k l2] & H2%parse_string_length & (l3 & H3%eat_length & ([v l4] & H4%IHv & H)%bind_Some)%bind_Some)%bind_Some)%bind_Some.
    destruct (eat 44 l4) as [l5|] eqn:H5; [apply eat_length in H5; apply IHm in H; lia|].
    apply bind_Some in H as (l5 & H6%eat_length & [= _ ->]). lia.
Qed.

Lemma parse_fuel_irrelevant n : ∀ m,
  (∀ l, 2 * length l < n → 2 * length l < m → parse_value n l = parse_value m l) ∧
  (∀ acc l, 2 * length l + 1 < n → 2 * length l + 1 < m → parse_elems n acc l = parse_elems m acc l) ∧
  (∀ acc l, 2 * length l < n → 2 * length l < m → parse_members n acc l = parse_members m acc l).
Proof.
  induction n as [|n IH]; intros [|m]; split_and!; intros; try lia; cbn [parse_value parse_elems parse_members].
  - apply value_step_ext; intros acc r Hr; apply (IH m); lia.
  - apply elems_step_ext; [apply (IH m); lia|apply parse_length|].
    intros acc' r Hr. apply (IH m); lia.
  - apply members_step_ext; [| |intros acc' r Hr; apply (IH m); lia].
    + intros r Hr. apply (IH m); lia.
    + intros v l' r _. apply parse_length.
Qed.

Lemma parse_fuel_enough fuel l :
  parse_fuel l ≤ fuel → parse_value fuel l = parse_value (parse_fuel l) l.
Proof. unfold parse_fuel. intros H. apply parse_fuel_irrelevant; lia. Qed.

(** ** [JSON.parse] inverts [JSON.stringify] *)

(** What the runtime can hold: numbers that read as numbers, no repeated key. *)
Fixpoint json_ok (v : json) : bool :=
  match v with
  | JNull | JBool _ | JStr _ => true
  | JNum n => valid_number (chars n) && all_chars is_number_char n
  | JArr l => forallb json_ok l
  | JObj l => bool_decide (NoDup (keys l)) && forallb (λ m, json_ok m.2) l
  end.

(** What follows a value does not continue a number. *)
Definition ends_value (l : list ascii) : bool :=
  match l with c :: _ => negb (is_number_char c) | [] => true end.

Ltac each_ascii c := destruct c as [[] [] [] [] [] [] [] []]; try reflexivity; try discriminate.

Lemma is_code_eq n c : is_code n c = true → c = chr n.
Proof.
  unfold is_code, code, chr. intros <-%N.eqb_eq. by rewrite ascii_N_embedding.
Qed.

Definition unit_of (c : ascii) : ascii + N :=
  match escape_char c with [_; _; _; _; _; _] => inr (code c) | _ => inl c end.

Lemma parse_chars_escape c l :
  parse_chars (escape_char c ++ l) =
  '(s, r) ← parse_chars l; Some (unit_of c :: s, r).
Proof. each_ascii c. Qed.

Lemma assemble_units l : assemble (map unit_of l) = l.
Proof.
  assert (Hu : ∀ c, (∃ u, unit_of c = inr u ∧ (u <? 32)%N = true ∧ utf8_encode u = [c]) ∨ unit_of c = inl c).
  { intros c. each_ascii c; try (right; reflexivity); left; eexists; done. }
  induction l as [|c l IH]; [done|]. cbn [map].
  destruct (Hu c) as [(u & -> & Hlt & He)| ->]; cbn [assemble]; [|by rewrite IH].
  apply N.ltb_lt in Hlt.
  destruct (map unit_of l) as [|[d|w] l2]; rewrite <- ?IH, ?He; [done|done|].
  by replace (55296 <=? u)%N with false by (symmetry; apply N.leb_gt; lia).
Qed.

Lemma parse_string_print s l :
  parse_string (flat_map escape_char (chars s) ++ chr 34 :: l) = Some (s, l).
Proof.
  unfold parse_string.
  assert (parse_chars (flat_map escape_char (chars s) ++ chr 34 :: l) = Some (map unit_of (chars s), l)) as ->.
  { induction (chars s) as [|c cs IH]; [done|]. cbn [flat_map map].
    by rewrite <- app_assoc, parse_chars_escape, IH. }
  cbn. by rewrite assemble_units, of_chars_chars.
Qed.

Lemma take_while_all p n l :
  forallb p n = true → match l with c :: _ => p c = false | [] => True end →
  take_while p (n ++ l) = (n, l).
Proof.
  intros Hn Hl. induction n as [|c n IH]; cbn in *.
  - destruct l as [|c l]; cbn; [done|]. by rewrite Hl.
  - apply andb_true_iff in Hn as [-> Hn]. by rewrite IH.
Qed.

Lemma valid_number_head l :
  valid_number l = true → ∃ c t, l = c :: t ∧ is_code 45 c || is_digit c = true.
Proof.
  destruct l as [|c t]; [done|]. intros H. exists c, t. split; [done|].
  unfold valid_number in H. destruct (is_code 45 c); [done|]. cbn.
  destruct (is_code 48 c) eqn:H0; [by apply is_code_eq in H0 as ->|].
  by destruct (is_digit c).
Qed.

(** How a printed value starts. *)
Lemma print_head v :
  json_ok v = true →
  ∃ c t, print_json v = c :: t ∧ is_json_space c = false ∧ is_code 93 c = false.
Proof.
  destruct v as [|[]|n|s|l|l]; cbn; intros Hok; try (by eexists _, _).
  apply andb_true_iff in Hok as [(c & t & -> & Hc)%valid_number_head _].
  eexists _, _. split; [done|]. revert Hc. each_ascii c; done.
Qed.

Lemma skip_ws_head c l : is_json_space c = false → skip_ws (c :: l) = c :: l.
Proof. intros H. cbn. by rewrite H. Qed.

Lemma eat_head n c l :
  is_json_space c = false → eat n (c :: l) = if is_code n c then Some l else None.
Proof. intros H. unfold eat. by rewrite skip_ws_head. Qed.

Lemma eat_chr n l : is_json_space (chr n) = false → is_code n (chr n) = true → eat n (chr n :: l) = Some l.
Proof. intros H1 H2. by rewrite eat_head, H2. Qed.

(** [p] reads back what was printed for [v]. *)
Definition reads (v : json) : Prop := ∀ l fuel,
  ends_value l = true → 2 * length (print_json v) < fuel →
  parse_value fuel (print_json v ++ l) = Some (v, l).

Lemma commas_cons x y l : commas (x :: y :: l) = x ++ ","%char :: commas (y :: l).
Proof. done. Qed.

Lemma parse_elems_print vs : ∀ acc l fuel,
  vs ≠ [] → Forall reads vs → 2 * length (commas (map print_json vs)) + 1 < fuel →
  parse_elems fuel acc (commas (map print_json vs) ++ "]"%char :: l) = Some (acc ++ vs, l).
Proof.
  induction vs as [|v vs IH]; intros acc l [|fuel] Hne Hall Hf; try done; [lia|].
  apply Forall_cons in Hall as [Hv Hall]. cbn [parse_elems]. unfold elems_step.
  destruct vs as [|w vs].
  - cbn [map commas] in *. rewrite Hv by (done || lia). done.
  - cbn [map] in *. rewrite commas_cons in Hf |- *. rewrite length_app in Hf. cbn [length] in Hf.
    rewrite <- app_assoc, Hv by (done || lia). cbn [mbind option_bind].
    rewrite <- app_comm_cons, eat_head by done. cbn [is_code].
    change (is_code 44 ",") with true. cbv iota.
    rewrite IH by (done || lia). by rewrite <- app_assoc.
Qed.

Definition print_member (m : string * json) : list ascii :=
  print_string m.1 ++ ":"%char :: print_json m.2.

Lemma parse_members_print ms : ∀ acc l fuel,
  ms ≠ [] → Forall (λ m, reads m.2) ms → NoDup (keys acc ++ keys ms) →
  2 * length (commas (map print_member ms)) < fuel →
  parse_members fuel acc (commas (map print_member ms) ++ "}"%char :: l) = Some (acc ++ ms, l).
Proof.
  induction ms as [|[k v] ms IH]; intros acc l [|fuel] Hne Hall Hnd Hf; try done; [lia|].
  apply Forall_cons in Hall as [Hv Hall]. cbn in Hv.
  assert (Hk : k ∉ keys acc) by (apply NoDup_app in Hnd as (_ & Hd & _); intros Hin; apply (Hd k Hin); constructor).
  assert (Hnd' : NoDup (keys (acc ++ [(k, v)]) ++ keys ms))
    by by rewrite keys_app, <- app_assoc.
  assert (Hstep : ∀ r, ends_value r = true → 2 * length (print_member (k, v)) < S fuel →
    parse_members (S fuel) acc (print_member (k, v) ++ r) =
    match eat 44 r with
    | Some l5 => parse_members fuel (acc ++ [(k, v)]) l5
    | None => l5 ← eat 125 r; Some (acc ++ [(k, v)], l5)
    end).
  { intros r Hr Hlen. cbn [parse_members]. unfold members_step, print_member, print_string.
    cbn [fst snd]. rewrite <- !app_comm_cons, <- !app_assoc.
    rewrite eat_chr by done. cbn [mbind option_bind app].
    rewrite parse_string_print. cbn [mbind option_bind].
    rewrite eat_head by done. change (is_code 58 ":") with true. cbv iota. cbn [mbind option_bind].
    rewrite Hv; [|done|]. 2:{ unfold print_member in Hlen. rewrite length_app in Hlen. cbn in Hlen. lia. }
    cbn [mbind option_bind]. by rewrite map_set_absent. }
  destruct ms as [|m ms].
  - cbn [map commas] in *. rewrite Hstep by (done || lia). done.
  - cbn [map] in *. rewrite commas_cons in Hf |- *. rewrite length_app in Hf. cbn [length] in Hf.
    rewrite <- app_assoc, <- app_comm_cons, Hstep by (done || lia).
    rewrite eat_head by done. change (is_code 44 ",") with true. cbv iota.
    rewrite IH by (done || lia). by rewrite <- app_assoc.
Qed.

Lemma parse_value_print v : json_ok v = true → reads v.
Proof.
  induction v as [|b|n|s|vs IH|ms IH] using json_nested_ind; intros Hok l [|fuel] Hl Hf; try lia;
    cbn [parse_value]; unfold value_step.
  - done.
  - by destruct b.
  - cbn [json_ok print_json] in *. apply andb_true_iff in Hok as [Hn Hall].
    pose proof Hn as (c & t & Hc & Hd)%valid_number_head. rewrite Hc.
    cbn [app]. rewrite skip_ws_head by (revert Hd; each_ascii c; done).
    assert (is_code 123 c = false ∧ is_code 91 c = false ∧ is_code 34 c = false ∧
      is_code 116 c = false ∧ is_code 102 c = false ∧ is_code 110 c = false)
      as (-> & -> & -> & -> & -> & ->) by (revert Hd; each_ascii c; done).
    unfold parse_number. rewrite app_comm_cons, <- Hc, take_while_all; [|done|].
    + by rewrite Hn, of_chars_chars.
    + unfold ends_value in Hl. destruct l; [done|]. by apply negb_true_iff.
  - cbn [print_json app]. unfold print_string. cbn [app].
    change (skip_ws (chr 34 :: ?t)) with (chr 34 :: t). rewrite <- app_assoc. cbn [app].
    cbn -[parse_string flat_map]. change (chr 34) with (chr 34). by rewrite parse_string_print.
  - cbn [json_ok print_json] in *. rewrite forallb_forall in Hok.
    cbn [app]. rewrite skip_ws_head by done. change (is_code 123 "[") with false.
    change (is_code 91 "[") with true. cbv iota. rewrite <- app_assoc. cbn [app].
    destruct vs as [|v vs]; [done|].
    destruct (print_head v) as (c & t & Hc & Hsp & H93); [apply Hok; by left|].
    assert (eat 93 (commas (map print_json (v :: vs)) ++ "]"%char :: l) = None) as ->.
    { cbn [map]. destruct vs as [|w vs]; [cbn [map commas]|cbn [map]; rewrite commas_cons];
        rewrite Hc, <- ?app_assoc; cbn [app]; by rewrite eat_head, H93. }
    rewrite parse_elems_print; [done|done| |cbn in Hf |- *; rewrite length_app in Hf; cbn in Hf; lia].
    rewrite Forall_forall in IH |- *. intros x Hx. apply IH; [done|].
    apply Hok. by apply list_elem_of_In.
  - cbn [json_ok print_json] in *. apply andb_true_iff in Hok as [Hnd%bool_decide_eq_true Hok].
    rewrite forallb_forall in Hok. fold print_member in *.
    change (λ m, print_string m.1 ++ ":"%char :: print_json m.2) with print_member in *.
    cbn [app]. rewrite skip_ws_head by done. change (is_code 123 "{") with true. cbv iota.
    rewrite <- app_assoc. cbn [app]. destruct ms as [|m ms]; [done|].
    assert (eat 125 (commas (map print_member (m :: ms)) ++ "}"%char :: l) = None) as ->.
    { cbn [map]. destruct ms as [|w ms]; [done|]. cbn [map]. by rewrite commas_cons. }
    rewrite parse_members_print; [done|done| |done|cbn in Hf |- *; rewrite length_app in Hf; cbn in Hf; lia].
    rewrite Forall_forall in IH |- *. intros x Hx. apply IH; [done|].
    apply Hok. by apply list_elem_of_In.
Qed.

Lemma JSON_parse_stringify v : json_ok v = true → JSON_parse (stringify v) = Some v.
Proof.
  intros Hok. unfold JSON_parse, stringify. rewrite chars_of_chars.
  rewrite <- (app_nil_r (print_json v)) at 2.
  rewrite parse_value_print; [done|done|done|unfold parse_fuel; lia].
Qed.
