(* ===== verification/Encodings.v ===== *)
(** * base64url and UTF-8 of a [Buffer], and JSON texts in them

    The alphabet, the three-byte groups without padding, the decoder that skips
    what it does not know, and the replacement of malformed UTF-8. *)

From S2P Require Import Prelude JsMap JsStrings Json.

(** ** [base64url] of a [Buffer] *)

Definition sextet_char (n : N) : ascii :=
  if (n <? 26)%N then chr (65 + n) else if (n <? 52)%N then chr (71 + n)
  else if (n <? 62)%N then chr (n - 4) else if (n =? 62)%N then chr 45 else chr 95.

(** The decoder takes the characters of both alphabets. *)
Definition char_sextet (c : ascii) : option N :=
  if is_upper c then Some (code c - 65)%N else if is_lower c then Some (code c - 71)%N
  else if is_digit c then Some (code c + 4)%N
  else if is_code 45 c || is_code 43 c then Some 62%N
  else if is_code 95 c || is_code 47 c then Some 63%N else None.

(** [buf.toString('base64url')]: no padding *)
Fixpoint base64url_encode (l : list ascii) : list ascii :=
  match l with
  | [] => []
  | [a] => let x := code a in [sextet_char (x / 4); sextet_char (x mod 4 * 16)]%N
  | [a; b] =>
      let x := code a in let y := code b in
      [sextet_char (x / 4); sextet_char (x mod 4 * 16 + y / 16); sextet_char (y mod 16 * 4)]%N
  | a :: b :: c :: l' =>
      let x := code a in let y := code b in let z := code c in
      sextet_char (x / 4) :: sextet_char (x mod 4 * 16 + y / 16) ::
      sextet_char (y mod 16 * 4 + z / 64) :: sextet_char (z mod 64) :: base64url_encode l'
  end%N.

Fixpoint join_sextets (l : list N) : list ascii :=
  match l with
  | s0 :: s1 :: s2 :: s3 :: l' =>
      chr (s0 * 4 + s1 / 16) :: chr (s1 mod 16 * 16 + s2 / 4) :: chr (s2 mod 4 * 64 + s3) ::
      join_sextets l'
  | [s0; s1; s2] => [chr (s0 * 4 + s1 / 16); chr (s1 mod 16 * 16 + s2 / 4)]
  | [s0; s1] => [chr (s0 * 4 + s1 / 16)]
  | _ => []
  end%N.

Lemma base64url_nonempty l : l ≠ [] → base64url_encode l ≠ [].
Proof. destruct l as [|? [|? [|? ?]]]; done. Qed.

(** [Buffer.from(s, 'base64url')]: what is not of the alphabet is skipped,
    and up to six bits at the end are dropped. *)
Definition base64url_decode (l : list ascii) : list ascii := join_sextets (omap char_sextet l).

Lemma char_sextet_char n : (n < 64)%N → char_sextet (sextet_char n) = Some n.
Proof.
  intros Hn.
  assert (forallb (λ k, bool_decide (char_sextet (sextet_char k) = Some k)) (map N.of_nat (seq 0 64)) = true)
    as H by by vm_compute.
  rewrite forallb_forall in H. eapply bool_decide_eq_true_1. apply (H n), in_map_iff.
  exists (N.to_nat n). split; [lia|]. apply in_seq. lia.
Qed.

Lemma code_chr n : (n < 256)%N → code (chr n) = n.
Proof. intros H. by apply N_ascii_embedding. Qed.
Lemma chr_code c : chr (code c) = c.
Proof. apply ascii_N_embedding. Qed.
Lemma code_bound c : (code c < 256)%N.
Proof. apply N_ascii_bounded. Qed.

Lemma chr_eq n c : n = code c → chr n = c.
Proof. intros ->. apply chr_code. Qed.

Ltac sextets := zify; Z.to_euclidean_division_equations; lia.

Lemma base64url_round_trip l : base64url_decode (base64url_encode l) = l.
Proof.
  unfold base64url_decode.
  assert (Hs : ∀ n l, (n < 64)%N → omap char_sextet (sextet_char n :: l) = n :: omap char_sextet l).
  { intros n l' Hn. change (omap char_sextet (sextet_char n :: l')) with
      (match char_sextet (sextet_char n) with Some y => y :: omap char_sextet l' | None => omap char_sextet l' end).
    by rewrite char_sextet_char. }
  induction (Wf_nat.well_founded_ltof _ (@length ascii) l) as [l _ IH].
  destruct l as [|a [|b [|c l]]]; [done| | |]; cbn [base64url_encode];
    pose proof (code_bound a); try pose proof (code_bound b); try pose proof (code_bound c);
    rewrite !Hs by sextets; cbn [omap list_omap join_sextets].
  - f_equal. apply chr_eq. sextets.
  - f_equal; [|f_equal].
    + apply chr_eq. sextets.
    + apply chr_eq. sextets.
  - f_equal; [|f_equal; [|f_equal]].
    + apply chr_eq. sextets.
    + apply chr_eq. sextets.
    + apply chr_eq. sextets.
    + apply IH. unfold Wf_nat.ltof. cbn. lia.
Qed.

(** ** [buf.toString('utf-8')] *)

(** The continuation bytes a first byte announces: how many, and the range of
    the first of them. *)
Definition utf8_lead (c : ascii) : option (nat * N * N) :=
  let n := code c in
  if in_range 194 223 c then Some (1, 128%N, 191%N)
  else if (n =? 224)%N then Some (2, 160%N, 191%N)
  else if (n =? 237)%N then Some (2, 128%N, 159%N)
  else if in_range 225 239 c then Some (2, 128%N, 191%N)
  else if (n =? 240)%N then Some (3, 144%N, 191%N)
  else if in_range 241 243 c then Some (3, 128%N, 191%N)
  else if (n =? 244)%N then Some (3, 128%N, 143%N)
  else None.

Definition replacement : list ascii := [chr 239; chr 191; chr 189].

(** [pending]: the bytes read of a sequence that still needs [need] bytes. *)
Fixpoint utf8_decode (pending : list ascii) (need : nat) (lo hi : N) (l : list ascii) : list ascii :=
  match l with
  | [] => match need with O => [] | S _ => replacement end
  | c :: l' =>
      let first :=
        if (code c <? 128)%N then c :: utf8_decode [] 0 0 0 l'
        else match utf8_lead c with
             | Some (n, lo', hi') => utf8_decode [c] n lo' hi' l'
             | None => replacement ++ utf8_decode [] 0 0 0 l'
             end in
      match need with
      | O => first
      | S need' =>
          if in_range lo hi c then
            match need' with
            | O => pending ++ c :: utf8_decode [] 0 0 0 l'
            | S _ => utf8_decode (pending ++ [c]) need' 128 191 l'
            end
          else replacement ++ first
      end
  end.
Definition utf8_to_string (l : list ascii) : string := of_chars (utf8_decode [] 0 0 0 l).

(** Well-formed UTF-8, which every string of the runtime is once encoded. *)
Fixpoint utf8_ok (need : nat) (lo hi : N) (l : list ascii) : bool :=
  match l with
  | [] => match need with O => true | S _ => false end
  | c :: l' =>
      match need with
      | O => if (code c <? 128)%N then utf8_ok 0 0 0 l'
             else match utf8_lead c with Some (n, lo', hi') => utf8_ok n lo' hi' l' | None => false end
      | S need' => in_range lo hi c &&
          match need' with O => utf8_ok 0 0 0 l' | S _ => utf8_ok need' 128 191 l' end
      end
  end.
Definition well_formed (s : string) : bool := utf8_ok 0 0 0 (chars s).

Lemma utf8_lead_need c n lo hi : utf8_lead c = Some (n, lo, hi) → n ≠ 0.
Proof. unfold utf8_lead. repeat case_match; intros [= <- <- <-]; done. Qed.

Lemma utf8_decode_ok l : ∀ pending need lo hi,
  utf8_ok need lo hi l = true → (need = 0 → pending = []) →
  utf8_decode pending need lo hi l = pending ++ l.
Proof.
  induction l as [|c l IH]; intros pending need lo hi Hok Hp.
  - destruct need; [by rewrite Hp|done].
  - destruct need as [|need']; cbn in *.
    + rewrite Hp by done. cbn. destruct (code c <? 128)%N; [by rewrite (IH [])|].
      destruct (utf8_lead c) as [[[n lo'] hi']|] eqn:Hl; [|done].
      apply utf8_lead_need in Hl. by rewrite (IH [c]).
    + apply andb_true_iff in Hok as [-> Hok]. destruct need'; [by rewrite (IH [])|].
      rewrite IH by done. by rewrite <- app_assoc.
Qed.

Lemma utf8_to_string_ok l : utf8_ok 0 0 0 l = true → utf8_to_string l = of_chars l.
Proof. intros H. unfold utf8_to_string. by rewrite utf8_decode_ok. Qed.

Lemma utf8_ok_0 lo hi l : utf8_ok 0 lo hi l = utf8_ok 0 0 0 l.
Proof. by destruct l. Qed.

Lemma utf8_ok_app l1 : ∀ l2 need lo hi,
  utf8_ok need lo hi l1 = true → utf8_ok 0 0 0 l2 = true → utf8_ok need lo hi (l1 ++ l2) = true.
Proof.
  induction l1 as [|c l1 IH]; intros l2 need lo hi H1 H2; cbn in *.
  { destruct need; [by rewrite utf8_ok_0|done]. }
  destruct need as [|need'].
  - destruct (code c <? 128)%N; [by apply IH|]. destruct (utf8_lead c) as [[[? ?] ?]|]; [by apply IH|done].
  - apply andb_true_iff in H1 as [-> H1]. destruct need'; by apply IH.
Qed.

Definition is_ascii (c : ascii) : bool := (code c <? 128)%N.

Lemma utf8_ok_ascii l : forallb is_ascii l = true → utf8_ok 0 0 0 l = true.
Proof. induction l as [|c l IH]; cbn; [done|]. unfold is_ascii at 1. destruct (code c <? 128)%N; [done|done]. Qed.

Lemma escape_char_high c : is_ascii c = false → escape_char c = [c].
Proof. each_ascii c. Qed.
Lemma escape_char_ascii c : is_ascii c = true → forallb is_ascii (escape_char c) = true.
Proof. each_ascii c. Qed.
Lemma in_range_high lo hi c : (128 <= lo)%N → in_range lo hi c = true → is_ascii c = false.
Proof. unfold in_range, is_ascii. intros Hlo [H _]%andb_true_iff. apply N.leb_le in H. apply N.ltb_ge. lia. Qed.
Lemma utf8_lead_lo c n lo hi : utf8_lead c = Some (n, lo, hi) → (128 <= lo)%N.
Proof. unfold utf8_lead. repeat case_match; intros [= <- <- <-]; lia. Qed.

Lemma utf8_ok_escape l : ∀ need lo hi,
  (128 <= lo)%N ∨ need = 0 → utf8_ok need lo hi l = true →
  utf8_ok need lo hi (flat_map escape_char l) = true.
Proof.
  induction l as [|c l IH]; intros need lo hi Hlo H; [done|]. cbn [flat_map]. destruct need as [|need'].
  - destruct (is_ascii c) eqn:Hc.
    + rewrite utf8_ok_0. apply utf8_ok_app; [by apply utf8_ok_ascii, escape_char_ascii|].
      apply IH; [by right|]. cbn in H. unfold is_ascii in Hc. by rewrite Hc in H.
    + rewrite escape_char_high by done. cbn in *. unfold is_ascii in Hc. rewrite Hc in *.
      destruct (utf8_lead c) as [[[n lo'] hi']|] eqn:Hl; [|done].
      apply IH; [left; by eapply utf8_lead_lo|done].
  - destruct Hlo as [Hlo|]; [|done]. cbn in H. apply andb_true_iff in H as [Hr H].
    rewrite escape_char_high by by eapply in_range_high. cbn. rewrite Hr. cbn.
    destruct need'; apply IH; auto; left; lia.
Qed.

(** A value all of whose strings are well formed prints well-formed text. *)
Fixpoint json_utf8 (v : json) : bool :=
  match v with
  | JStr s => well_formed s
  | JArr l => forallb json_utf8 l
  | JObj l => forallb (λ m, well_formed m.1 && json_utf8 m.2) l
  | _ => true
  end.

Lemma utf8_print_string s : well_formed s = true → utf8_ok 0 0 0 (print_string s) = true.
Proof.
  intros H. unfold print_string. change (chr 34 :: ?l) with ([chr 34] ++ l).
  apply utf8_ok_app; [done|]. apply utf8_ok_app; [|done]. apply utf8_ok_escape; [by right|done].
Qed.

Lemma utf8_commas l :
  Forall (λ x, utf8_ok 0 0 0 x = true) l → utf8_ok 0 0 0 (commas l) = true.
Proof.
  induction 1 as [|x l Hx Hl IH]; [done|]. destruct l as [|y l]; [done|].
  rewrite commas_cons. by apply utf8_ok_app.
Qed.

Lemma number_char_ascii c : is_number_char c = true → is_ascii c = true.
Proof. each_ascii c. Qed.

Lemma utf8_print v : json_ok v = true → json_utf8 v = true → utf8_ok 0 0 0 (print_json v) = true.
Proof.
  induction v as [|b|n|s|vs IH|ms IH] using json_nested_ind; cbn [json_ok json_utf8 print_json];
    intros Hok Hu; try done.
  - by destruct b.
  - apply andb_true_iff in Hok as [_ Hall]. apply utf8_ok_ascii.
    unfold all_chars in Hall. rewrite forallb_forall in Hall |- *.
    intros c Hc. by apply number_char_ascii, Hall.
  - by apply utf8_print_string.
  - change ("["%char :: ?l) with (["["%char] ++ l). apply utf8_ok_app; [done|]. apply utf8_ok_app; [|done].
    apply utf8_commas. rewrite forallb_forall in Hok, Hu. rewrite Forall_forall in IH. apply Forall_forall.
    intros x (v & <- & Hv)%list_elem_of_In%in_map_iff.
    apply IH; [by apply list_elem_of_In|by apply Hok|by apply Hu].
  - apply andb_true_iff in Hok as [_ Hok].
    change ("{"%char :: ?l) with (["{"%char] ++ l). apply utf8_ok_app; [done|]. apply utf8_ok_app; [|done].
    apply utf8_commas. rewrite forallb_forall in Hok, Hu. rewrite Forall_forall in IH. apply Forall_forall.
    intros x (m & <- & Hm)%list_elem_of_In%in_map_iff.
    specialize (Hu m Hm). apply andb_true_iff in Hu as [Hk Hu].
    apply utf8_ok_app; [by apply utf8_print_string|].
    change (":"%char :: ?l) with ([":"%char] ++ l). apply utf8_ok_app; [done|].
    apply IH; [by apply list_elem_of_In|by apply Hok|done].
Qed.

(** ** Text payloads: JSON in base64url *)

(** [Buffer.from(JSON.stringify(v), 'utf-8').toString('base64url')] *)
Definition to_base64url_json (v : json) : string :=
  of_chars (base64url_encode (chars (stringify v))).
(** [JSON.parse(Buffer.from(s, 'base64url').toString('utf-8'))]; [None] when it throws *)
Definition from_base64url_json (s : string) : option json :=
  JSON_parse (utf8_to_string (base64url_decode (chars s))).

Lemma base64url_json_round_trip v :
  json_ok v = true → json_utf8 v = true → from_base64url_json (to_base64url_json v) = Some v.
Proof.
  intros Hok Hu. unfold from_base64url_json, to_base64url_json.
  rewrite chars_of_chars, base64url_round_trip. unfold stringify at 1. rewrite chars_of_chars.
  rewrite utf8_to_string_ok by by apply utf8_print.
  by apply JSON_parse_stringify.
Qed.
