(* ===== verification/OrderBy.v ===== *)
(** * [ORDER BY]: sorting by a lexicographic key

    A key is a list of nullable cells.  [lex] is the order of [ORDER BY c1, c2]
    (a null is greater than every value), [sql_row_lt] the three-valued row
    comparison [(c1, c2) < (v1, v2)] of a [WHERE] clause.  Rows are sorted by
    merge sort; with distinct keys the result is the only strictly sorted
    arrangement of the rows. *)

From S2P Require Import Prelude.

(** What a client relies on: the column types are totally ordered. *)
Class StrictTotal {A} (ltb : A → A → bool) : Prop := {
  lt_irrefl : ∀ a, ltb a a = false;
  lt_trans : ∀ a b c, ltb a b = true → ltb b c = true → ltb a c = true;
  lt_total : ∀ a b, ltb a b = false → ltb b a = false → a = b }.

Section strict.
Context {A} (ltb : A → A → bool) `{!StrictTotal ltb}.

Lemma lt_asym a b : ltb a b = true → ltb b a = false.
Proof.
  intros H. destruct (ltb b a) eqn:Hba; [|done].
  by rewrite <- (lt_irrefl a), <- (lt_trans a b a H Hba).
Qed.

(** The complement is transitive. *)
Lemma ge_trans a b c : ltb a b = false → ltb b c = false → ltb a c = false.
Proof.
  intros H1 H2. destruct (ltb a c) eqn:H; [|done].
  destruct (ltb b a) eqn:Hba.
  - by rewrite (lt_trans b a c) in H2.
  - rewrite (lt_total a b H1 Hba) in H. congruence.
Qed.
End strict.

#[export] Instance Zltb_strict : StrictTotal Z.ltb.
Proof. split; intros *; rewrite ?Z.ltb_lt, ?Z.ltb_ge; lia. Qed.

#[export] Instance Nltb_strict : StrictTotal N.ltb.
Proof. split; intros *; rewrite ?N.ltb_lt, ?N.ltb_ge; lia. Qed.

(** The reverse order, for [DESC]. *)
Lemma flip_strict {A} (ltb : A → A → bool) :
  StrictTotal ltb → StrictTotal (λ a b, ltb b a).
Proof.
  intros Hs. split; intros *.
  - apply (lt_irrefl (ltb := ltb)).
  - intros H1 H2. by apply (lt_trans (ltb := ltb) c b a).
  - intros H1 H2. by apply (lt_total (ltb := ltb)).
Qed.

Definition nullable_lt {A} (ltb : A → A → bool) (a b : option A) : bool :=
  match a, b with
  | Some x, Some y => ltb x y
  | Some _, None => true
  | None, _ => false
  end.

#[export] Instance nullable_strict {A} (ltb : A → A → bool) :
  StrictTotal ltb → StrictTotal (nullable_lt ltb).
Proof.
  intros Hs. split.
  - intros [a|]; [|done]. exact (lt_irrefl a).
  - intros [a|] [b|] [c|]; cbn; try done. exact (lt_trans a b c).
  - intros [a|] [b|]; cbn; try done. intros. f_equal. by apply (lt_total (ltb := ltb)).
Qed.

Fixpoint lex {A} (ltb : A → A → bool) (l1 l2 : list A) : bool :=
  match l1, l2 with
  | a :: l1', b :: l2' => ltb a b || (negb (ltb b a) && lex ltb l1' l2')
  | [], _ :: _ => true
  | _, [] => false
  end.

#[export] Instance lex_strict {A} (ltb : A → A → bool) : StrictTotal ltb → StrictTotal (lex ltb).
Proof.
  intros Hs. split.
  - intros l. induction l as [|a l IH]; cbn; [done|]. by rewrite lt_irrefl, IH.
  - intros l1. induction l1 as [|a l1 IH]; intros [|b l2] [|c l3]; cbn; try done.
    intros [H1|[H1%negb_true_iff H2]%andb_true_iff]%orb_true_iff
           [H3|[H3%negb_true_iff H4]%andb_true_iff]%orb_true_iff.
    + by rewrite (lt_trans a b c).
    + destruct (ltb b c) eqn:Hbc; [by rewrite (lt_trans a b c)|].
      by rewrite <- (lt_total b c Hbc H3), H1.
    + destruct (ltb a b) eqn:Hab; [by rewrite (lt_trans a b c)|].
      by rewrite (lt_total a b Hab H1), H3.
    + destruct (ltb a b) eqn:Hab; [destruct (ltb b c) eqn:Hbc|]; [by rewrite (lt_trans a b c)| |].
      * by rewrite <- (lt_total b c Hbc H3), Hab.
      * rewrite (lt_total a b Hab H1). destruct (ltb b c); [done|]. rewrite H3. cbn. by eapply IH.
  - intros l1. induction l1 as [|a l1 IH]; intros [|b l2]; cbn; try done.
    intros [Hab H1]%orb_false_iff [Hba H2]%orb_false_iff.
    rewrite Hab, Hba in *. cbn in *. f_equal; [by apply lt_total|by apply IH].
Qed.

(** [(c1, c2, ..) < (v1, v2, ..)]: the first pair that differs decides; [None]
    (SQL's unknown) when a null is met before. *)
Fixpoint sql_row_lt {A} (ltb : A → A → bool) (l1 l2 : list (option A)) : option bool :=
  match l1, l2 with
  | [], [] => Some false
  | Some a :: l1', Some b :: l2' =>
      if ltb a b then Some true else if ltb b a then Some false else sql_row_lt ltb l1' l2'
  | _, _ => None
  end.

(** Without nulls, [WHERE] and [ORDER BY] compare rows the same way. *)
Lemma sql_row_lt_lex {A} (ltb : A → A → bool) l1 : ∀ l2,
  length l1 = length l2 →
  sql_row_lt ltb (map Some l1) (map Some l2) =
  Some (lex (nullable_lt ltb) (map Some l1) (map Some l2)).
Proof.
  induction l1 as [|a l1 IH]; intros [|b l2]; cbn; try done. intros [= Hlen].
  rewrite IH by done. by destruct (ltb a b), (ltb b a).
Qed.

(** ** Sorting rows *)

Section order_by.
Context {R K} (key : R → K) (before : K → K → bool).

Definition not_after (r1 r2 : R) : Prop := before (key r2) (key r1) = false.
#[export] Instance not_after_dec : RelDecision not_after.
Proof. intros r1 r2. unfold not_after. apply _. Defined.

Definition order_by (rows : list R) : list R := merge_sort not_after rows.

Definition strictly_sorted : list R → Prop :=
  StronglySorted (λ r1 r2, before (key r1) (key r2) = true).

Context `{!StrictTotal before}.

#[local] Instance not_after_total : Total not_after.
Proof.
  intros r1 r2. unfold not_after. destruct (before (key r1) (key r2)) eqn:H; [|by right].
  left. by apply lt_asym.
Qed.
#[local] Instance not_after_trans : Transitive not_after.
Proof. intros r1 r2 r3 H1 H2. unfold not_after in *. by apply (ge_trans before _ (key r2)). Qed.

Lemma order_by_perm rows : order_by rows ≡ₚ rows.
Proof. apply merge_sort_Permutation. Qed.

Lemma elem_of_order_by r rows : r ∈ order_by rows ↔ r ∈ rows.
Proof. by rewrite order_by_perm. Qed.

Lemma order_by_sorted rows : StronglySorted not_after (order_by rows).
Proof. apply (StronglySorted_merge_sort not_after). Qed.

Lemma order_by_strict rows : NoDup (map key rows) → strictly_sorted (order_by rows).
Proof.
  intros Hnd. assert (Hnd' : NoDup (map key (order_by rows))) by by rewrite order_by_perm.
  pose proof (StronglySorted_merge_sort not_after rows) as Hs. fold (order_by rows) in Hs.
  induction Hs as [|r l Hs IH Hall]; [constructor|].
  cbn in Hnd'. apply NoDup_cons in Hnd' as [Hni Hnd']. constructor; [by apply IH|].
  rewrite Forall_forall in Hall |- *. intros r' Hr'. specialize (Hall r' Hr'). unfold not_after in Hall.
  destruct (before (key r) (key r')) eqn:Hb; [done|].
  destruct Hni. rewrite (lt_total _ _ Hb Hall). by apply (list_elem_of_fmap_2 key).
Qed.

(** No row goes before the first one. *)
Lemma order_by_head rows r0 l :
  order_by rows = r0 :: l → ∀ r, r ∈ rows → before (key r) (key r0) = false.
Proof.
  intros Ho r Hr. rewrite <- elem_of_order_by, Ho in Hr.
  pose proof (StronglySorted_merge_sort not_after rows) as Hs. fold (order_by rows) in Hs.
  rewrite Ho in Hs. apply StronglySorted_inv in Hs as [_ Hall]. rewrite Forall_forall in Hall.
  apply elem_of_cons in Hr as [->|Hr]; [apply lt_irrefl|exact (Hall r Hr)].
Qed.

Lemma strictly_sorted_unique l1 l2 :
  strictly_sorted l1 → strictly_sorted l2 → l1 ≡ₚ l2 → l1 = l2.
Proof.
  intros H1. revert l2. induction H1 as [|x l1 H1 IH Hx]; intros l2 H2 Hp.
  - by apply Permutation_nil in Hp.
  - destruct H2 as [|y l2 H2 Hy]; [by apply Permutation_sym, Permutation_nil_cons in Hp|].
    rewrite Forall_forall in Hx, Hy.
    assert (x = y) as ->.
    { assert (Hxin : x ∈ y :: l2) by (rewrite <- Hp; by left).
      assert (Hyin : y ∈ x :: l1) by (rewrite Hp; by left).
      apply elem_of_cons in Hxin as [->|Hxin]; [done|].
      apply elem_of_cons in Hyin as [->|Hyin]; [done|].
      pose proof (Hx y Hyin) as Ha. pose proof (Hy x Hxin) as Hb. apply lt_asym in Ha; [|done].
      congruence. }
    f_equal. apply IH; [done|]. by apply Permutation_cons_inv in Hp.
Qed.

Lemma strictly_sorted_filter p l : strictly_sorted l → strictly_sorted (List.filter p l).
Proof.
  unfold strictly_sorted. induction 1 as [|x l Hl IH Hx]; cbn; [constructor|].
  destruct (p x); [|done]. constructor; [done|]. rewrite Forall_forall in Hx |- *.
  intros y Hy. apply Hx. apply list_elem_of_In, List.filter_In in Hy as [Hy _].
  by apply list_elem_of_In.
Qed.

Lemma NoDup_map_filter p (rows : list R) : NoDup (map key rows) → NoDup (map key (List.filter p rows)).
Proof.
  induction rows as [|r rows IH]; cbn; [done|]. intros [Hni Hnd]%NoDup_cons.
  destruct (p r); cbn; [|by apply IH]. apply NoDup_cons. split; [|by apply IH].
  intros (r' & Heq & Hr')%list_elem_of_fmap. apply Hni. rewrite Heq. apply list_elem_of_fmap_2.
  apply list_elem_of_In, List.filter_In in Hr' as [Hr' _]. by apply list_elem_of_In.
Qed.

(** Filtering commutes with sorting. *)
Lemma order_by_filter p rows :
  NoDup (map key rows) → order_by (List.filter p rows) = List.filter p (order_by rows).
Proof.
  intros Hnd. apply strictly_sorted_unique.
  - by apply order_by_strict, NoDup_map_filter.
  - by apply strictly_sorted_filter, order_by_strict.
  - rewrite order_by_perm.
    assert (H : ∀ l1 l2 : list R, l1 ≡ₚ l2 → List.filter p l1 ≡ₚ List.filter p l2).
    { induction 1 as [| |x y l|]; cbn; [done|by case_match; [constructor|]| |by etrans].
      repeat case_match; try reflexivity. apply Permutation_swap. }
    apply H. symmetry. apply order_by_perm.
Qed.

(** What follows an element is what comes after it. *)
Lemma strictly_sorted_after l1 x l2 :
  strictly_sorted (l1 ++ x :: l2) →
  List.filter (λ r, before (key x) (key r)) (l1 ++ x :: l2) = l2.
Proof.
  unfold strictly_sorted. induction l1 as [|y l1 IH]; cbn; intros Hs; inversion_clear Hs as [|? ? Hs' Hall].
  - rewrite lt_irrefl. rewrite Forall_forall in Hall. clear Hs'.
    induction l2 as [|z l2 IH]; cbn; [done|]. rewrite Hall by by left.
    f_equal. apply IH. intros r Hr. apply Hall. by right.
  - rewrite Forall_forall in Hall. rewrite lt_asym; [by apply IH|done|]. apply Hall. set_solver.
Qed.

Lemma strictly_sorted_replace_tail l1 x l2 l2' :
  strictly_sorted (l1 ++ x :: l2) → strictly_sorted l2' →
  Forall (λ r, before (key x) (key r) = true) l2' → strictly_sorted ((l1 ++ [x]) ++ l2').
Proof.
  unfold strictly_sorted. intros H1 H2 Hx. rewrite <- app_assoc. cbn.
  induction l1 as [|y l1 IH]; cbn in *; inversion_clear H1 as [|? ? H1' Hall].
  - by constructor.
  - constructor; [by apply IH|]. rewrite Forall_forall in Hall, Hx |- *.
    intros r [Hr|[->|Hr]%elem_of_cons]%elem_of_app; [apply Hall; set_solver|apply Hall; set_solver|].
    apply (lt_trans _ (key x)); [apply Hall; set_solver|by apply Hx].
Qed.

Lemma strictly_sorted_NoDup l : strictly_sorted l → NoDup l.
Proof.
  unfold strictly_sorted. induction 1 as [|x l _ IH Hall]; constructor; [|done].
  intros Hin. rewrite Forall_forall in Hall. specialize (Hall x Hin). by rewrite lt_irrefl in Hall.
Qed.
End order_by.
