(* ===== verification/ModuleRegistry.v ===== *)
(** * Permission module registry ([src/src/permissions/registry.ts])

    The registry is the [Map<string, ModuleDefinition>] of the singleton
    [ModuleRegistryImpl].  [register] validates a definition and throws on
    the first rule it breaks; [getModule] and [getDefaultPermissions] serve
    the permission checks. *)

From S2P Require Import Prelude JsMap JsStrings.
Local Open Scope Z_scope.

(** [enum UserRole] of [@alsaqi/shared]: the values are what the tables hold. *)
Module UserRole.
Definition ADMIN : string := "Admin".
Definition INTERNAL_AUDITOR : string := "Internal Auditor".
Definition COMPLIANCE_OFFICER : string := "Compliance Officer".
Definition RISK_OFFICER : string := "Risk Officer".
Definition MANAGER : string := "Manager".
Definition VIEWER : string := "Viewer".
End UserRole.

Record NavigationConfig := {
  icon : string;
  path : string;
  order : Z;
  parent : option string;
}.

Record ModuleDefinition := {
  name : string;
  label_en : string;
  label_ar : string;
  actions : list string;
  defaults : list (string * list string);
  navigation : option NavigationConfig;
  fileScope : option bool;
}.

#[export] Instance NavigationConfig_eq_dec : EqDecision NavigationConfig.
Proof. solve_decision. Defined.
#[export] Instance ModuleDefinition_eq_dec : EqDecision ModuleDefinition.
Proof. solve_decision. Defined.

Abbreviation registry := (list (string * ModuleDefinition)).

Definition VALID_ACTIONS : list string := ["View"; "Create"; "Edit"; "Delete"; "Approve"].

Definition VALID_ROLES : list string :=
  [UserRole.ADMIN; UserRole.INTERNAL_AUDITOR; UserRole.COMPLIANCE_OFFICER;
   UserRole.RISK_OFFICER; UserRole.MANAGER; UserRole.VIEWER].

Definition MAX_NAME_LENGTH : nat := 50.
Definition MAX_LABEL_LENGTH : nat := 100.

(** [/^[A-Z][a-zA-Z0-9]*$/.test(s)] *)
Definition PASCAL_CASE_PATTERN (s : string) : bool :=
  match chars s with
  | [] => false
  | c :: l => is_upper c && forallb is_alnum l
  end.

(** [!label || label.length === 0 || label.length > MAX_LABEL_LENGTH], negated *)
Definition label_ok (s : string) : bool :=
  negb (bool_decide (s = "")) && bool_decide (utf16_length s ≤ MAX_LABEL_LENGTH)%nat.

Definition validateDefinition (reg : registry) (d : ModuleDefinition) : outcome app_error unit :=
  if bool_decide (d.(name) = "") || negb (bool_decide (utf16_length d.(name) ≤ MAX_NAME_LENGTH)%nat)
     || negb (PASCAL_CASE_PATTERN d.(name))
  then Throw (GenericError "Invalid module name")
  else if map_has d.(name) reg then Throw (GenericError "already registered")
  else if negb (label_ok d.(label_en)) then Throw (GenericError "English label")
  else if negb (label_ok d.(label_ar)) then Throw (GenericError "Arabic label")
  else if bool_decide (d.(actions) = []) then Throw (GenericError "at least one action")
  else if negb (forallb (λ a, bool_decide (a ∈ VALID_ACTIONS)) d.(actions))
  then Throw (GenericError "Invalid action")
  else if negb (forallb (λ r, bool_decide (r ∈ VALID_ROLES)) (keys d.(defaults)))
  then Throw (GenericError "Invalid role")
  else match d.(navigation) with
       | Some nav =>
           if negb (bool_decide (nav.(path) = "")) && negb (starts_with nav.(path) "/")
           then Throw (GenericError "Navigation path")
           else Ok tt
       | None => Ok tt
       end.

Definition register (d : ModuleDefinition) : action app_error registry unit := λ reg,
  match validateDefinition reg d with
  | Ok _ => (Ok tt, map_set d.(name) d reg)
  | Throw e => (Throw e, reg)
  end.

Definition getModule (reg : registry) (n : string) : option ModuleDefinition := map_get n reg.
Definition getAllModules (reg : registry) : list ModuleDefinition := reg.*2.
Definition getModuleNames (reg : registry) : list string := keys reg.

(** [mod.defaults[role]] when it is a non-empty array *)
Definition default_actions (d : ModuleDefinition) (role : string) : list string :=
  default [] (map_get role d.(defaults)).

Definition getDefaultPermissions (reg : registry) (role : string) : list (string * list string) :=
  foldl (λ result p,
           match default_actions p.2 role with
           | [] => result
           | acts => map_set p.1 acts result
           end) [] reg.

Record NavigationItem := {
  item_module : string;
  item_path : string;
  item_order : Z;
  item_parent : option string;
}.

Definition navigation_item (d : ModuleDefinition) : option NavigationItem :=
  nav ← d.(navigation);
  Some {| item_module := d.(name); item_path := nav.(path);
          item_order := nav.(order); item_parent := nav.(parent) |}.

(** [items.sort((a, b) => a.order - b.order)], which is stable *)
Fixpoint insert_item (x : NavigationItem) (l : list NavigationItem) : list NavigationItem :=
  match l with
  | [] => [x]
  | y :: l' => if x.(item_order) <=? y.(item_order) then x :: l else y :: insert_item x l'
  end.
Definition sort_items (l : list NavigationItem) : list NavigationItem := foldr insert_item [] l.

Definition getNavigationConfig (reg : registry) : list NavigationItem :=
  sort_items (omap navigation_item (getAllModules reg)).

(** ** What a registered definition satisfies *)

Record definition_ok (d : ModuleDefinition) : Prop := {
  ok_pascal : PASCAL_CASE_PATTERN d.(name) = true;
  ok_length : (utf16_length d.(name) ≤ MAX_NAME_LENGTH)%nat;
  ok_actions : d.(actions) ≠ [] ∧ ∀ a, a ∈ d.(actions) → a ∈ VALID_ACTIONS;
  ok_roles : ∀ r, r ∈ keys d.(defaults) → r ∈ VALID_ROLES;
}.

Definition registry_wf (reg : registry) : Prop :=
  map_wf reg ∧ ∀ n d, map_get n reg = Some d → n = d.(name) ∧ definition_ok d.

Lemma validateDefinition_Ok reg d :
  validateDefinition reg d = Ok tt → definition_ok d ∧ map_has d.(name) reg = false.
Proof.
  unfold validateDefinition. intros H.
  repeat (case_match; [discriminate|]); bools.
  all: split; [|done]; constructor; try done.
  all: repeat match goal with H : forallb _ _ = true |- _ => rewrite forallb_forall in H end.
  all: setoid_rewrite list_elem_of_In; intros; try split; intros; try done.
  all: try (match goal with H : ∀ x, In x _ → _, H2 : In ?a _ |- _ => specialize (H a H2) end).
  all: bools; try by rewrite <- list_elem_of_In.
Qed.

(** ** Registration *)

Lemma register_preserves d : preserves registry_wf (register d).
Proof.
  intros reg [Hwf Hdef]. unfold register.
  destruct (validateDefinition reg d) as [[]|e] eqn:Hv; cbn; [|done].
  apply validateDefinition_Ok in Hv as [Hok _]. split; [by apply map_set_wf|].
  intros n d'. destruct (decide (n = d.(name))) as [->|Hne].
  - rewrite map_get_set_eq. by intros [= <-].
  - rewrite map_get_set_ne by done. apply Hdef.
Qed.

(** a registration either throws and leaves the registry as it is, or appends a definition
    whose name was not registered, is PascalCase and at most 50 code units long, and whose
    actions and roles are among the known ones; one entry per module is kept throughout. *)
Theorem register_spec d reg :
  registry_wf reg →
  let '(r, reg') := register d reg in
  registry_wf reg' ∧
  match r with
  | Ok _ => getModule reg d.(name) = None ∧ reg' = reg ++ [(d.(name), d)] ∧ definition_ok d
  | Throw _ => reg' = reg
  end.
Proof.
  intros Hreg. pose proof (register_preserves d reg Hreg) as Hwf. revert Hwf.
  unfold register, getModule. destruct (validateDefinition reg d) as [[]|e] eqn:Hv;
    intros Hwf; (split; [exact Hwf|]); [|done].
  apply validateDefinition_Ok in Hv as [Hok Hnew]. unfold map_has in Hnew.
  apply bool_decide_eq_false, eq_None_not_Some in Hnew.
  split_and!; try done. by apply map_set_absent, map_get_None.
Qed.

Lemma register_spec_witness :
  let d := {| name := "Risk"; label_en := "Risk"; label_ar := "R"; actions := ["View"];
              defaults := []; navigation := None; fileScope := None |} in
  registry_wf [] ∧
  let '(r, reg') := register d [] in
  registry_wf reg' ∧
  match r with
  | Ok _ => getModule [] d.(name) = None ∧ reg' = [] ++ [(d.(name), d)] ∧ definition_ok d
  | Throw _ => reg' = []
  end.
Proof.
  intros d. assert (H : registry_wf []) by (split; [constructor|by intros ? ? [=]]).
  split; [exact H|]. exact (register_spec d [] H).
Defined.

Lemma foldl_defaults_get (reg : registry) role (acc : list (string * list string)) n :
  map_wf reg → (∀ k, k ∈ keys acc → k ∉ keys reg) →
  map_get n (foldl (λ result p, match default_actions p.2 role with
                                | [] => result
                                | acts => map_set p.1 acts result
                                end) acc reg) =
  match map_get n reg with
  | Some d => match default_actions d role with [] => None | acts => Some acts end
  | None => map_get n acc
  end.
Proof.
  revert acc. induction reg as [|[k d] reg IH]; intros acc Hwf Hdis; [done|].
  unfold map_wf in Hwf. rewrite keys_cons in Hwf, Hdis. apply NoDup_cons in Hwf as [Hni Hwf].
  cbn [foldl map_get fst snd].
  set (acc' := match default_actions d role with [] => acc | acts => map_set k acts acc end).
  assert (Hdis' : ∀ k0, k0 ∈ keys acc' → k0 ∉ keys reg).
  { intros k0. unfold acc'. destruct (default_actions d role) as [|a l].
    - intros Hk. specialize (Hdis k0 Hk). set_solver.
    - rewrite elem_of_keys_set. intros [->|Hk]; [done|].
      specialize (Hdis k0 Hk). set_solver. }
  rewrite (IH acc' Hwf Hdis').
  case_bool_decide as Hk; [subst n|].
  - assert (map_get k reg = None) as -> by by apply map_get_None.
    unfold acc'. destruct (default_actions d role) as [|a l]; [|by rewrite map_get_set_eq].
    apply map_get_None. intros Hin. apply (Hdis k Hin). set_solver.
  - destruct (map_get n reg); [done|]. unfold acc'.
    destruct (default_actions d role); [done|]. by rewrite map_get_set_ne.
Qed.

(** the defaults served for a role map exactly the modules that grant it a non-empty list
    of actions, each to that list. *)
Theorem getDefaultPermissions_spec reg role n :
  registry_wf reg →
  map_get n (getDefaultPermissions reg role) =
  match getModule reg n with
  | Some d => match default_actions d role with [] => None | acts => Some acts end
  | None => None
  end.
Proof.
  intros [Hwf _]. unfold getDefaultPermissions, getModule.
  rewrite foldl_defaults_get; [|done|set_solver].
  by destruct (map_get n reg).
Qed.

Lemma getDefaultPermissions_spec_witness :
  let d := {| name := "Risk"; label_en := "Risk"; label_ar := "R"; actions := ["View"];
              defaults := [(UserRole.VIEWER, ["View"])]; navigation := None; fileScope := None |} in
  map_get "Risk" (getDefaultPermissions (register d []).2 UserRole.VIEWER) =
  match getModule (register d []).2 "Risk" with
  | Some d => match default_actions d UserRole.VIEWER with [] => None | acts => Some acts end
  | None => None
  end.
Proof.
  intros d. apply (getDefaultPermissions_spec (register d []).2 UserRole.VIEWER "Risk").
  apply register_preserves. split; [constructor|by intros ? ? [=]].
Defined.

(** ** Navigation order *)

Definition item_le (x y : NavigationItem) : Prop := x.(item_order) ≤ y.(item_order).

Lemma insert_item_Permutation x l : insert_item x l ≡ₚ x :: l.
Proof.
  induction l as [|y l IH]; cbn; [done|]. case_match; [done|].
  rewrite IH. apply Permutation_swap.
Qed.

Lemma insert_item_sorted x l : Sorted item_le l → Sorted item_le (insert_item x l).
Proof.
  induction l as [|y l IH]; cbn; intros Hs; [by repeat constructor|].
  destruct (Z.leb_spec (item_order x) (item_order y)) as [Hle|Hlt].
  - constructor; [done|]. by constructor.
  - apply Sorted_inv in Hs as [Hs Hh]. constructor; [by apply IH|].
    assert (item_le y x) by (unfold item_le; lia).
    destruct l as [|z l]; cbn; [by constructor|]. case_match; constructor; [done|].
    by inversion Hh.
Qed.

(** the navigation configuration is the navigation entries of all modules, each once,
    in ascending [order]. *)
Theorem getNavigationConfig_sorted reg :
  Sorted item_le (getNavigationConfig reg) ∧
  getNavigationConfig reg ≡ₚ omap navigation_item (getAllModules reg).
Proof.
  unfold getNavigationConfig.
  induction (omap navigation_item (getAllModules reg)) as [|x l [IHs IHp]]; cbn.
  - split; [constructor|done].
  - split; [by apply insert_item_sorted|]. unfold sort_items in IHp.
    rewrite insert_item_Permutation. by rewrite IHp.
Qed.
