(* ===== verification/ModuleCatalogue.v ===== *)
(** * The registered permission modules ([src/src/permissions/modules.ts])

    One definition per [ModuleRegistry.register] call of the file, and the
    registration of all of them in file order, as loading the module does. *)

From S2P Require Import Prelude JsMap JsStrings ModuleRegistry.
Local Open Scope Z_scope.

Definition mod_Dashboard : ModuleDefinition := {|
  name := "Dashboard"; label_en := "Dashboard"; label_ar := "لوحة التحكم";
  actions := ["View"];
  defaults := [(UserRole.ADMIN, ["View"]);
    (UserRole.MANAGER, ["View"]);
    (UserRole.INTERNAL_AUDITOR, ["View"]);
    (UserRole.COMPLIANCE_OFFICER, ["View"]);
    (UserRole.RISK_OFFICER, ["View"]);
    (UserRole.VIEWER, ["View"])];
  navigation := Some {| icon := "LayoutDashboard"; path := "/dashboard"; order := 1; parent := None |};
  fileScope := None |}.

Definition mod_Analytics : ModuleDefinition := {|
  name := "Analytics"; label_en := "Analytics"; label_ar := "التحليلات";
  actions := ["View"];
  defaults := [(UserRole.ADMIN, ["View"]);
    (UserRole.MANAGER, ["View"]);
    (UserRole.INTERNAL_AUDITOR, ["View"]);
    (UserRole.COMPLIANCE_OFFICER, ["View"]);
    (UserRole.RISK_OFFICER, ["View"]);
    (UserRole.VIEWER, ["View"])];
  navigation := None;
  fileScope := None |}.

Definition mod_Policies : ModuleDefinition := {|
  name := "Policies"; label_en := "Internal Policies"; label_ar := "السياسات الداخلية";
  actions := ["View"; "Create"; "Edit"; "Delete"];
  defaults := [(UserRole.ADMIN, ["View"; "Create"; "Edit"; "Delete"]);
    (UserRole.MANAGER, ["View"]);
    (UserRole.COMPLIANCE_OFFICER, ["View"; "Create"; "Edit"]);
    (UserRole.INTERNAL_AUDITOR, ["View"]);
    (UserRole.RISK_OFFICER, ["View"]);
    (UserRole.VIEWER, ["View"])];
  navigation := None;
  fileScope := None |}.

Definition mod_AuditCharter : ModuleDefinition := {|
  name := "AuditCharter"; label_en := "Audit Charter"; label_ar := "ميثاق التدقيق";
  actions := ["View"; "Create"; "Edit"; "Delete"];
  defaults := [(UserRole.ADMIN, ["View"; "Create"; "Edit"; "Delete"]);
    (UserRole.MANAGER, ["View"]);
    (UserRole.INTERNAL_AUDITOR, ["View"]);
    (UserRole.COMPLIANCE_OFFICER, ["View"]);
    (UserRole.RISK_OFFICER, ["View"]);
    (UserRole.VIEWER, ["View"])];
  navigation := Some {| icon := "BookOpen"; path := "/charter"; order := 2; parent := None |};
  fileScope := None |}.

Definition mod_AuditPlans : ModuleDefinition := {|
  name := "AuditPlans"; label_en := "Audit Plans"; label_ar := "خطط التدقيق";
  actions := ["View"; "Create"; "Edit"; "Delete"; "Approve"];
  defaults := [(UserRole.ADMIN, ["View"; "Create"; "Edit"; "Delete"; "Approve"]);
    (UserRole.MANAGER, ["View"; "Approve"]);
    (UserRole.INTERNAL_AUDITOR, ["View"; "Create"; "Edit"]);
    (UserRole.COMPLIANCE_OFFICER, ["View"]);
    (UserRole.RISK_OFFICER, ["View"]);
    (UserRole.VIEWER, ["View"])];
  navigation := Some {| icon := "CalendarRange"; path := "/plan"; order := 3; parent := None |};
  fileScope := Some true |}.

Definition mod_AuditTasks : ModuleDefinition := {|
  name := "AuditTasks"; label_en := "Audit Tasks"; label_ar := "مهام التدقيق";
  actions := ["View"; "Create"; "Edit"; "Delete"; "Approve"];
  defaults := [(UserRole.ADMIN, ["View"; "Create"; "Edit"; "Delete"; "Approve"]);
    (UserRole.MANAGER, ["View"; "Approve"]);
    (UserRole.INTERNAL_AUDITOR, ["View"; "Create"; "Edit"]);
    (UserRole.COMPLIANCE_OFFICER, ["View"]);
    (UserRole.RISK_OFFICER, ["View"]);
    (UserRole.VIEWER, ["View"])];
  navigation := Some {| icon := "ClipboardCheck"; path := "/tasks"; order := 4; parent := None |};
  fileScope := Some true |}.

Definition mod_AuditProgramLibrary : ModuleDefinition := {|
  name := "AuditProgramLibrary"; label_en := "Audit Program Library"; label_ar := "مكتبة برامج التدقيق";
  actions := ["View"; "Create"; "Edit"; "Delete"];
  defaults := [(UserRole.ADMIN, ["View"; "Create"; "Edit"; "Delete"]);
    (UserRole.MANAGER, ["View"]);
    (UserRole.INTERNAL_AUDITOR, ["View"; "Create"; "Edit"]);
    (UserRole.COMPLIANCE_OFFICER, ["View"]);
    (UserRole.RISK_OFFICER, ["View"]);
    (UserRole.VIEWER, ["View"])];
  navigation := Some {| icon := "Library"; path := "/library"; order := 5; parent := None |};
  fileScope := None |}.

Definition mod_AuditFindings : ModuleDefinition := {|
  name := "AuditFindings"; label_en := "Audit Findings"; label_ar := "ملاحظات التدقيق";
  actions := ["View"; "Create"; "Edit"; "Delete"; "Approve"];
  defaults := [(UserRole.ADMIN, ["View"; "Create"; "Edit"; "Delete"; "Approve"]);
    (UserRole.MANAGER, ["View"; "Approve"]);
    (UserRole.INTERNAL_AUDITOR, ["View"; "Create"; "Edit"]);
    (UserRole.COMPLIANCE_OFFICER, ["View"]);
    (UserRole.RISK_OFFICER, ["View"]);
    (UserRole.VIEWER, ["View"])];
  navigation := Some {| icon := "FileSearch"; path := "/findings"; order := 6; parent := None |};
  fileScope := Some true |}.

Definition mod_AuditEvidence : ModuleDefinition := {|
  name := "AuditEvidence"; label_en := "Audit Evidence"; label_ar := "أدلة التدقيق";
  actions := ["View"; "Create"; "Edit"; "Delete"];
  defaults := [(UserRole.ADMIN, ["View"; "Create"; "Edit"; "Delete"]);
    (UserRole.MANAGER, ["View"]);
    (UserRole.INTERNAL_AUDITOR, ["View"; "Create"; "Edit"]);
    (UserRole.COMPLIANCE_OFFICER, ["View"]);
    (UserRole.RISK_OFFICER, ["View"]);
    (UserRole.VIEWER, ["View"])];
  navigation := Some {| icon := "FileText"; path := "/evidence"; order := 7; parent := None |};
  fileScope := Some true |}.

Definition mod_Recommendations : ModuleDefinition := {|
  name := "Recommendations"; label_en := "Recommendations"; label_ar := "التوصيات";
  actions := ["View"; "Create"; "Edit"; "Delete"; "Approve"];
  defaults := [(UserRole.ADMIN, ["View"; "Create"; "Edit"; "Delete"; "Approve"]);
    (UserRole.MANAGER, ["View"; "Approve"]);
    (UserRole.INTERNAL_AUDITOR, ["View"; "Create"; "Edit"]);
    (UserRole.COMPLIANCE_OFFICER, ["View"]);
    (UserRole.RISK_OFFICER, ["View"]);
    (UserRole.VIEWER, ["View"])];
  navigation := Some {| icon := "TrendingUp"; path := "/recommendations"; order := 8; parent := None |};
  fileScope := Some true |}.

Definition mod_RiskRegister : ModuleDefinition := {|
  name := "RiskRegister"; label_en := "Risk Register"; label_ar := "سجل المخاطر";
  actions := ["View"; "Create"; "Edit"; "Delete"; "Approve"];
  defaults := [(UserRole.ADMIN, ["View"; "Create"; "Edit"; "Delete"; "Approve"]);
    (UserRole.MANAGER, ["View"]);
    (UserRole.INTERNAL_AUDITOR, ["View"; "Create"; "Edit"]);
    (UserRole.COMPLIANCE_OFFICER, ["View"; "Edit"]);
    (UserRole.RISK_OFFICER, ["View"; "Create"; "Edit"; "Approve"]);
    (UserRole.VIEWER, ["View"])];
  navigation := Some {| icon := "ShieldAlert"; path := "/risks"; order := 9; parent := None |};
  fileScope := Some true |}.

Definition mod_ComplianceMatrix : ModuleDefinition := {|
  name := "ComplianceMatrix"; label_en := "Compliance Matrix"; label_ar := "مصفوفة الامتثال";
  actions := ["View"; "Create"; "Edit"; "Delete"];
  defaults := [(UserRole.ADMIN, ["View"; "Create"; "Edit"; "Delete"]);
    (UserRole.MANAGER, ["View"]);
    (UserRole.INTERNAL_AUDITOR, ["View"]);
    (UserRole.COMPLIANCE_OFFICER, ["View"; "Create"; "Edit"]);
    (UserRole.RISK_OFFICER, ["View"]);
    (UserRole.VIEWER, ["View"])];
  navigation := Some {| icon := "ShieldCheck"; path := "/compliance-matrix"; order := 10; parent := None |};
  fileScope := Some true |}.

Definition mod_IntegrityManagement : ModuleDefinition := {|
  name := "IntegrityManagement"; label_en := "Integrity Management"; label_ar := "إدارة النزاهة المؤسسية";
  actions := ["View"; "Create"; "Edit"; "Delete"; "Approve"];
  defaults := [(UserRole.ADMIN, ["View"; "Create"; "Edit"; "Delete"; "Approve"]);
    (UserRole.MANAGER, ["View"; "Approve"]);
    (UserRole.INTERNAL_AUDITOR, ["View"; "Create"]);
    (UserRole.COMPLIANCE_OFFICER, ["View"; "Approve"]);
    (UserRole.RISK_OFFICER, ["View"]);
    (UserRole.VIEWER, [])];
  navigation := Some {| icon := "Scale"; path := "/integrity"; order := 11; parent := None |};
  fileScope := Some true |}.

Definition mod_Departments : ModuleDefinition := {|
  name := "Departments"; label_en := "Departments"; label_ar := "الأقسام";
  actions := ["View"; "Create"; "Edit"; "Delete"];
  defaults := [(UserRole.ADMIN, ["View"; "Create"; "Edit"; "Delete"]);
    (UserRole.MANAGER, ["View"]);
    (UserRole.INTERNAL_AUDITOR, ["View"]);
    (UserRole.COMPLIANCE_OFFICER, ["View"]);
    (UserRole.RISK_OFFICER, ["View"]);
    (UserRole.VIEWER, ["View"])];
  navigation := Some {| icon := "Building"; path := "/departments"; order := 12; parent := None |};
  fileScope := None |}.

Definition mod_Reports : ModuleDefinition := {|
  name := "Reports"; label_en := "Reports & Analytics"; label_ar := "التقارير والتحليلات";
  actions := ["View"; "Create"; "Edit"; "Delete"; "Approve"];
  defaults := [(UserRole.ADMIN, ["View"; "Create"; "Edit"; "Delete"; "Approve"]);
    (UserRole.MANAGER, ["View"; "Approve"]);
    (UserRole.INTERNAL_AUDITOR, ["View"; "Create"]);
    (UserRole.COMPLIANCE_OFFICER, ["View"]);
    (UserRole.RISK_OFFICER, ["View"; "Create"]);
    (UserRole.VIEWER, ["View"])];
  navigation := Some {| icon := "BarChart3"; path := "/reports"; order := 13; parent := None |};
  fileScope := Some true |}.

Definition mod_Correspondence : ModuleDefinition := {|
  name := "Correspondence"; label_en := "Correspondence Management"; label_ar := "نظام المراسلات";
  actions := ["View"; "Create"; "Edit"; "Delete"];
  defaults := [(UserRole.ADMIN, ["View"; "Create"; "Edit"; "Delete"]);
    (UserRole.MANAGER, ["View"; "Create"; "Edit"]);
    (UserRole.INTERNAL_AUDITOR, ["View"]);
    (UserRole.COMPLIANCE_OFFICER, ["View"]);
    (UserRole.RISK_OFFICER, ["View"]);
    (UserRole.VIEWER, ["View"])];
  navigation := Some {| icon := "Network"; path := "/cms"; order := 14; parent := None |};
  fileScope := Some true |}.

Definition mod_Notifications : ModuleDefinition := {|
  name := "Notifications"; label_en := "Notifications"; label_ar := "التنبيهات";
  actions := ["View"];
  defaults := [(UserRole.ADMIN, ["View"]);
    (UserRole.MANAGER, ["View"]);
    (UserRole.INTERNAL_AUDITOR, ["View"]);
    (UserRole.COMPLIANCE_OFFICER, ["View"]);
    (UserRole.RISK_OFFICER, ["View"]);
    (UserRole.VIEWER, ["View"])];
  navigation := Some {| icon := "Bell"; path := "/notifications"; order := 15; parent := None |};
  fileScope := None |}.

Definition mod_UserManagement : ModuleDefinition := {|
  name := "UserManagement"; label_en := "User Management"; label_ar := "إدارة المستخدمين";
  actions := ["View"; "Create"; "Edit"; "Delete"; "Approve"];
  defaults := [(UserRole.ADMIN, ["View"; "Create"; "Edit"; "Delete"; "Approve"]);
    (UserRole.MANAGER, []);
    (UserRole.INTERNAL_AUDITOR, []);
    (UserRole.COMPLIANCE_OFFICER, []);
    (UserRole.RISK_OFFICER, []);
    (UserRole.VIEWER, [])];
  navigation := Some {| icon := "Users"; path := "/users"; order := 16; parent := None |};
  fileScope := None |}.

Definition mod_SystemLogs : ModuleDefinition := {|
  name := "SystemLogs"; label_en := "System Logs"; label_ar := "سجلات النظام";
  actions := ["View"; "Delete"];
  defaults := [(UserRole.ADMIN, ["View"; "Delete"]);
    (UserRole.MANAGER, []);
    (UserRole.INTERNAL_AUDITOR, []);
    (UserRole.COMPLIANCE_OFFICER, []);
    (UserRole.RISK_OFFICER, []);
    (UserRole.VIEWER, [])];
  navigation := Some {| icon := "Terminal"; path := "/system-logs"; order := 17; parent := None |};
  fileScope := None |}.

Definition mod_OrgStructure : ModuleDefinition := {|
  name := "OrgStructure"; label_en := "Organizational Structure"; label_ar := "الهيكل التنظيمي";
  actions := ["View"; "Create"; "Edit"; "Delete"];
  defaults := [(UserRole.ADMIN, ["View"; "Create"; "Edit"; "Delete"]);
    (UserRole.MANAGER, ["View"]);
    (UserRole.INTERNAL_AUDITOR, ["View"]);
    (UserRole.COMPLIANCE_OFFICER, ["View"]);
    (UserRole.RISK_OFFICER, ["View"]);
    (UserRole.VIEWER, ["View"])];
  navigation := Some {| icon := "Building2"; path := "/org-structure"; order := 18; parent := Some "Settings" |};
  fileScope := None |}.

Definition mod_Settings : ModuleDefinition := {|
  name := "Settings"; label_en := "Settings"; label_ar := "الإعدادات";
  actions := ["View"; "Edit"];
  defaults := [(UserRole.ADMIN, ["View"; "Edit"]);
    (UserRole.MANAGER, ["View"]);
    (UserRole.INTERNAL_AUDITOR, ["View"]);
    (UserRole.COMPLIANCE_OFFICER, ["View"]);
    (UserRole.RISK_OFFICER, ["View"]);
    (UserRole.VIEWER, ["View"])];
  navigation := Some {| icon := "Settings"; path := "/settings"; order := 19; parent := None |};
  fileScope := None |}.

(** The calls of the file, in order. *)
Definition catalogue : list ModuleDefinition :=
  [mod_Dashboard; mod_Analytics; mod_Policies;
   mod_AuditCharter; mod_AuditPlans; mod_AuditTasks;
   mod_AuditProgramLibrary; mod_AuditFindings; mod_AuditEvidence;
   mod_Recommendations; mod_RiskRegister; mod_ComplianceMatrix;
   mod_IntegrityManagement; mod_Departments; mod_Reports;
   mod_Correspondence; mod_Notifications; mod_UserManagement;
   mod_SystemLogs; mod_OrgStructure; mod_Settings].

(** Importing [modules.ts] runs every registration; the first error aborts it. *)
Definition load_catalogue : action app_error registry unit := for_each register catalogue.

Definition loaded_registry : registry := (load_catalogue []).2.

(** ** The catalogue the server starts with *)

Definition grants_only_declared (d : ModuleDefinition) : bool :=
  forallb (λ p, forallb (λ a, bool_decide (a ∈ d.(actions))) p.2) d.(defaults).
Definition admin_has_all (d : ModuleDefinition) : bool :=
  bool_decide (default_actions d UserRole.ADMIN = d.(actions)).
Definition delete_is_admins (d : ModuleDefinition) : bool :=
  forallb (λ r, bool_decide (r = UserRole.ADMIN) ||
                negb (bool_decide ("Delete" ∈ default_actions d r))) VALID_ROLES.
Definition viewer_only_views (d : ModuleDefinition) : bool :=
  forallb (λ a, bool_decide (a = "View")) (default_actions d UserRole.VIEWER).

Lemma catalogue_checked d :
  d ∈ catalogue →
  grants_only_declared d && admin_has_all d && delete_is_admins d && viewer_only_views d = true.
Proof.
  intros Hd%list_elem_of_In. revert d Hd. apply (proj1 (forallb_forall _ catalogue)).
  by vm_compute.
Qed.

Lemma loaded_registry_wf : registry_wf loaded_registry.
Proof.
  apply (preserves_for_each registry_wf register catalogue register_preserves []).
  split; [constructor|by intros ? ? [=]].
Qed.

(** importing the module catalogue registers all 21 modules without an error; every module
    grants roles only actions it declares, grants the Admin all of them and nobody else
    [Delete], and grants the Viewer nothing beyond [View]. *)
Theorem catalogue_loads :
  load_catalogue [] = (Ok tt, loaded_registry) ∧
  registry_wf loaded_registry ∧
  getModuleNames loaded_registry = map name catalogue ∧
  length catalogue = 21%nat ∧
  ∀ d, d ∈ catalogue →
    getModule loaded_registry d.(name) = Some d ∧
    (∀ r acts a, (r, acts) ∈ d.(defaults) → a ∈ acts → a ∈ d.(actions)) ∧
    default_actions d UserRole.ADMIN = d.(actions) ∧
    (∀ r, r ∈ VALID_ROLES → "Delete" ∈ default_actions d r → r = UserRole.ADMIN) ∧
    (∀ a, a ∈ default_actions d UserRole.VIEWER → a = "View").
Proof.
  split; [by vm_compute|]. split; [apply loaded_registry_wf|].
  split; [by vm_compute|]. split; [done|].
  intros d Hd. pose proof (catalogue_checked d Hd) as Hc. bools. split.
  - revert Hd. clear. intros Hd.
    assert (Hall : forallb (λ d, match getModule loaded_registry d.(name) with
                                 | Some d' => bool_decide (d'.(name) = d.(name) ∧ d' = d)
                                 | None => false end) catalogue = true) by by vm_compute.
    rewrite forallb_forall in Hall. apply list_elem_of_In in Hd. specialize (Hall d Hd).
    destruct (getModule _ _); [|done]. bools. naive_solver.
  - split_and!.
    + intros r acts a Hr Ha. unfold grants_only_declared in *.
      rewrite forallb_forall in *. apply list_elem_of_In in Hr, Ha.
      match goal with H : ∀ x, In x d.(defaults) → _ |- _ => specialize (H _ Hr) end.
      rewrite forallb_forall in *. by eapply bool_decide_eq_true, H.
    + unfold admin_has_all in *. by bools.
    + unfold delete_is_admins in *. rewrite forallb_forall in *.
      intros r Hr Ha. apply list_elem_of_In in Hr.
      match goal with H : ∀ x, In x VALID_ROLES → _ |- _ => specialize (H _ Hr) end.
      repeat case_bool_decide; done.
    + unfold viewer_only_views in *. rewrite forallb_forall in *.
      intros a Ha%list_elem_of_In. by eapply bool_decide_eq_true, H0.
Qed.
