(* ===== verification/PermissionCache.v ===== *)
(** * Permission cache ([src/src/services/PermissionCache.ts])

    A bounded [Map] of permission results with a time to live.  [get] moves a
    hit to the end of the iteration order and [set] evicts the first key, so
    the order of the map is the recency order.  [now] is [Date.now()]. *)

From S2P Require Import Prelude JsMap JsStrings.
Local Open Scope Z_scope.

Record CacheEntry := { value : bool; expiresAt : Z }.

Record PermissionCache := {
  store : list (string * CacheEntry);
  maxEntries : nat;
  ttlMs : Z;
}.

Definition new_cache (maxEntries : nat) (ttlMinutes : Z) : PermissionCache :=
  {| store := []; maxEntries := maxEntries; ttlMs := ttlMinutes * 60 * 1000 |}.

Definition with_store (c : PermissionCache) (st : list (string * CacheEntry)) : PermissionCache :=
  {| store := st; maxEntries := c.(maxEntries); ttlMs := c.(ttlMs) |}.

Definition cache_get (now : Z) (key : string) (c : PermissionCache) : option bool * PermissionCache :=
  match map_get key c.(store) with
  | None => (None, c)
  | Some entry =>
      if entry.(expiresAt) <? now then (None, with_store c (map_delete key c.(store)))
      else (Some entry.(value), with_store c (map_set key entry (map_delete key c.(store))))
  end.

Definition cache_set (now : Z) (key : string) (v : bool) (c : PermissionCache) : PermissionCache :=
  let st :=
    if map_has key c.(store) then map_delete key c.(store)
    else if (c.(maxEntries) <=? length c.(store))%nat
         then match keys c.(store) with
              | [] => c.(store)
              | firstKey :: _ => map_delete firstKey c.(store)
              end
         else c.(store) in
  with_store c (map_set key {| value := v; expiresAt := now + c.(ttlMs) |} st).

(** [for (const key of store.keys()) if (p(key)) store.delete(key)] *)
Definition delete_keys (p : string → bool) (st : list (string * CacheEntry)) :
    list (string * CacheEntry) :=
  foldl (λ st key, if p key then map_delete key st else st) st (keys st).

Definition user_prefix (userId : string) : string := "perm_" +:+ userId +:+ "_".

Definition invalidateUser (userId : string) (c : PermissionCache) : PermissionCache :=
  with_store c (delete_keys (λ key, starts_with key (user_prefix userId)) c.(store)).

Definition invalidateAll (c : PermissionCache) : PermissionCache :=
  with_store c (delete_keys (λ key, starts_with key "perm_") c.(store)).

Definition size (c : PermissionCache) : nat := length c.(store).
Definition cache_reset (c : PermissionCache) : PermissionCache := with_store c [].

(** ** Runs of operations *)

Inductive cache_op : Type :=
  | OpGet (now : Z) (key : string)
  | OpSet (now : Z) (key : string) (v : bool)
  | OpInvalidateUser (userId : string)
  | OpInvalidateAll
  | OpReset.

Definition cache_step (c : PermissionCache) (op : cache_op) : PermissionCache :=
  match op with
  | OpGet now key => (cache_get now key c).2
  | OpSet now key v => cache_set now key v c
  | OpInvalidateUser u => invalidateUser u c
  | OpInvalidateAll => invalidateAll c
  | OpReset => cache_reset c
  end.

Definition cache_run (c : PermissionCache) (ops : list cache_op) : PermissionCache :=
  foldl cache_step c ops.

(** ** The map is bounded and has one entry per key *)

Definition cache_wf (c : PermissionCache) : Prop :=
  map_wf c.(store) ∧ (size c ≤ c.(maxEntries))%nat.

Lemma delete_keys_get p st k :
  map_get k (delete_keys p st) = if p k then None else map_get k st.
Proof.
  unfold delete_keys.
  assert (H : ∀ ks (st0 : list (string * CacheEntry)), map_get k (foldl (λ st key, if p key then map_delete key st else st) st0 ks)
                = if p k && bool_decide (k ∈ ks) then None else map_get k st0).
  { induction ks as [|k' ks IH]; intros st0; cbn [foldl].
    - rewrite bool_decide_eq_false_2 by set_solver. by rewrite andb_false_r.
    - rewrite IH. destruct (decide (k = k')) as [->|Hne].
      + rewrite (bool_decide_eq_true_2 (k' ∈ k' :: ks)) by set_solver.
        destruct (p k'); cbn; [|done]. rewrite map_get_delete_eq. by case_bool_decide.
      + assert (bool_decide (k ∈ k' :: ks) = bool_decide (k ∈ ks)) as ->
          by (apply bool_decide_ext; set_solver).
        destruct (p k && _); [done|]. destruct (p k'); [|done]. by rewrite map_get_delete_ne. }
  rewrite H. destruct (p k); cbn; [|done].
  case_bool_decide as Hin; [done|]. by apply map_get_None.
Qed.

Lemma foldl_delete_wf (p : string → bool) ks (st : list (string * CacheEntry)) :
  map_wf st → map_wf (foldl (λ st key, if p key then map_delete key st else st) st ks)
  ∧ (length (foldl (λ st key, if p key then map_delete key st else st) st ks) ≤ length st)%nat.
Proof.
  revert st. induction ks as [|k ks IH]; intros st Hwf; cbn; [done|].
  destruct (p k); [|by apply IH].
  destruct (IH (map_delete k st)) as [H1 H2]; [by apply map_delete_wf|].
  split; [done|]. pose proof (length_map_delete k st). lia.
Qed.

Lemma length_map_set_absent {V} (k : string) (v : V) m :
  k ∉ keys m → length (map_set k v m) = S (length m).
Proof. intros H. rewrite map_set_absent by done. rewrite length_app. cbn. lia. Qed.

Lemma cache_get_wf now k c : cache_wf c → cache_wf (cache_get now k c).2.
Proof.
  intros [Hwf Hsz]. unfold cache_get, cache_wf, size in *.
  destruct (map_get k (store c)) as [e|] eqn:Hg; [|done].
  assert (Hk : k ∈ keys (store c)) by by apply elem_of_keys with e, map_get_Some_elem.
  pose proof (length_map_delete_present k (store c) Hk).
  case_match; cbn; split; auto with alsaqi; [lia|].
  rewrite length_map_set_absent; [lia|]. rewrite elem_of_keys_delete. tauto.
Qed.

Lemma cache_set_wf now k v c :
  (1 ≤ c.(maxEntries))%nat → cache_wf c → cache_wf (cache_set now k v c).
Proof.
  intros Hmax [Hwf Hsz]. unfold cache_set, cache_wf, size, map_has in *.
  cbn [store maxEntries with_store].
  case_bool_decide as Hk.
  - destruct Hk as [e He%map_get_Some_elem%elem_of_keys].
    pose proof (length_map_delete_present k (store c) He).
    split; [auto with alsaqi|]. rewrite length_map_set_absent; [lia|].
    rewrite elem_of_keys_delete. tauto.
  - assert (Hni : k ∉ keys (store c)) by by apply map_get_None, eq_None_not_Some.
    destruct (Nat.leb_spec (maxEntries c) (length (store c))) as [Hfull|Hroom].
    + destruct (store c) as [|[k0 e0] st] eqn:Hst; [cbn in *; lia|].
      rewrite keys_cons in *.
      pose proof (length_map_delete_present k0 ((k0, e0) :: st)) as Hlt.
      specialize (Hlt ltac:(rewrite keys_cons; set_solver)).
      split; [auto with alsaqi|]. rewrite length_map_set_absent; [lia|].
      rewrite elem_of_keys_delete, keys_cons. tauto.
    + split; [auto with alsaqi|]. rewrite length_map_set_absent; [lia|done].
Qed.

Lemma cache_run_wf c ops :
  (1 ≤ c.(maxEntries))%nat → cache_wf c →
  cache_wf (cache_run c ops) ∧ (cache_run c ops).(maxEntries) = c.(maxEntries).
Proof.
  intros Hmax. unfold cache_run. revert c Hmax.
  induction ops as [|op ops IH]; intros c Hmax Hwf; cbn; [done|].
  assert (Hstep : cache_wf (cache_step c op) ∧ maxEntries (cache_step c op) = maxEntries c).
  { destruct op; cbn.
    - split; [by apply cache_get_wf|]. unfold cache_get. by repeat case_match.
    - split; [by apply cache_set_wf|done].
    - destruct Hwf as [Hwf Hsz]. destruct (foldl_delete_wf (λ key, starts_with key (user_prefix userId))
        (keys (store c)) (store c) Hwf). unfold cache_wf, size, delete_keys in *. cbn. split; [|done]. split; [done|].
      etrans; [|done]. done.
    - destruct Hwf as [Hwf Hsz]. destruct (foldl_delete_wf (λ key, starts_with key "perm_")
        (keys (store c)) (store c) Hwf). unfold cache_wf, size, delete_keys in *. cbn. split; [|done]. split; [done|].
      etrans; [|done]. done.
    - split; [|done]. split; [constructor|cbn; lia]. }
  destruct Hstep as [Hwf' Hm']. rewrite <- Hm'. apply IH; [lia|done].
Qed.

(** whatever sequence of gets, sets and invalidations is run on a new cache, it never
    holds more than [maxEntries] entries and never two entries for one key. *)
Theorem cache_run_bounded maxE ttlMin ops :
  (1 ≤ maxE)%nat →
  map_wf (cache_run (new_cache maxE ttlMin) ops).(store) ∧
  (size (cache_run (new_cache maxE ttlMin) ops) ≤ maxE)%nat.
Proof.
  intros Hmax. destruct (cache_run_wf (new_cache maxE ttlMin) ops) as [[Hwf Hsz] Hm];
    [done|split; [constructor|cbn; lia]|].
  cbn in Hm. split; [done|]. by rewrite Hm in Hsz.
Qed.

Lemma cache_run_bounded_witness :
  let c := cache_run (new_cache 2 5) [OpSet 0 "a" true; OpSet 1 "b" true; OpSet 2 "c" false] in
  map_wf c.(store) ∧ (size c ≤ 2)%nat.
Proof. apply (cache_run_bounded 2 5). lia. Defined.

(** ** A hit is the latest value written, at most [ttlMs] ago *)

(** The last value written under [k] that no invalidation has covered since,
    with the time of the write. *)
Definition spec_step (k : string) (w : option (bool * Z)) (op : cache_op) : option (bool * Z) :=
  match op with
  | OpGet _ _ => w
  | OpSet now k' v => if bool_decide (k = k') then Some (v, now) else w
  | OpInvalidateUser u => if starts_with k (user_prefix u) then None else w
  | OpInvalidateAll => if starts_with k "perm_" then None else w
  | OpReset => None
  end.
Definition last_write (k : string) (ops : list cache_op) : option (bool * Z) :=
  foldl (spec_step k) None ops.

Definition entry_matches (ttl : Z) (e : CacheEntry) (w : option (bool * Z)) : Prop :=
  ∃ t, w = Some (e.(value), t) ∧ e.(expiresAt) = t + ttl.

Lemma cache_get_store now k c k' e :
  map_get k' (cache_get now k c).2.(store) = Some e → map_get k' c.(store) = Some e.
Proof.
  unfold cache_get. destruct (map_get k (store c)) as [e0|] eqn:Hg; [|done].
  destruct (decide (k' = k)) as [->|Hne]; case_match; cbn.
  - by rewrite map_get_delete_eq.
  - rewrite map_get_set_eq. congruence.
  - by rewrite map_get_delete_ne.
  - by rewrite map_get_set_ne, map_get_delete_ne.
Qed.

Lemma cache_set_store now k v c k' e :
  map_get k' (cache_set now k v c).(store) = Some e →
  (k' = k ∧ e = {| value := v; expiresAt := now + c.(ttlMs) |}) ∨
  (k' ≠ k ∧ map_get k' c.(store) = Some e).
Proof.
  unfold cache_set. cbn [store with_store].
  destruct (decide (k' = k)) as [->|Hne].
  { rewrite map_get_set_eq. intros [= <-]. by left. }
  rewrite map_get_set_ne by done. intros H. right. split; [done|]. revert H.
  assert (Hdel : ∀ k0, map_get k' (map_delete k0 (store c)) = Some e → map_get k' (store c) = Some e).
  { intros k0. destruct (decide (k' = k0)) as [->|?];
      [by rewrite map_get_delete_eq|by rewrite map_get_delete_ne]. }
  destruct (map_has k (store c)); [apply Hdel|].
  destruct (maxEntries c <=? length (store c))%nat; [|done].
  destruct (keys (store c)) as [|k0 ks]; [done|apply Hdel].
Qed.

Lemma cache_step_matches c op k w :
  (∀ e, map_get k c.(store) = Some e → entry_matches c.(ttlMs) e w) →
  ∀ e, map_get k (cache_step c op).(store) = Some e → entry_matches c.(ttlMs) e (spec_step k w op).
Proof.
  intros Hm e. destruct op; cbn [cache_step spec_step].
  - intros H%cache_get_store. auto.
  - intros [[-> ->]|[Hne H]]%cache_set_store.
    + rewrite bool_decide_eq_true_2 by done. by exists now.
    + rewrite bool_decide_eq_false_2 by done. auto.
  - cbn. rewrite delete_keys_get. destruct (starts_with _ _); [done|auto].
  - cbn. rewrite delete_keys_get. destruct (starts_with _ _); [done|auto].
  - done.
Qed.

Lemma cache_step_ttl c op : (cache_step c op).(ttlMs) = c.(ttlMs).
Proof. destruct op; cbn; try done. unfold cache_get. by repeat case_match. Qed.

(** a hit returns the value of the last [set] of that key that no invalidation has
    covered since, and that [set] is at most the cache's time to live old. *)
Theorem cache_hit_sound maxE ttlMin ops now k v c' :
  cache_get now k (cache_run (new_cache maxE ttlMin) ops) = (Some v, c') →
  ∃ t, last_write k ops = Some (v, t) ∧ now ≤ t + ttlMin * 60 * 1000.
Proof.
  assert (Hinv : ∀ c w, (∀ e, map_get k c.(store) = Some e → entry_matches c.(ttlMs) e w) →
    (∀ e, map_get k (cache_run c ops).(store) = Some e →
          entry_matches c.(ttlMs) e (foldl (spec_step k) w ops))).
  { unfold cache_run. induction ops as [|op ops IH]; intros c w Hm; cbn; [done|].
    rewrite <- (cache_step_ttl c op). apply IH. rewrite (cache_step_ttl c op).
    by apply cache_step_matches. }
  unfold cache_get. destruct (map_get k _) as [e|] eqn:Hg; [|done].
  destruct (Z.ltb_spec (expiresAt e) now) as [|Hle]; [done|]. intros [= <- _].
  destruct (Hinv (new_cache maxE ttlMin) None ltac:(done) e Hg) as (t & Hw & He).
  exists t. split; [done|]. cbn in He. lia.
Qed.

Lemma cache_hit_sound_witness :
  ∃ t, last_write "perm_u_M_View" [OpSet 5 "perm_u_M_View" true] = Some (true, t) ∧ 9 ≤ t + 5 * 60 * 1000.
Proof.
  apply (cache_hit_sound 1000 5 [OpSet 5 "perm_u_M_View" true] 9 "perm_u_M_View" true
           (cache_run (new_cache 1000 5) [OpSet 5 "perm_u_M_View" true])).
  vm_compute. reflexivity.
Defined.

(** ** Eviction removes the least recently used key *)

Definition touch (k : string) (r : list string) : list string :=
  List.filter (λ k', negb (bool_decide (k = k'))) r ++ [k].

(** The key an operation uses: a set, or a get that hits. *)
Definition touched (c : PermissionCache) (op : cache_op) : option string :=
  match op with
  | OpGet now key => match (cache_get now key c).1 with Some _ => Some key | None => None end
  | OpSet _ key _ => Some key
  | _ => None
  end.

(** The keys used so far, the most recently used one last. *)
Fixpoint recency (c : PermissionCache) (ops : list cache_op) (r : list string) : list string :=
  match ops with
  | [] => r
  | op :: ops' =>
      recency (cache_step c op) ops' (match touched c op with Some k => touch k r | None => r end)
  end.

Lemma filter_sublist {A} (p : A → bool) l : List.filter p l `sublist_of` l.
Proof. induction l as [|x l IH]; cbn; [done|]. destruct (p x); by constructor. Qed.

Lemma filter_sublist_mono {A} (p : A → bool) l l' :
  l `sublist_of` l' → List.filter p l `sublist_of` List.filter p l'.
Proof.
  induction 1; cbn; [done|..]; destruct (p x); first [assumption|constructor; assumption].
Qed.

Lemma touch_sublist k l r : k ∉ l → l `sublist_of` r → l ++ [k] `sublist_of` touch k r.
Proof.
  intros Hni Hs. apply sublist_app; [|done].
  rewrite <- (filter_all (λ k', negb (bool_decide (k = k'))) l).
  - by apply filter_sublist_mono.
  - intros x Hx. apply negb_true_iff, bool_decide_eq_false. set_solver.
Qed.

Lemma keys_delete_sublist k (st : list (string * CacheEntry)) :
  keys (map_delete k st) `sublist_of` keys st.
Proof. rewrite keys_delete. apply filter_sublist. Qed.

Lemma delete_keys_sublist p st : keys (delete_keys p st) `sublist_of` keys st.
Proof.
  unfold delete_keys. generalize (keys st) at 1. intros ks. revert st.
  induction ks as [|k ks IH]; intros st; cbn; [done|].
  etrans; [apply IH|]. destruct (p k); [apply keys_delete_sublist|done].
Qed.

Lemma keys_set_absent (k : string) (e : CacheEntry) st : k ∉ keys st → keys (map_set k e st) = keys st ++ [k].
Proof. intros H. rewrite map_set_absent by done. by rewrite keys_app. Qed.

Lemma cache_step_recency c op r :
  keys c.(store) `sublist_of` r →
  keys (cache_step c op).(store) `sublist_of` match touched c op with Some k => touch k r | None => r end.
Proof.
  intros Hs. destruct op; cbn [cache_step touched].
  - unfold cache_get. destruct (map_get key (store c)) as [e|]; [|done].
    case_match; cbn [fst snd store with_store]; [by etrans; [apply keys_delete_sublist|]|].
    rewrite keys_set_absent by (rewrite elem_of_keys_delete; tauto).
    apply touch_sublist; [rewrite elem_of_keys_delete; tauto|].
    by etrans; [apply keys_delete_sublist|].
  - unfold cache_set. cbn [store with_store].
    match goal with |- keys (map_set _ _ ?st) `sublist_of` _ =>
      assert ((key ∉ keys st) ∧ (keys st `sublist_of` keys (store c))) as [Hni Hsub] end.
    { unfold map_has. case_bool_decide as Hk.
      - split; [rewrite elem_of_keys_delete; tauto|apply keys_delete_sublist].
      - assert (key ∉ keys (store c)) by by apply map_get_None, eq_None_not_Some.
        destruct (maxEntries c <=? length (store c))%nat; [|done].
        destruct (keys (store c)) as [|k0 ks] eqn:Hks; rewrite <- Hks in *; [done|].
        split; [rewrite elem_of_keys_delete; tauto|apply keys_delete_sublist]. }
    rewrite keys_set_absent by done. apply touch_sublist; [done|]. by etrans.
  - by etrans; [apply delete_keys_sublist|].
  - by etrans; [apply delete_keys_sublist|].
  - apply sublist_nil_l.
Qed.

Lemma recency_sublist ops c r :
  keys c.(store) `sublist_of` r → keys (cache_run c ops).(store) `sublist_of` recency c ops r.
Proof.
  revert c r. induction ops as [|op ops IH]; intros c r Hs; [done|].
  cbn. apply IH. by apply cache_step_recency.
Qed.

(** when the cache is full, a [set] of a new key evicts exactly one entry, and every
    entry it keeps was used (set, or read with a hit) after the victim's last use. *)
Theorem eviction_is_lru maxE ttlMin ops now k v :
  let c := cache_run (new_cache maxE ttlMin) ops in
  (1 ≤ maxE)%nat → size c = maxE → map_get k c.(store) = None →
  ∃ victim kept older newer,
    keys c.(store) = victim :: kept ∧
    keys (cache_set now k v c).(store) = kept ++ [k] ∧
    recency (new_cache maxE ttlMin) ops [] = older ++ victim :: newer ∧
    kept `sublist_of` newer.
Proof.
  intros c Hmax Hfull Hnone.
  destruct (cache_run_wf (new_cache maxE ttlMin) ops) as [[Hwf _] HmaxE]; [done|split; [constructor|cbn; lia]|].
  fold c in Hwf, HmaxE. cbn in HmaxE.
  pose proof (recency_sublist ops (new_cache maxE ttlMin) [] ltac:(done)) as Hrec. fold c in Hrec.
  unfold size in Hfull. destruct (store c) as [|[k0 e0] st] eqn:Hst; [cbn in Hfull; lia|].
  rewrite keys_cons in Hrec. apply sublist_cons_l in Hrec as (older & newer & Hr & Hsub).
  exists k0, (keys st), older, newer. split_and!; try done.
  assert (Hni : k ∉ keys ((k0, e0) :: st)) by by apply map_get_None.
  unfold cache_set, map_has. cbn [store with_store]. rewrite Hst, HmaxE, bool_decide_eq_false_2.
  - rewrite (proj2 (Nat.leb_le _ _)) by lia. rewrite keys_cons.
    rewrite keys_set_absent by (rewrite elem_of_keys_delete; tauto). f_equal.
    unfold map_wf in Hwf. rewrite keys_cons in Hwf. apply NoDup_cons in Hwf as [Hk0 _].
    unfold map_delete. cbn [List.filter fst]. rewrite bool_decide_eq_true_2 by done. cbn [negb].
    fold (map_delete k0 st). by rewrite map_delete_absent.
  - intros [e He]. congruence.
Qed.

Lemma eviction_is_lru_witness :
  ∃ victim kept older newer,
    keys (cache_run (new_cache 2 5) [OpSet 0 "a" true; OpSet 1 "b" true; OpGet 2 "a"]).(store) = victim :: kept ∧
    keys (cache_set 3 "c" true (cache_run (new_cache 2 5) [OpSet 0 "a" true; OpSet 1 "b" true; OpGet 2 "a"])).(store)
      = kept ++ ["c"] ∧
    recency (new_cache 2 5) [OpSet 0 "a" true; OpSet 1 "b" true; OpGet 2 "a"] [] = older ++ victim :: newer ∧
    kept `sublist_of` newer.
Proof. apply (eviction_is_lru 2 5 _ 3 "c" true); [lia|reflexivity|reflexivity]. Defined.
