(* ===== verification/AuthCache.v ===== *)
(** * Cached authorization state ([src/src/services/AuthCacheInvalidator.ts])

    Two caches hold authorization state: the in-memory permission cache of
    the process and the Redis keys [auth:user_<id>_<session_version>].  A
    mutation calls [invalidate], which clears both and falls back to a
    force-read flag for the user when Redis cannot be cleared.  Whether Redis
    is available and how each SCAN/DEL attempt ends is the environment's
    choice. *)

From S2P Require Import Prelude JsMap JsStrings PermissionCache.

(** The row [authenticate] selects and caches as JSON. *)
Record user_row := {
  ur_id : string;
  ur_role : string;
  ur_status : string;
  ur_username : string;
  ur_name : string;
  ur_email : string;
  ur_session_version : Z;
  ur_requires_password_change : bool;
  ur_department_id : option string;
}.

Record redis_entry := { re_row : user_row; re_expires : Z }.

Record auth_cache := {
  perm_cache : PermissionCache;
  redis : list (string * redis_entry);
  forceReadUserIds : list string;
}.

Definition AUTH_CACHE_PREFIX : string := "auth:".
Definition MAX_INVALIDATION_ATTEMPTS : nat := 3.

Definition with_perm_cache (p : PermissionCache) (c : auth_cache) : auth_cache :=
  {| perm_cache := p; redis := c.(redis); forceReadUserIds := c.(forceReadUserIds) |}.
Definition with_redis (r : list (string * redis_entry)) (c : auth_cache) : auth_cache :=
  {| perm_cache := c.(perm_cache); redis := r; forceReadUserIds := c.(forceReadUserIds) |}.
Definition with_force (f : list string) (c : auth_cache) : auth_cache :=
  {| perm_cache := c.(perm_cache); redis := c.(redis); forceReadUserIds := f |}.

(** The glob [auth:*_<userId>_*] (an id is a UUID, it has no glob characters). *)
Definition user_key_pattern (userId : string) (k : string) : bool :=
  starts_with k AUTH_CACHE_PREFIX &&
  includes (String.substring 5 (String.length k - 5) k) ("_" +:+ userId +:+ "_").

(** One run of [deleteUserAuthCacheKeys]: it removes every matching key, or
    finds that the connection has lost its client and removes nothing, or fails
    after it has removed some of the keys. *)
Inductive attempt : Type :=
  | AttemptOk
  | AttemptNoClient
  | AttemptFails (deleted : list string).

Definition delete_redis_keys (p : string → bool) (r : list (string * redis_entry)) :
    list (string * redis_entry) :=
  List.filter (λ kv, negb (p kv.1)) r.

Definition run_attempt (userId : string) (a : attempt) (r : list (string * redis_entry)) :
    bool * list (string * redis_entry) :=
  match a with
  | AttemptOk => (true, delete_redis_keys (user_key_pattern userId) r)
  | AttemptNoClient => (true, r)
  | AttemptFails ks =>
      (false, delete_redis_keys (λ k, user_key_pattern userId k && bool_decide (k ∈ ks)) r)
  end.

(** The environment of one call: is Redis available, and its answers. *)
Record redis_env := { isAvailable : bool; answers : nat → attempt }.

(** [for (attempt = 1; attempt <= MAX_INVALIDATION_ATTEMPTS; attempt++)]; [n] attempts are left. *)
Fixpoint try_attempts (env : redis_env) (userId : string) (n i : nat) (c : auth_cache) : auth_cache :=
  match n with
  | O => with_force (set_add userId c.(forceReadUserIds)) c
  | S n' =>
      let '(ok, r) := run_attempt userId (env.(answers) i) c.(redis) in
      if ok then with_force (set_delete userId c.(forceReadUserIds)) (with_redis r c)
      else try_attempts env userId n' (S i) (with_redis r c)
  end.

Definition invalidate (env : redis_env) (userId : string) (c : auth_cache) : auth_cache :=
  if bool_decide (userId = "") then c
  else
    let c := with_perm_cache (invalidateUser userId c.(perm_cache)) c in
    if negb env.(isAvailable)
    then with_force (set_delete userId c.(forceReadUserIds)) c
    else try_attempts env userId MAX_INVALIDATION_ATTEMPTS 1 c.

Definition shouldForceRead (userId : string) (c : auth_cache) : bool :=
  set_has userId c.(forceReadUserIds).
Definition clearForceRead (userId : string) (c : auth_cache) : auth_cache :=
  with_force (set_delete userId c.(forceReadUserIds)) c.
Definition _reset (c : auth_cache) : auth_cache := with_force [] c.

(** The key [authenticate] caches a user's row under. *)
Definition user_cache_key (userId : string) (session_version : Z) : string :=
  AUTH_CACHE_PREFIX +:+ "user_" +:+ userId +:+ "_" +:+ pretty session_version.

(** ** What an invalidation guarantees *)

Lemma user_cache_key_matches u sv : user_key_pattern u (user_cache_key u sv) = true.
Proof.
  unfold user_key_pattern, user_cache_key. apply andb_true_iff. split; [apply starts_with_app|].
  change (AUTH_CACHE_PREFIX +:+ ?x) with (String "a" (String "u" (String "t" (String "h" (String ":" x))))).
  match goal with |- includes (String.substring 5 _ (String _ (String _ (String _ (String _ (String _ ?t)))))) _ = true =>
    assert (∀ m, m = String.length t → String.substring 0 m t = t) as Hsub end.
  { clear. intros m ->. generalize ("user_" +:+ u +:+ "_" +:+ pretty sv).
    induction s as [|c s IH]; [done|]. cbn. by rewrite IH. }
  cbn [String.substring]. rewrite Hsub by (cbn [String.length]; lia).
  apply includes_spec. exists "user", (pretty sv). by rewrite !app_assoc_str.
Qed.

Lemma elem_of_delete_redis_keys p r kv :
  kv ∈ delete_redis_keys p r ↔ kv ∈ r ∧ p kv.1 = false.
Proof.
  unfold delete_redis_keys. rewrite !list_elem_of_In, List.filter_In, negb_true_iff. done.
Qed.

Lemma try_attempts_perm env u n i c : (try_attempts env u n i c).(perm_cache) = c.(perm_cache).
Proof.
  revert i c. induction n as [|n IH]; intros i c; [done|]. cbn.
  destruct (run_attempt _ _ _) as [[] r]; [done|]. by rewrite IH.
Qed.

Lemma invalidate_perm env u c :
  u ≠ "" → (invalidate env u c).(perm_cache) = invalidateUser u c.(perm_cache).
Proof.
  intros Hu. unfold invalidate. rewrite bool_decide_eq_false_2 by done.
  destruct (isAvailable env); cbn [negb]; [|done]. by rewrite try_attempts_perm.
Qed.

(** The connection has its client at every attempt. *)
Definition connected_throughout (env : redis_env) : Prop := ∀ i, env.(answers) i ≠ AttemptNoClient.

Lemma try_attempts_purges env u n i c : connected_throughout env →
  let c' := try_attempts env u n i c in
  shouldForceRead u c' = true ∨ ∀ k e, (k, e) ∈ c'.(redis) → user_key_pattern u k = false.
Proof.
  intros Hconn. revert i c. induction n as [|n IH]; intros i c; cbn -[MAX_INVALIDATION_ATTEMPTS].
  - left. unfold shouldForceRead, set_has. cbn. apply bool_decide_eq_true.
    rewrite elem_of_set_add. by left.
  - specialize (Hconn i). destruct (answers env i) as [| |ks]; cbn; [|done|apply IH].
    right. intros k e [_ H]%elem_of_delete_redis_keys. done.
Qed.

(** after [invalidate] on an available Redis that keeps its client, whatever the SCAN/DEL attempts did, either
    the next read of that user is forced to the database or no Redis key of that user is left;
    the user's in-memory permission results are gone and other users' are untouched. *)
Theorem invalidate_complete env u c :
  u ≠ "" → env.(isAvailable) = true → connected_throughout env →
  let c' := invalidate env u c in
  (shouldForceRead u c' = true ∨ ∀ sv e, (user_cache_key u sv, e) ∉ c'.(redis)) ∧
  (∀ k, map_get k c'.(perm_cache).(store) =
        if starts_with k (user_prefix u) then None else map_get k c.(perm_cache).(store)).
Proof.
  intros Hu Hav Hconn c'. split.
  - unfold c', invalidate. rewrite bool_decide_eq_false_2, Hav by done. cbn [negb].
    destruct (try_attempts_purges env u MAX_INVALIDATION_ATTEMPTS 1
      (with_perm_cache (invalidateUser u c.(perm_cache)) c) Hconn) as [H|H]; [by left|right].
    intros sv e Hin. specialize (H _ _ Hin). by rewrite user_cache_key_matches in H.
  - intros k. unfold c'. rewrite invalidate_perm by done.
    unfold invalidateUser. cbn [store with_store]. by rewrite delete_keys_get.
Qed.

Lemma invalidate_complete_witness :
  let c := {| perm_cache := cache_set 0 "perm_u_M_View" true (new_cache 10 5);
              redis := []; forceReadUserIds := [] |} in
  let env := {| isAvailable := true; answers := λ _, AttemptFails [] |} in
  let c' := invalidate env "u" c in
  (shouldForceRead "u" c' = true ∨ ∀ sv e, (user_cache_key "u" sv, e) ∉ c'.(redis)) ∧
  (∀ k, map_get k c'.(perm_cache).(store) =
        if starts_with k (user_prefix "u") then None else map_get k c.(perm_cache).(store)).
Proof. intros c env. by apply (invalidate_complete env "u" c). Defined.
