(* ===== verification/PermissionService.v ===== *)
(** * Permission resolution ([src/src/services/PermissionService.ts])

    The tables are lists of rows, a query that joins two tables is the list of
    joined rows.  The service keeps its results in the permission cache;
    mutations invalidate it through [AuthCacheInvalidator]. *)

From S2P Require Import Prelude JsMap JsStrings ModuleRegistry ModuleCatalogue PermissionCache.
From S2P Require Import AuthCache.
Local Open Scope Z_scope.

(** ** Tables *)

Record permission_row := { p_id : string; p_module : string; p_action : string }.
Record override_row := { up_user_id : string; up_permission_id : string; up_is_allowed : Z }.
Record perm_user := { pu_id : string; pu_role : string; pu_role_id : option string }.
Record role_row := { r_id : string; r_name : string; r_is_custom : bool }.

Record perm_db := {
  permissions : list permission_row;
  role_permissions : list (string * string);
  user_permissions : list override_row;
  users : list perm_user;
  roles : list role_row;
}.

Record perm_state := { pdb : perm_db; auth : auth_cache }.

Definition with_role_permissions (l : list (string * string)) (d : perm_db) : perm_db :=
  {| permissions := d.(permissions); role_permissions := l;
     user_permissions := d.(user_permissions); users := d.(users); roles := d.(roles) |}.
Definition with_user_permissions (l : list override_row) (d : perm_db) : perm_db :=
  {| permissions := d.(permissions); role_permissions := d.(role_permissions);
     user_permissions := l; users := d.(users); roles := d.(roles) |}.
Definition with_pdb (d : perm_db) (s : perm_state) : perm_state := {| pdb := d; auth := s.(auth) |}.
Definition with_auth (a : auth_cache) (s : perm_state) : perm_state := {| pdb := s.(pdb); auth := a |}.

(** ** Queries *)

Definition getUser (d : perm_db) (userId : string) : option perm_user :=
  select_one (λ u, bool_decide (u.(pu_id) = userId)) d.(users).

(** [if (!roleId) ..]: [null] and the empty string are falsy. *)
Definition truthy_id (o : option string) : option string :=
  match o with Some x => if bool_decide (x = "") then None else Some x | None => None end.

Definition getRole (d : perm_db) (roleId : option string) : option role_row :=
  match truthy_id roleId with
  | None => None
  | Some x => select_one (λ r, bool_decide (r.(r_id) = x)) d.(roles)
  end.

Definition permission_record (d : perm_db) (m a : string) : option permission_row :=
  select_one (λ p, bool_decide (p.(p_module) = m ∧ p.(p_action) = a)) d.(permissions).

(** [FROM permissions p JOIN role_permissions rp ON p.id = rp.permission_id WHERE rp.role_id = ?] *)
Definition role_grants (d : perm_db) (roleId : string) : list (string * string) :=
  flat_map (λ p, map (λ _, (p.(p_module), p.(p_action)))
                     (select (λ rp, bool_decide (rp.1 = roleId ∧ rp.2 = p.(p_id))) d.(role_permissions)))
           d.(permissions).

(** [FROM permissions p JOIN user_permissions up ON p.id = up.permission_id WHERE up.user_id = ?] *)
Definition user_overrides (d : perm_db) (userId : string) : list (string * string * Z) :=
  flat_map (λ p, map (λ o, (p.(p_module), p.(p_action), o.(up_is_allowed)))
                     (select (λ o, bool_decide (o.(up_user_id) = userId ∧ o.(up_permission_id) = p.(p_id)))
                             d.(user_permissions)))
           d.(permissions).

(** ** Resolution *)

Definition resolvePermission (d : perm_db) (userId m a : string) (roleId : option string) : bool :=
  match select_one (λ o, bool_decide (o.1 = (m, a))) (user_overrides d userId) with
  | Some o => o.2 =? 1
  | None =>
      match truthy_id roleId with
      | None => false
      | Some rid => bool_decide ((m, a) ∈ role_grants d rid)
      end
  end.

Definition cacheKey (userId m a : string) : string :=
  "perm_" +:+ userId +:+ "_" +:+ m +:+ "_" +:+ a.

Definition cached_get (now : Z) (key : string) : action app_error perm_state (option bool) := λ s,
  let '(r, c) := cache_get now key s.(auth).(perm_cache) in
  (Ok r, with_auth (with_perm_cache c s.(auth)) s).
Definition cached_set (now : Z) (key : string) (v : bool) : action app_error perm_state unit :=
  modify (λ s, with_auth (with_perm_cache (cache_set now key v s.(auth).(perm_cache)) s.(auth)) s).

(** [now] and [now'] are the clock at the cache read and at the cache write. *)
Definition hasPermission (reg : registry) (now now' : Z) (userId m a : string) :
    action app_error perm_state bool :=
  user ← gets (λ s, getUser s.(pdb) userId);
  match user with
  | None => mret false
  | Some user =>
      if bool_decide (user.(pu_role) = UserRole.ADMIN) then mret true
      else match getModule reg m with
      | None => mret false
      | Some moduleDef =>
          if negb (bool_decide (a ∈ moduleDef.(actions))) then mret false
          else
            cached ← cached_get now (cacheKey userId m a);
            match cached with
            | Some v => mret v
            | None =>
                result ← gets (λ s, resolvePermission s.(pdb) userId m a user.(pu_role_id));
                _ ← cached_set now' (cacheKey userId m a) result;
                mret result
            end
      end
  end.

(** ** Permission sets *)

Abbreviation action_map := (list (string * list string)).

(** [if (!permissions[m].includes(a)) permissions[m].push(a)], creating the entry first *)
Definition add_action (acc : action_map) (m a : string) : action_map :=
  let cur := default [] (map_get m acc) in
  map_set m (if bool_decide (a ∈ cur) then cur else cur ++ [a]) acc.
Definition remove_action (acc : action_map) (m a : string) : action_map :=
  map_set m (List.filter (λ x, negb (bool_decide (x = a))) (default [] (map_get m acc))) acc.

Definition group_grants (l : list (string * string)) (acc : action_map) : action_map :=
  foldl (λ acc p, add_action acc p.1 p.2) acc l.
Definition apply_overrides (l : list (string * string * Z)) (acc : action_map) : action_map :=
  foldl (λ acc o, if o.2 =? 1 then add_action acc o.1.1 o.1.2 else remove_action acc o.1.1 o.1.2) acc l.
Definition drop_empty (acc : action_map) : action_map :=
  List.filter (λ p, negb (bool_decide (p.2 = []))) acc.

Record UserPermissionSet := {
  ups_userId : string;
  ups_role : string;
  ups_roleId : string;
  ups_isCustomRole : bool;
  ups_permissions : action_map;
  ups_overrides : list (string * string * bool);
}.

(** [a || b] on strings *)
Definition or_str (a b : string) : string := if bool_decide (a = "") then b else a.

Definition getUserPermissions (userId : string) : action app_error perm_state UserPermissionSet :=
  d ← gets pdb;
  match getUser d userId with
  | None => throw (GenericError "User not found")
  | Some user =>
      let role := getRole d user.(pu_role_id) in
      let rolePermissions :=
        match truthy_id user.(pu_role_id) with Some rid => role_grants d rid | None => [] end in
      let userOverrides := user_overrides d userId in
      mret {| ups_userId := userId;
              ups_role := or_str (from_option r_name "" role) (or_str user.(pu_role) "Unknown");
              ups_roleId := default "" user.(pu_role_id);
              ups_isCustomRole := from_option r_is_custom false role;
              ups_permissions :=
                drop_empty (apply_overrides userOverrides (group_grants rolePermissions []));
              ups_overrides := map (λ o, (o.1, o.2 =? 1)) userOverrides |}
  end.

Record RolePermissionSet := {
  rps_roleId : string;
  rps_roleName : string;
  rps_isCustom : bool;
  rps_permissions : action_map;
}.

Definition getRolePermissions (roleId : string) : action app_error perm_state RolePermissionSet :=
  d ← gets pdb;
  match getRole d (Some roleId) with
  | None => throw (GenericError "Role not found")
  | Some role =>
      mret {| rps_roleId := roleId; rps_roleName := role.(r_name); rps_isCustom := role.(r_is_custom);
              rps_permissions := group_grants (role_grants d roleId) [] |}
  end.

(** The SQL [A UNION B EXCEPT C] ([UNION] and [EXCEPT] associate to the left
    and both remove duplicates). *)
Definition getEffectivePermissions (d : perm_db) (userId : string) : list (string * string) :=
  let a := match getUser d userId with
           | Some u => match u.(pu_role_id) with Some rid => role_grants d rid | None => [] end
           | None => []
           end in
  let b := map fst (select (λ o, o.2 =? 1) (user_overrides d userId)) in
  let c := map fst (select (λ o, o.2 =? 0) (user_overrides d userId)) in
  set_of_list (List.filter (λ p, negb (bool_decide (p ∈ c))) (a ++ b)).

(** ** Mutations *)

Record PermissionUpdate := { upd_module : string; upd_action : string; upd_granted : bool }.

(** [INSERT .. ON CONFLICT DO NOTHING] and [DELETE]; inserting for a role that
    does not exist violates the foreign key. *)
Definition apply_update (roleId : string) (u : PermissionUpdate) : action app_error perm_state unit :=
  d ← gets pdb;
  match permission_record d u.(upd_module) u.(upd_action) with
  | None => mret tt
  | Some p =>
      if u.(upd_granted) then
        _ ← ensure (bool_decide (roleId ∈ map r_id d.(roles))) (GenericError "foreign key");
        modify (with_pdb (with_role_permissions (set_add (roleId, p.(p_id)) d.(role_permissions)) d))
      else
        modify (with_pdb (with_role_permissions
          (delete_where (λ rp, bool_decide (rp = (roleId, p.(p_id)))) d.(role_permissions)) d))
  end.

Definition rollback_db (old new : perm_state) : perm_state := with_pdb old.(pdb) new.

Definition invalidate_user (env : string → redis_env) (userId : string) : action app_error perm_state unit :=
  modify (λ s, with_auth (invalidate (env userId) userId s.(auth)) s).

Definition invalidateCacheForRole (env : string → redis_env) (roleId : string) :
    action app_error perm_state unit :=
  us ← gets (λ s, select (λ u, bool_decide (u.(pu_role_id) = Some roleId)) s.(pdb).(users));
  for_each (λ u, invalidate_user env u.(pu_id)) us.

Definition updateRolePermissions (env : string → redis_env) (roleId : string)
    (l : list PermissionUpdate) : action app_error perm_state unit :=
  _ ← transaction rollback_db (for_each (apply_update roleId) l);
  invalidateCacheForRole env roleId.

Definition setUserPermissionOverride (env : string → redis_env) (userId m a : string) (allowed : bool) :
    action app_error perm_state unit :=
  d ← gets pdb;
  match permission_record d m a with
  | None => throw (GenericError "Permission record not found")
  | Some p =>
      let isAllowed := if allowed then 1 else 0 in
      let mine := λ o, bool_decide (o.(up_user_id) = userId ∧ o.(up_permission_id) = p.(p_id)) in
      _ ← match select_one mine d.(user_permissions) with
          | Some _ =>
              modify (with_pdb (with_user_permissions
                (update_where mine (λ o, {| up_user_id := o.(up_user_id);
                                            up_permission_id := o.(up_permission_id);
                                            up_is_allowed := isAllowed |}) d.(user_permissions)) d))
          | None =>
              _ ← ensure (bool_decide (userId ∈ map pu_id d.(users))) (GenericError "foreign key");
              modify (with_pdb (with_user_permissions
                (d.(user_permissions) ++ [{| up_user_id := userId; up_permission_id := p.(p_id);
                                             up_is_allowed := isAllowed |}]) d))
          end;
      invalidate_user env userId
  end.

(** [invalidateCache(userId?)]: only the in-memory cache *)
Definition invalidateCache (userId : string) : action app_error perm_state unit :=
  modify (λ s, with_auth (with_perm_cache
    (if bool_decide (userId = "") then invalidateAll s.(auth).(perm_cache)
     else invalidateUser userId s.(auth).(perm_cache)) s.(auth)) s).

(** ** What the tables grant *)

Definition db_wf (d : perm_db) : Prop :=
  NoDup (map (λ p, (p.(p_module), p.(p_action))) d.(permissions)) ∧
  NoDup (map p_id d.(permissions)) ∧
  NoDup (map (λ o, (o.(up_user_id), o.(up_permission_id))) d.(user_permissions)) ∧
  (∀ o, o ∈ d.(user_permissions) → o.(up_is_allowed) = 0 ∨ o.(up_is_allowed) = 1) ∧
  NoDup (map pu_id d.(users)) ∧
  (∀ user, user ∈ d.(users) → user.(pu_id) ≠ "" ∧ user.(pu_role_id) ≠ Some "").

Definition override_is (d : perm_db) (u m a : string) (v : Z) : Prop :=
  ∃ p o, p ∈ d.(permissions) ∧ o ∈ d.(user_permissions) ∧ p.(p_module) = m ∧ p.(p_action) = a ∧
         o.(up_user_id) = u ∧ o.(up_permission_id) = p.(p_id) ∧ o.(up_is_allowed) = v.
Definition role_has (d : perm_db) (rid m a : string) : Prop :=
  ∃ p, p ∈ d.(permissions) ∧ p.(p_module) = m ∧ p.(p_action) = a ∧
       (rid, p.(p_id)) ∈ d.(role_permissions).

Lemma elem_of_flat_map {A B} (f : A → list B) l y : y ∈ flat_map f l ↔ ∃ x, x ∈ l ∧ y ∈ f x.
Proof. rewrite list_elem_of_In, in_flat_map. by setoid_rewrite list_elem_of_In. Qed.

Lemma elem_of_map {A B} (f : A → B) l y : y ∈ map f l ↔ ∃ x, y = f x ∧ x ∈ l.
Proof. apply (list_elem_of_fmap f l y). Qed.

Lemma elem_of_role_grants d rid m a : (m, a) ∈ role_grants d rid ↔ role_has d rid m a.
Proof.
  unfold role_grants, role_has. rewrite elem_of_flat_map. apply exist_proper. intros p.
  rewrite elem_of_map. setoid_rewrite elem_of_select. split.
  - intros (Hp & [r i] & [= <- <-] & Hin & H). bools. cbn in *. destruct H as [-> ->]. auto.
  - intros (Hp & <- & <- & Hin). split; [done|]. exists (rid, p.(p_id)). split_and!; try done.
    by apply bool_decide_eq_true.
Qed.

Lemma elem_of_user_overrides d u m a v : (m, a, v) ∈ user_overrides d u ↔ override_is d u m a v.
Proof.
  unfold user_overrides, override_is. rewrite elem_of_flat_map. apply exist_proper. intros p.
  rewrite elem_of_map. setoid_rewrite elem_of_select. split.
  - intros (Hp & o & [= -> -> ->] & Hin & H). bools. exists o. naive_solver.
  - intros (o & Hp & Ho & <- & <- & <- & Hid & <-). split; [done|]. exists o.
    split_and!; try done. by apply bool_decide_eq_true.
Qed.

Section well_formed_tables.
Context (d : perm_db) (Hwf : db_wf d).

Lemma permission_unique p p' :
  p ∈ d.(permissions) → p' ∈ d.(permissions) →
  p.(p_module) = p'.(p_module) → p.(p_action) = p'.(p_action) → p = p'.
Proof.
  destruct Hwf as (Hma & _). intros H1 H2 Hm Ha.
  apply (map_unique _ _ _ _ Hma H1 H2). congruence.
Qed.

Lemma override_unique u m a v v' : override_is d u m a v → override_is d u m a v' → v = v'.
Proof.
  destruct Hwf as (_ & _ & Hup & _).
  intros (p & o & Hp & Ho & Hm & Ha & Hu & Hpid & <-) (p' & o' & Hp' & Ho' & Hm' & Ha' & Hu' & Hpid' & <-).
  assert (p = p') as <- by (apply permission_unique; congruence).
  f_equal. apply (map_unique _ _ _ _ Hup Ho Ho'). congruence.
Qed.

Lemma override_values u m a v : override_is d u m a v → v = 0 ∨ v = 1.
Proof. destruct Hwf as (_ & _ & _ & H01 & _ & _). intros (p & o & _ & Ho & _ & _ & _ & _ & <-). auto. Qed.

Lemma getUser_spec u user : getUser d u = Some user ↔ user ∈ d.(users) ∧ user.(pu_id) = u.
Proof.
  destruct Hwf as (_ & _ & _ & _ & Hus & _). unfold getUser. split.
  - intros [Hin Hb]%select_one_Some. by bools.
  - intros [Hin Hid]. destruct (select_one _ _) as [user'|] eqn:Hs.
    + apply select_one_Some in Hs as [Hin' Hb]. bools. f_equal.
      apply (map_unique _ _ _ _ Hus Hin' Hin). congruence.
    + rewrite select_one_None in Hs. specialize (Hs _ Hin). by bools.
Qed.

Lemma permission_record_spec m a p :
  permission_record d m a = Some p ↔ p ∈ d.(permissions) ∧ p.(p_module) = m ∧ p.(p_action) = a.
Proof.
  unfold permission_record. split.
  - intros [Hin Hb]%select_one_Some. bools. tauto.
  - intros (Hin & Hm & Ha). destruct (select_one _ _) as [p'|] eqn:Hs.
    + apply select_one_Some in Hs as [Hin' Hb]. bools. f_equal.
      apply permission_unique; try done; naive_solver.
    + rewrite select_one_None in Hs. specialize (Hs _ Hin). bools. tauto.
Qed.

(** A user override wins in both directions; without one the role decides,
    and no role is a denial. *)
Lemma resolvePermission_spec u m a roleId :
  resolvePermission d u m a roleId = true ↔
  override_is d u m a 1 ∨
  ((∀ v, ¬ override_is d u m a v) ∧ ∃ rid, truthy_id roleId = Some rid ∧ role_has d rid m a).
Proof.
  unfold resolvePermission. destruct (select_one _ _) as [[[m' a'] v]|] eqn:Hs.
  - apply select_one_Some in Hs as [Hin Hb]. bools. cbn in Hb. injection Hb as -> ->.
    apply elem_of_user_overrides in Hin. cbn. rewrite Z.eqb_eq. split.
    + intros ->. by left.
    + intros [H1|[Hno _]]; [by eapply override_unique|by destruct (Hno v)].
  - rewrite select_one_None in Hs.
    assert (Hno : ∀ v, ¬ override_is d u m a v).
    { intros v Hv%elem_of_user_overrides. specialize (Hs _ Hv). by bools. }
    destruct (truthy_id roleId) as [rid|].
    + rewrite bool_decide_eq_true, elem_of_role_grants. split; [by eauto|].
      intros [H|[_ (rid' & [= <-] & H)]]; [by destruct (Hno 1)|done].
    + split; [done|]. intros [H|[_ (rid' & [=] & H)]]. by destruct (Hno 1).
Qed.
End well_formed_tables.

(** ** Cache keys *)

Lemma cacheKey_split u m a : cacheKey u m a = ("perm_" +:+ u +:+ "_" +:+ m) +:+ String "_" a.
Proof. unfold cacheKey. by rewrite !app_assoc_str. Qed.

Lemma cacheKey_user u m a : starts_with (cacheKey u m a) (user_prefix u) = true.
Proof.
  apply starts_with_spec. exists (m +:+ "_" +:+ a). unfold cacheKey, user_prefix.
  by rewrite !app_assoc_str.
Qed.

Definition no_underscore (s : string) : Prop := "_"%char ∉ chars s.

Lemma cacheKey_inj u m a u' m' a' :
  no_underscore m → no_underscore a → no_underscore m' → no_underscore a' →
  cacheKey u m a = cacheKey u' m' a' → u = u' ∧ m = m' ∧ a = a'.
Proof.
  intros Hm Ha Hm' Ha'. rewrite !cacheKey_split. intros Heq.
  apply split_last_unique_str in Heq as [Heq ->]; [|done..].
  apply app_inj_l_str in Heq. change ("_" +:+ ?x) with (String "_" x) in Heq.
  by apply split_last_unique_str in Heq as [-> ->].
Qed.

Lemma PASCAL_CASE_alnum s : PASCAL_CASE_PATTERN s = true → no_underscore s.
Proof.
  unfold PASCAL_CASE_PATTERN, no_underscore. destruct (chars s) as [|c l]; [done|].
  intros H. bools. intros [<-|Hin]%elem_of_cons; [done|].
  rewrite forallb_forall in *. apply list_elem_of_In in Hin.
  match goal with Hf : ∀ x, _ |- _ => by specialize (Hf _ Hin) end.
Qed.

Lemma VALID_ACTIONS_no_underscore a : a ∈ VALID_ACTIONS → no_underscore a.
Proof.
  unfold VALID_ACTIONS. rewrite !elem_of_cons.
  intros [->|[->|[->|[->|[->|[]%not_elem_of_nil]]]]]; unfold no_underscore; by apply (bool_decide_unpack _).
Qed.

Lemma registered_no_underscore reg m d a :
  registry_wf reg → getModule reg m = Some d → a ∈ d.(actions) → no_underscore m ∧ no_underscore a.
Proof.
  intros [_ Hreg] Hm Ha. destruct (Hreg _ _ Hm) as [-> [Hp _ [_ Hact] _]].
  split; [by apply PASCAL_CASE_alnum|]. by apply VALID_ACTIONS_no_underscore, Hact.
Qed.

(** ** Coherence of the cache with the tables *)

Definition coherent (reg : registry) (s : perm_state) : Prop :=
  ∀ u m a d user e,
    getModule reg m = Some d → a ∈ d.(actions) → getUser s.(pdb) u = Some user →
    map_get (cacheKey u m a) s.(auth).(perm_cache).(store) = Some e →
    e.(value) = resolvePermission s.(pdb) u m a user.(pu_role_id).

(** The decision without a cache. *)
Definition granted (reg : registry) (d : perm_db) (u m a : string) : bool :=
  match getUser d u with
  | None => false
  | Some user =>
      bool_decide (user.(pu_role) = UserRole.ADMIN) ||
      match getModule reg m with
      | None => false
      | Some def => bool_decide (a ∈ def.(actions)) && resolvePermission d u m a user.(pu_role_id)
      end
  end.

Lemma coherent_cache_shrinks reg s c :
  (∀ k e, map_get k c.(perm_cache).(store) = Some e → map_get k s.(auth).(perm_cache).(store) = Some e) →
  coherent reg s → coherent reg (with_auth c s).
Proof. intros Hsub Hc u m a d user e Hm Ha Hu He. eapply Hc; eauto. Qed.

Lemma coherent_set reg s now u m a d user :
  registry_wf reg → getModule reg m = Some d → a ∈ d.(actions) → getUser s.(pdb) u = Some user →
  coherent reg s →
  coherent reg (with_auth (with_perm_cache (cache_set now (cacheKey u m a)
    (resolvePermission s.(pdb) u m a user.(pu_role_id)) s.(auth).(perm_cache)) s.(auth)) s).
Proof.
  intros Hreg Hm Ha Hu Hc u' m' a' d' user' e Hm' Ha' Hu' He. cbn in Hu' |- *.
  apply cache_set_store in He as [[Hk ->]|[_ He]]; [|by eapply Hc].
  destruct (registered_no_underscore _ _ _ _ Hreg Hm Ha).
  destruct (registered_no_underscore _ _ _ _ Hreg Hm' Ha').
  apply cacheKey_inj in Hk as (-> & -> & ->); [|done..].
  by rewrite Hu in Hu'; injection Hu' as <-.
Qed.

Lemma hasPermission_run reg now now' u m a s :
  registry_wf reg → coherent reg s →
  let '(r, s') := hasPermission reg now now' u m a s in
  r = Ok (granted reg s.(pdb) u m a) ∧ s'.(pdb) = s.(pdb) ∧ coherent reg s' ∧
  s'.(auth).(redis) = s.(auth).(redis).
Proof.
  intros Hreg Hc. unfold hasPermission, granted. run_action.
  destruct (getUser (pdb s) u) as [user|] eqn:Hu; cbn; [|done].
  case_bool_decide; cbn; [done|].
  destruct (getModule reg m) as [d|] eqn:Hm; cbn; [|done].
  case_bool_decide as Ha; cbn; [|done].
  unfold cached_get. destruct (cache_get now (cacheKey u m a) _) as [[v|] c] eqn:Hg; cbn.
  - split_and!; try done.
    + unfold cache_get in Hg. destruct (map_get _ _) as [e|] eqn:He; [|done].
      destruct (_ <? _); [done|]. injection Hg as <- _. f_equal. by eapply Hc.
    + apply coherent_cache_shrinks; [|done]. intros k e He. cbn in He.
      apply (cache_get_store now (cacheKey u m a) _ k). by rewrite Hg.
  - split_and!; try done.
    set (s1 := with_auth (with_perm_cache c (auth s)) s).
    apply (coherent_set reg s1 now' u m a d user); try done.
    apply coherent_cache_shrinks; [|done]. intros k e He. cbn in He.
    apply (cache_get_store now (cacheKey u m a) _ k). by rewrite Hg.
Qed.

(** C1: in a state whose cache is coherent with the tables, [hasPermission] always returns the
    decision the tables give without a cache, changes no table and leaves the cache coherent:
    the cache never changes an authorization decision. *)
Theorem hasPermission_uncached reg now now' u m a s :
  registry_wf reg → coherent reg s →
  let '(r, s') := hasPermission reg now now' u m a s in
  r = Ok (granted reg s.(pdb) u m a) ∧ s'.(pdb) = s.(pdb) ∧ coherent reg s'.
Proof.
  intros Hreg Hc. pose proof (hasPermission_run reg now now' u m a s Hreg Hc).
  destruct (hasPermission _ _ _ _ _ _ _). tauto.
Qed.

(** the order of resolution: an unknown user is denied, an Admin is granted, an unregistered
    module or undeclared action is denied, a user override decides before the role does, and a
    user with neither override nor role is denied. *)
Theorem granted_spec reg d u m a :
  db_wf d →
  granted reg d u m a = true ↔
  ∃ user, user ∈ d.(users) ∧ user.(pu_id) = u ∧
    (user.(pu_role) = UserRole.ADMIN ∨
     ∃ def, getModule reg m = Some def ∧ a ∈ def.(actions) ∧
       (override_is d u m a 1 ∨
        (¬ override_is d u m a 0 ∧ ¬ override_is d u m a 1 ∧
         ∃ rid, truthy_id user.(pu_role_id) = Some rid ∧ role_has d rid m a))).
Proof.
  intros Hwf. unfold granted. destruct (getUser d u) as [user|] eqn:Hu.
  - pose proof (proj1 (getUser_spec d Hwf u user) Hu) as [Hin Hid].
    rewrite orb_true_iff, bool_decide_eq_true. split.
    + intros H. exists user. split_and!; [done..|]. destruct H as [H|H]; [by left|right].
      destruct (getModule reg m) as [def|]; [|done]. bools. exists def. split_and!; try done.
      match goal with H : resolvePermission _ _ _ _ _ = true |- _ =>
        apply (resolvePermission_spec d Hwf) in H as [H|[Hno H]] end; naive_solver.
    + intros (user' & Hin' & Hid' & H).
      assert (getUser d u = Some user') as Hu' by by apply (getUser_spec d Hwf).
      rewrite Hu in Hu'. injection Hu' as <-. destruct H as [H|(def & -> & Ha & H)]; [by left|right].
      rewrite bool_decide_eq_true_2 by done. cbn. apply (resolvePermission_spec d Hwf).
      destruct H as [H|(H0 & H1 & H)]; [by left|right]. split; [|done].
      intros v Hv. destruct (override_values d Hwf _ _ _ _ Hv) as [->| ->]; auto.
  - split; [done|]. intros (user & Hin & Hid & _).
    assert (getUser d u = Some user) as Hu' by by apply (getUser_spec d Hwf). congruence.
Qed.

(** ** Mutations keep the cache coherent *)

Lemma resolvePermission_ext d d' u m a roleId :
  db_wf d → db_wf d' →
  (∀ v, override_is d u m a v ↔ override_is d' u m a v) →
  (∀ rid, truthy_id roleId = Some rid → role_has d rid m a ↔ role_has d' rid m a) →
  resolvePermission d u m a roleId = resolvePermission d' u m a roleId.
Proof.
  intros Hwf Hwf' Ho Hr. apply eq_true_iff_eq.
  rewrite (resolvePermission_spec d Hwf), (resolvePermission_spec d' Hwf'), Ho.
  setoid_rewrite Ho. naive_solver.
Qed.

Lemma invalidate_users_run env (us : list perm_user) s :
  (∀ user, user ∈ us → user.(pu_id) ≠ "") →
  let '(r, s') := for_each (λ u, invalidate_user env u.(pu_id)) us s in
  r = Ok tt ∧ s'.(pdb) = s.(pdb) ∧
  ∀ k, map_get k s'.(auth).(perm_cache).(store) =
       if existsb (λ u, starts_with k (user_prefix u.(pu_id))) us then None
       else map_get k s.(auth).(perm_cache).(store).
Proof.
  revert s. induction us as [|user us IH]; intros s Hne; [done|].
  cbn [for_each]. unfold mbind, action_bind, invalidate_user at 1, modify.
  set (s1 := with_auth (invalidate (env (pu_id user)) (pu_id user) (auth s)) s).
  specialize (IH s1 ltac:(set_solver)).
  destruct (for_each _ us s1) as [r s'] eqn:Hr. destruct IH as (-> & -> & Hk).
  split_and!; [done..|]. intros k. rewrite Hk. cbn [existsb].
  unfold s1. cbn [auth with_auth]. rewrite invalidate_perm by set_solver.
  unfold invalidateUser. cbn [store with_store]. rewrite delete_keys_get.
  destruct (starts_with k (user_prefix (pu_id user))); cbn [orb]; by destruct (existsb _ us).
Qed.

Definition same_permission (m a : string) (u : PermissionUpdate) : bool :=
  bool_decide (u.(upd_module) = m ∧ u.(upd_action) = a).
(** The last update of the list for a module and action. *)
Definition last_update (m a : string) (l : list PermissionUpdate) : option bool :=
  foldl (λ acc u, if same_permission m a u then Some u.(upd_granted) else acc) None l.

Definition role_after (d : perm_db) (roleId : string) (w : option bool) (rid m a : string) : Prop :=
  match (if bool_decide (rid = roleId) then w else None) with
  | Some granted => granted = true ∧ ∃ p, p ∈ d.(permissions) ∧ p.(p_module) = m ∧ p.(p_action) = a
  | None => role_has d rid m a
  end.

Lemma with_role_permissions_wf d l : db_wf d → db_wf (with_role_permissions l d).
Proof. done. Qed.

Lemma role_has_add d rid p rid' m a :
  db_wf d → p ∈ d.(permissions) →
  role_has (with_role_permissions (set_add (rid, p.(p_id)) d.(role_permissions)) d) rid' m a ↔
  role_has d rid' m a ∨ (rid' = rid ∧ p.(p_module) = m ∧ p.(p_action) = a).
Proof.
  intros (_ & Hid & _) Hp. unfold role_has. cbn [permissions role_permissions with_role_permissions].
  setoid_rewrite elem_of_set_add. split.
  - intros (p' & Hp' & <- & <- & [[= -> He]|H]); [right|left; eauto 10].
    by rewrite (map_unique _ _ _ _ Hid Hp' Hp He).
  - intros [(p' & ? & ? & ? & ?)|(-> & <- & <-)]; [|exists p]; eauto 10.
Qed.

Lemma role_has_delete d rid p rid' m a :
  db_wf d → p ∈ d.(permissions) →
  role_has (with_role_permissions
    (delete_where (λ rp, bool_decide (rp = (rid, p.(p_id)))) d.(role_permissions)) d) rid' m a ↔
  role_has d rid' m a ∧ ¬ (rid' = rid ∧ p.(p_module) = m ∧ p.(p_action) = a).
Proof.
  intros Hwf Hp. unfold role_has. cbn [permissions role_permissions with_role_permissions].
  setoid_rewrite elem_of_delete_where. setoid_rewrite bool_decide_eq_false. split.
  - intros (p' & Hp' & <- & <- & Hin & Hne). split; [eauto 10|].
    intros (-> & Hm & Ha). apply Hne. f_equal.
    by rewrite (permission_unique d Hwf p p') by done.
  - intros [(p' & Hp' & <- & <- & Hin) Hne]. exists p'. split_and!; try done.
    intros [= -> He]. apply Hne. destruct Hwf as (_ & Hid & _).
    by rewrite (map_unique _ _ _ _ Hid Hp' Hp He).
Qed.

Lemma last_update_cons m a u l :
  last_update m a (u :: l) =
  match last_update m a l with
  | Some g => Some g
  | None => if same_permission m a u then Some u.(upd_granted) else None
  end.
Proof.
  unfold last_update. cbn [foldl]. generalize (if same_permission m a u then Some (upd_granted u) else None).
  induction l as [|u' l IH] using rev_ind; intros o; [done|].
  rewrite !foldl_app. cbn [foldl]. destruct (same_permission m a u'); [done|apply IH].
Qed.

Lemma apply_update_run roleId u s :
  db_wf s.(pdb) →
  match apply_update roleId u s with
  | (Ok _, s') =>
      (∃ l, s'.(pdb) = with_role_permissions l s.(pdb)) ∧ s'.(auth) = s.(auth) ∧
      ∀ rid m a, role_has s'.(pdb) rid m a ↔
        role_after s.(pdb) roleId (if same_permission m a u then Some u.(upd_granted) else None) rid m a
  | (Throw _, s') => s'.(auth) = s.(auth)
  end.
Proof.
  intros Hwf. unfold apply_update. run_action.
  assert (Hid : s.(pdb) = with_role_permissions s.(pdb).(role_permissions) s.(pdb)) by by destruct (pdb s).
  destruct (permission_record (pdb s) (upd_module u) (upd_action u)) as [p|] eqn:Hp; cbn.
  - apply (permission_record_spec _ Hwf) in Hp as (Hp & Hm & Ha).
    destruct (upd_granted u) eqn:Hg.
    + case_bool_decide as Hfk; cbn; [|done]. split_and!; [by eexists|done|].
      intros rid m a. rewrite (role_has_add _ roleId p rid m a Hwf Hp).
      unfold role_after, same_permission. rewrite <- Hm, <- Ha.
      repeat case_bool_decide; naive_solver.
    + split_and!; [by eexists|done|].
      intros rid m a. cbn [pdb with_pdb]. rewrite (role_has_delete _ roleId p rid m a Hwf Hp).
      unfold role_after, same_permission. rewrite <- Hm, <- Ha.
      repeat case_bool_decide; naive_solver.
  - split_and!; [by eexists|done|]. intros rid m a. unfold role_after, same_permission.
    repeat case_bool_decide; try done.
    assert (Hno : ∀ p, p ∈ permissions (pdb s) → ¬ (p_module p = m ∧ p_action p = a)).
    { intros p' Hp' [Hm Ha]. assert (permission_record (pdb s) m a = Some p') by by apply permission_record_spec.
      naive_solver. }
    unfold role_has. naive_solver.
Qed.

Lemma apply_updates_run roleId l s :
  db_wf s.(pdb) →
  match for_each (apply_update roleId) l s with
  | (Ok _, s') =>
      (∃ l', s'.(pdb) = with_role_permissions l' s.(pdb)) ∧ s'.(auth) = s.(auth) ∧
      ∀ rid m a, role_has s'.(pdb) rid m a ↔ role_after s.(pdb) roleId (last_update m a l) rid m a
  | (Throw _, s') => s'.(auth) = s.(auth)
  end.
Proof.
  revert s. induction l as [|u l IH]; intros s Hwf.
  - cbn. split_and!; [exists s.(pdb).(role_permissions); by destruct (pdb s)|done|].
    intros rid m a. unfold role_after. by case_bool_decide.
  - cbn [for_each]. unfold mbind, action_bind.
    pose proof (apply_update_run roleId u s Hwf) as H1.
    destruct (apply_update roleId u s) as [[[]|e] s1]; [|done].
    destruct H1 as ([l1 Hl1] & Hauth1 & Hr1).
    assert (Hwf1 : db_wf s1.(pdb)) by by rewrite Hl1; apply with_role_permissions_wf.
    specialize (IH s1 Hwf1). destruct (for_each _ l s1) as [[[]|e] s2]; [|congruence].
    destruct IH as ([l2 Hl2] & Hauth2 & Hr2). split_and!; [|congruence|].
    + exists l2. rewrite Hl2, Hl1. done.
    + intros rid m a. rewrite Hr2, last_update_cons.
      assert (Hperms : s1.(pdb).(permissions) = s.(pdb).(permissions)) by by rewrite Hl1.
      pose proof (Hr1 rid m a) as Hr. unfold role_after in Hr |- *. rewrite Hperms.
      destruct (bool_decide (rid = roleId)), (last_update m a l); done.
Qed.

(** [updateRolePermissions] is all or nothing: if it throws, tables and caches are as before;
    if it returns, the role holds exactly what the last update of each module and action says
    (what it held before where none does), no other role and no other table changes, and no cached decision is
    stale, the decisions of users of that role included. *)
Theorem updateRolePermissions_spec reg env roleId l s :
  db_wf s.(pdb) → coherent reg s →
  let '(r, s') := updateRolePermissions env roleId l s in
  match r with
  | Throw _ => s' = s
  | Ok _ =>
      (∃ rp, s'.(pdb) = with_role_permissions rp s.(pdb)) ∧
      (∀ rid m a, role_has s'.(pdb) rid m a ↔ role_after s.(pdb) roleId (last_update m a l) rid m a) ∧
      db_wf s'.(pdb) ∧ coherent reg s'
  end.
Proof.
  intros Hwf Hc. unfold updateRolePermissions, transaction, mbind, action_bind.
  pose proof (apply_updates_run roleId l s Hwf) as H1.
  destruct (for_each (apply_update roleId) l s) as [[[]|e] s1].
  2:{ unfold rollback_db, with_pdb. rewrite H1. by destruct s. }
  destruct H1 as ([l1 Hl1] & Hauth & Hrole).
  assert (Hwf1 : db_wf s1.(pdb)) by by rewrite Hl1; apply with_role_permissions_wf.
  unfold invalidateCacheForRole, gets. unfold mbind, action_bind.
  set (us := select _ _).
  pose proof (invalidate_users_run env us s1) as Hinv.
  destruct (for_each _ us s1) as [r s'] eqn:Hr. destruct Hinv as (-> & Hpdb & Hk).
  { intros user Hin. apply elem_of_select in Hin as [Hin _].
    destruct Hwf1 as (_ & _ & _ & _ & _ & Hne). by apply Hne. }
  rewrite Hpdb. split_and!; [by exists l1|done..|].
  intros u m a d user e Hm Ha Hu He. rewrite Hpdb in Hu |- *. rewrite Hk in He.
  destruct (existsb _ us) eqn:Hex; [done|]. rewrite Hauth in He.
  rewrite Hl1 in Hu. rewrite (Hc u m a d user e Hm Ha Hu He).
  apply resolvePermission_ext; try done; rewrite Hl1; [done|].
  intros rid Hrid. rewrite <- Hl1, Hrole. unfold role_after.
  case_bool_decide as Hri; [|done]. subst rid. exfalso.
  enough (existsb (λ u0, starts_with (cacheKey u m a) (user_prefix (pu_id u0))) us = true) by congruence.
  apply existsb_exists. exists user.
  apply (getUser_spec _ Hwf) in Hu as [Hin <-]. split; [|apply cacheKey_user].
  apply list_elem_of_In, elem_of_select. rewrite Hl1. split; [done|]. apply bool_decide_eq_true.
  unfold truthy_id in Hrid. destruct (pu_role_id user); [|done]. case_bool_decide; congruence.
Qed.

(** ** User overrides *)

Definition is_mine (u : string) (p : permission_row) (o : override_row) : bool :=
  bool_decide (o.(up_user_id) = u ∧ o.(up_permission_id) = p.(p_id)).
Definition set_allowed (v : Z) (o : override_row) : override_row :=
  {| up_user_id := o.(up_user_id); up_permission_id := o.(up_permission_id); up_is_allowed := v |}.

Definition override_after (d : perm_db) (u m a : string) (v : Z) (u' m' a' : string) (v' : Z) : Prop :=
  if bool_decide (u' = u ∧ m' = m ∧ a' = a) then v' = v else override_is d u' m' a' v'.

Section override_step.
Context (d : perm_db) (Hwf : db_wf d) (u : string) (p : permission_row) (v : Z).
Context (Hp : p ∈ d.(permissions)) (Hv : v = 0 ∨ v = 1).

Lemma override_update_wf :
  db_wf (with_user_permissions (update_where (is_mine u p) (set_allowed v) d.(user_permissions)) d).
Proof.
  destruct Hwf as (H1 & H2 & H3 & H4 & H5 & H6). split_and!; try done.
  - cbn. by rewrite update_where_column.
  - cbn. intros o (o0 & Ho & ->)%elem_of_update_where. destruct (is_mine u p o0); auto.
Qed.

Lemma override_insert_wf :
  (∀ o, o ∈ d.(user_permissions) → is_mine u p o = false) →
  db_wf (with_user_permissions (d.(user_permissions) ++
    [{| up_user_id := u; up_permission_id := p.(p_id); up_is_allowed := v |}]) d).
Proof.
  intros Hno. destruct Hwf as (H1 & H2 & H3 & H4 & H5 & H6). split_and!; try done; cbn.
  - rewrite map_app. apply NoDup_app. split_and!; [done| |apply NoDup_singleton].
    intros [x y] (o & [= -> ->] & Ho)%elem_of_map [= Hu Hpi]%list_elem_of_singleton.
    specialize (Hno o Ho). unfold is_mine in Hno. bools. tauto.
  - intros o [Ho|Ho%list_elem_of_singleton]%elem_of_app; [auto|by subst].
Qed.

Lemma permission_id_inj p' :
  p' ∈ d.(permissions) → p'.(p_id) = p.(p_id) → p' = p.
Proof. destruct Hwf as (_ & Hid & _). intros Hp' He. by apply (map_unique _ _ _ _ Hid). Qed.

Lemma override_update_effect o0 u' m' a' v' :
  o0 ∈ d.(user_permissions) → is_mine u p o0 = true →
  override_is (with_user_permissions (update_where (is_mine u p) (set_allowed v) d.(user_permissions)) d)
    u' m' a' v' ↔ override_after d u p.(p_module) p.(p_action) v u' m' a' v'.
Proof.
  intros Ho0 Hmine0. unfold override_is, override_after. cbn.
  setoid_rewrite elem_of_update_where. unfold is_mine in *. bools. split.
  - intros (p' & o & Hp' & (o1 & Ho1 & ->) & Hm & Ha & Hu & Hpi & Hv').
    destruct (bool_decide (up_user_id o1 = u ∧ up_permission_id o1 = p_id p)) eqn:Hb; bools; cbn in *.
    + destruct Hb as [Hb1 Hb2]. assert (p' = p) as -> by (apply permission_id_inj; congruence).
      rewrite bool_decide_eq_true_2 by (split_and!; congruence). congruence.
    + rewrite bool_decide_eq_false_2; [exists p', o1; by split_and!|]. intros (-> & -> & ->). apply Hb.
      assert (p' = p) as -> by by apply (permission_unique d Hwf). split; congruence.
  - case_bool_decide as Hb.
    + intros ->. destruct Hb as (-> & -> & ->). exists p, (set_allowed v o0). cbn.
      split_and!; try done; try tauto. exists o0.
      by rewrite bool_decide_eq_true_2.
    + intros (p' & o & Hp' & Ho & Hm & Ha & Hu & Hpi & Hv'). exists p', o. split_and!; try done.
      exists o. rewrite bool_decide_eq_false_2; [done|]. intros [Hu2 Hp2]. apply Hb.
      assert (p' = p) as -> by (apply permission_id_inj; congruence). split_and!; congruence.
Qed.

Lemma override_insert_effect u' m' a' v' :
  (∀ o, o ∈ d.(user_permissions) → is_mine u p o = false) →
  override_is (with_user_permissions (d.(user_permissions) ++
    [{| up_user_id := u; up_permission_id := p.(p_id); up_is_allowed := v |}]) d)
    u' m' a' v' ↔ override_after d u p.(p_module) p.(p_action) v u' m' a' v'.
Proof.
  intros Hno. unfold override_is, override_after, is_mine in *. cbn.
  setoid_rewrite elem_of_app. setoid_rewrite list_elem_of_singleton. split.
  - intros (p' & o & Hp' & [Ho| ->] & Hm & Ha & Hu & Hpi & Hv'); cbn in *.
    + rewrite bool_decide_eq_false_2; [exists p', o; by split_and!|]. intros (-> & -> & ->).
      specialize (Hno o Ho). bools. apply Hno.
      assert (p' = p) as -> by by apply (permission_unique d Hwf). done.
    + assert (p' = p) as -> by by apply permission_id_inj.
      rewrite bool_decide_eq_true_2 by (split_and!; congruence). congruence.
  - case_bool_decide as Hb.
    + intros ->. destruct Hb as (-> & -> & ->). eexists p, _. split_and!; [done|by right|done..].
    + intros (p' & o & ?). exists p', o. naive_solver.
Qed.
End override_step.

(** The tables after an override was written. *)
Lemma override_written env u p allowed s :
  db_wf s.(pdb) → p ∈ s.(pdb).(permissions) → u ∈ map pu_id s.(pdb).(users) →
  let '(r, s') := setUserPermissionOverride env u p.(p_module) p.(p_action) allowed s in
  r = Ok tt ∧ (∃ l, s'.(pdb) = with_user_permissions l s.(pdb)) ∧ db_wf s'.(pdb) ∧
  s'.(auth) = invalidate (env u) u s.(auth) ∧
  ∀ u' m' a' v', override_is s'.(pdb) u' m' a' v' ↔
    override_after s.(pdb) u p.(p_module) p.(p_action) (if allowed then 1 else 0) u' m' a' v'.
Proof.
  intros Hwf Hp Hu. unfold setUserPermissionOverride. run_action.
  assert (permission_record (pdb s) (p_module p) (p_action p) = Some p) as ->
    by by apply permission_record_spec.
  fold (is_mine u p). set (v := if allowed then 1 else 0).
  assert (Hv : v = 0 ∨ v = 1) by (unfold v; destruct allowed; auto).
  destruct (select_one (is_mine u p) (user_permissions (pdb s))) as [o|] eqn:Ho; cbn.
  - apply select_one_Some in Ho as [Ho Hmine].
    split_and!; [done|by eexists|by apply override_update_wf|done|].
    intros u' m' a' v'. by apply (override_update_effect _ Hwf u p v Hp Hv o).
  - rewrite select_one_None in Ho. rewrite bool_decide_eq_true_2 by done. cbn.
    split_and!; [done|by eexists|by apply override_insert_wf|done|].
    intros u' m' a' v'. by apply override_insert_effect.
Qed.

Lemma setUserPermissionOverride_fails env u m a allowed s :
  db_wf s.(pdb) →
  let '(r, s') := setUserPermissionOverride env u m a allowed s in
  match r with
  | Ok _ => ∃ p, p ∈ s.(pdb).(permissions) ∧ p.(p_module) = m ∧ p.(p_action) = a ∧
      (u ∈ map pu_id s.(pdb).(users) ∨ ∃ o, o ∈ s.(pdb).(user_permissions) ∧ is_mine u p o = true)
  | Throw _ => s' = s
  end.
Proof.
  intros Hwf. unfold setUserPermissionOverride. run_action.
  destruct (permission_record _ _ _) as [p|] eqn:Hp; cbn; [|done].
  apply (permission_record_spec _ Hwf) in Hp as (Hp & Hm & Ha). fold (is_mine u p).
  destruct (select_one _ _) as [o|] eqn:Ho; cbn.
  - apply select_one_Some in Ho as [? ?]. exists p. eauto 10.
  - case_bool_decide; cbn; [eauto 10|by destruct s].
Qed.

(** when an administrator sets an override for a user, a module and an action, [granted]
    (which [hasPermission] computes) is the new value for that user unless the user is an Admin,
    no other decision of anybody changes, and no cached decision is stale. *)
Theorem setUserPermissionOverride_spec reg env u user def m a allowed s :
  db_wf s.(pdb) → coherent reg s →
  getUser s.(pdb) u = Some user → user.(pu_role) ≠ UserRole.ADMIN →
  getModule reg m = Some def → a ∈ def.(actions) → permission_record s.(pdb) m a ≠ None →
  let '(r, s') := setUserPermissionOverride env u m a allowed s in
  r = Ok tt ∧ db_wf s'.(pdb) ∧ coherent reg s' ∧
  granted reg s'.(pdb) u m a = allowed ∧
  ∀ u' m' a', ¬ (u' = u ∧ m' = m ∧ a' = a) →
    granted reg s'.(pdb) u' m' a' = granted reg s.(pdb) u' m' a'.
Proof.
  intros Hwf Hc Hu Hrole Hm Ha Hrec.
  destruct (permission_record (pdb s) m a) as [p|] eqn:Hp; [|done].
  apply (permission_record_spec _ Hwf) in Hp as (Hp & <- & <-).
  pose proof (proj1 (getUser_spec _ Hwf _ _) Hu) as [Hin Hid].
  pose proof (override_written env u p allowed s Hwf Hp) as H.
  destruct (setUserPermissionOverride env u (p_module p) (p_action p) allowed s) as [r s'].
  destruct H as (-> & [l Hl] & Hwf' & Hauth & Ho); [apply elem_of_map; by exists user|].
  assert (Hrows : ∀ rid m a, role_has s'.(pdb) rid m a ↔ role_has s.(pdb) rid m a) by by rewrite Hl.
  assert (Husers : ∀ u, getUser s'.(pdb) u = getUser s.(pdb) u) by by rewrite Hl.
  assert (Hother : ∀ u' m' a' rid, ¬ (u' = u ∧ m' = p.(p_module) ∧ a' = p.(p_action)) →
    resolvePermission s'.(pdb) u' m' a' rid = resolvePermission s.(pdb) u' m' a' rid).
  { intros u' m' a' rid Hne. apply resolvePermission_ext; try done.
    intros v. rewrite Ho. unfold override_after. by rewrite bool_decide_eq_false_2. }
  split_and!; try done.
  - intros u' m' a' d' user' e Hm' Ha' Hu' He. rewrite Husers in Hu'.
    rewrite Hauth, invalidate_perm in He.
    2:{ rewrite <- Hid. destruct Hwf as (_ & _ & _ & _ & _ & Hne). by apply Hne. }
    unfold invalidateUser in He. cbn in He. rewrite delete_keys_get in He.
    destruct (starts_with _ _) eqn:Hsw; [done|].
    rewrite (Hc _ _ _ _ _ _ Hm' Ha' Hu' He). symmetry. apply Hother. intros (-> & -> & ->).
    by rewrite cacheKey_user in Hsw.
  - unfold granted. rewrite Husers, Hu, Hm. rewrite bool_decide_eq_false_2 by done.
    rewrite bool_decide_eq_true_2 by done. cbn. apply eq_true_iff_eq.
    rewrite (resolvePermission_spec _ Hwf'). setoid_rewrite Ho. unfold override_after.
    rewrite bool_decide_eq_true_2 by done. destruct allowed; split; try done; [by left|].
    intros [?|[Hno _]]; [done|by destruct (Hno 0)].
  - intros u' m' a' Hne. unfold granted. rewrite Husers.
    destruct (getUser (pdb s) u'); [|done]. destruct (getModule reg m'); [|done]. by rewrite Hother.
Qed.

(** ** The three views of a user's permissions agree *)

Definition has_action (acc : action_map) (m a : string) : Prop :=
  ∃ l, map_get m acc = Some l ∧ a ∈ l.

Lemma has_action_add acc m a m' a' :
  has_action (add_action acc m a) m' a' ↔ has_action acc m' a' ∨ (m' = m ∧ a' = a).
Proof.
  unfold has_action, add_action. destruct (decide (m' = m)) as [->|Hne].
  - rewrite map_get_set_eq.
    assert (He : ∀ l0 : list string, (∃ l1, Some l0 = Some l1 ∧ a' ∈ l1) ↔ a' ∈ l0).
    { intros l0. split; [by intros (? & [= <-] & ?)|eauto]. }
    rewrite He. destruct (map_get m acc) as [l|]; cbn; [rewrite He|]; case_bool_decide.
    + split; [by left|]. by intros [?|[_ ->]].
    + rewrite elem_of_app, list_elem_of_singleton. naive_solver.
    + set_solver.
    + rewrite list_elem_of_singleton. split; [by right|]. by intros [(? & [=] & _)|[_ ->]].
  - rewrite map_get_set_ne by done. naive_solver.
Qed.

Lemma has_action_remove acc m a m' a' :
  has_action (remove_action acc m a) m' a' ↔ has_action acc m' a' ∧ ¬ (m' = m ∧ a' = a).
Proof.
  unfold has_action, remove_action. destruct (decide (m' = m)) as [->|Hne].
  - rewrite map_get_set_eq.
    assert (Hf : ∀ l : list string, a' ∈ List.filter (λ x, negb (bool_decide (x = a))) l ↔ a' ∈ l ∧ a' ≠ a).
    { intros l. rewrite !list_elem_of_In, List.filter_In, negb_true_iff, bool_decide_eq_false. done. }
    destruct (map_get m acc) as [l|]; cbn.
    + split; [intros (l' & [= <-] & Hin%Hf); naive_solver|].
      intros [(l' & [= <-] & Hin) Hne]. eexists. split; [done|]. apply Hf. naive_solver.
    + split; [intros (l' & [= <-] & Hin); set_solver|naive_solver].
  - rewrite map_get_set_ne by done. naive_solver.
Qed.

Lemma group_grants_has l acc m a :
  has_action (group_grants l acc) m a ↔ has_action acc m a ∨ (m, a) ∈ l.
Proof.
  unfold group_grants. revert acc. induction l as [|[m' a'] l IH]; intros acc; cbn; [set_solver|].
  rewrite IH, has_action_add. set_solver.
Qed.

Lemma apply_overrides_has l acc m a :
  (∀ v v', (m, a, v) ∈ l → (m, a, v') ∈ l → v = v') →
  has_action (apply_overrides l acc) m a ↔
  (m, a, 1) ∈ l ∨ (has_action acc m a ∧ ∀ v, (m, a, v) ∈ l → v = 1).
Proof.
  unfold apply_overrides. revert acc. induction l as [|[[m' a'] v] l IH]; intros acc Huniq; cbn [foldl fst snd].
  - set_solver.
  - rewrite IH by (intros; apply Huniq; set_solver).
    assert (Hsame : m' = m → a' = a → ∀ v', (m, a, v') ∈ l → v' = v).
    { intros -> -> v' Hv'. apply Huniq; set_solver. }
    setoid_rewrite elem_of_cons. destruct (Z.eqb_spec v 1) as [->|Hv].
    + rewrite has_action_add. split.
      * intros [H|[[H|[-> ->]] Hall]]; [by left; right| |by left; left].
        right. split; [done|]. intros v [[= _ _ ->]|Hv]; auto.
      * intros [[[= -> ->]|H]|[H Hall]]; [right|by left|right].
        -- split; [by right|]. intros v Hv. by apply Hsame.
        -- split; [by left|]. auto.
    + rewrite has_action_remove. split; [naive_solver|].
      intros [[[= -> -> <-]|H]|[Hacc Hall]]; [done|by left|right].
      split_and!; [done| |naive_solver]. intros [-> ->]. apply Hv, Hall. by left.
Qed.

Lemma action_maps_wf l lo :
  map_wf (apply_overrides lo (group_grants l [])).
Proof.
  assert (H : ∀ acc : action_map, map_wf acc → map_wf (apply_overrides lo acc)).
  { unfold apply_overrides. induction lo as [|o lo IH]; intros acc Hacc; cbn; [done|].
    apply IH. case_match; unfold add_action, remove_action; auto with alsaqi. }
  apply H. clear H. unfold group_grants.
  assert (Hn : map_wf ([] : action_map)) by constructor. revert Hn.
  generalize ([] : action_map). induction l as [|p l IH]; intros acc Hacc; cbn; [done|].
  apply IH. unfold add_action. auto with alsaqi.
Qed.

Lemma drop_empty_has acc m a : map_wf acc → has_action (drop_empty acc) m a ↔ has_action acc m a.
Proof.
  unfold map_wf, has_action, drop_empty. induction acc as [|[m' l'] acc IH]; [done|].
  rewrite keys_cons. intros [Hni Hnd]%NoDup_cons. specialize (IH Hnd). cbn.
  assert (Hf : m = m' → map_get m (List.filter (λ p : string * list string, negb (bool_decide (p.2 = []))) acc) = None).
  { intros ->. apply map_get_None. intros H. apply Hni. unfold keys in *.
    apply list_elem_of_fmap in H as ([k l] & -> & H). apply list_elem_of_In, List.filter_In in H as [H _].
    apply list_elem_of_In in H. by apply (list_elem_of_fmap_2' fst acc (k, l)). }
  case_bool_decide as Hl; cbn.
  - subst l'. rewrite IH. case_bool_decide as Hm; [|done].
    apply map_get_None in Hni. subst. rewrite Hni.
    split; [by intros (? & [=] & _)|by intros (? & [= <-] & []%not_elem_of_nil)].
  - case_bool_decide; done.
Qed.

Lemma elem_of_effective d u user m a :
  db_wf d → getUser d u = Some user →
  (m, a) ∈ getEffectivePermissions d u ↔
  ((∃ rid, truthy_id user.(pu_role_id) = Some rid ∧ role_has d rid m a) ∨ override_is d u m a 1) ∧
  ¬ override_is d u m a 0.
Proof.
  intros Hwf Hu. unfold getEffectivePermissions. rewrite (proj2 (set_of_list_spec _)), Hu.
  rewrite list_elem_of_In, List.filter_In, <- list_elem_of_In, negb_true_iff, bool_decide_eq_false.
  rewrite elem_of_app.
  assert (Hsel : ∀ v, (m, a) ∈ map fst (select (λ o : string * string * Z, o.2 =? v) (user_overrides d u))
                  ↔ override_is d u m a v).
  { intros v. rewrite elem_of_map. rewrite <- elem_of_user_overrides. split.
    - intros ([p v'] & -> & [Hin Hb]%elem_of_select). apply Z.eqb_eq in Hb. cbn in *. by subst.
    - intros H. exists (m, a, v). split; [done|]. apply elem_of_select. split; [done|]. apply Z.eqb_refl. }
  rewrite !Hsel. apply and_iff_compat_r, or_iff_compat_r.
  apply (getUser_spec _ Hwf) in Hu as [Hin _].
  destruct Hwf as (_ & _ & _ & _ & _ & Hne). destruct (Hne _ Hin) as [_ Hr].
  unfold truthy_id. destruct (pu_role_id user) as [rid|].
  2:{ split; [by intros []%not_elem_of_nil|by intros (? & [=] & _)]. }
  rewrite bool_decide_eq_false_2 by congruence. rewrite elem_of_role_grants.
  split; [eauto|by intros (? & [= <-] & ?)].
Qed.

Lemma permission_views reg s u user def m a :
  db_wf s.(pdb) → getUser s.(pdb) u = Some user → user.(pu_role) ≠ UserRole.ADMIN →
  getModule reg m = Some def → a ∈ def.(actions) →
  (granted reg s.(pdb) u m a = true ↔ (m, a) ∈ getEffectivePermissions s.(pdb) u) ∧
  ∃ perms, getUserPermissions u s = (Ok perms, s) ∧
    (granted reg s.(pdb) u m a = true ↔ has_action perms.(ups_permissions) m a).
Proof.
  intros Hwf Hu Hrole Hm Ha.
  assert (Hg : granted reg s.(pdb) u m a = true ↔
    override_is s.(pdb) u m a 1 ∨ ((∀ v, ¬ override_is s.(pdb) u m a v) ∧
      ∃ rid, truthy_id user.(pu_role_id) = Some rid ∧ role_has s.(pdb) rid m a)).
  { unfold granted. rewrite Hu, Hm, bool_decide_eq_false_2, bool_decide_eq_true_2 by done.
    apply resolvePermission_spec, Hwf. }
  pose proof (override_unique _ Hwf u m a) as Huniq.
  pose proof (override_values _ Hwf u m a) as H01.
  split.
  - rewrite Hg, (elem_of_effective _ _ _ _ _ Hwf Hu). split.
    + intros [H1|[Hno Hr]]; [|naive_solver]. split; [by right|].
      intros H0. by specialize (Huniq _ _ H0 H1).
    + intros [[Hr|H1] H0]; [|by left].
      destruct (decide (resolvePermission (pdb s) u m a None = true)) as [H|H].
      * apply (resolvePermission_spec _ Hwf) in H as [H|[_ (? & [=] & _)]]. by left.
      * right. split; [|done]. intros v Hv. destruct (H01 _ Hv) as [->| ->]; [done|].
        apply H, (resolvePermission_spec _ Hwf). by left.
  - eexists. unfold getUserPermissions. run_action. rewrite Hu. split; [reflexivity|]. cbn.
    rewrite drop_empty_has by apply action_maps_wf. rewrite apply_overrides_has.
    2:{ intros v v'. rewrite !elem_of_user_overrides. apply Huniq. }
    setoid_rewrite elem_of_user_overrides. rewrite group_grants_has, Hg.
    assert (Hrg : ((m, a) ∈ match truthy_id (pu_role_id user) with
                            | Some rid => role_grants (pdb s) rid | None => [] end) ↔
                  ∃ rid, truthy_id user.(pu_role_id) = Some rid ∧ role_has s.(pdb) rid m a).
    { destruct (truthy_id _) as [rid|]; [rewrite elem_of_role_grants|];
        split; [eauto|by intros (? & [= <-] & ?)|by intros []%not_elem_of_nil|by intros (? & [=] & _)]. }
    rewrite Hrg. assert (Hnil : ¬ has_action [] m a) by (intros (? & [=] & _)).
    split.
    + intros [H1|[Hno Hr]]; [by left|right]. split; [by right|]. intros v Hv. by destruct (Hno v).
    + intros [H1|[[?|Hr] Hall]]; [by left|done|].
      destruct (decide (resolvePermission (pdb s) u m a None = true)) as [H|H].
      * apply (resolvePermission_spec _ Hwf) in H as [H|[_ (? & [=] & _)]]. by left.
      * right. split; [|done]. intros v Hv. apply H, (resolvePermission_spec _ Hwf). left.
        by rewrite <- (Hall v Hv).
Qed.

(** for a user who is not an Admin and an action its module declares, the three ways the
    code computes permissions agree: the decision of [hasPermission], membership in the SQL of
    [getEffectivePermissions], and the action lists of [getUserPermissions]. *)
Theorem permission_views_agree reg s u user def m a :
  db_wf s.(pdb) → getUser s.(pdb) u = Some user → user.(pu_role) ≠ UserRole.ADMIN →
  getModule reg m = Some def → a ∈ def.(actions) →
  (granted reg s.(pdb) u m a = true ↔ (m, a) ∈ getEffectivePermissions s.(pdb) u) ∧
  ∃ perms, getUserPermissions u s = (Ok perms, s) ∧
    (granted reg s.(pdb) u m a = true ↔ has_action perms.(ups_permissions) m a).
Proof. apply permission_views. Qed.

(** ** A concrete state *)

Module Sample.
Definition db : perm_db := {|
  permissions := [{| p_id := "p1"; p_module := "AuditPlans"; p_action := "View" |};
                  {| p_id := "p2"; p_module := "AuditPlans"; p_action := "Delete" |}];
  role_permissions := [("r1", "p1")];
  user_permissions := [{| up_user_id := "u2"; up_permission_id := "p1"; up_is_allowed := 0 |}];
  users := [{| pu_id := "u1"; pu_role := "Manager"; pu_role_id := Some "r1" |};
            {| pu_id := "u2"; pu_role := "Manager"; pu_role_id := Some "r1" |}];
  roles := [{| r_id := "r1"; r_name := "Manager"; r_is_custom := false |}];
|}.
Definition state : perm_state := {|
  pdb := db;
  auth := {| perm_cache := cache_set 0 (cacheKey "u1" "AuditPlans" "View") true (new_cache 1000 5);
             redis := []; forceReadUserIds := [] |} |}.
Definition env : string → redis_env := λ _, {| isAvailable := true; answers := λ _, AttemptOk |}.

Lemma sample_db_wf : db_wf db.
Proof.
  split_and!; try (by apply (bool_decide_unpack _)).
  - intros o Ho%list_elem_of_singleton. subst. by left.
  - intros user. cbn. rewrite !elem_of_cons. by intros [->|[->|[]%not_elem_of_nil]].
Qed.

Lemma sample_coherent : coherent loaded_registry state.
Proof.
  intros u m a d user e Hm Ha Hu He. unfold state in He. cbn [auth perm_cache] in He.
  apply cache_set_store in He as [[Hk ->]|[_ [=]]].
  destruct (registered_no_underscore _ _ _ _ loaded_registry_wf Hm Ha).
  apply cacheKey_inj in Hk as (-> & -> & ->); try done; try (by apply (bool_decide_unpack _)).
  cbn in Hu. by injection Hu as <-.
Qed.
End Sample.

Lemma hasPermission_uncached_witness :
  let '(r, s') := hasPermission loaded_registry 1 2 "u2" "AuditPlans" "View" Sample.state in
  r = Ok (granted loaded_registry Sample.state.(pdb) "u2" "AuditPlans" "View") ∧
  s'.(pdb) = Sample.state.(pdb) ∧ coherent loaded_registry s'.
Proof.
  exact (hasPermission_uncached loaded_registry 1 2 "u2" "AuditPlans" "View" Sample.state
    loaded_registry_wf Sample.sample_coherent).
Defined.

Lemma granted_spec_witness :
  granted loaded_registry Sample.db "u1" "AuditPlans" "View" = true ↔
  ∃ user, user ∈ Sample.db.(users) ∧ user.(pu_id) = "u1" ∧
    (user.(pu_role) = UserRole.ADMIN ∨
     ∃ def, getModule loaded_registry "AuditPlans" = Some def ∧ "View" ∈ def.(actions) ∧
       (override_is Sample.db "u1" "AuditPlans" "View" 1 ∨
        (¬ override_is Sample.db "u1" "AuditPlans" "View" 0 ∧
         ¬ override_is Sample.db "u1" "AuditPlans" "View" 1 ∧
         ∃ rid, truthy_id user.(pu_role_id) = Some rid ∧
                role_has Sample.db rid "AuditPlans" "View"))).
Proof. exact (granted_spec loaded_registry Sample.db "u1" "AuditPlans" "View" Sample.sample_db_wf). Defined.

Lemma updateRolePermissions_spec_witness :
  let l := [{| upd_module := "AuditPlans"; upd_action := "View"; upd_granted := false |}] in
  let '(r, s') := updateRolePermissions Sample.env "r1" l Sample.state in
  match r with
  | Throw _ => s' = Sample.state
  | Ok _ =>
      (∃ rp, s'.(pdb) = with_role_permissions rp Sample.state.(pdb)) ∧
      (∀ rid m a, role_has s'.(pdb) rid m a ↔
                  role_after Sample.state.(pdb) "r1" (last_update m a l) rid m a) ∧
      db_wf s'.(pdb) ∧ coherent loaded_registry s'
  end.
Proof.
  exact (updateRolePermissions_spec loaded_registry Sample.env "r1"
    [{| upd_module := "AuditPlans"; upd_action := "View"; upd_granted := false |}]
    Sample.state Sample.sample_db_wf Sample.sample_coherent).
Defined.

Lemma setUserPermissionOverride_spec_witness :
  let '(r, s') := setUserPermissionOverride Sample.env "u1" "AuditPlans" "View" false Sample.state in
  r = Ok tt ∧ db_wf s'.(pdb) ∧ coherent loaded_registry s' ∧
  granted loaded_registry s'.(pdb) "u1" "AuditPlans" "View" = false ∧
  ∀ u' m' a', ¬ (u' = "u1" ∧ m' = "AuditPlans" ∧ a' = "View") →
    granted loaded_registry s'.(pdb) u' m' a' = granted loaded_registry Sample.state.(pdb) u' m' a'.
Proof.
  apply (setUserPermissionOverride_spec loaded_registry Sample.env "u1"
    {| pu_id := "u1"; pu_role := "Manager"; pu_role_id := Some "r1" |} mod_AuditPlans
    "AuditPlans" "View" false Sample.state Sample.sample_db_wf Sample.sample_coherent);
    [reflexivity|discriminate|vm_compute; reflexivity|by apply (bool_decide_unpack _)|discriminate].
Defined.

Lemma permission_views_agree_witness :
  (granted loaded_registry Sample.state.(pdb) "u2" "AuditPlans" "View" = true ↔
     ("AuditPlans", "View") ∈ getEffectivePermissions Sample.state.(pdb) "u2") ∧
  ∃ perms, getUserPermissions "u2" Sample.state = (Ok perms, Sample.state) ∧
    (granted loaded_registry Sample.state.(pdb) "u2" "AuditPlans" "View" = true ↔
     has_action perms.(ups_permissions) "AuditPlans" "View").
Proof.
  apply (permission_views_agree loaded_registry Sample.state "u2"
    {| pu_id := "u2"; pu_role := "Manager"; pu_role_id := Some "r1" |} mod_AuditPlans
    "AuditPlans" "View" Sample.sample_db_wf);
    [reflexivity|discriminate|vm_compute; reflexivity|by apply (bool_decide_unpack _)].
Defined.
