(* ===== verification/PathGate.v ===== *)
(** * Path gate ([src/src/middleware/pathGate.ts])

    [decodeURIComponent], the canonical form of a request path, and the
    prefix test of the password-change gate. *)

From S2P Require Import Prelude JsMap JsStrings.

(** ** [decodeURIComponent] *)

Definition hex_value (c : ascii) : option N :=
  if is_digit c then Some (code c - 48)%N
  else if in_range 65 70 c then Some (code c - 55)%N
  else if in_range 97 102 c then Some (code c - 87)%N
  else None.

(** The bytes of the string; [true] marks one written as a [%XX] escape. *)
Fixpoint escapes (l : list ascii) : option (list (bool * ascii)) :=
  match l with
  | [] => Some []
  | c :: l' =>
      if bool_decide (c = "%"%char) then
        match l' with
        | a :: b :: l'' =>
            ha ← hex_value a; hb ← hex_value b; ts ← escapes l'';
            Some ((true, ascii_of_N (ha * 16 + hb)) :: ts)
        | _ => None
        end
      else ts ← escapes l'; Some ((false, c) :: ts)
  end.

Definition valid_code_point (min cp : N) : bool :=
  (min <=? cp)%N && (cp <=? 1114111)%N && negb ((55296 <=? cp)%N && (cp <=? 57343)%N).

(** [need] continuation bytes are missing from the escaped UTF-8 sequence whose
    value so far is [cp] and must reach [min]. *)
Fixpoint utf8_escapes (need : nat) (min cp : N) (l : list (bool * ascii)) : option (list ascii) :=
  match l with
  | [] => match need with O => Some [] | _ => None end
  | (escaped, c) :: l' =>
      let b := code c in
      match need with
      | O =>
          if negb escaped || (b <? 128)%N then cons c <$> utf8_escapes 0 0 0 l'
          else if in_range 192 223 c then cons c <$> utf8_escapes 1 128 (b - 192) l'
          else if in_range 224 239 c then cons c <$> utf8_escapes 2 2048 (b - 224) l'
          else if in_range 240 247 c then cons c <$> utf8_escapes 3 65536 (b - 240) l'
          else None
      | S need' =>
          if escaped && in_range 128 191 c then
            let cp' := (cp * 64 + (b - 128))%N in
            if match need' with O => negb (valid_code_point min cp') | _ => false end then None
            else cons c <$> utf8_escapes need' min cp' l'
          else None
      end
  end.

(** [None] is the [URIError] of a malformed escape. *)
Definition decodeURIComponent (s : string) : option string :=
  ts ← escapes (chars s); of_chars <$> utf8_escapes 0 0 0 ts.

(** ** Canonical paths *)

Fixpoint decode_rounds (n : nat) (current : string) : string :=
  match n with
  | O => current
  | S n' =>
      match decodeURIComponent current with
      | None => current
      | Some next => if bool_decide (next = current) then current else decode_rounds n' next
      end
  end.
Definition safeDecode (rawPath : string) : string := decode_rounds 16 rawPath.

Definition forward_slashes (s : string) : string :=
  of_chars (map (λ c, if bool_decide (c = "\"%char) then "/"%char else c) (chars s)).

Definition resolve_segment (resolved : list string) (segment : string) : list string :=
  if bool_decide (segment = "") || bool_decide (segment = ".") then resolved
  else if bool_decide (segment = "..") then removelast resolved
  else resolved ++ [segment].

Definition resolved_segments (rawPath : string) : list string :=
  foldl resolve_segment [] (split "/" (forward_slashes (safeDecode rawPath))).

Definition canonicalizePath (rawPath : string) : string :=
  "/" +:+ join "/" (resolved_segments rawPath).

Definition isPathAllowed (canonicalPath : string) (allowedPaths : list string) : bool :=
  existsb (λ allowed, bool_decide (canonicalPath = allowed)
                      || starts_with canonicalPath (allowed +:+ "/")) allowedPaths.

(** ** Segments *)

Definition segment_ok (seg : string) : Prop :=
  seg ≠ "" ∧ seg ≠ "." ∧ seg ≠ ".." ∧ "/"%char ∉ chars seg.

Lemma split_chars_no_sep c l seg : seg ∈ split_chars c l → c ∉ seg.
Proof.
  revert seg. induction l as [|x l IH]; intros seg; cbn.
  - intros ->%list_elem_of_singleton. set_solver.
  - case_bool_decide as Hx.
    + intros [->|H]%elem_of_cons; [set_solver|auto].
    + destruct (split_chars c l) as [|s0 segs].
      * intros ->%list_elem_of_singleton. set_solver.
      * intros [->|H]%elem_of_cons; [|apply IH; set_solver].
        specialize (IH s0). set_solver.
Qed.

Lemma resolved_segments_ok raw : Forall segment_ok (resolved_segments raw).
Proof.
  unfold resolved_segments.
  assert (Hsplit : ∀ seg, seg ∈ split "/" (forward_slashes (safeDecode raw)) → "/"%char ∉ chars seg).
  { intros seg. unfold split. intros (l & -> & Hl)%list_elem_of_fmap.
    rewrite chars_of_chars. by eapply split_chars_no_sep. }
  revert Hsplit. generalize (split "/" (forward_slashes (safeDecode raw))). intros l Hsep.
  assert (H : ∀ acc, Forall segment_ok acc → Forall segment_ok (foldl resolve_segment acc l)).
  { induction l as [|seg l IH]; intros acc Hacc; cbn; [done|].
    apply IH; [set_solver|]. unfold resolve_segment.
    destruct (bool_decide (seg = "")) eqn:H0; cbn; [done|].
    destruct (bool_decide (seg = ".")) eqn:H1; cbn; [done|].
    destruct (bool_decide (seg = "..")) eqn:H2.
    - clear -Hacc. induction Hacc as [|x [|y acc] Hx Hacc IH]; cbn in *; by constructor.
    - bools. apply Forall_app. split; [done|]. constructor; [|done]. split_and!; try done.
      apply Hsep. set_solver. }
  by apply H.
Qed.

Lemma join_cons seg segs :
  join "/" (seg :: segs) = match segs with [] => seg | _ => seg +:+ "/" +:+ join "/" segs end.
Proof. by destruct segs. Qed.

(** The first segment of a joined path. *)
Lemma join_first seg seg' segs rest :
  "/"%char ∉ chars seg → "/"%char ∉ chars seg' →
  join "/" (seg :: segs) +:+ "/" = seg' +:+ "/" +:+ rest → seg = seg'.
Proof.
  intros H1 H2. rewrite join_cons.
  assert (Hu : ∀ (l1 l2 r1 r2 : list ascii), "/"%char ∉ l1 → "/"%char ∉ l2 →
    l1 ++ "/"%char :: r1 = l2 ++ "/"%char :: r2 → l1 = l2).
  { clear. induction l1 as [|x l1 IH]; intros [|y l2] r1 r2 Ha Hb Heq; cbn in *; try done.
    - injection Heq as <- _. set_solver.
    - injection Heq as -> _. set_solver.
    - injection Heq as -> Heq. f_equal. eapply IH; [set_solver..|done]. }
  intros Heq. apply (inj chars). apply (f_equal chars) in Heq.
  destruct segs as [|s2 segs]; rewrite ?app_assoc_str, !chars_app in Heq;
    change (chars "/") with ["/"%char] in Heq; cbn [app] in Heq; by eapply Hu.
Qed.

Lemma gate_entry_first seg segs entry :
  segment_ok seg → segment_ok entry →
  bool_decide ("/" +:+ join "/" (seg :: segs) = "/" +:+ entry)
  || starts_with ("/" +:+ join "/" (seg :: segs)) (("/" +:+ entry) +:+ "/")
  = bool_decide (seg = entry).
Proof.
  intros (_ & _ & _ & Hseg) (_ & _ & _ & Hname). apply eq_true_iff_eq.
  rewrite orb_true_iff, !bool_decide_eq_true, starts_with_spec. split.
  - intros [H|[t H]]; rewrite ?app_assoc_str in H; apply app_inj_l_str in H;
      eapply (join_first _ _ segs); try done; rewrite H; [by rewrite app_nil_r_str|].
    by rewrite !app_assoc_str.
  - intros ->. rewrite join_cons. destruct segs as [|s2 segs]; [by left|right].
    exists (join "/" (s2 :: segs)). by rewrite !app_assoc_str.
Qed.

(** the canonical form of any raw path is a slash followed by segments that are not empty,
    not [.] or [..] and hold no slash; and a gate whose entries are single segments lets a
    path through exactly when its first canonical segment is one of them, so no query string,
    substring or decoded traversal matches anything else. *)
Theorem gate_first_segment raw names :
  Forall segment_ok names →
  Forall segment_ok (resolved_segments raw) ∧
  (isPathAllowed (canonicalizePath raw) (map (λ n, "/" +:+ n) names) = true ↔
   ∃ seg rest, resolved_segments raw = seg :: rest ∧ seg ∈ names).
Proof.
  intros Hnames. pose proof (resolved_segments_ok raw) as Hsegs. split; [done|].
  unfold isPathAllowed, canonicalizePath.
  destruct (resolved_segments raw) as [|seg segs].
  - split; [|by intros (? & ? & [=] & _)]. rewrite existsb_exists.
    intros (p & Hp & Hb). apply in_map_iff in Hp as (entry & <- & Hin%list_elem_of_In).
    rewrite Forall_forall in Hnames. destruct (Hnames _ Hin) as (Hne & _).
    apply orb_true_iff in Hb as [Hb|Hb]; [bools|apply starts_with_spec in Hb as [t Hb]].
    + destruct entry; [done|discriminate Hb].
    + destruct entry; [done|discriminate Hb].
  - apply Forall_cons in Hsegs as [Hseg _]. rewrite existsb_exists, Forall_forall in *. split.
    + intros (p & Hp & Hb). apply in_map_iff in Hp as (entry & <- & Hin%list_elem_of_In).
      rewrite gate_entry_first in Hb by auto. bools. subst. eauto.
    + intros (? & ? & [= <- <-] & Hin). exists ("/" +:+ seg). split.
      * by apply in_map, list_elem_of_In.
      * rewrite gate_entry_first by auto. by apply bool_decide_eq_true.
Qed.

Lemma gate_first_segment_witness :
  Forall segment_ok (resolved_segments "/a/..%2Flogout/x") ∧
  (isPathAllowed (canonicalizePath "/a/..%2Flogout/x") (map (λ n, "/" +:+ n) ["logout"]) = true ↔
   ∃ seg rest, resolved_segments "/a/..%2Flogout/x" = seg :: rest ∧ seg ∈ ["logout"]).
Proof.
  apply (gate_first_segment "/a/..%2Flogout/x" ["logout"]).
  constructor; [split_and!; try discriminate; by apply (bool_decide_unpack _)|constructor].
Defined.

(** ** Idempotence and its limit *)

Lemma escapes_no_percent l : "%"%char ∉ l → escapes l = Some (map (λ c, (false, c)) l).
Proof.
  induction l as [|c l IH]; intros Hni; [done|]. cbn [escapes].
  rewrite bool_decide_eq_false_2 by set_solver. rewrite IH by set_solver. done.
Qed.

Lemma decodeURIComponent_no_percent s : "%"%char ∉ chars s → decodeURIComponent s = Some s.
Proof.
  intros Hni. unfold decodeURIComponent. rewrite escapes_no_percent by done. cbn [mbind option_bind].
  assert (utf8_escapes 0 0 0 (map (λ c, (false, c)) (chars s)) = Some (chars s)) as ->.
  { clear. induction (chars s) as [|c l IH]; [done|]. cbn. by rewrite IH. }
  cbn. by rewrite of_chars_chars.
Qed.

Lemma safeDecode_no_percent s : "%"%char ∉ chars s → safeDecode s = s.
Proof.
  intros Hni. unfold safeDecode. cbn [decode_rounds].
  rewrite decodeURIComponent_no_percent by done. by rewrite bool_decide_eq_true_2.
Qed.

Lemma split_chars_app c l1 l2 :
  c ∉ l1 → split_chars c (l1 ++ c :: l2) = l1 :: split_chars c l2.
Proof.
  induction l1 as [|x l1 IH]; cbn [app split_chars]; intros Hni.
  - by rewrite bool_decide_eq_true_2.
  - rewrite bool_decide_eq_false_2 by set_solver. by rewrite IH by set_solver.
Qed.

Lemma split_chars_single c l : c ∉ l → split_chars c l = [l].
Proof.
  induction l as [|x l IH]; cbn; intros Hni; [done|].
  rewrite bool_decide_eq_false_2 by set_solver. by rewrite IH by set_solver.
Qed.

Lemma split_join seg segs :
  Forall segment_ok (seg :: segs) → split "/" (join "/" (seg :: segs)) = seg :: segs.
Proof.
  revert seg. induction segs as [|s2 segs IH]; intros seg.
  - intros [(_ & _ & _ & H) _]%Forall_cons. unfold split. cbn [join].
    rewrite split_chars_single by done. cbn. by rewrite of_chars_chars.
  - intros [(_ & _ & _ & H) Hs]%Forall_cons. specialize (IH s2 Hs). revert IH.
    rewrite (join_cons seg). unfold split. rewrite !chars_app. change (chars "/") with ["/"%char].
    cbn [app]. rewrite split_chars_app by done. cbn [map]. intros ->. by rewrite of_chars_chars.
Qed.

Lemma resolve_ok_segments segs acc : Forall segment_ok segs → foldl resolve_segment acc segs = acc ++ segs.
Proof.
  revert acc. induction segs as [|seg segs IH]; intros acc H; cbn; [by rewrite app_nil_r|].
  apply Forall_cons in H as [(H1 & H2 & H3 & _) H]. rewrite IH by done.
  unfold resolve_segment. rewrite !bool_decide_eq_false_2 by done. cbn. by rewrite <- app_assoc.
Qed.

Lemma forward_slashes_chars s c : c ∈ chars (forward_slashes s) → c ≠ "\"%char.
Proof.
  unfold forward_slashes. rewrite chars_of_chars. intros (x & -> & _)%list_elem_of_fmap.
  case_bool_decide; [done|]. congruence.
Qed.

Lemma forward_slashes_id s : "\"%char ∉ chars s → forward_slashes s = s.
Proof.
  intros H. unfold forward_slashes. rewrite <- (of_chars_chars s) at 2. f_equal.
  induction (chars s) as [|c l IH]; [done|]. cbn.
  rewrite bool_decide_eq_false_2 by set_solver. by rewrite IH by set_solver.
Qed.

Lemma split_chars_sub c l seg x : seg ∈ split_chars c l → x ∈ seg → x ∈ l.
Proof.
  revert seg. induction l as [|y l IH]; intros seg; cbn.
  - intros ->%list_elem_of_singleton. set_solver.
  - case_bool_decide.
    + intros [->|H']%elem_of_cons; [set_solver|]. intros Hx. apply elem_of_cons. eauto.
    + destruct (split_chars c l) as [|s0 segs].
      * intros ->%list_elem_of_singleton. set_solver.
      * intros [->|H']%elem_of_cons Hx; apply elem_of_cons.
        -- apply elem_of_cons in Hx as [->|Hx]; [by left|right]. apply (IH s0); [by left|done].
        -- right. apply (IH seg); [by right|done].
Qed.

Lemma join_elem sep segs c :
  c ∈ chars (join sep segs) → c ∈ chars sep ∨ ∃ seg, seg ∈ segs ∧ c ∈ chars seg.
Proof.
  unfold join. induction segs as [|seg [|s2 segs] IH].
  - intros []%not_elem_of_nil.
  - intros H. right. exists seg. split; [by left|done].
  - change (String.concat sep (seg :: s2 :: segs)) with (seg +:+ sep +:+ String.concat sep (s2 :: segs)).
    rewrite !chars_app, !elem_of_app. intros [H|[H|H]]; [right|by left|].
    + exists seg. split; [by left|done].
    + destruct (IH H) as [?|(s & Hs & Hc)]; [by left|right]. exists s. split; [by right|done].
Qed.

Lemma resolved_no_backslash raw seg : seg ∈ resolved_segments raw → "\"%char ∉ chars seg.
Proof.
  unfold resolved_segments.
  assert (Hs : ∀ seg, seg ∈ split "/" (forward_slashes (safeDecode raw)) → "\"%char ∉ chars seg).
  { intros s0 (l & -> & Hl)%list_elem_of_fmap Hin. rewrite chars_of_chars in Hin.
    by eapply forward_slashes_chars; [eapply split_chars_sub|]. }
  revert Hs. generalize (split "/" (forward_slashes (safeDecode raw))). intros l Hs.
  assert (H : ∀ acc, (∀ s, s ∈ acc → "\"%char ∉ chars s) →
     ∀ s, s ∈ foldl resolve_segment acc l → "\"%char ∉ chars s); [|apply H; set_solver].
  induction l as [|s0 l IH]; intros acc Hacc; cbn; [done|].
  apply IH; [set_solver|]. intros s. unfold resolve_segment.
  destruct (bool_decide (s0 = "") || bool_decide (s0 = ".")); [auto|].
  case_bool_decide.
  - intros H'. apply Hacc. revert H'. clear. induction acc as [|x [|y acc] IH]; [done|set_solver|].
    cbn [removelast] in *. intros [->|H']%elem_of_cons; [by left|right]. by apply IH.
  - intros [H'|H'%list_elem_of_singleton]%elem_of_app; [auto|]. subst. apply Hs. by left.
Qed.

(** canonicalization is idempotent on every path whose canonical form holds no percent
    sign; it is not idempotent in general: a malformed escape in a segment that a later [..]
    removes leaves the escapes of the other segments to the next pass. *)
Theorem canonicalizePath_idempotent :
  (∀ raw, "%"%char ∉ chars (canonicalizePath raw) →
     canonicalizePath (canonicalizePath raw) = canonicalizePath raw) ∧
  canonicalizePath "/%zz/../%2e%2e/logout" = "/%2e%2e/logout" ∧
  canonicalizePath "/%2e%2e/logout" = "/logout".
Proof.
  split; [|by vm_compute]. intros raw Hni. unfold canonicalizePath at 1. unfold resolved_segments at 1.
  rewrite safeDecode_no_percent by done. unfold canonicalizePath in *.
  pose proof (resolved_segments_ok raw) as Hok. pose proof (resolved_no_backslash raw) as Hbs.
  rewrite forward_slashes_id.
  2:{ rewrite chars_app, elem_of_app. intros [H|H]; [by apply list_elem_of_singleton in H|].
      apply join_elem in H as [H|(seg & Hs & H)]; [by apply list_elem_of_singleton in H|].
      by apply (Hbs seg). }
  assert (Hhead : ∀ s, split "/" ("/" +:+ s) = "" :: split "/" s).
  { intros s. unfold split. rewrite chars_app. change (chars "/" ++ chars s) with ("/"%char :: chars s).
    cbn [split_chars]. by rewrite bool_decide_eq_true_2. }
  rewrite Hhead. cbn [foldl]. change (resolve_segment [] "") with (@nil string).
  destruct (resolved_segments raw) as [|seg segs]; [done|].
  by rewrite split_join, resolve_ok_segments.
Qed.
