(* ===== verification/AuthMiddleware.v ===== *)
(** * Authentication and authorization middleware
    ([src/src/middleware/auth.ts], [secureFileScoping.ts], [src/src/services/accountStatus.ts])

    [jwt.verify] is the parameter [verify].  The environment of a request says
    whether Redis and the database answer it. *)

From S2P Require Import Prelude JsMap JsStrings ModuleRegistry ModuleCatalogue PermissionCache.
From S2P Require Import AuthCache PermissionService PathGate.
Local Open Scope Z_scope.

(** ** Account status *)

Definition ACTIVE_STATUS : string := "Active".
Definition isLoginBlockedStatus (status : string) : bool := negb (bool_decide (status = ACTIVE_STATUS)).

(** ** [getCachedOrDb] *)

(** Redis is available, its GET and SET succeed, the database answers. *)
Record store_env := { redis_up : bool; get_ok : bool; set_ok : bool; db_ok : bool }.

Definition AUTH_CACHE_TTL_SECONDS : Z := 300.

(** A Redis key is gone after its expiry. *)
Definition redis_get (now : Z) (k : string) (r : list (string * redis_entry)) : option user_row :=
  match map_get k r with
  | Some e => if now <? e.(re_expires) then Some e.(re_row) else None
  | None => None
  end.

Definition redis_set (env : store_env) (now : Z) (k : string) (row : user_row) (c : auth_cache) : auth_cache :=
  if env.(redis_up) && env.(set_ok)
  then with_redis (map_set k {| re_row := row; re_expires := now + AUTH_CACHE_TTL_SECONDS * 1000 |} c.(redis)) c
  else c.

(** The result is [Throw tt] when the database does not answer. *)
Definition getCachedOrDb (env : store_env) (now : Z) (redisKey : string)
    (fetcher : option user_row) (forceFresh : bool) (c : auth_cache) :
    outcome unit (option user_row) * auth_cache :=
  match (if negb forceFresh && env.(redis_up) && env.(get_ok) then redis_get now redisKey c.(redis) else None) with
  | Some row => (Ok (Some row), c)
  | None =>
      if negb env.(db_ok) then (Throw tt, c)
      else (Ok fetcher,
            match fetcher with Some row => redis_set env now redisKey row c | None => c end)
  end.

(** ** [authenticate] *)

Record request := {
  cookie_token : string;
  authorization : string;
  req_path : string;
}.

Record claims := { tok_id : string; tok_session_version : Z }.

Definition PASSWORD_CHANGE_ALLOWED_PATHS : list string :=
  ["/change-password"; "/update-password"; "/logout"; "/refresh"; "/session"].

Definition passwordChangeGate (req : request) (user : user_row) : reply :=
  if negb user.(ur_requires_password_change) then Next
  else if isPathAllowed (canonicalizePath req.(req_path)) PASSWORD_CHANGE_ALLOWED_PATHS then Next
  else Reply 403 "PASSWORD_CHANGE_REQUIRED".

(** The cookie, or else the bearer token; [""] is no token. *)
Definition request_token (req : request) : string :=
  if negb (bool_decide (req.(cookie_token) = "")) then req.(cookie_token)
  else match split " " req.(authorization) with
       | [scheme; t] => if bool_decide (scheme = "Bearer") then t else ""
       | _ => ""
       end.

Definition find_user (db : list user_row) (userId : string) : option user_row :=
  select_one (λ u, bool_decide (u.(ur_id) = userId)) db.

(** What the handler decides once it has the row. *)
Definition row_decision (req : request) (t : claims) (row : option user_row) : reply * option user_row :=
  match row with
  | None => (Reply 401 "User not found in database", None)
  | Some user =>
      if isLoginBlockedStatus user.(ur_status) then (Reply 403 "Account is not active", None)
      else if negb (user.(ur_session_version) =? t.(tok_session_version))
      then (Reply 401 "Session invalidated", None)
      else (passwordChangeGate req user, Some user)
  end.

Section authenticate.
Context (verify : string → option claims).

(** The reply, and the [req.user] handed on with it. *)
Definition authenticate (env : store_env) (now : Z) (db : list user_row) (req : request) (c : auth_cache) :
    (reply * option user_row) * auth_cache :=
  let token := request_token req in
  if bool_decide (token = "") then ((Reply 401 "Unauthorized", None), c)
  else match verify token with
  | None => ((Reply 401 "Invalid token", None), c)
  | Some t =>
      let forceFresh := shouldForceRead t.(tok_id) c in
      match getCachedOrDb env now (user_cache_key t.(tok_id) t.(tok_session_version))
              (find_user db t.(tok_id)) forceFresh c with
      | (Throw _, c') => ((Reply 503 "AUTH_STATE_UNVERIFIABLE", None), c')
      | (Ok row, c') =>
          (row_decision req t row, if forceFresh then clearForceRead t.(tok_id) c' else c')
      end
  end.
End authenticate.

(** ** [checkPermission] and [authorize] *)

(** [req.user] as the permission checks read it. *)
Record principal := { pr_id : string; pr_role : string }.

Definition checkPermission (reg : registry) (now now' : Z) (m a : string) (user : option principal) :
    action app_error perm_state reply :=
  match getModule reg m with
  | None => mret (Reply 500 "Internal authorization configuration error")
  | Some _ =>
      match user with
      | None => mret (Reply 401 "Authentication required")
      | Some user =>
          if bool_decide (user.(pr_role) = UserRole.ADMIN) then mret Next
          else
            try_catch
              (allowed ← hasPermission reg now now' user.(pr_id) m a;
               if allowed : bool then mret Next else mret (Reply 403 "PERMISSION_DENIED"))
              (λ _, mret (Reply 500 "Internal authorization error"))
      end
  end.

Definition authorize (allowedRoles : list string) (user : principal) : reply :=
  if bool_decide (user.(pr_role) ∈ allowedRoles) then Next else Reply 403 "Insufficient permissions".

(** ** File scoping *)

(** The [files] table: id and module. *)
Abbreviation file_table := (list (string * option string)).

(** [db_ok = false] is a query that throws, which [getFileRecord] turns into no record. *)
Definition getFileRecord (db_ok : bool) (files : file_table) (fileId : string) :
    option (string * option string) :=
  if db_ok then select_one (λ f, bool_decide (f.1 = fileId)) files else None.

Definition checkFilePermission (reg : registry) (now now' : Z) (db_ok : bool) (files : file_table)
    (user : option principal) (fileId : string) : action app_error perm_state reply :=
  if match user with Some u => bool_decide (u.(pr_role) = UserRole.ADMIN) | None => false end then mret Next
  else if bool_decide (fileId = "") then mret (Reply 403 "file identifier missing")
  else match getFileRecord db_ok files fileId with
  | None => mret (Reply 403 "file not found")
  | Some (_, fileModule) =>
      match fileModule with
      | None => mret (Reply 403 "no associated module")
      | Some fm =>
          if bool_decide (trim fm = "") then mret (Reply 403 "no associated module")
          else match getModule reg fm with
          | None => mret (Reply 403 "not registered")
          | Some moduleDef =>
              if bool_decide (moduleDef.(fileScope) = Some false) then mret (Reply 403 "no file-level scoping")
              else match user with
              | None => throw (GenericError "TypeError: user is undefined")
              | Some u =>
                  allowed ← hasPermission reg now now' u.(pr_id) fm "View";
                  if allowed : bool then mret Next else mret (Reply 403 "PERMISSION_DENIED")
              end
          end
      end
  end.

(** ** What authentication lets through *)

Lemma map_get_absent_redis k (r : list (string * redis_entry)) :
  (∀ e, (k, e) ∉ r) → map_get k r = None.
Proof.
  intros H. destruct (map_get k r) as [e|] eqn:He; [|done].
  by apply map_get_Some_elem, H in He.
Qed.

Lemma getCachedOrDb_source env now k fetcher force c row c' :
  getCachedOrDb env now k fetcher force c = (Ok row, c') →
  row = fetcher ∨ (force = false ∧ ∃ user, row = Some user ∧ redis_get now k c.(redis) = Some user).
Proof.
  unfold getCachedOrDb. destruct (negb force && redis_up env && get_ok env) eqn:Hcond.
  - destruct (redis_get now k (redis c)) as [user|]; bools.
    + intros [= <- _]. right. eauto.
    + destruct (db_ok env); cbn; [|done]. intros [= <- _]. by left.
  - destruct (db_ok env); cbn; [|done]. intros [= <- _]. by left.
Qed.

Section theorems.
Context (verify : string → option claims).

(** C2: a request reaches the next handler only with a token that verifies, for an account
    whose status is exactly [Active] and whose session version is the token's, and, when a
    password change is due, only on one of the five gate paths; the account row is the
    database's or an unexpired cached copy kept for exactly this user and session version. *)
Theorem authenticate_sound env now db req c user c' :
  authenticate verify env now db req c = ((Next, user), c') →
  ∃ t u, verify (request_token req) = Some t ∧ user = Some u ∧
    u.(ur_status) = "Active" ∧ u.(ur_session_version) = t.(tok_session_version) ∧
    (find_user db t.(tok_id) = Some u ∨
     redis_get now (user_cache_key t.(tok_id) t.(tok_session_version)) c.(redis) = Some u) ∧
    (u.(ur_requires_password_change) = false ∨
     ∃ seg rest, resolved_segments req.(req_path) = seg :: rest ∧
       seg ∈ ["change-password"; "update-password"; "logout"; "refresh"; "session"]).
Proof.
  unfold authenticate. case_bool_decide; [done|].
  destruct (verify (request_token req)) as [t|]; [|done].
  destruct (getCachedOrDb _ _ _ _ _ _) as [[row|] c1] eqn:Hg; [|done].
  unfold row_decision. destruct row as [u|]; [|done].
  destruct (isLoginBlockedStatus (ur_status u)) eqn:Hst; [done|].
  destruct (Z.eqb_spec (ur_session_version u) (tok_session_version t)) as [Hsv|]; [|done].
  intros [= Hgate <- _]. exists t, u. unfold isLoginBlockedStatus in Hst. bools.
  split_and!; try done.
  - apply getCachedOrDb_source in Hg as [Hg|(_ & u' & [= <-] & Hg)]; auto.
  - unfold passwordChangeGate in Hgate. destruct (ur_requires_password_change u); [right|by left].
    cbn [negb] in Hgate. destruct (isPathAllowed _ _) eqn:Hp; [|done].
    unfold isPathAllowed in Hp. apply existsb_exists in Hp as (p & Hin & Hp).
    pose proof (resolved_segments_ok req.(req_path)) as Hok. unfold canonicalizePath in Hp.
    change PASSWORD_CHANGE_ALLOWED_PATHS with
      (map (λ n, "/" +:+ n) ["change-password"; "update-password"; "logout"; "refresh"; "session"]) in Hin.
    apply in_map_iff in Hin as (n & <- & Hn%list_elem_of_In).
    assert (Hnok : segment_ok n).
    { clear -Hn. revert Hn. rewrite !elem_of_cons.
      intros [->|[->|[->|[->|[->|[]%not_elem_of_nil]]]]];
        (split_and!; try discriminate; by apply (bool_decide_unpack _)). }
    destruct (resolved_segments (req_path req)) as [|seg rest].
    + exfalso. destruct Hnok as (Hne & _). apply orb_true_iff in Hp as [Hp|Hp];
        [bools|apply starts_with_spec in Hp as [? Hp]]; destruct n; done.
    + apply Forall_cons in Hok as [Hseg _]. rewrite gate_entry_first in Hp by done. bools. subst. eauto.
Qed.

(** C4: once [invalidate] has run on an available Redis, the next request of that user, with
    a token of any session version and whether the key deletions succeeded, failed in part
    or failed, is decided on the row the database holds then; if the database does not
    answer it is refused with 503.  It needs the connection to keep its client while the
    deletions are tried: an attempt without a client deletes nothing and counts as
    successful ([lost_client_leaves_row]). *)
Theorem invalidation_reaches_next_request ienv env now db req c t :
  t.(tok_id) ≠ "" → ienv.(isAvailable) = true → connected_throughout ienv →
  request_token req ≠ "" → verify (request_token req) = Some t →
  (authenticate verify env now db req (invalidate ienv t.(tok_id) c)).1 =
  if env.(db_ok) then row_decision req t (find_user db t.(tok_id))
  else (Reply 503 "AUTH_STATE_UNVERIFIABLE", None).
Proof.
  intros Hid Hav Hconn Htok Hver. unfold authenticate. rewrite bool_decide_eq_false_2, Hver by done.
  assert (Hpurged : let c' := invalidate ienv t.(tok_id) c in
    shouldForceRead t.(tok_id) c' = true ∨ ∀ e, (user_cache_key t.(tok_id) t.(tok_session_version), e) ∉ c'.(redis)).
  { intros c'. unfold c', invalidate. rewrite bool_decide_eq_false_2, Hav by done. cbn [negb].
    match goal with |- context [try_attempts ienv ?u ?n ?i ?c0] =>
      destruct (try_attempts_purges ienv u n i c0 Hconn) as [H|H] end; [by left|right].
    intros e Hin. specialize (H _ _ Hin). by rewrite user_cache_key_matches in H. }
  cbn zeta in Hpurged. set (c' := invalidate ienv (tok_id t) c) in *.
  unfold getCachedOrDb.
  assert ((if negb (shouldForceRead (tok_id t) c') && redis_up env && get_ok env
           then redis_get now (user_cache_key (tok_id t) (tok_session_version t)) (redis c')
           else None) = None) as ->.
  { destruct Hpurged as [->|Hno]; [done|]. destruct (_ && _); [|done].
    unfold redis_get. by rewrite (map_get_absent_redis _ _ Hno). }
  by destruct (db_ok env).
Qed.
End theorems.

(** ** The force-read flag belongs to the user, the cache keys to a session version *)

Module StaleSession.
Definition row (sv : Z) : user_row := {|
  ur_id := "u"; ur_role := "Manager"; ur_status := "Active"; ur_username := "u"; ur_name := "U";
  ur_email := "u@x"; ur_session_version := sv; ur_requires_password_change := false;
  ur_department_id := None |}.
Definition token_of (s : string) : option claims :=
  if bool_decide (s = "old") then Some {| tok_id := "u"; tok_session_version := 1 |}
  else if bool_decide (s = "new") then Some {| tok_id := "u"; tok_session_version := 2 |}
  else None.
Definition up : store_env := {| redis_up := true; get_ok := true; set_ok := true; db_ok := true |}.
Definition failing : redis_env := {| isAvailable := true; answers := λ _, AttemptFails [] |}.
(** The first attempt fails, and before the second the connection is gone. *)
Definition lost : redis_env := {| isAvailable := true; answers := λ i, match i with 1%nat => AttemptFails [] | _ => AttemptNoClient end |}.
Definition req (t : string) : request := {| cookie_token := t; authorization := ""; req_path := "/" |}.
Definition c0 : auth_cache :=
  {| perm_cache := new_cache 1000 5; redis := []; forceReadUserIds := [] |}.
(** The old token is used and its row cached, the session version is raised and the
    invalidation fails, the new token is used. *)
Definition c1 : auth_cache := (authenticate token_of up 0 [row 1] (req "old") c0).2.
Definition c2 : auth_cache := invalidate failing "u" c1.
Definition c3 : auth_cache := (authenticate token_of up 1000 [row 2] (req "new") c2).2.
End StaleSession.

(** after an invalidation whose key deletions all failed, one request with the user's new
    token clears the force-read flag but leaves the Redis key of the old session version, and
    the revoked old token is then accepted from the cache. *)
Theorem revoked_token_accepted_from_cache :
  find_user [StaleSession.row 2] "u" = Some (StaleSession.row 2) ∧
  shouldForceRead "u" StaleSession.c2 = true ∧
  (authenticate StaleSession.token_of StaleSession.up 2000 [StaleSession.row 2]
     (StaleSession.req "old") StaleSession.c2).1 = (Reply 401 "Session invalidated", None) ∧
  (authenticate StaleSession.token_of StaleSession.up 2000 [StaleSession.row 2]
     (StaleSession.req "old") StaleSession.c3).1 = (Next, Some (StaleSession.row 1)).
Proof. by vm_compute. Qed.

(** an invalidation that loses the client between two attempts ends as a success: the cached
    row stays, no read is forced, and once Redis is back the revoked token is accepted. *)
Lemma lost_client_leaves_row :
  shouldForceRead "u" (invalidate StaleSession.lost "u" StaleSession.c1) = false ∧
  (authenticate StaleSession.token_of StaleSession.up 1000 [StaleSession.row 2]
     (StaleSession.req "old") (invalidate StaleSession.lost "u" StaleSession.c1)).1 = (Next, Some (StaleSession.row 1)).
Proof. by vm_compute. Qed.

(** ** Route and file permissions *)

(** a route guarded by [checkPermission] is entered exactly by an authenticated Admin or by
    a user to whom the tables grant the action, and only if its module is registered; every
    other request gets 401, 403 or 500 and no table changes. *)
Theorem checkPermission_spec reg now now' m a user s :
  registry_wf reg → coherent reg s →
  let '(r, s') := checkPermission reg now now' m a user s in
  s'.(pdb) = s.(pdb) ∧ coherent reg s' ∧
  ∃ rep, r = Ok rep ∧
    (rep = Next ↔ getModule reg m ≠ None ∧ ∃ u, user = Some u ∧
       (u.(pr_role) = UserRole.ADMIN ∨ granted reg s.(pdb) u.(pr_id) m a = true)) ∧
    (rep = Next ∨ rep = Reply 401 "Authentication required" ∨ rep = Reply 403 "PERMISSION_DENIED" ∨
     rep = Reply 500 "Internal authorization configuration error").
Proof.
  intros Hreg Hc. unfold checkPermission, try_catch.
  destruct (getModule reg m) as [def|].
  2:{ run_action. split_and!; [done..|]. eexists. split; [reflexivity|]. split; [|auto].
      split; [done|]. by intros [H _]. }
  destruct user as [u|].
  2:{ run_action. split_and!; [done..|]. eexists. split; [reflexivity|]. split; [|auto].
      split; [done|]. by intros [_ (? & [=] & _)]. }
  case_bool_decide as Hadm.
  { run_action. split_and!; [done..|]. eexists. split; [reflexivity|]. split; [|auto].
    split; [|done]. intros _. split; [done|]. eauto. }
  unfold mbind, action_bind. pose proof (hasPermission_run reg now now' u.(pr_id) m a s Hreg Hc) as H.
  destruct (hasPermission _ _ _ _ _ _ _) as [r s']. destruct H as (-> & Hpdb & Hc' & _).
  destruct (granted _ _ _ _ _) eqn:Hg; run_action; (split_and!; [done..|]);
    (eexists; split; [reflexivity|]; split; [|auto]).
  - split; [|done]. intros _. split; [done|]. eauto.
  - split; [done|]. intros [_ (? & [= <-] & [?|?])]; congruence.
Qed.

(** a file is served only to an Admin, or to a user with [View] on the module the file's
    record names, that module being registered and not opted out of file scoping. *)
Theorem checkFilePermission_spec reg now now' ok files user fileId s :
  registry_wf reg → coherent reg s →
  let '(r, s') := checkFilePermission reg now now' ok files user fileId s in
  s'.(pdb) = s.(pdb) ∧
  (r = Ok Next →
   ∃ u, user = Some u ∧
     (u.(pr_role) = UserRole.ADMIN ∨
      ∃ fm def, (fileId, Some fm) ∈ files ∧ getModule reg fm = Some def ∧
        def.(fileScope) ≠ Some false ∧ granted reg s.(pdb) u.(pr_id) fm "View" = true)).
Proof.
  intros Hreg Hc. unfold checkFilePermission.
  destruct (match user with Some u => _ | None => _ end) eqn:Hadm.
  { run_action. split; [done|]. intros _. destruct user as [u|]; [|done]. bools. eauto. }
  clear Hadm. case_bool_decide as Hid; [run_action; split; done|].
  destruct (getFileRecord ok files fileId) as [[f [fm|]]|] eqn:Hf; try (run_action; split; done).
  case_bool_decide as Htrim; [run_action; split; done|].
  destruct (getModule reg fm) as [def|] eqn:Hm; [|run_action; naive_solver].
  case_bool_decide as Hscope; [run_action; split; done|].
  destruct user as [u|]; [|run_action; naive_solver].
  unfold mbind, action_bind. pose proof (hasPermission_run reg now now' u.(pr_id) fm "View" s Hreg Hc) as H.
  destruct (hasPermission _ _ _ _ _ _ _) as [r s']. destruct H as (-> & Hpdb & _).
  unfold getFileRecord in Hf. destruct ok; [|done].
  apply select_one_Some in Hf as [Hin Hb]. bools. cbn in Hb. subst f.
  destruct (granted _ _ _ _ _) eqn:Hg; run_action; (split; [done|]); [|done].
  intros _. exists u. split; [done|]. right. by exists fm, def.
Qed.

(** ** Witnesses *)

Lemma authenticate_sound_witness :
  ∃ t u, StaleSession.token_of (request_token (StaleSession.req "new")) = Some t ∧
      Some (StaleSession.row 2) = Some u ∧
      u.(ur_status) = "Active" ∧ u.(ur_session_version) = t.(tok_session_version) ∧
      (find_user [StaleSession.row 2] t.(tok_id) = Some u ∨
       redis_get 0 (user_cache_key t.(tok_id) t.(tok_session_version)) StaleSession.c0.(redis) = Some u) ∧
      (u.(ur_requires_password_change) = false ∨
       ∃ seg rest, resolved_segments (StaleSession.req "new").(req_path) = seg :: rest ∧
         seg ∈ ["change-password"; "update-password"; "logout"; "refresh"; "session"]).
Proof.
  apply (authenticate_sound StaleSession.token_of StaleSession.up 0 [StaleSession.row 2]
    (StaleSession.req "new") StaleSession.c0 (Some (StaleSession.row 2))
    (authenticate StaleSession.token_of StaleSession.up 0 [StaleSession.row 2]
       (StaleSession.req "new") StaleSession.c0).2).
  vm_compute. reflexivity.
Defined.

Lemma invalidation_reaches_next_request_witness :
  (authenticate StaleSession.token_of StaleSession.up 5 [StaleSession.row 2] (StaleSession.req "old")
     (invalidate StaleSession.failing "u" StaleSession.c1)).1 =
  if StaleSession.up.(db_ok)
  then row_decision (StaleSession.req "old") {| tok_id := "u"; tok_session_version := 1 |}
         (find_user [StaleSession.row 2] "u")
  else (Reply 503 "AUTH_STATE_UNVERIFIABLE", None).
Proof.
  apply (invalidation_reaches_next_request StaleSession.token_of StaleSession.failing StaleSession.up 5
    [StaleSession.row 2] (StaleSession.req "old") StaleSession.c1
    {| tok_id := "u"; tok_session_version := 1 |}); [discriminate|reflexivity|intros i; discriminate|discriminate|reflexivity].
Defined.

Definition sample_principal : principal := {| pr_id := "u2"; pr_role := "Manager" |}.

Lemma checkPermission_spec_witness :
  let '(r, s') := checkPermission ModuleCatalogue.loaded_registry 1 2 "AuditPlans" "View"
                    (Some sample_principal) Sample.state in
  s'.(pdb) = Sample.state.(pdb) ∧ coherent ModuleCatalogue.loaded_registry s' ∧
  ∃ rep, r = Ok rep ∧
    (rep = Next ↔ getModule ModuleCatalogue.loaded_registry "AuditPlans" ≠ None ∧
       ∃ u, Some sample_principal = Some u ∧
       (u.(pr_role) = UserRole.ADMIN ∨
        granted ModuleCatalogue.loaded_registry Sample.state.(pdb) u.(pr_id) "AuditPlans" "View" = true)) ∧
    (rep = Next ∨ rep = Reply 401 "Authentication required" ∨ rep = Reply 403 "PERMISSION_DENIED" ∨
     rep = Reply 500 "Internal authorization configuration error").
Proof.
  exact (checkPermission_spec ModuleCatalogue.loaded_registry 1 2 "AuditPlans" "View"
    (Some sample_principal) Sample.state ModuleCatalogue.loaded_registry_wf Sample.sample_coherent).
Defined.

Lemma checkFilePermission_spec_witness :
  let '(r, s') := checkFilePermission ModuleCatalogue.loaded_registry 1 2 true [("f1", Some "AuditPlans")]
                    (Some sample_principal) "f1" Sample.state in
  s'.(pdb) = Sample.state.(pdb) ∧
  (r = Ok Next →
   ∃ u, Some sample_principal = Some u ∧
     (u.(pr_role) = UserRole.ADMIN ∨
      ∃ fm def, ("f1", Some fm) ∈ [("f1", Some "AuditPlans")] ∧
        getModule ModuleCatalogue.loaded_registry fm = Some def ∧
        def.(fileScope) ≠ Some false ∧
        granted ModuleCatalogue.loaded_registry Sample.state.(pdb) u.(pr_id) fm "View" = true)).
Proof.
  exact (checkFilePermission_spec ModuleCatalogue.loaded_registry 1 2 true [("f1", Some "AuditPlans")]
    (Some sample_principal) "f1" Sample.state ModuleCatalogue.loaded_registry_wf Sample.sample_coherent).
Defined.
