(* ===== verification/RateLimiter.v ===== *)
(** * Sliding-window rate limiter ([src/src/middleware/rateLimiter.ts])

    Two implementations of one check: the in-process store used when Redis is
    not available, and the Lua script run by Redis.  [now] is [Date.now()] in
    milliseconds. *)

From S2P Require Import Prelude JsMap JsStrings.
Local Open Scope Z_scope.

Definition DEFAULT_AUTHENTICATED_LIMIT : Z := 100.
Definition DEFAULT_UNAUTHENTICATED_LIMIT : Z := 50.
Definition DEFAULT_WINDOW_SECONDS : Z := 60.

Record EndpointRateLimitConfig := { pattern : string; maxRequests : Z; windowSeconds : Z }.

Definition DEFAULT_ENDPOINT_LIMITS : list EndpointRateLimitConfig :=
  [{| pattern := "/api/v1/pdf-templates/preview-pdf"; maxRequests := 10; windowSeconds := 60 |};
   {| pattern := "/api/v1/pdf-templates/preview-html"; maxRequests := 10; windowSeconds := 60 |};
   {| pattern := "/api/v1/reports/generate"; maxRequests := 10; windowSeconds := 60 |}].

(** [fallbackStore]: key to timestamps, oldest first *)
Abbreviation fallback_store := (list (string * list Z)).

Definition in_window (windowMs now ts : Z) : bool := now - ts <? windowMs.

(** One tick of the cleanup interval. *)
Definition fallback_cleanup (windowMs now : Z) (st : fallback_store) : fallback_store :=
  omap (λ kv, match List.filter (in_window windowMs now) kv.2 with
              | [] => None
              | l => Some (kv.1, l)
              end) st.

Record check_result := { count : Z; oldestTs : Z; allowed : bool }.

Definition checkRateLimitInMemory (key : string) (limit windowMs now : Z) (st : fallback_store) :
    check_result * fallback_store :=
  let ts := List.filter (in_window windowMs now) (default [] (map_get key st)) in
  let n := Z.of_nat (length ts) in
  let oldest := match ts with t :: _ => t | [] => now end in
  if limit <=? n then ({| count := n; oldestTs := oldest; allowed := false |}, map_set key ts st)
  else ({| count := n + 1; oldestTs := oldest; allowed := true |}, map_set key (ts ++ [now]) st).

(** ** The Redis script *)

(** A sorted set as (score, random suffix of the member), in score order. *)
Abbreviation zset := (list (Z * Z)).

(** [ZADD]: nothing changes when the member is present. *)
Fixpoint insert_by_score (x : Z * Z) (z : zset) : zset :=
  match z with
  | [] => [x]
  | m :: z' => if x.1 <? m.1 then x :: z else m :: insert_by_score x z'
  end.
Definition zadd (x : Z * Z) (z : zset) : zset := if bool_decide (x ∈ z) then z else insert_by_score x z.

Definition SLIDING_WINDOW_LUA (now window_ms limit rnd : Z) (z : zset) : (Z * Z) * zset :=
  let z := List.filter (λ m, negb (m.1 <=? now - window_ms)) z in
  let n := Z.of_nat (length z) in
  let oldest_ts := match z with m :: _ => m.1 | [] => 0 end in
  if n <? limit then
    ((n + 1, oldest_ts), zadd (now, rnd) z)
  else ((n, oldest_ts), z).

(** The script's answer as [checkRateLimitRedis] reads it. *)
Definition checkRateLimitRedis (limit windowMs now rnd : Z) (z : zset) : check_result * zset :=
  let '((c, oldest), z) := SLIDING_WINDOW_LUA now windowMs limit rnd z in
  ({| count := c; oldestTs := oldest; allowed := c <=? limit |}, z).

(** ** Keys and the middleware *)

Record rl_request := {
  rl_user : option string;
  rl_ip : string;
  rl_forwarded : string;
  rl_remote : string;
  rl_url : string;
}.

(** [a || b] on strings *)
Definition or_else (a b : string) : string := if bool_decide (a = "") then b else a.

Definition getClientIp (r : rl_request) : string :=
  or_else r.(rl_ip)
    (or_else (match split "," r.(rl_forwarded) with x :: _ => trim x | [] => "" end)
       (or_else r.(rl_remote) "0.0.0.0")).

(** The key, and whether the request is authenticated. *)
Definition getRateLimitKey (r : rl_request) : string * bool :=
  match r.(rl_user) with
  | Some u => if bool_decide (u = "") then ("ratelimit:ip:" +:+ getClientIp r, false)
              else ("ratelimit:user:" +:+ u, true)
  | None => ("ratelimit:ip:" +:+ getClientIp r, false)
  end.

Definition findEndpointLimit (path : string) (l : list EndpointRateLimitConfig) : option EndpointRateLimitConfig :=
  List.find (λ c, starts_with path c.(pattern)) l.

Record limiter_options := {
  authenticatedLimit : Z;
  unauthenticatedLimit : Z;
  opt_windowSeconds : Z;
  endpointLimits : list EndpointRateLimitConfig;
}.

Definition default_options : limiter_options :=
  {| authenticatedLimit := DEFAULT_AUTHENTICATED_LIMIT;
     unauthenticatedLimit := DEFAULT_UNAUTHENTICATED_LIMIT;
     opt_windowSeconds := DEFAULT_WINDOW_SECONDS;
     endpointLimits := DEFAULT_ENDPOINT_LIMITS |}.

(** The key, limit and window a request is checked against. *)
Definition effective_limit (o : limiter_options) (r : rl_request) : string * Z * Z :=
  let '(key, isAuthenticated) := getRateLimitKey r in
  match findEndpointLimit r.(rl_url) o.(endpointLimits) with
  | Some c => (key +:+ ":" +:+ c.(pattern), c.(maxRequests), c.(windowSeconds) * 1000)
  | None => (key, if isAuthenticated then o.(authenticatedLimit) else o.(unauthenticatedLimit),
             o.(opt_windowSeconds) * 1000)
  end.

(** [Math.ceil(a / 1000)] *)
Definition ceil_seconds (a : Z) : Z := - ((- a) / 1000).

Record rl_reply := {
  x_limit : Z;
  x_remaining : Z;
  x_reset : Z;
  retry_after : option Z;
  rl_status : reply;
}.

Definition limiter_reply (limit windowMs now : Z) (result : check_result) : rl_reply :=
  let resetTimeMs := result.(oldestTs) + windowMs in
  {| x_limit := limit;
     x_remaining := Z.max 0 (limit - result.(count));
     x_reset := ceil_seconds resetTimeMs;
     retry_after := if result.(allowed) then None else Some (Z.max 1 (ceil_seconds (resetTimeMs - now)));
     rl_status := if result.(allowed) then Next else Reply 429 "RATE_LIMIT_EXCEEDED" |}.

Record limiter_state := { zsets : list (string * zset); fallback : fallback_store }.

(** The middleware.  [redis_answers] is false when there is no client or the
    script fails or times out ([checkRateLimitRedis] returns [null]). *)
Definition rateLimiter (redis_answers : bool) (o : limiter_options) (now rnd : Z) (r : rl_request)
    (st : limiter_state) : rl_reply * limiter_state :=
  let '(key, limit, windowMs) := effective_limit o r in
  if redis_answers then
    let '(result, z) := checkRateLimitRedis limit windowMs now rnd (default [] (map_get key st.(zsets))) in
    (limiter_reply limit windowMs now result, {| zsets := map_set key z st.(zsets); fallback := st.(fallback) |})
  else
    let '(result, f) := checkRateLimitInMemory key limit windowMs now st.(fallback) in
    (limiter_reply limit windowMs now result, {| zsets := st.(zsets); fallback := f |}).

Definition getRateLimitCount (now : Z) (key : string) (st : fallback_store) : Z :=
  match map_get key st with
  | Some ts => Z.of_nat (length (List.filter (in_window (DEFAULT_WINDOW_SECONDS * 1000) now) ts))
  | None => 0
  end.

(** ** The in-process check is the sliding log of allowed requests *)

(** What happens to the store: a request with its key, and a cleanup tick. *)
Inductive rl_event : Type :=
  | Request (now : Z) (key : string)
  | Cleanup (now : Z).

Definition event_time (e : rl_event) : Z := match e with Request t _ | Cleanup t => t end.

Section sliding_log.
(** Limit and window of each key, and the window of the cleanup interval. *)
Context (limit window : string → Z) (cleanup_window : Z).

Definition rl_step (st : fallback_store) (e : rl_event) : fallback_store :=
  match e with
  | Request now key => (checkRateLimitInMemory key (limit key) (window key) now st).2
  | Cleanup now => fallback_cleanup cleanup_window now st
  end.
Definition rl_run : fallback_store → list rl_event → fallback_store := foldl rl_step.

(** The specification: the log of all allowed requests of each key. *)
Definition log_count (log : list (string * Z)) (key : string) (now : Z) : Z :=
  Z.of_nat (length (List.filter (λ p, bool_decide (p.1 = key) && in_window (window key) now p.2) log)).
Definition log_allows (log : list (string * Z)) (key : string) (now : Z) : bool :=
  log_count log key now <? limit key.
Definition log_step (log : list (string * Z)) (e : rl_event) : list (string * Z) :=
  match e with
  | Request now key => if log_allows log key now then log ++ [(key, now)] else log
  | Cleanup _ => log
  end.
Definition log_run : list (string * Z) → list rl_event → list (string * Z) := foldl log_step.

Definition entry (key : string) (st : fallback_store) : list Z := default [] (map_get key st).
Definition log_times (log : list (string * Z)) (key : string) : list Z :=
  map snd (List.filter (λ p, bool_decide (p.1 = key)) log).

(** From time [t] on, the store and the log see the same requests. *)
Definition store_matches (t : Z) (st : fallback_store) (log : list (string * Z)) : Prop :=
  map_wf st ∧
  ∀ key now, t ≤ now →
    List.filter (in_window (window key) now) (entry key st) =
    List.filter (in_window (window key) now) (log_times log key).

Lemma filter_filter_window w w' t now l :
  t ≤ now → w ≤ w' →
  List.filter (in_window w now) (List.filter (in_window w' t) l) = List.filter (in_window w now) l.
Proof.
  intros Ht Hw. induction l as [|x l IH]; [done|]. cbn.
  destruct (in_window w' t x) eqn:H1; cbn; [by rewrite IH|].
  assert (in_window w now x = false) as -> by (unfold in_window in *; bools; apply Z.ltb_ge; lia).
  done.
Qed.

Lemma log_count_times log key now :
  log_count log key now =
  Z.of_nat (length (List.filter (in_window (window key) now) (log_times log key))).
Proof.
  unfold log_count, log_times. f_equal. induction log as [|[k t] log IH]; [done|]. cbn.
  case_bool_decide; cbn; [|done]. destruct (in_window _ _ _); cbn; [by f_equal|done].
Qed.

Lemma log_times_app log key' t key :
  log_times (log ++ [(key', t)]) key =
  log_times log key ++ (if bool_decide (key' = key) then [t] else []).
Proof. unfold log_times. rewrite List.filter_app, map_app. cbn. by case_bool_decide. Qed.

Lemma entry_set_eq key l st : entry key (map_set key l st) = l.
Proof. unfold entry. by rewrite map_get_set_eq. Qed.
Lemma entry_set_ne key key' l st : key ≠ key' → entry key (map_set key' l st) = entry key st.
Proof. intros. unfold entry. by rewrite map_get_set_ne. Qed.

Lemma cleanup_keys now (st : fallback_store) k :
  k ∈ keys (fallback_cleanup cleanup_window now st) → k ∈ keys st.
Proof.
  unfold keys, fallback_cleanup. rewrite !list_elem_of_fmap.
  intros ([k' l] & -> & H). apply list_elem_of_omap in H as ([k0 l0] & Hin & H). cbn in H.
  destruct (List.filter _ _); [done|]. injection H as <- _. by exists (k0, l0).
Qed.

Lemma cleanup_wf now st : map_wf st → map_wf (fallback_cleanup cleanup_window now st).
Proof.
  unfold map_wf. induction st as [|[k l] st IH]; [done|]. rewrite keys_cons.
  intros [Hni Hnd]%NoDup_cons. unfold fallback_cleanup. cbn.
  destruct (List.filter _ _) as [|t ts]; [by apply IH|].
  change (NoDup (k :: keys (fallback_cleanup cleanup_window now st))).
  constructor; [|by apply IH]. intros H. by apply Hni, cleanup_keys with now.
Qed.

Lemma cleanup_entry now st key :
  map_wf st →
  entry key (fallback_cleanup cleanup_window now st) =
  List.filter (in_window cleanup_window now) (entry key st).
Proof.
  unfold entry, map_wf. induction st as [|[k l] st IH]; [done|]. rewrite keys_cons.
  intros [Hni Hnd]%NoDup_cons. specialize (IH Hnd). unfold fallback_cleanup in *. cbn.
  destruct (List.filter (in_window cleanup_window now) l) as [|t ts] eqn:Hf; cbn.
  - case_bool_decide as Hk; [subst|done]. cbn. rewrite Hf.
    assert (map_get k (omap (λ kv : string * list Z, match List.filter (in_window cleanup_window now) kv.2 with
      | [] => None | l0 => Some (kv.1, l0) end) st) = None) as ->; [|done].
    apply map_get_None. intros H. by apply Hni, cleanup_keys with now.
  - case_bool_decide as Hk; [by subst|done].
Qed.

Context (Hcleanup : ∀ key, window key ≤ cleanup_window).

Lemma rl_step_matches t st log e :
  t ≤ event_time e → store_matches t st log →
  store_matches (event_time e) (rl_step st e) (log_step log e) ∧
  match e with
  | Request now key =>
      (checkRateLimitInMemory key (limit key) (window key) now st).1.(allowed) = log_allows log key now
  | Cleanup _ => True
  end.
Proof.
  intros Ht [Hwf Hm]. destruct e as [now key|now]; cbn [event_time rl_step log_step] in *.
  - assert (Hn : log_count log key now =
      Z.of_nat (length (List.filter (in_window (window key) now) (entry key st)))).
    { rewrite log_count_times. by rewrite Hm. }
    unfold checkRateLimitInMemory, log_allows. fold (entry key st). rewrite Hn.
    set (ts := List.filter (in_window (window key) now) (entry key st)).
    destruct (Z.leb_spec (limit key) (Z.of_nat (length ts))) as [Hle|Hlt].
    + rewrite (proj2 (Z.ltb_ge _ _)) by lia. cbn. split; [|done]. split; [auto with alsaqi|].
      intros k now' Hnow'. destruct (decide (k = key)) as [->|Hne].
      * rewrite entry_set_eq. unfold ts. rewrite filter_filter_window by lia. apply Hm. lia.
      * rewrite entry_set_ne by done. apply Hm. lia.
    + rewrite (proj2 (Z.ltb_lt _ _)) by lia. cbn. split; [|done]. split; [auto with alsaqi|].
      intros k now' Hnow'. rewrite log_times_app. destruct (decide (k = key)) as [->|Hne].
      * rewrite entry_set_eq, bool_decide_eq_true_2, !List.filter_app by done.
        unfold ts. rewrite filter_filter_window by lia. rewrite Hm by lia. done.
      * rewrite entry_set_ne, bool_decide_eq_false_2, app_nil_r by congruence. apply Hm. lia.
  - split; [|done]. split; [by apply cleanup_wf|]. intros k now' Hnow'.
    rewrite cleanup_entry by done. rewrite filter_filter_window; [|lia|done]. apply Hm. lia.
Qed.

Fixpoint times_from (t : Z) (es : list rl_event) : Prop :=
  match es with [] => True | e :: es' => t ≤ event_time e ∧ times_from (event_time e) es' end.
Fixpoint last_time (t : Z) (es : list rl_event) : Z :=
  match es with [] => t | e :: es' => last_time (event_time e) es' end.

Lemma rl_run_matches es t st log :
  times_from t es → store_matches t st log →
  store_matches (last_time t es) (rl_run st es) (log_run log es).
Proof.
  unfold rl_run, log_run. revert t st log. induction es as [|e es IH]; intros t st log Ht Hm; [done|].
  destruct Ht as [Hle Ht]. cbn. apply IH; [done|]. by apply (rl_step_matches t).
Qed.

Lemma log_run_bounded es t log :
  (∀ key, 0 ≤ limit key) → times_from t es →
  (∀ key now, t ≤ now → log_count log key now ≤ limit key) →
  ∀ key now, last_time t es ≤ now → log_count (log_run log es) key now ≤ limit key.
Proof.
  intros Hlim. unfold log_run. revert t log.
  induction es as [|e es IH]; intros t log Ht Hb; [done|]. destruct Ht as [Hle Ht].
  cbn. apply IH; [done|]. intros key now Hnow. destruct e as [t' key'|t']; cbn in *; [|apply Hb; lia].
  destruct (log_allows log key' t') eqn:Ha; [|apply Hb; lia].
  rewrite log_count_times, log_times_app, List.filter_app, length_app.
  specialize (Hb key now ltac:(lia)). rewrite log_count_times in Hb.
  case_bool_decide as Hk; [subst|cbn; lia].
  unfold log_allows in Ha. bools. rewrite log_count_times in Ha.
  assert (Hmono : (length (List.filter (in_window (window key) now) (log_times log key)) ≤
                   length (List.filter (in_window (window key) t') (log_times log key)))%nat).
  { clear -Hnow. induction (log_times log key) as [|x l IH]; [done|]. cbn.
    destruct (in_window (window key) now x) eqn:H1, (in_window (window key) t' x) eqn:H2; cbn; try lia.
    unfold in_window in *. bools. lia. }
  cbn. destruct (in_window _ _ _); cbn; lia.
Qed.
End sliding_log.

(** C6: on any stream of requests and cleanup ticks with a clock that does not go back, the
    in-process limiter decides every request as the log of all requests it ever allowed does
    (allowed iff fewer than the limit of its key lie in the window), and at no time do more
    allowed requests of a key lie in a window than its limit.  It needs one limit, not
    negative, and one window for each key, and no window longer than the one the cleanup
    timer was started with, which forgets older requests: every limiter of the source has
    windows of sixty seconds ([source_windows_fit]). *)
Theorem in_memory_limiter_is_sliding_log limit window cleanup_window es t now key :
  (∀ k, window k ≤ cleanup_window) → (∀ k, 0 ≤ limit k) →
  times_from t es → last_time t es ≤ now →
  let log := log_run limit window [] es in
  (checkRateLimitInMemory key (limit key) (window key) now
     (rl_run limit window cleanup_window [] es)).1.(allowed) = log_allows limit window log key now ∧
  log_count window log key now ≤ limit key.
Proof.
  intros Hcw Hlim Ht Hnow log.
  assert (H0 : store_matches window t [] []) by (split; [constructor|done]).
  pose proof (rl_run_matches limit window cleanup_window Hcw es t [] [] Ht H0) as Hm. split.
  - by destruct (rl_step_matches limit window cleanup_window Hcw (last_time t es) _ log
      (Request now key) Hnow Hm) as [_ H].
  - by apply (log_run_bounded limit window es t []).
Qed.

(** The windows of the defaults and of the endpoints are those of the cleanup. *)
Lemma source_windows_fit :
  Forall (λ c, c.(windowSeconds) * 1000 ≤ DEFAULT_WINDOW_SECONDS * 1000) DEFAULT_ENDPOINT_LIMITS.
Proof. repeat constructor; by vm_compute. Qed.

Lemma in_memory_limiter_is_sliding_log_witness :
  let es := [Request 0 "a"; Request 10 "a"; Cleanup 40; Request 70 "a"] in
  let log := log_run (λ _, 2) (λ _, 100) [] es in
  (checkRateLimitInMemory "a" 2 100 80 (rl_run (λ _, 2) (λ _, 100) 100 [] es)).1.(allowed)
    = log_allows (λ _, 2) (λ _, 100) log "a" 80 ∧
  log_count (λ _, 100) log "a" 80 ≤ 2.
Proof.
  apply (in_memory_limiter_is_sliding_log (λ _, 2) (λ _, 100) 100
    [Request 0 "a"; Request 10 "a"; Cleanup 40; Request 70 "a"] 0 80 "a"); cbn; try lia; intros; lia.
Defined.

(** ** The Redis path never rejects *)

Definition redis_run (limit windowMs : Z) (z : zset) (reqs : list (Z * Z)) : zset :=
  foldl (λ z q, (checkRateLimitRedis limit windowMs q.1 q.2 z).2) z reqs.

Lemma length_zadd x z : (length (zadd x z) ≤ S (length z))%nat.
Proof.
  unfold zadd. case_bool_decide; [lia|]. clear. induction z as [|m z IH]; cbn; [done|].
  destruct (_ <? _); cbn; lia.
Qed.

Lemma redis_check_bounded limit windowMs now rnd z :
  Z.of_nat (length z) ≤ limit →
  let '(r, z') := checkRateLimitRedis limit windowMs now rnd z in
  r.(allowed) = true ∧ Z.of_nat (length z') ≤ limit.
Proof.
  intros Hz. unfold checkRateLimitRedis, SLIDING_WINDOW_LUA.
  pose proof (List.filter_length_le (λ m, negb (m.1 <=? now - windowMs)) z) as Hf.
  destruct (Z.ltb_spec (Z.of_nat (length (List.filter (λ m : Z * Z, negb (m.1 <=? now - windowMs)) z))) limit); cbn.
  - split; [apply Z.leb_le; lia|].
    pose proof (length_zadd (now, rnd) (List.filter (λ m, negb (m.1 <=? now - windowMs)) z)). lia.
  - split; [apply Z.leb_le; lia|]. lia.
Qed.

(** the Redis script reports at most the limit, and the limiter allows every count up to the
    limit; so, whatever requests came before, a limiter backed by Redis never rejects one,
    while the in-process one rejects the request after the limit. *)
Theorem redis_limiter_never_rejects :
  (∀ limit windowMs reqs now rnd, 0 ≤ limit →
     (checkRateLimitRedis limit windowMs now rnd (redis_run limit windowMs [] reqs)).1.(allowed) = true) ∧
  (∀ windowMs now, 0 < windowMs →
     (checkRateLimitInMemory "k" 1 windowMs now
        (checkRateLimitInMemory "k" 1 windowMs now []).2).1.(allowed) = false).
Proof.
  split.
  - intros limit windowMs reqs now rnd Hlim.
    assert (H : ∀ z, Z.of_nat (length z) ≤ limit → Z.of_nat (length (redis_run limit windowMs z reqs)) ≤ limit).
    { unfold redis_run. induction reqs as [|q reqs IH]; intros z Hz; cbn; [done|]. apply IH.
      pose proof (redis_check_bounded limit windowMs q.1 q.2 z Hz) as Hq.
      destruct (checkRateLimitRedis _ _ _ _ _) as [? ?]. apply Hq. }
    pose proof (redis_check_bounded limit windowMs now rnd _ (H [] ltac:(cbn; lia))) as Hq.
    destruct (checkRateLimitRedis _ _ _ _ _) as [? ?]. apply Hq.
  - intros windowMs now Hw. assert (Hin : in_window windowMs now now = true) by (unfold in_window; apply Z.ltb_lt; lia).
    lazy -[in_window]. by rewrite Hin.
Qed.

(** whichever store answers, a rejected request gets 429 with no remaining request and a
    [Retry-After] of at least a second, and an allowed one reports fewer remaining requests than
    the limit. *)
Theorem rateLimiter_headers redis_answers o now rnd r st :
  let '(key, limit, windowMs) := effective_limit o r in
  let '(rep, _) := rateLimiter redis_answers o now rnd r st in
  x_limit rep = limit ∧
  ((rl_status rep = Next ∧ retry_after rep = None ∧ 0 ≤ x_remaining rep ∧ (0 < limit → x_remaining rep < limit)) ∨
   (rl_status rep = Reply 429 "RATE_LIMIT_EXCEEDED" ∧ x_remaining rep = 0 ∧
    ∃ s, retry_after rep = Some s ∧ 1 ≤ s)).
Proof.
  unfold rateLimiter. destruct (effective_limit o r) as [[key limit] windowMs]. destruct redis_answers.
  - unfold checkRateLimitRedis, SLIDING_WINDOW_LUA. set (z := List.filter _ _).
    destruct (Z.ltb_spec (Z.of_nat (length z)) limit) as [H|H]; unfold limiter_reply; cbn [count oldestTs allowed].
    + rewrite (proj2 (Z.leb_le _ _)) by lia. cbn. split; [done|]. left. split_and!; [done|done|lia|lia].
    + destruct (Z.leb_spec (Z.of_nat (length z)) limit); cbn; (split; [done|]).
      * left. split_and!; [done|done|lia|lia].
      * right. split_and!; [done|lia|]. eexists. split; [done|]. lia.
  - unfold checkRateLimitInMemory.
    destruct (Z.leb_spec limit (Z.of_nat (length (List.filter (in_window windowMs now)
      (default [] (map_get key (fallback st))))))); cbn; (split; [done|]).
    + right. split; [done|]. split; [lia|]. eexists. split; [done|]. lia.
    + left. split_and!; [done|done|lia|lia].
Qed.
