(* ===== verification/Accounts.v ===== *)
(** * User accounts ([src/src/services/UserService.ts], [middleware/lastAdminGuard.ts], [routes/users.ts])

    The [users] table with the columns the account operations read and write,
    the refresh tokens and sessions that hang off it, the operations of the
    user service, and the guard that protects the last administrator. *)

From S2P Require Import Prelude JsMap JsStrings ModuleRegistry.
Local Open Scope Z_scope.

(** ** Tables *)

Record account := {
  ac_id : string;
  ac_username : string;
  ac_email : string;
  ac_role : string;
  ac_status : string;
  ac_password : string;
  ac_requires_password_change : bool;
  ac_session_version : Z;
  ac_failed_attempts : Z;
  ac_locked_until : option Z;
  ac_password_last_changed : option Z;
}.

Record refresh_row := { rt_token : string; rt_user : string; rt_expires : Z; rt_revoked : bool }.
Record session_row := { ss_id : Z; ss_user : string; ss_refresh : string; ss_status : string }.

Record accounts_db := {
  accounts : list account;
  refresh_tokens : list refresh_row;
  user_sessions : list session_row;
  password_history : list (string * string);
}.

Definition with_accounts (l : list account) (d : accounts_db) : accounts_db :=
  {| accounts := l; refresh_tokens := d.(refresh_tokens); user_sessions := d.(user_sessions);
     password_history := d.(password_history) |}.
Definition with_refresh_tokens (l : list refresh_row) (d : accounts_db) : accounts_db :=
  {| accounts := d.(accounts); refresh_tokens := l; user_sessions := d.(user_sessions);
     password_history := d.(password_history) |}.
Definition with_user_sessions (l : list session_row) (d : accounts_db) : accounts_db :=
  {| accounts := d.(accounts); refresh_tokens := d.(refresh_tokens); user_sessions := l;
     password_history := d.(password_history) |}.
Definition with_password_history (l : list (string * string)) (d : accounts_db) : accounts_db :=
  {| accounts := d.(accounts); refresh_tokens := d.(refresh_tokens); user_sessions := d.(user_sessions);
     password_history := l |}.

(** The columns an [UPDATE users SET ..] writes. *)
Definition set_status (st : string) (a : account) : account :=
  {| ac_id := a.(ac_id); ac_username := a.(ac_username); ac_email := a.(ac_email); ac_role := a.(ac_role);
     ac_status := st; ac_password := a.(ac_password);
     ac_requires_password_change := a.(ac_requires_password_change);
     ac_session_version := a.(ac_session_version); ac_failed_attempts := a.(ac_failed_attempts);
     ac_locked_until := a.(ac_locked_until); ac_password_last_changed := a.(ac_password_last_changed) |}.
Definition set_lock (failed : Z) (locked : option Z) (a : account) : account :=
  {| ac_id := a.(ac_id); ac_username := a.(ac_username); ac_email := a.(ac_email); ac_role := a.(ac_role);
     ac_status := a.(ac_status); ac_password := a.(ac_password);
     ac_requires_password_change := a.(ac_requires_password_change);
     ac_session_version := a.(ac_session_version); ac_failed_attempts := failed;
     ac_locked_until := locked; ac_password_last_changed := a.(ac_password_last_changed) |}.
Definition set_profile (email role st : string) (a : account) : account :=
  {| ac_id := a.(ac_id); ac_username := a.(ac_username); ac_email := email; ac_role := role;
     ac_status := st; ac_password := a.(ac_password);
     ac_requires_password_change := a.(ac_requires_password_change);
     ac_session_version := a.(ac_session_version); ac_failed_attempts := a.(ac_failed_attempts);
     ac_locked_until := a.(ac_locked_until); ac_password_last_changed := a.(ac_password_last_changed) |}.
(** A new password hash; the session version is bumped with every one of them. *)
Definition set_password (hash : string) (requires_change : bool) (changed : option Z) (a : account) : account :=
  {| ac_id := a.(ac_id); ac_username := a.(ac_username); ac_email := a.(ac_email); ac_role := a.(ac_role);
     ac_status := a.(ac_status); ac_password := hash; ac_requires_password_change := requires_change;
     ac_session_version := a.(ac_session_version) + 1; ac_failed_attempts := a.(ac_failed_attempts);
     ac_locked_until := a.(ac_locked_until); ac_password_last_changed := changed |}.
Definition bump_session_version (a : account) : account :=
  {| ac_id := a.(ac_id); ac_username := a.(ac_username); ac_email := a.(ac_email); ac_role := a.(ac_role);
     ac_status := a.(ac_status); ac_password := a.(ac_password);
     ac_requires_password_change := a.(ac_requires_password_change);
     ac_session_version := a.(ac_session_version) + 1; ac_failed_attempts := a.(ac_failed_attempts);
     ac_locked_until := a.(ac_locked_until); ac_password_last_changed := a.(ac_password_last_changed) |}.

Definition has_id (id : string) (a : account) : bool := bool_decide (a.(ac_id) = id).
Definition find_account (d : accounts_db) (id : string) : option account := select_one (has_id id) d.(accounts).
Definition update_account (id : string) (f : account → account) (d : accounts_db) : accounts_db :=
  with_accounts (update_where (has_id id) f d.(accounts)) d.

(** [UPDATE refresh_tokens SET is_revoked = 1 WHERE user_id = ?] and
    [UPDATE user_sessions SET status = 'Terminated' WHERE user_id = ? AND status = 'Active'] *)
Definition revoke_user_tokens (id : string) (d : accounts_db) : accounts_db :=
  with_refresh_tokens
    (update_where (λ r, bool_decide (r.(rt_user) = id))
       (λ r, {| rt_token := r.(rt_token); rt_user := r.(rt_user); rt_expires := r.(rt_expires); rt_revoked := true |})
       d.(refresh_tokens)) d.
Definition set_session_status (st : string) (s : session_row) : session_row :=
  {| ss_id := s.(ss_id); ss_user := s.(ss_user); ss_refresh := s.(ss_refresh); ss_status := st |}.
Definition terminate_sessions (id : string) (d : accounts_db) : accounts_db :=
  with_user_sessions
    (update_where (λ s, bool_decide (s.(ss_user) = id ∧ s.(ss_status) = "Active"))
       (set_session_status "Terminated") d.(user_sessions)) d.

(** ** User service *)

Abbreviation account_action := (action app_error accounts_db).

Definition account_rollback (old new : accounts_db) : accounts_db := old.

Definition STATUS_PERSIST_MAP (st : string) : string :=
  if bool_decide (st = "Archived") || bool_decide (st = "Disabled") then "Inactive" else st.

Definition require_account (id : string) : account_action account :=
  d ← get_state;
  match find_account d id with
  | None => throw (NotFoundError "User not found")
  | Some a => mret a
  end.

(** The result is the user name, as in the service. *)
Definition setStatus (id st : string) : account_action string :=
  transaction account_rollback
    (a ← require_account id;
     _ ← modify (update_account id (set_status (STATUS_PERSIST_MAP st)));
     mret a.(ac_username)).

(** The rows of [user_sessions] go with their user ([ON DELETE CASCADE]). *)
Definition deleteUser (id : string) : account_action string :=
  transaction account_rollback
    (a ← require_account id;
     _ ← modify (λ d, with_refresh_tokens (delete_where (λ r, bool_decide (r.(rt_user) = id)) d.(refresh_tokens)) d);
     _ ← modify (λ d, with_accounts (delete_where (has_id id) d.(accounts)) d);
     _ ← modify (λ d, with_user_sessions (delete_where (λ x, bool_decide (x.(ss_user) = id)) d.(user_sessions)) d);
     mret a.(ac_username)).

Definition activateUser (id : string) : account_action string :=
  a ← require_account id;
  _ ← modify (update_account id (λ a, set_lock 0 None (set_status "Active" a)));
  mret a.(ac_username).

Definition unlockUser (id : string) : account_action string :=
  a ← require_account id;
  _ ← modify (update_account id (set_lock 0 None));
  mret a.(ac_username).

Definition getStatus (id : string) : account_action string :=
  a ← require_account id; mret a.(ac_status).

(** What [validatePasswordPolicy] answers ([Sessions.v]). *)
Definition policy_check (policy : outcome app_error unit) : account_action unit := λ d, (policy, d).

(** The part of [updateUser] that concerns the account: [password] is the answer of the
    policy and the new hash when the request carries a password. *)
Definition updateUser (id email role : string) (st : option string) (password : option (outcome app_error unit * string)) :
    account_action account :=
  transaction account_rollback
    (old ← require_account id;
     _ ← policy_check (match password with Some (policy, _) => policy | None => Ok tt end);
     let status := match st with Some x => if bool_decide (x = "") then old.(ac_status) else x
                               | None => old.(ac_status) end in
     _ ← modify (update_account id (λ a,
           match password with
           | Some (_, h) => set_password h true a.(ac_password_last_changed) (set_profile email role status a)
           | None => set_profile email role status a
           end));
     mret old).

Definition resetPassword (id : string) (policy : outcome app_error unit) (hash : string) : account_action string :=
  a ← require_account id;
  _ ← policy_check policy;
  _ ← modify (update_account id (λ a, set_password hash true a.(ac_password_last_changed) a));
  _ ← modify (revoke_user_tokens id);
  _ ← modify (terminate_sessions id);
  mret a.(ac_username).

(** ** The last-admin guard *)

Definition is_admin (a : account) : bool := bool_decide (a.(ac_role) = UserRole.ADMIN).
Definition active_admin (a : account) : bool := is_admin a && bool_decide (a.(ac_status) = "Active").

(** [driver] turns the 64-bit [COUNT( * )] into the value the code compares. *)
Definition lastAdminGuard (driver : Z → js_value) (d : accounts_db) (currentUserId targetId : string) : reply :=
  if bool_decide (targetId = currentUserId) then Reply 403 "Cannot perform this action on your own account"
  else match find_account d targetId with
  | Some target =>
      if is_admin target then
        if strict_zero (driver (count_where (λ a, active_admin a && negb (has_id targetId a)) d.(accounts)))
        then Reply 403 "Cannot remove the last admin user"
        else Next
      else Next
  | None => Next
  end.

(** The guarded routes of [routes/users.ts], after authentication and permission. *)
Inductive removal : Type := Suspend | Archive | Delete.

Definition removal_handler (op : removal) (id : string) : account_action string :=
  match op with
  | Suspend =>
      currentStatus ← getStatus id;
      setStatus id (if bool_decide (currentStatus = "Suspended") then "Active" else "Suspended")
  | Archive => setStatus id "Archived"
  | Delete => deleteUser id
  end.

(** One request, run to its end before the next. *)
Definition guarded_removal (driver : Z → js_value) (op : removal) (actor target : string) (d : accounts_db) : accounts_db :=
  match lastAdminGuard driver d actor target with
  | Next => (removal_handler op target d).2
  | Reply _ _ => d
  end.

(** ** Some administrator stays active *)

Definition has_active_admin (d : accounts_db) : Prop := ∃ a, a ∈ d.(accounts) ∧ active_admin a = true.

Definition ids_unique (d : accounts_db) : Prop := NoDup (map ac_id d.(accounts)).

Lemma require_account_run id d :
  require_account id d =
  match find_account d id with Some a => (Ok a, d) | None => (Throw (NotFoundError "User not found"), d) end.
Proof. unfold require_account. run_action. by destruct (find_account d id). Qed.

Lemma find_account_Some d id a : find_account d id = Some a → a ∈ d.(accounts) ∧ a.(ac_id) = id.
Proof. intros [H Hb]%select_one_Some. unfold has_id in Hb. by bools. Qed.

(** A removal touches no row but the target's. *)
Lemma removal_handler_keeps op id d a :
  a ∈ d.(accounts) → a.(ac_id) ≠ id → a ∈ (removal_handler op id d).2.(accounts).
Proof.
  intros Hin Hne.
  assert (Hid : has_id id a = false) by by apply bool_decide_eq_false.
  assert (Hst : ∀ st d, a ∈ d.(accounts) → a ∈ (setStatus id st d).2.(accounts)).
  { clear -Hid. intros st d Hin. unfold setStatus, transaction, mbind, action_bind.
    rewrite require_account_run. destruct (find_account d id); [|done]. cbn.
    apply elem_of_update_where. exists a. by rewrite Hid. }
  destruct op; cbn [removal_handler].
  - unfold getStatus, mbind, action_bind. rewrite require_account_run.
    destruct (find_account d id); cbn; [by apply Hst|done].
  - by apply Hst.
  - unfold deleteUser, transaction, mbind, action_bind. rewrite require_account_run.
    destruct (find_account d id); [|done]. cbn. by apply elem_of_delete_where.
Qed.

Lemma guarded_removal_keeps_admin op actor target d :
  ids_unique d → has_active_admin d → has_active_admin (guarded_removal number_driver op actor target d).
Proof.
  intros Hu (a & Ha & Hadm). unfold guarded_removal.
  destruct (lastAdminGuard number_driver d actor target) eqn:Hg; [|by exists a].
  destruct (decide (a.(ac_id) = target)) as [Hid|Hid];
    [|exists a; split; [by apply removal_handler_keeps|done]].
  unfold lastAdminGuard in Hg. case_bool_decide; [done|].
  assert (Hf : find_account d target = Some a).
  { destruct (find_account d target) as [b|] eqn:Hf.
    - apply find_account_Some in Hf as [Hb Hbid]. f_equal.
      apply (map_unique ac_id d.(accounts)); [done..|congruence].
    - unfold find_account in Hf. rewrite select_one_None in Hf. specialize (Hf a Ha).
      unfold has_id in Hf. by bools. }
  rewrite Hf in Hg. unfold active_admin in Hadm. apply andb_true_iff in Hadm as [Hr Hs].
  rewrite Hr in Hg. destruct (strict_zero _) eqn:Hz; [done|]. cbn in Hz.
  apply Z.eqb_neq in Hz.
  assert (Hex : ∃ b, b ∈ d.(accounts) ∧ active_admin b && negb (has_id target b) = true).
  { destruct (select (λ a, active_admin a && negb (has_id target a)) d.(accounts)) as [|b l] eqn:Hsel.
    - exfalso. apply Hz. unfold count_where. by rewrite Hsel.
    - exists b. apply (elem_of_select (λ a, active_admin a && negb (has_id target a))).
      rewrite Hsel. by left. }
  destruct Hex as (b & Hb & Hbp). bools. exists b. split; [|done].
  apply removal_handler_keeps; [done|]. match goal with H : has_id _ _ = false |- _ => unfold has_id in H; by bools end.
Qed.

Lemma removal_handler_ids op id d : ids_unique d → ids_unique (removal_handler op id d).2.
Proof.
  intros Hu.
  assert (Hst : ∀ st d, ids_unique d → ids_unique (setStatus id st d).2).
  { clear. intros st d Hu. unfold setStatus, transaction, mbind, action_bind.
    rewrite require_account_run. destruct (find_account d id); [|done].
    unfold ids_unique. cbn. by rewrite update_where_column. }
  destruct op; cbn [removal_handler].
  - unfold getStatus, mbind, action_bind. rewrite require_account_run.
    destruct (find_account d id); cbn; [by apply Hst|done].
  - by apply Hst.
  - unfold deleteUser, transaction, mbind, action_bind. rewrite require_account_run.
    destruct (find_account d id); [|done]. unfold ids_unique in *. cbn. unfold delete_where.
    revert Hu. induction (accounts d) as [|x l IH]; cbn; [done|].
    intros [Hni Hnd]%NoDup_cons. destruct (negb _); cbn; [|by apply IH].
    constructor; [|by apply IH]. intros H. apply Hni. revert H. rewrite !list_elem_of_In, !in_map_iff.
    intros (y & <- & [Hy _]%List.filter_In). by exists y.
Qed.

(** C14: with a driver that returns counts as numbers, any sequence of suspend, archive and
    delete requests, each run to its end, leaves at least one active administrator. *)
Theorem guarded_removals_keep_admin (ops : list (removal * string * string)) d :
  ids_unique d → has_active_admin d →
  has_active_admin (foldl (λ d q, guarded_removal number_driver q.1.1 q.1.2 q.2 d) d ops).
Proof.
  revert d. induction ops as [|q ops IH]; intros d Hu Ha; cbn; [done|].
  apply IH; [|by apply guarded_removal_keeps_admin].
  unfold guarded_removal. destruct (lastAdminGuard _ _ _ _); [by apply removal_handler_ids|done].
Qed.

Module AdminSample.
Definition user (id role : string) : account := {|
  ac_id := id; ac_username := id; ac_email := id +:+ "@x"; ac_role := role; ac_status := "Active";
  ac_password := "h"; ac_requires_password_change := false; ac_session_version := 0;
  ac_failed_attempts := 0; ac_locked_until := None; ac_password_last_changed := None |}.
Definition db (l : list account) : accounts_db :=
  {| accounts := l; refresh_tokens := []; user_sessions := []; password_history := [] |}.
Definition one_admin : accounts_db := db [user "a" UserRole.ADMIN; user "m" UserRole.MANAGER].
Definition two_admins : accounts_db := db [user "a" UserRole.ADMIN; user "b" UserRole.ADMIN].
End AdminSample.

Lemma guarded_removals_keep_admin_witness :
  has_active_admin (foldl (λ d q, guarded_removal number_driver q.1.1 q.1.2 q.2 d) AdminSample.two_admins
    [(Delete, "a", "b"); (Archive, "b", "a")]).
Proof.
  apply (guarded_removals_keep_admin [(Delete, "a", "b"); (Archive, "b", "a")] AdminSample.two_admins).
  - by apply (bool_decide_unpack _).
  - exists (AdminSample.user "a" UserRole.ADMIN). split; [by left|reflexivity].
Defined.

(** the guard does not protect the last administrator where the driver returns the count
    as a string (a Manager with the edit permission suspends the only Admin), nor, with any
    driver, when two removals pass the guard before either writes, nor against the profile
    update, which changes a role without it. *)
Theorem last_admin_can_be_removed :
  ¬ has_active_admin (guarded_removal string_driver Suspend "m" "a" AdminSample.one_admin) ∧
  (lastAdminGuard number_driver AdminSample.two_admins "a" "b" = Next ∧
   lastAdminGuard number_driver AdminSample.two_admins "b" "a" = Next ∧
   ¬ has_active_admin
     (removal_handler Delete "a" (removal_handler Delete "b" AdminSample.two_admins).2).2) ∧
  ¬ has_active_admin (updateUser "a" "a@x" UserRole.VIEWER None None AdminSample.one_admin).2.
Proof.
  assert (H : ∀ d, forallb (λ a, negb (active_admin a)) d.(accounts) = true → ¬ has_active_admin d).
  { intros d Hall (a & Hin%list_elem_of_In & Ha). rewrite forallb_forall in Hall.
    specialize (Hall a Hin). by rewrite Ha in Hall. }
  split_and!; try (apply H); by vm_compute.
Qed.
