(* ===== verification/AuthService.v ===== *)
(** * Login and lockout ([src/src/services/AuthService.ts], [accountStatus.ts])

    [bcrypt] ([verifyPassword]), [jwt.sign] and SHA-256 are parameters.  A
    signature is a function of its payload and of the second it is made in
    (the [iat] claim).  A login reads the account once; what a failed attempt
    does later works on that snapshot. *)

From S2P Require Import Prelude JsMap JsStrings ModuleRegistry Accounts AuthMiddleware.
Local Open Scope Z_scope.

(** The row of [user_management_settings]. *)
Record mgmt_settings := {
  enforce_single_session : bool;
  two_factor_auth : bool;
  password_expiry_days : Z;
  failed_login_threshold : Z;
}.

Record login_state := {
  adb : accounts_db;
  settings : option mgmt_settings;
  login_history : list string;
  (** [notifications] rows of a lockout: the administrator, the locked user, the attempt count *)
  lockout_notices : list (string * string * Z);
}.

Definition with_adb (d : accounts_db) (s : login_state) : login_state :=
  {| adb := d; settings := s.(settings); login_history := s.(login_history);
     lockout_notices := s.(lockout_notices) |}.
Definition with_history (l : list string) (s : login_state) : login_state :=
  {| adb := s.(adb); settings := s.(settings); login_history := l; lockout_notices := s.(lockout_notices) |}.
Definition with_notices (l : list (string * string * Z)) (s : login_state) : login_state :=
  {| adb := s.(adb); settings := s.(settings); login_history := s.(login_history); lockout_notices := l |}.

Abbreviation login_action := (action app_error login_state).
Definition modify_db (f : accounts_db → accounts_db) : login_action unit := modify (λ s, with_adb (f s.(adb)) s).

Definition MINUTE_MS : Z := 60 * 1000.
Definition HOUR_MS : Z := 60 * MINUTE_MS.
Definition DAY_MS : Z := 24 * HOUR_MS.
Definition LOCK_MS : Z := 15 * MINUTE_MS.

(** [x || default] on numbers *)
Definition or_num (x d : Z) : Z := if x =? 0 then d else x.

(** ** Failed attempts *)

Definition lock_threshold (s : login_state) : Z :=
  match s.(settings) with Some st => or_num st.(failed_login_threshold) 5 | None => 5 end.

Definition notifyAdminsOfLockout (user : account) (count : Z) : login_action unit :=
  modify (λ s, with_notices (s.(lockout_notices) ++
    map (λ a, (a.(ac_id), user.(ac_id), count)) (select active_admin s.(adb).(accounts))) s).

(** [user] is the snapshot the login read.  [run] of an UPDATE returns no row,
    so the count is the snapshot's plus one. *)
Definition handleFailedLogin (now : Z) (user : account) : login_action unit :=
  _ ← modify_db (update_account user.(ac_id) (λ a, set_lock (a.(ac_failed_attempts) + 1) a.(ac_locked_until) a));
  threshold ← gets lock_threshold;
  let authoritativeCount := user.(ac_failed_attempts) + 1 in
  if threshold <=? authoritativeCount then
    let newLockUntil := Some (now + LOCK_MS) in
    d ← gets adb;
    let lockable a := match a.(ac_locked_until) with None => true | Some t => t <? now end in
    match select_one (λ a, has_id user.(ac_id) a && lockable a) d.(accounts) with
    | Some _ =>
        _ ← modify_db (λ d, with_accounts
              (update_where (λ a, has_id user.(ac_id) a && lockable a)
                 (λ a, set_lock a.(ac_failed_attempts) newLockUntil a) d.(accounts)) d);
        notifyAdminsOfLockout user authoritativeCount
    | None =>
        modify_db (update_account user.(ac_id) (λ a, set_lock a.(ac_failed_attempts) newLockUntil a))
    end
  else mret tt.

(** ** Login *)

Definition lookup_user (d : accounts_db) (usernameOrEmail : string) : option account :=
  select_one (λ a, bool_decide (toLowerCase a.(ac_username) = toLowerCase usernameOrEmail
                                ∨ toLowerCase a.(ac_email) = toLowerCase usernameOrEmail)) d.(accounts).

Record token_payload := {
  tp_id : string; tp_username : string; tp_role : string; tp_session_version : Z; tp_remember : option bool;
}.

Record login_result := {
  lr_user : account;
  lr_requires_password_change : bool;
  lr_requires_2fa_setup : bool;
  lr_token : string;
  lr_refresh_token : string;
}.

Definition DUMMY_HASH : string := "$2b$12$tFOk2VHwkUPOwX2V5S/yAuRFtaGaRcRzviyDgTNRdKyMX7dpwSwtm".

Definition is_locked (now : Z) (a : account) : bool :=
  match a.(ac_locked_until) with Some t => now <? t | None => false end.

Definition password_expired (now : Z) (s : login_state) (a : account) : bool :=
  match a.(ac_password_last_changed) with
  | None => false
  | Some changed =>
      let expiryDays := match s.(settings) with Some st => or_num st.(password_expiry_days) 90 | None => 90 end in
      (0 <? expiryDays) && (expiryDays <=? (now - changed) / DAY_MS)
  end.

Definition set_requires_change (a : account) : account :=
  {| ac_id := a.(ac_id); ac_username := a.(ac_username); ac_email := a.(ac_email); ac_role := a.(ac_role);
     ac_status := a.(ac_status); ac_password := a.(ac_password); ac_requires_password_change := true;
     ac_session_version := a.(ac_session_version); ac_failed_attempts := a.(ac_failed_attempts);
     ac_locked_until := a.(ac_locked_until); ac_password_last_changed := a.(ac_password_last_changed) |}.

Definition login_rollback (old new : login_state) : login_state := old.

Section login.
Context (verifyPassword : string → string → outcome unit bool).
Context (sign : token_payload → Z → string) (sha256 : string → string).

(** The checks before the first write: the account, or the refusal with the
    snapshot whose failure is to be counted. *)
Definition check_credentials (now : Z) (usernameOrEmail password : string) (d : accounts_db) :
    account + option account :=
  let user := lookup_user d usernameOrEmail in
  match verifyPassword password (from_option ac_password DUMMY_HASH user) with
  | Throw _ => inr None
  | Ok passwordMatches =>
      match user with
      | None => inr None
      | Some user =>
          if isLoginBlockedStatus user.(ac_status) then inr None
          else if is_locked now user then inr (if passwordMatches then None else Some user)
          else if negb passwordMatches then inr (Some user)
          else inl user
      end
  end.

(** [INSERT INTO refresh_tokens]: the token column is unique. *)
Definition insert_refresh_token (hash userId : string) (expires : Z) : login_action unit :=
  d ← gets adb;
  _ ← ensure (negb (bool_decide (hash ∈ map rt_token d.(refresh_tokens)))) (GenericError "unique constraint");
  modify_db (λ d, with_refresh_tokens (d.(refresh_tokens) ++
    [{| rt_token := hash; rt_user := userId; rt_expires := expires; rt_revoked := false |}]) d).

Definition insert_session (userId refreshHash : string) : login_action unit :=
  modify_db (λ d, with_user_sessions (d.(user_sessions) ++
    [{| ss_id := Z.of_nat (length d.(user_sessions)); ss_user := userId; ss_refresh := refreshHash;
        ss_status := "Active" |}]) d).

Definition open_session (now : Z) (rememberMe requires_2fa : bool) (user : account) : login_action login_result :=
  _ ← modify_db (update_account user.(ac_id) (set_lock 0 None));
  s ← get_state;
  _ ← (if from_option enforce_single_session false s.(settings)
       then modify_db (terminate_sessions user.(ac_id)) else mret tt);
  let requires2faSetup := requires_2fa || from_option two_factor_auth false s.(settings) in
  let expired := negb user.(ac_requires_password_change) && password_expired now s user in
  _ ← (if expired then modify_db (update_account user.(ac_id) set_requires_change) else mret tt);
  _ ← modify (λ s, with_history (s.(login_history) ++ [user.(ac_id)]) s);
  let payload r := {| tp_id := user.(ac_id); tp_username := user.(ac_username); tp_role := user.(ac_role);
                      tp_session_version := user.(ac_session_version); tp_remember := r |} in
  let token := sign (payload None) (now / 1000) in
  let refreshToken := sign (payload (Some rememberMe)) (now / 1000) in
  _ ← insert_refresh_token (sha256 refreshToken) user.(ac_id)
        (now + if rememberMe then 30 * DAY_MS else 8 * HOUR_MS);
  _ ← insert_session user.(ac_id) (sha256 refreshToken);
  mret {| lr_user := user;
          lr_requires_password_change := user.(ac_requires_password_change) || expired;
          lr_requires_2fa_setup := requires2faSetup;
          lr_token := token; lr_refresh_token := refreshToken |}.

(** [requires_2fa] is the column [requires_2fa_setup] of the account. *)
Definition login (now : Z) (usernameOrEmail password : string) (rememberMe : bool)
    (requires_2fa : account → bool) : login_action login_result := λ s,
  match check_credentials now usernameOrEmail password s.(adb) with
  | inl user => transaction login_rollback (open_session now rememberMe (requires_2fa user) user) s
  | inr None => (Throw InvalidCredentialsError, s)
  | inr (Some user) => (Throw InvalidCredentialsError, (handleFailedLogin now user s).2)
  end.

(** ** What a login decides *)

Lemma check_credentials_inl now u p d user :
  check_credentials now u p d = inl user →
  lookup_user d u = Some user ∧ verifyPassword p user.(ac_password) = Ok true ∧
  user.(ac_status) = "Active" ∧ is_locked now user = false.
Proof.
  unfold check_credentials. destruct (verifyPassword _ _) as [b|] eqn:Hv; [|done].
  destruct (lookup_user d u) as [a|]; [|done]. cbn in Hv.
  destruct (isLoginBlockedStatus (ac_status a)) eqn:Hst; [done|].
  destruct (is_locked now a) eqn:Hlock; [done|]. destruct b; [|done]. intros [= ->].
  unfold isLoginBlockedStatus in Hst. by bools.
Qed.

Lemma open_session_fails now rm r2 user s e s' :
  open_session now rm r2 user s = (Throw e, s') → e = GenericError "unique constraint".
Proof.
  unfold open_session, insert_refresh_token, insert_session, modify_db. run_action.
  destruct (from_option enforce_single_session false (settings s)); cbn;
    (destruct (negb (ac_requires_password_change user) && _); cbn);
    case_bool_decide; cbn; intros [= <- _]; done.
Qed.

End login.

(** ** Lockout *)

(** What one failed attempt leaves of the account whose row was [a]. *)
Definition after_failure (now threshold snapshot_failed : Z) (a : account) : account :=
  set_lock (a.(ac_failed_attempts) + 1)
    (if threshold <=? snapshot_failed + 1 then Some (now + LOCK_MS) else a.(ac_locked_until)) a.

Lemma select_one_unique d q a :
  ids_unique d → a ∈ d.(accounts) →
  select_one (λ r, has_id a.(ac_id) r && q r) d.(accounts) = if q a then Some a else None.
Proof.
  intros Hu Ha. destruct (select_one _ _) as [r|] eqn:Hs.
  - apply select_one_Some in Hs as [Hr Hb]. unfold has_id in Hb. bools.
    assert (r = a) as -> by by apply (map_unique ac_id d.(accounts)).
    match goal with H : q a = true |- _ => by rewrite H end.
  - rewrite select_one_None in Hs. specialize (Hs a Ha). unfold has_id in Hs.
    rewrite bool_decide_eq_true_2 in Hs by done. cbn in Hs. by rewrite Hs.
Qed.

Lemma update_account_ids id f d :
  (∀ a, (f a).(ac_id) = a.(ac_id)) → ids_unique d → ids_unique (update_account id f d).
Proof. intros Hf Hu. unfold ids_unique. cbn. rewrite update_where_column; [done|]. intros r _. apply Hf. Qed.

Lemma update_where_ids q f d :
  (∀ a, (f a).(ac_id) = a.(ac_id)) → ids_unique d →
  ids_unique (with_accounts (update_where q f d.(accounts)) d).
Proof. intros Hf Hu. unfold ids_unique. cbn. rewrite update_where_column; [done|]. intros r _. apply Hf. Qed.

(** The account as any query on columns the lock does not touch finds it. *)
Lemma handleFailedLogin_run now user s a (p : account → bool) :
  ids_unique s.(adb) → user.(ac_id) = a.(ac_id) →
  (∀ r n l, p (set_lock n l r) = p r) →
  select_one p s.(adb).(accounts) = Some a →
  let '(r, s') := handleFailedLogin now user s in
  r = Ok tt ∧ ids_unique s'.(adb) ∧ s'.(settings) = s.(settings) ∧
  select_one p s'.(adb).(accounts) =
    Some (after_failure now (lock_threshold s) user.(ac_failed_attempts) a).
Proof.
  intros Hu Hid Hp Hsel. unfold handleFailedLogin, modify_db. run_action.
  set (f1 := λ a0 : account, set_lock (ac_failed_attempts a0 + 1) (ac_locked_until a0) a0).
  set (s1 := with_adb (update_account (ac_id user) f1 (adb s)) s).
  assert (Hu1 : ids_unique s1.(adb)) by (by apply update_account_ids).
  assert (Hmine : has_id (ac_id user) a = true) by by apply bool_decide_eq_true.
  assert (Hsel1 : select_one p s1.(adb).(accounts) = Some (f1 a)).
  { unfold s1. cbn. rewrite select_one_update by (intros; apply Hp). rewrite Hsel. cbn. by rewrite Hmine. }
  assert (Hin1 : f1 a ∈ s1.(adb).(accounts)) by by apply select_one_Some in Hsel1 as [? _].
  change (lock_threshold s1) with (lock_threshold s). unfold after_failure.
  destruct (lock_threshold s <=? ac_failed_attempts user + 1); [|by split_and!].
  set (lockable := λ a0 : account, match ac_locked_until a0 with Some t => t <? now | None => true end).
  assert (Hone : select_one (λ r, has_id (ac_id user) r && lockable r) (accounts (adb s1)) =
                 if lockable (f1 a) then Some (f1 a) else None).
  { rewrite Hid. by apply (select_one_unique s1.(adb) lockable (f1 a)). }
  fold lockable. unfold lockable at 1 in Hone. rewrite Hone. fold lockable.
  destruct (lockable (f1 a)) eqn:Hl; unfold notifyAdminsOfLockout, modify; cbn.
  - split_and!; [done| |done|].
    + by apply (update_where_ids _ _ (adb s1)).
    + change (select_one p (update_where (λ a0, has_id (ac_id user) a0 && lockable a0)
        (λ a0, set_lock (ac_failed_attempts a0) (Some (now + LOCK_MS)) a0) (accounts (adb s1))) =
        Some (set_lock (ac_failed_attempts a + 1) (Some (now + LOCK_MS)) a)).
      rewrite select_one_update by (intros; apply Hp). rewrite Hsel1.
      cbn [fmap option_fmap option_map]. rewrite Hl.
      change (has_id (ac_id user) (f1 a)) with (has_id (ac_id user) a). by rewrite Hmine.
  - split_and!; [done|by apply (update_account_ids _ _ (adb s1))|done|].
    change (select_one p (update_where (has_id (ac_id user))
        (λ a0, set_lock (ac_failed_attempts a0) (Some (now + LOCK_MS)) a0) (accounts (adb s1))) =
        Some (set_lock (ac_failed_attempts a + 1) (Some (now + LOCK_MS)) a)).
    rewrite select_one_update by (intros; apply Hp). rewrite Hsel1.
    cbn [fmap option_fmap option_map].
    change (has_id (ac_id user) (f1 a)) with (has_id (ac_id user) a). by rewrite Hmine.
Qed.

Definition name_matches (u : string) (a : account) : bool :=
  bool_decide (toLowerCase a.(ac_username) = toLowerCase u ∨ toLowerCase a.(ac_email) = toLowerCase u).

Section lockout.
Context (verifyPassword : string → string → outcome unit bool).
Context (sign : token_payload → Z → string) (sha256 : string → string).

Lemma wrong_login_run now u p rm r2 s a :
  verifyPassword p a.(ac_password) = Ok false → ids_unique s.(adb) →
  lookup_user s.(adb) u = Some a → a.(ac_status) = "Active" →
  let '(r, s') := login verifyPassword sign sha256 now u p rm r2 s in
  r = Throw InvalidCredentialsError ∧ ids_unique s'.(adb) ∧ s'.(settings) = s.(settings) ∧
  lookup_user s'.(adb) u = Some (after_failure now (lock_threshold s) a.(ac_failed_attempts) a).
Proof.
  intros Hw Hu Hl Hst. unfold login, check_credentials. rewrite Hl. cbn [from_option]. rewrite Hw.
  unfold isLoginBlockedStatus. rewrite bool_decide_eq_true_2 by done. cbn [negb].
  pose proof (handleFailedLogin_run now a s a (name_matches u) Hu eq_refl ltac:(done) Hl) as H.
  destruct (is_locked now a); cbn [negb from_option];
    destruct (handleFailedLogin now a s) as [r s']; destruct H as (_ & Hu' & Hs' & Hl'); by split_and!.
Qed.

(** Logins for [u] one after the other, each with its time and password: the replies and the
    state they leave. *)
Fixpoint login_tries (u : string) (tries : list (Z * string)) (s : login_state) :
    list (outcome app_error login_result) * login_state :=
  match tries with
  | [] => ([], s)
  | (t, p) :: tries =>
      let '(r, s) := login verifyPassword sign sha256 t u p false (λ _, false) s in
      let '(rs, s) := login_tries u tries s in (r :: rs, s)
  end.

(** What [tries], all refused, leave of the account whose row was [a]. *)
Definition after_tries (tries : list (Z * string)) (threshold : Z) (a : account) : account :=
  foldl (λ a '(t, _), after_failure t threshold a.(ac_failed_attempts) a) a tries.

Lemma login_tries_run u tries s a :
  Forall (λ '(_, p), verifyPassword p a.(ac_password) = Ok false) tries →
  ids_unique s.(adb) → lookup_user s.(adb) u = Some a → a.(ac_status) = "Active" →
  let '(rs, s') := login_tries u tries s in
  rs = repeat (Throw InvalidCredentialsError) (length tries) ∧
  lookup_user s'.(adb) u = Some (after_tries tries (lock_threshold s) a).
Proof.
  revert s a. induction tries as [|[t p] tries IH]; intros s a Hw Hu Hl Hst; cbn [login_tries]; [done|].
  apply Forall_cons in Hw as [Hp Hw].
  pose proof (wrong_login_run t u p false (λ _, false) s a Hp Hu Hl Hst) as H.
  destruct (login _ _ _ t u p false _ s) as [r s1]. destruct H as (-> & Hu1 & Hs1 & Hl1).
  specialize (IH s1 (after_failure t (lock_threshold s) a.(ac_failed_attempts) a) Hw Hu1 Hl1 Hst).
  destruct (login_tries u tries s1) as [rs s2]. destruct IH as [-> Hl2].
  assert (Hth : lock_threshold s1 = lock_threshold s) by (unfold lock_threshold; by rewrite Hs1).
  rewrite Hth in Hl2. by split.
Qed.

Lemma after_tries_account tries th a :
  let a' := after_tries tries th a in
  a'.(ac_id) = a.(ac_id) ∧ a'.(ac_status) = a.(ac_status) ∧
  a'.(ac_failed_attempts) = a.(ac_failed_attempts) + Z.of_nat (length tries) ∧
  (∀ t p, last tries = Some (t, p) → th ≤ a'.(ac_failed_attempts) → a'.(ac_locked_until) = Some (t + LOCK_MS)).
Proof.
  revert a. induction tries as [|[t p] tries IH]; intros a; cbn [after_tries foldl].
  - split_and!; [done..|cbn; lia|done].
  - destruct (IH (after_failure t th a.(ac_failed_attempts) a)) as (Hid & Hst & Hn & Hlock).
    change (foldl _ _ tries) with (after_tries tries th (after_failure t th a.(ac_failed_attempts) a)).
    split_and!; [done..|rewrite Hn; cbn [after_failure set_lock ac_failed_attempts length]; lia|].
    destruct tries as [|x tries]; [|exact Hlock].
    intros ? ? [= <- <-] Hge. cbn in Hge |- *. by rewrite (proj2 (Z.leb_le _ _)) by lia.
Qed.

End lockout.

(** Failed attempts whose accounts were all read before any of them was counted. *)
Definition burst (user : account) (s : login_state) (ts : list Z) : login_state :=
  foldl (λ s t, (handleFailedLogin t user s).2) s ts.

(** attempts that run concurrently all decide on the count they read at the start: however
    many of them fail, none locks the account as long as that count was below the threshold by
    more than one, although the column has counted them all. *)
Theorem concurrent_failures_do_not_lock u user s ts :
  ids_unique s.(adb) → lookup_user s.(adb) u = Some user →
  user.(ac_failed_attempts) + 1 < lock_threshold s →
  ∃ a', lookup_user (burst user s ts).(adb) u = Some a' ∧
    a'.(ac_failed_attempts) = user.(ac_failed_attempts) + Z.of_nat (length ts) ∧
    a'.(ac_locked_until) = user.(ac_locked_until).
Proof.
  intros Hu Hl Hth. unfold burst.
  assert (H : ∀ a s, ids_unique s.(adb) → lookup_user s.(adb) u = Some a → a.(ac_id) = user.(ac_id) →
    user.(ac_failed_attempts) + 1 < lock_threshold s →
    ∃ a', lookup_user (foldl (λ s t, (handleFailedLogin t user s).2) s ts).(adb) u = Some a' ∧
    a'.(ac_failed_attempts) = a.(ac_failed_attempts) + Z.of_nat (length ts) ∧
    a'.(ac_locked_until) = a.(ac_locked_until)); [|by apply H].
  clear. induction ts as [|t ts IH]; intros a s Hu Hl Hid Hth; cbn [foldl].
  - exists a. split_and!; [done|cbn; lia|done].
  - pose proof (handleFailedLogin_run t user s a (name_matches u) Hu (eq_sym Hid) ltac:(done) Hl) as H.
    destruct (handleFailedLogin t user s) as [r s1]. destruct H as (_ & Hu1 & Hs1 & Hl1).
    assert (Hth1 : lock_threshold s1 = lock_threshold s) by (unfold lock_threshold; by rewrite Hs1).
    destruct (IH (after_failure t (lock_threshold s) (ac_failed_attempts user) a) s1) as (a' & Hl' & Hn' & Hk');
      [done|done|done|lia|].
    exists a'. cbn [snd]. split_and!; [done| |].
    + rewrite Hn'. cbn. lia.
    + rewrite Hk'. cbn. by rewrite (proj2 (Z.leb_gt _ _)) by lia.
Qed.

(** ** Two logins in one second *)

Lemma lookup_user_update d id f u a :
  (∀ r, (f r).(ac_username) = r.(ac_username) ∧ (f r).(ac_email) = r.(ac_email)) →
  lookup_user d u = Some a → a.(ac_id) = id → lookup_user (update_account id f d) u = Some (f a).
Proof.
  intros Hf Hl Hid. unfold lookup_user in *. cbn.
  rewrite (select_one_update _ (has_id id) f), Hl.
  - cbn. unfold has_id. by rewrite bool_decide_eq_true_2.
  - intros r _. by destruct (Hf r) as [-> ->].
Qed.

(** a user who logs in twice within one second with the same choice of [rememberMe] gets a
    server error the second time: both refresh tokens sign the same claims with the same [iat],
    so the second one violates the unique constraint of its table. *)
Theorem second_login_same_second verify sign sha256 now now' u p rm r2 s res s' :
  login verify sign sha256 now u p rm r2 s = (Ok res, s') → now' / 1000 = now / 1000 →
  (login verify sign sha256 now' u p rm r2 s').1 = Throw (GenericError "unique constraint").
Proof.
  intros Hlogin Hsec. unfold login in Hlogin.
  destruct (check_credentials verify now u p (adb s)) as [a|[a|]] eqn:Hc; [|done..].
  apply check_credentials_inl in Hc as (Hl & Hv & Hst & Hlock). apply transaction_Ok in Hlogin.
  assert (H : ∃ b, lookup_user s'.(adb) u = Some b ∧ b.(ac_password) = a.(ac_password) ∧
    b.(ac_status) = a.(ac_status) ∧ b.(ac_locked_until) = None ∧
    b.(ac_id) = a.(ac_id) ∧ b.(ac_username) = a.(ac_username) ∧ b.(ac_role) = a.(ac_role) ∧ b.(ac_session_version) = a.(ac_session_version) ∧
    sha256 (sign {| tp_id := a.(ac_id); tp_username := a.(ac_username); tp_role := a.(ac_role); tp_session_version := a.(ac_session_version);
                    tp_remember := Some rm |} (now / 1000)) ∈ map rt_token s'.(adb).(refresh_tokens)).
  { pose proof (lookup_user_update (adb s) (ac_id a) (set_lock 0 None) u a ltac:(done) Hl eq_refl) as Hl1.
    pose proof (lookup_user_update _ (ac_id a) set_requires_change u _ ltac:(done) Hl1 eq_refl) as Hl2.
    unfold open_session, insert_refresh_token, insert_session, modify_db in Hlogin.
    unfold mret, mbind, action_ret, action_bind, get_state, gets, modify, ensure, throw in Hlogin.
    destruct (from_option enforce_single_session false _);
      (destruct (negb (ac_requires_password_change a) && _));
      (destruct (negb (bool_decide _)); [|discriminate Hlogin]);
      injection Hlogin as _ <-; eexists; (split; [first [exact Hl1|exact Hl2]|]); cbn;
      (split_and!; try done); rewrite map_app; apply elem_of_app; right; by apply list_elem_of_singleton. }
  destruct H as (b & Hlb & Hpw & Hstb & Hlk & Hid & Hun & Hrole & Hsv & Hin).
  unfold login, check_credentials. rewrite Hlb. cbn [from_option]. rewrite Hpw, Hv.
  unfold isLoginBlockedStatus, is_locked. rewrite Hstb, Hst, Hlk, bool_decide_eq_true_2 by done.
  cbn [negb]. unfold transaction, open_session, insert_refresh_token, modify_db.
  unfold mret, mbind, action_ret, action_bind, get_state, gets, modify, ensure, throw.
  rewrite Hid, Hun, Hrole, Hsv, Hsec.
  destruct (from_option enforce_single_session false _);
    (destruct (negb (ac_requires_password_change b) && _)); cbn;
    by rewrite (bool_decide_eq_true_2 _ Hin).
Qed.

Module LoginSample.
Definition verify (p h : string) : outcome unit bool := Ok (bool_decide (p = "right")).
Definition sign (t : token_payload) (iat : Z) : string := t.(tp_id) +:+ "." +:+ pretty iat.
Definition sha256 (s : string) : string := s.
Definition state : login_state := {|
  adb := AdminSample.one_admin; settings := None; login_history := []; lockout_notices := [] |}.
End LoginSample.


Lemma concurrent_failures_do_not_lock_witness :
  ∃ a', lookup_user (burst (AdminSample.user "a" UserRole.ADMIN) LoginSample.state (repeat 0 20)).(adb) "a" = Some a' ∧
    a'.(ac_failed_attempts) = 0 + Z.of_nat (length (repeat 0 20)) ∧
    a'.(ac_locked_until) = None.
Proof.
  apply (concurrent_failures_do_not_lock "a" (AdminSample.user "a" UserRole.ADMIN) LoginSample.state (repeat 0 20));
    [by apply (bool_decide_unpack _)|reflexivity|reflexivity].
Defined.

Definition sample_login (now : Z) (s : login_state) : outcome app_error login_result * login_state :=
  login LoginSample.verify LoginSample.sign LoginSample.sha256 now "a" "right" false (λ _, false) s.

Lemma second_login_same_second_witness :
  (login LoginSample.verify LoginSample.sign LoginSample.sha256 1900 "a" "right" false (λ _, false)
     (sample_login 1500 LoginSample.state).2).1 = Throw (GenericError "unique constraint").
Proof.
  destruct (sample_login 1500 LoginSample.state) as [[res|e] s'] eqn:H; [|vm_compute in H; discriminate H].
  apply (second_login_same_second LoginSample.verify LoginSample.sign LoginSample.sha256 1500 1900 "a" "right"
    false (λ _, false) LoginSample.state res s'); [exact H|reflexivity].
Defined.
