(* ===== verification/Sessions.v ===== *)
(** * Sessions and passwords ([src/src/services/SessionService.ts], [refreshTokenHash.ts],
    [PasswordService.ts], [passwordPolicy.ts])

    SHA-256, bcrypt, [jwt.sign] and [jwt.decode] are parameters.  As in the
    login model a signature depends on its payload and on the second of its
    [iat] claim. *)

From S2P Require Import Prelude JsMap JsStrings ModuleRegistry Accounts AuthMiddleware.
From S2P Require Import AuthService.
Local Open Scope Z_scope.

(** ** Refresh tokens at rest *)

Definition MAX_REFRESH_TOKEN_LENGTH : nat := 4096.
Definition isHashableRefreshToken (token : string) : bool :=
  negb (bool_decide (token = "")) && bool_decide (utf16_length token ≤ MAX_REFRESH_TOKEN_LENGTH)%nat.

(** What [jwt.decode] finds in a token: the session version and [rememberMe]. *)
Record decoded := { dec_session_version : option Z; dec_remember : bool }.

Section sessions.
Context (sha256 : string → string) (sign : token_payload → Z → string) (decode : string → decoded).

Definition hashPresentedRefreshToken (token : string) : option string :=
  if isHashableRefreshToken token then Some (sha256 token) else None.

Definition refreshTokenMatchesHash (token stored : string) : bool :=
  match hashPresentedRefreshToken token with
  | None => false
  | Some computed => negb (bool_decide (stored = "")) && bool_decide (computed = stored)
  end.

Definition active_with_token (h : string) (s : session_row) : bool :=
  bool_decide (s.(ss_refresh) = h ∧ s.(ss_status) = "Active").

Record refresh_result := {
  rr_token : string; rr_refresh_token : string; rr_user : account; rr_expires : Z; rr_remember : bool;
}.

Definition set_session_refresh (h : string) (s : session_row) : session_row :=
  {| ss_id := s.(ss_id); ss_user := s.(ss_user); ss_refresh := h; ss_status := s.(ss_status) |}.
Definition set_refresh_token (h : string) (expires : Z) (r : refresh_row) : refresh_row :=
  {| rt_token := h; rt_user := r.(rt_user); rt_expires := expires; rt_revoked := r.(rt_revoked) |}.

(** The update of [refresh_tokens] sits in a [try] of its own: a row that
    already carries the new token makes it fail, and the failure is dropped. *)
Definition rotate_token_row (presented fresh : string) (expires : Z) (d : accounts_db) : accounts_db :=
  if existsb (λ r, bool_decide (r.(rt_token) = fresh ∧ r.(rt_token) ≠ presented)) d.(refresh_tokens) then d
  else with_refresh_tokens
    (update_where (λ r, bool_decide (r.(rt_token) = presented)) (set_refresh_token fresh expires) d.(refresh_tokens)) d.

Definition refresh (now : Z) (refreshToken : string) : account_action refresh_result :=
  match hashPresentedRefreshToken refreshToken with
  | None => throw (AuthError "Invalid session")
  | Some presentedHash =>
      d ← get_state;
      match select_one (active_with_token presentedHash) d.(user_sessions) with
      | None => throw (AuthError "Invalid session")
      | Some session =>
          match find_account d session.(ss_user) with
          | None => throw (AuthError "User not found")
          | Some user =>
              let dec := decode refreshToken in
              _ ← ensure (bool_decide (user.(ac_status) = "Active")) (AuthError "Session revoked");
              _ ← ensure (match dec.(dec_session_version) with
                          | Some v => v =? user.(ac_session_version) | None => true end)
                    (AuthError "Session revoked");
              let payload r := {| tp_id := user.(ac_id); tp_username := user.(ac_username); tp_role := user.(ac_role);
                                  tp_session_version := user.(ac_session_version); tp_remember := r |} in
              let token := sign (payload None) (now / 1000) in
              let fresh := sign (payload (Some dec.(dec_remember))) (now / 1000) in
              let expires := now + if dec.(dec_remember) then 30 * DAY_MS else 8 * HOUR_MS in
              _ ← modify (λ d, with_user_sessions
                    (update_where (λ s, bool_decide (s.(ss_id) = session.(ss_id)))
                       (set_session_refresh (sha256 fresh)) d.(user_sessions)) d);
              _ ← modify (rotate_token_row presentedHash (sha256 fresh) expires);
              mret {| rr_token := token; rr_refresh_token := fresh; rr_user := user;
                      rr_expires := expires; rr_remember := dec.(dec_remember) |}
          end
      end
  end.

(** The result is the user name when a session was found. *)
Definition logout (refreshToken : string) : account_action (option string) :=
  match hashPresentedRefreshToken refreshToken with
  | None => mret None
  | Some h =>
      d ← get_state;
      _ ← modify (λ d, with_refresh_tokens
            (update_where (λ r, bool_decide (r.(rt_token) = h))
               (λ r, {| rt_token := r.(rt_token); rt_user := r.(rt_user); rt_expires := r.(rt_expires);
                        rt_revoked := true |}) d.(refresh_tokens)) d);
      match select_one (λ s, bool_decide (s.(ss_refresh) = h)) d.(user_sessions) with
      | None => mret None
      | Some session =>
          _ ← modify (λ d, with_user_sessions
                (update_where (λ s, bool_decide (s.(ss_refresh) = h)) (set_session_status "Terminated")
                   d.(user_sessions)) d);
          mret (ac_username <$> find_account d session.(ss_user))
      end
  end.

Definition terminateSession (id : Z) : account_action bool :=
  d ← get_state;
  _ ← modify (λ d, with_user_sessions
        (update_where (λ s, bool_decide (s.(ss_id) = id)) (set_session_status "Terminated") d.(user_sessions)) d);
  _ ← match select_one (λ s, bool_decide (s.(ss_id) = id)) d.(user_sessions) with
      | Some session => modify (update_account session.(ss_user) bump_session_version)
      | None => mret tt
      end;
  mret true.

Definition logoutAll (userId : string) : account_action bool :=
  _ ← modify (terminate_sessions userId);
  _ ← modify (update_account userId bump_session_version);
  mret true.

(** ** Rotation *)

Lemma refresh_inv now tok d res d' :
  refresh now tok d = (Ok res, d') →
  ∃ session user h,
    hashPresentedRefreshToken tok = Some h ∧ h = sha256 tok ∧
    select_one (active_with_token h) d.(user_sessions) = Some session ∧
    find_account d session.(ss_user) = Some user ∧ user.(ac_status) = "Active" ∧
    (∀ v, (decode tok).(dec_session_version) = Some v → v = user.(ac_session_version)) ∧
    res.(rr_refresh_token) = sign {| tp_id := user.(ac_id); tp_username := user.(ac_username); tp_role := user.(ac_role);
      tp_session_version := user.(ac_session_version); tp_remember := Some (decode tok).(dec_remember) |} (now / 1000) ∧
    d'.(user_sessions) = update_where (λ s, bool_decide (s.(ss_id) = session.(ss_id)))
      (set_session_refresh (sha256 res.(rr_refresh_token))) d.(user_sessions) ∧
    d'.(accounts) = d.(accounts).
Proof.
  unfold refresh. destruct (hashPresentedRefreshToken tok) as [h|] eqn:Hh; [|done].
  intros H. inv_ok.
  destruct (select_one _ _) as [session|] eqn:Hs; [|done].
  destruct (find_account _ _) as [user|] eqn:Hu; [|done].
  inv_ok. bools. exists session, user, h. split_and!; try done.
  - unfold hashPresentedRefreshToken in Hh. destruct (isHashableRefreshToken tok); by simplify_eq.
  - intros v Hv. rewrite Hv in *. by apply Z.eqb_eq.
  - cbn. unfold rotate_token_row. by destruct (existsb _ _).
  - cbn. unfold rotate_token_row. by destruct (existsb _ _).
Qed.

(** The active sessions that hold a token's hash. *)
Definition holders (h : string) (d : accounts_db) : list session_row :=
  select (active_with_token h) d.(user_sessions).

(** Refreshes one after the other, and the hashes of the tokens they issued. *)
Fixpoint refreshes (later : list (Z * string)) (d : accounts_db) : list string * accounts_db :=
  match later with
  | [] => ([], d)
  | (now, tok) :: later =>
      let '(r, d) := refresh now tok d in
      let '(hs, d) := refreshes later d in
      (match r with Ok res => sha256 res.(rr_refresh_token) :: hs | Throw _ => hs end, d)
  end.

Lemma moved_session_count (h fresh : string) x l :
  fresh ≠ h → NoDup (map ss_id l) → x ∈ l → active_with_token h x = true →
  length (select (active_with_token h) l) =
  S (length (select (active_with_token h)
    (update_where (λ s, bool_decide (s.(ss_id) = x.(ss_id))) (set_session_refresh fresh) l))).
Proof.
  intros Hne. induction l as [|y l IH]; [by intros _ ?%elem_of_nil|].
  intros [Hy Hnd]%NoDup_cons Hin Hx. cbn. case_bool_decide as Hid.
  - assert (x = y) as ->.
    { apply elem_of_cons in Hin as [?|Hin]; [done|]. destruct Hy. rewrite Hid.
      apply list_elem_of_fmap. by exists x. }
    rewrite Hx. cbn. unfold active_with_token at 2. cbn. rewrite bool_decide_eq_false_2 by naive_solver. f_equal. f_equal.
    unfold update_where, select. rewrite (map_ext_in _ (λ z, z)); [by rewrite map_id|].
    intros z Hz%list_elem_of_In.
    case_bool_decide as Hzy; [|done]. destruct Hy. rewrite <- Hzy. apply list_elem_of_fmap. by exists z.
  - apply elem_of_cons in Hin as [->|Hin]; [done|]. specialize (IH Hnd Hin Hx).
    destruct (active_with_token h y); cbn; [f_equal|]; exact IH.
Qed.

Lemma moved_sessions_le (h fresh : string) (q : session_row → bool) l :
  fresh ≠ h →
  (length (select (active_with_token h) (update_where q (set_session_refresh fresh) l)) ≤
   length (select (active_with_token h) l))%nat.
Proof.
  intros Hne. induction l as [|y l IH]; [done|]. cbn. destruct (q y).
  - unfold active_with_token at 1. cbn. rewrite bool_decide_eq_false_2 by naive_solver.
    destruct (active_with_token h y); cbn; unfold select, update_where in IH; lia.
  - destruct (active_with_token h y); cbn; unfold select, update_where in IH; lia.
Qed.

Lemma refresh_throws now tok d e d' : refresh now tok d = (Throw e, d') → d' = d.
Proof.
  unfold refresh. destruct (hashPresentedRefreshToken tok); [|by intros [= _ <-]].
  run_action. destruct (select_one _ _); [|by intros [= _ <-]].
  destruct (find_account _ _) as [a|]; [|by intros [= _ <-]].
  unfold ensure, throw. destruct (bool_decide (ac_status a = "Active")); cbn; [|by intros [= _ <-]].
  destruct (match dec_session_version (decode tok) with Some v => v =? ac_session_version a | None => true end); cbn;
    [done|by intros [= _ <-]].
Qed.

Lemma refreshes_le h later d :
  Forall (λ h', h' ≠ h) (refreshes later d).1 →
  (length (holders h (refreshes later d).2) ≤ length (holders h d))%nat.
Proof.
  revert d. induction later as [|[now tok] later IH]; intros d; cbn; [lia|].
  destruct (refresh now tok d) as [r d1] eqn:Hr. specialize (IH d1).
  destruct (refreshes later d1) as [hs d2]. cbn in IH |- *. intros Hf. destruct r as [res|e].
  - apply Forall_cons in Hf as [Hne Hf]. specialize (IH Hf).
    apply refresh_inv in Hr as (session & user & h' & _ & _ & _ & _ & _ & _ & _ & Hs & _).
    unfold holders in *. rewrite Hs in IH.
    pose proof (moved_sessions_le h (sha256 (rr_refresh_token res)) (λ s, bool_decide (s.(ss_id) = session.(ss_id)))
      (user_sessions d) Hne). lia.
  - apply refresh_throws in Hr as ->. by apply IH.
Qed.

Lemma unheld_token_refused now tok d :
  holders (sha256 tok) d = [] → (refresh now tok d).1 = Throw (AuthError "Invalid session").
Proof.
  intros Hno. unfold refresh, hashPresentedRefreshToken. destruct (isHashableRefreshToken tok); [|done].
  run_action. assert (select_one (active_with_token (sha256 tok)) (user_sessions d) = None) as ->; [|done].
  apply select_one_None, select_nil, Hno.
Qed.

(** C13: refreshing rotates the token of one session: when the new token hashes differently
    from the presented one, an active session of the user that held the presented token now
    holds the new one, so one active session fewer holds the presented token and every other
    token keeps its sessions. If that session was the only one to hold the presented token,
    the presented token is refused from then on, whatever refreshes follow, as long as none
    of them is given a token with the same hash. Session ids are unique, as the primary
    key has it. *)
Theorem refresh_rotates now tok d res d' :
  NoDup (map ss_id d.(user_sessions)) → refresh now tok d = (Ok res, d') →
  let fresh := sha256 res.(rr_refresh_token) in
  fresh ≠ sha256 tok →
  (∃ session, session ∈ holders (sha256 tok) d ∧ session.(ss_user) = res.(rr_user).(ac_id) ∧
     set_session_refresh fresh session ∈ holders fresh d') ∧
  length (holders (sha256 tok) d) = S (length (holders (sha256 tok) d')) ∧
  (∀ h s, h ≠ fresh → h ≠ sha256 tok → s ∈ holders h d' ↔ s ∈ holders h d) ∧
  ((length (holders (sha256 tok) d) ≤ 1)%nat → ∀ later now',
     Forall (λ h, h ≠ sha256 tok) (refreshes later d').1 →
     (refresh now' tok (refreshes later d').2).1 = Throw (AuthError "Invalid session")).
Proof.
  intros Hids Href fresh Hne. pose proof Href as Href0.
  apply refresh_inv in Href as (session & user & h & Hh & -> & Hsel & Hu & _ & _ & _ & Hsess & _).
  assert (Huser : res.(rr_user) = user).
  { revert Href0. unfold refresh. rewrite Hh. intros H. inv_ok. rewrite Hsel, Hu in H. inv_ok. done. }
  apply select_one_Some in Hsel as [Hin Hact].
  assert (Hcount : length (holders (sha256 tok) d) = S (length (holders (sha256 tok) d'))).
  { unfold holders. rewrite Hsess. by apply moved_session_count. }
  split_and!; [|exact Hcount| |].
  - exists session. split_and!.
    + by apply elem_of_select.
    + rewrite Huser. by apply find_account_Some in Hu as [_ ->].
    + apply elem_of_select. split; [rewrite Hsess; apply elem_of_update_where; exists session; split; [done|]|].
      * by rewrite bool_decide_eq_true_2.
      * unfold active_with_token in *. bools. apply bool_decide_eq_true. cbn. naive_solver.
  - intros h s Hf Ht. unfold holders. rewrite !elem_of_select, Hsess, elem_of_update_where. split.
    + intros [(s0 & Hs0 & ->) Ha]. case_bool_decide as Hid; [|done].
      unfold active_with_token in Ha. apply bool_decide_eq_true in Ha as [Ha _]. cbn in Ha. by subst h.
    + intros [Hs Ha]. split; [|done]. exists s. split; [done|]. case_bool_decide as Hid; [|done].
      assert (s = session) as -> by by apply (map_unique ss_id d.(user_sessions)).
      unfold active_with_token in Ha, Hact. apply bool_decide_eq_true in Ha as [<- _].
      apply bool_decide_eq_true in Hact as [? _]. done.
  - intros Hone later now' Hl. apply unheld_token_refused.
    pose proof (refreshes_le (sha256 tok) later d' Hl) as Hle.
    destruct (holders (sha256 tok) (refreshes later d').2); [done|]. cbn in Hle. lia.
Qed.

(** a refresh made in the second its token was signed in does not rotate: signing the same
    claims with the same [iat] gives the presented token back, and it stays valid. *)
Theorem refresh_same_second now tok d res d' :
  refresh now tok d = (Ok res, d') →
  tok = sign {| tp_id := res.(rr_user).(ac_id); tp_username := res.(rr_user).(ac_username); tp_role := res.(rr_user).(ac_role);
                tp_session_version := res.(rr_user).(ac_session_version);
                tp_remember := Some (decode tok).(dec_remember) |} (now / 1000) →
  res.(rr_refresh_token) = tok.
Proof.
  intros H Htok. unfold refresh in H.
  destruct (hashPresentedRefreshToken tok); [|done]. inv_ok.
  destruct (select_one _ _); [|done]. destruct (find_account _ _); [|done]. inv_ok.
  symmetry. exact Htok.
Qed.

(** ** Revocation *)

Definition no_active_session (d : accounts_db) (u : string) : Prop :=
  ∀ s, s ∈ d.(user_sessions) → s.(ss_user) = u → s.(ss_status) ≠ "Active".

Lemma terminate_sessions_none u d : no_active_session (terminate_sessions u d) u.
Proof.
  intros s (s0 & Hs0 & ->)%elem_of_update_where. case_bool_decide as Hb; [done|]. intros Hu Hst.
  by apply Hb.
Qed.

Lemma no_active_session_refresh d u now tok res d' :
  no_active_session d u → refresh now tok d = (Ok res, d') → res.(rr_user).(ac_id) ≠ u.
Proof.
  intros Hno H Heq. unfold refresh in H. destruct (hashPresentedRefreshToken tok) as [h|]; [|done].
  inv_ok. destruct (select_one _ _) as [session|] eqn:Hs; [|done].
  destruct (find_account _ _) as [user|] eqn:Hu; [|done]. inv_ok.
  apply select_one_Some in Hs as [Hin Hact]. unfold active_with_token in Hact.
  apply find_account_Some in Hu as [_ Hid]. apply bool_decide_eq_true in Hact as [_ Hact].
  cbn in Heq. by apply (Hno session); [|congruence|].
Qed.

Lemma find_account_update d id f a :
  (∀ a, (f a).(ac_id) = a.(ac_id)) → find_account d id = Some a →
  find_account (update_account id f d) id = Some (f a).
Proof.
  intros Hf H. unfold find_account in *. cbn.
  rewrite (select_one_update (has_id id) (has_id id) f).
  - rewrite H. cbn. apply select_one_Some in H as [_ ->]. done.
  - intros r _. unfold has_id. by rewrite Hf.
Qed.

(** after [logoutAll], and after a password reset by an administrator that the policy allows, no refresh token
    gets a session for that user, and the session version has moved on, so that the row the
    database holds refuses every access token issued before. *)
Theorem revocation_closes_sessions u d a hash :
  find_account d u = Some a →
  let closed d' :=
    (∀ now tok res d'', refresh now tok d' = (Ok res, d'') → res.(rr_user).(ac_id) ≠ u) ∧
    ∃ a', find_account d' u = Some a' ∧ a'.(ac_session_version) = a.(ac_session_version) + 1 in
  closed (logoutAll u d).2 ∧ closed (resetPassword u (Ok tt) hash d).2.
Proof.
  intros Ha. cbn zeta. split.
  - unfold logoutAll. run_action. split.
    + intros now tok res d''. apply no_active_session_refresh. intros s Hs. by apply (terminate_sessions_none u d).
    + exists (bump_session_version a). split; [|done]. by apply find_account_update.
  - unfold resetPassword, mbind, action_bind. rewrite require_account_run, Ha. cbn. split.
    + intros now tok res d''. apply no_active_session_refresh. apply terminate_sessions_none.
    + eexists. split; [|].
      * apply (find_account_update d u (λ a, set_password hash true (ac_password_last_changed a) a)); done.
      * done.
Qed.
End sessions.

(** ** Passwords *)

Record password_policy := {
  min_length : Z;
  require_uppercase : bool;
  require_lowercase : bool;
  require_numbers : bool;
  require_symbols : bool;
}.

Definition DEFAULT_PASSWORD_MIN_LENGTH : Z := 8.

Definition SYMBOLS : list ascii := chars "!@#$%^&*()_+-=[]{};':|,.<>/?" ++ ["034"%char; "\"%char].
Definition is_symbol (c : ascii) : bool := bool_decide (c ∈ SYMBOLS).

(** [None] is a missing settings row (or table), which skips the validation. *)
Definition validatePasswordPolicy (pol : option password_policy) (password : string) : outcome app_error unit :=
  match pol with
  | None => Ok tt
  | Some p =>
      if Z.of_nat (utf16_length password) <? or_num p.(min_length) DEFAULT_PASSWORD_MIN_LENGTH
      then Throw (ValidationError "too short")
      else if p.(require_uppercase) && negb (some_char is_upper password) then Throw (ValidationError "uppercase")
      else if p.(require_lowercase) && negb (some_char is_lower password) then Throw (ValidationError "lowercase")
      else if p.(require_numbers) && negb (some_char is_digit password) then Throw (ValidationError "number")
      else if p.(require_symbols) && negb (some_char is_symbol password) then Throw (ValidationError "special")
      else Ok tt
  end.

Definition policy_action (pol : option password_policy) (password : string) : account_action unit := λ d,
  (validatePasswordPolicy pol password, d).

Section passwords.
(** [bcrypt.compare] and [bcrypt.hash] *)
Context (compare : string → string → bool) (hash : string → string).

(** [SELECT .. ORDER BY created_at DESC LIMIT 5] *)
Definition recent_hashes (d : accounts_db) (id : string) : list string :=
  take 5 (rev (map snd (select (λ h, bool_decide (h.1 = id)) d.(password_history)))).

(** What both password changes do once the new password is accepted. *)
Definition store_password (now : Z) (user : account) (newPassword : string) : account_action account :=
  d ← get_state;
  _ ← ensure (negb (existsb (compare newPassword) (recent_hashes d user.(ac_id))))
        (ValidationError "used previously");
  _ ← transaction account_rollback
        (_ ← modify (λ d, with_password_history (d.(password_history) ++ [(user.(ac_id), user.(ac_password))]) d);
         modify (update_account user.(ac_id) (set_password (hash newPassword) false (Some now))));
  _ ← modify (revoke_user_tokens user.(ac_id));
  _ ← modify (terminate_sessions user.(ac_id));
  require_account user.(ac_id).

Definition changePassword (now : Z) (pol : option password_policy) (userId newPassword : string) :
    account_action account :=
  user ← require_account userId;
  _ ← policy_action pol newPassword;
  _ ← ensure (negb (compare newPassword user.(ac_password))) (ValidationError "same as the current");
  store_password now user newPassword.

Definition updatePassword (now : Z) (pol : option password_policy) (userId currentPassword newPassword : string) :
    account_action account :=
  user ← require_account userId;
  _ ← ensure (compare currentPassword user.(ac_password)) (AuthError "Incorrect current password");
  _ ← ensure (negb (bool_decide (currentPassword = newPassword))) (ValidationError "same as the current");
  _ ← policy_action pol newPassword;
  store_password now user newPassword.

Lemma store_password_run now user p d a :
  find_account d user.(ac_id) = Some a →
  match store_password now user p d with
  | (Throw e, d') => d' = d ∧ e = ValidationError "used previously"
  | (Ok a', d') =>
      (∀ h, h ∈ recent_hashes d user.(ac_id) → compare p h = false) ∧
      d'.(password_history) = d.(password_history) ++ [(user.(ac_id), user.(ac_password))] ∧
      a' = set_password (hash p) false (Some now) a ∧
      no_active_session d' user.(ac_id) ∧
      (∀ r, r ∈ d'.(refresh_tokens) → r.(rt_user) = user.(ac_id) → r.(rt_revoked) = true)
  end.
Proof.
  intros Ha. set (d1 := with_password_history (d.(password_history) ++ [(ac_id user, ac_password user)]) d).
  assert (store_password now user p d =
    if existsb (compare p) (recent_hashes d (ac_id user))
    then (Throw (ValidationError "used previously"), d)
    else require_account (ac_id user) (terminate_sessions (ac_id user) (revoke_user_tokens (ac_id user)
           (update_account (ac_id user) (set_password (hash p) false (Some now)) d1)))) as ->.
  { unfold store_password, ensure, mbind, action_bind, get_state. by destruct (existsb _ _). }
  destruct (existsb (compare p) (recent_hashes d (ac_id user))) eqn:Hex; [done|].
  rewrite require_account_run.
  assert (Hf : find_account (terminate_sessions (ac_id user) (revoke_user_tokens (ac_id user)
    (update_account (ac_id user) (set_password (hash p) false (Some now)) d1))) (ac_id user) =
    Some (set_password (hash p) false (Some now) a)).
  { apply (find_account_update d1); [done|exact Ha]. }
  rewrite Hf. split_and!; [|done|done|apply terminate_sessions_none|].
  - intros h Hh. destruct (compare p h) eqn:Hc; [|done].
    assert (existsb (compare p) (recent_hashes d (ac_id user)) = true); [|congruence].
    apply existsb_exists. exists h. by rewrite <- list_elem_of_In.
  - intros r (r0 & Hr & ->)%elem_of_update_where. by case_bool_decide.
Qed.

(** a password change either throws and changes nothing, or the new password satisfies the
    policy, differs from the current one and from the last five, the old hash joins the
    history, the session version moves on, and no session or refresh token of the user is
    left in force. *)
Theorem changePassword_spec now pol u p d :
  match changePassword now pol u p d with
  | (Throw _, d') => d' = d
  | (Ok a', d') =>
      ∃ a, find_account d u = Some a ∧
        validatePasswordPolicy pol p = Ok tt ∧ compare p a.(ac_password) = false ∧
        (∀ h, h ∈ recent_hashes d u → compare p h = false) ∧
        d'.(password_history) = d.(password_history) ++ [(u, a.(ac_password))] ∧
        a'.(ac_password) = hash p ∧ a'.(ac_requires_password_change) = false ∧
        a'.(ac_session_version) = a.(ac_session_version) + 1 ∧
        no_active_session d' u ∧
        (∀ r, r ∈ d'.(refresh_tokens) → r.(rt_user) = u → r.(rt_revoked) = true)
  end.
Proof.
  unfold changePassword, mbind at 1, action_bind at 1. rewrite require_account_run.
  destruct (find_account d u) as [a|] eqn:Ha; [|done].
  unfold mbind at 1, action_bind at 1, policy_action.
  destruct (validatePasswordPolicy pol p) as [[]|] eqn:Hpol; [|done].
  unfold mbind, action_bind, ensure. destruct (compare p (ac_password a)) eqn:Hc; [done|].
  cbn [negb]. unfold mret, action_ret. pose proof (find_account_Some _ _ _ Ha) as [_ Hid].
  pose proof (store_password_run now a p d a) as H. rewrite Hid in H. specialize (H Ha).
  destruct (store_password now a p d) as [[a'|e] d']; [|tauto].
  destruct H as (H1 & H2 & -> & H4 & H5). exists a. by split_and!.
Qed.
End passwords.

(** a password passes the policy exactly when it is at least as long as the configured
    minimum (eight where none is set) and holds a character of each required class; without a
    policy row every password passes. *)
Theorem validatePasswordPolicy_spec pol p :
  validatePasswordPolicy pol p = Ok tt ↔
  ∀ pp, pol = Some pp →
    or_num pp.(min_length) DEFAULT_PASSWORD_MIN_LENGTH ≤ Z.of_nat (utf16_length p) ∧
    (pp.(require_uppercase) = true → ∃ c, c ∈ chars p ∧ is_upper c = true) ∧
    (pp.(require_lowercase) = true → ∃ c, c ∈ chars p ∧ is_lower c = true) ∧
    (pp.(require_numbers) = true → ∃ c, c ∈ chars p ∧ is_digit c = true) ∧
    (pp.(require_symbols) = true → ∃ c, c ∈ chars p ∧ is_symbol c = true).
Proof.
  assert (Hsome : ∀ q, some_char q p = true ↔ ∃ c, c ∈ chars p ∧ q c = true).
  { intros q. unfold some_char. rewrite existsb_exists. by setoid_rewrite list_elem_of_In. }
  unfold validatePasswordPolicy. destruct pol as [pp|]; [|split; [by intros _ ? [=]|done]].
  split.
  - intros H ? [= <-].
    destruct (Z.ltb_spec (Z.of_nat (utf16_length p)) (or_num (min_length pp) DEFAULT_PASSWORD_MIN_LENGTH)); [done|].
    rewrite <- !Hsome.
    destruct (require_uppercase pp), (some_char is_upper p), (require_lowercase pp), (some_char is_lower p),
      (require_numbers pp), (some_char is_digit p), (require_symbols pp), (some_char is_symbol p); by cbn in H.
  - intros H. destruct (H pp eq_refl) as (Hlen & H1 & H2 & H3 & H4). rewrite <- !Hsome in *.
    rewrite (proj2 (Z.ltb_ge _ _)) by done.
    destruct (require_uppercase pp); [rewrite H1 by done|]; cbn;
      (destruct (require_lowercase pp); [rewrite H2 by done|]; cbn);
      (destruct (require_numbers pp); [rewrite H3 by done|]; cbn);
      (destruct (require_symbols pp); [rewrite H4 by done|]; done).
Qed.

Module SessionSample.
Definition decode (t : string) : decoded := {| dec_session_version := Some 0; dec_remember := false |}.
Definition user : account := AdminSample.user "a" UserRole.ADMIN.
Definition session (tok : string) : session_row :=
  {| ss_id := 1; ss_user := "a"; ss_refresh := tok; ss_status := "Active" |}.
Definition db (tok : string) : accounts_db :=
  {| accounts := [user]; refresh_tokens := []; user_sessions := [session tok]; password_history := [] |}.
Definition result (now : Z) : refresh_result := {|
  rr_token := LoginSample.sign {| tp_id := "a"; tp_username := "a"; tp_role := UserRole.ADMIN; tp_session_version := 0; tp_remember := None |} (now / 1000);
  rr_refresh_token := LoginSample.sign {| tp_id := "a"; tp_username := "a"; tp_role := UserRole.ADMIN; tp_session_version := 0; tp_remember := Some false |} (now / 1000);
  rr_user := user; rr_expires := now + 8 * HOUR_MS; rr_remember := false |}.
Definition refresh_at := refresh LoginSample.sha256 LoginSample.sign decode.

(** Two sessions of one user, opened in different seconds. *)
Definition two : accounts_db :=
  {| accounts := [user]; refresh_tokens := []; password_history := [];
     user_sessions := [session "a.1"; {| ss_id := 2; ss_user := "a"; ss_refresh := "a.2"; ss_status := "Active" |}] |}.
End SessionSample.

(** two sessions of one user refreshed in the same second are given the same token: both then
    hold it, and it is accepted twice. *)
Example shared_token_accepted_twice :
  let d1 := (SessionSample.refresh_at 5000 "a.1" SessionSample.two).2 in
  let d2 := (SessionSample.refresh_at 5900 "a.2" d1).2 in
  length (holders "a.5" d2) = 2%nat ∧
  (∃ res d3, SessionSample.refresh_at 7000 "a.5" d2 = (Ok res, d3) ∧
     ∃ res' d4, SessionSample.refresh_at 8000 "a.5" d3 = (Ok res', d4)).
Proof. vm_compute. split; [done|]. repeat eexists. Qed.

Lemma refresh_rotates_witness :
  length (holders "a.1" (SessionSample.db "a.1")) = 1%nat ∧
  let d' := (SessionSample.refresh_at 5000 "a.1" (SessionSample.db "a.1")).2 in
  holders "a.5" d' = [set_session_refresh "a.5" (SessionSample.session "a.1")] ∧
  (SessionSample.refresh_at 9000 "a.1"
     (refreshes LoginSample.sha256 LoginSample.sign SessionSample.decode [(7000, "a.5")] d').2).1
  = Throw (AuthError "Invalid session").
Proof.
  destruct (refresh_rotates LoginSample.sha256 LoginSample.sign SessionSample.decode 5000 "a.1"
    (SessionSample.db "a.1") (SessionSample.result 5000) _ ltac:(by apply (bool_decide_unpack _)) eq_refl
    ltac:(vm_compute; discriminate)) as (_ & _ & _ & H).
  split; [reflexivity|]. split; [vm_compute; reflexivity|].
  apply (H ltac:(vm_compute; lia) [(7000, "a.5")] 9000). vm_compute. repeat constructor. discriminate.
Defined.

Lemma refresh_same_second_witness : (SessionSample.result 1500).(rr_refresh_token) = "a.1".
Proof.
  apply (refresh_same_second LoginSample.sha256 LoginSample.sign SessionSample.decode 1500 "a.1"
    (SessionSample.db "a.1") (SessionSample.result 1500)
    (refresh LoginSample.sha256 LoginSample.sign SessionSample.decode 1500 "a.1" (SessionSample.db "a.1")).2);
    vm_compute; reflexivity.
Defined.

Lemma revocation_closes_sessions_witness :
  let closed d' :=
      (∀ now tok res d'', refresh LoginSample.sha256 LoginSample.sign SessionSample.decode now tok d' = (Ok res, d'') →
         res.(rr_user).(ac_id) ≠ "a") ∧
      ∃ a', find_account d' "a" = Some a' ∧ a'.(ac_session_version) = SessionSample.user.(ac_session_version) + 1 in
  closed (logoutAll "a" (SessionSample.db "t")).2 ∧ closed (resetPassword "a" (Ok tt) "h2" (SessionSample.db "t")).2.
Proof.
  apply (revocation_closes_sessions LoginSample.sha256 LoginSample.sign SessionSample.decode "a"
    (SessionSample.db "t") SessionSample.user "h2"). reflexivity.
Defined.
