(* ===== verification/AuditChain.v ===== *)
(** * Hash-chained audit trail ([src/src/services/AuditChainService.ts])

    SHA-256 and [toISOString] are parameters.  The table is the list of its
    rows in [seq] order; rows written before the chain existed have no hash. *)

From S2P Require Import Prelude JsMap JsStrings.
Local Open Scope Z_scope.

Record audit_row := {
  au_id : Z;
  au_user : string;
  au_action : string;
  au_module : string;
  au_details : string;
  au_hash : option string;
  au_previous : string;
  au_timestamp : Z;
}.

Record AuditEntryInput := { in_user : string; in_action : string; in_module : string; in_details : string }.

Inductive failure_reason : Type := HashMismatch | Fork | Gap.
Inductive VerifyChainResult : Type :=
  | Valid
  | Invalid (firstOffendingId : Z) (reason : failure_reason).

Definition GENESIS_PREVIOUS_HASH : string := "0".

Section audit_chain.
Context (sha256 : string → string) (iso : Z → string).

Definition record_data (previousHash user act module details : string) (timestamp : Z) : string :=
  previousHash +:+ "|" +:+ user +:+ "|" +:+ act +:+ "|" +:+ module +:+ "|" +:+ details +:+ "|" +:+ iso timestamp.

Definition computeEntryHash (previousHash user act module details : string) (timestamp : Z) : string :=
  sha256 (record_data previousHash user act module details timestamp).

Definition hashed (rows : list audit_row) : list audit_row :=
  List.filter (λ r, bool_decide (is_Some r.(au_hash))) rows.

(** [SELECT hash .. WHERE hash IS NOT NULL ORDER BY seq DESC LIMIT 1] *)
Definition last_hash (rows : list audit_row) : string :=
  match last (hashed rows) with
  | Some r => default GENESIS_PREVIOUS_HASH r.(au_hash)
  | None => GENESIS_PREVIOUS_HASH
  end.

(** [insert_ok] is whether the INSERT succeeds; the transaction is serialized
    by the advisory lock (external) or the write lock (embedded). *)
Definition append (insert_ok : bool) (id now : Z) (entry : AuditEntryInput) :
    action app_error (list audit_row) unit :=
  transaction (λ old _, old)
    (rows ← get_state;
     let previousHash := last_hash rows in
     let hash := computeEntryHash previousHash entry.(in_user) entry.(in_action) entry.(in_module)
                   entry.(in_details) now in
     _ ← ensure insert_ok (GenericError "insert failed");
     modify (λ rows, rows ++ [{| au_id := id; au_user := entry.(in_user); au_action := entry.(in_action);
                                 au_module := entry.(in_module); au_details := entry.(in_details);
                                 au_hash := Some hash; au_previous := previousHash; au_timestamp := now |}])).

Definition recompute (r : audit_row) : string :=
  computeEntryHash r.(au_previous) r.(au_user) r.(au_action) r.(au_module) r.(au_details) r.(au_timestamp).

Fixpoint pass1 (rows : list audit_row) : VerifyChainResult :=
  match rows with
  | [] => Valid
  | r :: rows' =>
      if bool_decide (Some (recompute r) = r.(au_hash)) then pass1 rows' else Invalid r.(au_id) HashMismatch
  end.

(** [byHash.has] and the counts of [previousHashCounts], over all the rows. *)
Definition byHash_has (rows : list audit_row) (h : string) : bool :=
  existsb (λ r, bool_decide (r.(au_hash) = Some h)) rows.
Definition previous_count (rows : list audit_row) (h : string) : Z :=
  count_where (λ r, bool_decide (r.(au_previous) = h)) rows.

Fixpoint pass2 (all rows : list audit_row) : VerifyChainResult :=
  match rows with
  | [] => Valid
  | r :: rows' =>
      let prev := r.(au_previous) in
      if bool_decide (prev = GENESIS_PREVIOUS_HASH) then
        if 1 <? previous_count all GENESIS_PREVIOUS_HASH then Invalid r.(au_id) Fork else pass2 all rows'
      else if negb (byHash_has all prev) then Invalid r.(au_id) Gap
      else if 1 <? previous_count all prev then Invalid r.(au_id) Fork
      else pass2 all rows'
  end.

Definition verify_rows (rows : list audit_row) : VerifyChainResult :=
  match rows with
  | [] => Valid
  | _ => match pass1 rows with Valid => pass2 rows rows | bad => bad end
  end.

Definition verifyChain (table : list audit_row) : VerifyChainResult := verify_rows (hashed table).

(** ** What verification accepts *)

Definition row_ok (r : audit_row) : Prop := r.(au_hash) = Some (recompute r).
Definition linked (rows : list audit_row) (r : audit_row) : Prop :=
  r.(au_previous) = GENESIS_PREVIOUS_HASH ∨ ∃ q, q ∈ rows ∧ q.(au_hash) = Some r.(au_previous).

Lemma pass1_Valid rows : pass1 rows = Valid ↔ Forall row_ok rows.
Proof.
  induction rows as [|r rows IH]; cbn; [by split|]. rewrite Forall_cons. unfold row_ok at 1.
  case_bool_decide; [rewrite IH; naive_solver|]. split; [done|]. intros [? _]. congruence.
Qed.

Lemma byHash_has_spec rows h : byHash_has rows h = true ↔ ∃ q, q ∈ rows ∧ q.(au_hash) = Some h.
Proof.
  unfold byHash_has. rewrite existsb_exists. setoid_rewrite bool_decide_eq_true.
  by setoid_rewrite list_elem_of_In.
Qed.

Lemma pass2_Valid all rows :
  pass2 all rows = Valid ↔ ∀ r, r ∈ rows → linked all r ∧ previous_count all r.(au_previous) ≤ 1.
Proof.
  induction rows as [|r rows IH]; cbn [pass2]; [set_solver|]. setoid_rewrite elem_of_cons.
  case_bool_decide as Hg.
  - destruct (Z.ltb_spec 1 (previous_count all GENESIS_PREVIOUS_HASH)).
    + split; [done|]. intros H'. destruct (H' r); [by left|]. rewrite Hg in *. lia.
    + rewrite IH. split; [|auto]. intros H' r' [->|Hr']; [|auto]. split; [by left|rewrite Hg; lia].
  - destruct (byHash_has all (au_previous r)) eqn:Hh; cbn [negb].
    + apply byHash_has_spec in Hh. destruct (Z.ltb_spec 1 (previous_count all (au_previous r))).
      * split; [done|]. intros H'. destruct (H' r); [by left|]. lia.
      * rewrite IH. split; [|auto]. intros H' r' [->|Hr']; [|auto]. split; [by right|lia].
    + split; [done|]. intros H'. destruct (H' r) as [[?|Hl] _]; [by left|done|].
      apply byHash_has_spec in Hl. congruence.
Qed.

(** The number of rows with a given previous hash is at most one for every
    row exactly when no previous hash repeats. *)
Lemma previous_counts_NoDup rows :
  (∀ r, r ∈ rows → previous_count rows r.(au_previous) ≤ 1) ↔ NoDup (map au_previous rows).
Proof.
  assert (Hc : ∀ r (l : list audit_row), previous_count (r :: l) r.(au_previous) = 1 + previous_count l r.(au_previous)).
  { intros r l. unfold previous_count, count_where, select. cbn. rewrite bool_decide_eq_true_2 by done. cbn. lia. }
  induction rows as [|r rows IH]; cbn [map]; [split; [constructor|set_solver]|]. rewrite NoDup_cons, <- IH. split.
  - intros H. split.
    + intros (r' & He & Hr')%list_elem_of_fmap. specialize (H r ltac:(by left)). rewrite Hc in H.
      assert (previous_count rows r.(au_previous) = 0) as H0
        by (pose proof (count_where_nonneg (λ q, bool_decide (q.(au_previous) = r.(au_previous))) rows); unfold previous_count in *; lia).
      unfold previous_count in H0. rewrite count_where_zero in H0. specialize (H0 r' Hr'). by bools.
    + intros r' Hr'. specialize (H r' ltac:(by right)). unfold previous_count, count_where, select in *. cbn in H.
      destruct (bool_decide _); cbn in H; lia.
  - intros [Hni H] r' [->|Hr']%elem_of_cons.
    + rewrite Hc. assert (previous_count rows (au_previous r) = 0) as ->; [|done].
      apply count_where_zero. intros q Hq. apply bool_decide_eq_false. intros He. apply Hni.
      rewrite <- He. by apply (list_elem_of_fmap_2 au_previous).
    + specialize (H r' Hr'). unfold previous_count, count_where, select in *. cbn.
      rewrite bool_decide_eq_false_2; [done|]. intros He. apply Hni. rewrite He.
      by apply (list_elem_of_fmap_2 au_previous).
Qed.

Lemma verify_rows_Valid rows :
  verify_rows rows = Valid ↔
  Forall row_ok rows ∧ (∀ r, r ∈ rows → linked rows r) ∧ NoDup (map au_previous rows).
Proof.
  destruct rows as [|r rows]; [cbn; split; [intros _; split_and!; [done|by intros ? []%not_elem_of_nil|constructor]|done]|].
  unfold verify_rows. rewrite <- pass1_Valid, <- previous_counts_NoDup.
  destruct (pass1 (r :: rows)); [|split; [done|by intros [[=] _]]]. rewrite pass2_Valid. split.
  - intros H. split_and!; [done|intros; by apply H..].
  - intros (_ & Hl & Hc) r' Hr'. auto.
Qed.

(** ** Chains built by [append] *)

Fixpoint chain (prev : string) (rows : list audit_row) : Prop :=
  match rows with
  | [] => True
  | r :: rows' => r.(au_previous) = prev ∧ row_ok r ∧ chain (recompute r) rows'
  end.

(** The appends all go through: (id, time, entry) in order. *)
Definition append_all (table : list audit_row) (entries : list (Z * Z * AuditEntryInput)) : list audit_row :=
  foldl (λ t e, (append true e.1.1 e.1.2 e.2 t).2) table entries.

(** The hashes of the rows do not collide with each other or with the genesis value. *)
Definition collision_free (rows : list audit_row) : Prop :=
  NoDup (map recompute rows) ∧ GENESIS_PREVIOUS_HASH ∉ map recompute rows.

Lemma chain_end prev rows r :
  chain prev rows → chain prev (rows ++ [r]) ↔
  (r.(au_previous) = from_option recompute prev (last rows) ∧ row_ok r).
Proof.
  revert prev. induction rows as [|r0 rows IH]; intros prev Hc; cbn; [naive_solver|].
  destruct Hc as (H1 & H2 & Hc). rewrite (IH _ Hc).
  destruct rows as [|r1 rows]; cbn; [naive_solver|].
  change (last (r0 :: r1 :: rows)) with (last (r1 :: rows)).
  assert (is_Some (last (r1 :: rows))) as [x ->] by (apply last_is_Some; done). cbn. tauto.
Qed.

Lemma chain_row_ok prev rows : chain prev rows → Forall row_ok rows.
Proof. revert prev. induction rows as [|r rows IH]; intros prev; [constructor|]. intros (_ & ? & ?). constructor; eauto. Qed.

Lemma hashed_app l1 l2 : hashed (l1 ++ l2) = hashed l1 ++ hashed l2.
Proof. apply List.filter_app. Qed.

Lemma append_chain id now e table :
  chain GENESIS_PREVIOUS_HASH (hashed table) →
  chain GENESIS_PREVIOUS_HASH (hashed (append true id now e table).2).
Proof.
  intros Hc. unfold append, transaction. run_action. rewrite hashed_app. cbn [hashed List.filter au_hash].
  rewrite bool_decide_eq_true_2 by done. apply chain_end; [done|]. cbn. split; [|done].
  unfold last_hash. destruct (last (hashed table)) as [r|] eqn:Hl; [|done]. cbn.
  apply chain_row_ok in Hc. rewrite Forall_forall in Hc.
  assert (Hr : row_ok r) by (apply Hc; by apply last_Some_elem_of). by rewrite Hr.
Qed.

Lemma append_all_chain entries table :
  chain GENESIS_PREVIOUS_HASH (hashed table) → chain GENESIS_PREVIOUS_HASH (hashed (append_all table entries)).
Proof.
  unfold append_all. revert table. induction entries as [|e l IH]; intros table Hc; cbn [foldl]; [done|].
  apply IH. by apply append_chain.
Qed.

Lemma chain_previous prev rows :
  chain prev rows → map au_previous rows = removelast (prev :: map recompute rows).
Proof.
  revert prev. induction rows as [|r rows IH]; intros prev; [done|]. intros (<- & _ & Hc).
  cbn [map]. rewrite (IH _ Hc). done.
Qed.

Lemma elem_of_removelast {A} (l : list A) x : x ∈ removelast l → x ∈ l.
Proof.
  induction l as [|y [|z l] IH]; [done|cbn; set_solver|].
  change (removelast (y :: z :: l)) with (y :: removelast (z :: l)).
  intros [->|H]%elem_of_cons; [by left|right]. by apply IH.
Qed.

Lemma NoDup_removelast {A} (l : list A) : NoDup l → NoDup (removelast l).
Proof.
  induction l as [|y [|z l] IH]; [done|constructor|]. intros [Hni Hnd]%NoDup_cons.
  change (removelast (y :: z :: l)) with (y :: removelast (z :: l)).
  constructor; [|by apply IH]. by intros H%elem_of_removelast.
Qed.

Lemma chain_valid rows : chain GENESIS_PREVIOUS_HASH rows → collision_free rows → verify_rows rows = Valid.
Proof.
  intros Hc [Hnd Hg]. apply verify_rows_Valid. pose proof (chain_row_ok _ _ Hc) as Hok. split_and!; [done| |].
  - intros r Hr. unfold linked.
    assert (Hp : r.(au_previous) ∈ GENESIS_PREVIOUS_HASH :: map recompute rows).
    { apply elem_of_removelast. rewrite <- (chain_previous _ _ Hc). by apply (list_elem_of_fmap_2 au_previous). }
    apply elem_of_cons in Hp as [?|Hp]; [by left|right].
    apply list_elem_of_fmap in Hp as (q & He & Hq). exists q. split; [done|].
    rewrite Forall_forall in Hok. rewrite He. by apply Hok.
  - rewrite (chain_previous _ _ Hc). apply NoDup_removelast. by constructor.
Qed.


(** ** Deletion, truncation, tampering *)

Lemma chain_app prev l1 l2 :
  chain prev (l1 ++ l2) ↔ chain prev l1 ∧ chain (from_option recompute prev (last l1)) l2.
Proof.
  revert prev. induction l1 as [|r l1 IH]; intros prev; [cbn; tauto|]. cbn [app chain].
  rewrite IH. destruct l1 as [|r1 l1]; [cbn; tauto|].
  change (last (r :: r1 :: l1)) with (last (r1 :: l1)).
  assert (is_Some (last (r1 :: l1))) as [x ->] by (apply last_is_Some; done). cbn. tauto.
Qed.

Lemma pass2_app all l1 l2 :
  (∀ r, r ∈ l1 → linked all r ∧ previous_count all r.(au_previous) ≤ 1) →
  pass2 all (l1 ++ l2) = pass2 all l2.
Proof.
  induction l1 as [|r l1 IH]; intros H; [done|]. cbn [app pass2].
  destruct (H r ltac:(by left)) as [Hl Hc]. rewrite IH by (intros; apply H; by right).
  case_bool_decide as Hg.
  - rewrite (proj2 (Z.ltb_ge _ _)); [done|]. by rewrite <- Hg.
  - destruct Hl as [?|Hl]; [done|]. apply byHash_has_spec in Hl. rewrite Hl. cbn.
    by rewrite (proj2 (Z.ltb_ge _ _)).
Qed.

(** deleting a row from the middle of an appended chain is reported as a gap at the row
    after it; deleting any number of rows at the end is not reported. *)
Theorem deletion_detected_truncation_not l1 r s l2 :
  chain GENESIS_PREVIOUS_HASH (l1 ++ r :: s :: l2) → collision_free (l1 ++ r :: s :: l2) →
  verify_rows (l1 ++ s :: l2) = Invalid s.(au_id) Gap ∧ verify_rows l1 = Valid.
Proof.
  intros Hc [Hnd Hg]. pose proof Hc as Hc0. apply chain_app in Hc as [Hc1 (Hr1 & Hr2 & Hs1 & Hs2 & Hc2)].
  rewrite map_app in Hnd, Hg. cbn [map] in Hnd, Hg.
  assert (Hcf1 : collision_free l1).
  { split; [by apply NoDup_app in Hnd as (? & _)|]. intros H. apply Hg, elem_of_app. by left. }
  split; [|by apply chain_valid].
  assert (Hrows : Forall row_ok (l1 ++ s :: l2)).
  { apply Forall_app. split; [by eapply chain_row_ok|]. constructor; [done|by eapply chain_row_ok]. }
  assert (Hprevs : NoDup (map au_previous (l1 ++ s :: l2))).
  { assert (NoDup (map au_previous (l1 ++ r :: s :: l2))) as Hp.
    { rewrite (chain_previous _ _ Hc0). apply NoDup_removelast. rewrite map_app. by constructor. }
    eapply sublist_NoDup; [exact Hp|]. rewrite !map_app. cbn [map].
    apply sublist_app; [done|]. by constructor. }
  assert (Hall : verify_rows (l1 ++ s :: l2) = pass2 (l1 ++ s :: l2) (l1 ++ s :: l2)).
  { unfold verify_rows. apply pass1_Valid in Hrows. rewrite Hrows. by destruct (l1 ++ s :: l2). }
  rewrite Hall. rewrite pass2_app.
  - cbn [pass2]. rewrite Hs1. rewrite bool_decide_eq_false_2.
    2:{ intros He. apply Hg. rewrite <- He. apply elem_of_app. right. by left. }
    destruct (byHash_has (l1 ++ s :: l2) (recompute r)) eqn:Hb; [|done]. exfalso.
    apply byHash_has_spec in Hb as (q & Hq & Hqh). rewrite Forall_forall in Hrows.
    rewrite (Hrows q Hq) in Hqh. injection Hqh as Hqh. rewrite NoDup_app, NoDup_cons in Hnd.
    apply (list_elem_of_fmap_2 recompute) in Hq. change (recompute <$> ?l) with (map recompute l) in Hq.
    rewrite Hqh, map_app in Hq. cbn [map] in Hq.
    apply elem_of_app in Hq as [Hq|Hq]; [|tauto].
    destruct Hnd as (_ & Hd & _). apply (Hd _ Hq). by left.
  - intros q Hq. split; [|by apply previous_counts_NoDup; [|apply elem_of_app; left]].
    assert (Hv : verify_rows l1 = Valid) by by apply chain_valid.
    apply verify_rows_Valid in Hv as (_ & Hl & _). destruct (Hl q Hq) as [?|(q' & Hq' & ?)]; [by left|right].
    exists q'. split; [apply elem_of_app; by left|done].
Qed.

Definition with_fields (r : audit_row) (user act module details : string) (timestamp : Z) : audit_row :=
  {| au_id := r.(au_id); au_user := user; au_action := act; au_module := module; au_details := details;
     au_hash := r.(au_hash); au_previous := r.(au_previous); au_timestamp := timestamp |}.

(** in a verified chain, rewriting the recorded content of a row in place is reported as a
    hash mismatch at that row exactly when the new content hashes differently; and content
    that moves a separator between fields, or a permutation of the rows, is not reported. *)
Theorem tampering_detected_up_to_encoding l1 r l2 :
  verify_rows (l1 ++ r :: l2) = Valid →
  (∀ user act module details ts,
     let r' := with_fields r user act module details ts in
     verify_rows (l1 ++ r' :: l2) =
     if bool_decide (recompute r' = recompute r) then Valid else Invalid r.(au_id) HashMismatch) ∧
  (∀ user act module details ts,
     recompute (with_fields r (user +:+ "|" +:+ act) module details "x" ts) =
     recompute (with_fields r user (act +:+ "|" +:+ module) details "x" ts)) ∧
  (∀ rows, rows ≡ₚ l1 ++ r :: l2 → verify_rows rows = Valid).
Proof.
  intros Hv. pose proof Hv as Hv0. apply verify_rows_Valid in Hv as (Hok & Hlink & Hnd). split_and!.
  - intros user act module details ts r'. apply Forall_app in Hok as [Hok1 Hok2].
    apply Forall_cons in Hok2 as [Hr Hok2]. case_bool_decide as Hrc.
    + apply verify_rows_Valid. split_and!.
      * apply Forall_app. split; [done|]. constructor; [|done]. unfold row_ok in *. by rewrite Hrc.
      * intros q Hq.
        assert (Hq' : ∃ q0, q0 ∈ l1 ++ r :: l2 ∧ q0.(au_previous) = q.(au_previous)).
        { apply elem_of_app in Hq as [Hq|[->|Hq]%elem_of_cons].
          - exists q. split; [apply elem_of_app; by left|done].
          - exists r. split; [apply elem_of_app; right; by left|done].
          - exists q. split; [apply elem_of_app; right; by right|done]. }
        destruct Hq' as (q0 & Hq0 & He). destruct (Hlink q0 Hq0) as [?|(p & Hp & Hph)]; [left; congruence|].
        right. rewrite <- He. apply elem_of_app in Hp as [Hp|[->|Hp]%elem_of_cons].
        -- exists p. split; [apply elem_of_app; by left|done].
        -- exists r'. split; [apply elem_of_app; right; by left|done].
        -- exists p. split; [apply elem_of_app; right; by right|done].
      * by rewrite map_app in *.
    + assert (H1 : pass1 (l1 ++ r' :: l2) = Invalid r.(au_id) HashMismatch).
      { clear -Hok1 Hrc Hr. induction l1 as [|x l1 IH]; cbn [app pass1].
        - rewrite bool_decide_eq_false_2; [done|]. unfold row_ok in Hr. cbn. rewrite Hr. congruence.
        - apply Forall_cons in Hok1 as [Hx Hok1]. rewrite bool_decide_eq_true_2 by done. by apply IH. }
      unfold verify_rows. rewrite H1. by destruct (l1 ++ r' :: l2).
  - intros. unfold recompute, computeEntryHash, record_data. cbn. f_equal. by rewrite !app_assoc_str.
  - intros rows Hp. apply verify_rows_Valid. split_and!.
    + by rewrite Hp.
    + intros q Hq. rewrite Hp in Hq. destruct (Hlink q Hq) as [?|(x & Hx & ?)]; [by left|right].
      exists x. by rewrite Hp.
    + by rewrite (Permutation_map au_previous Hp).
Qed.
End audit_chain.

Module ChainSample.
Definition hash (s : string) : string := "h" +:+ s.
Definition iso (t : Z) : string := pretty t.
Definition e (d : string) : AuditEntryInput :=
  {| in_user := "u"; in_action := "Login"; in_module := "Auth"; in_details := d |}.
Definition entries : list (Z * Z * AuditEntryInput) := [(1, 10, e "a"); (2, 10, e "a"); (3, 30, e "b")].
Definition table : list audit_row := append_all hash iso [] entries.
Definition row (n : nat) : audit_row :=
  nth n table {| au_id := 0; au_user := ""; au_action := ""; au_module := ""; au_details := "";
                 au_hash := None; au_previous := ""; au_timestamp := 0 |}.

Lemma sample_collision_free : collision_free hash iso (hashed table).
Proof. split; by apply (bool_decide_unpack _). Qed.
End ChainSample.


Lemma deletion_detected_truncation_not_witness :
  verify_rows ChainSample.hash ChainSample.iso ([ChainSample.row 0] ++ ChainSample.row 2 :: [])
    = Invalid 3 Gap ∧
  verify_rows ChainSample.hash ChainSample.iso [ChainSample.row 0] = Valid.
Proof.
  apply (deletion_detected_truncation_not ChainSample.hash ChainSample.iso [ChainSample.row 0]
    (ChainSample.row 1) (ChainSample.row 2) []).
  - vm_compute. repeat split.
  - exact ChainSample.sample_collision_free.
Defined.

Lemma tampering_detected_up_to_encoding_witness :
  let l1 := [ChainSample.row 0] in let r := ChainSample.row 1 in let l2 := [ChainSample.row 2] in
  (∀ user act module details ts,
     let r' := with_fields r user act module details ts in
     verify_rows ChainSample.hash ChainSample.iso (l1 ++ r' :: l2) =
     if bool_decide (recompute ChainSample.hash ChainSample.iso r' = recompute ChainSample.hash ChainSample.iso r)
     then Valid else Invalid r.(au_id) HashMismatch) ∧
  (∀ user act module details ts,
     recompute ChainSample.hash ChainSample.iso (with_fields r (user +:+ "|" +:+ act) module details "x" ts) =
     recompute ChainSample.hash ChainSample.iso (with_fields r user (act +:+ "|" +:+ module) details "x" ts)) ∧
  (∀ rows, rows ≡ₚ l1 ++ r :: l2 → verify_rows ChainSample.hash ChainSample.iso rows = Valid).
Proof.
  apply (tampering_detected_up_to_encoding ChainSample.hash ChainSample.iso [ChainSample.row 0]
    (ChainSample.row 1) [ChainSample.row 2]).
  vm_compute. reflexivity.
Defined.
