(* ===== verification/Numbering.v ===== *)
(** * Hierarchical numbering ([src/src/services/NumberingService.ts])

    The counters are the rows of [numbering_counters], keyed by scope type and
    scope id; one UPSERT reads and advances a counter. *)

From S2P Require Import Prelude JsMap JsStrings.
Local Open Scope Z_scope.

Abbreviation counters := (list (string * string * Z)).

Definition MAX_PLAN_SEQ : Z := 999.
Definition MAX_CHILD_SEQ : Z := 99.
Definition PADDING_plan : nat := 3.
Definition PADDING_child : nat := 2.

Definition counter (c : counters) (scope : string * string) : Z := default 0 (map_get scope c).

Definition nextCounter (scopeType scopeId : string) : action app_error counters Z := λ c,
  let v := counter c (scopeType, scopeId) + 1 in
  (Ok v, map_set (scopeType, scopeId) v c).

(** [String(n).padStart(w, '0')] *)
Definition padded (w : nat) (n : Z) : string := pad_start w (pretty (Z.to_N n)).

(** [String(year).slice(-2).padStart(2, '0')], for a year of at least four digits *)
Definition year_suffix (year : Z) : string := padded 2 (year mod 100).

(** [seq > max] throws [NumberingOverflowError]. *)
Definition bounded_counter (scopeType scopeId : string) (max : Z) : action app_error counters Z :=
  seq ← nextCounter scopeType scopeId;
  _ ← ensure (seq <=? max) (GenericError "NumberingOverflowError");
  mret seq.

Definition nextPlanCode (year : Z) : action app_error counters string :=
  seq ← bounded_counter "plan_year" (pretty year) MAX_PLAN_SEQ;
  mret ("IA-PL-" +:+ year_suffix year +:+ "-" +:+ padded PADDING_plan seq).

Definition child_number (scopeType mark scopeId parent : string) : action app_error counters string :=
  seq ← bounded_counter scopeType scopeId MAX_CHILD_SEQ;
  mret (parent +:+ mark +:+ padded PADDING_child seq).

Definition nextTaskNumber (planId planCode : string) := child_number "task" "-T" planId planCode.
Definition nextFindingNumber (planId planCode : string) := child_number "finding" "-F" planId planCode.
Definition nextRecommendationNumber (findingId findingNumber : string) := child_number "rec" "-R" findingId findingNumber.
Definition nextEvidenceNumber (findingId findingNumber : string) := child_number "evidence" "-E" findingId findingNumber.

(** ** Numbers do not repeat *)

Lemma nextCounter_run t i c :
  nextCounter t i c = (Ok (counter c (t, i) + 1), map_set (t, i) (counter c (t, i) + 1) c).
Proof. done. Qed.

Lemma counter_set s s' v c :
  counter (map_set s v c) s' = if bool_decide (s' = s) then v else counter c s'.
Proof.
  unfold counter. case_bool_decide as H; [subst; by rewrite map_get_set_eq|by rewrite map_get_set_ne].
Qed.

Lemma bounded_counter_run t i max c :
  bounded_counter t i max c =
  (if counter c (t, i) + 1 <=? max then Ok (counter c (t, i) + 1) else Throw (GenericError "NumberingOverflowError"),
   map_set (t, i) (counter c (t, i) + 1) c).
Proof.
  unfold bounded_counter, mbind, action_bind. rewrite nextCounter_run. unfold ensure.
  by destruct (counter c (t, i) + 1 <=? max).
Qed.

Definition counters_ok (c : counters) : Prop := ∀ s, 0 ≤ counter c s.

Lemma padded_inj w n m : 0 ≤ n → 0 ≤ m → padded w n = padded w m → n = m.
Proof. intros Hn Hm H%pad_start_inj. lia. Qed.

(** [k] numbers of one scope, other scopes being advanced in between. *)
Definition advances (c c' : counters) : Prop := ∀ s, counter c s ≤ counter c' s.

(** two numbers handed out for the same parent, the second at any later time and whatever
    counters were advanced in between, are different; the counter never hands out a number past
    its maximum, and the numbers of a scope are consecutive. *)
Theorem child_numbers_distinct t mark i parent c n1 c1 c2 n2 c3 :
  counters_ok c → advances c1 c2 →
  child_number t mark i parent c = (Ok n1, c1) → child_number t mark i parent c2 = (Ok n2, c3) →
  n1 ≠ n2 ∧
  n1 = parent +:+ mark +:+ padded PADDING_child (counter c (t, i) + 1) ∧
  counter c1 (t, i) = counter c (t, i) + 1 ∧ 1 ≤ counter c1 (t, i) ≤ MAX_CHILD_SEQ.
Proof.
  intros Hc Hadv. unfold child_number, mbind, action_bind. rewrite !bounded_counter_run.
  destruct (Z.leb_spec (counter c (t, i) + 1) MAX_CHILD_SEQ) as [H1|]; [|done].
  destruct (Z.leb_spec (counter c2 (t, i) + 1) MAX_CHILD_SEQ) as [H2|]; [|done].
  intros [= <- <-] [= <- _]. pose proof (Hc (t, i)) as H0. pose proof (Hadv (t, i)) as Ha.
  rewrite counter_set, bool_decide_eq_true_2 in * by done. split_and!; [|done|done|lia|lia].
  intros Heq. rewrite <- !(app_assoc_str parent) in Heq.
  apply app_inj_l_str, padded_inj in Heq; lia.
Qed.

Lemma child_numbers_distinct_witness :
  "P-F01" ≠ "P-F02" ∧ "P-F01" = "P" +:+ "-F" +:+ padded PADDING_child (counter [] ("finding", "p") + 1) ∧
  counter [(("finding", "p"), 1)] ("finding", "p") = counter [] ("finding", "p") + 1 ∧
  1 ≤ counter [(("finding", "p"), 1)] ("finding", "p") ≤ MAX_CHILD_SEQ.
Proof.
  apply (child_numbers_distinct "finding" "-F" "p" "P" [] "P-F01" [(("finding", "p"), 1)]
    [(("finding", "p"), 1)] "P-F02" [(("finding", "p"), 2)]).
  - intros s. vm_compute. discriminate.
  - intros s. lia.
  - vm_compute. reflexivity.
  - vm_compute. reflexivity.
Defined.

(** the first plan codes of two years between 2000 and 2099 differ, but the first plan code
    of 2100, a year plans accept, is the first plan code of 2000. *)
Theorem plan_codes_of_years :
  (∀ y y' c c', 2000 ≤ y ≤ 2099 → 2000 ≤ y' ≤ 2099 → y ≠ y' →
     ∀ n n', (nextPlanCode y c).1 = Ok n → (nextPlanCode y' c').1 = Ok n' → n ≠ n') ∧
  (nextPlanCode 2000 []).1 = Ok "IA-PL-00-001" ∧ (nextPlanCode 2100 []).1 = Ok "IA-PL-00-001".
Proof.
  split; [|by vm_compute]. intros y y' c c' Hy Hy' Hne n n'.
  unfold nextPlanCode, mbind, action_bind. rewrite !bounded_counter_run.
  destruct (_ <=? MAX_PLAN_SEQ); [|done]. destruct (_ <=? MAX_PLAN_SEQ); [|done].
  intros [= <-] [= <-] Heq. apply app_inj_l_str in Heq. unfold year_suffix in Heq.
  assert (Hsuf : ∀ k, 0 ≤ k < 100 → String.length (padded 2 k) = 2%nat).
  { clear. intros k Hk. assert (Hall : forallb (λ n, Nat.eqb (String.length (padded 2 (Z.of_nat n))) 2) (seq 0 100) = true)
      by by vm_compute. rewrite forallb_forall in Hall.
    specialize (Hall (Z.to_nat k) ltac:(apply in_seq; lia)). rewrite Z2Nat.id in Hall by lia. by apply Nat.eqb_eq. }
  assert (Hpre : ∀ a b s t, String.length a = String.length b → a +:+ s = b +:+ t → a = b).
  { clear. induction a as [|x a IH]; intros [|y b] s t; cbn; try done.
    intros [= Hl] Heq. injection Heq as -> Heq. f_equal. by eapply IH. }
  assert (H1 : 0 ≤ y mod 100 < 100) by (apply Z.mod_pos_bound; lia).
  assert (H2 : 0 ≤ y' mod 100 < 100) by (apply Z.mod_pos_bound; lia).
  apply Hpre in Heq; [|by rewrite !Hsuf]. apply padded_inj in Heq; [|lia|lia].
  apply Hne. pose proof (Z.div_mod y 100 ltac:(lia)). pose proof (Z.div_mod y' 100 ltac:(lia)).
  assert (20 = y / 100) by (apply (Z.div_unique_pos y 100 20 (y - 2000)); lia).
  assert (20 = y' / 100) by (apply (Z.div_unique_pos y' 100 20 (y' - 2000)); lia). lia.
Qed.
