(* ===== verification/AuditWorkflow.v ===== *)
(** * Findings, recommendations, tasks and plans ([src/src/services/AuditService.ts],
    [RecommendationService.ts], [AuditTaskService.ts], [AuditPlanService.ts],
    [routes/recommendations.ts])

    The state machines of the audit entities and the rules that couple them.
    Row ids are chosen by the database and are arguments here. *)

From S2P Require Import Prelude JsMap JsStrings ModuleRegistry PermissionService Numbering.
Local Open Scope Z_scope.

(** ** Tables *)

Record plan := {
  pl_id : string; pl_code : string; pl_year : Z; pl_quarter : string; pl_department : string;
  pl_status : string; pl_archived : bool; pl_start : string; pl_end : string;
}.
Record finding := {
  fi_id : string; fi_audit : string; fi_number : string; fi_title : string; fi_type : string;
  fi_risk : string; fi_status : string; fi_created_by : string; fi_deleted : bool;
}.
Record recommendation := {
  re_id : string; re_finding : string; re_plan : string; re_number : string;
  re_action_plan : option string; re_due : option string; re_status : string; re_risk : string; re_deleted : bool;
}.
Record task := { tk_id : string; tk_plan : string; tk_status : string }.

Record audit_db := {
  plans : list plan;
  findings : list finding;
  recommendations : list recommendation;
  tasks : list task;
  assignments : list (string * string * string);
  user_roles : list (string * string);
  numbering : counters;
}.

Definition with_plans (l : list plan) (d : audit_db) : audit_db :=
  {| plans := l; findings := d.(findings); recommendations := d.(recommendations); tasks := d.(tasks);
     assignments := d.(assignments); user_roles := d.(user_roles); numbering := d.(numbering) |}.
Definition with_findings (l : list finding) (d : audit_db) : audit_db :=
  {| plans := d.(plans); findings := l; recommendations := d.(recommendations); tasks := d.(tasks);
     assignments := d.(assignments); user_roles := d.(user_roles); numbering := d.(numbering) |}.
Definition with_recommendations (l : list recommendation) (d : audit_db) : audit_db :=
  {| plans := d.(plans); findings := d.(findings); recommendations := l; tasks := d.(tasks);
     assignments := d.(assignments); user_roles := d.(user_roles); numbering := d.(numbering) |}.
Definition with_tasks (l : list task) (d : audit_db) : audit_db :=
  {| plans := d.(plans); findings := d.(findings); recommendations := d.(recommendations); tasks := l;
     assignments := d.(assignments); user_roles := d.(user_roles); numbering := d.(numbering) |}.
Definition with_assignments (l : list (string * string * string)) (d : audit_db) : audit_db :=
  {| plans := d.(plans); findings := d.(findings); recommendations := d.(recommendations); tasks := d.(tasks);
     assignments := l; user_roles := d.(user_roles); numbering := d.(numbering) |}.
Definition with_numbering (c : counters) (d : audit_db) : audit_db :=
  {| plans := d.(plans); findings := d.(findings); recommendations := d.(recommendations); tasks := d.(tasks);
     assignments := d.(assignments); user_roles := d.(user_roles); numbering := c |}.

Abbreviation audit_action := (action app_error audit_db).
Definition audit_rollback (old new : audit_db) : audit_db := old.

(** A numbering step on the counters of the database. *)
Definition on_counters {A} (m : action app_error counters A) : audit_action A := λ d,
  let '(r, c) := m d.(numbering) in (r, with_numbering c d).

Definition find_plan (d : audit_db) (id : string) : option plan := select_one (λ p, bool_decide (p.(pl_id) = id)) d.(plans).
Definition find_finding (d : audit_db) (id : string) : option finding := select_one (λ f, bool_decide (f.(fi_id) = id)) d.(findings).
Definition find_recommendation (d : audit_db) (id : string) : option recommendation :=
  select_one (λ r, bool_decide (r.(re_id) = id)) d.(recommendations).
Definition find_task (d : audit_db) (id : string) : option task := select_one (λ t, bool_decide (t.(tk_id) = id)) d.(tasks).
Definition role_of (d : audit_db) (id : string) : option string :=
  snd <$> select_one (λ u, bool_decide (u.1 = id)) d.(user_roles).

Definition set_finding_status (st : string) (f : finding) : finding :=
  {| fi_id := f.(fi_id); fi_audit := f.(fi_audit); fi_number := f.(fi_number); fi_title := f.(fi_title);
     fi_type := f.(fi_type); fi_risk := f.(fi_risk); fi_status := st; fi_created_by := f.(fi_created_by);
     fi_deleted := f.(fi_deleted) |}.
Definition set_rec_status (st : string) (r : recommendation) : recommendation :=
  {| re_id := r.(re_id); re_finding := r.(re_finding); re_plan := r.(re_plan); re_number := r.(re_number);
     re_action_plan := r.(re_action_plan); re_due := r.(re_due); re_status := st; re_risk := r.(re_risk);
     re_deleted := r.(re_deleted) |}.
Definition set_rec_risk (k : string) (r : recommendation) : recommendation :=
  {| re_id := r.(re_id); re_finding := r.(re_finding); re_plan := r.(re_plan); re_number := r.(re_number);
     re_action_plan := r.(re_action_plan); re_due := r.(re_due); re_status := r.(re_status); re_risk := k;
     re_deleted := r.(re_deleted) |}.

(** ** Findings *)

Definition VALID_FINDING_TYPES : list string := ["control_design_deficiency"; "operational_design_deficiency"].

Definition ALLOWED_FINDING_TRANSITIONS (st : string) : option (list string) :=
  map_get st [("Open", ["In Progress"]); ("In Progress", ["Closed"; "Pending Approval"]);
              ("Pending Approval", ["Closed"; "In Progress"]); ("Closed", [])].

Definition FINDING_TO_RECOMMENDATION_STATUS (st : string) : option string :=
  map_get st [("Open", "Open"); ("In Progress", "In Progress"); ("Closed", "Implemented");
              ("Pending Approval", "In Progress")].

Record CreateFindingInput := { cf_audit_id : string; cf_title : string; cf_type : string; cf_risk : string }.

Definition createFinding (findingId recommendationId : string) (data : CreateFindingInput) (userId : string) :
    audit_action (string * string) :=
  let title := trim data.(cf_title) in
  _ ← ensure (negb (bool_decide (title = ""))) (ValidationError "title required");
  _ ← ensure (bool_decide (utf16_length title ≤ 200)%nat) (ValidationError "title too long");
  _ ← ensure (bool_decide (data.(cf_type) ∈ VALID_FINDING_TYPES)) (ValidationError "finding type");
  _ ← ensure (negb (bool_decide (data.(cf_audit_id) = ""))) (ValidationError "audit_id required");
  transaction audit_rollback
    (d ← get_state;
     match find_plan d data.(cf_audit_id) with
     | None => throw (NotFoundError "plan")
     | Some plan =>
         _ ← ensure (negb plan.(pl_archived)) (ValidationError "archived plan");
         findingNumber ← on_counters (nextFindingNumber data.(cf_audit_id) plan.(pl_code));
         let risk := if bool_decide (data.(cf_risk) = "") then "Medium" else data.(cf_risk) in
         _ ← modify (λ d, with_findings (d.(findings) ++
               [{| fi_id := findingId; fi_audit := data.(cf_audit_id); fi_number := findingNumber;
                   fi_title := title; fi_type := data.(cf_type); fi_risk := risk; fi_status := "Open";
                   fi_created_by := userId; fi_deleted := false |}]) d);
         recNumber ← on_counters (nextRecommendationNumber findingId findingNumber);
         _ ← modify (λ d, with_recommendations (d.(recommendations) ++
               [{| re_id := recommendationId; re_finding := findingId; re_plan := data.(cf_audit_id);
                   re_number := recNumber; re_action_plan := None; re_due := Some ""; re_status := "Open";
                   re_risk := risk; re_deleted := false |}]) d);
         mret (findingId, recommendationId)
     end).

(** [/^[a-zA-Z0-9_]+$/], [DBWrapper.validateIdentifier] *)
Definition valid_identifier (k : string) : bool :=
  negb (bool_decide (k = "")) && all_chars (λ c, is_alnum c || bool_decide (c = "_"%char)) k.

(** [SET column = value]: PostgreSQL folds the unquoted column name to lower
    case; a column the records above leave out changes none of their fields. *)
Definition set_finding_column (f : finding) (kv : string * string) : finding :=
  let column := toLowerCase kv.1 in
  let put (c old : string) := if bool_decide (column = c) then kv.2 else old in
  {| fi_id := put "id" f.(fi_id); fi_audit := put "audit_id" f.(fi_audit);
     fi_number := put "finding_number" f.(fi_number); fi_title := put "title" f.(fi_title);
     fi_type := put "finding_type" f.(fi_type); fi_risk := put "risk_level" f.(fi_risk);
     fi_status := put "status" f.(fi_status); fi_created_by := put "created_by" f.(fi_created_by);
     fi_deleted := if bool_decide (column = "deleted_at") then true else f.(fi_deleted) |}.

Definition set_rec_column (r : recommendation) (kv : string * string) : recommendation :=
  let column := toLowerCase kv.1 in
  let put (c old : string) := if bool_decide (column = c) then kv.2 else old in
  let put_null (c : string) (old : option string) := if bool_decide (column = c) then Some kv.2 else old in
  {| re_id := put "id" r.(re_id); re_finding := put "finding_id" r.(re_finding); re_plan := put "plan_id" r.(re_plan);
     re_number := put "rec_number" r.(re_number); re_action_plan := put_null "action_plan" r.(re_action_plan);
     re_due := put_null "due_date" r.(re_due); re_status := put "status" r.(re_status);
     re_risk := put "risk_level" r.(re_risk);
     re_deleted := if bool_decide (column = "deleted_at") then true else r.(re_deleted) |}.

(** [accepts body] is whether the database takes the assignments [body]: the
    columns exist, no column is assigned twice, the values have the columns'
    types and break no key of the schema. *)
Definition updateFinding (accepts : list (string * string) → bool) (id : string)
    (body : list (string * string)) (userId : string) : audit_action unit :=
  transaction audit_rollback
    (d ← get_state;
     match find_finding d id with
     | None => throw (NotFoundError "finding")
     | Some f =>
         _ ← ensure (bool_decide (f.(fi_created_by) = userId)) (ForbiddenError "only the creator");
         let data := map_delete "created_by" (map_delete "id" body) in
         _ ← ensure (forallb valid_identifier (keys data)) (GenericError "Invalid database identifier");
         _ ← ensure (negb (bool_decide (data = []))) (ValidationError "No data provided for update");
         _ ← ensure (accepts data) (GenericError "database error");
         _ ← modify (λ d, with_findings
               (update_where (λ f, bool_decide (f.(fi_id) = id)) (λ f, foldl set_finding_column f data) d.(findings)) d);
         match map_get "risk_level" data with
         | Some k =>
             if bool_decide (k = "") then mret tt
             else modify (λ d, with_recommendations
               (update_where (λ r, bool_decide (r.(re_finding) = id)) (set_rec_risk k) d.(recommendations)) d)
         | None => mret tt
         end
     end).

Definition deleteFinding (id : string) : audit_action unit :=
  transaction audit_rollback
    (_ ← modify (λ d, with_recommendations
           (update_where (λ r, bool_decide (r.(re_finding) = id ∧ r.(re_deleted) = false))
              (λ r, {| re_id := r.(re_id); re_finding := r.(re_finding); re_plan := r.(re_plan);
                       re_number := r.(re_number); re_action_plan := r.(re_action_plan); re_due := r.(re_due);
                       re_status := r.(re_status); re_risk := r.(re_risk); re_deleted := true |})
              d.(recommendations)) d);
     modify (λ d, with_findings
           (update_where (λ f, bool_decide (f.(fi_id) = id ∧ f.(fi_deleted) = false))
              (λ f, {| fi_id := f.(fi_id); fi_audit := f.(fi_audit); fi_number := f.(fi_number);
                       fi_title := f.(fi_title); fi_type := f.(fi_type); fi_risk := f.(fi_risk);
                       fi_status := f.(fi_status); fi_created_by := f.(fi_created_by); fi_deleted := true |})
              d.(findings)) d)).

Definition MAX_RETRIES : nat := 3.

(** The recommendation update is tried up to [n] times; [ok i] is whether
    attempt [i] succeeds. *)
Fixpoint sync_attempts (ok : nat → bool) (n i : nat) (recStatus findingId : string) : audit_action unit :=
  match n with
  | O => throw (GenericError "sync failed")
  | S n' =>
      if ok i then
        modify (λ d, with_recommendations
          (update_where (λ r, bool_decide (r.(re_finding) = findingId)) (set_rec_status recStatus) d.(recommendations)) d)
      else sync_attempts ok n' (S i) recStatus findingId
  end.

Definition write_status (ok : nat → bool) (findingId newStatus : string) : audit_action unit :=
  transaction audit_rollback
    (_ ← modify (λ d, with_findings
           (update_where (λ f, bool_decide (f.(fi_id) = findingId)) (set_finding_status newStatus) d.(findings)) d);
     match FINDING_TO_RECOMMENDATION_STATUS newStatus with
     | Some recStatus => sync_attempts ok MAX_RETRIES 1 recStatus findingId
     | None => mret tt
     end).

(** [effective] is the answer of [PermissionService.getUserPermissions]; the
    result is [syncSuccess]. *)
Definition changeFindingStatus (effective : outcome app_error UserPermissionSet) (ok : nat → bool)
    (findingId newStatus : string) : audit_action bool :=
  d ← get_state;
  match find_finding d findingId with
  | None => throw (NotFoundError "finding")
  | Some f =>
      _ ← ensure (match ALLOWED_FINDING_TRANSITIONS f.(fi_status) with
                  | Some l => bool_decide (newStatus ∈ l) | None => false end)
            (ValidationError "Invalid status transition");
      _ ← (if bool_decide (f.(fi_status) = "Pending Approval" ∧ newStatus = "Closed") then
             match effective with
             | Throw e => throw e
             | Ok p => ensure (bool_decide ("Approve" ∈ default [] (map_get "AuditFindings" p.(ups_permissions))))
                         (ForbiddenError "APPROVE permission")
             end
           else mret tt);
      try_catch (_ ← write_status ok findingId newStatus; mret true) (λ _, mret false)
  end.

(** ** Recommendations *)

(** [SELECT COUNT( * ) .. WHERE finding_id = ? AND status != 'Implemented'] *)
Definition open_recommendations (d : audit_db) (findingId : string) : Z :=
  count_where (λ r, bool_decide (r.(re_finding) = findingId ∧ r.(re_status) ≠ "Implemented")) d.(recommendations).

(** The cascade after the update: the finding closes when nothing is open. *)
Definition auto_close (driver : Z → js_value) (id : string) : audit_action (option finding) :=
  d ← get_state;
  match find_recommendation d id with
  | None => mret None
  | Some rec =>
      if strict_zero (driver (open_recommendations d rec.(re_finding))) then
        match find_finding d rec.(re_finding) with
        | Some f =>
            if bool_decide (f.(fi_status) = "Closed") then mret None
            else _ ← modify (λ d, with_findings
                   (update_where (λ f, bool_decide (f.(fi_id) = rec.(re_finding))) (set_finding_status "Closed") d.(findings)) d);
                 mret (Some f)
        | None => mret None
        end
      else mret None
  end.

(** The result is the finding closed by the cascade. *)
Definition updateRecommendation (accepts : list (string * string) → bool) (driver : Z → js_value)
    (id : string) (data : list (string * string)) :
    audit_action (option finding) :=
  let body := map_delete "id" data in
  _ ← ensure (forallb valid_identifier (keys body)) (GenericError "Invalid database identifier");
  _ ← ensure (negb (bool_decide (body = []))) (ValidationError "No data provided for update");
  transaction audit_rollback
    (_ ← ensure (accepts body) (GenericError "database error");
     _ ← modify (λ d, with_recommendations
           (update_where (λ r, bool_decide (r.(re_id) = id)) (λ r, foldl set_rec_column r body) d.(recommendations)) d);
     if bool_decide (map_get "status" body = Some "Implemented") then auto_close driver id else mret None).

(** [PATCH /recommendations/:id/resolve] *)
Definition resolveRecommendation (id closure_evidence_path : string) : audit_action unit :=
  _ ← ensure (negb (bool_decide (closure_evidence_path = ""))) (ValidationError "Evidence path is mandatory");
  modify (λ d, with_recommendations
    (update_where (λ r, bool_decide (r.(re_id) = id)) (set_rec_status "closed") d.(recommendations)) d).

(** ** Tasks *)

Definition ALLOWED_TRANSITIONS (old new : string) : option (list string) :=
  map_get (old, new)
    [(("draft", "in_progress"), ["Auditor"; UserRole.INTERNAL_AUDITOR; UserRole.MANAGER]);
     (("in_progress", "review"), ["Auditor"; UserRole.INTERNAL_AUDITOR]);
     (("review", "approved"), [UserRole.MANAGER]);
     (("review", "in_progress"), [UserRole.MANAGER]);
     (("approved", "completed"), [UserRole.MANAGER])].

Definition blocking_findings (d : audit_db) (planId : string) : list finding :=
  select (λ f, bool_decide (f.(fi_audit) = planId ∧ f.(fi_status) = "open" ∧ (f.(fi_risk) = "Critical" ∨ f.(fi_risk) = "High")))
    d.(findings).

Definition incomplete_recommendations (d : audit_db) (planId : string) : list recommendation :=
  select (λ r, existsb (λ f, bool_decide (f.(fi_id) = r.(re_finding) ∧ f.(fi_audit) = planId)) d.(findings)
               && (bool_decide (r.(re_action_plan) = None ∨ r.(re_action_plan) = Some "") || bool_decide (r.(re_due) = None))) d.(recommendations).

Definition changeTaskStatus (taskId newStatus userRole : string) : audit_action unit :=
  d ← get_state;
  match find_task d taskId with
  | None => throw (NotFoundError "IAMS-NOT-001")
  | Some t =>
      match ALLOWED_TRANSITIONS (toLowerCase t.(tk_status)) (toLowerCase newStatus) with
      | None => throw (ValidationError "Invalid status transition")
      | Some roles =>
          _ ← ensure (bool_decide (userRole ∈ roles)) (ForbiddenError "IAMS-PERM-001");
          _ ← ensure (negb (bool_decide (newStatus = "review")) || bool_decide (blocking_findings d t.(tk_plan) = []))
                (ValidationError "Open critical/high findings block this transition");
          _ ← ensure (negb (bool_decide (newStatus = "approved")) || bool_decide (incomplete_recommendations d t.(tk_plan) = []))
                (ValidationError "All recommendations must have an action plan and due date");
          modify (λ d, with_tasks
            (update_where (λ t, bool_decide (t.(tk_id) = taskId))
               (λ t, {| tk_id := t.(tk_id); tk_plan := t.(tk_plan); tk_status := newStatus |}) d.(tasks)) d)
      end
  end.

Definition ASSIGNER_ROLES : list string := [UserRole.MANAGER; UserRole.ADMIN].

Definition assign_one (taskId assignedBy userId : string) : audit_action unit :=
  d ← get_state;
  _ ← ensure (negb (existsb (λ a, bool_decide (a.1 = (taskId, userId))) d.(assignments))) (ConflictError "already assigned");
  modify (λ d, with_assignments (d.(assignments) ++ [(taskId, userId, assignedBy)]) d).

Definition assignUsers (taskId : string) (userIds : list string) (assignedBy : string) : audit_action unit :=
  _ ← ensure (negb (bool_decide (userIds = []))) (ValidationError "no users");
  _ ← ensure (bool_decide (length userIds ≤ 50)%nat) (ValidationError "more than 50 users");
  d ← get_state;
  match role_of d assignedBy with
  | None => throw (ForbiddenError "assigner does not exist")
  | Some role =>
      _ ← ensure (bool_decide (role ∈ ASSIGNER_ROLES)) (ForbiddenError "not a manager or administrator");
      _ ← ensure (bool_decide (is_Some (find_task d taskId))) (NotFoundError "task");
      let uniqueUserIds := set_of_list userIds in
      _ ← ensure (bool_decide (length (select (λ u, bool_decide (u.1 ∈ uniqueUserIds)) d.(user_roles)) = length uniqueUserIds))
            (ValidationError "unknown users");
      transaction audit_rollback (for_each (assign_one taskId assignedBy) uniqueUserIds)
  end.

Definition unassignUser (taskId userId removedBy : string) : audit_action unit :=
  d ← get_state;
  match role_of d removedBy with
  | None => throw (ForbiddenError "remover does not exist")
  | Some role =>
      _ ← ensure (bool_decide (role ∈ ASSIGNER_ROLES)) (ForbiddenError "not a manager or administrator");
      _ ← ensure (existsb (λ a, bool_decide (a.1 = (taskId, userId))) d.(assignments)) (NotFoundError "assignment");
      modify (λ d, with_assignments (delete_where (λ a, bool_decide (a.1 = (taskId, userId))) d.(assignments)) d)
  end.

(** ** Plans *)

Definition VALID_QUARTERS : list string := ["Q1"; "Q2"; "Q3"; "Q4"; "Annual"].

(** [None] is allowed, [Some reason] is not. *)
Definition canCreateNewPlan (d : audit_db) (year : Z) : option string :=
  if negb (bool_decide (select (λ p, p.(pl_year) =? year) d.(plans) = [])) then Some "a plan of the year exists"
  else if negb (bool_decide (select (λ p, (p.(pl_year) =? year - 1) && negb p.(pl_archived)) d.(plans) = []))
  then Some "the previous year is not archived"
  else None.

Definition fiscalYearBounds (year : Z) : string * string :=
  (pretty year +:+ "-01-01", pretty year +:+ "-12-31").

Definition createPlan (id : string) (year : Z) (quarter department start end_ : string) : audit_action plan :=
  let quarter := if bool_decide (quarter = "") then "Annual" else quarter in
  _ ← ensure ((2000 <=? year) && (year <=? 2100)) (ValidationError "year");
  _ ← ensure (bool_decide (quarter ∈ VALID_QUARTERS)) (ValidationError "quarter");
  d ← get_state;
  match canCreateNewPlan d year with
  | Some reason => throw (ConflictError reason)
  | None =>
      planCode ← on_counters (nextPlanCode year);
      let p := {| pl_id := id; pl_code := planCode; pl_year := year; pl_quarter := quarter;
                  pl_department := department; pl_status := "Planned"; pl_archived := false;
                  pl_start := if bool_decide (start = "") then (fiscalYearBounds year).1 else start;
                  pl_end := if bool_decide (end_ = "") then (fiscalYearBounds year).2 else end_ |} in
      d ← get_state;
      _ ← ensure (negb (bool_decide (planCode ∈ map pl_code d.(plans)))) (GenericError "unique constraint");
      _ ← modify (λ d, with_plans (d.(plans) ++ [p]) d);
      mret p
  end.

(** [COUNT( * )] of the recommendations of the plan that are neither
    Implemented nor Closed; the code compares it with [>], which coerces. *)
Definition unfinished_recommendations (d : audit_db) (planId : string) : list recommendation :=
  select (λ r, existsb (λ f, bool_decide (f.(fi_id) = r.(re_finding) ∧ f.(fi_audit) = planId)) d.(findings)
               && negb (bool_decide (r.(re_status) ∈ ["Implemented"; "Closed"]))) d.(recommendations).

Definition set_plan_status (st : string) (p : plan) : plan :=
  {| pl_id := p.(pl_id); pl_code := p.(pl_code); pl_year := p.(pl_year); pl_quarter := p.(pl_quarter);
     pl_department := p.(pl_department); pl_status := st; pl_archived := p.(pl_archived);
     pl_start := p.(pl_start); pl_end := p.(pl_end) |}.

Definition closePlan (planId userId : string) : audit_action unit :=
  d ← get_state;
  match role_of d userId with
  | None => throw (ForbiddenError "user does not exist")
  | Some role =>
      _ ← ensure (bool_decide (role ∈ ["Manager"; "Admin"])) (ForbiddenError "not a manager or administrator");
      match find_plan d planId with
      | None => throw (NotFoundError "plan")
      | Some _ =>
          _ ← ensure (bool_decide (unfinished_recommendations d planId = [])) (ValidationError "open recommendations");
          modify (λ d, with_plans
            (update_where (λ p, bool_decide (p.(pl_id) = planId)) (set_plan_status "Closed") d.(plans)) d)
      end
  end.

(** ** Findings: what a status change does *)

Definition some_attempt (ok : nat → bool) : bool := ok 1%nat || ok 2%nat || ok 3%nat.

Lemma sync_attempts_run ok st id d :
  sync_attempts ok MAX_RETRIES 1 st id d =
  if some_attempt ok
  then (Ok tt, with_recommendations
         (update_where (λ r, bool_decide (r.(re_finding) = id)) (set_rec_status st) d.(recommendations)) d)
  else (Throw (GenericError "sync failed"), d).
Proof.
  unfold MAX_RETRIES, some_attempt. cbn [sync_attempts].
  destruct (ok 1%nat); [done|]. destruct (ok 2%nat); [done|]. by destruct (ok 3%nat).
Qed.

(** The recommendations of a finding all have a given status. *)
Definition recs_have_status (d : audit_db) (id st : string) : Prop :=
  ∀ r, r ∈ d.(recommendations) → r.(re_finding) = id → r.(re_status) = st.

Definition can_approve (effective : outcome app_error UserPermissionSet) : Prop :=
  ∃ p, effective = Ok p ∧ has_action p.(ups_permissions) "AuditFindings" "Approve".

Lemma find_finding_update d id st f :
  find_finding d id = Some f →
  select_one (λ f, bool_decide (f.(fi_id) = id))
    (update_where (λ f, bool_decide (f.(fi_id) = id)) (set_finding_status st) d.(findings))
  = Some (set_finding_status st f).
Proof.
  intros Hf. rewrite select_one_update by done. unfold find_finding in Hf. rewrite Hf. cbn.
  apply select_one_Some in Hf as [_ Hb]. by rewrite Hb.
Qed.

(** C10: a status change is refused, and nothing changes, unless the finding exists, the move is
    one of its state machine and, to close a finding that awaits approval, the user's effective
    permissions hold Approve on findings; then it writes the finding and all its recommendations
    together or, when all three attempts at the recommendations fail, neither. *)
Theorem changeFindingStatus_spec eff ok id new d :
  match changeFindingStatus eff ok id new d with
  | (Throw _, d') => d' = d
  | (Ok synced, d') =>
      ∃ f l, find_finding d id = Some f ∧ ALLOWED_FINDING_TRANSITIONS f.(fi_status) = Some l ∧ new ∈ l ∧
        (f.(fi_status) = "Pending Approval" → new = "Closed" → can_approve eff) ∧
        synced = some_attempt ok ∧
        if synced then
          find_finding d' id = Some (set_finding_status new f) ∧
          (∃ st, FINDING_TO_RECOMMENDATION_STATUS new = Some st ∧ recs_have_status d' id st) ∧
          (∀ r, r.(re_finding) ≠ id → r ∈ d'.(recommendations) ↔ r ∈ d.(recommendations))
        else d' = d
  end.
Proof.
  unfold changeFindingStatus, mbind at 1, action_bind at 1, get_state.
  destruct (find_finding d id) as [f|] eqn:Hf; [|done].
  unfold mbind at 1, action_bind at 1, ensure at 1.
  destruct (ALLOWED_FINDING_TRANSITIONS (fi_status f)) as [l|] eqn:Hl; [|done].
  destruct (bool_decide (new ∈ l)) eqn:Hin; [|done]. bools.
  unfold mbind at 1, action_bind at 1. unfold mret at 1, action_ret at 1.
  assert (Hst : ∃ st, FINDING_TO_RECOMMENDATION_STATUS new = Some st).
  { unfold ALLOWED_FINDING_TRANSITIONS in Hl. cbn in Hl.
    repeat case_bool_decide; simplify_eq;
      repeat match goal with H : new ∈ _ |- _ => apply elem_of_cons in H as [->|H] end;
      try (by eexists); by apply not_elem_of_nil in Hin. }
  match goal with |- context [if bool_decide (fi_status f = "Pending Approval" ∧ new = "Closed") then ?a else ?b] =>
    assert (((if bool_decide (fi_status f = "Pending Approval" ∧ new = "Closed") then a else b) d = (Ok tt, d) ∧
             (fi_status f = "Pending Approval" → new = "Closed" → can_approve eff)) ∨
            ∃ e, (if bool_decide (fi_status f = "Pending Approval" ∧ new = "Closed") then a else b) d = (Throw e, d))
      as [[Hgate Happ]|[e Hgate]] end.
  { case_bool_decide as Hpa.
    - destruct eff as [p|e]; [|right; by eexists]. unfold ensure. case_bool_decide as Hap; [left|right; by eexists].
      split; [done|]. intros _ _. exists p. split; [done|]. unfold has_action.
      destruct (map_get _ _) as [acts|]; [by exists acts|by apply not_elem_of_nil in Hap].
    - left. split; [done|]. intros H1 H2. exfalso. by apply Hpa. }
  2:{ rewrite Hgate. done. }
  rewrite Hgate.
  unfold try_catch, mbind, action_bind, write_status, transaction, mbind, action_bind, modify.
  destruct Hst as [st Hst]. rewrite Hst, sync_attempts_run.
  destruct (some_attempt ok) eqn:Hok; exists f, l; split_and!; try done.
  - by apply find_finding_update.
  - exists st. split; [done|]. intros r (r0 & Hr0 & ->)%elem_of_update_where. cbn beta.
    destruct (bool_decide (re_finding r0 = id)) eqn:Hb; bools; [done|]. intros He. by destruct Hb.
  - intros r Hr. cbn [recommendations with_recommendations with_findings]. rewrite elem_of_update_where. split.
    + intros (r0 & Hr0 & ->). revert Hr. cbn beta.
      destruct (bool_decide (re_finding r0 = id)) eqn:Hb; bools; [intros Hr; by destruct Hr|done].
    + intros Hin'. exists r. by rewrite bool_decide_eq_false_2.
Qed.

(** the creator of a finding can give it any status and any new owner through the generic
    update, past the state machine and the Approve permission: the key created_by is removed from
    the body, CREATED_BY is not, and the recommendations do not follow. *)
Theorem finding_state_machine_bypassed accepts id f st owner d :
  let body := [("status", st); ("CREATED_BY", owner)] in
  find_finding d id = Some f → accepts body = true →
  ∃ f' d', updateFinding accepts id body f.(fi_created_by) d = (Ok tt, d') ∧
    find_finding d' id = Some f' ∧ f'.(fi_status) = st ∧ f'.(fi_created_by) = owner ∧
    d'.(recommendations) = d.(recommendations).
Proof.
  intros body Hf Hacc.
  set (f' := foldl set_finding_column f body).
  exists f', (with_findings (update_where (λ f, bool_decide (f.(fi_id) = id))
    (λ f, foldl set_finding_column f body) d.(findings)) d).
  split.
  - assert (map_delete "created_by" (map_delete "id" body) = body) as Hdel by reflexivity.
    assert (forallb valid_identifier (keys body) = true) as Hid by reflexivity.
    assert (map_get "risk_level" body = None) as Hrisk by reflexivity.
    unfold updateFinding, transaction, mbind, action_bind, get_state, ensure, modify.
    by rewrite Hf, bool_decide_eq_true_2, Hdel, Hid, Hacc, Hrisk.
  - split_and!; try done.
    unfold find_finding. cbn [findings with_findings]. rewrite select_one_update by done.
    fold (find_finding d id). rewrite Hf. apply select_one_Some in Hf as [_ Hb]. cbn beta in Hb.
    cbn [fmap option_fmap option_map]. by rewrite Hb.
Qed.

(** ** Recommendations: the cascade and the two ways of closing *)

Lemma count_open_zero d id :
  open_recommendations d id = 0 ↔ recs_have_status d id "Implemented".
Proof.
  unfold open_recommendations. rewrite count_where_zero. unfold recs_have_status. split.
  - intros H r Hr He. specialize (H r Hr). bools. destruct (decide (re_status r = "Implemented")); [done|by destruct H].
  - intros H r Hr. apply bool_decide_eq_false. intros [He Hs]. by apply Hs, H.
Qed.

(** What [auto_close] does, with a driver that reads counts as numbers. *)
Lemma auto_close_number id d r f :
  find_recommendation d id = Some r → find_finding d r.(re_finding) = Some f → f.(fi_status) ≠ "Closed" →
  auto_close number_driver id d =
  if decide (open_recommendations d r.(re_finding) = 0)
  then (Ok (Some f), with_findings (update_where (λ f, bool_decide (f.(fi_id) = r.(re_finding)))
          (set_finding_status "Closed") d.(findings)) d)
  else (Ok None, d).
Proof.
  intros Hr Hf Hs. unfold auto_close, mbind at 1, action_bind at 1, get_state. rewrite Hr, Hf.
  unfold number_driver, strict_zero. rewrite (bool_decide_eq_false_2 (fi_status f = "Closed")) by done.
  destruct (decide (open_recommendations d (re_finding r) = 0)) as [->|Hne]; [done|].
  destruct (open_recommendations d (re_finding r)) eqn:?; done.
Qed.

Lemma auto_close_string id d : auto_close string_driver id d = (Ok None, d).
Proof.
  unfold auto_close, mbind at 1, action_bind at 1, get_state.
  by destruct (find_recommendation d id).
Qed.

Lemma find_recommendation_implemented d id r :
  find_recommendation d id = Some r →
  find_recommendation (with_recommendations
    (update_where (λ r, bool_decide (r.(re_id) = id)) (λ r, set_rec_column r ("status", "Implemented")) d.(recommendations)) d) id
  = Some (set_rec_column r ("status", "Implemented")).
Proof.
  intros Hr. unfold find_recommendation. cbn [recommendations with_recommendations].
  rewrite select_one_update by done. fold (find_recommendation d id). rewrite Hr.
  apply select_one_Some in Hr as [_ Hb]. cbn beta in Hb. cbn [fmap option_fmap option_map]. by rewrite Hb.
Qed.

(** The recommendations of the finding other than [id] are all implemented. *)
Definition others_implemented (d : audit_db) (id finding : string) : Prop :=
  ∀ r, r ∈ d.(recommendations) → r.(re_finding) = finding → r.(re_id) ≠ id → r.(re_status) = "Implemented".

Lemma implemented_all d id r :
  find_recommendation d id = Some r →
  recs_have_status (with_recommendations
    (update_where (λ r, bool_decide (r.(re_id) = id)) (λ r, set_rec_column r ("status", "Implemented")) d.(recommendations)) d)
    r.(re_finding) "Implemented" ↔ others_implemented d id r.(re_finding).
Proof.
  intros _. unfold recs_have_status, others_implemented. cbn [recommendations with_recommendations]. split.
  - intros H r' Hr' Hf Hid. apply H; [|done]. apply elem_of_update_where. exists r'.
    split; [done|]. by rewrite bool_decide_eq_false_2.
  - intros H r' (r0 & Hr0 & ->)%elem_of_update_where. cbn beta.
    destruct (bool_decide (re_id r0 = id)) eqn:Hb; bools; [done|]. intros He. by apply H.
Qed.

Definition implemented_body : list (string * string) := [("status", "Implemented")].

Lemma auto_close_ok driver id d : ∃ o d', auto_close driver id d = (Ok o, d').
Proof.
  unfold auto_close, mbind, action_bind, get_state, modify, mret, action_ret.
  destruct (find_recommendation d id) as [r|]; [|by do 2 eexists].
  destruct (strict_zero _); [|by do 2 eexists].
  destruct (find_finding d (re_finding r)) as [f|]; [|by do 2 eexists].
  case_bool_decide; by do 2 eexists.
Qed.

Lemma updateRecommendation_implemented accepts driver id d :
  accepts implemented_body = true →
  updateRecommendation accepts driver id implemented_body d =
  auto_close driver id
    (with_recommendations (update_where (λ r, bool_decide (r.(re_id) = id))
       (λ r, set_rec_column r ("status", "Implemented")) d.(recommendations)) d).
Proof.
  intros Hacc. unfold updateRecommendation.
  assert (map_delete "id" implemented_body = implemented_body) as -> by reflexivity.
  set (d1 := with_recommendations _ d). destruct (auto_close_ok driver id d1) as (o & d' & Hac).
  unfold transaction, mbind, action_bind, ensure, modify. rewrite Hacc.
  change (map_get "status" implemented_body) with (Some "Implemented").
  rewrite (bool_decide_eq_true_2 (Some "Implemented" = _)) by done.
  change (forallb valid_identifier (keys implemented_body)) with true.
  change (bool_decide (implemented_body = [])) with false. cbn [negb]. unfold mret, action_ret.
  change (with_recommendations (update_where (λ r, bool_decide (re_id r = id))
    (λ r, foldl set_rec_column r implemented_body) (recommendations d)) d) with d1.
  by rewrite Hac.
Qed.

(** marking a recommendation Implemented closes its finding exactly when the finding's other
    recommendations, deleted ones included, are all implemented, if the driver reads counts as
    numbers; with a driver that reads them as strings no update of a recommendation ever closes
    a finding. *)
Theorem implementing_closes_finding accepts id d r f :
  accepts implemented_body = true →
  find_recommendation d id = Some r → find_finding d r.(re_finding) = Some f → f.(fi_status) ≠ "Closed" →
  (others_implemented d id r.(re_finding) → ∃ d',
     updateRecommendation accepts number_driver id implemented_body d = (Ok (Some f), d') ∧
     find_finding d' r.(re_finding) = Some (set_finding_status "Closed" f)) ∧
  (¬ others_implemented d id r.(re_finding) → ∃ d',
     updateRecommendation accepts number_driver id implemented_body d = (Ok None, d') ∧
     d'.(findings) = d.(findings)) ∧
  (∀ data, (updateRecommendation accepts string_driver id data d).2.(findings) = d.(findings)).
Proof.
  intros Hacc Hr Hf Hs. rewrite updateRecommendation_implemented by done.
  pose proof (find_recommendation_implemented d id r Hr) as Hr'.
  pose proof (implemented_all d id r Hr) as Hall.
  set (d1 := with_recommendations _ d) in *.
  pose proof (auto_close_number id d1 _ f Hr' Hf Hs) as Hac.
  change (re_finding (set_rec_column r _)) with (re_finding r) in Hac.
  rewrite <- count_open_zero in Hall. rewrite Hac. split_and!.
  - intros Ho%Hall. rewrite decide_True by done. eexists. split; [done|]. by apply (find_finding_update d).
  - intros Ho. rewrite decide_False by (by intros ?%Hall). by exists d1.
  - intros data. unfold updateRecommendation, transaction, mbind, action_bind, ensure, modify.
    destruct (forallb _ _); [|done]. destruct (negb _); [|done].
    destruct (accepts (map_delete "id" data)); [|done]. unfold mret, action_ret. destruct (bool_decide _); [|done].
    by rewrite auto_close_string.
Qed.

(** ** Closing a plan *)

Definition may_close (role : string) : Prop := role = "Manager" ∨ role = "Admin".

Definition finished (r : recommendation) : Prop := r.(re_status) = "Implemented" ∨ r.(re_status) = "Closed".

(** [r] belongs to a finding of the plan. *)
Definition of_plan (d : audit_db) (planId : string) (r : recommendation) : Prop :=
  ∃ f, f ∈ d.(findings) ∧ f.(fi_id) = r.(re_finding) ∧ f.(fi_audit) = planId.

Lemma elem_of_unfinished d planId r :
  r ∈ unfinished_recommendations d planId ↔ r ∈ d.(recommendations) ∧ of_plan d planId r ∧ ¬ finished r.
Proof.
  unfold unfinished_recommendations. rewrite elem_of_select, andb_true_iff, existsb_exists, negb_true_iff, bool_decide_eq_false.
  unfold of_plan, finished. setoid_rewrite bool_decide_eq_true. setoid_rewrite list_elem_of_In. cbn. naive_solver.
Qed.

Lemma closePlan_run d planId userId :
  closePlan planId userId d =
  match role_of d userId with
  | None => (Throw (ForbiddenError "user does not exist"), d)
  | Some role =>
      if negb (bool_decide (role ∈ ["Manager"; "Admin"])) then
        (Throw (ForbiddenError "not a manager or administrator"), d)
      else match find_plan d planId with
           | None => (Throw (NotFoundError "plan"), d)
           | Some _ =>
               if decide (unfinished_recommendations d planId = []) then
                 (Ok tt, with_plans (update_where (λ p, bool_decide (p.(pl_id) = planId)) (set_plan_status "Closed") d.(plans)) d)
               else (Throw (ValidationError "open recommendations"), d)
           end
  end.
Proof.
  unfold closePlan, mbind, action_bind, get_state, ensure, modify.
  destruct (role_of d userId); [|done]. case_bool_decide; [|done]. cbn [negb].
  destruct (find_plan d planId); [|done].
  case_bool_decide; [by rewrite decide_True|by rewrite decide_False].
Qed.

(** a plan is closed exactly when the caller is a manager or administrator, the plan exists
    and every recommendation of its findings is Implemented or Closed; otherwise nothing changes.
    A recommendation resolved through its own route has the status closed in lower case, so its
    plan can no longer be closed, by anyone. *)
Theorem closePlan_spec planId userId d :
  (match closePlan planId userId d with
   | (Ok _, d') =>
       (∃ role, role_of d userId = Some role ∧ may_close role) ∧
       (∃ p, find_plan d planId = Some p ∧ find_plan d' planId = Some (set_plan_status "Closed" p)) ∧
       (∀ r, r ∈ d.(recommendations) → of_plan d planId r → finished r)
   | (Throw _, d') => d' = d ∧
       ((∀ role, role_of d userId = Some role → ¬ may_close role) ∨ find_plan d planId = None ∨
        ∃ r, r ∈ d.(recommendations) ∧ of_plan d planId r ∧ ¬ finished r)
   end) ∧
  (∀ r path, r ∈ d.(recommendations) → of_plan d planId r → path ≠ "" →
     let '(res, d') := resolveRecommendation r.(re_id) path d in
     res = Ok tt ∧ ∃ e, closePlan planId userId d' = (Throw e, d')).
Proof.
  split.
  - rewrite closePlan_run. destruct (role_of d userId) as [role|] eqn:Hrole; [|by split; [|left]].
    assert (Hmay : role ∈ ["Manager"; "Admin"] ↔ may_close role) by (unfold may_close; set_solver).
    case_bool_decide as Hr; cbn [negb]; rewrite Hmay in Hr; [|split; [done|left; by intros ? [= <-]]].
    destruct (find_plan d planId) as [p|] eqn:Hp; [|by split; [|right; left]].
    destruct (decide (unfinished_recommendations d planId = [])) as [Hu|Hu].
    + split_and!; [by exists role|exists p; split; [done|]|].
      * unfold find_plan in *. cbn [plans with_plans]. rewrite select_one_update by done. rewrite Hp. cbn.
        apply select_one_Some in Hp as [_ Hb]. by rewrite Hb.
      * intros r Hr' Hpl. destruct (decide (finished r)) as [|Hn]; [done|].
        assert (r ∈ unfinished_recommendations d planId) as Hin by by apply elem_of_unfinished.
        rewrite Hu in Hin. by apply not_elem_of_nil in Hin.
    + split; [done|]. right; right. destruct (unfinished_recommendations d planId) as [|r l] eqn:Hl; [done|].
      exists r. apply elem_of_unfinished. rewrite Hl. apply elem_of_cons. by left.
  - intros r path Hr Hpl Hpath. unfold resolveRecommendation, mbind, action_bind, ensure.
    rewrite bool_decide_eq_false_2 by done. cbn [negb]. unfold mret, action_ret, modify. split; [done|].
    set (d' := with_recommendations _ d). rewrite closePlan_run. 
    assert (set_rec_status "closed" r ∈ unfinished_recommendations d' planId) as Hin.
    { apply elem_of_unfinished. split_and!; [|done|by intros [?|?]].
      apply elem_of_update_where. exists r. split; [done|]. by rewrite bool_decide_eq_true_2. }
    destruct (role_of d' userId); [|by eexists]. destruct (negb _); [by eexists|].
    destruct (find_plan d' planId); [|by eexists].
    rewrite decide_False; [by eexists|]. intros He. rewrite He in Hin. by apply not_elem_of_nil in Hin.
Qed.

(** ** Tasks *)

Definition finding_status (st : string) : Prop := is_Some (ALLOWED_FINDING_TRANSITIONS st).

Definition set_task_status (st : string) (t : task) : task :=
  {| tk_id := t.(tk_id); tk_plan := t.(tk_plan); tk_status := st |}.

(** A recommendation without a plan of action or a due date. *)
Definition incomplete (r : recommendation) : Prop :=
  r.(re_action_plan) = None ∨ r.(re_action_plan) = Some "" ∨ r.(re_due) = None.

Definition critical_open (d : audit_db) (planId : string) (f : finding) : Prop :=
  f ∈ d.(findings) ∧ f.(fi_audit) = planId ∧ f.(fi_status) = "open" ∧ (f.(fi_risk) = "Critical" ∨ f.(fi_risk) = "High").

Lemma blocking_nil d planId : blocking_findings d planId = [] ↔ ∀ f, ¬ critical_open d planId f.
Proof.
  unfold blocking_findings, critical_open. rewrite select_nil. split.
  - intros H f (Hf & ? & ? & ?). specialize (H f Hf). cbn beta in H. bools. by apply H.
  - intros H f Hf. apply bool_decide_eq_false. intros (? & ? & ?). by apply (H f).
Qed.

Lemma incomplete_nil d planId :
  incomplete_recommendations d planId = [] ↔
  ∀ r, r ∈ d.(recommendations) → of_plan d planId r → ¬ incomplete r.
Proof.
  unfold incomplete_recommendations, of_plan, incomplete. rewrite select_nil. split.
  - intros H r Hr (f & Hf & Hid & Hau) Hin. specialize (H r Hr). apply andb_false_iff in H as [H|H].
    + apply not_true_iff_false in H. apply H, existsb_exists. exists f. split; [by apply list_elem_of_In|].
      by apply bool_decide_eq_true.
    + apply orb_false_iff in H as [H1 H2]. bools. tauto.
  - intros H r Hr. apply andb_false_iff.
    destruct (existsb _ _) eqn:He; [right|by left]. apply existsb_exists in He as (f & Hf & Hb). bools.
    specialize (H r Hr). apply orb_false_iff. rewrite !bool_decide_eq_false.
    assert (¬ incomplete r) as Hi; [|unfold incomplete in Hi; tauto].
    apply H. exists f. split; [by apply list_elem_of_In|]. tauto.
Qed.

Lemma changeTaskStatus_run taskId new role d :
  changeTaskStatus taskId new role d =
  match find_task d taskId with
  | None => (Throw (NotFoundError "IAMS-NOT-001"), d)
  | Some t =>
      match ALLOWED_TRANSITIONS (toLowerCase t.(tk_status)) (toLowerCase new) with
      | None => (Throw (ValidationError "Invalid status transition"), d)
      | Some roles =>
          if negb (bool_decide (role ∈ roles)) then (Throw (ForbiddenError "IAMS-PERM-001"), d)
          else if decide (new = "review" ∧ blocking_findings d t.(tk_plan) ≠ []) then
            (Throw (ValidationError "Open critical/high findings block this transition"), d)
          else if decide (new = "approved" ∧ incomplete_recommendations d t.(tk_plan) ≠ []) then
            (Throw (ValidationError "All recommendations must have an action plan and due date"), d)
          else (Ok tt, with_tasks (update_where (λ t, bool_decide (t.(tk_id) = taskId)) (set_task_status new) d.(tasks)) d)
      end
  end.
Proof.
  unfold changeTaskStatus, mbind, action_bind, get_state, ensure.
  destruct (find_task d taskId) as [t|]; [|done].
  destruct (ALLOWED_TRANSITIONS _ _) as [roles|]; [|done].
  destruct (bool_decide (role ∈ roles)); [|done]. cbn [negb]. unfold mret, action_ret.
  repeat case_bool_decide; repeat case_decide; try done; tauto.
Qed.

(** a task moves only along the allowed transitions (compared in lower case) and only by a
    role the transition lists; a move to review needs no finding of the plan with status open and
    risk Critical or High, a move to approved needs a plan of action and a due date on every
    recommendation of the plan; otherwise it is refused and nothing changes. *)
Theorem changeTaskStatus_spec taskId new role d :
  match changeTaskStatus taskId new role d with
  | (Ok _, d') => ∃ t roles, find_task d taskId = Some t ∧
      ALLOWED_TRANSITIONS (toLowerCase t.(tk_status)) (toLowerCase new) = Some roles ∧ role ∈ roles ∧
      (new = "review" → ∀ f, ¬ critical_open d t.(tk_plan) f) ∧
      (new = "approved" → ∀ r, r ∈ d.(recommendations) → of_plan d t.(tk_plan) r → ¬ incomplete r) ∧
      find_task d' taskId = Some (set_task_status new t) ∧
      ∀ id', id' ≠ taskId → find_task d' id' = find_task d id'
  | (Throw _, d') => d' = d
  end.
Proof.
  rewrite changeTaskStatus_run. destruct (find_task d taskId) as [t|] eqn:Ht; [|done].
  destruct (ALLOWED_TRANSITIONS _ _) as [roles|] eqn:Hro; [|done].
  case_bool_decide as Hrole; [|done]. cbn [negb]. case_decide as Hb; [done|]. case_decide as Hi; [done|].
  exists t, roles. rewrite <- incomplete_nil, <- blocking_nil. split_and!; try done.
  - intros Hn. destruct (decide (blocking_findings d (tk_plan t) = [])); [done|]. by destruct Hb.
  - intros Hn. destruct (decide (incomplete_recommendations d (tk_plan t) = [])); [done|]. by destruct Hi.
  - unfold find_task in *. cbn [tasks with_tasks]. rewrite select_one_update by done. rewrite Ht. cbn.
    apply select_one_Some in Ht as [_ Hid]. by rewrite Hid.
  - intros id' Hne. unfold find_task. cbn [tasks with_tasks]. rewrite select_one_update by done.
    destruct (select_one _ (tasks d)) as [t'|] eqn:Ht'; [|done]. cbn.
    apply select_one_Some in Ht' as [_ Hid]. bools. rewrite Hid. by rewrite bool_decide_eq_false_2.
Qed.

Lemma finding_status_not_open st : finding_status st → st ≠ "open".
Proof. intros [l Hl] ->. by cbn in Hl. Qed.

(** neither guard of a task's move holds anything back in practice: no status of the finding
    state machine is spelled open, so critical findings never block a review, and a manager who
    writes Approved with a capital letter skips the check of the recommendations. *)
Theorem task_guards_bypassed taskId t d :
  find_task d taskId = Some t →
  (toLowerCase t.(tk_status) = "in_progress" →
   (∀ f, f ∈ d.(findings) → finding_status f.(fi_status)) →
   (changeTaskStatus taskId "review" "Auditor" d).1 = Ok tt) ∧
  (toLowerCase t.(tk_status) = "review" →
   (changeTaskStatus taskId "Approved" UserRole.MANAGER d).1 = Ok tt).
Proof.
  intros Ht. rewrite !changeTaskStatus_run, Ht. split.
  - intros -> Hf. change (ALLOWED_TRANSITIONS _ _) with (Some ["Auditor"; UserRole.INTERNAL_AUDITOR]). cbv iota beta.
    rewrite bool_decide_eq_true_2 by (apply elem_of_cons; by left). cbn [negb].
    rewrite decide_False; [by rewrite decide_False by (by intros [? _])|].
    intros [_ Hb]. apply Hb, blocking_nil. intros f (Hin & _ & Ho & _). by apply (finding_status_not_open _ (Hf f Hin)).
  - intros ->. change (ALLOWED_TRANSITIONS _ _) with (Some [UserRole.MANAGER]). cbv iota beta.
    rewrite bool_decide_eq_true_2 by (apply elem_of_cons; by left). cbn [negb].
    by rewrite !decide_False by (by intros [? _]).
Qed.

(** ** Assignments *)

Definition assigned (d : audit_db) (taskId userId : string) : Prop :=
  ∃ by_, (taskId, userId, by_) ∈ d.(assignments).

Lemma assign_one_run taskId by_ u d :
  assign_one taskId by_ u d =
  if existsb (λ a, bool_decide (a.1 = (taskId, u))) d.(assignments)
  then (Throw (ConflictError "already assigned"), d)
  else (Ok tt, with_assignments (d.(assignments) ++ [(taskId, u, by_)]) d).
Proof.
  unfold assign_one, mbind, action_bind, get_state, ensure, modify.
  by destruct (existsb _ _).
Qed.

Lemma assign_all_run taskId by_ l d :
  match for_each (assign_one taskId by_) l d with
  | (Ok _, d') => d' = with_assignments (d.(assignments) ++ map (λ u, (taskId, u, by_)) l) d ∧
      (∀ u, u ∈ l → ¬ assigned d taskId u)
  | (Throw e, _) => e = ConflictError "already assigned" ∧ (NoDup l → ∃ u, u ∈ l ∧ assigned d taskId u)
  end.
Proof.
  revert d. induction l as [|u l IH]; intros d; cbn [for_each map].
  - split; [destruct d; cbn; by rewrite app_nil_r|]. intros u Hu. by apply not_elem_of_nil in Hu.
  - unfold mbind, action_bind. rewrite assign_one_run.
    destruct (existsb _ _) eqn:He.
    + split; [done|]. intros _. exists u. split; [apply elem_of_cons; by left|].
      apply existsb_exists in He as ([[t' u'] b] & Hin & Hb). bools. cbn in Hb. injection Hb as -> ->.
      exists b. by apply list_elem_of_In.
    + specialize (IH (with_assignments (assignments d ++ [(taskId, u, by_)]) d)).
      destruct (for_each _ _ _) as [[]]; destruct IH as [-> IH].
      * split; [cbn; by rewrite <- app_assoc|]. intros v [->|Hv]%elem_of_cons [b Hb].
        -- assert (existsb (λ a, bool_decide (a.1 = (taskId, u))) (assignments d) = true); [|congruence].
           apply existsb_exists. exists (taskId, u, b). split; [by apply list_elem_of_In|by apply bool_decide_eq_true].
        -- apply (IH v Hv). exists b. cbn. apply elem_of_app. by left.
      * split; [done|]. intros [Hni Hnd]%NoDup_cons. destruct (IH Hnd) as (v & Hv & b & Hb).
        exists v. split; [apply elem_of_cons; by right|].
        exists b. cbn in Hb. apply elem_of_app in Hb as [|Hb]; [done|].
        apply list_elem_of_singleton in Hb. injection Hb as -> _. done.
Qed.

(** As many rows as ids, all of them with ids of the list: every id has a row. *)
Lemma all_known (us : list (string * string)) (l : list string) :
  NoDup (map fst us) → NoDup l →
  length (select (λ u, bool_decide (u.1 ∈ l)) us) = length l → ∀ u, u ∈ l → u ∈ map fst us.
Proof.
  intros Hus Hl Hlen u Hu. set (rows := select _ us) in *.
  assert (Hsub : map fst rows ⊆ map fst us).
  { intros x (y & -> & Hy)%list_elem_of_fmap. apply elem_of_select in Hy as [Hy _].
    by apply (list_elem_of_fmap_2 fst). }
  assert (Hrows : NoDup (map fst rows)).
  { subst rows. unfold select. clear Hlen Hsub Hu. induction us as [|x us IH]; cbn; [constructor|].
    apply NoDup_cons in Hus as [Hni Hnd]. case_bool_decide; [|by apply IH]. cbn. apply NoDup_cons.
    split; [|by apply IH]. intros (y & Hx & Hy)%list_elem_of_fmap. apply elem_of_select in Hy as [Hy _].
    apply Hni. rewrite Hx. by apply (list_elem_of_fmap_2 fst). }
  assert (Hp : map fst rows ≡ₚ l).
  { apply submseteq_length_Permutation; [|rewrite length_map; lia].
    apply NoDup_submseteq; [done|]. intros x (y & -> & Hy)%list_elem_of_fmap.
    apply elem_of_select in Hy as [_ Hy]. by bools. }
  apply Hsub. by rewrite Hp.
Qed.

Lemma pairs_assigned d taskId by_ l :
  NoDup (map fst d.(assignments)) → NoDup l → (∀ u, u ∈ l → ¬ assigned d taskId u) →
  NoDup (map fst (d.(assignments) ++ map (λ u, (taskId, u, by_)) l)).
Proof.
  intros Hd Hl Hna. rewrite map_app, map_map. cbn. apply NoDup_app. split_and!; [done| |].
  - intros x Hx (u & -> & Hu)%list_elem_of_fmap. apply list_elem_of_fmap in Hx as ([[t' u'] b] & Heq & Hx).
    cbn in Heq. injection Heq as <- <-. apply (Hna u Hu). by exists b.
  - by apply NoDup_fmap; [intros ?? [=]|].
Qed.

(** users are assigned to a task all together or not at all: it takes one to fifty ids, a
    manager or administrator, an existing task, existing users, none of them on the task; then
    each id, however often listed, gets one assignment, and no user is ever twice on a task. *)
Theorem assignUsers_spec taskId userIds by_ d :
  NoDup (map fst d.(user_roles)) → NoDup (map fst d.(assignments)) →
  match assignUsers taskId userIds by_ d with
  | (Ok _, d') => userIds ≠ [] ∧ (length userIds ≤ 50)%nat ∧
      (∃ role, role_of d by_ = Some role ∧ role ∈ ASSIGNER_ROLES) ∧ is_Some (find_task d taskId) ∧
      (∀ u, u ∈ userIds → u ∈ map fst d.(user_roles) ∧ ¬ assigned d taskId u) ∧
      (∀ u, assigned d' taskId u ↔ assigned d taskId u ∨ u ∈ userIds) ∧
      NoDup (map fst d'.(assignments)) ∧ d'.(tasks) = d.(tasks)
  | (Throw _, d') => d' = d
  end.
Proof.
  intros Hus Has. destruct (set_of_list_spec userIds) as [Hnd Hin].
  unfold assignUsers, mbind, action_bind, get_state, ensure.
  case_bool_decide as Hne; [done|]. cbn [negb]. unfold mret at 1, action_ret at 1.
  case_bool_decide as Hlen; [|done]. unfold mret at 1, action_ret at 1.
  destruct (role_of d by_) as [role|] eqn:Hrole; [|done].
  case_bool_decide as Hr; [|done]. unfold mret at 1, action_ret at 1.
  case_bool_decide as Ht; [|done]. unfold mret at 1, action_ret at 1.
  case_bool_decide as Hk; [|done]. unfold mret at 1, action_ret at 1.
  pose proof (all_known _ _ Hus Hnd Hk) as Hknown.
  unfold transaction. pose proof (assign_all_run taskId by_ (set_of_list userIds) d) as Hall.
  destruct (for_each _ _ d) as [[]]; [|done]. destruct Hall as [-> Hna].
  split_and!; try done; [by exists role| | |].
  - intros u Hu%Hin. split; [by apply Hknown|by apply Hna].
  - intros u. unfold assigned. cbn [assignments with_assignments]. setoid_rewrite elem_of_app. split.
    + intros [b [Hb|(v & Hv & Hl)%list_elem_of_fmap]]; [left; by exists b|right]. injection Hv as -> _. by apply Hin.
    + intros [[b Hb]|Hu%Hin]; [exists b; by left|exists by_; right].
      by apply (list_elem_of_fmap_2 (λ u, (taskId, u, by_))).
  - by apply pairs_assigned.
Qed.

(** ** Creating findings and plans *)

Lemma child_number_run t mark i parent c :
  child_number t mark i parent c =
  (if counter c (t, i) + 1 <=? MAX_CHILD_SEQ
   then Ok (parent +:+ mark +:+ padded PADDING_child (counter c (t, i) + 1))
   else Throw (GenericError "NumberingOverflowError"),
   map_set (t, i) (counter c (t, i) + 1) c).
Proof.
  unfold child_number, mbind, action_bind. rewrite bounded_counter_run. by destruct (_ <=? _).
Qed.

(** a finding is created together with its one recommendation, both Open and with the plan's
    and the finding's next numbers, and only for an existing plan that is not archived and with
    valid data; on any error neither is created and no number is used up. *)
Theorem createFinding_spec findingId recommendationId data userId d :
  match createFinding findingId recommendationId data userId d with
  | (Ok ids, d') => ids = (findingId, recommendationId) ∧
      trim data.(cf_title) ≠ "" ∧ (utf16_length (trim data.(cf_title)) ≤ 200)%nat ∧
      data.(cf_type) ∈ VALID_FINDING_TYPES ∧
      ∃ p f r, find_plan d data.(cf_audit_id) = Some p ∧ p.(pl_archived) = false ∧
        d'.(findings) = d.(findings) ++ [f] ∧ d'.(recommendations) = d.(recommendations) ++ [r] ∧
        f.(fi_audit) = data.(cf_audit_id) ∧ r.(re_finding) = findingId ∧ r.(re_plan) = data.(cf_audit_id) ∧
        f.(fi_status) = "Open" ∧ r.(re_status) = "Open" ∧ f.(fi_risk) = r.(re_risk) ∧
        f.(fi_created_by) = userId ∧
        f.(fi_number) = p.(pl_code) +:+ "-F" +:+ padded PADDING_child (counter d.(numbering) ("finding", data.(cf_audit_id)) + 1) ∧
        (counter d.(numbering) ("rec", findingId) = 0 → r.(re_number) = f.(fi_number) +:+ "-R01")
  | (Throw _, d') => d' = d
  end.
Proof.
  unfold createFinding, nextFindingNumber, nextRecommendationNumber, transaction, on_counters,
    mbind, action_bind, get_state, ensure, modify.
  case_bool_decide as Ht; [done|]. cbn [negb]. unfold mret, action_ret.
  case_bool_decide as Hlen; [|done]. case_bool_decide as Hty; [|done]. case_bool_decide; [done|]. cbn [negb].
  destruct (find_plan d (cf_audit_id data)) as [p|] eqn:Hp; [|done].
  destruct (pl_archived p) eqn:Har; [done|]. cbn [negb]. rewrite child_number_run.
  destruct (_ <=? MAX_CHILD_SEQ); [|done]. cbn [numbering with_numbering with_findings].
  rewrite child_number_run. destruct (_ <=? MAX_CHILD_SEQ); [|done].
  split_and!; try done. eexists p, _, _. split_and!; try done. cbn [fi_number re_number].
  intros H0. rewrite counter_set, bool_decide_eq_false_2, H0 by done. done.
Qed.

Lemma NoDup_snoc {A} (l : list A) x : NoDup l → x ∉ l → NoDup (l ++ [x]).
Proof.
  intros Hl Hx. apply NoDup_app. split_and!; [done| |apply NoDup_singleton].
  intros y Hy ->%list_elem_of_singleton. done.
Qed.

Lemma createPlan_run id year quarter department start end_ d :
  match createPlan id year quarter department start end_ d with
  | (Ok p, d') => d'.(plans) = d.(plans) ++ [p] ∧ canCreateNewPlan d year = None ∧
      pl_year p = year ∧ 2000 ≤ year ≤ 2100 ∧ pl_status p = "Planned" ∧ pl_archived p = false ∧
      pl_quarter p ∈ VALID_QUARTERS ∧ pl_code p ∉ map pl_code d.(plans)
  | (Throw _, d') => d'.(plans) = d.(plans)
  end.
Proof.
  unfold createPlan, on_counters, mbind, action_bind, get_state, ensure, modify.
  destruct ((2000 <=? year) && (year <=? 2100)) eqn:Hy; [|done]. bools. unfold mret, action_ret.
  case_bool_decide as Hq; [|done]. destruct (canCreateNewPlan d year) eqn:Hc; [done|].
  destruct (nextPlanCode year _) as [[code|e] c]; [|done]. cbn [plans with_numbering].
  destruct (bool_decide (code ∈ _)) eqn:Hni; [done|]. cbn [negb]. bools. split_and!; done.
Qed.

(** Every year has at most one plan, and plan codes are unique. *)
Definition plans_wf (d : audit_db) : Prop :=
  NoDup (map pl_year d.(plans)) ∧ NoDup (map pl_code d.(plans)).

(** with plans created one after the other a fiscal year never has two plans and no code is
    used twice; a plan is only created for a year from 2000 to 2100 once the plans of the year
    before are archived, and a refused creation leaves the plans alone. *)
Theorem one_plan_per_year id year quarter department start end_ d :
  plans_wf d →
  let '(res, d') := createPlan id year quarter department start end_ d in
  plans_wf d' ∧
  match res with
  | Ok p => d'.(plans) = d.(plans) ++ [p] ∧ p.(pl_year) = year ∧ 2000 ≤ year ≤ 2100 ∧
      p.(pl_quarter) ∈ VALID_QUARTERS ∧ (∀ q, q ∈ d.(plans) → q.(pl_year) ≠ year) ∧
      (∀ q, q ∈ d.(plans) → q.(pl_year) = year - 1 → q.(pl_archived) = true)
  | Throw _ => d'.(plans) = d.(plans)
  end.
Proof.
  intros [Hyear Hcode]. pose proof (createPlan_run id year quarter department start end_ d) as Hrun.
  destruct (createPlan _ _ _ _ _ _ d) as [[p|e] d']; [|by unfold plans_wf; rewrite Hrun].
  destruct Hrun as (Hpl & Hcan & Hy & [Hlo Hhi] & _ & _ & Hq & Hni). unfold canCreateNewPlan in Hcan.
  destruct (bool_decide (select _ d.(plans) = [])) eqn:Hs1 in Hcan; [|done]. cbn [negb] in Hcan.
  destruct (bool_decide (select _ d.(plans) = [])) eqn:Hs2 in Hcan; [|done].
  bools. rewrite select_nil in Hs1, Hs2.
  assert (Hnone : ∀ q, q ∈ plans d → pl_year q ≠ year) by (intros q Hq'; apply Z.eqb_neq, (Hs1 q Hq')).
  split; [|split_and!; try done].
  - unfold plans_wf. rewrite Hpl, !map_app. cbn [map]. split; apply NoDup_snoc; try done.
    rewrite Hy. intros (q & Hyq & Hq')%list_elem_of_fmap. by apply (Hnone q).
  - intros q Hq' Hyq. specialize (Hs2 q Hq'). cbn beta in Hs2. rewrite Hyq, Z.eqb_refl in Hs2. cbn in Hs2.
    by bools.
Qed.

(** ** A plan with one finding that awaits approval *)

Module AuditSample.
Definition plan25 : plan :=
  {| pl_id := "p1"; pl_code := "IA-PL-25-001"; pl_year := 2025; pl_quarter := "Annual"; pl_department := "Finance";
     pl_status := "Planned"; pl_archived := true; pl_start := "2025-01-01"; pl_end := "2025-12-31" |}.
Definition f1 : finding :=
  {| fi_id := "f1"; fi_audit := "p1"; fi_number := "IA-PL-25-001-F01"; fi_title := "No backup";
     fi_type := "control_design_deficiency"; fi_risk := "Critical"; fi_status := "Pending Approval";
     fi_created_by := "sara"; fi_deleted := false |}.
Definition r1 : recommendation :=
  {| re_id := "r1"; re_finding := "f1"; re_plan := "p1"; re_number := "IA-PL-25-001-F01-R01";
     re_action_plan := None; re_due := Some ""; re_status := "In Progress"; re_risk := "Critical"; re_deleted := false |}.
Definition t1 : task := {| tk_id := "t1"; tk_plan := "p1"; tk_status := "in_progress" |}.
Definition d0 : audit_db :=
  {| plans := [plan25]; findings := [f1]; recommendations := [r1]; tasks := [t1]; assignments := [];
     user_roles := [("sara", "Auditor"); ("mona", "Manager")]; numbering := [] |}.
End AuditSample.

Lemma finding_state_machine_bypassed_witness :
  ∃ f' d', updateFinding (λ _, true) "f1" [("status", "Closed"); ("CREATED_BY", "mona")] "sara" AuditSample.d0 = (Ok tt, d') ∧
    find_finding d' "f1" = Some f' ∧ f'.(fi_status) = "Closed" ∧ f'.(fi_created_by) = "mona" ∧
    d'.(recommendations) = [AuditSample.r1].
Proof.
  apply (finding_state_machine_bypassed (λ _, true) "f1" AuditSample.f1 "Closed" "mona" AuditSample.d0).
  - vm_compute. reflexivity.
  - reflexivity.
Defined.

Lemma implementing_closes_finding_witness :
  (∃ d', updateRecommendation (λ _, true) number_driver "r1" implemented_body AuditSample.d0 = (Ok (Some AuditSample.f1), d') ∧
     find_finding d' "f1" = Some (set_finding_status "Closed" AuditSample.f1)) ∧
  (updateRecommendation (λ _, true) string_driver "r1" implemented_body AuditSample.d0).2.(findings) = [AuditSample.f1].
Proof.
  destruct (implementing_closes_finding (λ _, true) "r1" AuditSample.d0 AuditSample.r1 AuditSample.f1) as (H1 & _ & H3).
  - reflexivity.
  - vm_compute. reflexivity.
  - vm_compute. reflexivity.
  - vm_compute. discriminate.
  - split; [|apply H3]. apply H1. intros r Hr _ Hid. apply list_elem_of_singleton in Hr as ->. by destruct Hid.
Defined.

Lemma task_guards_bypassed_witness :
  (changeTaskStatus "t1" "review" "Auditor" AuditSample.d0).1 = Ok tt.
Proof.
  apply (task_guards_bypassed "t1" AuditSample.t1 AuditSample.d0).
  - vm_compute. reflexivity.
  - vm_compute. reflexivity.
  - intros f Hf. apply list_elem_of_singleton in Hf as ->. by eexists.
Defined.

Lemma assignUsers_spec_witness :
  (assignUsers "t1" ["sara"; "sara"] "mona" AuditSample.d0).1 = Ok tt ∧
  ∀ u, assigned (assignUsers "t1" ["sara"; "sara"] "mona" AuditSample.d0).2 "t1" u ↔
       assigned AuditSample.d0 "t1" u ∨ u ∈ ["sara"; "sara"].
Proof.
  split; [vm_compute; reflexivity|].
  assert (Hu : NoDup (map fst AuditSample.d0.(user_roles))) by by apply (bool_decide_unpack _).
  assert (Ha : NoDup (map fst AuditSample.d0.(assignments))) by by apply (bool_decide_unpack _).
  pose proof (assignUsers_spec "t1" ["sara"; "sara"] "mona" AuditSample.d0 Hu Ha) as H.
  destruct (assignUsers "t1" ["sara"; "sara"] "mona" AuditSample.d0) as [[[]|e] d'] eqn:E; [|vm_compute in E; discriminate].
  apply H.
Defined.

Lemma one_plan_per_year_witness :
  ∃ p d', createPlan "p2" 2026 "" "Audit" "" "" AuditSample.d0 = (Ok p, d') ∧ plans_wf d' ∧ p.(pl_code) = "IA-PL-26-001".
Proof.
  assert (Hwf : plans_wf AuditSample.d0) by (split; by apply (bool_decide_unpack _)).
  pose proof (one_plan_per_year "p2" 2026 "" "Audit" "" "" AuditSample.d0 Hwf) as H.
  destruct (createPlan "p2" 2026 "" "Audit" "" "" AuditSample.d0) as [[p|e] d'] eqn:E; [|vm_compute in E; discriminate].
  exists p, d'. split; [done|]. split; [apply H|]. vm_compute in E. by injection E as <- <-.
Defined.
