(* ===== verification/CircuitBreaker.v ===== *)
(** * Circuit breaker of the webhook service ([src/src/services/CircuitBreaker.ts])

    The HTTP client is the argument that gives the answer of each attempt.
    Awaits split a call into its entry and its end, and a health probe into
    its start and its end; [step] interleaves them. *)

From S2P Require Import Prelude JsMap JsStrings.
From stdpp Require Import relations.
Local Open Scope Z_scope.

Inductive CircuitState := CLOSED | OPEN | HALF_OPEN.

#[export] Instance CircuitState_eq_dec : EqDecision CircuitState.
Proof. solve_decision. Defined.

Record CircuitBreakerConfig := {
  maxRetries : nat;
  initialBackoffMs : Z;
  failureThreshold : Z;
  failureWindowMs : Z;
  healthProbeIntervalMs : Z;
  healthProbeTimeoutMs : Z;
  requestTimeoutMs : Z;
}.

Definition DEFAULT_CONFIG : CircuitBreakerConfig := {|
  maxRetries := 3; initialBackoffMs := 1000; failureThreshold := 5; failureWindowMs := 60000;
  healthProbeIntervalMs := 30000; healthProbeTimeoutMs := 5000; requestTimeoutMs := 5000 |}.

Record DeadLetterEntry := { event_type : string; payload : string; failure_reason : string; retry_count : Z }.

(** [timer] is whether the interval of the health probe is running. *)
Record breaker := {
  state : CircuitState;
  consecutiveFailures : Z;
  failures : list Z;
  timer : bool;
  dead_letters : list DeadLetterEntry;
}.

Definition new_breaker : breaker :=
  {| state := CLOSED; consecutiveFailures := 0; failures := []; timer := false; dead_letters := [] |}.

Definition with_state (st : CircuitState) (b : breaker) : breaker :=
  {| state := st; consecutiveFailures := b.(consecutiveFailures); failures := b.(failures);
     timer := b.(timer); dead_letters := b.(dead_letters) |}.

(** ** Errors of a request *)

Inductive request_error :=
  | AxiosError (code : string) (response : option (Z * string)) (message : string)
  | OtherError (message : string).

Definition isRetryableError (e : request_error) : bool :=
  match e with
  | AxiosError _ None _ => true
  | AxiosError _ (Some (status, _)) _ => 500 <=? status
  | OtherError _ => false
  end.

Definition extractErrorReason (cfg : CircuitBreakerConfig) (e : request_error) : string :=
  match e with
  | AxiosError code response message =>
      if bool_decide (code = "ECONNABORTED" ∨ code = "ETIMEDOUT")
      then "Connection timeout (>" +:+ pretty cfg.(requestTimeoutMs) +:+ "ms)"
      else if bool_decide (code = "ECONNREFUSED") then "Connection refused"
      else if bool_decide (code = "ENOTFOUND") then "Host not found"
      else match response with
           | Some (status, text) => "HTTP " +:+ pretty status +:+ ": " +:+ text
           | None => "Network error: " +:+ message
           end
  | OtherError message => if bool_decide (message = "") then "Unknown error" else message
  end.

(** [axios.post] answers with a status or rejects. *)
Definition executeRequest (post : outcome request_error Z) : outcome request_error unit :=
  match post with
  | Throw e => Throw e
  | Ok status => if 500 <=? status then Throw (OtherError ("Server error: HTTP " +:+ pretty status)) else Ok tt
  end.

(** ** Changes of state *)

Definition startHealthProbe (b : breaker) : breaker :=
  {| state := b.(state); consecutiveFailures := b.(consecutiveFailures); failures := b.(failures);
     timer := true; dead_letters := b.(dead_letters) |}.

Definition openCircuit (b : breaker) : breaker :=
  if bool_decide (b.(state) = OPEN) then b else startHealthProbe (with_state OPEN b).

Definition closeCircuit (b : breaker) : breaker :=
  {| state := CLOSED; consecutiveFailures := 0; failures := []; timer := false; dead_letters := b.(dead_letters) |}.

Definition recordFailure (cfg : CircuitBreakerConfig) (now : Z) (b : breaker) : breaker :=
  let b := {| state := b.(state); consecutiveFailures := b.(consecutiveFailures) + 1;
              failures := List.filter (λ t, now - cfg.(failureWindowMs) <=? t) (b.(failures) ++ [now]);
              timer := b.(timer); dead_letters := b.(dead_letters) |} in
  if cfg.(failureThreshold) <=? b.(consecutiveFailures) then openCircuit b else b.

(** [dlq_ok] is whether the insertion succeeds; its failure is only logged. *)
Definition storeInDeadLetterQueue (dlq_ok : bool) (eventType payload reason : string) (b : breaker) : breaker :=
  {| state := b.(state); consecutiveFailures := b.(consecutiveFailures); failures := b.(failures);
     timer := b.(timer);
     dead_letters := b.(dead_letters) ++
       (if dlq_ok then [{| event_type := eventType; payload := payload; failure_reason := reason; retry_count := 0 |}]
        else []) |}.

Definition on_success (b : breaker) : breaker :=
  let b := {| state := b.(state); consecutiveFailures := 0; failures := [];
              timer := b.(timer); dead_letters := b.(dead_letters) |} in
  if bool_decide (b.(state) = HALF_OPEN) then closeCircuit b else b.

(** [performHealthProbe] up to its request; [None] when a probe is in flight. *)
Definition probe_start (b : breaker) : option breaker :=
  if bool_decide (b.(state) = HALF_OPEN) then None else Some (with_state HALF_OPEN b).

(** [performHealthProbe] from the answer of its request on. *)
Definition probe_end (ok : bool) (b : breaker) : breaker :=
  if ok then closeCircuit b else with_state OPEN b.

Definition reset (b : breaker) : breaker := closeCircuit b.

(** ** A call *)

Inductive attempts_result :=
  | Delivered
  | NotRetryable (reason : string)
  | Exhausted (lastError : string).

(** Attempts [i], [i + 1], .. of which [n] are left; [posts i] answers attempt [i]. *)
Fixpoint attempts (cfg : CircuitBreakerConfig) (posts : nat → outcome request_error Z) (n i : nat)
    (lastError : string) : attempts_result :=
  match n with
  | O => Exhausted lastError
  | S n' =>
      match executeRequest (posts i) with
      | Ok _ => Delivered
      | Throw e =>
          if isRetryableError e then attempts cfg posts n' (S i) (extractErrorReason cfg e)
          else NotRetryable (extractErrorReason cfg e)
      end
  end.

(** [call], when nothing else runs between its entry and its end. *)
Definition call (cfg : CircuitBreakerConfig) (url dlq_ok : bool) (posts : nat → outcome request_error Z) (now : Z)
    (eventType payload : string) (b : breaker) : bool * breaker :=
  if negb url then (true, b)
  else if bool_decide (b.(state) = OPEN) then
    (false, storeInDeadLetterQueue dlq_ok eventType payload "Circuit breaker is open" b)
  else match attempts cfg posts cfg.(maxRetries) 1 "" with
       | Delivered => (true, on_success b)
       | NotRetryable reason => (false, storeInDeadLetterQueue dlq_ok eventType payload reason b)
       | Exhausted reason => (false, storeInDeadLetterQueue dlq_ok eventType payload reason (recordFailure cfg now b))
       end.

(** ** Interleaved calls and probes *)

Record system := { br : breaker; calls : nat; probes : nat }.

Definition new_system : system := {| br := new_breaker; calls := 0; probes := 0 |}.

(** The steps.  With [overlap] false no call ends while a probe is in flight. *)
Inductive step (cfg : CircuitBreakerConfig) (overlap : bool) : system → system → Prop :=
  | step_refused b c p ok ev pl :
      b.(state) = OPEN →
      step cfg overlap {| br := b; calls := c; probes := p |}
        {| br := storeInDeadLetterQueue ok ev pl "Circuit breaker is open" b; calls := c; probes := p |}
  | step_entered b c p :
      b.(state) ≠ OPEN →
      step cfg overlap {| br := b; calls := c; probes := p |} {| br := b; calls := S c; probes := p |}
  | step_delivered b c p :
      overlap = true ∨ b.(state) ≠ HALF_OPEN →
      step cfg overlap {| br := b; calls := S c; probes := p |} {| br := on_success b; calls := c; probes := p |}
  | step_rejected b c p ok ev pl reason :
      step cfg overlap {| br := b; calls := S c; probes := p |}
        {| br := storeInDeadLetterQueue ok ev pl reason b; calls := c; probes := p |}
  | step_exhausted b c p ok ev pl reason now :
      overlap = true ∨ b.(state) ≠ HALF_OPEN →
      step cfg overlap {| br := b; calls := S c; probes := p |}
        {| br := storeInDeadLetterQueue ok ev pl reason (recordFailure cfg now b); calls := c; probes := p |}
  | step_probe b b' c p :
      b.(timer) = true → probe_start b = Some b' →
      step cfg overlap {| br := b; calls := c; probes := p |} {| br := b'; calls := c; probes := S p |}
  | step_probe_end b c p ok :
      step cfg overlap {| br := b; calls := c; probes := S p |} {| br := probe_end ok b; calls := c; probes := p |}.

(** ** What a call does *)

Definition retryable (r : outcome request_error Z) : Prop :=
  ∃ e, executeRequest r = Throw e ∧ isRetryableError e = true.

Definition delivered (posts : nat → outcome request_error Z) (n i : nat) : Prop :=
  ∃ k, (k < n)%nat ∧ executeRequest (posts (i + k)%nat) = Ok tt ∧ ∀ j, (j < k)%nat → retryable (posts (i + j)%nat).

Lemma attempts_delivered cfg posts n i last : attempts cfg posts n i last = Delivered ↔ delivered posts n i.
Proof.
  revert i last. induction n as [|n IH]; intros i last; cbn [attempts].
  { split; [done|]. intros (k & Hk & _). lia. }
  destruct (executeRequest (posts i)) as [[]|e] eqn:He.
  { split; [|done]. intros _. exists 0%nat. split_and!; [lia| |lia]. by rewrite Nat.add_0_r. }
  assert (Hshift : delivered posts (S n) i ↔ retryable (posts i) ∧ delivered posts n (S i)).
  { split.
    - intros ([|k] & Hk & Hok & Hb); [rewrite Nat.add_0_r in Hok; congruence|]. split.
      + rewrite <- (Nat.add_0_r i). apply Hb. lia.
      + exists k. split_and!; [lia|by rewrite Nat.add_succ_comm|].
        intros j Hj. rewrite Nat.add_succ_comm. apply Hb. lia.
    - intros (Hr & k & Hk & Hok & Hb). exists (S k). split_and!; [lia|by rewrite <- Nat.add_succ_comm|].
      intros [|j] Hj; [by rewrite Nat.add_0_r|]. rewrite <- Nat.add_succ_comm. apply Hb. lia. }
  rewrite Hshift. destruct (isRetryableError e) eqn:Hre.
  - rewrite IH. split; [|by intros [_ ?]]. intros Hd. split; [by exists e|done].
  - split; [done|]. intros [(e' & He' & Hr) _]. congruence.
Qed.

Lemma dead_letters_recordFailure cfg now b : (recordFailure cfg now b).(dead_letters) = b.(dead_letters).
Proof. unfold recordFailure, openCircuit. destruct (_ <=? _); [|done]. by destruct (bool_decide _). Qed.

Lemma dead_letters_on_success b : (on_success b).(dead_letters) = b.(dead_letters).
Proof. unfold on_success. by destruct (bool_decide _). Qed.

(** a call with a configured service succeeds exactly when the circuit is not open and one of
    its attempts is answered after attempts that may be retried; otherwise its event is added to
    the dead letters (when the database takes it), and a successful call adds nothing there. *)
Theorem call_spec cfg dlq_ok posts now ev pl b :
  let '(r, b') := call cfg true dlq_ok posts now ev pl b in
  (r = true ↔ b.(state) ≠ OPEN ∧ delivered posts cfg.(maxRetries) 1) ∧
  (r = true → b'.(dead_letters) = b.(dead_letters) ∧ b'.(consecutiveFailures) = 0 ∧ b'.(state) = CLOSED) ∧
  (r = false → dlq_ok = true → ∃ reason,
     b'.(dead_letters) = b.(dead_letters) ++
       [{| event_type := ev; payload := pl; failure_reason := reason; retry_count := 0 |}]).
Proof.
  unfold call. cbn [negb]. case_bool_decide as Hopen.
  { split_and!; [|done|]; [split; [done|by intros [? _]]|]. intros _ ->. by eexists. }
  pose proof (attempts_delivered cfg posts (maxRetries cfg) 1 "") as Hd.
  destruct (attempts _ _ _ _ _) as [|reason|reason]; rewrite <- Hd.
  - split_and!; [done| |done]. intros _. split; [apply dead_letters_on_success|].
    unfold on_success. cbn [state]. by destruct (state b).
  - split_and!; [|done|]; [split; [done|by intros [_ ?]]|]. intros _ ->. by eexists.
  - split_and!; [|done|]; [split; [done|by intros [_ ?]]|]. intros _ ->.
    eexists. cbn. by rewrite dead_letters_recordFailure.
Qed.

(** ** The threshold *)

Definition failing_call (cfg : CircuitBreakerConfig) (b : breaker) (now : Z) : breaker :=
  (call cfg true true (λ _, Throw (AxiosError "ECONNREFUSED" None "")) now "event" "{}" b).2.

Lemma attempts_failing cfg n i last :
  ∃ l, attempts cfg (λ _, Throw (AxiosError "ECONNREFUSED" None "")) n i last = Exhausted l.
Proof. revert i last. induction n as [|n IH]; intros i last; [by eexists|]. cbn. apply IH. Qed.

Lemma failing_call_run cfg b now :
  (failing_call cfg b now).(state) =
    (if decide (b.(state) = OPEN ∨ cfg.(failureThreshold) ≤ b.(consecutiveFailures) + 1) then OPEN else b.(state)) ∧
  (failing_call cfg b now).(consecutiveFailures) =
    (if decide (b.(state) = OPEN) then b.(consecutiveFailures) else b.(consecutiveFailures) + 1).
Proof.
  unfold failing_call, call. cbn [negb].
  destruct (attempts_failing cfg (maxRetries cfg) 1 "") as [l ->].
  case_bool_decide as Ho.
  { cbn. rewrite !decide_True by tauto. done. }
  rewrite (decide_False (P := state b = OPEN)) by done. cbn [snd storeInDeadLetterQueue state consecutiveFailures].
  unfold recordFailure, openCircuit. cbn [consecutiveFailures state].
  destruct (Z.leb_spec (failureThreshold cfg) (consecutiveFailures b + 1)).
  - rewrite decide_True by tauto. by rewrite bool_decide_eq_false_2.
  - rewrite decide_False by (intros [?|?]; [done|lia]). done.
Qed.

Lemma failing_calls_run cfg ts b :
  1 ≤ cfg.(failureThreshold) → b.(consecutiveFailures) < cfg.(failureThreshold) → b.(state) = CLOSED →
  (foldl (failing_call cfg) b ts).(state) =
    (if decide (cfg.(failureThreshold) ≤ b.(consecutiveFailures) + Z.of_nat (length ts)) then OPEN else CLOSED) ∧
  (foldl (failing_call cfg) b ts).(consecutiveFailures) =
    Z.min cfg.(failureThreshold) (b.(consecutiveFailures) + Z.of_nat (length ts)).
Proof.
  intros Hth. induction ts as [|t ts IH] using rev_ind; intros Hb Hst.
  { cbn. rewrite decide_False by lia. split; [done|lia]. }
  rewrite foldl_app, length_app. cbn [foldl length]. destruct (IH Hb Hst) as [IHs IHc].
  set (b' := foldl (failing_call cfg) b ts) in *.
  destruct (failing_call_run cfg b' t) as [-> ->]. rewrite IHs, IHc.
  destruct (decide (failureThreshold cfg ≤ consecutiveFailures b + Z.of_nat (length ts))) as [H|H].
  - rewrite (decide_True (P := OPEN = OPEN)) by done. rewrite !decide_True by (first [by left|lia]).
    split; [done|lia].
  - rewrite (decide_False (P := CLOSED = OPEN)) by done.
    destruct (decide (failureThreshold cfg ≤ consecutiveFailures b + Z.of_nat (length ts + 1))).
    + rewrite decide_True by (right; lia). split; [done|lia].
    + rewrite decide_False by (intros [?|?]; [done|lia]). split; [done|lia].
Qed.

(** with no success in between, the circuit opens at exactly the configured number of failed
    calls and no sooner, whatever the times of the calls: the failure window is maintained but
    does not take part in the decision. *)
Theorem opens_at_threshold cfg ts :
  1 ≤ cfg.(failureThreshold) →
  (foldl (failing_call cfg) new_breaker ts).(state) =
  if decide (cfg.(failureThreshold) ≤ Z.of_nat (length ts)) then OPEN else CLOSED.
Proof. intros H. apply failing_calls_run; [done|cbn; lia|done]. Qed.

Lemma opens_at_threshold_witness :
  (foldl (failing_call DEFAULT_CONFIG) new_breaker [0; 1000000; 2000000; 3000000; 4000000]).(state) =
  if decide (5 ≤ Z.of_nat (length [0; 1000000; 2000000; 3000000; 4000000])) then OPEN else CLOSED.
Proof. apply (opens_at_threshold DEFAULT_CONFIG [0; 1000000; 2000000; 3000000; 4000000]). vm_compute. discriminate. Defined.

(** ** Health probes *)

(** The health probe runs exactly while the circuit is not closed, and at most
    one probe is in flight. *)
Definition watched (cfg : CircuitBreakerConfig) (s : system) : Prop :=
  match s.(br).(state) with
  | CLOSED => s.(br).(timer) = false ∧ s.(probes) = 0%nat ∧ s.(br).(consecutiveFailures) < cfg.(failureThreshold)
  | OPEN => s.(br).(timer) = true ∧ s.(probes) = 0%nat
  | HALF_OPEN => s.(br).(timer) = true ∧ s.(probes) = 1%nat
  end.

Lemma step_watched cfg s s' :
  1 ≤ cfg.(failureThreshold) → step cfg false s s' → watched cfg s → watched cfg s'.
Proof.
  intros Hth Hstep Hw. destruct Hstep as
    [b c p ok ev pl Ho|b c p Ho|b c p Ho|b c p ok ev pl reason|b c p ok ev pl reason now Ho|b b' c p Ht Hp|b c p ok];
    unfold watched in *; cbn [br probes] in *.
  - exact Hw.
  - exact Hw.
  - destruct Ho as [|Ho]; [done|]. unfold on_success. cbn [state].
    rewrite bool_decide_eq_false_2 by done. cbn [state timer consecutiveFailures].
    destruct (state b); [|done|done]. destruct Hw as (? & ? & _). split_and!; [done|done|lia].
  - exact Hw.
  - destruct Ho as [|Ho]; [done|]. cbn [state storeInDeadLetterQueue timer consecutiveFailures].
    unfold recordFailure, openCircuit. cbn [consecutiveFailures state].
    destruct (Z.leb_spec (failureThreshold cfg) (consecutiveFailures b + 1)); cbn [state timer consecutiveFailures].
    + case_bool_decide as Hs; cbn [state]; [by rewrite Hs in Hw |- *|].
      cbn. split; [done|]. destruct (state b); [by destruct Hw as (_ & ? & _)|done|done].
    + destruct (state b); [|done|done]. by destruct Hw as (? & ? & _).
  - unfold probe_start in Hp. case_bool_decide as Hh; [done|]. injection Hp as <-. cbn.
    split; [done|]. destruct (state b); [|by f_equal; apply Hw|done]. destruct Hw as [Hf _]. congruence.
  - destruct ok; cbn [probe_end closeCircuit with_state state timer consecutiveFailures];
      destruct (state b); (try (by destruct Hw as (_ & Hw & _); discriminate Hw));
      (try (by destruct Hw as (_ & Hw); discriminate Hw)); destruct Hw as [Ht Hw];
      apply Nat.succ_inj in Hw; [split_and!; [done|done|lia]|by split].
Qed.

(** C19: as long as no call ends while a health probe is in flight, in every reachable state the
    probes run exactly while the circuit is open or half open, one at a time, so an open circuit is
    always going to be probed again; and a closed one has fewer failures than the threshold. *)
Theorem open_circuit_is_watched cfg s :
  1 ≤ cfg.(failureThreshold) → rtc (step cfg false) new_system s → watched cfg s.
Proof.
  intros Hth Hrun. assert (H0 : watched cfg new_system) by (cbn; split_and!; [done|done|lia]).
  induction Hrun as [s|s s1 s2 Hstep _ IH]; [done|]. apply IH. by eapply step_watched.
Qed.

Lemma open_circuit_is_watched_witness :
  watched DEFAULT_CONFIG {| br := new_breaker; calls := 1; probes := 0 |}.
Proof.
  apply (open_circuit_is_watched DEFAULT_CONFIG); [vm_compute; discriminate|].
  apply rtc_once. by apply step_entered.
Defined.

(** An open circuit that nothing will ever probe. *)
Definition stuck (s : system) : Prop :=
  s.(br).(state) = OPEN ∧ s.(br).(timer) = false ∧ s.(probes) = 0%nat ∧ s.(calls) = 0%nat.

Lemma stuck_step cfg overlap s s' : step cfg overlap s s' → stuck s → stuck s'.
Proof.
  intros Hstep (Ho & Ht & Hp & Hc). destruct Hstep; cbn in *; try done; congruence.
Qed.

(** A call that fails all its attempts, from its entry to its end. *)
Lemma failing_call_steps cfg overlap b now :
  b.(state) ≠ OPEN → overlap = true ∨ b.(state) ≠ HALF_OPEN →
  rtc (step cfg overlap) {| br := b; calls := 0; probes := 0 |}
    {| br := storeInDeadLetterQueue false "" "" "" (recordFailure cfg now b); calls := 0; probes := 0 |}.
Proof.
  intros Ho Hh. eapply rtc_l; [by apply step_entered|]. apply rtc_once. by apply step_exhausted.
Qed.

(** a call that succeeds while a health probe is in flight closes the circuit and stops the
    probes; when the probe then fails it opens the circuit again without restarting them.  Such a
    state is reached from a new breaker, and from it every call goes to the dead letters and no
    sequence of steps leaves it. *)
Theorem circuit_can_stay_open_forever :
  ∃ s, rtc (step DEFAULT_CONFIG true) new_system s ∧ stuck s ∧
    ∀ s', rtc (step DEFAULT_CONFIG true) s s' → stuck s' ∧
      ∀ posts now ev pl, (call DEFAULT_CONFIG true true posts now ev pl s'.(br)).1 = false.
Proof.
  eexists. split_and!.
  - do 5 (etrans; [apply (failing_call_steps DEFAULT_CONFIG true _ 0); [by vm_compute|by left]|]).
    eapply rtc_l; [by apply step_probe; [vm_compute; reflexivity|vm_compute; reflexivity]|].
    eapply rtc_l; [by apply step_entered|]. eapply rtc_l; [apply step_delivered; by left|].
    apply rtc_once. by apply (step_probe_end _ _ _ _ _ false).
  - by vm_compute.
  - intros s' Hrun. match type of Hrun with rtc _ ?s0 _ => assert (Hs : stuck s0) by by vm_compute end.
    assert (Hs' : stuck s') by (clear -Hrun Hs; induction Hrun; [done|eauto using stuck_step]).
    split; [done|]. intros posts now ev pl. unfold call. cbn [negb]. destruct Hs' as [Ho _].
    by rewrite bool_decide_eq_true_2.
Qed.
