(* ===== verification/ReadWriteLock.v ===== *)
(** * The lock of the embedded database ([ReadWriteLock] in [src/src/db/index.ts])

    Requests are numbered.  A promise that is granted is a request that holds
    the lock until its release function runs; the timer of a queued request
    may fire at any time. *)

From S2P Require Import Prelude.
From stdpp Require Import relations.

Record rwlock := {
  readers : Z;
  writing : bool;
  writeQueue : list nat;
  readQueue : list nat;
}.

Definition new_lock : rwlock := {| readers := 0; writing := false; writeQueue := []; readQueue := [] |}.

(** What the caller of an acquisition gets: the lock, a no-op release (inside a
    transaction), or a place in the queue. *)
Inductive acquisition := Granted | Bypassed | Queued.

#[export] Instance acquisition_eq_dec : EqDecision acquisition.
Proof. solve_decision. Defined.

Definition acquireRead (in_transaction : bool) (id : nat) (l : rwlock) : acquisition * rwlock :=
  if in_transaction then (Bypassed, l)
  else if negb l.(writing) && bool_decide (length l.(writeQueue) = 0) then
    (Granted, {| readers := l.(readers) + 1; writing := l.(writing);
                 writeQueue := l.(writeQueue); readQueue := l.(readQueue) |})
  else (Queued, {| readers := l.(readers); writing := l.(writing);
                   writeQueue := l.(writeQueue); readQueue := l.(readQueue) ++ [id] |}).

Definition acquireWrite (in_transaction : bool) (id : nat) (l : rwlock) : acquisition * rwlock :=
  if in_transaction then (Bypassed, l)
  else if negb l.(writing) && (l.(readers) =? 0)%Z then
    (Granted, {| readers := l.(readers); writing := true;
                 writeQueue := l.(writeQueue); readQueue := l.(readQueue) |})
  else (Queued, {| readers := l.(readers); writing := l.(writing);
                   writeQueue := l.(writeQueue) ++ [id]; readQueue := l.(readQueue) |}).

(** The timer of a queued request: it leaves the queue and is rejected. *)
Definition timeout (id : nat) (l : rwlock) : rwlock :=
  {| readers := l.(readers); writing := l.(writing);
     writeQueue := List.filter (λ i, negb (i =? id)) l.(writeQueue);
     readQueue := List.filter (λ i, negb (i =? id)) l.(readQueue) |}.

(** The result names the requests that are granted: readers and a writer. *)
Definition processQueue (l : rwlock) : (list nat * list nat) * rwlock :=
  match l.(writeQueue) with
  | w :: ws =>
      if (l.(readers) =? 0)%Z && negb l.(writing) then
        (([], [w]), {| readers := l.(readers); writing := true; writeQueue := ws; readQueue := l.(readQueue) |})
      else (([], []), l)
  | [] =>
      if negb l.(writing) then
        ((l.(readQueue), []), {| readers := l.(readers) + Z.of_nat (length l.(readQueue)); writing := l.(writing);
                                 writeQueue := []; readQueue := [] |})
      else (([], []), l)
  end.

Definition releaseRead (l : rwlock) : (list nat * list nat) * rwlock :=
  processQueue {| readers := l.(readers) - 1; writing := l.(writing);
                  writeQueue := l.(writeQueue); readQueue := l.(readQueue) |}.

Definition releaseWrite (l : rwlock) : (list nat * list nat) * rwlock :=
  processQueue {| readers := l.(readers); writing := false;
                  writeQueue := l.(writeQueue); readQueue := l.(readQueue) |}.

(** ** The lock and its clients *)

Record system := { lock : rwlock; reading : list nat; writer : list nat }.

Definition new_system : system := {| lock := new_lock; reading := []; writer := [] |}.

Definition waiting (s : system) : list nat := s.(lock).(writeQueue) ++ s.(lock).(readQueue).
Definition holding (s : system) : list nat := s.(writer) ++ s.(reading).

(** The new holders after a release. *)
Definition hand_over (r : (list nat * list nat) * rwlock) (reading writer : list nat) : system :=
  {| lock := r.2; reading := reading ++ r.1.1; writer := writer ++ r.1.2 |}.

(** A release by one of the holders. *)
Inductive release : system → system → Prop :=
  | release_reader l r1 id r2 ws :
      release {| lock := l; reading := r1 ++ id :: r2; writer := ws |}
        (hand_over (releaseRead l) (r1 ++ r2) ws)
  | release_writer l rs w1 id w2 :
      release {| lock := l; reading := rs; writer := w1 ++ id :: w2 |}
        (hand_over (releaseWrite l) rs (w1 ++ w2)).

Inductive step : system → system → Prop :=
  | step_read_granted s id l :
      acquireRead false id s.(lock) = (Granted, l) →
      step s {| lock := l; reading := s.(reading) ++ [id]; writer := s.(writer) |}
  | step_write_granted s id l :
      acquireWrite false id s.(lock) = (Granted, l) →
      step s {| lock := l; reading := s.(reading); writer := s.(writer) ++ [id] |}
  | step_read_queued s id l :
      acquireRead false id s.(lock) = (Queued, l) →
      step s {| lock := l; reading := s.(reading); writer := s.(writer) |}
  | step_write_queued s id l :
      acquireWrite false id s.(lock) = (Queued, l) →
      step s {| lock := l; reading := s.(reading); writer := s.(writer) |}
  | step_timeout s id :
      step s {| lock := timeout id s.(lock); reading := s.(reading); writer := s.(writer) |}
  | step_release s s' : release s s' → step s s'.

(** ** Invariant *)

Record lock_ok (s : system) : Prop := {
  ok_readers : s.(lock).(readers) = Z.of_nat (length s.(reading));
  ok_writer : length s.(writer) = if s.(lock).(writing) then 1 else 0;
  ok_exclusive : s.(lock).(writing) = true → s.(reading) = [];
  ok_held : waiting s ≠ [] → holding s ≠ [];
}.

(** After the release the lock is free or held by readers; then the queue is processed. *)
Lemma processQueue_ok l rs :
  l.(writing) = false → l.(readers) = Z.of_nat (length rs) →
  lock_ok (hand_over (processQueue l) rs []).
Proof.
  intros Hw Hr. unfold processQueue. rewrite Hw. cbn [negb]. rewrite andb_true_r.
  destruct (writeQueue l) as [|w ws] eqn:Hq.
  - split; cbn; rewrite ?Hw; [rewrite length_app; lia|done|done|done].
  - destruct (Z.eqb_spec (readers l) 0) as [H0|H0].
    + assert (rs = []) as -> by (destruct rs; cbn in *; [done|lia]). split; cbn; [lia|done|done|done].
    + split; cbn; rewrite ?app_nil_r, ?Hw; [lia|done|done|]. intros _. destruct rs; cbn in *; [lia|done].
Qed.

Lemma release_ok s s' : release s s' → lock_ok s → lock_ok s'.
Proof.
  intros Hr Hok. destruct Hok as [H1 H2 H3 H4]. destruct Hr as [l r1 id r2 ws|l rs w1 id w2]; cbn in *.
  - destruct (writing l) eqn:Hw; [by destruct r1; discriminate (H3 eq_refl)|].
    destruct ws; [|done]. apply processQueue_ok; cbn; [done|].
    rewrite H1, !length_app. cbn. lia.
  - destruct (writing l) eqn:Hw; [|rewrite length_app in H2; cbn in H2; lia].
    rewrite length_app in H2. cbn in H2.
    destruct w1; [|cbn in H2; lia]. destruct w2; [|cbn in H2; lia].
    by apply processQueue_ok.
Qed.

Lemma step_ok s s' : step s s' → lock_ok s → lock_ok s'.
Proof.
  intros Hs Hok. destruct Hs as [s id l Ha|s id l Ha|s id l Ha|s id l Ha|s id|s s' Hr];
    [..|by eapply release_ok]; destruct Hok as [H1 H2 H3 H4].
  - unfold acquireRead in Ha. destruct (negb (writing (lock s)) && _) eqn:Hc; [|done]. injection Ha as <-. bools.
    split; cbn; [rewrite length_app; cbn; lia|done| |].
    + intros Hw. congruence.
    + intros _. unfold holding. cbn. rewrite app_assoc. intros Hn. by apply app_eq_nil in Hn as [_ ?].
  - unfold acquireWrite in Ha. destruct (negb (writing (lock s)) && _) eqn:Hc; [|done]. injection Ha as <-. bools.
    apply Z.eqb_eq in H0. rewrite H in H2. split; cbn.
    + done.
    + rewrite length_app, H2. done.
    + intros _. destruct (reading s); cbn in *; [done|lia].
    + intros _. unfold holding. cbn. intros Hn. apply app_eq_nil in Hn as [Hn _]. by apply app_eq_nil in Hn as [_ ?].
  - unfold acquireRead in Ha. destruct (negb (writing (lock s)) && _) eqn:Hc; [done|]. injection Ha as <-.
    split; cbn; [done..|]. intros _.
    destruct (writing (lock s)) eqn:Hw; [unfold holding; by destruct (writer s)|]. cbn in Hc. bools.
    apply H4. unfold waiting. by destruct (writeQueue (lock s)).
  - unfold acquireWrite in Ha. destruct (negb (writing (lock s)) && _) eqn:Hc; [done|]. injection Ha as <-.
    split; cbn; [done..|]. intros _.
    destruct (writing (lock s)) eqn:Hw; [unfold holding; by destruct (writer s)|]. cbn in Hc. apply Z.eqb_neq in Hc.
    unfold holding. destruct (writer s), (reading s); cbn in *; try done; lia.
  - split; cbn; [done..|]. intros Hw. apply H4. unfold waiting in *. cbn in Hw.
    destruct (writeQueue (lock s)), (readQueue (lock s)); done.
Qed.

Lemma reachable_ok s : rtc step new_system s → lock_ok s.
Proof.
  intros Hrun. assert (H0 : lock_ok new_system) by by split.
  induction Hrun as [s|s s1 s2 Hstep _ IH]; [done|]. apply IH. by eapply step_ok.
Qed.

(** C17: in every reachable state at most one request holds the lock for writing, none then reads,
    the counter is the number of readers, and as long as some request waits another one holds the
    lock, whose release looks at the queues: no wake-up is lost. *)
Theorem lock_is_exclusive s :
  rtc step new_system s →
  length s.(writer) ≤ 1 ∧ (s.(writer) ≠ [] → s.(reading) = []) ∧
  s.(lock).(readers) = Z.of_nat (length s.(reading)) ∧ (waiting s ≠ [] → holding s ≠ []).
Proof.
  intros [H1 H2 H3 H4]%reachable_ok. destruct (writing (lock s)); split_and!; try done; [lia|by intros _; apply H3|lia|].
  by destruct (writer s).
Qed.

Lemma lock_is_exclusive_witness :
  length [7] ≤ 1 ∧ ([7] ≠ [] → [] = @nil nat) ∧ 0%Z = Z.of_nat (length (@nil nat)) ∧
  (waiting {| lock := {| readers := 0; writing := true; writeQueue := []; readQueue := [] |}; reading := []; writer := [7] |} ≠ [] →
   holding {| lock := {| readers := 0; writing := true; writeQueue := []; readQueue := [] |}; reading := []; writer := [7] |} ≠ []).
Proof.
  apply (lock_is_exclusive {| lock := {| readers := 0; writing := true; writeQueue := []; readQueue := [] |};
                              reading := []; writer := [7] |}).
  apply rtc_once. by apply (step_write_granted new_system 7).
Defined.

(** ** Waiting requests are served *)

(** However the holders release, and if nothing else happens, [id] gets the lock. *)
Inductive served (id : nat) : system → Prop :=
  | served_now s : id ∈ holding s → served id s
  | served_later s : (∃ s', release s s') → (∀ s', release s s' → served id s') → served id s.

Lemma processQueue_keeps l rs ws :
  let s := hand_over (processQueue l) rs ws in
  length (waiting s) + length (holding s) =
    length l.(writeQueue) + length l.(readQueue) + length ws + length rs ∧
  ∀ id, id ∈ l.(writeQueue) ++ l.(readQueue) → id ∈ waiting s ∨ id ∈ holding s.
Proof.
  unfold processQueue, waiting, holding, hand_over.
  destruct (writeQueue l) as [|w q] eqn:Hq.
  - destruct (negb (writing l)); cbn; rewrite ?Hq, ?app_nil_r, ?length_app; cbn; (split; [lia|]); [|by left].
    intros id Hid. right. rewrite elem_of_app, elem_of_app. by right; right.
  - destruct ((readers l =? 0)%Z && negb (writing l)); cbn; rewrite ?Hq, ?app_nil_r, ?length_app; cbn;
      (split; [rewrite ?length_app; cbn; lia|]); [|by left].
    intros id [->|Hid]%elem_of_cons; [right|by left]. rewrite !elem_of_app. left; right. by apply list_elem_of_singleton.
Qed.

Lemma release_keeps s s' :
  release s s' →
  length (waiting s) + length (holding s) = S (length (waiting s') + length (holding s')) ∧
  ∀ id, id ∈ waiting s → id ∈ waiting s' ∨ id ∈ holding s'.
Proof.
  intros Hr. destruct Hr as [l r1 id r2 ws|l rs w1 id w2].
  - destruct (processQueue_keeps {| readers := l.(readers) - 1; writing := l.(writing);
      writeQueue := l.(writeQueue); readQueue := l.(readQueue) |} (r1 ++ r2) ws) as [Hl Hk].
    unfold releaseRead. cbn [writeQueue readQueue] in Hl, Hk. split; [|exact Hk]. rewrite Hl. unfold waiting, holding. cbn.
    rewrite !length_app. cbn. lia.
  - destruct (processQueue_keeps {| readers := l.(readers); writing := false;
      writeQueue := l.(writeQueue); readQueue := l.(readQueue) |} rs (w1 ++ w2)) as [Hl Hk].
    unfold releaseWrite. cbn [writeQueue readQueue] in Hl, Hk. split; [|exact Hk]. rewrite Hl. unfold waiting, holding. cbn.
    rewrite !length_app. cbn. lia.
Qed.

Lemma holder_releases s : holding s ≠ [] → ∃ s', release s s'.
Proof.
  destruct s as [l rs ws]. unfold holding. cbn. destruct ws as [|w ws]; cbn.
  - destruct rs as [|r rs]; [done|]. intros _. eexists. by apply (release_reader l [] r rs).
  - intros _. eexists. by apply (release_writer l rs [] w ws).
Qed.

Lemma waiting_served n s id :
  length (waiting s) + length (holding s) ≤ n → lock_ok s → id ∈ waiting s → served id s.
Proof.
  revert s. induction n as [|n IH]; intros s Hn Hok Hid.
  { destruct (waiting s); [by apply not_elem_of_nil in Hid|cbn in Hn; lia]. }
  apply served_later.
  - apply holder_releases, (ok_held s Hok). intros Hw. rewrite Hw in Hid. by apply not_elem_of_nil in Hid.
  - intros s' Hr. destruct (release_keeps s s' Hr) as [Hl Hk].
    destruct (Hk id Hid) as [Hw|Hh]; [|by apply served_now].
    apply IH; [lia|by eapply release_ok|done].
Qed.

(** C18: from every reachable state, when the holders release the lock one after the other in any
    order and no request arrives or times out, every waiting request is given the lock. *)
Theorem waiting_requests_are_served s id :
  rtc step new_system s → id ∈ waiting s → served id s.
Proof. intros Hs%reachable_ok Hid. by eapply waiting_served. Qed.

(** One reader holds the lock, a writer waits. *)
Definition reader_and_writer : system :=
  {| lock := {| readers := 1; writing := false; writeQueue := [2]; readQueue := [] |}; reading := [1]; writer := [] |}.

Lemma reader_and_writer_reachable : rtc step new_system reader_and_writer.
Proof.
  eapply rtc_l; [by apply (step_read_granted new_system 1)|].
  apply rtc_once. by apply (step_write_queued {| lock := {| readers := 1; writing := false; writeQueue := []; readQueue := [] |};
    reading := [1]; writer := [] |} 2).
Qed.

Lemma waiting_requests_are_served_witness : served 2 reader_and_writer.
Proof.
  apply (waiting_requests_are_served reader_and_writer 2);
    [apply reader_and_writer_reachable|by apply (bool_decide_unpack _)].
Defined.

(** writers go first: while one waits no new reader gets the lock.  But when the waiting writer
    times out, the readers that queued behind it are not looked at again: they go on waiting
    although only readers hold the lock, and a reader that arrives later overtakes them. *)
Theorem readers_wait_after_writer_timeout :
  (∀ id l, l.(writeQueue) ≠ [] → (acquireRead false id l).1 = Queued) ∧
  ∃ s, rtc step new_system s ∧ s.(lock).(writing) = false ∧ s.(lock).(writeQueue) = [] ∧
    s.(lock).(readQueue) = [3] ∧ s.(reading) = [1] ∧ (acquireRead false 4 s.(lock)).1 = Granted.
Proof.
  split.
  - intros id l Hq. unfold acquireRead. rewrite bool_decide_eq_false_2; [by rewrite andb_false_r|].
    by destruct (writeQueue l).
  - eexists. split_and!; [etrans; [apply reader_and_writer_reachable|]; eapply rtc_l;
      [by apply (step_read_queued reader_and_writer 3)|apply rtc_once; by apply step_timeout with (id := 2)]|..];
      by vm_compute.
Qed.
