(* ===== verification/Transactions.v ===== *)
(** * Transactions and the events they buffer ([DBWrapper.transaction] in
    [src/src/db/index.ts], [src/src/services/transactionalEvents.ts])

    A body of a transaction is a list of operations.  The database is its committed rows
    and the transaction open on each connection; with the server every transaction takes a
    connection of its own from the pool, the embedded engine is one connection for all of
    them.  What becomes of each command sent (answered, refused, or carried out with its
    answer lost), whether an engine is ready or is replaced, whether the lock is granted
    and a pooled connection acquired are arguments; commands are counted. *)

From S2P Require Import Prelude.
Local Open Scope Z_scope.

(** ** Events *)

Definition FLUSH_DEADLINE_MS : Z := 5000.

(** The dispatches [flushOnCommit] makes from [now] on: each takes the time
    [took] gives, cut off at the deadline.  The result also has the end time. *)
Fixpoint flush (took : string → Z) (now deadline : Z) (pending : list string) : list string * Z :=
  match pending with
  | [] => ([], now)
  | event :: rest =>
      let remaining := deadline - now in
      if remaining <=? 0 then ([], now)
      else let '(sent, t) := flush took (now + Z.min (took event) remaining) deadline rest in (event :: sent, t)
  end.

Lemma flush_prefix took now deadline pending : (flush took now deadline pending).1 `prefix_of` pending.
Proof.
  revert now. induction pending as [|e l IH]; intros now; cbn; [done|].
  destruct (_ <=? 0); [apply prefix_nil|].
  specialize (IH (now + Z.min (took e) (deadline - now))). destruct (flush _ _ _ l) as [sent t].
  by apply prefix_cons.
Qed.

Definition total (took : string → Z) (l : list string) : Z := foldr (λ e n, took e + n) 0 l.

Lemma total_cons took e l : total took (e :: l) = took e + total took l.
Proof. done. Qed.

Lemma total_nonneg took l : (∀ e, 0 ≤ took e) → 0 ≤ total took l.
Proof.
  intros Ht. induction l as [|x l IH]; [done|]. rewrite total_cons. specialize (Ht x). lia.
Qed.

Lemma flush_all took now deadline pending :
  (∀ e, 0 ≤ took e) → now + total took pending < deadline → (flush took now deadline pending).1 = pending.
Proof.
  intros Ht. revert now. induction pending as [|e l IH]; intros now Hd; [done|].
  rewrite total_cons in Hd. pose proof (total_nonneg took l Ht).
  pose proof (Ht e). cbn [flush]. rewrite (proj2 (Z.leb_gt _ _)) by lia. rewrite Z.min_l by lia.
  specialize (IH (now + took e)). destruct (flush took _ deadline l) as [sent t]. cbn in *. by rewrite IH by lia.
Qed.

Lemma flush_end took now deadline pending :
  (∀ e, 0 ≤ took e) → now ≤ deadline → now ≤ (flush took now deadline pending).2 ≤ deadline.
Proof.
  intros Ht. revert now. induction pending as [|e l IH]; intros now Hd; [cbn; lia|]. cbn [flush].
  destruct (Z.leb_spec (deadline - now) 0); [cbn; lia|].
  pose proof (Ht e). specialize (IH (now + Z.min (took e) (deadline - now)) ltac:(lia)).
  destruct (flush took _ deadline l) as [sent t]. cbn in *. lia.
Qed.

(** the events of a committed transaction are dispatched in the order they were buffered, each
    at most once and none out of turn; the flush ends within five seconds, and when the dispatches
    together take less than that all of them are made. *)
Theorem flush_in_order took now pending :
  (∀ e, 0 ≤ took e) →
  let '(sent, finish) := flush took now (now + FLUSH_DEADLINE_MS) pending in
  sent `prefix_of` pending ∧ now ≤ finish ≤ now + FLUSH_DEADLINE_MS ∧
  (total took pending < FLUSH_DEADLINE_MS → sent = pending).
Proof.
  intros Ht. pose proof (flush_prefix took now (now + FLUSH_DEADLINE_MS) pending) as Hp.
  pose proof (flush_all took now (now + FLUSH_DEADLINE_MS) pending Ht) as Ha.
  pose proof (flush_end took now (now + FLUSH_DEADLINE_MS) pending Ht ltac:(unfold FLUSH_DEADLINE_MS; lia)) as He.
  destruct (flush _ _ _ _) as [sent finish]. split_and!; [done|apply He|apply He|]. intros Hlt. apply Ha. lia.
Qed.

Lemma flush_in_order_witness :
  ["a"; "b"] `prefix_of` ["a"; "b"; "c"] ∧ 100 ≤ 5100 ≤ 5100 ∧
  (total (λ _, 3000) ["a"; "b"; "c"] < FLUSH_DEADLINE_MS → ["a"; "b"] = ["a"; "b"; "c"]).
Proof. apply (flush_in_order (λ _, 3000) 100 ["a"; "b"; "c"]). intros e. lia. Defined.

(** ** The database *)

(** A transaction in progress: its uncommitted rows, and whether a statement of it failed. *)
Record tx := { tx_rows : list string; tx_aborted : bool }.

Record database := {
  db_rows : list string;
  db_open : gmap nat tx;
  (** [this.client]: the embedded engine, or the pool, which commits each statement by itself *)
  db_client : nat;
  (** connections and engines made so far, and the engines that were replaced *)
  db_made : nat;
  db_replaced : gset nat;
  db_sent : nat;
}.

Inductive command := BEGIN | COMMIT | ROLLBACK | INSERT (row : string) (accepted : bool).

Definition set_tables (rows : list string) (op : gmap nat tx) (d : database) : database :=
  {| db_rows := rows; db_open := op; db_client := d.(db_client); db_made := d.(db_made);
     db_replaced := d.(db_replaced); db_sent := d.(db_sent) |}.
Definition count_command (d : database) : database :=
  {| db_rows := d.(db_rows); db_open := d.(db_open); db_client := d.(db_client); db_made := d.(db_made);
     db_replaced := d.(db_replaced); db_sent := S d.(db_sent) |}.
Definition take_connection (d : database) : database :=
  {| db_rows := d.(db_rows); db_open := d.(db_open); db_client := d.(db_client); db_made := S d.(db_made);
     db_replaced := d.(db_replaced); db_sent := d.(db_sent) |}.
(** A new engine, over the data directory or in memory; the transaction of the old one is lost. *)
Definition replace_engine (memory : bool) (d : database) : database :=
  {| db_rows := if memory then [] else d.(db_rows); db_open := delete d.(db_client) d.(db_open);
     db_client := d.(db_made); db_made := S d.(db_made); db_replaced := {[ d.(db_client) ]} ∪ d.(db_replaced);
     db_sent := d.(db_sent) |}.

(** What PostgreSQL does with a command, and whether it accepts it.  In an aborted transaction
    every statement is refused and COMMIT rolls back without an error; BEGIN inside a
    transaction and COMMIT or ROLLBACK outside one do nothing. *)
Definition perform (cmd : command) (c : nat) (d : database) : bool * database :=
  match cmd, d.(db_open) !! c with
  | BEGIN, None => (true, set_tables d.(db_rows) (<[c := {| tx_rows := []; tx_aborted := false |}]> d.(db_open)) d)
  | BEGIN, Some _ => (true, d)
  | COMMIT, Some t =>
      (true, set_tables (d.(db_rows) ++ if t.(tx_aborted) then [] else t.(tx_rows)) (delete c d.(db_open)) d)
  | ROLLBACK, _ => (true, set_tables d.(db_rows) (delete c d.(db_open)) d)
  | COMMIT, None => (true, d)
  | INSERT row accepted, None => (accepted, if accepted then set_tables (d.(db_rows) ++ [row]) d.(db_open) d else d)
  | INSERT row accepted, Some t =>
      if t.(tx_aborted) then (false, d)
      else (accepted, set_tables d.(db_rows)
              (<[c := if accepted then {| tx_rows := t.(tx_rows) ++ [row]; tx_aborted := false |}
                      else {| tx_rows := t.(tx_rows); tx_aborted := true |}]> d.(db_open)) d)
  end.

(** What becomes of a command: PostgreSQL answers it, or it fails, carried out or not, with an
    error that looks like a failure of the engine or not. *)
Inductive reply := Answered | Failing (performed exit : bool).
(** What [ensureReady] finds: the engine ready, or replaced, or unusable. *)
Inductive readiness := Ready | Replaced (memory : bool) | Unusable.
#[export] Instance reply_eq_dec : EqDecision reply.
Proof. solve_decision. Defined.


(** ** The body of a transaction *)

(** [Insert row accepted caught] is a statement PostgreSQL accepts or not, and
    [Transaction caught body] is [db.transaction(body)]; each may stand inside a [try] whose
    handler does nothing. *)
Inductive op :=
  | Insert (row : string) (accepted caught : bool)
  | Emit (event : string)
  | Fail_
  | Transaction (caught : bool) (body : list op).

(** [store] is the connection bound to the asynchronous context. *)
Record tstate := { tdb : database; store : option nat; buffer : option (list string); dispatched : list string }.

Definition with_tdb (d : database) (s : tstate) : tstate :=
  {| tdb := d; store := s.(store); buffer := s.(buffer); dispatched := s.(dispatched) |}.
Definition with_store (c : option nat) (s : tstate) : tstate :=
  {| tdb := s.(tdb); store := c; buffer := s.(buffer); dispatched := s.(dispatched) |}.
Definition with_events (b : option (list string)) (sent : list string) (s : tstate) : tstate :=
  {| tdb := s.(tdb); store := s.(store); buffer := b; dispatched := sent |}.

(** The events of the transaction in scope. *)
Definition enqueueEvent (e : string) (s : tstate) : tstate :=
  match s.(buffer) with
  | None => with_events None (s.(dispatched) ++ [e]) s
  | Some events => with_events (Some (events ++ [e])) s.(dispatched) s
  end.
Definition flushOnCommit (took : string → Z) (s : tstate) : tstate :=
  match s.(buffer) with
  | None => s
  | Some pending => with_events (Some []) (s.(dispatched) ++ (flush took 0 FLUSH_DEADLINE_MS pending).1) s
  end.
Definition discardOnRollback (s : tstate) : tstate :=
  match s.(buffer) with
  | None => s
  | Some _ => with_events (Some []) s.(dispatched) s
  end.

(** [runWithEventBuffer]: a buffer of its own only where none is in scope. *)
Definition runWithEventBuffer (m : tstate → bool * tstate) (s : tstate) : bool * tstate :=
  match s.(buffer) with
  | Some _ => m s
  | None =>
      let '(ok, s') := m (with_events (Some []) s.(dispatched) s) in
      (ok, with_events None s'.(dispatched) s')
  end.

(** What the wrapper runs against: the server or the embedded engine, and what the outside does. *)
Record setting := {
  isExternal : bool;
  took : string → Z;
  answer : nat → reply;
  ready : nat → readiness;
  granted : nat → bool;
  acquires : nat → bool;
}.

Section run.
Context (env : setting).

Definition send (cmd : command) (c : nat) (d : database) : reply * database :=
  let d1 := count_command d in
  match env.(answer) d.(db_sent) with
  | Answered => if bool_decide (c ∈ d.(db_replaced)) then (Failing false false, d1)
                else let '(accepted, d2) := perform cmd c d1 in (if accepted then Answered else Failing true false, d2)
  | Failing performed exit =>
      (Failing performed exit, if performed && negb (bool_decide (c ∈ d.(db_replaced))) then (perform cmd c d1).2 else d1)
  end.

(** [None] is an error of [ensureReady]. *)
Definition ensureReady (d : database) : option database :=
  if env.(isExternal) then Some d
  else match env.(ready) d.(db_sent) with
       | Ready => Some d
       | Replaced memory => Some (replace_engine memory d)
       | Unusable => None
       end.

(** [executeWithRetry] with the retries that are left; [next] is the connection of a retry.
    The result has the connection used last. *)
Fixpoint executeWithRetry (next : database → nat) (retries : nat) (cmd : command) (c : nat) (d : database) :
    bool * nat * database :=
  match send cmd c d with
  | (Answered, d1) => (true, c, d1)
  | (Failing _ exit, d1) =>
      match retries with
      | S k =>
          if exit && negb env.(isExternal) then
            match ensureReady d1 with
            | Some d2 => executeWithRetry next k cmd (next d2) d2
            | None => (false, c, d1)
            end
          else (false, c, d1)
      | O => (false, c, d1)
      end
  end.

(** A statement of the services: on the connection of the transaction, if there is one. *)
Definition statement (cmd : command) (s : tstate) : bool * tstate :=
  match ensureReady s.(tdb) with
  | None => (false, s)
  | Some d =>
      let conn d := default d.(db_client) s.(store) in
      let '(ok, _, d') := executeWithRetry conn 2 cmd (conn d) d in (ok, with_tdb d' s)
  end.

(** BEGIN, the body, COMMIT and the flush, or ROLLBACK, whose error is dropped. *)
Definition attempt (c : nat) (fn : tstate → bool * tstate) (s : tstate) : bool * tstate :=
  let '(began, c1, d1) := executeWithRetry db_client 2 BEGIN c s.(tdb) in
  let '(completed, s1) := if began then fn (with_tdb d1 s) else (false, with_tdb d1 s) in
  let '(committed, c2, d2) :=
    if completed then executeWithRetry db_client 2 COMMIT c1 s1.(tdb) else (false, c1, s1.(tdb)) in
  if committed then (true, flushOnCommit env.(took) (with_tdb d2 s1))
  else let '(_, _, d3) := executeWithRetry db_client 2 ROLLBACK c2 d2 in (false, discardOnRollback (with_tdb d3 s1)).

(** The connection of a transaction: one of the pool, or the engine. *)
Definition acquire (d : database) : option (nat * database) :=
  if env.(isExternal) then
    if env.(acquires) d.(db_sent) then Some (d.(db_made), take_connection d) else None
  else Some (d.(db_client), d).

Definition transaction (fn : tstate → bool * tstate) (s : tstate) : bool * tstate :=
  if negb env.(isExternal) && bool_decide (s.(store) = None) && negb (env.(granted) s.(tdb).(db_sent)) then (false, s)
  else match ensureReady s.(tdb) with
       | None => (false, s)
       | Some d =>
           match acquire d with
           | None => (false, with_tdb d s)
           | Some (c, d') =>
               let '(ok, s') := runWithEventBuffer (attempt c fn) (with_store (Some c) (with_tdb d' s)) in
               (ok, with_store s.(store) s')
           end
       end.

Definition sequence (run_op : op → tstate → bool * tstate) : list op → tstate → bool * tstate :=
  fix go body s :=
    match body with
    | [] => (true, s)
    | o :: rest => let '(ok, s') := run_op o s in if ok then go rest s' else (false, s')
    end.

Fixpoint run_op (o : op) : tstate → bool * tstate :=
  match o with
  | Insert row accepted caught => λ s, let '(ok, s') := statement (INSERT row accepted) s in (ok || caught, s')
  | Emit event => λ s, (true, enqueueEvent event s)
  | Fail_ => λ s, (false, s)
  | Transaction caught body => λ s,
      let '(ok, s') := transaction (sequence run_op body) s in (ok || caught, s')
  end.
End run.

(** ** A transaction that is not nested *)

(** The rows and the events of a body, up to its first [throw]. *)
Fixpoint rows_of (body : list op) : list string :=
  match body with
  | Insert r _ _ :: rest => r :: rows_of rest
  | Emit _ :: rest => rows_of rest
  | _ => []
  end.

Fixpoint events_of (body : list op) : list string :=
  match body with
  | Insert _ _ _ :: rest => events_of rest
  | Emit e :: rest => e :: events_of rest
  | _ => []
  end.

(** No transaction of its own, and no statement whose error it drops. *)
Definition flat (o : op) : Prop :=
  match o with Transaction _ _ => False | Insert _ _ caught => caught = false | _ => True end.

(** PostgreSQL accepts every statement and the body does not throw. *)
Definition completes (body : list op) : bool :=
  forallb (λ o, match o with Fail_ => false | Insert _ accepted _ => accepted | _ => true end) body.

(** The connection the next transaction gets has none open and is not a replaced engine. *)
Definition idle (env : setting) (d : database) : Prop :=
  if env.(isExternal) then ∀ c, (d.(db_made) ≤ c)%nat → d.(db_open) !! c = None ∧ c ∉ d.(db_replaced)
  else d.(db_open) !! d.(db_client) = None ∧ d.(db_client) ∉ d.(db_replaced).

(** The server, or an embedded engine that does not fail as an engine. *)
Definition steady (env : setting) : Prop :=
  env.(isExternal) = true ∨ ∀ n, env.(ready) n = Ready ∧ ∀ performed, env.(answer) n ≠ Failing performed true.

Section flat_bodies.
Context (env : setting) (Hsteady : steady env).

Lemma retry_once next k cmd c d :
  executeWithRetry env next k cmd c d =
  let '(r, d1) := send env cmd c d in (bool_decide (r = Answered), c, d1).
Proof.
  assert (H : ∀ n p, env.(answer) n = Failing p true → env.(isExternal) = true).
  { intros n p Hn. destruct Hsteady as [H|H]; [done|]. destruct (H n) as [_ Hp]. by apply Hp in Hn. }
  assert (Hx : ∀ p x d1, send env cmd c d = (Failing p x, d1) → x && negb env.(isExternal) = false).
  { intros p x d1. unfold send. destruct (env.(answer) _) eqn:Ha.
    - case_bool_decide; [by intros [= <- <- _]|]. destruct (perform _ _ _) as [[] ?]; [done|by intros [= <- <- _]].
    - intros [= <- <- _]. destruct exit; [|done]. by rewrite (H _ _ Ha). }
  destruct k; cbn [executeWithRetry]; destruct (send env cmd c d) as [[|p x] d1] eqn:Hs; try done.
  by rewrite (Hx _ _ _ eq_refl).
Qed.

Lemma ensureReady_steady d : ensureReady env d = Some d.
Proof.
  unfold ensureReady. destruct Hsteady as [->|H]; [done|]. destruct (env.(isExternal)); [done|].
  by destruct (H d.(db_sent)) as [-> _].
Qed.

(** A command sent on a connection touches the tables of no other one. *)
Record sent_on (c : nat) (d d' : database) : Prop := {
  so_client : d'.(db_client) = d.(db_client);
  so_made : d'.(db_made) = d.(db_made);
  so_replaced : d'.(db_replaced) = d.(db_replaced);
  so_sent : (d.(db_sent) ≤ d'.(db_sent))%nat;
  so_open : ∀ c', c' ≠ c → d'.(db_open) !! c' = d.(db_open) !! c';
}.

Lemma sent_on_refl c d : sent_on c d d.
Proof. by split. Qed.
Lemma sent_on_trans c d1 d2 d3 : sent_on c d1 d2 → sent_on c d2 d3 → sent_on c d1 d3.
Proof.
  intros [H1 H2 H3 H4 H5] [G1 G2 G3 G4 G5]. split; [congruence..|lia|]. intros c' Hc. by rewrite G5, H5.
Qed.

Lemma perform_sent_on cmd c d : sent_on c d (perform cmd c d).2.
Proof.
  unfold perform. destruct cmd; repeat case_match; cbn;
    (apply sent_on_refl || (split; cbn; try done; intros c' Hc; by rewrite ?lookup_insert_ne, ?lookup_delete_ne)).
Qed.

Lemma send_sent_on cmd c d : sent_on c d (send env cmd c d).2.
Proof.
  assert (H0 : sent_on c d (count_command d)) by (split; cbn; try done; lia).
  unfold send. destruct (env.(answer) _).
  - case_bool_decide; [done|]. pose proof (perform_sent_on cmd c (count_command d)) as Hp.
    destruct (perform _ _ _) as [[] d2]; by apply (sent_on_trans _ _ _ _ H0).
  - destruct (_ && _); [|done]. apply (sent_on_trans _ _ _ _ H0), perform_sent_on.
Qed.

(** The body of the transaction open on [c]. *)
Lemma statement_flat row accepted s c t :
  s.(store) = Some c → c ∉ s.(tdb).(db_replaced) →
  s.(tdb).(db_open) !! c = Some t → t.(tx_aborted) = false →
  let '(ok, s') := statement env (INSERT row accepted) s in
  sent_on c s.(tdb) s'.(tdb) ∧ s'.(tdb).(db_rows) = s.(tdb).(db_rows) ∧ s' = with_tdb s'.(tdb) s ∧
  (ok = true → accepted = true ∧
    s'.(tdb).(db_open) !! c = Some {| tx_rows := t.(tx_rows) ++ [row]; tx_aborted := false |}) ∧
  (env.(answer) s.(tdb).(db_sent) = Answered → accepted = true → ok = true).
Proof.
  intros Hst Hc Ht Ha. unfold statement. rewrite ensureReady_steady, Hst. cbv zeta beta. rewrite retry_once.
  change (default (db_client (tdb s)) (Some c)) with c.
  pose proof (send_sent_on (INSERT row accepted) c (tdb s)) as Hon.
  set (d2 := set_tables s.(tdb).(db_rows)
     (<[c := if accepted then {| tx_rows := t.(tx_rows) ++ [row]; tx_aborted := false |}
             else {| tx_rows := t.(tx_rows); tx_aborted := true |}]> s.(tdb).(db_open)) (count_command s.(tdb))).
  assert (Hs : send env (INSERT row accepted) c s.(tdb) =
    match env.(answer) s.(tdb).(db_sent) with
    | Answered => (if accepted then Answered else Failing true false, d2)
    | Failing performed exit => (Failing performed exit, if performed then d2 else count_command s.(tdb))
    end).
  { unfold send, perform. rewrite (bool_decide_eq_false_2 _ Hc). cbn [count_command db_open db_rows]. rewrite Ht, Ha.
    destruct (env.(answer) _) as [|[] exit]; done. }
  rewrite Hs in Hon |- *. clear Hs. destruct (env.(answer) _) as [|[] exit]; cbn [snd] in Hon.
  - destruct accepted; cbn; (split_and!; [done..| |done]); intros [=].
    split; [done|]. by rewrite lookup_insert_eq.
  - cbn. split_and!; [done..|by intros [=]|done].
  - cbn. split_and!; [done..|by intros [=]|done].
Qed.

Lemma sequence_flat body c : ∀ s t events,
  Forall flat body → s.(store) = Some c → c ∉ s.(tdb).(db_replaced) →
  s.(tdb).(db_open) !! c = Some t → t.(tx_aborted) = false → s.(buffer) = Some events →
  let '(ok, s') := sequence (run_op env) body s in
  sent_on c s.(tdb) s'.(tdb) ∧ s'.(tdb).(db_rows) = s.(tdb).(db_rows) ∧
  s'.(store) = Some c ∧ s'.(dispatched) = s.(dispatched) ∧ is_Some s'.(buffer) ∧
  (ok = true → completes body = true ∧ s'.(buffer) = Some (events ++ events_of body) ∧
    s'.(tdb).(db_open) !! c = Some {| tx_rows := t.(tx_rows) ++ rows_of body; tx_aborted := false |}) ∧
  ((∀ n, env.(answer) n = Answered) → completes body = true → ok = true).
Proof.
  induction body as [|o body IH]; intros s t events Hf Hst Hc Ht Ha Hb; cbn [sequence].
  { split_and!; [apply sent_on_refl|done..|by rewrite Hb| |done]. intros _. cbn. rewrite !app_nil_r.
    split_and!; [done..|]. rewrite Ht. destruct t. cbn in *. by subst. }
  apply Forall_cons in Hf as [Ho Hf]. destruct o as [row accepted caught|event| |]; [| | |done].
  - cbn in Ho. subst caught. cbn [run_op]. pose proof (statement_flat row accepted s c t Hst Hc Ht Ha) as H.
    destruct (statement _ _ s) as [ok s1]. destruct H as (Hon & Hr & Hs1 & Hok & Hlive). rewrite orb_false_r.
    destruct s1 as [d1 st1 b1 sent1]. injection Hs1 as -> -> ->. cbn [tdb] in Hon, Hr, Hok.
    change {| tdb := d1; store := _; buffer := _; dispatched := _ |} with (with_tdb d1 s). destruct ok.
    2:{ split_and!; [done..|by exists events|done|]. intros Hall [-> _]%andb_true_iff. by apply Hlive. }
    destruct (Hok eq_refl) as [-> Hopen].
    specialize (IH (with_tdb d1 s) {| tx_rows := t.(tx_rows) ++ [row]; tx_aborted := false |} events Hf Hst).
    cbn [with_tdb store dispatched buffer tdb] in IH. rewrite (so_replaced _ _ _ Hon) in IH.
    specialize (IH Hc Hopen eq_refl Hb).
    destruct (sequence _ body _) as [ok s2]. destruct IH as (Hon' & Hr' & Hst' & Hd' & Hb' & Hok' & Hlive').
    split_and!; [by apply (sent_on_trans _ _ _ _ Hon)|by rewrite Hr'|done..| |done].
    intros ->. destruct (Hok' eq_refl) as (Hcomp & Hbuf & Hopen'). split_and!; [done..|].
    rewrite Hopen'. cbn [rows_of tx_rows]. by rewrite <- app_assoc.
  - cbn [run_op]. unfold enqueueEvent. rewrite Hb.
    specialize (IH (with_events (Some (events ++ [event])) s.(dispatched) s) t (events ++ [event]) Hf Hst Hc Ht Ha eq_refl).
    destruct (sequence _ body _) as [ok s2]. destruct IH as (Hon' & Hr' & Hst' & Hd' & Hb' & Hok' & Hlive').
    split_and!; [done..| |done]. intros ->. destruct (Hok' eq_refl) as (Hcomp & Hbuf & Hopen').
    split_and!; [done| |done]. rewrite Hbuf. cbn [events_of]. by rewrite <- app_assoc.
  - cbn [run_op]. split_and!; [apply sent_on_refl|done..|by rewrite Hb|done|done].
Qed.

Lemma send_begin c d : c ∉ d.(db_replaced) → d.(db_open) !! c = None →
  let '(r, d1) := send env BEGIN c d in
  d1.(db_rows) = d.(db_rows) ∧
  (r = Answered → d1.(db_open) !! c = Some {| tx_rows := []; tx_aborted := false |}) ∧
  (env.(answer) d.(db_sent) = Answered → r = Answered).
Proof.
  intros Hc Hn. unfold send, perform. rewrite (bool_decide_eq_false_2 _ Hc). cbn [count_command db_open db_rows].
  rewrite Hn. destruct (env.(answer) _) as [|[] exit]; cbn; split_and!; try done. intros _. by rewrite lookup_insert_eq.
Qed.

Lemma send_commit c d l : c ∉ d.(db_replaced) →
  d.(db_open) !! c = Some {| tx_rows := l; tx_aborted := false |} →
  let '(r, d1) := send env COMMIT c d in
  (r = Answered → d1.(db_rows) = d.(db_rows) ++ l ∧ d1.(db_open) !! c = None) ∧
  (r ≠ Answered → d1.(db_rows) = d.(db_rows) ∨
     d1.(db_rows) = d.(db_rows) ++ l ∧ ∃ exit, env.(answer) d.(db_sent) = Failing true exit) ∧
  (env.(answer) d.(db_sent) = Answered → r = Answered) ∧ d1.(db_sent) = S d.(db_sent).
Proof.
  intros Hc Hn. unfold send, perform. rewrite (bool_decide_eq_false_2 _ Hc). cbn [count_command db_open db_rows].
  rewrite Hn. destruct (env.(answer) _) as [|[] exit]; cbn; split_and!; try done; intros _.
  - by rewrite lookup_delete_eq.
  - right. split; [done|]. by exists exit.
  - by left.
Qed.

Lemma send_rollback_rows c d : (send env ROLLBACK c d).2.(db_rows) = d.(db_rows).
Proof.
  unfold send, perform. destruct (env.(answer) _) as [|[] exit]; cbn; [|case_bool_decide|]; try done.
  by case_bool_decide.
Qed.

(** A COMMIT between the [n]-th command and the [m]-th that was carried out and not answered. *)
Definition answer_lost (n m : nat) : Prop :=
  ∃ i exit, (n ≤ i < m)%nat ∧ env.(answer) i = Failing true exit.

(** What a transaction that threw leaves: nothing, unless the answer to its COMMIT was lost. *)
Definition undone (body : list op) (d d' : database) : Prop :=
  d'.(db_rows) = d.(db_rows) ∨
  completes body = true ∧ d'.(db_rows) = d.(db_rows) ++ rows_of body ∧ answer_lost d.(db_sent) d'.(db_sent).

Lemma attempt_flat c body s :
  Forall flat body → s.(store) = Some c → s.(buffer) = Some [] →
  c ∉ s.(tdb).(db_replaced) → s.(tdb).(db_open) !! c = None →
  let '(ok, s') := attempt env c (sequence (run_op env) body) s in
  sent_on c s.(tdb) s'.(tdb) ∧ s'.(store) = Some c ∧
  (if ok then completes body = true ∧ s'.(tdb).(db_rows) = s.(tdb).(db_rows) ++ rows_of body ∧
      s'.(tdb).(db_open) !! c = None ∧
      s'.(dispatched) = s.(dispatched) ++ (flush env.(took) 0 FLUSH_DEADLINE_MS (events_of body)).1
    else s'.(dispatched) = s.(dispatched) ∧ undone body s.(tdb) s'.(tdb)) ∧
  ((∀ n, env.(answer) n = Answered) → completes body = true → ok = true).
Proof.
  intros Hf Hst Hb Hc Hn. unfold attempt. rewrite retry_once.
  pose proof (send_sent_on BEGIN c s.(tdb)) as Hon0. pose proof (send_begin c s.(tdb) Hc Hn) as Hbegin.
  destruct (send env BEGIN c s.(tdb)) as [r0 d1]. cbn [snd] in Hon0. destruct Hbegin as (Hr0 & Hok0 & Hl0).
  assert (Hroll : ∀ d s1, s1.(store) = Some c → sent_on c s.(tdb) d → s1.(dispatched) = s.(dispatched) →
    undone body s.(tdb) d →
    let s' := discardOnRollback (with_tdb (send env ROLLBACK c d).2 s1) in
    sent_on c s.(tdb) s'.(tdb) ∧ s'.(store) = Some c ∧ s'.(dispatched) = s.(dispatched) ∧ undone body s.(tdb) s'.(tdb)).
  { intros d s1 Hs1 Hd Hdis Hu. assert (Htdb : ∀ x, tdb (discardOnRollback x) = tdb x) by (intros x; unfold discardOnRollback; by destruct (buffer x)).
    cbn zeta. rewrite Htdb. cbn [with_tdb tdb]. split_and!.
    - by apply (sent_on_trans _ _ _ _ Hd), send_sent_on.
    - unfold discardOnRollback. cbn [with_tdb buffer]. by destruct (buffer s1).
    - unfold discardOnRollback. cbn [with_tdb buffer]. by destruct (buffer s1).
    - unfold undone in *. rewrite send_rollback_rows. destruct Hu as [Hu|(Hcomp & Hu & i & exit & Hi & Ha)]; [by left|].
      right. split_and!; [done..|]. exists i, exit. split; [|done].
      pose proof (so_sent _ _ _ (send_sent_on ROLLBACK c d)). lia. }
  case_bool_decide as Hr; [subst r0|].
  2:{ rewrite retry_once. change (tdb (with_tdb d1 s)) with d1. specialize (Hroll d1 (with_tdb d1 s) Hst Hon0 eq_refl ltac:(by left)).
      destruct (send env ROLLBACK c d1) as [r d2]. cbn zeta in Hroll. destruct Hroll as (H1 & H2 & H3 & H4). cbv beta iota zeta.
      split_and!; [done..|]. intros Hall _. by destruct Hr; apply Hl0. }
  pose proof (sequence_flat body c (with_tdb d1 s) _ [] Hf Hst
    ltac:(cbn [with_tdb tdb]; by rewrite (so_replaced _ _ _ Hon0)) (Hok0 eq_refl) eq_refl Hb) as Hseq.
  destruct (sequence _ body _) as [ok s1]. destruct Hseq as (Hon1 & Hr1 & Hst1 & Hd1 & Hb1 & Hok1 & Hl1).
  cbn [with_tdb tdb dispatched] in *.
  assert (Hon : sent_on c (tdb s) (tdb s1)) by by apply (sent_on_trans _ _ _ _ Hon0).
  destruct ok.
  2:{ rewrite retry_once. specialize (Hroll (tdb s1) s1 Hst1 Hon Hd1 ltac:(left; congruence)).
      destruct (send env ROLLBACK c (tdb s1)) as [r d2]. cbn zeta in Hroll. destruct Hroll as (H1 & H2 & H3 & H4). cbv beta iota zeta.
      split_and!; done. }
  destruct (Hok1 eq_refl) as (Hcomp & Hbuf & Hopen). rewrite retry_once.
  pose proof (send_sent_on COMMIT c (tdb s1)) as Hon2.
  pose proof (send_commit c (tdb s1) (rows_of body) ltac:(by rewrite (so_replaced _ _ _ Hon)) Hopen) as Hcm.
  destruct (send env COMMIT c (tdb s1)) as [r2 d2]. cbn [snd] in Hon2. destruct Hcm as (Hyes & Hno & Hl2 & Hn2).
  case_bool_decide as Hr2; [subst r2|].
  - destruct (Hyes eq_refl) as [Hrows Hclosed]. unfold flushOnCommit. cbn [with_tdb buffer]. rewrite Hbuf. cbn [app with_events tdb store dispatched with_tdb].
    split_and!; [by apply (sent_on_trans _ _ _ _ Hon)|done|done|congruence|done|by rewrite Hd1|done].
  - assert (Hu : undone body (tdb s) d2).
    { destruct (Hno Hr2) as [He|[He [exit Ha]]]; [left; congruence|right]. split_and!; [done|congruence|].
      exists (db_sent (tdb s1)), exit. split; [|done]. pose proof (so_sent _ _ _ Hon). lia. }
    rewrite retry_once. specialize (Hroll d2 s1 Hst1 (sent_on_trans _ _ _ _ Hon Hon2) Hd1 Hu).
    destruct (send env ROLLBACK c d2) as [r d3]. cbn zeta in Hroll. destruct Hroll as (H1 & H2 & H3 & H4). cbv beta iota zeta.
    split_and!; [done..|]. intros Hall _. by destruct Hr2; apply Hl2.
Qed.

Lemma acquire_idle d c d' : idle env d → acquire env d = Some (c, d') →
  c ∉ d'.(db_replaced) ∧ d'.(db_open) !! c = None ∧ d'.(db_rows) = d.(db_rows) ∧ d'.(db_sent) = d.(db_sent) ∧
  (∀ d'', sent_on c d' d'' → env.(isExternal) = true ∨ d''.(db_open) !! c = None → idle env d'').
Proof.
  unfold idle, acquire. destruct env.(isExternal).
  - destruct (env.(acquires) _); [|done]. intros Hi [= <- <-]. destruct (Hi (db_made d) (le_n _)) as [Ho Hr].
    split_and!; [done..|]. intros d'' [Hcl Hm Hrep _ Hop] _ c Hc. cbn in Hm, Hop, Hrep. rewrite Hm in Hc.
    rewrite Hrep, Hop by lia. apply Hi. lia.
  - intros [Ho Hr] [= <- <-]. split_and!; [done..|]. intros d'' [Hcl Hm Hrep _ Hop] [|Hn]; [done|].
    by rewrite Hcl, Hrep.
Qed.
End flat_bodies.

(** C16: a transaction that is not nested is all or nothing. It runs on the server, over a
    connection of its own, or on the embedded engine as long as that does not fail as an
    engine, and no transaction is open there yet; its body lets the error of a refused statement through; nothing is assumed of the
    answers, the lock and the pool. Either the body ran to its end without a refused
    statement and the COMMIT was answered: then all its rows are in the table and its events
    are dispatched in the order they were buffered, all of them if that takes less than five
    seconds and otherwise those begun by then. Or the transaction throws: then no event of it is
    ever dispatched and the table is as before, unless the answer to a COMMIT that was
    carried out got lost, in which case all its rows are in the table. The event buffer
    and the connection of the context are as they were, and when every command is answered
    and the lock and a connection are granted, a body that can complete does. *)
Theorem flat_transaction_atomic env caught body s :
  steady env → Forall flat body → idle env s.(tdb) → s.(buffer) = None → s.(store) = None →
  let '(ok, s') := run_op env (Transaction caught body) s in
  ∃ done_ : bool, ok = done_ || caught ∧ s'.(buffer) = None ∧ s'.(store) = None ∧
  (if done_ then
     completes body = true ∧ idle env s'.(tdb) ∧ s'.(tdb).(db_rows) = s.(tdb).(db_rows) ++ rows_of body ∧
     ∃ sent, s'.(dispatched) = s.(dispatched) ++ sent ∧ sent `prefix_of` events_of body ∧
       ((∀ e, 0 ≤ env.(took) e) → total env.(took) (events_of body) < FLUSH_DEADLINE_MS → sent = events_of body)
   else s'.(dispatched) = s.(dispatched) ∧ undone env body s.(tdb) s'.(tdb)) ∧
  ((∀ n, env.(answer) n = Answered ∧ env.(granted) n = true ∧ env.(acquires) n = true) →
   completes body = true → done_ = true).
Proof.
  intros Hsteady Hf Hidle Hb Hst. cbn [run_op]. unfold transaction.
  rewrite Hst, bool_decide_eq_true_2 by done. rewrite andb_true_r.
  destruct (negb (isExternal env) && negb (granted env _)) eqn:Hlock.
  { exists false. split_and!; [done..|by left|]. intros Hall _. destruct (Hall (db_sent (tdb s))) as (_ & Hg & _).
    rewrite Hg, andb_false_r in Hlock. done. }
  rewrite (ensureReady_steady env Hsteady).
  destruct (acquire env (tdb s)) as [[c d']|] eqn:Hacq.
  2:{ exists false. split_and!; [done..|by left|]. intros Hall _. destruct (Hall (db_sent (tdb s))) as (_ & _ & Ha).
      unfold acquire in Hacq. rewrite Ha in Hacq. by destruct (isExternal env). }
  destruct (acquire_idle env _ _ _ Hidle Hacq) as (Hc & Hn & Hrows & Hsent & Hback).
  unfold runWithEventBuffer. cbn [with_store with_tdb buffer]. rewrite Hb.
  pose proof (attempt_flat env Hsteady c body
    (with_events (Some []) (dispatched s) (with_store (Some c) (with_tdb d' s))) Hf eq_refl eq_refl Hc Hn) as Hat.
  cbn [with_events with_store with_tdb tdb dispatched] in Hat |- *.
  destruct (attempt env c _ _) as [ok s']. destruct Hat as (Hon & Hst' & Hres & Hlive).
  exists ok. cbn [with_events with_store tdb dispatched buffer store]. split_and!; [done..| |].
  - destruct ok; [|by unfold undone in *; rewrite Hrows, Hsent in Hres].
    destruct Hres as (Hcomp & Hr & Ho & Hd). split_and!; [done|apply (Hback _ Hon); by right|by rewrite Hr, Hrows|].
    eexists. split_and!; [exact Hd|apply flush_prefix|]. intros Htook Htot. by apply flush_all.
  - intros Hall. apply Hlive. intros n. by apply Hall.
Qed.

Definition calm (external : bool) : setting :=
  {| isExternal := external; took := λ _, 10; answer := λ _, Answered; ready := λ _, Ready;
     granted := λ _, true; acquires := λ _, true |}.
Definition start (rows : list string) : tstate :=
  {| tdb := {| db_rows := rows; db_open := ∅; db_client := 0; db_made := 1; db_replaced := ∅; db_sent := 0 |};
     store := None; buffer := None; dispatched := [] |}.
Definition sample_body : list op := [Insert "plan" true false; Emit "plan.created"; Insert "log" true false].

Lemma flat_transaction_atomic_witness :
  let '(ok, s') := run_op (calm true) (Transaction false sample_body) (start ["old"]) in
  ok = true ∧ s'.(tdb).(db_rows) = ["old"; "plan"; "log"] ∧ s'.(dispatched) = ["plan.created"].
Proof.
  pose proof (flat_transaction_atomic (calm true) false sample_body (start ["old"]) ltac:(by left)
    ltac:(repeat constructor) ltac:(intros c _; split; [reflexivity|apply (bool_decide_unpack _); reflexivity])
    eq_refl eq_refl) as Hs.
  destruct (run_op _ _ _) as [ok s']. destruct Hs as (done_ & -> & _ & _ & Hres & Hlive).
  specialize (Hlive ltac:(by intros) eq_refl) as ->.
  destruct Hres as (_ & _ & Hrows & sent & Hd & _ & Hall).
  rewrite (Hall ltac:(by intros) ltac:(vm_compute; reflexivity)) in Hd. by split_and!.
Defined.

(** ** Where a transaction is not all or nothing *)

(** a body that drops the error of a refused statement leaves the transaction aborted: its COMMIT
    is then answered although it rolls back, so the transaction reports success with nothing
    written, and its events are dispatched. *)
Theorem dropped_error_reports_success external rows :
  let '(ok, s) := run_op (calm external)
    (Transaction false [Insert "plan" true false; Emit "plan.created"; Insert "duplicate" false true]) (start rows) in
  ok = true ∧ s.(tdb).(db_rows) = rows ∧ s.(dispatched) = ["plan.created"].
Proof. destruct external; vm_compute; split_and!; try done; apply (app_nil_r rows). Qed.

(** An embedded engine that fails on its third command, the COMMIT, and is replaced. *)
Definition failing_commit : setting :=
  {| isExternal := false; took := λ _, 10; answer := λ n, if bool_decide (n = 2)%nat then Failing false true else Answered;
     ready := λ n, if bool_decide (n = 3)%nat then Replaced false else Ready; granted := λ _, true; acquires := λ _, true |}.

(** a COMMIT that is sent again to a new engine finds no transaction there and is answered: the
    transaction reports success with its rows lost. *)
Theorem retried_commit_loses_rows rows :
  let '(ok, s) := run_op failing_commit (Transaction false [Insert "plan" true false; Emit "plan.created"]) (start rows) in
  ok = true ∧ s.(tdb).(db_rows) = rows ∧ s.(dispatched) = ["plan.created"].
Proof. vm_compute. by split_and!. Qed.

(** ** Nested transactions *)

Section nested.
Context (outer inner event : string).

(** A body that inserts, emits, runs a transaction of its own and then fails. *)
Definition nested_body : list op :=
  [Insert outer true false; Emit event; Transaction false [Insert inner true false]; Fail_].

(** a transaction inside a transaction is not part of it: when the outer one fails after the
    inner one has committed, the inner rows stay (with the embedded engine the rows the outer one
    had written as well), and the events the outer one had buffered have already been dispatched. *)
Theorem nested_commit_is_final rows :
  (let '(ok, s) := run_op (calm true) (Transaction false nested_body) (start rows) in
   ok = false ∧ s.(tdb).(db_rows) = rows ++ [inner] ∧ s.(dispatched) = [event]) ∧
  (let '(ok, s) := run_op (calm false) (Transaction false nested_body) (start rows) in
   ok = false ∧ s.(tdb).(db_rows) = rows ++ [outer; inner] ∧ s.(dispatched) = [event]).
Proof. split; vm_compute; by split_and!. Qed.
End nested.
