(* ===== verification/Pagination.v ===== *)
(** * Offset paging ([utils/paginationService.ts], [utils/pagination.ts],
    [services/countCache.ts])

    Page numbers and sizes from the query string, the page of a result, the
    meta data that announces further pages, and the cache of total counts. *)

From S2P Require Import Prelude JsMap JsStrings JsNumbers Json.
Local Open Scope Z_scope.

Definition DEFAULT_PAGE : Z := 1.
Definition DEFAULT_PAGE_SIZE : Z := 20.
Definition MAX_PAGE_SIZE : Z := 100.

(** ** [utils/paginationService.ts] *)

Record ParsedPaginationParams := mkParams { page : Z; pageSize : Z; offset : Z }.

(** The value of an integer number. *)
Definition integer_value (x : js_num) : Z := match x with Finite q => Qfloor q | _ => 0 end.

(** [value] is what [String(value)] gives. *)
Definition validatePaginationParam (value paramName : string) : outcome app_error Z :=
  let strValue := trim value in
  let numValue := js_Number strValue in
  if bool_decide (strValue = "") || isNaN numValue then
    Throw (ValidationError (paramName +:+ ": numeric"))
  else if negb (isInteger numValue) then Throw (ValidationError (paramName +:+ ": integer"))
  else if js_lt numValue (int 1) then Throw (ValidationError (paramName +:+ ": min"))
  else Ok (integer_value numValue).

(** The two query parameters; [None] is [undefined] or [null]. *)
Definition present (value : option string) : option string :=
  v ← value; if bool_decide (v = "") then None else Some v.

Definition parsePaginationParams (qPage qPageSize : option string)
    : outcome app_error ParsedPaginationParams :=
  match match present qPage with
        | Some v => validatePaginationParam v "page"
        | None => Ok DEFAULT_PAGE end with
  | Throw e => Throw e
  | Ok p =>
      match match present qPageSize with
            | Some v => match validatePaginationParam v "pageSize" with
                        | Ok n => Ok (if MAX_PAGE_SIZE <? n then MAX_PAGE_SIZE else n)
                        | Throw e => Throw e end
            | None => Ok DEFAULT_PAGE_SIZE end with
      | Throw e => Throw e
      | Ok ps => Ok (mkParams p ps ((p - 1) * ps))
      end
  end.

Record PaginationMeta := mkMeta {
  meta_page : Z; meta_pageSize : Z; total : Z; totalPages : Z; hasNext : bool; hasPrev : bool }.

(** [Math.ceil(a / b)] for a positive [b] *)
Definition ceil_div (a b : Z) : Z := (a + b - 1) / b.

Definition computePaginationMeta (page pageSize total : Z) : PaginationMeta :=
  let totalPages := if total =? 0 then 0 else ceil_div total pageSize in
  mkMeta page pageSize total totalPages (page <? totalPages) (1 <? page).

Definition decimal (n : Z) : string := if n <? 0 then "-" +:+ pretty (Z.to_N (- n)) else pretty (Z.to_N n).

Definition paginateQuery (query : string) (page pageSize : Z) : string :=
  query +:+ " LIMIT " +:+ decimal pageSize +:+ " OFFSET " +:+ decimal ((page - 1) * pageSize).

(** ** [utils/pagination.ts] *)

Record PaginationParams := mkPaging { pg_page : Z; pg_limit : Z; pg_offset : Z }.

(** [parseInt] of an absent parameter is [NaN]. *)
Definition query_int (v : option string) : js_num :=
  match v with Some s => parseInt s | None => NaN end.

Definition getPaginationParams (qPage qLimit : option string) : PaginationParams :=
  let page := integer_value (js_max (int 1) (js_or (query_int qPage) 1)) in
  let limit := integer_value (js_min (int 100) (js_max (int 1) (js_or (query_int qLimit) 20))) in
  mkPaging page limit ((page - 1) * limit).

Definition createPaginatedResponse {A} (data : list A) (total : Z) (params : PaginationParams)
    : list A * PaginationMeta :=
  let totalPages := ceil_div total (pg_limit params) in
  (data, mkMeta (pg_page params) (pg_limit params) total totalPages
           (pg_page params <? totalPages) (1 <? pg_page params)).

Definition paginationSQL (params : PaginationParams) : string :=
  "LIMIT " +:+ decimal (pg_limit params) +:+ " OFFSET " +:+ decimal (pg_offset params).

(** ** What [LIMIT n OFFSET k] selects from an ordered result *)

Definition limit_offset {A} (limit offset : Z) (rows : list A) : list A :=
  take (Z.to_nat limit) (drop (Z.to_nat offset) rows).

Definition page_rows {A} (pageSize page : Z) (rows : list A) : list A :=
  limit_offset pageSize ((page - 1) * pageSize) rows.

(** ** [services/countCache.ts] *)

Record CountCacheEntry := mkCount { value : Z; expiresAt : Z }.
Definition count_cache := list (string * CountCacheEntry).

Definition COUNT_CACHE_TTL_MS : Z := 60000.

(** [loader] is the count the database answers, or the error it fails with;
    [now] is read when the call starts. *)
Definition getCachedCount (key : string) (loader : outcome app_error Z) (ttlMs now : Z)
    : action app_error count_cache Z := λ cache,
  let reload :=
    match loader with
    | Ok v => (Ok v, map_set key (mkCount v (now + ttlMs)) cache)
    | Throw e => (Throw e, cache)
    end in
  match map_get key cache with
  | Some entry => if now <? expiresAt entry then (Ok (value entry), cache) else reload
  | None => reload
  end.

(** The character U+0000 between the parts. *)
Definition NUL : string := String (ascii_of_N 0) "".

Definition buildCountCacheKey (tableName whereClause : string) (whereValues : list json) : string :=
  tableName +:+ NUL +:+ whereClause +:+ NUL +:+ stringify (JArr whereValues).

Definition clearCountCache : action app_error count_cache unit := λ _, (Ok tt, []).

(** ** Properties *)

Lemma validatePaginationParam_Ok v w n : validatePaginationParam v w = Ok n → 1 <= n.
Proof.
  unfold validatePaginationParam. destruct (_ || _); [done|].
  destruct (js_Number (trim v)) as [q|[]|]; cbn [isInteger js_lt int negb integer_value]; try done.
  destruct (Qeq_bool q _) eqn:Hi; [|done]. apply Qeq_bool_iff in Hi. cbn [negb].
  destruct (Qle_bool _ q) eqn:Hle; [|done]. cbn [negb]. intros [= <-].
  apply Qle_bool_iff in Hle. rewrite Hi in Hle. by rewrite <- Zle_Qle in Hle.
Qed.

Lemma validatePaginationParam_Throw v w e :
  validatePaginationParam v w = Throw e → ∃ m, e = ValidationError m.
Proof. unfold validatePaginationParam. repeat case_match; intros [= <-]; by eexists. Qed.

(** whatever the query string holds, [parsePaginationParams] either throws a
    validation error or returns a page from 1, a size from 1 to 100 and the
    offset of that page; without parameters it returns the first twenty rows. *)
Theorem parsePaginationParams_bounds qPage qPageSize :
  match parsePaginationParams qPage qPageSize with
  | Ok p => 1 <= page p /\ 1 <= pageSize p <= MAX_PAGE_SIZE /\
            offset p = (page p - 1) * pageSize p /\
            (present qPage = None -> page p = DEFAULT_PAGE) /\
            (present qPageSize = None -> pageSize p = DEFAULT_PAGE_SIZE)
  | Throw e => exists w, e = ValidationError w
  end.
Proof.
  unfold parsePaginationParams.
  destruct (match present qPage with Some v => _ | None => _ end) as [p|e] eqn:Hp.
  2:{ destruct (present qPage); [by eapply validatePaginationParam_Throw|done]. }
  assert (1 <= p ∧ (present qPage = None → p = DEFAULT_PAGE)) as [Hp1 Hp2].
  { destruct (present qPage); [|by injection Hp as <-].
    apply validatePaginationParam_Ok in Hp. done. }
  destruct (present qPageSize) as [v|].
  - destruct (validatePaginationParam v "pageSize") as [n|e] eqn:Hn.
    + apply validatePaginationParam_Ok in Hn. cbn [page pageSize offset].
      unfold MAX_PAGE_SIZE. destruct (Z.ltb_spec 100 n); split_and!; auto; lia || done.
    + by eapply validatePaginationParam_Throw.
  - cbn [page pageSize offset]. unfold MAX_PAGE_SIZE, DEFAULT_PAGE_SIZE. split_and!; auto; lia.
Qed.

Lemma integer_value_int z : integer_value (int z) = z.
Proof. unfold integer_value, int. apply Qfloor_Z. Qed.

(** the lenient reader never fails: page from 1, limit from 1 to 100, for
    every query string. *)
Theorem getPaginationParams_bounds qPage qLimit :
  let p := getPaginationParams qPage qLimit in
  1 <= pg_page p /\ 1 <= pg_limit p <= 100 /\ pg_offset p = (pg_page p - 1) * pg_limit p.
Proof.
  assert (H : ∀ v d, 1 <= d → ∃ z, js_max (int 1) (js_or (query_int v) d) = int z ∧ 1 <= z).
  { intros v d Hd. assert (query_int v = NaN ∨ ∃ z, query_int v = int z) as [->|[z ->]]
      by (destruct v; [apply parseInt_cases|by left]).
    - cbn [js_or]. rewrite js_max_int. eexists. split; [done|lia].
    - rewrite js_or_int, js_max_int. eexists. split; [done|lia]. }
  unfold getPaginationParams. cbn [pg_page pg_limit pg_offset].
  destruct (H qPage 1) as (p & -> & Hp); [lia|]. destruct (H qLimit 20) as (l & -> & Hl); [lia|].
  rewrite js_min_int, !integer_value_int. lia.
Qed.

Lemma ceil_div_spec a b : 0 < b → 0 <= a → 0 <= ceil_div a b ∧ (ceil_div a b - 1) * b < a <= ceil_div a b * b ∨ a = 0 ∧ ceil_div a b = 0.
Proof.
  intros Hb Ha. unfold ceil_div. destruct (decide (a = 0)) as [->|].
  - right. split; [done|]. apply Z.div_small. lia.
  - left. split; [apply Z.div_pos; lia|].
    pose proof (Z.div_mod (a + b - 1) b). pose proof (Z.mod_pos_bound (a + b - 1) b Hb). nia.
Qed.

Lemma page_rows_nil {A} ps k (rows : list A) :
  0 < ps → 0 < k → page_rows ps k rows = [] ↔ Z.of_nat (length rows) <= (k - 1) * ps.
Proof.
  intros Hps Hk. unfold page_rows, limit_offset.
  rewrite <- length_zero_iff_nil, length_take, length_drop. nia.
Qed.

Lemma take_pages {A} ps (rows : list A) (n : nat) :
  0 < ps →
  concat (map (λ k, page_rows ps k rows) (seqZ 1 (Z.of_nat n))) = take (n * Z.to_nat ps) rows.
Proof.
  intros Hps. induction n as [|n IH]; [done|].
  rewrite seqZ_S, map_app, concat_app, IH. cbn [map concat].
  rewrite app_nil_r. unfold page_rows, limit_offset.
  replace (Z.to_nat ((1 + Z.of_nat n - 1) * ps)) with (n * Z.to_nat ps)%nat by nia.
  rewrite take_take_drop. f_equal. lia.
Qed.

(** walking the pages 1 to [totalPages] of a result returns every row
    exactly once and in order, and [hasNext] announces a further page exactly
    when there is one. *)
Theorem pages_cover_result {A} (pageSize : Z) (rows : list A) (p : Z)
    (Hsize : 0 < pageSize) (Hpage : 0 < p) :
  let meta := computePaginationMeta p pageSize (Z.of_nat (length rows)) in
  concat (map (fun k => page_rows pageSize k rows) (seqZ 1 (totalPages meta))) = rows /\
  (hasNext meta = true <-> page_rows pageSize (p + 1) rows <> []) /\
  (hasPrev meta = true <-> 1 < p).
Proof.
  cbn zeta. unfold computePaginationMeta. cbn [totalPages hasNext hasPrev].
  set (t := Z.of_nat (length rows)). assert (Ht : 0 <= t) by (unfold t; lia).
  set (n := if t =? 0 then 0 else ceil_div t pageSize).
  assert (Hn : 0 <= n ∧ (n - 1) * pageSize < t <= n * pageSize ∨ t = 0 ∧ n = 0).
  { unfold n. destruct (Z.eqb_spec t 0); [by right|].
    destruct (ceil_div_spec t pageSize) as [?|[? ?]]; auto; lia. }
  split_and!.
  - rewrite <- (Z2Nat.id n) by lia. rewrite take_pages by done. apply take_ge. unfold t in *. nia.
  - rewrite page_rows_nil by lia. fold t. replace (p + 1 - 1) with p by lia.
    rewrite Z.ltb_lt. nia.
  - by rewrite Z.ltb_lt.
Qed.

Lemma pages_cover_result_witness :
  0 < 2 /\ 0 < 1 /\ concat (map (fun k => page_rows 2 k [10; 20; 30]) (seqZ 1 2)) = [10; 20; 30].
Proof.
  split; [lia|]. split; [lia|].
  exact (proj1 (pages_cover_result 2 [10; 20; 30] 1 ltac:(lia) ltac:(lia))).
Defined.

(** *** The cache of counts *)

(** A call: its key, what the database would answer, the clock. *)
Record count_call := mkCall { call_key : string; call_loader : outcome app_error Z; call_now : Z }.

Definition count_step (ttl : Z) (cache : count_cache) (c : count_call) : count_cache :=
  (getCachedCount (call_key c) (call_loader c) ttl (call_now c) cache).2.
Definition count_run (ttl : Z) (calls : list count_call) : count_cache :=
  foldl (count_step ttl) [] calls.

Lemma count_run_entries ttl calls key e :
  map_get key (count_run ttl calls) = Some e →
  ∃ c, c ∈ calls ∧ call_key c = key ∧ call_loader c = Ok (value e) ∧ expiresAt e = call_now c + ttl.
Proof.
  unfold count_run. induction calls as [|c calls IH] using rev_ind; [done|].
  rewrite foldl_app. cbn [foldl]. set (cache := foldl (count_step ttl) [] calls) in *.
  assert (Hkeep : map_get key cache = Some e → ∃ c', c' ∈ calls ++ [c] ∧ call_key c' = key ∧
      call_loader c' = Ok (value e) ∧ expiresAt e = call_now c' + ttl).
  { intros (c' & Hin & Hc')%IH. exists c'. set_solver. }
  unfold count_step, getCachedCount.
  destruct (match map_get _ _ with Some _ => _ | None => _ end) as [r cache'] eqn:Hrun. cbn [snd].
  assert (cache' = cache ∨ ∃ v, call_loader c = Ok v ∧
      cache' = map_set (call_key c) (mkCount v (call_now c + ttl)) cache) as [->|(v & Hv & ->)].
  { destruct (map_get (call_key c) cache) as [e'|].
    - destruct (_ <? _); [injection Hrun as _ <-; by left|].
      destruct (call_loader c); injection Hrun as _ <-; [right; by eexists|by left].
    - destruct (call_loader c); injection Hrun as _ <-; [right; by eexists|by left]. }
  { done. }
  intros H. destruct (decide (key = call_key c)) as [->|Hne].
  - rewrite map_get_set_eq in H. injection H as <-. exists c. split; [set_solver|done].
  - rewrite map_get_set_ne in H by done. by apply Hkeep.
Qed.

(** after any calls, a count is either what the database answers now or
    what it answered to an earlier call with the same key less than the time to
    live ago; a failing query is reported and not cached. *)
Theorem getCachedCount_fresh (ttl : Z) (calls : list count_call) (key : string)
    (loader : outcome app_error Z) (now : Z) :
  match getCachedCount key loader ttl now (count_run ttl calls) with
  | (Ok v, _) => loader = Ok v \/
      exists c, c ∈ calls /\ call_key c = key /\ call_loader c = Ok v /\ now < call_now c + ttl
  | (Throw e, cache) => loader = Throw e /\ cache = count_run ttl calls
  end.
Proof.
  unfold getCachedCount. destruct (map_get key (count_run ttl calls)) as [e|] eqn:He.
  - destruct (Z.ltb_spec now (expiresAt e)) as [Hlt|Hge].
    + right. apply count_run_entries in He as (c & ? & ? & ? & Hexp). exists c. split_and!; auto. lia.
    + destruct loader; auto.
  - destruct loader; auto.
Qed.

Lemma split_at_nul a b a' b' :
  a +:+ NUL +:+ b = a' +:+ NUL +:+ b' → ascii_of_N 0 ∉ chars a → ascii_of_N 0 ∉ chars a' →
  a = a' ∧ b = b'.
Proof.
  revert a'. induction a as [|c a IH]; intros [|c' a'] H H1 H2; cbn in *.
  - by injection H.
  - injection H as <- _. set_solver.
  - injection H as -> _. set_solver.
  - injection H as <- H. destruct (IH a' H) as [-> ->]; set_solver.
Qed.

(** two counts share a cache key only when table, condition and bound
    values are the same, as the condition holds no U+0000. *)
Theorem buildCountCacheKey_inj table table' clause clause' values values'
    (Ht : ascii_of_N 0 ∉ chars table) (Ht' : ascii_of_N 0 ∉ chars table')
    (Hc : ascii_of_N 0 ∉ chars clause) (Hc' : ascii_of_N 0 ∉ chars clause')
    (Hv : json_ok (JArr values) = true) (Hv' : json_ok (JArr values') = true)
    (Heq : buildCountCacheKey table clause values = buildCountCacheKey table' clause' values') :
  table = table' /\ clause = clause' /\ values = values'.
Proof.
  unfold buildCountCacheKey in Heq.
  apply split_at_nul in Heq as [-> Heq]; [|done..]. apply split_at_nul in Heq as [-> Heq]; [|done..].
  apply (f_equal JSON_parse) in Heq. rewrite !JSON_parse_stringify in Heq by done.
  by injection Heq as ->.
Qed.

Lemma buildCountCacheKey_inj_witness :
  let k := buildCountCacheKey "audit_findings" "WHERE status = ?" [JStr "Open"] in
  k = k -> "audit_findings" = "audit_findings" /\ "WHERE status = ?" = "WHERE status = ?" /\
  [JStr "Open"] = [JStr "Open"].
Proof.
  intros k Hk. apply (buildCountCacheKey_inj "audit_findings" "audit_findings" "WHERE status = ?" "WHERE status = ?"
    [JStr "Open"] [JStr "Open"]); try (apply (bool_decide_unpack _); by vm_compute); try reflexivity.
Defined.
