(* ===== verification/Cursors.v ===== *)
(** * Cursor paging ([utils/cursorPagination.ts])

    The single-column cursor and the keyset cursor over a composite order key:
    the cursor texts, the conditions they become, and the pages they give.  A
    statement is its columns, direction and bound values; [..Text] is the SQL
    text the code builds from them. *)

From S2P Require Import Prelude JsMap JsStrings JsNumbers Json Encodings OrderBy.
Local Open Scope Z_scope.

Inductive direction := ASC | DESC.
#[export] Instance direction_eq_dec : EqDecision direction.
Proof. solve_decision. Defined.

Definition direction_text (d : direction) : string := match d with ASC => "ASC" | DESC => "DESC" end.

(** The order on keys a direction asks for. *)
Definition key_before {A} (ltb : A → A → bool) (d : direction) (a b : A) : bool :=
  match d with ASC => ltb a b | DESC => ltb b a end.

#[export] Instance key_before_strict {A} (ltb : A → A → bool) d :
  StrictTotal ltb → StrictTotal (key_before ltb d).
Proof. intros Hs. destruct d; [exact Hs|exact (flip_strict ltb Hs)]. Qed.

(** [/^[a-zA-Z_][a-zA-Z0-9_]*$/] *)
Definition is_word (c : ascii) : bool := is_alnum c || bool_decide (c = "_"%char).
Definition is_column_name (s : string) : bool :=
  match chars s with
  | c :: l => (is_upper c || is_lower c || bool_decide (c = "_"%char)) && forallb is_word l
  | [] => false
  end.

Definition validateColumnName (column : string) : outcome app_error string :=
  if is_column_name column then Ok column else Throw (GenericError "invalid column name").

(** ** The texts of cursors *)

Definition invalid_cursor : app_error := ValidationError "Invalid pagination cursor".

Record DecodedCursor := mkDecoded { dc_value : string; dc_column : string }.

Definition encodeCursor (value column : string) : string :=
  to_base64url_json (JObj [("value", JStr value); ("column", JStr column)]).

Definition decodeCursor (cursor : string) : option DecodedCursor :=
  parsed ← from_base64url_json cursor;
  value ← json_field "value" parsed ≫= json_string;
  column ← json_field "column" parsed ≫= json_string;
  if bool_decide (column = "") then None else Some (mkDecoded value column).

Definition decodeKeysetCursor (cursor : string) (orderKey : list string) : outcome app_error (list string) :=
  if bool_decide (cursor = "") then Throw invalid_cursor
  else match from_base64url_json cursor with
  | Some (JObj record) =>
      if bool_decide (length record = length orderKey) then
        match mapM (λ column, map_get column record ≫= json_string) orderKey with
        | Some values => Ok values
        | None => Throw invalid_cursor
        end
      else Throw invalid_cursor
  | _ => Throw invalid_cursor
  end.

(** ** Page sizes *)

Definition DEFAULT_CURSOR_PAGE_SIZE : Z := 20.
Definition MAX_CURSOR_PAGE_SIZE : Z := 100.

(** [None] is an absent size. *)
Definition validatePageSize (pageSize : option js_num) : js_num :=
  match pageSize with
  | None => int DEFAULT_CURSOR_PAGE_SIZE
  | Some x => if isNaN x then int DEFAULT_CURSOR_PAGE_SIZE
              else js_min (int MAX_CURSOR_PAGE_SIZE) (js_max (int 1) (js_floor x))
  end.

Definition MIN_KEYSET_PAGE_SIZE : Z := 1.
Definition MAX_KEYSET_PAGE_SIZE : Z := 100.
Definition DEFAULT_KEYSET_PAGE_SIZE : Z := 25.

Definition clampKeysetPageSize (pageSize : option js_num) : js_num :=
  match pageSize with
  | Some x => if isFinite x
              then js_min (int MAX_KEYSET_PAGE_SIZE) (js_max (int MIN_KEYSET_PAGE_SIZE) (js_floor x))
              else int DEFAULT_KEYSET_PAGE_SIZE
  | None => int DEFAULT_KEYSET_PAGE_SIZE
  end.

(** The number of rows a size stands for. *)
Definition size_of (x : js_num) : nat := match x with Finite q => Z.to_nat (Qfloor q) | _ => 0 end.

(** ** The registry of keyset tables *)

Definition KEYSET_TABLES : list (string * list string) :=
  map (λ t, (t, ["created_at"; "id"]))
    ["audit_findings"; "audit_tasks"; "audit_trail"; "recommendations"; "risk_register";
     "incoming_correspondence"; "outgoing_correspondence"; "correspondence_status_history";
     "file_access_logs"; "request_logs"].

Definition isKeysetTable (tableName : string) : bool := map_has tableName KEYSET_TABLES.
Definition getKeysetOrderKey (tableName : string) : option (list string) :=
  map_get tableName KEYSET_TABLES.

(** ** Query parameters of the single-column cursor *)

Record CursorPaginationOptions := mkOptions {
  opt_cursor : option string; opt_pageSize : option js_num;
  opt_sortColumn : option string; opt_sortDirection : option direction }.

Record CursorQueryParams := mkQuery {
  (** the value the sort column must lie beyond *)
  beyond : option string;
  limit : nat; q_pageSize : nat; sortColumn : string; sortDirection : direction }.

Definition buildCursorQueryParams (options : CursorPaginationOptions) : outcome app_error CursorQueryParams :=
  let pageSize := size_of (validatePageSize (opt_pageSize options)) in
  let column := match opt_sortColumn options with
                | Some c => if bool_decide (c = "") then "created_at" else c
                | None => "created_at" end in
  match validateColumnName column with
  | Throw e => Throw e
  | Ok sortColumn =>
      let sortDirection := match opt_sortDirection options with Some ASC => ASC | _ => DESC end in
      let beyond :=
        c ← opt_cursor options;
        d ← (if bool_decide (c = "") then None else decodeCursor c);
        if bool_decide (dc_column d = sortColumn) then Some (dc_value d) else None in
      Ok (mkQuery beyond (pageSize + 1) pageSize sortColumn sortDirection)
  end.

Definition operator (d : direction) : string := match d with DESC => "<" | ASC => ">" end.

Definition cursorWhereText (q : CursorQueryParams) : string :=
  match beyond q with
  | Some _ => sortColumn q +:+ " " +:+ operator (sortDirection q) +:+ " ?"
  | None => ""
  end.
Definition cursorOrderText (q : CursorQueryParams) : string :=
  sortColumn q +:+ " " +:+ direction_text (sortDirection q).

(** [req.query]: absent parameters are [None]. *)
Definition parseCursorParams (cursor pageSize sortBy direction : option string) : CursorPaginationOptions :=
  let truthy v := match v with Some s => if bool_decide (s = "") then None else Some s | None => None end in
  mkOptions (truthy cursor) (parseInt_10 <$> truthy pageSize) (truthy sortBy)
    (match direction with
     | Some d => if bool_decide (d = "ASC") then Some ASC
                 else if bool_decide (d = "DESC") then Some DESC else None
     | None => None end).

(** ** The clause of the keyset cursor *)

Record KeysetClause := mkClause {
  k_columns : list string; k_direction : direction;
  (** the position after which rows are wanted *)
  k_position : option (list string) }.

(** [orderKey.map(validateColumnName)] *)
Fixpoint validate_all (columns : list string) : outcome app_error (list string) :=
  match columns with
  | [] => Ok []
  | c :: cs => match validateColumnName c with
               | Throw e => Throw e
               | Ok c' => match validate_all cs with Ok cs' => Ok (c' :: cs') | Throw e => Throw e end
               end
  end.

Definition buildKeysetClause (orderKey : list string) (cursor : option string) (sortDirection : direction)
    : outcome app_error KeysetClause :=
  match orderKey with
  | [] => Throw (ValidationError "Keyset pagination requires a non-empty order key")
  | _ :: _ =>
      match validate_all orderKey with
      | Throw e => Throw e
      | Ok columns =>
          match cursor with
          | None | Some "" => Ok (mkClause columns sortDirection None)
          | Some c => match decodeKeysetCursor c columns with
                      | Ok values => Ok (mkClause columns sortDirection (Some values))
                      | Throw e => Throw e
                      end
          end
      end
  end.

Definition keysetWhereText (k : KeysetClause) : string :=
  match k_position k with
  | Some _ => "(" +:+ join ", " (k_columns k) +:+ ") " +:+ operator (k_direction k) +:+ " (" +:+
              join ", " (map (λ _, "?") (k_columns k)) +:+ ")"
  | None => ""
  end.
Definition keysetOrderText (k : KeysetClause) : string :=
  join ", " (map (λ col, col +:+ " " +:+ direction_text (k_direction k)) (k_columns k)).

(** ** Pages *)

Record KeysetPage (R : Type) := mkKeysetPage { k_data : list R; k_nextCursor : option string }.
Arguments mkKeysetPage {R} k_data k_nextCursor.
Arguments k_data {R} k.
Arguments k_nextCursor {R} k.

Record CursorPaginatedResult (R : Type) := mkPage {
  data : list R; nextCursor : option string; hasMore : bool }.
Arguments mkPage {R} data nextCursor hasMore.
Arguments data {R} c.
Arguments nextCursor {R} c.
Arguments hasMore {R} c.

Section rows.
(** A row and its columns ([None] is SQL's null), [String(v)] of what the driver
    hands over, what the database reads a bound text as when it compares it
    with a column, and the order of the column's type. *)
Context {R cell : Type} (row_cell : R → string → option cell) (js_String : cell → string)
        (read_as : string → string → option cell) (cell_ltb : cell → cell → bool).

Definition cells (columns : list string) (r : R) : list (option cell) := map (row_cell r) columns.
Definition cells_before (d : direction) : list (option cell) → list (option cell) → bool :=
  key_before (lex (nullable_lt cell_ltb)) d.

(** [ORDER BY] over the columns: a null is the greatest value. *)
Definition sql_order (columns : list string) (d : direction) (rows : list R) : list R :=
  order_by (cells columns) (cells_before d) rows.

Definition query_failed : app_error := GenericError "the database refuses the parameter".

(** The payload maps each order-key column to the text of its value. *)
Fixpoint cursor_payload (orderKey : list string) (row : R) (payload : list (string * json))
    : outcome app_error (list (string * json)) :=
  match orderKey with
  | [] => Ok payload
  | column :: cols =>
      match row_cell row column with
      | None => Throw (ValidationError "Cannot encode cursor: missing order-key value")
      | Some value => cursor_payload cols row (map_set column (JStr (js_String value)) payload)
      end
  end.

Definition encodeKeysetCursor (orderKey : list string) (row : R) : outcome app_error string :=
  match cursor_payload orderKey row [] with
  | Ok payload => Ok (to_base64url_json (JObj payload))
  | Throw e => Throw e
  end.

Definition processKeysetResults (rows : list R) (pageSize : nat) (orderKey : list string)
    : outcome app_error (KeysetPage R) :=
  let hasMore := (pageSize <? length rows)%nat in
  let data := if hasMore then take pageSize rows else rows in
  match hasMore, last data with
  | true, Some item =>
      match encodeKeysetCursor orderKey item with
      | Ok c => Ok (mkKeysetPage data (Some c))
      | Throw e => Throw e
      end
  | _, _ => Ok (mkKeysetPage data None)
  end.

(** [(c1, .., cn) < (?, .., ?)], resp. [>]; a text the database cannot read as a
    value of its column makes the statement fail. *)
Definition position_test (k : KeysetClause) : outcome app_error (R → bool) :=
  match k_position k with
  | None => Ok (λ _, true)
  | Some values =>
      match mapM (λ p, read_as p.1 p.2) (zip (k_columns k) values) with
      | None => Throw query_failed
      | Some position =>
          Ok (λ r, match k_direction k with
                   | DESC => bool_decide (sql_row_lt cell_ltb (cells (k_columns k) r) (map Some position) = Some true)
                   | ASC => bool_decide (sql_row_lt cell_ltb (map Some position) (cells (k_columns k) r) = Some true)
                   end)
      end
  end.

(** [additionalWhere] with its parameters is the test [extra]. *)
Definition keysetPaginate (tableName : string) (cursor : option string) (pageSize : option js_num)
    (sortDirection : option direction) (extra : R → bool) (table : list R)
    : outcome app_error (KeysetPage R) :=
  match getKeysetOrderKey tableName with
  | None => Throw (ValidationError "Table is not configured for keyset pagination")
  | Some orderKey =>
      let pageSize := size_of (clampKeysetPageSize pageSize) in
      match buildKeysetClause orderKey cursor (default DESC sortDirection) with
      | Throw e => Throw e
      | Ok clause =>
          match position_test clause with
          | Throw e => Throw e
          | Ok test =>
              let rows := take (pageSize + 1)
                (sql_order (k_columns clause) (k_direction clause)
                  (select (λ r, extra r && test r) table)) in
              processKeysetResults rows pageSize orderKey
          end
      end
  end.

(** *** The single-column cursor *)

Definition processCursorResults (rows : list R) (pageSize : nat) (sortColumn : string)
    : CursorPaginatedResult R :=
  let hasMore := (pageSize <? length rows)%nat in
  let data := if hasMore then take pageSize rows else rows in
  let nextCursor :=
    if hasMore then
      item ← last data;
      Some (encodeCursor (match row_cell item sortColumn with Some v => js_String v | None => "" end) sortColumn)
    else None in
  mkPage data nextCursor hasMore.

Definition beyond_test (q : CursorQueryParams) : outcome app_error (R → bool) :=
  match beyond q with
  | None => Ok (λ _, true)
  | Some value =>
      match read_as (sortColumn q) value with
      | None => Throw query_failed
      | Some v => Ok (λ r, match row_cell r (sortColumn q) with
                           | Some c => key_before cell_ltb (sortDirection q) v c
                           | None => false
                           end)
      end
  end.

Definition cursorPaginate (options : CursorPaginationOptions) (extra : R → bool) (table : list R)
    : outcome app_error (CursorPaginatedResult R) :=
  match buildCursorQueryParams options with
  | Throw e => Throw e
  | Ok q =>
      match beyond_test q with
      | Throw e => Throw e
      | Ok test =>
          Ok (processCursorResults
                (take (limit q) (sql_order [sortColumn q] (sortDirection q)
                  (select (λ r, extra r && test r) table)))
                (q_pageSize q) (sortColumn q))
      end
  end.
End rows.

(** ** Lemmas *)

Lemma word_ascii s : is_column_name s = true → forallb is_ascii (chars s) = true.
Proof.
  unfold is_column_name. destruct (chars s) as [|c l]; [done|].
  intros [Hc Hl]%andb_true_iff. cbn [forallb]. apply andb_true_iff. split.
  - revert Hc. each_ascii c.
  - rewrite forallb_forall in Hl |- *. intros x Hx. specialize (Hl x Hx). revert Hl. each_ascii x.
Qed.

Lemma column_well_formed s : is_column_name s = true → well_formed s = true.
Proof. intros H. by apply utf8_ok_ascii, word_ascii. Qed.

Lemma validate_all_Ok columns cs :
  validate_all columns = Ok cs → cs = columns ∧ Forall (λ c, is_column_name c = true) columns.
Proof.
  revert cs. induction columns as [|c columns IH]; intros cs; cbn; [intros [= <-]; by split|].
  unfold validateColumnName. destruct (is_column_name c) eqn:Hc; [|done].
  destruct (validate_all columns) as [cs'|] eqn:Hv; [|done]. intros [= <-].
  destruct (IH cs' eq_refl) as [-> ?]. split; [done|]. by constructor.
Qed.

Lemma to_base64url_json_nonempty v : json_ok v = true → to_base64url_json v ≠ "".
Proof.
  intros Hok H. apply (f_equal chars) in H. unfold to_base64url_json, stringify in H.
  rewrite !chars_of_chars in H. revert H. apply base64url_nonempty.
  destruct (print_head v Hok) as (c & t & -> & _). done.
Qed.

Lemma size_bounds ps : (1 ≤ size_of (clampKeysetPageSize ps) ≤ 100)%nat.
Proof.
  assert (H : ∀ z, (1 ≤ size_of (js_min (int 100) (js_max (int 1) (int z))) ≤ 100)%nat).
  { intros z. rewrite js_max_int, js_min_int. unfold size_of, int. rewrite Qfloor_Z. lia. }
  unfold clampKeysetPageSize, MAX_KEYSET_PAGE_SIZE, MIN_KEYSET_PAGE_SIZE, DEFAULT_KEYSET_PAGE_SIZE.
  assert (size_of (int 25) = 25%nat) as H25 by done.
  destruct ps as [[q| |]|]; cbn [isFinite]; rewrite ?H25; try lia. apply H.
Qed.

Lemma getKeysetOrderKey_Some t k : getKeysetOrderKey t = Some k → k = ["created_at"; "id"].
Proof.
  unfold getKeysetOrderKey, KEYSET_TABLES. intros H%map_get_Some_elem.
  apply list_elem_of_In, in_map_iff in H as (? & [= _ <-] & _). done.
Qed.

Section cursor_texts.
Context {R cell : Type} (row_cell : R → string → option cell) (js_String : cell → string).

(** The texts of a row's order key. *)
Definition key_texts (orderKey : list string) (r : R) : option (list string) :=
  mapM (λ c, js_String <$> row_cell r c) orderKey.

Lemma cursor_payload_spec orderKey r : ∀ acc,
  NoDup (keys acc ++ orderKey) →
  cursor_payload row_cell js_String orderKey r acc =
  match key_texts orderKey r with
  | Some ts => Ok (acc ++ zip_with (λ c t, (c, JStr t)) orderKey ts)
  | None => Throw (ValidationError "Cannot encode cursor: missing order-key value")
  end.
Proof.
  induction orderKey as [|c cols IH]; intros acc Hnd; cbn; [by rewrite app_nil_r|].
  destruct (row_cell r c) as [v|]; [|done]. cbn.
  assert (c ∉ keys acc) as Hc.
  { apply NoDup_app in Hnd as (_ & Hd & _). intros Hin. apply (Hd c Hin). by left. }
  rewrite map_set_absent by done. rewrite IH.
  - unfold key_texts. destruct (mapM _ cols); [|done]. cbn. by rewrite <- app_assoc.
  - by rewrite keys_app, <- app_assoc.
Qed.

Lemma map_get_zip (cols ts : list string) :
  NoDup cols → length ts = length cols → ∀ pre,
  (∀ c, c ∈ cols → c ∉ keys pre) →
  mapM (λ c, map_get c (pre ++ zip_with (λ c t, (c, JStr t)) cols ts) ≫= json_string) cols = Some ts.
Proof.
  assert (Hskip : ∀ (c : string) (l1 l2 : list (string * json)), c ∉ keys l1 → map_get c (l1 ++ l2) = map_get c l2).
  { intros c l1 l2. induction l1 as [|[k v] l1 IH]; cbn; [done|]. unfold keys in *. cbn. intros H.
    rewrite bool_decide_eq_false_2 by set_solver. apply IH. set_solver. }
  revert ts. induction cols as [|c cols IH]; intros [|t ts]; try done.
  intros [Hni Hnd]%NoDup_cons [= Hlen] pre Hpre. cbn [zip_with mapM].
  rewrite Hskip by (apply Hpre; by left). cbn [map_get].
  rewrite bool_decide_eq_true_2 by done. cbn [mbind option_bind json_string].
  specialize (IH ts Hnd Hlen (pre ++ [(c, JStr t)])). rewrite <- app_assoc in IH. cbn [app] in IH.
  rewrite IH; [done|]. intros c' Hc'. rewrite keys_app. cbn. set_solver.
Qed.

Lemma keyset_cursor_decodes orderKey r ts :
  NoDup orderKey → Forall (λ c, is_column_name c = true) orderKey →
  key_texts orderKey r = Some ts → Forall (λ t, well_formed t = true) ts →
  ∃ c, encodeKeysetCursor row_cell js_String orderKey r = Ok c ∧ c ≠ "" ∧ decodeKeysetCursor c orderKey = Ok ts.
Proof.
  intros Hnd Hcols Hts Hwf.
  unfold encodeKeysetCursor. rewrite cursor_payload_spec, Hts by done. cbn [app].
  assert (Hlen : length ts = length orderKey) 
    by (symmetry; by eapply Forall2_length, mapM_Some_1).
  set (payload := zip_with (λ c t, (c, JStr t)) orderKey ts).
  assert (Hkeys : keys payload = orderKey).
  { unfold keys, payload. rewrite fmap_zip_with_l; [done|done|lia]. }
  assert (Hok : json_ok (JObj payload) = true ∧ json_utf8 (JObj payload) = true).
  { cbn [json_ok json_utf8]. rewrite Hkeys, bool_decide_eq_true_2 by done.
    clear Hts Hnd Hkeys. subst payload. revert ts Hlen Hwf.
    induction Hcols as [|c cols Hc _ IH]; intros [|t ts] Hlen Hwf; try done.
    apply Forall_cons in Hwf as [Ht Hwf]. destruct (IH ts) as [H1 H2]; [by injection Hlen|done|].
    cbn [zip_with forallb fst snd json_ok json_utf8]. rewrite Ht, column_well_formed by done. by split. }
  destruct Hok as [Hok Hu]. eexists. split; [done|].
  split; [by apply to_base64url_json_nonempty|].
  unfold decodeKeysetCursor. rewrite bool_decide_eq_false_2 by by apply to_base64url_json_nonempty.
  rewrite base64url_json_round_trip by done.
  rewrite bool_decide_eq_true_2 by (unfold payload; rewrite length_zip_with; lia).
  pose proof (map_get_zip orderKey ts Hnd Hlen []) as H. cbn [app] in H. unfold payload.
  rewrite H; [done|set_solver].
Qed.

(** a keyset cursor decodes to the texts of the order-key values it was made
    from, whatever characters they hold. *)
Theorem keyset_cursor_round_trip orderKey r ts
    (Hnd : NoDup orderKey) (Hcols : Forall (fun c => is_column_name c = true) orderKey)
    (Hts : key_texts orderKey r = Some ts) (Hwf : Forall (fun t => well_formed t = true) ts) :
  exists c, encodeKeysetCursor row_cell js_String orderKey r = Ok c /\ c <> "" /\ decodeKeysetCursor c orderKey = Ok ts.
Proof. by apply keyset_cursor_decodes. Qed.

End cursor_texts.

Section properties.
Context {R cell : Type} (row_cell : R → string → option cell) (js_String : cell → string)
        (read_as : string → string → option cell) (cell_ltb : cell → cell → bool).

(** *** Pages as seen from a position *)

(** A row whose order key is complete and travels losslessly: no null, and the
    database reads the text of each value as that value. *)
Definition sound_row (orderKey : list string) (r : R) : Prop :=
  Forall (λ c, ∃ v, row_cell r c = Some v ∧ read_as c (js_String v) = Some v ∧
                    well_formed (js_String v) = true) orderKey.

Definition row_before (orderKey : list string) (d : direction) (r1 r2 : R) : bool :=
  cells_before cell_ltb d (cells row_cell orderKey r1) (cells row_cell orderKey r2).

(** The position behind a row, or before every row. *)
Definition after (orderKey : list string) (d : direction) (pos : option R) (r : R) : bool :=
  match pos with Some r0 => row_before orderKey d r0 r | None => true end.

Definition cursor_at (orderKey : list string) (pos : option R) (cursor : option string) : Prop :=
  match pos with
  | Some r0 => sound_row orderKey r0 ∧ ∃ c, encodeKeysetCursor row_cell js_String orderKey r0 = Ok c ∧ cursor = Some c
  | None => cursor = None
  end.

Lemma sound_row_values orderKey r :
  sound_row orderKey r →
  ∃ vs, map Some vs = cells row_cell orderKey r ∧ key_texts row_cell js_String orderKey r = Some (map js_String vs) ∧
        mapM (λ p, read_as p.1 p.2) (zip orderKey (map js_String vs)) = Some vs ∧
        Forall (λ t, well_formed t = true) (map js_String vs).
Proof.
  unfold cells, key_texts. induction 1 as [|c cols (v & Hv & Hr & Hw) _ (vs & H1 & H2 & H3 & H4)].
  - by exists [].
  - exists (v :: vs). cbn. rewrite Hv, H1, H2, Hr. cbn. rewrite H3. cbn. split_and!; auto.
Qed.

Lemma sound_cells_length orderKey r vs : map Some vs = cells row_cell orderKey r → length vs = length orderKey.
Proof. intros H%(f_equal length). unfold cells in H. by rewrite !length_map in H. Qed.

(** The compiled condition is the position test, on rows with a complete key. *)
Lemma position_test_after orderKey d pos cursor (Hne : orderKey ≠ []) (Hnd : NoDup orderKey)
    (Hcols : Forall (λ c, is_column_name c = true) orderKey) :
  cursor_at orderKey pos cursor →
  ∃ k test, buildKeysetClause orderKey cursor d = Ok k ∧ k_columns k = orderKey ∧ k_direction k = d ∧
    position_test row_cell read_as cell_ltb k = Ok test ∧
    ∀ r, sound_row orderKey r → test r = after orderKey d pos r.
Proof.
  assert (Hval : validate_all orderKey = Ok orderKey).
  { clear Hne Hnd. induction Hcols as [|c cols Hc _ IH]; [done|]. cbn. unfold validateColumnName.
    by rewrite Hc, IH. }
  intros Hat. destruct pos as [r0|]; cbn in Hat.
  - destruct Hat as (Hr0 & c & Henc & ->).
    destruct (sound_row_values _ _ Hr0) as (vs & Hvs & Hts & Hread & Hwf).
    destruct (keyset_cursor_decodes row_cell js_String orderKey r0 _ Hnd Hcols Hts Hwf) as (c' & Henc' & Hc & Hdec).
    rewrite Henc in Henc'. injection Henc' as <-.
    eexists _, _. split.
    { unfold buildKeysetClause. destruct orderKey; [done|]. rewrite Hval.
      destruct c; [by destruct Hc|]. rewrite Hdec. done. }
    split; [done|]. split; [done|]. split.
    { unfold position_test. cbn [k_position k_columns k_direction]. by rewrite Hread. }
    intros r Hr. destruct (sound_row_values _ _ Hr) as (ws & Hws & _).
    assert (length vs = length ws) as Hlen
      by by rewrite (sound_cells_length _ _ _ Hvs), (sound_cells_length _ _ _ Hws).
    cbn [k_columns k_direction]. unfold after, row_before, cells_before, key_before.
    rewrite <- Hws, <- Hvs. destruct d; rewrite sql_row_lt_lex by done.
    + by destruct (lex _ _ _).
    + by destruct (lex _ _ _).
  - subst cursor. eexists _, _. split.
    { unfold buildKeysetClause. destruct orderKey; [done|]. by rewrite Hval. }
    done.
Qed.

(** What a page returns: the first rows after the position, and a cursor at its
    last row exactly when rows are left. *)
Lemma keysetPaginate_page tableName orderKey cursor ps sd extra table pos :
  getKeysetOrderKey tableName = Some orderKey →
  cursor_at orderKey pos cursor → Forall (sound_row orderKey) table →
  let d := default DESC sd in let n := size_of (clampKeysetPageSize ps) in
  let rows := sql_order row_cell cell_ltb orderKey d (select (λ r, extra r && after orderKey d pos r) table) in
  ∃ next, keysetPaginate row_cell js_String read_as cell_ltb tableName cursor ps sd extra table
          = Ok (mkKeysetPage (take n rows) next) ∧
    ((length rows ≤ n)%nat ∧ next = None ∨
     ∃ item, (n < length rows)%nat ∧ last (take n rows) = Some item ∧ cursor_at orderKey (Some item) next).
Proof.
  intros Hkey Hat Hsound d n rows.
  pose proof (getKeysetOrderKey_Some _ _ Hkey) as Hok.
  destruct (position_test_after orderKey d pos cursor) as (k & test & Hk & Hcol & Hdir & Htest & Hafter);
    [by rewrite Hok|rewrite Hok; apply (bool_decide_unpack _); by vm_compute|rewrite Hok; by repeat constructor|done|].
  assert (Hsel : select (λ r, extra r && test r) table = select (λ r, extra r && after orderKey d pos r) table).
  { apply List.filter_ext_in. intros r Hr. rewrite Hafter; [done|].
    rewrite Forall_forall in Hsound. apply Hsound. by apply list_elem_of_In. }
  unfold keysetPaginate. rewrite Hkey. fold d. rewrite Hk, Htest, Hcol, Hdir, Hsel. fold rows. fold n.
  pose proof (size_bounds ps) as Hn. fold n in Hn.
  unfold processKeysetResults. rewrite length_take.
  destruct (Nat.ltb_spec n ((n + 1) `min` length rows)) as [Hlt|Hge].
  - rewrite take_take. replace (n `min` (n + 1))%nat with n by lia.
    destruct (last (take n rows)) as [item|] eqn:Hlast.
    2:{ apply last_None in Hlast. apply (f_equal length) in Hlast. rewrite length_take in Hlast. cbn in Hlast. lia. }
    assert (Hitem : sound_row orderKey item).
    { rewrite Forall_forall in Hsound. apply Hsound.
      assert (item ∈ rows) as Hin.
      { apply (subseteq_take n). by apply last_Some_elem_of. }
      apply elem_of_order_by, elem_of_select in Hin. apply Hin. }
    destruct (sound_row_values _ _ Hitem) as (vs & _ & Hts & _ & Hwf).
    destruct (keyset_cursor_decodes row_cell js_String orderKey item _ ltac:(rewrite Hok; apply (bool_decide_unpack _); by vm_compute)
      ltac:(rewrite Hok; by repeat constructor) Hts Hwf) as (c & Henc & _).
    rewrite Henc. eexists. split; [done|]. right. exists item. split_and!; [lia|done|].
    split; [done|]. by exists c.
  - eexists. split; [|left; split; [lia|done]].
    rewrite !take_ge by lia. done.
Qed.
End properties.

(** ** Following the cursors *)

Lemma select_and {A} (p q : A → bool) (l : list A) :
  select (λ r, p r && q r) l = select q (select p l).
Proof.
  unfold select. induction l as [|x l IH]; cbn; [done|].
  destruct (p x); cbn; [destruct (q x); by rewrite IH|done].
Qed.

Lemma select_implied {A} (p q : A → bool) (l : list A) :
  (∀ r, r ∈ l → q r = true → p r = true) → select q (select p l) = select q l.
Proof.
  unfold select. induction l as [|x l IH]; cbn; [done|]. intros H.
  assert (Hl : List.filter q (List.filter p l) = List.filter q l)
    by (apply IH; intros; apply H; [by right|done]).
  destruct (p x) eqn:Hp; cbn; [by rewrite Hl|]. destruct (q x) eqn:Hq; [|done].
  rewrite H in Hp; [done|by left|done].
Qed.

Lemma take_last {A} n (l : list A) item :
  (n < length l)%nat → last (take n l) = Some item → ∃ l1, take n l = l1 ++ [item] ∧ l = l1 ++ item :: drop n l.
Proof.
  intros Hn Hlast. destruct (take n l) as [|x l1] eqn:Ht using rev_ind; [done|].
  rewrite last_snoc in Hlast. injection Hlast as ->. exists l1. split; [done|].
  rewrite <- (take_drop n l) at 1. rewrite Ht, <- app_assoc. done.
Qed.

Section traversal.
Context {R cell : Type} (row_cell : R → string → option cell) (js_String : cell → string)
        (read_as : string → string → option cell) (cell_ltb : cell → cell → bool)
        `{!StrictTotal cell_ltb}.
Context (tableName : string) (ps : option js_num) (sd : option direction) (extra : R → bool).

(** A client that follows [nextCursor] to the end, the [i]-th request seeing the
    table [tables i]. *)
Fixpoint collect (fuel : nat) (tables : nat → list R) (i : nat) (cursor : option string)
    : outcome app_error (list R) :=
  match fuel with
  | O => Throw (GenericError "more pages")
  | S fuel' =>
      match keysetPaginate row_cell js_String read_as cell_ltb tableName cursor ps sd extra (tables i) with
      | Throw e => Throw e
      | Ok p =>
          match k_nextCursor p with
          | None => Ok (k_data p)
          | Some c => match collect fuel' tables (S i) (Some c) with
                      | Ok rest => Ok (k_data p ++ rest)
                      | Throw e => Throw e
                      end
          end
      end
  end.

Let d : direction := default DESC sd.

(** The rows in question have complete order keys, pairwise different. *)
Definition sound_table (orderKey : list string) (table : list R) : Prop :=
  Forall (sound_row row_cell js_String read_as orderKey) table ∧ NoDup (map (cells row_cell orderKey) table).

Definition wanted (orderKey : list string) (pos : option R) (table : list R) : list R :=
  sql_order row_cell cell_ltb orderKey d
    (select (λ r, extra r && after row_cell cell_ltb orderKey d pos r) table).

Lemma before_strict : StrictTotal (cells_before cell_ltb d).
Proof. unfold cells_before. apply _. Qed.

Lemma wanted_filter orderKey pos table :
  NoDup (map (cells row_cell orderKey) table) →
  wanted orderKey pos table =
  select (after row_cell cell_ltb orderKey d pos) (sql_order row_cell cell_ltb orderKey d (select extra table)).
Proof.
  intros Hnd. pose proof before_strict. unfold wanted, sql_order. rewrite select_and.
  apply (order_by_filter (cells row_cell orderKey) (cells_before cell_ltb d)).
  by apply NoDup_map_filter.
Qed.

Lemma wanted_sorted orderKey pos table :
  NoDup (map (cells row_cell orderKey) table) →
  strictly_sorted (cells row_cell orderKey) (cells_before cell_ltb d) (wanted orderKey pos table).
Proof.
  intros Hnd. pose proof before_strict. unfold wanted, sql_order.
  apply order_by_strict; [done|]. by apply NoDup_map_filter.
Qed.

Lemma elem_of_wanted orderKey pos table r :
  r ∈ wanted orderKey pos table ↔
  r ∈ table ∧ extra r = true ∧ after row_cell cell_ltb orderKey d pos r = true.
Proof.
  pose proof before_strict. unfold wanted, sql_order.
  rewrite elem_of_order_by, elem_of_select, andb_true_iff. done.
Qed.

Lemma before_trans orderKey pos r1 r2 :
  after row_cell cell_ltb orderKey d pos r1 = true → row_before row_cell cell_ltb orderKey d r1 r2 = true →
  after row_cell cell_ltb orderKey d pos r2 = true.
Proof.
  pose proof before_strict as Hs. destruct pos as [r0|]; [|done]. unfold after, row_before.
  intros H1 H2. exact (lt_trans (StrictTotal := Hs) _ _ _ H1 H2).
Qed.

(** Behind the last row of a page lies the rest. *)
Lemma wanted_rest orderKey pos table n item :
  NoDup (map (cells row_cell orderKey) table) →
  (n < length (wanted orderKey pos table))%nat → last (take n (wanted orderKey pos table)) = Some item →
  wanted orderKey (Some item) table = drop n (wanted orderKey pos table).
Proof.
  intros Hnd Hn Hlast. pose proof before_strict as Hs.
  destruct (take_last _ _ _ Hn Hlast) as (l1 & _ & Hsplit).
  assert (Hitem : item ∈ wanted orderKey pos table) by (rewrite Hsplit; set_solver).
  pose proof (wanted_sorted orderKey pos table Hnd) as Hsorted.
  assert (H : select (after row_cell cell_ltb orderKey d (Some item)) (wanted orderKey pos table) =
              wanted orderKey (Some item) table).
  { rewrite !wanted_filter by done. apply select_implied. intros r _ Hr.
    apply elem_of_wanted in Hitem as (_ & _ & Hitem). by eapply before_trans. }
  rewrite <- H. set (rest := drop n (wanted orderKey pos table)) in *. rewrite Hsplit in Hsorted |- *.
  by apply (strictly_sorted_after (cells row_cell orderKey) (cells_before cell_ltb d)).
Qed.

Lemma collect_from orderKey table fuel : ∀ i pos cursor,
  getKeysetOrderKey tableName = Some orderKey → sound_table orderKey table →
  cursor_at row_cell js_String read_as orderKey pos cursor →
  (length (wanted orderKey pos table) < fuel)%nat →
  collect fuel (λ _, table) i cursor = Ok (wanted orderKey pos table).
Proof.
  induction fuel as [|fuel IH]; intros i pos cursor Hkey [Hsound Hnd] Hat Hf; [lia|]. cbn [collect].
  destruct (keysetPaginate_page row_cell js_String read_as cell_ltb tableName orderKey cursor ps sd extra table pos
    Hkey Hat Hsound) as (next & -> & Hnext). cbn [k_nextCursor k_data].
  fold d in Hnext |- *. fold (wanted orderKey pos table) in Hnext |- *.
  set (n := size_of (clampKeysetPageSize ps)) in *.
  destruct Hnext as [[Hlen ->]|(item & Hlen & Hlast & Hat')]; [by rewrite take_ge|].
  pose proof Hat' as (_ & c & _ & ->).
  pose proof (size_bounds ps) as Hn. fold n in Hn.
  rewrite (IH (S i) (Some item) (Some c) Hkey (conj Hsound Hnd) Hat').
  - rewrite (wanted_rest orderKey pos table n item) by done. by rewrite take_drop.
  - rewrite (wanted_rest orderKey pos table n item) by done. rewrite length_drop. lia.
Qed.

(** on a table that does not change, following the cursors ends and returns
    every row that satisfies the filter exactly once, in the order of the
    composite key: the pages put together are the sorted query without limit.
    It needs the order keys to be complete, different and to travel losslessly. *)
Theorem keyset_traversal_complete orderKey table
    (Hkey : getKeysetOrderKey tableName = Some orderKey) (Hsound : sound_table orderKey table) :
  collect (S (length table)) (fun _ => table) 0 None =
  Ok (sql_order row_cell cell_ltb orderKey d (select extra table)).
Proof.
  rewrite (collect_from orderKey table _ 0 None None); [|done..|].
  - rewrite wanted_filter by apply Hsound. f_equal. unfold select, after.
    induction (sql_order _ _ _ _ _) as [|r l IH]; cbn; [done|by rewrite IH].
  - unfold wanted, sql_order. pose proof before_strict. rewrite order_by_perm.
    pose proof (List.filter_length_le (λ r, extra r && after row_cell cell_ltb orderKey d None r) table).
    unfold select. lia.
Qed.

Lemma collect_sound orderKey (tables : nat → list R) fuel : ∀ i pos cursor rows,
  getKeysetOrderKey tableName = Some orderKey → (∀ j, sound_table orderKey (tables j)) →
  cursor_at row_cell js_String read_as orderKey pos cursor →
  collect fuel tables i cursor = Ok rows →
  strictly_sorted (cells row_cell orderKey) (cells_before cell_ltb d) rows ∧
  Forall (λ r, after row_cell cell_ltb orderKey d pos r = true) rows ∧
  ∀ r, (∀ j, r ∈ tables j) → extra r = true → after row_cell cell_ltb orderKey d pos r = true → r ∈ rows.
Proof.
  induction fuel as [|fuel IH]; intros i pos cursor rows Hkey Hs Hat Hrun; [done|]. cbn [collect] in Hrun.
  destruct (Hs i) as [Hsound Hnd]. pose proof before_strict as Hst.
  destruct (keysetPaginate_page row_cell js_String read_as cell_ltb tableName orderKey cursor ps sd extra (tables i) pos
    Hkey Hat Hsound) as (next & Hpage & Hnext). rewrite Hpage in Hrun. cbn [k_nextCursor k_data] in Hrun.
  fold d in Hnext, Hrun. fold (wanted orderKey pos (tables i)) in Hnext, Hrun.
  pose proof (wanted_sorted orderKey pos (tables i) Hnd) as Hsorted.
  assert (Hall : Forall (λ r, after row_cell cell_ltb orderKey d pos r = true) (wanted orderKey pos (tables i))).
  { apply Forall_forall. intros r Hr. by apply elem_of_wanted in Hr as (_ & _ & ?). }
  set (n := size_of (clampKeysetPageSize ps)) in *.
  destruct Hnext as [[Hlen ->]|(item & Hlen & Hlast & Hat')].
  - injection Hrun as <-. rewrite take_ge by done. split_and!; [done..|].
    intros r Hr He Ha. by apply elem_of_wanted.
  - pose proof Hat' as (_ & c & _ & ->).
    destruct (collect fuel tables (S i) (Some c)) as [rest|] eqn:Hrest; [|done]. injection Hrun as <-.
    destruct (IH _ _ _ _ Hkey Hs Hat' Hrest) as (Hsr & Hfr & Hin).
    destruct (take_last _ _ _ Hlen Hlast) as (l1 & Ht & Hsplit).
    assert (Hitem : item ∈ wanted orderKey pos (tables i)) by (rewrite Hsplit; set_solver).
    rewrite Forall_forall in Hall, Hfr. split_and!.
    + rewrite Ht. rewrite Hsplit in Hsorted.
      apply (strictly_sorted_replace_tail (cells row_cell orderKey) (cells_before cell_ltb d) _ _
        (drop n (wanted orderKey pos (tables i)))); [done..|]. by apply Forall_forall.
    + apply Forall_forall. intros r [Hr|Hr]%elem_of_app; [apply Hall; by apply (subseteq_take n)|].
      eapply before_trans; [by apply Hall|]. by apply Hfr.
    + intros r Hr He Ha. apply elem_of_app.
      assert (r ∈ wanted orderKey pos (tables i)) as Hw by (by apply elem_of_wanted).
      rewrite <- (take_drop n (wanted orderKey pos (tables i))) in Hw.
      apply elem_of_app in Hw as [Hw|Hw]; [by left|right]. apply Hin; [done..|].
      rewrite <- (wanted_rest orderKey pos (tables i) n item) in Hw by done.
      by apply elem_of_wanted in Hw as (_ & _ & ?).
Qed.

(** while rows come and go between the requests, a traversal that ends
    returns no row twice, and misses none that was there all the time. *)
Theorem keyset_traversal_stable orderKey (tables : nat -> list R) fuel rows
    (Hkey : getKeysetOrderKey tableName = Some orderKey) (Hs : forall j, sound_table orderKey (tables j))
    (Hrun : collect fuel tables 0 None = Ok rows) :
  strictly_sorted (cells row_cell orderKey) (cells_before cell_ltb d) rows /\ NoDup rows /\
  forall r, (forall j, r ∈ tables j) -> extra r = true -> r ∈ rows.
Proof.
  destruct (collect_sound orderKey tables fuel 0 None None rows Hkey Hs eq_refl Hrun) as (H1 & _ & H3).
  split; [done|]. split; [|intros; by apply H3].
  eapply strictly_sorted_NoDup; [apply before_strict|done].
Qed.
End traversal.

(** ** Drivers that lose precision

    node-postgres hands a TIMESTAMP over as a [Date], whose text has whole
    seconds: the database reads it as a value that is not later than the column's. *)

Section rounding.
Context {R cell : Type} (row_cell : R → string → option cell) (js_String : cell → string)
        (read_as : string → string → option cell) (cell_ltb : cell → cell → bool)
        `{!StrictTotal cell_ltb}.
Context (tableName : string) (ps : option js_num) (sd : option direction) (extra : R → bool)
        (orderKey : list string).

(** A complete order key whose texts, where the database accepts them, are read
    as nothing greater. *)
Definition rounding_row (r : R) : Prop :=
  Forall (λ c, ∃ v, row_cell r c = Some v ∧ well_formed (js_String v) = true ∧
                    ∀ w, read_as c (js_String v) = Some w → cell_ltb v w = false) orderKey.

(** What the database reads the cursor of a row as. *)
Definition reading (r : R) : option (list cell) :=
  ts ← key_texts row_cell js_String orderKey r; mapM (λ p, read_as p.1 p.2) (zip orderKey ts).

Definition order_before : list (option cell) → list (option cell) → bool :=
  cells_before cell_ltb (default DESC sd).
Definition in_order : list R → Prop := strictly_sorted (cells row_cell orderKey) order_before.

(** The rows behind a position. *)
Definition behind (pos : option (list cell)) (r : R) : bool :=
  match pos with Some vs => order_before (map Some vs) (cells row_cell orderKey r) | None => true end.

Definition cursor_of (pos : option (list cell)) (cursor : option string) : Prop :=
  match cursor with
  | None => pos = None
  | Some c => ∃ r vs, rounding_row r ∧ encodeKeysetCursor row_cell js_String orderKey r = Ok c ∧
                      reading r = Some vs ∧ pos = Some vs
  end.

(** A row between the last row of a page and the position its cursor is read as. *)
Definition skipped_after (item r : R) : Prop :=
  ∃ vs, reading item = Some vs ∧ behind (Some vs) r = false ∧
        order_before (cells row_cell orderKey item) (cells row_cell orderKey r) = true.

#[local] Instance order_strict : StrictTotal order_before.
Proof. unfold order_before, cells_before. apply _. Qed.

Lemma bind_cons_Some {A} (x : option A) (l : option (list A)) ws :
  x ≫= (λ y, l ≫= λ k, Some (y :: k)) = Some ws → ∃ y k, ws = y :: k ∧ x = Some y ∧ l = Some k.
Proof. destruct x as [y|], l as [k|]; cbn; try done. intros [= <-]. by exists y, k. Qed.

Lemma rounding_row_texts r : rounding_row r →
  ∃ vs, map Some vs = cells row_cell orderKey r ∧
    key_texts row_cell js_String orderKey r = Some (map js_String vs) ∧
    Forall (λ t, well_formed t = true) (map js_String vs) ∧
    ∀ ws, mapM (λ p, read_as p.1 p.2) (zip orderKey (map js_String vs)) = Some ws →
      Forall2 (λ v w, cell_ltb v w = false) vs ws.
Proof.
  unfold rounding_row, cells, key_texts. induction 1 as [|c cols (v & Hv & Hw & Hr) _ (vs & H1 & H2 & H3 & H4)].
  - exists []. split_and!; try done. cbn. by intros ws [= <-].
  - exists (v :: vs). cbn. rewrite Hv, H1, H2. cbn. split_and!; [done..|by constructor|].
    intros ws (w & ws' & -> & Hread & Hws)%bind_cons_Some. constructor; [by apply Hr|by apply H4].
Qed.

(** Rounding column by column never makes a key greater. *)
Lemma rounded_not_greater vs ws :
  Forall2 (λ v w, cell_ltb v w = false) vs ws →
  lex (nullable_lt cell_ltb) (map Some vs) (map Some ws) = false.
Proof.
  induction 1 as [|v w vs ws Hvw _ IH]; cbn; [done|]. rewrite Hvw. cbn. by rewrite IH, andb_false_r.
Qed.

Context (Hkey : getKeysetOrderKey tableName = Some orderKey) (Hdesc : sd ≠ Some ASC).

Lemma direction_desc : default DESC sd = DESC.
Proof. by destruct sd as [[]|]. Qed.

(** What lies behind the reading of a row's cursor lies behind the row. *)
Lemma behind_reading item vs r :
  rounding_row item → reading item = Some vs → behind (Some vs) r = true →
  order_before (cells row_cell orderKey item) (cells row_cell orderKey r) = true.
Proof.
  intros Hitem Hread. destruct (rounding_row_texts item Hitem) as (us & Hus & Hts & _ & Hle).
  unfold reading in Hread. rewrite Hts in Hread. cbn in Hread. apply Hle, rounded_not_greater in Hread.
  unfold behind, order_before, cells_before. rewrite direction_desc, <- Hus. cbn [key_before].
  assert (Hs : StrictTotal (lex (nullable_lt cell_ltb))) by apply _. intros Hr.
  destruct (lex (nullable_lt cell_ltb) (map Some vs) (map Some us)) eqn:Hv.
  - exact (lt_trans _ _ _ Hr Hv).
  - by rewrite (lt_total _ _ Hread Hv).
Qed.

(** One request: the rows behind the position its cursor is read as. *)
Lemma page_behind cursor pos table :
  cursor_of pos cursor → Forall rounding_row table →
  let n := size_of (clampKeysetPageSize ps) in
  let rows := sql_order row_cell cell_ltb orderKey (default DESC sd) (select (λ r, extra r && behind pos r) table) in
  ∃ next, keysetPaginate row_cell js_String read_as cell_ltb tableName cursor ps sd extra table
          = Ok (mkKeysetPage (take n rows) next) ∧
    ((length rows ≤ n)%nat ∧ next = None ∨
     ∃ item c, (n < length rows)%nat ∧ last (take n rows) = Some item ∧ next = Some c ∧
               encodeKeysetCursor row_cell js_String orderKey item = Ok c).
Proof.
  intros Hat Hround n rows. pose proof (getKeysetOrderKey_Some _ _ Hkey) as Hok.
  assert (HndK : NoDup orderKey) by (rewrite Hok; apply (bool_decide_unpack _); by vm_compute).
  assert (Hcols : Forall (λ c, is_column_name c = true) orderKey) by (rewrite Hok; by repeat constructor).
  assert (Hval : validate_all orderKey = Ok orderKey) by by rewrite Hok.
  assert (∃ k test, buildKeysetClause orderKey cursor (default DESC sd) = Ok k ∧ k_columns k = orderKey ∧
    k_direction k = default DESC sd ∧ position_test row_cell read_as cell_ltb k = Ok test ∧
    ∀ r, r ∈ table → test r = behind pos r) as (k & test & Hk & Hcol & Hdir & Htest & Hbehind).
  { destruct cursor as [c|]; cbn in Hat.
    - destruct Hat as (r0 & vs & Hr0 & Henc & Hread & ->).
      destruct (rounding_row_texts r0 Hr0) as (us & Hus & Hts & Hwf & _).
      destruct (keyset_cursor_decodes row_cell js_String orderKey r0 _ HndK Hcols Hts Hwf) as (c' & Henc' & Hc & Hdec).
      rewrite Henc in Henc'. injection Henc' as <-.
      unfold reading in Hread. rewrite Hts in Hread. cbn in Hread.
      eexists (mkClause orderKey (default DESC sd) (Some _)), _. split_and!; [|done|done| |].
      + unfold buildKeysetClause. rewrite Hval. rewrite Hok at 1. destruct c; [by destruct Hc|]. by rewrite Hdec.
      + unfold position_test. cbn [k_position k_columns]. by rewrite Hread.
      + intros r Hr. rewrite Forall_forall in Hround.
        destruct (rounding_row_texts r (Hround r Hr)) as (ws & Hws & _).
        assert (length vs = length ws) as Hlen.
        { apply mapM_Some_1, Forall2_length in Hread. apply (f_equal length) in Hus, Hws. unfold cells in *.
          rewrite length_zip, !length_map in *. lia. }
        cbn [k_columns k_direction]. unfold behind, order_before, cells_before, key_before. rewrite <- Hws.
        destruct (default DESC sd); rewrite sql_row_lt_lex by done; by destruct (lex _ _ _).
    - subst pos. eexists (mkClause orderKey (default DESC sd) None), _. split_and!; [|done..].
      unfold buildKeysetClause. rewrite Hval. by rewrite Hok at 1. }
  assert (Hsel : select (λ r, extra r && test r) table = select (λ r, extra r && behind pos r) table).
  { apply List.filter_ext_in. intros r Hr%list_elem_of_In. by rewrite Hbehind. }
  unfold keysetPaginate. rewrite Hkey, Hk, Htest, Hcol, Hdir, Hsel. fold rows. fold n.
  pose proof (size_bounds ps) as Hn. fold n in Hn.
  unfold processKeysetResults. rewrite length_take.
  destruct (Nat.ltb_spec n ((n + 1) `min` length rows)) as [Hlt|Hge].
  - rewrite take_take. replace (n `min` (n + 1))%nat with n by lia.
    destruct (last (take n rows)) as [item|] eqn:Hlast.
    2:{ apply last_None in Hlast. apply (f_equal length) in Hlast. rewrite length_take in Hlast. cbn in Hlast. lia. }
    assert (Hitem : rounding_row item).
    { rewrite Forall_forall in Hround. apply Hround.
      assert (item ∈ rows) as Hin by (apply (subseteq_take n); by apply last_Some_elem_of).
      pose proof order_strict. unfold rows, sql_order in Hin.
      apply (elem_of_order_by (cells row_cell orderKey) order_before), elem_of_select in Hin. apply Hin. }
    destruct (rounding_row_texts item Hitem) as (us & _ & Hts & Hwf & _).
    destruct (keyset_cursor_decodes row_cell js_String orderKey item _ HndK Hcols Hts Hwf) as (c & Henc & _).
    rewrite Henc. eexists. split; [done|]. right. exists item, c. split_and!; [lia|done..].
  - eexists. split; [|left; split; [lia|done]]. rewrite !take_ge by lia. done.
Qed.

Section table.
Context (table : list R) (Hround : Forall rounding_row table)
        (Hnd : NoDup (map (cells row_cell orderKey) table)).

Let sorted : list R := sql_order row_cell cell_ltb orderKey (default DESC sd) (select extra table).

Lemma rows_behind pos :
  sql_order row_cell cell_ltb orderKey (default DESC sd) (select (λ r, extra r && behind pos r) table)
  = select (behind pos) sorted.
Proof.
  unfold sql_order. rewrite select_and. apply (order_by_filter (cells row_cell orderKey) order_before).
  by apply NoDup_map_filter.
Qed.

Lemma sorted_in_order : in_order sorted.
Proof. apply order_by_strict; [apply order_strict|]. by apply NoDup_map_filter. Qed.

Lemma elem_of_sorted r : r ∈ sorted ↔ r ∈ table ∧ extra r = true.
Proof.
  pose proof order_strict. unfold sorted, sql_order.
  rewrite (elem_of_order_by (cells row_cell orderKey) order_before), elem_of_select. done.
Qed.

Lemma behind_trans pos r1 r2 :
  behind pos r1 = true → order_before (cells row_cell orderKey r1) (cells row_cell orderKey r2) = true →
  behind pos r2 = true.
Proof. destruct pos; [|done]. cbn. apply (lt_trans (StrictTotal := order_strict)). Qed.

(** The rows behind a reading are some of the rows the page left. *)
Lemma next_rows pos n item vs :
  (n < length (select (behind pos) sorted))%nat → last (take n (select (behind pos) sorted)) = Some item →
  reading item = Some vs → rounding_row item →
  select (behind (Some vs)) sorted = select (behind (Some vs)) (drop n (select (behind pos) sorted)).
Proof.
  intros Hn Hlast Hread Hitem. destruct (take_last _ _ _ Hn Hlast) as (l1 & _ & Hsplit).
  assert (Hin : item ∈ select (behind pos) sorted) by (rewrite Hsplit; set_solver).
  apply elem_of_select in Hin as [_ Hpos].
  assert (Hs : in_order (select (behind pos) sorted)) by apply strictly_sorted_filter, sorted_in_order.
  pose proof (strictly_sorted_after (cells row_cell orderKey) order_before l1 item (drop n (select (behind pos) sorted))) as Ha.
  rewrite <- Hsplit in Ha. rewrite <- (Ha Hs).
  fold (select (λ r, order_before (cells row_cell orderKey item) (cells row_cell orderKey r)) (select (behind pos) sorted)).
  rewrite !select_implied; [done|..].
  - intros r _ Hr. by eapply behind_trans, behind_reading.
  - intros r _ Hr. by eapply behind_reading.
Qed.

(** What a traversal from a position may return and leave out. *)
Definition traversal_from (pos : option (list cell)) (answer : outcome app_error (list R)) : Prop :=
  match answer with
  | Ok rows =>
      in_order rows ∧ Forall (λ r, r ∈ sorted ∧ behind pos r = true) rows ∧
      ∀ r, r ∈ sorted → behind pos r = true → r ∈ rows ∨ ∃ item, item ∈ rows ∧ skipped_after item r
  | Throw e => e = query_failed ∧ ∃ item, item ∈ table ∧ reading item = None
  end.

Lemma refused_cursor item c i fuel :
  rounding_row item → encodeKeysetCursor row_cell js_String orderKey item = Ok c → reading item = None →
  collect row_cell js_String read_as cell_ltb tableName ps sd extra (S fuel) (λ _, table) i (Some c)
  = Throw query_failed.
Proof.
  intros Hitem Henc Hread. pose proof (getKeysetOrderKey_Some _ _ Hkey) as Hok.
  assert (HndK : NoDup orderKey) by (rewrite Hok; apply (bool_decide_unpack _); by vm_compute).
  assert (Hcols : Forall (λ c, is_column_name c = true) orderKey) by (rewrite Hok; by repeat constructor).
  assert (Hval : validate_all orderKey = Ok orderKey) by by rewrite Hok.
  destruct (rounding_row_texts item Hitem) as (us & _ & Hts & Hwf & _).
  destruct (keyset_cursor_decodes row_cell js_String orderKey item _ HndK Hcols Hts Hwf) as (c' & Henc' & Hc & Hdec).
  rewrite Henc in Henc'. injection Henc' as <-.
  unfold reading in Hread. rewrite Hts in Hread. cbn in Hread.
  assert (Hk : buildKeysetClause orderKey (Some c) (default DESC sd)
    = Ok (mkClause orderKey (default DESC sd) (Some (map js_String us)))).
  { unfold buildKeysetClause. rewrite Hval. rewrite Hok at 1. destruct c; [by destruct Hc|]. by rewrite Hdec. }
  cbn [collect]. unfold keysetPaginate. rewrite Hkey, Hk. unfold position_test. cbn [k_position k_columns].
  by rewrite Hread.
Qed.

Lemma collect_behind fuel : ∀ i pos cursor,
  cursor_of pos cursor → (length (select (behind pos) sorted) < fuel)%nat →
  traversal_from pos
    (collect row_cell js_String read_as cell_ltb tableName ps sd extra fuel (λ _, table) i cursor).
Proof.
  induction fuel as [|fuel IH]; intros i pos cursor Hat Hf; [lia|]. cbn [collect].
  destruct (page_behind cursor pos table Hat Hround) as (next & -> & Hnext). cbn [k_nextCursor k_data].
  rewrite rows_behind in Hnext |- *. set (n := size_of (clampKeysetPageSize ps)) in *.
  pose proof (size_bounds ps) as Hn. fold n in Hn.
  assert (Hs : in_order (select (behind pos) sorted)) by apply strictly_sorted_filter, sorted_in_order.
  destruct Hnext as [[Hlen ->]|(item & c & Hlen & Hlast & -> & Henc)].
  { rewrite take_ge by done. split_and!; [done|apply Forall_forall; by intros r Hr%elem_of_select|].
    intros r Hr Hb. left. by apply elem_of_select. }
  assert (Hin : item ∈ select (behind pos) sorted) by (apply (subseteq_take n); by apply last_Some_elem_of).
  apply elem_of_select in Hin as [Hin Hpos].
  assert (Hitem : rounding_row item).
  { rewrite Forall_forall in Hround. apply Hround. by apply elem_of_sorted in Hin as [? _]. }
  destruct (reading item) as [vs|] eqn:Hread.
  2:{ destruct fuel; [lia|]. rewrite (refused_cursor item c) by done. split; [done|]. exists item.
      by apply elem_of_sorted in Hin as [? _]. }
  pose proof (next_rows pos n item vs Hlen Hlast Hread Hitem) as Hrest.
  specialize (IH (S i) (Some vs) (Some c)). destruct (collect _ _ _ _ _ _ _ _ _ _ _ _) as [rest|e].
  - destruct IH as (Hsr & Hfr & Hmiss).
    { by exists item, vs. }
    { rewrite Hrest. pose proof (List.filter_length_le (behind (Some vs)) (drop n (select (behind pos) sorted))).
      unfold select in *. rewrite length_drop in *. lia. }
    destruct (take_last _ _ _ Hlen Hlast) as (l1 & Ht & Hsplit). rewrite Ht.
    rewrite Forall_forall in Hfr. split_and!.
    + rewrite Hsplit in Hs. eapply (strictly_sorted_replace_tail (cells row_cell orderKey) order_before); [exact Hs|done|].
      apply Forall_forall. intros r Hr. destruct (Hfr r Hr) as [_ Hb]. by eapply behind_reading.
    + apply Forall_forall. intros r [Hr|Hr]%elem_of_app.
      * rewrite <- Ht in Hr. apply (subseteq_take n) in Hr. by apply elem_of_select in Hr.
      * destruct (Hfr r Hr) as [Hrs Hb]. split; [done|]. by eapply behind_trans, behind_reading.
    + intros r Hr Hb. destruct (behind (Some vs) r) eqn:Hbr.
      * destruct (Hmiss r Hr Hbr) as [?|(it & Hit & Hsk)]; [left; set_solver|right; exists it; set_solver].
      * assert (Hrin : r ∈ select (behind pos) sorted) by by apply elem_of_select.
        rewrite <- (take_drop n), Ht in Hrin. apply elem_of_app in Hrin as [Hl|Hl]; [left; set_solver|].
        right. exists item. split; [set_solver|]. exists vs. split_and!; [done..|].
        rewrite <- (strictly_sorted_after (cells row_cell orderKey) order_before l1 item (drop n (select (behind pos) sorted))) in Hl
          by (by rewrite <- Hsplit).
        by apply list_elem_of_In, List.filter_In in Hl as [_ ?].
  - apply IH; [by exists item, vs|]. rewrite Hrest.
    pose proof (List.filter_length_le (behind (Some vs)) (drop n (select (behind pos) sorted))).
    unfold select in *. rewrite length_drop in *. lia.
Qed.

(** C9: on a table that does not change and whose order keys are complete and
    different, following the cursors in the direction the routes use
    (descending) ends whatever precision the key's texts lose on their way
    through the driver, as long as a text is read as nothing later than the value
    it was made from.  The rows returned are in the order of the composite key,
    each once, and all satisfy the filter.  A row that satisfies the filter and is
    not returned lies between the last row of a page and what the database reads
    that row's cursor as, so nothing is missed where the texts are exact;
    node-postgres hands a timestamp over without its milliseconds
    ([date_cursor_skips_rows]).  The only error is the database's refusal of the
    text of some row's key. *)
Theorem keyset_traversal_sound :
  match collect row_cell js_String read_as cell_ltb tableName ps sd extra (S (length table)) (fun _ => table) 0 None with
  | Ok rows =>
      in_order rows /\ NoDup rows /\ (forall r, r ∈ rows -> r ∈ table /\ extra r = true) /\
      forall r, r ∈ table -> extra r = true -> r ∈ rows \/ exists item, item ∈ rows /\ skipped_after item r
  | Throw e => e = query_failed /\ exists item, item ∈ table /\ reading item = None
  end.
Proof.
  assert (Hlen : (length (select (behind None) sorted) < S (length table))%nat).
  { pose proof order_strict. pose proof (List.filter_length_le (behind None) sorted) as H1.
    assert (length sorted = length (select extra table)) as H2
      by (apply Permutation_length, (order_by_perm (cells row_cell orderKey) order_before)).
    pose proof (List.filter_length_le extra table) as H3. unfold select in *. lia. }
  pose proof (collect_behind _ 0 None None eq_refl Hlen) as H.
  destruct (collect _ _ _ _ _ _ _ _ _ _ _ _) as [rows|e]; [|exact H]. destruct H as (H1 & H2 & H3).
  rewrite Forall_forall in H2. split_and!; [done|eapply strictly_sorted_NoDup; [apply order_strict|exact H1]| |].
  - intros r Hr. by apply elem_of_sorted, H2.
  - intros r Hr He. apply H3; [|done]. by apply elem_of_sorted.
Qed.
End table.
End rounding.

(** ** Errors and statement texts *)

Lemma decodeKeysetCursor_Throw c key e : decodeKeysetCursor c key = Throw e → e = invalid_cursor.
Proof. unfold decodeKeysetCursor. repeat case_match; intros [= <-]; done. Qed.

(** a cursor that does not decode to exactly the order key is answered with
    the invalid-cursor validation error whatever the table holds; a text that
    does decode carries one value per column. *)
Theorem malformed_cursor_rejected {R cell : Type} (row_cell : R -> string -> option cell)
    (js_String : cell -> string) (read_as : string -> string -> option cell)
    (cell_ltb : cell -> cell -> bool) tableName orderKey c ps sd extra table
    (Hkey : getKeysetOrderKey tableName = Some orderKey) (Hc : c <> "") :
  match decodeKeysetCursor c orderKey with
  | Ok values => length values = length orderKey
  | Throw _ => keysetPaginate row_cell js_String read_as cell_ltb tableName (Some c) ps sd extra table
               = Throw invalid_cursor
  end.
Proof.
  destruct (decodeKeysetCursor c orderKey) as [values|e] eqn:Hd.
  - unfold decodeKeysetCursor in Hd. rewrite bool_decide_eq_false_2 in Hd by done.
    repeat case_match; try done. injection Hd as <-.
    match goal with H : mapM _ _ = Some _ |- _ => apply mapM_Some_1, Forall2_length in H; by rewrite H end.
  - pose proof (decodeKeysetCursor_Throw _ _ _ Hd) as ->.
    unfold keysetPaginate. rewrite Hkey. pose proof (getKeysetOrderKey_Some _ _ Hkey) as ->.
    unfold buildKeysetClause.
    change (validate_all ["created_at"; "id"]) with (@Ok app_error _ ["created_at"; "id"]). cbv iota.
    destruct c; [by destruct Hc|]. by rewrite Hd.
Qed.

(** Letters, digits, underscore and the punctuation of the templates. *)
Definition statement_char (c : ascii) : bool :=
  is_word c || bool_decide (c ∈ chars " ,()<>?").

Definition statement_text (s : string) : bool := all_chars statement_char s.

Lemma statement_text_app a b : statement_text (a +:+ b) = statement_text a && statement_text b.
Proof. unfold statement_text, all_chars. by rewrite chars_app, forallb_app. Qed.

Lemma column_statement_text s : is_column_name s = true → statement_text s = true.
Proof.
  unfold is_column_name, statement_text, all_chars. destruct (chars s) as [|c l]; [done|].
  intros [Hc Hl]%andb_true_iff. cbn [forallb]. apply andb_true_iff. split.
  - unfold statement_char, is_word, is_alnum. destruct (is_upper c), (is_lower c), (is_digit c); cbn in *; try done.
    by rewrite Hc.
  - rewrite forallb_forall in Hl |- *. intros x Hx. unfold statement_char. by rewrite (Hl x Hx).
Qed.

Lemma statement_text_join sep l :
  statement_text sep = true → Forall (λ s, statement_text s = true) l → statement_text (join sep l) = true.
Proof.
  unfold join. intros Hsep. induction 1 as [|s l Hs Hl IH]; [done|]. destruct l as [|s' l]; [done|].
  change (String.concat sep (s :: s' :: l)) with (s +:+ sep +:+ String.concat sep (s' :: l)).
  by rewrite !statement_text_app, Hs, Hsep, IH.
Qed.

(** neither a cursor nor a sort column of a request reaches the text of a
    statement, except a sort column that is an identifier: the conditions and
    orders built hold identifier characters and template punctuation only. *)
Theorem cursor_statement_text (options : CursorPaginationOptions) (orderKey : list string)
    (cursor : option string) (d : direction) :
  match buildCursorQueryParams options with
  | Ok q => is_column_name (sortColumn q) = true /\ statement_text (cursorWhereText q) = true /\
            statement_text (cursorOrderText q) = true /\ limit q = S (q_pageSize q)
  | Throw e => e = GenericError "invalid column name"
  end /\
  match buildKeysetClause orderKey cursor d with
  | Ok k => k_columns k = orderKey /\ statement_text (keysetWhereText k) = true /\
            statement_text (keysetOrderText k) = true
  | Throw _ => True
  end.
Proof.
  split.
  - unfold buildCursorQueryParams, validateColumnName. set (column := match opt_sortColumn options with Some _ => _ | None => _ end).
    destruct (is_column_name column) eqn:Hc; [|done]. cbn [sortColumn limit q_pageSize].
    pose proof (column_statement_text _ Hc) as Ht. split; [done|]. split; [|split; [|lia]].
    + unfold cursorWhereText. cbn [beyond sortColumn sortDirection].
      destruct (opt_cursor options ≫= _); [|done].
      rewrite !statement_text_app, Ht. by destruct (opt_sortDirection options) as [[]|].
    + unfold cursorOrderText. cbn [sortColumn sortDirection]. rewrite !statement_text_app, Ht.
      by destruct (opt_sortDirection options) as [[]|].
  - destruct (buildKeysetClause orderKey cursor d) as [k|] eqn:Hk; [|done].
    assert (k_columns k = orderKey ∧ Forall (λ c, is_column_name c = true) orderKey) as [Hcol Hall].
    { unfold buildKeysetClause in Hk. destruct orderKey as [|c0 cs]; [done|].
      destruct (validate_all (c0 :: cs)) as [cols|] eqn:Hv; [|done].
      apply validate_all_Ok in Hv as [-> Hall]. destruct cursor as [[|]|]; [by injection Hk as <-| |by injection Hk as <-].
      destruct (decodeKeysetCursor _ _); [by injection Hk as <-|done]. }
    assert (Hts : Forall (λ s, statement_text s = true) orderKey)
      by by (eapply Forall_impl; [exact Hall|apply column_statement_text]).
    split; [done|]. split.
    + unfold keysetWhereText. destruct (k_position k); [|done]. rewrite Hcol, !statement_text_app.
      rewrite (statement_text_join ", " orderKey), (statement_text_join ", " (map _ orderKey)) by
        (done || (apply Forall_forall; by intros x (y & <- & _)%list_elem_of_In%in_map_iff)).
      by destruct (k_direction k).
    + unfold keysetOrderText. rewrite Hcol. apply statement_text_join; [done|].
      apply Forall_forall. intros x (y & <- & Hy%list_elem_of_In)%list_elem_of_In%in_map_iff.
      rewrite Forall_forall in Hts. rewrite !statement_text_app, (Hts y Hy). by destruct (k_direction k).
Qed.

Lemma cursor_round_trip value column :
  well_formed value = true → well_formed column = true → column ≠ "" →
  decodeCursor (encodeCursor value column) = Some (mkDecoded value column).
Proof.
  intros Hv Hc Hne. unfold decodeCursor, encodeCursor.
  rewrite base64url_json_round_trip; [|done|by cbn [json_utf8 forallb fst snd]; rewrite Hv, Hc].
  assert (json_field "value" (JObj [("value", JStr value); ("column", JStr column)]) = Some (JStr value)) as Hf by done.
  assert (json_field "column" (JObj [("value", JStr value); ("column", JStr column)]) = Some (JStr column)) as Hg by done.
  cbn [mbind option_bind]. rewrite Hf, Hg. cbn [mbind option_bind json_string].
  by rewrite bool_decide_eq_false_2.
Qed.

(** ** A concrete table *)

Module Rows.
(** Time stamps in milliseconds, and identifiers. *)
Inductive value := Stamp (ms : N) | Id (n : N).
#[export] Instance value_eq_dec : EqDecision value.
Proof. solve_decision. Defined.

Definition value_ltb (a b : value) : bool :=
  match a, b with
  | Stamp x, Stamp y | Id x, Id y => (x <? y)%N
  | Stamp _, Id _ => true
  | Id _, Stamp _ => false
  end.

#[export] Instance value_strict : StrictTotal value_ltb.
Proof.
  split; intros [x|x]; repeat intros [?|?]; cbn; rewrite ?N.ltb_lt, ?N.ltb_ge; try done; try lia;
    intros; f_equal; lia.
Qed.

Record finding := mkFinding { created_at : N; id : N }.
Definition finding_cell (r : finding) (column : string) : option value :=
  if bool_decide (column = "created_at") then Some (Stamp (created_at r))
  else if bool_decide (column = "id") then Some (Id (id r)) else None.

(** A driver that hands over texts with their milliseconds. *)
Definition text_of (v : value) : string := match v with Stamp n | Id n => pretty n end.
Definition read_text (column s : string) : option value :=
  if bool_decide (column = "created_at") then Some (Stamp (decimal_value s)) else Some (Id (decimal_value s)).

(** A driver that hands over [Date] objects, whose [String] has whole seconds. *)
Definition text_of_date (v : value) : string :=
  match v with Stamp n => pretty (n / 1000)%N | Id n => pretty n end.
Definition read_date (column s : string) : option value :=
  if bool_decide (column = "created_at") then Some (Stamp (decimal_value s * 1000))
  else Some (Id (decimal_value s)).

Definition findings : list finding := [mkFinding 1400 2; mkFinding 9000 1; mkFinding 1500 3].
Definition page1 : option js_num := Some (int 1).

Lemma findings_sound : sound_table finding_cell text_of read_text ["created_at"; "id"] findings.
Proof.
  split; [|apply (bool_decide_unpack _); by vm_compute].
  repeat constructor; eexists; (split; [reflexivity|split; by vm_compute]).
Qed.

Lemma findings_round : Forall (rounding_row finding_cell text_of_date read_date value_ltb ["created_at"; "id"]) findings.
Proof.
  repeat constructor; eexists; (split; [reflexivity|split; [by vm_compute|]]); vm_compute; intros w [= <-]; done.
Qed.
End Rows.

Import Rows.

Lemma keyset_cursor_round_trip_witness :
  exists c, encodeKeysetCursor finding_cell text_of ["created_at"; "id"] (mkFinding 1400 2) = Ok c /\
            c <> "" /\ decodeKeysetCursor c ["created_at"; "id"] = Ok ["1400"; "2"].
Proof.
  apply (keyset_cursor_round_trip finding_cell text_of ["created_at"; "id"] (mkFinding 1400 2) ["1400"; "2"]).
  - apply (bool_decide_unpack _). by vm_compute.
  - by repeat constructor.
  - by vm_compute.
  - by repeat constructor.
Defined.

Lemma keyset_traversal_complete_witness :
  collect finding_cell text_of read_text value_ltb "audit_findings" page1 None (fun _ => true)
    4 (fun _ => findings) 0 None = Ok [mkFinding 9000 1; mkFinding 1500 3; mkFinding 1400 2].
Proof.
  exact (keyset_traversal_complete finding_cell text_of read_text value_ltb "audit_findings" page1 None
    (fun _ => true) ["created_at"; "id"] findings eq_refl findings_sound).
Defined.

(** with a driver that hands over [Date] objects, [String(value)] drops the
    milliseconds and the next page starts a second too early: rows of the
    cursor's second are never returned. *)
Theorem date_cursor_skips_rows :
  collect finding_cell text_of_date read_date value_ltb "audit_findings" page1 None (fun _ => true)
    4 (fun _ => findings) 0 None = Ok [mkFinding 9000 1; mkFinding 1500 3].
Proof. by vm_compute. Qed.

Lemma keyset_traversal_sound_witness :
  exists item, skipped_after finding_cell text_of_date read_date value_ltb None ["created_at"; "id"] item (mkFinding 1400 2).
Proof.
  pose proof (keyset_traversal_sound finding_cell text_of_date read_date value_ltb "audit_findings" page1 None
    (fun _ => true) ["created_at"; "id"] eq_refl ltac:(discriminate) findings findings_round
    ltac:(apply (bool_decide_unpack _); vm_compute; reflexivity)) as H.
  change (S (length findings)) with 4%nat in H. rewrite date_cursor_skips_rows in H.
  destruct H as (_ & _ & _ & H). destruct (H (mkFinding 1400 2)) as [Hin|(item & _ & Hsk)].
  - apply list_elem_of_In. cbn. by left.
  - reflexivity.
  - exfalso. apply list_elem_of_In in Hin. cbn in Hin. by destruct Hin as [?|[?|?]].
  - by exists item.
Defined.

(** in ascending order such a driver makes a page's cursor lead to the same page again. *)
Theorem ascending_dates_repeat :
  exists c, let page cursor := keysetPaginate finding_cell text_of_date read_date value_ltb "audit_findings"
                                 cursor page1 (Some ASC) (fun _ => true) findings in
    page None = Ok (mkKeysetPage [mkFinding 1400 2] (Some c)) /\ page (Some c) = page None.
Proof.
  destruct (encodeKeysetCursor finding_cell text_of_date ["created_at"; "id"] (mkFinding 1400 2)) as [c|] eqn:Hc;
    [|by vm_compute in Hc].
  exists c. vm_compute in Hc. injection Hc as <-. split; by vm_compute.
Qed.

Lemma keyset_traversal_stable_witness :
  mkFinding 1400 2 ∈ [mkFinding 9000 1; mkFinding 1500 3; mkFinding 1400 2].
Proof.
  pose proof (keyset_traversal_stable finding_cell text_of read_text value_ltb "audit_findings" page1 None
    (fun _ => true) ["created_at"; "id"] (fun _ => findings) 4
    [mkFinding 9000 1; mkFinding 1500 3; mkFinding 1400 2] eq_refl (fun _ => findings_sound)
    ltac:(vm_compute; reflexivity)) as (_ & _ & H).
  apply H; [|reflexivity]. intros _. apply list_elem_of_In. cbn. by left.
Defined.

Lemma malformed_cursor_rejected_witness :
  keysetPaginate finding_cell text_of read_text value_ltb "audit_findings" (Some "bm90IGpzb24") page1 None
    (fun _ => true) findings = Throw invalid_cursor.
Proof.
  exact (malformed_cursor_rejected finding_cell text_of read_text value_ltb "audit_findings"
    ["created_at"; "id"] "bm90IGpzb24" page1 None (fun _ => true) findings eq_refl ltac:(discriminate)).
Defined.

(** the single-column cursor skips the rows that share the sort value of a
    page's last row. *)
Theorem column_cursor_skips_equal :
  let table := [mkFinding 5 1; mkFinding 5 2; mkFinding 4 3] in
  let options c := mkOptions c page1 None None in
  exists c, cursorPaginate finding_cell text_of read_text value_ltb (options None) (fun _ => true) table
            = Ok (mkPage [mkFinding 5 1] (Some c) true) /\
       cursorPaginate finding_cell text_of read_text value_ltb (options (Some c)) (fun _ => true) table
            = Ok (mkPage [mkFinding 4 3] None false).
Proof. exists (encodeCursor "5" "created_at"). split; by vm_compute. Qed.
