(* ===== verification/TwoFactor.v ===== *)
(** * Two-factor authentication ([services/TOTPService.ts],
    [routes/auth/twoFactor.ts], [routes/auth/login.ts])

    Time-based codes with their window, replay check and attempt counter,
    backup codes, enrolment, and the routes that hand out a session after the
    second factor.  Encryption, [bcrypt], the code of a counter ([otpauth]), the
    signing of tokens and the random bytes are parameters; every reading of the
    clock is an argument. *)

From S2P Require Import Prelude JsMap JsStrings Json ModuleRegistry Accounts AuthMiddleware AuthService.
Local Open Scope Z_scope.

(** ** Tables *)

(** The columns [secret_encrypted], [secret_iv], [secret_tag]. *)
Record sealed := { sl_encrypted : string; sl_iv : string; sl_tag : string }.

(** A row of [user_totp]; [tt_backup] is the JSON text of the hashes. *)
Record totp_row := {
  tt_user : string; tt_secret : sealed; tt_enabled : bool; tt_backup : string; tt_last_used : option Z }.

(** The two-factor columns of [users]. *)
Record totp_user := {
  tu_id : string; tu_failed : option Z; tu_locked : option Z; tu_requires_setup : bool }.

Record tf_state := { logins : login_state; totp_users : list totp_user; user_totp : list totp_row }.

Definition with_logins (l : login_state) (s : tf_state) : tf_state :=
  {| logins := l; totp_users := s.(totp_users); user_totp := s.(user_totp) |}.
Definition with_totp_users (l : list totp_user) (s : tf_state) : tf_state :=
  {| logins := s.(logins); totp_users := l; user_totp := s.(user_totp) |}.
Definition with_user_totp (l : list totp_row) (s : tf_state) : tf_state :=
  {| logins := s.(logins); totp_users := s.(totp_users); user_totp := l |}.

Definition tf_action := action app_error tf_state.

Definition is_tu (id : string) (u : totp_user) : bool := bool_decide (u.(tu_id) = id).
Definition is_row (id : string) (r : totp_row) : bool := bool_decide (r.(tt_user) = id).
Definition totp_user_of (s : tf_state) (id : string) : option totp_user := select_one (is_tu id) s.(totp_users).
Definition totp_of (s : tf_state) (id : string) : option totp_row := select_one (is_row id) s.(user_totp).

Definition set_attempts (failed locked : option Z) (u : totp_user) : totp_user :=
  {| tu_id := u.(tu_id); tu_failed := failed; tu_locked := locked; tu_requires_setup := u.(tu_requires_setup) |}.
Definition clear_requires_setup (u : totp_user) : totp_user :=
  {| tu_id := u.(tu_id); tu_failed := u.(tu_failed); tu_locked := u.(tu_locked); tu_requires_setup := false |}.
Definition set_last_used (t : Z) (r : totp_row) : totp_row :=
  {| tt_user := r.(tt_user); tt_secret := r.(tt_secret); tt_enabled := r.(tt_enabled);
     tt_backup := r.(tt_backup); tt_last_used := Some t |}.
Definition set_backup (backup : string) (r : totp_row) : totp_row :=
  {| tt_user := r.(tt_user); tt_secret := r.(tt_secret); tt_enabled := r.(tt_enabled);
     tt_backup := backup; tt_last_used := r.(tt_last_used) |}.
Definition set_enabled (r : totp_row) : totp_row :=
  {| tt_user := r.(tt_user); tt_secret := r.(tt_secret); tt_enabled := true;
     tt_backup := r.(tt_backup); tt_last_used := r.(tt_last_used) |}.

Definition update_totp_user (id : string) (f : totp_user → totp_user) : tf_action unit :=
  modify (λ s, with_totp_users (update_where (is_tu id) f s.(totp_users)) s).
Definition update_totp (id : string) (f : totp_row → totp_row) : tf_action unit :=
  modify (λ s, with_user_totp (update_where (is_row id) f s.(user_totp)) s).
Definition on_logins {A} (m : action app_error login_state A) : tf_action A := λ s,
  let '(r, l) := m s.(logins) in (r, with_logins l s).

(** ** Constants *)

Definition TOTP_PERIOD : Z := 30.
Definition PERIOD_MS : Z := TOTP_PERIOD * 1000.
Definition TOTP_DIGITS : nat := 6.
Definition BACKUP_CODE_COUNT : nat := 10.
Definition BACKUP_CODE_LENGTH : nat := 8.
Definition MAX_2FA_ATTEMPTS : Z := 5.
Definition ATTEMPT_WINDOW_MINUTES : Z := 15.

(** ** Backup codes *)

Definition BACKUP_ALPHABET : string := "ABCDEFGHIJKLMNOPQRSTUVWXYZabcdefghijklmnopqrstuvwxyz0123456789".

Definition backup_char (byte : N) : ascii :=
  nth (N.to_nat (byte mod 62)) (chars BACKUP_ALPHABET) "A"%char.

(** [random i j] is the byte [j] of the [i]-th call of [randomBytes]. *)
Definition generateBackupCodes (random : nat → nat → N) : list string :=
  map (λ i, of_chars (map (λ j, backup_char (random i j)) (seq 0 BACKUP_CODE_LENGTH))) (seq 0 BACKUP_CODE_COUNT).

(** The readings of the clock in one [verify], in order. *)
Record clock := {
  ck_lock : Z; ck_validate : Z; ck_generate : Z; ck_counter : Z; ck_used : Z; ck_failed : Z }.

(** The claims of a temporary token. *)
Record temp_claims := { tc_id : string; tc_username : string; tc_type : string }.

(** The random material of an enrolment. *)
Record setup_random := { sr_secret : string; sr_iv : string; sr_bytes : nat → nat → N }.

Record setup_result := { st_secret : string; st_backup_codes : list string }.

(** Answers of the routes. *)
Inductive tf_reply : Type :=
  | Tokens (user : account) (token refreshToken : string)
  | Requires2FA (tempToken : string)
  | Requires2FASetup (tempToken : string)
  | Enrolment (r : setup_result)
  | Success
  | Refused (status : Z) (message : string).

(** A step that begins after a moment of another step comes later. *)
Lemma later_step counter used step delta :
  counter <= used → used < step * PERIOD_MS → delta <= 0 → counter / PERIOD_MS + delta < step.
Proof. unfold PERIOD_MS, TOTP_PERIOD. intros. Z.to_euclidean_division_equations. lia. Qed.

Section totp.
(** AES-256-GCM under the derived key: sealing with a nonce, opening (or
    [None] when the tag does not verify); missing keys make both throw. *)
Context (encryptSecret : string → string → outcome app_error sealed)
        (decryptSecret : sealed → outcome app_error string).
(** [totp.generate] at a counter, [totp.validate({ token, window: 1 })] at a counter *)
Context (code_at : string → Z → string) (validate : string → string → Z → option Z).
Context (bcrypt_hash : string → string) (bcrypt_compare : string → string → bool).

(** *** [TOTPServiceImpl] *)

Definition setup (userId : string) (rnd : setup_random) : tf_action setup_result :=
  s ← get_state;
  match find_account s.(logins).(adb) userId with
  | None => throw (NotFoundError "User not found")
  | Some _ =>
      match encryptSecret rnd.(sr_secret) rnd.(sr_iv) with
      | Throw e => throw e
      | Ok secret =>
          let backupCodes := generateBackupCodes rnd.(sr_bytes) in
          let backupCodesJson := stringify (JArr (map (λ c, JStr (bcrypt_hash c)) backupCodes)) in
          _ ← modify (λ s, with_user_totp (delete_where (is_row userId) s.(user_totp)) s);
          _ ← modify (λ s, with_user_totp (s.(user_totp) ++
                [{| tt_user := userId; tt_secret := secret; tt_enabled := false;
                    tt_backup := backupCodesJson; tt_last_used := None |}]) s);
          mret {| st_secret := rnd.(sr_secret); st_backup_codes := backupCodes |}
      end
  end.

Definition recordFailed2FAAttempt (now : Z) (userId : string) (maxAttempts windowMinutes : Z) : tf_action unit :=
  _ ← update_totp_user userId (λ u, set_attempts (Some (default 0 u.(tu_failed) + 1)) u.(tu_locked) u);
  s ← get_state;
  match totp_user_of s userId with
  | Some u =>
      if maxAttempts <=? default 0 u.(tu_failed) then
        update_totp_user userId (λ u, set_attempts u.(tu_failed) (Some (now + windowMinutes * 60 * 1000)) u)
      else mret tt
  | None => mret tt
  end.

Definition locked_at (now : Z) (u : option totp_user) : bool :=
  match u ≫= tu_locked with Some t => now <? t | None => false end.

Definition verify (ck : clock) (userId token : string) : tf_action bool :=
  s ← get_state;
  if locked_at ck.(ck_lock) (totp_user_of s userId) then mret false
  else match totp_of s userId with
  | None => mret false
  | Some record =>
      match decryptSecret record.(tt_secret) with
      | Throw e => throw e
      | Ok secret =>
          let fail := _ ← recordFailed2FAAttempt ck.(ck_failed) userId MAX_2FA_ATTEMPTS ATTEMPT_WINDOW_MINUTES;
                      mret false in
          match validate secret token (ck.(ck_validate) / PERIOD_MS) with
          | None => fail
          | Some delta =>
              let expectedToken := code_at secret ((ck.(ck_generate) + delta * PERIOD_MS) / PERIOD_MS) in
              if negb (bool_decide (pad_start TOTP_DIGITS token = pad_start TOTP_DIGITS expectedToken)) then fail
              else
                let matchedCounter := ck.(ck_counter) / PERIOD_MS + delta in
                let codeWindowStartMs := matchedCounter * PERIOD_MS in
                if match record.(tt_last_used) with Some t => codeWindowStartMs <=? t | None => false end then fail
                else
                  _ ← update_totp userId (set_last_used ck.(ck_used));
                  _ ← update_totp_user userId (set_attempts (Some 0) None);
                  mret true
          end
      end
  end.

Definition disable (userId password : string) : tf_action unit :=
  s ← get_state;
  match find_account s.(logins).(adb) userId with
  | None => throw (NotFoundError "User not found")
  | Some user =>
      if negb (bcrypt_compare password user.(ac_password)) then throw (AuthError "Incorrect password")
      else match totp_of s userId with
      | None => throw (NotFoundError "2FA is not configured for this user")
      | Some _ => modify (λ s, with_user_totp (delete_where (is_row userId) s.(user_totp)) s)
      end
  end.

(** The index of the first hash that matches, as the loop finds it. *)
Fixpoint matching_code (code : string) (hashes : list string) : option nat :=
  match hashes with
  | [] => None
  | h :: hs => if bcrypt_compare code h then Some O else S <$> matching_code code hs
  end.

(** [JSON.parse(record.backup_codes_hash)]; [None] when it throws or is not the
    array of strings the column holds ([backups_typed]). *)
Definition stored_hashes (backup : string) : option (list string) :=
  match JSON_parse backup with
  | Some (JArr l) => mapM json_string l
  | _ => None
  end.

Definition useBackupCode (now : Z) (userId code : string) : tf_action bool :=
  s ← get_state;
  match totp_of s userId with
  | None => mret false
  | Some record =>
      match stored_hashes record.(tt_backup) with
      | None => mret false
      | Some hashedCodes =>
          match matching_code code hashedCodes with
          | None => mret false
          | Some matchIndex =>
              let rest := take matchIndex hashedCodes ++ drop (S matchIndex) hashedCodes in
              _ ← update_totp userId (λ r, set_last_used now (set_backup (stringify (JArr (map JStr rest))) r));
              mret true
          end
      end
  end.

Definition isEnabled (userId : string) : tf_action bool :=
  s ← get_state;
  mret (match totp_of s userId with Some r => r.(tt_enabled) | None => false end).

(** *** The routes *)

Context (verifyPassword : string → string → outcome unit bool)
        (sign : token_payload → Z → string) (sha256 : string → string)
        (sign_temp : temp_claims → Z → string) (verify_temp : string → Z → option temp_claims).

Definition verifyTempToken (now : Z) (tempToken expectedType : string) : outcome app_error temp_claims :=
  match verify_temp tempToken now with
  | None => Throw (AuthError "Invalid or expired temp token")
  | Some decoded =>
      if bool_decide (decoded.(tc_type) = expectedType) then Ok decoded else Throw (AuthError "Invalid token type")
  end.

Definition issueFullTokens (now : Z) (userId : string) : tf_action tf_reply :=
  s ← get_state;
  match find_account s.(logins).(adb) userId with
  | None => throw (AuthError "User not found")
  | Some user =>
      let payload r := {| tp_id := user.(ac_id); tp_username := user.(ac_username); tp_role := user.(ac_role);
                          tp_session_version := user.(ac_session_version); tp_remember := r |} in
      let token := sign (payload None) (now / 1000) in
      let refreshToken := sign (payload (Some false)) (now / 1000) in
      _ ← on_logins (insert_refresh_token (sha256 refreshToken) userId (now + 8 * HOUR_MS));
      _ ← on_logins (insert_session userId (sha256 refreshToken));
      mret (Tokens user token refreshToken)
  end.

Definition requires_setup (s : tf_state) (a : account) : bool :=
  from_option tu_requires_setup false (totp_user_of s a.(ac_id)).

(** [POST /login] *)
Definition login_route (now : Z) (usernameOrEmail password : string) (rememberMe : bool) : tf_action tf_reply :=
  s ← get_state;
  result ← on_logins (login verifyPassword sign sha256 now usernameOrEmail password rememberMe (requires_setup s));
  enabled ← isEnabled result.(lr_user).(ac_id);
  let temp type := sign_temp {| tc_id := result.(lr_user).(ac_id); tc_username := result.(lr_user).(ac_username);
                                tc_type := type |} (now / 1000) in
  if enabled : bool then mret (Requires2FA (temp "2fa_pending"))
  else if result.(lr_requires_2fa_setup) then mret (Requires2FASetup (temp "2fa_setup_pending"))
  else mret (Tokens result.(lr_user) result.(lr_token) result.(lr_refresh_token)).

(** [POST /2fa/setup], authenticated *)
Definition setup_route (userId : string) (rnd : setup_random) : tf_action tf_reply :=
  r ← setup userId rnd; mret (Enrolment r).

(** [POST /2fa/verify], authenticated *)
Definition verify_route (ck : clock) (userId token : string) : tf_action tf_reply :=
  isValid ← verify ck userId token;
  if negb isValid then mret (Refused 400 "Invalid TOTP code")
  else (_ ← update_totp userId set_enabled; mret Success).

(** [POST /2fa/validate] *)
Definition validate_route (ck : clock) (now : Z) (tempToken token : string) : tf_action tf_reply :=
  match verifyTempToken now tempToken "2fa_pending" with
  | Throw e => throw e
  | Ok claims =>
      isValid ← verify ck claims.(tc_id) token;
      if negb isValid then mret (Refused 401 "Invalid TOTP code")
      else issueFullTokens now claims.(tc_id)
  end.

(** [POST /2fa/setup-pending] *)
Definition setup_pending_route (now : Z) (tempToken : string) (rnd : setup_random) : tf_action tf_reply :=
  match verifyTempToken now tempToken "2fa_setup_pending" with
  | Throw e => throw e
  | Ok claims =>
      s ← get_state;
      match totp_of s claims.(tc_id) with
      | Some existing =>
          if negb existing.(tt_enabled) then
            mret (Refused 409 "2FA setup already in progress. Complete or retry enrollment.")
          else (r ← setup claims.(tc_id) rnd; mret (Enrolment r))
      | None => r ← setup claims.(tc_id) rnd; mret (Enrolment r)
      end
  end.

(** [POST /2fa/setup-complete] *)
Definition setup_complete_route (ck : clock) (now : Z) (tempToken token : string) : tf_action tf_reply :=
  match verifyTempToken now tempToken "2fa_setup_pending" with
  | Throw e => throw e
  | Ok claims =>
      isValid ← verify ck claims.(tc_id) token;
      if negb isValid then mret (Refused 401 "Invalid TOTP code")
      else
        _ ← update_totp claims.(tc_id) set_enabled;
        _ ← update_totp_user claims.(tc_id) clear_requires_setup;
        issueFullTokens now claims.(tc_id)
  end.

(** [POST /2fa/backup] *)
Definition backup_route (now : Z) (tempToken code : string) : tf_action tf_reply :=
  match verifyTempToken now tempToken "2fa_pending" with
  | Throw e => throw e
  | Ok claims =>
      isValid ← useBackupCode now claims.(tc_id) code;
      if negb isValid then mret (Refused 401 "Invalid backup code")
      else issueFullTokens now claims.(tc_id)
  end.

(** [DELETE /2fa], authenticated *)
Definition disable_route (userId password : string) : tf_action tf_reply :=
  try_catch (_ ← disable userId password; mret Success)
    (λ e, if statusCode e =? 401 then mret (Refused 401 "Incorrect password") else throw e).

(** ** Codes *)

Lemma select_one_update_same {row} (p : row → bool) f (t : list row) :
  (∀ r, p r = true → p (f r) = true) →
  select_one p (update_where p f t) = f <$> select_one p t.
Proof.
  intros H. rewrite select_one_update by (intros r Hr; by rewrite H, Hr).
  destruct (select_one p t) as [r|] eqn:Hs; [|done]. cbn.
  apply select_one_Some in Hs as [_ ->]. done.
Qed.

Lemma totp_of_update s id f :
  (∀ r, (f r).(tt_user) = r.(tt_user)) →
  totp_of (with_user_totp (update_where (is_row id) f s.(user_totp)) s) id = f <$> totp_of s id.
Proof.
  intros H. unfold totp_of. cbn. apply select_one_update_same. intros r. unfold is_row. by rewrite H.
Qed.

Lemma totp_user_of_update s id f :
  (∀ u, (f u).(tu_id) = u.(tu_id)) →
  totp_user_of (with_totp_users (update_where (is_tu id) f s.(totp_users)) s) id = f <$> totp_user_of s id.
Proof.
  intros H. unfold totp_user_of. cbn. apply select_one_update_same. intros r. unfold is_tu. by rewrite H.
Qed.

Lemma with_totp_users_twice l1 l2 s : with_totp_users l1 (with_totp_users l2 s) = with_totp_users l1 s.
Proof. done. Qed.

(** What a failed attempt does: one more failure, and the lock from the fifth on. *)
Definition after_failed_code (now : Z) (u : totp_user) : totp_user :=
  let n := default 0 u.(tu_failed) + 1 in
  set_attempts (Some n) (if MAX_2FA_ATTEMPTS <=? n then Some (now + ATTEMPT_WINDOW_MINUTES * 60 * 1000) else u.(tu_locked)) u.

Lemma recordFailed_run now id s :
  ∃ s', recordFailed2FAAttempt now id MAX_2FA_ATTEMPTS ATTEMPT_WINDOW_MINUTES s = (Ok tt, s') ∧
    totp_user_of s' id = after_failed_code now <$> totp_user_of s id ∧
    s'.(user_totp) = s.(user_totp) ∧ s'.(logins) = s.(logins).
Proof.
  unfold recordFailed2FAAttempt, update_totp_user, modify, mbind, action_bind, get_state, mret, action_ret.
  rewrite totp_user_of_update by done.
  destruct (totp_user_of s id) as [u|] eqn:Hu; cbn [fmap option_fmap option_map].
  2:{ eexists. split; [done|]. split; [|done]. by rewrite totp_user_of_update, Hu. }
  cbn [tu_failed set_attempts from_option Datatypes.id]. unfold after_failed_code.
  destruct (MAX_2FA_ATTEMPTS <=? default 0 (tu_failed u) + 1) eqn:Hle.
  - eexists. split; [done|]. split; [|done].
    rewrite totp_user_of_update, totp_user_of_update, Hu by done. done.
  - eexists. split; [done|]. split; [|done]. by rewrite totp_user_of_update, Hu.
Qed.

(** What [verify] has checked when it answers true, and what it leaves. *)
Definition accepted (ck : clock) (id token : string) (s s' : tf_state) (delta : Z) : Prop :=
  ∃ record secret, totp_of s id = Some record ∧ decryptSecret record.(tt_secret) = Ok secret ∧
    validate secret token (ck.(ck_validate) / PERIOD_MS) = Some delta ∧
    pad_start TOTP_DIGITS token =
      pad_start TOTP_DIGITS (code_at secret ((ck.(ck_generate) + delta * PERIOD_MS) / PERIOD_MS)) ∧
    (∀ t, record.(tt_last_used) = Some t → t < (ck.(ck_counter) / PERIOD_MS + delta) * PERIOD_MS) ∧
    totp_of s' id = Some (set_last_used ck.(ck_used) record) ∧
    totp_user_of s' id = set_attempts (Some 0) None <$> totp_user_of s id.

Lemma verify_cases ck id token s :
  match verify ck id token s with
  | (Ok true, s') => locked_at ck.(ck_lock) (totp_user_of s id) = false ∧ s'.(logins) = s.(logins) ∧
      ∃ delta, accepted ck id token s s' delta
  | (Ok false, s') => s'.(user_totp) = s.(user_totp) ∧ s'.(logins) = s.(logins) ∧
      (s' = s ∧ (locked_at ck.(ck_lock) (totp_user_of s id) = true ∨ totp_of s id = None) ∨
       totp_user_of s' id = after_failed_code ck.(ck_failed) <$> totp_user_of s id)
  | (Throw e, s') => s' = s ∧ ∃ r, totp_of s id = Some r ∧ decryptSecret r.(tt_secret) = Throw e
  end.
Proof.
  unfold verify. unfold mbind at 1, action_bind at 1. cbn [get_state].
  destruct (locked_at (ck_lock ck) (totp_user_of s id)) eqn:Hl; [cbn; auto 6|].
  destruct (totp_of s id) as [record|] eqn:Hr; [|cbn; auto 6].
  destruct (decryptSecret (tt_secret record)) as [secret|e] eqn:Hd; [|cbn; eauto].
  assert (Hfail : match (recordFailed2FAAttempt (ck_failed ck) id MAX_2FA_ATTEMPTS ATTEMPT_WINDOW_MINUTES ≫= λ _, mret false) s with
    | (Ok true, s') => False
    | (Ok false, s') => s'.(user_totp) = s.(user_totp) ∧ s'.(logins) = s.(logins) ∧
        (s' = s ∧ (false = true ∨ Some record = None) ∨
         totp_user_of s' id = after_failed_code ck.(ck_failed) <$> totp_user_of s id)
    | (Throw e, s') => False end).
  { unfold mbind, action_bind.
    destruct (recordFailed_run (ck_failed ck) id s) as (s' & -> & H1 & H2 & H3). cbn. auto. }
  cbn zeta. destruct (validate secret token _) as [delta|] eqn:Hv.
  2:{ destruct ((recordFailed2FAAttempt _ _ _ _ ≫= _) s) as [[[]|] ?]; [done|exact Hfail|done]. }
  destruct (bool_decide (pad_start _ token = _)) eqn:Hp; cbn [negb].
  2:{ destruct ((recordFailed2FAAttempt _ _ _ _ ≫= _) s) as [[[]|] ?]; [done|exact Hfail|done]. }
  bools. destruct (match tt_last_used record with Some t => _ | None => false end) eqn:Hu.
  { destruct ((recordFailed2FAAttempt _ _ _ _ ≫= _) s) as [[[]|] ?]; [done|exact Hfail|done]. }
  unfold update_totp, update_totp_user, modify, mbind, action_bind, mret, action_ret. cbv iota beta.
  split; [done|]. split; [done|]. exists delta, record, secret. split_and!; try done.
  - intros t Ht. rewrite Ht in Hu. by apply Z.leb_gt in Hu.
  - change (totp_of (with_user_totp (update_where (is_row id) (set_last_used (ck_used ck)) s.(user_totp)) s) id
      = Some (set_last_used (ck_used ck) record)). by rewrite totp_of_update, Hr.
  - set (s1 := with_user_totp _ s). change (totp_user_of s id) with (totp_user_of s1 id).
    by apply totp_user_of_update.
Qed.

(** [verify] answers true only when the account is not locked, the secret
    decrypts, the code is the code of a time step the library accepts, and that
    step begins after the last use; it then records the use and clears the
    failures.  It answers false and counts a failure for every other code, and
    throws only when the secret does not decrypt. *)
Theorem verify_spec ck id token s :
  match verify ck id token s with
  | (Ok true, s') => locked_at ck.(ck_lock) (totp_user_of s id) = false /\ s'.(logins) = s.(logins) /\
      exists delta, accepted ck id token s s' delta
  | (Ok false, s') => s'.(user_totp) = s.(user_totp) /\ s'.(logins) = s.(logins) /\
      (s' = s /\ (locked_at ck.(ck_lock) (totp_user_of s id) = true \/ totp_of s id = None) \/
       totp_user_of s' id = after_failed_code ck.(ck_failed) <$> totp_user_of s id)
  | (Throw e, s') => s' = s /\ exists r, totp_of s id = Some r /\ decryptSecret r.(tt_secret) = Throw e
  end.
Proof. apply verify_cases. Qed.

(** *** The attempt counter *)

(** A code that matches no step of the window. *)
Definition wrong_code (id token : string) (s : tf_state) : Prop :=
  ∃ r secret, totp_of s id = Some r ∧ decryptSecret r.(tt_secret) = Ok secret ∧ ∀ c, validate secret token c = None.

Definition verify_all (id : string) (attempts : list (clock * string)) (s : tf_state) : tf_state :=
  foldl (λ s a, (verify a.1 id a.2 s).2) s attempts.

Lemma wrong_code_run ck id token s :
  wrong_code id token s → locked_at ck.(ck_lock) (totp_user_of s id) = false →
  ∃ s', verify ck id token s = (Ok false, s') ∧
    totp_user_of s' id = after_failed_code ck.(ck_failed) <$> totp_user_of s id ∧ s'.(user_totp) = s.(user_totp).
Proof.
  intros (r & secret & Hr & Hd & Hw) Hl. unfold verify, mbind at 1, action_bind at 1. cbn [get_state].
  rewrite Hl, Hr, Hd, Hw. unfold mbind, action_bind.
  destruct (recordFailed_run (ck_failed ck) id s) as (s' & -> & H1 & H2 & H3). by exists s'.
Qed.

Lemma wrong_codes_run id attempts : ∀ s u,
  totp_user_of s id = Some u → u.(tu_locked) = None →
  Forall (λ a, wrong_code id a.2 s) attempts →
  default 0 u.(tu_failed) + Z.of_nat (length attempts) < MAX_2FA_ATTEMPTS →
  ∃ u', totp_user_of (verify_all id attempts s) id = Some u' ∧ u'.(tu_locked) = None ∧
    default 0 u'.(tu_failed) = default 0 u.(tu_failed) + Z.of_nat (length attempts) ∧
    (verify_all id attempts s).(user_totp) = s.(user_totp).
Proof.
  induction attempts as [|[ck token] attempts IH]; intros s u Hu Hnl Hall Hn.
  - exists u. split_and!; try done. cbn. lia.
  - apply Forall_cons in Hall as [Hw Hall]. cbn [length] in Hn.
    destruct (wrong_code_run ck id token s Hw) as (s' & Hrun & Hu' & Ht).
    { rewrite Hu. unfold locked_at. cbn. by rewrite Hnl. }
    rewrite Hu in Hu'. cbn [fmap option_fmap option_map] in Hu'.
    assert (Hfew : (MAX_2FA_ATTEMPTS <=? default 0 u.(tu_failed) + 1) = false) by (apply Z.leb_gt; lia).
    destruct (IH s' (after_failed_code (ck_failed ck) u)) as (u2 & H1 & H2 & H3 & H4).
    + done.
    + unfold after_failed_code. cbn zeta. rewrite Hfew. done.
    + eapply Forall_impl; [exact Hall|]. intros a (r & secret & Hr & Hd & Hv). exists r, secret.
      unfold totp_of in *. by rewrite Ht.
    + cbn. lia.
    + exists u2. unfold verify_all in *. cbn [foldl]. cbn [fst snd]. rewrite Hrun. cbn [snd].
      split_and!; [done|done| |by rewrite H4]. rewrite H3. cbn. lia.
Qed.

(** five wrong codes in a row lock the second factor: every later attempt,
    with any code, is refused without being looked at until fifteen minutes
    after the fifth. *)
Theorem second_factor_locks id (attempts : list (clock * string)) ck5 token5 s u ck token
    (Hu : totp_user_of s id = Some u) (Hfresh : default 0 u.(tu_failed) = 0) (Hnl : u.(tu_locked) = None)
    (Hwrong : Forall (fun a => wrong_code id a.2 s) (attempts ++ [(ck5, token5)]))
    (Hfour : length attempts = 4%nat) (Hnow : ck.(ck_lock) < ck5.(ck_failed) + 15 * 60 * 1000) :
  let s5 := verify_all id (attempts ++ [(ck5, token5)]) s in
  verify ck id token s5 = (Ok false, s5).
Proof.
  apply Forall_app in Hwrong as [Hw Hw5]. rewrite Forall_singleton in Hw5. cbn [snd] in Hw5.
  destruct (wrong_codes_run id attempts s u Hu Hnl Hw) as (u4 & H1 & H2 & H3 & H4).
  { rewrite Hfresh, Hfour. done. }
  cbn zeta. unfold verify_all in *. rewrite foldl_app. cbn [foldl fst snd].
  set (s4 := foldl _ s attempts) in *.
  assert (Hw5' : wrong_code id token5 s4).
  { destruct Hw5 as (r & secret & Hr & Hd & Hv). exists r, secret. unfold totp_of in *. by rewrite H4. }
  destruct (wrong_code_run ck5 id token5 s4 Hw5') as (s5 & -> & Hu5 & Ht5).
  { rewrite H1. unfold locked_at. cbn. by rewrite H2. }
  cbn [snd]. unfold verify, mbind, action_bind. cbn [get_state].
  rewrite Hu5, H1. unfold locked_at, after_failed_code. cbn [fmap option_fmap option_map mbind option_bind].
  rewrite H3, Hfresh, Hfour. cbn [tu_locked set_attempts].
  change (MAX_2FA_ATTEMPTS <=? 0 + Z.of_nat 4 + 1) with true. cbv iota.
  unfold ATTEMPT_WINDOW_MINUTES. by rewrite (proj2 (Z.ltb_lt _ _)) by lia.
Qed.

(** *** Backup codes *)

(** Every [backup_codes_hash] is a JSON array of at most ten strings. *)
Definition backups_typed (s : tf_state) : Prop :=
  Forall (λ r, ∃ hashes, tt_backup r = stringify (JArr (map JStr hashes)) ∧ (length hashes ≤ BACKUP_CODE_COUNT)%nat)
    s.(user_totp).

Lemma stored_hashes_stringify hashes : stored_hashes (stringify (JArr (map JStr hashes))) = Some hashes.
Proof.
  unfold stored_hashes. rewrite JSON_parse_stringify.
  - induction hashes as [|h l IH]; [done|]. cbn. by rewrite IH.
  - cbn. induction hashes as [|h l IH]; [done|exact IH].
Qed.

Lemma matching_code_Some code hashes i :
  matching_code code hashes = Some i →
  ∃ l1 h l2, hashes = l1 ++ h :: l2 ∧ length l1 = i ∧ bcrypt_compare code h = true ∧
    Forall (λ h', bcrypt_compare code h' = false) l1.
Proof.
  revert i. induction hashes as [|h l IH]; intros i; cbn; [done|].
  destruct (bcrypt_compare code h) eqn:Hc.
  - intros [= <-]. by exists [], h, l.
  - destruct (matching_code code l) as [j|]; [|done]. intros [= <-].
    destruct (IH j eq_refl) as (l1 & h' & l2 & -> & Hj & Hh & Hall).
    exists (h :: l1), h', l2. split_and!; [done|by rewrite <- Hj|done|by constructor].
Qed.

(** a backup code is accepted exactly when it matches a stored hash, and the
    first hash it matches is removed and no other; a refused code changes
    nothing. *)
Theorem useBackupCode_spec now id code s (Ht : backups_typed s) :
  match useBackupCode now id code s with
  | (Ok true, s') => exists r l1 h l2,
      totp_of s id = Some r /\ tt_backup r = stringify (JArr (map JStr (l1 ++ h :: l2))) /\
      bcrypt_compare code h = true /\ Forall (fun h' => bcrypt_compare code h' = false) l1 /\
      totp_of s' id = Some (set_last_used now (set_backup (stringify (JArr (map JStr (l1 ++ l2)))) r))
  | (Ok false, s') => s' = s /\ forall r hashes, totp_of s id = Some r ->
      tt_backup r = stringify (JArr (map JStr hashes)) -> Forall (fun h => bcrypt_compare code h = false) hashes
  | (Throw _, _) => False
  end.
Proof.
  unfold useBackupCode, mbind at 1, action_bind at 1. cbn [get_state].
  destruct (totp_of s id) as [r|] eqn:Hr; [|cbn; split; [done|by intros ? ? [=]]].
  assert (∃ hashes, tt_backup r = stringify (JArr (map JStr hashes))) as (hashes & Hb).
  { unfold totp_of in Hr. apply select_one_Some in Hr as [Hin _].
    unfold backups_typed in Ht. rewrite Forall_forall in Ht. destruct (Ht r Hin) as (hs & ? & _). by exists hs. }
  rewrite Hb, stored_hashes_stringify.
  destruct (matching_code code hashes) as [i|] eqn:Hm.
  - apply matching_code_Some in Hm as (l1 & h & l2 & -> & <- & Hc & Hall).
    cbn. exists r, l1, h, l2. split_and!; try done.
    rewrite totp_of_update by done. rewrite Hr. cbn [fmap option_fmap option_map].
    rewrite take_app_length. rewrite (cons_middle h l1 l2), app_assoc, drop_app_length'; [done|rewrite length_app; cbn; lia].
  - unfold mret, action_ret. cbv iota beta. split; [done|]. intros r' hs [= <-] Hb'. rewrite Hb in Hb'.
    pose proof (stored_hashes_stringify hashes) as He. rewrite Hb', stored_hashes_stringify in He.
    injection He as ->.
    clear -Hm. induction hashes as [|h l IH]; [constructor|]. cbn in Hm.
    destruct (bcrypt_compare code h) eqn:Hc; [done|]. constructor; [done|].
    apply IH. by destruct (matching_code code l).
Qed.

(** *** The backup column keeps its type *)

Lemma backups_typed_update id f s :
  (∀ r, (∃ hs, tt_backup r = stringify (JArr (map JStr hs)) ∧ (length hs ≤ BACKUP_CODE_COUNT)%nat) →
        ∃ hs, tt_backup (f r) = stringify (JArr (map JStr hs)) ∧ (length hs ≤ BACKUP_CODE_COUNT)%nat) →
  backups_typed s → backups_typed (with_user_totp (update_where (is_row id) f s.(user_totp)) s).
Proof.
  unfold backups_typed. cbn. rewrite !Forall_forall. intros Hf Hs r (r0 & Hr & ->)%elem_of_update_where.
  destruct (is_row id r0); [by apply Hf, Hs|by apply Hs].
Qed.

Lemma preserves_on_logins {A} (m : action app_error login_state A) : preserves backups_typed (on_logins m).
Proof. intros s H. unfold on_logins. by destruct (m (logins s)). Qed.

Lemma preserves_update_totp_user id f : preserves backups_typed (update_totp_user id f).
Proof. by intros s H. Qed.

Lemma preserves_update_totp id f :
  (∀ r, tt_backup (f r) = tt_backup r) → preserves backups_typed (update_totp id f).
Proof. intros Hf s H. apply backups_typed_update; [|done]. intros r. by rewrite Hf. Qed.

#[local] Hint Resolve preserves_on_logins preserves_update_totp_user preserves_update_totp : alsaqi.

Lemma preserves_setup id rnd : preserves backups_typed (setup id rnd).
Proof.
  apply preserves_bind; [auto with alsaqi|intros s0]. destruct (find_account _ _); [|auto with alsaqi].
  destruct (encryptSecret _ _) as [secret|]; [|auto with alsaqi].
  apply preserves_bind; [|intros _; apply preserves_bind; [|auto with alsaqi]].
  - apply preserves_modify. unfold backups_typed. cbn. intros s. rewrite !Forall_forall.
    intros H r [Hr _]%elem_of_delete_where. by apply H.
  - apply preserves_modify. unfold backups_typed. cbn -[stringify]. intros s H. apply Forall_app. split; [done|].
    apply Forall_singleton. exists (map bcrypt_hash (generateBackupCodes (sr_bytes rnd))).
    split; [by rewrite map_map|]. unfold generateBackupCodes. rewrite !length_map, length_seq. done.
Qed.

Lemma preserves_verify ck id token : preserves backups_typed (verify ck id token).
Proof.
  intros s Hs. unfold verify, mbind at 1, action_bind at 1. cbn [get_state].
  destruct (locked_at _ _); [done|]. destruct (totp_of s id) as [r|]; [|done].
  destruct (decryptSecret _); [|done]. cbn zeta.
  assert (Hfail : preserves backups_typed
    (recordFailed2FAAttempt (ck_failed ck) id MAX_2FA_ATTEMPTS ATTEMPT_WINDOW_MINUTES ≫= λ _, mret false)).
  { apply preserves_bind; [|auto with alsaqi]. apply preserves_bind; [auto with alsaqi|intros _].
    apply preserves_bind; [auto with alsaqi|intros s0]. destruct (totp_user_of _ _); auto with alsaqi. }
  destruct (validate _ _ _); [|by apply Hfail]. destruct (negb _); [by apply Hfail|].
  destruct (match tt_last_used r with Some _ => _ | None => _ end); [by apply Hfail|].
  revert Hs. apply preserves_bind; [|auto with alsaqi]. by apply preserves_update_totp.
Qed.

Lemma preserves_useBackupCode now id code : preserves backups_typed (useBackupCode now id code).
Proof.
  intros s Hs. unfold useBackupCode, mbind at 1, action_bind at 1. cbn [get_state].
  destruct (totp_of s id) as [r|] eqn:Hr; [|done].
  destruct (stored_hashes (tt_backup r)) as [hs|] eqn:Hh; [|done].
  destruct (matching_code code hs) as [i|] eqn:Hm; [|done].
  unfold update_totp, modify, mbind, action_bind, mret, action_ret. cbv iota beta. cbn [snd].
  assert (length hs ≤ BACKUP_CODE_COUNT)%nat as Hlen.
  { unfold totp_of in Hr. apply select_one_Some in Hr as [Hin _]. unfold backups_typed in Hs.
    rewrite Forall_forall in Hs. destruct (Hs r Hin) as (hs' & Hb & Hle).
    rewrite Hb, stored_hashes_stringify in Hh. by injection Hh as <-. }
  apply backups_typed_update; [|done]. intros r' _. eexists. split; [reflexivity|].
  rewrite length_app, length_take, length_drop. lia.
Qed.

Lemma preserves_issueFullTokens now id : preserves backups_typed (issueFullTokens now id).
Proof.
  apply preserves_bind; [auto with alsaqi|intros s0]. destruct (find_account _ _); auto 8 with alsaqi.
Qed.

#[local] Hint Resolve preserves_setup preserves_verify preserves_useBackupCode preserves_issueFullTokens : alsaqi.

(** through every route, each account's stored backup codes stay the JSON
    text of an array of at most ten strings. *)
Theorem backup_column_typed now ck id tempToken token password rnd rm :
  preserves backups_typed (login_route now id password rm) /\
  preserves backups_typed (setup_route id rnd) /\
  preserves backups_typed (verify_route ck id token) /\
  preserves backups_typed (validate_route ck now tempToken token) /\
  preserves backups_typed (setup_pending_route now tempToken rnd) /\
  preserves backups_typed (setup_complete_route ck now tempToken token) /\
  preserves backups_typed (backup_route now tempToken token) /\
  preserves backups_typed (disable_route id password).
Proof.
  split_and!.
  - apply preserves_bind; [auto with alsaqi|intros s0].
    apply preserves_bind; [auto with alsaqi|intros r].
    apply preserves_bind; [apply preserves_bind; auto with alsaqi|intros b]. destruct b; auto with alsaqi.
  - apply preserves_bind; auto with alsaqi.
  - apply preserves_bind; [auto with alsaqi|intros b]. auto 8 with alsaqi.
  - unfold validate_route. destruct (verifyTempToken _ _ _); [|auto with alsaqi].
    apply preserves_bind; [auto with alsaqi|intros b]. auto 8 with alsaqi.
  - unfold setup_pending_route. destruct (verifyTempToken _ _ _); [|auto with alsaqi].
    apply preserves_bind; [auto with alsaqi|intros s0]. destruct (totp_of _ _); auto 8 with alsaqi.
  - unfold setup_complete_route. destruct (verifyTempToken _ _ _); [|auto with alsaqi].
    apply preserves_bind; [auto with alsaqi|intros b]. auto 8 with alsaqi.
  - unfold backup_route. destruct (verifyTempToken _ _ _); [|auto with alsaqi].
    apply preserves_bind; [auto with alsaqi|intros b]. auto 8 with alsaqi.
  - assert (Hd : preserves backups_typed (_ ← disable id password; mret Success)).
    { apply preserves_bind; [|auto with alsaqi]. apply preserves_bind; [auto with alsaqi|intros s0].
      destruct (find_account _ _); [|auto with alsaqi]. destruct (negb _); [auto with alsaqi|].
      destruct (totp_of _ _); [|auto with alsaqi]. apply preserves_modify. intros s. unfold backups_typed. cbn.
      rewrite !Forall_forall. intros H r [Hr _]%elem_of_delete_where. by apply H. }
    intros s Hs. specialize (Hd s Hs). unfold disable_route, try_catch.
    destruct ((_ ← disable id password; mret Success) s) as [[a|e] s']; [done|].
    by destruct (statusCode e =? 401).
Qed.

(** *** Sessions need the second factor *)

Lemma inv_bind_Ok {A B} (m : tf_action A) (f : A → tf_action B) s b s2 :
  (m ≫= f) s = (Ok b, s2) → ∃ a s1, m s = (Ok a, s1) ∧ f a s1 = (Ok b, s2).
Proof. apply bind_Ok. Qed.

(** *** A code is accepted once *)

(** What the routes leave of a use of the secret: the secret stays and the last
    use is not before [t]. *)
Definition used_since (t : Z) (id : string) (secret : sealed) (s : tf_state) : Prop :=
  ∃ r t0, totp_of s id = Some r ∧ r.(tt_secret) = secret ∧ r.(tt_last_used) = Some t0 ∧ t <= t0.

(** A request to a route that asks for a code, a backup code or a password, with
    a clock that has not gone back behind [t].  Enrolment and removal of the
    second factor change the secret and are left out. *)
Inductive second_factor_request (t : Z) : tf_action tf_reply → Prop :=
  | request_login now u p rm : second_factor_request t (login_route now u p rm)
  | request_verify ck id token : t <= ck.(ck_used) → second_factor_request t (verify_route ck id token)
  | request_validate ck now temp token : t <= ck.(ck_used) → second_factor_request t (validate_route ck now temp token)
  | request_complete ck now temp token : t <= ck.(ck_used) → second_factor_request t (setup_complete_route ck now temp token)
  | request_backup now temp code : t <= now → second_factor_request t (backup_route now temp code).
Inductive later_requests (t : Z) : tf_state → tf_state → Prop :=
  | later_none s : later_requests t s s
  | later_request m s s' : second_factor_request t m → later_requests t (m s).2 s' → later_requests t s s'.

Section used.
Context (t : Z) (id : string) (secret : sealed).

Lemma used_update id' f : (∀ r, (f r).(tt_secret) = r.(tt_secret)) → (∀ r, is_row id (f r) = is_row id r) →
  (∀ r, (f r).(tt_last_used) = r.(tt_last_used) ∨ ∃ u, (f r).(tt_last_used) = Some u ∧ t <= u) →
  preserves (used_since t id secret) (update_totp id' f).
Proof.
  intros Hs Hrow Hu s (r & t0 & Hr & Hsec & Hlast & Ht). unfold used_since, update_totp, modify. cbn [snd].
  unfold totp_of in *. cbn [with_user_totp user_totp].
  rewrite select_one_update by (intros ? _; apply Hrow). rewrite Hr. cbn [fmap option_fmap option_map].
  destruct (is_row id' r); [|by exists r, t0]. destruct (Hu r) as [He|(u & He & Hle)].
  - exists (f r), t0. by rewrite Hs, He.
  - exists (f r), u. by rewrite Hs.
Qed.
Lemma used_on_logins {A} (m : action app_error login_state A) : preserves (used_since t id secret) (on_logins m).
Proof. intros s H. unfold on_logins. by destruct (m (logins s)). Qed.
Lemma used_update_user id' f : preserves (used_since t id secret) (update_totp_user id' f).
Proof. by intros s H. Qed.
Hint Resolve used_on_logins used_update_user : alsaqi.

Lemma used_verify ck id' token : t <= ck.(ck_used) → preserves (used_since t id secret) (verify ck id' token).
Proof.
  intros Hck s Hs. unfold verify, mbind at 1, action_bind at 1. cbn [get_state].
  destruct (locked_at _ _); [done|]. destruct (totp_of s id') as [r|]; [|done].
  destruct (decryptSecret _); [|done]. cbn zeta.
  assert (Hfail : preserves (used_since t id secret)
    (recordFailed2FAAttempt (ck_failed ck) id' MAX_2FA_ATTEMPTS ATTEMPT_WINDOW_MINUTES ≫= λ _, mret false)).
  { apply preserves_bind; [|auto with alsaqi]. apply preserves_bind; [auto with alsaqi|intros _].
    apply preserves_bind; [auto with alsaqi|intros s0]. destruct (totp_user_of _ _); auto with alsaqi. }
  destruct (validate _ _ _); [|by apply Hfail]. destruct (negb _); [by apply Hfail|].
  destruct (match tt_last_used r with Some _ => _ | None => _ end); [by apply Hfail|].
  revert Hs. apply preserves_bind; [|auto with alsaqi]. apply used_update; [done|done|]. intros r'. right. by exists (ck_used ck).
Qed.
Lemma used_backup now id' code : t <= now → preserves (used_since t id secret) (useBackupCode now id' code).
Proof.
  intros Hn. apply preserves_bind; [auto with alsaqi|intros s0]. destruct (totp_of _ _); [|auto with alsaqi].
  destruct (stored_hashes _); [|auto with alsaqi]. destruct (matching_code _ _); [|auto with alsaqi].
  apply preserves_bind; [|auto with alsaqi]. apply used_update; [done|done|]. intros r'. right. by exists now.
Qed.
Lemma used_issue now id' : preserves (used_since t id secret) (issueFullTokens now id').
Proof. apply preserves_bind; [auto with alsaqi|intros s0]. destruct (find_account _ _); auto 8 with alsaqi. Qed.
Lemma used_enable id' : preserves (used_since t id secret) (update_totp id' set_enabled).
Proof. apply used_update; [done|done|by left]. Qed.
Hint Resolve used_verify used_backup used_issue used_enable : alsaqi.

Lemma used_request m : second_factor_request t m → preserves (used_since t id secret) m.
Proof.
  destruct 1 as [now u p rm|ck id' token Hck|ck now temp token Hck|ck now temp token Hck|now temp code Hn].
  - apply preserves_bind; [auto with alsaqi|intros s0]. apply preserves_bind; [auto with alsaqi|intros r].
    apply preserves_bind; [apply preserves_bind; auto with alsaqi|intros b]. destruct b; auto with alsaqi.
  - apply preserves_bind; [auto with alsaqi|intros b]. auto 8 with alsaqi.
  - unfold validate_route. destruct (verifyTempToken _ _ _); [|auto with alsaqi].
    apply preserves_bind; [auto with alsaqi|intros b]. auto 8 with alsaqi.
  - unfold setup_complete_route. destruct (verifyTempToken _ _ _); [|auto with alsaqi].
    apply preserves_bind; [auto with alsaqi|intros b]. auto 8 with alsaqi.
  - unfold backup_route. destruct (verifyTempToken _ _ _); [|auto with alsaqi].
    apply preserves_bind; [auto with alsaqi|intros b]. auto 8 with alsaqi.
Qed.
Lemma used_later s s' : later_requests t s s' → used_since t id secret s → used_since t id secret s'.
Proof. induction 1 as [|m s s' Hm _ IH]; [done|]. intros H. apply IH. by apply used_request. Qed.
End used.

(** C12: once a code was accepted, a code accepted later for the same secret
    belongs to a later time step, when the first was a code of its own step or
    an earlier one: no such code is accepted twice, whatever requests to the
    routes that ask for a code, a backup code or a password (of this account or
    another, accepted or refused) come in between, without a new enrolment.  The
    clock runs forward. *)
Theorem code_accepted_once ck1 ck2 id token1 token2 s s1 s1' s2
    (H1 : verify ck1 id token1 s = (Ok true, s1)) (Hlater : later_requests ck1.(ck_used) s1 s1')
    (H2 : verify ck2 id token2 s1' = (Ok true, s2)) (Hclock : ck1.(ck_counter) <= ck1.(ck_used)) :
  exists d1 d2, accepted ck1 id token1 s s1 d1 /\ accepted ck2 id token2 s1' s2 d2 /\
    (d1 <= 0 -> ck1.(ck_counter) / PERIOD_MS + d1 < ck2.(ck_counter) / PERIOD_MS + d2).
Proof.
  pose proof (verify_cases ck1 id token1 s) as V1. rewrite H1 in V1. destruct V1 as (_ & _ & d1 & A1).
  pose proof (verify_cases ck2 id token2 s1') as V2. rewrite H2 in V2. destruct V2 as (_ & _ & d2 & A2).
  exists d1, d2. split; [done|]. split; [done|]. intros Hd.
  destruct A1 as (r1 & sec1 & _ & _ & _ & _ & _ & Hr1 & _).
  destruct (used_later (ck_used ck1) id (tt_secret r1) s1 s1' Hlater) as (r & t0 & Hr & _ & Hlast1 & Hle).
  { exists (set_last_used (ck_used ck1) r1), (ck_used ck1). by rewrite Hr1. }
  destruct A2 as (r2 & sec2 & Hr2 & _ & _ & _ & Hlast & _). rewrite Hr in Hr2. injection Hr2 as <-.
  specialize (Hlast t0 Hlast1). eapply later_step; [|eapply Z.le_lt_trans; [exact Hle|exact Hlast]|exact Hd]. done.
Qed.

(** What a login that succeeds has checked, and the session row it stores. *)
Lemma login_opens now u p rm r2 (l : login_state) res l' :
  login verifyPassword sign sha256 now u p rm r2 l = (Ok res, l') →
  lookup_user l.(adb) u = Some res.(lr_user) ∧ verifyPassword p res.(lr_user).(ac_password) = Ok true ∧
  res.(lr_user).(ac_status) = "Active" ∧ is_locked now res.(lr_user) = false ∧
  (r2 res.(lr_user) = true → res.(lr_requires_2fa_setup) = true) ∧
  ∃ session, session ∈ l'.(adb).(user_sessions) ∧ session.(ss_user) = res.(lr_user).(ac_id) ∧
    session.(ss_refresh) = sha256 res.(lr_refresh_token) ∧ session.(ss_status) = "Active".
Proof.
  intros H. unfold login in H. destruct (check_credentials _ _ _ _ _) as [a|[a|]] eqn:Hc; [|done|done].
  apply check_credentials_inl in Hc as (Hl & Hv & Hst & Hlock).
  unfold transaction in H. destruct (open_session _ _ _ _ _ _ _) as [[res'|] l0] eqn:Ho; [|done].
  simplify_eq. unfold open_session in Ho. inv_ok. cbn [lr_user lr_requires_2fa_setup lr_refresh_token].
  split_and!; try done; [by intros ->|].
  unfold insert_session, modify_db, modify in Hrun5. simplify_eq. cbn.
  eexists. split; [apply elem_of_app; right; by left|]. done.
Qed.

(** C3: the tokens of a session leave the server only after every factor.  A
    login answers nothing without the right password of an active account that
    is not locked; it then answers tokens only for an account without an enabled
    second factor and without a pending enrolment, and otherwise a temporary
    token for that account and the missing step, although the row of the session
    is already stored and active.  The other routes answer tokens only for a
    temporary token of their kind whose account has just passed the code or the
    backup code. *)
Theorem session_needs_second_factor :
  (forall now u p rm s reply s', login_route now u p rm s = (Ok reply, s') ->
     exists user refresh, lookup_user s.(logins).(adb) u = Some user /\ verifyPassword p user.(ac_password) = Ok true /\
       user.(ac_status) = "Active" /\ is_locked now user = false /\
       (exists session, session ∈ s'.(logins).(adb).(user_sessions) /\ session.(ss_user) = user.(ac_id) /\
          session.(ss_refresh) = sha256 refresh /\ session.(ss_status) = "Active") /\
       let enabled := exists row, totp_of s user.(ac_id) = Some row /\ row.(tt_enabled) = true in
       let temporary ty := sign_temp {| tc_id := user.(ac_id); tc_username := user.(ac_username); tc_type := ty |} (now / 1000) in
       match reply with
       | Tokens user' t r => user' = user /\ r = refresh /\ ~ enabled /\ requires_setup s user = false
       | Requires2FA temp => enabled /\ temp = temporary "2fa_pending"
       | Requires2FASetup temp => ~ enabled /\ temp = temporary "2fa_setup_pending"
       | _ => False
       end) /\
  (forall ck now temp code s user t r s', validate_route ck now temp code s = (Ok (Tokens user t r), s') ->
     exists c s1, verify_temp temp now = Some c /\ c.(tc_type) = "2fa_pending" /\ user.(ac_id) = c.(tc_id) /\
       verify ck c.(tc_id) code s = (Ok true, s1)) /\
  (forall now temp code s user t r s', backup_route now temp code s = (Ok (Tokens user t r), s') ->
     exists c s1, verify_temp temp now = Some c /\ c.(tc_type) = "2fa_pending" /\ user.(ac_id) = c.(tc_id) /\
       useBackupCode now c.(tc_id) code s = (Ok true, s1)) /\
  (forall ck now temp code s user t r s', setup_complete_route ck now temp code s = (Ok (Tokens user t r), s') ->
     exists c s1, verify_temp temp now = Some c /\ c.(tc_type) = "2fa_setup_pending" /\ user.(ac_id) = c.(tc_id) /\
       verify ck c.(tc_id) code s = (Ok true, s1)).
Proof.
  assert (Htemp : ∀ now temp ty c, verifyTempToken now temp ty = Ok c → verify_temp temp now = Some c ∧ tc_type c = ty).
  { intros now temp ty c. unfold verifyTempToken. destruct (verify_temp temp now) as [c'|]; [|done].
    case_bool_decide; [|done]. by intros [= <-]. }
  assert (Hissue : ∀ now id s user t r s', issueFullTokens now id s = (Ok (Tokens user t r), s') → ac_id user = id).
  { intros now id s user t r s' H. unfold issueFullTokens in H.
    apply inv_bind_Ok in H as (? & ? & [= <- <-] & H).
    destruct (find_account _ id) as [a|] eqn:Ha; [|done].
    apply find_account_Some in Ha as [_ Ha]. inv_ok. by inversion H; subst. }
  split_and!.
  - intros now u p rm s reply s' H. unfold login_route in H. apply inv_bind_Ok in H as (? & ? & [= <- <-] & H).
    apply inv_bind_Ok in H as (res & s1 & Hl & H).
    unfold isEnabled in H. unfold mbind, action_bind, get_state, mret, action_ret in H. cbv beta iota in H.
    assert (Hs1 : s1.(user_totp) = s.(user_totp) ∧ login verifyPassword sign sha256 now u p rm (requires_setup s) s.(logins) = (Ok res, s1.(logins))).
    { unfold on_logins in Hl. destruct (login _ _ _ _ _ _ _ _ _) as [o l]. by injection Hl as <- <-. }
    destruct Hs1 as [Hs1 Hlogin]. apply login_opens in Hlogin as (H1 & H2 & H3 & H4 & H5 & H6).
    exists res.(lr_user), res.(lr_refresh_token). split; [done|]. split; [done|]. split; [done|]. split; [done|].
    assert (He : (∃ row, totp_of s (ac_id (lr_user res)) = Some row ∧ tt_enabled row = true) ↔
      match totp_of s1 (ac_id (lr_user res)) with Some r0 => tt_enabled r0 | None => false end = true).
    { unfold totp_of. rewrite Hs1. destruct (select_one _ _) as [r0|]; split; [by intros (row & [= ->] & ?)|by exists r0|by intros (? & ? & _)|done]. }
    destruct (match totp_of s1 _ with Some r0 => _ | None => _ end).
    { injection H as <- <-. split; [done|]. split; [by apply He|done]. }
    destruct (lr_requires_2fa_setup res) eqn:Hreq; injection H as <- <-; (split; [done|]).
    + split; [by intros H%He|done].
    + split; [done|]. split; [done|]. split; [by intros H%He|]. destruct (requires_setup s (lr_user res)); [|done]. by specialize (H5 eq_refl).
  - intros ck now temp code s user t r s' H. unfold validate_route in H.
    destruct (verifyTempToken now temp _) as [c|] eqn:Hc; [|done]. apply Htemp in Hc as [Hc1 Hc2].
    apply inv_bind_Ok in H as ([] & s1 & Hv & H); cbn [negb] in H; [|by inversion H].
    exists c, s1. split_and!; [done|done|by eapply Hissue|done].
  - intros now temp code s user t r s' H. unfold backup_route in H.
    destruct (verifyTempToken now temp _) as [c|] eqn:Hc; [|done]. apply Htemp in Hc as [Hc1 Hc2].
    apply inv_bind_Ok in H as ([] & s1 & Hv & H); cbn [negb] in H; [|by inversion H].
    exists c, s1. split_and!; [done|done|by eapply Hissue|done].
  - intros ck now temp code s user t r s' H. unfold setup_complete_route in H.
    destruct (verifyTempToken now temp _) as [c|] eqn:Hc; [|done]. apply Htemp in Hc as [Hc1 Hc2].
    apply inv_bind_Ok in H as ([] & s1 & Hv & H); cbn [negb] in H; [|by inversion H].
    apply inv_bind_Ok in H as (? & s2 & _ & H). apply inv_bind_Ok in H as (? & s3 & _ & H).
    exists c, s1. split_and!; [done|done|by eapply Hissue|done].
Qed.
End totp.

(** ** A concrete account *)

Module Codes.
Definition enc (secret iv : string) : outcome app_error sealed :=
  Ok {| sl_encrypted := secret; sl_iv := iv; sl_tag := "" |}.
Definition dec (s : sealed) : outcome app_error string := Ok s.(sl_encrypted).
Definition code (secret : string) (c : Z) : string := pad_start 6 (pretty (Z.to_N c)).
(** The current step, the one before, the one after. *)
Definition validate (secret token : string) (c : Z) : option Z :=
  if bool_decide (token = "000000") then None
  else if bool_decide (token = code secret c) then Some 0
  else if bool_decide (token = code secret (c - 1)) then Some (-1)
  else if bool_decide (token = code secret (c + 1)) then Some 1 else None.
Definition hash (c : string) : string := "$2b$10$" +:+ c.
Definition compare (c h : string) : bool := bool_decide (hash c = h).
Definition check (p h : string) : outcome unit bool := Ok (bool_decide (p = h)).
Definition sign_token (t : token_payload) (iat : Z) : string :=
  t.(tp_id) +:+ (match t.(tp_remember) with Some _ => ".r." | None => ".a." end) +:+ pretty iat.
Definition sha (s : string) : string := s.
Definition sign_temp (c : temp_claims) (iat : Z) : string := c.(tc_id) +:+ ":" +:+ c.(tc_type).
Definition verify_temp (t : string) (now : Z) : option temp_claims :=
  if bool_decide (t = "u:2fa_pending") then Some {| tc_id := "u"; tc_username := "ann"; tc_type := "2fa_pending" |}
  else if bool_decide (t = "u:2fa_setup_pending")
  then Some {| tc_id := "u"; tc_username := "ann"; tc_type := "2fa_setup_pending" |} else None.

Definition ann : account := {|
  ac_id := "u"; ac_username := "ann"; ac_email := "ann@x"; ac_role := "Auditor"; ac_status := "Active";
  ac_password := "pw"; ac_requires_password_change := false; ac_session_version := 1;
  ac_failed_attempts := 0; ac_locked_until := None; ac_password_last_changed := None |}.
Definition row (enabled : bool) (codes : list string) : totp_row := {|
  tt_user := "u"; tt_secret := {| sl_encrypted := "S"; sl_iv := ""; sl_tag := "" |}; tt_enabled := enabled;
  tt_backup := stringify (JArr (map (λ c, JStr (hash c)) codes)); tt_last_used := None |}.
Definition state (rows : list totp_row) : tf_state := {|
  logins := {| adb := {| accounts := [ann]; refresh_tokens := []; user_sessions := []; password_history := [] |};
               settings := None; login_history := []; lockout_notices := [] |};
  totp_users := [{| tu_id := "u"; tu_failed := None; tu_locked := None; tu_requires_setup := false |}];
  user_totp := rows |}.
Definition at_time (t : Z) : clock := {|
  ck_lock := t; ck_validate := t; ck_generate := t; ck_counter := t; ck_used := t; ck_failed := t |}.
Definition random : setup_random := {| sr_secret := "T"; sr_iv := "i"; sr_bytes := λ i j, N.of_nat (i * 8 + j) |}.

Definition verify' := verify dec code validate.
End Codes.

Lemma verify_spec_witness :
  exists delta, accepted Codes.dec Codes.code Codes.validate (Codes.at_time 3000000) "u" "000100"
    (Codes.state [Codes.row true []])
    (Codes.verify' (Codes.at_time 3000000) "u" "000100" (Codes.state [Codes.row true []])).2 delta.
Proof.
  exact (proj2 (proj2 (verify_spec Codes.dec Codes.code Codes.validate (Codes.at_time 3000000) "u" "000100"
    (Codes.state [Codes.row true []])))).
Defined.

Lemma code_accepted_once_witness :
  let s := Codes.state [Codes.row true []] in
  let s1 := (Codes.verify' (Codes.at_time 3000000) "u" "000100" s).2 in
  let s1' := (verify_route Codes.dec Codes.code Codes.validate (Codes.at_time 3000001) "u" "000100" s1).2 in
  let s2 := (Codes.verify' (Codes.at_time 3030000) "u" "000101" s1').2 in
  exists d1 d2, accepted Codes.dec Codes.code Codes.validate (Codes.at_time 3000000) "u" "000100" s s1 d1 /\
    accepted Codes.dec Codes.code Codes.validate (Codes.at_time 3030000) "u" "000101" s1' s2 d2 /\
    (d1 <= 0 -> 3000000 / PERIOD_MS + d1 < 3030000 / PERIOD_MS + d2).
Proof.
  intros s s1 s1' s2.
  apply (code_accepted_once Codes.dec Codes.code Codes.validate Codes.compare Codes.check Codes.sign_token Codes.sha Codes.sign_temp Codes.verify_temp
    (Codes.at_time 3000000) (Codes.at_time 3030000) "u" "000100" "000101" s s1 s1' s2); [by vm_compute| |by vm_compute|cbn; lia].
  eapply (later_request _ _ _ _ _ _ _ _ _ _ (verify_route Codes.dec Codes.code Codes.validate (Codes.at_time 3000001) "u" "000100")); [|constructor].
  constructor. cbn. lia.
Defined.

Lemma second_factor_locks_witness :
  let s := Codes.state [Codes.row true []] in
  let wrong t := (Codes.at_time t, "000000") in
  let s5 := verify_all Codes.dec Codes.code Codes.validate "u" [wrong 1; wrong 2; wrong 3; wrong 4; wrong 5] s in
  Codes.verify' (Codes.at_time 900004) "u" "000030" s5 = (Ok false, s5).
Proof.
  intros s wrong s5.
  apply (second_factor_locks Codes.dec Codes.code Codes.validate "u" [wrong 1; wrong 2; wrong 3; wrong 4]
    (Codes.at_time 5) "000000" s {| tu_id := "u"; tu_failed := None; tu_locked := None; tu_requires_setup := false |}
    (Codes.at_time 900004) "000030"); try reflexivity.
  repeat constructor; exists (Codes.row true []), "S"; (split; [reflexivity|split; [reflexivity|]]);
    intros c; reflexivity.
Defined.

Lemma useBackupCode_spec_witness :
  let s := Codes.state [Codes.row true ["aaaa"; "bbbb"]] in
  exists s', useBackupCode Codes.compare 7 "u" "bbbb" s = (Ok true, s') /\
    totp_of s' "u" = Some (set_last_used 7 (set_backup (stringify (JArr [JStr (Codes.hash "aaaa")])) (Codes.row true ["aaaa"; "bbbb"]))).
Proof.
  intros s. eexists. split; [by vm_compute|].
  assert (Ht : backups_typed s).
  { repeat constructor. exists [Codes.hash "aaaa"; Codes.hash "bbbb"]. split; [reflexivity|unfold BACKUP_CODE_COUNT; cbn; lia]. }
  pose proof (useBackupCode_spec Codes.compare 7 "u" "bbbb" s Ht) as H. by vm_compute.
Defined.

Lemma session_needs_second_factor_witness :
  exists c s1, Codes.verify_temp "u:2fa_pending" 3000000 = Some c /\ c.(tc_type) = "2fa_pending" /\
    "u" = c.(tc_id) /\
    Codes.verify' (Codes.at_time 3000000) c.(tc_id) "000100" (Codes.state [Codes.row true []]) = (Ok true, s1).
Proof.
  exact (proj1 (proj2 (session_needs_second_factor Codes.dec Codes.code Codes.validate Codes.compare Codes.check
    Codes.sign_token Codes.sha Codes.sign_temp Codes.verify_temp))
    (Codes.at_time 3000000) 3000000 "u:2fa_pending" "000100" (Codes.state [Codes.row true []]) Codes.ann
    "u.a.3000" "u.r.3000"
    (validate_route Codes.dec Codes.code Codes.validate Codes.sign_token Codes.sha Codes.verify_temp
       (Codes.at_time 3000000) 3000000 "u:2fa_pending" "000100" (Codes.state [Codes.row true []])).2
    ltac:(vm_compute; reflexivity)).
Defined.

(** a code of the next time step, which the window admits, is accepted twice:
    the recorded use lies before its step begins. *)
Theorem next_step_code_replayed :
  let s := Codes.state [Codes.row true []] in
  exists s1 s2, Codes.verify' (Codes.at_time 3000000) "u" "000101" s = (Ok true, s1) /\
    Codes.verify' (Codes.at_time 3001000) "u" "000101" s1 = (Ok true, s2).
Proof. eexists _, _. by vm_compute. Qed.

(** the enrolment route replaces an enabled second factor by a disabled one
    without asking for the password, which the route to disable it does; and an
    enrolment that was started and not finished makes every further one end in
    a conflict. *)
Theorem enrolment_gaps :
  (forall codes, exists r s', setup_route Codes.enc Codes.hash "u" Codes.random (Codes.state [Codes.row true codes])
     = (Ok r, s') /\ isEnabled "u" s' = (Ok false, s')) /\
  (exists r s', setup_pending_route Codes.enc Codes.hash Codes.verify_temp 1 "u:2fa_setup_pending" Codes.random (Codes.state [])
     = (Ok (Enrolment r), s') /\
     forall now rnd, setup_pending_route Codes.enc Codes.hash Codes.verify_temp now "u:2fa_setup_pending" rnd s'
       = (Ok (Refused 409 "2FA setup already in progress. Complete or retry enrollment."), s')).
Proof.
  split.
  - intros codes. eexists _, _. split; [reflexivity|]. reflexivity.
  - eexists _, _. split; [reflexivity|]. intros now rnd. reflexivity.
Qed.
