(* ===== verification/RequestGuards.v ===== *)
(** * Guards of a request

    CSRF double submission ([middleware/csrf.ts]), CORS ([cors.ts]), API
    versions ([versionRewrite.ts], [apiVersion.ts]), body sizes and identifiers
    ([validate.ts], [correlationId.ts]). *)

From S2P Require Import Prelude JsMap JsStrings JsNumbers Json.
Local Open Scope Z_scope.

(** ** CSRF *)

(** [crypto.randomBytes(n).toString('hex')] *)
Definition hex_of_byte (b : N) : list ascii := [hex_digit (b / 16); hex_digit (b mod 16)].
Definition generateCsrfToken (bytes : list N) : string := of_chars (flat_map hex_of_byte bytes).

(** [timingSafeEqual] throws on buffers of different lengths. *)
Definition timingSafeCompare (a b : string) : outcome app_error bool :=
  if negb (utf16_length a =? utf16_length b)%nat then Ok false
  else if negb (String.length a =? String.length b)%nat then
    Throw (GenericError "Input buffers must have the same byte length")
  else Ok (bool_decide (a = b)).

Record csrf_options := { exemptPaths : list string; tokenHeader : string; cookieName : string }.

(** A request as the guards read it: header names are in lower case. *)
Record http_request := {
  hr_method : string; hr_originalUrl : string;
  hr_headers : list (string * string); hr_cookies : list (string * string) }.

Definition safe_method (m : string) : bool := bool_decide (m ∈ ["GET"; "HEAD"; "OPTIONS"]).

(** [req.originalUrl.split('?')[0]] *)
Definition url_path (url : string) : string := hd "" (JsStrings.split "?"%char url).

(** [!v]: an absent or empty string *)
Definition missing (v : option string) : bool := match v with Some s => bool_decide (s = "") | None => true end.

Definition csrfMiddleware (options : csrf_options) (req : http_request) : outcome app_error reply :=
  let method := toUpperCase req.(hr_method) in
  if safe_method method then Ok Next
  else if existsb (λ p, bool_decide (url_path req.(hr_originalUrl) = p)) options.(exemptPaths) then Ok Next
  else
    let headerToken := map_get (toLowerCase options.(tokenHeader)) req.(hr_headers) in
    let cookieToken := map_get options.(cookieName) req.(hr_cookies) in
    if missing headerToken || missing cookieToken then Ok (Reply 403 "CSRF token missing")
    else match timingSafeCompare (default "" headerToken) (default "" cookieToken) with
         | Throw e => Throw e
         | Ok false => Ok (Reply 403 "CSRF token invalid")
         | Ok true => Ok Next
         end.

(** The options of [createApiServer]. *)
Definition server_csrf : csrf_options := {|
  exemptPaths := ["/api/auth/login"; "/api/auth/refresh"; "/api/auth/forgot-password";
                  "/api/v1/auth/login"; "/api/v1/auth/refresh"; "/api/v1/auth/forgot-password";
                  "/api/metrics/web-vitals"; "/api/v1/metrics/web-vitals"];
  tokenHeader := "x-csrf-token"; cookieName := "csrf-token" |}.

(** ** CORS *)

(** Whether the origin is reflected, with credentials. *)
Definition cors_origin (allowedOrigins : list string) (nodeEnv : string) (requestOrigin : option string) : bool :=
  let isProduction := bool_decide (nodeEnv = "production") in
  let origins := if isProduction then List.filter (λ o, negb (bool_decide (o = "*"))) allowedOrigins
                 else allowedOrigins in
  if missing requestOrigin then true
  else if negb isProduction && (length origins =? 0)%nat then true
  else bool_decide (default "" requestOrigin ∈ origins).

(** ** API versions *)

Definition CURRENT_MAJOR : Z := 1.
Definition SUPPORTED_VERSIONS : list Z := [1].

(** The digits after [/v] at the start of a path: [/^\/v(\d+)/]. *)
Definition version_digits (path : string) : option (list ascii) :=
  match chars path with
  | s :: v :: l =>
      if bool_decide (s = "/"%char) && bool_decide (v = "v"%char) then
        match (take_while is_digit l).1 with [] => None | ds => Some ds end
      else None
  | _ => None
  end.

(** [req.path] is relative to the mount point [/api]. *)
Definition unsupportedVersionHandler (path : string) : reply :=
  match version_digits path with
  | None => Next
  | Some ds =>
      let versionNum := Z.of_N (decimal_value (of_chars ds)) in
      if (versionNum <? 1) || negb (bool_decide (versionNum ∈ SUPPORTED_VERSIONS))
      then Reply 404 "VERSION_NOT_FOUND" else Next
  end.

(** [req.url]; [req.path] is its part before the query. *)
Definition versionFallbackRewrite (url : string) : string :=
  match version_digits (url_path url) with
  | Some _ => url
  | None => "/v1" +:+ (if bool_decide (url = "/") then "" else url)
  end.

(** Whether a response carries [X-API-Version]. *)
Definition apiVersionMiddleware (path : string) : bool :=
  starts_with path "/api/" || bool_decide (path = "/api").

(** ** Bodies and identifiers *)

Definition MAX_BODY_SIZE : Z := 1024 * 1024.
Definition FILE_UPLOAD_PATHS : list string :=
  ["/api/correspondence/attachments"; "/api/v1/correspondence/attachments"; "/api/compliance"; "/api/v1/compliance"].

Definition bodySizeLimit (path : string) (contentLength : option string) (body : option json) : reply :=
  if existsb (λ p, starts_with path p || bool_decide (path = p)) FILE_UPLOAD_PATHS then Next
  else if negb (missing contentLength) && js_lt (int MAX_BODY_SIZE) (parseInt_10 (default "" contentLength))
  then Reply 413 "PAYLOAD_TOO_LARGE"
  else match body with
       | Some ((JArr _ | JObj _) as v) =>
           if MAX_BODY_SIZE <? Z.of_nat (String.length (stringify v)) then Reply 413 "PAYLOAD_TOO_LARGE" else Next
       | _ => Next
       end.

Definition is_hex (c : ascii) : bool := is_digit c || in_range 65 70 c || in_range 97 102 c.

(** [n] hexadecimal digits, then the rest. *)
Fixpoint hex_run (n : nat) (l : list ascii) : option (list ascii) :=
  match n, l with
  | O, _ => Some l
  | S n', c :: l' => if is_hex c then hex_run n' l' else None
  | S _, [] => None
  end.
Definition dash (l : list ascii) : option (list ascii) :=
  match l with c :: l' => if bool_decide (c = "-"%char) then Some l' else None | [] => None end.

(** [/^[0-9a-f]{8}-[0-9a-f]{4}-[0-9a-f]{4}-[0-9a-f]{4}-[0-9a-f]{12}$/i] *)
Definition uuid_chars (l : list ascii) : bool :=
  match l1 ← hex_run 8 l; l2 ← dash l1; l3 ← hex_run 4 l2; l4 ← dash l3; l5 ← hex_run 4 l4;
        l6 ← dash l5; l7 ← hex_run 4 l6; l8 ← dash l7; hex_run 12 l8 with
  | Some [] => true
  | _ => false
  end.
Definition isValidUuid (s : string) : bool := uuid_chars (chars s).

Definition correlation_id (header : option string) (fresh : string) : string :=
  match header with
  | Some h => if negb (bool_decide (h = "")) && isValidUuid h then h else fresh
  | None => fresh
  end.

Definition validateIdParam (value : option string) : reply :=
  if missing value then Reply 400 "required"
  else let v := default "" value in
       if all_chars is_digit v || isValidUuid v then Next else Reply 400 "format".

(** ** Properties *)

Lemma safe_string_eqb a b : utf16_length a = utf16_length b → a ≠ b ∨ a = b.
Proof. intros _. destruct (decide (a = b)); auto. Qed.

(** The header and the cookie carry the same non-empty token. *)
Definition double_submitted (options : csrf_options) (req : http_request) : Prop :=
  ∃ t, t ≠ "" ∧ map_get (toLowerCase options.(tokenHeader)) req.(hr_headers) = Some t ∧
       map_get options.(cookieName) req.(hr_cookies) = Some t.

Definition csrf_exempt (options : csrf_options) (req : http_request) : bool :=
  safe_method (toUpperCase req.(hr_method)) ||
  existsb (λ p, bool_decide (url_path req.(hr_originalUrl) = p)) options.(exemptPaths).

(** a request passes the CSRF guard exactly when its method is safe, its
    path is exempt, or header and cookie carry the same non-empty token; a
    refused one is answered with 403, except that two tokens of equal length
    in UTF-16 units and different length in bytes make the comparison throw. *)
Theorem csrf_spec options req :
  match csrfMiddleware options req with
  | Ok Next => csrf_exempt options req = true \/ double_submitted options req
  | Ok (Reply status _) => status = 403 /\ csrf_exempt options req = false /\ ~ double_submitted options req
  | Throw _ => csrf_exempt options req = false /\ ~ double_submitted options req /\
      exists h c, map_get (toLowerCase options.(tokenHeader)) req.(hr_headers) = Some h /\
        map_get options.(cookieName) req.(hr_cookies) = Some c /\
        utf16_length h = utf16_length c /\ String.length h <> String.length c
  end.
Proof.
  unfold csrfMiddleware, csrf_exempt, double_submitted.
  destruct (safe_method _) eqn:Hs; [by left|].
  destruct (existsb _ _) eqn:He; [by left|]. cbn [orb].
  destruct (map_get (toLowerCase (tokenHeader options)) (hr_headers req)) as [h|]; cbn [missing default];
    [|cbn; split_and!; [done|done|naive_solver]].
  destruct (map_get (cookieName options) (hr_cookies req)) as [c|]; cbn [missing default].
  2:{ rewrite orb_true_r. split_and!; [done|done|naive_solver]. }
  destruct (bool_decide (h = "")) eqn:Hh; cbn [orb]; bools; [split_and!; [done|done|naive_solver]|].
  destruct (bool_decide (c = "")) eqn:Hc; cbn [orb]; bools; [split_and!; [done|done|naive_solver]|].
  unfold timingSafeCompare, from_option, id.
  destruct (utf16_length h =? utf16_length c)%nat eqn:H16; cbn [negb].
  2:{ split_and!; [done|done|]. intros (t & _ & [= ->] & [= ->]). by rewrite Nat.eqb_refl in H16. }
  destruct (String.length h =? String.length c)%nat eqn:H8; cbn [negb].
  - destruct (bool_decide (h = c)) eqn:Heq; bools; [subst; right; eauto|].
    split_and!; [done|done|naive_solver].
  - split_and!; [done| |].
    + intros (t & _ & [= ->] & [= ->]). by rewrite Nat.eqb_refl in H8.
    + exists h, c. split_and!; [done|done|by apply Nat.eqb_eq|by apply Nat.eqb_neq].
Qed.

(** in production an origin is reflected with credentials only when it is
    listed, and the wildcard never counts; requests without an origin pass. *)
Theorem cors_production_spec allowedOrigins requestOrigin :
  cors_origin allowedOrigins "production" requestOrigin = true <->
  (missing requestOrigin = true \/ exists o, requestOrigin = Some o /\ o ∈ allowedOrigins /\ o <> "*").
Proof.
  unfold cors_origin. cbn [negb andb].
  destruct (missing requestOrigin) eqn:Hm; [split; auto|].
  destruct requestOrigin as [o|]; [|done]. cbn [from_option].
  rewrite bool_decide_eq_true_2 by done. cbn [negb andb].
  rewrite bool_decide_eq_true, list_elem_of_In, List.filter_In, <- list_elem_of_In, negb_true_iff, bool_decide_eq_false.
  naive_solver.
Qed.

Lemma url_path_chars url : ∃ q, chars url = chars (url_path url) ++ q ∧ (q = [] ∨ ∃ q', q = "?"%char :: q').
Proof.
  unfold url_path, JsStrings.split. induction (chars url) as [|c l IH]; [exists []; cbn; auto|]. cbn [split_chars].
  case_bool_decide as Hc; [subst; exists ("?"%char :: l); cbn; eauto|].
  destruct (split_chars "?" l) as [|seg segs]; cbn in IH |- *.
  - destruct IH as (q & Hq & Hcase). exists q. cbn in Hq. by rewrite Hq.
  - rewrite chars_of_chars in IH |- *. destruct IH as (q & Hq & Hcase). exists q. cbn. by rewrite Hq.
Qed.

Lemma url_path_cons x url : x ≠ "?"%char → url_path (String x url) = String x (url_path url).
Proof.
  intros Hx. unfold url_path, JsStrings.split. change (chars (String x url)) with (x :: chars url).
  cbn [split_chars]. rewrite bool_decide_eq_false_2 by done.
  pose proof (split_chars_nonempty "?" (chars url)). by destruct (split_chars "?" (chars url)).
Qed.

Lemma url_path_version url : url_path ("/v1" +:+ url) = "/v1" +:+ url_path url.
Proof. change ("/v1" +:+ url) with (String "/" (String "v" (String "1" url))). by rewrite !url_path_cons. Qed.

(** a request under the API root is handled by version 1 or refused: when no
    version, or a supported one, is named, the rewritten path names version 1,
    rewriting again changes nothing, and the query is kept. *)
Theorem version_rewrite_spec url (Hroot : starts_with url "/" = true)
    (Hpass : unsupportedVersionHandler (url_path url) = Next) :
  let url' := versionFallbackRewrite url in
  (exists ds, version_digits (url_path url') = Some ds /\ decimal_value (of_chars ds) = 1%N) /\
  versionFallbackRewrite url' = url' /\
  (url' = url \/ exists rest, url' = "/v1" +:+ rest /\ (rest = url \/ url = "/" /\ rest = "")).
Proof.
  cbn zeta. unfold unsupportedVersionHandler in Hpass.
  assert (H : (∃ ds, version_digits (url_path (versionFallbackRewrite url)) = Some ds ∧
                     decimal_value (of_chars ds) = 1%N) ∧
    (versionFallbackRewrite url = url ∨
     ∃ rest, versionFallbackRewrite url = "/v1" +:+ rest ∧ (rest = url ∨ url = "/" ∧ rest = ""))).
  2:{ destruct H as [(ds & Hd & H1) H2]. split_and!; [eauto| |done].
      unfold versionFallbackRewrite at 1. by rewrite Hd. }
  unfold versionFallbackRewrite. destruct (version_digits (url_path url)) as [ds|] eqn:Hv.
  - split; [|by left]. exists ds. split; [done|]. destruct (_ || _) eqn:Hb; [done|]. apply orb_false_iff in Hb as [_ Hb].
    apply negb_false_iff, bool_decide_eq_true, list_elem_of_singleton in Hb. lia.
  - set (rest := if bool_decide (url = "/") then "" else url).
    assert (Hrest : rest = "" ∨ rest = url ∧ ∃ t, chars url = "/"%char :: t).
    { unfold rest. case_bool_decide; [by left|right]. split; [done|].
      apply starts_with_spec in Hroot as [t ->]. by exists (chars t). }
    assert (Hd : version_digits (url_path ("/v1" +:+ rest)) = Some ["1"%char]).
    { rewrite url_path_version. unfold version_digits. rewrite chars_app. cbn [chars String.list_ascii_of_string app].
      rewrite !bool_decide_eq_true_2 by done. cbn [andb].
      destruct Hrest as [->|[-> [t Ht]]]; [done|].
      destruct (url_path_chars url) as (q & Hq & Hcase). rewrite Ht in Hq. fold (chars (url_path url)).
      destruct (chars (url_path url)) as [|c l]; cbn in *; [|by injection Hq as <- _].
      destruct Hcase as [->|[q' ->]]; [done|]. by injection Hq. }
    split.
    + by exists ["1"%char].
    + right. exists rest. split; [done|]. unfold rest. case_bool_decide; auto.
Qed.

Lemma version_rewrite_spec_witness :
  exists ds, version_digits (url_path (versionFallbackRewrite "/users?page=2")) = Some ds /\
    decimal_value (of_chars ds) = 1%N.
Proof. exact (proj1 (version_rewrite_spec "/users?page=2" eq_refl eq_refl)). Defined.

Lemma hex_run_spec n l r : hex_run n l = Some r → ∃ h, l = h ++ r ∧ length h = n ∧ forallb is_hex h = true.
Proof.
  revert l. induction n as [|n IH]; intros l; cbn; [intros [= ->]; by exists []|].
  destruct l as [|c l]; [done|]. destruct (is_hex c) eqn:Hc; [|done].
  intros (h & -> & Hn & Hh)%IH. exists (c :: h). cbn. by rewrite Hn, Hc.
Qed.

(** an identifier that passes [validateIdParam] is digits, or thirty-six
    hexadecimal digits and dashes: nothing else reaches a query or a path. *)
Theorem validated_id_spec value :
  match validateIdParam value with
  | Next => exists v, value = Some v /\ v <> "" /\
      all_chars (fun c => is_hex c || bool_decide (c = "-"%char)) v = true /\
      (all_chars is_digit v = true \/ String.length v = 36%nat)
  | Reply status _ => status = 400
  end.
Proof.
  unfold validateIdParam. destruct value as [v|]; [|done]. cbn [missing from_option].
  case_bool_decide as Hv; [done|]. unfold id.
  destruct (all_chars is_digit v) eqn:Hd.
  - exists v. split_and!; [done|done| |by left]. apply all_chars_Forall. apply all_chars_Forall in Hd.
    eapply Forall_impl; [exact Hd|]. intros c Hc. unfold is_hex. cbn in Hc. by rewrite Hc.
  - destruct (isValidUuid v) eqn:Hu; [|done]. exists v. split_and!; [done|done| |right].
    all: unfold isValidUuid, uuid_chars in Hu.
    all: destruct (_ ≫= _) as [[|]|] eqn:Hrun in Hu; try done.
    all: apply bind_Some in Hrun as (l1 & (h1 & E1 & N1 & F1)%hex_run_spec & Hrun).
    all: apply bind_Some in Hrun as (l2 & D1 & Hrun); apply bind_Some in Hrun as (l3 & (h2 & E2 & N2 & F2)%hex_run_spec & Hrun).
    all: apply bind_Some in Hrun as (l4 & D2 & Hrun); apply bind_Some in Hrun as (l5 & (h3 & E3 & N3 & F3)%hex_run_spec & Hrun).
    all: apply bind_Some in Hrun as (l6 & D3 & Hrun); apply bind_Some in Hrun as (l7 & (h4 & E4 & N4 & F4)%hex_run_spec & Hrun).
    all: apply bind_Some in Hrun as (l8 & D4 & (h5 & E5 & N5 & F5)%hex_run_spec).
    all: assert (Hdash : ∀ a b, dash a = Some b → a = "-"%char :: b)
      by (intros [|c a] b; cbn; [done|case_bool_decide; [intros [= ->]; by subst|done]]).
    all: apply Hdash in D1, D2, D3, D4; subst l2 l4 l6 l8 l1 l3 l5 l7; rewrite app_nil_r in *.
    + unfold all_chars. rewrite E1, !forallb_app. cbn [forallb]. rewrite !forallb_app. cbn [forallb]. rewrite !forallb_app.
      cbn [forallb]. rewrite !forallb_app. cbn [forallb].
      assert (Hh : ∀ h, forallb is_hex h = true → forallb (λ c, is_hex c || bool_decide (c = "-"%char)) h = true).
      { intros h. rewrite !forallb_forall. intros H x Hx. by rewrite H. }
      by rewrite !Hh.
    + rewrite <- length_chars, E1, !length_app. cbn [length]. rewrite !length_app. cbn [length]. rewrite !length_app.
      cbn [length]. rewrite !length_app. cbn [length]. lia.
Qed.
