(* ===== verification/SessionCookies.v ===== *)
(** * Session cookies ([services/refreshCookiePath.ts], [routes/auth/login.ts],
    [session.ts], [twoFactor.ts])

    The cookies the authentication routes set and clear, the browser that sends
    them back by path (RFC 6265), and what follows for logging out and for the
    second step of a login. *)

From S2P Require Import Prelude JsMap JsStrings JsNumbers Json Accounts Sessions AuthService TwoFactor RequestGuards.
Local Open Scope Z_scope.

(** ** The path of the refresh cookie *)

Definition DEFAULT_API_PREFIX : string := "/api/v1".
Definition DEFAULT_REFRESH_ROUTE : string := "/auth/refresh".

(** [replace(/\/{2,}/g, '/')] *)
Fixpoint collapse_slashes (l : list ascii) : list ascii :=
  match l with
  | [] => []
  | c :: l' =>
      if bool_decide (c = "/"%char) then
        match collapse_slashes l' with
        | c2 :: r => if bool_decide (c2 = "/"%char) then c2 :: r else c :: c2 :: r
        | [] => [c]
        end
      else c :: collapse_slashes l'
  end.

Definition is_slash (c : ascii) : bool := bool_decide (c = "/"%char).
(** [replace(/\/+$/, '')] *)
Definition strip_trailing (l : list ascii) : list ascii := rev (drop_while is_slash (rev l)).

Definition normalizePath (raw : string) : string :=
  let path := collapse_slashes (chars (trim raw)) in
  let path := match path with c :: _ => if is_slash c then path else "/"%char :: path | [] => ["/"%char] end in
  let path := match path with _ :: _ :: _ => strip_trailing path | _ => path end in
  match path with [] => "/" | _ => of_chars path end.

Definition resolvePrefix (apiPrefix : option string) : string :=
  match apiPrefix with
  | Some p => if bool_decide (trim p = "") then DEFAULT_API_PREFIX else trim p
  | None => DEFAULT_API_PREFIX
  end.

Definition buildRefreshCookiePath (apiPrefix : option string) (refreshRoute : string) : string :=
  normalizePath (resolvePrefix apiPrefix +:+ "/" +:+ refreshRoute).

(** [getApiPrefix] of [config/environmentConfig.ts], then the default prefix. *)
Definition getApiPrefix (API_PREFIX : option string) : string :=
  match API_PREFIX with
  | Some raw => if bool_decide (trim raw = "") then DEFAULT_API_PREFIX else trim raw
  | None => DEFAULT_API_PREFIX
  end.
Definition getRefreshCookiePath (API_PREFIX : option string) : string :=
  buildRefreshCookiePath (Some (getApiPrefix API_PREFIX)) DEFAULT_REFRESH_ROUTE.

(** ** Cookies *)

Record cookie := { ck_name : string; ck_path : string; ck_value : string; ck_http_only : bool }.

Definition attachCsrfToken (token : string) : cookie :=
  {| ck_name := "csrf-token"; ck_path := "/"; ck_value := token; ck_http_only := false |}.

(** The cookies of [POST /login] and [POST /refresh], and of a login completed
    by the second factor. *)
Definition login_cookies (apiPrefix : option string) (token refreshToken csrf : string) : list cookie :=
  [{| ck_name := "token"; ck_path := "/api"; ck_value := token; ck_http_only := true |};
   {| ck_name := "refreshToken"; ck_path := getRefreshCookiePath apiPrefix; ck_value := refreshToken; ck_http_only := true |};
   attachCsrfToken csrf].
Definition second_factor_cookies (apiPrefix : option string) (token refreshToken csrf : string) : list cookie :=
  [{| ck_name := "token"; ck_path := "/"; ck_value := token; ck_http_only := true |};
   {| ck_name := "refreshToken"; ck_path := getRefreshCookiePath apiPrefix; ck_value := refreshToken; ck_http_only := true |};
   attachCsrfToken csrf].
(** The names and paths [POST /logout] clears. *)
Definition logout_clears (apiPrefix : option string) : list (string * string) :=
  [("refreshToken", getRefreshCookiePath apiPrefix); ("token", "/api")].

(** A browser's cookies, by name and path (RFC 6265). *)
Definition jar := list ((string * string) * string).

Definition set_cookies (l : list cookie) (j : jar) : jar :=
  foldl (λ j c, map_set (ck_name c, ck_path c) (ck_value c) j) j l.
Definition clear_cookies (l : list (string * string)) (j : jar) : jar := foldl (λ j k, map_delete k j) j l.

Definition path_matches (request_path cookie_path : string) : bool :=
  bool_decide (request_path = cookie_path) ||
  (starts_with request_path cookie_path &&
   (bool_decide (last (chars cookie_path) = Some "/"%char) || starts_with request_path (cookie_path +:+ "/"))).

(** [req.cookies[name]] of a request to [path]: the cookie with the longest path comes first. *)
Definition sent_cookies (j : jar) (path name : string) : list (string * string) :=
  map (λ e, (e.1.2, e.2)) (List.filter (λ e, bool_decide (e.1.1 = name) && path_matches path e.1.2) j).
Definition longer (a b : string * string) : string * string :=
  if (String.length a.1 <? String.length b.1)%nat then b else a.
Definition cookie_of (j : jar) (path name : string) : option string :=
  match sent_cookies j path name with
  | [] => None
  | e :: l => Some (foldl longer e l).2
  end.

(** What a login answer sets. *)
Definition answer_cookies (apiPrefix : option string) (csrf : string) (r : tf_reply) : list cookie :=
  match r with
  | Tokens _ token refreshToken => login_cookies apiPrefix token refreshToken csrf
  | _ => []
  end.

(** A request of the browser: its cookies for the path, and a header with the
    token the page has kept. *)
Definition browser_request (j : jar) (method path : string) (headers : list (string * string)) : http_request := {|
  hr_method := method; hr_originalUrl := path; hr_headers := headers;
  hr_cookies := omap (λ n, pair n <$> cookie_of j path n) ["token"; "refreshToken"; "csrf-token"] |}.

(** ** The form of the cookie path *)

Fixpoint no_double_slash (l : list ascii) : bool :=
  match l with
  | a :: l' => match l' with
               | b :: _ => negb (is_slash a && is_slash b) && no_double_slash l'
               | [] => true
               end
  | [] => true
  end.

Lemma collapse_no_double l : no_double_slash (collapse_slashes l) = true.
Proof.
  induction l as [|c l IH]; [done|]. cbn [collapse_slashes]. case_bool_decide as Hc.
  - destruct (collapse_slashes l) as [|c2 r]; [done|]. case_bool_decide as Hc2; [done|].
    cbn [no_double_slash] in *. unfold is_slash at 2. by rewrite bool_decide_eq_false_2, andb_false_r.
  - cbn [no_double_slash]. destruct (collapse_slashes l) as [|c2 r]; [done|].
    unfold is_slash at 1. by rewrite bool_decide_eq_false_2.
Qed.

Lemma no_double_prefix a b : no_double_slash (a ++ b) = true → no_double_slash a = true.
Proof.
  induction a as [|x a IH]; [done|]. destruct a as [|y a]; [done|]. cbn [app no_double_slash].
  intros [H1 H2]%andb_true_iff. rewrite H1. by apply IH.
Qed.

Lemma strip_trailing_spec l :
  ∃ s, l = strip_trailing l ++ s ∧ forallb is_slash s = true ∧
       match last (strip_trailing l) with Some c => is_slash c = false | None => True end.
Proof.
  assert (H : ∀ r, ∃ s, rev r = rev (drop_while is_slash r) ++ s ∧ forallb is_slash s = true ∧
    match last (rev (drop_while is_slash r)) with Some c => is_slash c = false | None => True end).
  2:{ destruct (H (rev l)) as (s & H1 & H2). exists s. by rewrite rev_involutive in H1. }
  clear l. intros l. induction l as [|c l (s & H1 & H2 & H3)]; cbn [drop_while]; [by exists []|].
  destruct (is_slash c) eqn:Hc.
  - exists (s ++ [c]). cbn [rev]. rewrite H1, <- app_assoc, forallb_app, H2. cbn. by rewrite Hc.
  - exists []. rewrite app_nil_r. cbn [rev]. rewrite last_snoc. done.
Qed.

(** whatever the configured prefix, the path of the refresh cookie starts
    with one slash, holds no double slash and does not end in one (but for the
    root), so that it matches request paths. *)
Theorem cookie_path_normal apiPrefix refreshRoute :
  exists p, buildRefreshCookiePath apiPrefix refreshRoute = of_chars p /\
    hd_error p = Some "/"%char /\ no_double_slash p = true /\
    (p = ["/"%char] \/ exists c, last p = Some c /\ is_slash c = false).
Proof.
  unfold buildRefreshCookiePath. generalize (resolvePrefix apiPrefix +:+ "/" +:+ refreshRoute) as raw. intros raw.
  unfold normalizePath. set (l := collapse_slashes (chars (trim raw))).
  assert (Hl : no_double_slash l = true) by apply collapse_no_double.
  set (l1 := match l with c :: _ => if is_slash c then l else "/"%char :: l | [] => ["/"%char] end).
  assert (H1 : (∃ t, l1 = "/"%char :: t) ∧ no_double_slash l1 = true).
  { unfold l1. destruct l as [|c t]; [split; [by exists []|done]|]. destruct (is_slash c) eqn:Hc.
    - split; [|done]. unfold is_slash in Hc. bools. subst. by exists t.
    - split; [by eexists|]. change (negb (is_slash "/" && is_slash c) && no_double_slash (c :: t) = true). by rewrite Hc, andb_false_r. }
  destruct H1 as [[t Ht] Hd]. rewrite Ht in Hd |- *. destruct t as [|c t].
  - exists ["/"%char]. split_and!; try done. by left.
  - destruct (strip_trailing_spec ("/"%char :: c :: t)) as (s & Hs & Hsl & Hlast).
    assert (Hc : is_slash c = false).
    { cbn [no_double_slash] in Hd. apply andb_true_iff in Hd as [Hd _].
      apply negb_true_iff in Hd. by destruct (is_slash c). }
    assert (Hst : ∃ r, strip_trailing ("/"%char :: c :: t) = "/"%char :: c :: r).
    { destruct (strip_trailing ("/"%char :: c :: t)) as [|a [|b r]]; cbn in Hs.
      - subst s. cbn in Hsl. by rewrite Hc in Hsl.
      - injection Hs as _ <-. cbn in Hsl. by rewrite Hc in Hsl.
      - injection Hs as <- <- _. by exists r. }
    destruct Hst as [r Hr]. rewrite Hr in *. exists ("/"%char :: c :: r). split_and!; [done|done| |right].
    + apply no_double_prefix with s. by rewrite <- Hs.
    + destruct (last _) as [c'|] eqn:Hl' in Hlast; [by exists c'|]. by apply last_None in Hl'.
Qed.

(** ** Logging out, and the second step of a login *)

Definition logout_path : string := "/api/v1/auth/logout".

(** with the default prefix the refresh cookie is sent to the refresh route
    only: the logout request carries none, so the handler finds no session, and
    the session and the refresh token stay valid at the server. *)
Theorem logout_reaches_no_session sha256 token refreshToken csrf (d : accounts_db) :
  let j := set_cookies (login_cookies None token refreshToken csrf) [] in
  cookie_of j "/api/v1/auth/refresh" "refreshToken" = Some refreshToken /\
  cookie_of j logout_path "refreshToken" = None /\
  logout sha256 (default "" (cookie_of j logout_path "refreshToken")) d = (Ok None, d).
Proof. by vm_compute. Qed.

(** the access cookie of a login completed by the second factor has the path
    [/], the one logging out clears has the path [/api]: the browser keeps
    sending the token after the logout.  After an ordinary login it does not. *)
Theorem second_factor_cookie_survives_logout token refreshToken csrf :
  cookie_of (clear_cookies (logout_clears None) (set_cookies (second_factor_cookies None token refreshToken csrf) []))
    "/api/v1/users" "token" = Some token /\
  cookie_of (clear_cookies (logout_clears None) (set_cookies (login_cookies None token refreshToken csrf) []))
    "/api/v1/users" "token" = None.
Proof. by vm_compute. Qed.

(** a login that asks for the second factor sets no cookie, and the routes of
    the second factor are not exempt from the CSRF guard: a browser without a
    CSRF cookie of an earlier session is refused whatever header it sends. *)
Theorem second_factor_needs_earlier_csrf_cookie csrf temp headers :
  let j := set_cookies (answer_cookies None csrf (Requires2FA temp)) [] in
  csrfMiddleware server_csrf (browser_request j "POST" "/api/v1/auth/2fa/validate" headers)
    = Ok (Reply 403 "CSRF token missing").
Proof.
  cbn zeta. unfold csrfMiddleware, browser_request. cbn [hr_method hr_originalUrl hr_headers hr_cookies].
  change (safe_method (toUpperCase "POST")) with false. cbv iota.
  change (existsb _ (exemptPaths server_csrf)) with false. cbv iota.
  change (map_get (cookieName server_csrf) _) with (@None string). by rewrite orb_true_r.
Qed.

(** a browser that keeps the token of its last login in the header passes the
    CSRF guard on every route until another login or refresh replaces it. *)
Theorem csrf_cookie_round_trip token refreshToken csrf method path (Hcsrf : csrf <> "")
    (Hroot : starts_with path "/" = true) :
  let j := set_cookies (login_cookies None token refreshToken csrf) [] in
  csrfMiddleware server_csrf (browser_request j method path [("x-csrf-token", csrf)]) = Ok Next.
Proof.
  cbn zeta. unfold csrfMiddleware. destruct (safe_method _); [done|]. destruct (existsb _ _); [done|].
  change (map_get (toLowerCase (tokenHeader server_csrf)) _) with (Some csrf).
  assert (Hc : map_get (cookieName server_csrf)
    (hr_cookies (browser_request (set_cookies (login_cookies None token refreshToken csrf) []) method path
      [("x-csrf-token", csrf)])) = Some csrf).
  { cbn [browser_request hr_cookies cookieName server_csrf].
    set (j := set_cookies _ []). assert (Hj : cookie_of j path "csrf-token" = Some csrf).
    { assert (j = [(("token", "/api"), token); (("refreshToken", "/api/v1/auth/refresh"), refreshToken);
                   (("csrf-token", "/"), csrf)]) as -> by by vm_compute.
      assert (path_matches path "/" = true) as Hm.
      { unfold path_matches. rewrite Hroot. by rewrite orb_true_r. }
      unfold cookie_of, sent_cookies. cbn [List.filter fst snd].
      change (bool_decide ("token" = "csrf-token")) with false.
      change (bool_decide ("refreshToken" = "csrf-token")) with false.
      change (bool_decide ("csrf-token" = "csrf-token")) with true. cbn [andb]. by rewrite Hm. }
    cbn [omap list_omap]. rewrite Hj.
    destruct (cookie_of j path "token"), (cookie_of j path "refreshToken"); reflexivity. }
  rewrite Hc. cbn [missing]. rewrite bool_decide_eq_false_2 by done. cbn [orb from_option].
  unfold timingSafeCompare, id. rewrite !Nat.eqb_refl. cbn [negb]. by rewrite bool_decide_eq_true_2.
Qed.

Lemma csrf_cookie_round_trip_witness :
  csrfMiddleware server_csrf (browser_request (set_cookies (login_cookies None "t" "r" "c0ffee") []) "DELETE"
    "/api/v1/users/7" [("x-csrf-token", "c0ffee")]) = Ok Next.
Proof. exact (csrf_cookie_round_trip "t" "r" "c0ffee" "DELETE" "/api/v1/users/7" ltac:(discriminate) eq_refl). Defined.
