(* ===== verification/Responses.v ===== *)
(** * Response bodies ([middleware/responseWrapper.ts], [utils/responseEnvelope.ts],
    [middleware/caching.ts], [middleware/error.ts])

    The envelope every JSON answer gets, the entity tags of cached answers and
    the fields of an error a client may see.  A body is a [json] value;
    [undefined] is [JNull]. *)

From S2P Require Import Prelude JsMap JsStrings JsNumbers Json.
Local Open Scope Z_scope.

(** ** JavaScript objects *)

(** [typeof v === 'object' && v !== null] *)
Definition is_object (v : json) : bool := match v with JArr _ | JObj _ => true | _ => false end.

(** [!v] *)
Definition falsy (v : json) : bool :=
  match v with
  | JNull => true
  | JBool b => negb b
  | JNum n => bool_decide (n = "0")
  | JStr s => bool_decide (s = "")
  | _ => false
  end.

(** [k in v], for a key that is no array index *)
Definition has_key (k : string) (v : json) : bool := bool_decide (is_Some (json_field k v)).

(** The own properties [{ ...v }] copies. *)
Definition spread (v : json) : list (string * json) :=
  match v with
  | JObj l => l
  | JArr l => imap (λ i x, (pretty (N.of_nat i), x)) l
  | _ => []
  end.

(** [typeof v === 'string' && v.length > 0] *)
Definition filled_string (v : option json) : bool :=
  match v with Some (JStr s) => negb (bool_decide (s = "")) | _ => false end.

(** ** The response wrapper *)

Definition defaultErrorCodeForStatus (statusCode : Z) : string :=
  if statusCode =? 400 then "VALIDATION_ERROR" else if statusCode =? 401 then "UNAUTHORIZED"
  else if statusCode =? 403 then "FORBIDDEN" else if statusCode =? 404 then "NOT_FOUND"
  else if statusCode =? 409 then "CONFLICT" else if statusCode =? 429 then "RATE_LIMIT_EXCEEDED"
  else "INTERNAL_ERROR".

Definition defaultErrorMessageForStatus (statusCode : Z) : string :=
  if statusCode =? 400 then "Bad request" else if statusCode =? 401 then "Unauthorized"
  else if statusCode =? 403 then "Forbidden" else if statusCode =? 404 then "Resource not found"
  else if statusCode =? 409 then "Conflict" else if statusCode =? 429 then "Too many requests"
  else "An unexpected error occurred".

Definition normalizeErrorObject (payload : json) (statusCode : Z) : json :=
  let code := JStr (defaultErrorCodeForStatus statusCode) in
  let message := JStr (defaultErrorMessageForStatus statusCode) in
  match payload with
  | JStr s => JObj [("code", code); ("message", if bool_decide (s = "") then message else JStr s)]
  | JArr _ | JObj _ =>
      let result := spread payload in
      let result := if filled_string (map_get "code" result) then result else map_set "code" code result in
      JObj (if filled_string (map_get "message" result) then result
            else map_set "message"
                   (match map_get "error" result with
                    | Some (JStr s) => if bool_decide (s = "") then message else JStr s
                    | _ => message
                    end) result)
  | _ => JObj [("code", code); ("message", message)]
  end.

Definition isAlreadyWrapped (body : json) : bool :=
  match json_field "success" body, json_field "meta" body with
  | Some (JBool _), Some m => is_object m
  | _, _ => false
  end.

(** What the patched [res.json] sends for [body]. *)
Definition wrap_response (statusCode : Z) (requestId timestamp version : string) (body : json) : json :=
  if isAlreadyWrapped body then body
  else
    let meta := [("requestId", JStr requestId); ("timestamp", JStr timestamp); ("version", JStr version)] in
    let '(body, meta) :=
      match body with
      | JObj l => match map_get "pagination" l with
                  | Some p => (JObj (map_delete "pagination" l), meta ++ [("pagination", p)])
                  | None => (body, meta)
                  end
      | _ => (body, meta)
      end in
    let nested := match json_field "error" body with Some e => is_object e | None => false end in
    if 400 <=? statusCode then
      JObj [("success", JBool false);
            ("data", default JNull (json_field "data" body));
            ("error", normalizeErrorObject (if nested then default JNull (json_field "error" body) else body) statusCode);
            ("meta", JObj meta)]
    else JObj [("success", JBool true); ("data", body); ("meta", JObj meta)].

(** A path that is not excluded is wrapped. *)
Definition createResponseWrapper (excludePaths : list string) (path : string)
    (statusCode : Z) (requestId timestamp version : string) (body : json) : json :=
  if existsb (λ p, starts_with path p) excludePaths then body
  else wrap_response statusCode requestId timestamp version body.

(** ** [utils/responseEnvelope.ts] *)

Definition API_VERSION : string := "1.0.0".

(** An empty or absent identifier is replaced by a fresh one. *)
Definition or_fresh (v : option string) (fresh : string) : string :=
  match v with Some s => if bool_decide (s = "") then fresh else s | None => fresh end.

Definition createSuccessResponse (data : json) (requestId : option string) (pagination : option json)
    (fresh timestamp : string) : json :=
  JObj [("success", JBool true); ("data", data);
        ("meta", JObj ([("requestId", JStr (or_fresh requestId fresh)); ("timestamp", JStr timestamp);
                        ("version", JStr API_VERSION)] ++
                       match pagination with Some p => [("pagination", p)] | None => [] end))].

Definition createErrorResponse (code message : string) (traceId requestId : option string)
    (details : option json) (fresh1 fresh2 timestamp : string) : json :=
  JObj [("success", JBool false); ("data", JNull);
        ("error", JObj ([("code", JStr code); ("message", JStr message);
                         ("traceId", JStr (or_fresh traceId fresh1))] ++
                        match details with Some d => [("details", d)] | None => [] end));
        ("meta", JObj [("requestId", JStr (or_fresh requestId fresh2)); ("timestamp", JStr timestamp);
                       ("version", JStr API_VERSION)])].

Definition notFoundHandler (originalUrl fresh1 fresh2 timestamp : string) : Z * json :=
  (404, createErrorResponse "NOT_FOUND" ("API endpoint " +:+ originalUrl +:+ " not found") None None None
          fresh1 fresh2 timestamp).

(** ** Entity tags *)

Inductive resource_type := static | listing | detail.
Definition MAX_AGE_MAP (t : resource_type) : Z :=
  match t with static => 3600 | listing => 120 | detail => 60 end.

(** What a cached route sends: the status, the [ETag] and [max-age] headers, the body. *)
Record cached_answer := { ca_status : Z; ca_etag : option string; ca_max_age : option Z; ca_body : option json }.

Section etag.
Context (md5 : string → string).

Definition generateETag (body : string) : string :=
  "W/" +:+ of_chars [chr 34] +:+ md5 body +:+ of_chars [chr 34].

Definition caching_json (t : resource_type) (method : string) (excluded : bool) (ifNoneMatch : option string)
    (statusCode : Z) (body : json) : cached_answer :=
  let plain := {| ca_status := statusCode; ca_etag := None; ca_max_age := None; ca_body := Some body |} in
  if negb (bool_decide (method = "GET")) || excluded then plain
  else if (200 <=? statusCode) && (statusCode <? 300) then
    let etag := generateETag (stringify body) in
    if match ifNoneMatch with Some h => negb (bool_decide (h = "")) && bool_decide (h = etag) | None => false end
    then {| ca_status := 304; ca_etag := None; ca_max_age := None; ca_body := None |}
    else {| ca_status := statusCode; ca_etag := Some etag; ca_max_age := Some (MAX_AGE_MAP t); ca_body := Some body |}
  else plain.
End etag.

(** ** What a client sees of an error *)

Definition CLIENT_ERROR_FIELD_ALLOWLIST : list string := ["code"; "message"; "traceId"; "field"; "errors"].

Definition sanitizeErrorForClient (error : list (string * json)) : list (string * json) :=
  List.filter (λ m, bool_decide (m.1 ∈ CLIENT_ERROR_FIELD_ALLOWLIST)) error.

(** ** Properties *)

Lemma filled_default_code st : filled_string (Some (JStr (defaultErrorCodeForStatus st))) = true.
Proof. unfold defaultErrorCodeForStatus. repeat case_match; done. Qed.
Lemma filled_default_message st : filled_string (Some (JStr (defaultErrorMessageForStatus st))) = true.
Proof. unfold defaultErrorMessageForStatus. repeat case_match; done. Qed.

Lemma normalized_error payload st :
  ∃ e, normalizeErrorObject payload st = JObj e ∧
    filled_string (map_get "code" e) = true ∧ filled_string (map_get "message" e) = true.
Proof.
  pose proof (filled_default_code st) as Hcode. pose proof (filled_default_message st) as Hmsg.
  assert (Hobj : ∀ l, let result := if filled_string (map_get "code" l) then l
                                   else map_set "code" (JStr (defaultErrorCodeForStatus st)) l in
    ∃ e, JObj (if filled_string (map_get "message" result) then result
               else map_set "message" (match map_get "error" result with
                    | Some (JStr s) => if bool_decide (s = "") then JStr (defaultErrorMessageForStatus st) else JStr s
                    | _ => JStr (defaultErrorMessageForStatus st) end) result) = JObj e ∧
      filled_string (map_get "code" e) = true ∧ filled_string (map_get "message" e) = true).
  { intros l result. assert (Hr : filled_string (map_get "code" result) = true).
    { unfold result. destruct (filled_string (map_get "code" l)) eqn:Hl; [done|]. by rewrite map_get_set_eq. }
    eexists. split; [reflexivity|]. destruct (filled_string (map_get "message" result)) eqn:Hm; [done|].
    rewrite map_get_set_ne by done. rewrite map_get_set_eq. split; [done|].
    destruct (map_get "error" result) as [[| | |t| |]|]; try done. case_bool_decide as Ht; [done|].
    cbn. by rewrite bool_decide_eq_false_2. }
  destruct payload as [| | |t|l|l]; cbn [normalizeErrorObject spread];
    try (eexists; split; [reflexivity|]; exact (conj Hcode Hmsg)).
  - eexists. split; [reflexivity|]. split; [exact Hcode|]. case_bool_decide as Ht; [exact Hmsg|].
    change (filled_string (Some (JStr t)) = true). cbn. by rewrite bool_decide_eq_false_2.
  - apply Hobj.
  - apply Hobj.
Qed.

(** every answer leaves in the envelope: wrapping a second time changes
    nothing, [success] says whether the status is below 400, and an answer from
    400 on carries an error object with a non-empty code and message, whatever
    the handler sent. *)
Theorem response_envelope st requestId timestamp version body :
  let r := wrap_response st requestId timestamp version body in
  isAlreadyWrapped r = true /\
  (forall st' requestId' timestamp' version', wrap_response st' requestId' timestamp' version' r = r) /\
  (isAlreadyWrapped body = true /\ r = body \/
   json_field "success" r = Some (JBool (st <? 400)) /\
   ((400 <=? st) = false -> exists d, json_field "data" r = Some d) /\
   ((400 <=? st) = true -> exists e, json_field "error" r = Some (JObj e) /\
      filled_string (map_get "code" e) = true /\ filled_string (map_get "message" e) = true)).
Proof.
  cbn zeta. set (r := wrap_response st requestId timestamp version body).
  assert (H : isAlreadyWrapped r = true ∧
    (isAlreadyWrapped body = true ∧ r = body ∨
     json_field "success" r = Some (JBool (st <? 400)) ∧
     ((400 <=? st) = false → ∃ d, json_field "data" r = Some d) ∧
     ((400 <=? st) = true → ∃ e, json_field "error" r = Some (JObj e) ∧
        filled_string (map_get "code" e) = true ∧ filled_string (map_get "message" e) = true))).
  2:{ destruct H as [Hw H]. split_and!; [done| |done]. intros. unfold wrap_response. by rewrite Hw. }
  unfold r, wrap_response. destruct (isAlreadyWrapped body) eqn:Hb; [by auto|].
  destruct (match body with JObj l => _ | _ => _ end) as [body' meta].
  destruct (400 <=? st) eqn:Hst.
  - split; [done|right]. split_and!.
    + cbn. f_equal. f_equal. symmetry. apply Z.ltb_ge. by apply Z.leb_le.
    + done.
    + intros _. destruct (normalized_error
        (if match json_field "error" body' with Some e => is_object e | None => false end
         then default JNull (json_field "error" body') else body') st) as (e & He & H1 & H2).
      exists e. cbn [json_field map_get]. rewrite <- He. done.
  - split; [done|right]. split_and!; [|by eexists|done].
    cbn. f_equal. f_equal. symmetry. apply Z.ltb_lt. by apply Z.leb_gt.
Qed.

(** a cached route answers 304 without a body exactly for a successful GET
    whose [If-None-Match] is the tag of the body it would send. *)
Theorem caching_spec md5 t method excluded ifNoneMatch st body :
  let a := caching_json md5 t method excluded ifNoneMatch st body in
  (ca_body a = None <->
     method = "GET" /\ excluded = false /\ 200 <= st < 300 /\
     ifNoneMatch = Some (generateETag md5 (stringify body))) /\
  (ca_body a = None -> ca_status a = 304) /\
  (ca_body a <> None -> ca_body a = Some body /\ ca_status a = st).
Proof.
  assert (Htag : generateETag md5 (stringify body) ≠ "") by done.
  cbn zeta. unfold caching_json. destruct (bool_decide (method = "GET")) eqn:Hm; cbn [negb orb]; bools.
  2:{ split_and!; [split; [done|naive_solver]|done|done]. }
  destruct excluded; [split_and!; [split; [done|naive_solver]|done|done]|].
  destruct (Z.leb_spec 200 st), (Z.ltb_spec st 300); cbn [andb];
    try (split_and!; [split; [done|intros (? & ? & ? & ?); lia]|done|done]).
  destruct ifNoneMatch as [h|].
  - destruct (bool_decide (h = "")) eqn:He; cbn [negb andb]; bools.
    { split_and!; [split; [done|intros (? & ? & ? & [= Hh]); by rewrite Hh in He]|done|done]. }
    destruct (bool_decide (h = generateETag md5 (stringify body))) eqn:Hh; bools.
    + subst. split_and!; [split; [done|done]|done|done].
    + split_and!; [split; [done|intros (? & ? & ? & [= ?]); done]|done|done].
  - split_and!; [split; [done|intros (? & ? & ? & ?); done]|done|done].
Qed.

(** the error object a client gets in production holds only the five allowed
    fields, each with the value the error has. *)
Theorem sanitized_error_spec error k :
  (k ∈ CLIENT_ERROR_FIELD_ALLOWLIST -> map_get k (sanitizeErrorForClient error) = map_get k error) /\
  (k ∉ CLIENT_ERROR_FIELD_ALLOWLIST -> map_get k (sanitizeErrorForClient error) = None).
Proof.
  unfold sanitizeErrorForClient. split; intros Hk.
  - induction error as [|[k' v] l IH]; [done|]. cbn [List.filter fst].
    destruct (bool_decide (k' ∈ _)) eqn:Hk'; cbn [map_get]; bools; [by rewrite IH|].
    rewrite IH. by rewrite bool_decide_eq_false_2 by congruence.
  - apply map_get_None. unfold keys. intros ([k' v] & -> & Hin)%list_elem_of_fmap.
    apply list_elem_of_In, List.filter_In in Hin as [_ Hin]. cbn in Hin. by bools.
Qed.

Lemma sanitized_error_spec_witness :
  map_get "stack" (sanitizeErrorForClient [("stack", JStr "at db.ts:1"); ("code", JStr "X")]) = None.
Proof.
  apply (proj2 (sanitized_error_spec [("stack", JStr "at db.ts:1"); ("code", JStr "X")] "stack")).
  apply (bool_decide_unpack _). by vm_compute.
Defined.
