(* ===== verification/Regex.v ===== *)
(** * Regular expressions of the runtime

    The part of ECMAScript's patterns the source uses: character classes, word
    boundaries, alternatives and greedy repetition, matched by backtracking in
    the order the standard gives, and [String.prototype.replace] with the [g]
    flag.  A position in a text is the character before it and the text that is
    left.  [matches] says what a pattern stands for without an order, and
    [rx_match_iff] shows that the matcher finds a match exactly when there is
    one.  Without the [u] flag [\w] and [i] look at ASCII only; [.] steps over
    the bytes of the two Unicode line separators, which it should not. *)

From S2P Require Import Prelude JsStrings.

Inductive regex : Type :=
  | RChar (p : ascii → bool)
  | RBoundary
  | REmpty
  | RSeq (a b : regex)
  | RAlt (a b : regex)
  | RStar (a : regex).

(** The character before a position, and the text after it. *)
Abbreviation position := (option ascii * list ascii)%type.

(** [\w] and [\b] *)
Definition is_word (c : ascii) : bool := is_alnum c || (code c =? 95)%N.
Definition word_at (c : option ascii) : bool := match c with Some c => is_word c | None => false end.
Definition at_boundary (t : position) : bool := xorb (word_at t.1) (word_at (head t.2)).

(** An iteration of a repetition that consumes nothing is given up, so as
    many rounds as there are characters are enough. *)
Fixpoint rx_match {A} (r : regex) (t : position) (k : position → option A) {struct r} : option A :=
  match r with
  | RChar p => match t.2 with c :: l => if p c then k (Some c, l) else None | [] => None end
  | RBoundary => if at_boundary t then k t else None
  | REmpty => k t
  | RSeq a b => rx_match a t (λ t', rx_match b t' k)
  | RAlt a b => match rx_match a t k with Some x => Some x | None => rx_match b t k end
  | RStar a =>
      (fix rounds (n : nat) (t : position) {struct n} : option A :=
         match n with
         | O => k t
         | S n' => match rx_match a t (λ t', if (length t'.2 <? length t.2)%nat then rounds n' t' else None) with
                   | Some x => Some x
                   | None => k t
                   end
         end) (length t.2) t
  end.

(** The pieces patterns are written with. *)
Definition ropt (a : regex) : regex := RAlt a REmpty.
Definition rplus (a : regex) : regex := RSeq a (RStar a).
Definition rword (s : string) : regex := foldr (λ c r, RSeq (RChar (λ d, bool_decide (d = c))) r) REmpty (chars s).
(** A literal under the [i] flag. *)
Definition rword_i (s : string) : regex :=
  foldr (λ c r, RSeq (RChar (λ d, bool_decide (lower_char d = lower_char c))) r) REmpty (chars s).
Definition rone_of (l : list regex) (r : regex) : regex := foldr RAlt r l.
Definition rany : regex := RChar (λ c, negb ((code c =? 10)%N || (code c =? 13)%N)).
Definition rspace : regex := RChar is_js_space.

(** [r.test(s)] *)
Fixpoint rx_search {A} (r : regex) (k : position → option A) (prev : option ascii) (l : list ascii) : option A :=
  match rx_match r (prev, l) k with
  | Some x => Some x
  | None => match l with [] => None | c :: l' => rx_search r k (Some c) l' end
  end.
Definition rx_test (r : regex) (s : string) : bool := bool_decide (is_Some (rx_search r (λ t, Some t) None (chars s))).

(** [s.replace(r, by)] with the [g] flag, for a pattern that consumes at least
    one character at every match. *)
Fixpoint rx_replace (fuel : nat) (r : regex) (by' : list ascii) (t : position) : list ascii :=
  match fuel, t.2 with
  | S f, c :: l => match rx_match r t Some with
                   | Some t' => by' ++ rx_replace f r by' t'
                   | None => c :: rx_replace f r by' (Some c, l)
                   end
  | _, l => l
  end.
Definition replace_g (r : regex) (by' s : string) : string :=
  of_chars (rx_replace (String.length s) r (chars by') (None, chars s)).

(** ** What a pattern stands for *)

Inductive matches : regex → position → position → Prop :=
  | matches_char p prev c l : p c = true → matches (RChar p) (prev, c :: l) (Some c, l)
  | matches_boundary t : at_boundary t = true → matches RBoundary t t
  | matches_empty t : matches REmpty t t
  | matches_seq a b t t1 t2 : matches a t t1 → matches b t1 t2 → matches (RSeq a b) t t2
  | matches_left a b t t' : matches a t t' → matches (RAlt a b) t t'
  | matches_right a b t t' : matches b t t' → matches (RAlt a b) t t'
  | matches_done a t : matches (RStar a) t t
  | matches_round a t t1 t2 :
      matches a t t1 → (length t1.2 < length t.2)%nat → matches (RStar a) t1 t2 → matches (RStar a) t t2.
#[export] Hint Constructors matches : core.

Section rounds.
Context {A : Type} (a : regex) (k : position → option A).
Context (IH : ∀ t (k : position → option A), is_Some (rx_match a t k) ↔ ∃ t', matches a t t' ∧ is_Some (k t')).

Lemma rounds_iff : ∀ n t, (length t.2 ≤ n)%nat →
  is_Some ((fix rounds (n : nat) (t : position) {struct n} : option A :=
    match n with
    | O => k t
    | S n' => match rx_match a t (λ t', if (length t'.2 <? length t.2)%nat then rounds n' t' else None) with
              | Some x => Some x
              | None => k t
              end
    end) n t) ↔ ∃ t', matches (RStar a) t t' ∧ is_Some (k t').
Proof.
  induction n as [|n IHn]; intros t Hn.
  - split; [by exists t; eauto|]. intros (t' & Hm & Hk). inversion Hm; subst; [done|lia].
  - destruct (rx_match a t _) as [x|] eqn:Hx.
    + split; [|by eexists]. intros _. pose proof (mk_is_Some _ _ Hx) as Hs.
      apply IH in Hs as (t1 & Hm & Hs). destruct (Nat.ltb_spec (length t1.2) (length t.2)) as [Hl|]; [|by destruct Hs].
      apply IHn in Hs as (t2 & Hm2 & Hk); [|lia]. exists t2. eauto.
    + split; [by exists t; eauto|]. intros (t' & Hm & Hk). inversion Hm as [| | | | | | |? ? t1 ? Ha Hl Hr]; subst; [done|].
      exfalso. assert (Hs : is_Some (rx_match a t (λ t', if (length t'.2 <? length t.2)%nat then
        (fix rounds (n : nat) (t : position) {struct n} : option A :=
          match n with
          | O => k t
          | S n' => match rx_match a t (λ t', if (length t'.2 <? length t.2)%nat then rounds n' t' else None) with
                    | Some x => Some x
                    | None => k t
                    end
          end) n t' else None))).
      { apply IH. exists t1. split; [done|]. rewrite (proj2 (Nat.ltb_lt _ _) Hl). apply IHn; [lia|]. eauto. }
      rewrite Hx in Hs. by destruct Hs.
Qed.
End rounds.

(** the backtracking matcher finds a match exactly when there is one *)
Lemma rx_match_iff {A} r : ∀ t (k : position → option A),
  is_Some (rx_match r t k) ↔ ∃ t', matches r t t' ∧ is_Some (k t').
Proof.
  induction r as [p| | |a IHa b IHb|a IHa b IHb|a IHa]; intros t k; cbn [rx_match].
  - destruct t as [prev [|c l]]; cbn.
    + split; [by intros []|]. intros (t' & Hm & _). inversion Hm.
    + destruct (p c) eqn:Hp; split; try done; [eauto|..]; intros (t' & Hm & Hk); inversion Hm; by subst; rewrite ?Hp in *.
  - destruct (at_boundary t) eqn:Hb; split; eauto; try by intros [].
    + intros (t' & Hm & Hk). by inversion Hm; subst.
    + intros (t' & Hm & Hk). inversion Hm; subst. by rewrite Hb in *.
  - split; [eauto|]. intros (t' & Hm & Hk). by inversion Hm; subst.
  - rewrite IHa. split.
    + intros (t1 & Hm & Hs). apply IHb in Hs as (t2 & Hm2 & Hk). eauto.
    + intros (t' & Hm & Hk). inversion Hm; subst. eexists. split; [done|]. apply IHb. eauto.
  - destruct (rx_match a t k) as [x|] eqn:Hx.
    + split; [|by eexists]. intros _. pose proof (mk_is_Some _ _ Hx) as Hs. apply IHa in Hs as (t' & Hm & Hk). eauto.
    + rewrite IHb. split; intros (t' & Hm & Hk); [eauto|]. inversion Hm; subst; [|eauto].
      exfalso. assert (Hs : is_Some (rx_match a t k)) by (apply IHa; eauto). rewrite Hx in Hs. by destruct Hs.
  - apply rounds_iff; [done|lia].
Qed.

(** A match never gives text back. *)
Lemma matches_within r t t' : matches r t t' → (length t'.2 ≤ length t.2)%nat.
Proof. induction 1; cbn in *; lia. Qed.

(** Whether every match takes a character. *)
Fixpoint consumes (r : regex) : bool :=
  match r with
  | RChar _ => true
  | RBoundary | REmpty | RStar _ => false
  | RSeq a b => consumes a || consumes b
  | RAlt a b => consumes a && consumes b
  end.
Lemma matches_consumes r t t' : matches r t t' → consumes r = true → (length t'.2 < length t.2)%nat.
Proof.
  induction 1; cbn; intros Hc; try done; try lia.
  - apply orb_true_iff in Hc as [Hc|Hc].
    + specialize (IHmatches1 Hc). apply matches_within in H0. lia.
    + specialize (IHmatches2 Hc). apply matches_within in H. lia.
  - apply andb_true_iff in Hc as [Hc _]. auto.
  - apply andb_true_iff in Hc as [_ Hc]. auto.
Qed.

(** ** Whole words

    [/\bname\b/gi] sees a text as its maximal runs of word characters. *)

(** The runs, an empty one beside every other character. *)
Fixpoint runs (l : list ascii) : list (list ascii) :=
  match l with
  | [] => [[]]
  | c :: l' =>
      if is_word c then match runs l' with r :: rs => (c :: r) :: rs | [] => [[c]] end
      else [] :: runs l'
  end.
Definition same_ci (name w : list ascii) : bool := bool_decide (map lower_char w = map lower_char name).
(** [\b(?:r)\b] *)
Definition rbounded (r : regex) : regex := RSeq RBoundary (RSeq r RBoundary).

Lemma runs_cons l : ∃ r rs, runs l = r :: rs.
Proof. induction l as [|c l (r & rs & IH)]; cbn; [by eauto|]. rewrite IH. destruct (is_word c); eauto. Qed.

Lemma is_word_lower c d : lower_char d = lower_char c → is_word c = true → is_word d = true.
Proof.
  intros He Hc. assert (Hl : ∀ x, is_word (lower_char x) = is_word x).
  { intros [b0 b1 b2 b3 b4 b5 b6 b7]. destruct b0, b1, b2, b3, b4, b5, b6, b7; reflexivity. }
  by rewrite <-(Hl d), He, Hl.
Qed.

(** The literal takes exactly its own length. *)
Lemma rword_i_match {A} name : ∀ p l (k : position → option A),
  rx_match (foldr (λ c r, RSeq (RChar (λ d, bool_decide (lower_char d = lower_char c))) r) REmpty name) (p, l) k =
  if same_ci name (take (length name) l) then k (last (take (length name) l) ∪ p, drop (length name) l) else None.
Proof.
  induction name as [|c name IH]; intros p l k; cbn [foldr rx_match length].
  - cbn. by destruct p.
  - destruct l as [|d l]; cbn [snd take drop]; [done|]. case_bool_decide as Hd.
    + rewrite IH. unfold same_ci. cbn [map]. rewrite Hd.
      destruct (decide (map lower_char (take (length name) l) = map lower_char name)) as [He|He].
      * rewrite (bool_decide_eq_true_2 _ He), bool_decide_eq_true_2 by (by rewrite He).
        rewrite last_cons. by destruct (last (take (length name) l)), p.
      * rewrite (bool_decide_eq_false_2 _ He), bool_decide_eq_false_2; [done|]. intros [=]. done.
    + unfold same_ci. cbn [map]. rewrite bool_decide_eq_false_2; [done|]. intros [=]. done.
Qed.

(** The first run, and what follows it. *)
Lemma first_run l : ∃ w rest, l = w ++ rest ∧ forallb is_word w = true ∧ hd [] (runs rest) = [] ∧
  word_at (head rest) = false ∧ runs l = w :: tl (runs rest).
Proof.
  induction l as [|c l (w & rest & -> & Hw & Hh & Hn & Hr)]; [by exists [], []|].
  destruct (is_word c) eqn:Hc.
  - exists (c :: w), rest. cbn. rewrite Hc, Hr. auto.
  - exists [], (c :: w ++ rest). cbn. by rewrite Hc.
Qed.

(** A text that begins with no word character does not lengthen the last run. *)
Lemma runs_app a b : hd [] (runs b) = [] → runs (a ++ b) = runs a ++ tl (runs b).
Proof.
  intros Hb. induction a as [|c a IH]; cbn [app runs].
  - destruct (runs_cons b) as (r & rs & Hr). rewrite Hr in *. cbn in *. by subst r.
  - rewrite IH. destruct (is_word c); [|done]. by destruct (runs_cons a) as (r & rs & ->).
Qed.

Lemma last_is_word w p : forallb is_word w = true → w ≠ [] → word_at (last w ∪ p) = true.
Proof.
  intros Hw Hn. destruct (last w) as [c|] eqn:Hl; [|by apply last_None in Hl].
  apply last_Some in Hl as [v ->]. rewrite forallb_app in Hw. apply andb_true_iff in Hw as [_ Hw]. cbn in Hw.
  apply andb_true_iff in Hw as [Hw _]. by destruct p.
Qed.

Section whole_words.
Context (name : list ascii) (Hname : forallb is_word name = true) (Hne : name ≠ []).
Let R : regex := rbounded (foldr (λ c r, RSeq (RChar (λ d, bool_decide (lower_char d = lower_char c))) r) REmpty name).

Lemma same_ci_word w : same_ci name w = true → forallb is_word w = true ∧ length w = length name ∧ w ≠ [].
Proof.
  intros Hs. unfold same_ci in Hs. apply bool_decide_eq_true in Hs.
  assert (Hl : length w = length name) by (by rewrite <-(length_map lower_char w), Hs, length_map).
  split; [|split; [done|by intros ->; destruct name]].
  clear Hne Hl R. revert w Hs. induction name as [|c n IH]; intros [|d w] Hs; try done.
  cbn in *. injection Hs as Hd Hs. apply andb_true_iff in Hname as [Hc Hn]. rewrite (is_word_lower _ _ Hd Hc). by apply IH.
Qed.

(** After a word character there is no match. *)
Lemma no_match_inside {A} p l (k : position → option A) : word_at p = true → rx_match R (p, l) k = None.
Proof.
  intros Hp. unfold R, rbounded. cbn [rx_match]. unfold at_boundary. cbn [fst snd]. rewrite Hp.
  destruct (word_at (head l)) eqn:Hl; [done|]. cbn. rewrite rword_i_match.
  destruct (same_ci name (take (length name) l)) eqn:Hs; [|done].
  apply same_ci_word in Hs as (Hw & _ & Hn). destruct l as [|c l]; [by destruct (length name)|].
  destruct (length name); [done|]. cbn in *. apply andb_true_iff in Hw as [Hc _]. by rewrite Hl in Hc.
Qed.

(** At the start of a run the pattern takes all of it, or nothing. *)
Lemma match_run {A} p w rest (k : position → option A) :
  word_at p = false → forallb is_word w = true → word_at (head rest) = false →
  rx_match R (p, w ++ rest) k = if same_ci name w then k (last w ∪ p, rest) else None.
Proof.
  intros Hp Hw Hr. unfold R, rbounded. cbn [rx_match]. unfold at_boundary. cbn [fst snd]. rewrite Hp.
  destruct (same_ci name w) eqn:Hs.
  - destruct (same_ci_word _ Hs) as (_ & Hl & Hn). destruct w as [|c w]; [done|].
    cbn in Hw. apply andb_true_iff in Hw as [Hc Hw]. cbn [app head word_at]. rewrite Hc. cbn [xorb].
    rewrite rword_i_match, <-Hl, (app_comm_cons w rest c), take_app_length, drop_app_length, Hs. cbn [rx_match].
    unfold at_boundary. cbn [fst snd]. rewrite Hr, last_is_word; [done|cbn; by rewrite Hc|done].
  - destruct (xorb false (word_at (head (w ++ rest)))) eqn:Hb; [|done]. rewrite rword_i_match.
    destruct (same_ci name (take (length name) (w ++ rest))) eqn:Ht; [|done].
    destruct (same_ci_word _ Ht) as (Hv & Hl & Hn). cbn [rx_match]. unfold at_boundary. cbn [fst snd].
    rewrite last_is_word by done. rewrite length_take in Hl.
    destruct (decide (length name < length w)%nat) as [Hlt|Hge].
    + rewrite drop_app_le by lia. destruct (drop (length name) w) as [|c v] eqn:Hd.
      { apply (f_equal length) in Hd. rewrite length_drop in Hd. cbn in Hd. lia. }
      cbn. rewrite <-(take_drop (length name) w), Hd, forallb_app in Hw. cbn in Hw.
      apply andb_true_iff in Hw as [_ Hw]. apply andb_true_iff in Hw as [Hc _]. by rewrite Hc.
    + destruct (decide (length name = length w)) as [He|He].
      { by rewrite He, take_app_length, Hs in Ht. }
      exfalso. rewrite length_app in Hl. destruct rest as [|c rest]; cbn in Hl; [lia|].
      rewrite take_app_ge in Hv by lia. rewrite forallb_app in Hv. apply andb_true_iff in Hv as [_ Hv].
      destruct (length name - length w)%nat eqn:Hd; [lia|]. cbn in Hv, Hr. by rewrite Hr in Hv.
Qed.

(** A run that is no occurrence of the name is copied, so what is written is
    made of the replacement and of runs of the text. *)
Lemma replaced_runs by' : ∀ f p l, (length l ≤ f)%nat →
  (word_at p = true → hd [] (runs (rx_replace f R by' (p, l))) = hd [] (runs l) ∧
     ∀ w, w ∈ tl (runs (rx_replace f R by' (p, l))) → w ∈ runs by' ∨ w ∈ tl (runs l) ∧ same_ci name w = false) ∧
  (word_at p = false →
     ∀ w, w ∈ runs (rx_replace f R by' (p, l)) → w ∈ runs by' ∨ w ∈ runs l ∧ same_ci name w = false).
Proof.
  assert (Hnil : same_ci name [] = false).
  { destruct (same_ci name []) eqn:Hs; [|done]. by destruct (same_ci_word _ Hs) as (_ & _ & ?). }
  induction f as [|f IH]; intros p [|c l] Hf; cbn [length] in Hf; try lia; cbn [rx_replace snd];
    try (split; [by intros _; split; [|intros w ?%elem_of_nil]|intros _ w ->%list_elem_of_singleton; right; split; [by left|done]]).
  specialize (IH (Some c) l) as IHc. destruct IHc as [IHw IHn]; [lia|]. split; intros Hp.
  - rewrite no_match_inside by done. cbn [runs]. destruct (is_word c) eqn:Hc.
    + destruct (IHw Hc) as [Hh Ht]. destruct (runs_cons (rx_replace f R by' (Some c, l))) as (r & rs & Hr).
      destruct (runs_cons l) as (r' & rs' & Hr'). rewrite Hr, Hr' in *. cbn in *. by subst.
    + split; [done|]. by apply IHn.
  - destruct (first_run (c :: l)) as (w & rest & Hl & Hw & Hh & Hn & Hr).
    destruct (is_word c) eqn:Hc.
    + rewrite Hl, match_run by done. destruct (same_ci name w) eqn:Hs.
      * intros v Hv. destruct (same_ci_word _ Hs) as (_ & _ & Hnw).
        pose proof (last_is_word _ p Hw Hnw) as Hlast.
        assert (Hlen : (length rest ≤ f)%nat).
        { apply (f_equal length) in Hl. rewrite length_app in Hl. destruct w; [done|]. cbn in Hl. lia. }
        destruct (proj1 (IH (last w ∪ p) rest Hlen) Hlast) as [Hh' Ht]. rewrite Hh in Hh'.
        rewrite runs_app in Hv by done. apply elem_of_app in Hv as [?|Hv']; [by left|].
        destruct (Ht _ Hv') as [?|[Hi Hd]]; [by left|]. right. split; [|done]. rewrite <-Hl, Hr. by right.
      * destruct (IHw Hc) as [Hh' Ht]. destruct (runs_cons (rx_replace f R by' (Some c, l))) as (r & rs & Hr1).
        rewrite <-Hl, Hr. cbn [runs] in Hr |- *. rewrite Hc, Hr1 in *. destruct (runs_cons l) as (r' & rs' & Hr'). rewrite Hr' in *.
        cbn in *. subst r. injection Hr as Hw' Hrs. subst w. intros v [->|Hv]%elem_of_cons.
        -- right. split; [by left|done].
        -- destruct (Ht _ Hv) as [?|[Hi Hd]]; [by left|]. right. split; [|done]. right. by rewrite <-Hrs.
    + cbn [runs] in Hr. rewrite Hc in Hr. injection Hr as Hw' _. subst w. cbn [app] in Hl. subst rest.
      rewrite (match_run p [] (c :: l)), Hnil by done. cbn [runs]. rewrite Hc.
      intros v [->|Hv]%elem_of_cons; [right; split; [by left|done]|].
      destruct (IHn Hc _ Hv) as [?|[Hi Hd]]; [by left|]. right. split; [by right|done].
Qed.

(** The pattern is found only where a run is the name. *)
Lemma found_run : ∀ l p,
  (word_at p = true → is_Some (rx_search R Some p l) → ∃ w, w ∈ tl (runs l) ∧ same_ci name w = true) ∧
  (word_at p = false → is_Some (rx_search R Some p l) → ∃ w, w ∈ runs l ∧ same_ci name w = true).
Proof.
  induction l as [|c l IH]; intros p; split; intros Hp Hs.
  - cbn [rx_search] in Hs. rewrite no_match_inside in Hs by done. by destruct Hs.
  - cbn [rx_search] in Hs. rewrite (match_run p [] []) in Hs by done. exists []. split; [by left|].
    destruct (same_ci name []); [done|by destruct Hs].
  - cbn [rx_search] in Hs. rewrite no_match_inside in Hs by done. destruct (IH (Some c)) as [IHw IHn]. cbn [runs].
    destruct (is_word c) eqn:Hc; [|by apply IHn].
    destruct (IHw Hc Hs) as (w & Hw & Hd). exists w. split; [|done].
    destruct (runs_cons l) as (r & rs & Hrl). by rewrite Hrl in *.
  - destruct (first_run (c :: l)) as (w & rest & Hl & Hw & Hh & Hn & Hr). cbn [rx_search] in Hs.
    rewrite Hl, match_run in Hs by done. destruct (same_ci name w) eqn:Hd.
    { exists w. split; [|done]. rewrite Hr. by left. }
    destruct (IH (Some c)) as [IHw IHn]. destruct (is_word c) eqn:Hc.
    + destruct (IHw Hc Hs) as (v & Hv & Hd'). exists v. split; [|done]. cbn [runs]. rewrite Hc.
      destruct (runs_cons l) as (r & rs & Hrl). rewrite Hrl in *. by right.
    + destruct (IHn Hc Hs) as (v & Hv & Hd'). exists v. split; [|done]. cbn [runs]. rewrite Hc. by right.
Qed.
End whole_words.

(** Replacing every [name] of [names] by a text without these names, one name
    after the other, leaves none of them as a whole word. *)
Section masking.
Context (names : list string) (by' : string).
Context (Hnames : ∀ n, n ∈ names → forallb is_word (chars n) = true ∧ chars n ≠ []).
Let without (n s : string) : Prop := ∀ w, w ∈ runs (chars s) → same_ci (chars n) w = false.
Context (Hby : ∀ n, n ∈ names → without n by').
Let mask (s n : string) : string := replace_g (rbounded (rword_i n)) by' s.

Lemma mask_without n m s : n ∈ names → m ∈ names → n = m ∨ without m s → without m (mask s n).
Proof.
  intros Hn Hm Ho w Hw. unfold mask, replace_g in Hw. rewrite chars_of_chars in Hw. destruct (Hnames _ Hn) as [Hnw Hne].
  assert (Hf : (length (chars s) ≤ String.length s)%nat) by (by rewrite length_chars).
  destruct (proj2 (replaced_runs (chars n) Hnw Hne (chars by') _ None (chars s) Hf) eq_refl w Hw) as [Hb|[Hr Hd]].
  - by apply (Hby _ Hm).
  - destruct Ho as [->|Ho]; [done|by apply Ho].
Qed.

Lemma masked_all : ∀ l s, (∀ n, n ∈ l → n ∈ names) →
  (∀ m, m ∈ names → without m s → without m (foldl mask s l)) ∧ (∀ m, m ∈ l → without m (foldl mask s l)).
Proof.
  induction l as [|n l IH]; intros s Hl; cbn [foldl]; [split; [done|by intros m ?%elem_of_nil]|].
  assert (Hn : n ∈ names) by (apply Hl; by left). destruct (IH (mask s n)) as [IHk IHm]; [intros m Hm; apply Hl; by right|].
  split.
  - intros m Hm Hw. apply IHk; [done|]. apply mask_without; auto.
  - intros m Hm. destruct (elem_of_cons l m n) as [Hc _]. destruct (Hc Hm) as [->|Hm']; [|auto].
    apply IHk; [done|]. apply mask_without; auto.
Qed.

Lemma masked_names s n : n ∈ names → rx_test (rbounded (rword_i n)) (foldl mask s names) = false.
Proof.
  intros Hn. unfold rx_test. apply bool_decide_eq_false. intros Hs. destruct (Hnames _ Hn) as [Hnw Hne].
  destruct (proj2 (found_run (chars n) Hnw Hne _ None) eq_refl Hs) as (w & Hw & Hd).
  pose proof (proj2 (masked_all names s (λ _ H, H)) _ Hn w Hw) as Hf. by rewrite Hd in Hf.
Qed.
End masking.
