(* ===== verification/ErrorHandler.v ===== *)
(** * Errors on their way to a client ([middleware/error.ts], [middleware/validate.ts],
    [utils/asyncHandler.ts])

    What a rejected handler becomes: [asyncHandler] passes it on, the global
    handler classifies it, logs all of it and answers with what the environment
    allows; and the checks of a request against its schemas, which answer
    themselves.  A thrown value is an object: its status is an integer where it
    has one, as in every class of [utils/errors.ts].  A Zod schema is an
    argument.  The [\s] of the patterns is ASCII. *)

From S2P Require Import Prelude JsMap JsStrings Json Responses Regex.
Local Open Scope Z_scope.

(** ** Thrown values *)

(** [th_own]: the own enumerable properties besides [statusCode].  [message]
    and [stack] are not enumerable on an [Error]. *)
Record thrown := {
  th_statusCode : option Z; th_message : option string; th_stack : option string; th_own : list (string * json) }.

(** [v && ...] *)
Definition truthy (v : option json) : bool := match v with Some v => negb (falsy v) | None => false end.
(** [v || other] *)
Definition or_else (v : option json) (other : json) : json := match v with Some w => if falsy w then other else w | None => other end.
Definition filled (v : option string) : option string :=
  match v with Some s => if bool_decide (s = "") then None else Some s | None => None end.

(** ** Masking a message *)

Definition TABLE_NAME_PATTERNS : list string :=
  ["audit_tasks"; "audit_programs"; "audit_findings"; "audit_plans"; "recommendations"; "users"; "departments"; "roles";
   "permissions"; "notifications"; "correspondence"; "attachments"; "comments"; "policies"; "compliance"; "fraud"; "integrity";
   "coi"; "org_entities"; "job_titles"; "sessions"; "settings"; "app_settings"; "request_logs"; "file_access_logs";
   "idempotency_keys"; "dead_letter_queue"; "regulatory"; "executive_reports"; "pdf_templates"; "risk_assessments"].

Definition rchar (c : ascii) : regex := RChar (λ d, bool_decide (d = c)).
Definition is_alpha (c : ascii) : bool := is_upper c || is_lower c.
(** [[\w.\-/\\]] *)
Definition path_char (c : ascii) : bool := is_word c || bool_decide (c ∈ ["."; "-"; "/"; "\"]%char).

Definition filePaths : regex :=
  RSeq (ropt (RSeq (RChar is_alpha) (rchar ":")))
    (RSeq (RAlt (rchar "/") (rchar "\"))
      (RSeq (rplus (RChar path_char))
        (ropt (RSeq (rchar ".") (rone_of (map rword ["ts"; "js"; "json"; "sql"; "mjs"]) (rword "cjs")))))).

(** Two words with white space between them. *)
Definition two_words (a b : string) : regex := RSeq (rword_i a) (RSeq (rplus rspace) (rword_i b)).
Definition sqlFragments : regex :=
  rbounded (rone_of
    (map rword_i ["SELECT"; "INSERT"; "UPDATE"; "DELETE"; "FROM"; "WHERE"; "JOIN"] ++
     [two_words "LEFT" "JOIN"; two_words "RIGHT" "JOIN"; two_words "INNER" "JOIN"; two_words "GROUP" "BY"; two_words "ORDER" "BY"] ++
     map rword_i ["HAVING"; "LIMIT"; "OFFSET"; "CREATE"; "ALTER"; "DROP"; "INDEX"; "CONSTRAINT"; "UNIQUE"] ++
     [two_words "PRIMARY" "KEY"; two_words "FOREIGN" "KEY"; rword_i "REFERENCES"; two_words "ON" "DELETE"; two_words "ON" "UPDATE";
      rword_i "CASCADE"; two_words "SET" "NULL"; rword_i "RETURNING"; rword_i "VALUES"])
    (rword_i "INTO")).

Definition stackTrace : regex :=
  RSeq (rplus rspace) (RSeq (rword "at") (RSeq (rplus rspace) (RSeq (rplus rany) (RSeq (rchar "(")
    (RSeq (rplus rany) (RSeq (rchar ":") (RSeq (rplus (RChar is_digit)) (RSeq (rchar ":") (RSeq (rplus (RChar is_digit)) (rchar ")")))))))))).

Definition is_quote (c : ascii) : bool := (code c =? 34)%N || (code c =? 39)%N.
Definition constraintColumns : regex :=
  RSeq (rone_of [rword_i "column"; rword_i "constraint"] (rword_i "key"))
    (RSeq (RStar rspace) (RSeq (ropt (RAlt (rchar "=") (rchar ":"))) (RSeq (RStar rspace)
      (RSeq (ropt (RChar is_quote)) (RSeq (rplus (RChar is_word)) (ropt (RChar is_quote))))))).

Definition internalServices : regex :=
  rbounded (rone_of (map rword ["BaseService"; "AuthService"; "NotificationService"; "CrudGenerator"; "DBWrapper"]) (rword "PGlite")).

(** The loop over the table names. *)
Definition mask_tables (message : string) : string :=
  foldl (λ s tableName, replace_g (rbounded (rword_i tableName)) "[resource]" s) message TABLE_NAME_PATTERNS.

Definition sanitizeErrorMessage (message : string) : string :=
  if bool_decide (message = "") then "An error occurred"
  else
    let sanitized := mask_tables message in
    let sanitized := replace_g filePaths "[internal]" sanitized in
    let sanitized := replace_g sqlFragments "[query]" sanitized in
    let sanitized := replace_g stackTrace "" sanitized in
    let sanitized := replace_g constraintColumns "[detail]" sanitized in
    let sanitized := replace_g internalServices "[service]" sanitized in
    trim (replace_g (RSeq rspace (rplus rspace)) " " sanitized).

Definition getProductionMessage (statusCode : Z) (originalMessage : string) : string :=
  if statusCode =? 403 then "Forbidden"
  else if statusCode =? 404 then "Resource not found"
  else if statusCode =? 409 then "Conflict"
  else if 500 <=? statusCode then "An unexpected error occurred. Please contact support."
  else sanitizeErrorMessage originalMessage.

(** ** The global handler *)

(** [/unique.*constraint|duplicate.*key/i] *)
Definition unique_violation : regex :=
  RAlt (RSeq (rword_i "unique") (RSeq (RStar rany) (rword_i "constraint")))
       (RSeq (rword_i "duplicate") (RSeq (RStar rany) (rword_i "key"))).

Record failed_request := { fq_method : string; fq_originalUrl : string; fq_correlationId : option string }.
Record error_log := { el_error : bool; el_text : string; el_detail : list (string * option json) }.
Record error_answer := { ea_status : Z; ea_body : json; ea_log : error_log }.

Definition conflicting (err : thrown) : bool :=
  match map_get "code" err.(th_own) with Some (JStr c) => bool_decide (c = "23505") | _ => false end || truthy (map_get "constraint" err.(th_own)) ||
  match filled err.(th_message) with Some m => rx_test unique_violation m | None => false end.

Definition error_envelope (error : list (string * json)) (traceId timestamp : string) : json :=
  JObj [("success", JBool false); ("data", JNull); ("error", JObj error);
        ("meta", JObj [("requestId", JStr traceId); ("timestamp", JStr timestamp); ("version", JStr "1.0.0")])].

(** The status and the code of the answer. *)
Definition error_status (err : thrown) : Z :=
  if conflicting err then 409 else match err.(th_statusCode) with Some n => if n =? 0 then 500 else n | None => 500 end.
Definition error_code (err : thrown) : json :=
  if conflicting err then JStr "CONFLICT" else or_else (map_get "errorCode" err.(th_own)) (JStr "INTERNAL_ERROR").

Definition globalErrorHandler (production : bool) (req : failed_request) (fresh timestamp : string) (err : thrown) : error_answer :=
  let traceId := or_fresh req.(fq_correlationId) fresh in
  let statusCode := error_status err in
  let errorCode := error_code err in
  let message := default (if conflicting err && negb production then "Database constraint violation" else "Internal Server Error")
                   (filled err.(th_message)) in
  let detail := [("method", Some (JStr req.(fq_method))); ("url", Some (JStr req.(fq_originalUrl)));
                 ("statusCode", Some (JNum (pretty statusCode))); ("errorCode", Some errorCode);
                 ("message", JStr <$> err.(th_message)); ("details", map_get "details" err.(th_own));
                 ("code", map_get "code" err.(th_own)); ("constraint", map_get "constraint" err.(th_own));
                 ("column", map_get "column" err.(th_own)); ("table", map_get "table" err.(th_own));
                 ("stack", JStr <$> err.(th_stack))] in
  {| ea_status := statusCode;
     ea_body :=
       error_envelope
         (if production then
            sanitizeErrorForClient
              (map_set "traceId" (JStr traceId) (map_set "message" (JStr (getProductionMessage statusCode message))
                (map_set "code" errorCode err.(th_own))))
          else
            [("code", errorCode); ("message", JStr message)] ++
            (if truthy (map_get "details" err.(th_own)) then [("details", default JNull (map_get "details" err.(th_own)))] else []) ++
            [("traceId", JStr traceId)] ++
            match filled err.(th_stack) with Some s => if 500 <=? statusCode then [("stack", JStr s)] else [] | None => [] end)
         traceId timestamp;
     ea_log := {| el_error := 500 <=? statusCode; el_text := "[" +:+ traceId +:+ "] " +:+ message; el_detail := detail |} |}.

(** ** [asyncHandler] *)

(** What the promise of a handler comes to, and what the chain makes of it. *)
Inductive settled := Resolved | Rejected (err : thrown).
Definition asyncHandler (r : settled) (next : thrown → error_answer) : option error_answer :=
  match r with Resolved => None | Rejected err => Some (next err) end.

(** ** Checks against a schema *)

(** A path of an issue is its segments as [join] prints them. *)
Record zod_issue := { zi_path : list string; zi_message : string; zi_code : string }.
Inductive zod_result := Parsed (v : json) | Issues (l : list zod_issue) | Raised (e : thrown).
Record FieldError := { fe_path : string; fe_message : string; fe_code : string }.

Definition zodIssueToFieldError (issue : zod_issue) : FieldError :=
  {| fe_path := match issue.(zi_path) with [] => "_root" | l => String.concat "." l end;
     fe_message := issue.(zi_message); fe_code := issue.(zi_code) |}.
Definition formatZodErrors (l : list zod_issue) : list FieldError := map zodIssueToFieldError l.
Definition field_error_json (e : FieldError) : json :=
  JObj [("path", JStr e.(fe_path)); ("message", JStr e.(fe_message)); ("code", JStr e.(fe_code))].

(** What the middleware does with the request: hands it on, answers it, or
    calls [next(error)]. *)
Inductive checked := Passed | Refused (status : Z) (message : string) (details : list FieldError) | Raises (e : thrown).
Record parts := { pt_body : json; pt_query : json; pt_params : json }.
Definition with_body (v : json) (r : parts) : parts := {| pt_body := v; pt_query := r.(pt_query); pt_params := r.(pt_params) |}.
Definition with_query (v : json) (r : parts) : parts := {| pt_body := r.(pt_body); pt_query := v; pt_params := r.(pt_params) |}.
Definition with_params (v : json) (r : parts) : parts := {| pt_body := r.(pt_body); pt_query := r.(pt_query); pt_params := v |}.

(** The answer [sendValidationError] sends. *)
Definition sendValidationError (message : string) (details : list FieldError) (fresh1 fresh2 timestamp : string) : Z * json :=
  (400, createErrorResponse "VALIDATION_ERROR" message None None (Some (JArr (map field_error_json details))) fresh1 fresh2 timestamp).

Definition validateBody (schema : json → zod_result) (req : parts) : parts * checked :=
  match schema req.(pt_body) with
  | Parsed v => (with_body v req, Passed)
  | Issues l => (req, Refused 400 "Validation failed" (formatZodErrors l))
  | Raised e => (req, Raises e)
  end.
Definition validateQuery (schema : json → zod_result) (req : parts) : parts * checked :=
  match schema req.(pt_query) with
  | Parsed v => (with_query v req, Passed)
  | Issues l => (req, Refused 400 "Query parameter validation failed" (formatZodErrors l))
  | Raised e => (req, Raises e)
  end.
Definition validateParams (schema : json → zod_result) (req : parts) : parts * checked :=
  match schema req.(pt_params) with
  | Parsed v => (with_params v req, Passed)
  | Issues l => (req, Refused 400 "Path parameter validation failed" (formatZodErrors l))
  | Raised e => (req, Raises e)
  end.

Record ValidateOptions := { vo_body : option (json → zod_result); vo_query : option (json → zod_result); vo_params : option (json → zod_result) }.

(** One part: the request and the errors so far, or the error that stops it. *)
Definition check_part (name : string) (schema : option (json → zod_result)) (get : parts → json) (put : json → parts → parts)
    (s : parts * list FieldError) : outcome thrown (parts * list FieldError) * parts :=
  match schema with
  | None => (Ok s, s.1)
  | Some f => match f (get s.1) with
              | Parsed v => (Ok (put v s.1, s.2), put v s.1)
              | Issues l => (Ok (s.1, s.2 ++ map (λ e, {| fe_path := name +:+ "." +:+ e.(fe_path); fe_message := e.(fe_message);
                                                         fe_code := e.(fe_code) |}) (formatZodErrors l)), s.1)
              | Raised e => (Throw e, s.1)
              end
  end.

Definition validate (options : ValidateOptions) (req : parts) : parts * checked :=
  match check_part "params" options.(vo_params) pt_params with_params (req, []) with
  | (Throw e, r) => (r, Raises e)
  | (Ok s, _) =>
      match check_part "query" options.(vo_query) pt_query with_query s with
      | (Throw e, r) => (r, Raises e)
      | (Ok s, _) =>
          match check_part "body" options.(vo_body) pt_body with_body s with
          | (Throw e, r) => (r, Raises e)
          | (Ok (r, allErrors), _) =>
              (r, match allErrors with [] => Passed | _ => Refused 400 "Validation failed" allErrors end)
          end
      end
  end.

(** ** Properties *)

Lemma sanitized_get k l :
  map_get k (sanitizeErrorForClient l) = if bool_decide (k ∈ CLIENT_ERROR_FIELD_ALLOWLIST) then map_get k l else None.
Proof.
  unfold sanitizeErrorForClient. induction l as [|[k' v] l IH]; [by case_bool_decide|].
  cbn [List.filter fst]. destruct (decide (k = k')) as [<-|Hne].
  - destruct (bool_decide (k ∈ CLIENT_ERROR_FIELD_ALLOWLIST)) eqn:Hk; cbn [map_get].
    + by rewrite bool_decide_eq_true_2.
    + exact IH.
  - destruct (bool_decide (k' ∈ _)); cbn [map_get]; rewrite !(bool_decide_eq_false_2 (k = k')) by done; exact IH.
Qed.

(** Which fields a client sees in production, and from where. *)
Definition shown (err : thrown) (traceId : string) (k : string) : option json :=
  if bool_decide (k = "traceId") then Some (JStr traceId)
  else if bool_decide (k = "message") then
    Some (JStr (getProductionMessage (error_status err) (default "Internal Server Error" (filled err.(th_message)))))
  else if bool_decide (k = "code") then Some (error_code err)
  else if bool_decide (k ∈ ["field"; "errors"]) then map_get k err.(th_own)
  else None.

(** In production the answer to a rejected handler has the status of the error,
    409 for a violated constraint, and an error object with the trace, a
    message that depends on the status alone for 403, 404, 409 and from 500
    on, the code, and the properties [field] and [errors] of the error:
    nothing else of it leaves the server.  The log keeps the message and the
    stack as they are, and the wrapper adds nothing to the answer. *)
Theorem production_error_answer req fresh timestamp err exclude path status requestId ts version :
  let traceId := or_fresh req.(fq_correlationId) fresh in
  ∃ answer error,
    asyncHandler (Rejected err) (globalErrorHandler true req fresh timestamp) = Some answer ∧
    answer.(ea_status) = error_status err ∧
    createResponseWrapper exclude path status requestId ts version answer.(ea_body) = error_envelope error traceId timestamp ∧
    (∀ k, map_get k error = shown err traceId k) ∧
    (error_status err ∈ [403; 404; 409] ∨ 500 ≤ error_status err →
       ∀ m, getProductionMessage (error_status err) m = getProductionMessage (error_status err) "") ∧
    map_get "message" answer.(ea_log).(el_detail) = Some (JStr <$> err.(th_message)) ∧
    map_get "stack" answer.(ea_log).(el_detail) = Some (JStr <$> err.(th_stack)).
Proof.
  intros traceId. eexists _, _. split; [reflexivity|]. split; [reflexivity|]. split.
  { unfold createResponseWrapper. by destruct (existsb _ _). }
  split; [|split; [|done]].
  - intros k. rewrite andb_false_r. rewrite sanitized_get. unfold shown.
    destruct (decide (k = "traceId")) as [->|H1]; [by rewrite map_get_set_eq|]. rewrite map_get_set_ne, (bool_decide_eq_false_2 _ H1) by done.
    destruct (decide (k = "message")) as [->|H2]; [by rewrite map_get_set_eq|]. rewrite map_get_set_ne, (bool_decide_eq_false_2 _ H2) by done.
    destruct (decide (k = "code")) as [->|H3]; [by rewrite map_get_set_eq|]. rewrite map_get_set_ne, (bool_decide_eq_false_2 _ H3) by done.
    destruct (decide (k ∈ ["field"; "errors"])) as [H4|H4].
    + rewrite !bool_decide_eq_true_2; [done|done|]. unfold CLIENT_ERROR_FIELD_ALLOWLIST. set_solver.
    + rewrite !bool_decide_eq_false_2; [done|done|]. unfold CLIENT_ERROR_FIELD_ALLOWLIST. set_solver.
  - intros Hst m. unfold getProductionMessage. rewrite !elem_of_cons, elem_of_nil in Hst.
    repeat (case_match; [done|]). lia.
Qed.

(** No table is named in a message once the loop over the names is done. *)
Theorem tables_are_masked message tableName :
  tableName ∈ TABLE_NAME_PATTERNS → rx_test (rbounded (rword_i tableName)) (mask_tables message) = false.
Proof.
  apply masked_names.
  - intros n Hn. revert n Hn. apply Forall_forall. apply (bool_decide_unpack _). by vm_compute.
  - intros n Hn w Hw. revert w Hw. apply Forall_forall. revert n Hn. apply Forall_forall. apply (bool_decide_unpack _). by vm_compute.
Qed.

(** *** Validation *)

(** The value a part has after its check, when nothing is wrong with it. *)
Definition accepted_as (schema : option (json → zod_result)) (v w : json) : Prop :=
  match schema with None => w = v | Some f => f v = Parsed w end.
(** The errors of a part. *)
Definition part_errors (name : string) (schema : option (json → zod_result)) (v : json) : list FieldError :=
  match schema with
  | Some f => match f v with
              | Issues l => map (λ e, {| fe_path := name +:+ "." +:+ e.(fe_path); fe_message := e.(fe_message); fe_code := e.(fe_code) |})
                              (formatZodErrors l)
              | _ => []
              end
  | None => []
  end.
(** A Zod error has at least one issue. *)
Definition schema_ok (schema : option (json → zod_result)) : Prop := ∀ f v, schema = Some f → f v ≠ Issues [].

(** A request is handed on exactly with every given part accepted and replaced
    by its parsed value; otherwise the answer is a 400 with the errors of every
    refused part, parameters first and the body last; an error that is none of
    the schema's goes to the error handler. *)
Theorem validate_spec o req :
  schema_ok o.(vo_params) → schema_ok o.(vo_query) → schema_ok o.(vo_body) →
  match validate o req with
  | (r, Passed) => accepted_as o.(vo_params) req.(pt_params) r.(pt_params) ∧ accepted_as o.(vo_query) req.(pt_query) r.(pt_query) ∧
                   accepted_as o.(vo_body) req.(pt_body) r.(pt_body)
  | (_, Refused st _ details) =>
      st = 400 ∧ details ≠ [] ∧
      details = part_errors "params" o.(vo_params) req.(pt_params) ++ part_errors "query" o.(vo_query) req.(pt_query) ++
                part_errors "body" o.(vo_body) req.(pt_body)
  | (_, Raises e) => ∃ f v, (o.(vo_params) = Some f ∨ o.(vo_query) = Some f ∨ o.(vo_body) = Some f) ∧ f v = Raised e
  end.
Proof.
  intros Hp Hq Hb. unfold validate, check_part, part_errors, accepted_as, schema_ok in *.
  destruct o as [[fb|] [fq|] [fp|]], req as [b q p]; cbn [vo_body vo_query vo_params fst snd pt_body pt_query pt_params] in *;
    repeat match goal with
    | H : _ = Issues [] |- _ => exfalso; first [by eapply Hp|by eapply Hq|by eapply Hb]
    | H : _ = Issues ?l |- _ => is_var l; destruct l as [|? l]
    | |- context [match fp ?v with Parsed _ => _ | Issues _ => _ | Raised _ => _ end] => destruct (fp v) eqn:?; cbn
    | |- context [match fq ?v with Parsed _ => _ | Issues _ => _ | Raised _ => _ end] => destruct (fq v) eqn:?; cbn
    | |- context [match fb ?v with Parsed _ => _ | Issues _ => _ | Raised _ => _ end] => destruct (fb v) eqn:?; cbn
    end; cbn; rewrite ?app_nil_r, <-?app_assoc; eauto 10.
Qed.

(** *** Runs *)

Definition conflict_error (message : string) : thrown :=
  {| th_statusCode := Some 409; th_message := Some message; th_stack := None;
     th_own := [("errorCode", JStr "CONFLICT"); ("isOperational", JBool true)] |}.
Definition a_failed : failed_request := {| fq_method := "POST"; fq_originalUrl := "/api/v1/users"; fq_correlationId := Some "t1" |}.
Definition answered (production : bool) (err : thrown) : Z * option json :=
  let a := globalErrorHandler production a_failed "fresh" "now" err in
  (a.(ea_status), e ← json_field "error" a.(ea_body); json_field "message" e).

(** The field that clashed is named in development only. *)
Lemma clash_is_hidden :
  answered true (conflict_error "A user with this username already exists") =
    answered true (conflict_error "A user with this email already exists") ∧
  answered false (conflict_error "A user with this username already exists") =
    (409, Some (JStr "A user with this username already exists")).
Proof. by vm_compute. Qed.

(** A message loses its everyday words with the names of tables and of SQL. *)
Lemma masking_runs :
  sanitizeErrorMessage "Cannot delete job title assigned to users. Please mark as Inactive instead." =
    "Cannot [query] job title assigned to [resource]. Please mark as Inactive instead." ∧
  sanitizeErrorMessage "Open critical/high findings block this transition" = "Open critical[internal] findings block this transition" ∧
  sanitizeErrorMessage "relation audit_tasks: LEFT  JOIN at Db.run (/app/db.ts:10:20) column x" = "relation [resource]: [query] [detail]".
Proof. by vm_compute. Qed.

(** The names are masked before the frames of a stack are cut out, so a name
    can come together when a frame inside it goes. *)
Lemma masking_gap :
  mask_tables "us at x(a:1:1)ers" = "us at x(a:1:1)ers" ∧ sanitizeErrorMessage "us at x(a:1:1)ers" = "users" ∧
  rx_test (rbounded (rword_i "users")) (sanitizeErrorMessage "us at x(a:1:1)ers") = true.
Proof. by vm_compute. Qed.

(** The details of a validation error name the field in development only. *)
Definition details_error : thrown :=
  {| th_statusCode := Some 400; th_message := Some "bad"; th_stack := None;
     th_own := [("errorCode", JStr "VALIDATION_ERROR"); ("isOperational", JBool true); ("details", JObj [("field", JStr "userIds")])] |}.
Lemma details_are_dropped :
  (e ← json_field "error" (globalErrorHandler true a_failed "fresh" "now" details_error).(ea_body); json_field "details" e) = None ∧
  (e ← json_field "error" (globalErrorHandler false a_failed "fresh" "now" details_error).(ea_body); json_field "details" e) =
    Some (JObj [("field", JStr "userIds")]).
Proof. by vm_compute. Qed.

Module Forms.
Definition id_schema (v : json) : zod_result :=
  match v with JNum _ => Parsed v | _ => Issues [{| zi_path := ["id"]; zi_message := "Expected number"; zi_code := "invalid_type" |}] end.
Definition options : ValidateOptions := {| vo_body := Some id_schema; vo_query := None; vo_params := Some id_schema |}.
End Forms.

Lemma validate_spec_witness :
  schema_ok (vo_params Forms.options) ∧
  match validate Forms.options {| pt_body := JStr "x"; pt_query := JNull; pt_params := JStr "y" |} with
  | (_, Refused st _ details) => st = 400 ∧ map fe_path details = ["params.id"; "body.id"]
  | _ => False
  end.
Proof.
  assert (Hs : ∀ f v, Some Forms.id_schema = Some f → f v ≠ Issues []).
  { intros f v [= <-]. unfold Forms.id_schema. by destruct v. }
  split; [exact Hs|].
  assert (Hq : schema_ok (vo_query Forms.options)) by (intros f v H; discriminate H).
  pose proof (validate_spec Forms.options {| pt_body := JStr "x"; pt_query := JNull; pt_params := JStr "y" |} Hs Hq Hs) as H.
  cbn in H. destruct H as (_ & _ & H). by vm_compute.
Defined.

Lemma tables_are_masked_witness :
  "users" ∈ TABLE_NAME_PATTERNS ∧ rx_test (rbounded (rword_i "users")) (mask_tables "Users of users_2 and users") = false.
Proof.
  assert (H : "users" ∈ TABLE_NAME_PATTERNS) by (apply (bool_decide_unpack _); by vm_compute).
  split; [exact H|]. exact (tables_are_masked "Users of users_2 and users" "users" H).
Defined.
