(* ===== verification/Idempotency.v ===== *)
(** * Idempotent requests ([middleware/idempotency.ts])

    The key of a request, the responses stored under it with their secrets
    redacted, and the keys in flight.  A request runs in three steps, split
    where the code awaits: the check before the database read, the decision
    after it, and the answer; the steps of concurrent requests may interleave. *)

From S2P Require Import Prelude JsMap JsStrings Json Responses.
Local Open Scope Z_scope.

(** ** Redaction *)

Definition SENSITIVE_KEYS : list string :=
  ["temppassword"; "password"; "currentpassword"; "newpassword"; "token"; "accesstoken"; "refreshtoken";
   "idtoken"; "secret"; "clientsecret"; "apikey"; "privatekey"; "totpsecret"; "mfasecret"; "backupcodes";
   "recoverycodes"; "sessiontoken"; "authorization"].

Definition REDACTED_PLACEHOLDER : string := "[REDACTED]".

Definition sensitive (key : string) : bool := bool_decide (toLowerCase key ∈ SENSITIVE_KEYS).

Fixpoint redactSensitiveFields (value : json) : json :=
  match value with
  | JArr l => JArr (map redactSensitiveFields l)
  | JObj l => JObj (map (λ m, (m.1, if sensitive m.1 then JStr REDACTED_PLACEHOLDER
                                    else redactSensitiveFields m.2)) l)
  | _ => value
  end.

(** ** The table and the keys in flight *)

Record idem_row := {
  ir_key : string; ir_user : string; ir_method : string; ir_path : string;
  ir_status : Z; ir_body : string; ir_expires : Z }.

Record idem_state := { idem_rows : list idem_row; inFlightKeys : list string }.

Definition with_rows (l : list idem_row) (s : idem_state) : idem_state :=
  {| idem_rows := l; inFlightKeys := s.(inFlightKeys) |}.
Definition with_in_flight (l : list string) (s : idem_state) : idem_state :=
  {| idem_rows := s.(idem_rows); inFlightKeys := l |}.

Definition compositeKey (userId idempotencyKey : string) : string := userId +:+ ":" +:+ idempotencyKey.

Definition check (now : Z) (key userId method path : string) (rows : list idem_row) : option idem_row :=
  select_one (λ r, bool_decide (r.(ir_key) = key ∧ r.(ir_user) = userId ∧ r.(ir_method) = method ∧
                                r.(ir_path) = path) && (now <? r.(ir_expires))) rows.

(** [INSERT]: the pair of key and user is unique, and a refused insert is only logged. *)
Definition store (now : Z) (key userId method path : string) (status : Z) (body : string) (ttl : Z)
    (rows : list idem_row) : list idem_row :=
  if existsb (λ r, bool_decide (r.(ir_key) = key ∧ r.(ir_user) = userId)) rows then rows
  else rows ++ [{| ir_key := key; ir_user := userId; ir_method := method; ir_path := path;
                   ir_status := status; ir_body := body; ir_expires := now + ttl * 1000 |}].

Definition cleanup (now : Z) (rows : list idem_row) : list idem_row :=
  delete_where (λ r, r.(ir_expires) <=? now) rows.

(** ** The middleware *)

Record idem_request := {
  iq_method : string; iq_header : option string; iq_user : option string; iq_path : string }.

Definition DEFAULT_TTL : Z := 86400.
Definition DEFAULT_METHODS : list string := ["POST"; "PUT"].

(** After the synchronous checks: an answer, the next handler without
    protection, or the database read. *)
Inductive idem_begin :=
  | Answered (r : reply)
  | Unprotected
  | Checking (key userId method path : string).

Definition middleware_begin (s : idem_state) (req : idem_request) : idem_begin :=
  let method := toUpperCase req.(iq_method) in
  if negb (bool_decide (method ∈ DEFAULT_METHODS)) then Unprotected
  else match req.(iq_header) with
  | None => Unprotected
  | Some idempotencyKey =>
      if bool_decide (idempotencyKey = "") || (256 <? utf16_length idempotencyKey)%nat then
        Answered (Reply 400 "INVALID_IDEMPOTENCY_KEY")
      else match req.(iq_user) with
      | None | Some "" => Unprotected
      | Some userId =>
          if bool_decide (compositeKey userId idempotencyKey ∈ s.(inFlightKeys)) then
            Answered (Reply 409 "IDEMPOTENCY_CONFLICT")
          else Checking idempotencyKey userId method req.(iq_path)
      end
  end.

(** After the read: the stored answer, or the handler runs and the key is in flight. *)
Inductive idem_decision :=
  | Replay (status : Z) (body : json)
  | Run
  | Failed.

Definition middleware_decide (now : Z) (key userId method path : string) (s : idem_state)
    : idem_decision * idem_state :=
  match check now key userId method path s.(idem_rows) with
  | Some existing =>
      match JSON_parse existing.(ir_body) with
      | Some storedBody => (Replay existing.(ir_status) storedBody, s)
      | None => (Failed, with_in_flight (set_delete (compositeKey userId key) s.(inFlightKeys)) s)
      end
  | None => (Run, with_in_flight (set_add (compositeKey userId key) s.(inFlightKeys)) s)
  end.

(** The handler's [res.json(body)]: the answer is stored redacted, the key leaves
    the set, and the body goes to the client as it is. *)
Definition middleware_answer (now : Z) (key userId method path : string) (status : Z) (body : json)
    (s : idem_state) : json * idem_state :=
  (body,
   {| idem_rows := store now key userId method path status (stringify (redactSensitiveFields body)) DEFAULT_TTL
                     s.(idem_rows);
      inFlightKeys := set_delete (compositeKey userId key) s.(inFlightKeys) |}).

Definition isKeyInFlight (userId idempotencyKey : string) (s : idem_state) : bool :=
  set_has (compositeKey userId idempotencyKey) s.(inFlightKeys).

Definition clearInFlightKeys (s : idem_state) : idem_state := with_in_flight [] s.

(** A request whose steps are not interleaved with others: what the client gets,
    and whether the handler ran; [handler] is the status and body it would send. *)
Definition serve (now : Z) (handler : Z * json) (req : idem_request) (s : idem_state)
    : (option (Z * json) * bool) * idem_state :=
  match middleware_begin s req with
  | Answered (Reply status code) => ((Some (status, JObj [("code", JStr code)]), false), s)
  | Answered Next => ((None, false), s)
  | Unprotected => ((Some handler, true), s)
  | Checking key userId method path =>
      match middleware_decide now key userId method path s with
      | (Replay status body, s') => ((Some (status, body), false), s')
      | (Failed, s') => ((None, false), s')
      | (Run, s') =>
          let '(body, s'') := middleware_answer now key userId method path handler.1 handler.2 s' in
          ((Some (handler.1, body), true), s'')
      end
  end.

(** ** Redaction keeps secrets out *)

(** No member with a sensitive name holds anything but the placeholder. *)
Fixpoint no_secrets (v : json) : bool :=
  match v with
  | JArr l => forallb no_secrets l
  | JObj l => forallb (λ m, if sensitive m.1
                            then match m.2 with JStr s => bool_decide (s = REDACTED_PLACEHOLDER) | _ => false end
                            else no_secrets m.2) l
  | _ => true
  end.

Lemma redact_no_secrets v : no_secrets (redactSensitiveFields v) = true.
Proof.
  induction v as [| | | |l IH|l IH] using json_nested_ind; try done; cbn.
  - induction IH as [|v l Hv _ IHl]; [done|]. cbn. by rewrite Hv.
  - induction IH as [|[k v] l Hv _ IHl]; [done|]. cbn in Hv |- *. rewrite IHl, andb_true_r.
    destruct (sensitive k); cbn; [by rewrite bool_decide_eq_true_2|done].
Qed.

Lemma redact_id v : no_secrets v = true → redactSensitiveFields v = v.
Proof.
  induction v as [| | | |l IH|l IH] using json_nested_ind; try done; cbn; intros H; f_equal.
  - induction IH as [|v l Hv _ IHl]; [done|]. cbn in H |- *. apply andb_true_iff in H as [H1 H2].
    by rewrite Hv, IHl.
  - induction IH as [|[k v] l Hv _ IHl]; [done|]. cbn in H, Hv |- *. apply andb_true_iff in H as [H1 H2].
    rewrite IHl by done. destruct (sensitive k); [|by rewrite Hv].
    destruct v; try done. by apply bool_decide_eq_true in H1 as ->.
Qed.

Lemma redact_json_ok v : json_ok v = true → json_ok (redactSensitiveFields v) = true.
Proof.
  induction v as [| | | |l IH|l IH] using json_nested_ind; try done; cbn; intros H.
  - induction IH as [|v l Hv _ IHl]; [done|]. cbn in H |- *. apply andb_true_iff in H as [H1 H2].
    by rewrite Hv, IHl.
  - apply andb_true_iff in H as [Hnd H]. apply andb_true_iff. split.
    + apply bool_decide_eq_true in Hnd. apply bool_decide_eq_true_2.
      assert (keys (map (λ m : string * json, (m.1, if sensitive m.1 then JStr REDACTED_PLACEHOLDER
                         else redactSensitiveFields m.2)) l) = keys l) as ->; [|done].
      unfold keys. clear. induction l as [|[k v] l IH]; [done|]. cbn in *. by rewrite IH.
    + clear Hnd. induction IH as [|[k v] l Hv _ IHl]; [done|]. cbn in H, Hv |- *.
      apply andb_true_iff in H as [H1 H2]. rewrite IHl by done. destruct (sensitive k); [done|by rewrite Hv].
Qed.

(** the stored copy of an answer holds no secret at any depth, keeps
    everything else, and storing it again changes nothing. *)
Theorem redaction_spec v :
  no_secrets (redactSensitiveFields v) = true /\
  redactSensitiveFields (redactSensitiveFields v) = redactSensitiveFields v /\
  (no_secrets v = true -> redactSensitiveFields v = v).
Proof.
  split_and!; [apply redact_no_secrets| |apply redact_id]. apply redact_id, redact_no_secrets.
Qed.

(** ** Replays *)

(** Keys of a user are used for one purpose while a row lives. *)
Definition key_free (key userId : string) (s : idem_state) : Prop :=
  Forall (λ r, ¬ (r.(ir_key) = key ∧ r.(ir_user) = userId)) s.(idem_rows).

Lemma key_free_check now key userId m p s : key_free key userId s → check now key userId m p s.(idem_rows) = None.
Proof.
  intros H. apply select_one_None. intros r Hr. unfold key_free in H. rewrite Forall_forall in H.
  apply andb_false_iff. left. apply bool_decide_eq_false_2. specialize (H r Hr). naive_solver.
Qed.

Lemma select_one_snoc {A} (p : A → bool) (l : list A) x :
  (∀ y, y ∈ l → p y = false) → select_one p (l ++ [x]) = if p x then Some x else None.
Proof.
  induction l as [|y l IH]; cbn; intros H; [done|].
  unfold select_one in *. cbn. rewrite H by by left. apply IH. intros z Hz. apply H. by right.
Qed.

(** a request with a fresh key runs its handler once; the same request again
    within the day, whatever its handler would do now, gets the first status and
    the first body with its secrets redacted, and does not run. *)
Theorem same_request_replayed now now' handler handler' req key userId s
    (Hmethod : toUpperCase req.(iq_method) ∈ DEFAULT_METHODS)
    (Hheader : req.(iq_header) = Some key) (Hkey : key <> "" /\ (utf16_length key <= 256)%nat)
    (Huser : req.(iq_user) = Some userId) (Hid : userId <> "")
    (Hfree : key_free key userId s) (Hidle : compositeKey userId key ∉ s.(inFlightKeys))
    (Hbody : json_ok handler.2 = true) (Htime : now' < now + DEFAULT_TTL * 1000) :
  let '((r1, ran1), s1) := serve now handler req s in
  let '((r2, ran2), s2) := serve now' handler' req s1 in
  r1 = Some handler /\ ran1 = true /\
  r2 = Some (handler.1, redactSensitiveFields handler.2) /\ ran2 = false /\ s2 = s1.
Proof.
  assert (Hbegin : ∀ s', compositeKey userId key ∉ s'.(inFlightKeys) →
    middleware_begin s' req = Checking key userId (toUpperCase (iq_method req)) (iq_path req)).
  { intros s' Hni. unfold middleware_begin. rewrite bool_decide_eq_true_2 by done. cbn [negb].
    rewrite Hheader, Huser, bool_decide_eq_false_2 by apply Hkey. cbn [orb].
    rewrite (proj2 (Nat.ltb_ge _ _)) by apply Hkey. destruct userId; [done|].
    by rewrite bool_decide_eq_false_2. }
  unfold serve at 1. rewrite Hbegin by done. unfold middleware_decide at 1. rewrite key_free_check by done.
  destruct handler as [st body]. cbn [fst snd middleware_answer with_in_flight idem_rows inFlightKeys] in *.
  set (s1 := {| idem_rows := store _ _ _ _ _ _ _ _ _; inFlightKeys := _ |}).
  assert (Hni : compositeKey userId key ∉ s1.(inFlightKeys)).
  { unfold s1. cbn [inFlightKeys]. rewrite elem_of_set_delete. naive_solver. }
  assert (Hrow : check now' key userId (toUpperCase (iq_method req)) (iq_path req) s1.(idem_rows) =
    Some {| ir_key := key; ir_user := userId; ir_method := toUpperCase (iq_method req); ir_path := iq_path req;
            ir_status := st; ir_body := stringify (redactSensitiveFields body);
            ir_expires := now + DEFAULT_TTL * 1000 |}).
  { unfold s1, store, check. cbn [idem_rows]. unfold key_free in Hfree. rewrite Forall_forall in Hfree.
    destruct (existsb _ (idem_rows s)) eqn:He.
    { apply existsb_exists in He as (r & Hr%list_elem_of_In & Hb). bools. by destruct (Hfree r Hr). }
    rewrite select_one_snoc.
    - cbn. rewrite bool_decide_eq_true_2 by done. cbn. by rewrite (proj2 (Z.ltb_lt _ _)).
    - intros r Hr. apply andb_false_iff. left. apply bool_decide_eq_false_2. specialize (Hfree r Hr). naive_solver. }
  unfold serve. rewrite Hbegin by done. unfold middleware_decide. rewrite Hrow.
  cbn [ir_body ir_status]. rewrite JSON_parse_stringify by by apply redact_json_ok. done.
Qed.

(** the router installs this middleware before any route authenticates its
    request: without a user every request reaches its handler and nothing is
    stored, whatever key it carries. *)
Theorem unauthenticated_requests_unprotected now handler req s (Huser : req.(iq_user) = None)
    (Hkey : forall k, req.(iq_header) = Some k -> k <> "" /\ (utf16_length k <= 256)%nat) :
  serve now handler req s = ((Some handler, true), s).
Proof.
  unfold serve, middleware_begin. destruct (negb _); [done|].
  destruct (iq_header req) as [k|] eqn:Hh; [|done]. destruct (Hkey k eq_refl) as [H1 H2].
  rewrite bool_decide_eq_false_2 by done. cbn [orb]. rewrite (proj2 (Nat.ltb_ge _ _)) by done.
  by rewrite Huser.
Qed.

(** ** A concrete table *)

Module Payments.
Definition empty : idem_state := {| idem_rows := []; inFlightKeys := [] |}.
Definition request (user : option string) (path : string) : idem_request :=
  {| iq_method := "post"; iq_header := Some "k1"; iq_user := user; iq_path := path |}.
Definition created : Z * json := (201, JObj [("id", JNum "7"); ("tempPassword", JStr "s3cret")]).
Definition failed : Z * json := (500, JNull).
End Payments.

Lemma same_request_replayed_witness :
  (serve 5 Payments.failed (Payments.request (Some "u") "/users")
     (serve 1 Payments.created (Payments.request (Some "u") "/users") Payments.empty).2).1
  = (Some (201, JObj [("id", JNum "7"); ("tempPassword", JStr "[REDACTED]")]), false).
Proof.
  pose proof (same_request_replayed 1 5 Payments.created Payments.failed (Payments.request (Some "u") "/users")
    "k1" "u" Payments.empty ltac:(apply (bool_decide_unpack _); by vm_compute) eq_refl
    ltac:(split; [discriminate|apply Nat.leb_le; reflexivity]) eq_refl ltac:(discriminate) ltac:(constructor)
    ltac:(apply not_elem_of_nil) eq_refl ltac:(unfold DEFAULT_TTL; lia)) as H.
  destruct (serve 1 _ _ _) as [[r1 ran1] s1]. cbn [snd].
  destruct (serve 5 _ _ s1) as [[r2 ran2] s2]. destruct H as (_ & _ & -> & -> & _). reflexivity.
Defined.

Lemma unauthenticated_requests_unprotected_witness :
  serve 1 Payments.created (Payments.request None "/users") Payments.empty
  = ((Some Payments.created, true), Payments.empty).
Proof.
  apply (unauthenticated_requests_unprotected 1 Payments.created (Payments.request None "/users") Payments.empty);
    [reflexivity|]. intros k [= <-]. split; [discriminate|apply Nat.leb_le; reflexivity].
Defined.

(** two requests with one key whose reads of the table both come before the
    first answer both run; and a key that was stored for another path, or whose
    row has expired and was not cleaned up, is never stored again: requests that
    repeat it run every time. *)
Theorem idempotency_gaps :
  let '(d1, s1) := middleware_decide 1 "k1" "u" "POST" "/users" Payments.empty in
  let '(d2, s2) := middleware_decide 1 "k1" "u" "POST" "/users" s1 in
  let s3 := (serve 1 Payments.created (Payments.request (Some "u") "/users") Payments.empty).2 in
  let late := 86400002 in
  let s4 := (serve late Payments.created (Payments.request (Some "u") "/users") s3).2 in
  let s5 := (serve 2 Payments.created (Payments.request (Some "u") "/roles") s3).2 in
  d1 = Run /\ d2 = Run /\
  (serve late Payments.created (Payments.request (Some "u") "/users") s4).1.2 = true /\
  (serve 2 Payments.created (Payments.request (Some "u") "/roles") s5).1.2 = true.
Proof. by vm_compute. Qed.
