(* ===== verification/Records.v ===== *)
(** * Tables with named columns

    The generic services choose table and columns at run time.  A row is a
    JavaScript object, a table knows its columns, and a statement on a table or
    column that does not exist fails.  What else PostgreSQL checks (types,
    lengths, foreign keys) is not modelled; a [null] is equal to nothing. *)

From S2P Require Import Prelude JsMap JsStrings Json.
Local Open Scope Z_scope.

Definition row := list (string * json).
(** [r.c]; an absent column reads as null. *)
Definition cell (c : string) (r : row) : json := default JNull (map_get c r).

Record table := { tb_columns : list string; tb_rows : list row }.
Definition database := list (string * table).

Definition set_rows (l : list row) (t : table) : table := {| tb_columns := t.(tb_columns); tb_rows := l |}.

Definition sql_error : app_error := GenericError "database error".

Definition is_null (v : json) : bool := match v with JNull => true | _ => false end.

(** The text of a bound value. *)
Definition value_text (v : json) : string :=
  match v with JStr s => s | JNum n => n | JBool b => if b then "true" else "false" | _ => stringify v end.

(** [c = ?] *)
Definition sql_eq (a b : json) : bool :=
  negb (is_null a) && negb (is_null b) && bool_decide (value_text a = value_text b).

(** [/^[a-zA-Z0-9_]+$/] *)
Definition validateIdentifier (id : string) : bool :=
  negb (bool_decide (id = "")) && all_chars (λ c, is_alnum c || bool_decide (c = "_"%char)) id.

Definition is_live (r : row) : bool := is_null (cell "deleted_at" r).
Definition has_id (id : json) (r : row) : bool := sql_eq (cell "id" r) id.

(** [SELECT * FROM t WHERE p], where [p] reads the columns [cols] *)
Definition sql_select (db : database) (t : string) (cols : list string) (p : row → bool)
    : outcome app_error (list row) :=
  match map_get t db with
  | Some tb => if forallb (λ c, bool_decide (c ∈ tb.(tb_columns))) cols
               then Ok (select p tb.(tb_rows)) else Throw sql_error
  | None => Throw sql_error
  end.

(** [INSERT INTO t (..) VALUES (..) RETURNING id]: the id is given or generated. *)
Definition sql_insert (db : database) (t : string) (values : row) (fresh : json)
    : outcome app_error (json * database) :=
  match map_get t db with
  | Some tb =>
      if forallb (λ c, bool_decide (c ∈ tb.(tb_columns))) (keys values) then
        let r := if is_null (cell "id" values) then map_set "id" fresh values else values in
        Ok (cell "id" r, map_set t (set_rows (tb.(tb_rows) ++ [r]) tb) db)
      else Throw sql_error
  | None => Throw sql_error
  end.

(** The row with the columns [values] written. *)
Definition set_columns (values : row) (r : row) : row := foldl (λ r m, map_set m.1 m.2 r) r values.

(** [UPDATE t SET .. WHERE p RETURNING id]: whether a row matched; [cols] are read. *)
Definition sql_update (db : database) (t : string) (cols : list string) (p : row → bool) (values : row)
    : outcome app_error (bool * database) :=
  match map_get t db with
  | Some tb =>
      if forallb (λ c, bool_decide (c ∈ tb.(tb_columns))) (keys values ++ cols) then
        Ok (existsb p tb.(tb_rows), map_set t (set_rows (update_where p (set_columns values) tb.(tb_rows)) tb) db)
      else Throw sql_error
  | None => Throw sql_error
  end.

(** [DELETE FROM t WHERE p] *)
Definition sql_delete (db : database) (t : string) (cols : list string) (p : row → bool)
    : outcome app_error database :=
  match map_get t db with
  | Some tb => if forallb (λ c, bool_decide (c ∈ tb.(tb_columns))) cols
               then Ok (map_set t (set_rows (delete_where p tb.(tb_rows)) tb) db) else Throw sql_error
  | None => Throw sql_error
  end.

(** ** The state of the generic services *)

(** An entry handed to the audit trail: user, action, module, details. *)
Definition audit_entry : Type := string * string * string * string.

Record rec_state := {
  rs_db : database;
  (** events of committed transactions *)
  rs_events : list (string * json);
  rs_audit : list audit_entry;
  (** whether the audit chain takes an entry: [AuditChainService.append] can fail *)
  rs_trail_up : bool }.

Definition with_db (d : database) (s : rec_state) : rec_state :=
  {| rs_db := d; rs_events := s.(rs_events); rs_audit := s.(rs_audit); rs_trail_up := s.(rs_trail_up) |}.

Definition rec_action := action app_error rec_state.
(** A failed transaction restores the rows, and its events are dropped. *)
Definition rec_rollback (old new : rec_state) : rec_state := old.

Definition enqueueEvent (name : string) (payload : json) : rec_action unit :=
  modify (λ s, {| rs_db := s.(rs_db); rs_events := s.(rs_events) ++ [(name, payload)]; rs_audit := s.(rs_audit);
                  rs_trail_up := s.(rs_trail_up) |}).

Definition audit_error : app_error := GenericError "audit trail".

(** An entry that cannot be appended is an error of the operation it records. *)
Definition logAudit (e : audit_entry) : rec_action unit :=
  up ← gets rs_trail_up;
  _ ← ensure up audit_error;
  modify (λ s, {| rs_db := s.(rs_db); rs_events := s.(rs_events); rs_audit := s.(rs_audit) ++ [e];
                  rs_trail_up := s.(rs_trail_up) |}).

(** Statements as steps. *)
Definition run_select (t : string) (cols : list string) (p : row → bool) : rec_action (list row) := λ s,
  (sql_select s.(rs_db) t cols p, s).
Definition run_insert (t : string) (values : row) (fresh : json) : rec_action json := λ s,
  match sql_insert s.(rs_db) t values fresh with
  | Ok (id, d) => (Ok id, with_db d s)
  | Throw e => (Throw e, s)
  end.
Definition run_update (t : string) (cols : list string) (p : row → bool) (values : row) : rec_action bool := λ s,
  match sql_update s.(rs_db) t cols p values with
  | Ok (found, d) => (Ok found, with_db d s)
  | Throw e => (Throw e, s)
  end.
Definition run_delete (t : string) (cols : list string) (p : row → bool) : rec_action unit := λ s,
  match sql_delete s.(rs_db) t cols p with
  | Ok d => (Ok tt, with_db d s)
  | Throw e => (Throw e, s)
  end.

(** ** Lemmas *)

Definition rows_of (db : database) (t : string) : list row := from_option tb_rows [] (map_get t db).

Lemma cell_set_eq c v r : cell c (map_set c v r) = v.
Proof. unfold cell. by rewrite map_get_set_eq. Qed.
Lemma cell_set_ne c c' v r : c ≠ c' → cell c (map_set c' v r) = cell c r.
Proof. intros H. unfold cell. by rewrite map_get_set_ne. Qed.

Lemma cell_absent c r : c ∉ keys r → cell c r = JNull.
Proof. intros H. unfold cell. by rewrite (proj2 (map_get_None c r) H). Qed.

Lemma cell_set_columns_ne c values r : c ∉ keys values → cell c (set_columns values r) = cell c r.
Proof.
  unfold set_columns, keys. revert r. induction values as [|[k v] values IH]; intros r Hc; cbn in *; [done|].
  etrans; [apply IH; set_solver|]. apply cell_set_ne. set_solver.
Qed.

Lemma cell_set_columns c values r v : map_wf values → (c, v) ∈ values → cell c (set_columns values r) = v.
Proof.
  unfold set_columns, map_wf, keys. revert r. induction values as [|[k w] values IH]; intros r Hwf Hin; cbn in *; [set_solver|].
  apply NoDup_cons in Hwf as [Hni Hwf]. apply elem_of_cons in Hin as [[= -> ->]|Hin]; [|by apply IH].
  etrans; [by apply (cell_set_columns_ne k values (map_set k w r))|]. apply cell_set_eq.
Qed.

Lemma run_update_Ok t cols p values s found s' :
  run_update t cols p values s = (Ok found, s') →
  ∃ tb, map_get t s.(rs_db) = Some tb ∧ found = existsb p tb.(tb_rows) ∧
    s' = with_db (map_set t (set_rows (update_where p (set_columns values) tb.(tb_rows)) tb) s.(rs_db)) s.
Proof.
  unfold run_update, sql_update. destruct (map_get t (rs_db s)) as [tb|]; [|done].
  destruct (forallb _ _); [|done]. intros [= <- <-]. by exists tb.
Qed.

Lemma run_delete_Ok t cols p s u s' :
  run_delete t cols p s = (Ok u, s') →
  ∃ tb, map_get t s.(rs_db) = Some tb ∧
    s' = with_db (map_set t (set_rows (delete_where p tb.(tb_rows)) tb) s.(rs_db)) s.
Proof.
  unfold run_delete, sql_delete. destruct (map_get t (rs_db s)) as [tb|]; [|done].
  destruct (forallb _ _); [|done]. intros [= <- <-]. by exists tb.
Qed.

Lemma run_insert_Ok t values fresh s id s' :
  run_insert t values fresh s = (Ok id, s') →
  ∃ tb r, map_get t s.(rs_db) = Some tb ∧
    r = (if is_null (cell "id" values) then map_set "id" fresh values else values) ∧ id = cell "id" r ∧
    s' = with_db (map_set t (set_rows (tb.(tb_rows) ++ [r]) tb) s.(rs_db)) s.
Proof.
  unfold run_insert, sql_insert. destruct (map_get t (rs_db s)) as [tb|]; [|done].
  destruct (forallb _ _); [|done]. intros [= <- <-]. by eexists tb, _.
Qed.

Lemma rows_of_set t tb db : rows_of (map_set t tb db) t = tb.(tb_rows).
Proof. unfold rows_of. by rewrite map_get_set_eq. Qed.
Lemma rows_of_set_ne t t' tb db : t ≠ t' → rows_of (map_set t' tb db) t = rows_of db t.
Proof. intros H. unfold rows_of. by rewrite map_get_set_ne. Qed.
Lemma rows_of_Some t tb db : map_get t db = Some tb → rows_of db t = tb.(tb_rows).
Proof. unfold rows_of. by intros ->. Qed.

(** A table an action does not mention is left alone. *)
Definition leaves_table (t : string) {A} (m : rec_action A) : Prop :=
  ∀ s, map_get t (m s).2.(rs_db) = map_get t s.(rs_db).

(** What a statement does to the rows of every table. *)
Lemma run_update_rows t cols p values s found s' :
  run_update t cols p values s = (Ok found, s') →
  found = existsb p (rows_of s.(rs_db) t) ∧ s'.(rs_events) = s.(rs_events) ∧ s'.(rs_audit) = s.(rs_audit) ∧
  (∀ t', rows_of s'.(rs_db) t' =
     if bool_decide (t' = t) then update_where p (set_columns values) (rows_of s.(rs_db) t) else rows_of s.(rs_db) t').
Proof.
  intros (tb & Htb & Hf & ->)%run_update_Ok. rewrite (rows_of_Some _ _ _ Htb). split_and!; [done..|].
  intros t'. cbn [with_db rs_db]. case_bool_decide; [subst; apply rows_of_set|by apply rows_of_set_ne].
Qed.

Lemma run_insert_rows t values fresh s id s' :
  run_insert t values fresh s = (Ok id, s') →
  s'.(rs_events) = s.(rs_events) ∧ s'.(rs_audit) = s.(rs_audit) ∧
  ∃ r, id = cell "id" r ∧ ∀ t', rows_of s'.(rs_db) t' =
     if bool_decide (t' = t) then rows_of s.(rs_db) t ++ [r] else rows_of s.(rs_db) t'.
Proof.
  intros (tb & r & Htb & _ & Hid & ->)%run_insert_Ok. rewrite (rows_of_Some _ _ _ Htb). split_and!; [done..|].
  exists r. split; [done|]. intros t'. cbn [with_db rs_db].
  case_bool_decide; [subst; apply rows_of_set|by apply rows_of_set_ne].
Qed.

Lemma run_delete_rows t cols p s u s' :
  run_delete t cols p s = (Ok u, s') →
  s'.(rs_events) = s.(rs_events) ∧ s'.(rs_audit) = s.(rs_audit) ∧
  ∀ t', rows_of s'.(rs_db) t' = if bool_decide (t' = t) then delete_where p (rows_of s.(rs_db) t) else rows_of s.(rs_db) t'.
Proof.
  intros (tb & Htb & ->)%run_delete_Ok. rewrite (rows_of_Some _ _ _ Htb). split_and!; [done..|].
  intros t'. cbn [with_db rs_db]. case_bool_decide; [subst; apply rows_of_set|by apply rows_of_set_ne].
Qed.

Lemma logAudit_Throw entry s e s' :
  logAudit entry s = (Throw e, s') → s' = s ∧ e = audit_error ∧ s.(rs_trail_up) = false.
Proof. unfold logAudit. run_action. destruct (rs_trail_up s); cbn; [done|]. by intros [= <- <-]. Qed.

(** The rows of a table after a sequence of statements. *)
Ltac rows_after :=
  repeat match goal with
  | H : ∀ t', rows_of (rs_db ?s) t' = _ |- context [rows_of (rs_db ?s) ?t] =>
      rewrite (H t); first [rewrite bool_decide_eq_true_2 by reflexivity|rewrite bool_decide_eq_false_2 by discriminate]
  end.

(** ** Operations that fail without an effect *)

Definition atomic {A} (m : rec_action A) : Prop := ∀ s e s', m s = (Throw e, s') → s' = s.

Lemma atomic_transaction {A} (m : rec_action A) : atomic (transaction rec_rollback m).
Proof. intros s e s' H. by apply transaction_Throw in H as (s1 & _ & ->). Qed.

Lemma atomic_ensure {A} b e (m : rec_action A) : atomic m → atomic (_ ← ensure b e; m).
Proof.
  intros Hm s e' s' H. apply bind_Throw in H as [H|(u & s1 & H1 & H)].
  - destruct b; by injection H.
  - destruct b; [|done]. injection H1 as <- <-. by apply (Hm _ _ _ H).
Qed.

Lemma atomic_select {A} t cols p (f : list row → rec_action A) :
  (∀ rows, atomic (f rows)) → atomic (run_select t cols p ≫= f).
Proof.
  intros Hf s e s' H. apply bind_Throw in H as [H|(u & s1 & H1 & H)]; [by injection H|].
  injection H1 as _ <-. by apply (Hf _ _ _ _ H).
Qed.

Lemma atomic_update {A} t cols p values (m : bool → rec_action A) :
  (∀ b s e s', m b s ≠ (Throw e, s')) → atomic (run_update t cols p values ≫= m).
Proof.
  intros Hm s e s' H. apply bind_Throw in H as [H|(u & s1 & H1 & H)]; [|by apply Hm in H].
  unfold run_update in H. destruct (sql_update _ _ _ _ _) as [[? ?]|]; by injection H.
Qed.

(** A statement fails before it writes. *)
Lemma atomic_delete {A} t cols p (m : rec_action A) :
  (∀ s e s', m s ≠ (Throw e, s')) → atomic (_ ← run_delete t cols p; m).
Proof.
  intros Hm s e s' H. apply bind_Throw in H as [H|(u & s1 & H1 & H)]; [|by apply Hm in H].
  unfold run_delete in H. destruct (sql_delete _ _ _ _); by injection H.
Qed.

Lemma atomic_throw {A} e : atomic (A:=A) (throw e).
Proof. by intros s e' s' [= _ <-]. Qed.
Lemma atomic_ret {A} (a : A) : atomic (mret a).
Proof. by intros s e' s' [=]. Qed.

(** A select that succeeds reads the rows of the table. *)
Lemma run_select_Ok t cols p s rows s' :
  run_select t cols p s = (Ok rows, s') → s' = s ∧ rows = select p (rows_of s.(rs_db) t) ∧
    ∃ tb, map_get t s.(rs_db) = Some tb ∧ ∀ c, c ∈ cols → c ∈ tb.(tb_columns).
Proof.
  unfold run_select, sql_select, rows_of. destruct (map_get t s.(rs_db)) as [tb|]; [|done].
  destruct (forallb _ cols) eqn:Hc; [|done]. intros [= <- <-]. split_and!; [done|done|].
  exists tb. split; [done|]. intros c Hin. rewrite forallb_forall in Hc.
  apply (bool_decide_eq_true _), Hc. by apply list_elem_of_In.
Qed.

Create HintDb records.
#[export] Hint Resolve atomic_transaction atomic_ensure atomic_select atomic_throw atomic_ret : records.
