(* ===== verification/AppCodes.v ===== *)
(** * Codes of generic records ([src/src/utils/AppCodeGenerator.ts])

    The next code of a table is computed from the greatest code with the same
    prefix, where codes are compared as texts.  Text is ordered by bytes, as in
    the [C] collation of the embedded database; the year and the clock are
    arguments. *)

From S2P Require Import Prelude JsMap JsStrings JsNumbers Json OrderBy Pagination Responses Records.
Local Open Scope Z_scope.

Definition DOC_TYPES : list (string * string) :=
  [("audit_plans", "PL"); ("audit_programs", "PR"); ("audit_tasks", "TSK"); ("audit_findings", "FD");
   ("audit_reports", "REP"); ("recommendations", "REC"); ("risk_register", "RSK");
   ("central_bank_instructions", "CBI"); ("internal_policies", "POL"); ("law_bank", "LAW");
   ("fraud_log", "FRD"); ("compliance_items", "CMP")].

Definition TABLE_CODE_COLUMNS : list (string * string) :=
  [("audit_plans", "plan_code"); ("audit_programs", "program_code"); ("audit_tasks", "task_number");
   ("audit_findings", "finding_number"); ("recommendations", "rec_number"); ("risk_register", "risk_id");
   ("compliance_items", "ref_number"); ("fraud_log", "incident_date")].

(** [text LIKE pattern], with the default escape character *)
Fixpoint like (pattern text : list ascii) {struct pattern} : bool :=
  match pattern with
  | [] => match text with [] => true | _ => false end
  | c :: p =>
      if bool_decide (c = "%"%char) then
        (fix any (text : list ascii) : bool :=
           like p text || match text with [] => false | _ :: t => any t end) text
      else if bool_decide (c = "_"%char) then match text with [] => false | _ :: t => like p t end
      else if bool_decide (c = "\"%char) then
        match p, text with e :: p', d :: t => bool_decide (e = d) && like p' t | _, _ => false end
      else match text with d :: t => bool_decide (c = d) && like p t | [] => false end
  end.

Definition sql_like (v : json) (pattern : string) : bool :=
  negb (is_null v) && like (chars pattern) (chars (value_text v)).

Definition text_key (v : json) : list N := map code (chars (value_text v)).

(** [SELECT c FROM t WHERE c LIKE 'prefix%' ORDER BY c DESC LIMIT 1] *)
Definition latest_code (db : database) (t c prefix : string) : outcome app_error (option json) :=
  match sql_select db t [c] (λ r, sql_like (cell c r) (prefix +:+ "%")) with
  | Ok rows => Ok (hd_error (map (cell c) (order_by (λ r, text_key (cell c r)) (λ a b, lex N.ltb b a) rows)))
  | Throw e => Throw e
  end.

(** [parts[parts.length - 1]] of [s.split('-')] *)
Definition last_part (s : string) : string := default "" (last (JsStrings.split "-"%char s)).

(** [`${prefix}${n.toString().padStart(3, '0')}`]; numbers are below [2^53]. *)
Definition numbered (prefix : string) (n : Z) : string := prefix +:+ pad_start 3 (decimal n).

(** [lastNumber + 1], or 1 when [lastNumber] is not a number *)
Definition following (lastNumber : js_num) : Z := match lastNumber with Finite q => Qfloor q + 1 | _ => 1 end.

Definition type_error : app_error := GenericError "split is not a function".

Definition next_code (prefix : string) (latest : option json) : outcome app_error string :=
  match latest with
  | Some (JStr s) =>
      if bool_decide (s = "") then Ok (numbered prefix 1)
      else Ok (numbered prefix (following (parseInt (last_part s))))
  | Some v => if falsy v then Ok (numbered prefix 1) else Throw type_error
  | None => Ok (numbered prefix 1)
  end.

(** [slice(-n)] *)
Definition slice_last (n : nat) (s : string) : string := of_chars (drop (String.length s - n) (chars s)).

(** The lookup in the legacy table [departments] keeps the default code. *)
Definition resolveDepartmentCode (departmentName : json) (db : database) : string :=
  if falsy departmentName then "IA"
  else match sql_select db "org_entities" ["entity_code"; "name_ar"; "name_en"]
               (λ r, sql_eq (cell "name_ar" r) departmentName || sql_eq (cell "name_en" r) departmentName) with
       | Ok (dept :: _) => if falsy (cell "entity_code" dept) then "IA" else value_text (cell "entity_code" dept)
       | _ => "IA"
       end.

(** The year and [Date.now()]. *)
Record code_clock := { cc_year : Z; cc_now : Z }.

Definition code_prefix (ck : code_clock) (tableName : string) (departmentName : json) (db : database) : string :=
  resolveDepartmentCode departmentName db +:+ "-" +:+ default "DOC" (map_get tableName DOC_TYPES) +:+ "-"
    +:+ slice_last 2 (decimal ck.(cc_year)) +:+ "-".

Definition code_from (prefix : string) (codeColumn tableName : string) (db : database) : outcome app_error string :=
  if validateIdentifier codeColumn && validateIdentifier tableName then
    match latest_code db tableName codeColumn prefix with
    | Ok latest => next_code prefix latest
    | Throw e => Throw e
    end
  else Throw (GenericError "Invalid database identifier").

Definition generateCode (ck : code_clock) (tableName : string) (departmentName : json) (db : database) : option string :=
  match map_get tableName TABLE_CODE_COLUMNS with
  | None => None
  | Some codeColumn =>
      let prefix := code_prefix ck tableName departmentName db in
      Some (match code_from prefix codeColumn tableName db with
            | Ok code => code
            | Throw _ => prefix +:+ slice_last 4 (decimal ck.(cc_now))
            end)
  end.

Definition generateFindingCode (ck : code_clock) (auditId : json) (db : database) : option string :=
  match sql_select db "audit_plans" ["plan_code"; "department"; "id"] (has_id auditId) with
  | Throw _ => generateCode ck "audit_findings" JNull db
  | Ok rows =>
      let plan := hd_error rows in
      let plan_code := from_option (cell "plan_code") JNull plan in
      if falsy plan_code then
        generateCode ck "audit_findings" (from_option (cell "department") JNull plan) db
      else
        let prefix := value_text plan_code +:+ "-FD-" in
        match latest_code db "audit_findings" "finding_number" prefix with
        | Throw _ => generateCode ck "audit_findings" JNull db
        | Ok latest =>
            match next_code prefix latest with
            | Ok code => Some code
            | Throw _ => generateCode ck "audit_findings" JNull db
            end
        end
  end.

(** ** Codes below the thousandth *)

Lemma like_percent p text :
  like ("%"%char :: p) text = like p text || match text with [] => false | _ :: t => like ("%"%char :: p) t end.
Proof. by destruct text. Qed.

Lemma like_all text : like ["%"%char] text = true.
Proof. induction text as [|d t IH]; [done|]. by rewrite like_percent, IH, orb_true_r. Qed.

Lemma like_prefix p text : "\"%char ∉ p → like (p ++ ["%"%char]) (p ++ text) = true.
Proof.
  induction p as [|c p IH]; intros Hesc; [apply like_all|].
  apply not_elem_of_cons in Hesc as [Hc Hesc]. specialize (IH Hesc).
  cbn [app]. destruct (decide (c = "%"%char)) as [->|Hne].
  - rewrite like_percent. cbv beta iota. rewrite (like_percent (p ++ _) (p ++ text)), IH.
    by rewrite orb_true_l, orb_true_r.
  - cbn -[bool_decide]. rewrite (bool_decide_eq_false_2 (c = "%"%char)) by done.
    case_bool_decide; [done|]. rewrite (bool_decide_eq_false_2 (c = "\"%char)) by congruence.
    by rewrite bool_decide_eq_true_2.
Qed.

Lemma lex_prefix {A} (ltb : A → A → bool) `{!StrictTotal ltb} p a b : lex ltb (p ++ a) (p ++ b) = lex ltb a b.
Proof. induction p as [|x p IH]; [done|]. cbn. by rewrite lt_irrefl. Qed.

(** The text of a number of at most three digits. *)
Definition three_digits (n : Z) : list N :=
  [48 + Z.to_N (n / 100); 48 + Z.to_N (n / 10 mod 10); 48 + Z.to_N (n mod 10)]%N.

Lemma padded_digits n : 0 <= n < 1000 → map code (chars (pad_start 3 (decimal n))) = three_digits n.
Proof.
  intros Hn. assert (H : forallb (λ k, let n := Z.of_nat k in
    bool_decide (map code (chars (pad_start 3 (decimal n))) = three_digits n)) (seq 0 1000) = true)
    by (vm_compute; reflexivity).
  rewrite forallb_forall in H. specialize (H (Z.to_nat n)). cbv zeta in H.
  rewrite Z2Nat.id in H by lia. apply bool_decide_eq_true in H; [done|]. apply in_seq. lia.
Qed.

Lemma digit_order a b : 0 <= a → 0 <= b → (48 + Z.to_N a <? 48 + Z.to_N b)%N = (a <? b).
Proof. intros. destruct (N.ltb_spec (48 + Z.to_N a) (48 + Z.to_N b)), (Z.ltb_spec a b); lia. Qed.

Lemma digits_order n m : 0 <= n < 1000 → 0 <= m < 1000 → lex N.ltb (three_digits n) (three_digits m) = (n <? m).
Proof.
  intros Hn Hm. unfold three_digits. cbn [lex]. rewrite !digit_order by (apply Z.div_pos || apply Z.mod_pos_bound; lia).
  pose proof (Z.div_mod n 10). pose proof (Z.div_mod m 10).
  pose proof (Z.div_mod (n / 10) 10). pose proof (Z.div_mod (m / 10) 10).
  rewrite !Z.div_div in * by lia. change (10 * 10) with 100 in *.
  pose proof (Z.mod_pos_bound n 10). pose proof (Z.mod_pos_bound m 10).
  pose proof (Z.mod_pos_bound (n / 10) 10). pose proof (Z.mod_pos_bound (m / 10) 10).
  repeat match goal with |- context [?x <? ?y] => destruct (Z.ltb_spec x y) end; cbn; lia.
Qed.

Lemma split_app c a b : split_chars c (a ++ c :: b) = split_chars c a ++ split_chars c b.
Proof.
  induction a as [|x a IH]; cbn -[bool_decide]; [by rewrite bool_decide_eq_true_2|].
  rewrite IH. case_bool_decide; [done|]. destruct (split_chars c a) eqn:Ha; [|done].
  destruct a as [|y a]; [done|]. cbn -[bool_decide] in Ha. case_bool_decide; [done|].
  by destruct (split_chars c a).
Qed.

Lemma split_none c b : c ∉ b → split_chars c b = [b].
Proof.
  induction b as [|x b IH]; intros Hb; [done|]. apply not_elem_of_cons in Hb as [Hx Hb].
  cbn -[bool_decide]. rewrite bool_decide_eq_false_2 by congruence. by rewrite IH.
Qed.

Lemma last_part_app p s : "-"%char ∉ chars s → last_part (p +:+ "-" +:+ s) = s.
Proof.
  intros Hs. unfold last_part, JsStrings.split. rewrite !chars_app. change (chars "-") with ["-"%char].
  cbn [app]. rewrite split_app, (split_none _ _ Hs), map_app. cbn [map]. rewrite last_snoc. apply of_chars_chars.
Qed.

(** ** The number read back from a code *)

Lemma padded_reads n :
  0 <= n < 1000 →
  following (parseInt (pad_start 3 (decimal n))) = n + 1 ∧ "-"%char ∉ chars (pad_start 3 (decimal n)).
Proof.
  intros Hn. assert (H : forallb (λ k, let s := pad_start 3 (decimal (Z.of_nat k)) in
    bool_decide (following (parseInt s) = Z.of_nat k + 1) && bool_decide ("-"%char ∉ chars s)) (seq 0 1000) = true)
    by (vm_compute; reflexivity).
  rewrite forallb_forall in H. specialize (H (Z.to_nat n)). cbv zeta in H.
  rewrite Z2Nat.id in H by lia. apply andb_true_iff in H as [H1 H2]; [|apply in_seq; lia].
  by apply bool_decide_eq_true in H1, H2.
Qed.

Lemma next_code_numbered p n :
  0 <= n < 1000 → next_code (p +:+ "-") (Some (JStr (numbered (p +:+ "-") n))) = Ok (numbered (p +:+ "-") (n + 1)).
Proof.
  intros Hn. destruct (padded_reads n Hn) as [Hr Hd]. unfold next_code.
  rewrite bool_decide_eq_false_2 by (unfold numbered; by destruct p).
  unfold numbered at 2. rewrite app_assoc_str, last_part_app by done. by rewrite Hr.
Qed.

Lemma numbered_key p n m :
  0 <= n < 1000 → 0 <= m < 1000 →
  lex N.ltb (text_key (JStr (numbered p n))) (text_key (JStr (numbered p m))) = (n <? m).
Proof.
  intros Hn Hm. unfold text_key, numbered, value_text. rewrite !chars_app, !map_app, lex_prefix by apply _.
  rewrite !padded_digits by done. by apply digits_order.
Qed.

Lemma numbered_inj p n m : 0 <= n < 1000 → 0 <= m < 1000 → numbered p n = numbered p m → n = m.
Proof.
  intros Hn Hm He. pose proof (numbered_key p n m Hn Hm) as H1. pose proof (numbered_key p m n Hm Hn) as H2.
  rewrite He in H1, H2. rewrite lt_irrefl in H1, H2. symmetry in H1, H2.
  apply Z.ltb_ge in H1, H2. lia.
Qed.

(** Every code with the prefix is one of the first 999 of its sequence. *)
Definition short_sequence (prefix column : string) (rows : list row) : Prop :=
  ∀ r, r ∈ rows → sql_like (cell column r) (prefix +:+ "%") = true →
  ∃ n, 1 <= n < 1000 ∧ cell column r = JStr (numbered prefix n).

Lemma numbered_like prefix n : "\"%char ∉ chars prefix → sql_like (JStr (numbered prefix n)) (prefix +:+ "%") = true.
Proof.
  intros He. unfold sql_like, value_text, numbered. rewrite !chars_app. by apply (like_prefix (chars prefix)).
Qed.

Lemma numbered_1000 prefix n : 0 <= n < 1000 → numbered prefix n ≠ numbered prefix 1000.
Proof.
  intros Hn He%app_inj_l_str. apply (f_equal (λ s, length (map code (chars s)))) in He.
  by rewrite padded_digits in He.
Qed.

Lemma code_columns_valid t c :
  map_get t TABLE_CODE_COLUMNS = Some c → validateIdentifier c && validateIdentifier t = true.
Proof.
  intros H%map_get_Some_elem.
  assert (Ha : Forall (λ m, validateIdentifier m.2 && validateIdentifier m.1 = true) TABLE_CODE_COLUMNS)
    by (repeat constructor).
  rewrite Forall_forall in Ha. exact (Ha _ H).
Qed.

(** The code after a short sequence is new, and counts on. *)
Lemma next_code_fresh p column table db tb :
  let prefix := p +:+ "-" in
  map_get table db = Some tb → column ∈ tb.(tb_columns) → "\"%char ∉ chars prefix →
  short_sequence prefix column tb.(tb_rows) →
  ∃ n latest, 1 <= n <= 1000 ∧ latest_code db table column prefix = Ok latest ∧
    next_code prefix latest = Ok (numbered prefix n) ∧
    ∀ r, r ∈ tb.(tb_rows) → cell column r ≠ JStr (numbered prefix n) ∧
      ∀ m, 0 <= m < 1000 → cell column r = JStr (numbered prefix m) → m < n.
Proof.
  intros prefix Ht Hcol Hesc Hshort.
  assert (StrictTotal (λ a b, lex N.ltb b a)) by apply flip_strict, _.
  unfold latest_code, sql_select. rewrite Ht. cbn [forallb].
  rewrite bool_decide_eq_true_2 by done. cbn [andb].
  set (p1 := λ r, sql_like (cell column r) (prefix +:+ "%")).
  destruct (order_by _ _ (select p1 tb.(tb_rows))) as [|r0 l] eqn:Ho.
  - exists 1, None. split_and!; [lia|done..|]. intros r Hr.
    assert (Hn : ∀ n, cell column r ≠ JStr (numbered prefix n)).
    { intros n Hn. assert (Hin : r ∈ select p1 tb.(tb_rows)).
      { apply elem_of_select. split; [done|]. unfold p1. rewrite Hn. by apply numbered_like. }
      erewrite <- (elem_of_order_by _ _ _ (select p1 _)), Ho in Hin. set_solver. }
    split; [apply Hn|]. intros m _ Hm. by destruct (Hn m).
  - assert (Hr0 : r0 ∈ select p1 tb.(tb_rows)).
    { rewrite <- (elem_of_order_by (λ r, text_key (cell column r)) (λ a b, lex N.ltb b a)), Ho. set_solver. }
    apply elem_of_select in Hr0 as [Hin Hp]. destruct (Hshort r0 Hin Hp) as (n & Hn & Hc).
    exists (n + 1), (Some (cell column r0)). cbn [hd_error map]. rewrite Hc.
    split_and!; [lia|lia|done|by apply next_code_numbered; lia|]. intros r Hr.
    assert (Hle : ∀ m, 0 <= m < 1000 → cell column r = JStr (numbered prefix m) → m < n + 1).
    { intros m Hm Hcr. assert (Hbefore : lex N.ltb (text_key (cell column r0)) (text_key (cell column r)) = false).
      { apply (order_by_head (λ r, text_key (cell column r)) (λ a b, lex N.ltb b a) _ r0 l Ho).
        apply elem_of_select. split; [done|]. unfold p1. rewrite Hcr. by apply numbered_like. }
      rewrite Hc, Hcr, numbered_key in Hbefore by lia. apply Z.ltb_ge in Hbefore. lia. }
    split; [|exact Hle]. intros Hcr. destruct (decide (n + 1 = 1000)) as [He|He].
    + assert (Hp' : p1 r = true) by (unfold p1; rewrite Hcr; by apply numbered_like).
      destruct (Hshort r Hr Hp') as (k & Hk & Hck). rewrite Hcr, He in Hck. injection Hck as Hck.
      symmetry in Hck. by apply numbered_1000 in Hck; [|lia].
    + assert (n + 1 < n + 1) by (apply Hle; [lia|done]). lia.
Qed.

(** As long as the codes with its prefix are among the first 999 of their
    sequence, the generated code is the successor of the greatest one: no record
    has it, and every number in use is smaller. *)
Theorem generated_code_fresh ck db table department column tb prefix
  (Hprefix : prefix = code_prefix ck table department db) (Hesc : "\"%char ∉ chars prefix)
  (Hcolumn : map_get table TABLE_CODE_COLUMNS = Some column)
  (Htable : map_get table db = Some tb) (Hcol : column ∈ tb.(tb_columns))
  (Hshort : short_sequence prefix column tb.(tb_rows)) :
  ∃ n, 1 <= n <= 1000 ∧ generateCode ck table department db = Some (numbered prefix n) ∧
    ∀ r, r ∈ tb.(tb_rows) → cell column r ≠ JStr (numbered prefix n) ∧
      ∀ m, 0 <= m < 1000 → cell column r = JStr (numbered prefix m) → m < n.
Proof.
  assert (Hp : ∃ p, prefix = p +:+ "-").
  { rewrite Hprefix. unfold code_prefix. eexists. by rewrite <- !app_assoc_str. }
  destruct Hp as [p Hp]. rewrite Hp in Hesc, Hshort.
  destruct (next_code_fresh p column table db tb Htable Hcol Hesc Hshort) as (n & latest & Hn & Hl & Hc & Hr).
  exists n. rewrite Hp. split_and!; [lia|lia| |exact Hr].
  unfold generateCode. rewrite Hcolumn. cbv zeta. rewrite <- Hprefix, Hp. unfold code_from.
  by rewrite (code_columns_valid _ _ Hcolumn), Hl, Hc.
Qed.

(** ** A small register *)

Module Codes.
Definition clock : code_clock := {| cc_year := 2025; cc_now := 1750000012345 |}.
Definition risk (code : string) : row := [("id", JStr code); ("risk_id", JStr code)].
Definition register (codes : list string) : database :=
  [("risk_register", {| tb_columns := ["id"; "risk_id"]; tb_rows := map risk codes |});
   ("org_entities", {| tb_columns := ["entity_code"; "name_ar"; "name_en"];
                       tb_rows := [[("entity_code", JStr "HR"); ("name_en", JStr "Human Resources")]] |})].

Example codes_of_departments :
  generateCode clock "risk_register" (JStr "Human Resources") (register ["HR-RSK-25-041"; "IA-RSK-25-900"; "HR-RSK-24-077"])
  = Some "HR-RSK-25-042".
Proof. vm_compute. reflexivity. Qed.

(** Codes are compared as texts, so after the thousandth code the greatest one
    is still [999]: the thousandth code is generated again for every record. *)
Theorem thousandth_code_repeats :
  generateCode clock "risk_register" JNull (register ["IA-RSK-25-998"; "IA-RSK-25-999"]) = Some "IA-RSK-25-1000" ∧
  generateCode clock "risk_register" JNull (register ["IA-RSK-25-998"; "IA-RSK-25-999"; "IA-RSK-25-1000"])
    = Some "IA-RSK-25-1000".
Proof. split; vm_compute; reflexivity. Qed.
End Codes.

Lemma generated_code_fresh_witness :
  ∃ n, 1 <= n <= 1000 ∧
    generateCode Codes.clock "risk_register" JNull (Codes.register ["IA-RSK-25-007"]) = Some (numbered "IA-RSK-25-" n) ∧
    ∀ r, r ∈ map Codes.risk ["IA-RSK-25-007"] → cell "risk_id" r ≠ JStr (numbered "IA-RSK-25-" n) ∧
      ∀ m, 0 <= m < 1000 → cell "risk_id" r = JStr (numbered "IA-RSK-25-" m) → m < n.
Proof.
  apply (generated_code_fresh Codes.clock (Codes.register ["IA-RSK-25-007"]) "risk_register" JNull "risk_id"
    {| tb_columns := ["id"; "risk_id"]; tb_rows := map Codes.risk ["IA-RSK-25-007"] |} "IA-RSK-25-").
  - vm_compute. reflexivity.
  - apply (bool_decide_unpack _). vm_compute. exact I.
  - reflexivity.
  - reflexivity.
  - apply (bool_decide_unpack _). vm_compute. exact I.
  - intros r Hr%list_elem_of_singleton. subst r. intros _. exists 7. split; [lia|reflexivity].
Defined.
