(* ===== verification/GenericRecords.v ===== *)
(** * The generic record service

    [src/src/services/BaseService.ts] with the write whitelist
    ([columnWhitelist.ts]) and the search columns ([searchColumns.ts]).  Every
    operation takes its table by name.  Column defaults and the other checks of
    PostgreSQL are not modelled; [findAll] takes page numbers from 1 on, as its
    callers pass them. *)

From S2P Require Import Prelude JsMap JsStrings JsNumbers Json OrderBy Pagination Cursors Responses Records AppCodes.
Local Open Scope Z_scope.

(** ** [columnWhitelist.ts] *)

(** Field names of the write schemas. *)
Definition TABLE_WRITE_SCHEMAS : list (string * list string) := [
  ("audit_programs", ["program_code"; "program_title"; "audit_area"; "department"; "audit_type"; "audit_objective";
    "audit_scope"; "key_risks"; "control_objectives"; "reference_standard"; "status"; "version_number"]);
  ("audit_plans", ["plan_code"; "program_id"; "title"; "department"; "type"; "risk_rating"; "planned_start_date";
    "planned_end_date"; "status"; "lead_auditor"; "team_members"; "objectives"; "scope"; "notes"; "year"; "quarter";
    "is_archived"]);
  ("audit_tasks", ["task_number"; "title"; "plan_id"; "program_id"; "task_type"; "audit_type"; "status"; "assigned_to";
    "audited_unit_id"; "planned_hours"; "actual_hours"; "period_from"; "period_to"; "due_date"]);
  ("audit_findings", ["audit_id"; "finding_number"; "title"; "finding_type"; "description"; "criteria"; "condition";
    "cause"; "consequence"; "impact"; "root_cause"; "recommendation"; "risk_level"; "status"; "responsible_unit_id";
    "risk_id"]);
  ("recommendations", ["finding_id"; "plan_id"; "rec_number"; "department"; "responsible"; "responsible_person_id";
    "action_plan"; "due_date"; "follow_up_date"; "status"; "risk_level"; "priority"; "closure_evidence_path"]);
  ("risk_register", ["risk_id"; "description"; "owner"; "source"; "early_warning"; "type"; "likelihood"; "impact";
    "score"; "rating"; "controls"; "control_assessment"; "mitigation"; "treatment_option"; "residual_likelihood";
    "residual_impact"; "residual_score"; "residual_rating"; "status"; "target_date"; "review_date"; "notes";
    "entry_date"; "entered_by"; "likelihood_num"; "impact_num"]);
  ("compliance_items", ["ref_number"; "title"; "source_type"; "issuing_authority"; "category"; "issue_date";
    "effective_date"; "review_date"; "compliance_status"; "maturity_score"; "gap_notes"; "responsible_person_id";
    "department_id"; "description"; "keywords"; "version"; "attachment_path"]);
  ("central_bank_instructions", ["title"; "issue_date"; "reference_number"; "category"; "description";
    "related_department"; "attachment"; "status"; "related_instruction_id"]);
  ("law_bank", ["title"; "type"; "authority"; "issue_date"; "keywords"; "bookmarked"; "file_url"]);
  ("departments", ["name"; "description"])].

Definition getColumnWhitelist (tableName : string) : list string := default [] (map_get tableName TABLE_WRITE_SCHEMAS).

Record WhitelistResult := { wl_ok : bool; rejectedKeys : list string }.

Definition checkWhitelist (tableName : string) (body : row) : WhitelistResult :=
  let whitelist := getColumnWhitelist tableName in
  let rejected := List.filter (λ key, negb (bool_decide (key ∈ whitelist))) (keys body) in
  {| wl_ok := bool_decide (rejected = []); rejectedKeys := rejected |}.

(** ** [searchColumns.ts] *)

Definition TABLE_SEARCH_COLUMNS : list (string * list string) := [
  ("audit_plans", ["title"; "plan_code"; "department"; "lead_auditor"]);
  ("audit_tasks", ["title"; "task_number"; "audit_type"]);
  ("audit_programs", ["program_title"; "program_code"; "audit_area"]);
  ("audit_findings", ["title"; "description"; "finding_number"]);
  ("recommendations", ["rec_number"; "department"; "action_plan"]);
  ("risk_register", ["risk_id"; "description"; "owner"]);
  ("compliance_items", ["ref_number"; "title"; "notes"])].

Definition getSearchColumns (tableName : string) : list string := default [] (map_get tableName TABLE_SEARCH_COLUMNS).

Record SearchClause := { sc_clause : string; sc_params : list string; sc_columns : list string }.

Definition buildSearchClause (tableName : string) (term : option string) : option SearchClause :=
  match term with
  | None => None
  | Some term =>
      let trimmed := trim term in
      let columns := getSearchColumns tableName in
      if bool_decide (trimmed = "") || bool_decide (columns = []) then None
      else Some {| sc_clause := "(" +:+ join " OR " (map (λ col, col +:+ " LIKE ?") columns) +:+ ")";
                   sc_params := map (λ _, "%" +:+ trimmed +:+ "%") columns;
                   sc_columns := columns |}
  end.

(** The rows the clause lets through. *)
Definition search_test (k : SearchClause) (r : row) : bool :=
  existsb (λ m, sql_like (cell m.1 r) m.2) (zip k.(sc_columns) k.(sc_params)).

(** ** [BaseService] *)

Definition SOFT_DELETE_TABLES : list string :=
  ["audit_programs"; "audit_plans"; "risk_register"; "compliance_items"; "audit_tasks"; "audit_findings";
   "recommendations"; "audit_evidence"; "audit_reports"; "fraud_log"; "incoming_correspondence"; "outgoing_letters";
   "correspondence_attachments"].

Definition hasSoftDelete (tableName : string) : bool := bool_decide (tableName ∈ SOFT_DELETE_TABLES).

Definition ends_with (s suffix : string) : bool := bool_decide (slice_last (String.length suffix) s = suffix).

(** Columns whose empty text is stored as null. *)
Definition id_like (key : string) : bool := ends_with key "_id" || bool_decide (key = "id") || includes key "uuid".

Definition is_empty_text (v : json) : bool := match v with JStr s => bool_decide (s = "") | _ => false end.

Definition sanitizeBody (body : row) : row :=
  map (λ m, if is_empty_text m.2 && id_like m.1 then (m.1, JNull) else m) body.

Definition identifier_error : app_error := GenericError "Invalid database identifier".
Definition not_found (tableName : string) : app_error := NotFoundError (tableName +:+ " item not found").

(** *** [findAll] *)

Record find_options := {
  fo_page : Z; fo_pageSize : option Z; fo_orderBy : string; fo_where : row; fo_select : option (list string);
  fo_includeDeleted : bool; fo_cursor : option string; fo_sortDirection : option direction }.

(** The options a caller leaves out. *)
Definition default_options : find_options := {|
  fo_page := 1; fo_pageSize := None; fo_orderBy := "id DESC"; fo_where := []; fo_select := None;
  fo_includeDeleted := false; fo_cursor := None; fo_sortDirection := None |}.

(** [safeSelect]: [None] is [*]. *)
Definition safe_select (sel : option (list string)) : option (list string) :=
  match sel with
  | Some (c :: l) => Some (List.filter validateIdentifier (c :: l))
  | _ => None
  end.

Definition project (sel : option (list string)) (r : row) : row :=
  match sel with None => r | Some cols => set_columns (map (λ c, (c, cell c r)) cols) [] end.

(** The conditions of the [WHERE] clause: their texts, their parameters, the
    columns they read and the rows they let through. *)
Record conditions := {
  co_texts : list string; co_params : list json; co_columns : list string; co_test : row → bool }.

Definition where_conditions (tableName : string) (filters : row) (includeDeleted : bool) : outcome app_error conditions :=
  let restWhere := map_delete "search" filters in
  let search := match map_get "search" filters with Some (JStr s) => Some s | _ => None end in
  if forallb validateIdentifier (keys restWhere) then
    let searchClause := buildSearchClause tableName search in
    Ok {| co_texts := map (λ key, key +:+ " = ?") (keys restWhere)
                        ++ (if includeDeleted then [] else ["deleted_at IS NULL"])
                        ++ from_option (λ k, [k.(sc_clause)]) [] searchClause;
          co_params := map snd restWhere ++ from_option (λ k, map JStr k.(sc_params)) [] searchClause;
          co_columns := keys restWhere ++ (if includeDeleted then [] else ["deleted_at"])
                          ++ from_option sc_columns [] searchClause;
          co_test := λ r, forallb (λ m, sql_eq (cell m.1 r) m.2) restWhere
                            && (includeDeleted || is_live r)
                            && from_option (λ k, search_test k r) true searchClause |}
  else Throw identifier_error.

Definition where_text (c : conditions) : string :=
  match c.(co_texts) with [] => "" | l => "WHERE " +:+ join " AND " l end.

(** [s.trim().split(/\s+/)], without the empty part of an empty text *)
Fixpoint words_chars (l : list ascii) : list (list ascii) :=
  match l with
  | [] => []
  | x :: l' =>
      if is_js_space x then words_chars l'
      else match l' with
           | [] => [[x]]
           | y :: _ => if is_js_space y then [x] :: words_chars l'
                       else match words_chars l' with
                            | [] => [[x]]
                            | w :: ws => (x :: w) :: ws
                            end
           end
  end.
Definition words (s : string) : list string := map of_chars (words_chars (chars s)).

Definition order_parts (orderBy : string) : outcome app_error (string * direction) :=
  let orderParts := words (if bool_decide (orderBy = "") then "id" else orderBy) in
  let orderColumn := default "id" (hd_error orderParts) in
  let orderDirection := toUpperCase (match orderParts with _ :: d :: _ => d | _ => "DESC" end) in
  if validateIdentifier orderColumn then
    if bool_decide (orderDirection = "ASC") then Ok (orderColumn, ASC)
    else if bool_decide (orderDirection = "DESC") then Ok (orderColumn, DESC)
    else Throw (ValidationError "Invalid orderBy direction")
  else Throw (ValidationError "Invalid orderBy column name").

Record found := { fa_data : list row; fa_nextCursor : option (option string); fa_pagination : PaginationMeta }.

Definition row_cell (r : row) (c : string) : option json := if is_null (cell c r) then None else Some (cell c r).

(** The key of the last row must be among the selected columns. *)
Definition cursor_selected (orderKey : list string) (sel : option (list string)) (cursor : option string) : bool :=
  match cursor, sel with
  | Some _, Some cols => forallb (λ c, bool_decide (c ∈ cols)) orderKey
  | _, _ => true
  end.

Section find_all.
(** How a column's value is written as text, read back and ordered. *)
Context (js_String : json → string) (read_as : string → string → option json) (cell_ltb : json → json → bool).

Definition keyset_rows (db : database) (tableName : string) (o : find_options) (c : conditions)
    : outcome app_error (KeysetPage row) :=
  let orderKey := default [] (getKeysetOrderKey tableName) in
  let sel := safe_select o.(fo_select) in
  match buildKeysetClause orderKey o.(fo_cursor) (default DESC o.(fo_sortDirection)) with
  | Throw e => Throw e
  | Ok _ =>
  match sql_select db tableName (default [] sel ++ c.(co_columns) ++ orderKey) (λ _, true) with
  | Throw e => Throw e
  | Ok rows =>
      match keysetPaginate row_cell js_String read_as cell_ltb tableName o.(fo_cursor)
              (option_map int o.(fo_pageSize)) o.(fo_sortDirection) c.(co_test) rows with
      | Throw e => Throw e
      | Ok p =>
          if cursor_selected orderKey sel (k_nextCursor p)
          then Ok (mkKeysetPage (map (project sel) (k_data p)) (k_nextCursor p))
          else Throw (ValidationError "Cannot encode cursor: missing order-key value")
      end
  end
  end.

(** [SELECT COUNT( * )] *)
Definition count_rows (db : database) (tableName : string) (c : conditions) : outcome app_error Z :=
  match sql_select db tableName c.(co_columns) c.(co_test) with
  | Ok rows => Ok (Z.of_nat (length rows))
  | Throw e => Throw e
  end.

Definition findAll (now : Z) (db : database) (tableName : string) (o : find_options)
    : action app_error count_cache found := λ cache,
  if negb (validateIdentifier tableName) then (Throw identifier_error, cache)
  else match where_conditions tableName o.(fo_where) o.(fo_includeDeleted) with
  | Throw e => (Throw e, cache)
  | Ok c =>
      if isKeysetTable tableName then
        match keyset_rows db tableName o c with
        | Throw e => (Throw e, cache)
        | Ok p =>
            let effectivePageSize := Z.of_nat (size_of (clampKeysetPageSize (option_map int o.(fo_pageSize)))) in
            (total ← getCachedCount (buildCountCacheKey tableName (where_text c) c.(co_params))
                       (count_rows db tableName c) COUNT_CACHE_TTL_MS now;
             mret {| fa_data := k_data p; fa_nextCursor := Some (k_nextCursor p);
                     fa_pagination := computePaginationMeta o.(fo_page) effectivePageSize total |}) cache
        end
      else
        match order_parts o.(fo_orderBy) with
        | Throw e => (Throw e, cache)
        | Ok (orderColumn, d) =>
            let size := default DEFAULT_PAGE_SIZE o.(fo_pageSize) in
            let sel := safe_select o.(fo_select) in
            match count_rows db tableName c with
            | Throw e => (Throw e, cache)
            | Ok total =>
                match sql_select db tableName (default [] sel ++ co_columns c ++ [orderColumn]) c.(co_test) with
                | Throw e => (Throw e, cache)
                | Ok rows =>
                    (Ok {| fa_data := map (project sel)
                             (page_rows size o.(fo_page) (sql_order row_cell cell_ltb [orderColumn] d rows));
                           fa_nextCursor := None;
                           fa_pagination := computePaginationMeta o.(fo_page) size total |}, cache)
                end
            end
        end
  end.
End find_all.

(** *** [findById] and the writes *)

Definition findById (tableName : string) (id : json) (includeDeleted : bool) : rec_action row :=
  _ ← ensure (validateIdentifier tableName) identifier_error;
  rows ← run_select tableName ("id" :: if includeDeleted then [] else ["deleted_at"])
           (λ r, has_id id r && (includeDeleted || is_live r));
  match rows with
  | item :: _ => mret item
  | [] => throw (not_found tableName)
  end.

(** What a write reads from its surroundings: the generated id, the time as the
    database writes it and the clock of the codes. *)
Record surroundings := { su_id : json; su_now : json; su_clock : code_clock }.

Definition codeColumns : list (string * string) :=
  [("audit_plans", "plan_code"); ("audit_programs", "program_code"); ("audit_tasks", "task_number");
   ("audit_findings", "finding_number"); ("recommendations", "rec_number"); ("risk_register", "risk_id");
   ("compliance_items", "ref_number")].

(** The code a creation generates for a body without one. *)
Definition generated_code (ck : code_clock) (tableName : string) (body : row) (db : database) : option string :=
  if bool_decide (tableName = "audit_findings") && negb (falsy (cell "audit_id" body))
  then generateFindingCode ck (cell "audit_id" body) db
  else generateCode ck tableName (cell "department" body) db.

(** The body with the generated code of its table. *)
Definition with_code (ck : code_clock) (tableName : string) (body : row) (db : database) : row :=
  match map_get tableName codeColumns with
  | Some codeCol =>
      if falsy (cell codeCol body) then
        match generated_code ck tableName body db with
        | Some c => if bool_decide (c = "") then body else map_set codeCol (JStr c) body
        | None => body
        end
      else body
  | None => body
  end.

Definition not_permitted : app_error := ValidationError "fields are not permitted".

(** [{ id, ...body }] *)
Definition with_id (id : json) (body : row) : row := set_columns body [("id", id)].

Definition create (su : surroundings) (tableName : string) (data : row) : rec_action row :=
  _ ← ensure (checkWhitelist tableName data).(wl_ok) not_permitted;
  transaction rec_rollback
    (body ← gets (λ s, with_code su.(su_clock) tableName (sanitizeBody data) s.(rs_db));
     _ ← ensure (forallb validateIdentifier (keys body)) identifier_error;
     _ ← ensure (negb (bool_decide (body = []))) (ValidationError "No data provided for creation");
     _ ← ensure (validateIdentifier tableName) identifier_error;
     newId ← run_insert tableName body su.(su_id);
     _ ← enqueueEvent (tableName +:+ ".created") (JObj (with_id newId body));
     mret (with_id newId body)).

Definition update (su : surroundings) (tableName : string) (id : json) (data : row) : rec_action row :=
  _ ← ensure (checkWhitelist tableName data).(wl_ok) not_permitted;
  transaction rec_rollback
    (let body := sanitizeBody data in
     _ ← ensure (forallb validateIdentifier (keys body)) identifier_error;
     _ ← ensure (negb (bool_decide (body = []))) (ValidationError "No data provided for update");
     _ ← ensure (validateIdentifier tableName) identifier_error;
     updated ← run_update tableName ["id"] (has_id id) (body ++ [("updated_at", su.(su_now))]);
     _ ← ensure updated (not_found tableName);
     _ ← enqueueEvent (tableName +:+ ".updated") (JObj (with_id id body));
     mret (with_id id body)).

(** [delete] *)
Definition delete_record (su : surroundings) (tableName : string) (id : json) : rec_action bool :=
  _ ← ensure (validateIdentifier tableName) identifier_error;
  transaction rec_rollback
    (_ ← (if hasSoftDelete tableName then
            updated ← run_update tableName ["id"; "deleted_at"] (λ r, has_id id r && is_live r)
                        [("deleted_at", su.(su_now))];
            ensure updated (not_found tableName)
          else run_delete tableName ["id"] (has_id id));
     _ ← enqueueEvent (tableName +:+ ".deleted") (JObj [("id", id)]);
     mret true).

Definition hardDelete (tableName : string) (id : json) : rec_action bool :=
  _ ← ensure (validateIdentifier tableName) identifier_error;
  transaction rec_rollback
    (_ ← run_delete tableName ["id"] (has_id id);
     _ ← enqueueEvent (tableName +:+ ".deleted") (JObj [("id", id)]);
     mret true).

(** ** Lemmas *)

Lemma checkWhitelist_ok t body : (checkWhitelist t body).(wl_ok) = true ↔ ∀ k, k ∈ keys body → k ∈ getColumnWhitelist t.
Proof.
  cbn [checkWhitelist wl_ok]. rewrite bool_decide_eq_true. split.
  - intros H k Hk. destruct (decide (k ∈ getColumnWhitelist t)) as [|Hn]; [done|]. exfalso.
    assert (k ∈ []) as Hin; [|by apply elem_of_nil in Hin]. rewrite <- H.
    apply list_elem_of_In, filter_In. rewrite <- list_elem_of_In. split; [done|].
    by rewrite bool_decide_eq_false_2.
  - intros H. destruct (List.filter _ _) as [|k l] eqn:Hf; [done|].
    assert (Hin : In k (k :: l)) by by left. rewrite <- Hf in Hin. apply filter_In in Hin as [Hin Hk].
    apply list_elem_of_In in Hin. rewrite bool_decide_eq_true_2 in Hk by by apply H. done.
Qed.

Lemma keys_sanitizeBody body : keys (sanitizeBody body) = keys body.
Proof.
  unfold sanitizeBody, keys. rewrite map_map. apply map_ext. intros [k v]. cbn. by destruct (_ && _).
Qed.

Lemma map_get_sanitizeBody k body :
  map_get k (sanitizeBody body) = (λ v, if is_empty_text v && id_like k then JNull else v) <$> map_get k body.
Proof.
  induction body as [|[k' v] body IH]; [done|]. cbn [sanitizeBody map fst snd].
  destruct (is_empty_text v && id_like k') eqn:Hs; cbn [map_get]; case_bool_decide; try exact IH; subst k';
    cbn; by rewrite Hs.
Qed.

(** An empty text in an identifier column is stored as null, nothing else changes. *)
Lemma cell_sanitizeBody k body :
  cell k (sanitizeBody body) = if is_empty_text (cell k body) && id_like k then JNull else cell k body.
Proof. unfold cell. rewrite map_get_sanitizeBody. by destruct (map_get k body). Qed.

Lemma code_column_whitelisted t c : map_get t codeColumns = Some c → c ∈ getColumnWhitelist t.
Proof.
  intros H%map_get_Some_elem.
  assert (Ha : forallb (λ m, bool_decide (m.2 ∈ getColumnWhitelist m.1)) codeColumns = true)
    by (vm_compute; reflexivity).
  rewrite forallb_forall in Ha. apply list_elem_of_In in H.
  exact (proj1 (bool_decide_eq_true _) (Ha (t, c) H)).
Qed.

Lemma keys_with_code ck t body db k :
  k ∈ keys (with_code ck t body db) → k ∈ keys body ∨ map_get t codeColumns = Some k.
Proof.
  unfold with_code. destruct (map_get t codeColumns) as [c|]; [|auto].
  destruct (falsy _); [|auto]. destruct (generated_code _ _ _ _) as [s|]; [|auto].
  destruct (bool_decide (s = "")); [auto|].
  intros [->|?]%elem_of_keys_set; auto.
Qed.

Lemma cell_with_code ck t body db k :
  map_get t codeColumns ≠ Some k → cell k (with_code ck t body db) = cell k body.
Proof.
  intros Hk. unfold with_code. destruct (map_get t codeColumns) as [c|]; [|done].
  destruct (falsy _); [|done]. destruct (generated_code _ _ _ _) as [s|]; [|done].
  destruct (bool_decide (s = "")); [done|].
  apply cell_set_ne. congruence.
Qed.

Lemma cell_of_code ck t body db k : map_get t codeColumns = Some k →
  cell k (with_code ck t body db) =
    if falsy (cell k body) then match generated_code ck t body db with
                                | Some c => if bool_decide (c = "") then cell k body else JStr c
                                | None => cell k body
                                end
    else cell k body.
Proof.
  intros Hk. unfold with_code. rewrite Hk. destruct (falsy _); [|done].
  destruct (generated_code _ _ _ _) as [s|]; [|done]. case_bool_decide; [done|]. apply cell_set_eq.
Qed.

Lemma id_not_whitelisted t : "id" ∉ getColumnWhitelist t.
Proof.
  unfold getColumnWhitelist. destruct (map_get t TABLE_WRITE_SCHEMAS) as [l|] eqn:H; [|apply not_elem_of_nil].
  apply map_get_Some_elem, list_elem_of_In in H.
  assert (Ha : forallb (λ m, bool_decide ("id" ∉ m.2)) TABLE_WRITE_SCHEMAS = true) by (vm_compute; reflexivity).
  rewrite forallb_forall in Ha. exact (proj1 (bool_decide_eq_true _) (Ha (t, l) H)).
Qed.

(** ** Writes *)

(** C5: A creation adds one row that has the generated id, the values of the request and no
    column beyond the write schema, and announces it; everything else keeps its
    value.  An empty text for a column that holds an id is stored as null, and the
    code column of the table keeps the code of the request when it has one and
    otherwise takes the generated code, if there is one.  A creation that fails
    changes nothing. *)
Theorem create_spec su t data s :
  match create su t data s with
  | (Throw _, s') => s' = s
  | (Ok answer, s') =>
      (∀ k, k ∈ keys data → k ∈ getColumnWhitelist t) ∧
      ∃ tb r, map_get t s.(rs_db) = Some tb ∧
        cell "id" r = su.(su_id) ∧ (∀ k, k ∈ keys r → k = "id" ∨ k ∈ getColumnWhitelist t) ∧
        (∀ k, k ≠ "id" → map_get t codeColumns ≠ Some k →
           cell k r = if is_empty_text (cell k data) && id_like k then JNull else cell k data) ∧
        (∀ k, map_get t codeColumns = Some k →
           cell k r = let given := if is_empty_text (cell k data) && id_like k then JNull else cell k data in
                      if falsy given then match generated_code su.(su_clock) t (sanitizeBody data) s.(rs_db) with
                                          | Some c => if bool_decide (c = "") then given else JStr c
                                          | None => given
                                          end
                      else given) ∧
        s' = {| rs_db := map_set t (set_rows (tb.(tb_rows) ++ [r]) tb) s.(rs_db);
                rs_events := s.(rs_events) ++ [(t +:+ ".created", JObj answer)]; rs_audit := s.(rs_audit);
                rs_trail_up := s.(rs_trail_up) |}
  end.
Proof.
  destruct (create su t data s) as [[answer|e] s'] eqn:H.
  - unfold create in H. inv_ok. pose proof (proj1 (checkWhitelist_ok _ _) Hguard) as Hw. split; [done|].
    unfold enqueueEvent in Hrun4. inv_ok.
    apply run_insert_Ok in Hrun3 as (tb & r5 & Htb & Hr & Hid & ->).
    set (body := with_code _ t _ _) in *.
    assert (Hb : ∀ k, k ∈ keys body → k ∈ getColumnWhitelist t).
    { intros k [Hk|Hk]%keys_with_code; [|by apply code_column_whitelisted].
      rewrite keys_sanitizeBody in Hk. by apply Hw. }
    assert (Hnull : cell "id" body = JNull).
    { apply cell_absent. intros Hin. by apply (id_not_whitelisted t), Hb. }
    rewrite Hnull in Hr. cbn [is_null] in Hr.
    exists tb, r5. split_and!; [done|by rewrite Hr, cell_set_eq| | | |].
    + intros k Hk. rewrite Hr in Hk. apply elem_of_keys_set in Hk as [->|Hk]; [by left|right; by apply Hb].
    + intros k Hid' Hcode. rewrite Hr, cell_set_ne by done. unfold body. rewrite cell_with_code by done.
      apply cell_sanitizeBody.
    + intros k Hk. assert (Hki : k ≠ "id").
      { intros ->. by apply (id_not_whitelisted t), code_column_whitelisted. }
      rewrite Hr, cell_set_ne by done. unfold body. rewrite (cell_of_code _ _ _ _ _ Hk), cell_sanitizeBody. done.
    + done.
  - exact (atomic_ensure _ _ _ (atomic_transaction _) _ _ _ H).
Qed.


(** An update writes the values of the request and the time into the rows with
    the id, touches no column beyond the write schema, and announces itself; one
    that fails changes nothing. *)
Theorem update_spec su t id data s :
  match update su t id data s with
  | (Throw _, s') => s' = s
  | (Ok answer, s') =>
      (∀ k, k ∈ keys data → k ∈ getColumnWhitelist t) ∧
      ∃ tb f, map_get t s.(rs_db) = Some tb ∧ (∃ r, r ∈ tb.(tb_rows) ∧ has_id id r = true) ∧
        (∀ r k, k ∉ keys data → k ≠ "updated_at" → cell k (f r) = cell k r) ∧
        s' = {| rs_db := map_set t (set_rows (update_where (has_id id) f tb.(tb_rows)) tb) s.(rs_db);
                rs_events := s.(rs_events) ++ [(t +:+ ".updated", JObj answer)]; rs_audit := s.(rs_audit);
                rs_trail_up := s.(rs_trail_up) |}
  end.
Proof.
  destruct (update su t id data s) as [[answer|e] s'] eqn:H.
  - unfold update in H. inv_ok. pose proof (proj1 (checkWhitelist_ok _ _) Hguard) as Hw. split; [done|].
    unfold enqueueEvent in *. inv_ok.
    match goal with H : run_update _ _ _ _ _ = _ |- _ => apply run_update_Ok in H as (tb & Htb & Hf & ->) end.
    exists tb, (set_columns (sanitizeBody data ++ [("updated_at", su.(su_now))])). split_and!; [done| | |done].
    + symmetry in Hf. apply existsb_exists in Hf as (r & Hin & Hr). exists r. by rewrite list_elem_of_In.
    + intros r k Hk Hu. apply cell_set_columns_ne. rewrite keys_app, keys_sanitizeBody. set_solver.
  - exact (atomic_ensure _ _ _ (atomic_transaction _) _ _ _ H).
Qed.

(** ** Deletion *)

Lemma mark_deleted_id now id r : has_id id (set_columns [("deleted_at", now)] r) = has_id id r.
Proof. unfold has_id. by rewrite cell_set_columns_ne by (cbn; set_solver). Qed.

Lemma mark_deleted_live now r : is_null now = false → is_live (set_columns [("deleted_at", now)] r) = false.
Proof. intros H. unfold is_live. cbn [set_columns foldl fst snd]. by rewrite cell_set_eq. Qed.

Lemma none_live_after_delete now id rows :
  is_null now = false →
  let p r := has_id id r && is_live r in
  select p (update_where p (set_columns [("deleted_at", now)]) rows) = [].
Proof.
  intros Hnow p. apply select_nil. intros r (r0 & Hr0 & ->)%elem_of_update_where.
  destruct (p r0) eqn:Hp; [|exact Hp]. unfold p. by rewrite mark_deleted_live, andb_false_r.
Qed.

Lemma delete_record_Ok su t id s b s' :
  delete_record su t id s = (Ok b, s') → hasSoftDelete t = true →
  let p r := has_id id r && is_live r in
  validateIdentifier t = true ∧ ∃ tb, map_get t s.(rs_db) = Some tb ∧
    ("id" ∈ tb.(tb_columns) ∧ "deleted_at" ∈ tb.(tb_columns)) ∧ existsb p tb.(tb_rows) = true ∧
    s' = {| rs_db := map_set t (set_rows (update_where p (set_columns [("deleted_at", su.(su_now))]) tb.(tb_rows)) tb) s.(rs_db);
            rs_events := s.(rs_events) ++ [(t +:+ ".deleted", JObj [("id", id)])]; rs_audit := s.(rs_audit);
                rs_trail_up := s.(rs_trail_up) |}.
Proof.
  intros H Hsoft p. unfold delete_record in H. rewrite Hsoft in H. inv_ok. unfold enqueueEvent in *. inv_ok.
  split; [done|].
  match goal with H : run_update _ _ _ _ _ = _ |- _ => pose proof H as Hc; apply run_update_Ok in H as (tb & Htb & Hf & ->) end.
  unfold run_update, sql_update in Hc. rewrite Htb in Hc. destruct (forallb _ _) eqn:Hcols; [|done].
  rewrite forallb_forall in Hcols.
  assert (Hin : ∀ c, In c ["deleted_at"; "id"; "deleted_at"] → c ∈ tb.(tb_columns))
    by (intros c Hc'; apply (bool_decide_eq_true _), Hcols, Hc').
  exists tb. split_and!; try done; apply Hin; cbn; auto.
Qed.

Lemma findById_run t id incl s tb :
  validateIdentifier t = true → map_get t s.(rs_db) = Some tb → "id" ∈ tb.(tb_columns) →
  "deleted_at" ∈ tb.(tb_columns) →
  findById t id incl s =
  (match select (λ r, has_id id r && (incl || is_live r)) tb.(tb_rows) with
   | item :: _ => Ok item | [] => Throw (not_found t) end, s).
Proof.
  intros Hv Htb Hid Hdel. unfold findById, mbind, action_bind, ensure. rewrite Hv.
  unfold mret, action_ret, run_select, sql_select. rewrite Htb.
  destruct (forallb _ _) eqn:Hc; [by destruct (select _ _)|].
  exfalso. rewrite <- not_true_iff_false in Hc. apply Hc, forallb_forall. intros c Hin.
  destruct incl; cbn in Hin; destruct Hin as [<-|Hin]; try done; try (by rewrite bool_decide_eq_true_2).
  destruct Hin as [<-|[]]. by rewrite bool_decide_eq_true_2.
Qed.

(** A soft delete hides the record and keeps it: reading it and deleting it again
    are answered with not found, and the row is still found when deleted rows
    are included, with every other column as it was. *)
Theorem soft_delete_spec su su' t id s b s'
  (Hsoft : hasSoftDelete t = true) (Hnow : is_null su.(su_now) = false)
  (Hrun : delete_record su t id s = (Ok b, s')) :
  findById t id false s' = (Throw (not_found t), s') ∧
  delete_record su' t id s' = (Throw (not_found t), s') ∧
  (∃ r, findById t id true s' = (Ok r, s')) ∧
  length (rows_of s'.(rs_db) t) = length (rows_of s.(rs_db) t) ∧
  ∀ r', r' ∈ rows_of s'.(rs_db) t → ∃ r, r ∈ rows_of s.(rs_db) t ∧ ∀ c, c ≠ "deleted_at" → cell c r' = cell c r.
Proof.
  destruct (delete_record_Ok su t id s b s' Hrun Hsoft) as (Hv & tb & Htb & (Hid & Hdel) & Hex & ->).
  set (p := λ r, has_id id r && is_live r) in *. set (mark := set_columns _) in *.
  assert (Htb' : map_get t (map_set t (set_rows (update_where p mark tb.(tb_rows)) tb) s.(rs_db))
                 = Some (set_rows (update_where p mark tb.(tb_rows)) tb)) by apply map_get_set_eq.
  assert (Hnone : select p (update_where p mark tb.(tb_rows)) = []) by by apply none_live_after_delete.
  split_and!.
  - erewrite findById_run by (try exact Htb'; done). cbn [orb set_rows tb_rows]. fold p. by rewrite Hnone.
  - unfold delete_record. rewrite Hsoft. unfold ensure, transaction. rewrite Hv.
    unfold mbind, action_bind, mret, action_ret, run_update, sql_update. cbn [rs_db]. rewrite Htb'.
    destruct (forallb _ _) eqn:Hc.
    + cbn [set_rows tb_rows]. fold p.
      destruct (existsb p (update_where p mark tb.(tb_rows))) eqn:He; [|done].
      apply existsb_exists in He as (r & Hin & Hp). apply list_elem_of_In in Hin.
      rewrite select_nil in Hnone. by rewrite (Hnone r Hin) in Hp.
    + exfalso. rewrite <- not_true_iff_false in Hc. apply Hc, forallb_forall. intros c Hin.
      cbn in Hin. apply bool_decide_eq_true_2. destruct Hin as [<-|[<-|[<-|[]]]]; done.
  - apply existsb_exists in Hex as (r & Hin & Hp). apply list_elem_of_In in Hin.
    erewrite findById_run by (try exact Htb'; done). cbn [orb set_rows tb_rows].
    match goal with |- context [match ?sel with [] => _ | _ => _ end] => destruct sel as [|r0 l] eqn:Hs end; [|by exists r0]. exfalso. rewrite select_nil in Hs.
    specialize (Hs (mark r)). cbv beta in Hs. rewrite ?orb_true_l, andb_true_r in Hs. rewrite (mark_deleted_id su.(su_now) id r : has_id id (mark r) = _) in Hs.
    apply andb_true_iff in Hp as [Hp Hl]. rewrite Hs in Hp; [done|]. apply elem_of_update_where.
    exists r. split; [done|]. unfold p. by rewrite Hp, Hl.
  - unfold rows_of. cbn [rs_db]. rewrite Htb', Htb. cbn [from_option set_rows tb_rows]. apply length_update_where.
  - intros r'. unfold rows_of. cbn [rs_db]. rewrite Htb', Htb. cbn [from_option set_rows tb_rows].
    intros (r & Hr & ->)%elem_of_update_where. exists r. split; [done|]. intros c Hc. destruct (p r); [|done].
    apply cell_set_columns_ne. cbn. set_solver.
Qed.

(** ** Listing *)

(** What a caller asks of a listed row. *)
Definition asked_for (t : string) (filters : row) (includeDeleted : bool) (r : row) : Prop :=
  (includeDeleted = false → is_live r = true) ∧
  (∀ k v, (k, v) ∈ filters → k ≠ "search" → sql_eq (cell k r) v = true) ∧
  (∀ term, map_get "search" filters = Some (JStr term) → trim term ≠ "" → getSearchColumns t ≠ [] →
     ∃ c, c ∈ getSearchColumns t ∧ sql_like (cell c r) ("%" +:+ trim term +:+ "%") = true).

Lemma zip_same {A B} (l : list A) (b : B) m : m ∈ zip l (map (λ _, b) l) → m.1 ∈ l ∧ m.2 = b.
Proof.
  induction l as [|a l IH]; cbn; [set_solver|]. intros [->|H]%elem_of_cons; [cbn; set_solver|].
  apply IH in H. set_solver.
Qed.

Lemma where_conditions_sound t filters incl c r :
  where_conditions t filters incl = Ok c → c.(co_test) r = true → asked_for t filters incl r.
Proof.
  unfold where_conditions. destruct (forallb _ _); [|done]. intros [= <-]. cbn [co_test].
  intros [[Hw Hd]%andb_true_iff Hs]%andb_true_iff. split_and!.
  - intros ->. exact Hd.
  - intros k v Hin Hk. rewrite forallb_forall in Hw. apply (Hw (k, v)). apply filter_In.
    split; [by apply list_elem_of_In|]. by rewrite bool_decide_eq_false_2.
  - intros term Hterm Ht Hcols. rewrite Hterm in Hs. unfold buildSearchClause in Hs.
    rewrite (bool_decide_eq_false_2 _ Ht), (bool_decide_eq_false_2 _ Hcols) in Hs. cbn [orb from_option] in Hs.
    apply existsb_exists in Hs as (m & Hin%list_elem_of_In & Hm). cbn [sc_columns sc_params] in Hin.
    apply zip_same in Hin as [Hc Hv]. exists m.1. by rewrite <- Hv.
Qed.

Lemma keysetPaginate_sound {cell'} (rc : row → string → option cell') js rd lt t cur ps sd extra table p :
  keysetPaginate rc js rd lt t cur ps sd extra table = Ok p →
  ∀ r, r ∈ k_data p → r ∈ table ∧ extra r = true.
Proof.
  unfold keysetPaginate. destruct (getKeysetOrderKey t) as [key|]; [|done].
  destruct (buildKeysetClause _ _ _) as [clause|]; [|done].
  destruct (position_test _ _ _ clause) as [test|]; [|done]. cbv zeta.
  set (n := size_of _). set (rows := take _ _). intros Hp r Hr.
  assert (Hin : r ∈ rows).
  { unfold processKeysetResults in Hp. cbv zeta in Hp.
    destruct (n <? length rows)%nat; [|injection Hp as <-; exact Hr].
    assert (Hd : k_data p = take n rows).
    { destruct (last _); [|by injection Hp as <-]. destruct (encodeKeysetCursor _ _ _ _); [|done]. by injection Hp as <-. }
    rewrite Hd in Hr. by apply elem_of_take in Hr as (i & Hi & _); apply list_elem_of_lookup_2 in Hi. }
  apply elem_of_take in Hin as (i & Hi & _). apply list_elem_of_lookup_2 in Hi.
  unfold sql_order in Hi. apply elem_of_order_by, elem_of_select in Hi as [Ht He].
  split; [done|]. by apply andb_true_iff in He as [He _].
Qed.

Lemma sql_select_Ok db t cols p rows : sql_select db t cols p = Ok rows → rows = select p (rows_of db t).
Proof.
  unfold sql_select, rows_of. destruct (map_get t db); [|done]. destruct (forallb _ _); [|done]. by intros [= <-].
Qed.

Lemma elem_of_page {A} size page (rows : list A) r : r ∈ page_rows size page rows → r ∈ rows.
Proof.
  unfold page_rows, limit_offset. intros (i & Hi & _)%elem_of_take. rewrite lookup_drop in Hi.
  by apply list_elem_of_lookup_2 in Hi.
Qed.

(** A listing answers with stored rows that are not deleted (unless they are
    asked for), equal the filters and match the search; outside the keyset
    tables its total is the number of all of them and its rows fill one page. *)
Theorem findAll_sound (js_String : json -> string) (read_as : string -> string -> option json)
  (cell_ltb : json -> json -> bool) now db t o cache f cache'
  (Hrun : findAll js_String read_as cell_ltb now db t o cache = (Ok f, cache')) :
  (∀ r, r ∈ f.(fa_data) → ∃ r0, r0 ∈ rows_of db t ∧ r = project (safe_select o.(fo_select)) r0 ∧
     asked_for t o.(fo_where) o.(fo_includeDeleted) r0) ∧
  (isKeysetTable t = false → ∃ c, where_conditions t o.(fo_where) o.(fo_includeDeleted) = Ok c ∧
     total f.(fa_pagination) = Z.of_nat (length (select c.(co_test) (rows_of db t))) ∧
     (length f.(fa_data) ≤ Z.to_nat (default DEFAULT_PAGE_SIZE o.(fo_pageSize)))%nat).
Proof.
  unfold findAll in Hrun. destruct (negb _); [done|].
  destruct (where_conditions _ _ _) as [c|] eqn:Hc; [|done].
  destruct (isKeysetTable t) eqn:Hk; (split; [|intros Hk'; try discriminate Hk']).
  - destruct (keyset_rows _ _ _ _ _ _ _) as [p|] eqn:Hp; [|done]. inv_ok. cbn [fa_data].
    unfold keyset_rows in Hp. destruct (buildKeysetClause _ _ _); [|done].
    destruct (sql_select _ _ _ _) as [rows|] eqn:Hs; [|done]. apply sql_select_Ok in Hs.
    destruct (keysetPaginate _ _ _ _ _ _ _ _ _ _) as [q|] eqn:Hq; [|done].
    destruct (cursor_selected _ _ _); [|done]. injection Hp as <-. cbn [k_data].
    intros x (r0 & -> & Hr0)%list_elem_of_fmap. exists r0.
    destruct (keysetPaginate_sound _ _ _ _ _ _ _ _ _ _ _ Hq r0 Hr0) as [Hin Ht].
    rewrite Hs in Hin. apply elem_of_select in Hin as [Hin _]. split_and!; [done|done|].
    by apply (where_conditions_sound _ _ _ c).
  - destruct (order_parts _) as [[oc d]|]; [|done]. destruct (count_rows _ _ _); [|done].
    destruct (sql_select _ _ _ _) as [rows|] eqn:Hs; [|done]. apply sql_select_Ok in Hs.
    injection Hrun as <- _. cbn [fa_data]. intros r (r0 & -> & Hr0)%list_elem_of_fmap. exists r0.
    apply elem_of_page in Hr0. unfold sql_order in Hr0. apply elem_of_order_by in Hr0. rewrite Hs in Hr0.
    apply elem_of_select in Hr0 as [Hin Ht]. split_and!; [done|done|]. by apply (where_conditions_sound _ _ _ c).
  - exists c. split; [done|]. destruct (order_parts _) as [[oc d]|]; [|done].
    destruct (count_rows db t c) as [n|] eqn:Hn; [|done].
    destruct (sql_select _ _ (_ ++ _) _) as [rows|] eqn:Hs; [|done].
    injection Hrun as <- _. cbn [fa_data fa_pagination computePaginationMeta total].
    unfold count_rows in Hn. destruct (sql_select db t (co_columns c) _) as [rs|] eqn:Hrs; [|done].
    apply sql_select_Ok in Hrs. injection Hn as <-. rewrite Hrs. split; [done|].
    rewrite length_map. unfold page_rows, limit_offset. rewrite length_take. lia.
Qed.

(** ** A small database *)

Module Registers.
Definition plan (id title status : string) (deleted : json) : row :=
  [("id", JStr id); ("title", JStr title); ("status", JStr status); ("deleted_at", deleted)].
Definition db : database :=
  [("audit_plans", {| tb_columns := ["id"; "title"; "plan_code"; "department"; "lead_auditor"; "status"; "updated_at"; "deleted_at"];
      tb_rows := [plan "1" "Cash audit" "Draft" JNull; plan "2" "Loans" "Draft" (JStr "2024"); plan "3" "Cash desk" "Final" JNull] |})].
Definition state : rec_state := {| rs_db := db; rs_events := []; rs_audit := []; rs_trail_up := true |}.
Definition env : surroundings :=
  {| su_id := JStr "9"; su_now := JStr "2025"; su_clock := {| cc_year := 2025; cc_now := 1750000012345 |} |}.
Definition text_lt (a b : json) : bool := lex N.ltb (text_key a) (text_key b).
Definition search (term : string) : find_options := {|
  fo_page := 1; fo_pageSize := Some 10; fo_orderBy := "title asc"; fo_where := [("search", JStr term)];
  fo_select := Some ["id"; "drop table"]; fo_includeDeleted := false; fo_cursor := None; fo_sortDirection := None |}.

Example search_finds :
  from_option fa_data [] (match (findAll value_text (λ _ s, Some (JStr s)) text_lt 0 db "audit_plans" (search " Cash ") []).1 with
                          | Ok f => Some f | Throw _ => None end)
  = [[("id", JStr "1")]; [("id", JStr "3")]].
Proof. vm_compute. reflexivity. Qed.
End Registers.

Lemma findAll_sound_witness :
  ∃ f cache', findAll value_text (λ _ s, Some (JStr s)) Registers.text_lt 0 Registers.db "audit_plans"
                (Registers.search " Cash ") [] = (Ok f, cache') ∧
    (∀ r, r ∈ f.(fa_data) → ∃ r0, r0 ∈ rows_of Registers.db "audit_plans" ∧
       r = project (safe_select (Some ["id"; "drop table"])) r0 ∧
       asked_for "audit_plans" [("search", JStr " Cash ")] false r0).
Proof.
  eexists _, _. split; [vm_compute; reflexivity|].
  exact (proj1 (findAll_sound value_text (λ _ s, Some (JStr s)) Registers.text_lt 0 Registers.db "audit_plans"
    (Registers.search " Cash ") [] _ _ eq_refl)).
Defined.

Lemma soft_delete_spec_witness :
  ∃ s', delete_record Registers.env "audit_plans" (JStr "1") Registers.state = (Ok true, s') ∧
    findById "audit_plans" (JStr "1") false s' = (Throw (not_found "audit_plans"), s').
Proof.
  eexists. split; [reflexivity|].
  exact (proj1 (soft_delete_spec Registers.env Registers.env "audit_plans" (JStr "1") Registers.state true _
    eq_refl eq_refl eq_refl)).
Defined.
