(* ===== verification/SoftDelete.v ===== *)
(** * Soft deletion, restoration and permanent deletion

    [src/src/services/SoftDeleteService.ts] over the tables of [Records]. *)

From S2P Require Import Prelude JsMap JsStrings Json OrderBy Pagination Cursors Records AppCodes GenericRecords.
Local Open Scope Z_scope.

Record cascade_table := { ct_table : string; ct_foreignKey : string }.

Definition not_eligible : app_error := NotFoundError "Record not found or not eligible for this operation".

(** The columns a deletion writes. *)
Definition deletion (now deletedBy : json) : row := [("deleted_at", now); ("deleted_by", deletedBy)].

Definition cascade_delete (now deletedBy id : json) (rel : cascade_table) : rec_action unit :=
  _ ← ensure (validateIdentifier rel.(ct_table)) identifier_error;
  _ ← ensure (validateIdentifier rel.(ct_foreignKey)) identifier_error;
  _ ← run_update rel.(ct_table) [rel.(ct_foreignKey); "deleted_at"]
        (λ r, sql_eq (cell rel.(ct_foreignKey) r) id && is_live r) (deletion now deletedBy);
  mret tt.

Definition softDelete (now : json) (tableName : string) (id : json) (deletedBy : string) (cascade : list cascade_table)
    : rec_action unit :=
  _ ← ensure (validateIdentifier tableName) identifier_error;
  transaction rec_rollback
    (result ← run_update tableName ["id"; "deleted_at"] (λ r, has_id id r && is_live r) (deletion now (JStr deletedBy));
     _ ← ensure result not_eligible;
     _ ← for_each (cascade_delete now (JStr deletedBy) id) cascade;
     logAudit (deletedBy, "Soft Delete", tableName, "Soft deleted record ID: " +:+ value_text id)).

Definition restore (tableName : string) (id : json) (restoredBy : string) : rec_action unit :=
  _ ← ensure (validateIdentifier tableName) identifier_error;
  result ← run_update tableName ["id"; "deleted_at"] (λ r, has_id id r && negb (is_live r)) (deletion JNull JNull);
  _ ← ensure result not_eligible;
  logAudit (restoredBy, "Restore", tableName, "Restored record ID: " +:+ value_text id).

Definition permanentDelete (tableName : string) (id : json) (deletedBy : string) (isAdmin : bool) : rec_action unit :=
  _ ← ensure isAdmin (ForbiddenError "Forbidden");
  _ ← ensure (validateIdentifier tableName) identifier_error;
  existing ← run_select tableName ["id"] (has_id id);
  _ ← ensure (negb (bool_decide (length existing = 0%nat))) not_eligible;
  _ ← run_delete tableName ["id"] (has_id id);
  logAudit (deletedBy, "Permanent Delete", tableName, "Permanently deleted record ID: " +:+ value_text id).

(** The page of deleted rows, the latest deletion first. *)
Definition getDeleted (cell_ltb : json → json → bool) (tableName : string) (page pageSize : Z) (db : database)
    : outcome app_error (list row * PaginationMeta) :=
  if validateIdentifier tableName then
    match sql_select db tableName ["deleted_at"] (λ r, negb (is_live r)) with
    | Throw e => Throw e
    | Ok rows => Ok (page_rows pageSize page (sql_order row_cell cell_ltb ["deleted_at"] DESC rows),
                     computePaginationMeta page pageSize (Z.of_nat (length rows)))
    end
  else Throw identifier_error.

(** ** What the operations do to a table *)

(** [t] after its rows with [p] were marked as deleted by [by_] at [now] *)
Definition marked (now by_ : json) (p : row → bool) (t : string) (db : database) : list row :=
  update_where p (set_columns (deletion now by_)) (rows_of db t).

Lemma cell_deletion_ne c now by_ r : c ≠ "deleted_at" → c ≠ "deleted_by" → cell c (set_columns (deletion now by_) r) = cell c r.
Proof. intros. apply cell_set_columns_ne. cbn. set_solver. Qed.

Lemma cell_deletion_at now by_ r : cell "deleted_at" (set_columns (deletion now by_) r) = now.
Proof. cbn [set_columns deletion foldl fst snd]. rewrite cell_set_ne by done. apply cell_set_eq. Qed.

Lemma deletion_id now by_ id r : has_id id (set_columns (deletion now by_) r) = has_id id r.
Proof. unfold has_id. by rewrite cell_deletion_ne. Qed.

Lemma deletion_live now by_ r : is_live (set_columns (deletion now by_) r) = is_null now.
Proof. unfold is_live. by rewrite cell_deletion_at. Qed.

(** A cascade marks, in each of its tables, the live rows that refer to the record. *)
Definition cascade_mark (now by_ id : json) (rel : cascade_table) (db : string → list row) (t : string) : list row :=
  if bool_decide (t = rel.(ct_table)) then
    update_where (λ r, sql_eq (cell rel.(ct_foreignKey) r) id && is_live r) (set_columns (deletion now by_)) (db t)
  else db t.

Lemma cascade_delete_rows now by_ id rel s u s' :
  cascade_delete now by_ id rel s = (Ok u, s') →
  s'.(rs_events) = s.(rs_events) ∧ s'.(rs_audit) = s.(rs_audit) ∧
  ∀ t, rows_of s'.(rs_db) t = cascade_mark now by_ id rel (rows_of s.(rs_db)) t.
Proof.
  intros H. unfold cascade_delete in H. inv_ok.
  match goal with H : run_update _ _ _ _ _ = _ |- _ => apply run_update_rows in H as (_ & He & Ha & Hr) end.
  split_and!; [done..|]. intros t. rewrite Hr. unfold cascade_mark. by case_bool_decide; subst.
Qed.

Lemma cascade_mark_ext now by_ id rel f g :
  (∀ t, f t = g t) → ∀ t, cascade_mark now by_ id rel f t = cascade_mark now by_ id rel g t.
Proof. intros H t. unfold cascade_mark. by rewrite H. Qed.

Lemma cascade_fold_ext now by_ id rels : ∀ f g, (∀ t, f t = g t) →
  ∀ t, foldl (λ f rel, cascade_mark now by_ id rel f) f rels t = foldl (λ f rel, cascade_mark now by_ id rel f) g rels t.
Proof.
  induction rels as [|rel rels IH]; intros f g H t; [apply H|]. cbn. apply IH. by apply cascade_mark_ext.
Qed.

Lemma cascade_rows now by_ id rels : ∀ s u s',
  for_each (cascade_delete now by_ id) rels s = (Ok u, s') →
  s'.(rs_events) = s.(rs_events) ∧ s'.(rs_audit) = s.(rs_audit) ∧
  ∀ t, rows_of s'.(rs_db) t = foldl (λ f rel, cascade_mark now by_ id rel f) (rows_of s.(rs_db)) rels t.
Proof.
  induction rels as [|rel rels IH]; intros s u s' H; cbn [for_each] in H; inv_ok; [done|].
  match goal with H : cascade_delete _ _ _ _ _ = _ |- _ => apply cascade_delete_rows in H as (He & Ha & Hr) end.
  apply IH in H as (He' & Ha' & Hr'). split_and!; [congruence..|]. intros t. rewrite Hr'. cbn [foldl].
  by apply cascade_fold_ext.
Qed.

Lemma softDelete_rows now t id deletedBy cascade s :
  match softDelete now t id deletedBy cascade s with
  | (Throw _, s') => s' = s
  | (Ok _, s') =>
      existsb (λ r, has_id id r && is_live r) (rows_of s.(rs_db) t) = true ∧
      (∀ t', rows_of s'.(rs_db) t' =
         foldl (λ f rel, cascade_mark now (JStr deletedBy) id rel f)
           (λ t', if bool_decide (t' = t)
                  then marked now (JStr deletedBy) (λ r, has_id id r && is_live r) t s.(rs_db)
                  else rows_of s.(rs_db) t') cascade t') ∧
      s'.(rs_events) = s.(rs_events) ∧
      s'.(rs_audit) = s.(rs_audit) ++ [(deletedBy, "Soft Delete", t, "Soft deleted record ID: " +:+ value_text id)]
  end.
Proof.
  destruct (softDelete _ _ _ _ _ s) as [[u|e] s'] eqn:H.
  - unfold softDelete, logAudit in H. inv_ok.
    match goal with H : run_update _ _ _ _ _ = _ |- _ => apply run_update_rows in H as (Hf & He & Ha & Hr) end.
    match goal with H : for_each _ _ _ = _ |- _ => apply cascade_rows in H as (He' & Ha' & Hr') end.
    cbn [rs_db rs_events rs_audit]. split_and!; [by rewrite <- Hf| |congruence|by rewrite Ha', Ha].
    intros t'. rewrite Hr'. apply cascade_fold_ext. exact Hr.
  - exact (atomic_ensure _ _ _ (atomic_transaction _) _ _ _ H).
Qed.

(** A soft deletion marks the record and, table by table, the live rows of the
    cascade that refer to it, all with the same time, and is audited; when the
    record is missing or deleted, or any step of the cascade fails, nothing
    changes. *)
Theorem softDelete_spec now t id deletedBy cascade s :
  match softDelete now t id deletedBy cascade s with
  | (Throw _, s') => s' = s
  | (Ok _, s') =>
      existsb (λ r, has_id id r && is_live r) (rows_of s.(rs_db) t) = true ∧
      (∀ t', rows_of s'.(rs_db) t' =
         foldl (λ f rel, cascade_mark now (JStr deletedBy) id rel f)
           (λ t', if bool_decide (t' = t)
                  then marked now (JStr deletedBy) (λ r, has_id id r && is_live r) t s.(rs_db)
                  else rows_of s.(rs_db) t') cascade t') ∧
      s'.(rs_events) = s.(rs_events) ∧
      s'.(rs_audit) = s.(rs_audit) ++ [(deletedBy, "Soft Delete", t, "Soft deleted record ID: " +:+ value_text id)]
  end.
Proof. apply softDelete_rows. Qed.

Lemma restore_rows t id by_ s u s' :
  restore t id by_ s = (Ok u, s') →
  rows_of s'.(rs_db) t = update_where (λ r, has_id id r && negb (is_live r)) (set_columns (deletion JNull JNull)) (rows_of s.(rs_db) t) ∧
  ∀ t', t' ≠ t → rows_of s'.(rs_db) t' = rows_of s.(rs_db) t'.
Proof.
  intros H. unfold restore, logAudit in H. inv_ok.
  match goal with H : run_update _ _ _ _ _ = _ |- _ => apply run_update_rows in H as (_ & _ & _ & Hr) end.
  cbn [rs_db]. split; [rewrite Hr; by rewrite bool_decide_eq_true_2|].
  intros t' Ht. rewrite Hr. by rewrite bool_decide_eq_false_2.
Qed.

Lemma cascade_elsewhere now by_ id rels t : ∀ f,
  t ∉ map ct_table rels → foldl (λ f rel, cascade_mark now by_ id rel f) f rels t = f t.
Proof.
  induction rels as [|rel rels IH]; intros f Ht; [done|]. cbn in Ht |- *.
  rewrite IH by set_solver. unfold cascade_mark. rewrite bool_decide_eq_false_2; [done|set_solver].
Qed.

Lemma is_null_eq v : is_null v = true → v = JNull.
Proof. by destruct v. Qed.

(** Restoring a record after its deletion gives every column of its table back
    as it was, the deletion time included; only [deleted_by] is emptied. *)
Theorem restore_undoes_deletion now t id deletedBy cascade by_ s s1 s2 u1 u2
  (Hnow : is_null now = false) (Hcascade : t ∉ map ct_table cascade)
  (Hfresh : ∀ r, r ∈ rows_of s.(rs_db) t -> has_id id r = true -> is_live r = true)
  (Hdelete : softDelete now t id deletedBy cascade s = (Ok u1, s1))
  (Hrestore : restore t id by_ s1 = (Ok u2, s2)) :
  ∀ c, c ≠ "deleted_by" → map (cell c) (rows_of s2.(rs_db) t) = map (cell c) (rows_of s.(rs_db) t).
Proof.
  intros c Hc. apply restore_rows in Hrestore as [-> _].
  pose proof (softDelete_rows now t id deletedBy cascade s) as Hsd. rewrite Hdelete in Hsd.
  destruct Hsd as (_ & Hr & _). rewrite Hr, cascade_elsewhere by done. rewrite bool_decide_eq_true_2 by done.
  unfold marked, update_where. rewrite !map_map. apply map_ext_in. intros r Hin%list_elem_of_In.
  destruct (has_id id r) eqn:Hid; cbn [andb].
  - rewrite (Hfresh r Hin Hid). cbv beta iota. rewrite deletion_id, deletion_live, Hid, Hnow. cbn [andb negb].
    destruct (decide (c = "deleted_at")) as [->|Hd].
    + rewrite cell_deletion_at. symmetry. by apply is_null_eq, (Hfresh r Hin).
    + by rewrite !cell_deletion_ne.
  - by rewrite Hid.
Qed.

(** Only an administrator deletes permanently, and then every row with the id is
    gone from the table and nothing else; a refused request changes nothing, and so does one
    that fails, unless it is the audit entry of the finished deletion that fails. *)
Theorem permanentDelete_spec t id deletedBy isAdmin s :
  match permanentDelete t id deletedBy isAdmin s with
  | (Throw e, s') => (s' = s ∨ e = audit_error ∧ s.(rs_trail_up) = false) ∧
      (isAdmin = false → s' = s ∧ e = ForbiddenError "Forbidden")
  | (Ok _, s') =>
      isAdmin = true ∧ existsb (has_id id) (rows_of s.(rs_db) t) = true ∧
      rows_of s'.(rs_db) t = delete_where (has_id id) (rows_of s.(rs_db) t) ∧
      (∀ t', t' ≠ t → rows_of s'.(rs_db) t' = rows_of s.(rs_db) t') ∧ s'.(rs_events) = s.(rs_events)
  end.
Proof.
  destruct (permanentDelete t id deletedBy isAdmin s) as [[u|e] s'] eqn:H.
  - unfold permanentDelete, logAudit in H. inv_ok.
    match goal with H : run_select _ _ _ _ = _ |- _ => apply run_select_Ok in H as (-> & -> & _) end.
    match goal with H : run_delete _ _ _ _ = _ |- _ => apply run_delete_Ok in H as (tb & Htb & ->) end.
    cbn [rs_db rs_events with_db]. rewrite rows_of_set. rewrite (rows_of_Some _ _ _ Htb) in *. split_and!; try done.
    + apply existsb_exists. destruct (select (has_id id) tb.(tb_rows)) as [|r l] eqn:Hs; [done|].
      assert (Hr : r ∈ select (has_id id) tb.(tb_rows)) by (rewrite Hs; set_solver).
      apply elem_of_select in Hr as [Hin Hp]. exists r. by rewrite <- list_elem_of_In.
    + intros t' Ht. by apply rows_of_set_ne.
  - unfold permanentDelete in H. destruct isAdmin; [|injection H as <- <-; auto].
    split; [|done]. apply bind_Throw in H as [H|(? & ? & H1 & H)]; [discriminate|]. inv_ok.
    apply bind_Throw in H as [H|(? & ? & H1 & H)]; [left; destruct (validateIdentifier t); by injection H|].
    inv_ok. apply bind_Throw in H as [H|(rows & ? & H1 & H)]; [left; by injection H|].
    injection H1 as _ <-. apply bind_Throw in H as [H|(? & ? & H1 & H)]; [left; case_bool_decide; by injection H|].
    inv_ok. apply bind_Throw in H as [H|(? & s1 & H1 & H)].
    + left. unfold run_delete in H. destruct (sql_delete _ _ _ _); by injection H.
    + right. apply logAudit_Throw in H as (-> & -> & Hup). split; [done|].
      unfold run_delete in H1. destruct (sql_delete _ _ _ _); [|done]. by injection H1 as _ <-.
Qed.

(** ** A finding and its recommendations *)

Module Findings.
Definition columns : list string := ["id"; "finding_id"; "title"; "deleted_at"; "deleted_by"].
Definition finding : row := [("id", JStr "f1"); ("title", JStr "Cash")].
Definition recommendation : row := [("id", JStr "r1"); ("finding_id", JStr "f1")].
Definition state : rec_state := {|
  rs_db := [("audit_findings", {| tb_columns := columns; tb_rows := [finding] |});
            ("recommendations", {| tb_columns := columns; tb_rows := [recommendation] |})];
  rs_events := []; rs_audit := []; rs_trail_up := true |}.
Definition cascade : list cascade_table := [{| ct_table := "recommendations"; ct_foreignKey := "finding_id" |}].
Definition deleted : rec_state := (softDelete (JStr "2025") "audit_findings" (JStr "f1") "u1" cascade state).2.
Definition restored : rec_state := (restore "audit_findings" (JStr "f1") "u1" deleted).2.

(** Restoring does not follow the cascade: the recommendations that were deleted
    with the finding stay deleted. *)
Theorem restore_leaves_cascade :
  map is_live (rows_of deleted.(rs_db) "audit_findings") = [false] ∧
  map is_live (rows_of restored.(rs_db) "audit_findings") = [true] ∧
  map is_live (rows_of restored.(rs_db) "recommendations") = [false] ∧
  (restore "audit_findings" (JStr "f1") "u1" deleted).1 = Ok tt.
Proof. split_and!; reflexivity. Qed.
End Findings.

Lemma restore_undoes_deletion_witness :
  map (cell "deleted_at") (rows_of Findings.restored.(rs_db) "audit_findings")
  = map (cell "deleted_at") (rows_of Findings.state.(rs_db) "audit_findings").
Proof.
  refine (restore_undoes_deletion (JStr "2025") "audit_findings" (JStr "f1") "u1" Findings.cascade "u1"
    Findings.state Findings.deleted Findings.restored tt tt eq_refl _ _ eq_refl eq_refl "deleted_at" _).
  - apply (bool_decide_unpack _). reflexivity.
  - intros r Hr. change (rows_of _ _) with [Findings.finding] in Hr. apply list_elem_of_singleton in Hr. by subst r.
  - done.
Defined.
