(* ===== verification/BulkOperations.v ===== *)
(** * Bulk operations on records

    [src/src/services/BulkOperationsService.ts] and its route
    ([src/src/routes/bulk.ts]).  An item is any JSON value; the permission check
    of the route is a parameter. *)

From S2P Require Import Prelude JsMap JsStrings Json Pagination Responses Records AppCodes GenericRecords.
Local Open Scope Z_scope.

Inductive bulk_operation := op_create | op_update | op_delete.
#[export] Instance bulk_operation_eq_dec : EqDecision bulk_operation.
Proof. solve_decision. Defined.

Definition operation_name (op : bulk_operation) : string :=
  match op with op_create => "create" | op_update => "update" | op_delete => "delete" end.

Definition BULK_ALLOWED_RESOURCES : list (string * string) :=
  [("audit-plans", "audit_plans"); ("audit-tasks", "audit_tasks"); ("audit-programs", "audit_programs");
   ("audit-procedures", "audit_procedures"); ("audit-evidence", "audit_evidence"); ("risk-register", "risk_register");
   ("fraud-log", "fraud_log"); ("central-bank-instructions", "central_bank_instructions"); ("law-bank", "law_bank");
   ("audit-reports", "audit_reports"); ("audit-findings", "audit_findings"); ("recommendations", "recommendations");
   ("compliance-items", "compliance_items")].

Definition MIN_BATCH_SIZE : nat := 1.
Definition MAX_BATCH_SIZE : nat := 100.

Record BulkItemResult := { br_index : nat; br_id : json; br_success : bool }.
Record BulkItemValidationError := { bv_index : nat; bv_errors : list string }.
Record BulkOperationResponse := { bo_processed : nat; bo_success : nat; bo_failed : nat; bo_details : list BulkItemResult }.

Definition validateBatchSize {A} (items : list A) : bool :=
  negb (length items <? MIN_BATCH_SIZE)%nat && negb (MAX_BATCH_SIZE <? length items)%nat.

Definition resolveTable (resource : string) : outcome app_error string :=
  match map_get resource BULK_ALLOWED_RESOURCES with
  | Some tableName => if bool_decide (tableName = "") then Throw (ValidationError "not supported") else Ok tableName
  | None => Throw (ValidationError "Resource is not supported for bulk operations")
  end.

(** The keys of an object besides [id]. *)
Definition other_fields (o : row) : list string := List.filter (λ k, negb (bool_decide (k = "id"))) (keys o).

Definition item_errors (operation : bulk_operation) (item : json) : list string :=
  match item with
  | JObj o =>
      match operation with
      | op_create => if bool_decide (other_fields o = []) then ["Item must have at least one field for creation"] else []
      | op_update =>
          (if falsy (cell "id" o) then ["Item must have an id field for update operations"] else [])
            ++ (if bool_decide (other_fields o = []) then ["Item must have at least one field to update besides id"] else [])
      | op_delete => if falsy (cell "id" o) then ["Item must have an id field for delete operations"] else []
      end
  | _ => ["Item must be a non-null object"]
  end.

Fixpoint validate_from (i : nat) (operation : bulk_operation) (items : list json) : list BulkItemValidationError :=
  match items with
  | [] => []
  | item :: rest =>
      let errors := item_errors operation item in
      (if bool_decide (errors = []) then [] else [{| bv_index := i; bv_errors := errors |}])
        ++ validate_from (S i) operation rest
  end.
Definition validateItems (operation : bulk_operation) (items : list json) : list BulkItemValidationError :=
  validate_from 0 operation items.

(** [delete body[col]] for each of the columns *)
Definition without (columns : list string) (body : row) : row := foldl (λ b c, map_delete c b) body columns.

Definition restrictedColumns : list string := ["id"; "created_at"; "updated_at"].
Definition immutableFields : list string :=
  ["id"; "created_at"; "updated_at"; "plan_code"; "program_code"; "task_number"; "finding_number"; "rec_number";
   "risk_id"; "employee_id"].

Definition restricted : app_error := ValidationError "Restricted columns are not permitted".

(** The checks the two writes share. *)
Definition check_body (tableName : string) (body : row) : rec_action unit :=
  _ ← ensure (checkWhitelist tableName body).(wl_ok) restricted;
  _ ← ensure (forallb validateIdentifier (keys body)) identifier_error;
  _ ← ensure (negb (bool_decide (body = []))) (ValidationError "No data provided");
  ensure (validateIdentifier tableName) identifier_error.

Definition processCreate (fresh : json) (tableName : string) (data : row) : rec_action json :=
  let body := without restrictedColumns (sanitizeBody data) in
  _ ← check_body tableName body;
  run_insert tableName body fresh.

Definition processUpdate (now : json) (tableName : string) (id : json) (data : row) : rec_action unit :=
  let body := without immutableFields (sanitizeBody data) in
  _ ← check_body tableName body;
  result ← run_update tableName ["id"; "deleted_at"] (λ r, has_id id r && is_live r) (body ++ [("updated_at", now)]);
  ensure result (GenericError "Record not found or is deleted").

Definition processDelete (now : json) (tableName : string) (id : json) : rec_action unit :=
  _ ← ensure (validateIdentifier tableName) identifier_error;
  result ← run_update tableName ["id"; "deleted_at"] (λ r, has_id id r && is_live r) [("deleted_at", now)];
  ensure result (GenericError "Record not found or already deleted").

Definition item_fields (item : json) : row := match item with JObj o => o | _ => [] end.

(** One item; the result carries the id.  [fresh i] is the id the database
    generates for item [i]. *)
Definition process_item (fresh : nat → json) (now : json) (tableName : string) (operation : bulk_operation)
    (i : nat) (item : json) : rec_action BulkItemResult :=
  let o := item_fields item in
  match operation with
  | op_create => id ← processCreate (fresh i) tableName o; mret {| br_index := i; br_id := id; br_success := true |}
  | op_update => _ ← processUpdate now tableName (cell "id" o) (map_delete "id" o);
                 mret {| br_index := i; br_id := cell "id" o; br_success := true |}
  | op_delete => _ ← processDelete now tableName (cell "id" o);
                 mret {| br_index := i; br_id := cell "id" o; br_success := true |}
  end.

Fixpoint process_items (fresh : nat → json) (now : json) (tableName : string) (operation : bulk_operation)
    (i : nat) (items : list json) : rec_action (list BulkItemResult) :=
  match items with
  | [] => mret []
  | item :: rest =>
      r ← try_catch (process_item fresh now tableName operation i item)
            (λ _, throw (GenericError ("Processing failed at item index " +:+ pretty (N.of_nat i))));
      results ← process_items fresh now tableName operation (S i) rest;
      mret (r :: results)
  end.

Definition execute (fresh : nat → json) (now : json) (resource : string) (operation : bulk_operation)
    (items : list json) (username : string) : rec_action BulkOperationResponse :=
  _ ← ensure (validateBatchSize items) (ValidationError "Batch size must be between 1 and 100 items");
  match resolveTable resource with
  | Throw e => throw e
  | Ok tableName =>
      _ ← ensure (bool_decide (validateItems operation items = [])) (ValidationError "Batch validation failed");
      details ← transaction rec_rollback (process_items fresh now tableName operation 0 items);
      _ ← logAudit (username, "Bulk " +:+ operation_name operation, resource,
                    "Bulk " +:+ operation_name operation +:+ " on " +:+ tableName +:+ ": "
                      +:+ pretty (N.of_nat (length items)) +:+ " items processed");
      let successCount := length (List.filter br_success details) in
      mret {| bo_processed := length details; bo_success := successCount;
              bo_failed := length details - successCount; bo_details := details |}
  end.

(** ** The route *)

Definition BULK_RESOURCE_MODULES : list (string * string) :=
  [("audit-plans", "AuditPlans"); ("audit-tasks", "AuditTasks"); ("audit-programs", "AuditProgramLibrary");
   ("audit-procedures", "AuditTasks"); ("audit-evidence", "AuditEvidence"); ("risk-register", "RiskRegister");
   ("fraud-log", "IntegrityManagement"); ("central-bank-instructions", "ComplianceMatrix");
   ("law-bank", "ComplianceMatrix"); ("audit-reports", "Reports"); ("audit-findings", "AuditFindings");
   ("recommendations", "Recommendations"); ("compliance-items", "ComplianceMatrix")].

Definition BULK_OPERATION_ACTIONS : list (string * string) :=
  [("create", "Create"); ("update", "Edit"); ("delete", "Delete")].

Definition operation_of (s : string) : option bulk_operation :=
  if bool_decide (s = "create") then Some op_create
  else if bool_decide (s = "update") then Some op_update
  else if bool_decide (s = "delete") then Some op_delete else None.

(** Whether the request may go on; [allowed m a] is the answer of the permission
    middleware.  Unknown resources and operations are left to the handler. *)
Definition enforceBulkPermission (allowed : string → string → bool) (resource operation : string) : bool :=
  match map_get resource BULK_RESOURCE_MODULES, map_get operation BULK_OPERATION_ACTIONS with
  | Some moduleName, Some action => allowed moduleName action
  | _, _ => true
  end.

Definition bulk_route (fresh : nat → json) (now : json) (allowed : string → string → bool)
    (resource operation : string) (items : json) (username : option string) : rec_action BulkOperationResponse :=
  _ ← ensure (enforceBulkPermission allowed resource operation) (ForbiddenError "Forbidden");
  match operation_of operation with
  | None => throw (ValidationError "Invalid operation")
  | Some op =>
      match items with
      | JArr l => execute fresh now resource op l
                    (match username with Some u => if bool_decide (u = "") then "unknown" else u | None => "unknown" end)
      | _ => throw (ValidationError "Request body must contain an items array")
      end
  end.

(** ** What a run of items does *)

(** Tables other than [t], the events and the audit trail stay as they were. *)
Definition only_table (t : string) (s s' : rec_state) : Prop :=
  s'.(rs_events) = s.(rs_events) ∧ s'.(rs_audit) = s.(rs_audit) ∧
  ∀ t', t' ≠ t → rows_of s'.(rs_db) t' = rows_of s.(rs_db) t'.

Lemma only_table_trans t s1 s2 s3 : only_table t s1 s2 → only_table t s2 s3 → only_table t s1 s3.
Proof. intros (E1 & A1 & R1) (E2 & A2 & R2). split_and!; [congruence..|]. intros t' Ht. by rewrite R2, R1. Qed.

Lemma run_update_only t cols p values s found s' :
  run_update t cols p values s = (Ok found, s') → only_table t s s'.
Proof.
  intros (_ & He & Ha & Hr)%run_update_rows. split_and!; [done..|]. intros t' Ht. rewrite Hr.
  by rewrite bool_decide_eq_false_2.
Qed.

Lemma check_body_Ok t body s u s' :
  check_body t body s = (Ok u, s') → s' = s ∧ (checkWhitelist t body).(wl_ok) = true ∧ body ≠ [].
Proof. intros H. unfold check_body in H. inv_ok. bools. by split_and!. Qed.

Lemma process_item_Ok fresh now t op i item s r s' :
  process_item fresh now t op i item s = (Ok r, s') → r.(br_index) = i ∧ r.(br_success) = true ∧ only_table t s s'.
Proof.
  destruct op; unfold process_item, processCreate, processUpdate, processDelete; intros H; inv_ok;
    repeat match goal with
    | H : check_body _ _ _ = _ |- _ => apply check_body_Ok in H as (-> & _)
    | H : run_update _ _ _ _ _ = _ |- _ => apply run_update_only in H
    end; split_and!; try done.
  match goal with H : run_insert _ _ _ _ = _ |- _ => apply run_insert_rows in H as (He & Ha & r & _ & Hr) end.
  split_and!; [done..|]. intros t' Ht. rewrite Hr. by rewrite bool_decide_eq_false_2.
Qed.

Lemma try_catch_Ok {A} (m : rec_action A) e s a s' :
  try_catch m (λ _, throw e) s = (Ok a, s') → m s = (Ok a, s').
Proof. unfold try_catch. destruct (m s) as [[?|?] ?]; [done|]. intros [=]. Qed.

Lemma process_items_Ok fresh now t op items : ∀ i s results s',
  process_items fresh now t op i items s = (Ok results, s') →
  map br_index results = seq i (length items) ∧ Forall (λ r, r.(br_success) = true) results ∧ only_table t s s'.
Proof.
  induction items as [|item items IH]; intros i s results s' H; cbn [process_items] in H.
  - injection H as <- <-. by split_and!.
  - inv_ok. match goal with H : try_catch _ _ _ = _ |- _ => apply try_catch_Ok, process_item_Ok in H as (Hi & Hs & Ho) end.
    match goal with H : process_items _ _ _ _ _ _ _ = _ |- _ => apply IH in H as (Hi' & Hs' & Ho') end.
    split_and!.
    + cbn [map length seq]. by rewrite Hi, Hi'.
    + by constructor.
    + by apply (only_table_trans _ _ _ _ Ho).
Qed.

(** What an item is meant to do to the rows of its table: a creation appends a row with the
    columns it gives and a new id, an update writes the columns it gives in the live row with
    its id, a deletion marks that row. *)
Definition addressed (item : json) (r : row) : bool := has_id (cell "id" (item_fields item)) r && is_live r.

Definition item_effect (fresh : nat → json) (now : json) (op : bulk_operation) (i : nat) (item : json)
    (rows : list row) : list row :=
  match op with
  | op_create => rows ++ [map_set "id" (fresh i) (without restrictedColumns (sanitizeBody (item_fields item)))]
  | op_update => update_where (addressed item)
      (set_columns (without immutableFields (sanitizeBody (map_delete "id" (item_fields item))) ++ [("updated_at", now)])) rows
  | op_delete => update_where (addressed item) (set_columns [("deleted_at", now)]) rows
  end.

Definition item_result (fresh : nat → json) (op : bulk_operation) (i : nat) (item : json) : BulkItemResult := {|
  br_index := i; br_success := true;
  br_id := match op with op_create => fresh i | _ => cell "id" (item_fields item) end |}.

(** The rows after the items of a batch, and that each item that names a row finds it live. *)
Fixpoint batch_effect (fresh : nat → json) (now : json) (op : bulk_operation) (i : nat) (items : list json)
    (rows : list row) : list row :=
  match items with
  | [] => rows
  | item :: rest => batch_effect fresh now op (S i) rest (item_effect fresh now op i item rows)
  end.
Fixpoint batch_fits (fresh : nat → json) (now : json) (op : bulk_operation) (i : nat) (items : list json)
    (rows : list row) : bool :=
  match items with
  | [] => true
  | item :: rest => (bool_decide (op = op_create) || existsb (addressed item) rows)
                    && batch_fits fresh now op (S i) rest (item_effect fresh now op i item rows)
  end.

Lemma without_id columns body : "id" ∈ columns → cell "id" (without columns body) = JNull.
Proof.
  intros Hin. apply cell_absent. unfold without. revert body. induction columns as [|c columns IH]; [set_solver|].
  intros body. cbn. destruct (decide ("id" ∈ columns)) as [Hc|Hc]; [by apply IH|].
  apply elem_of_cons in Hin as [<-|]; [|done]. clear IH.
  assert (Hb : "id" ∉ keys (map_delete "id" body)) by (rewrite elem_of_keys_delete; by intros [? _]).
  revert Hb. generalize (map_delete "id" body). clear -Hc. induction columns as [|c columns IH]; intros b Hb; [done|].
  cbn. apply IH; [set_solver|]. rewrite elem_of_keys_delete. by intros [_ ?].
Qed.

Lemma run_update_effect t cols p values s s' :
  run_update t cols p values s = (Ok true, s') →
  existsb p (rows_of s.(rs_db) t) = true ∧ rows_of s'.(rs_db) t = update_where p (set_columns values) (rows_of s.(rs_db) t).
Proof.
  intros (Hf & _ & _ & Hr)%run_update_rows. split; [done|]. rewrite Hr. by rewrite bool_decide_eq_true_2.
Qed.

Lemma process_item_effect fresh now t op i item s r s' :
  process_item fresh now t op i item s = (Ok r, s') →
  r = item_result fresh op i item ∧ s'.(rs_trail_up) = s.(rs_trail_up) ∧
  (op = op_create ∨ existsb (addressed item) (rows_of s.(rs_db) t) = true) ∧
  rows_of s'.(rs_db) t = item_effect fresh now op i item (rows_of s.(rs_db) t).
Proof.
  destruct op; unfold process_item, processCreate, processUpdate, processDelete; intros H; inv_ok;
    try match goal with H : check_body _ _ _ = _ |- _ => apply check_body_Ok in H as (-> & _) end.
  - match goal with H : run_insert _ _ _ _ = _ |- _ => apply run_insert_Ok in H as (tb & r & Htb & -> & -> & ->) end.
    rewrite without_id by (cbn; set_solver). cbn [is_null]. rewrite cell_set_eq.
    split_and!; [done|done|by left|]. cbn [with_db rs_db item_effect].
    by rewrite rows_of_set, (rows_of_Some _ _ _ Htb).
  - subst. match goal with H : run_update _ _ _ _ _ = _ |- _ =>
      pose proof (run_update_Ok _ _ _ _ _ _ _ H) as (? & _ & _ & ->); apply run_update_effect in H as [? ?] end.
    split_and!; [done|done|by right|done].
  - subst. match goal with H : run_update _ _ _ _ _ = _ |- _ =>
      pose proof (run_update_Ok _ _ _ _ _ _ _ H) as (? & _ & _ & ->); apply run_update_effect in H as [? ?] end.
    split_and!; [done|done|by right|done].
Qed.

Lemma process_items_effect fresh now t op items : ∀ i s results s',
  process_items fresh now t op i items s = (Ok results, s') →
  results = zip_with (item_result fresh op) (seq i (length items)) items ∧ s'.(rs_trail_up) = s.(rs_trail_up) ∧
  batch_fits fresh now op i items (rows_of s.(rs_db) t) = true ∧
  rows_of s'.(rs_db) t = batch_effect fresh now op i items (rows_of s.(rs_db) t).
Proof.
  induction items as [|item items IH]; intros i s results s' H; cbn [process_items] in H.
  - injection H as <- <-. by split_and!.
  - inv_ok. match goal with H : try_catch _ _ _ = _ |- _ => apply try_catch_Ok, process_item_effect in H as (-> & Hup & Hf & Hr) end.
    match goal with H : process_items _ _ _ _ _ _ _ = _ |- _ => apply IH in H as (-> & Hup' & Hf' & Hr') end.
    rewrite Hr in Hf', Hr'. cbn [length seq zip_with batch_fits batch_effect].
    split_and!; [done|by rewrite Hup'| |done].
    rewrite Hf', andb_true_r, orb_true_iff, bool_decide_eq_true. exact Hf.
Qed.

(** [s'] is [s] with the whole batch written in the table of the resource. *)
Definition batch_written (fresh : nat → json) (now : json) (resource : string) (op : bulk_operation)
    (items : list json) (s s' : rec_state) : Prop :=
  ∃ t, map_get resource BULK_ALLOWED_RESOURCES = Some t ∧
    batch_fits fresh now op 0 items (rows_of s.(rs_db) t) = true ∧
    rows_of s'.(rs_db) t = batch_effect fresh now op 0 items (rows_of s.(rs_db) t) ∧
    (∀ t', t' ≠ t → rows_of s'.(rs_db) t' = rows_of s.(rs_db) t') ∧ s'.(rs_events) = s.(rs_events).

Lemma resolveTable_Ok resource t : resolveTable resource = Ok t → map_get resource BULK_ALLOWED_RESOURCES = Some t.
Proof. unfold resolveTable. destruct (map_get _ _); [|done]. by case_bool_decide; intros [= ->]. Qed.

Lemma process_items_written fresh now resource t op items s results s' :
  resolveTable resource = Ok t → process_items fresh now t op 0 items s = (Ok results, s') →
  batch_written fresh now resource op items s s' ∧ s'.(rs_audit) = s.(rs_audit) ∧
  s'.(rs_trail_up) = s.(rs_trail_up) ∧ results = zip_with (item_result fresh op) (seq 0 (length items)) items.
Proof.
  intros Ht H. pose proof (process_items_Ok _ _ _ _ _ _ _ _ _ H) as (_ & _ & He & Ha & Ho).
  apply process_items_effect in H as (-> & Hup & Hf & Hr).
  split_and!; [|done..]. exists t. split_and!; [by apply resolveTable_Ok|done..].
Qed.

Lemma execute_throws fresh now resource op items username s e s' :
  execute fresh now resource op items username s = (Throw e, s') →
  s' = s ∨ e = audit_error ∧ s.(rs_trail_up) = false ∧ s'.(rs_audit) = s.(rs_audit) ∧
           batch_written fresh now resource op items s s'.
Proof.
  unfold execute. intros H. apply bind_Throw in H as [H|(? & ? & H1 & H)];
    [left; destruct (validateBatchSize items); by injection H|]. inv_ok.
  destruct (resolveTable resource) as [t|] eqn:Ht; [|left; by injection H].
  apply bind_Throw in H as [H|(? & ? & H1 & H)]; [left; case_bool_decide; by injection H|]. inv_ok.
  apply bind_Throw in H as [H|(results & s1 & H1 & H)]; [left; by apply atomic_transaction in H|].
  inv_ok. apply (process_items_written _ _ _ _ _ _ _ _ _ Ht) in H1 as (Hw & Ha & Hup & _).
  right. apply bind_Throw in H as [H|(? & ? & _ & H)]; [|discriminate].
  apply logAudit_Throw in H as (-> & -> & Hdown). split_and!; [done|congruence|done|done].
Qed.

(** C15: A batch takes effect as a whole or not at all.  A batch that is answered had one to
    a hundred items; every one of them was carried out, in order, an item that names a record
    on a live one, with the result that names its record; the batch wrote in the table of the
    resource only, and it is audited once.  A batch that fails changes nothing, with one
    exception: when all its items are carried out and committed and it is the audit entry that
    cannot be appended, the caller gets the error and the batch stays. *)
Theorem bulk_all_or_nothing fresh now resource op items username s :
  match execute fresh now resource op items username s with
  | (Throw e, s') =>
      s' = s ∨ e = audit_error ∧ s.(rs_trail_up) = false ∧ s'.(rs_audit) = s.(rs_audit) ∧
               batch_written fresh now resource op items s s'
  | (Ok resp, s') =>
      (1 ≤ length items ≤ 100)%nat ∧ resp.(bo_processed) = length items ∧ resp.(bo_success) = length items ∧
      resp.(bo_failed) = 0%nat ∧
      resp.(bo_details) = zip_with (item_result fresh op) (seq 0 (length items)) items ∧
      batch_written fresh now resource op items s s' ∧
      ∃ details, s'.(rs_audit) = s.(rs_audit) ++ [(username, "Bulk " +:+ operation_name op, resource, details)]
  end.
Proof.
  destruct (execute _ _ _ _ _ _ s) as [[resp|e] s'] eqn:H; [|exact (execute_throws _ _ _ _ _ _ _ _ _ H)].
  unfold execute in H. inv_ok. destruct (resolveTable resource) as [t|] eqn:Ht; [|discriminate]. unfold logAudit in H.
  inv_ok.
  match goal with H : process_items _ _ _ _ _ _ _ = _ |- _ =>
    pose proof (process_items_Ok _ _ _ _ _ _ _ _ _ H) as (Hi & Hs & _);
    apply (process_items_written _ _ _ _ _ _ _ _ _ Ht) in H as (Hw & Ha & _ & Hres) end.
  pose proof (f_equal length Hi) as Hl. rewrite length_map, length_seq in Hl.
  cbn [bo_processed bo_success bo_failed bo_details rs_db rs_events rs_audit].
  rewrite filter_all by (by apply Forall_forall).
  repeat match goal with H : validateBatchSize _ = _ |- _ => unfold validateBatchSize in H end. bools.
  repeat match goal with H : (_ <? _)%nat = false |- _ => apply Nat.ltb_ge in H end.
  unfold MIN_BATCH_SIZE, MAX_BATCH_SIZE in *. split_and!; [lia..|done|exact Hw|].
  eexists. f_equal. exact Ha.
Qed.

(** ** Deletions *)

(** No live row of the table has the id. *)
Definition gone (t : string) (id : json) (s : rec_state) : Prop :=
  ∀ r, r ∈ rows_of s.(rs_db) t → has_id id r = true → is_live r = false.

Definition item_id (item : json) : json := cell "id" (item_fields item).

Lemma process_delete_gone fresh now t i item s r s' :
  is_null now = false → process_item fresh now t op_delete i item s = (Ok r, s') →
  gone t (item_id item) s' ∧ (∀ id, gone t id s → gone t id s') ∧
  length (rows_of s'.(rs_db) t) = length (rows_of s.(rs_db) t).
Proof.
  intros Hnow H. unfold process_item, processDelete in H. inv_ok.
  match goal with H : run_update _ _ _ _ _ = _ |- _ => apply run_update_rows in H as (_ & _ & _ & Hr) end.
  specialize (Hr t). rewrite bool_decide_eq_true_2 in Hr by done. unfold gone. rewrite Hr. split_and!.
  - intros r (r0 & Hr0 & ->)%elem_of_update_where. fold (item_id item).
    destruct (has_id (item_id item) r0 && is_live r0) eqn:Hp.
    + by rewrite mark_deleted_live.
    + intros Hid. by rewrite Hid in Hp.
  - intros id Hg r (r0 & Hr0 & ->)%elem_of_update_where.
    destruct (_ && _); [by rewrite mark_deleted_live|by apply Hg].
  - apply length_update_where.
Qed.

Lemma process_deletes_gone fresh now t items : is_null now = false → ∀ i s results s',
  process_items fresh now t op_delete i items s = (Ok results, s') →
  (∀ item, item ∈ items → gone t (item_id item) s') ∧ (∀ id, gone t id s → gone t id s') ∧
  length (rows_of s'.(rs_db) t) = length (rows_of s.(rs_db) t).
Proof.
  intros Hnow. induction items as [|item items IH]; intros i s results s' H; cbn [process_items] in H.
  - injection H as <- <-. split_and!; [set_solver|done|done].
  - inv_ok. match goal with H : try_catch _ _ _ = _ |- _ => apply try_catch_Ok, (process_delete_gone _ _ _ _ _ _ _ _ Hnow) in H as (Hg & Hk & Hl) end.
    match goal with H : process_items _ _ _ _ _ _ _ = _ |- _ => apply IH in H as (Hg' & Hk' & Hl') end.
    split_and!; [|by auto|congruence]. intros it [->|Hin]%elem_of_cons; [by apply Hk'|by apply Hg'].
Qed.

(** After a bulk deletion every item of the batch is deleted, softly: no row of
    the table is lost, whatever the table. *)
Theorem bulk_delete_complete fresh now resource items username s resp s' t
  (Hnow : is_null now = false) (Ht : map_get resource BULK_ALLOWED_RESOURCES = Some t)
  (Hrun : execute fresh now resource op_delete items username s = (Ok resp, s')) :
  (∀ item, item ∈ items → gone t (item_id item) s') ∧
  length (rows_of s'.(rs_db) t) = length (rows_of s.(rs_db) t).
Proof.
  unfold execute in Hrun. inv_ok. unfold resolveTable in Hrun. rewrite Ht in Hrun.
  destruct (bool_decide (t = "")); [discriminate|]. unfold logAudit in Hrun. inv_ok.
  match goal with H : process_items _ _ _ _ _ _ _ = _ |- _ =>
    apply (process_deletes_gone _ _ _ _ Hnow) in H as (Hg & _ & Hl) end. done.
Qed.

(** ** Tables without a write schema *)

Lemma check_body_no_schema t body s :
  getColumnWhitelist t = [] → ∃ e, check_body t body s = (Throw e, s).
Proof.
  intros Hw. unfold check_body, mbind, action_bind, ensure, mret, action_ret, throw.
  destruct (wl_ok _) eqn:Hok; [|by eexists].
  destruct (forallb _ _); [|by eexists].
  destruct body as [|[k v] body]; [by eexists|]. exfalso.
  pose proof (proj1 (checkWhitelist_ok _ _) Hok k) as Hk. rewrite Hw in Hk.
  apply (not_elem_of_nil k), Hk. rewrite keys_cons. set_solver.
Qed.

(** The resources whose table has no write schema are offered for bulk creation
    and update, and refuse every batch. *)
Theorem bulk_writes_need_schema fresh now resource op items username s
  (Hresource : resource ∈ ["audit-procedures"; "audit-evidence"; "fraud-log"; "audit-reports"])
  (Hop : op <> op_delete) :
  is_Some (map_get resource BULK_ALLOWED_RESOURCES) ∧ is_ok (execute fresh now resource op items username s).1 = false.
Proof.
  assert (Ht : ∃ t, resolveTable resource = Ok t ∧ getColumnWhitelist t = []
                    ∧ is_Some (map_get resource BULK_ALLOWED_RESOURCES)).
  { repeat (apply elem_of_cons in Hresource as [->|Hresource]; [by eexists; split_and!; [reflexivity..|eexists; reflexivity]|]).
    by apply elem_of_nil in Hresource. }
  destruct Ht as (t & Ht & Hw & Hs). split; [exact Hs|].
  destruct (execute _ _ _ _ _ _ s) as [[resp|e] s'] eqn:H; [|done]. exfalso.
  unfold execute in H. inv_ok. rewrite Ht in H. inv_ok.
  destruct items as [|item items]; [done|].
  match goal with H : process_items _ _ _ _ _ _ _ = _ |- _ => cbn [process_items] in H end. inv_ok.
  match goal with H : try_catch _ _ _ = _ |- _ => apply try_catch_Ok in H end.
  destruct op; [..|done]; unfold process_item, processCreate, processUpdate in *; inv_ok;
    match goal with H : check_body _ ?b ?st = _ |- _ =>
      destruct (check_body_no_schema t b st Hw) as [e He]; rewrite He in H; discriminate end.
Qed.

(** ** Permissions *)

Lemma enforced_permission allowed resource operation op :
  enforceBulkPermission allowed resource operation = true → operation_of operation = Some op →
  is_Some (map_get resource BULK_ALLOWED_RESOURCES) →
  ∃ m a, map_get resource BULK_RESOURCE_MODULES = Some m ∧
    map_get operation BULK_OPERATION_ACTIONS = Some a ∧ allowed m a = true.
Proof.
  unfold enforceBulkPermission, operation_of. intros He Ho [t Ht].
  destruct (map_get resource BULK_RESOURCE_MODULES) as [m|] eqn:Hm.
  - exists m. repeat case_bool_decide; subst; [eexists; split_and!; [done|reflexivity|exact He]..|discriminate].
  - exfalso. assert (Hn : map_get resource BULK_ALLOWED_RESOURCES = None)
      by (apply map_get_None in Hm; by apply map_get_None). congruence.
Qed.

(** A batch changes something or is answered only when the user has the action of its operation
    on the module of its resource. *)
Theorem bulk_route_needs_permission fresh now allowed resource operation items username s :
  match bulk_route fresh now allowed resource operation items username s with
  | (Throw _, s') => s' = s ∨ ∃ m a, map_get resource BULK_RESOURCE_MODULES = Some m ∧
      map_get operation BULK_OPERATION_ACTIONS = Some a ∧ allowed m a = true
  | (Ok _, s') => ∃ m a, map_get resource BULK_RESOURCE_MODULES = Some m ∧
      map_get operation BULK_OPERATION_ACTIONS = Some a ∧ allowed m a = true
  end.
Proof.
  destruct (bulk_route _ _ _ _ _ _ _ s) as [[resp|e] s'] eqn:H; unfold bulk_route in H.
  - inv_ok. destruct (operation_of operation) as [op|] eqn:Hop; [|discriminate].
    apply (enforced_permission _ _ _ op Hguard Hop). destruct items; try discriminate.
    unfold execute in H. inv_ok. destruct (resolveTable resource) as [t|] eqn:Ht; [|discriminate].
    exists t. by apply resolveTable_Ok.
  - apply bind_Throw in H as [H|(? & ? & H1 & H)];
      [left; destruct (enforceBulkPermission _ _ _); by injection H|].
    inv_ok. destruct (operation_of operation) as [op|] eqn:Hop; [|left; by injection H].
    destruct items; try (left; by injection H).
    apply execute_throws in H as [->|(_ & _ & _ & t & Ht & _)]; [by left|right].
    apply (enforced_permission _ _ _ op Hguard Hop). by exists t.
Qed.

(** ** A batch on the small database *)

Module Batches.
Definition fresh (i : nat) : json := JStr (pretty (N.of_nat (100 + i))).
Definition plans (ids : list string) : list json := map (λ i, JObj [("id", JStr i)]) ids.
Definition run (resource : string) (op : bulk_operation) (items : list json) :=
  execute fresh (JStr "2025") resource op items "admin" Registers.state.

(** The second plan is already deleted, so the whole batch is undone. *)
Example batch_rolled_back :
  run "audit-plans" op_delete (plans ["1"; "2"])
  = (Throw (GenericError "Processing failed at item index 1"), Registers.state).
Proof. reflexivity. Qed.

(** An update drops the record codes among its fields and writes the rest. *)
Example batch_update :
  map (cell "status") (rows_of (run "audit-plans" op_update
    [JObj [("id", JStr "1"); ("status", JStr "Closed"); ("plan_code", JStr "X")]]).2.(rs_db) "audit_plans")
  = [JStr "Closed"; JStr "Draft"; JStr "Final"].
Proof. reflexivity. Qed.
End Batches.

Lemma bulk_delete_complete_witness :
  ∃ resp s', Batches.run "audit-plans" op_delete (Batches.plans ["1"; "3"]) = (Ok resp, s') ∧
    (∀ item, item ∈ Batches.plans ["1"; "3"] → gone "audit_plans" (item_id item) s') ∧
    length (rows_of s'.(rs_db) "audit_plans") = 3%nat.
Proof.
  eexists _, _. split; [reflexivity|].
  exact (bulk_delete_complete Batches.fresh (JStr "2025") "audit-plans" (Batches.plans ["1"; "3"]) "admin"
    Registers.state _ _ "audit_plans" eq_refl eq_refl eq_refl).
Defined.

Lemma bulk_writes_need_schema_witness :
  is_ok (Batches.run "fraud-log" op_create [JObj [("status", JStr "Open")]]).1 = false.
Proof.
  refine (proj2 (bulk_writes_need_schema Batches.fresh (JStr "2025") "fraud-log" op_create
    [JObj [("status", JStr "Open")]] "admin" Registers.state _ _)).
  - apply (bool_decide_unpack _). reflexivity.
  - discriminate.
Defined.
