(* ===== verification/CrudRoutes.v ===== *)
(** * The generated record routes ([src/src/utils/crudGenerator.ts])

    Each generated resource has a list, a read, a create, an update and a delete
    route over the generic service.  The uploaded files and the notifications of
    a creation are not modelled; the audit entry is. *)

From S2P Require Import Prelude JsMap JsStrings JsNumbers Json OrderBy Pagination Cursors Responses Records AppCodes GenericRecords.
Local Open Scope Z_scope.

Definition TABLE_ALLOWED_FIELDS : list (string * list string) := [
  ("audit_plans", ["plan_code"; "program_id"; "title"; "department"; "type"; "risk_rating"; "planned_start_date";
    "planned_end_date"; "status"; "lead_auditor"; "team_members"; "objectives"; "scope"; "notes"; "year"; "quarter"]);
  ("audit_procedures", ["program_id"; "procedure_number"; "audit_step"; "audit_test_description"; "risk_addressed";
    "control_test_type"; "expected_evidence"; "sampling_method"; "responsible_auditor"; "remarks"]);
  ("audit_evidence", ["audit_id"; "finding_id"; "type"; "description"; "uploaded_by"; "file_name"; "file_data"; "upload_date"]);
  ("risk_register", ["risk_id"; "description"; "owner"; "source"; "early_warning"; "type"; "likelihood"; "impact";
    "likelihood_num"; "impact_num"; "risk_score_calc"; "risk_level_calc"; "score"; "rating"; "controls";
    "control_assessment"; "mitigation"; "treatment_option"; "residual_likelihood"; "residual_impact"; "residual_score";
    "residual_rating"; "status"; "target_date"; "review_date"; "notes"; "entry_date"; "entered_by"]);
  ("fraud_log", ["incident_date"; "description"; "reported_by"; "status"]);
  ("central_bank_instructions", ["title"; "issue_date"; "reference_number"; "category"; "description";
    "related_department"; "attachment"; "status"; "related_instruction_id"]);
  ("law_bank", ["title"; "type"; "authority"; "issue_date"; "keywords"; "bookmarked"; "file_url"]);
  ("audit_reports", ["audit_id"; "title"; "report_type"; "generated_by"; "date_generated"; "status"; "content"])].

(** The tables of the [generateRoutes] calls with their routes and modules. *)
Definition generated : list (string * (string * string)) := [
  ("audit_plans", ("audit-plans", "AuditPlans")); ("audit_procedures", ("audit-procedures", "AuditProgramLibrary"));
  ("audit_evidence", ("audit-evidence", "AuditEvidence")); ("risk_register", ("risk-register", "RiskRegister"));
  ("fraud_log", ("fraud-log", "IntegrityManagement")); ("central_bank_instructions", ("central-bank-instructions", "Policies"));
  ("law_bank", ("law-bank", "Policies")); ("audit_reports", ("audit-reports", "Reports"))].

Definition allowedFields (tableName : string) : list string := default [] (map_get tableName TABLE_ALLOWED_FIELDS).

(** The fields of a body or a query that the table allows. *)
Definition allowed_part (tableName : string) (fields : row) : row :=
  List.filter (λ m, bool_decide (m.1 ∈ allowedFields tableName)) fields.

Definition excludeFromSelect : list string := ["file_data"; "content"; "attachment_file"; "attachment"; "file_url"].
Definition selectFields (tableName : string) : list string :=
  ["id"; "created_at"; "updated_at"]
    ++ List.filter (λ f, negb (bool_decide (f ∈ excludeFromSelect))) (allowedFields tableName).

(** [req.query] without [page] and [pageSize], which are read on their own *)
Record list_query := { lq_page : option string; lq_pageSize : option string; lq_rest : row }.

Definition list_options (tableName : string) (p : ParsedPaginationParams) (q : list_query) : find_options := {|
  fo_page := page p; fo_pageSize := Some (pageSize p); fo_orderBy := "id DESC";
  fo_where := allowed_part tableName q.(lq_rest); fo_select := Some (selectFields tableName);
  fo_includeDeleted := false; fo_cursor := None; fo_sortDirection := None |}.

Section list_route.
Context (js_String : json → string) (read_as : string → string → option json) (cell_ltb : json → json → bool).

(** [GET /<route>], past authentication and the permission check *)
Definition list_route (now : Z) (db : database) (tableName : string) (q : list_query) : action app_error count_cache found :=
  match parsePaginationParams q.(lq_page) q.(lq_pageSize) with
  | Ok p => findAll js_String read_as cell_ltb now db tableName (list_options tableName p q)
  | Throw e => throw e
  end.
End list_route.

(** [GET /<route>/:id] *)
Definition read_route (tableName : string) (id : string) : rec_action row := findById tableName (JStr id) false.

Definition route_name (tableName : string) : string := from_option fst "" (map_get tableName generated).

(** [POST /<route>] without files, for the tables whose service is the generic one *)
Definition create_route (su : surroundings) (tableName username : string) (rawBody : row) : rec_action row :=
  let body := allowed_part tableName rawBody in
  result ← create su tableName body;
  _ ← logAudit (username, "Created " +:+ tableName, route_name tableName, stringify (JObj body));
  mret result.

(** [PUT /<route>/:id] without files *)
Definition update_route (su : surroundings) (tableName username id : string) (rawBody : row) : rec_action row :=
  let body := allowed_part tableName rawBody in
  result ← update su tableName (JStr id) body;
  _ ← logAudit (username, "Updated " +:+ tableName +:+ " ID: " +:+ id, route_name tableName, stringify (JObj body));
  mret result.

(** [DELETE /<route>/:id] *)
Definition delete_route (su : surroundings) (tableName username id : string) : rec_action unit :=
  _ ← delete_record su tableName (JStr id);
  logAudit (username, "Deleted " +:+ tableName +:+ " ID: " +:+ id, route_name tableName,
            stringify (JObj [("id", JStr id)])).

(** ** The pages of the large tables *)

Lemma page_size_of_query a b ps p p' :
  parsePaginationParams a ps = Ok p → parsePaginationParams b ps = Ok p' → pageSize p = pageSize p'.
Proof.
  unfold parsePaginationParams. intros H H'.
  destruct (match present a with Some v => _ | None => _ end); [|discriminate].
  destruct (match present b with Some v => _ | None => _ end); [|discriminate].
  destruct (match present ps with Some v => _ | None => _ end); [|discriminate].
  by injection H as <-; injection H' as <-.
Qed.

Lemma keyset_data js rd lt now db t o cache f cache' :
  isKeysetTable t = true → findAll js rd lt now db t o cache = (Ok f, cache') →
  ∃ c p, where_conditions t o.(fo_where) o.(fo_includeDeleted) = Ok c ∧ keyset_rows js rd lt db t o c = Ok p ∧
         f.(fa_data) = k_data p.
Proof.
  intros Hk H. unfold findAll in H. destruct (negb _); [discriminate|].
  destruct (where_conditions _ _ _) as [c|] eqn:Hc; [|discriminate]. rewrite Hk in H.
  destruct (keyset_rows _ _ _ _ _ _ _) as [p|] eqn:Hp; [|discriminate]. inv_ok. by exists c, p.
Qed.

(** For a table with keyset pagination the list route answers every page number
    with the rows of the first page: it takes no cursor from the query. *)
Theorem keyset_list_ignores_page (js_String : json -> string) (read_as : string -> string -> option json)
  (cell_ltb : json -> json -> bool) now db t rest qsize qpage1 qpage2 cache f1 c1 f2 c2
  (Hkeyset : isKeysetTable t = true)
  (Hpage1 : list_route js_String read_as cell_ltb now db t
     {| lq_page := qpage1; lq_pageSize := qsize; lq_rest := rest |} cache = (Ok f1, c1))
  (Hpage2 : list_route js_String read_as cell_ltb now db t
     {| lq_page := qpage2; lq_pageSize := qsize; lq_rest := rest |} cache = (Ok f2, c2)) :
  f1.(fa_data) = f2.(fa_data).
Proof.
  unfold list_route in Hpage1, Hpage2. cbn [lq_page lq_pageSize] in Hpage1, Hpage2.
  destruct (parsePaginationParams qpage1 qsize) as [p1|] eqn:H1; [|discriminate].
  destruct (parsePaginationParams qpage2 qsize) as [p2|] eqn:H2; [|discriminate].
  pose proof (page_size_of_query _ _ _ _ _ H1 H2) as Hsize.
  apply keyset_data in Hpage1 as (x1 & k1 & Hx1 & Hk1 & ->); [|done].
  apply keyset_data in Hpage2 as (x2 & k2 & Hx2 & Hk2 & ->); [|done].
  cbn [list_options fo_where fo_includeDeleted lq_rest] in Hx1, Hx2. rewrite Hx1 in Hx2. injection Hx2 as <-.
  unfold keyset_rows in Hk1, Hk2. cbn [list_options fo_select fo_cursor fo_sortDirection fo_pageSize] in Hk1, Hk2.
  rewrite Hsize in Hk1. congruence.
Qed.

(** ** Tables without the columns the service expects *)

Lemma select_missing_column db t cols p c tb :
  map_get t db = Some tb → c ∈ cols → c ∉ tb.(tb_columns) → sql_select db t cols p = Throw sql_error.
Proof.
  intros Htb Hc Hn. unfold sql_select. rewrite Htb. destruct (forallb _ cols) eqn:H; [|done].
  rewrite forallb_forall in H. apply list_elem_of_In in Hc. apply H in Hc. by rewrite bool_decide_eq_false_2 in Hc.
Qed.

Lemma conditions_read_deleted_at t filters c :
  where_conditions t filters false = Ok c → "deleted_at" ∈ c.(co_columns).
Proof. unfold where_conditions. destruct (forallb _ _); [|discriminate]. intros [= <-]. cbn. set_solver. Qed.

(** A table without the column [deleted_at] can be neither listed nor read by id
    through its routes: every statement names the column. *)
Theorem routes_need_deleted_at (js_String : json -> string) (read_as : string -> string -> option json)
  (cell_ltb : json -> json -> bool) now db t tb q cache id s
  (Htable : map_get t db = Some tb) (Hcolumn : "deleted_at" ∉ tb.(tb_columns)) (Hstate : s.(rs_db) = db) :
  is_ok (list_route js_String read_as cell_ltb now db t q cache).1 = false ∧ is_ok (read_route t id s).1 = false.
Proof.
  split.
  - unfold list_route. destruct (parsePaginationParams _ _) as [p|]; [|done].
    destruct (findAll _ _ _ _ _ _ _ cache) as [[f|] c'] eqn:H; [|done]. exfalso.
    unfold findAll in H. destruct (negb _); [discriminate|].
    destruct (where_conditions _ _ _) as [c|] eqn:Hc; [|discriminate].
    pose proof (conditions_read_deleted_at _ _ _ Hc) as Hd.
    assert (Hfail : ∀ cols p', "deleted_at" ∈ cols → sql_select db t cols p' = Throw sql_error)
      by (intros; by eapply select_missing_column).
    destruct (isKeysetTable t).
    + unfold keyset_rows in H. destruct (buildKeysetClause _ _ _); [|discriminate].
      rewrite Hfail in H by set_solver. discriminate.
    + destruct (order_parts _) as [[oc d]|]; [|discriminate].
      unfold count_rows in H. rewrite Hfail in H by done. discriminate.
  - unfold read_route, findById, mbind, action_bind, ensure, mret, action_ret.
    destruct (validateIdentifier t); [|done]. unfold run_select. rewrite Hstate.
    by rewrite (select_missing_column db t _ _ "deleted_at" tb) by (done || set_solver).
Qed.

(** Creation through the generated route fails for every body of a table that has
    a route but no write schema. *)
Theorem create_route_needs_schema su t username rawBody s
  (Htable : t ∈ ["audit_procedures"; "audit_evidence"; "fraud_log"; "audit_reports"]) :
  is_Some (map_get t generated) ∧
  ∃ e, create_route su t username rawBody s = (Throw e, s).
Proof.
  assert (Ht : is_Some (map_get t generated) ∧ getColumnWhitelist t = [] ∧ map_get t codeColumns = None).
  { repeat (apply elem_of_cons in Htable as [->|Htable]; [by split_and!; [eexists; reflexivity|reflexivity..]|]).
    by apply elem_of_nil in Htable. }
  destruct Ht as (Hg & Hw & Hc). split; [done|].
  assert (Hcreate : ∃ e, create su t (allowed_part t rawBody) s = (Throw e, s)).
  { unfold create, mbind, action_bind, ensure, mret, action_ret, throw.
    destruct (wl_ok _) eqn:Hok; [|by eexists]. destruct (allowed_part t rawBody) as [|[k v] body].
    - unfold transaction, gets, with_code. rewrite Hc. cbn. by eexists.
    - exfalso. pose proof (proj1 (checkWhitelist_ok _ _) Hok k) as Hk. rewrite Hw in Hk.
      apply (not_elem_of_nil k), Hk. rewrite keys_cons. set_solver. }
  destruct Hcreate as [e He]. exists e. unfold create_route, mbind, action_bind. by rewrite He.
Qed.

(** ** Two registers *)

Module Resources.
Definition risk (id at_ : string) : row :=
  [("id", JStr id); ("created_at", JStr at_); ("description", JStr ("Risk " +:+ id))].
Definition db : database :=
  [("risk_register", {| tb_columns := selectFields "risk_register" ++ ["deleted_at"];
      tb_rows := [risk "1" "2025-01-01"; risk "2" "2025-01-02"] |});
   ("law_bank", {| tb_columns := ["id"; "title"; "type"; "authority"; "issue_date"; "keywords"; "bookmarked"; "file_url";
                                  "created_at"; "updated_at"]; tb_rows := [[("id", JStr "7")]] |})].
Definition query (p : string) : list_query := {| lq_page := Some p; lq_pageSize := Some "1"; lq_rest := [] |}.
Definition list (p : string) :=
  list_route value_text (λ _ s, Some (JStr s)) Registers.text_lt 0 db "risk_register" (query p) [].

(** Two risks, pages of one: the second page is announced and shows the first row. *)
Example second_page :
  match (list "2").1 with
  | Ok f => map (cell "id") f.(fa_data) = [JStr "2"] ∧ f.(fa_pagination) = mkMeta 2 1 2 2 false true
  | Throw _ => False
  end.
Proof. vm_compute. by split. Qed.
End Resources.

Lemma keyset_list_ignores_page_witness :
  ∃ f1 c1 f2 c2, Resources.list "1" = (Ok f1, c1) ∧ Resources.list "2" = (Ok f2, c2) ∧ f1.(fa_data) = f2.(fa_data).
Proof.
  eexists _, _, _, _. split; [vm_compute; reflexivity|]. split; [vm_compute; reflexivity|].
  exact (keyset_list_ignores_page value_text (λ _ s, Some (JStr s)) Registers.text_lt 0 Resources.db "risk_register"
    [] (Some "1") (Some "1") (Some "2") [] _ _ _ _ eq_refl eq_refl eq_refl).
Defined.

Lemma routes_need_deleted_at_witness :
  is_ok (read_route "law_bank" "7" {| rs_db := Resources.db; rs_events := []; rs_audit := []; rs_trail_up := true |}).1 = false.
Proof.
  refine (proj2 (routes_need_deleted_at value_text (λ _ s, Some (JStr s)) Registers.text_lt 0 Resources.db "law_bank"
    {| tb_columns := ["id"; "title"; "type"; "authority"; "issue_date"; "keywords"; "bookmarked"; "file_url";
                      "created_at"; "updated_at"]; tb_rows := [[("id", JStr "7")]] |} (Resources.query "1") [] "7"
    {| rs_db := Resources.db; rs_events := []; rs_audit := []; rs_trail_up := true |} eq_refl _ eq_refl)).
  apply (bool_decide_unpack _). reflexivity.
Defined.

Lemma create_route_needs_schema_witness :
  ∃ e, create_route Registers.env "fraud_log" "u" [("status", JStr "Open")] Registers.state = (Throw e, Registers.state).
Proof.
  refine (proj2 (create_route_needs_schema Registers.env "fraud_log" "u" [("status", JStr "Open")] Registers.state _)).
  apply (bool_decide_unpack _). reflexivity.
Defined.
