(* ===== verification/Correspondence.v ===== *)
(** * Correspondence ([src/src/services/CorrespondenceService.ts])

    Incoming and outgoing letters with their attachments, referrals, links and
    status history, over the tables of [Records] and the counters of [Numbering].
    Webhook events are recorded in [rs_events] in the order they are sent; a send
    that fails is ignored by the code.  The joins that add names to a result and
    the statistics are not modelled. *)

From S2P Require Import Prelude JsMap JsStrings Json Responses Records Numbering GenericRecords.
Local Open Scope Z_scope.

Record corr_state := { co_rec : rec_state; co_counters : counters }.
Definition corr_action := action app_error corr_state.

Definition on_rec {A} (m : rec_action A) : corr_action A := λ s,
  let '(r, s') := m s.(co_rec) in (r, {| co_rec := s'; co_counters := s.(co_counters) |}).
Definition on_counters {A} (m : action app_error counters A) : corr_action A := λ s,
  let '(r, c) := m s.(co_counters) in (r, {| co_rec := s.(co_rec); co_counters := c |}).

(** The table of a type; the default differs between the operations. *)
Definition table_of (type : string) : string :=
  if bool_decide (type = "outgoing") then "outgoing_letters" else "incoming_correspondence".
Definition archive_table (type : string) : string :=
  if bool_decide (type = "incoming") then "incoming_correspondence" else "outgoing_letters".
Definition dbType (type : string) : string := if bool_decide (type = "incoming") then "Incoming" else "Outgoing".

Definition record_not_found : app_error := NotFoundError "Correspondence record not found".

(** [x ? 1 : 0] *)
Definition flag (v : json) : json := JNum (if falsy v then "0" else "1").

(** The fields [cols] of the request; a field that is left out is null. *)
Definition fields_of (cols : list string) (data : row) : row := map (λ c, (c, cell c data)) cols.

(** Defaults of the tables that the service reads again. *)
Definition letter_defaults (status : string) : row := [("status", JStr status); ("is_archived", JNum "0")].

(** [`INC-${year}-${nextNum.toString().padStart(4, '0')}`] *)
Definition sequence (prefix : string) (year n : Z) : string :=
  prefix +:+ "-" +:+ pretty year +:+ "-" +:+ pad_start 4 (pretty (Z.to_N n)).

(** ** Incoming letters *)

Definition incoming_fields : list string :=
  ["letter_number"; "sender_entity"; "sender_entity_type"; "subject"; "letter_date"; "receipt_date"; "classification";
   "priority"; "method"; "receiving_dept_id"; "assigned_dept_id"; "assigned_user_id"; "follow_up_date";
   "response_due_date"; "notes"].

Definition createIncoming (year : Z) (fresh : json) (data : row) (userId : json) : corr_action (json * string) :=
  nextNum ← on_counters (nextCounter "correspondence_incoming" (pretty year));
  let sequence_number := sequence "INC" year nextNum in
  id ← on_rec (run_insert "incoming_correspondence"
    ([("sequence_number", JStr sequence_number)] ++ fields_of incoming_fields data
       ++ [("follow_up_required", flag (cell "follow_up_required" data));
           ("response_required", flag (cell "response_required" data)); ("created_by", userId)]
       ++ letter_defaults "Received") fresh);
  _ ← on_rec (enqueueEvent "incoming_correspondence.created"
    (JObj [("id", id); ("sequence_number", JStr sequence_number); ("subject", cell "subject" data);
           ("sender_entity", cell "sender_entity" data)]));
  mret (id, sequence_number).

(** [data[key] !== undefined] *)
Definition given (data : row) (c : string) : bool := map_has c data.

Definition incoming_assignments (data : row) : row :=
  fields_of (List.filter (given data) incoming_fields) data
    ++ (if given data "follow_up_required" then [("follow_up_required", flag (cell "follow_up_required" data))] else [])
    ++ (if given data "response_required" then [("response_required", flag (cell "response_required" data))] else []).

(** [UPDATE .. WHERE id = ? AND deleted_at IS NULL] *)
Definition update_live (t : string) (id : json) (values : row) : corr_action bool :=
  on_rec (run_update t ["id"; "deleted_at"] (λ r, has_id id r && is_live r) values).

Definition update_letter (t event missing : string) (now id : json) (assignments : row) (updates : row)
    : corr_action unit :=
  if bool_decide (assignments = []) then mret tt
  else
    changed ← update_live t id (assignments ++ [("updated_at", now)]);
    _ ← ensure changed (NotFoundError missing);
    on_rec (enqueueEvent event (JObj [("id", id); ("updates", JObj updates)])).

Definition updateIncoming (now id : json) (data : row) : corr_action unit :=
  update_letter "incoming_correspondence" "incoming_correspondence.updated"
    "Incoming correspondence record not found" now id (incoming_assignments data) data.

Definition attachment_of (type : string) (id : json) (r : row) : bool :=
  sql_eq (cell "correspondence_type" r) (JStr type) && sql_eq (cell "correspondence_id" r) id.

Definition corr_rollback (old new : corr_state) : corr_state := {| co_rec := old.(co_rec); co_counters := old.(co_counters) |}.

Definition deleteIncoming (now id : json) : corr_action unit :=
  changes ← transaction corr_rollback
    (_ ← on_rec (run_update "correspondence_attachments" ["correspondence_type"; "correspondence_id"; "deleted_at"]
           (λ r, attachment_of "Incoming" id r && is_live r) [("deleted_at", now)]);
     update_live "incoming_correspondence" id [("deleted_at", now)]);
  _ ← ensure changes (NotFoundError "Incoming correspondence record not found");
  on_rec (enqueueEvent "incoming_correspondence.deleted" (JObj [("id", id)])).

(** ** Outgoing letters *)

Definition outgoing_fields : list string :=
  ["letter_date"; "recipient_entity"; "subject"; "classification"; "sending_method"; "attachment_file"].

Definition createOutgoing (year : Z) (fresh : json) (data : row) (userId : json) : corr_action (json * string) :=
  nextNum ← on_counters (nextCounter "correspondence_outgoing" (pretty year));
  let sequence_number := sequence "OUT" year nextNum in
  id ← on_rec (run_insert "outgoing_letters"
    ([("sequence_number", JStr sequence_number)] ++ fields_of outgoing_fields data
       ++ [("created_by", userId)] ++ letter_defaults "Draft") fresh);
  _ ← on_rec (enqueueEvent "outgoing_correspondence.created"
    (JObj [("id", id); ("sequence_number", JStr sequence_number); ("subject", cell "subject" data);
           ("recipient_entity", cell "recipient_entity" data)]));
  mret (id, sequence_number).

Definition updateOutgoing (now id : json) (data : row) : corr_action unit :=
  update_letter "outgoing_letters" "outgoing_correspondence.updated" "Outgoing correspondence record not found"
    now id (fields_of (List.filter (given data) outgoing_fields) data) data.

Definition deleteOutgoing (now id : json) : corr_action unit :=
  changed ← update_live "outgoing_letters" id [("deleted_at", now)];
  _ ← ensure changed (NotFoundError "Outgoing correspondence record not found");
  on_rec (enqueueEvent "outgoing_correspondence.deleted" (JObj [("id", id)])).

(** ** Status, referral, link and archive *)

Definition updateStatus (now fresh : json) (type : string) (id : json) (newStatus notes : string) (userId : json)
    : corr_action json :=
  let t := table_of type in
  oldStatus ← transaction corr_rollback
    (found ← on_rec (run_select t ["status"; "id"; "deleted_at"] (λ r, has_id id r && is_live r));
     match found with
     | [] => throw (NotFoundError "Record not found")
     | oldRecord :: _ =>
         _ ← update_live t id [("status", JStr newStatus); ("updated_at", now)];
         _ ← on_rec (run_insert "correspondence_status_history"
               [("correspondence_id", id); ("correspondence_type", JStr (dbType type));
                ("old_status", cell "status" oldRecord); ("new_status", JStr newStatus);
                ("changed_by", userId); ("notes", JStr notes)] fresh);
         mret (cell "status" oldRecord)
     end);
  _ ← on_rec (enqueueEvent "correspondence.status_changed"
        (JObj [("id", id); ("type", JStr type); ("oldStatus", oldStatus); ("newStatus", JStr newStatus); ("changedBy", userId)]));
  mret oldStatus.

Definition refer (now fresh : json) (data : row) (userId : json) : corr_action unit :=
  transaction corr_rollback
    (_ ← on_rec (run_insert "correspondence_referrals"
           [("incoming_id", cell "incoming_id" data); ("from_user_id", userId); ("to_dept_id", cell "to_dept_id" data);
            ("to_user_id", cell "to_user_id" data); ("notes", cell "notes" data)] fresh);
     _ ← on_rec (run_update "incoming_correspondence" ["id"] (has_id (cell "incoming_id" data))
           [("status", JStr "Referred"); ("assigned_dept_id", cell "to_dept_id" data);
            ("assigned_user_id", cell "to_user_id" data); ("updated_at", now)]);
     mret tt).

Definition link (fresh : json) (data : row) (userId : json) : corr_action unit :=
  _ ← on_rec (run_insert "correspondence_links"
        [("incoming_id", cell "incoming_id" data); ("outgoing_id", cell "outgoing_id" data);
         ("link_type", if falsy (cell "link_type" data) then JStr "Reply" else cell "link_type" data);
         ("linked_by", userId)] fresh);
  mret tt.

Definition archive (now : json) (type : string) (id : json) : corr_action unit :=
  changed ← update_live (archive_table type) id
              [("is_archived", JNum "1"); ("status", JStr "Archived"); ("updated_at", now)];
  ensure changed record_not_found.

(** ** Attachments and details *)

Definition getAttachments (type : string) (id : json) : corr_action (list row) :=
  on_rec (run_select "correspondence_attachments" ["correspondence_type"; "correspondence_id"]
            (attachment_of (dbType type) id)).

Definition addAttachment (fresh : json) (data : row) (userId : json) : corr_action unit :=
  let type := match cell "correspondence_type" data with JStr s => s | _ => "" end in
  _ ← on_rec (run_insert "correspondence_attachments"
        ([("correspondence_id", cell "correspondence_id" data); ("correspondence_type", JStr (dbType type))]
           ++ fields_of ["file_name"; "file_type"; "file_data"; "description"] data ++ [("uploaded_by", userId)]) fresh);
  mret tt.

Record details := { de_main : row; de_attachments : list row; de_history : list row; de_referrals : list row }.

(** Without the joins; the histories in table order. *)
Definition getDetails (type : string) (id : json) : corr_action details :=
  found ← on_rec (run_select (table_of type) ["id"] (has_id id));
  match found with
  | [] => throw (NotFoundError "Record not found")
  | main :: _ =>
      attachments ← getAttachments type id;
      history ← on_rec (run_select "correspondence_status_history" ["correspondence_type"; "correspondence_id"]
                  (attachment_of (dbType type) id));
      referrals ← (if bool_decide (type = "outgoing") then mret []
                   else on_rec (run_select "correspondence_referrals" ["incoming_id"]
                          (λ r, sql_eq (cell "incoming_id" r) id)));
      mret {| de_main := main; de_attachments := attachments; de_history := history; de_referrals := referrals |}
  end.

(** ** Operations that keep the sequence numbers *)

Definition letter_tables : list string := ["incoming_correspondence"; "outgoing_letters"].

Definition numbers (t : string) (s : corr_state) : list json := map (cell "sequence_number") (rows_of s.(co_rec).(rs_db) t).

Definition same_numbers (s s' : corr_state) : Prop :=
  s'.(co_counters) = s.(co_counters) ∧ ∀ t, t ∈ letter_tables → numbers t s' = numbers t s.

Definition keeps_numbers {A} (m : corr_action A) : Prop := ∀ s, same_numbers s (m s).2.

Lemma same_numbers_refl s : same_numbers s s.
Proof. done. Qed.
Lemma same_numbers_trans s1 s2 s3 : same_numbers s1 s2 → same_numbers s2 s3 → same_numbers s1 s3.
Proof. intros [C1 N1] [C2 N2]. split; [congruence|]. intros t Ht. by rewrite N2, N1. Qed.

Section keeps.
Context {A B : Type}.

Lemma keeps_ret (a : A) : keeps_numbers (mret a).
Proof. by intros s. Qed.
Lemma keeps_throw e : keeps_numbers (A:=A) (throw e).
Proof. by intros s. Qed.
Lemma keeps_ensure b e : keeps_numbers (ensure b e).
Proof. by destruct b; intros s. Qed.
Lemma keeps_bind (m : corr_action A) (f : A → corr_action B) :
  keeps_numbers m → (∀ a, keeps_numbers (f a)) → keeps_numbers (m ≫= f).
Proof.
  intros Hm Hf s. specialize (Hm s). unfold mbind, action_bind. destruct (m s) as [[a|e] s1]; [|done].
  by apply (same_numbers_trans _ _ _ Hm), Hf.
Qed.
Lemma keeps_transaction (m : corr_action A) : keeps_numbers m → keeps_numbers (transaction corr_rollback m).
Proof.
  intros Hm s. specialize (Hm s). unfold transaction. destruct (m s) as [[a|e] s1]; [done|]. by destruct s.
Qed.
Lemma keeps_event name payload : keeps_numbers (on_rec (enqueueEvent name payload)).
Proof. by intros s. Qed.
Lemma keeps_select t cols p : keeps_numbers (on_rec (run_select t cols p)).
Proof. intros s. unfold on_rec, run_select. by destruct (sql_select _ _ _ _). Qed.

Lemma keeps_update t cols p values :
  "sequence_number" ∉ keys values → keeps_numbers (on_rec (run_update t cols p values)).
Proof.
  intros Hv s. unfold on_rec. destruct (run_update t cols p values s.(co_rec)) as [[found|e] s'] eqn:H; cbn [snd].
  - apply run_update_rows in H as (_ & _ & _ & Hr). split; [done|]. intros t' _. unfold numbers. cbn [co_rec].
    rewrite Hr. case_bool_decide; [subst|done]. unfold update_where. rewrite map_map. apply map_ext.
    intros r. destruct (p r); [by apply cell_set_columns_ne|done].
  - unfold run_update in H. destruct (sql_update _ _ _ _ _) as [[? ?]|]; [discriminate|]. by injection H as <- <-.
Qed.

Lemma keeps_insert t values fresh :
  t ∉ letter_tables → keeps_numbers (on_rec (run_insert t values fresh)).
Proof.
  intros Ht s. unfold on_rec. destruct (run_insert t values fresh s.(co_rec)) as [[found|e] s'] eqn:H; cbn [snd].
  - apply run_insert_rows in H as (_ & _ & r & _ & Hr). split; [done|]. intros t' Ht'. unfold numbers. cbn [co_rec].
    rewrite Hr. by rewrite bool_decide_eq_false_2 by congruence.
  - unfold run_insert in H. destruct (sql_insert _ _ _ _) as [[? ?]|]; [discriminate|]. by injection H as <- <-.
Qed.
End keeps.

#[export] Hint Resolve keeps_ret keeps_throw keeps_ensure keeps_bind keeps_transaction keeps_event keeps_select : records.
#[export] Hint Extern 1 (keeps_numbers (on_rec (run_update _ _ _ _))) =>
  apply keeps_update; apply (bool_decide_unpack _); reflexivity : records.
#[export] Hint Extern 1 (keeps_numbers (on_rec (run_insert _ _ _))) =>
  apply keeps_insert; apply (bool_decide_unpack _); reflexivity : records.
#[export] Hint Extern 1 (keeps_numbers (update_live _ _ _)) => unfold update_live : records.
#[export] Hint Extern 2 (keeps_numbers (match ?x with _ => _ end)) => destruct x : records.

Lemma keeps_deleteIncoming now id : keeps_numbers (deleteIncoming now id).
Proof. unfold deleteIncoming. auto 10 with records. Qed.
Lemma keeps_deleteOutgoing now id : keeps_numbers (deleteOutgoing now id).
Proof. unfold deleteOutgoing. auto 10 with records. Qed.
Lemma keeps_updateStatus now fresh type id newStatus notes u : keeps_numbers (updateStatus now fresh type id newStatus notes u).
Proof. unfold updateStatus. auto 12 with records. Qed.
Lemma keeps_refer now fresh data u : keeps_numbers (refer now fresh data u).
Proof. unfold refer. auto 12 with records. Qed.
Lemma keeps_link fresh data u : keeps_numbers (link fresh data u).
Proof. unfold link. auto 12 with records. Qed.
Lemma keeps_archive now type id : keeps_numbers (archive now type id).
Proof. unfold archive. auto 12 with records. Qed.
Lemma keeps_addAttachment fresh data u : keeps_numbers (addAttachment fresh data u).
Proof. unfold addAttachment. auto 12 with records. Qed.

Lemma keys_fields_of cols data : keys (fields_of cols data) = cols.
Proof. unfold fields_of, keys. rewrite <- list_fmap_compose. apply list_fmap_id. Qed.

Lemma keeps_update_letter t event missing now id assignments updates :
  "sequence_number" ∉ keys assignments → keeps_numbers (update_letter t event missing now id assignments updates).
Proof.
  intros Ha. unfold update_letter. destruct (bool_decide _); [auto with records|].
  apply keeps_bind; [|auto with records]. unfold update_live. apply keeps_update. rewrite keys_app. set_solver.
Qed.

Lemma given_fields cols data c : c ∈ keys (fields_of (List.filter (given data) cols) data) → c ∈ cols.
Proof. rewrite keys_fields_of, !list_elem_of_In, filter_In. by intros [H _]. Qed.

Lemma keeps_updateIncoming now id data : keeps_numbers (updateIncoming now id data).
Proof.
  apply keeps_update_letter. unfold incoming_assignments. rewrite !keys_app.
  intros [H|[H|H]%elem_of_app]%elem_of_app.
  - apply given_fields in H. revert H. apply (bool_decide_unpack _). reflexivity.
  - destruct (given data _); cbn in H; set_solver.
  - destruct (given data _); cbn in H; set_solver.
Qed.
Lemma keeps_updateOutgoing now id data : keeps_numbers (updateOutgoing now id data).
Proof.
  apply keeps_update_letter. intros H%given_fields. revert H. apply (bool_decide_unpack _). reflexivity.
Qed.

(** ** Sequence numbers are unique *)

Lemma sequence_inj p y n y' n' : 0 <= n → 0 <= n' → sequence p y n = sequence p y' n' → y = y' ∧ n = n'.
Proof.
  intros Hn Hn' H. unfold sequence in H. apply app_inj_l_str in H.
  change ("-" +:+ ?s) with (String "-" s) in H. injection H as H.
  apply split_last_unique_str in H as [Hy%(inj pretty) Hp%pad_start_inj];
    [split; [done|lia]|eapply all_chars_not_in; [by apply pad_digits, pretty_digits|done]..].
Qed.

(** Every number of the table was handed out by its counter, once. *)
Definition numbered_by (scope prefix : string) (c : counters) (l : list json) : Prop :=
  NoDup l ∧ ∀ v, v ∈ l → ∃ year n, 1 <= n <= counter c (scope, pretty year) ∧ v = JStr (sequence prefix year n).

Definition numbered (s : corr_state) : Prop :=
  counters_ok s.(co_counters) ∧
  numbered_by "correspondence_incoming" "INC" s.(co_counters) (numbers "incoming_correspondence" s) ∧
  numbered_by "correspondence_outgoing" "OUT" s.(co_counters) (numbers "outgoing_letters" s).

Lemma numbered_same s s' : same_numbers s s' → numbered s → numbered s'.
Proof.
  intros [Hc Hn] (H1 & H2 & H3). unfold numbered. rewrite Hc, !Hn by (apply (bool_decide_unpack _); reflexivity).
  by split_and!.
Qed.

Lemma numbered_by_grows scope prefix c c' l : advances c c' → numbered_by scope prefix c l → numbered_by scope prefix c' l.
Proof.
  intros Ha [Hnd Hl]. split; [done|]. intros v (y & n & Hn & ->)%Hl. exists y, n. split; [|done].
  specialize (Ha (scope, pretty y)). lia.
Qed.

Lemma advance_counter c scope : counters_ok c → let c' := map_set scope (counter c scope + 1) c in advances c c' ∧ counters_ok c'.
Proof.
  intros Hc. cbv zeta. split; intros s; rewrite counter_set; case_bool_decide; subst;
    try pose proof (Hc scope); try pose proof (Hc s); lia.
Qed.

Lemma numbered_by_next scope prefix c l year :
  counters_ok c → numbered_by scope prefix c l →
  let n := counter c (scope, pretty year) + 1 in
  numbered_by scope prefix (map_set (scope, pretty year) n c) (l ++ [JStr (sequence prefix year n)]).
Proof.
  intros Hc [Hnd Hl] n. destruct (advance_counter c (scope, pretty year) Hc) as [Ha _]. split.
  - apply NoDup_app. split_and!; [done| |apply NoDup_singleton].
    intros v Hv Hin%list_elem_of_singleton. destruct (Hl v Hv) as (y & k & Hk & ->). injection Hin as Hin.
    pose proof (Hc (scope, pretty year)). apply sequence_inj in Hin as [-> ->]; lia.
  - intros v [Hv|Hv%list_elem_of_singleton]%elem_of_app.
    + destruct (Hl v Hv) as (y & k & Hk & ->). exists y, k. split; [|done]. fold n in Ha. specialize (Ha (scope, pretty y)). lia.
    + subst v. exists year, n. split; [|done]. rewrite counter_set, bool_decide_eq_true_2 by done.
      pose proof (Hc (scope, pretty year)). lia.
Qed.

Lemma insert_letter_numbers t values fresh s s' id v :
  run_insert t ([("sequence_number", v)] ++ values) fresh s = (Ok id, s') → "sequence_number" ∉ keys values →
  ∀ t', map (cell "sequence_number") (rows_of s'.(rs_db) t') =
    if bool_decide (t' = t) then map (cell "sequence_number") (rows_of s.(rs_db) t) ++ [v]
    else map (cell "sequence_number") (rows_of s.(rs_db) t').
Proof.
  intros H Hv t'. apply run_insert_Ok in H as (tb & r & Htb & Hr & _ & ->).
  assert (Hc : cell "sequence_number" r = v).
  { rewrite Hr. destruct (is_null _); [rewrite cell_set_ne by done|]; reflexivity. }
  cbn [with_db rs_db]. case_bool_decide; [subst t'|by rewrite rows_of_set_ne].
  rewrite rows_of_set, (rows_of_Some _ _ _ Htb). cbn [set_rows tb_rows]. rewrite map_app. cbn [map]. by rewrite Hc.
Qed.

Lemma numbered_create (incoming : bool) values fresh year s :
  let scope := if incoming then "correspondence_incoming" else "correspondence_outgoing" in
  let t := if incoming then "incoming_correspondence" else "outgoing_letters" in
  let n := counter s.(co_counters) (scope, pretty year) + 1 in
  let v := JStr (sequence (if incoming then "INC" else "OUT") year n) in
  let m := (n ← on_counters (nextCounter scope (pretty year));
            on_rec (run_insert t ([("sequence_number", v)] ++ values) fresh)) in
  "sequence_number" ∉ keys values → numbered s → numbered (m s).2.
Proof.
  intros scope t n v m Hv (Hc & H1 & H2). destruct (advance_counter s.(co_counters) (scope, pretty year) Hc) as [Ha Hok].
  unfold m, mbind, action_bind, on_counters. rewrite nextCounter_run. unfold on_rec. cbn [co_rec].
  fold n in Ha, Hok |- *.
  destruct (run_insert t ([("sequence_number", v)] ++ values) fresh s.(co_rec)) as [[id|e] s'] eqn:Hi; cbn [snd].
  - pose proof (insert_letter_numbers _ _ _ _ _ _ _ Hi Hv) as Hn.
    unfold numbered, numbers in *. cbn [co_rec co_counters]. rewrite !Hn. split; [done|].
    destruct incoming; cbn [bool_decide decide] in *; split.
    + rewrite bool_decide_eq_true_2 by done. by apply numbered_by_next.
    + rewrite bool_decide_eq_false_2 by done. by apply (numbered_by_grows _ _ _ _ _ Ha).
    + rewrite bool_decide_eq_false_2 by done. by apply (numbered_by_grows _ _ _ _ _ Ha).
    + rewrite bool_decide_eq_true_2 by done. by apply numbered_by_next.
  - unfold run_insert in Hi. destruct (sql_insert _ _ _ _) as [[? ?]|]; [discriminate|]. injection Hi as <- <-.
    unfold numbered, numbers in *. cbn [co_rec co_counters].
    split_and!; [done|by apply (numbered_by_grows _ _ _ _ _ Ha)..].
Qed.

Lemma numbered_createIncoming year fresh data u s : numbered s → numbered (createIncoming year fresh data u s).2.
Proof.
  intros Hs. epose proof (numbered_create true
    (fields_of incoming_fields data
       ++ [("follow_up_required", flag (cell "follow_up_required" data));
           ("response_required", flag (cell "response_required" data)); ("created_by", u)]
       ++ letter_defaults "Received") fresh year s _ Hs) as H.
  unfold createIncoming. unfold mbind, action_bind, on_counters in H |- *. rewrite nextCounter_run in H |- *.
  cbv beta iota zeta in H |- *. destruct (on_rec (run_insert _ _ _) _) as [[id|e] s1]; exact H.
  Unshelve. rewrite !keys_app, keys_fields_of. apply (bool_decide_unpack _). reflexivity.
Qed.

Lemma numbered_createOutgoing year fresh data u s : numbered s → numbered (createOutgoing year fresh data u s).2.
Proof.
  intros Hs. epose proof (numbered_create false
    (fields_of outgoing_fields data ++ [("created_by", u)] ++ letter_defaults "Draft") fresh year s _ Hs) as H.
  unfold createOutgoing. unfold mbind, action_bind, on_counters in H |- *. rewrite nextCounter_run in H |- *.
  cbv beta iota zeta in H |- *. destruct (on_rec (run_insert _ _ _) _) as [[id|e] s1]; exact H.
  Unshelve. rewrite !keys_app, keys_fields_of. apply (bool_decide_unpack _). reflexivity.
Qed.

(** The requests that write. *)
Inductive corr_request :=
  | rq_createIncoming (year : Z) (fresh : json) (data : row) (userId : json)
  | rq_createOutgoing (year : Z) (fresh : json) (data : row) (userId : json)
  | rq_updateIncoming (now id : json) (data : row)
  | rq_updateOutgoing (now id : json) (data : row)
  | rq_deleteIncoming (now id : json)
  | rq_deleteOutgoing (now id : json)
  | rq_updateStatus (now fresh : json) (type : string) (id : json) (newStatus notes : string) (userId : json)
  | rq_refer (now fresh : json) (data : row) (userId : json)
  | rq_link (fresh : json) (data : row) (userId : json)
  | rq_archive (now : json) (type : string) (id : json)
  | rq_addAttachment (fresh : json) (data : row) (userId : json).

(** The state after a request, whether it is answered or fails. *)
Definition serve (q : corr_request) (s : corr_state) : corr_state :=
  match q with
  | rq_createIncoming year fresh data u => (createIncoming year fresh data u s).2
  | rq_createOutgoing year fresh data u => (createOutgoing year fresh data u s).2
  | rq_updateIncoming now id data => (updateIncoming now id data s).2
  | rq_updateOutgoing now id data => (updateOutgoing now id data s).2
  | rq_deleteIncoming now id => (deleteIncoming now id s).2
  | rq_deleteOutgoing now id => (deleteOutgoing now id s).2
  | rq_updateStatus now fresh type id newStatus notes u => (updateStatus now fresh type id newStatus notes u s).2
  | rq_refer now fresh data u => (refer now fresh data u s).2
  | rq_link fresh data u => (link fresh data u s).2
  | rq_archive now type id => (archive now type id s).2
  | rq_addAttachment fresh data u => (addAttachment fresh data u s).2
  end.

Lemma numbered_serve q s : numbered s → numbered (serve q s).
Proof.
  intros Hs. destruct q; cbn [serve];
    [by apply numbered_createIncoming|by apply numbered_createOutgoing|apply (numbered_same s); [|done]..].
  - apply keeps_updateIncoming.
  - apply keeps_updateOutgoing.
  - apply keeps_deleteIncoming.
  - apply keeps_deleteOutgoing.
  - apply keeps_updateStatus.
  - apply keeps_refer.
  - apply keeps_link.
  - apply keeps_archive.
  - apply keeps_addAttachment.
Qed.

(** Whatever requests are served after a start without letters, in whatever
    order and whether they fail, the sequence numbers of the incoming letters are
    pairwise different, and so are those of the outgoing ones. *)
Theorem sequence_numbers_unique (requests : list corr_request) s
  (Hincoming : rows_of s.(co_rec).(rs_db) "incoming_correspondence" = [])
  (Houtgoing : rows_of s.(co_rec).(rs_db) "outgoing_letters" = [])
  (Hcounters : counters_ok s.(co_counters)) :
  let s' := foldl (λ s q, serve q s) s requests in
  NoDup (numbers "incoming_correspondence" s') ∧ NoDup (numbers "outgoing_letters" s').
Proof.
  assert (Hs : numbered s).
  { unfold numbered, numbers. rewrite Hincoming, Houtgoing. split; [done|].
    split; (split; [constructor|intros v Hv; by apply elem_of_nil in Hv]). }
  clear Hincoming Houtgoing Hcounters.
  assert (Hs' : numbered (foldl (λ s q, serve q s) s requests)).
  { revert s Hs. induction requests as [|q qs IH]; intros s Hs; [done|]. cbn [foldl]. by apply IH, numbered_serve. }
  destruct Hs' as (_ & [H1 _] & [H2 _]). by split.
Qed.

(** ** Status changes *)

Lemma on_rec_Ok {A} (m : rec_action A) s a s' : on_rec m s = (Ok a, s') → m s.(co_rec) = (Ok a, s'.(co_rec)).
Proof. unfold on_rec. destruct (m (co_rec s)) as [o r]. by intros [= -> <-]. Qed.

Lemma table_of_not_history type : table_of type ≠ "correspondence_status_history".
Proof. unfold table_of. by case_bool_decide. Qed.

(** A status update of a letter that is not deleted writes the new status into it
    and adds one entry with the old and the new status to its history; any other
    request fails and changes nothing. *)
Theorem updateStatus_spec now fresh type id newStatus notes u s :
  let t := table_of type in
  let p r := has_id id r && is_live r in
  match updateStatus now fresh type id newStatus notes u s with
  | (Throw _, s') => s' = s
  | (Ok oldStatus, s') =>
      (∃ r, r ∈ rows_of s.(co_rec).(rs_db) t ∧ p r = true ∧ cell "status" r = oldStatus) ∧
      rows_of s'.(co_rec).(rs_db) t =
        update_where p (set_columns [("status", JStr newStatus); ("updated_at", now)]) (rows_of s.(co_rec).(rs_db) t) ∧
      ∃ h, rows_of s'.(co_rec).(rs_db) "correspondence_status_history"
             = rows_of s.(co_rec).(rs_db) "correspondence_status_history" ++ [h] ∧
           cell "old_status" h = oldStatus ∧ cell "new_status" h = JStr newStatus ∧ cell "correspondence_id" h = id ∧
           cell "correspondence_type" h = JStr (dbType type)
  end.
Proof.
  cbv zeta. destruct (updateStatus now fresh type id newStatus notes u s) as [[answer|e] s'] eqn:H.
  - unfold updateStatus in H. inv_ok.
    match goal with H : on_rec (run_select _ _ _) _ = _ |- _ => apply on_rec_Ok, run_select_Ok in H as (Hs2 & -> & _) end.
    destruct (select _ _) as [|old l] eqn:Hsel; [discriminate|]. unfold update_live in *. inv_ok.
    repeat match goal with H : on_rec _ _ = _ |- _ => apply on_rec_Ok in H end.
    match goal with H : run_update _ _ _ _ _ = _ |- _ => apply run_update_rows in H as (_ & _ & _ & Hu) end.
    match goal with H : run_insert _ _ _ _ = _ |- _ => apply run_insert_Ok in H as (tb & h & Htb & Hh & _ & Hs4) end.
    match goal with H : enqueueEvent _ _ _ = _ |- _ => injection H as _ Hs5 end.
    rewrite <- Hs5. cbn [rs_db]. rewrite Hs4. cbn [with_db rs_db]. rewrite Hs2 in Hu. split_and!.
    + exists old. assert (Ho : old ∈ select (λ r, has_id id r && is_live r) (rows_of (rs_db (co_rec s)) (table_of type)))
        by (rewrite Hsel; set_solver). by apply elem_of_select in Ho as [? ?].
    + rewrite rows_of_set_ne by apply table_of_not_history. rewrite Hu. by rewrite bool_decide_eq_true_2.
    + exists h. rewrite rows_of_set. cbn [set_rows tb_rows]. rewrite <- (rows_of_Some _ _ _ Htb), Hu.
      rewrite bool_decide_eq_false_2 by (symmetry; apply table_of_not_history || apply not_eq_sym, table_of_not_history).
      split; [done|]. rewrite Hh. by split_and!; reflexivity.
  - unfold updateStatus in H. apply bind_Throw in H as [H|(old & s1 & _ & H)].
    + apply transaction_Throw in H as (s1 & _ & ->). by destruct s.
    + apply bind_Throw in H as [H|(? & ? & _ & H)]; discriminate.
Qed.

(** ** A registry of letters *)

Module Letters.
Definition letter_columns : list string :=
  ["id"; "sequence_number"; "follow_up_required"; "response_required"; "created_by"; "status"; "is_archived";
   "updated_at"; "deleted_at"; "recipient_entity"; "sending_method"; "attachment_file"] ++ incoming_fields.
Definition tables : database :=
  [("incoming_correspondence", {| tb_columns := letter_columns; tb_rows := [] |});
   ("outgoing_letters", {| tb_columns := letter_columns; tb_rows := [] |});
   ("correspondence_attachments",
     {| tb_columns := ["id"; "correspondence_id"; "correspondence_type"; "file_name"; "file_type"; "file_data";
                       "description"; "uploaded_by"; "deleted_at"]; tb_rows := [] |});
   ("correspondence_referrals",
     {| tb_columns := ["id"; "incoming_id"; "from_user_id"; "to_dept_id"; "to_user_id"; "notes"]; tb_rows := [] |});
   ("correspondence_status_history",
     {| tb_columns := ["id"; "correspondence_id"; "correspondence_type"; "old_status"; "new_status"; "changed_by"; "notes"];
        tb_rows := [] |})].
Definition start : corr_state := {| co_rec := {| rs_db := tables; rs_events := []; rs_audit := []; rs_trail_up := true |}; co_counters := [] |}.
Definition user : json := JStr "u1".
Definition letter : row := [("subject", JStr "Inspection"); ("sender_entity", JStr "Central Bank")].
Definition run (requests : list corr_request) : corr_state := foldl (λ s q, serve q s) start requests.
Definition rows (t : string) (s : corr_state) : list row := rows_of s.(co_rec).(rs_db) t.
Definition received : corr_state := run [rq_createIncoming 2025 (JStr "1") letter user].

Example two_years :
  numbers "incoming_correspondence"
    (run [rq_createIncoming 2024 (JStr "1") letter user; rq_createIncoming 2025 (JStr "2") letter user;
          rq_createIncoming 2025 (JStr "3") letter user])
  = [JStr "INC-2024-0001"; JStr "INC-2025-0001"; JStr "INC-2025-0002"].
Proof. reflexivity. Qed.

(** Archiving and referring change the status of a letter and leave no entry in
    its status history, so the next entry does not follow the one before it. *)
Theorem status_changes_without_history :
  let referred := serve (rq_refer (JStr "t1") (JStr "8") [("incoming_id", JStr "1"); ("to_dept_id", JStr "d")] user) received in
  let archived := serve (rq_archive (JStr "t2") "incoming" (JStr "1")) referred in
  map (cell "status") (rows "incoming_correspondence" received) = [JStr "Received"] ∧
  map (cell "status") (rows "incoming_correspondence" referred) = [JStr "Referred"] ∧
  map (cell "status") (rows "incoming_correspondence" archived) = [JStr "Archived"] ∧
  rows "correspondence_status_history" archived = [].
Proof. vm_compute. done. Qed.

Definition attachment : row :=
  [("correspondence_id", JStr "1"); ("correspondence_type", JStr "incoming"); ("file_name", JStr "a.pdf")].

(** The attachments of a deleted letter are deleted with it and listed all the
    same; a second deletion is answered with not found and still deletes the
    attachments that were added in between. *)
Theorem deleted_attachments_listed :
  let deleted := serve (rq_deleteIncoming (JStr "t1") (JStr "1")) (serve (rq_addAttachment (JStr "a1") attachment user) received) in
  let added := serve (rq_addAttachment (JStr "a2") attachment user) deleted in
  map is_live (rows "correspondence_attachments" deleted) = [false] ∧
  (∃ l, (getAttachments "incoming" (JStr "1") deleted).1 = Ok l ∧ length l = 1%nat) ∧
  is_ok (deleteIncoming (JStr "t2") (JStr "1") added).1 = false ∧
  map is_live (rows "correspondence_attachments" added) = [false; true] ∧
  map is_live (rows "correspondence_attachments" (deleteIncoming (JStr "t2") (JStr "1") added).2) = [false; false].
Proof. cbv zeta. split_and!; [reflexivity|eexists; split; reflexivity|reflexivity..]. Qed.
End Letters.

Lemma sequence_numbers_unique_witness :
  NoDup (numbers "incoming_correspondence"
    (Letters.run [rq_createIncoming 2025 (JStr "1") Letters.letter Letters.user;
                  rq_deleteIncoming (JStr "t") (JStr "1");
                  rq_createIncoming 2025 (JStr "2") Letters.letter Letters.user])).
Proof.
  refine (proj1 (sequence_numbers_unique [rq_createIncoming 2025 (JStr "1") Letters.letter Letters.user;
    rq_deleteIncoming (JStr "t") (JStr "1"); rq_createIncoming 2025 (JStr "2") Letters.letter Letters.user]
    Letters.start eq_refl eq_refl _)).
  intros scope. vm_compute. discriminate.
Defined.
