(* ===== verification/Archive.v ===== *)
(** * Archiving a plan ([src/src/services/ArchiveService.ts])

    A plan whose tasks, findings and recommendations are closed is copied into
    the archive tables with all its records, as JSON, and the records are
    deleted.  Generated ids come from a function of table and position; the
    webhook that announces the archive may fail at each attempt. *)

From S2P Require Import Prelude JsMap JsStrings Json Records GenericRecords.
Local Open Scope Z_scope.

(** [column <> value], unknown for null *)
Definition sql_ne (a b : json) : bool := negb (is_null a) && negb (is_null b) && negb (sql_eq a b).

Definition allowedRoles : list string := ["Manager"; "Admin"].

Definition of_plan (column : string) (planId : json) (r : row) : bool := sql_eq (cell column r) planId.

(** [finding_id IN (SELECT id FROM audit_findings WHERE audit_id = ?)] *)
Definition of_plan_finding (findings : list row) (planId : json) (r : row) : bool :=
  existsb (λ f, of_plan "audit_id" planId f && sql_eq (cell "finding_id" r) (cell "id" f)) findings.

(** [status NOT IN ('Implemented', 'Closed')] *)
Definition open_rec (r : row) : bool :=
  sql_ne (cell "status" r) (JStr "Implemented") && sql_ne (cell "status" r) (JStr "Closed").

Definition already_archived : app_error := NotFoundError "The plan is archived already".
Definition no_plan : app_error := NotFoundError "The plan does not exist or is archived".
Definition open_items (what : string) : app_error := ValidationError ("Close all " +:+ what +:+ " before archiving").
Definition incomplete (what : string) : app_error := GenericError ("Incomplete archive of " +:+ what).

(** The JSON text a record is archived as. *)
Definition snapshot (r : row) : json := JStr (stringify (JObj r)).

Definition archived (idColumn dataColumn : string) (planId : json) (r : row) : row :=
  [(idColumn, cell "id" r); ("plan_id", planId); (dataColumn, snapshot r)].

Section archive_plan.
Context (fresh : string → nat → json).

Fixpoint archive_rows (target idColumn dataColumn : string) (planId : json) (i : nat) (rows : list row) : rec_action unit :=
  match rows with
  | [] => mret tt
  | r :: rest =>
      _ ← run_insert target (archived idColumn dataColumn planId r) (fresh target i);
      archive_rows target idColumn dataColumn planId (S i) rest
  end.

(** [SELECT COUNT( * ) .. WHERE plan_id = ?] is the number of rows copied. *)
Definition check_copied (target what : string) (planId : json) (n : nat) : rec_action unit :=
  copied ← run_select target ["plan_id"] (of_plan "plan_id" planId);
  ensure (bool_decide (length copied = n)) (incomplete what).

(** The rows of a join of recommendations with the findings of the plan. *)
Definition joined_recs (recs findings : list row) (planId : json) : list row :=
  flat_map (λ r, map (λ _, r)
    (select (λ f, sql_eq (cell "finding_id" r) (cell "id" f) && of_plan "audit_id" planId f) findings)) recs.

Definition archive_body (now planId : json) (userId : string) : rec_action unit :=
  plans ← run_select "audit_plans" ["id"; "is_archived"] (λ r, has_id planId r && sql_eq (cell "is_archived" r) (JBool false));
  match plans with
  | [] =>
      existing ← run_select "audit_plans" ["id"; "is_archived"] (has_id planId);
      match existing with
      | p :: _ => if bool_decide (value_text (cell "is_archived" p) = "true") then throw already_archived else throw no_plan
      | [] => throw no_plan
      end
  | plan :: _ =>
      openTasks ← run_select "audit_tasks" ["plan_id"; "status"]
                    (λ r, of_plan "plan_id" planId r && sql_ne (cell "status" r) (JStr "completed"));
      _ ← ensure (bool_decide (openTasks = [])) (open_items "tasks");
      openFindings ← run_select "audit_findings" ["audit_id"; "status"]
                    (λ r, of_plan "audit_id" planId r && sql_ne (cell "status" r) (JStr "Closed"));
      _ ← ensure (bool_decide (openFindings = [])) (open_items "findings");
      allFindings ← run_select "audit_findings" ["id"; "audit_id"] (λ _, true);
      openRecs ← run_select "recommendations" ["finding_id"; "status"]
                   (λ r, of_plan_finding allFindings planId r && open_rec r);
      _ ← ensure (bool_decide (openRecs = [])) (open_items "recommendations");
      _ ← run_insert "archived_plans" [("original_plan_id", planId); ("plan_data", snapshot plan);
                                       ("year", cell "year" plan); ("archived_by", JStr userId)] (fresh "archived_plans" 0%nat);
      tasks ← run_select "audit_tasks" ["plan_id"] (of_plan "plan_id" planId);
      _ ← archive_rows "archived_tasks" "original_task_id" "task_data" planId 0 tasks;
      findings ← run_select "audit_findings" ["audit_id"] (of_plan "audit_id" planId);
      _ ← archive_rows "archived_findings" "original_finding_id" "finding_data" planId 0 findings;
      allRecs ← run_select "recommendations" ["finding_id"] (λ _, true);
      let recs := joined_recs allRecs allFindings planId in
      _ ← archive_rows "archived_recommendations" "original_recommendation_id" "recommendation_data" planId 0 recs;
      evidence ← run_select "audit_evidence" ["audit_id"] (of_plan "audit_id" planId);
      _ ← archive_rows "archived_evidence" "original_evidence_id" "evidence_data" planId 0 evidence;
      _ ← check_copied "archived_tasks" "tasks" planId (length tasks);
      _ ← check_copied "archived_findings" "findings" planId (length findings);
      _ ← check_copied "archived_recommendations" "recommendations" planId (length recs);
      _ ← check_copied "archived_evidence" "evidence" planId (length evidence);
      _ ← run_delete "audit_evidence" ["audit_id"] (of_plan "audit_id" planId);
      _ ← run_delete "recommendations" ["finding_id"] (of_plan_finding allFindings planId);
      _ ← run_delete "audit_findings" ["audit_id"] (of_plan "audit_id" planId);
      _ ← run_delete "audit_tasks" ["plan_id"] (of_plan "plan_id" planId);
      _ ← run_update "audit_plans" ["id"] (has_id planId)
            [("is_archived", JBool true); ("archived_at", now); ("archived_by", JStr userId); ("status", JStr "Archived")];
      mret tt
  end.

Definition MAX_N8N_RETRIES : nat := 3.

(** [left] attempts are left; [sends k] tells whether attempt [k] succeeds. *)
Fixpoint send_attempts (sends : nat → bool) (payload : json) (attempt left : nat) : rec_action unit :=
  match left with
  | O => mret tt
  | S left' => if sends attempt then enqueueEvent "audit_plan.archived" payload
               else send_attempts sends payload (S attempt) left'
  end.

Definition sendArchiveEventWithRetry (sends : nat → bool) (planId : json) (userId : string) : rec_action unit :=
  plans ← run_select "audit_plans" ["year"; "id"] (has_id planId);
  send_attempts sends (JObj [("planId", planId); ("year", from_option (cell "year") JNull (hd_error plans));
                             ("archivedBy", JStr userId)]) 1 MAX_N8N_RETRIES.

Definition archivePlan (sends : nat → bool) (now planId : json) (userId userRole : string) : rec_action unit :=
  _ ← ensure (bool_decide (userRole ∈ allowedRoles)) (ForbiddenError "not allowed to archive");
  _ ← transaction rec_rollback (archive_body now planId userId);
  sendArchiveEventWithRetry sends planId userId.
End archive_plan.

(** ** What an archived plan leaves behind *)

(** Source, archive table and data column of the records of a plan. *)
Definition kinds : list (string * string * string) :=
  [("audit_tasks", "archived_tasks", "task_data"); ("audit_findings", "archived_findings", "finding_data");
   ("recommendations", "archived_recommendations", "recommendation_data");
   ("audit_evidence", "archived_evidence", "evidence_data")].

(** [a] is the archived copy of [r]. *)
Definition copy_of (idColumn dataColumn : string) (planId : json) (r a : row) : Prop :=
  cell dataColumn a = snapshot r ∧ cell "plan_id" a = planId.

Lemma archived_copy idColumn dataColumn planId r fresh_id :
  dataColumn ≠ idColumn → dataColumn ≠ "plan_id" → dataColumn ≠ "id" → idColumn ≠ "plan_id" →
  let v := archived idColumn dataColumn planId r in
  copy_of idColumn dataColumn planId r (if is_null (cell "id" v) then map_set "id" fresh_id v else v).
Proof.
  intros H1 H2 H3 H4 v.
  assert (Hc : copy_of idColumn dataColumn planId r v).
  { unfold copy_of, v, archived, cell. cbn -[bool_decide].
    rewrite !(bool_decide_eq_false_2 (dataColumn = _)), (bool_decide_eq_true_2 (dataColumn = dataColumn)) by done.
    rewrite (bool_decide_eq_false_2 ("plan_id" = idColumn)) by congruence. done. }
  destruct (is_null _); [|done]. destruct Hc as [Ha Hb]. split; by rewrite cell_set_ne.
Qed.

Lemma archive_rows_rows fresh target idColumn dataColumn planId rows :
  dataColumn ≠ idColumn → dataColumn ≠ "plan_id" → dataColumn ≠ "id" → idColumn ≠ "plan_id" →
  ∀ i s u s', archive_rows fresh target idColumn dataColumn planId i rows s = (Ok u, s') →
  ∃ copies, Forall2 (copy_of idColumn dataColumn planId) rows copies ∧
    ∀ t', rows_of s'.(rs_db) t' =
      if bool_decide (t' = target) then rows_of s.(rs_db) target ++ copies else rows_of s.(rs_db) t'.
Proof.
  intros H1 H2 H3 H4. induction rows as [|r rows IH]; intros i s u s' H; cbn [archive_rows] in H.
  - injection H as <- <-. exists []. split; [constructor|]. intros t'. case_bool_decide; [|done]. by rewrite app_nil_r, H.
  - apply bind_Ok in H as (x & s1 & Hi & H). apply IH in H as (copies & Hf & Hr).
    apply run_insert_Ok in Hi as (tb & a & Htb & Ha & _ & ->).
    exists (a :: copies). split.
    + constructor; [|done]. rewrite Ha. by apply archived_copy.
    + intros t'. rewrite Hr. cbn [with_db rs_db]. case_bool_decide; [subst|by apply rows_of_set_ne].
      rewrite rows_of_set, (rows_of_Some _ _ _ Htb). cbn [set_rows tb_rows]. by rewrite <- app_assoc.
Qed.

Lemma check_copied_Ok target what planId n s u s' : check_copied target what planId n s = (Ok u, s') → s' = s.
Proof. intros H. unfold check_copied in H. inv_ok. by match goal with H : run_select _ _ _ _ = _ |- _ => apply run_select_Ok in H as (-> & _) end. Qed.

Lemma elem_of_joined recs findings planId r :
  r ∈ recs → of_plan_finding findings planId r = true → r ∈ joined_recs recs findings planId.
Proof.
  intros Hr (f & Hf & [Ha Hb]%andb_true_iff)%existsb_exists. apply list_elem_of_In, in_flat_map.
  exists r. split; [by apply list_elem_of_In|]. apply in_map_iff. exists f. split; [done|].
  apply list_elem_of_In, elem_of_select. rewrite list_elem_of_In. by rewrite Ha, Hb.
Qed.

(** Every record with [p] in the source is copied to the target and deleted, no other is touched. *)
Definition moved (s s' : rec_state) (source target column : string) (planId : json) (p : row → bool) : Prop :=
  rows_of s'.(rs_db) source = delete_where p (rows_of s.(rs_db) source) ∧
  (∃ copies, rows_of s'.(rs_db) target = rows_of s.(rs_db) target ++ copies ∧
     ∀ r, r ∈ rows_of s.(rs_db) source → p r = true →
       ∃ a, a ∈ copies ∧ cell column a = snapshot r ∧ cell "plan_id" a = planId).

Lemma copies_complete idc col planId rows copies r :
  Forall2 (copy_of idc col planId) rows copies → r ∈ rows →
  ∃ a, a ∈ copies ∧ cell col a = snapshot r ∧ cell "plan_id" a = planId.
Proof.
  intros Hf Hr. apply list_elem_of_lookup in Hr as [i Hi].
  destruct (Forall2_lookup_l _ _ _ _ _ Hf Hi) as (a & Ha & Hc). exists a.
  split; [by apply list_elem_of_lookup_2 in Ha|exact Hc].
Qed.

Lemma select_true (l : list row) : select (λ _, true) l = l.
Proof. unfold select. induction l as [|x l IH]; [done|]. cbn. by rewrite IH. Qed.

Lemma moved_intro s s' source target column idc planId p copies rows :
  Forall2 (copy_of idc column planId) rows copies →
  (∀ r, r ∈ rows_of s.(rs_db) source → p r = true → r ∈ rows) →
  rows_of s'.(rs_db) source = delete_where p (rows_of s.(rs_db) source) →
  rows_of s'.(rs_db) target = rows_of s.(rs_db) target ++ copies →
  moved s s' source target column planId p.
Proof.
  intros Hf Hin Hd Hc. split; [done|]. exists copies. split; [done|]. intros r Hr Hp.
  by apply (copies_complete _ _ _ _ _ _ Hf), Hin.
Qed.

Ltac run_rows :=
  repeat match goal with
  | H : run_select _ _ _ _ = (Ok _, _) |- _ => apply run_select_Ok in H as (? & ? & _); subst
  | H : check_copied _ _ _ _ _ = (Ok _, _) |- _ => apply check_copied_Ok in H; subst
  | H : run_delete _ _ _ _ = (Ok _, _) |- _ => apply run_delete_rows in H as (_ & _ & H)
  | H : run_update _ _ _ _ _ = (Ok _, _) |- _ => apply run_update_rows in H as (_ & _ & _ & H)
  | H : run_insert _ _ _ _ = (Ok _, _) |- _ =>
      let r := fresh "new" in apply run_insert_rows in H as (_ & _ & r & _ & H)
  | H : archive_rows _ _ _ _ _ _ _ _ = (Ok _, _) |- _ =>
      let l := fresh "copies" in let Hl := fresh "Hcopies" in
      apply archive_rows_rows in H as (l & Hl & H); [|done..]
  end.

Lemma archive_body_Ok fresh now planId userId s u s' :
  archive_body fresh now planId userId s = (Ok u, s') →
  let old t := rows_of s.(rs_db) t in
  (∀ r, r ∈ old "audit_tasks" → of_plan "plan_id" planId r = true → sql_ne (cell "status" r) (JStr "completed") = false) ∧
  (∀ r, r ∈ old "audit_findings" → of_plan "audit_id" planId r = true → sql_ne (cell "status" r) (JStr "Closed") = false) ∧
  (∀ r, r ∈ old "recommendations" → of_plan_finding (old "audit_findings") planId r = true → open_rec r = false) ∧
  moved s s' "audit_tasks" "archived_tasks" "task_data" planId (of_plan "plan_id" planId) ∧
  moved s s' "audit_findings" "archived_findings" "finding_data" planId (of_plan "audit_id" planId) ∧
  moved s s' "recommendations" "archived_recommendations" "recommendation_data" planId
    (of_plan_finding (old "audit_findings") planId) ∧
  moved s s' "audit_evidence" "archived_evidence" "evidence_data" planId (of_plan "audit_id" planId) ∧
  (∃ values, rows_of s'.(rs_db) "audit_plans" = update_where (has_id planId) (set_columns values) (old "audit_plans") ∧
     map_get "is_archived" values = Some (JBool true)).
Proof.
  intros H old. unfold archive_body in H. inv_ok.
  match goal with H : run_select "audit_plans" _ _ _ = _ |- _ => apply run_select_Ok in H as (-> & Hplans & _) end.
  destruct r as [|plan plans].
  { inv_ok. destruct r as [|p l]; [discriminate|]. destruct (bool_decide _); discriminate. }
  inv_ok. bools. run_rows.
  rewrite ?select_true in *.
  repeat match goal with H : [] = select _ _ |- _ => symmetry in H; rewrite select_nil in H end.
  split_and!.
  - intros r Hr Hp. match goal with H : ∀ r, r ∈ rows_of _ "audit_tasks" → _ |- _ => specialize (H r Hr); by rewrite Hp in H end.
  - intros r Hr Hp. match goal with H : ∀ r, r ∈ rows_of _ "audit_findings" → _ |- _ => specialize (H r Hr); by rewrite Hp in H end.
  - intros r Hr Hp. match goal with H : ∀ r, r ∈ rows_of _ "recommendations" → _ |- _ => specialize (H r Hr); unfold old in Hp; by rewrite Hp in H end.
  - eapply moved_intro; [eassumption|..|by rows_after|by rows_after].
    intros r Hr Hp. apply elem_of_select. split; [rows_after; exact Hr|exact Hp].
  - eapply moved_intro; [eassumption|..|by rows_after|by rows_after].
    intros r Hr Hp. apply elem_of_select. split; [rows_after; exact Hr|exact Hp].
  - eapply moved_intro; [eassumption|..|by rows_after|by rows_after].
    intros r Hr Hp. apply elem_of_joined; [rows_after; exact Hr|exact Hp].
  - eapply moved_intro; [eassumption|..|by rows_after|by rows_after].
    intros r Hr Hp. apply elem_of_select. split; [rows_after; exact Hr|exact Hp].
  - eexists. split; [by rows_after|done].
Qed.

Lemma send_attempts_db sends payload : ∀ left attempt s,
  (send_attempts sends payload attempt left s).1 = Ok tt ∧
  (send_attempts sends payload attempt left s).2.(rs_db) = s.(rs_db).
Proof. induction left as [|left IH]; intros attempt s; cbn [send_attempts]; [done|]. by destruct (sends attempt). Qed.

Lemma sendArchiveEvent_db sends planId userId s :
  let '(r, s') := sendArchiveEventWithRetry sends planId userId s in
  s'.(rs_db) = s.(rs_db) ∧ match r with Ok _ => True | Throw e => e = sql_error end.
Proof.
  unfold sendArchiveEventWithRetry, mbind, action_bind, run_select.
  destruct (sql_select _ _ _ _) as [plans|e] eqn:Hs.
  - match goal with |- context [send_attempts ?f ?p ?a ?l ?st] => destruct (send_attempts_db f p l a st) as [H1 H2];
      destruct (send_attempts f p a l st) as [r s'] end. cbn in H1, H2. by subst r.
  - split; [done|]. unfold sql_select in Hs. destruct (map_get _ _); [destruct (forallb _ _); [discriminate|]|]; by injection Hs.
Qed.

(** The records of a plan, by table. *)
Definition plan_records (old : string → list row) (planId : json) (source : string) : row → bool :=
  if bool_decide (source = "audit_tasks") then of_plan "plan_id" planId
  else if bool_decide (source = "recommendations") then of_plan_finding (old "audit_findings") planId
  else of_plan "audit_id" planId.

Lemma archivePlan_moved fresh sends now planId userId userRole s u s' :
  archivePlan fresh sends now planId userId userRole s = (Ok u, s') →
  userRole ∈ allowedRoles ∧
  ∀ source target column, (source, target, column) ∈ kinds →
    moved s s' source target column planId (plan_records (rows_of s.(rs_db)) planId source).
Proof.
  intros H. unfold archivePlan in H. apply bind_Ok in H as (? & s0 & Hrole & H). inv_ok. bools. split; [done|].
  match goal with H : archive_body _ _ _ _ _ = _ |- _ => apply archive_body_Ok in H as (_ & _ & _ & Ht & Hf & Hr & He & _) end.
  match goal with H : sendArchiveEventWithRetry ?f ?p ?i ?st = _ |- _ =>
    pose proof (sendArchiveEvent_db f p i st) as Hd; rewrite H in Hd; destruct Hd as [Hd _] end.
  intros source target column Hin. unfold moved in *. rewrite Hd.
  repeat (apply elem_of_cons in Hin as [[= -> -> ->]|Hin]; [assumption|]). by apply elem_of_nil in Hin.
Qed.

(** Archiving loses nothing and leaves nothing behind: a record of the plan is
    gone from its table and is in the archive as a JSON text that reads back as
    the record, and every other record stays.  Only a manager or an administrator
    archives, and a refusal or a failure before the commit changes nothing. *)
Theorem archivePlan_complete fresh sends now planId userId userRole s :
  let old := rows_of s.(rs_db) in
  match archivePlan fresh sends now planId userId userRole s with
  | (Throw e, s') => s' = s ∨ e = sql_error
  | (Ok _, s') =>
      userRole ∈ allowedRoles ∧
      ∀ source target column, (source, target, column) ∈ kinds →
        (∀ r, r ∈ rows_of s'.(rs_db) source ↔ r ∈ old source ∧ plan_records old planId source r = false) ∧
        (∀ r, r ∈ old source → plan_records old planId source r = true →
           ∃ a text, a ∈ rows_of s'.(rs_db) target ∧ cell "plan_id" a = planId ∧ cell column a = JStr text ∧
             (json_ok (JObj r) = true → JSON_parse text = Some (JObj r))) ∧
        (∀ a, a ∈ old target → a ∈ rows_of s'.(rs_db) target)
  end.
Proof.
  intros old. destruct (archivePlan fresh sends now planId userId userRole s) as [[u|e] s'] eqn:H.
  - apply archivePlan_moved in H as [Hrole Hm]. split; [done|]. intros source target column Hk.
    destruct (Hm _ _ _ Hk) as [Hd (copies & Hc & Hcopy)]. rewrite Hd, Hc. split_and!.
    + intros r. apply elem_of_delete_where.
    + intros r Hr Hp. destruct (Hcopy r Hr Hp) as (a & Ha & Hs & Hi). exists a, (stringify (JObj r)).
      split_and!; [set_solver|done|done|apply JSON_parse_stringify].
    + set_solver.
  - unfold archivePlan in H. apply bind_Throw in H as [H|(? & s0 & Hrole & H)]; [left; unfold ensure in H; destruct (bool_decide _); by injection H|].
    inv_ok. apply bind_Throw in H as [H|(? & s1 & _ & H)].
    + left. by apply atomic_transaction in H.
    + right. pose proof (sendArchiveEvent_db sends planId userId s1) as Hd. rewrite H in Hd. by destruct Hd.
Qed.

(** A plan is archived only when its tasks are completed, its findings closed and
    the recommendations of its findings implemented or closed, and it is marked
    as archived. *)
Theorem archived_plan_was_closed fresh now planId userId s u s'
  (Hrun : archive_body fresh now planId userId s = (Ok u, s')) :
  let old := rows_of s.(rs_db) in
  (∀ r, r ∈ old "audit_tasks" → of_plan "plan_id" planId r = true → sql_ne (cell "status" r) (JStr "completed") = false) ∧
  (∀ r, r ∈ old "audit_findings" → of_plan "audit_id" planId r = true → sql_ne (cell "status" r) (JStr "Closed") = false) ∧
  (∀ r, r ∈ old "recommendations" → of_plan_finding (old "audit_findings") planId r = true → open_rec r = false) ∧
  ∃ values, rows_of s'.(rs_db) "audit_plans" = update_where (has_id planId) (set_columns values) (old "audit_plans") ∧
     map_get "is_archived" values = Some (JBool true).
Proof. destruct (archive_body_Ok _ _ _ _ _ _ _ Hrun) as (H1 & H2 & H3 & _ & _ & _ & _ & H4). done. Qed.

(** ** A plan with one record of each kind *)

Module OnePlan.
Definition fresh (t : string) (i : nat) : json := JStr (t +:+ pretty (N.of_nat i)).
Definition tbl (cols : list string) (rows : list row) : table := {| tb_columns := "id" :: cols; tb_rows := rows |}.
Definition db (task_status : string) : database :=
  [("audit_plans", tbl ["year"; "status"; "is_archived"; "archived_at"; "archived_by"]
      [[("id", JStr "p"); ("year", JNum "2025"); ("status", JStr "Closed"); ("is_archived", JBool false)]]);
   ("audit_tasks", tbl ["plan_id"; "status"]
      [[("id", JStr "t"); ("plan_id", JStr "p"); ("status", JStr task_status)]; [("id", JStr "t2"); ("plan_id", JStr "q")]]);
   ("audit_findings", tbl ["audit_id"; "status"] [[("id", JStr "f"); ("audit_id", JStr "p"); ("status", JStr "Closed")]]);
   ("recommendations", tbl ["finding_id"; "status"] [[("id", JStr "r"); ("finding_id", JStr "f"); ("status", JStr "Implemented")]]);
   ("audit_evidence", tbl ["audit_id"] [[("id", JStr "e"); ("audit_id", JStr "p")]]);
   ("archived_plans", tbl ["original_plan_id"; "plan_data"; "year"; "archived_by"] []);
   ("archived_tasks", tbl ["original_task_id"; "plan_id"; "task_data"] []);
   ("archived_findings", tbl ["original_finding_id"; "plan_id"; "finding_data"] []);
   ("archived_recommendations", tbl ["original_recommendation_id"; "plan_id"; "recommendation_data"] []);
   ("archived_evidence", tbl ["original_evidence_id"; "plan_id"; "evidence_data"] [])].
Definition state (task_status : string) : rec_state := {| rs_db := db task_status; rs_events := []; rs_audit := []; rs_trail_up := true |}.
Definition run (task_status role : string) :=
  archivePlan fresh (Nat.eqb 3) (JStr "2025") (JStr "p") "u1" role (state task_status).

Example archived_texts :
  map (cell "task_data") (rows_of (run "completed" "Manager").2.(rs_db) "archived_tasks")
  = [snapshot [("id", JStr "t"); ("plan_id", JStr "p"); ("status", JStr "completed")]] ∧
  map fst (run "completed" "Manager").2.(rs_events) = ["audit_plan.archived"].
Proof. vm_compute. done. Qed.

Example open_task : run "pending" "Manager" = (Throw (open_items "tasks"), state "pending").
Proof. reflexivity. Qed.
Example auditor_refused : run "completed" "Internal Auditor" = (Throw (ForbiddenError "not allowed to archive"), state "completed").
Proof. reflexivity. Qed.
Definition body := archive_body fresh (JStr "2025") (JStr "p") "u1" (state "completed").
End OnePlan.

Lemma archived_plan_was_closed_witness :
  OnePlan.body.1 = Ok tt ∧
  ∃ values, rows_of OnePlan.body.2.(rs_db) "audit_plans"
    = update_where (has_id (JStr "p")) (set_columns values) (rows_of (OnePlan.db "completed") "audit_plans") ∧
    map_get "is_archived" values = Some (JBool true).
Proof.
  assert (H : OnePlan.body = (Ok tt, OnePlan.body.2)) by (vm_compute; reflexivity).
  split; [by rewrite H|].
  exact (proj2 (proj2 (proj2 (archived_plan_was_closed OnePlan.fresh (JStr "2025") (JStr "p") "u1"
    (OnePlan.state "completed") tt OnePlan.body.2 H)))).
Defined.
