(* ===== verification/AuditPrograms.v ===== *)
(** * Audit programs ([src/src/services/AuditProgramService.ts])

    Creation with links to risks and compliance items, duplication and approval.
    The notification of a creation is recorded among the events of its
    transaction; what the permission service answers for the approver is an
    argument, as are the generated ids. *)

From S2P Require Import Prelude JsMap JsStrings Json Records GenericRecords.
Local Open Scope Z_scope.

Record CreateProgramInput := {
  cp_fields : row;  (** [program_code] .. [reference_standard] *)
  cp_risk_ids : list string;
  cp_compliance_item_ids : list string }.

Definition program_columns : list string :=
  ["program_code"; "program_title"; "audit_area"; "department"; "audit_type"; "audit_objective"; "audit_scope"].

Definition MAX_LINKS : nat := 200.

(** [x || ''] *)
Definition or_empty (v : json) : json := match v with JStr s => JStr s | _ => JStr "" end.

Definition missing_ids (existing : list row) (ids : list string) : list string :=
  List.filter (λ i, negb (existsb (λ r, sql_eq (cell "id" r) (JStr i)) existing)) ids.

(** All of [ids] are rows of [t]. *)
Definition require_rows (t : string) (ids : list string) (missing : string) : rec_action unit :=
  if bool_decide (ids = []) then mret tt
  else
    existing ← run_select t ["id"] (λ r, existsb (λ i, sql_eq (cell "id" r) (JStr i)) ids);
    ensure (bool_decide (missing_ids existing ids = [])) (ValidationError missing).

Fixpoint insert_links (fresh : nat → json) (t column : string) (programId : json) (i : nat) (ids : list string)
    : rec_action unit :=
  match ids with
  | [] => mret tt
  | x :: rest =>
      _ ← run_insert t [("program_id", programId); (column, JStr x)] (fresh i);
      insert_links fresh t column programId (S i) rest
  end.

Definition forbidden_program : app_error := ForbiddenError "Only an internal auditor creates audit programs".

(** [fresh t i]: the id generated for insertion [i] into [t] *)
Definition createProgram (fresh : string → nat → json) (data : CreateProgramInput) (userId userRole : string)
    : rec_action json :=
  _ ← ensure (bool_decide (userRole = "Internal Auditor")) forbidden_program;
  _ ← ensure (negb (MAX_LINKS <? length data.(cp_risk_ids))%nat) (ValidationError "risk_ids");
  _ ← ensure (negb (MAX_LINKS <? length data.(cp_compliance_item_ids))%nat) (ValidationError "compliance_item_ids");
  _ ← ensure (bool_decide (NoDup data.(cp_risk_ids))) (ValidationError "duplicate risk_ids");
  _ ← ensure (bool_decide (NoDup data.(cp_compliance_item_ids))) (ValidationError "duplicate compliance_item_ids");
  transaction rec_rollback
    (_ ← require_rows "risk_register" data.(cp_risk_ids) "missing risk_ids";
     _ ← require_rows "compliance_items" data.(cp_compliance_item_ids) "missing compliance_item_ids";
     programId ← run_insert "audit_programs"
       (map (λ c, (c, cell c data.(cp_fields))) program_columns
          ++ [("key_risks", or_empty (cell "key_risks" data.(cp_fields)));
              ("reference_standard", or_empty (cell "reference_standard" data.(cp_fields)));
              ("status", JStr "Draft"); ("version_number", JNum "1"); ("created_by", JStr userId)])
       (fresh "audit_programs" 0%nat);
     _ ← insert_links (fresh "program_risk_links") "program_risk_links" "risk_id" programId 0 data.(cp_risk_ids);
     _ ← insert_links (fresh "program_compliance_links") "program_compliance_links" "compliance_item_id" programId 0
           data.(cp_compliance_item_ids);
     recipients ← run_select "users" ["id"; "role"; "status"]
       (λ r, (sql_eq (cell "role" r) (JStr "Manager") || sql_eq (cell "role" r) (JStr "Admin"))
               && sql_eq (cell "status" r) (JStr "Active"));
     _ ← (if bool_decide (recipients = []) then mret tt
          else enqueueEvent "notification:record_created"
                 (JObj [("recipients", JArr (map (cell "id") recipients)); ("entityId", programId)]));
     mret programId).

Definition drop_columns (columns : list string) (r : row) : row := foldl (λ r c, map_delete c r) r columns.

(** [`${x}${suffix}`]; a null reads as the text null *)
Definition template (v : json) (suffix : string) : json :=
  JStr ((if is_null v then "null" else value_text v) +:+ suffix).

Definition duplicated (program : row) (username : string) : row :=
  set_columns [("program_title", template (cell "program_title" program) " (Copy)");
               ("program_code", template (cell "program_code" program) "-COPY"); ("status", JStr "Draft");
               ("created_by", JStr username); ("version_number", JNum "1")]
    (drop_columns ["id"; "created_at"; "updated_at"] program).

Definition procedure_columns : list string :=
  ["procedure_number"; "audit_step"; "audit_test_description"; "risk_addressed"; "control_test_type";
   "expected_evidence"; "sampling_method"; "responsible_auditor"; "remarks"].

Fixpoint copy_procedures (fresh : nat → json) (newId : json) (i : nat) (procedures : list row) : rec_action unit :=
  match procedures with
  | [] => mret tt
  | p :: rest =>
      _ ← run_insert "audit_procedures" (("program_id", newId) :: map (λ c, (c, cell c p)) procedure_columns) (fresh i);
      copy_procedures fresh newId (S i) rest
  end.

Definition duplicate (fresh : string → nat → json) (id : json) (username : string) : rec_action json :=
  transaction rec_rollback
    (programs ← run_select "audit_programs" ["id"] (has_id id);
     match programs with
     | [] => throw (NotFoundError "Program not found")
     | program :: _ =>
         let programData := duplicated program username in
         _ ← ensure (forallb validateIdentifier (keys programData)) identifier_error;
         newId ← run_insert "audit_programs" programData (fresh "audit_programs" 0%nat);
         procedures ← run_select "audit_procedures" ("program_id" :: procedure_columns)
                        (λ r, sql_eq (cell "program_id" r) id);
         _ ← copy_procedures (fresh "audit_procedures") newId 0 procedures;
         mret newId
     end).

Definition approvableStatuses : list string := ["Draft"; "Submitted"].

(** [modulePermissions]: the actions the user has on AuditProgramLibrary *)
Definition approveProgram (now : json) (modulePermissions : list string) (programId : json) (userId : string)
    : rec_action unit :=
  _ ← ensure (bool_decide ("Approve" ∈ modulePermissions)) (ForbiddenError "not allowed to approve audit programs");
  programs ← run_select "audit_programs" ["id"; "status"] (has_id programId);
  match programs with
  | [] => throw (NotFoundError "The audit program does not exist")
  | program :: _ =>
      _ ← ensure (match cell "status" program with JStr st => bool_decide (st ∈ approvableStatuses) | _ => false end)
            (ValidationError "Only a draft or submitted program is approved");
      _ ← run_update "audit_programs" ["id"] (has_id programId)
            [("status", JStr "Approved"); ("approved_by", JStr userId); ("approved_at", now); ("updated_at", now)];
      mret tt
  end.

(** ** What the operations do *)

Lemma insert_links_rows fresh t column programId ids :
  column ≠ "program_id" → column ≠ "id" → ∀ i s u s',
  insert_links fresh t column programId i ids s = (Ok u, s') →
  ∃ links, map (cell column) links = map JStr ids ∧ Forall (λ r, cell "program_id" r = programId) links ∧
    ∀ t', rows_of s'.(rs_db) t' = if bool_decide (t' = t) then rows_of s.(rs_db) t ++ links else rows_of s.(rs_db) t'.
Proof.
  intros H1 H2. induction ids as [|x ids IH]; intros i s u s' H; cbn [insert_links] in H.
  - injection H as _ <-. exists []. split_and!; [done|constructor|]. intros t'. case_bool_decide; [subst|done]. by rewrite app_nil_r.
  - apply bind_Ok in H as (? & s1 & Hi & H). apply IH in H as (links & Hm & Hf & Hr).
    apply run_insert_Ok in Hi as (tb & r & Htb & Hrow & _ & ->).
    assert (Hcells : cell column r = JStr x ∧ cell "program_id" r = programId).
    { assert (Hv : cell column [("program_id", programId); (column, JStr x)] = JStr x).
      { unfold cell. cbn -[bool_decide]. rewrite bool_decide_eq_false_2, bool_decide_eq_true_2 by done. done. }
      rewrite Hrow. destruct (is_null _); [by rewrite !cell_set_ne|]. done. }
    destruct Hcells as [Hc Hp]. exists (r :: links). split_and!.
    + cbn [map]. by rewrite Hc, Hm.
    + by constructor.
    + intros t'. rewrite Hr. cbn [with_db rs_db]. case_bool_decide; [subst|by apply rows_of_set_ne].
      rewrite rows_of_set, (rows_of_Some _ _ _ Htb). cbn [set_rows tb_rows]. by rewrite <- app_assoc.
Qed.

Lemma require_rows_Ok t ids missing s u s' :
  require_rows t ids missing s = (Ok u, s') →
  s' = s ∧ ∀ i, i ∈ ids → ∃ r, r ∈ rows_of s.(rs_db) t ∧ sql_eq (cell "id" r) (JStr i) = true.
Proof.
  unfold require_rows. case_bool_decide as Hids; [intros H; injection H as _ <-; subst; split; [done|set_solver]|].
  intros H. inv_ok. apply run_select_Ok in Hrun as (-> & -> & _). split; [done|]. intros i Hi. bools.
  destruct (existsb (λ r, sql_eq (cell "id" r) (JStr i))
              (select (λ r, existsb (λ i, sql_eq (cell "id" r) (JStr i)) ids) (rows_of s.(rs_db) t))) eqn:He.
  - apply existsb_exists in He as (r & Hin & Hr). apply list_elem_of_In, elem_of_select in Hin as [Hin _]. by exists r.
  - exfalso. assert (Hin : In i (missing_ids (select (λ r, existsb (λ i, sql_eq (cell "id" r) (JStr i)) ids) (rows_of s.(rs_db) t)) ids)).
    { apply filter_In. split; [by apply list_elem_of_In|]. by rewrite He. }
    match goal with H : missing_ids _ _ = [] |- _ => rewrite H in Hin end. done.
Qed.

(** A created program is a draft in its first version with exactly the requested
    links, all to existing risks and compliance items and at most two hundred of
    each; only an internal auditor creates one, and a refusal changes nothing. *)
Theorem createProgram_spec fresh data userId userRole s :
  let old := rows_of s.(rs_db) in
  match createProgram fresh data userId userRole s with
  | (Throw _, s') => s' = s
  | (Ok programId, s') =>
      userRole = "Internal Auditor" ∧
      (length data.(cp_risk_ids) ≤ 200 ∧ NoDup data.(cp_risk_ids) ∧
       ∀ i, i ∈ data.(cp_risk_ids) → ∃ r, r ∈ old "risk_register" ∧ sql_eq (cell "id" r) (JStr i) = true) ∧
      (length data.(cp_compliance_item_ids) ≤ 200 ∧ NoDup data.(cp_compliance_item_ids) ∧
       ∀ i, i ∈ data.(cp_compliance_item_ids) → ∃ r, r ∈ old "compliance_items" ∧ sql_eq (cell "id" r) (JStr i) = true) ∧
      (∃ program, rows_of s'.(rs_db) "audit_programs" = old "audit_programs" ++ [program] ∧
         programId = cell "id" program ∧ cell "status" program = JStr "Draft" ∧
         cell "version_number" program = JNum "1" ∧ cell "created_by" program = JStr userId) ∧
      (∃ links, rows_of s'.(rs_db) "program_risk_links" = old "program_risk_links" ++ links ∧
         map (cell "risk_id") links = map JStr data.(cp_risk_ids) ∧ Forall (λ r, cell "program_id" r = programId) links) ∧
      (∃ links, rows_of s'.(rs_db) "program_compliance_links" = old "program_compliance_links" ++ links ∧
         map (cell "compliance_item_id") links = map JStr data.(cp_compliance_item_ids) ∧
         Forall (λ r, cell "program_id" r = programId) links)
  end%nat.
Proof.
  intros old. destruct (createProgram fresh data userId userRole s) as [[programId|e] s'] eqn:H.
  - unfold createProgram in H. inv_ok. bools. unfold MAX_LINKS in *.
    repeat match goal with H : require_rows _ _ _ _ = _ |- _ => apply require_rows_Ok in H as [-> H] end.
    repeat match goal with H : (_ <? _)%nat = false |- _ => apply Nat.ltb_ge in H end.
    repeat match goal with H : insert_links _ _ _ _ _ _ _ = _ |- _ =>
      apply insert_links_rows in H as (? & ? & ? & H); [|done..] end.
    match goal with H : run_insert _ _ _ _ = _ |- _ => apply run_insert_Ok in H as (tb & program & Htb & Hp & Hid & ->) end.
    match goal with H : run_select "users" _ _ _ = _ |- _ => apply run_select_Ok in H as (-> & -> & _) end.
    match goal with H : (if bool_decide (?l = []) then _ else _) ?st = (Ok _, ?st') |- _ =>
      assert (Hn : st'.(rs_db) = st.(rs_db)) by (destruct (bool_decide (l = [])); by injection H as _ <-) end.
    rewrite Hn. split_and!; try done.
    + exists program. split_and!; [|done|by rewrite Hp..]. rows_after.
      cbn [with_db rs_db]. unfold old. by rewrite rows_of_set, (rows_of_Some _ _ _ Htb).
    + eexists. split_and!; [|eassumption|eassumption]. rows_after. cbn [with_db rs_db]. by rewrite rows_of_set_ne.
    + eexists. split_and!; [|eassumption|eassumption]. rows_after. cbn [with_db rs_db]. by rewrite rows_of_set_ne.
  - unfold createProgram in H. revert s e s' H old.
    cut (atomic (createProgram fresh data userId userRole)); [intros Ha s e s' H _; exact (Ha s e s' H)|].
    unfold createProgram. do 5 apply atomic_ensure. apply atomic_transaction.
Qed.

(** Approval needs the action on the module and a draft or submitted program; it
    marks the program as approved by the user, and a refusal changes nothing. *)
Theorem approveProgram_spec now modulePermissions programId userId s :
  let old := rows_of s.(rs_db) in
  match approveProgram now modulePermissions programId userId s with
  | (Throw _, s') => s' = s
  | (Ok _, s') =>
      "Approve" ∈ modulePermissions ∧
      (∃ program st, program ∈ old "audit_programs" ∧ has_id programId program = true ∧
         cell "status" program = JStr st ∧ st ∈ approvableStatuses) ∧
      rows_of s'.(rs_db) "audit_programs" = update_where (has_id programId)
        (set_columns [("status", JStr "Approved"); ("approved_by", JStr userId); ("approved_at", now); ("updated_at", now)])
        (old "audit_programs")
  end.
Proof.
  intros old. destruct (approveProgram now modulePermissions programId userId s) as [[u|e] s'] eqn:H.
  - unfold approveProgram in H. inv_ok. bools.
    match goal with H : run_select _ _ _ _ = _ |- _ => apply run_select_Ok in H as (-> & -> & _) end.
    destruct (select (has_id programId) _) as [|program l] eqn:Hsel; [discriminate|]. inv_ok.
    match goal with H : run_update _ _ _ _ _ = _ |- _ => apply run_update_rows in H as (_ & _ & _ & Hr) end.
    split_and!; [done| |by rewrite Hr, bool_decide_eq_true_2].
    destruct (cell "status" program) as [| | |st| |] eqn:Hst; try discriminate. bools.
    exists program, st. assert (Hin : program ∈ select (has_id programId) (rows_of s.(rs_db) "audit_programs")).
    { rewrite Hsel. set_solver. }
    by apply elem_of_select in Hin as [? ?].
  - revert s e s' H old. cut (atomic (approveProgram now modulePermissions programId userId)); [intros Ha s e s' H _; exact (Ha s e s' H)|].
    unfold approveProgram. apply atomic_ensure, atomic_select. intros [|program l]; [apply atomic_throw|].
    apply atomic_ensure, atomic_update. by intros b s e s' [=].
Qed.

Lemma copy_procedures_rows fresh newId procedures : ∀ i s u s',
  copy_procedures fresh newId i procedures s = (Ok u, s') →
  ∃ copies, Forall (λ r, cell "program_id" r = newId) copies ∧
    (∀ c, c ∈ procedure_columns → map (cell c) copies = map (cell c) procedures) ∧
    ∀ t', rows_of s'.(rs_db) t' =
      if bool_decide (t' = "audit_procedures") then rows_of s.(rs_db) "audit_procedures" ++ copies else rows_of s.(rs_db) t'.
Proof.
  induction procedures as [|p rest IH]; intros i s u s' H; cbn [copy_procedures] in H.
  - injection H as _ <-. exists []. split_and!; [constructor|done|]. intros t'. case_bool_decide; [subst|done]. by rewrite app_nil_r.
  - apply bind_Ok in H as (? & s1 & Hi & H). apply IH in H as (copies & Hf & Hm & Hr).
    apply run_insert_Ok in Hi as (tb & r & Htb & Hrow & _ & ->). exists (r :: copies). split_and!.
    + constructor; [|done]. rewrite Hrow. destruct (is_null _); [by rewrite cell_set_ne|done].
    + intros c Hc. cbn [map]. rewrite (Hm c Hc). f_equal. rewrite Hrow. clear -Hc.
      repeat (apply elem_of_cons in Hc as [->|Hc]; [by destruct (is_null _)|]). by apply elem_of_nil in Hc.
    + intros t'. rewrite Hr. cbn [with_db rs_db]. case_bool_decide; [subst|by apply rows_of_set_ne].
      rewrite rows_of_set, (rows_of_Some _ _ _ Htb). cbn [set_rows tb_rows]. by rewrite <- app_assoc.
Qed.

(** A duplicate is a draft in its first version that belongs to the user, and
    its procedures are those of the original, in order; a duplication that fails
    changes nothing. *)
Theorem duplicate_spec fresh id username s :
  let old := rows_of s.(rs_db) in
  match duplicate fresh id username s with
  | (Throw _, s') => s' = s
  | (Ok newId, s') =>
      ∃ program copies, program ∈ old "audit_programs" ∧ has_id id program = true ∧
        rows_of s'.(rs_db) "audit_programs" = old "audit_programs" ++ [map_set "id" newId (duplicated program username)] ∧
        rows_of s'.(rs_db) "audit_procedures" = old "audit_procedures" ++ copies ∧
        Forall (λ r, cell "program_id" r = newId) copies ∧
        ∀ c, c ∈ procedure_columns → map (cell c) copies
          = map (cell c) (select (λ r, sql_eq (cell "program_id" r) id) (old "audit_procedures"))
  end.
Proof.
  intros old. destruct (duplicate fresh id username s) as [[newId|e] s'] eqn:H; [|exact (atomic_transaction _ _ _ _ H)].
  unfold duplicate in H. inv_ok.
  match goal with H : run_select "audit_programs" _ _ _ = _ |- _ => apply run_select_Ok in H as (-> & -> & _) end.
  destruct (select (has_id id) _) as [|program l] eqn:Hsel; [discriminate|]. inv_ok.
  match goal with H : run_select "audit_procedures" _ _ _ = _ |- _ => apply run_select_Ok in H as (-> & -> & _) end.
  match goal with H : copy_procedures _ _ _ _ _ = _ |- _ => apply copy_procedures_rows in H as (copies & Hf & Hm & Hr) end.
  match goal with H : run_insert _ _ _ _ = _ |- _ => apply run_insert_Ok in H as (tb & added & Htb & Hrow & Hid & ->) end.
  assert (Hnull : cell "id" (duplicated program username) = JNull).
  { unfold duplicated. rewrite cell_set_columns_ne by (cbn; set_solver). unfold drop_columns. cbn [foldl].
    apply cell_absent. rewrite !elem_of_keys_delete. naive_solver. }
  rewrite Hnull in Hrow. cbn [is_null] in Hrow.
  assert (Hnew : map_set "id" (cell "id" added) (duplicated program username) = added) by (rewrite Hrow; by rewrite cell_set_eq).
  exists program, copies. rewrite !Hr. cbn [with_db rs_db] in Hm |- *. split_and!.
  - assert (Hin : program ∈ select (has_id id) (rows_of s.(rs_db) "audit_programs")) by (rewrite Hsel; set_solver).
    by apply elem_of_select in Hin as [? ?].
  - assert (Hin : program ∈ select (has_id id) (rows_of s.(rs_db) "audit_programs")) by (rewrite Hsel; set_solver).
    by apply elem_of_select in Hin as [? ?].
  - rewrite bool_decide_eq_false_2 by done. unfold old. rewrite rows_of_set, (rows_of_Some _ _ _ Htb). cbn [set_rows tb_rows].
    by rewrite Hid, Hnew.
  - rewrite bool_decide_eq_true_2 by done. by rewrite rows_of_set_ne.
  - done.
  - intros c Hc. rewrite (Hm c Hc). by rewrite rows_of_set_ne.
Qed.

(** The copy of a deleted, approved program is a deleted draft with an approval. *)
Theorem duplicate_keeps_deletion_and_approval :
  let program := [("id", JStr "1"); ("program_title", JStr "Cash"); ("program_code", JStr "PR1"); ("status", JStr "Approved");
                  ("approved_by", JStr "boss"); ("deleted_at", JStr "2024")] in
  let copy := duplicated program "ann" in
  cell "status" copy = JStr "Draft" ∧ cell "program_code" copy = JStr "PR1-COPY" ∧
  cell "approved_by" copy = JStr "boss" ∧ is_live copy = false.
Proof. vm_compute. done. Qed.
