(* ===== verification/Paths.v ===== *)
(** * Paths and containment ([middleware/pathContainment.ts],
    [services/EvidenceStorageService.ts])

    Node's [path] on absolute POSIX paths, the containment check of the upload
    directory, and the names under which evidence is stored.  [realpath] is the
    operating system's answer for a path; [None] stands for the exception it
    raises when the path does not exist. *)

From S2P Require Import Prelude JsStrings PathGate.

(** ** [path] of Node, for absolute paths *)

(** The absolute path of a list of segments. *)
Definition abs_path (segs : list string) : string := "/" +:+ join "/" segs.

Definition normal_segments (p : string) : list string := foldl resolve_segment [] (split "/" p).

(** [path.resolve(p1, p2, ...)] in the working directory [cwd]: the last absolute path wins. *)
Definition path_resolve (cwd : string) (ps : list string) : string :=
  abs_path (normal_segments (foldl (λ acc p, if bool_decide (p = "") then acc
                                             else if starts_with p "/" then p else acc +:+ "/" +:+ p) cwd ps)).

(** [path.join(base, ...)] for an absolute base: a final slash stays. *)
Definition path_join (base : string) (ps : list string) : string :=
  let joined := join "/" (List.filter (λ p, negb (bool_decide (p = ""))) (base :: ps)) in
  let segs := normal_segments joined in
  abs_path segs +:+
    (if bool_decide (segs ≠ [] ∧ last (chars joined) = Some "/"%char) then "/" else "").

Definition is_slash (c : ascii) : bool := bool_decide (c = "/"%char).

Fixpoint take_while {A} (p : A → bool) (l : list A) : list A :=
  match l with
  | x :: l' => if p x then x :: take_while p l' else []
  | [] => []
  end.

Definition path_basename (p : string) : string :=
  of_chars (rev (take_while (λ c, negb (is_slash c)) (drop_while is_slash (rev (chars p))))).

Definition path_dirname (p : string) : string :=
  match drop_while (λ c, negb (is_slash c)) (drop_while is_slash (rev (chars p))) with
  | [] => if starts_with p "/" then "/" else "."
  | _ :: rest =>
      let dir := rev rest in
      if bool_decide (dir = []) then "/"
      else if bool_decide (dir = ["/"%char]) then "//"
      else of_chars dir
  end.

(** ** [middleware/pathContainment.ts] *)

Section containment.
Context (cwd : string) (realpath : string → option string).

(** The loop: [None] is out of fuel, which does not happen (below). *)
Fixpoint realpath_walk (fuel : nat) (absolutePath current : string) (trailing : list string) : option string :=
  match realpath current with
  | Some real => Some (if bool_decide (trailing = []) then real else path_join real (rev trailing))
  | None =>
      let parent := path_dirname current in
      if bool_decide (parent = current) then Some absolutePath
      else match fuel with
           | O => None
           | S fuel => realpath_walk fuel absolutePath parent (trailing ++ [path_basename current])
           end
  end.

Definition realpathBestEffort (absolutePath : string) : option string :=
  realpath_walk (String.length absolutePath) absolutePath absolutePath [].

Record ContainmentResult := { contained : bool; resolvedPath : option string }.

Definition checkContainment (uploadDir requestedRelPath : string) : ContainmentResult :=
  match realpathBestEffort (path_resolve cwd [uploadDir]) with
  | None => {| contained := false; resolvedPath := None |}
  | Some resolvedBase =>
      let candidate := path_resolve cwd [resolvedBase; requestedRelPath] in
      match realpathBestEffort candidate with
      | None => {| contained := false; resolvedPath := None |}
      | Some resolved =>
          {| contained := bool_decide (resolved = resolvedBase) || starts_with resolved (resolvedBase +:+ "/");
             resolvedPath := Some resolved |}
      end
  end.

End containment.

(** ** [services/EvidenceStorageService.ts] *)

(** [s.replace(/\.\.\//g, '')] for the separator [c] *)
Fixpoint remove_parent (c : ascii) (l : list ascii) : list ascii :=
  match l with
  | "."%char :: (("."%char :: x :: l') as r) =>
      if bool_decide (x = c) then remove_parent c l' else "."%char :: remove_parent c r
  | x :: l' => x :: remove_parent c l'
  | [] => []
  end.

Definition has_parent (s : string) : bool := includes s "../" || includes s "..\".

(** The loop of [sanitizeFileName]: [None] is out of fuel, which does not happen (below). *)
Fixpoint strip_parents (fuel : nat) (s : string) : option string :=
  if has_parent s then
    match fuel with
    | O => None
    | S fuel => strip_parents fuel (of_chars (remove_parent "\" (remove_parent "/" (chars s))))
    end
  else Some s.

Definition is_separator (c : ascii) : bool := bool_decide (c = "/"%char) || bool_decide (c = "\"%char).

Definition strip_drive (l : list ascii) : list ascii :=
  match l with
  | d :: ":"%char :: x :: l' => if (is_upper d || is_lower d) && is_separator x then l' else l
  | _ => l
  end.

(** [s.substring(0, n)] in UTF-16 units: a character of two units that does not fit is cut in
    half, which UTF-8 shows as a replacement character. *)
Fixpoint take_units (n : nat) (l : list ascii) : list ascii :=
  match l with
  | [] => []
  | c :: l' =>
      if in_range 128 191 c then c :: take_units n l'
      else if (utf16_units c <=? n)%nat then c :: take_units (n - utf16_units c) l'
      else if bool_decide (n = 0) then [] else [ascii_of_N 239; ascii_of_N 191; ascii_of_N 189]
  end.

Definition sanitizeFileName (fileName : string) : option string :=
  if bool_decide (fileName = "") then Some ""
  else
    sanitized ← strip_parents (String.length fileName) fileName;
    let l := strip_drive (chars sanitized) in
    let l := drop_while is_separator l in
    let l := List.filter (λ c, negb (is_separator c)) l in
    Some (if (255 <? utf16_length (of_chars l))%nat then of_chars (take_units 255 l) else of_chars l).

Definition buildEvidencePath (planId findingId evidenceNumber fileName : string) : option string :=
  sanitizedName ← sanitizeFileName fileName;
  Some ("/uploads/findings/" +:+ planId +:+ "/" +:+ findingId +:+ "/" +:+ evidenceNumber +:+ "_" +:+ sanitizedName).

(** ** Properties *)

Lemma join_snoc segs s : segs ≠ [] → join "/" (segs ++ [s]) = join "/" segs +:+ "/" +:+ s.
Proof.
  induction segs as [|x [|y segs] IH]; [done|reflexivity|]. intros _.
  change ((x :: y :: segs) ++ [s]) with (x :: (y :: segs) ++ [s]).
  rewrite join_cons. cbn [app]. change (y :: segs ++ [s]) with ((y :: segs) ++ [s]).
  rewrite IH by done. rewrite (join_cons x (y :: segs)). by rewrite !app_assoc_str.
Qed.

Lemma abs_path_snoc segs s :
  abs_path (segs ++ [s]) = (if bool_decide (segs = []) then "" else abs_path segs) +:+ "/" +:+ s.
Proof.
  unfold abs_path. case_bool_decide as H; [by subst|]. rewrite join_snoc by done. by rewrite !app_assoc_str.
Qed.

Lemma take_while_before {A} (p : A → bool) l x r :
  Forall (λ y, p y = true) l → p x = false → take_while p (l ++ x :: r) = l.
Proof. induction 1 as [|y l Hy _ IH]; intros Hx; cbn; [by rewrite Hx|]. by rewrite Hy, IH. Qed.

Lemma drop_while_app {A} (p : A → bool) l x r :
  Forall (λ y, p y = true) l → p x = false → drop_while p (l ++ x :: r) = x :: r.
Proof. induction 1 as [|y l Hy _ IH]; intros Hx; cbn; [by rewrite Hx|]. by rewrite Hy, IH. Qed.

Lemma no_slash_Forall s : "/"%char ∉ chars s → Forall (λ c, negb (is_slash c) = true) (rev (chars s)).
Proof.
  intros H. apply Forall_forall. intros c Hc%list_elem_of_In%in_rev%list_elem_of_In. unfold is_slash.
  rewrite bool_decide_eq_false_2; [done|]. by intros ->.
Qed.

(** The reversed characters of [X/s] after the final slashes, of which there are none. *)
Lemma last_segment_chars X s : segment_ok s →
  drop_while is_slash (rev (chars (X +:+ "/" +:+ s))) = rev (chars s) ++ "/"%char :: rev (chars X).
Proof.
  intros (Hne & _ & _ & Hs). rewrite !chars_app, !rev_app_distr, <- app_assoc. change (rev (chars "/")) with ["/"%char].
  cbn [app]. destruct (rev (chars s)) as [|c l] eqn:Hr.
  { exfalso. apply Hne. apply (inj chars). by rewrite <- (rev_involutive (chars s)), Hr. }
  cbn [app drop_while].
  assert (is_slash c = false) as ->; [|done].
  pose proof (no_slash_Forall s Hs) as HF. rewrite Hr in HF. apply Forall_cons in HF as [HF _]. by destruct (is_slash c).
Qed.

Lemma basename_snoc segs s : segment_ok s → path_basename (abs_path (segs ++ [s])) = s.
Proof.
  intros Hs. unfold path_basename. rewrite abs_path_snoc, last_segment_chars by done.
  rewrite take_while_before by (done || apply no_slash_Forall, Hs). rewrite rev_involutive. apply of_chars_chars.
Qed.

Lemma abs_path_long segs : Forall segment_ok segs → segs ≠ [] → ∃ c d l, chars (abs_path segs) = c :: d :: l.
Proof.
  destruct segs as [|s segs]; [done|]. intros [(Hne & _) _]%Forall_cons _.
  unfold abs_path. rewrite join_cons. destruct s as [|d s]; [done|].
  rewrite chars_app. change (chars "/") with ["/"%char]. cbn [app]. destruct segs as [|s2 segs].
  - by eexists _, _, _.
  - rewrite chars_app. by eexists _, _, _.
Qed.

Lemma dirname_snoc segs s : Forall segment_ok (segs ++ [s]) → path_dirname (abs_path (segs ++ [s])) = abs_path segs.
Proof.
  intros [Hsegs [Hs _]%Forall_cons]%Forall_app. unfold path_dirname.
  rewrite abs_path_snoc, last_segment_chars by done.
  rewrite drop_while_app by (done || apply no_slash_Forall, Hs). rewrite rev_involutive.
  destruct (bool_decide_reflect (segs = [])) as [->|Hn]; [reflexivity|]. destruct (abs_path_long segs) as (c & d & l & Hl); [done..|].
  rewrite Hl. rewrite !bool_decide_eq_false_2 by congruence. by rewrite <- Hl, of_chars_chars.
Qed.

Lemma split_abs segs : Forall segment_ok segs → normal_segments (abs_path segs) = segs.
Proof.
  intros H. unfold normal_segments. destruct segs as [|s segs]; [reflexivity|].
  assert (split "/" (abs_path (s :: segs)) = "" :: s :: segs) as ->.
  { unfold abs_path. rewrite <- (split_join s segs H) at 2. unfold split. by rewrite chars_app. }
  change (foldl resolve_segment [] ("" :: s :: segs)) with (foldl resolve_segment [] (s :: segs)).
  by rewrite (resolve_ok_segments (s :: segs) []).
Qed.

Lemma abs_path_inj segs segs' :
  Forall segment_ok segs → Forall segment_ok segs' → abs_path segs = abs_path segs' → segs = segs'.
Proof. intros H H' Heq. by rewrite <- (split_abs segs), <- (split_abs segs'), Heq. Qed.

Lemma split_no_slash p seg : seg ∈ split "/" p → "/"%char ∉ chars seg.
Proof. intros (l & -> & Hl)%list_elem_of_fmap. rewrite chars_of_chars. by eapply split_chars_no_sep. Qed.

Lemma resolve_segments_ok l acc : Forall segment_ok acc → (∀ seg, seg ∈ l → "/"%char ∉ chars seg) →
  Forall segment_ok (foldl resolve_segment acc l).
Proof.
  revert acc. induction l as [|seg l IH]; intros acc Hacc Hl; cbn [foldl]; [done|].
  apply IH; [|set_solver]. unfold resolve_segment.
  destruct (bool_decide_reflect (seg = "")); cbn [orb]; [done|].
  destruct (bool_decide_reflect (seg = ".")); cbn [orb]; [done|].
  destruct (bool_decide_reflect (seg = "..")).
  - clear -Hacc. induction Hacc as [|x [|y acc] Hx Hacc IH]; cbn in *; by constructor.
  - apply Forall_app. split; [done|]. constructor; [|done]. split_and!; [done..|]. apply Hl. left.
Qed.

Lemma normal_segments_ok p : Forall segment_ok (normal_segments p).
Proof. apply resolve_segments_ok; [done|]. apply split_no_slash. Qed.

(** Appending a text after a slash appends its segments. *)
Lemma split_app_slash p q : split "/" (p +:+ "/" +:+ q) = split "/" p ++ split "/" q.
Proof.
  unfold split. rewrite !chars_app. change (chars "/") with ["/"%char]. cbn [app].
  rewrite <- map_app. f_equal. induction (chars p) as [|c l IH]; [reflexivity|]. cbn [app split_chars].
  case_bool_decide; [by rewrite IH|]. rewrite IH.
  pose proof (split_chars_nonempty "/" l). by destruct (split_chars "/" l).
Qed.

Lemma normal_segments_app p q : normal_segments (p +:+ "/" +:+ q) = foldl resolve_segment (normal_segments p) (split "/" q).
Proof. unfold normal_segments. by rewrite split_app_slash, foldl_app. Qed.

Lemma join_abs qs l : Forall segment_ok qs → Forall segment_ok l → l ≠ [] →
  path_join (abs_path qs) l = abs_path (qs ++ l).
Proof.
  intros Hqs Hl Hne. unfold path_join.
  assert (Hf : List.filter (λ p, negb (bool_decide (p = ""))) (abs_path qs :: l) = abs_path qs :: l).
  { apply filter_all. intros p [->|Hp]%elem_of_cons; [done|]. rewrite Forall_forall in Hl.
    rewrite bool_decide_eq_false_2; [done|]. by apply Hl in Hp as (? & _). }
  rewrite Hf. rewrite join_cons. destruct l as [|s l]; [done|].
  assert (Hn : normal_segments (abs_path qs +:+ "/" +:+ join "/" (s :: l)) = qs ++ s :: l).
  { rewrite normal_segments_app, split_abs, split_join by done. by apply resolve_ok_segments. }
  rewrite Hn. rewrite bool_decide_eq_false_2; [by rewrite app_nil_r_str|]. intros [_ Hlast].
  destruct (exists_last (l:=s :: l)) as (l' & z & Hz); [done|]. rewrite Hz in Hlast, Hl.
  apply Forall_app in Hl as [_ [Hok _]%Forall_cons]. pose proof Hok as (Hzne & _ & _ & Hzs).
  assert (Hj : ∃ X, abs_path qs +:+ "/" +:+ join "/" (l' ++ [z]) = X +:+ "/" +:+ z).
  { destruct (decide (l' = [])) as [->|Hl']; [by exists (abs_path qs)|].
    rewrite join_snoc by done. exists (abs_path qs +:+ "/" +:+ join "/" l'). by rewrite !app_assoc_str. }
  destruct Hj as [X HX]. rewrite HX in Hlast. rewrite !chars_app, !last_app in Hlast.
  destruct (last (chars z)) as [c|] eqn:Hc.
  - injection Hlast as ->. apply Hzs. by apply last_Some_elem_of.
  - apply last_None in Hc. apply Hzne. by apply (inj chars).
Qed.

Lemma split_abs_path segs : Forall segment_ok segs →
  split "/" (abs_path segs) = "" :: match segs with [] => [""] | _ => segs end.
Proof.
  intros H. destruct segs as [|s segs]; [reflexivity|]. rewrite <- (split_join s segs H) at 2.
  unfold abs_path, split. by rewrite chars_app.
Qed.

Lemma abs_path_app bs rest : bs ≠ [] → rest ≠ [] → abs_path (bs ++ rest) = abs_path bs +:+ "/" +:+ join "/" rest.
Proof.
  intros Hb. induction rest as [|z rest IH] using rev_ind; [done|]. intros _.
  rewrite app_assoc, abs_path_snoc, bool_decide_eq_false_2 by (destruct bs; [done|discriminate]).
  destruct (decide (rest = [])) as [->|Hr]; [by rewrite app_nil_r|].
  rewrite IH, join_snoc by done. by rewrite !app_assoc_str.
Qed.

Lemma inside_prefix bs rs : Forall segment_ok bs → Forall segment_ok rs →
  bool_decide (abs_path rs = abs_path bs) || starts_with (abs_path rs) (abs_path bs +:+ "/") = true ↔
  if bool_decide (bs = []) then rs = [] else bs `prefix_of` rs.
Proof.
  intros Hb Hr. rewrite orb_true_iff, bool_decide_eq_true, starts_with_spec.
  assert (Heq : abs_path rs = abs_path bs ↔ rs = bs) by (split; [by apply abs_path_inj|by intros ->]).
  rewrite Heq. destruct (bool_decide_reflect (bs = [])) as [->|Hne].
  - split; [|auto]. intros [->|[t Ht]]; [done|]. exfalso.
    apply (f_equal (split "/")) in Ht. rewrite app_assoc_str, split_app_slash, !split_abs_path in Ht by done.
    destruct rs as [|s rs]; cbn in Ht; [|by injection Ht as -> _; apply Forall_cons in Hr as [(? & _) _]].
    destruct (split "/" t) eqn:Hsp; [|done]. by apply map_eq_nil, split_chars_nonempty in Hsp.
  - split.
    + intros [->|[t Ht]]; [by exists []; rewrite app_nil_r|].
      apply (f_equal (split "/")) in Ht. rewrite app_assoc_str, split_app_slash, !split_abs_path in Ht by done.
      destruct bs as [|b bs]; [done|]. injection Ht as Ht. destruct rs as [|s rs].
      * injection Ht as Hx _. apply Forall_cons in Hb as [(Hb & _) _]. by subst b.
      * by exists (split "/" t).
    + intros [rest ->]. destruct (decide (rest = [])) as [->|Hrest]; [left; by rewrite app_nil_r|].
      right. exists (join "/" rest). rewrite abs_path_app by done. by rewrite app_assoc_str.
Qed.

Lemma length_abs_path segs : Forall segment_ok segs → (length segs <= String.length (abs_path segs))%nat.
Proof.
  intros H. unfold abs_path. rewrite app_length_str. cbn [String.length].
  induction segs as [|s [|s2 segs] IH]; [cbn; lia|cbn; lia|]. apply Forall_cons in H as [(Hs & _) H].
  rewrite join_cons, !app_length_str. specialize (IH H). destruct s; [done|]. cbn [String.length length] in *. lia.
Qed.

Section containment_properties.
Context (cwd : string) (realpath : string → option string).
(** What the operating system documents: the answer is an absolute path without
    [.], [..] and double slashes. *)
Context (Hreal : ∀ p q, realpath p = Some q → ∃ qs, Forall segment_ok qs ∧ q = abs_path qs).

(** [rs] is where [segs] is after its longest existing prefix is dereferenced. *)
Definition dereferenced (segs rs : list string) : Prop :=
  rs = segs ∨ ∃ pre post qs, segs = pre ++ post ∧ realpath (abs_path pre) = Some (abs_path qs) ∧
    Forall segment_ok qs ∧ rs = qs ++ post.

Lemma walk_spec orig segs : ∀ trailing fuel,
  Forall segment_ok segs → Forall segment_ok trailing → (length segs <= fuel)%nat →
  realpath_walk realpath fuel orig (abs_path segs) trailing = Some orig ∨
  ∃ pre post qs, segs = pre ++ post ∧ realpath (abs_path pre) = Some (abs_path qs) ∧ Forall segment_ok qs ∧
    realpath_walk realpath fuel orig (abs_path segs) trailing = Some (abs_path (qs ++ post ++ rev trailing)).
Proof.
  assert (Hfound : ∀ segs trailing fuel q, Forall segment_ok trailing → realpath (abs_path segs) = Some q →
    ∃ qs, realpath (abs_path segs) = Some (abs_path qs) ∧ Forall segment_ok qs ∧
      realpath_walk realpath fuel orig (abs_path segs) trailing = Some (abs_path (qs ++ rev trailing))).
  { intros ss trailing fuel q Ht Hq. destruct (Hreal _ _ Hq) as (qs & Hqs & ->). exists qs. split_and!; [done..|].
    assert (realpath_walk realpath fuel orig (abs_path ss) trailing =
      Some (if bool_decide (trailing = []) then abs_path qs else path_join (abs_path qs) (rev trailing))) as ->
      by (destruct fuel; cbn [realpath_walk]; by rewrite Hq).
    case_bool_decide as Hnil; [subst; by rewrite app_nil_r|]. rewrite join_abs; [done|done| |].
    - apply Forall_forall. intros x Hx%list_elem_of_In%in_rev%list_elem_of_In. by eapply Forall_forall in Ht.
    - intros Hrev. apply (f_equal (@rev _)) in Hrev. by rewrite rev_involutive in Hrev. }
  induction segs as [|s segs IH] using rev_ind; intros trailing fuel Hs Ht Hfuel.
  - destruct (realpath (abs_path [])) as [q|] eqn:Hq.
    + right. destruct (Hfound [] trailing fuel q) as (qs & ? & ? & ?); [done..|]. exists [], [], qs. auto.
    + left. destruct fuel; cbn [realpath_walk]; by rewrite Hq.
  - destruct (realpath (abs_path (segs ++ [s]))) as [q|] eqn:Hq.
    + right. destruct (Hfound (segs ++ [s]) trailing fuel q) as (qs & ? & ? & ?); [done..|].
      exists (segs ++ [s]), [], qs. rewrite app_nil_r. auto.
    + pose proof Hs as Hs'. apply Forall_app in Hs' as [Hsegs Hsok].
      rewrite length_app in Hfuel. cbn in Hfuel. destruct fuel as [|fuel]; [lia|].
      cbn [realpath_walk]. rewrite Hq, dirname_snoc by done. rewrite bool_decide_eq_false_2.
      2:{ intros Heq. apply abs_path_inj in Heq; [|done..]. apply (f_equal length) in Heq.
          rewrite length_app in Heq. cbn in Heq. lia. }
      rewrite basename_snoc by by apply Forall_cons in Hsok as [? _].
      destruct (IH (trailing ++ [s]) fuel) as [->|(pre & post & qs & -> & Hp & Hqs & ->)];
        [done|by apply Forall_app|lia|by left|].
      right. exists pre, (post ++ [s]), qs. rewrite rev_app_distr, !app_assoc. cbn. by rewrite <- !app_assoc.
Qed.

(** The loop ends: the result is the path itself or the dereferenced one. *)
Lemma best_effort_spec segs : Forall segment_ok segs →
  ∃ rs, Forall segment_ok rs ∧ dereferenced segs rs ∧ realpathBestEffort realpath (abs_path segs) = Some (abs_path rs).
Proof.
  intros Hs. unfold realpathBestEffort.
  destruct (walk_spec (abs_path segs) segs [] (String.length (abs_path segs))) as [->|(pre & post & qs & -> & Hp & Hqs & ->)];
    [done|done|by apply length_abs_path| |].
  - exists segs. split_and!; [done|by left|done].
  - exists (qs ++ post). apply Forall_app in Hs as [_ Hpost]. rewrite app_nil_r. split_and!; [by apply Forall_app| |done].
    right. by exists pre, post, qs.
Qed.

(** The segments of [path.resolve(base, rel)] for a base of segments [bs]. *)
Definition candidate_segments (bs : list string) (rel : string) : list string :=
  if bool_decide (rel = "") then bs
  else if starts_with rel "/" then normal_segments rel
  else foldl resolve_segment bs (split "/" rel).

Lemma resolve_candidate bs rel : Forall segment_ok bs →
  path_resolve cwd [abs_path bs; rel] = abs_path (candidate_segments bs rel) ∧
  Forall segment_ok (candidate_segments bs rel).
Proof.
  intros Hbs. unfold path_resolve, candidate_segments. cbn [foldl].
  rewrite (bool_decide_eq_false_2 (abs_path bs = "")) by done.
  assert (starts_with (abs_path bs) "/" = true) as -> by apply starts_with_app.
  destruct (bool_decide_reflect (rel = "")); [by rewrite split_abs|].
  destruct (starts_with rel "/"); [split; [done|apply normal_segments_ok]|].
  rewrite normal_segments_app, split_abs by done. split; [done|].
  apply resolve_segments_ok; [done|apply split_no_slash].
Qed.

(** The directory the check compares with. *)
Definition base_segments (uploadDir : string) : list string :=
  normal_segments (if bool_decide (uploadDir = "") then cwd
                   else if starts_with uploadDir "/" then uploadDir else cwd +:+ "/" +:+ uploadDir).

(** the check never fails to answer, and it lets a request through exactly
    when the place it leads to, after following symbolic links as far as the path
    exists, is the upload directory itself or below it; an upload directory that
    is the root of the file system contains only itself. *)
Theorem containment_spec uploadDir rel :
  exists bs rs, dereferenced (base_segments uploadDir) bs /\ dereferenced (candidate_segments bs rel) rs /\
    Forall segment_ok bs /\ Forall segment_ok rs /\
    (checkContainment cwd realpath uploadDir rel).(resolvedPath) = Some (abs_path rs) /\
    ((checkContainment cwd realpath uploadDir rel).(contained) = true <->
     if bool_decide (bs = []) then rs = [] else bs `prefix_of` rs).
Proof.
  assert (Hb : path_resolve cwd [uploadDir] = abs_path (base_segments uploadDir)) by done.
  destruct (best_effort_spec (base_segments uploadDir)) as (bs & Hbs & Hbd & Hbe); [apply normal_segments_ok|].
  destruct (resolve_candidate bs rel Hbs) as [Hc Hcok].
  destruct (best_effort_spec _ Hcok) as (rs & Hrs & Hrd & Hre).
  exists bs, rs. unfold checkContainment. rewrite Hb, Hbe, Hc, Hre. cbn [contained resolvedPath].
  split_and!; [done..|]. by apply inside_prefix.
Qed.

(** Without symbolic links. *)
Context (Hplain : ∀ p q, realpath p = Some q → q = p).

Lemma dereferenced_plain segs rs : Forall segment_ok segs → dereferenced segs rs → rs = segs.
Proof.
  intros Hs [->|(pre & post & qs & -> & Hp & Hqs & ->)]; [done|]. apply Hplain, abs_path_inj in Hp; [by subst|done|].
  by apply Forall_app in Hs as [? _].
Qed.

End containment_properties.

Lemma resolve_without_parent l : ∀ bs acc, bs `prefix_of` acc → ".." ∉ l → bs `prefix_of` foldl resolve_segment acc l.
Proof.
  induction l as [|seg l IH]; intros bs acc Hp Hl; cbn [foldl]; [done|].
  apply IH; [|set_solver]. unfold resolve_segment.
  destruct (_ || _); [done|]. rewrite bool_decide_eq_false_2 by set_solver. by apply prefix_app_r.
Qed.

(** on a file system without symbolic links a relative request that names no
    parent directory is always inside the upload directory, and a request that
    starts with a slash, which is what the path of an HTTP request does, is
    looked up from the root of the file system, whatever the upload directory:
    it is inside only if it spells out the upload directory itself. *)
Theorem request_path_containment cwd realpath uploadDir rel
    (Hreal : forall p q, realpath p = Some q -> exists qs, Forall segment_ok qs /\ q = abs_path qs)
    (Hplain : forall p q, realpath p = Some q -> q = p) :
  let base := base_segments cwd uploadDir in
  let r := checkContainment cwd realpath uploadDir rel in
  (starts_with rel "/" = false -> ".." ∉ split "/" rel -> base <> [] -> r.(contained) = true) /\
  (starts_with rel "/" = true ->
     r.(resolvedPath) = Some (abs_path (normal_segments rel)) /\
     (base <> [] -> (r.(contained) = true <-> base `prefix_of` normal_segments rel))).
Proof.
  cbv zeta. destruct (containment_spec cwd realpath Hreal uploadDir rel) as (bs & rs & Hbd & Hrd & Hbs & Hrs & Hres & Hcon).
  apply dereferenced_plain in Hbd; [|done|apply normal_segments_ok]. subst bs.
  apply dereferenced_plain in Hrd; [|done|by apply (resolve_candidate cwd)]. subst rs.
  rewrite Hres, Hcon. split.
  - intros Hrel Hparent Hne. rewrite bool_decide_eq_false_2 by done. unfold candidate_segments.
    destruct (bool_decide_reflect (rel = "")); [done|]. rewrite Hrel. by apply resolve_without_parent.
  - intros Hrel. unfold candidate_segments. rewrite Hrel.
    rewrite (bool_decide_eq_false_2 (rel = "")) by by intros ->. split; [done|].
    intros Hne. by rewrite bool_decide_eq_false_2.
Qed.

(** ** Names of evidence files *)

Lemma remove_parent_cons c x l :
  (∃ l', x :: l = "."%char :: "."%char :: c :: l' ∧ remove_parent c (x :: l) = remove_parent c l') ∨
  remove_parent c (x :: l) = x :: remove_parent c l.
Proof.
  destruct (decide (x = "."%char)) as [->|Hx].
  2:{ right. destruct x as [[] [] [] [] [] [] [] []]; done. }
  destruct l as [|y [|z l]]; [by right| |].
  - right. destruct (decide (y = "."%char)) as [->|Hy]; [done|]. destruct y as [[] [] [] [] [] [] [] []]; done.
  - destruct (decide (y = "."%char)) as [->|Hy].
    2:{ right. destruct y as [[] [] [] [] [] [] [] []]; done. }
    change (remove_parent c ("."%char :: "."%char :: z :: l)) with
      (if bool_decide (z = c) then remove_parent c l else "."%char :: remove_parent c ("."%char :: z :: l)).
    case_bool_decide as Hz; [left; exists l; by subst|by right].
Qed.

Lemma remove_parent_length c l :
  remove_parent c l = l ∨ (length (remove_parent c l) < length l)%nat.
Proof.
  induction l as [l IH] using (induction_ltof1 _ (@length ascii)); unfold ltof in IH.
  destruct l as [|x l]; [by left|].
  destruct (remove_parent_cons c x l) as [(l' & Heq & ->)| ->].
  - right. injection Heq as _ ->. destruct (IH l') as [->|H]; cbn; lia.
  - destruct (IH l) as [->|H]; cbn; [lia|by left|right; lia].
Qed.

Lemma remove_parent_shrinks c a b :
  (length (remove_parent c (a ++ "."%char :: "."%char :: c :: b)) < length (a ++ "."%char :: "."%char :: c :: b))%nat.
Proof.
  induction a as [|x a IH]; cbn [app].
  - change (remove_parent c ("."%char :: "."%char :: c :: b)) with
      (if bool_decide (c = c) then remove_parent c b else "."%char :: remove_parent c ("."%char :: c :: b)).
    rewrite bool_decide_eq_true_2 by done. destruct (remove_parent_length c b) as [->|H]; cbn; lia.
  - destruct (remove_parent_cons c x (a ++ "."%char :: "."%char :: c :: b)) as [(l' & Heq & ->)| ->]; [|cbn; lia].
    injection Heq as _ ->. destruct (remove_parent_length c l') as [->|H]; cbn; lia.
Qed.

Lemma has_parent_shrinks s : has_parent s = true →
  (length (remove_parent "\" (remove_parent "/" (chars s))) < length (chars s))%nat.
Proof.
  unfold has_parent. rewrite orb_true_iff, !includes_spec.
  destruct (remove_parent_length "/" (chars s)) as [Heq|Hlt].
  2:{ intros _. destruct (remove_parent_length "\" (remove_parent "/" (chars s))) as [->|H]; lia. }
  intros [(a & b & ->)|(a & b & ->)].
  - exfalso. rewrite !chars_app in Heq. change (chars "../") with ["."%char; "."%char; "/"%char] in Heq. cbn [app] in Heq.
    pose proof (remove_parent_shrinks "/" (chars a) (chars b)) as H. rewrite Heq in H. lia.
  - rewrite Heq. rewrite !chars_app. change (chars "..\") with ["."%char; "."%char; "\"%char]. cbn [app].
    apply remove_parent_shrinks.
Qed.

Lemma strip_parents_ends fuel : ∀ s, (String.length s <= fuel)%nat → ∃ s', strip_parents fuel s = Some s'.
Proof.
  induction fuel as [|fuel IH]; intros s Hs; cbn [strip_parents].
  - destruct s; [|cbn in Hs; lia]. by exists "".
  - destruct (has_parent s) eqn:Hp; [|by eexists]. apply IH. rewrite <- length_chars, chars_of_chars.
    apply has_parent_shrinks in Hp. rewrite length_chars in Hp. lia.
Qed.

Lemma utf16_take_units l : ∀ n, (sum_list_with utf16_units (take_units n l) <= n)%nat.
Proof.
  induction l as [|c l IH]; intros n; cbn [take_units sum_list_with]; [lia|].
  destruct (in_range 128 191 c) eqn:Hc.
  - cbn [sum_list_with]. unfold utf16_units at 1. rewrite Hc. apply IH.
  - destruct (Nat.leb_spec (utf16_units c) n); [cbn [sum_list_with]; specialize (IH (n - utf16_units c)); lia|].
    case_bool_decide; [cbn; lia|]. change (1 <= n)%nat. lia.
Qed.

Lemma take_units_elem l : ∀ n c, c ∈ take_units n l → is_separator c = true → c ∈ l.
Proof.
  induction l as [|x l IH]; intros n c; cbn [take_units]; [done|].
  intros Hc Hsep. destruct (in_range 128 191 x).
  - apply elem_of_cons in Hc as [->|Hc]; [left|right; eauto].
  - destruct (utf16_units x <=? n)%nat; [apply elem_of_cons in Hc as [->|Hc]; [left|right; eauto]|].
    case_bool_decide; [by apply elem_of_nil in Hc|]. repeat (apply elem_of_cons in Hc as [->|Hc]; [discriminate|]).
    by apply elem_of_nil in Hc.
Qed.

Lemma sanitized_name fileName : ∃ name, sanitizeFileName fileName = Some name ∧
  (∀ c, c ∈ chars name → is_separator c = false) ∧ (utf16_length name <= 255)%nat.
Proof.
  unfold sanitizeFileName. case_bool_decide; [exists ""; split_and!; [done|intros c Hc; by apply elem_of_nil in Hc|cbn; lia]|].
  destruct (strip_parents_ends (String.length fileName) fileName) as (s & ->); [lia|]. cbn [mbind option_bind].
  set (l := List.filter _ _).
  assert (Hl : ∀ c, c ∈ l → is_separator c = false).
  { intros c Hc%list_elem_of_In. subst l. apply filter_In in Hc as [_ Hc]. by apply negb_true_iff. }
  eexists. split; [done|]. destruct (Nat.ltb_spec 255 (utf16_length (of_chars l))).
  - split; [|unfold utf16_length; rewrite chars_of_chars; apply utf16_take_units].
    intros c. rewrite chars_of_chars. intros Hc. destruct (is_separator c) eqn:Hsep; [|done].
    apply take_units_elem in Hc; [|done]. by rewrite Hl in Hsep.
  - split; [|done]. intros c. rewrite chars_of_chars. apply Hl.
Qed.

(** whatever name the client gives, the evidence of a finding is stored in the
    directory of its plan and finding, under a name that is one path segment: no
    name climbs out, and cutting it ends. *)
Theorem evidence_stays_in_directory cwd planId findingId evidenceNumber fileName
    (Hcwd : exists ds, Forall segment_ok ds /\ cwd = abs_path ds)
    (Hplan : segment_ok planId) (Hfinding : segment_ok findingId) (Hnumber : "/"%char ∉ chars evidenceNumber) :
  exists p name, buildEvidencePath planId findingId evidenceNumber fileName = Some p /\
    (utf16_length name <= 255)%nat /\ ("/"%char ∉ chars name) /\ ("\"%char ∉ chars name) /\
    path_join cwd [p] = path_join cwd ["uploads"; "findings"; planId; findingId; evidenceNumber +:+ "_" +:+ name].
Proof.
  destruct Hcwd as (ds & Hds & ->).
  destruct (sanitized_name fileName) as (name & Hname & Hsep & Hlen).
  exists ("/uploads/findings/" +:+ planId +:+ "/" +:+ findingId +:+ "/" +:+ evidenceNumber +:+ "_" +:+ name), name.
  unfold buildEvidencePath. rewrite Hname. cbn [mbind option_bind].
  assert (Hslash : "/"%char ∉ chars name) by (intros Hc; by apply Hsep in Hc).
  split_and!; [done|done|done|intros Hc; by apply Hsep in Hc|].
  set (file := evidenceNumber +:+ "_" +:+ name).
  assert (Hfile : segment_ok file).
  { assert (Hu : "_"%char ∈ chars file) by (unfold file; rewrite !chars_app; set_solver).
    assert (Hdots : ∀ s, s ∈ [""; "."; ".."] → "_"%char ∉ chars s).
    { intros s Hs Hin. by repeat (apply elem_of_cons in Hs as [->|Hs]; [by apply (bool_decide_pack _) in Hin|]);
        apply elem_of_nil in Hs. }
    split_and!; [by intros Hf; rewrite Hf in Hu; eapply Hdots, Hu; set_solver..|].
    unfold file. rewrite !chars_app. change (chars "_") with ["_"%char]. set_solver. }
  set (segs := ["uploads"; "findings"; planId; findingId; file]).
  assert (Hsegs : Forall segment_ok segs).
  { repeat (constructor; [first [assumption | split_and!; [done..|];
      intros Hin; repeat (apply elem_of_cons in Hin as [Hin|Hin]; [discriminate|]); by apply elem_of_nil in Hin]|]). done. }
  rewrite (join_abs ds segs) by done.
  change ("/uploads/findings/" +:+ planId +:+ "/" +:+ findingId +:+ "/" +:+ file) with (abs_path segs).
  unfold path_join.
  assert (Hf : List.filter (λ p, negb (bool_decide (p = ""))) [abs_path ds; abs_path segs] = [abs_path ds; abs_path segs]) by done.
  rewrite Hf. rewrite join_cons. change (join "/" [abs_path segs]) with (abs_path segs).
  assert (Hs : split "/" (abs_path segs) = "" :: segs) by exact (split_abs_path segs Hsegs).
  rewrite normal_segments_app, split_abs, Hs by done.
  change (foldl resolve_segment ds ("" :: segs)) with (foldl resolve_segment ds segs). rewrite resolve_ok_segments by exact Hsegs.
  rewrite bool_decide_eq_false_2; [by rewrite app_nil_r_str|].
  intros [_ Hlast].
  change segs with (["uploads"; "findings"; planId; findingId] ++ [file]) in Hlast.
  rewrite abs_path_snoc in Hlast. rewrite !chars_app, !last_app in Hlast.
  destruct (last (chars file)) as [c|] eqn:Hc.
  - injection Hlast as ->. apply last_Some_elem_of in Hc. by apply Hfile.
  - apply last_None in Hc. destruct Hfile as (Hne & _). apply Hne. by apply (inj chars).
Qed.

Module Uploads.

Definition no_files : string → option string := λ _, None.

Lemma no_files_normal p q : no_files p = Some q → ∃ qs, Forall segment_ok qs ∧ q = abs_path qs.
Proof. discriminate. Qed.
Lemma no_files_plain p q : no_files p = Some q → q = p.
Proof. discriminate. Qed.

(** The file system of a link out of the upload directory. *)
Definition one_link (p : string) : option string :=
  if bool_decide (p = "/app/uploads") then Some "/app/uploads"
  else if bool_decide (p = "/app/uploads/out") then Some "/etc" else None.

Example link_is_followed :
  (checkContainment "/app" one_link "uploads" "out/passwd").(resolvedPath) = Some "/etc/passwd" ∧
  (checkContainment "/app" one_link "uploads" "out/passwd").(contained) = false ∧
  (checkContainment "/app" one_link "uploads" "in/../a.png").(contained) = true ∧
  (checkContainment "/app" one_link "uploads" "../uploads_backup/a").(contained) = false.
Proof. by vm_compute. Qed.

End Uploads.

Lemma request_path_containment_witness :
  let r := checkContainment "/app" Uploads.no_files "uploads" "/a.png" in
  r.(resolvedPath) = Some "/a.png" ∧ (r.(contained) = true ↔ ["app"; "uploads"] `prefix_of` ["a.png"]).
Proof.
  destruct (request_path_containment "/app" Uploads.no_files "uploads" "/a.png"
    Uploads.no_files_normal Uploads.no_files_plain) as [_ H].
  destruct (H eq_refl) as [H1 H2]. split; [exact H1|]. apply H2. discriminate.
Defined.

Lemma containment_spec_witness :
  ∃ bs rs, dereferenced Uploads.no_files (base_segments "/app" "uploads") bs ∧
    dereferenced Uploads.no_files (candidate_segments bs "x/../a.png") rs ∧ Forall segment_ok bs ∧ Forall segment_ok rs ∧
    (checkContainment "/app" Uploads.no_files "uploads" "x/../a.png").(resolvedPath) = Some (abs_path rs) ∧
    ((checkContainment "/app" Uploads.no_files "uploads" "x/../a.png").(contained) = true ↔
     if bool_decide (bs = []) then rs = [] else bs `prefix_of` rs).
Proof. exact (containment_spec "/app" Uploads.no_files Uploads.no_files_normal "uploads" "x/../a.png"). Defined.

Lemma evidence_stays_in_directory_witness :
  ∃ p name, buildEvidencePath "p1" "f1" "IA-F01-E01" "../../etc/passwd" = Some p ∧
    (utf16_length name <= 255)%nat ∧ ("/"%char ∉ chars name) ∧ ("\"%char ∉ chars name) ∧
    path_join "/app" [p] = path_join "/app" ["uploads"; "findings"; "p1"; "f1"; "IA-F01-E01" +:+ "_" +:+ name].
Proof.
  apply evidence_stays_in_directory.
  - exists ["app"]. split; [|done]. repeat constructor; by apply (bool_decide_unpack _).
  - by repeat split; apply (bool_decide_unpack _).
  - by repeat split; apply (bool_decide_unpack _).
  - by apply (bool_decide_unpack _).
Defined.
