(* ===== verification/SecureFiles.v ===== *)
(** * Secure file access ([services/SecureFileService.ts],
    [middleware/secureFile.ts])

    Signed links and the middleware that serves uploaded files.  HMAC-SHA256 is
    the parameter [hmac_hex]; [authenticate] is the answer of the middleware of
    that name; the file system is the [realpath] of [Paths.v] and a test for
    regular files.  Decryption is in [FileEncryption.v]. *)

From S2P Require Import Prelude JsMap JsStrings JsNumbers ModuleRegistry ModuleCatalogue PermissionCache AuthCache PermissionService PathGate Paths AuthMiddleware Pagination Configuration.
Local Open Scope Z_scope.

(** ** Encodings of a link *)

Definition hex_digit (n : N) : ascii := ascii_of_N (if (n <? 10)%N then n + 48 else n + 55)%N.

Definition unreserved (c : ascii) : bool :=
  is_alnum c || bool_decide (c ∈ ["-"; "_"; "."; "!"; "~"; "*"; "'"; "("; ")"]%char).

(** [encodeURIComponent] *)
Definition encode_char (c : ascii) : list ascii :=
  if unreserved c then [c] else ["%"%char; hex_digit (code c / 16); hex_digit (code c mod 16)].
Definition encodeURIComponent (s : string) : string := of_chars (concat (map encode_char (chars s))).

(** [Buffer.from(s, 'hex')]: the bytes up to the first pair that is not hexadecimal. *)
Fixpoint hex_bytes (l : list ascii) : list N :=
  match l with
  | a :: b :: l' =>
      match hex_value a, hex_value b with
      | Some x, Some y => (x * 16 + y)%N :: hex_bytes l'
      | _, _ => []
      end
  | _ => []
  end.

(** ** [services/SecureFileService.ts] *)

Definition MIN_TTL : Z := 300.
Definition DEFAULT_TTL : Z := 3600.
Definition MIN_SECRET_LENGTH : nat := 32.

(** [assertConfigured]: what the process exits for. *)
Definition assertConfigured (env : EnvSource) : option string :=
  match getFileAccessSecret env with
  | None => Some "FILE_ACCESS_SECRET is not configured"
  | Some secret =>
      if (utf16_length secret <? MIN_SECRET_LENGTH)%nat then Some "FILE_ACCESS_SECRET is too short"
      else if bool_decide (env "NODE_ENV" = Some "production") then
        if negb (bool_decide (is_Some (getFileEncryptionKey env))) then Some "FILE_ENCRYPTION_KEY is not configured"
        else if negb (bool_decide (is_Some (getTotpEncryptionKey env))) then Some "TOTP_ENCRYPTION_KEY is not configured"
        else None
      else None
  end.

Definition clampTtl (env : EnvSource) (ttl : option Z) : Z :=
  Z.min (Z.max (default DEFAULT_TTL ttl) MIN_TTL) (getFileSignedUrlMaxTtlS env).

Record verification := { vf_valid : bool; vf_expired : bool }.

Section signed_urls.
Context (hmac_hex : string → string → string) (env : EnvSource).

(** [computeSignature]; an expiry is printed in decimal, as numbers below 10^21 are. *)
Definition link_payload (filePath userId : string) (expires : Z) : string :=
  filePath +:+ ":" +:+ userId +:+ ":" +:+ pretty expires.

Definition computeSignature (filePath userId : string) (expires : Z) : outcome string string :=
  match getFileAccessSecret env with
  | None => Throw "FILE_ACCESS_SECRET is not configured."
  | Some secret => Ok (hmac_hex secret (link_payload filePath userId expires))
  end.

(** The parts of a link; [now] is [Date.now()] in milliseconds. *)
Definition link_expiry (now : Z) (ttl : option Z) : Z := now / 1000 + clampTtl env ttl.

Definition generateSignedUrl (now : Z) (filePath userId : string) (ttl : option Z) : outcome string string :=
  match computeSignature filePath userId (link_expiry now ttl) with
  | Throw e => Throw e
  | Ok signature =>
      Ok ("/api/v1/files/" +:+ encodeURIComponent filePath +:+ "?expires=" +:+ pretty (link_expiry now ttl)
          +:+ "&userId=" +:+ encodeURIComponent userId +:+ "&sig=" +:+ signature)
  end.

Definition verifySignedUrl (now : Z) (filePath userId : string) (expires : Z) (signature : string)
    : outcome string verification :=
  if expires <? now / 1000 then Ok {| vf_valid := false; vf_expired := true |}
  else match computeSignature filePath userId expires with
       | Throw e => Throw e
       | Ok expectedSignature =>
           let sigBuffer := hex_bytes (chars signature) in
           let expectedBuffer := hex_bytes (chars expectedSignature) in
           if negb (bool_decide (length sigBuffer = length expectedBuffer))
           then Ok {| vf_valid := false; vf_expired := false |}
           else Ok {| vf_valid := bool_decide (sigBuffer = expectedBuffer); vf_expired := false |}
       end.

End signed_urls.

(** ** [middleware/secureFile.ts] *)

Record encrypted_file := { ef_id : string; ef_module : option string; ef_name : string }.
Record signer := { sg_id : string; sg_role : string; sg_status : string }.

Record access_log := { al_user : string; al_path : string; al_granted : bool }.

(** What [authenticate] did: answered by itself, or called [next]. *)
Inductive auth_answer : Type :=
  | AuthReplied (status : Z)
  | AuthFailed
  | AuthPassed (user : option principal).

Record file_request := {
  fr_path : string; fr_expires : option string; fr_userId : option string; fr_sig : option string;
  fr_auth : auth_answer }.

Inductive file_reply : Type :=
  | FileStatus (status : Z)
  | Decrypted (fileId : string)
  | Sent (path : string).

Record secure_env := {
  se_env : EnvSource; se_now : Z; se_registry : registry; se_cache_now : Z; se_cache_now' : Z;
  se_files : option (list encrypted_file); se_users : option (list signer);
  se_cwd : string; se_uploadDir : string; se_realpath : string → option string; se_isFile : string → bool }.

Record SecureFileOptions := { requireAuth : bool; checkPermission : bool; auditAccess : bool }.
Definition default_secure_options : SecureFileOptions :=
  {| requireAuth := true; checkPermission := true; auditAccess := true |}.

(** [path.basename(p).replace(/\.enc$/, '')] *)
Definition file_id (p : string) : string :=
  let name := path_basename p in
  let n := (String.length name - 4)%nat in
  if bool_decide (String.substring n 4 name = ".enc") && (4 <=? String.length name)%nat then String.substring 0 n name else name.

Section secure_file.
Context (hmac_hex : string → string → string) (e : secure_env).

(** The lookup of a row: an error of the query counts as no row. *)
Definition lookup_file (fileId : string) : option encrypted_file :=
  files ← e.(se_files); select_one (λ f, bool_decide (f.(ef_id) = fileId)) files.

Definition getSignerStanding (signerId : string) : option signer :=
  users ← e.(se_users); select_one (λ u, bool_decide (u.(sg_id) = signerId)) users.

(** The decision and the module it was made on. *)
Definition checkFilePermission (userId userRole filePath : string) (s : perm_state)
    : (bool * option string) * perm_state :=
  if bool_decide (userRole = UserRole.ADMIN) then ((true, None), s)
  else match lookup_file (file_id filePath) ≫= ef_module with
  | None => ((false, None), s)
  | Some fileModule =>
      if bool_decide (trim fileModule = "") then ((false, None), s)
      else match getModule e.(se_registry) fileModule with
      | None => ((false, Some fileModule), s)
      | Some moduleDef =>
          if negb (bool_decide (moduleDef.(fileScope) = Some true)) then ((false, Some fileModule), s)
          else match hasPermission e.(se_registry) e.(se_cache_now) e.(se_cache_now') userId fileModule "View" s with
               | (Ok allowed, s') => ((allowed, Some fileModule), s')
               | (Throw _, s') => ((false, None), s')
               end
      end
  end.

(** [serveFile] *)
Definition serveFile (filePath : string) : file_reply :=
  let containment := checkContainment e.(se_cwd) e.(se_realpath) e.(se_uploadDir) filePath in
  if negb containment.(contained) then FileStatus 404
  else match containment.(resolvedPath) with
  | None => FileStatus 404
  | Some resolvedFilePath =>
      match lookup_file (file_id resolvedFilePath) with
      | Some record => Decrypted record.(ef_id)
      | None => if e.(se_isFile) resolvedFilePath then Sent resolvedFilePath else FileStatus 404
      end
  end.

(** A user that passed the permission check, or a denial with its log. *)
Definition after_identity (o : SecureFileOptions) (id role filePath : string) (s : perm_state)
    : (file_reply * list access_log) * perm_state :=
  let '((allowed, m), s') := if o.(checkPermission) then checkFilePermission id role filePath s else ((true, None), s) in
  let log granted := if o.(auditAccess) then [{| al_user := id; al_path := filePath; al_granted := granted |}] else [] in
  if allowed then ((serveFile filePath, log true), s') else ((FileStatus 403, log false), s').

Definition denied (o : SecureFileOptions) (userId filePath : string) (status : Z) : file_reply * list access_log :=
  (FileStatus status,
   if o.(auditAccess) && (400 <=? status) then [{| al_user := userId; al_path := filePath; al_granted := false |}] else []).

Definition ANONYMOUS_USER_ID : string := "anonymous".

(** The branch without a signed link. *)
Definition without_link (o : SecureFileOptions) (req : file_request) (s : perm_state)
    : (file_reply * list access_log) * perm_state :=
  let filePath := req.(fr_path) in
  if o.(requireAuth) then
    match req.(fr_auth) with
    | AuthReplied status => (denied o ANONYMOUS_USER_ID filePath status, s)
    | AuthFailed | AuthPassed None => (denied o ANONYMOUS_USER_ID filePath 401, s)
    | AuthPassed (Some user) => after_identity o user.(pr_id) user.(pr_role) filePath s
    end
  else ((serveFile filePath, []), s).

(** A parameter that is present and not empty. *)
Definition given (p : option string) : option string := v ← p; if bool_decide (v = "") then None else Some v.

(** [createSecureFileMiddleware]: the reply, the rows added to the log.  An
    exception of [verifySignedUrl] leaves the handler. *)
Definition secure_file (o : SecureFileOptions) (req : file_request) (s : perm_state)
    : outcome string ((file_reply * list access_log) * perm_state) :=
  let filePath := req.(fr_path) in
  match given req.(fr_expires), given req.(fr_userId), given req.(fr_sig) with
  | Some expires, Some sigUserId, Some sig =>
      let expiresNum := parseInt_10 expires in
      if isNaN expiresNum then Ok (without_link o req s)
      else match verifySignedUrl hmac_hex e.(se_env) e.(se_now) filePath sigUserId (integer_value expiresNum) sig with
      | Throw err => Throw err
      | Ok result =>
          if result.(vf_valid) then
            match getSignerStanding sigUserId with
            | Some signer =>
                if bool_decide (signer.(sg_status) = "Active")
                then Ok (after_identity o signer.(sg_id) signer.(sg_role) filePath s)
                else Ok (denied o sigUserId filePath 403, s)
            | None => Ok (denied o sigUserId filePath 403, s)
            end
          else if result.(vf_expired) then Ok (denied o sigUserId filePath 401, s)
          else Ok (without_link o req s)
      end
  | _, _, _ => Ok (without_link o req s)
  end.

End secure_file.

(** ** Properties *)

Lemma clampTtl_bounds env ttl :
  Z.min MIN_TTL (getFileSignedUrlMaxTtlS env) <= clampTtl env ttl <= getFileSignedUrlMaxTtlS env /\
  1 <= getFileSignedUrlMaxTtlS env <= 900.
Proof.
  assert (H : 1 <= getFileSignedUrlMaxTtlS env <= 900)
    by (apply (readIntInRange_bounds _ {| sp_min := 1; sp_max := 900; sp_default := 900 |}); cbn; lia).
  unfold clampTtl, MIN_TTL. lia.
Qed.

(** a link verifies for its file and user, with its expiry, until the second it
    expires and never after; it lives at most fifteen minutes and, unless the
    configured maximum is shorter, at least five. *)
Theorem signed_link_window hmac_hex env now filePath userId ttl url
    (Hurl : generateSignedUrl hmac_hex env now filePath userId ttl = Ok url) :
  let expires := link_expiry env now ttl in
  exists signature,
    url = "/api/v1/files/" +:+ encodeURIComponent filePath +:+ "?expires=" +:+ pretty expires
          +:+ "&userId=" +:+ encodeURIComponent userId +:+ "&sig=" +:+ signature /\
    (forall now', verifySignedUrl hmac_hex env now' filePath userId expires signature =
       Ok {| vf_valid := bool_decide (now' / 1000 <= expires); vf_expired := negb (bool_decide (now' / 1000 <= expires)) |}) /\
    expires - now / 1000 <= 900 /\
    (getFileSignedUrlMaxTtlS env >= 300 -> 300 <= expires - now / 1000).
Proof.
  cbv zeta. unfold generateSignedUrl in Hurl.
  destruct (computeSignature _ _ _ _ _) as [signature|] eqn:Hsig; [|done]. injection Hurl as <-.
  exists signature. split; [done|]. split.
  - intros now'. unfold verifySignedUrl. rewrite Hsig.
    destruct (Z.ltb_spec (link_expiry env now ttl) (now' / 1000)).
    + rewrite bool_decide_eq_false_2 by lia. done.
    + rewrite !bool_decide_eq_true_2 by (done || lia). done.
  - destruct (clampTtl_bounds env ttl) as [H1 H2]. unfold link_expiry, MIN_TTL in *. lia.
Qed.

Lemma length_encoded l : (length l <= length (concat (map encode_char l)))%nat.
Proof.
  induction l as [|c l IH]; [done|]. cbn [map concat length]. rewrite length_app.
  assert (1 <= length (encode_char c))%nat by (unfold encode_char; destruct (unreserved c); cbn [length]; lia). lia.
Qed.

Lemma encoded_path_differs p : "/" +:+ encodeURIComponent p ≠ p.
Proof.
  intros H. apply (f_equal chars) in H. unfold encodeURIComponent in H. rewrite chars_app, chars_of_chars in H.
  change (chars "/") with ["/"%char] in H. cbn [app] in H. destruct (chars p) as [|c l] eqn:Hp; [discriminate|].
  injection H as <- H. apply (f_equal length) in H.
  change (length (["%"; "2"; "F"]%char ++ concat (map encode_char l)) = length l) in H.
  rewrite length_app in H. pose proof (length_encoded l). cbn [length] in H. lia.
Qed.

Lemma link_payload_path p p' u n : link_payload p u n = link_payload p' u n → p = p'.
Proof.
  unfold link_payload. intros H. apply (inj chars). apply (f_equal chars) in H.
  rewrite !(chars_app _ (":" +:+ _)) in H. by apply app_inv_tail in H.
Qed.

(** the request a link makes is refused, whatever the file, the user and the
    time: the link is signed for the path as given, while the middleware checks
    the path of the request, which starts with a slash and is still encoded. *)
Theorem signed_link_is_refused hmac_hex env now filePath userId ttl url now'
    (Hcollision : forall k p1 p2,
       hex_bytes (chars (hmac_hex k p1)) = hex_bytes (chars (hmac_hex k p2)) -> p1 = p2)
    (Hurl : generateSignedUrl hmac_hex env now filePath userId ttl = Ok url) :
  exists requestPath rest signature,
    url = "/api/v1/files" +:+ requestPath +:+ "?" +:+ rest +:+ "&sig=" +:+ signature /\
    exists v, verifySignedUrl hmac_hex env now' requestPath userId (link_expiry env now ttl) signature = Ok v /\
      v.(vf_valid) = false.
Proof.
  unfold generateSignedUrl in Hurl. unfold computeSignature in Hurl.
  destruct (getFileAccessSecret env) as [k|] eqn:Hk; [|done]. injection Hurl as <-.
  exists ("/" +:+ encodeURIComponent filePath), ("expires=" +:+ pretty (link_expiry env now ttl) +:+ "&userId=" +:+ encodeURIComponent userId).
  eexists. split.
  - rewrite !app_assoc_str. change ("/api/v1/files/" +:+ ?x) with ("/api/v1/files" +:+ "/" +:+ x). reflexivity.
  - unfold verifySignedUrl, computeSignature. rewrite Hk. destruct (_ <? _); [by eexists|].
    destruct (negb _); [by eexists|]. eexists. split; [done|]. cbn [vf_valid]. apply bool_decide_eq_false.
    intros Heq. apply Hcollision, link_payload_path in Heq. by apply (encoded_path_differs filePath).
Qed.

Lemma serveFile_contained e filePath x : serveFile e filePath = x → (∀ st, x ≠ FileStatus st) →
  (checkContainment e.(se_cwd) e.(se_realpath) e.(se_uploadDir) filePath).(contained) = true.
Proof.
  unfold serveFile. intros <- H. destruct (contained _); [done|]. by destruct (H 404).
Qed.

Section serving.
Context (hmac_hex : string → string → string) (e : secure_env).

(** May view the file whose record the request names: an Admin, or a user with the action View
    on the module of the file, a known module whose files can be viewed. *)
Definition entitled (id role filePath : string) (s : perm_state) : Prop :=
  role = UserRole.ADMIN ∨ ∃ record fm def,
    lookup_file e (file_id filePath) = Some record ∧ record.(ef_module) = Some fm ∧ trim fm ≠ "" ∧
    getModule e.(se_registry) fm = Some def ∧ def.(fileScope) = Some true ∧
    granted e.(se_registry) s.(pdb) id fm "View" = true.

(** What the check of the link of a request says; [None] without a link, or without a number
    as its expiry. *)
Definition link_verdict (req : file_request) : option (string * verification) :=
  expires ← given req.(fr_expires);
  id ← given req.(fr_userId);
  sig ← given req.(fr_sig);
  if isNaN (parseInt_10 expires) then None
  else match verifySignedUrl hmac_hex e.(se_env) e.(se_now) req.(fr_path) id (integer_value (parseInt_10 expires)) sig with
       | Ok v => Some (id, v)
       | Throw _ => None
       end.

(** Who a request comes from, id and role: with a valid link the user it names, if active; with
    an expired one nobody; otherwise the user of the session. *)
Definition requester (req : file_request) : option (string * string) :=
  let session := match req.(fr_auth) with AuthPassed (Some user) => Some (user.(pr_id), user.(pr_role)) | _ => None end in
  match link_verdict req with
  | Some (id, v) =>
      if v.(vf_valid) then
        signer ← getSignerStanding e id;
        if bool_decide (signer.(sg_status) = "Active") then Some (signer.(sg_id), signer.(sg_role)) else None
      else if v.(vf_expired) then None else session
  | None => session
  end.

Lemma checkFilePermission_run userId role filePath s :
  registry_wf e.(se_registry) → coherent e.(se_registry) s →
  let '((allowed, m), s') := checkFilePermission e userId role filePath s in
  s'.(pdb) = s.(pdb) ∧ (allowed = true ↔ entitled userId role filePath s).
Proof.
  intros Hreg Hc. unfold checkFilePermission, entitled.
  case_bool_decide as Hadm; [split; [done|]; split; [by left|done]|].
  destruct (lookup_file e (file_id filePath)) as [record|] eqn:Hl; cbn [mbind option_bind]; [|split; [done|naive_solver]].
  destruct (ef_module record) as [fm|] eqn:Hfm; [|split; [done|naive_solver]].
  case_bool_decide as Htrim; [split; [done|naive_solver]|].
  destruct (getModule _ fm) as [def|] eqn:Hm; [|split; [done|naive_solver]].
  case_bool_decide as Hscope; cbn [negb]; [|split; [done|naive_solver]].
  pose proof (hasPermission_run e.(se_registry) e.(se_cache_now) e.(se_cache_now') userId fm "View" s Hreg Hc) as Hperm.
  destruct (hasPermission _ _ _ _ _ _ _) as [r s']. destruct Hperm as (-> & Hpdb & _).
  split; [done|]. split; [intros Hg; right; by exists record, fm, def|naive_solver].
Qed.

Lemma getSignerStanding_id id signer : getSignerStanding e id = Some signer → signer.(sg_id) = id.
Proof.
  unfold getSignerStanding. destruct (se_users e) as [users|]; [|done]. cbn [mbind option_bind].
  intros [_ Hs]%select_one_Some. by bools.
Qed.

(** What an answer of the middleware says, with the row it logs. *)
Definition answer_ok (req : file_request) (s : perm_state) (reply : file_reply) (log : list access_log) (s' : perm_state) : Prop :=
  s'.(pdb) = s.(pdb) ∧
  match requester req with
  | Some (id, role) =>
      ∃ allowed : bool, (allowed = true ↔ entitled id role req.(fr_path) s) ∧
        log = [{| al_user := id; al_path := req.(fr_path); al_granted := allowed |}] ∧
        reply = if allowed then serveFile e req.(fr_path) else FileStatus 403
  | None =>
      ∃ status, reply = FileStatus status ∧
        if 400 <=? status then ∃ user, log = [{| al_user := user; al_path := req.(fr_path); al_granted := false |}]
        else log = [] ∧ req.(fr_auth) = AuthReplied status
  end.

Lemma after_identity_ok req id role s :
  registry_wf e.(se_registry) → coherent e.(se_registry) s → requester req = Some (id, role) →
  let '((reply, log), s') := after_identity e default_secure_options id role req.(fr_path) s in
  answer_ok req s reply log s'.
Proof.
  intros Hreg Hc Hid. unfold after_identity. cbn [checkPermission auditAccess default_secure_options].
  pose proof (checkFilePermission_run id role req.(fr_path) s Hreg Hc) as H.
  destruct (checkFilePermission _ _ _ _ _) as [[allowed m] s']. destruct H as [Hpdb H].
  destruct allowed; (split; [done|]); rewrite Hid; eexists; (split; [exact H|]); by split.
Qed.

Lemma denied_ok req user status s : 400 <= status → requester req = None →
  answer_ok req s (denied default_secure_options user req.(fr_path) status).1
    (denied default_secure_options user req.(fr_path) status).2 s.
Proof.
  intros Hst Hno. split; [done|]. rewrite Hno. exists status. unfold denied.
  cbn [fst snd auditAccess default_secure_options andb]. rewrite (proj2 (Z.leb_le _ _)) by done.
  split; [done|]. by exists user.
Qed.

Lemma without_link_ok req s :
  registry_wf e.(se_registry) → coherent e.(se_registry) s →
  requester req = (match req.(fr_auth) with AuthPassed (Some user) => Some (user.(pr_id), user.(pr_role)) | _ => None end) →
  let '((reply, log), s') := without_link e default_secure_options req s in answer_ok req s reply log s'.
Proof.
  intros Hreg Hc Hreq. unfold without_link. cbn [requireAuth default_secure_options].
  destruct (fr_auth req) as [status| |[user|]] eqn:Ha; [|by apply denied_ok| |by apply denied_ok].
  - destruct (Z.le_gt_cases 400 status) as [Hst|Hst]; [by apply denied_ok|].
    split; [done|]. rewrite Hreq. exists status. unfold denied. cbn [auditAccess default_secure_options andb fst snd].
    rewrite (proj2 (Z.leb_gt _ _)) by done. by split.
  - by apply after_identity_ok.
Qed.

Lemma secure_file_answer req s reply log s' :
  registry_wf e.(se_registry) → coherent e.(se_registry) s →
  secure_file hmac_hex e default_secure_options req s = Ok ((reply, log), s') → answer_ok req s reply log s'.
Proof.
  intros Hreg Hc Hrun. unfold secure_file in Hrun.
  pose proof (without_link_ok req s Hreg Hc) as Hw.
  pose proof (λ user status Hst, denied_ok req user status s Hst) as Hd.
  unfold requester, link_verdict in *.
  destruct (given (fr_expires req)) as [expires|] eqn:He; cbn [mbind option_bind] in *; [|injection Hrun as Hrun; rewrite Hrun in Hw; auto].
  destruct (given (fr_userId req)) as [id|] eqn:Hu; cbn [mbind option_bind] in *; [|injection Hrun as Hrun; rewrite Hrun in Hw; auto].
  destruct (given (fr_sig req)) as [sig|] eqn:Hg; cbn [mbind option_bind] in *; [|injection Hrun as Hrun; rewrite Hrun in Hw; auto].
  destruct (isNaN _) eqn:Hnan; [injection Hrun as Hrun; rewrite Hrun in Hw; auto|].
  destruct (verifySignedUrl _ _ _ _ _ _ _) as [v|] eqn:Hv; [|done].
  destruct (vf_valid v) eqn:Hvalid.
  - destruct (getSignerStanding e id) as [signer|] eqn:Hsg; cbn [mbind option_bind] in *;
      [|injection Hrun as <- <- <-; by apply (Hd id 403)].
    case_bool_decide as Hact; [|injection Hrun as <- <- <-; by apply (Hd id 403)].
    pose proof (after_identity_ok req (sg_id signer) (sg_role signer) s Hreg Hc) as Ha.
    injection Hrun as Hrun. rewrite Hrun in Ha. apply Ha. unfold requester, link_verdict.
    rewrite He, Hu, Hg. cbn [mbind option_bind]. rewrite Hnan, Hv, Hvalid, Hsg. cbn [mbind option_bind].
    by rewrite bool_decide_eq_true_2.
  - destruct (vf_expired v); [injection Hrun as <- <- <-; by apply (Hd id 401)|].
    injection Hrun as Hrun. rewrite Hrun in Hw. auto.
Qed.


End serving.

(** with the middleware mounted over the upload directory no upload is ever
    served: the path of a request starts with a slash, so it is looked up from
    the root of the file system, and unless it spells out the upload directory
    itself every answer is a status, whoever asks. *)
Theorem uploads_never_served hmac_hex e req s reply log s'
    (Hreal : forall p q, e.(se_realpath) p = Some q -> exists qs, Forall segment_ok qs /\ q = abs_path qs)
    (Hplain : forall p q, e.(se_realpath) p = Some q -> q = p)
    (Hslash : starts_with req.(fr_path) "/" = true)
    (Hbase : base_segments e.(se_cwd) e.(se_uploadDir) <> [])
    (Hout : ~ base_segments e.(se_cwd) e.(se_uploadDir) `prefix_of` normal_segments req.(fr_path))
    (Hrun : secure_file hmac_hex e default_secure_options req s = Ok ((reply, log), s')) :
  exists status, reply = FileStatus status.
Proof.
  assert (Hserve : serveFile e req.(fr_path) = FileStatus 404).
  { unfold serveFile.
    destruct (request_path_containment e.(se_cwd) e.(se_realpath) e.(se_uploadDir) req.(fr_path) Hreal Hplain) as [_ H].
    destruct (H Hslash) as [_ Hin]. destruct (contained _); [|done]. destruct Hout. by apply Hin. }
  assert (Hafter : ∀ id role, ∃ status, (after_identity e default_secure_options id role req.(fr_path) s).1.1 = FileStatus status).
  { intros id role. unfold after_identity. cbn [checkPermission auditAccess default_secure_options].
    destruct (SecureFiles.checkFilePermission _ _ _ _ _) as [[[] m] s2]; cbn [fst]; [rewrite Hserve|]; by eexists. }
  assert (Hwithout : ∃ status, (without_link e default_secure_options req s).1.1 = FileStatus status).
  { unfold without_link. cbn [requireAuth default_secure_options].
    destruct (fr_auth req) as [status| |[user|]]; [by eexists..|apply Hafter|by eexists]. }
  assert (Hgen : ∀ x, Ok (E:=string) x = Ok ((reply, log), s') → (∃ status, x.1.1 = FileStatus status) →
    ∃ status, reply = FileStatus status) by (intros x [= ->]; done).
  unfold secure_file in Hrun. repeat case_match; try done; (eapply Hgen; [exact Hrun|]); auto; by eexists.
Qed.

Module Links.

(** A keyed code that is not a secret one, but has no collisions. *)
Definition to_hex (p : string) : string :=
  of_chars (concat (map (λ c, [hex_digit (code c / 16); hex_digit (code c mod 16)]) (chars p))).
Definition open_hmac (k p : string) : string := to_hex p.

Lemma hex_bytes_to_hex p : hex_bytes (chars (to_hex p)) = map code (chars p).
Proof.
  unfold to_hex. rewrite chars_of_chars. induction (chars p) as [|c l IH]; [reflexivity|].
  cbn [map concat app hex_bytes]. rewrite IH. by destruct c as [[] [] [] [] [] [] [] []].
Qed.

Lemma code_inj c1 c2 : code c1 = code c2 → c1 = c2.
Proof. unfold code. intros H. by rewrite <- (ascii_N_embedding c1), H, ascii_N_embedding. Qed.

Lemma open_hmac_collision k p1 p2 :
  hex_bytes (chars (open_hmac k p1)) = hex_bytes (chars (open_hmac k p2)) → p1 = p2.
Proof.
  unfold open_hmac. rewrite !hex_bytes_to_hex. intros H. apply (inj chars). revert H.
  generalize (chars p1) (chars p2). intros l1. induction l1 as [|c l1 IH]; intros [|c2 l2] H; try done.
  injection H as Hc H. by rewrite (code_inj _ _ Hc), (IH _ H).
Qed.

Definition env : EnvSource := λ name,
  if bool_decide (name = "FILE_ACCESS_SECRET") then Some "0123456789abcdef0123456789abcdef" else None.

Definition server : secure_env := {|
  se_env := env; se_now := 1000000; se_registry := loaded_registry; se_cache_now := 1; se_cache_now' := 2;
  se_files := Some [{| ef_id := "doc"; ef_module := Some "AuditPlans"; ef_name := "plan.pdf" |}];
  se_users := Some [{| sg_id := "u1"; sg_role := "Manager"; sg_status := "Active" |}];
  se_cwd := "/app"; se_uploadDir := "./uploads"; se_realpath := λ _, None;
  se_isFile := λ p, bool_decide (p = "/app/uploads/doc.enc") |}.

Definition ask (p : string) : file_request := {|
  fr_path := p; fr_expires := None; fr_userId := None; fr_sig := None;
  fr_auth := AuthPassed (Some {| pr_id := "u1"; pr_role := "Manager" |}) |}.

(** The manager may view the document, and gets it only under the path of the
    directory on the server's disk; a link signed for it is not needed then. *)
Example manager_asks :
  (secure_file open_hmac server default_secure_options (ask "/doc.enc") Sample.state)
    = Ok ((FileStatus 404, [{| al_user := "u1"; al_path := "/doc.enc"; al_granted := true |}]),
          match secure_file open_hmac server default_secure_options (ask "/doc.enc") Sample.state with
          | Ok r => r.2 | Throw _ => Sample.state end) ∧
  match secure_file open_hmac server default_secure_options (ask "/app/uploads/doc.enc") Sample.state with
  | Ok r => r.1.1 = Decrypted "doc" | Throw _ => False end.
Proof. split; vm_compute; reflexivity. Qed.

(** The separator of the payload does not separate, and what follows the
    signature is ignored. *)
Theorem link_gaps :
  (∀ hmac_hex env p u v n, computeSignature hmac_hex env (p +:+ ":" +:+ u) v n = computeSignature hmac_hex env p (u +:+ ":" +:+ v) n) ∧
  verifySignedUrl open_hmac env 0 "/doc.enc" "u1" 900
    (open_hmac "" (link_payload "/doc.enc" "u1" 900) +:+ "!anything") = Ok {| vf_valid := true; vf_expired := false |}.
Proof.
  split; [|vm_compute; reflexivity]. intros. unfold computeSignature, link_payload. by rewrite !app_assoc_str.
Qed.

End Links.

Lemma signed_link_window_witness :
  ∃ url, generateSignedUrl Links.open_hmac Links.env 1000000 "doc.enc" "u1" None = Ok url ∧
    (∀ now', ∃ signature, verifySignedUrl Links.open_hmac Links.env now' "doc.enc" "u1" 1900 signature =
      Ok {| vf_valid := bool_decide (now' / 1000 <= 1900); vf_expired := negb (bool_decide (now' / 1000 <= 1900)) |}).
Proof.
  destruct (generateSignedUrl Links.open_hmac Links.env 1000000 "doc.enc" "u1" None) as [url|] eqn:Hurl.
  - exists url. split; [reflexivity|]. intros now'.
    destruct (signed_link_window Links.open_hmac Links.env 1000000 "doc.enc" "u1" None url Hurl) as (signature & _ & H & _).
    exists signature. exact (H now').
  - discriminate.
Defined.

Lemma signed_link_is_refused_witness :
  ∃ url, generateSignedUrl Links.open_hmac Links.env 1000000 "doc.enc" "u1" None = Ok url ∧
    ∃ requestPath signature v,
      verifySignedUrl Links.open_hmac Links.env 1000000 requestPath "u1" 1900 signature = Ok v ∧ v.(vf_valid) = false.
Proof.
  destruct (generateSignedUrl Links.open_hmac Links.env 1000000 "doc.enc" "u1" None) as [url|] eqn:Hurl.
  - exists url. split; [reflexivity|].
    destruct (signed_link_is_refused Links.open_hmac Links.env 1000000 "doc.enc" "u1" None url 1000000
      Links.open_hmac_collision Hurl) as (p & rest & signature & _ & v & H1 & H2).
    exists p, signature, v. split; [exact H1|exact H2].
  - discriminate.
Defined.


Lemma uploads_never_served_witness :
  ∃ reply log s', secure_file Links.open_hmac Links.server default_secure_options (Links.ask "/doc.enc") Sample.state
      = Ok ((reply, log), s') ∧ ∃ status, reply = FileStatus status.
Proof.
  destruct (secure_file Links.open_hmac Links.server default_secure_options (Links.ask "/doc.enc") Sample.state)
    as [[[reply log] s']|] eqn:Hrun; [|vm_compute in Hrun; discriminate].
  exists reply, log, s'. split; [reflexivity|].
  refine (uploads_never_served Links.open_hmac Links.server (Links.ask "/doc.enc") Sample.state reply log s'
    _ _ eq_refl _ _ Hrun).
  - discriminate.
  - discriminate.
  - vm_compute. discriminate.
  - apply (bool_decide_unpack _). vm_compute. exact I.
Defined.
