(* ===== verification/FileEncryption.v ===== *)
(** * Encrypted files ([services/FileEncryptionService.ts])

    Encryption of uploads at rest and the rotation of its key.  AES-256-GCM is
    the pair [seal] and [open_] of a key, SHA-256 is [sha256], HKDF is
    [deriveKey], random bytes are arguments.  The disk is a map from paths to
    bytes on which writes succeed; a service object is a state. *)

From S2P Require Import Prelude JsMap JsStrings Encodings PathGate Paths.
Local Open Scope Z_scope.

Abbreviation bytes := (list ascii).

Definition IV_LENGTH : nat := 12.
Definition AUTH_TAG_LENGTH : nat := 16.
Definition HEADER_LENGTH : nat := IV_LENGTH + AUTH_TAG_LENGTH.

Record EncryptionMetadata := {
  em_fileId : string; em_originalName : string; em_mimeType : string; em_size : Z;
  em_iv : string; em_authTag : string; em_encryptedAt : string; em_checksum : string; em_keyVersion : Z }.

Record EncryptFileInput := {
  ef_fileId : string; ef_originalName : string; ef_mimeType : string; ef_size : Z; ef_keyVersion : Z }.

(** [buf.toString('base64')] *)
Definition base64_char (c : ascii) : ascii :=
  if bool_decide (c = "-"%char) then "+"%char else if bool_decide (c = "_"%char) then "/"%char else c.
Definition base64 (l : bytes) : string :=
  let body := map base64_char (base64url_encode l) in
  of_chars (body ++ match (length l mod 3)%nat with 1%nat => ["="; "="]%char | 2%nat => ["="%char] | _ => [] end).

Section encryption.
Context {key : Type}.
Context (seal : key → bytes → bytes → bytes * bytes) (open_ : key → bytes → bytes → bytes → option bytes).
Context (sha256 : bytes → string) (deriveKey : string → key).

(** [encryptionKey], [previousEncryptionKey], [metadataStore], and the disk. *)
Record enc_state := {
  es_key : option key; es_previous : option key;
  es_metadata : list (string * EncryptionMetadata);
  es_disk : list (string * bytes) }.

Definition with_metadata (m : list (string * EncryptionMetadata)) (s : enc_state) : enc_state :=
  {| es_key := s.(es_key); es_previous := s.(es_previous); es_metadata := m; es_disk := s.(es_disk) |}.
Definition with_disk (d : list (string * bytes)) (s : enc_state) : enc_state :=
  {| es_key := s.(es_key); es_previous := s.(es_previous); es_metadata := s.(es_metadata); es_disk := d |}.
Definition with_key (k : option key) (s : enc_state) : enc_state :=
  {| es_key := k; es_previous := s.(es_previous); es_metadata := s.(es_metadata); es_disk := s.(es_disk) |}.
Definition with_previous (k : option key) (s : enc_state) : enc_state :=
  {| es_key := s.(es_key); es_previous := k; es_metadata := s.(es_metadata); es_disk := s.(es_disk) |}.

Abbreviation enc_action := (action string enc_state).

(** [initializeKey]; an empty variable counts as unset. *)
Definition set_text (v : option string) : option string := v ← v; if bool_decide (v = "") then None else Some v.
Definition initializeKey (env : string → option string) (s : enc_state) : enc_state :=
  match set_text (env "FILE_ENCRYPTION_KEY") with
  | None => with_key None s
  | Some rawKey =>
      let s := with_key (Some (deriveKey rawKey)) s in
      match set_text (env "FILE_ENCRYPTION_KEY_PREVIOUS") with
      | Some rawPreviousKey => with_previous (Some (deriveKey rawPreviousKey)) s
      | None => s
      end
  end.

Definition setPreviousEncryptionKey (rawKey : option string) : enc_action unit :=
  modify (with_previous (deriveKey <$> set_text rawKey)).
Definition clearPreviousEncryptionKey : enc_action unit := modify (with_previous None).

Context (uploadDir : string).

Definition plain_path (fileId : string) : string := path_join uploadDir [fileId].
Definition enc_path (fileId : string) : string := path_join uploadDir [fileId +:+ ".enc"].

Definition writeFile (p : string) (content : bytes) : enc_action unit :=
  modify (λ s, with_disk (map_set p content s.(es_disk)) s).
Definition readFile (p : string) : enc_action bytes :=
  s ← get_state;
  match map_get p s.(es_disk) with Some b => mret b | None => throw "ENOENT" end.
Definition setMetadata (fileId : string) (m : EncryptionMetadata) : enc_action unit :=
  modify (λ s, with_metadata (map_set fileId m s.(es_metadata)) s).
Definition find_metadata (fileId : string) : enc_action EncryptionMetadata :=
  s ← get_state;
  match map_get fileId s.(es_metadata) with
  | Some m => mret m
  | None => throw ("File metadata not found for fileId: " +:+ fileId)
  end.

(** Stored without encryption. *)
Definition passthrough (m : EncryptionMetadata) : bool := bool_decide (m.(em_iv) = "") || (m.(em_keyVersion) =? 0).

(** The file format: IV, tag, ciphertext. *)
Definition pack (iv : bytes) (sealed : bytes * bytes) : bytes := iv ++ sealed.2 ++ sealed.1.
Definition file_iv (fileData : bytes) : bytes := take IV_LENGTH fileData.
Definition file_tag (fileData : bytes) : bytes := take AUTH_TAG_LENGTH (drop IV_LENGTH fileData).
Definition file_ciphertext (fileData : bytes) : bytes := drop HEADER_LENGTH fileData.

Definition encryptFile (buffer : bytes) (input : EncryptFileInput) (iv : bytes) (now : string)
    : enc_action (string * EncryptionMetadata) :=
  let checksum := sha256 buffer in
  s ← get_state;
  match s.(es_key) with
  | None =>
      let filePath := plain_path input.(ef_fileId) in
      _ ← writeFile filePath buffer;
      let metadata := {| em_fileId := input.(ef_fileId); em_originalName := input.(ef_originalName);
        em_mimeType := input.(ef_mimeType); em_size := input.(ef_size); em_iv := ""; em_authTag := "";
        em_encryptedAt := now; em_checksum := checksum; em_keyVersion := 0 |} in
      _ ← setMetadata input.(ef_fileId) metadata;
      mret (filePath, metadata)
  | Some k =>
      let sealed := seal k iv buffer in
      let encryptedPath := enc_path input.(ef_fileId) in
      _ ← writeFile encryptedPath (pack iv sealed);
      let metadata := {| em_fileId := input.(ef_fileId); em_originalName := input.(ef_originalName);
        em_mimeType := input.(ef_mimeType); em_size := input.(ef_size); em_iv := base64 iv;
        em_authTag := base64 sealed.2; em_encryptedAt := now; em_checksum := checksum;
        em_keyVersion := input.(ef_keyVersion) |} in
      _ ← setMetadata input.(ef_fileId) metadata;
      mret (encryptedPath, metadata)
  end.

(** [decryptWithFallback] with the current key [k]. *)
Definition decryptWithFallback (k : key) (previous : option key) (fileData : bytes) : option bytes :=
  match open_ k (file_iv fileData) (file_tag fileData) (file_ciphertext fileData) with
  | Some p => Some p
  | None => k' ← previous; open_ k' (file_iv fileData) (file_tag fileData) (file_ciphertext fileData)
  end.

Definition decryptFile (fileId : string) : enc_action (bytes * EncryptionMetadata) :=
  metadata ← find_metadata fileId;
  if passthrough metadata then
    buffer ← readFile (plain_path fileId); mret (buffer, metadata)
  else
    s ← get_state;
    match s.(es_key) with
    | None => throw "Cannot decrypt file: FILE_ENCRYPTION_KEY is not set but file was encrypted."
    | Some k =>
        fileData ← readFile (enc_path fileId);
        match decryptWithFallback k s.(es_previous) fileData with
        | None => throw ("Decryption failed for fileId: " +:+ fileId)
        | Some decrypted =>
            if negb (bool_decide (sha256 decrypted = metadata.(em_checksum)))
            then throw ("Integrity check failed for fileId: " +:+ fileId +:+ ". Checksum mismatch.")
            else mret (decrypted, metadata)
        end
    end.

(** [createDecryptStream]: the bytes the stream delivers; [None] is a stream that ends in an error. *)
Definition createDecryptStream (fileId : string) : enc_action (option bytes * EncryptionMetadata) :=
  metadata ← find_metadata fileId;
  if passthrough metadata then
    s ← get_state; mret (map_get (plain_path fileId) s.(es_disk), metadata)
  else
    s ← get_state;
    match s.(es_key) with
    | None => throw "Cannot decrypt file: FILE_ENCRYPTION_KEY is not set but file was encrypted."
    | Some k =>
        fileData ← readFile (enc_path fileId);
        if (length fileData <? HEADER_LENGTH)%nat
        then throw ("Encrypted file is truncated for fileId: " +:+ fileId +:+ " (header incomplete).")
        else mret (open_ k (file_iv fileData) (file_tag fileData) (file_ciphertext fileData), metadata)
    end.

(** The metadata of a file that is sealed again. *)
Definition resealed (m : EncryptionMetadata) (iv tag : bytes) (now : string) (version : Z) : EncryptionMetadata :=
  {| em_fileId := m.(em_fileId); em_originalName := m.(em_originalName); em_mimeType := m.(em_mimeType);
     em_size := m.(em_size); em_iv := base64 iv; em_authTag := base64 tag; em_encryptedAt := now;
     em_checksum := m.(em_checksum); em_keyVersion := version |}.

(** Seal [decrypted] again with [k] and note it. *)
Definition write_resealed (k : key) (fileId : string) (m : EncryptionMetadata) (decrypted iv : bytes) (now : string)
    (version : Z) : enc_action EncryptionMetadata :=
  let sealed := seal k iv decrypted in
  _ ← writeFile (enc_path fileId) (pack iv sealed);
  let updatedMetadata := resealed m iv sealed.2 now version in
  _ ← setMetadata fileId updatedMetadata;
  mret updatedMetadata.

Definition rotateKey (fileId oldKey newKey : string) (newKeyVersion : Z) (iv : bytes) (now : string)
    : enc_action EncryptionMetadata :=
  metadata ← find_metadata fileId;
  let derivedOldKey := deriveKey oldKey in
  fileData ← readFile (enc_path fileId);
  match open_ derivedOldKey (file_iv fileData) (file_tag fileData) (file_ciphertext fileData) with
  | None => throw "Unsupported state or unable to authenticate data"
  | Some decrypted =>
      let derivedNewKey := deriveKey newKey in
      updated ← write_resealed derivedNewKey fileId metadata decrypted iv now newKeyVersion;
      _ ← modify (with_key (Some derivedNewKey));
      mret updated
  end.

Definition verifyIntegrity (fileId : string) : enc_action bool :=
  try_catch (r ← decryptFile fileId; mret (bool_decide (sha256 r.1 = r.2.(em_checksum)))) (λ _, mret false).

(** One file of [rotateEncryptionKey]; [ivs] gives each file its IV. *)
Definition rotate_one (derivedOldKey derivedNewKey : key) (ivs : string → bytes) (now : string)
    (entry : string * EncryptionMetadata) : enc_action unit :=
  let '(fileId, metadata) := entry in
  if passthrough metadata then mret tt
  else
    s ← get_state;
    match map_get (enc_path fileId) s.(es_disk) with
    | None => mret tt
    | Some fileData =>
        match open_ derivedOldKey (file_iv fileData) (file_tag fileData) (file_ciphertext fileData) with
        | None => throw "Unsupported state or unable to authenticate data"
        | Some decrypted =>
            _ ← write_resealed derivedNewKey fileId metadata decrypted (ivs fileId) now (metadata.(em_keyVersion) + 1);
            mret tt
        end
    end.

Definition rotateEncryptionKey (oldKey newKey : string) (ivs : string → bytes) (now : string) : enc_action unit :=
  let derivedOldKey := deriveKey oldKey in
  let derivedNewKey := deriveKey newKey in
  s ← get_state;
  _ ← for_each (rotate_one derivedOldKey derivedNewKey ivs now) s.(es_metadata);
  modify (with_key (Some derivedNewKey)).

(** An item that takes part in the migration to a version. *)
Definition to_migrate (newKeyVersion : Z) (m : EncryptionMetadata) : bool :=
  negb (passthrough m || (newKeyVersion <=? m.(em_keyVersion))).

(** One item of [reEncryptStoreToCurrentKey]: [true] when it was migrated. *)
Definition re_encrypt_one (k : key) (ivs : string → bytes) (now : string) (newKeyVersion : Z)
    (fileId : string) (metadata : EncryptionMetadata) : enc_action bool :=
  try_catch
    (fileData ← readFile (enc_path fileId);
     s ← get_state;
     match decryptWithFallback k s.(es_previous) fileData with
     | None => throw ("Decryption failed for fileId: " +:+ fileId)
     | Some decrypted =>
         _ ← write_resealed k fileId metadata decrypted (ivs fileId) now newKeyVersion;
         mret true
     end)
    (λ _, mret false).

Fixpoint re_encrypt_all (k : key) (ivs : string → bytes) (now : string) (newKeyVersion : Z)
    (entries : list (string * EncryptionMetadata)) : enc_action (list string * list string) :=
  match entries with
  | [] => mret ([], [])
  | (fileId, metadata) :: entries =>
      if negb (to_migrate newKeyVersion metadata) then re_encrypt_all k ivs now newKeyVersion entries
      else
        ok ← re_encrypt_one k ivs now newKeyVersion fileId metadata;
        rest ← re_encrypt_all k ivs now newKeyVersion entries;
        mret (if ok : bool then (fileId :: rest.1, rest.2) else (rest.1, fileId :: rest.2))
  end.

Definition reEncryptStoreToCurrentKey (ivs : string → bytes) (now : string) (newKeyVersion : Z)
    : enc_action (list string * list string) :=
  s ← get_state;
  match s.(es_key) with
  | None => throw "Cannot re-encrypt: current FILE_ENCRYPTION_KEY is not set."
  | Some k =>
      match s.(es_previous) with
      | None => throw "Cannot re-encrypt: previous key is not configured."
      | Some _ => re_encrypt_all k ivs now newKeyVersion s.(es_metadata)
      end
  end.

Definition isReEncryptionComplete (targetKeyVersion : Z) (s : enc_state) : bool :=
  forallb (λ e, passthrough e.2 || (targetKeyVersion <=? e.2.(em_keyVersion))) s.(es_metadata).

End encryption.

(** ** Properties *)

Section encryption_properties.
Context {key : Type}.
Context (seal : key → bytes → bytes → bytes * bytes) (open_ : key → bytes → bytes → bytes → option bytes).
Context (sha256 : bytes → string) (deriveKey : string → key).
(** What AES-256-GCM documents: a tag has sixteen bytes, and what was sealed opens with its key. *)
Context (Htag : ∀ k iv p, length (seal k iv p).2 = AUTH_TAG_LENGTH).
Context (Hopen : ∀ k iv p, open_ k iv (seal k iv p).2 (seal k iv p).1 = Some p).
Context (uploadDir : string) (dir : list string) (Hdir : Forall segment_ok dir) (Hupload : uploadDir = abs_path dir).

Abbreviation state := (@enc_state key).
Abbreviation decrypt_file := (decryptFile open_ sha256 uploadDir).

(** A file identifier as the code makes them: one segment that is not itself a name with [.enc]. *)
Definition id_ok (id : string) : Prop := segment_ok id ∧ ∀ a, id ≠ a +:+ ".enc".

Lemma enc_segment id : segment_ok id → segment_ok (id +:+ ".enc").
Proof.
  intros (Hne & _ & _ & Hs). assert (Hlen : (5 <= String.length (id +:+ ".enc"))%nat).
  { rewrite app_length_str. destruct id; [done|]. cbn [String.length]. lia. }
  split_and!; [by intros Hx; rewrite Hx in Hlen; cbn in Hlen; lia..|].
  rewrite chars_app, elem_of_app. intros [Hin|Hin]; [done|]. by apply (bool_decide_pack _) in Hin.
Qed.

Lemma plain_path_abs id : segment_ok id → plain_path uploadDir id = abs_path (dir ++ [id]).
Proof. intros H. unfold plain_path. rewrite Hupload. apply join_abs; [done|by constructor|done]. Qed.
Lemma enc_path_abs id : segment_ok id → enc_path uploadDir id = abs_path (dir ++ [id +:+ ".enc"]).
Proof.
  intros H. unfold enc_path. rewrite Hupload. apply join_abs; [done| |done]. constructor; [by apply enc_segment|done].
Qed.

Lemma path_inj a b : segment_ok a → segment_ok b → abs_path (dir ++ [a]) = abs_path (dir ++ [b]) → a = b.
Proof.
  intros Ha Hb H. apply abs_path_inj in H; [|by apply Forall_app; split; [|constructor]..].
  apply app_inv_head in H. by injection H.
Qed.

Lemma enc_path_inj a b : segment_ok a → segment_ok b → enc_path uploadDir a = enc_path uploadDir b → a = b.
Proof.
  intros Ha Hb. rewrite !enc_path_abs by done. intros H. apply path_inj in H; [|by apply enc_segment..].
  apply (inj chars). apply (f_equal chars) in H. rewrite !chars_app in H. by apply app_inv_tail in H.
Qed.

Lemma plain_path_not_enc a b : id_ok a → segment_ok b → plain_path uploadDir a ≠ enc_path uploadDir b.
Proof.
  intros [Ha Hne] Hb. rewrite plain_path_abs, enc_path_abs by done. intros H.
  apply path_inj in H; [|done|by apply enc_segment]. by eapply Hne.
Qed.

Lemma plain_path_inj a b : segment_ok a → segment_ok b → plain_path uploadDir a = plain_path uploadDir b → a = b.
Proof. intros Ha Hb. rewrite !plain_path_abs by done. by apply path_inj. Qed.

Lemma pack_parts k iv p : length iv = IV_LENGTH →
  file_iv (pack iv (seal k iv p)) = iv ∧ file_tag (pack iv (seal k iv p)) = (seal k iv p).2 ∧
  file_ciphertext (pack iv (seal k iv p)) = (seal k iv p).1.
Proof.
  intros Hiv. unfold pack, file_iv, file_tag, file_ciphertext, HEADER_LENGTH.
  assert (drop IV_LENGTH (iv ++ (seal k iv p).2 ++ (seal k iv p).1) = (seal k iv p).2 ++ (seal k iv p).1) as Hd
    by (rewrite <- Hiv; apply drop_app_length).
  split_and!.
  - rewrite <- Hiv. apply take_app_length.
  - rewrite Hd, <- (Htag k iv p). apply take_app_length.
  - rewrite <- drop_drop, Hd, <- (Htag k iv p). apply drop_app_length.
Qed.

Lemma open_packed k iv p : length iv = IV_LENGTH →
  decryptWithFallback open_ k None (pack iv (seal k iv p)) = Some p ∧
  ∀ previous, decryptWithFallback open_ k previous (pack iv (seal k iv p)) = Some p.
Proof.
  intros Hiv. destruct (pack_parts k iv p Hiv) as (H1 & H2 & H3). unfold decryptWithFallback.
  rewrite H1, H2, H3, Hopen. done.
Qed.

Lemma base64_nonempty iv : length iv = IV_LENGTH → base64 iv ≠ "".
Proof.
  intros Hiv H. apply (f_equal chars) in H. unfold base64 in H. rewrite chars_of_chars in H.
  apply app_eq_nil in H as [H _]. apply map_eq_nil in H. revert H. apply base64url_nonempty. by destruct iv.
Qed.

(** What reading a file returns with a previous key [p]. *)
Definition read_file (p : option key) (s : state) (id : string) : outcome string (bytes * EncryptionMetadata) :=
  (decrypt_file id (with_previous p s)).1.

Definition readable (p : option key) (s : state) (id : string) (b : bytes) : Prop :=
  ∃ m, read_file p s id = Ok (b, m).

Lemma decrypt_file_run id s : decrypt_file id s = (read_file s.(es_previous) s id, s).
Proof.
  destruct s as [k p md d]. unfold read_file, decryptFile, find_metadata, readFile, with_previous.
  run_action. repeat (case_match; simplify_eq/=; try done).
Qed.

(** Reading looks at the keys, the metadata and the two paths of the file only. *)
Lemma read_file_ext p s s' id :
  s'.(es_key) = s.(es_key) → map_get id s'.(es_metadata) = map_get id s.(es_metadata) →
  map_get (plain_path uploadDir id) s'.(es_disk) = map_get (plain_path uploadDir id) s.(es_disk) →
  map_get (enc_path uploadDir id) s'.(es_disk) = map_get (enc_path uploadDir id) s.(es_disk) →
  read_file p s' id = read_file p s id.
Proof.
  intros Hk Hm Hp He. unfold read_file, decryptFile, find_metadata, readFile, with_previous. run_action.
  rewrite Hm. destruct (map_get id (es_metadata s)) as [m|]; cbn; [|done].
  destruct (passthrough m); cbn; [rewrite Hp; by destruct (map_get (plain_path uploadDir id) (es_disk s))|].
  rewrite Hk. destruct (es_key s) as [k|]; cbn; [|done]. rewrite He.
  destruct (map_get (enc_path uploadDir id) (es_disk s)) as [d|]; cbn; [|done].
  destruct (decryptWithFallback _ _ _ d); [|done]. by destruct (negb _).
Qed.

(** The file [id] sealed with [k], as [write_resealed] and [encryptFile] leave it. *)
Definition sealed_state (s : state) (id : string) (m : EncryptionMetadata) (k : key) (iv p : bytes) : state :=
  with_metadata (map_set id m s.(es_metadata))
    (with_disk (map_set (enc_path uploadDir id) (pack iv (seal k iv p)) s.(es_disk)) s).

Lemma sealed_elsewhere p s id m k iv x id' : segment_ok id → id_ok id' → id' ≠ id →
  read_file p (sealed_state s id m k iv x) id' = read_file p s id'.
Proof.
  intros Hid Hid' Hne. apply read_file_ext; cbn; [done| | |].
  - by apply map_get_set_ne.
  - apply map_get_set_ne. by apply plain_path_not_enc.
  - apply map_get_set_ne. intros H. apply Hne. apply enc_path_inj; [apply Hid'|done|done].
Qed.

Lemma sealed_reads p s id m k iv x : length iv = IV_LENGTH → s.(es_key) = Some k → passthrough m = false →
  sha256 x = m.(em_checksum) → read_file p (sealed_state s id m k iv x) id = Ok (x, m).
Proof.
  intros Hiv Hk Hpt Hsum. unfold read_file, decryptFile, find_metadata, readFile, sealed_state, with_previous, with_metadata, with_disk.
  run_action. rewrite map_get_set_eq. cbn. rewrite Hpt. cbn. rewrite Hk. cbn. rewrite map_get_set_eq. cbn.
  destruct (open_packed k iv x Hiv) as [_ ->]. rewrite bool_decide_eq_true_2 by done. done.
Qed.

(** C28: a file reads back as it was written, with or without a key, with any
    previous key and after any other file is written; and writing it leaves
    every other file as it was. *)
Theorem encrypted_file_reads_back buffer input iv now s r s'
    (Hid : id_ok input.(ef_fileId)) (Hversion : input.(ef_keyVersion) <> 0) (Hiv : length iv = IV_LENGTH)
    (Hrun : encryptFile seal sha256 uploadDir buffer input iv now s = (Ok r, s')) :
  (forall p, readable p s' input.(ef_fileId) buffer) /\
  (forall p id b, id_ok id -> id <> input.(ef_fileId) -> readable p s id b -> readable p s' id b).
Proof.
  unfold encryptFile, writeFile, setMetadata in Hrun. run_action. destruct (es_key s) as [k|] eqn:Hk; cbn in Hrun.
  - injection Hrun as _ <-.
    match goal with |- context[with_metadata (map_set _ ?m _) _] => set (md := m) end.
    change (with_metadata _ _) with (sealed_state s (ef_fileId input) md k iv buffer).
    split.
    + intros p. exists md. apply sealed_reads; [done|done| |done].
      unfold passthrough. cbn. rewrite bool_decide_eq_false_2 by by apply base64_nonempty.
      apply Z.eqb_neq. exact Hversion.
    + intros p id b Hok Hne [m Hr]. exists m. rewrite <- Hr. apply sealed_elsewhere; [apply Hid|done|done].
  - injection Hrun as _ <-. split.
    + intros p. eexists. unfold read_file, decryptFile, find_metadata, readFile, with_previous, with_metadata, with_disk.
      run_action. rewrite map_get_set_eq. cbn. unfold passthrough. cbn [em_iv].
      rewrite (bool_decide_eq_true_2 ("" = "")) by done. cbn. by rewrite map_get_set_eq.
    + intros p id b Hok Hne [m Hr]. exists m. rewrite <- Hr. apply read_file_ext; cbn; [done| | |].
      * by apply map_get_set_ne.
      * apply map_get_set_ne. intros H. apply Hne, plain_path_inj; [apply Hok|apply Hid|done].
      * apply map_get_set_ne. intros H. symmetry in H. revert H. apply plain_path_not_enc; [done|apply Hok].
Qed.

(** a file that is decrypted is the one that was encrypted, up to its SHA-256
    checksum: whatever happened to the bytes on the disk. *)
Theorem decrypted_file_is_intact id s b m s'
    (Hrun : decrypt_file id s = (Ok (b, m), s')) :
  s' = s /\ map_get id s.(es_metadata) = Some m /\ (passthrough m = false -> sha256 b = m.(em_checksum)).
Proof.
  unfold decryptFile, find_metadata, readFile in Hrun. run_action.
  destruct (map_get id (es_metadata s)) as [m0|] eqn:Hm; cbn in Hrun; [|done].
  destruct (passthrough m0) eqn:Hp; cbn in Hrun.
  { destruct (map_get (plain_path uploadDir id) (es_disk s)); [|done]. injection Hrun as <- <- <-.
    split_and!; [done..|]. congruence. }
  destruct (es_key s) as [k|]; cbn in Hrun; [|done].
  destruct (map_get (enc_path uploadDir id) (es_disk s)) as [d|]; cbn in Hrun; [|done].
  destruct (decryptWithFallback _ _ _ d) as [x|]; [|done].
  destruct (bool_decide_reflect (sha256 x = em_checksum m0)); cbn in Hrun; [|done]. by injection Hrun as <- <- <-.
Qed.

(** ** Rotation *)

Context (ivs : string → bytes) (Hivs : ∀ id, length (ivs id) = IV_LENGTH) (now : string).
Context (version : Z) (Hversion : version ≠ 0).

Lemma re_encrypt_one_run k id m s : s.(es_key) = Some k →
  re_encrypt_one seal open_ uploadDir k ivs now version id m s =
  match map_get (enc_path uploadDir id) s.(es_disk) ≫= decryptWithFallback open_ k s.(es_previous) with
  | None => (Ok false, s)
  | Some x => (Ok true, sealed_state s id (resealed m (ivs id) (seal k (ivs id) x).2 now version) k (ivs id) x)
  end.
Proof.
  intros Hk. unfold re_encrypt_one, readFile, write_resealed, writeFile, setMetadata, try_catch. run_action.
  destruct (map_get _ _) as [d|]; cbn; [|done]. destruct (decryptWithFallback _ _ _ d); done.
Qed.

Lemma resealed_not_passthrough m k id x :
  passthrough (resealed m (ivs id) (seal k (ivs id) x).2 now version) = false.
Proof.
  unfold passthrough. cbn. rewrite bool_decide_eq_false_2 by by apply base64_nonempty. by apply Z.eqb_neq.
Qed.

(** Reading an encrypted file, in terms of its bytes. *)
Lemma readable_encrypted p s id k m b : s.(es_key) = Some k → map_get id s.(es_metadata) = Some m →
  passthrough m = false →
  readable p s id b ↔ ∃ d, map_get (enc_path uploadDir id) s.(es_disk) = Some d ∧
    decryptWithFallback open_ k p d = Some b ∧ sha256 b = m.(em_checksum).
Proof.
  intros Hk Hm Hp. unfold readable, read_file, decryptFile, find_metadata, readFile, with_previous. run_action.
  rewrite Hm. cbn. rewrite Hp. cbn. rewrite Hk. cbn.
  destruct (map_get (enc_path uploadDir id) (es_disk s)) as [d|]; cbn; [|by split; [intros [? ?]|intros (? & ? & _)]].
  destruct (decryptWithFallback open_ k p d) as [x|] eqn:Hx.
  2:{ split; [by intros [? ?]|]. intros (? & [= <-] & ? & _). congruence. }
  destruct (bool_decide_reflect (sha256 x = em_checksum m)); cbn.
  - split; [intros [? [= <- <-]]; by exists d|]. intros (? & [= <-] & H & _). rewrite Hx in H. injection H as <-. by eexists.
  - split; [by intros [? ?]|]. intros (? & [= <-] & H & Hs). rewrite Hx in H. by injection H as <-.
Qed.

(** Every file readable in [s] is readable in [s'], with the previous key and without. *)
Definition keeps_readable (s s' : state) : Prop :=
  s'.(es_key) = s.(es_key) ∧ s'.(es_previous) = s.(es_previous) ∧
  ∀ p id b, p = None ∨ p = s.(es_previous) → id_ok id → readable p s id b → readable p s' id b.

Lemma keeps_readable_trans s1 s2 s3 : keeps_readable s1 s2 → keeps_readable s2 s3 → keeps_readable s1 s3.
Proof.
  intros (K1 & P1 & H1) (K2 & P2 & H2). split_and!; [congruence|congruence|].
  intros p id b Hp Hid Hr. apply H2; [by rewrite P1|done|]. by apply H1.
Qed.

(** What one item of the migration does. *)
Lemma re_encrypt_one_spec k id m s : s.(es_key) = Some k → id_ok id →
  map_get id s.(es_metadata) = Some m → to_migrate version m = true →
  ∃ ok s', re_encrypt_one seal open_ uploadDir k ivs now version id m s = (Ok ok, s') ∧
    keeps_readable s s' ∧ keys s'.(es_metadata) = keys s.(es_metadata) ∧
    (∀ id', id' ≠ id → map_get id' s'.(es_metadata) = map_get id' s.(es_metadata)) ∧
    (∀ b, readable s.(es_previous) s id b → ok = true ∧ readable None s' id b) ∧
    (if ok then ∃ m', map_get id s'.(es_metadata) = Some m' ∧ to_migrate version m' = false else s' = s).
Proof.
  intros Hk Hid Hm Hmig. rewrite (re_encrypt_one_run k id m s Hk).
  assert (Hpt : passthrough m = false).
  { unfold to_migrate in Hmig. by destruct (passthrough m). }
  destruct (map_get (enc_path uploadDir id) (es_disk s)) as [d|] eqn:Hd; cbn [mbind option_bind].
  2:{ exists false, s. split_and!; [done|by split_and!|done|done| |done].
      intros b Hr. apply (readable_encrypted _ _ _ _ _ _ Hk Hm Hpt) in Hr as (d & Hd' & _). congruence. }
  destruct (decryptWithFallback open_ k (es_previous s) d) as [x|] eqn:Hx.
  2:{ exists false, s. split_and!; [done|by split_and!|done|done| |done].
      intros b Hr. apply (readable_encrypted _ _ _ _ _ _ Hk Hm Hpt) in Hr as (d' & Hd' & Hx' & _). congruence. }
  set (m' := resealed m (ivs id) (seal k (ivs id) x).2 now version).
  exists true, (sealed_state s id m' k (ivs id) x).
  assert (Hown : ∀ p p0 b, p0 = None ∨ p0 = es_previous s → readable p0 s id b →
    readable p (sealed_state s id m' k (ivs id) x) id b).
  { intros p p0 b Hp0 Hr. apply (readable_encrypted _ _ _ _ _ _ Hk Hm Hpt) in Hr as (d' & Hd' & Hx' & Hsum).
    rewrite Hd in Hd'. injection Hd' as <-.
    assert (b = x) as ->.
    { destruct Hp0 as [->| ->]; [|congruence]. unfold decryptWithFallback in Hx, Hx'.
      destruct (open_ k _ _ _); [congruence|]. discriminate. }
    exists m'. apply sealed_reads; [done|done|apply resealed_not_passthrough|done]. }
  split_and!; [done| | | | |].
  - split_and!; [done..|]. intros p id' b Hp Hid' Hr. destruct (decide (id' = id)) as [->|Hne].
    + by eapply Hown.
    + destruct Hr as [m0 Hr]. exists m0. rewrite <- Hr. apply sealed_elsewhere; [apply Hid|done|done].
  - cbn. eapply keys_set_present, elem_of_keys, map_get_Some_elem, Hm.
  - intros id' Hne. cbn. by apply map_get_set_ne.
  - intros b Hr. split; [done|]. eapply Hown; [by right|done].
  - exists m'. split; [cbn; apply map_get_set_eq|]. unfold to_migrate.
    destruct (Z.leb_spec version (em_keyVersion m')); [by rewrite orb_true_r|]. cbn in *. lia.
Qed.

Lemma re_encrypt_all_spec k entries : ∀ s, s.(es_key) = Some k → NoDup (keys entries) →
  (∀ id m, (id, m) ∈ entries → id_ok id ∧ map_get id s.(es_metadata) = Some m) →
  ∃ migrated failed s', re_encrypt_all seal open_ uploadDir k ivs now version entries s = (Ok (migrated, failed), s') ∧
    keeps_readable s s' ∧ keys s'.(es_metadata) = keys s.(es_metadata) ∧
    (∀ id, id ∉ keys entries → map_get id s'.(es_metadata) = map_get id s.(es_metadata)) ∧
    (∀ id m, (id, m) ∈ entries → to_migrate version m = true → id ∈ migrated ∨ id ∈ failed) ∧
    (∀ id m b, (id, m) ∈ entries → to_migrate version m = true → readable s.(es_previous) s id b →
       id ∈ migrated ∧ readable None s' id b) ∧
    (∀ id m, (id, m) ∈ entries → id ∉ failed → ∃ m', map_get id s'.(es_metadata) = Some m' ∧ to_migrate version m' = false).
Proof.
  induction entries as [|[id m] entries IH]; intros s Hk Hnd Hin; cbn [re_encrypt_all].
  { exists [], [], s. split_and!; [done|by split_and!|done|done|..]; intros * Hx; by apply elem_of_nil in Hx. }
  apply NoDup_cons in Hnd as [Hni Hnd]. change (id ∉ keys entries) in Hni.
  destruct (Hin id m) as [Hid Hm]; [left|].
  assert (Hrest : ∀ id' m', (id', m') ∈ entries → id' ≠ id).
  { intros id' m' Hx ->. by apply elem_of_keys in Hx. }
  destruct (to_migrate version m) eqn:Hmig; cbn [negb].
  2:{ destruct (IH s Hk Hnd) as (mg & fl & s' & Hrun & Hkeep & Hkeys & Hother & Hcov & Hread & Hdone).
      { intros id' m' Hx. apply Hin. by right. }
      exists mg, fl, s'. split_and!; [done|done|done| | | |].
      - intros id' Hn. apply Hother. intros Hx. apply Hn. cbn. by right.
      - intros id' m' [[= -> ->]|Hx]%elem_of_cons; [congruence|eauto].
      - intros id' m' b [[= -> ->]|Hx]%elem_of_cons; [congruence|eauto].
      - intros id' m' [[= -> ->]|Hx]%elem_of_cons Hf; [|eauto]. exists m. split; [|done]. by rewrite Hother. }
  destruct (re_encrypt_one_spec k id m s Hk Hid Hm Hmig) as (ok & s1 & Hrun1 & Hkeep1 & Hkeys1 & Hother1 & Hread1 & Hok).
  pose proof Hkeep1 as (Hk1 & Hp1 & _).
  destruct (IH s1) as (mg & fl & s' & Hrun & Hkeep & Hkeys & Hother & Hcov & Hread & Hdone).
  { congruence. } { done. }
  { intros id' m' Hx. split; [by apply (Hin id' m'); right|]. rewrite Hother1 by by eapply Hrest. apply Hin. by right. }
  unfold mbind, action_bind. rewrite Hrun1, Hrun. cbn [fst snd].
  exists (if ok then id :: mg else mg), (if ok then fl else id :: fl), s'.
  assert (Hmono : ∀ x, x ∈ mg → x ∈ (if ok then id :: mg else mg)) by (intros; destruct ok; [by right|done]).
  assert (Hmonof : ∀ x, x ∈ fl → x ∈ (if ok then fl else id :: fl)) by (intros; destruct ok; [done|by right]).
  split_and!.
  - by destruct ok.
  - by eapply keeps_readable_trans.
  - congruence.
  - intros id' Hn. rewrite Hother by (intros Hx; apply Hn; cbn; by right). apply Hother1. intros ->. apply Hn. cbn. by left.
  - intros id' m' [[= -> ->]|Hx]%elem_of_cons Hd; [destruct ok; [left|right]; left|].
    destruct (Hcov _ _ Hx Hd); auto.
  - intros id' m' b [[= -> ->]|Hx]%elem_of_cons Hd Hr.
    + destruct (Hread1 b Hr) as [-> Hr1]. split; [left|]. apply Hkeep; [by left|done|done].
    + destruct (Hread id' m' b Hx Hd) as [H1 H2]; [|auto]. rewrite Hp1. apply Hkeep1; [by right| |done]. by apply (Hin id' m'); right.
  - intros id' m' [[= -> ->]|Hx]%elem_of_cons Hf.
    + destruct ok; [|destruct Hf; left]. destruct Hok as (m0 & Hm0 & Hd). exists m0. split; [|done]. by rewrite Hother.
    + apply (Hdone _ _ Hx). intros Hx'. by apply Hf, Hmonof.
Qed.

(** re-encrypting the store loses no file: each one that could be read before
    can be read after, with the previous key as long as it is kept, and every
    file that was due and could be read is migrated and can be read without the
    previous key; when no item failed the store counts as complete. *)
Theorem re_encryption_loses_nothing s migrated failed s'
    (Hids : forall id m, (id, m) ∈ s.(es_metadata) -> id_ok id) (Hwf : map_wf s.(es_metadata))
    (Hrun : reEncryptStoreToCurrentKey seal open_ uploadDir ivs now version s = (Ok (migrated, failed), s')) :
  (forall id b, id_ok id -> readable s.(es_previous) s id b -> readable s'.(es_previous) s' id b) /\
  (forall id m b, (id, m) ∈ s.(es_metadata) -> to_migrate version m = true ->
     readable s.(es_previous) s id b -> id ∈ migrated /\ readable None s' id b) /\
  (forall id m, (id, m) ∈ s.(es_metadata) -> to_migrate version m = true -> id ∈ migrated \/ id ∈ failed) /\
  (failed = [] -> isReEncryptionComplete version s' = true).
Proof.
  unfold reEncryptStoreToCurrentKey in Hrun. unfold get_state in Hrun. unfold mbind, action_bind in Hrun.
  destruct (es_key s) as [k|] eqn:Hk; [|done]. destruct (es_previous s) as [pk|] eqn:Hpk; [|done].
  destruct (re_encrypt_all_spec k s.(es_metadata) s Hk Hwf) as (mg & fl & s2 & Hrun2 & Hkeep & Hkeys & _ & Hcov & Hread & Hdone).
  { intros id m Hx. split; [by eapply Hids|by apply map_get_elem]. }
  rewrite Hrun2 in Hrun. injection Hrun as -> -> ->. pose proof Hkeep as (_ & Hp & Hall).
  rewrite Hpk in *. split_and!.
  - intros id b Hid Hr. rewrite Hp. apply Hall; [by right|done|done].
  - intros id m b Hx Hd Hr. by eapply Hread.
  - done.
  - intros ->. unfold isReEncryptionComplete. apply forallb_forall. intros [id m'] Hin%list_elem_of_In.
    assert (Hid : id ∈ keys s.(es_metadata)) by (rewrite <- Hkeys; by eapply elem_of_keys).
    unfold keys in Hid. apply list_elem_of_fmap in Hid as ([id0 m0] & Heq & Hx). cbn in Heq. subst id0.
    destruct (Hdone id m0 Hx) as (m1 & Hm1 & Hd); [by intros Hn; apply elem_of_nil in Hn|].
    rewrite (map_get_elem id m') in Hm1; [|unfold map_wf; by rewrite Hkeys|done]. injection Hm1 as <-.
    unfold to_migrate in Hd. by apply negb_false_iff in Hd.
Qed.

End encryption_properties.

(** ** A concrete cipher *)

Module Sealed.

(** Not a secret one: the tag is the key sixteen times. *)
Definition seal (k : ascii) (iv p : bytes) : bytes * bytes := (p, replicate AUTH_TAG_LENGTH k).
Definition open_ (k : ascii) (iv tag c : bytes) : option bytes :=
  if bool_decide (tag = replicate AUTH_TAG_LENGTH k) then Some c else None.
Definition sum (b : bytes) : string := of_chars b.
Definition derive (raw : string) : ascii := match chars raw with c :: _ => c | [] => "0"%char end.

Lemma seal_tag k iv p : length (seal k iv p).2 = AUTH_TAG_LENGTH.
Proof. apply length_replicate. Qed.
Lemma seal_open k iv p : open_ k iv (seal k iv p).2 (seal k iv p).1 = Some p.
Proof. unfold open_, seal. by rewrite bool_decide_eq_true_2. Qed.

Definition iv : bytes := replicate IV_LENGTH "i"%char.
Definition up : string := "/up".
Definition file (id : string) : EncryptFileInput :=
  {| ef_fileId := id; ef_originalName := id; ef_mimeType := "text/plain"; ef_size := 2; ef_keyVersion := 1 |}.

Definition empty : @enc_state ascii :=
  {| es_key := Some "A"%char; es_previous := None; es_metadata := []; es_disk := [] |}.

(** Two files under key A. *)
Definition stored : @enc_state ascii :=
  (encryptFile seal sum up (chars "f2") (file "2") iv "t"
    (encryptFile seal sum up (chars "f1") (file "1") iv "t" empty).2).2.
Definition content (id : string) (s : @enc_state ascii) : option string :=
  match decryptFile open_ sum up id s with (Ok r, _) => Some (of_chars r.1) | (Throw _, _) => None end.
Definition streamed (id : string) (s : @enc_state ascii) : option string :=
  match createDecryptStream open_ up id s with (Ok (Some b, _), _) => Some (of_chars b) | _ => None end.

(** The service after the key of the environment became B and A the previous one. *)
Definition rotating : @enc_state ascii := with_previous (Some "A"%char) (with_key (Some "B"%char) stored).
(** A new object of the service: the files are on the disk, its metadata is empty. *)
Definition restarted : @enc_state ascii := with_metadata [] rotating.

(** Rotating the key of one file makes the others unreadable; a rotation of all
    files that stops at a damaged one leaves those before it unreadable; while the
    previous key is configured downloads, which stream, do without it; and a new
    service object, whose metadata is empty, reports the migration as complete
    without migrating anything. *)
Theorem rotation_gaps :
  (content "2" stored = Some "f2" ∧
   content "2" (rotateKey seal open_ derive up "1" "A" "B" 2 iv "t" stored).2 = None) ∧
  (let damaged := with_disk (map_set (enc_path up "2") (chars "damaged") stored.(es_disk)) stored in
   content "1" damaged = Some "f1" ∧
   content "1" (rotateEncryptionKey seal open_ derive up "A" "B" (λ _, iv) "t" damaged).2 = None) ∧
  (content "1" rotating = Some "f1" ∧ streamed "1" rotating = None) ∧
  (reEncryptStoreToCurrentKey seal open_ up (λ _, iv) "t" 2 restarted = (Ok ([], []), restarted) ∧
   isReEncryptionComplete 2 restarted = true ∧
   content "1" (with_previous None (with_metadata stored.(es_metadata) restarted)) = None).
Proof. cbv zeta. split_and!; vm_compute; reflexivity. Qed.

End Sealed.

Lemma encrypted_file_reads_back_witness :
  readable Sealed.open_ Sealed.sum Sealed.up None
    (encryptFile Sealed.seal Sealed.sum Sealed.up (chars "hello") (Sealed.file "1") Sealed.iv "t" Sealed.empty).2 "1" (chars "hello").
Proof.
  destruct (encryptFile Sealed.seal Sealed.sum Sealed.up (chars "hello") (Sealed.file "1") Sealed.iv "t" Sealed.empty)
    as [[r|e] s'] eqn:Hrun; [|discriminate].
  refine (proj1 (encrypted_file_reads_back Sealed.seal Sealed.open_ Sealed.sum Sealed.seal_tag Sealed.seal_open
    Sealed.up ["up"] _ eq_refl (chars "hello") (Sealed.file "1") Sealed.iv "t" Sealed.empty r s' _ _ eq_refl Hrun) None).
  - constructor; [|constructor]. by repeat split; apply (bool_decide_unpack _).
  - split; [by repeat split; apply (bool_decide_unpack _)|]. intros a Ha. apply (f_equal String.length) in Ha.
    rewrite app_length_str in Ha. cbn in Ha. lia.
  - discriminate.
Defined.

Lemma decrypted_file_is_intact_witness :
  ∃ m, decryptFile Sealed.open_ Sealed.sum Sealed.up "1" Sealed.stored = (Ok (chars "f1", m), Sealed.stored) ∧
    (passthrough m = false → Sealed.sum (chars "f1") = m.(em_checksum)).
Proof.
  destruct (decryptFile Sealed.open_ Sealed.sum Sealed.up "1" Sealed.stored) as [[[b m]|] s'] eqn:Hrun;
    [|vm_compute in Hrun; discriminate].
  assert (Hb : b = chars "f1") by (vm_compute in Hrun; injection Hrun as <- _ _; reflexivity). subst b.
  destruct (decrypted_file_is_intact Sealed.open_ Sealed.sum Sealed.up "1" Sealed.stored (chars "f1") m s' Hrun) as (-> & _ & H).
  exists m. split; [reflexivity|exact H].
Defined.

Lemma re_encryption_loses_nothing_witness :
  ∃ s', reEncryptStoreToCurrentKey Sealed.seal Sealed.open_ Sealed.up (λ _, Sealed.iv) "t" 2 Sealed.rotating
      = (Ok (["1"; "2"], []), s') ∧
    isReEncryptionComplete 2 s' = true.
Proof.
  destruct (reEncryptStoreToCurrentKey Sealed.seal Sealed.open_ Sealed.up (λ _, Sealed.iv) "t" 2 Sealed.rotating)
    as [[[mg fl]|] s'] eqn:Hrun; [|vm_compute in Hrun; discriminate].
  assert (Hl : mg = ["1"; "2"] ∧ fl = []) by (vm_compute in Hrun; injection Hrun as <- <- _; split; reflexivity).
  destruct Hl as [-> ->]. exists s'. split; [reflexivity|].
  refine (proj2 (proj2 (proj2 (re_encryption_loses_nothing Sealed.seal Sealed.open_ Sealed.sum Sealed.seal_tag Sealed.seal_open
    Sealed.up ["up"] _ eq_refl (λ _, Sealed.iv) (λ _, eq_refl) "t" 2 _ Sealed.rotating ["1"; "2"] [] s' _ _ Hrun))) eq_refl).
  - constructor; [|constructor]. by repeat split; apply (bool_decide_unpack _).
  - discriminate.
  - intros id m Hin.
    assert (Hid : id = "1" ∨ id = "2").
    { unfold Sealed.rotating in Hin. cbn in Hin. apply elem_of_cons in Hin as [[= -> _]|Hin]; [by left|].
      apply elem_of_cons in Hin as [[= -> _]|Hin]; [by right|]. by apply elem_of_nil in Hin. }
    destruct Hid as [-> | ->]; (split; [by repeat split; apply (bool_decide_unpack _)|]); intros a Ha;
      apply (f_equal String.length) in Ha; rewrite app_length_str in Ha; cbn in Ha; lia.
  - apply (bool_decide_unpack _). vm_compute. exact I.
Defined.
