(* ===== verification/Startup.v ===== *)
(** * Start and stop of the process ([main.ts], [index.ts],
    [startup/dependencyCheck.ts], [db/index.ts], [server/gracefulShutdown.ts])

    The checks a process passes before it listens, the wait for its
    dependencies, the choice of the database, and the sequence of a shutdown.
    What the network answers, and how long it takes, are arguments; times are
    milliseconds since the step began.  [Throw] is [process.exit(1)]. *)

From S2P Require Import Prelude JsMap JsStrings JsNumbers Configuration SecureFiles.
Local Open Scope Z_scope.

(** ** [main.ts]: the configuration of the server *)

Definition set_or (v : option string) (d : string) : string :=
  match v with Some v => if bool_decide (v = "") then d else v | None => d end.

Definition getOptionalEnv (env : EnvSource) (name defaultValue : string) : string := set_or (env name) defaultValue.
Definition getRequiredEnv (env : EnvSource) (name : string) : outcome string string :=
  match env name with
  | Some v => if bool_decide (v = "") then Throw ("Missing required environment variable: " +:+ name) else Ok v
  | None => Throw ("Missing required environment variable: " +:+ name)
  end.

Definition parseCorsOrigins (value : string) : list string :=
  List.filter (λ o, negb (bool_decide (o = ""))) (map trim (JsStrings.split ","%char value)).

(** [.replace(/\\n/g, '\n').replace(/\\r/g, '').replace(/^["']|["']$/g, '').trim()] *)
Fixpoint drop_escaped_returns (l : list ascii) : list ascii :=
  match l with
  | "\"%char :: (("r"%char :: l') as r) => drop_escaped_returns l'
  | c :: l' => c :: drop_escaped_returns l'
  | [] => []
  end.
Definition is_quote (c : ascii) : bool := (code c =? 34)%N || (code c =? 39)%N.
Definition strip_quote (l : list ascii) : list ascii :=
  match l with c :: l' => if is_quote c then l' else l | [] => [] end.
Definition normalizeKey (raw : option string) : string :=
  match raw with
  | None => ""
  | Some raw =>
      let l := drop_escaped_returns (unescape_newlines (chars raw)) in
      trim (of_chars (rev (strip_quote (rev (strip_quote l)))))
  end.

Record ApiServerConfig := {
  sc_port : js_num; sc_corsOrigins : list string; sc_jwtSecret : string; sc_jwtPrivateKey : string;
  sc_jwtPublicKey : string; sc_databaseUrl : string; sc_uploadDir : string; sc_nodeEnv : string }.

Definition server_config (env : EnvSource) (nodeEnv : string) : outcome string ApiServerConfig :=
  let isDev := bool_decide (nodeEnv = "development") in
  match (if isDev then Ok (getOptionalEnv env "JWT_SECRET" "alsaqi-dev-secret-key-123")
         else getRequiredEnv env "JWT_SECRET") with
  | Throw e => Throw e
  | Ok jwtSecret =>
      Ok {| sc_port := parseInt_10 (getOptionalEnv env "PORT" "3000");
            sc_corsOrigins := parseCorsOrigins (getOptionalEnv env "CORS_ORIGIN" (if isDev then "http://localhost:5173" else ""));
            sc_jwtSecret := jwtSecret;
            sc_jwtPrivateKey := normalizeKey (env "JWT_PRIVATE_KEY");
            sc_jwtPublicKey := normalizeKey (env "JWT_PUBLIC_KEY");
            sc_databaseUrl := getOptionalEnv env "DATABASE_URL" "";
            sc_uploadDir := getOptionalEnv env "UPLOAD_DIR" "./uploads";
            sc_nodeEnv := nodeEnv |}
  end.

(** ** [startup/dependencyCheck.ts] *)

Record dependency_answer := { da_postgres : bool; da_redis : bool; da_took : Z }.

(** The loop of [waitForDependencies] from attempt [n] at time [elapsed]; the result is
    whether both are ready, the attempts made and the time.  [None] is out of fuel. *)
Fixpoint wait_loop (fuel : nat) (answers : nat → dependency_answer) (timeoutMs retryIntervalMs : Z)
    (n : nat) (elapsed : Z) (postgresReady redisReady : bool) : option (bool * nat * Z) :=
  if elapsed <? timeoutMs then
    match fuel with
    | O => None
    | S fuel =>
        let a := answers n in
        let postgresReady := postgresReady || a.(da_postgres) in
        let redisReady := redisReady || a.(da_redis) in
        let elapsed := elapsed + a.(da_took) in
        if postgresReady && redisReady then Some (true, S n, elapsed)
        else
          let remaining := timeoutMs - elapsed in
          let elapsed := if 0 <? remaining then elapsed + Z.min retryIntervalMs remaining else elapsed in
          wait_loop fuel answers timeoutMs retryIntervalMs (S n) elapsed postgresReady redisReady
    end
  else Some (false, n, elapsed).

(** Attempts that fit into the time limit. *)
Definition max_attempts (timeoutMs retryIntervalMs : Z) : nat := Z.to_nat ((timeoutMs + retryIntervalMs - 1) / retryIntervalMs).

Definition waitForDependencies (answers : nat → dependency_answer) (timeoutMs retryIntervalMs : Z)
    : option (bool * nat * Z) :=
  wait_loop (max_attempts timeoutMs retryIntervalMs) answers timeoutMs retryIntervalMs 0 0 false false.

(** ** [db/index.ts]: the choice of the database *)

Inductive database_kind : Type :=
  | External
  | Embedded.

(** What the module sets up when it is loaded. *)
Record db_module := {
  dm_external : bool; dm_poolError : option PoolConfigError;
  dm_max : Z; dm_connectionTimeoutMillis : Q; dm_ssl : option SslOption; dm_statementTimeoutMs : option Z;
  dm_connectionString : string }.

Definition no_pool (e : option PoolConfigError) : db_module :=
  {| dm_external := false; dm_poolError := e; dm_max := 0; dm_connectionTimeoutMillis := inject_Z 0;
     dm_ssl := None; dm_statementTimeoutMs := None; dm_connectionString := "" |}.


Definition load_db_module (readCa : string → option string) (env : EnvSource) : outcome string db_module :=
  match classifyDatabaseUrl (env "DATABASE_URL") with
  | (valid_external, Some normalizedUrl) =>
      match parsePoolConfig env with
      | Throw e => Ok (no_pool (Some e))
      | Ok config =>
          match pool_ssl readCa env normalizedUrl with
          | Throw e => Throw e
          | Ok ssl =>
              let isProduction := bool_decide (env "NODE_ENV" = Some "production") in
              let runtimeCfg := resolvePoolRuntimeConfig env in
              Ok {| dm_external := true; dm_poolError := None;
                    dm_max := if isProduction then runtimeCfg.(rp_max) else config.(pc_max);
                    dm_connectionTimeoutMillis := if isProduction then runtimeCfg.(rp_acquisitionTimeoutMillis)
                                                  else inject_Z config.(pc_connectionTimeoutMillis);
                    dm_ssl := ssl;
                    dm_statementTimeoutMs := if isProduction then Some (Qfloor runtimeCfg.(rp_statementTimeoutMs)) else None;
                    dm_connectionString := normalizedUrl |}
          end
      end
  | _ => Ok (no_pool None)
  end.

(** The TLS options of a connection of the pool.  [url_ssl] is what the driver reads from the
    parameters of a connection string, if they speak of TLS (the inner [None] is no TLS):
    that takes the place of the option it is given. *)
Definition connection_ssl (url_ssl : string → option (option SslOption)) (m : db_module) : option SslOption :=
  default m.(dm_ssl) (url_ssl m.(dm_connectionString)).

(** The attempts of [connectWithRetry]: each succeeds or not, and takes a time. *)
Fixpoint connectWithRetry (attempts : list (bool * Z)) (retryIntervalMs : Z) : bool * Z :=
  match attempts with
  | [] => (false, 0)
  | (ok, took) :: rest =>
      if ok : bool then (true, took)
      else match rest with
           | [] => (false, took)
           | _ => let r := connectWithRetry rest retryIntervalMs in (r.1, took + retryIntervalMs + r.2)
           end
  end.

Definition EXTERNAL_CONNECT_BUDGET_MS : Z := 30000.

(** [initDb]: [uptime] is the age of the process, [sslOk] and [selectOk] what a query answers. *)
Definition initDb (env : EnvSource) (m : db_module) (attempts : list (bool * Z)) (uptime : Z) (sslOk selectOk : bool)
    : outcome string database_kind :=
  let isProduction := bool_decide (env "NODE_ENV" = Some "production") in
  match m.(dm_poolError) with
  | Some e => Throw ("Variable " +:+ e.(pe_variable) +:+ " must be " +:+ e.(pe_acceptedRange))
  | None =>
      if isProduction && negb m.(dm_external) && negb (isEmbeddedDbAllowed env)
      then Throw "Invalid DATABASE_URL in production"
      else if m.(dm_external) then
        if isProduction then
          let budgetMs := Z.max 0 (EXTERNAL_CONNECT_BUDGET_MS - uptime) in
          let '(success, time) := connectWithRetry (take 3 attempts) 2000 in
          if budgetMs <=? time then Throw "PostgreSQL connection not established within the startup budget"
          else if negb success then Throw "PostgreSQL connection failed"
          else if negb sslOk then Throw "SSL validation failed"
          else Ok External
        else if selectOk then Ok External else Ok Embedded
      else Ok Embedded
  end.

(** ** The whole start *)

Record surroundings := {
  su_readCa : string → option string; su_dependencies : nat → dependency_answer;
  su_connect : list (bool * Z); su_uptime : Z; su_sslOk : bool; su_selectOk : bool }.

(** [main.ts] up to [createApiServer], then [start] up to the database. *)
Definition boot (env : EnvSource) (w : surroundings) : outcome string (ApiServerConfig * db_module * database_kind) :=
  match parseStrictNodeEnv (env "NODE_ENV") with
  | inr received => Throw ("NODE_ENV is invalid: " +:+ received)
  | inl nodeEnv =>
      let production := bool_decide (nodeEnv = "production") in
      if (validateEnvironmentOnStartup env).2 then Throw "Environment validation failed"
      else if (runSecretsValidation env (Some production)).2 then Throw "Secrets validation failed"
      else match server_config env nodeEnv with
      | Throw e => Throw e
      | Ok config =>
          let missing := production && (bool_decide (trim config.(sc_databaseUrl) = "")
                                        || bool_decide (trim (default "" (env "REDIS_URL")) = "")) in
          if missing then Throw "Required production dependencies are not configured"
          else if production && match waitForDependencies w.(su_dependencies) 30000 5000 with
                                | Some (ready, _, _) => negb ready | None => true end
          then Throw "Dependencies not ready within 30 seconds"
          else match assertConfigured env with
          | Some e => Throw e
          | None =>
              match load_db_module w.(su_readCa) env with
              | Throw e => Throw e
              | Ok m =>
                  match initDb env m w.(su_connect) w.(su_uptime) w.(su_sslOk) w.(su_selectOk) with
                  | Throw e => Throw e
                  | Ok kind => Ok (config, m, kind)
                  end
              end
          end
      end
  end.

(** [isFeatureEnabled] *)
Definition isFeatureEnabled (rawFlag : option string) (defaultEnabled : bool) : bool :=
  match rawFlag with
  | None => defaultEnabled
  | Some raw =>
      if bool_decide (trim raw = "") then defaultEnabled
      else negb (bool_decide (toLowerCase (trim raw) ∈ ["false"; "0"; "off"; "no"; "disabled"]))
  end.

(** The guard of [GET /metrics]. *)
Definition metrics_guard (metricsToken authorization : option string) (nodeEnv peer : string) : reply :=
  match metricsToken with
  | Some token =>
      if bool_decide (token = "") then
        if bool_decide (nodeEnv = "production") then Reply 403 "Forbidden: set METRICS_TOKEN to scrape /metrics in production"
        else if bool_decide (peer ∈ ["127.0.0.1"; "::1"; "::ffff:127.0.0.1"]) then Next else Reply 403 "Forbidden"
      else if bool_decide (authorization = Some ("Bearer " +:+ token)) then Next else Reply 401 "Unauthorized"
  | None =>
      if bool_decide (nodeEnv = "production") then Reply 403 "Forbidden: set METRICS_TOKEN to scrape /metrics in production"
      else if bool_decide (peer ∈ ["127.0.0.1"; "::1"; "::ffff:127.0.0.1"]) then Next else Reply 403 "Forbidden"
  end.

(** ** Shutdown ([server/gracefulShutdown.ts], [main.ts], [index.ts]) *)

Definition DRAIN_TIMEOUT_MIN_MS : Z := 1000.
Definition DRAIN_TIMEOUT_MAX_MS : Z := 120000.
Definition DRAIN_TIMEOUT_DEFAULT_MS : Z := 30000.

(** [Math.trunc] *)
Definition js_trunc (q : Q) : Z := if Qle_bool (inject_Z 0) q then Qfloor q else - Qfloor (- q).

Definition clampDrainTimeoutMs (raw : option js_num) : Z :=
  match raw with
  | Some (Finite q) =>
      let value := js_trunc q in
      if value <? DRAIN_TIMEOUT_MIN_MS then DRAIN_TIMEOUT_MIN_MS
      else if DRAIN_TIMEOUT_MAX_MS <? value then DRAIN_TIMEOUT_MAX_MS else value
  | _ => DRAIN_TIMEOUT_DEFAULT_MS
  end.

(** The handler of [createGracefulShutdown] and the two callbacks it arms. *)
Inductive shutdown_event : Type :=
  | Signalled
  | ServerClosed
  | TimerFired.

Record shutdown_state := { sh_started : bool; sh_settled : bool; sh_killed : bool; sh_exits : list Z }.
Definition no_shutdown : shutdown_state := {| sh_started := false; sh_settled := false; sh_killed := false; sh_exits := [] |}.

(** [finish] *)
Definition finish (code : Z) (s : shutdown_state) : shutdown_state :=
  if s.(sh_settled) then s
  else {| sh_started := s.(sh_started); sh_settled := true; sh_killed := s.(sh_killed); sh_exits := s.(sh_exits) ++ [code] |}.

Definition shutdown_step (s : shutdown_state) (e : shutdown_event) : shutdown_state :=
  match e with
  | Signalled =>
      if s.(sh_started) then s
      else {| sh_started := true; sh_settled := false; sh_killed := false; sh_exits := s.(sh_exits) |}
  | ServerClosed => if s.(sh_started) then finish 0 s else s
  | TimerFired =>
      if s.(sh_started) && negb s.(sh_settled)
      then finish 1 {| sh_started := true; sh_settled := false; sh_killed := true; sh_exits := s.(sh_exits) |}
      else s
  end.

(** How long, from the signal, each request in flight still runs, and how long the subsystems take. *)
Record drain_times := { dt_requests : list Z; dt_queue : Z; dt_redis : Z; dt_pool : Z }.

Definition SHUTDOWN_TIMEOUT_MS : Z := 10000.

Definition latest (l : list Z) : Z := foldr Z.max 0 l.

(** [ApiServer.stop]: done when the connections are, and they are destroyed after ten seconds. *)
Definition stop_time (d : drain_times) : Z := Z.min (latest d.(dt_requests)) SHUTDOWN_TIMEOUT_MS.

(** [shutdownSequence] hands over when the subsystems are drained or the limit is over. *)
Definition handover_time (drainTimeoutMs : Z) (d : drain_times) : Z :=
  Z.min (stop_time d + d.(dt_queue) + d.(dt_redis) + d.(dt_pool)) drainTimeoutMs.

(** The handler closes the server again, which succeeds once no connection is left. *)
Definition exit_time (drainTimeoutMs : Z) (d : drain_times) : Z :=
  let start := handover_time drainTimeoutMs d in
  Z.min (Z.max start (stop_time d)) (start + drainTimeoutMs).
Definition exit_code (drainTimeoutMs : Z) (d : drain_times) : Z :=
  if stop_time d <? handover_time drainTimeoutMs d + drainTimeoutMs then 0 else 1.
(** The requests whose connection is destroyed before they end. *)
Definition cut_requests (drainTimeoutMs : Z) (d : drain_times) : list Z :=
  List.filter (λ t, Z.min SHUTDOWN_TIMEOUT_MS (exit_time drainTimeoutMs d) <? t) d.(dt_requests).

(** ** Properties *)

Section waiting.
Context (answers : nat → dependency_answer) (timeoutMs retryIntervalMs : Z).
Context (Hretry : 0 < retryIntervalMs) (Htimeout : 0 <= timeoutMs).
Context (Htook : ∀ i, 0 <= (answers i).(da_took)).

Lemma exists_below_S (p : nat → Prop) n : (∃ i, (i < S n)%nat ∧ p i) ↔ (∃ i, (i < n)%nat ∧ p i) ∨ p n.
Proof.
  split.
  - intros (i & Hi & Hp). destruct (decide (i = n)) as [->|]; [by right|left]. exists i. split; [lia|done].
  - intros [(i & Hi & Hp)|Hp]; [exists i; split; [lia|done]|exists n; split; [lia|done]].
Qed.

Definition seen (p : dependency_answer → bool) (n : nat) : Prop := ∃ i, (i < n)%nat ∧ p (answers i) = true.

Lemma wait_loop_spec fuel : ∀ n elapsed pg rd,
  Z.min (Z.of_nat n * retryIntervalMs) timeoutMs <= elapsed → timeoutMs <= Z.of_nat (n + fuel) * retryIntervalMs →
  (pg = true ↔ seen da_postgres n) → (rd = true ↔ seen da_redis n) → ¬ (pg = true ∧ rd = true) →
  (∀ bound, (∀ i, (answers i).(da_took) <= bound) → 0 <= bound → elapsed <= timeoutMs + bound) →
  ∃ ready n' t, wait_loop fuel answers timeoutMs retryIntervalMs n elapsed pg rd = Some (ready, n', t) ∧
    (n' <= n + fuel)%nat ∧ (ready = true ↔ seen da_postgres n' ∧ seen da_redis n') ∧
    (ready = false → timeoutMs <= t) ∧
    ∀ bound, (∀ i, (answers i).(da_took) <= bound) → 0 <= bound → t <= timeoutMs + bound.
Proof.
  induction fuel as [|fuel IH]; intros n elapsed pg rd Hel Hfuel Hpg Hrd Hnot Hb; cbn [wait_loop].
  - destruct (Z.ltb_spec elapsed timeoutMs); [rewrite Nat.add_0_r in Hfuel; lia|].
    exists false, n, elapsed. split_and!; [done|lia| |done|done]. rewrite <- Hpg, <- Hrd. naive_solver.
  - destruct (Z.ltb_spec elapsed timeoutMs) as [Hlt|Hge].
    2:{ exists false, n, elapsed. split_and!; [done|lia| |done|done]. rewrite <- Hpg, <- Hrd. naive_solver. }
    pose proof (Htook n) as H0.
    assert (Hpg' : pg || da_postgres (answers n) = true ↔ seen da_postgres (S n)).
    { unfold seen. rewrite exists_below_S, orb_true_iff, Hpg. done. }
    assert (Hrd' : rd || da_redis (answers n) = true ↔ seen da_redis (S n)).
    { unfold seen. rewrite exists_below_S, orb_true_iff, Hrd. done. }
    destruct ((pg || da_postgres (answers n)) && (rd || da_redis (answers n))) eqn:Hboth.
    + apply andb_true_iff in Hboth as [Hp Hr]. eexists _, _, _. split; [done|]. split_and!; [lia| |done|].
      * by rewrite <- Hpg', <- Hrd'.
      * intros bound Hbound _. specialize (Hbound n). lia.
    + set (el := if 0 <? timeoutMs - (elapsed + da_took (answers n)) then _ else _).
      assert (Hel' : Z.min (elapsed + retryIntervalMs) timeoutMs <= el ∧
        ∀ bound, (∀ i, (answers i).(da_took) <= bound) → 0 <= bound → el <= timeoutMs + bound).
      { subst el. destruct (Z.ltb_spec 0 (timeoutMs - (elapsed + da_took (answers n)))); (split; [lia|]);
          intros bound Hbound ?; specialize (Hbound n); lia. }
      assert (Hmul : Z.of_nat (S n) * retryIntervalMs = Z.of_nat n * retryIntervalMs + retryIntervalMs) by lia.
      destruct (IH (S n) el (pg || da_postgres (answers n)) (rd || da_redis (answers n)))
        as (ready & n' & t & Hrun & Hn & Hready & Hlate & Hbound);
        [lia|replace (S n + fuel)%nat with (n + S fuel)%nat by lia; lia|exact Hpg'|exact Hrd'| |apply Hel'|].
      * intros [Hp Hr]. by rewrite Hp, Hr in Hboth.
      * exists ready, n', t. split_and!; [done|lia|done|done|done].
Qed.

End waiting.

(** the wait for the dependencies ends, after at most as many attempts as
    intervals fit into the limit and no later than one check after it; it reports
    success exactly when each of the two answered in some attempt, not
    necessarily the same, and gives up only when the limit is over. *)
Theorem wait_for_dependencies_ends answers timeoutMs retryIntervalMs
    (Hretry : 0 < retryIntervalMs) (Htimeout : 0 <= timeoutMs) (Htook : forall i, 0 <= (answers i).(da_took)) :
  exists ready n t, waitForDependencies answers timeoutMs retryIntervalMs = Some (ready, n, t) /\
    (n <= max_attempts timeoutMs retryIntervalMs)%nat /\
    (ready = true <-> (exists i, (i < n)%nat /\ (answers i).(da_postgres) = true) /\
                      (exists i, (i < n)%nat /\ (answers i).(da_redis) = true)) /\
    (ready = false -> timeoutMs <= t) /\
    (forall bound, (forall i, (answers i).(da_took) <= bound) -> 0 <= bound -> t <= timeoutMs + bound).
Proof.
  unfold waitForDependencies.
  assert (Hmax : timeoutMs <= Z.of_nat (max_attempts timeoutMs retryIntervalMs) * retryIntervalMs).
  { unfold max_attempts. pose proof (Z.div_mod (timeoutMs + retryIntervalMs - 1) retryIntervalMs ltac:(lia)).
    pose proof (Z.mod_pos_bound (timeoutMs + retryIntervalMs - 1) retryIntervalMs Hretry).
    pose proof (Z.div_pos (timeoutMs + retryIntervalMs - 1) retryIntervalMs ltac:(lia) Hretry).
    rewrite Z2Nat.id by done. nia. }
  assert (Hnone : ∀ p, ¬ seen answers p 0) by (intros p (i & Hi & _); lia).
  destruct (wait_loop_spec answers timeoutMs retryIntervalMs Hretry Htook
    (max_attempts timeoutMs retryIntervalMs) 0 0 false false) as (ready & n & t & H); [lia|done| | | | |].
  - split; [done|]. intros H. by apply Hnone in H.
  - split; [done|]. intros H. by apply Hnone in H.
  - by intros [? _].
  - intros bound _ ?. lia.
  - exists ready, n, t. exact H.
Qed.

(** *** The production start *)

Lemma database_url_external v : isValidDatabaseUrl v = true →
  classifyDatabaseUrl (Some v) = (valid_external, Some (trim v)).
Proof.
  unfold isValidDatabaseUrl, classifyDatabaseUrl. generalize (trim v). intros t Ht.
  assert (H : ∃ p r, p ∈ ["postgresql://"; "postgres://"] ∧ t = p +:+ r).
  { apply orb_true_iff in Ht as [Ht|Ht]; apply starts_with_spec in Ht as [r ->]; eexists _, r; (split; [|done]); set_solver. }
  destruct H as (p & r & Hp & ->).
  apply elem_of_cons in Hp as [->|Hp]; [reflexivity|]. apply elem_of_cons in Hp as [->|Hp]; [reflexivity|].
  by apply elem_of_nil in Hp.
Qed.

Lemma production_env env nodeEnv : parseStrictNodeEnv (env "NODE_ENV") = inl nodeEnv → env "NODE_ENV" = Some nodeEnv.
Proof.
  unfold parseStrictNodeEnv. destruct (env "NODE_ENV") as [v|]; [|done]. by case_bool_decide; intros [= ->].
Qed.

Lemma required_satisfied env name def : vr_isValid (validateEnvironment env true) = true →
  find (λ d, bool_decide (d.(ev_name) = name)) ENV_VAR_DEFINITIONS = Some def → def.(ev_required) = true →
  satisfies def (env name).
Proof.
  intros Hv Hf Hr. apply find_some in Hf as [Hin Hname]. apply bool_decide_eq_true in Hname. subst name.
  apply (proj1 (environment_valid_spec env) Hv def); [by apply list_elem_of_In|done].
Qed.

Lemma production_db_module env w m url :
  env "NODE_ENV" = Some "production" → env "DATABASE_URL" = Some url → isValidDatabaseUrl url = true →
  load_db_module w.(su_readCa) env = Ok m →
  m.(dm_external) = true ∧ m.(dm_poolError) = None ∧
    (∃ ssl, m.(dm_ssl) = Some ssl ∧ ssl.(ssl_rejectUnauthorized) = true) ∨ is_Some m.(dm_poolError).
Proof.
  intros Hn Hurl Hty Hm. unfold load_db_module in Hm. rewrite Hurl, (database_url_external url Hty) in Hm.
  destruct (parsePoolConfig env); [|injection Hm as <-; right; by eexists]. left.
  unfold pool_ssl in Hm. destruct (createSSLConfig _ env) as [ssl|] eqn:Hssl; [|done].
  assert (Hs : ∃ o, ssl = Some o ∧ o.(ssl_rejectUnauthorized) = true).
  { unfold createSSLConfig in Hssl. rewrite Hn, Hurl in Hssl. cbn in Hssl.
    destruct (bool_decide_reflect (url = "")) as [->|_]; [by vm_compute in Hty|].
    destruct (env "DB_SSL_CA_PATH") as [ca|]; [|injection Hssl as <-; by eexists].
    destruct (bool_decide (ca = "")); [injection Hssl as <-; by eexists|].
    destruct (su_readCa w ca); [injection Hssl as <-; by eexists|done]. }
  destruct Hs as (o & -> & Ho). injection Hm as <-. split_and!; [done|done|by exists o].
Qed.

(** C25: a process in production gets to the database only with every required
    variable valid, the three secrets strong, a signing secret and both encryption
    keys configured, and both dependencies ready; and its database is then the
    external server: the embedded engine is never used, whatever ALLOW_EMBEDDED_DB
    says. The option the pool is given for TLS verifies certificates, and so do its
    connections as long as DATABASE_URL has no TLS parameter of its own; one that it has
    replaces the option, and nothing in the start looks for it. *)
Theorem production_boot env w config m kind
    (Hboot : boot env w = Ok (config, m, kind)) (Hprod : config.(sc_nodeEnv) = "production") :
  kind = External /\ m.(dm_external) = true /\
  (exists ssl, m.(dm_ssl) = Some ssl /\ ssl.(ssl_rejectUnauthorized) = true) /\
  (forall url_ssl, url_ssl m.(dm_connectionString) = None ->
     exists ssl, connection_ssl url_ssl m = Some ssl /\ ssl.(ssl_rejectUnauthorized) = true) /\
  (forall def, def ∈ ENV_VAR_DEFINITIONS -> def.(ev_required) = true -> satisfies def (env def.(ev_name))) /\
  validateProductionSecrets env = [] /\ (64 <= utf16_length config.(sc_jwtSecret))%nat /\
  (exists secret, getFileAccessSecret env = Some secret /\ (32 <= utf16_length secret)%nat) /\
  is_Some (getFileEncryptionKey env) /\ is_Some (getTotpEncryptionKey env) /\
  exists n t, waitForDependencies w.(su_dependencies) 30000 5000 = Some (true, n, t).
Proof.
  unfold boot in Hboot. destruct (parseStrictNodeEnv (env "NODE_ENV")) as [nodeEnv|] eqn:Hn; [|done].
  apply production_env in Hn.
  destruct ((validateEnvironmentOnStartup env).2) eqn:Hval; [done|].
  destruct ((runSecretsValidation env _).2) eqn:Hsec; [done|].
  destruct (server_config env nodeEnv) as [config'|] eqn:Hcfg; [|done].
  destruct (_ && (_ || _)); [done|].
  destruct (_ && match _ with Some _ => _ | None => _ end) eqn:Hwait; [done|].
  destruct (assertConfigured env) eqn:Has; [done|].
  destruct (load_db_module _ env) as [m'|] eqn:Hm; [|done].
  destruct (initDb env m' _ _ _ _) as [kind'|] eqn:Hinit; [|done]. injection Hboot as -> -> ->.
  assert (nodeEnv = "production") as ->.
  { unfold server_config in Hcfg. destruct (if bool_decide (nodeEnv = "development") then _ else _); [|done].
    injection Hcfg as <-. exact Hprod. }
  assert (Hv : vr_isValid (validateEnvironment env true) = true).
  { unfold validateEnvironmentOnStartup in Hval. rewrite Hn in Hval. cbn [snd] in Hval.
    rewrite bool_decide_eq_true_2 in Hval by done. cbn [andb] in Hval. by apply negb_false_iff in Hval. }
  destruct (required_satisfied env "DATABASE_URL" _ Hv eq_refl eq_refl) as (url & Hurl & _ & Hty & _).
  destruct (required_satisfied env "JWT_SECRET" _ Hv eq_refl eq_refl) as (jwt & Hjwt & Hjne & _ & Hjlen).
  specialize (Hjlen 64%nat eq_refl). cbn [validateType ev_type ev_name] in Hty.
  rewrite bool_decide_eq_true_2 in Hty by done.
  pose proof (production_db_module env w m url Hn Hurl Hty Hm) as Hloaded.
  unfold initDb in Hinit. destruct Hloaded as [(Hext & Herr & Hssl)|[e He]]; [|by rewrite He in Hinit].
  rewrite Herr, Hext, Hn in Hinit. rewrite bool_decide_eq_true_2 in Hinit by done. cbn [andb negb] in Hinit.
  destruct (connectWithRetry _ _) as [success time]. destruct (_ <=? time); [done|].
  destruct success; [|done]. destruct (su_sslOk w); [|done]. injection Hinit as <-.
  assert (Hsecrets : validateProductionSecrets env = []).
  { unfold runSecretsValidation in Hsec. cbn [default snd] in Hsec.
    destruct (bool_decide_reflect (validateProductionSecrets env = [])) as [Hnone|_]; [exact Hnone|].
    by rewrite bool_decide_eq_true_2 in Hsec by done. }
  unfold assertConfigured in Has. destruct (getFileAccessSecret env) as [secret|] eqn:Hfs; [|done].
  destruct (Nat.ltb_spec (utf16_length secret) MIN_SECRET_LENGTH) as [|Hlen]; [done|].
  rewrite Hn in Has. rewrite (bool_decide_eq_true_2 (Some "production" = _)) in Has by done.
  destruct (getFileEncryptionKey env); [|done]. destruct (getTotpEncryptionKey env); [|done].
  split_and!; [done|done|done| | |done| |by exists secret|by eexists|by eexists|].
  - intros url_ssl Hu. unfold connection_ssl. rewrite Hu. exact Hssl.
  - by apply environment_valid_spec.
  - unfold server_config, getRequiredEnv in Hcfg. rewrite bool_decide_eq_false_2 in Hcfg by done.
    rewrite Hjwt, bool_decide_eq_false_2 in Hcfg by done. by injection Hcfg as <-.
  - cbn [andb] in Hwait. destruct (waitForDependencies _ _ _) as [[[ready n] t]|]; [|done].
    apply negb_false_iff in Hwait. subst ready. by exists n, t.
Qed.

(** *** Shutdown *)

Lemma run_after_settled es s : s.(sh_started) = true → s.(sh_settled) = true → foldl shutdown_step s es = s.
Proof.
  revert s. induction es as [|e es IH]; intros s Hs Ht; cbn [foldl]; [done|].
  assert (shutdown_step s e = s) as ->; [|by apply IH].
  destruct e; cbn; rewrite Hs; [done|unfold finish; by rewrite Ht|by rewrite Ht].
Qed.

(** What ends the drain. *)
Definition ends (e : shutdown_event) : bool := match e with Signalled => false | _ => true end.

(** the process exits at most once, however many signals arrive: with success
    when the connections were closed before the time limit was over, and with
    failure, after the rest was destroyed, when the limit came first; before a
    signal nothing ends it. *)
Theorem shutdown_exits_once early rest
    (Hearly : Forall (fun e => ends e = true) early) :
  sh_exits (foldl shutdown_step no_shutdown early) = [] /\
  let s := foldl shutdown_step no_shutdown (early ++ Signalled :: rest) in
  match List.filter ends rest with
  | [] => s.(sh_exits) = []
  | ServerClosed :: _ => s.(sh_exits) = [0] /\ s.(sh_killed) = false
  | _ :: _ => s.(sh_exits) = [1] /\ s.(sh_killed) = true
  end.
Proof.
  assert (He : foldl shutdown_step no_shutdown early = no_shutdown).
  { induction Hearly as [|e l Hx _ IH]; [done|]. cbn [foldl]. by destruct e. }
  rewrite foldl_app, He. split; [done|]. cbn [foldl].
  set (armed := shutdown_step no_shutdown Signalled). clear He Hearly early.
  induction rest as [|e rest IH]; [done|]. destruct e; cbn [foldl List.filter ends].
  - change (shutdown_step armed Signalled) with armed. apply IH.
  - by rewrite run_after_settled.
  - by rewrite run_after_settled.
Qed.

Lemma latest_cons x l : latest (x :: l) = Z.max x (latest l).
Proof. done. Qed.
Lemma latest_spec l t : t ∈ l → t <= latest l.
Proof.
  induction l as [|x l IH]; [by intros H%elem_of_nil|]. rewrite latest_cons.
  intros [->|H]%elem_of_cons; [lia|]. specialize (IH H). lia.
Qed.
Lemma latest_nonneg l : 0 <= latest l.
Proof. induction l as [|x l IH]; [done|]. rewrite latest_cons. lia. Qed.
Lemma latest_le l b : 0 <= b → (∀ t, t ∈ l → t <= b) → latest l <= b.
Proof.
  induction l as [|x l IH]; intros Hb H; [done|]. rewrite latest_cons. specialize (H x) as Hx.
  assert (x ∈ x :: l) by left. assert (latest l <= b) by (apply IH; [done|]; intros t Ht; apply H; by right).
  specialize (Hx H0). lia.
Qed.

Lemma none_above b l : (∀ t, t ∈ l → t <= b) → List.filter (λ t, b <? t) l = [].
Proof.
  induction l as [|t l IH]; intros H; [done|]. cbn [List.filter].
  rewrite (proj2 (Z.ltb_ge b t)) by (apply H; left). apply IH. intros u Hu. apply H. by right.
Qed.

(** a shutdown takes at most twice the configured limit; requests that end
    within the limit and within ten seconds are all answered, and the process
    then exits with success.  A request that runs longer than ten seconds is cut
    even when the limit is longer, and the exit still reports success. *)
Theorem shutdown_within_budget drainTimeoutMs d
    (Hlimit : DRAIN_TIMEOUT_MIN_MS <= drainTimeoutMs)
    (Hnonneg : 0 <= d.(dt_queue) /\ 0 <= d.(dt_redis) /\ 0 <= d.(dt_pool)) :
  exit_time drainTimeoutMs d <= 2 * drainTimeoutMs /\
  ((forall t, t ∈ d.(dt_requests) -> t <= Z.min SHUTDOWN_TIMEOUT_MS drainTimeoutMs) ->
     cut_requests drainTimeoutMs d = [] /\ exit_code drainTimeoutMs d = 0) /\
  (SHUTDOWN_TIMEOUT_MS <= drainTimeoutMs -> forall t, t ∈ d.(dt_requests) -> SHUTDOWN_TIMEOUT_MS < t ->
     t ∈ cut_requests drainTimeoutMs d /\ exit_code drainTimeoutMs d = 0).
Proof.
  pose proof (latest_nonneg d.(dt_requests)) as H0. unfold DRAIN_TIMEOUT_MIN_MS in Hlimit.
  assert (Hstop : stop_time d <= SHUTDOWN_TIMEOUT_MS ∧ stop_time d <= latest d.(dt_requests) ∧ 0 <= stop_time d)
    by (unfold stop_time, SHUTDOWN_TIMEOUT_MS; lia).
  assert (Hhand : handover_time drainTimeoutMs d <= drainTimeoutMs ∧
    (stop_time d <= drainTimeoutMs → stop_time d <= handover_time drainTimeoutMs d) ∧ 0 <= handover_time drainTimeoutMs d)
    by (unfold handover_time; lia).
  unfold SHUTDOWN_TIMEOUT_MS in *. split_and!.
  - unfold exit_time. lia.
  - intros Hshort. assert (Hl : latest d.(dt_requests) <= Z.min 10000 drainTimeoutMs) by (apply latest_le; [lia|done]).
    split.
    + apply none_above. intros t Ht. pose proof (latest_spec _ _ Ht).
      assert (stop_time d = latest d.(dt_requests)) by (unfold stop_time, SHUTDOWN_TIMEOUT_MS; lia).
      unfold exit_time, SHUTDOWN_TIMEOUT_MS. lia.
    + unfold exit_code. destruct (Z.ltb_spec (stop_time d) (handover_time drainTimeoutMs d + drainTimeoutMs)); [done|lia].
  - intros Hten t Ht Hlong. split.
    + unfold cut_requests. apply list_elem_of_In, filter_In. split; [by apply list_elem_of_In|].
      apply Z.ltb_lt. unfold SHUTDOWN_TIMEOUT_MS. lia.
    + unfold exit_code. destruct (Z.ltb_spec (stop_time d) (handover_time drainTimeoutMs d + drainTimeoutMs)); [done|lia].
Qed.

(** ** The theorems on concrete runs *)

Definition LONG_SECRET : string := "0123456789abcdef0123456789abcdef0123456789abcdef0123456789abcdef".

Definition production_sample : EnvSource := λ name,
  map_get name
    [("NODE_ENV", "production"); ("CORS_ORIGIN", "https://audit.example"); ("DATABASE_URL", "postgresql://app@db:5432/audit");
     ("JWT_SECRET", LONG_SECRET); ("VITE_STORAGE_SECRET", LONG_SECRET); ("VITE_NETWORK_SECRET", "n3twork");
     ("FILE_ACCESS_SECRET", LONG_SECRET); ("FILE_ENCRYPTION_KEY", LONG_SECRET); ("TOTP_ENCRYPTION_KEY", LONG_SECRET);
     ("REDIS_URL", "redis://cache:6379"); ("ALLOW_EMBEDDED_DB", "true")].

Definition slow_redis (n : nat) : dependency_answer :=
  {| da_postgres := true; da_redis := (2 <=? n)%nat; da_took := 100 |}.

Definition sample_surroundings : surroundings :=
  {| su_readCa := λ _, None; su_dependencies := slow_redis; su_connect := [(false, 1000); (true, 50)];
     su_uptime := 12000; su_sslOk := true; su_selectOk := true |}.

Lemma wait_for_dependencies_ends_witness :
  (exists ready n t, waitForDependencies slow_redis 30000 5000 = Some (ready, n, t) /\ (n <= 6)%nat) /\
  waitForDependencies slow_redis 30000 5000 = Some (true, 3%nat, 10300).
Proof.
  split; [|reflexivity].
  destruct (wait_for_dependencies_ends slow_redis 30000 5000) as (ready & n & t & H & Hn & _); [lia|lia|done|].
  exists ready, n, t. split; [exact H|exact Hn].
Defined.

(** A driver that reads [sslmode=no-verify] from a connection string. *)
Definition reads_no_verify (url : string) : option (option SslOption) :=
  if includes url "sslmode=no-verify" then Some (Some {| ssl_rejectUnauthorized := false; ssl_ca := None |}) else None.

Lemma production_boot_witness :
  match boot production_sample sample_surroundings with
  | Ok (config, m, kind) => kind = External ∧ m.(dm_external) = true ∧
      ∃ ssl, connection_ssl reads_no_verify m = Some ssl ∧ ssl.(ssl_rejectUnauthorized) = true
  | Throw _ => False
  end.
Proof.
  destruct (boot production_sample sample_surroundings) as [[[config m] kind]|e] eqn:H.
  - assert (Hp : config.(sc_nodeEnv) = "production") by (vm_compute in H; injection H as <- _ _; reflexivity).
    assert (Hu : reads_no_verify m.(dm_connectionString) = None) by (vm_compute in H; injection H as _ <- _; reflexivity).
    destruct (production_boot _ _ _ _ _ H Hp) as (H1 & H2 & _ & H3 & _). split; [exact H1|]. split; [exact H2|].
    exact (H3 reads_no_verify Hu).
  - vm_compute in H. discriminate.
Defined.

(** with TLS parameters in DATABASE_URL the whole start succeeds and the connections do not
    verify certificates. *)
Theorem url_parameters_replace_ssl :
  let env name := if bool_decide (name = "DATABASE_URL") then Some "postgresql://app@db:5432/audit?sslmode=no-verify"
                  else production_sample name in
  match boot env sample_surroundings with
  | Ok (config, m, kind) =>
      config.(sc_nodeEnv) = "production" ∧ kind = External ∧
      ssl_rejectUnauthorized <$> m.(dm_ssl) = Some true ∧
      ssl_rejectUnauthorized <$> connection_ssl reads_no_verify m = Some false
  | Throw _ => False
  end.
Proof. vm_compute. by split_and!. Qed.

Lemma shutdown_exits_once_witness :
  sh_exits (foldl shutdown_step no_shutdown [TimerFired; Signalled; Signalled; ServerClosed; TimerFired]) = [0].
Proof.
  exact (proj1 (proj2 (shutdown_exits_once [TimerFired] [Signalled; ServerClosed; TimerFired]
    ltac:(by constructor)))).
Defined.

Lemma shutdown_within_budget_witness :
  let d := {| dt_requests := [400; 25000]; dt_queue := 500; dt_redis := 20; dt_pool := 5 |} in
  exit_time 30000 d <= 60000 ∧ 25000 ∈ cut_requests 30000 d ∧ exit_code 30000 d = 0.
Proof.
  intros d. destruct (shutdown_within_budget 30000 d) as (H1 & _ & H3).
  - unfold DRAIN_TIMEOUT_MIN_MS. lia.
  - cbn. lia.
  - split; [exact H1|]. apply H3; [unfold SHUTDOWN_TIMEOUT_MS; lia| |unfold SHUTDOWN_TIMEOUT_MS; lia].
    cbn. right. left.
Defined.
