(* ===== verification/Catalogue.v ===== *)
(** * The catalogue of the database and the statements that change it

    What PostgreSQL keeps about tables, as far as [db/migrations.ts] relies on
    it: the columns of a table with their nullability, default and reference,
    the unique keys, the indexes, the named constraints and the triggers.  A
    statement succeeds or fails the way PostgreSQL documents it; the rows, the
    column types and the CHECK conditions are not part of the catalogue. *)

From S2P Require Import Prelude JsMap.

Record column := {
  c_name : string; c_type : string; c_notnull : bool; c_unique : bool;
  c_default : option string; c_references : option (string * string) }.

#[export] Instance column_eq_dec : EqDecision column.
Proof. solve_decision. Defined.

Definition col (name type : string) : column :=
  {| c_name := name; c_type := type; c_notnull := false; c_unique := false; c_default := None; c_references := None |}.
Definition not_null (c : column) : column :=
  {| c_name := c.(c_name); c_type := c.(c_type); c_notnull := true; c_unique := c.(c_unique);
     c_default := c.(c_default); c_references := c.(c_references) |}.
Definition nullable (c : column) : column :=
  {| c_name := c.(c_name); c_type := c.(c_type); c_notnull := false; c_unique := c.(c_unique);
     c_default := c.(c_default); c_references := c.(c_references) |}.
Definition unique (c : column) : column :=
  {| c_name := c.(c_name); c_type := c.(c_type); c_notnull := c.(c_notnull); c_unique := true;
     c_default := c.(c_default); c_references := c.(c_references) |}.
Definition with_default (d : string) (c : column) : column :=
  {| c_name := c.(c_name); c_type := c.(c_type); c_notnull := c.(c_notnull); c_unique := c.(c_unique);
     c_default := Some d; c_references := c.(c_references) |}.
Definition references (table key : string) (c : column) : column :=
  {| c_name := c.(c_name); c_type := c.(c_type); c_notnull := c.(c_notnull); c_unique := c.(c_unique);
     c_default := c.(c_default); c_references := Some (table, key) |}.

(** [t_keys]: the unique keys of several columns; [t_foreign]: the references
    that are not written at their column; [t_partitioned]: the key of a
    partitioned table. *)
Record table_body := {
  t_columns : list column; t_keys : list (list string);
  t_foreign : list (string * (string * string)); t_partitioned : option string }.

Record index := { i_name : string; i_table : string; i_columns : list string }.

Record catalogue := {
  tables : list (string * table_body); indexes : list index;
  constraints : list (string * string); triggers : list (string * string) }.

Definition empty_catalogue : catalogue := {| tables := []; indexes := []; constraints := []; triggers := [] |}.

Definition column_names (t : table_body) : list string := map c_name t.(t_columns).
Definition find_column (name : string) (t : table_body) : option column :=
  List.find (λ c, bool_decide (c.(c_name) = name)) t.(t_columns).

(** A reference may point to a key of exactly that column. *)
Definition has_key (t : table_body) (key : string) : bool :=
  bool_decide ([key] ∈ t.(t_keys)) ||
  match find_column key t with Some c => c.(c_unique) | None => false end.

Definition references_of (t : table_body) : list (string * (string * string)) :=
  omap (λ c, r ← c.(c_references); Some (c.(c_name), r)) t.(t_columns) ++ t.(t_foreign).

(** ** Statements *)

Inductive ddl : Type :=
  | CreateTable (name : string) (t : table_body)
  | AddColumn (table : string) (c : column)
  | CreateIndex (i : index)
  | AddForeignKey (name table c : string) (target : string * string)
  | AddCheck (name table : string)
  | CreateTrigger (name table : string)
  | SetNotNull (table c : string)
  | DropNotNull (table c : string)
  | SetDefault (table c value : string)
  | RenameTable (table name : string)
  | Rows (table : string) (cs : list string).

Definition create_table (name : string) (cs : list column) (keys : list (list string))
    (foreign : list (string * (string * string))) : ddl :=
  CreateTable name {| t_columns := cs; t_keys := keys; t_foreign := foreign; t_partitioned := None |}.

Definition missing_relation (t : string) : string := "relation " +:+ t +:+ " does not exist".
Definition missing_column (c t : string) : string := "column " +:+ c +:+ " of relation " +:+ t +:+ " does not exist".

Definition with_tables (ts : list (string * table_body)) (k : catalogue) : catalogue :=
  {| tables := ts; indexes := k.(indexes); constraints := k.(constraints); triggers := k.(triggers) |}.
Definition put_table (name : string) (t : table_body) (k : catalogue) : catalogue :=
  with_tables (map_set name t k.(tables)) k.

(** The target of a reference, which may be the table [name] itself. *)
Definition reference_ok (k : catalogue) (name : string) (t : table_body) (r : string * (string * string)) : bool :=
  bool_decide (r.1 ∈ column_names t) &&
  match (if bool_decide (r.2.1 = name) then Some t else map_get r.2.1 k.(tables)) with
  | Some target => has_key target r.2.2
  | None => false
  end.

Definition set_column (f : column → column) (name : string) (t : table_body) : table_body :=
  {| t_columns := map (λ c, if bool_decide (c.(c_name) = name) then f c else c) t.(t_columns);
     t_keys := t.(t_keys); t_foreign := t.(t_foreign); t_partitioned := t.(t_partitioned) |}.

Definition add_column (c : column) (t : table_body) : table_body :=
  {| t_columns := t.(t_columns) ++ [c]; t_keys := t.(t_keys); t_foreign := t.(t_foreign);
     t_partitioned := t.(t_partitioned) |}.
Definition add_foreign (r : string * (string * string)) (t : table_body) : table_body :=
  {| t_columns := t.(t_columns); t_keys := t.(t_keys); t_foreign := t.(t_foreign) ++ [r];
     t_partitioned := t.(t_partitioned) |}.

(** Everything that points to a table follows its name. *)
Definition renamed (old new name : string) : string := if bool_decide (name = old) then new else name.
Definition rename_references (old new : string) (t : table_body) : table_body :=
  {| t_columns := map (λ c, match c.(c_references) with
                            | Some (r, key) => references (renamed old new r) key c | None => c end) t.(t_columns);
     t_keys := t.(t_keys);
     t_foreign := map (λ r, (r.1, (renamed old new r.2.1, r.2.2))) t.(t_foreign);
     t_partitioned := t.(t_partitioned) |}.
Definition rename_table (old new : string) (k : catalogue) : catalogue :=
  {| tables := map (λ e, (renamed old new e.1, rename_references old new e.2)) k.(tables);
     indexes := map (λ i, {| i_name := i.(i_name); i_table := renamed old new i.(i_table);
                             i_columns := i.(i_columns) |}) k.(indexes);
     constraints := map (λ e, (e.1, renamed old new e.2)) k.(constraints);
     triggers := map (λ e, (e.1, renamed old new e.2)) k.(triggers) |}.

Definition has_table (k : catalogue) (name : string) : bool := bool_decide (is_Some (map_get name k.(tables))).
Definition has_column (k : catalogue) (table c : string) : bool :=
  match map_get table k.(tables) with Some t => bool_decide (c ∈ column_names t) | None => false end.
Definition has_index (k : catalogue) (name : string) : bool := bool_decide (name ∈ map i_name k.(indexes)).

(** One statement.  Tables, columns and indexes are created IF NOT EXISTS; a
    named constraint and a trigger are added when none has the name. *)
Definition exec (d : ddl) (k : catalogue) : outcome string catalogue :=
  match d with
  | CreateTable name t =>
      if has_table k name then Ok k
      else if negb (bool_decide (NoDup (column_names t))) then Throw "column specified more than once"
      else if forallb (reference_ok k name t) (references_of t) then Ok (put_table name t k)
      else Throw ("invalid reference in " +:+ name)
  | AddColumn table c =>
      match map_get table k.(tables) with
      | None => Throw (missing_relation table)
      | Some t =>
          if bool_decide (c.(c_name) ∈ column_names t) then Ok k
          else match c.(c_references) with
          | Some r => if reference_ok k table (add_column c t) (c.(c_name), r)
                      then Ok (put_table table (add_column c t) k) else Throw (missing_relation r.1)
          | None => Ok (put_table table (add_column c t) k)
          end
      end
  | CreateIndex i =>
      match map_get i.(i_table) k.(tables) with
      | None => Throw (missing_relation i.(i_table))
      | Some t =>
          if has_index k i.(i_name) then Ok k
          else if forallb (λ c, bool_decide (c ∈ column_names t)) i.(i_columns)
          then Ok {| tables := k.(tables); indexes := k.(indexes) ++ [i]; constraints := k.(constraints);
                     triggers := k.(triggers) |}
          else Throw "column of the index does not exist"
      end
  | AddForeignKey name table c target =>
      if bool_decide (name ∈ keys k.(constraints)) then Ok k
      else match map_get table k.(tables) with
      | None => Throw (missing_relation table)
      | Some t =>
          if reference_ok k table t (c, target)
          then Ok {| tables := map_set table (add_foreign (c, target) t) k.(tables); indexes := k.(indexes);
                     constraints := k.(constraints) ++ [(name, table)]; triggers := k.(triggers) |}
          else Throw (missing_column c table)
      end
  | AddCheck name table =>
      if bool_decide (name ∈ keys k.(constraints)) then Ok k
      else if has_table k table
      then Ok {| tables := k.(tables); indexes := k.(indexes); constraints := k.(constraints) ++ [(name, table)];
                 triggers := k.(triggers) |}
      else Throw (missing_relation table)
  | CreateTrigger name table =>
      if bool_decide (name ∈ keys k.(triggers)) then Ok k
      else if has_table k table
      then Ok {| tables := k.(tables); indexes := k.(indexes); constraints := k.(constraints);
                 triggers := k.(triggers) ++ [(name, table)] |}
      else Throw (missing_relation table)
  | SetNotNull table c =>
      match map_get table k.(tables) with
      | None => Throw (missing_relation table)
      | Some t => if bool_decide (c ∈ column_names t) then Ok (put_table table (set_column not_null c t) k)
                  else Throw (missing_column c table)
      end
  | DropNotNull table c =>
      match map_get table k.(tables) with
      | None => Throw (missing_relation table)
      | Some t => if bool_decide (c ∈ column_names t) then Ok (put_table table (set_column nullable c t) k)
                  else Throw (missing_column c table)
      end
  | SetDefault table c value =>
      match map_get table k.(tables) with
      | None => Throw (missing_relation table)
      | Some t => if bool_decide (c ∈ column_names t) then Ok (put_table table (set_column (with_default value) c t) k)
                  else Throw (missing_column c table)
      end
  | RenameTable table name =>
      if negb (has_table k table) then Throw (missing_relation table)
      else if has_table k name then Throw ("relation " +:+ name +:+ " already exists")
      else Ok (rename_table table name k)
  | Rows table cs =>
      match map_get table k.(tables) with
      | None => Throw (missing_relation table)
      | Some t => if forallb (λ c, bool_decide (c ∈ column_names t)) cs then Ok k else Throw "column does not exist"
      end
  end.

Fixpoint exec_all (ds : list ddl) (k : catalogue) : outcome string catalogue :=
  match ds with
  | [] => Ok k
  | d :: ds => match exec d k with Ok k => exec_all ds k | Throw e => Throw e end
  end.

(** ** What a statement may change *)

(** [t'] can be used wherever [t] can. *)
Definition table_extends (t t' : table_body) : Prop :=
  (∀ c, c ∈ column_names t → c ∈ column_names t') ∧ ∀ key, has_key t key = true → has_key t' key = true.

Record extends (k k' : catalogue) : Prop := {
  ext_tables : ∀ n t, map_get n k.(tables) = Some t →
    ∃ t', map_get n k'.(tables) = Some t' ∧ table_extends t t';
  ext_indexes : ∀ n, n ∈ map i_name k.(indexes) → n ∈ map i_name k'.(indexes);
  ext_constraints : ∀ n, n ∈ keys k.(constraints) → n ∈ keys k'.(constraints);
  ext_triggers : ∀ n, n ∈ keys k.(triggers) → n ∈ keys k'.(triggers) }.

#[export] Instance table_extends_preorder : PreOrder table_extends.
Proof. split; [by intros t|]. intros t1 t2 t3 [H1 H2] [H3 H4]. split; auto. Qed.

#[export] Instance extends_preorder : PreOrder extends.
Proof.
  split.
  - intros k. split; [|auto..]. intros n t H. exists t. by split.
  - intros k1 k2 k3 [H1 H2 H3 H4] [G1 G2 G3 G4]. split; [|auto..].
    intros n t (t' & Ht & He)%H1. destruct (G1 _ _ Ht) as (t'' & ? & ?). exists t''. split; [done|by etrans].
Qed.

Lemma find_column_app n cs c : List.find (λ c, bool_decide (c.(c_name) = n)) (cs ++ [c]) =
  match List.find (λ c, bool_decide (c.(c_name) = n)) cs with
  | Some c' => Some c' | None => if bool_decide (c.(c_name) = n) then Some c else None end.
Proof. induction cs as [|c' cs IH]; cbn; [done|]. destruct (bool_decide (c_name c' = n)); [done|apply IH]. Qed.

Lemma find_column_map n f cs : (∀ c, (f c).(c_name) = c.(c_name)) →
  List.find (λ c, bool_decide (c.(c_name) = n)) (map f cs) =
  f <$> List.find (λ c, bool_decide (c.(c_name) = n)) cs.
Proof. intros Hf. induction cs as [|c cs IH]; cbn; [done|]. rewrite Hf. by destruct (bool_decide _). Qed.

Lemma add_column_extends c t : table_extends t (add_column c t).
Proof.
  split.
  - intros n Hn. unfold column_names in *. cbn [t_columns add_column]. rewrite map_app. set_solver.
  - intros key. unfold has_key, find_column. cbn [t_columns t_keys add_column]. rewrite find_column_app.
    destruct (List.find _ t.(t_columns)); [done|]. rewrite orb_false_r. intros ->. done.
Qed.

Lemma add_foreign_extends r t : table_extends t (add_foreign r t).
Proof. by split. Qed.

(** The change of one column keeps the names and the keys. *)
Class column_change (f : column → column) : Prop := {
  change_name : ∀ c, (f c).(c_name) = c.(c_name);
  change_unique : ∀ c, (f c).(c_unique) = c.(c_unique);
  change_references : ∀ c, (f c).(c_references) = c.(c_references) }.
#[export] Instance not_null_change : column_change not_null. Proof. by split. Qed.
#[export] Instance nullable_change : column_change nullable. Proof. by split. Qed.
#[export] Instance default_change v : column_change (with_default v). Proof. by split. Qed.

Section set_column.
Context (f : column → column) `{!column_change f} (n : string) (t : table_body).

Lemma set_column_names : column_names (set_column f n t) = column_names t.
Proof.
  unfold column_names, set_column. cbn [t_columns]. rewrite map_map. apply map_ext. intros c.
  destruct (bool_decide _); [apply change_name|done].
Qed.

Lemma set_column_has_key key : has_key (set_column f n t) key = has_key t key.
Proof.
  unfold has_key, find_column, set_column. cbn [t_columns t_keys]. rewrite find_column_map.
  - destruct (List.find _ _) as [c|]; cbn [fmap option_fmap option_map]; [|done].
    destruct (bool_decide (c_name c = n)); [by rewrite change_unique|done].
  - intros c. destruct (bool_decide _); [apply change_name|done].
Qed.

Lemma set_column_references : references_of (set_column f n t) = references_of t.
Proof.
  unfold references_of, set_column. cbn [t_columns t_foreign]. f_equal.
  induction t.(t_columns) as [|c cs IH]; [done|]. cbn [map omap list_omap]. rewrite IH.
  destruct (bool_decide _); [|done]. by rewrite change_references, change_name.
Qed.

Lemma set_column_extends : table_extends t (set_column f n t).
Proof. split; [by rewrite set_column_names|]. intros key. by rewrite set_column_has_key. Qed.
End set_column.

Lemma put_extends n t t' k : map_get n k.(tables) = Some t → table_extends t t' → extends k (put_table n t' k).
Proof.
  intros Ht He. split; [|done..]. intros m u Hu. cbn [tables put_table with_tables].
  destruct (decide (n = m)) as [->|Hne].
  - rewrite map_get_set_eq. rewrite Ht in Hu. injection Hu as <-. by exists t'.
  - rewrite map_get_set_ne by done. by exists u.
Qed.

Lemma put_new_extends n t' k : map_get n k.(tables) = None → extends k (put_table n t' k).
Proof.
  intros Ht. split; [|done..]. intros m u Hu. cbn [tables put_table with_tables].
  rewrite map_get_set_ne by congruence. by exists u.
Qed.

Lemma has_table_get k n : has_table k n = true ↔ ∃ t, map_get n k.(tables) = Some t.
Proof. unfold has_table. by rewrite bool_decide_eq_true. Qed.
Lemma has_table_false k n : has_table k n = false ↔ map_get n k.(tables) = None.
Proof. unfold has_table. rewrite bool_decide_eq_false. symmetry. apply eq_None_not_Some. Qed.

Definition is_rename (d : ddl) : bool := match d with RenameTable _ _ => true | _ => false end.

(** Split an [exec] that succeeded into its branches. *)
Ltac exec_cases H :=
  unfold exec in H;
  repeat match type of H with
  | context [match ?x with _ => _ end] =>
      lazymatch x with context [match _ with _ => _ end] => fail | _ => destruct x eqn:? end
  end; try discriminate H; injection H as <-.

(** Only a rename takes something away. *)
Lemma exec_extends d k k' : is_rename d = false → exec d k = Ok k' → extends k k'.
Proof.
  intros Hd H. destruct d; try discriminate Hd; exec_cases H; try reflexivity.
  - apply put_new_extends. by apply has_table_false.
  - eapply put_extends; [done|]. apply add_column_extends.
  - eapply put_extends; [done|]. apply add_column_extends.
  - split; [intros n' t' ?; by exists t'| |done..]. cbn [indexes]. intros n' Hn. rewrite map_app. set_solver.
  - split; cbn [tables indexes constraints triggers]; [|done| |done].
    + match goal with H : map_get table _ = Some ?t |- _ => intros n t1 Ht1;
        exact (ext_tables _ _ (put_extends table t (add_foreign (c, target) t) k H ltac:(apply add_foreign_extends)) n t1 Ht1) end.
    + intros n Hn. rewrite keys_app. set_solver.
  - split; cbn [tables indexes constraints triggers]; [|done| |done].
    + intros n t' ?. by exists t'.
    + intros n Hn. rewrite keys_app. set_solver.
  - split; cbn [tables indexes constraints triggers]; [|done|done|].
    + intros n t' ?. by exists t'.
    + intros n Hn. rewrite keys_app. set_solver.
  - eapply put_extends; [done|]. apply set_column_extends, _.
  - eapply put_extends; [done|]. apply set_column_extends, _.
  - eapply put_extends; [done|]. apply set_column_extends, _.
Qed.

(** ** Statements that only add *)

(** The statement finds its work done. *)
Definition satisfied (d : ddl) (k : catalogue) : Prop :=
  match d with
  | CreateTable n _ => has_table k n = true
  | AddColumn t c => has_column k t c.(c_name) = true
  | CreateIndex i => has_table k i.(i_table) = true ∧ has_index k i.(i_name) = true
  | AddForeignKey n _ _ _ | AddCheck n _ => n ∈ keys k.(constraints)
  | CreateTrigger n _ => n ∈ keys k.(triggers)
  | _ => False
  end.

Definition additive (d : ddl) : bool :=
  match d with
  | CreateTable _ _ | AddColumn _ _ | CreateIndex _ | AddForeignKey _ _ _ _ | AddCheck _ _ | CreateTrigger _ _ => true
  | _ => false
  end.

Lemma has_column_get k t c : has_column k t c = true ↔ ∃ b, map_get t k.(tables) = Some b ∧ c ∈ column_names b.
Proof.
  unfold has_column. destruct (map_get t (tables k)) as [b|]; [|naive_solver].
  rewrite bool_decide_eq_true. naive_solver.
Qed.

Lemma satisfied_exec d k : satisfied d k → exec d k = Ok k.
Proof.
  destruct d; cbn [satisfied exec]; try done.
  - by intros ->.
  - intros (b & Hb & Hc)%has_column_get. by rewrite Hb, bool_decide_eq_true_2 by done.
  - intros [(b & Hb)%has_table_get Hi]. by rewrite Hb, Hi.
  - intros H. by rewrite bool_decide_eq_true_2 by done.
  - intros H. by rewrite bool_decide_eq_true_2 by done.
  - intros H. by rewrite bool_decide_eq_true_2 by done.
Qed.

Lemma satisfied_extends d k k' : extends k k' → satisfied d k → satisfied d k'.
Proof.
  intros [H1 H2 H3 H4]. destruct d; cbn [satisfied]; try done; auto.
  - intros (b & Hb)%has_table_get. apply has_table_get. destruct (H1 _ _ Hb) as (b' & ? & _). by exists b'.
  - intros (b & Hb & Hc)%has_column_get. apply has_column_get.
    destruct (H1 _ _ Hb) as (b' & ? & [Hcols _]). exists b'. auto.
  - intros [(b & Hb)%has_table_get Hi%bool_decide_eq_true]. split.
    + apply has_table_get. destruct (H1 _ _ Hb) as (b' & ? & _). by exists b'.
    + apply bool_decide_eq_true. auto.
Qed.

Lemma exec_satisfies d k k' : additive d = true → exec d k = Ok k' → satisfied d k'.
Proof.
  intros Hd H. destruct d; try discriminate Hd; exec_cases H; cbn [satisfied]; try done.
  - apply has_table_get. exists t. apply map_get_set_eq.
  - apply has_column_get. eexists. split; [done|]. by eapply bool_decide_eq_true.
  - apply has_column_get. eexists. split; [apply map_get_set_eq|].
    unfold column_names. cbn [t_columns add_column]. rewrite map_app. set_solver.
  - apply has_column_get. eexists. split; [apply map_get_set_eq|].
    unfold column_names. cbn [t_columns add_column]. rewrite map_app. set_solver.
  - split; [|done]. apply has_table_get. by eexists.
  - split; [apply has_table_get; by eexists|]. unfold has_index. cbn [indexes]. rewrite map_app.
    apply bool_decide_eq_true. set_solver.
  - by eapply bool_decide_eq_true.
  - cbn [constraints]. rewrite keys_app. set_solver.
  - by eapply bool_decide_eq_true.
  - cbn [constraints]. rewrite keys_app. set_solver.
  - by eapply bool_decide_eq_true.
  - cbn [triggers]. rewrite keys_app. set_solver.
Qed.

Lemma additive_no_rename d : additive d = true → is_rename d = false.
Proof. by destruct d. Qed.

Lemma exec_all_extends ds : ∀ k k', Forall (λ d, is_rename d = false) ds → exec_all ds k = Ok k' → extends k k'.
Proof.
  induction ds as [|d ds IH]; cbn [exec_all]; intros k k' Hd H; [injection H as ->; reflexivity|].
  apply Forall_cons_1 in Hd as [Hr Hds]. destruct (exec d k) as [k1|e] eqn:H1; [|done].
  etrans; [by eapply exec_extends|by apply IH].
Qed.

Lemma exec_all_satisfies ds : ∀ k k', Forall (λ d, additive d = true) ds → exec_all ds k = Ok k' →
  Forall (λ d, satisfied d k') ds.
Proof.
  induction ds as [|d ds IH]; cbn [exec_all]; intros k k' Hd H; [by constructor|].
  apply Forall_cons_1 in Hd as [Ha Hds]. destruct (exec d k) as [k1|e] eqn:H1; [|done].
  constructor; [|by eapply IH]. eapply satisfied_extends; [|by eapply exec_satisfies].
  eapply exec_all_extends; [|exact H]. eapply Forall_impl; [exact Hds|]. intros d'. apply additive_no_rename.
Qed.

Lemma exec_all_satisfied ds k : Forall (λ d, satisfied d k) ds → exec_all ds k = Ok k.
Proof. induction 1 as [|d ds Hd _ IH]; cbn [exec_all]; [done|]. by rewrite satisfied_exec. Qed.

(** a list of statements that only add, run to its end, changes nothing when it is
    run again, then or after any other statements but renames. *)
Theorem additive_run_is_idempotent ds ds' k k' k''
    (Hadd : Forall (fun d => additive d = true) ds) (Hother : Forall (fun d => is_rename d = false) ds')
    (Hrun : exec_all ds k = Ok k') (Hrun' : exec_all ds' k' = Ok k'') :
  exec_all ds k'' = Ok k''.
Proof.
  apply exec_all_satisfied. eapply Forall_impl; [by eapply exec_all_satisfies|].
  intros d. apply satisfied_extends. by eapply exec_all_extends.
Qed.

(** ** The invariant of the catalogue *)

Record catalogue_ok (k : catalogue) : Prop := {
  ok_tables : map_wf k.(tables);
  ok_columns : ∀ n t, map_get n k.(tables) = Some t → NoDup (column_names t);
  ok_references : ∀ n t, map_get n k.(tables) = Some t → Forall (λ r, reference_ok k n t r = true) (references_of t);
  ok_indexes : ∀ i, i ∈ k.(indexes) → ∃ t, map_get i.(i_table) k.(tables) = Some t ∧ i.(i_columns) ⊆ column_names t;
  ok_index_names : NoDup (map i_name k.(indexes));
  ok_constraints : ∀ n t, (n, t) ∈ k.(constraints) → has_table k t = true;
  ok_triggers : ∀ n t, (n, t) ∈ k.(triggers) → has_table k t = true }.

Lemma reference_ok_extends k k' n t t' r :
  extends k k' → table_extends t t' → reference_ok k n t r = true → reference_ok k' n t' r = true.
Proof.
  intros [He _ _ _] [Hc Hk]. unfold reference_ok.
  intros [H1%bool_decide_eq_true H2]%andb_true_iff. apply andb_true_iff. split.
  - by apply bool_decide_eq_true, Hc.
  - destruct (bool_decide_reflect (r.2.1 = n)) as [_|_]; [by apply Hk|].
    destruct (map_get r.2.1 (tables k)) as [u|] eqn:Hu; [|done].
    destruct (He _ _ Hu) as (u' & -> & [_ Hku]). by apply Hku.
Qed.

Lemma has_table_extends k k' n : extends k k' → has_table k n = true → has_table k' n = true.
Proof. intros He (t & Ht)%has_table_get. apply has_table_get. destruct (ext_tables _ _ He _ _ Ht) as (t' & ? & _). by exists t'. Qed.

(** A table put in place keeps the invariant when its own columns and references are in order. *)
Lemma put_table_ok k n t' :
  catalogue_ok k → extends k (put_table n t' k) → NoDup (column_names t') →
  Forall (λ r, reference_ok (put_table n t' k) n t' r = true) (references_of t') →
  catalogue_ok (put_table n t' k).
Proof.
  intros [H1 H2 H3 H4 H5 H6 H7] He Hd Hr. split.
  - by apply map_set_wf.
  - intros m u. cbn [tables put_table with_tables]. destruct (decide (n = m)) as [<-|Hne].
    + rewrite map_get_set_eq. by intros [= <-].
    + rewrite map_get_set_ne by done. apply H2.
  - intros m u. cbn [tables put_table with_tables]. destruct (decide (n = m)) as [<-|Hne].
    + rewrite map_get_set_eq. by intros [= <-].
    + rewrite map_get_set_ne by done. intros Hu. eapply Forall_impl; [by apply H3|].
      intros r Hok. by eapply reference_ok_extends.
  - intros i (u & Hu & Hsub)%H4. destruct (ext_tables _ _ He _ _ Hu) as (u' & Hu' & [Hc _]).
    exists u'. split; [exact Hu'|]. set_solver.
  - exact H5.
  - intros m u Hm%H6. by eapply has_table_extends.
  - intros m u Hm%H7. by eapply has_table_extends.
Qed.

Lemma elem_of_references r t : r ∈ references_of t ↔
  (∃ c, c ∈ t.(t_columns) ∧ c.(c_references) = Some r.2 ∧ c.(c_name) = r.1) ∨ r ∈ t.(t_foreign).
Proof.
  unfold references_of. rewrite elem_of_app, list_elem_of_omap. apply or_iff_compat_r. split.
  - intros (c & Hc & H). exists c. destruct (c_references c); [|done]. by injection H as <-.
  - intros (c & Hc & Hr & Hn). exists c. split; [done|]. rewrite Hr, Hn. by destruct r.
Qed.

Lemma changed_table_ok k n t t' :
  catalogue_ok k → map_get n k.(tables) = Some t → table_extends t t' → NoDup (column_names t') →
  (∀ r, r ∈ references_of t' → r ∈ references_of t ∨ reference_ok k n t' r = true) →
  catalogue_ok (put_table n t' k).
Proof.
  intros Hok Ht He Hd Hr. assert (Hext : extends k (put_table n t' k)) by by eapply put_extends.
  apply put_table_ok; [done|done|done|]. apply Forall_forall. intros r [Hin|Hnew]%Hr.
  - pose proof (ok_references _ Hok _ _ Ht) as Hrefs. rewrite Forall_forall in Hrefs.
    eapply reference_ok_extends; [done|done|]. exact (Hrefs r Hin).
  - eapply reference_ok_extends; [done| |done]. done.
Qed.

Lemma named_ok k cs ts : catalogue_ok k →
  (∀ n t, (n, t) ∈ cs → has_table k t = true) → (∀ n t, (n, t) ∈ ts → has_table k t = true) →
  catalogue_ok {| tables := k.(tables); indexes := k.(indexes); constraints := k.(constraints) ++ cs;
                  triggers := k.(triggers) ++ ts |}.
Proof.
  intros [H1 H2 H3 H4 H5 H6 H7] Hc Ht. split; cbn [tables indexes constraints triggers]; try done.
  - intros n t [Hin|Hin]%elem_of_app; [by apply H6 in Hin|by apply Hc in Hin].
  - intros n t [Hin|Hin]%elem_of_app; [by apply H7 in Hin|by apply Ht in Hin].
Qed.

Lemma set_column_ok f `{!column_change f} k n t c : catalogue_ok k → map_get n k.(tables) = Some t →
  catalogue_ok (put_table n (set_column f c t) k).
Proof.
  intros Hok Ht. apply (changed_table_ok k n t); [done|done|by apply set_column_extends| |].
  - rewrite set_column_names by done. by apply (ok_columns _ Hok n).
  - rewrite set_column_references by done. by left.
Qed.

Lemma add_column_ok k n t c : catalogue_ok k → map_get n k.(tables) = Some t → c.(c_name) ∉ column_names t →
  (∀ r, c.(c_references) = Some r → reference_ok k n (add_column c t) (c.(c_name), r) = true) →
  catalogue_ok (put_table n (add_column c t) k).
Proof.
  intros Hok Ht Hc Hr. apply (changed_table_ok k n t); [done|done|apply add_column_extends| |].
  - unfold column_names in *. cbn [t_columns add_column]. rewrite map_app. apply NoDup_app. split_and!.
    + by apply (ok_columns _ Hok n).
    + intros x Hx Hx'. cbn in Hx'. assert (x = c_name c) as -> by set_solver. done.
    + cbn. apply NoDup_singleton.
  - intros r [(c' & Hc' & Href & Hn)|Hf]%elem_of_references.
    + cbn [t_columns add_column] in Hc'. apply elem_of_app in Hc' as [Hc'|Hc'].
      * left. apply elem_of_references. left. by exists c'.
      * apply list_elem_of_singleton in Hc' as ->. right. apply Hr in Href. rewrite Hn in Href. by destruct r.
    + left. apply elem_of_references. by right.
Qed.

Section rename.
Context (old new : string) (k : catalogue).
Context (Hok : catalogue_ok k) (Hnew : has_table k new = false).
Local Abbreviation moved := (rename_table old new k).

Lemma rename_names t : column_names (rename_references old new t) = column_names t.
Proof.
  unfold column_names, rename_references. cbn [t_columns]. rewrite map_map. apply map_ext.
  intros c. by destruct (c_references c) as [[? ?]|].
Qed.

Lemma rename_has_key t key : has_key (rename_references old new t) key = has_key t key.
Proof.
  unfold has_key, find_column, rename_references. cbn [t_columns t_keys]. rewrite find_column_map.
  - destruct (List.find _ _) as [c|]; cbn [fmap option_fmap option_map]; [|done].
    by destruct (c_references c) as [[? ?]|].
  - intros c. by destruct (c_references c) as [[? ?]|].
Qed.

Lemma rename_references_of t : references_of (rename_references old new t) =
  map (λ r, (r.1, (renamed old new r.2.1, r.2.2))) (references_of t).
Proof.
  unfold references_of, rename_references. cbn [t_columns t_foreign]. rewrite map_app. f_equal.
  induction t.(t_columns) as [|c cs IH]; [done|]. cbn [map omap list_omap]. rewrite IH.
  by destruct (c_references c) as [[? ?]|] eqn:Hc; cbn [mbind option_bind references c_references c_name] in *; rewrite ?Hc.
Qed.

Lemma renamed_inj a b : a ≠ new → b ≠ new → renamed old new a = renamed old new b → a = b.
Proof. unfold renamed. repeat case_bool_decide; congruence. Qed.

Lemma rename_get_list (ts : list (string * table_body)) n : new ∉ keys ts → n ≠ new →
  map_get (renamed old new n) (map (λ e, (renamed old new e.1, rename_references old new e.2)) ts) =
  rename_references old new <$> map_get n ts.
Proof.
  induction ts as [|[m t] ts IH]; [done|]. intros Hin Hn. rewrite keys_cons in Hin.
  cbn [map map_get fst snd]. specialize (IH ltac:(set_solver) Hn).
  destruct (decide (n = m)) as [->|Hne].
  - by rewrite !bool_decide_eq_true_2.
  - rewrite !bool_decide_eq_false_2; [done|done|]. intros E. apply Hne, renamed_inj; [done|set_solver|done].
Qed.

Lemma new_absent : new ∉ keys k.(tables).
Proof. apply map_get_None. by apply has_table_false. Qed.

Lemma rename_get n : n ≠ new → map_get (renamed old new n) moved.(tables) = rename_references old new <$> map_get n k.(tables).
Proof. intros. apply rename_get_list; [apply new_absent|done]. Qed.

Lemma rename_keys : keys moved.(tables) = map (renamed old new) (keys k.(tables)).
Proof. unfold keys, rename_table. cbn [tables]. rewrite !map_map. done. Qed.

Lemma rename_get_inv m t' : map_get m moved.(tables) = Some t' →
  ∃ n t, n ≠ new ∧ m = renamed old new n ∧ map_get n k.(tables) = Some t ∧ t' = rename_references old new t.
Proof.
  intros H. assert (Hin : m ∈ keys moved.(tables)) by (eapply elem_of_keys, map_get_Some_elem, H).
  rewrite rename_keys in Hin. apply list_elem_of_In, in_map_iff in Hin as (n & <- & Hn%list_elem_of_In).
  assert (n ≠ new) as Hne by (intros ->; by apply new_absent). rewrite rename_get in H by done.
  destruct (map_get n (tables k)) as [t|] eqn:Ht; [|done]. injection H as <-. by exists n, t.
Qed.

Lemma rename_has_table n : has_table k n = true → has_table moved (renamed old new n) = true.
Proof.
  intros (t & Ht)%has_table_get. assert (n ≠ new) by (intros ->; apply has_table_false in Hnew; congruence).
  apply has_table_get. rewrite rename_get, Ht by done. by eexists.
Qed.

Lemma rename_reference n t r : map_get n k.(tables) = Some t → reference_ok k n t r = true →
  reference_ok moved (renamed old new n) (rename_references old new t) (r.1, (renamed old new r.2.1, r.2.2)) = true.
Proof.
  intros Ht. unfold reference_ok. cbn [fst snd]. rewrite rename_names.
  intros [H1 H2]%andb_true_iff. apply andb_true_iff. split; [done|].
  assert (Hn : n ≠ new) by (intros ->; apply has_table_false in Hnew; congruence).
  destruct (bool_decide_reflect (r.2.1 = n)) as [->|Hne].
  - rewrite bool_decide_eq_true_2 by done. by rewrite rename_has_key.
  - destruct (map_get r.2.1 (tables k)) as [u|] eqn:Hu; [|done].
    assert (r.2.1 ≠ new) by (intros E; apply has_table_false in Hnew; congruence).
    rewrite bool_decide_eq_false_2 by (intros E; by apply Hne, renamed_inj).
    rewrite rename_get, Hu by done. cbn. by rewrite rename_has_key.
Qed.

Lemma rename_ok : catalogue_ok moved.
Proof.
  destruct Hok as [H1 H2 H3 H4 H5 H6 H7]. split.
  - unfold map_wf. rewrite rename_keys. apply NoDup_fmap_2_strong; [|exact H1].
    intros a b Ha Hb. apply renamed_inj; intros ->; by apply new_absent.
  - intros m t' (n & t & _ & _ & Ht & ->)%rename_get_inv. rewrite rename_names. by apply (H2 n).
  - intros m t' (n & t & _ & -> & Ht & ->)%rename_get_inv. rewrite rename_references_of. apply Forall_map.
    eapply Forall_impl; [by apply (H3 n t)|]. intros r Hr. by apply rename_reference.
  - intros i Hi. unfold rename_table in Hi. cbn [indexes] in Hi.
    apply list_elem_of_In, in_map_iff in Hi as (i0 & <- & Hi%list_elem_of_In). cbn [i_table i_columns].
    destruct (H4 _ Hi) as (t & Ht & Hsub). exists (rename_references old new t). split.
    + rewrite rename_get, Ht; [done|]. intros E. apply has_table_false in Hnew. congruence.
    + by rewrite rename_names.
  - unfold rename_table. cbn [indexes]. by rewrite map_map.
  - intros n t Hin. unfold rename_table in Hin. cbn [constraints] in Hin.
    apply list_elem_of_In, in_map_iff in Hin as ([n0 t0] & [= <- <-] & Hin%list_elem_of_In). by eapply rename_has_table, H6.
  - intros n t Hin. unfold rename_table in Hin. cbn [triggers] in Hin.
    apply list_elem_of_In, in_map_iff in Hin as ([n0 t0] & [= <- <-] & Hin%list_elem_of_In). by eapply rename_has_table, H7.
Qed.
End rename.

Lemma forallb_elem {A} (p : A → bool) l : forallb p l = true → Forall (λ x, p x = true) l.
Proof. intros H. rewrite forallb_forall in H. apply Forall_forall. intros x Hx. by apply H, list_elem_of_In. Qed.

Lemma exec_ok d k k' : catalogue_ok k → exec d k = Ok k' → catalogue_ok k'.
Proof.
  intros Hok H. destruct d; exec_cases H; try done.
  - apply put_table_ok; [done| |by eapply bool_decide_eq_true, negb_false_iff|].
    + by apply put_new_extends, has_table_false.
    + eapply Forall_impl; [by apply forallb_elem|]. intros r Hr.
      eapply reference_ok_extends; [|done|exact Hr]. by apply put_new_extends, has_table_false.
  - apply add_column_ok; [done|done|by eapply bool_decide_eq_false|congruence].
  - apply add_column_ok; [done|done|by eapply bool_decide_eq_false|congruence].
  - destruct Hok as [H1 H2 H3 H4 H5 H6 H7]. split; cbn [tables indexes constraints triggers]; try done.
    + intros i' [Hi|Hi]%elem_of_app; [by apply H4|]. apply list_elem_of_singleton in Hi as ->. eexists. split; [done|].
      intros c Hc. apply forallb_elem in Heqb0. rewrite Forall_forall in Heqb0. by eapply bool_decide_eq_true, Heqb0.
    + rewrite map_app. apply NoDup_app. split_and!; [done| |apply NoDup_singleton].
      intros x Hx ->%list_elem_of_singleton. by apply bool_decide_eq_false in Heqb.
  - assert (Hput : catalogue_ok (put_table table (add_foreign (c, target) t) k)).
    { apply (changed_table_ok k table t); [done|done|apply add_foreign_extends|exact (ok_columns _ Hok table t ltac:(done))|].
      intros r [Hc|Hf]%elem_of_references; [left; apply elem_of_references; by left|].
      cbn [t_foreign add_foreign] in Hf. apply elem_of_app in Hf as [Hf|Hf]; [|apply list_elem_of_singleton in Hf as ->].
      - left. apply elem_of_references. by right.
      - right. eapply reference_ok_extends; [reflexivity|apply add_foreign_extends|exact Heqb0]. }
    pose proof (named_ok _ [(name, table)] [] Hput) as Hn. cbn in Hn. rewrite app_nil_r in Hn. apply Hn.
    + intros n t' [= -> ->]%list_elem_of_singleton. apply has_table_get. eexists. apply map_get_set_eq.
    + by intros n t' ?%elem_of_nil.
  - pose proof (named_ok k [(name, table)] [] Hok) as Hn. rewrite app_nil_r in Hn. apply Hn.
    + by intros n t' [= -> ->]%list_elem_of_singleton.
    + by intros n t' ?%elem_of_nil.
  - pose proof (named_ok k [] [(name, table)] Hok) as Hn. rewrite app_nil_r in Hn. apply Hn.
    + by intros n t' ?%elem_of_nil.
    + by intros n t' [= -> ->]%list_elem_of_singleton.
  - by apply set_column_ok; [apply _| |].
  - by apply set_column_ok; [apply _| |].
  - by apply set_column_ok; [apply _| |].
  - by apply rename_ok.
Qed.

(** whatever statements run, and wherever a list of them stops, the catalogue keeps
    its order: the columns of a table and the names of the indexes are distinct, a
    reference points from an existing column to a key of an existing table, and an
    index, a constraint or a trigger belongs to an existing table. *)
Theorem catalogue_stays_ok ds k (Hok : catalogue_ok k) :
  forall k', exec_all ds k = Ok k' -> catalogue_ok k'.
Proof.
  revert k Hok. induction ds as [|d ds IH]; cbn [exec_all]; intros k Hok k' H; [by injection H as <-|].
  destruct (exec d k) as [k1|e] eqn:H1; [|done]. by eapply IH; [eapply exec_ok|].
Qed.

Lemma empty_ok : catalogue_ok empty_catalogue.
Proof.
  split; cbn; try done; try constructor.
  - by intros i ?%elem_of_nil.
  - by intros n t ?%elem_of_nil.
  - by intros n t ?%elem_of_nil.
Qed.
