(* ===== verification/MigrationRunner.v ===== *)
(** * Versioned migrations ([src/src/db/migrationRunner.ts])

    The runner over any kind of data [D]; the table [schema_migrations] is part
    of the state and is absent until [initialize].  The order of versions,
    [String.prototype.localeCompare], is a parameter; for the versions in use,
    digits of one length, it is the order of the numbers. *)

From S2P Require Import Prelude JsStrings.

Record MigrationRecord := { mr_version : string; mr_name : string; mr_type : string; mr_applied_at : Z }.

Section runner.
Context {D : Type}.

Record Migration := {
  version : string; name : string; type : string;
  up : action string D unit; down : option (action string D unit) }.

Record mig_state := { ms_data : D; ms_table : option (list MigrationRecord) }.

Abbreviation mig_action := (action string mig_state).

(** An operation on the data. *)
Definition on_data {A} (m : action string D A) : mig_action A := λ s,
  let '(r, d) := m s.(ms_data) in (r, {| ms_data := d; ms_table := s.(ms_table) |}).

Definition initialize : mig_action unit :=
  modify (λ s, {| ms_data := s.(ms_data); ms_table := Some (default [] s.(ms_table)) |}).

Definition no_table : string := "relation schema_migrations does not exist".

Context (localeCompare : string → string → Z).
Definition version_le (a b : string) : Prop := (localeCompare a b <= 0)%Z.
#[local] Instance version_le_dec a b : Decision (version_le a b).
Proof. unfold version_le. apply _. Defined.
Definition migration_le (a b : Migration) : Prop := version_le a.(version) b.(version).
#[local] Instance migration_le_dec a b : Decision (migration_le a b).
Proof. unfold migration_le. apply _. Defined.
Definition record_le (a b : MigrationRecord) : Prop := version_le a.(mr_version) b.(mr_version).
#[local] Instance record_le_dec a b : Decision (record_le a b).
Proof. unfold record_le. apply _. Defined.

Definition getApplied : mig_action (list MigrationRecord) :=
  s ← get_state;
  match s.(ms_table) with
  | Some rows => mret (merge_sort record_le rows)
  | None => throw no_table
  end.

Definition applied_version (rows : list MigrationRecord) (v : string) : bool := bool_decide (v ∈ map mr_version rows).

Definition getPending (available : list Migration) : mig_action (list Migration) :=
  applied ← getApplied;
  mret (merge_sort migration_le (List.filter (λ m, negb (applied_version applied m.(version))) available)).

Definition record_of (now : Z) (m : Migration) : MigrationRecord :=
  {| mr_version := m.(version); mr_name := m.(name); mr_type := m.(type); mr_applied_at := now |}.

(** [INSERT INTO schema_migrations]; the version is the primary key. *)
Definition insert_record (r : MigrationRecord) : mig_action unit :=
  s ← get_state;
  match s.(ms_table) with
  | None => throw no_table
  | Some rows =>
      if applied_version rows r.(mr_version) then throw "duplicate key value violates unique constraint"
      else modify (λ s, {| ms_data := s.(ms_data); ms_table := Some (rows ++ [r]) |})
  end.

Definition whole (s s' : mig_state) : mig_state := s.

Definition run_one (now : Z) (m : Migration) : mig_action unit :=
  transaction whole (_ ← on_data m.(up); insert_record (record_of now m)).

Definition run (now : Z) (available : list Migration) : mig_action unit :=
  pending ← getPending available;
  for_each (run_one now) pending.

Definition delete_record (v : string) : mig_action unit :=
  s ← get_state;
  match s.(ms_table) with
  | None => throw no_table
  | Some rows => modify (λ s, {| ms_data := s.(ms_data);
                                ms_table := Some (List.filter (λ r, negb (bool_decide (r.(mr_version) = v))) rows) |})
  end.

Definition rollback (v : string) (available : list Migration) : mig_action unit :=
  match List.find (λ m, bool_decide (m.(version) = v)) available with
  | None => throw ("Migration version " +:+ v +:+ " not found in available migrations")
  | Some m =>
      match m.(down) with
      | None => throw ("Rollback is not supported for migration " +:+ m.(version))
      | Some down => transaction whole (_ ← on_data down; delete_record m.(version))
      end
  end.

(** ** Properties *)

Lemma run_one_Ok now m s s' : run_one now m s = (Ok tt, s') ↔
  ∃ d rows, m.(up) s.(ms_data) = (Ok tt, d) ∧ s.(ms_table) = Some rows ∧ (m.(version) ∉ map mr_version rows) ∧
    s' = {| ms_data := d; ms_table := Some (rows ++ [record_of now m]) |}.
Proof using Type.
  unfold run_one. rewrite transaction_Ok. unfold on_data, insert_record, get_state, modify, mbind, action_bind.
  destruct (m.(up) s.(ms_data)) as [[[]|e] d]; cbn; [|split; [discriminate|by intros (? & ? & [= ] & _)]].
  destruct (ms_table s) as [rows|]; [|split; [discriminate|by intros (? & ? & _ & [= ] & _)]]. unfold applied_version.
  destruct (bool_decide_reflect (version m ∈ map mr_version rows)) as [Hin|Hin]; cbn;
    [split; [discriminate|by intros (? & ? & _ & [= <-] & Hn & _); destruct (Hn Hin)]|].
  split; [intros [= <-]; by exists d, rows|]. by intros (? & ? & [= ->] & [= ->] & _ & ->).
Qed.

Lemma run_one_Throw now m s e s' : run_one now m s = (Throw e, s') → s' = s.
Proof. unfold run_one. by intros (s1 & _ & ->)%transaction_Throw. Qed.

(** The migrations that were run, from state to state. *)
Fixpoint ran (now : Z) (ms : list Migration) (s s' : mig_state) : Prop :=
  match ms with
  | [] => s' = s
  | m :: ms => ∃ s1, run_one now m s = (Ok tt, s1) ∧ ran now ms s1 s'
  end.

Lemma for_each_run now ms : ∀ s r s', for_each (run_one now) ms s = (r, s') →
  ∃ before after, ms = before ++ after ∧ ran now before s s' ∧
    match r with
    | Ok _ => after = []
    | Throw e => ∃ m rest, after = m :: rest ∧ run_one now m s' = (Throw e, s')
    end.
Proof.
  induction ms as [|m ms IH]; intros s r s' H; cbn [for_each] in H.
  - injection H as <- <-. by exists [], [].
  - unfold mbind, action_bind in H. destruct (run_one now m s) as [[[]|e] s1] eqn:H1.
    + destruct (IH s1 r s' H) as (before & after & -> & Hran & Hr).
      exists (m :: before), after. split_and!; [done| |done]. by exists s1.
    + injection H as <- <-. pose proof (run_one_Throw _ _ _ _ _ H1) as ->.
      exists [], (m :: ms). split_and!; [done|done|]. by exists m, ms.
Qed.

Lemma ran_table now ms : ∀ s s' rows, s.(ms_table) = Some rows → ran now ms s s' →
  s'.(ms_table) = Some (rows ++ map (record_of now) ms).
Proof.
  induction ms as [|m ms IH]; cbn [ran map]; intros s s' rows Hr H.
  - subst s'. by rewrite app_nil_r.
  - destruct H as (s1 & (d & rows' & _ & Hr' & _ & ->)%run_one_Ok & H). rewrite Hr in Hr'. injection Hr' as <-.
    apply IH with (rows := rows ++ [record_of now m]) in H; [|done]. by rewrite H, <- app_assoc.
Qed.

Lemma getPending_run available s rows : s.(ms_table) = Some rows →
  getPending available s =
    (Ok (merge_sort migration_le (List.filter (λ m, negb (applied_version rows m.(version))) available)), s).
Proof.
  intros Hr. unfold getPending, getApplied, get_state, mbind, action_bind. rewrite Hr. unfold mret, action_ret.
  do 3 f_equal. apply filter_ext. intros m. f_equal. unfold applied_version. apply bool_decide_ext.
  by rewrite (merge_sort_Permutation record_le rows).
Qed.

Lemma elem_of_pending rows available m :
  m ∈ merge_sort migration_le (List.filter (λ m, negb (applied_version rows m.(version))) available) ↔
  m ∈ available ∧ m.(version) ∉ map mr_version rows.
Proof.
  rewrite merge_sort_Permutation, list_elem_of_In, filter_In, <- list_elem_of_In.
  unfold applied_version. by rewrite negb_true_iff, bool_decide_eq_false.
Qed.

Context (Htrans : ∀ a b c, version_le a b → version_le b c → version_le a c).
Context (Htotal : ∀ a b, version_le a b ∨ version_le b a).

#[local] Instance migration_le_total : Total migration_le.
Proof. intros a b. apply Htotal. Qed.
#[local] Instance migration_le_trans : Transitive migration_le.
Proof. intros a b c. apply Htrans. Qed.

(** the runner applies, in the order of their versions, migrations that were not
    applied before, each together with its record; when one fails it stops there,
    the failing one leaves neither change nor record, and those before it stay;
    when it returns, every available migration is recorded, so a second run does
    nothing. *)
Theorem migrations_run_once now available s rows (Htable : s.(ms_table) = Some rows) :
  exists before after,
    StronglySorted migration_le (before ++ after) /\
    (forall m, m ∈ before ++ after <-> m ∈ available /\ m.(version) ∉ map mr_version rows) /\
    ran now before s (run now available s).2 /\
    (run now available s).2.(ms_table) = Some (rows ++ map (record_of now) before) /\
    match (run now available s).1 with
    | Ok _ => after = [] /\ forall now', run now' available (run now available s).2 = (Ok tt, (run now available s).2)
    | Throw e => exists m rest, after = m :: rest /\ run_one now m (run now available s).2 = (Throw e, (run now available s).2)
    end.
Proof.
  destruct (run now available s) as [r s'] eqn:H. cbn [fst snd].
  unfold run, mbind, action_bind in H. rewrite (getPending_run available s rows Htable) in H.
  destruct (for_each_run _ _ _ _ _ H) as (before & after & Hp & Hran & Hr). exists before, after.
  assert (Htab := ran_table _ _ _ _ _ Htable Hran).
  assert (Hmem : ∀ m, m ∈ before ++ after ↔ m ∈ available ∧ m.(version) ∉ map mr_version rows)
    by (intros m; rewrite <- Hp; apply elem_of_pending).
  split_and!; [rewrite <- Hp; by apply StronglySorted_merge_sort; apply _|done|done|done|].
  destruct r as [[]|e]; [|done]. split; [done|]. subst after. rewrite app_nil_r in *. intros now'.
  unfold run, mbind, action_bind. rewrite (getPending_run _ _ _ Htab).
  assert (Hnil : merge_sort migration_le (List.filter (λ m, negb (applied_version (rows ++ map (record_of now) before)
      m.(version))) available) = []).
  { apply elem_of_nil_inv. intros m. rewrite elem_of_pending, map_app, map_map. intros [Ha Hn].
    apply Hn, elem_of_app. destruct (decide (version m ∈ map mr_version rows)) as [?|Hno]; [by left|right].
    apply list_elem_of_In, in_map_iff. exists m. split; [done|]. by apply list_elem_of_In, Hmem. }
  rewrite Hnil. done.
Qed.

(** when the downward step of a migration undoes its upward step, rolling it back
    right after it was applied restores the data and the records. *)
Theorem rollback_undoes_migration now available m s s' down_m
    (Hfind : List.find (fun m' => bool_decide (m'.(version) = m.(version))) available = Some m)
    (Hdown : m.(down) = Some down_m)
    (Hinverse : forall d d', m.(up) d = (Ok tt, d') -> down_m d' = (Ok tt, d))
    (Hrun : run_one now m s = (Ok tt, s')) :
  rollback m.(version) available s' = (Ok tt, s).
Proof.
  apply run_one_Ok in Hrun as (d & rows & Hup & Hrows & Hnew & ->).
  unfold rollback. rewrite Hfind, Hdown. apply transaction_Ok.
  unfold on_data, delete_record, get_state, modify, mbind, action_bind. cbn [ms_data ms_table].
  rewrite (Hinverse _ _ Hup). cbn [ms_data ms_table]. f_equal. destruct s as [sd st]. cbn in *. subst st. do 2 f_equal.
  rewrite List.filter_app. cbn [List.filter record_of mr_version]. rewrite bool_decide_eq_true_2 by done. cbn.
  rewrite app_nil_r. apply filter_all. intros r Hr. apply negb_true_iff, bool_decide_eq_false. intros E.
  apply Hnew. rewrite <- E. apply list_elem_of_In, in_map_iff. exists r. split; [done|]. by apply list_elem_of_In.
Qed.
End runner.

(** ** A run of three migrations *)

(** The order of versions written with digits. *)
Definition version_number (v : string) : Z :=
  foldl (λ n c, 10 * n + Z.of_N (code c - 48))%Z 0%Z (chars v).
Definition numeric_compare (a b : string) : Z := (version_number a - version_number b)%Z.

Definition append_one (x : Z) (d : option (action string (list Z) unit)) (v : string) : Migration :=
  {| version := v; name := "append"; type := "seed"; up := modify (λ l, x :: l); down := d |}.
Definition drop_one : action string (list Z) unit := modify (@tail Z).
Definition failing (v : string) : Migration :=
  {| version := v; name := "fail"; type := "schema"; up := (_ ← modify (cons 0%Z); throw "syntax error"); down := None |}.

Definition sample_migrations : list Migration := [failing "003"; append_one 2 None "002"; append_one 1 (Some drop_one) "001"].
Definition sample_start : mig_state (D := list Z) := {| ms_data := []; ms_table := Some [] |}.

Lemma migrations_run_once_witness :
  (∃ before after, StronglySorted (migration_le numeric_compare) (before ++ after) ∧
     ran 7 before sample_start (run numeric_compare 7 sample_migrations sample_start).2) ∧
  run numeric_compare 7 sample_migrations sample_start =
    (Throw "syntax error", {| ms_data := [2; 1]%Z; ms_table := Some
       [{| mr_version := "001"; mr_name := "append"; mr_type := "seed"; mr_applied_at := 7 |};
        {| mr_version := "002"; mr_name := "append"; mr_type := "seed"; mr_applied_at := 7 |}] |}).
Proof.
  split; [|vm_compute; reflexivity].
  destruct (@migrations_run_once (list Z) numeric_compare) with (now := 7%Z) (available := sample_migrations)
    (s := sample_start) (rows := @nil MigrationRecord) as (before & after & H1 & _ & H2 & _).
  - unfold version_le, numeric_compare. lia.
  - unfold version_le, numeric_compare. lia.
  - reflexivity.
  - exists before, after. split; [exact H1|exact H2].
Defined.

Lemma rollback_undoes_migration_witness :
  let m := append_one 1 (Some drop_one) "001" in
  rollback "001" sample_migrations (run_one 7 m sample_start).2 = (Ok tt, sample_start).
Proof.
  intros m. apply (rollback_undoes_migration 7 sample_migrations m sample_start _ drop_one).
  - reflexivity.
  - reflexivity.
  - intros d d' H. injection H as <-. reflexivity.
  - reflexivity.
Defined.
