(* ===== verification/Calendar.v ===== *)
(** * Dates as ECMAScript computes them

    A time is a number of milliseconds since 1970-01-01T00:00:00Z.  [MakeDay] is
    the arithmetic behind [Date.UTC] and [new Date(y, m, d)]: a month outside
    0..11 carries into the year and a day outside the month into the month.  The
    getters without UTC in their name read the time moved by the offset of the
    process's time zone. *)

From S2P Require Import Prelude JsStrings.
Local Open Scope Z_scope.

Definition msPerDay : Z := 86400000.

(** The day number of the first of January of [y]. *)
Definition DayFromYear (y : Z) : Z := 365 * (y - 1970) + (y - 1969) / 4 - (y - 1901) / 100 + (y - 1601) / 400.

Definition leap (y : Z) : bool := (y mod 4 =? 0) && (negb (y mod 100 =? 0) || (y mod 400 =? 0)).

(** Days before the month [m] of 0..11. *)
Definition MonthStart (l : bool) (m : Z) : Z :=
  let k : Z := if l then 1 else 0 in
  if m <=? 0 then 0 else if m =? 1 then 31 else if m =? 2 then 59 + k else if m =? 3 then 90 + k
  else if m =? 4 then 120 + k else if m =? 5 then 151 + k else if m =? 6 then 181 + k else if m =? 7 then 212 + k
  else if m =? 8 then 243 + k else if m =? 9 then 273 + k else if m =? 10 then 304 + k else if m =? 11 then 334 + k
  else 365 + k.

Definition MakeDay (y m date : Z) : Z :=
  let ym := y + m / 12 in DayFromYear ym + MonthStart (leap ym) (m mod 12) + date - 1.

Definition YearFromDay (d : Z) : Z :=
  let y := 1970 + d * 400 / 146097 in
  if DayFromYear (y + 1) <=? d then y + 1 else if d <? DayFromYear y then y - 1 else y.

Definition DayWithinYear (d : Z) : Z := d - DayFromYear (YearFromDay d).

Definition MonthFromDay (d : Z) : Z :=
  let l := leap (YearFromDay d) in let n := DayWithinYear d in
  if n <? MonthStart l 1 then 0 else if n <? MonthStart l 2 then 1 else if n <? MonthStart l 3 then 2
  else if n <? MonthStart l 4 then 3 else if n <? MonthStart l 5 then 4 else if n <? MonthStart l 6 then 5
  else if n <? MonthStart l 7 then 6 else if n <? MonthStart l 8 then 7 else if n <? MonthStart l 9 then 8
  else if n <? MonthStart l 10 then 9 else if n <? MonthStart l 11 then 10 else 11.

Definition DateFromDay (d : Z) : Z := DayWithinYear d - MonthStart (leap (YearFromDay d)) (MonthFromDay d) + 1.

Definition Day (t : Z) : Z := t / msPerDay.

(** [Date.UTC(y, m, 1)] and the like. *)
Definition DateUTC (y m date : Z) : Z := MakeDay y m date * msPerDay.

Definition getUTCFullYear (t : Z) : Z := YearFromDay (Day t).
Definition getUTCMonth (t : Z) : Z := MonthFromDay (Day t).
Definition getUTCDate (t : Z) : Z := DateFromDay (Day t).

Section local.
(** The offset of the time zone at a time, in milliseconds. *)
Context (offset : Z → Z).
Definition LocalTime (t : Z) : Z := t + offset t.
Definition getFullYear (t : Z) : Z := getUTCFullYear (LocalTime t).
Definition getMonth (t : Z) : Z := getUTCMonth (LocalTime t).
Definition getDate (t : Z) : Z := getUTCDate (LocalTime t).
End local.

(** [String(n).padStart(2, '0')] *)
Definition two_digits (n : Z) : string := pad_start 2 (pretty n).

(** ** Years *)

Lemma DayFromYear_step y : DayFromYear (y + 1) = DayFromYear y + (if leap y then 366 else 365).
Proof.
  unfold DayFromYear, leap.
  destruct (Z.eqb_spec (y mod 4) 0), (Z.eqb_spec (y mod 100) 0), (Z.eqb_spec (y mod 400) 0); cbn [andb orb negb];
    Z.to_euclidean_division_equations; lia.
Qed.

Lemma DayFromYear_lt y : DayFromYear y < DayFromYear (y + 1).
Proof. rewrite DayFromYear_step. destruct (leap y); lia. Qed.

Lemma DayFromYear_mono y z : y <= z → DayFromYear y <= DayFromYear z.
Proof. unfold DayFromYear. Z.to_euclidean_division_equations. lia. Qed.

Lemma DayFromYear_mono_inv y z : DayFromYear y < DayFromYear z → y < z.
Proof. intros H. destruct (Z.lt_ge_cases y z) as [|Hge]; [done|]. pose proof (DayFromYear_mono _ _ Hge). lia. Qed.

Lemma YearFromDay_spec d : DayFromYear (YearFromDay d) <= d < DayFromYear (YearFromDay d + 1).
Proof.
  unfold YearFromDay. set (y := 1970 + d * 400 / 146097).
  assert (Hlow : DayFromYear (y - 1) <= d).
  { subst y. unfold DayFromYear. Z.to_euclidean_division_equations. lia. }
  assert (Hhigh : d < DayFromYear (y + 2)).
  { subst y. unfold DayFromYear. Z.to_euclidean_division_equations. lia. }
  destruct (Z.leb_spec (DayFromYear (y + 1)) d); [replace (y + 1 + 1) with (y + 2) by lia; lia|].
  destruct (Z.ltb_spec d (DayFromYear y)); [|lia]. replace (y - 1 + 1) with y by lia. lia.
Qed.

Lemma YearFromDay_unique d y : DayFromYear y <= d < DayFromYear (y + 1) → YearFromDay d = y.
Proof.
  intros H. pose proof (YearFromDay_spec d) as H'.
  assert (y < YearFromDay d + 1) by (apply DayFromYear_mono_inv; lia).
  assert (YearFromDay d < y + 1) by (apply DayFromYear_mono_inv; lia). lia.
Qed.

Lemma year_length d : 0 <= DayWithinYear d < (if leap (YearFromDay d) then 366 else 365).
Proof.
  unfold DayWithinYear. pose proof (YearFromDay_spec d) as H. rewrite DayFromYear_step in H.
  destruct (leap (YearFromDay d)); lia.
Qed.

(** ** Months *)

(** Cases on a month of 0..11. *)
Ltac each_month m :=
  assert (m = 0 ∨ m = 1 ∨ m = 2 ∨ m = 3 ∨ m = 4 ∨ m = 5 ∨ m = 6 ∨ m = 7 ∨ m = 8 ∨ m = 9 ∨ m = 10 ∨ m = 11)
    as Hmonth by lia;
  repeat destruct Hmonth as [->|Hmonth]; [..|subst m].

(** Evaluate the months that are numbers, in a leap year or not. *)
Ltac months :=
  cbn in *;
  repeat match goal with
  | |- context [MonthStart ?b ?k] => let v := eval vm_compute in (MonthStart b k) in progress change (MonthStart b k) with v
  | H : context [MonthStart ?b ?k] |- _ =>
      let v := eval vm_compute in (MonthStart b k) in progress change (MonthStart b k) with v in H
  end; lia.

Definition days_in_month (l : bool) (m : Z) : Z := MonthStart l (m + 1) - MonthStart l m.

Lemma MonthStart_12 l : MonthStart l 12 = if l then 366 else 365.
Proof. by destruct l. Qed.

Lemma days_in_month_bounds l m : 0 <= m < 12 → 28 <= days_in_month l m <= 31.
Proof. intros Hm. each_month m; destruct l; unfold days_in_month; months. Qed.

Lemma MonthFromDay_spec d (l := leap (YearFromDay d)) : 0 <= MonthFromDay d < 12 ∧
  MonthStart l (MonthFromDay d) <= DayWithinYear d < MonthStart l (MonthFromDay d + 1).
Proof.
  pose proof (year_length d) as Hy. unfold MonthFromDay. fold l in Hy |- *. generalize dependent (DayWithinYear d).
  generalize l. clear l d. intros l n Hn.
  repeat match goal with |- context [?a <? ?b] => destruct (Z.ltb_spec a b) end;
    destruct l; months.
Qed.

Lemma MonthStart_mono l m n : 0 <= m → m < n → n <= 12 → MonthStart l m < MonthStart l n.
Proof.
  intros Hm Hlt Hn. assert (m < 12) by lia. revert n Hlt Hn. each_month m; intros n Hlt Hn;
  (assert (n = 1 ∨ n = 2 ∨ n = 3 ∨ n = 4 ∨ n = 5 ∨ n = 6 ∨ n = 7 ∨ n = 8 ∨ n = 9 ∨ n = 10 ∨ n = 11 ∨ n = 12) as H'
    by lia; repeat destruct H' as [->|H']; try subst n; destruct l; months).
Qed.

Lemma MonthFromDay_unique d m (l := leap (YearFromDay d)) :
  0 <= m < 12 → MonthStart l m <= DayWithinYear d < MonthStart l (m + 1) → MonthFromDay d = m.
Proof.
  intros Hm H. destruct (MonthFromDay_spec d) as [Hm' H']. fold l in H'.
  destruct (Z.lt_trichotomy (MonthFromDay d) m) as [Hlt|[Heq|Hgt]]; [|done|].
  - destruct (decide (MonthFromDay d + 1 = m)) as [E|]; [rewrite E in H'; lia|].
    pose proof (MonthStart_mono l (MonthFromDay d + 1) m ltac:(lia) ltac:(lia) ltac:(lia)). lia.
  - destruct (decide (m + 1 = MonthFromDay d)) as [E|]; [rewrite E in H; lia|].
    pose proof (MonthStart_mono l (m + 1) (MonthFromDay d) ltac:(lia) ltac:(lia) ltac:(lia)). lia.
Qed.

(** ** The day number and the date determine each other *)

Definition valid_date (y m date : Z) : Prop := 0 <= m < 12 ∧ 1 <= date <= days_in_month (leap y) m.

Lemma MakeDay_valid y m date : valid_date y m date →
  YearFromDay (MakeDay y m date) = y ∧ MonthFromDay (MakeDay y m date) = m ∧ DateFromDay (MakeDay y m date) = date.
Proof.
  intros [Hm Hd]. unfold MakeDay. rewrite Z.div_small, Z.mod_small, Z.add_0_r by lia.
  set (d := DayFromYear y + MonthStart (leap y) m + date - 1). unfold days_in_month in Hd.
  assert (H0 : 0 <= MonthStart (leap y) m) by (clear Hd d; each_month m; destruct (leap y); months).
  assert (H1 : MonthStart (leap y) (m + 1) <= if leap y then 366 else 365)
    by (clear Hd d H0; each_month m; destruct (leap y); months).
  assert (Hy : YearFromDay d = y).
  { apply YearFromDay_unique. rewrite DayFromYear_step. destruct (leap y); lia. }
  assert (Hm' : MonthFromDay d = m).
  { apply MonthFromDay_unique; [done|]. unfold DayWithinYear. rewrite Hy. lia. }
  split_and!; [done|done|]. unfold DateFromDay, DayWithinYear. rewrite Hm', Hy. lia.
Qed.

Lemma date_of_day d : MakeDay (YearFromDay d) (MonthFromDay d) (DateFromDay d) = d ∧
  valid_date (YearFromDay d) (MonthFromDay d) (DateFromDay d).
Proof.
  destruct (MonthFromDay_spec d) as [Hm Hn]. split.
  - unfold MakeDay. rewrite Z.div_small, Z.mod_small, Z.add_0_r by lia. unfold DateFromDay, DayWithinYear. lia.
  - split; [done|]. unfold DateFromDay, days_in_month. lia.
Qed.

(** ** Months counted from the year 0 *)

Definition month_first (k : Z) : Z := MakeDay (k / 12) (k mod 12) 1.
Definition month_index (d : Z) : Z := 12 * YearFromDay d + MonthFromDay d.

Lemma MakeDay_month y m date : MakeDay y m date = month_first (12 * y + m) + date - 1.
Proof.
  unfold month_first, MakeDay.
  replace ((12 * y + m) / 12) with (y + m / 12) by (Z.to_euclidean_division_equations; lia).
  replace ((12 * y + m) mod 12) with (m mod 12) by (Z.to_euclidean_division_equations; lia).
  pose proof (Z.mod_pos_bound m 12 ltac:(lia)). rewrite (Z.mod_small (m mod 12)), (Z.div_small (m mod 12)), Z.add_0_r by lia. lia.
Qed.

Lemma month_first_step k : month_first (k + 1) = month_first k + days_in_month (leap (k / 12)) (k mod 12).
Proof.
  unfold month_first, MakeDay. pose proof (Z.mod_pos_bound k 12 ltac:(lia)) as Hm.
  pose proof (Z.mod_pos_bound (k + 1) 12 ltac:(lia)) as Hm1.
  rewrite (Z.div_small (k mod 12)), (Z.div_small ((k + 1) mod 12)), (Z.mod_small (k mod 12)),
    (Z.mod_small ((k + 1) mod 12)), !Z.add_0_r by lia.
  destruct (decide (k mod 12 = 11)) as [E|NE].
  - assert (Hk : (k + 1) / 12 = k / 12 + 1 ∧ (k + 1) mod 12 = 0) by (Z.to_euclidean_division_equations; lia).
    destruct Hk as [-> ->]. rewrite DayFromYear_step, E. unfold days_in_month. destruct (leap (k / 12)), (leap (k / 12 + 1)); months.
  - assert (Hk : (k + 1) / 12 = k / 12 ∧ (k + 1) mod 12 = k mod 12 + 1) by (Z.to_euclidean_division_equations; lia).
    destruct Hk as [-> ->]. unfold days_in_month. lia.
Qed.

Lemma month_first_lt k : month_first k < month_first (k + 1).
Proof.
  rewrite month_first_step. pose proof (days_in_month_bounds (leap (k / 12)) (k mod 12)
    (Z.mod_pos_bound k 12 ltac:(lia))). lia.
Qed.

Lemma month_first_mono j k : j <= k → month_first j <= month_first k.
Proof.
  intros H. replace k with (j + Z.of_nat (Z.to_nat (k - j))) by lia. generalize (Z.to_nat (k - j)). clear H k.
  intros n. induction n as [|n IH]; [rewrite Z.add_0_r; lia|].
  pose proof (month_first_lt (j + Z.of_nat n)). replace (j + Z.of_nat (S n)) with (j + Z.of_nat n + 1) by lia. lia.
Qed.

Lemma month_first_mono_lt j k : month_first j < month_first k → j < k.
Proof. intros H. destruct (Z.lt_ge_cases j k) as [|Hge]; [done|]. pose proof (month_first_mono _ _ Hge). lia. Qed.

Lemma month_index_spec d : month_first (month_index d) <= d < month_first (month_index d + 1).
Proof.
  unfold month_index. destruct (date_of_day d) as [Hd [Hm Hdate]]. rewrite month_first_step.
  rewrite MakeDay_month in Hd.
  replace ((12 * YearFromDay d + MonthFromDay d) / 12) with (YearFromDay d) by (Z.to_euclidean_division_equations; lia).
  replace ((12 * YearFromDay d + MonthFromDay d) mod 12) with (MonthFromDay d)
    by (Z.to_euclidean_division_equations; lia). lia.
Qed.

Lemma month_index_unique d k : month_first k <= d < month_first (k + 1) → month_index d = k.
Proof.
  intros H. pose proof (month_index_spec d). assert (k < month_index d + 1) by (apply month_first_mono_lt; lia).
  assert (month_index d < k + 1) by (apply month_first_mono_lt; lia). lia.
Qed.

Lemma month_index_first k : month_index (month_first k) = k.
Proof. apply month_index_unique. pose proof (month_first_lt k). lia. Qed.

Lemma month_index_year_month k : YearFromDay (month_first k) = k / 12 ∧ MonthFromDay (month_first k) = k mod 12.
Proof.
  pose proof (month_index_first k) as H. unfold month_index in H. destruct (MonthFromDay_spec (month_first k)) as [Hm _].
  rewrite <- H at 2 4. split; Z.to_euclidean_division_equations; lia.
Qed.

Lemma month_index_mono d d' : d <= d' → month_index d <= month_index d'.
Proof.
  intros H. pose proof (month_index_spec d). pose proof (month_index_spec d').
  assert (month_index d < month_index d' + 1) by (apply month_first_mono_lt; lia). lia.
Qed.

Lemma month_index_before k : month_index (month_first (k + 1) - 1) = k.
Proof. apply month_index_unique. pose proof (month_first_lt k). lia. Qed.
