(* ===== verification/Partitions.v ===== *)
(** * Monthly partitions of the audit trail ([src/src/services/PartitionManager.ts])

    Naming, ranges, retention, the conversion of the plain table and the monthly
    job.  The offset of the process's time zone is an argument: the class reads
    dates with the local getters but builds ranges with [Date.UTC].  A partition
    is a name, a range and its rows; PostgreSQL refuses overlapping ranges and
    rows without a partition; its ranges and the times of the rows are local
    times without a zone. *)

From S2P Require Import Prelude JsStrings JsNumbers OrderBy Pagination Calendar.
Local Open Scope Z_scope.

Record PartitionInfo := { pi_name : string; pi_startDate : Z; pi_endDate : Z }.

Section names.
Context (offset : Z → Z).

Definition getPartitionName (date : Z) : string :=
  "audit_trail_y" +:+ pretty (getFullYear offset date) +:+ "m" +:+ two_digits (getMonth offset date + 1).

Definition getPartitionDateRange (date : Z) : Z * Z :=
  (DateUTC (getFullYear offset date) (getMonth offset date) 1, DateUTC (getFullYear offset date) (getMonth offset date + 1) 1).

(** [retentionMonths]: none stands for NaN, which makes the cutoff an invalid date. *)
Definition cutoff_date (retentionMonths : option Z) (referenceDate : Z) : option Z :=
  n ← retentionMonths; Some (DateUTC (getFullYear offset referenceDate) (getMonth offset referenceDate - n) 1).

Definition getPartitionsToDropByRetention (partitions : list PartitionInfo) (retentionMonths : option Z)
    (referenceDate : Z) : list PartitionInfo :=
  List.filter (λ p, match cutoff_date retentionMonths referenceDate with
                    | Some cutoffDate => p.(pi_endDate) <=? cutoffDate | None => false end) partitions.
End names.

(** The default of [retentionMonths]. *)
Definition retention_months (env : option string) : option Z :=
  match parseInt_10 (match env with Some v => if bool_decide (v = "") then "24" else v | None => "24" end) with
  | NaN => None | n => Some (integer_value n) end.

(** [/^audit_trail_y(\d{4})m(\d{2})$/] *)
Definition parsePartitionName (name : string) : option Z :=
  if starts_with name "audit_trail_y" then
    match drop 13 (chars name) with
    | [a; b; c; d; m; e; f] =>
        if bool_decide (m = "m"%char) && forallb is_digit [a; b; c; d; e; f]
        then Some (DateUTC (Z.of_N (decimal_value (of_chars [a; b; c; d])))
                           (Z.of_N (decimal_value (of_chars [e; f])) - 1) 1)
        else None
    | _ => None
    end
  else None.

(** ** The table *)

Record entry := {
  en_id : string; en_user : string; en_action : string; en_module : string; en_details : option string;
  en_hash : option string; en_previous : option string; en_seq : option Z; en_time : Z }.

Record partition := { pt_name : string; pt_from : Z; pt_to : Z; pt_rows : list entry }.

Inductive trail : Type :=
  | Plain (rows : list entry)
  | Partitioned (parts : list partition).

Record trail_state := {
  tr_external : bool; tr_audit : trail; tr_staging : option (list partition); tr_old : option (list entry) }.

Abbreviation trail_action := (action string trail_state).

Definition with_audit (t : trail) (s : trail_state) : trail_state :=
  {| tr_external := s.(tr_external); tr_audit := t; tr_staging := s.(tr_staging); tr_old := s.(tr_old) |}.
Definition with_staging (l : option (list partition)) (s : trail_state) : trail_state :=
  {| tr_external := s.(tr_external); tr_audit := s.(tr_audit); tr_staging := l; tr_old := s.(tr_old) |}.

Definition overlaps (from to : Z) (p : partition) : bool := (from <? p.(pt_to)) && (p.(pt_from) <? to).

(** [CREATE TABLE IF NOT EXISTS name PARTITION OF ...] *)
Definition add_partition (name : string) (from to : Z) (ps : list partition) : outcome string (list partition) :=
  if bool_decide (name ∈ map pt_name ps) then Ok ps
  else if to <=? from then Throw "empty range bound specified for partition"
  else if existsb (overlaps from to) ps then Throw ("partition would overlap: " +:+ name)
  else Ok (ps ++ [{| pt_name := name; pt_from := from; pt_to := to; pt_rows := [] |}]).

Definition holds (p : partition) (t : Z) : bool := (p.(pt_from) <=? t) && (t <? p.(pt_to)).

Fixpoint insert_row (e : entry) (ps : list partition) : outcome string (list partition) :=
  match ps with
  | [] => Throw "no partition of relation found for row"
  | p :: ps =>
      if holds p e.(en_time)
      then Ok ({| pt_name := p.(pt_name); pt_from := p.(pt_from); pt_to := p.(pt_to); pt_rows := p.(pt_rows) ++ [e] |} :: ps)
      else match insert_row e ps with Ok ps => Ok (p :: ps) | Throw err => Throw err end
  end.

Fixpoint insert_rows (es : list entry) (ps : list partition) : outcome string (list partition) :=
  match es with
  | [] => Ok ps
  | e :: es => match insert_row e ps with Ok ps => insert_rows es ps | Throw err => Throw err end
  end.

Definition on_staging (f : list partition → outcome string (list partition)) : trail_action unit :=
  s ← get_state;
  match s.(tr_staging) with
  | None => throw "relation audit_trail_partitioned does not exist"
  | Some ps => match f ps with Ok ps => modify (with_staging (Some ps)) | Throw e => throw e end
  end.

Section manager.
Context (offset : Z → Z) (autoCreateFuture : nat).

Definition stage_partition (partDate : Z) : trail_action unit :=
  let '(startDate, endDate) := getPartitionDateRange offset partDate in
  on_staging (add_partition (getPartitionName offset partDate) startDate endDate).

(** The months [now + i] for [i] of -1..autoCreateFuture. *)
Definition month_dates (now : Z) (first : Z) (count : nat) : list Z :=
  map (λ i, DateUTC (getFullYear offset now) (getMonth offset now + first + Z.of_nat i) 1) (seq 0 count).

(** The loop over the months of old rows; none is out of fuel. *)
Fixpoint iter_dates (fuel : nat) (iterDate currentDate : Z) : option (list Z) :=
  if iterDate <? currentDate then
    match fuel with
    | O => None
    | S fuel =>
        rest ← iter_dates fuel (DateUTC (getFullYear offset iterDate) (getMonth offset iterDate + 1) 1) currentDate;
        Some (iterDate :: rest)
    end
  else Some [].

Definition oldest (rows : list entry) : option Z :=
  match rows with [] => None | e :: rows => Some (foldr (λ e t, Z.min e.(en_time) t) e.(en_time) rows) end.

(** The driver reads a TIMESTAMP as a local time, so the local getters give back
    the fields of the column. *)
Definition old_months (fuel : nat) (now : Z) (rows : list entry) : option (list Z) :=
  match oldest rows with
  | None => Some []
  | Some oldestDate =>
      iter_dates fuel (DateUTC (getUTCFullYear oldestDate) (getUTCMonth oldestDate) 1)
        (DateUTC (getFullYear offset now) (getMonth offset now - 1) 1)
  end.

Definition createPartition (startDate endDate : Z) : trail_action unit :=
  s ← get_state;
  if negb s.(tr_external) then mret tt
  else match s.(tr_audit) with
  | Plain _ => throw "audit_trail is not partitioned"
  | Partitioned ps =>
      match add_partition (getPartitionName offset startDate) startDate endDate ps with
      | Ok ps => modify (with_audit (Partitioned ps))
      | Throw e => throw e
      end
  end.

Definition ensure_partition (partDate : Z) : trail_action unit :=
  let '(startDate, endDate) := getPartitionDateRange offset partDate in createPartition startDate endDate.

Definition ensureFuturePartitions (now : Z) : trail_action unit :=
  for_each ensure_partition (month_dates now 0 (S autoCreateFuture)).

(** The conversion; [keep] is what the copying statement selects of a row, and
    [months] the result of the loop over old months. *)
Definition convert (keep : entry → entry) (now : Z) (months : list Z) : trail_action unit :=
  s ← get_state;
  match s.(tr_audit) with
  | Partitioned _ => mret tt
  | Plain rows =>
      _ ← modify (λ s, with_staging (Some (default [] s.(tr_staging))) s);
      _ ← for_each stage_partition (month_dates now (-1) (autoCreateFuture + 2));
      _ ← match rows with
          | [] => mret tt
          | _ => _ ← for_each stage_partition months; on_staging (insert_rows (map keep rows))
          end;
      s ← get_state;
      if bool_decide (is_Some s.(tr_old)) then throw "relation audit_trail_old already exists"
      else modify (λ s, {| tr_external := s.(tr_external); tr_audit := Partitioned (default [] s.(tr_staging));
                           tr_staging := None; tr_old := Some rows |})
  end.

(** [initialize]; none is a loop that does not end within the fuel. *)
Definition initialize (fuel : nat) (now : Z) (s : trail_state) : option (outcome string unit * trail_state) :=
  if negb s.(tr_external) then Some (Ok tt, s)
  else match s.(tr_audit) with
  | Partitioned _ => Some (ensureFuturePartitions now s)
  | Plain rows => months ← old_months fuel now rows; Some (convert (λ e, e) now months s)
  end.

(** [listPartitions]: the ranges are computed from the names. *)
Definition listPartitions (s : trail_state) : list PartitionInfo :=
  match s.(tr_external), s.(tr_audit) with
  | true, Partitioned ps =>
      omap (λ p, date ← parsePartitionName p.(pt_name);
                 let '(startDate, endDate) := getPartitionDateRange offset date in
                 Some {| pi_name := p.(pt_name); pi_startDate := startDate; pi_endDate := endDate |}) ps
  | _, _ => []
  end.

(** [dropOldPartitions]; a [DROP TABLE] that fails is skipped. *)
Definition dropOldPartitions (retention : option Z) (now : Z) (drops : string → bool) : trail_action (list string) :=
  s ← get_state;
  if negb s.(tr_external) then mret []
  else
    let toDrop := getPartitionsToDropByRetention offset (listPartitions s) retention now in
    let dropped := List.filter drops (map pi_name toDrop) in
    _ ← modify (λ s, match s.(tr_audit) with
                     | Partitioned ps => with_audit (Partitioned (List.filter (λ p, negb (bool_decide (p.(pt_name) ∈ dropped))) ps)) s
                     | Plain _ => s end);
    mret dropped.

(** The monthly job; an error is logged. *)
Definition maintenance (retention : option Z) (now : Z) (drops : string → bool) : trail_action unit :=
  try_catch (_ ← ensureFuturePartitions now; _ ← dropOldPartitions retention now drops; mret tt) (λ _, mret tt).
End manager.

(** ** Names *)

Definition first_ms (k : Z) : Z := month_first k * msPerDay.
Definition name_of (k : Z) : string := "audit_trail_y" +:+ pretty (k / 12) +:+ "m" +:+ two_digits (k mod 12 + 1).

(** Years with four digits. *)
Definition printable (k : Z) : Prop := 1000 <= k / 12 <= 9999.

Lemma DateUTC_month y m : DateUTC y m 1 = first_ms (12 * y + m).
Proof. unfold DateUTC, first_ms. rewrite MakeDay_month. f_equal. lia. Qed.

Lemma first_ms_mono j k : j <= k → first_ms j <= first_ms k.
Proof. intros H%month_first_mono. unfold first_ms, msPerDay. lia. Qed.
Lemma first_ms_lt k : first_ms k < first_ms (k + 1).
Proof. pose proof (month_first_lt k). unfold first_ms, msPerDay. lia. Qed.
Lemma first_ms_lt_inv j k : first_ms j < first_ms k → j < k.
Proof. unfold first_ms, msPerDay. intros H. apply month_first_mono_lt. lia. Qed.
Lemma first_ms_inj j k : first_ms j = first_ms k → j = k.
Proof.
  intros H. destruct (Z.lt_trichotomy j k) as [Hlt|[|Hlt]]; [|done|].
  - pose proof (first_ms_lt j). pose proof (first_ms_mono (j + 1) k ltac:(lia)). lia.
  - pose proof (first_ms_lt k). pose proof (first_ms_mono (k + 1) j ltac:(lia)). lia.
Qed.

(** A year prints as four digits, a month as two. *)
Definition four_digits (y : Z) : bool :=
  match chars (pretty y) with
  | [a; b; c; d] => forallb is_digit [a; b; c; d] && (Z.of_N (decimal_value (of_chars [a; b; c; d])) =? y)
  | _ => false
  end.
Definition month_digits (m : Z) : bool :=
  match chars (two_digits m) with
  | [e; f] => forallb is_digit [e; f] && (Z.of_N (decimal_value (of_chars [e; f])) =? m)
  | _ => false
  end.

Lemma all_years : forallb four_digits (map (λ i, 1000 + Z.of_nat i) (seq 0 (Z.to_nat 9000))) = true.
Proof. vm_compute. reflexivity. Qed.
Lemma all_months : forallb month_digits (map (λ i, 1 + Z.of_nat i) (seq 0 (Z.to_nat 12))) = true.
Proof. vm_compute. reflexivity. Qed.

Lemma in_range (p : Z → bool) lo n x : forallb p (map (λ i, lo + Z.of_nat i) (seq 0 (Z.to_nat n))) = true →
  lo <= x < lo + n → p x = true.
Proof.
  intros H Hx. rewrite forallb_forall in H. apply H, in_map_iff. exists (Z.to_nat (x - lo)).
  split; [lia|]. apply in_seq. lia.
Qed.

Lemma parse_name_of k : printable k → parsePartitionName (name_of k) = Some (first_ms k).
Proof.
  intros Hk. unfold name_of. pose proof (Z.mod_pos_bound k 12 ltac:(lia)) as Hm.
  pose proof (in_range four_digits 1000 9000 (k / 12) all_years ltac:(unfold printable in Hk; lia)) as Hy.
  pose proof (in_range month_digits 1 12 (k mod 12 + 1) all_months ltac:(lia)) as Hmd.
  unfold four_digits in Hy. destruct (chars (pretty (k / 12))) as [|a [|b [|c [|d [|? ?]]]]] eqn:Ey; try discriminate Hy.
  unfold month_digits in Hmd. destruct (chars (two_digits (k mod 12 + 1))) as [|e [|f [|? ?]]] eqn:Em; try discriminate Hmd.
  apply andb_true_iff in Hy as [Hyd Hyv%Z.eqb_eq]. apply andb_true_iff in Hmd as [Hmd Hmv%Z.eqb_eq].
  unfold parsePartitionName.
  assert (Hs : starts_with ("audit_trail_y" +:+ pretty (k / 12) +:+ "m" +:+ two_digits (k mod 12 + 1)) "audit_trail_y" = true)
    by (apply starts_with_spec; by eexists).
  rewrite Hs, !chars_app, Ey, Em. cbn [app drop chars String.list_ascii_of_string].
  rewrite bool_decide_eq_true_2 by done. cbn [andb].
  assert (Hall : forallb is_digit [a; b; c; d; e; f] = true).
  { change [a; b; c; d; e; f] with ([a; b; c; d] ++ [e; f]). rewrite forallb_app. by rewrite Hyd, Hmd. }
  rewrite Hall, Hyv, Hmv, DateUTC_month. do 2 f_equal.
  pose proof (Z.div_mod k 12 ltac:(lia)). lia.
Qed.

Lemma name_of_inj j k : printable j → printable k → name_of j = name_of k → j = k.
Proof.
  intros Hj Hk H. apply (f_equal parsePartitionName) in H.
  rewrite !parse_name_of in H by done. apply first_ms_inj. congruence.
Qed.

(** ** A time zone at or east of Greenwich *)

Section east.
Context (offset : Z → Z) (East : ∀ t, 0 <= offset t < msPerDay).

Lemma local_day k : Day (LocalTime offset (first_ms k)) = month_first k.
Proof.
  unfold Day, LocalTime, first_ms. pose proof (East (month_first k * msPerDay)).
  rewrite Z.add_comm, Z.div_add by (unfold msPerDay; lia). rewrite Z.div_small by done. lia.
Qed.

Lemma local_fields k : getFullYear offset (first_ms k) = k / 12 ∧ getMonth offset (first_ms k) = k mod 12.
Proof.
  unfold getFullYear, getMonth, getUTCFullYear, getUTCMonth. rewrite local_day. apply month_index_year_month.
Qed.

Lemma name_of_month k : getPartitionName offset (first_ms k) = name_of k.
Proof. unfold getPartitionName, name_of. by destruct (local_fields k) as [-> ->]. Qed.

Lemma range_of_month k : getPartitionDateRange offset (first_ms k) = (first_ms k, first_ms (k + 1)).
Proof.
  unfold getPartitionDateRange. destruct (local_fields k) as [-> ->]. rewrite !DateUTC_month.
  pose proof (Z.div_mod k 12 ltac:(lia)). f_equal; f_equal; lia.
Qed.

Lemma next_month k : DateUTC (getFullYear offset (first_ms k)) (getMonth offset (first_ms k) + 1) 1 = first_ms (k + 1).
Proof. pose proof (range_of_month k) as H. unfold getPartitionDateRange in H. by injection H. Qed.

(** The month of a local time. *)
Definition local_month (now : Z) : Z := 12 * getFullYear offset now + getMonth offset now.

Lemma month_dates_spec now first count :
  month_dates offset now first count = map (λ i, first_ms (local_month now + first + Z.of_nat i)) (seq 0 count).
Proof. unfold month_dates. apply map_ext. intros i. rewrite DateUTC_month. unfold local_month. f_equal. lia. Qed.

(** The months [j .. j + n - 1]. *)
Definition months_from (j : Z) (n : nat) : list Z := map (λ i, j + Z.of_nat i) (seq 0 n).

Lemma months_from_S j n : months_from j (S n) = j :: months_from (j + 1) n.
Proof.
  unfold months_from. cbn [seq map]. rewrite <- seq_shift, map_map. f_equal; [lia|]. apply map_ext. intros i. lia.
Qed.

Lemma elem_of_months_from k j n : k ∈ months_from j n ↔ j <= k < j + Z.of_nat n.
Proof.
  unfold months_from. rewrite list_elem_of_In, in_map_iff. split.
  - intros (i & <- & Hi%in_seq). lia.
  - intros H. exists (Z.to_nat (k - j)). split; [lia|]. apply in_seq. lia.
Qed.

Lemma iter_dates_ends fuel j k : (Z.to_nat (k - j) <= fuel)%nat →
  iter_dates offset fuel (first_ms j) (first_ms k) = Some (map first_ms (months_from j (Z.to_nat (k - j)))).
Proof.
  revert j. induction fuel as [|fuel IH]; intros j Hf; cbn [iter_dates];
    destruct (Z.ltb_spec (first_ms j) (first_ms k)) as [Hlt|Hge].
  - apply first_ms_lt_inv in Hlt. lia.
  - assert (k <= j) by (destruct (Z.le_gt_cases k j) as [|Hgt]; [done|]; pose proof (first_ms_mono (j + 1) k ltac:(lia));
      pose proof (first_ms_lt j); lia).
    replace (Z.to_nat (k - j)) with 0%nat by lia. done.
  - apply first_ms_lt_inv in Hlt. rewrite next_month, IH by lia. cbn [mbind option_bind].
    replace (Z.to_nat (k - j)) with (S (Z.to_nat (k - (j + 1)))) by lia. by rewrite months_from_S.
  - assert (k <= j) by (destruct (Z.le_gt_cases k j) as [|Hgt]; [done|]; pose proof (first_ms_mono (j + 1) k ltac:(lia));
      pose proof (first_ms_lt j); lia).
    replace (Z.to_nat (k - j)) with 0%nat by lia. done.
Qed.

(** ** Tables of monthly partitions *)

Definition monthly (p : partition) (k : Z) : Prop :=
  printable k ∧ p.(pt_name) = name_of k ∧ p.(pt_from) = first_ms k ∧ p.(pt_to) = first_ms (k + 1).

(** Every partition is a month, no month occurs twice, and the rows lie in their month. *)
Record monthly_table (ps : list partition) : Prop := {
  mt_months : Forall (λ p, ∃ k, monthly p k) ps;
  mt_names : NoDup (map pt_name ps);
  mt_rows : Forall (λ p, Forall (λ e, holds p e.(en_time) = true) p.(pt_rows)) ps }.

Definition has_month (ps : list partition) (k : Z) : Prop := ∃ p, p ∈ ps ∧ monthly p k.

Lemma monthly_unique p j k : monthly p j → monthly p k → j = k.
Proof. intros (_ & _ & Hj & _) (_ & _ & Hk & _). apply first_ms_inj. congruence. Qed.

Lemma months_overlap p j k : monthly p j → overlaps (first_ms k) (first_ms (k + 1)) p = true → j = k.
Proof.
  intros (_ & _ & Hf & Ht). unfold overlaps. rewrite Hf, Ht. intros [H1%Z.ltb_lt H2%Z.ltb_lt]%andb_true_iff.
  apply first_ms_lt_inv in H1, H2. lia.
Qed.

Lemma add_month ps k : monthly_table ps → printable k →
  ∃ ps', add_partition (name_of k) (first_ms k) (first_ms (k + 1)) ps = Ok ps' ∧ monthly_table ps' ∧
    (∀ j, has_month ps' j ↔ j = k ∨ has_month ps j) ∧ concat (map pt_rows ps') = concat (map pt_rows ps).
Proof.
  intros [H1 H2 H3] Hk. rewrite Forall_forall in H1. unfold add_partition.
  destruct (bool_decide_reflect (name_of k ∈ map pt_name ps)) as [Hin|Hin].
  - exists ps. split_and!; [done|split; [by apply Forall_forall|done|done]| |done].
    apply list_elem_of_In, in_map_iff in Hin as (p & Hp & Hin%list_elem_of_In).
    destruct (H1 p Hin) as (j & Hj). assert (j = k) as ->.
    { destruct Hj as (Hpr & Hn & _). apply name_of_inj; congruence. }
    intros j'. split; [by right|]. intros [->|]; [by exists p|done].
  - rewrite (proj2 (Z.leb_gt _ _)) by apply first_ms_lt.
    set (q := {| pt_name := name_of k; pt_from := first_ms k; pt_to := first_ms (k + 1); pt_rows := [] |}).
    assert (Hq : monthly q k) by by split_and!.
    destruct (existsb (overlaps (first_ms k) (first_ms (k + 1))) ps) eqn:Ho.
    { apply existsb_exists in Ho as (p & Hp%list_elem_of_In & Ho). destruct (H1 p Hp) as (j & Hj).
      pose proof (months_overlap _ _ _ Hj Ho) as ->. destruct Hin. destruct Hj as (_ & <- & _).
      apply list_elem_of_In, in_map_iff. exists p. split; [done|]. by apply list_elem_of_In. }
    exists (ps ++ [q]). split_and!; [done| | |].
    + split.
      * apply Forall_app. split; [by apply Forall_forall|]. constructor; [by exists k|constructor].
      * rewrite map_app. apply NoDup_app. split_and!; [done| |apply NoDup_singleton].
        intros x Hx Hx'. apply list_elem_of_singleton in Hx' as ->. done.
      * apply Forall_app. split; [done|]. repeat constructor.
    + intros j. split.
      * intros (p & [Hp|Hp]%elem_of_app & Hj); [right; by exists p|]. apply list_elem_of_singleton in Hp as ->.
        left. by eapply monthly_unique.
      * intros [->|(p & Hp & Hj)]; [exists q|exists p]; (split; [set_solver|done]).
    + rewrite map_app, concat_app. cbn. by rewrite !app_nil_r.
Qed.

Lemma has_month_holds ps t : monthly_table ps → (∃ p, p ∈ ps ∧ holds p t = true) ↔ has_month ps (month_index (Day t)).
Proof.
  intros [H1 _ _]. rewrite Forall_forall in H1. unfold Day, holds.
  assert (Hrange : ∀ k, (first_ms k <=? t) && (t <? first_ms (k + 1)) = true ↔ month_index (t / msPerDay) = k).
  { intros k. rewrite andb_true_iff, Z.leb_le, Z.ltb_lt. unfold first_ms. split.
    - intros [Ha Hb]. apply month_index_unique. split; [apply Z.div_le_lower_bound|apply Z.div_lt_upper_bound];
        unfold msPerDay in *; lia.
    - intros <-. pose proof (month_index_spec (t / msPerDay)) as Hs.
      pose proof (Z.div_mod t msPerDay ltac:(done)). pose proof (Z.mod_pos_bound t msPerDay ltac:(done)).
      unfold msPerDay in *. nia. }
  split.
  - intros (p & Hp & Ht). destruct (H1 p Hp) as (k & Hk). pose proof Hk as (_ & _ & Hf & Hto).
    rewrite Hf, Hto in Ht. apply Hrange in Ht as ->. by exists p.
  - intros (p & Hp & Hk). exists p. split; [done|]. destruct Hk as (_ & _ & -> & ->). by apply Hrange.
Qed.

Lemma insert_row_spec e ps : Forall (λ p, Forall (λ e, holds p e.(en_time) = true) p.(pt_rows)) ps →
  (∃ p, p ∈ ps ∧ holds p e.(en_time) = true) →
  ∃ ps', insert_row e ps = Ok ps' ∧ map (λ p, (p.(pt_name), p.(pt_from), p.(pt_to))) ps' = map (λ p, (p.(pt_name), p.(pt_from), p.(pt_to))) ps ∧
    Forall (λ p, Forall (λ e, holds p e.(en_time) = true) p.(pt_rows)) ps' ∧
    concat (map pt_rows ps') ≡ₚ e :: concat (map pt_rows ps).
Proof.
  induction ps as [|p ps IH]; intros HF (q & Hq & Hh); [by apply elem_of_nil in Hq|].
  apply Forall_cons_1 in HF as [Hp HF]. cbn [insert_row]. destruct (holds p (en_time e)) eqn:Hhp.
  - eexists. split_and!; [done|done| |].
    + constructor; [|done]. cbn [pt_rows]. apply Forall_app. split; [exact Hp|]. by repeat constructor.
    + cbn. rewrite <- app_assoc. cbn. by rewrite <- Permutation_middle.
  - destruct IH as (ps' & -> & Hm & HF' & Hc); [done| |].
    { apply elem_of_cons in Hq as [->|Hq]; [congruence|]. by exists q. }
    eexists. split_and!; [done|cbn; by rewrite Hm|by constructor|]. cbn. rewrite Hc. by rewrite Permutation_middle.
Qed.
Definition shape (p : partition) : string * Z * Z := (p.(pt_name), p.(pt_from), p.(pt_to)).

Lemma shape_monthly p q k : shape p = shape q → monthly p k → monthly q k.
Proof. unfold shape, monthly. intros [= -> -> ->]. done. Qed.

Lemma shape_has_month ps ps' k : map shape ps' = map shape ps → has_month ps k → has_month ps' k.
Proof.
  intros H (p & Hp & Hk). assert (Hin : shape p ∈ map shape ps') by (rewrite H; by apply list_elem_of_fmap_2).
  apply list_elem_of_fmap in Hin as (q & Hq & Hin). exists q. split; [done|]. by eapply shape_monthly.
Qed.

Lemma shape_table ps ps' : map shape ps' = map shape ps → monthly_table ps →
  Forall (λ p, Forall (λ e, holds p e.(en_time) = true) p.(pt_rows)) ps' → monthly_table ps'.
Proof.
  intros H [H1 H2 _] H3. split; [| |done].
  - apply Forall_forall. intros q Hq. assert (Hin : shape q ∈ map shape ps) by (rewrite <- H; by apply list_elem_of_fmap_2).
    apply list_elem_of_fmap in Hin as (p & Hp & Hin). rewrite Forall_forall in H1. destruct (H1 p Hin) as (k & Hk).
    exists k. by eapply shape_monthly.
  - assert (Hn : ∀ l : list partition, map pt_name l = map (λ x : string * Z * Z, x.1.1) (map shape l))
      by (intros l; rewrite map_map; done).
    rewrite Hn, H, <- Hn. done.
Qed.

Lemma insert_rows_spec es : ∀ ps, monthly_table ps → Forall (λ e, has_month ps (month_index (Day e.(en_time)))) es →
  ∃ ps', insert_rows es ps = Ok ps' ∧ monthly_table ps' ∧ (∀ k, has_month ps k → has_month ps' k) ∧
    concat (map pt_rows ps') ≡ₚ es ++ concat (map pt_rows ps).
Proof.
  induction es as [|e es IH]; cbn [insert_rows]; intros ps Hps Hes; [by exists ps|].
  apply Forall_cons_1 in Hes as [He Hes].
  destruct (insert_row_spec e ps) as (ps1 & -> & Hm & HF & Hc); [apply Hps|by apply has_month_holds|].
  assert (Hps1 : monthly_table ps1) by by eapply shape_table.
  destruct (IH ps1 Hps1) as (ps' & -> & Hps' & Hmon & Hc').
  { eapply Forall_impl; [exact Hes|]. intros e'. by apply shape_has_month. }
  exists ps'. split_and!; [done|done| |].
  - intros k Hk. apply Hmon. by eapply shape_has_month.
  - rewrite Hc', Hc. cbn. by rewrite Permutation_middle.
Qed.

Lemma stage_all ks : ∀ s ps, s.(tr_staging) = Some ps → monthly_table ps → Forall printable ks →
  ∃ ps', for_each (stage_partition offset) (map first_ms ks) s = (Ok tt, with_staging (Some ps') s) ∧
    monthly_table ps' ∧ (∀ j, has_month ps' j ↔ j ∈ ks ∨ has_month ps j) ∧
    concat (map pt_rows ps') = concat (map pt_rows ps).
Proof.
  induction ks as [|k ks IH]; intros s ps Hs Hps Hks.
  - exists ps. split_and!; [|done|set_solver|done]. destruct s; cbn in *; by subst.
  - apply Forall_cons_1 in Hks as [Hk Hks]. cbn [map for_each].
    destruct (add_month ps k Hps Hk) as (ps1 & Hadd & Hps1 & Hm1 & Hc1).
    assert (Hstep : stage_partition offset (first_ms k) s = (Ok tt, with_staging (Some ps1) s)).
    { unfold stage_partition, on_staging. rewrite range_of_month, name_of_month.
      unfold get_state, mbind, action_bind. by rewrite Hs, Hadd. }
    unfold mbind, action_bind. rewrite Hstep.
    destruct (IH (with_staging (Some ps1) s) ps1 eq_refl Hps1 Hks) as (ps' & -> & Hps' & Hm & Hc).
    exists ps'. split_and!; [done|done| |congruence]. intros j. rewrite Hm, Hm1. set_solver.
Qed.
(** The month of a row. *)
Definition row_month (e : entry) : Z := month_index (Day e.(en_time)).

Lemma oldest_spec rows : match oldest rows with
  | None => rows = []
  | Some t => (∃ e, e ∈ rows ∧ e.(en_time) = t) ∧ ∀ e, e ∈ rows → t <= e.(en_time)
  end.
Proof.
  destruct rows as [|e rows]; [done|]. cbn [oldest]. induction rows as [|e' rows IH]; cbn [foldr].
  - split; [exists e; split; [left|done]|]. intros e' [->|?%elem_of_nil]%elem_of_cons; [lia|done].
  - destruct IH as [(e0 & H0 & Ht) Hall]. split.
    + destruct (Z.min_spec (en_time e') (foldr (λ e t, Z.min (en_time e) t) (en_time e) rows)) as [[_ ->]|[_ ->]].
      * exists e'. split; [right; left|done].
      * exists e0. split; [|done]. apply elem_of_cons in H0 as [->|H0]; [left|right; by right].
    + intros x [->|[->|Hx]%elem_of_cons]%elem_of_cons.
      * specialize (Hall e ltac:(left)). lia.
      * lia.
      * specialize (Hall x ltac:(by right)). lia.
Qed.

Lemma fields_month t : DateUTC (getUTCFullYear t) (getUTCMonth t) 1 = first_ms (month_index (Day t)).
Proof. apply DateUTC_month. Qed.

Lemma Day_mono t t' : t <= t' → Day t <= Day t'.
Proof. intros H. unfold Day. apply Z.div_le_mono; [done|lia]. Qed.

Lemma old_months_spec fuel now rows :
  (∀ e, e ∈ rows → local_month now - 1 - row_month e <= Z.of_nat fuel) →
  ∃ j n, old_months offset fuel now rows = Some (map first_ms (months_from j n)) ∧
    (∀ k, k ∈ months_from j n → (∃ e, e ∈ rows ∧ row_month e = j) ∧ k < local_month now - 1) ∧
    (∀ e, e ∈ rows → row_month e ∈ months_from j n ∨ local_month now - 1 <= row_month e).
Proof.
  intros Hfuel. unfold old_months. pose proof (oldest_spec rows) as Ho. destruct (oldest rows) as [t|].
  - destruct Ho as [(e0 & H0 & Ht) Hall]. rewrite fields_month, DateUTC_month.
    replace (12 * getFullYear offset now + (getMonth offset now - 1)) with (local_month now - 1)
      by (unfold local_month; lia).
    set (j := month_index (Day t)). set (K := local_month now - 1).
    assert (Hj : row_month e0 = j) by (unfold row_month; by rewrite Ht).
    rewrite iter_dates_ends by (specialize (Hfuel e0 H0); lia).
    exists j, (Z.to_nat (K - j)). split_and!; [done| |].
    + intros k Hk%elem_of_months_from. split; [by exists e0|lia].
    + intros e He. rewrite elem_of_months_from. pose proof (month_index_mono _ _ (Day_mono _ _ (Hall e He))) as Hm.
      fold j (row_month e) in Hm. lia.
  - subst rows. exists 0, 0%nat. split_and!; [done|by intros k ?%elem_of_nil|by intros e ?%elem_of_nil].
Qed.

Lemma convert_spec auto keep now rows ms s :
  s.(tr_audit) = Plain rows → s.(tr_staging) = None → s.(tr_old) = None → (∀ e, (keep e).(en_time) = e.(en_time)) →
  (∀ k, local_month now - 1 <= k <= local_month now + Z.of_nat auto → printable k) → Forall printable ms →
  (∀ e, e ∈ rows → row_month e ∈ ms ∨ local_month now - 1 <= row_month e <= local_month now + Z.of_nat auto) →
  ∃ ps, convert offset auto keep now (map first_ms ms) s =
      (Ok tt, {| tr_external := s.(tr_external); tr_audit := Partitioned ps; tr_staging := None; tr_old := Some rows |}) ∧
    monthly_table ps ∧ concat (map pt_rows ps) ≡ₚ map keep rows ∧
    ∀ k, local_month now - 1 <= k <= local_month now + Z.of_nat auto → has_month ps k.
Proof.
  intros Ha Hst Hold Hkeep Hnear Hms Hrows. unfold convert, get_state, modify, mbind, action_bind. rewrite Ha.
  set (s0 := with_staging _ s). assert (Hs0 : s0.(tr_staging) = Some []) by (cbn; by rewrite Hst).
  assert (Hempty : monthly_table []) by (split; constructor).
  rewrite month_dates_spec.
  replace (map (λ i, first_ms (local_month now + -1 + Z.of_nat i)) (seq 0 (auto + 2)))
    with (map first_ms (months_from (local_month now - 1) (auto + 2)))
    by (unfold months_from; rewrite map_map; apply map_ext; intros; f_equal; lia).
  destruct (stage_all (months_from (local_month now - 1) (auto + 2)) s0 [] Hs0 Hempty)
    as (ps1 & -> & Hps1 & Hm1 & Hc1).
  { apply Forall_forall. intros k Hk%elem_of_months_from. apply Hnear. lia. }
  assert (Hnear1 : ∀ k, local_month now - 1 <= k <= local_month now + Z.of_nat auto → has_month ps1 k).
  { intros k Hk. apply Hm1. left. apply elem_of_months_from. lia. }
  destruct rows as [|e rows'].
  { unfold mret, action_ret. cbn [with_staging tr_old tr_external tr_audit tr_staging default s0]. rewrite Hold.
    exists ps1. split_and!; [done|done|by rewrite Hc1|done]. }
  destruct (stage_all ms (with_staging (Some ps1) s0) ps1 eq_refl Hps1 Hms) as (ps2 & -> & Hps2 & Hm2 & Hc2).
  destruct (insert_rows_spec (map keep (e :: rows')) ps2 Hps2) as (ps3 & Hins & Hps3 & Hm3 & Hc3).
  { apply Forall_map, Forall_forall. intros x Hx. rewrite Hkeep. fold (row_month x). apply Hm2.
    destruct (Hrows x Hx) as [?|?]; [by left|right; by apply Hnear1]. }
  unfold on_staging, get_state, modify, mbind, action_bind. cbn [tr_staging with_staging]. rewrite Hins.
  cbn [with_staging tr_old tr_external tr_audit tr_staging default s0]. rewrite Hold. exists ps3. split_and!; [done|done| |].
  - rewrite Hc3, Hc2, Hc1. cbn. by rewrite app_nil_r.
  - intros k Hk. apply Hm3, Hm2. right. by apply Hnear1.
Qed.

(** in a time zone at or east of Greenwich the conversion of the plain audit trail
    ends and succeeds: the partitions are whole months without gaps from the oldest
    row on, up to the months kept ahead, every row is copied to the partition of its
    month, none is lost, and the old table is kept aside. *)
Theorem conversion_keeps_rows auto fuel now s rows
    (Hext : s.(tr_external) = true) (Hplain : s.(tr_audit) = Plain rows)
    (Hfresh : s.(tr_staging) = None /\ s.(tr_old) = None)
    (Hyears : forall k, local_month now - 1 <= k <= local_month now + Z.of_nat auto -> printable k)
    (Hrows : forall e k, e ∈ rows -> row_month e <= k < local_month now -> printable k)
    (Hlate : forall e, e ∈ rows -> row_month e <= local_month now + Z.of_nat auto)
    (Hfuel : forall e, e ∈ rows -> local_month now - 1 - row_month e <= Z.of_nat fuel) :
  exists ps, initialize offset auto fuel now s =
      Some (Ok tt, {| tr_external := true; tr_audit := Partitioned ps; tr_staging := None; tr_old := Some rows |}) /\
    monthly_table ps /\ concat (map pt_rows ps) ≡ₚ rows /\
    forall k, local_month now - 1 <= k <= local_month now + Z.of_nat auto -> has_month ps k.
Proof.
  unfold initialize. rewrite Hext, Hplain. cbn [negb].
  destruct (old_months_spec fuel now rows Hfuel) as (j & n & -> & Hj & Hcover). cbn [mbind option_bind].
  destruct (convert_spec auto (λ e, e) now rows (months_from j n) s) as (ps & Hc & Hps & Hperm & Hk);
    [done|apply Hfresh|apply Hfresh|done|done| | |].
  - apply Forall_forall. intros k Hk. destruct (Hj k Hk) as [(e & He & <-) Hlt].
    apply elem_of_months_from in Hk. apply (Hrows e); [done|lia].
  - intros e He. destruct (Hcover e He) as [?|?]; [by left|right]. specialize (Hlate e He). lia.
  - exists ps. rewrite Hc, Hext. split_and!; [done|done|by rewrite Hperm, map_id|done].
Qed.
(** ** The monthly job *)

Lemma create_months ks : ∀ s ps, s.(tr_external) = true → s.(tr_audit) = Partitioned ps → monthly_table ps →
  Forall printable ks →
  ∃ ps', for_each (ensure_partition offset) (map first_ms ks) s = (Ok tt, with_audit (Partitioned ps') s) ∧
    monthly_table ps' ∧ (∀ j, has_month ps' j ↔ j ∈ ks ∨ has_month ps j) ∧
    concat (map pt_rows ps') = concat (map pt_rows ps).
Proof.
  induction ks as [|k ks IH]; intros s ps He Hs Hps Hks.
  - exists ps. split_and!; [|done|set_solver|done]. destruct s; cbn in *; by subst.
  - apply Forall_cons_1 in Hks as [Hk Hks]. cbn [map for_each].
    destruct (add_month ps k Hps Hk) as (ps1 & Hadd & Hps1 & Hm1 & Hc1).
    assert (Hstep : ensure_partition offset (first_ms k) s = (Ok tt, with_audit (Partitioned ps1) s)).
    { unfold ensure_partition. rewrite range_of_month. unfold createPartition, get_state, mbind, action_bind.
      by rewrite He, Hs, name_of_month, Hadd. }
    unfold mbind, action_bind. rewrite Hstep.
    destruct (IH (with_audit (Partitioned ps1) s) ps1 He eq_refl Hps1 Hks) as (ps' & -> & Hps' & Hm & Hc).
    exists ps'. split_and!; [done|done| |congruence]. intros j. rewrite Hm, Hm1. set_solver.
Qed.

Definition info_of (k : Z) : PartitionInfo :=
  {| pi_name := name_of k; pi_startDate := first_ms k; pi_endDate := first_ms (k + 1) |}.

Lemma elem_of_list_partitions s ps i : s.(tr_external) = true → s.(tr_audit) = Partitioned ps → monthly_table ps →
  i ∈ listPartitions offset s ↔ ∃ k, has_month ps k ∧ i = info_of k.
Proof.
  intros He Hs [H1 _ _]. rewrite Forall_forall in H1. unfold listPartitions. rewrite He, Hs, list_elem_of_omap.
  assert (Hinfo : ∀ p k, monthly p k → (date ← parsePartitionName p.(pt_name);
      let '(startDate, endDate) := getPartitionDateRange offset date in
      Some {| pi_name := p.(pt_name); pi_startDate := startDate; pi_endDate := endDate |}) = Some (info_of k)).
  { intros p k (Hk & Hn & _). rewrite Hn, parse_name_of by done. cbn [mbind option_bind]. by rewrite range_of_month. }
  split.
  - intros (p & Hp & Hi). destruct (H1 p Hp) as (k & Hk). rewrite (Hinfo p k Hk) in Hi. exists k.
    split; [by exists p|congruence].
  - intros (k & (p & Hp & Hk) & ->). exists p. split; [done|by apply Hinfo].
Qed.

Lemma dropped_months s ps n now k : s.(tr_external) = true → s.(tr_audit) = Partitioned ps → monthly_table ps →
  printable k →
  name_of k ∈ map pi_name (getPartitionsToDropByRetention offset (listPartitions offset s) (Some n) now) →
  k < local_month now - n.
Proof.
  intros He Hs Hps Hk Hin. apply list_elem_of_fmap in Hin as (i & Hname & Hin).
  unfold getPartitionsToDropByRetention in Hin. apply list_elem_of_In, filter_In in Hin as [Hin%list_elem_of_In Hcut].
  apply (elem_of_list_partitions s ps) in Hin as (j & (p & Hp & Hj) & ->); [|done..].
  cbn [info_of pi_name pi_endDate cutoff_date mbind option_bind] in *. apply name_of_inj in Hname as ->; [|done|apply Hj].
  rewrite DateUTC_month in Hcut. apply Z.leb_le in Hcut.
  pose proof (first_ms_lt j). assert (Hlt : first_ms j < first_ms (12 * getFullYear offset now + (getMonth offset now - n))) by lia.
  apply first_ms_lt_inv in Hlt. unfold local_month. lia.
Qed.

(** C27: on a server at or east of Greenwich, with the external database, the monthly job
    keeps a trail in order that is partitioned by months, for a retention of no months or more
    and years of four digits: afterwards this month and the months kept ahead have their
    partitions, whatever a failed drop leaves; rows are only lost when they are older than
    the retention counted back from this month, and none is added. *)
Theorem maintenance_keeps_recent_rows auto n now drops s ps
    (Hext : s.(tr_external) = true) (Hparts : s.(tr_audit) = Partitioned ps) (Hps : monthly_table ps)
    (Hyears : forall k, local_month now <= k <= local_month now + Z.of_nat auto -> printable k) (Hn : 0 <= n) :
  exists ps', maintenance offset auto (Some n) now drops s = (Ok tt, with_audit (Partitioned ps') s) /\
    monthly_table ps' /\
    (forall k, local_month now <= k <= local_month now + Z.of_nat auto -> has_month ps' k) /\
    (forall e, e ∈ concat (map pt_rows ps') -> e ∈ concat (map pt_rows ps)) /\
    (forall e, e ∈ concat (map pt_rows ps) -> first_ms (local_month now - n) <= e.(en_time) ->
       e ∈ concat (map pt_rows ps')).
Proof.
  unfold maintenance, try_catch, ensureFuturePartitions. rewrite month_dates_spec.
  replace (map (λ i, first_ms (local_month now + 0 + Z.of_nat i)) (seq 0 (S auto)))
    with (map first_ms (months_from (local_month now) (S auto)))
    by (unfold months_from; rewrite map_map; apply map_ext; intros; f_equal; lia).
  destruct (create_months (months_from (local_month now) (S auto)) s ps Hext Hparts Hps)
    as (ps1 & Hrun & Hps1 & Hm1 & Hc1).
  { apply Forall_forall. intros k Hk%elem_of_months_from. apply Hyears. lia. }
  unfold mbind at 1, action_bind at 1. rewrite Hrun. unfold dropOldPartitions, get_state, modify, mbind, action_bind.
  set (s1 := with_audit (Partitioned ps1) s). replace (tr_external s1) with true by done. cbn [negb].
  set (dropped := List.filter drops _). change (tr_audit s1) with (Partitioned ps1).
  assert (Hkept : ∀ p k, p ∈ ps1 → monthly p k → local_month now - n <= k →
    p ∈ List.filter (λ p, negb (bool_decide (p.(pt_name) ∈ dropped))) ps1).
  { intros p k Hp Hk Hle. apply list_elem_of_In, filter_In. split; [by apply list_elem_of_In|].
    apply negb_true_iff, bool_decide_eq_false. intros Hin. subst dropped.
    apply list_elem_of_In, filter_In in Hin as [Hin%list_elem_of_In _]. pose proof Hk as (Hpr & Hname & _).
    rewrite Hname in Hin. pose proof (dropped_months s1 ps1 n now k Hext eq_refl Hps1 Hpr Hin). lia. }
  eexists. split; [reflexivity|]. split_and!.
  - destruct Hps1 as [H1 H2 H3]. split.
    + apply Forall_forall. intros p Hp. apply list_elem_of_In, filter_In in Hp as [Hp%list_elem_of_In _].
      by eapply Forall_forall in H1.
    + by apply NoDup_map_filter.
    + apply Forall_forall. intros p Hp. apply list_elem_of_In, filter_In in Hp as [Hp%list_elem_of_In _].
      by eapply Forall_forall in H3.
  - intros k Hk. destruct (proj2 (Hm1 k)) as (p & Hp & Hpk); [left; apply elem_of_months_from; lia|].
    exists p. split; [|done]. eapply Hkept; [done|done|lia].
  - intros e He. rewrite <- Hc1. apply list_elem_of_In, in_concat in He as (l & Hl & He).
    apply in_map_iff in Hl as (p & <- & Hp%filter_In). apply list_elem_of_In, in_concat. exists (pt_rows p).
    split; [|done]. apply in_map_iff. exists p. by split; [|apply Hp].
  - intros e He Ht. rewrite <- Hc1 in He. apply list_elem_of_In, in_concat in He as (l & Hl & He).
    apply in_map_iff in Hl as (p & <- & Hp%list_elem_of_In). apply list_elem_of_In, in_concat. exists (pt_rows p).
    split; [|done]. apply in_map_iff. exists p. split; [done|]. apply list_elem_of_In.
    destruct Hps1 as [H1 _ H3]. rewrite Forall_forall in H1, H3. destruct (H1 p Hp) as (k & Hk).
    apply (Hkept p k); [done|done|]. specialize (H3 p Hp). rewrite Forall_forall in H3.
    specialize (H3 e ltac:(by apply list_elem_of_In)). unfold holds in H3. destruct Hk as (_ & _ & Hf & Hto).
    rewrite Hto in H3. apply andb_true_iff in H3 as [_ H3%Z.ltb_lt].
    assert (Hlt : first_ms (local_month now - n) < first_ms (k + 1)) by lia. apply first_ms_lt_inv in Hlt. lia.
Qed.
End east.

(** ** West of Greenwich *)

Lemma west_day offset j : (∀ t, - msPerDay <= offset t < 0) →
  Day (LocalTime offset (first_ms (j + 1))) = month_first (j + 1) - 1.
Proof.
  intros West. unfold Day, LocalTime, first_ms. generalize (month_first (j + 1)). intros d.
  specialize (West (d * msPerDay)). symmetry.
  apply Z.div_unique_pos with (r := msPerDay + offset (d * msPerDay)); lia.
Qed.

Lemma next_of_month offset t k : month_index (Day (LocalTime offset t)) = k →
  DateUTC (getFullYear offset t) (getMonth offset t + 1) 1 = first_ms (k + 1).
Proof.
  intros <-. rewrite DateUTC_month. unfold getFullYear, getMonth, getUTCFullYear, getUTCMonth, month_index.
  f_equal. lia.
Qed.

(** the month after the first of a month is that month again. *)
Lemma west_next offset j : (∀ t, - msPerDay <= offset t < 0) →
  DateUTC (getFullYear offset (first_ms (j + 1))) (getMonth offset (first_ms (j + 1)) + 1) 1 = first_ms (j + 1).
Proof. intros West. apply next_of_month. rewrite west_day by done. apply month_index_before. Qed.

(** there the loop over the months of old rows stays at its first month, and never ends. *)
Lemma west_never_ends offset fuel j k :
  (∀ t, - msPerDay <= offset t < 0) → j < k → iter_dates offset fuel (first_ms j) (first_ms k) = None.
Proof.
  intros West Hlt. pose proof (west_next offset (j - 1) West) as Hnext. rewrite Z.sub_add in Hnext.
  assert (Hdate : (first_ms j <? first_ms k) = true).
  { apply Z.ltb_lt. pose proof (first_ms_lt j). pose proof (first_ms_mono (j + 1) k ltac:(lia)). lia. }
  revert Hnext Hdate. generalize (first_ms j) (first_ms k). intros a b Hnext Hdate.
  induction fuel as [|fuel IH]; cbn [iter_dates]; rewrite Hdate; [done|]. by rewrite Hnext, IH.
Qed.

(** ** A conversion in Baghdad *)

Definition baghdad (t : Z) : Z := 10800000.
Definition at_time (t : Z) : entry :=
  {| en_id := pretty t; en_user := "u"; en_action := "LOGIN"; en_module := "auth"; en_details := None;
     en_hash := Some "h"; en_previous := Some "0"; en_seq := Some 1; en_time := t |}.
Definition sample_rows : list entry := [at_time (DateUTC 2024 4 2); at_time (DateUTC 2023 11 31)].
Definition sample_now : Z := DateUTC 2024 4 20.
Definition sample_trail : trail_state :=
  {| tr_external := true; tr_audit := Plain sample_rows; tr_staging := None; tr_old := None |}.

Lemma conversion_keeps_rows_witness :
  ∃ ps, initialize baghdad 3 12 sample_now sample_trail =
      Some (Ok tt, {| tr_external := true; tr_audit := Partitioned ps; tr_staging := None; tr_old := Some sample_rows |}) ∧
    concat (map pt_rows ps) ≡ₚ sample_rows.
Proof.
  assert (Hnow : local_month baghdad sample_now = 24292) by (vm_compute; reflexivity).
  assert (Hmonth : ∀ e, e ∈ sample_rows → 24287 <= row_month e <= 24292).
  { assert (Hall : forallb (λ e, (24287 <=? row_month e) && (row_month e <=? 24292)) sample_rows = true)
      by (vm_compute; reflexivity).
    intros e He. rewrite forallb_forall in Hall. apply list_elem_of_In, Hall in He. lia. }
  destruct (conversion_keeps_rows baghdad) with (auto := 3%nat) (fuel := 12%nat) (now := sample_now)
    (s := sample_trail) (rows := sample_rows) as (ps & H & _ & Hperm & _).
  - intros t. unfold baghdad, msPerDay. lia.
  - reflexivity.
  - reflexivity.
  - split; reflexivity.
  - rewrite Hnow. intros k Hk. unfold printable. Z.to_euclidean_division_equations. lia.
  - rewrite Hnow. intros e k He%Hmonth Hk. unfold printable. Z.to_euclidean_division_equations. lia.
  - rewrite Hnow. intros e He%Hmonth. lia.
  - rewrite Hnow. intros e He%Hmonth. lia.
  - exists ps. split; [exact H|exact Hperm].
Defined.

Definition month_partition (k : Z) (rows : list entry) : partition :=
  {| pt_name := name_of k; pt_from := first_ms k; pt_to := first_ms (k + 1); pt_rows := rows |}.
Definition converted : trail_state :=
  {| tr_external := true;
     tr_audit := Partitioned [month_partition 24287 [at_time (DateUTC 2023 11 31)];
                              month_partition 24292 [at_time (DateUTC 2024 4 2)]];
     tr_staging := None; tr_old := None |}.

Lemma maintenance_keeps_recent_rows_witness :
  ∃ ps, maintenance baghdad 3 (Some 2) sample_now (λ _, true) converted = (Ok tt, with_audit (Partitioned ps) converted) ∧
    map pt_name ps = ["audit_trail_y2024m05"; "audit_trail_y2024m06"; "audit_trail_y2024m07"; "audit_trail_y2024m08"] ∧
    at_time (DateUTC 2024 4 2) ∈ concat (map pt_rows ps).
Proof.
  assert (Hnow : local_month baghdad sample_now = 24292) by (vm_compute; reflexivity).
  destruct (maintenance_keeps_recent_rows baghdad) with (auto := 3%nat) (n := 2) (now := sample_now)
    (drops := λ _ : string, true) (s := converted)
    (ps := [month_partition 24287 [at_time (DateUTC 2023 11 31)]; month_partition 24292 [at_time (DateUTC 2024 4 2)]])
    as (ps & H & _ & _ & _ & Hkeep).
  - intros t. unfold baghdad, msPerDay. lia.
  - reflexivity.
  - reflexivity.
  - split.
    + constructor; [exists 24287|constructor; [exists 24292|constructor]];
        (split; [unfold printable; vm_compute; by split|split; [reflexivity|split; reflexivity]]).
    + apply (bool_decide_unpack _). vm_compute. exact I.
    + apply (bool_decide_unpack _). vm_compute. exact I.
  - rewrite Hnow. intros k Hk. unfold printable. Z.to_euclidean_division_equations. lia.
  - lia.
  - exists ps. split; [exact H|]. split.
    + assert (Hrun : (maintenance baghdad 3 (Some 2) sample_now (λ _, true) converted).2 = with_audit (Partitioned ps) converted)
        by by rewrite H.
      apply (f_equal (λ s, match s.(tr_audit) with Partitioned ps => map pt_name ps | Plain _ => [] end)) in Hrun.
      cbn [tr_audit with_audit] in Hrun. rewrite <- Hrun. vm_compute. reflexivity.
    + apply Hkeep; [apply list_elem_of_In; vm_compute; by right; left|]. rewrite Hnow. vm_compute. discriminate.
Defined.
