(* ===== verification/Schema.v ===== *)
(** * The schema ([src/src/db/migrations.ts])

    The statements of the base schema and of the eleven versioned migrations, in
    the order the file runs them.  Statements that only touch rows are [Rows],
    those that depend on the rows found (seeds and backfills) are left out.
    CHECK conditions and the predicates of partial indexes are not part of the
    catalogue. *)

From S2P Require Import Prelude JsMap JsStrings Catalogue MigrationRunner.

Definition text (name : string) : column := col name "TEXT".
Definition stamp (name : string) : column := with_default "CURRENT_TIMESTAMP" (col name "TIMESTAMP").
Definition stampz (name : string) : column := with_default "CURRENT_TIMESTAMP" (col name "TIMESTAMPTZ").
Definition uuid_key : column := with_default "gen_random_uuid()" (unique (not_null (col "id" "UUID"))).
Definition index_on (name table : string) (cs : list string) : ddl :=
  CreateIndex {| i_name := name; i_table := table; i_columns := cs |}.

(** ** Tables *)

Definition users_table : ddl := create_table "users" [
     uuid_key; unique (text "employee_id"); unique (not_null (text "username")); not_null (text "password");
     not_null (text "name"); text "email"; text "department"; with_default "'user'" (text "role");
     with_default "'Active'" (text "status"); col "last_login" "TIMESTAMP";
     with_default "0" (col "failed_attempts" "INTEGER"); col "locked_until" "TIMESTAMP";
     text "profile_picture"; with_default "'en'" (text "language"); with_default "'light'" (text "theme");
     with_default "'standard'" (text "dashboard_layout");
     with_default "1" (col "notifications_enabled" "INTEGER"); col "job_title_id" "UUID"; col "role_id" "UUID";
     text "unit"; col "reporting_manager_id" "UUID"; text "access_scope"; text "phone_number"; text "notes";
     with_default "1" (col "session_version" "INTEGER");
     with_default "0" (col "requires_password_change" "INTEGER"); stamp "created_at"] [] [].
Definition audit_programs_table : ddl := create_table "audit_programs" [
     uuid_key; text "program_code"; text "program_title"; text "audit_area"; text "department";
     text "audit_type"; text "audit_objective"; text "audit_scope"; text "key_risks";
     text "control_objectives"; text "reference_standard"; text "status"; text "version_number";
     text "created_by"; stamp "created_at"; stamp "updated_at"] [] [].
Definition audit_plans_table : ddl := create_table "audit_plans" [
     uuid_key; unique (text "plan_code"); col "program_id" "UUID"; not_null (text "title"); text "department";
     text "type"; text "risk_rating"; text "planned_start_date"; text "planned_end_date"; text "status";
     text "lead_auditor"; text "team_members"; text "objectives"; text "scope"; text "notes";
     stamp "created_at"; stamp "updated_at"] [] [("program_id", ("audit_programs", "id"))].
Definition audit_procedures_table : ddl := create_table "audit_procedures" [
     uuid_key; col "program_id" "UUID"; text "procedure_number"; text "audit_step";
     text "audit_test_description"; text "risk_addressed"; text "control_test_type"; text "expected_evidence";
     text "sampling_method"; text "responsible_auditor"; text "remarks"; stamp "created_at"; stamp "updated_at"] [] [("program_id", ("audit_programs", "id"))].
Definition audit_findings_table : ddl := create_table "audit_findings" [
     uuid_key; col "audit_id" "UUID"; not_null (text "title"); text "description"; text "criteria";
     text "condition"; text "cause"; text "consequence"; text "recommendation"; text "risk_level";
     text "status"; stamp "created_at"; stamp "updated_at"] [] [("audit_id", ("audit_plans", "id"))].
Definition recommendations_table : ddl := create_table "recommendations" [
     uuid_key; col "finding_id" "UUID"; text "department"; text "responsible"; text "due_date"; text "status";
     text "risk_level"; stamp "created_at"; stamp "updated_at"] [] [("finding_id", ("audit_findings", "id"))].
Definition risk_register_table : ddl := create_table "risk_register" [
     uuid_key; text "risk_id"; text "description"; text "owner"; text "source"; text "early_warning";
     text "type"; text "likelihood"; text "impact"; col "score" "INTEGER"; text "rating"; text "controls";
     text "control_assessment"; text "mitigation"; text "treatment_option"; text "residual_likelihood";
     text "residual_impact"; col "residual_score" "INTEGER"; text "residual_rating"; text "status";
     text "target_date"; text "review_date"; text "notes"; text "entry_date"; text "entered_by";
     stamp "created_at"; stamp "updated_at"] [] [].
Definition central_bank_instructions_table : ddl := create_table "central_bank_instructions" [
     uuid_key; text "title"; text "issue_date"; text "reference_number"; text "category"; text "description";
     text "related_department"; text "attachment"; text "status"; col "related_instruction_id" "UUID";
     stamp "created_at"; stamp "updated_at"] [] [].
Definition audit_trail_table : ddl := create_table "audit_trail" [
     uuid_key; not_null (text "user"); not_null (text "action"); not_null (text "module"); text "details";
     stamp "timestamp"] [] [].
Definition internal_policies_table : ddl := create_table "internal_policies" [
     uuid_key; not_null (text "title"); not_null (text "department"); not_null (text "version");
     not_null (text "upload_date"); not_null (text "file_url"); with_default "'active'" (text "status");
     stamp "created_at"] [] [].
Definition org_entities_table : ddl := create_table "org_entities" [
     uuid_key; unique (not_null (text "entity_code")); not_null (text "name_ar"); not_null (text "name_en");
     not_null (text "entity_type"); col "parent_id" "UUID"; col "manager_id" "UUID"; text "manager_name";
     with_default "1" (col "level" "INTEGER"); with_default "'Active'" (text "status"); text "description";
     with_default "0" (col "display_order" "INTEGER"); text "location"; text "cost_center_code"; text "notes";
     stamp "created_at"; stamp "updated_at"]
  [] [("parent_id", ("org_entities", "id")); ("manager_id", ("users", "id"))].
Definition audit_tasks_table : ddl := create_table "audit_tasks" [
     uuid_key; unique (not_null (col "task_number" "VARCHAR(30)")); not_null (text "title");
     references "audit_plans" "id" (not_null (col "plan_id" "UUID"));
     references "audit_programs" "id" (col "program_id" "UUID"); not_null (text "audit_type");
     with_default "'draft'" (not_null (text "status")); references "users" "id" (col "assigned_to" "UUID");
     references "org_entities" "id" (col "audited_unit_id" "UUID"); col "planned_hours" "INTEGER";
     with_default "0" (col "actual_hours" "INTEGER"); col "period_from" "DATE"; col "period_to" "DATE";
     col "due_date" "DATE"; references "users" "id" (col "approved_by" "UUID");
     col "approved_at" "TIMESTAMPTZ"; references "users" "id" (col "created_by" "UUID"); stampz "created_at";
     stampz "updated_at"; col "deleted_at" "TIMESTAMPTZ"] [] [].
Definition finding_risks_table : ddl := create_table "finding_risks" [
     references "audit_findings" "id" (not_null (col "finding_id" "UUID"));
     references "risk_register" "id" (not_null (col "risk_id" "UUID"))] [["finding_id"; "risk_id"]] [].
Definition compliance_items_table : ddl := create_table "compliance_items" [
     uuid_key; not_null (text "ref_number"); not_null (text "title"); not_null (text "type");
     text "issuing_authority"; col "issue_date" "DATE"; col "effective_date" "DATE";
     with_default "'under_review'" (text "compliance_status");
     references "users" "id" (col "responsible_person_id" "UUID"); text "attachment_path"; text "notes";
     references "users" "id" (col "created_by" "UUID"); stampz "created_at"; stampz "updated_at"] [] [].
Definition finding_compliance_table : ddl := create_table "finding_compliance" [
     references "audit_findings" "id" (not_null (col "finding_id" "UUID"));
     references "compliance_items" "id" (not_null (col "compliance_id" "UUID"))] [["finding_id"; "compliance_id"]] [].
Definition law_bank_table : ddl := create_table "law_bank" [
     uuid_key; not_null (text "title"); text "type"; text "authority"; text "issue_date"; text "keywords";
     with_default "0" (col "bookmarked" "INTEGER"); text "file_url"; stamp "created_at"; stamp "updated_at"] [] [].
Definition fraud_log_table : ddl := create_table "fraud_log" [
     uuid_key; text "incident_date"; text "description"; text "reported_by"; text "status"; stamp "created_at";
     stamp "updated_at"] [] [].
Definition audit_reports_table : ddl := create_table "audit_reports" [
     uuid_key; col "audit_id" "UUID"; text "title"; col "report_type" "INTEGER"; text "generated_by";
     text "date_generated"; text "status"; text "content"; stamp "created_at"; stamp "updated_at"] [] [("audit_id", ("audit_plans", "id"))].
Definition system_error_log_table : ddl := create_table "system_error_log" [
     uuid_key; not_null (text "message"); text "stack"; not_null (text "module"); col "user_id" "UUID";
     with_default "'error'" (text "severity"); text "user_agent"; text "url"; text "request_data";
     stamp "timestamp"] [] [("user_id", ("users", "id"))].
Definition job_titles_table : ddl := create_table "job_titles" [
     uuid_key; not_null (text "name"); not_null (text "department"); not_null (text "job_level");
     text "description"; col "reporting_to" "UUID"; with_default "'active'" (not_null (text "status"));
     stamp "created_at"] [] [].
Definition outgoing_letters_table : ddl := create_table "outgoing_letters" [
     uuid_key; unique (not_null (text "sequence_number")); col "letter_date" "DATE"; text "recipient_entity";
     text "subject"; text "classification"; text "sending_method"; text "attachment_file"; text "created_by";
     stamp "created_at"; stamp "updated_at"; with_default "0" (col "is_archived" "INTEGER")] [] [].
Definition app_settings_table : ddl := create_table "app_settings" [
     unique (not_null (col "id" "INTEGER")); text "app_name"; text "app_version"; text "app_description";
     text "company_name"; text "system_owner"; text "developer_name"; text "release_date";
     text "last_update_date"; text "support_email"; text "support_phone"; text "official_website";
     text "copyright_notice"; text "system_environment"; text "database_type"; text "build_number";
     with_default "'Active'" (text "app_status")] [] [].
Definition refresh_tokens_table : ddl := create_table "refresh_tokens" [
     uuid_key; not_null (col "user_id" "UUID"); unique (not_null (text "token"));
     not_null (col "expires_at" "TIMESTAMP"); with_default "0" (col "is_revoked" "INTEGER");
     col "revoked_at" "TIMESTAMP"] [] [("user_id", ("users", "id"))].
Definition system_policies_table : ddl := create_table "system_policies" [
     uuid_key; unique (not_null (text "policy_key")); not_null (text "content"); text "updated_by";
     stamp "updated_at"] [] [].
Definition pdf_settings_table : ddl := create_table "pdf_settings" [
     unique (not_null (col "id" "INTEGER")); with_default "'Simplified Arabic'" (text "arabic_font_name");
     with_default "14" (col "arabic_font_size" "INTEGER");
     with_default "16" (col "heading_font_size" "INTEGER");
     with_default "14" (col "subheading_font_size" "INTEGER");
     with_default "14" (col "table_font_size" "INTEGER"); with_default "1" (col "rtl_enabled" "INTEGER");
     with_default "20" (col "margin_top" "INTEGER"); with_default "20" (col "margin_right" "INTEGER");
     with_default "20" (col "margin_bottom" "INTEGER"); with_default "20" (col "margin_left" "INTEGER");
     with_default "''" (text "header_template"); with_default "''" (text "footer_template");
     with_default "'right'" (text "logo_position"); with_default "1" (col "show_page_number" "INTEGER")] [] [].
Definition pdf_templates_table : ddl := create_table "pdf_templates" [
     uuid_key; not_null (text "template_name"); not_null (text "template_type"); not_null (text "content");
     with_default "'Draft'" (text "status"); with_default "0" (col "is_default" "INTEGER");
     with_default "1" (col "version" "INTEGER"); text "created_by"; text "updated_by"; stamp "created_at";
     stamp "updated_at"] [] [].
Definition notifications_table : ddl := create_table "notifications" [
     uuid_key; not_null (col "user_id" "UUID"); not_null (text "event_type"); not_null (text "description");
     text "related_module"; text "link"; with_default "'Unread'" (text "status"); stamp "date"] [] [].
Definition password_reset_requests_table : ddl := create_table "password_reset_requests" [
     uuid_key; not_null (col "user_id" "UUID"); not_null (text "username"); not_null (text "name");
     text "department"; with_default "'Pending'" (text "status"); stamp "request_date"] [] [].
Definition password_history_table : ddl := create_table "password_history" [
     uuid_key; not_null (col "user_id" "UUID"); not_null (text "password_hash"); stamp "created_at"] [] [].
Definition fraud_access_requests_table : ddl := create_table "fraud_access_requests" [
     uuid_key; not_null (col "user_id" "UUID"); not_null (text "user_name"); not_null (text "reason");
     with_default "'Pending'" (text "status"); stamp "request_date"] [] [].
Definition conflict_of_interest_table : ddl := create_table "conflict_of_interest" [
     uuid_key; not_null (col "user_id" "UUID"); not_null (text "user_name");
     not_null (text "declaration_date"); not_null (text "description"); text "related_party";
     with_default "'pending'" (text "status"); stamp "created_at"] [] [].
Definition org_structure_table : ddl := create_table "org_structure" [
     uuid_key; not_null (text "title"); not_null (text "department"); text "unit"; text "employee_name";
     col "reporting_to" "UUID"; text "role_description"; text "access_level"] [] [].
Definition audit_evidence_table : ddl := create_table "audit_evidence" [
     uuid_key; col "audit_id" "UUID"; col "finding_id" "UUID"; text "type"; text "description";
     text "uploaded_by"; text "upload_date"; text "file_name"; text "file_data"; stamp "created_at";
     stamp "updated_at"]
  [] [("audit_id", ("audit_plans", "id")); ("finding_id", ("audit_findings", "id"))].
Definition roles_table : ddl := create_table "roles" [
     uuid_key; unique (not_null (text "name")); text "description";
     with_default "0" (col "is_custom" "INTEGER"); stamp "created_at"] [] [].
Definition permissions_table : ddl := create_table "permissions" [
     uuid_key; not_null (text "module"); not_null (text "action"); text "description"] [["module"; "action"]] [].
Definition role_permissions_table : ddl := create_table "role_permissions" [
     not_null (col "role_id" "UUID"); not_null (col "permission_id" "UUID")]
  [["role_id"; "permission_id"]] [("role_id", ("roles", "id")); ("permission_id", ("permissions", "id"))].
Definition user_permissions_table : ddl := create_table "user_permissions" [
     not_null (col "user_id" "UUID"); not_null (col "permission_id" "UUID");
     with_default "1" (col "is_allowed" "INTEGER")]
  [["user_id"; "permission_id"]] [("user_id", ("users", "id")); ("permission_id", ("permissions", "id"))].
Definition login_history_table : ddl := create_table "login_history" [
     uuid_key; col "user_id" "UUID"; text "username"; stamp "login_time"; col "logout_time" "TIMESTAMP";
     text "ip_address"; text "user_agent"; text "device"; text "browser"; not_null (text "status");
     text "failure_reason"] [] [("user_id", ("users", "id"))].
Definition user_sessions_table : ddl := create_table "user_sessions" [
     uuid_key; not_null (col "user_id" "UUID"); unique (not_null (text "session_token")); text "refresh_token";
     stamp "login_time"; stamp "last_activity"; with_default "'Active'" (text "status"); text "ip_address";
     text "device"; text "browser"] [] [("user_id", ("users", "id"))].
Definition permission_change_logs_table : ddl := create_table "permission_change_logs" [
     uuid_key; not_null (col "target_user_id" "UUID"); not_null (col "changed_by_id" "UUID"); text "old_role";
     text "new_role"; text "old_permissions"; text "new_permissions"; stamp "change_date"; text "reason"]
  [] [("target_user_id", ("users", "id")); ("changed_by_id", ("users", "id"))].
Definition user_management_settings_table : ddl := create_table "user_management_settings" [
     unique (not_null (col "id" "INTEGER")); with_default "3" (col "failed_login_threshold" "INTEGER");
     with_default "90" (col "inactive_account_threshold_days" "INTEGER");
     with_default "8" (col "password_min_length" "INTEGER");
     with_default "1" (col "password_require_uppercase" "INTEGER");
     with_default "1" (col "password_require_lowercase" "INTEGER");
     with_default "1" (col "password_require_numbers" "INTEGER");
     with_default "1" (col "password_require_symbols" "INTEGER");
     with_default "90" (col "password_expiry_days" "INTEGER");
     with_default "0" (col "enforce_single_session" "INTEGER");
     with_default "30" (col "session_timeout_minutes" "INTEGER");
     with_default "1" (col "bulk_import_enabled" "INTEGER");
     with_default "0" (col "admin_approval_required" "INTEGER")] [] [].
Definition departments_table : ddl := create_table "departments" [
     uuid_key; unique (not_null (text "name")); text "description"; stamp "created_at"] [] [].
Definition incoming_correspondence_table : ddl := create_table "incoming_correspondence" [
     uuid_key; unique (not_null (text "sequence_number")); text "letter_number";
     not_null (text "sender_entity"); text "sender_entity_type"; not_null (text "subject");
     col "letter_date" "DATE"; col "receipt_date" "DATE"; stamp "registration_date"; text "classification";
     with_default "'Normal'" (text "priority"); text "method"; col "receiving_dept_id" "UUID";
     col "assigned_dept_id" "UUID"; col "assigned_user_id" "UUID"; with_default "'Received'" (text "status");
     with_default "0" (col "follow_up_required" "INTEGER"); col "follow_up_date" "DATE";
     with_default "0" (col "response_required" "INTEGER"); col "response_due_date" "DATE"; text "notes";
     col "created_by" "UUID"; stamp "created_at"; stamp "updated_at";
     with_default "0" (col "is_archived" "INTEGER")]
  [] 
  [("receiving_dept_id", ("org_entities", "id")); ("assigned_dept_id", ("org_entities", "id"));
    ("assigned_user_id", ("users", "id")); ("created_by", ("users", "id"))].
Definition outgoing_correspondence_table : ddl := create_table "outgoing_correspondence" [
     uuid_key; unique (not_null (text "sequence_number")); unique (text "official_number");
     col "letter_date" "DATE"; stamp "registration_date"; not_null (text "recipient_entity");
     text "recipient_entity_type"; not_null (text "subject"); text "classification";
     with_default "'Normal'" (text "priority"); text "method"; with_default "'Draft'" (text "status");
     col "source_dept_id" "UUID"; col "sent_date" "TIMESTAMP"; text "delivery_ref"; text "recipient_contact";
     text "notes"; col "created_by" "UUID"; stamp "created_at"; stamp "updated_at";
     with_default "0" (col "is_archived" "INTEGER")]
  [] [("source_dept_id", ("org_entities", "id")); ("created_by", ("users", "id"))].
Definition correspondence_attachments_table : ddl := create_table "correspondence_attachments" [
     uuid_key; not_null (col "correspondence_id" "UUID"); not_null (text "correspondence_type");
     not_null (text "file_name"); text "file_type"; text "file_data"; text "description";
     col "uploaded_by" "UUID"; stamp "uploaded_at"] [] [("uploaded_by", ("users", "id"))].
Definition correspondence_referrals_table : ddl := create_table "correspondence_referrals" [
     uuid_key; not_null (col "incoming_id" "UUID"); not_null (col "from_user_id" "UUID");
     col "to_dept_id" "UUID"; col "to_user_id" "UUID"; stamp "referral_date"; text "notes";
     with_default "'Pending'" (text "status")]
  [] 
  [("incoming_id", ("incoming_correspondence", "id")); ("from_user_id", ("users", "id"));
    ("to_dept_id", ("org_entities", "id")); ("to_user_id", ("users", "id"))].
Definition correspondence_links_table : ddl := create_table "correspondence_links" [
     uuid_key; not_null (col "incoming_id" "UUID"); not_null (col "outgoing_id" "UUID");
     with_default "'Reply'" (text "link_type"); stamp "linked_at"; col "linked_by" "UUID"]
  [["incoming_id"; "outgoing_id"]] 
  [("incoming_id", ("incoming_correspondence", "id")); ("outgoing_id", ("outgoing_letters", "id"));
    ("linked_by", ("users", "id"))].
Definition correspondence_status_history_table : ddl := create_table "correspondence_status_history" [
     uuid_key; not_null (col "correspondence_id" "UUID"); not_null (text "correspondence_type");
     text "old_status"; text "new_status"; col "changed_by" "UUID"; stamp "change_date"; text "notes"] [] [("changed_by", ("users", "id"))].
Definition incoming_letters_table : ddl := create_table "incoming_letters" [
     uuid_key; unique (not_null (text "sequence_number")); col "letter_date" "DATE"; text "sender_entity";
     text "subject"; text "classification"; with_default "'Open'" (text "status");
     with_default "0" (col "response_required" "INTEGER"); text "attachment_file"; text "created_by";
     stamp "created_at"] [] [].
Definition comments_table : ddl := create_table "comments" [
     uuid_key; not_null (text "related_type"); not_null (col "related_id" "UUID");
     not_null (col "user_id" "UUID"); not_null (text "content"); stamp "created_at"] [] [("user_id", ("users", "id"))].
Definition notification_recipients_table : ddl := create_table "notification_recipients" [
     uuid_key; references "notifications" "id" (not_null (col "notification_id" "UUID"));
     references "users" "id" (not_null (col "recipient_id" "UUID"));
     with_default "false" (col "is_read" "BOOLEAN"); col "read_at" "TIMESTAMP";
     with_default "false" (col "is_dismissed" "BOOLEAN"); col "dismissed_at" "TIMESTAMP"; stamp "created_at"] [] [].
Definition compliance_items_full_table : ddl := create_table "compliance_items" [
     uuid_key; not_null (text "ref_number"); not_null (text "title"); not_null (text "source_type");
     text "issuing_authority"; text "category"; text "issue_date"; text "effective_date"; text "review_date";
     with_default "'under_review'" (not_null (text "compliance_status")); col "maturity_score" "INTEGER";
     text "gap_notes"; references "users" "id" (col "responsible_person_id" "UUID");
     references "org_entities" "id" (col "department_id" "UUID"); text "description"; text "keywords";
     text "version"; text "attachment_path"; references "users" "id" (col "created_by" "UUID");
     stampz "created_at"; stampz "updated_at"; col "deleted_at" "TIMESTAMPTZ";
     references "users" "id" (col "deleted_by" "UUID")] [] [].
Definition finding_compliance_full_table : ddl := create_table "finding_compliance" [
     references "audit_findings" "id" (not_null (col "finding_id" "UUID"));
     references "compliance_items" "id" (not_null (col "compliance_id" "UUID"))] [["finding_id"; "compliance_id"]] [].
Definition idempotency_keys_table : ddl := create_table "idempotency_keys" [
     uuid_key; not_null (text "idempotency_key"); not_null (col "user_id" "UUID"); not_null (text "method");
     not_null (text "path"); not_null (col "response_status" "INTEGER"); not_null (text "response_body");
     stampz "created_at"; not_null (col "expires_at" "TIMESTAMPTZ")] [["idempotency_key"; "user_id"]] [].
Definition request_logs_table : ddl := create_table "request_logs" [
     uuid_key; not_null (text "request_id"); col "user_id" "UUID"; not_null (text "method");
     not_null (text "path"); not_null (col "status_code" "INTEGER"); not_null (col "duration_ms" "INTEGER");
     text "ip_address"; text "user_agent"; text "error_message"; stampz "created_at"] [] [].
Definition file_access_logs_table : ddl := create_table "file_access_logs" [
     uuid_key; not_null (text "user_id"); not_null (text "file_path"); not_null (text "access_type");
     not_null (text "result"); text "ip_address"; stampz "created_at"] [] [].
Definition dead_letter_queue_table : ddl := create_table "dead_letter_queue" [
     uuid_key; not_null (text "event_type"); not_null (text "payload"); not_null (text "failure_reason");
     stampz "created_at"; with_default "0" (col "retry_count" "INTEGER")] [] [].
Definition encrypted_files_table : ddl := create_table "encrypted_files" [
     uuid_key; not_null (text "original_name"); not_null (text "mime_type");
     not_null (col "original_size" "INTEGER"); not_null (text "encrypted_path"); not_null (text "iv");
     not_null (text "auth_tag"); not_null (text "checksum_sha256");
     with_default "1" (not_null (col "key_version" "INTEGER")); stampz "encrypted_at";
     not_null (text "uploaded_by"); not_null (text "module")] [] [].
Definition backup_history_table : ddl := create_table "backup_history" [
     uuid_key; with_default "CURRENT_TIMESTAMP" (not_null (col "started_at" "TIMESTAMPTZ"));
     col "completed_at" "TIMESTAMPTZ"; not_null (text "status"); not_null (text "type");
     with_default "0" (col "size_bytes" "BIGINT"); with_default "0" (col "tables_count" "INTEGER");
     text "file_path"; text "error_message"; with_default "FALSE" (col "verified" "BOOLEAN");
     col "verified_at" "TIMESTAMPTZ"] [] [].
Definition user_totp_table : ddl := create_table "user_totp" [
     uuid_key; unique (not_null (text "user_id")); not_null (text "secret_encrypted");
     not_null (text "secret_iv"); not_null (text "secret_tag");
     with_default "FALSE" (col "is_enabled" "BOOLEAN"); col "enabled_at" "TIMESTAMPTZ";
     not_null (text "backup_codes_hash"); col "last_used_at" "TIMESTAMPTZ"; stampz "created_at"] [] [].
Definition audit_trail_partitioned_table : ddl := CreateTable "audit_trail_partitioned"
  {| t_columns := [
     not_null (with_default "gen_random_uuid()" (col "id" "UUID")); not_null (text "user");
     not_null (text "action"); not_null (text "module"); text "details"; not_null (stamp "timestamp")];
     t_keys := [["id"; "timestamp"]]; t_foreign := []; t_partitioned := Some "timestamp" |}.
Definition permission_audit_logs_table : ddl := create_table "permission_audit_logs" [
     uuid_key; not_null (text "event_type"); not_null (text "actor_user_id"); text "target_role_id";
     text "target_user_id"; text "old_state"; text "new_state";
     with_default "CURRENT_TIMESTAMP" (not_null (col "timestamp" "TIMESTAMPTZ"))] [] [].
Definition task_assignments_table : ddl := create_table "task_assignments" [
     uuid_key; references "audit_tasks" "id" (not_null (col "task_id" "UUID"));
     references "users" "id" (not_null (col "user_id" "UUID")); stampz "assigned_at";
     references "users" "id" (col "assigned_by" "UUID")] [["task_id"; "user_id"]] [].
Definition program_risk_links_table : ddl := create_table "program_risk_links" [
     uuid_key; references "audit_programs" "id" (not_null (col "program_id" "UUID"));
     references "risk_register" "id" (not_null (col "risk_id" "UUID")); stampz "created_at"] [["program_id"; "risk_id"]] [].
Definition program_compliance_links_table : ddl := create_table "program_compliance_links" [
     uuid_key; references "audit_programs" "id" (not_null (col "program_id" "UUID"));
     references "compliance_items" "id" (not_null (col "compliance_item_id" "UUID")); stampz "created_at"] [["program_id"; "compliance_item_id"]] [].
Definition archived_plans_table : ddl := create_table "archived_plans" [
     uuid_key; not_null (col "original_plan_id" "UUID"); not_null (col "plan_data" "JSONB");
     not_null (col "year" "INTEGER"); stampz "archived_at"; references "users" "id" (col "archived_by" "UUID")] [] [].
Definition archived_tasks_table : ddl := create_table "archived_tasks" [
     uuid_key; not_null (col "original_task_id" "UUID"); not_null (col "plan_id" "UUID");
     not_null (col "task_data" "JSONB"); stampz "archived_at"] [] [].
Definition archived_findings_table : ddl := create_table "archived_findings" [
     uuid_key; not_null (col "original_finding_id" "UUID"); not_null (col "plan_id" "UUID");
     not_null (col "finding_data" "JSONB"); stampz "archived_at"] [] [].
Definition archived_recommendations_table : ddl := create_table "archived_recommendations" [
     uuid_key; not_null (col "original_recommendation_id" "UUID"); not_null (col "plan_id" "UUID");
     not_null (col "recommendation_data" "JSONB"); stampz "archived_at"] [] [].
Definition archived_evidence_table : ddl := create_table "archived_evidence" [
     uuid_key; not_null (col "original_evidence_id" "UUID"); not_null (col "plan_id" "UUID");
     not_null (col "evidence_data" "JSONB"); stampz "archived_at"] [] [].
Definition numbering_counters_table : ddl := create_table "numbering_counters" [
     not_null (text "scope_type"); not_null (text "scope_id");
     with_default "0" (not_null (col "last_value" "INTEGER"))] [["scope_type"; "scope_id"]] [].

(** ** The base schema, [runMigrations] *)

Definition coreTables : list ddl :=
  [
    users_table; audit_programs_table; audit_plans_table; audit_procedures_table; audit_findings_table;
    recommendations_table; risk_register_table; central_bank_instructions_table; audit_trail_table;
    internal_policies_table].

Definition userManagementTables : list ddl :=
  [
    org_entities_table; audit_tasks_table; finding_risks_table; compliance_items_table; finding_compliance_table;
    law_bank_table; fraud_log_table; audit_reports_table; system_error_log_table; job_titles_table;
    outgoing_letters_table; app_settings_table; refresh_tokens_table; system_policies_table; pdf_settings_table;
    pdf_templates_table; notifications_table; password_reset_requests_table; password_history_table;
    fraud_access_requests_table; conflict_of_interest_table; org_structure_table; audit_evidence_table;
    roles_table; permissions_table; role_permissions_table; user_permissions_table; login_history_table;
    user_sessions_table; permission_change_logs_table; user_management_settings_table; departments_table;
    incoming_correspondence_table; outgoing_correspondence_table; correspondence_attachments_table;
    correspondence_referrals_table; correspondence_links_table; correspondence_status_history_table;
    incoming_letters_table].

Definition column_migrations : list (string * column) := [
    ("audit_findings", unique (col "finding_number" "VARCHAR(50)")); ("audit_findings", text "finding_type");
    ("audit_findings", text "impact"); ("audit_findings", text "root_cause");
    ("audit_findings", references "org_entities" "id" (col "responsible_unit_id" "UUID"));
    ("audit_findings", references "risk_register" "id" (col "risk_id" "UUID"));
    ("audit_findings", references "users" "id" (col "created_by" "UUID"));
    ("audit_findings", col "deleted_at" "TIMESTAMPTZ");
    ("recommendations", unique (col "rec_number" "VARCHAR(70)")); ("recommendations", text "action_plan");
    ("recommendations", references "users" "id" (col "responsible_person_id" "UUID"));
    ("recommendations", with_default "'medium'" (text "priority"));
    ("recommendations", col "follow_up_date" "DATE"); ("recommendations", text "closure_evidence_path");
    ("recommendations", references "users" "id" (col "closed_by" "UUID"));
    ("recommendations", col "closed_at" "TIMESTAMPTZ");
    ("recommendations", references "users" "id" (col "created_by" "UUID"));
    ("risk_register", col "likelihood_num" "INTEGER"); ("risk_register", col "impact_num" "INTEGER");
    ("risk_register", col "risk_score_calc" "INTEGER"); ("risk_register", text "risk_level_calc");
    ("audit_plans", stamp "updated_at"); ("audit_tasks", stamp "updated_at");
    ("audit_procedures", stamp "updated_at"); ("audit_evidence", stamp "created_at");
    ("audit_evidence", stamp "updated_at"); ("risk_register", stamp "created_at");
    ("risk_register", stamp "updated_at"); ("fraud_log", stamp "updated_at");
    ("central_bank_instructions", stamp "created_at"); ("central_bank_instructions", stamp "updated_at");
    ("law_bank", stamp "updated_at"); ("audit_reports", stamp "updated_at");
    ("audit_findings", stamp "created_at"); ("audit_findings", stamp "updated_at");
    ("recommendations", stamp "created_at"); ("recommendations", stamp "updated_at");
    ("fraud_access_requests", col "expires_at" "TIMESTAMP");
    ("fraud_access_requests", col "response_date" "TIMESTAMP");
    ("fraud_access_requests", col "responded_by" "UUID"); ("fraud_access_requests", text "rejection_reason");
    ("conflict_of_interest", text "reviewer_notes"); ("users", col "password_last_changed" "TIMESTAMP");
    ("users", unique (text "employee_id")); ("users", col "org_entity_id" "UUID");
    ("users", col "division_id" "UUID"); ("users", col "unit_id" "UUID");
    ("password_reset_requests", text "temp_password");
    ("password_reset_requests", col "resolved_date" "TIMESTAMP");
    ("password_reset_requests", col "resolved_by" "UUID");
    ("users", with_default "0" (col "failed_attempts" "INTEGER"));
    ("users", with_default "1" (col "session_version" "INTEGER"));
    ("users", with_default "0" (col "requires_password_change" "INTEGER")); ("users", col "role_id" "UUID");
    ("users", text "unit"); ("users", col "reporting_manager_id" "UUID"); ("users", text "access_scope");
    ("users", text "phone_number"); ("users", text "notes"); ("audit_plans", text "department");
    ("audit_plans", text "type"); ("audit_plans", text "risk_rating");
    ("audit_plans", text "planned_start_date"); ("audit_plans", text "planned_end_date");
    ("audit_plans", text "lead_auditor"); ("audit_plans", text "notes");
    ("audit_plans", unique (text "plan_code")); ("system_error_log", with_default "'error'" (text "severity"));
    ("system_error_log", text "user_agent"); ("system_error_log", text "url");
    ("system_error_log", text "request_data"); ("login_history", text "user_agent");
    ("audit_procedures", text "control_test_type"); ("audit_procedures", text "expected_evidence");
    ("audit_procedures", text "sampling_method"); ("audit_procedures", text "responsible_auditor");
    ("audit_procedures", text "remarks"); ("user_sessions", text "refresh_token");
    ("refresh_tokens", col "revoked_at" "TIMESTAMP");
    ("outgoing_letters", with_default "'Draft'" (text "status")); ("audit_trail", text "hash");
    ("audit_trail", text "previous_hash"); ("audit_trail", with_default "nextval" (col "seq" "BIGSERIAL"));
    ("notifications", col "actor_id" "UUID"); ("notifications", col "entity_id" "UUID");
    ("notifications", text "entity_type"); ("notifications", with_default "'{}'" (col "data" "JSONB"));
    ("notifications", text "title");
    ("user_management_settings", with_default "0" (col "two_factor_auth" "INTEGER"))].

Definition foreignKeys : list ddl := [
    AddForeignKey "fk_org_entity" "users" "org_entity_id" ("org_entities", "id");
    AddForeignKey "fk_manager" "users" "reporting_manager_id" ("users", "id");
    AddForeignKey "fk_resolved_by" "password_reset_requests" "resolved_by" ("users", "id");
    AddForeignKey "fk_responded_by" "fraud_access_requests" "responded_by" ("users", "id")].

Definition base_indexes : list ddl := [
    index_on "idx_audit_trail_timestamp" "audit_trail" ["timestamp"];
    index_on "idx_audit_trail_user" "audit_trail" ["user"]; index_on "idx_users_username" "users" ["username"];
    index_on "idx_users_department" "users" ["department"]; index_on "idx_users_role" "users" ["role"];
    index_on "idx_incoming_correspondence_is_archived" "incoming_correspondence" ["is_archived"];
    index_on "idx_incoming_correspondence_status" "incoming_correspondence" ["status"];
    index_on "idx_incoming_correspondence_seq" "incoming_correspondence" ["sequence_number"];
    index_on "idx_incoming_correspondence_date" "incoming_correspondence" ["letter_date"];
    index_on "idx_outgoing_correspondence_is_archived" "outgoing_correspondence" ["is_archived"];
    index_on "idx_outgoing_correspondence_seq" "outgoing_correspondence" ["sequence_number"];
    index_on "idx_outgoing_correspondence_date" "outgoing_correspondence" ["letter_date"];
    index_on "idx_notifications_user_id" "notifications" ["user_id"];
    index_on "idx_notifications_status" "notifications" ["status"];
    index_on "idx_notifications_user_status" "notifications" ["user_id"; "status"];
    index_on "idx_notifications_user_date" "notifications" ["user_id"; "date"];
    index_on "idx_audit_plans_status" "audit_plans" ["status"];
    index_on "idx_audit_plans_risk" "audit_plans" ["risk_rating"];
    index_on "idx_audit_plans_program_id" "audit_plans" ["program_id"];
    index_on "idx_audit_findings_audit_id" "audit_findings" ["audit_id"];
    index_on "idx_audit_findings_risk" "audit_findings" ["risk_level"];
    index_on "idx_audit_trail_module" "audit_trail" ["module"];
    index_on "idx_audit_trail_action" "audit_trail" ["action"];
    index_on "idx_risk_register_rating" "risk_register" ["rating"];
    index_on "idx_risk_register_status" "risk_register" ["status"];
    index_on "idx_recommendations_finding_id" "recommendations" ["finding_id"];
    index_on "idx_audit_tasks_plan_id" "audit_tasks" ["plan_id"];
    index_on "idx_audit_plans_type" "audit_plans" ["type"];
    index_on "idx_audit_plans_department" "audit_plans" ["department"];
    index_on "idx_risk_register_type" "risk_register" ["type"];
    index_on "idx_audit_tasks_assigned_to" "audit_tasks" ["assigned_to"];
    index_on "idx_audit_tasks_status" "audit_tasks" ["status"];
    index_on "idx_audit_tasks_deleted_at" "audit_tasks" ["deleted_at"];
    index_on "idx_audit_findings_status" "audit_findings" ["status"];
    index_on "idx_audit_findings_deleted_at" "audit_findings" ["deleted_at"];
    index_on "idx_audit_evidence_audit_id" "audit_evidence" ["audit_id"];
    index_on "idx_audit_evidence_finding_id" "audit_evidence" ["finding_id"];
    index_on "idx_recommendations_status" "recommendations" ["status"];
    index_on "idx_recommendations_responsible" "recommendations" ["responsible_person_id"];
    index_on "idx_login_history_user_id" "login_history" ["user_id"];
    index_on "idx_login_history_login_time" "login_history" ["login_time"];
    index_on "idx_user_sessions_user_id" "user_sessions" ["user_id"];
    index_on "idx_user_sessions_status" "user_sessions" ["status"];
    index_on "idx_refresh_tokens_user_id" "refresh_tokens" ["user_id"];
    index_on "idx_refresh_tokens_expires_at" "refresh_tokens" ["expires_at"];
    index_on "idx_system_error_log_timestamp" "system_error_log" ["timestamp"];
    index_on "idx_system_error_log_severity" "system_error_log" ["severity"];
    index_on "idx_correspondence_attachments_corr_id" "correspondence_attachments" ["correspondence_id"];
    index_on "idx_correspondence_referrals_incoming_id" "correspondence_referrals" ["incoming_id"];
    index_on "idx_password_history_user_id" "password_history" ["user_id"];
    index_on "idx_compliance_items_status" "compliance_items" ["compliance_status"];
    index_on "idx_compliance_items_source_type" "compliance_items" ["source_type"];
    index_on "idx_compliance_items_deleted_at" "compliance_items" ["deleted_at"]].

Definition addColumnIfNotExists : list column := [
    text "source_type"; text "category"; text "effective_date"; text "review_date";
    col "maturity_score" "INTEGER"; text "gap_notes";
    references "org_entities" "id" (col "department_id" "UUID"); text "description"; text "keywords";
    text "version"; col "deleted_at" "TIMESTAMPTZ"; references "users" "id" (col "deleted_by" "UUID")].

Definition outgoingLettersSoftDelete : list ddl :=
  [AddColumn "outgoing_letters" (col "deleted_at" "TIMESTAMPTZ"); AddColumn "outgoing_letters" (col "deleted_by" "UUID");
   index_on "idx_outgoing_letters_deleted_at" "outgoing_letters" ["deleted_at"]].

(** A statement of the bootstrap: fatal, unless the error says that the object
    exists; logged and passed over; or a [try] block, which the first failing
    statement leaves, those with a [try] of their own excepted. *)
Inductive boot_step : Type :=
  | Fatal (d : ddl)
  | Logged (d : ddl)
  | Attempt (ds : list (bool * ddl)).

Definition isBenignAlreadyExistsError (e : string) : bool := includes (toLowerCase e) "already exists".

(** The catalogue after the block and the errors it swallowed. *)
Fixpoint attempt (ds : list (bool * ddl)) (k : catalogue) : catalogue * list string :=
  match ds with
  | [] => (k, [])
  | (own, d) :: ds =>
      match exec d k with
      | Ok k => attempt ds k
      | Throw e => if own : bool then let '(k, es) := attempt ds k in (k, e :: es) else (k, [e])
      end
  end.

(** The catalogue and the errors that were logged; [Throw] aborts the start. *)
Fixpoint run_steps (steps : list boot_step) (k : catalogue) (log : list string) : outcome string (catalogue * list string) :=
  match steps with
  | [] => Ok (k, log)
  | Fatal d :: steps =>
      match exec d k with
      | Ok k => run_steps steps k log
      | Throw e => if isBenignAlreadyExistsError e then run_steps steps k log else Throw e
      end
  | Logged d :: steps =>
      match exec d k with Ok k => run_steps steps k log | Throw e => run_steps steps k (log ++ [e]) end
  | Attempt ds :: steps => let '(k, es) := attempt ds k in run_steps steps k (log ++ es)
  end.

Definition notification_recipient_steps : list (bool * ddl) :=
  map (pair false)
    [notification_recipients_table;
     index_on "idx_notif_recip_user_read" "notification_recipients" ["recipient_id"; "is_read"];
     index_on "idx_notif_recip_user_date" "notification_recipients" ["recipient_id"; "created_at"];
     index_on "idx_notif_recip_notif_id" "notification_recipients" ["notification_id"]].

Definition compliance_steps : list (bool * ddl) :=
  [(false, compliance_items_full_table)] ++ map (λ c, (true, AddColumn "compliance_items" c)) addColumnIfNotExists ++
  map (pair true) outgoingLettersSoftDelete ++
  [(true, AddCheck "compliance_items_compliance_status_check" "compliance_items"); (false, finding_compliance_full_table)].

Definition base_schema : list boot_step :=
  map Fatal coreTables ++ map Fatal userManagementTables ++ [Attempt [(false, comments_table)]] ++
  [Attempt notification_recipient_steps] ++ map (λ m, Logged (AddColumn m.1 m.2)) column_migrations ++
  map Logged foreignKeys ++ map Logged base_indexes ++ [Attempt compliance_steps] ++
  [Attempt [(false, CreateTrigger "audit_trail_immutable" "audit_trail")]].

Definition runMigrations (k : catalogue) : outcome string (catalogue * list string) := run_steps base_schema k [].

(** ** The versioned migrations *)

(** A step of a migration, inside its transaction. *)
Definition exec_step (d : ddl) : action string catalogue unit := λ k,
  match exec d k with Ok k' => (Ok tt, k') | Throw e => (Throw e, k) end.
Definition schema_migration (version name : string) (ds : list ddl) : Migration :=
  {| MigrationRunner.version := version; MigrationRunner.name := name; MigrationRunner.type := "schema";
     up := for_each exec_step ds; down := None |}.

Definition add_columns (table : string) (cs : list column) : list ddl := map (AddColumn table) cs.

Definition softDeleteTables : list string :=
  ["audit_programs"; "audit_plans"; "recommendations"; "risk_register"; "audit_evidence"; "audit_reports"; "fraud_log";
   "incoming_correspondence"; "outgoing_letters"; "correspondence_attachments"].
Definition tablesNeedingDeletedBy : list string := ["audit_tasks"; "audit_findings"; "compliance_items"].

Definition soft_delete_columns (table : string) : list ddl :=
  add_columns table [col "deleted_at" "TIMESTAMPTZ"; col "deleted_by" "UUID"] ++
  [index_on ("idx_" +:+ table +:+ "_deleted_at") table ["deleted_at"]].

Definition migration_002 : list ddl :=
  [idempotency_keys_table; index_on "idx_idempotency_keys_key_user" "idempotency_keys" ["idempotency_key"; "user_id"];
   index_on "idx_idempotency_keys_expires_at" "idempotency_keys" ["expires_at"];
   request_logs_table; index_on "idx_request_logs_request_id" "request_logs" ["request_id"];
   index_on "idx_request_logs_user_id" "request_logs" ["user_id"];
   index_on "idx_request_logs_created_at" "request_logs" ["created_at"];
   index_on "idx_request_logs_status_code" "request_logs" ["status_code"];
   file_access_logs_table; index_on "idx_file_access_logs_user_id" "file_access_logs" ["user_id"];
   index_on "idx_file_access_logs_file_path" "file_access_logs" ["file_path"];
   index_on "idx_file_access_logs_created_at" "file_access_logs" ["created_at"];
   dead_letter_queue_table; index_on "idx_dead_letter_queue_event_type" "dead_letter_queue" ["event_type"];
   index_on "idx_dead_letter_queue_created_at" "dead_letter_queue" ["created_at"]] ++
  concat (map soft_delete_columns softDeleteTables) ++
  concat (map (λ t, add_columns t [col "deleted_by" "UUID"]) tablesNeedingDeletedBy).

Definition migration_003 : list ddl :=
  [encrypted_files_table; index_on "idx_encrypted_files_uploaded_by" "encrypted_files" ["uploaded_by"];
   index_on "idx_encrypted_files_module" "encrypted_files" ["module"];
   index_on "idx_encrypted_files_key_version" "encrypted_files" ["key_version"]].
Definition migration_004 : list ddl :=
  [backup_history_table; index_on "idx_backup_history_started_at" "backup_history" ["started_at"]].
Definition migration_005 : list ddl :=
  [user_totp_table; index_on "idx_user_totp_user_id" "user_totp" ["user_id"];
   AddColumn "users" (with_default "FALSE" (col "requires_2fa_setup" "BOOLEAN"))].

(** A partition has the columns of its parent. *)
Definition create_partition (parent name : string) : action string catalogue unit := λ k,
  match map_get parent k.(tables) with
  | None => (Throw (missing_relation parent), k)
  | Some t => exec_step (CreateTable name {| t_columns := t.(t_columns); t_keys := t.(t_keys); t_foreign := t.(t_foreign);
                                             t_partitioned := None |}) k
  end.

(** Migration 006 for given names of partitions; [has_rows] is whether the trail is not empty. *)
Definition migration_006 (isExternal : bool) (near old : list string) (has_rows : bool) : action string catalogue unit :=
  k ← get_state;
  if negb isExternal then mret tt
  else match map_get "audit_trail" k.(tables) with
  | Some {| t_partitioned := Some _ |} => mret tt
  | _ =>
      _ ← exec_step audit_trail_partitioned_table;
      _ ← for_each (create_partition "audit_trail_partitioned") near;
      _ ← (if has_rows : bool then
             _ ← for_each (create_partition "audit_trail_partitioned") old;
             _ ← exec_step (Rows "audit_trail_partitioned" ["id"; "user"; "action"; "module"; "details"; "timestamp"]);
             exec_step (Rows "audit_trail" ["id"; "user"; "action"; "module"; "details"; "timestamp"])
           else mret tt);
      _ ← exec_step (RenameTable "audit_trail" "audit_trail_old");
      exec_step (RenameTable "audit_trail_partitioned" "audit_trail")
  end.

Definition migration_007 : list ddl :=
  [permission_audit_logs_table; index_on "idx_perm_audit_actor" "permission_audit_logs" ["actor_user_id"];
   index_on "idx_perm_audit_target_role" "permission_audit_logs" ["target_role_id"];
   index_on "idx_perm_audit_target_user" "permission_audit_logs" ["target_user_id"];
   index_on "idx_perm_audit_event_type" "permission_audit_logs" ["event_type"];
   index_on "idx_perm_audit_timestamp" "permission_audit_logs" ["timestamp"]].

Definition migration_008 : list ddl :=
  add_columns "audit_plans"
    [col "year" "INTEGER"; with_default "'Annual'" (text "quarter"); with_default "false" (col "is_archived" "BOOLEAN");
     col "archived_at" "TIMESTAMPTZ"; references "users" "id" (col "archived_by" "UUID")] ++
  [task_assignments_table; program_risk_links_table; program_compliance_links_table] ++
  add_columns "audit_findings"
    [with_default "'control_design_deficiency'" (text "finding_type"); references "users" "id" (col "created_by" "UUID");
     text "title"] ++
  [Rows "audit_findings" ["title"; "finding_number"; "id"]; SetNotNull "audit_findings" "title"] ++
  add_columns "recommendations" [references "audit_plans" "id" (col "plan_id" "UUID")] ++
  add_columns "audit_evidence" [text "evidence_number"; text "file_path"] ++
  add_columns "audit_programs" [references "users" "id" (col "approved_by" "UUID"); col "approved_at" "TIMESTAMPTZ"] ++
  [archived_plans_table; archived_tasks_table; archived_findings_table; archived_recommendations_table;
   archived_evidence_table; numbering_counters_table;
   index_on "idx_audit_plans_year" "audit_plans" ["year"]; index_on "idx_audit_plans_quarter" "audit_plans" ["quarter"];
   index_on "idx_audit_plans_is_archived" "audit_plans" ["is_archived"];
   index_on "idx_audit_findings_plan_id" "audit_findings" ["audit_id"];
   index_on "idx_audit_findings_created_by" "audit_findings" ["created_by"];
   index_on "idx_recommendations_plan_id" "recommendations" ["plan_id"];
   index_on "idx_task_assignments_task_id" "task_assignments" ["task_id"];
   index_on "idx_task_assignments_user_id" "task_assignments" ["user_id"];
   index_on "idx_archived_plans_year" "archived_plans" ["year"];
   index_on "idx_audit_evidence_finding_id" "audit_evidence" ["finding_id"]].

Definition migration_009 : list ddl :=
  [AddColumn "pdf_templates" (col "template_type_key" "VARCHAR(50)");
   Rows "pdf_templates" ["template_type_key"; "template_type"]; SetNotNull "pdf_templates" "template_type_key";
   SetDefault "pdf_templates" "template_type_key" "'general'";
   index_on "idx_pdf_templates_type_key_status" "pdf_templates" ["template_type_key"; "status"; "is_default"];
   index_on "idx_one_default_per_type" "pdf_templates" ["template_type_key"; "is_default"; "status"]].
Definition migration_010 : list ddl :=
  [DropNotNull "audit_tasks" "plan_id"; AddColumn "audit_tasks" (with_default "'audit_plan'" (col "task_type" "VARCHAR(20)"))].
Definition migration_011 : list ddl :=
  add_columns "users" [with_default "0" (col "totp_failed_attempts" "INTEGER"); col "totp_locked_until" "TIMESTAMP"].

(** What the process finds: the kind of database, the names of the partitions for the date, the rows of the trail. *)
Record boot_env := { bo_isExternal : bool; bo_near : list string; bo_old : list string; bo_trail_rows : bool }.

Definition versionedMigrations (b : boot_env) : list Migration :=
  [{| MigrationRunner.version := "001"; MigrationRunner.name := "Unify Administrator role to Admin";
      MigrationRunner.type := "seed"; up := exec_step (Rows "users" ["role"]); down := None |};
   schema_migration "002" "Add API audit tables and soft delete columns" migration_002;
   schema_migration "003" "Add encrypted_files table for file encryption at rest" migration_003;
   schema_migration "004" "Add backup_history table for backup scheduling" migration_004;
   schema_migration "005" "Add user_totp table and requires_2fa_setup column for 2FA" migration_005;
   {| MigrationRunner.version := "006"; MigrationRunner.name := "Convert audit_trail to range-partitioned table by timestamp";
      MigrationRunner.type := "schema";
      up := migration_006 b.(bo_isExternal) b.(bo_near) b.(bo_old) b.(bo_trail_rows); down := None |};
   schema_migration "007" "Create permission_audit_logs table for permission change auditing" migration_007;
   schema_migration "008" "Audit modules restructure - tables, columns, and indexes" migration_008;
   schema_migration "009" "Add template_type_key column to pdf_templates" migration_009;
   schema_migration "010" "Make audit_tasks.plan_id nullable for routine tasks" migration_010;
   schema_migration "011" "Add per-user 2FA brute-force lockout columns" migration_011].

(** [index.ts]: the base schema, then the runner; the result and the errors logged. *)
Definition boot_schema (b : boot_env) (now : Z) (s : mig_state) : outcome string (list string) * mig_state :=
  match runMigrations s.(ms_data) with
  | Throw e => (Throw e, s)
  | Ok (k, log) =>
      let s := {| ms_data := k; ms_table := s.(ms_table) |} in
      match (_ ← MigrationRunner.initialize; run numeric_compare now (versionedMigrations b)) s with
      | (Ok _, s') => (Ok log, s')
      | (Throw e, s') => (Throw e, s')
      end
  end.

Definition new_database : mig_state := {| ms_data := empty_catalogue; ms_table := None |}.

(** ** The bootstrap can be run again *)

Definition step_statements (st : boot_step) : list ddl :=
  match st with Fatal d | Logged d => [d] | Attempt ds => map snd ds end.

(** The errors of a fatal statement are not taken for benign ones. *)
Definition fatal_step_ok (st : boot_step) : bool :=
  match st with
  | Fatal (CreateTable n _) => negb (isBenignAlreadyExistsError ("invalid reference in " +:+ n))
  | Fatal _ => false
  | _ => true
  end.

Lemma exec_create_error n t k e : exec (CreateTable n t) k = Throw e →
  e = "column specified more than once" ∨ e = "invalid reference in " +:+ n.
Proof.
  unfold exec. destruct (has_table k n); [done|]. destruct (negb _); [intros [= <-]; by left|].
  destruct (forallb _ _); [done|]. intros [= <-]. by right.
Qed.

Lemma exec_all_app ds1 ds2 k : exec_all (ds1 ++ ds2) k =
  match exec_all ds1 k with Ok k' => exec_all ds2 k' | Throw e => Throw e end.
Proof. revert k. induction ds1 as [|d ds1 IH]; intros k; cbn [exec_all app]; [done|]. by destruct (exec d k). Qed.

Lemma attempt_no_error ds : ∀ k k', attempt ds k = (k', []) → exec_all (map snd ds) k = Ok k'.
Proof.
  induction ds as [|[own d] ds IH]; intros k k' H; cbn [attempt map exec_all snd] in *; [congruence|].
  destruct (exec d k) as [k1|e]; [by apply IH|]. destruct own; [|done]. by destruct (attempt ds k).
Qed.

Lemma run_steps_log steps : ∀ k log k' log', run_steps steps k log = Ok (k', log') → ∃ es, log' = log ++ es.
Proof.
  induction steps as [|st steps IH]; intros k log k' log' H; cbn [run_steps] in H.
  - injection H as _ <-. exists []. by rewrite app_nil_r.
  - destruct st as [d|d|ds].
    + destruct (exec d k); [by eapply IH|]. destruct (isBenignAlreadyExistsError e); [by eapply IH|done].
    + destruct (exec d k); [by eapply IH|]. apply IH in H as [es ->]. eexists. by rewrite <- app_assoc.
    + destruct (attempt ds k). apply IH in H as [es ->]. eexists. by rewrite <- app_assoc.
Qed.

Lemma run_steps_no_error steps : ∀ k log k', forallb fatal_step_ok steps = true →
  run_steps steps k log = Ok (k', log) → exec_all (concat (map step_statements steps)) k = Ok k'.
Proof.
  assert (Hlong : ∀ (log es es' : list string), es ≠ [] → (log ++ es) ++ es' ≠ log).
  { intros log es es' Hes H. apply (f_equal length) in H. rewrite !length_app in H. destruct es; [done|]. cbn in H. lia. }
  induction steps as [|st steps IH]; intros k log k' Hok H; cbn [run_steps map concat forallb] in *; [injection H as <-; done|].
  apply andb_true_iff in Hok as [Hst Hok]. rewrite exec_all_app. destruct st as [d|d|ds]; cbn [step_statements exec_all].
  - destruct (exec d k) as [k1|e] eqn:He; [by eapply IH|]. destruct d; try discriminate Hst.
    destruct (exec_create_error _ _ _ _ He) as [->| ->]; [by vm_compute in H|].
    cbn [fatal_step_ok] in Hst. apply negb_true_iff in Hst. by rewrite Hst in H.
  - destruct (exec d k) as [k1|e] eqn:He; [by eapply IH|]. destruct (run_steps_log _ _ _ _ _ H) as [es Hes].
    symmetry in Hes. by apply Hlong in Hes.
  - destruct (attempt ds k) as [k1 es] eqn:Ha. destruct es as [|e es].
    + rewrite (attempt_no_error _ _ _ Ha). rewrite app_nil_r in H. by eapply IH.
    + destruct (run_steps_log _ _ _ _ _ H) as [es' Hes]. symmetry in Hes. by apply Hlong in Hes.
Qed.

Lemma attempt_satisfied ds k : Forall (λ d, satisfied d k) (map snd ds) → attempt ds k = (k, []).
Proof.
  induction ds as [|[own d] ds IH]; cbn [map snd attempt]; intros H; [done|].
  apply Forall_cons_1 in H as [Hd Hds]. rewrite (satisfied_exec d k Hd). by apply IH.
Qed.

Lemma run_steps_satisfied steps k log : Forall (λ d, satisfied d k) (concat (map step_statements steps)) →
  run_steps steps k log = Ok (k, log).
Proof.
  induction steps as [|st steps IH]; intros H; cbn [run_steps map concat] in *; [done|].
  apply Forall_app in H as [Hst Hrest]. specialize (IH Hrest). destruct st as [d|d|ds]; cbn [step_statements] in Hst.
  - apply Forall_cons_1 in Hst as [Hd _]. by rewrite satisfied_exec.
  - apply Forall_cons_1 in Hst as [Hd _]. by rewrite satisfied_exec.
  - rewrite attempt_satisfied by done. by rewrite app_nil_r.
Qed.

Lemma base_schema_additive :
  forallb additive (concat (map step_statements base_schema)) && forallb fatal_step_ok base_schema = true.
Proof. vm_compute. reflexivity. Qed.

(** on any database, once the base schema went through without an error, running it
    again finds everything in place and changes nothing, whatever other statements
    but renames ran in between. *)
Theorem bootstrap_is_idempotent k k' ds k''
    (Hrun : runMigrations k = Ok (k', [])) (Hbetween : Forall (fun d => is_rename d = false) ds)
    (Hother : exec_all ds k' = Ok k'') :
  runMigrations k'' = Ok (k'', []).
Proof.
  pose proof base_schema_additive as [Hadd Hfatal]%andb_true_iff. unfold runMigrations in *.
  apply run_steps_satisfied. apply (run_steps_no_error _ _ _ _ Hfatal) in Hrun.
  apply forallb_elem in Hadd. pose proof (exec_all_satisfies _ _ _ Hadd Hrun) as Hsat.
  eapply Forall_impl; [exact Hsat|]. intros d. apply satisfied_extends. by eapply exec_all_extends.
Qed.

(** ** Every boot keeps the catalogue in order *)

Lemma attempt_ok ds : ∀ k, catalogue_ok k → catalogue_ok (attempt ds k).1.
Proof.
  induction ds as [|[own d] ds IH]; intros k Hk; cbn [attempt]; [done|].
  destruct (exec d k) as [k1|e] eqn:He; [by apply IH; eapply exec_ok|].
  destruct own; [|done]. specialize (IH k Hk). by destruct (attempt ds k).
Qed.

Lemma run_steps_ok steps : ∀ k log k' log', catalogue_ok k → run_steps steps k log = Ok (k', log') → catalogue_ok k'.
Proof.
  induction steps as [|st steps IH]; intros k log k' log' Hk H; cbn [run_steps] in H; [by injection H as <- _|].
  destruct st as [d|d|ds].
  - destruct (exec d k) as [k1|e] eqn:He; [by eapply IH; [eapply exec_ok|]|].
    destruct (isBenignAlreadyExistsError e); [by eapply IH|done].
  - destruct (exec d k) as [k1|e] eqn:He; [by eapply IH; [eapply exec_ok|]|by eapply IH].
  - pose proof (attempt_ok ds k Hk) as Ha. destruct (attempt ds k). by eapply IH.
Qed.

Lemma exec_step_ok d : preserves catalogue_ok (exec_step d).
Proof. intros k Hk. unfold exec_step. destruct (exec d k) eqn:He; [by eapply exec_ok|done]. Qed.
#[local] Hint Resolve exec_step_ok : alsaqi.

Lemma create_partition_ok parent name : preserves catalogue_ok (create_partition parent name).
Proof. intros k Hk. unfold create_partition. destruct (map_get _ _); [by apply exec_step_ok|done]. Qed.
#[local] Hint Resolve create_partition_ok : alsaqi.

Lemma migration_006_ok e near old has_rows : preserves catalogue_ok (migration_006 e near old has_rows).
Proof.
  unfold migration_006. apply preserves_bind; [apply preserves_get|]. intros k.
  apply preserves_if; [apply preserves_ret|]. destruct (map_get "audit_trail" k.(tables)) as [[? ? ? [?|]]|];
    [apply preserves_ret|..];
    (repeat first [apply preserves_bind; [|intros ?] | apply preserves_for_each; intros ? | apply preserves_if
                  | apply preserves_ret | apply exec_step_ok | apply create_partition_ok]).
Qed.

Lemma versioned_ok b m : m ∈ versionedMigrations b → preserves catalogue_ok m.(up).
Proof.
  intros Hm. unfold versionedMigrations, schema_migration in Hm.
  repeat (apply elem_of_cons in Hm as [->|Hm]; [cbn [up]; first [apply migration_006_ok
    | apply exec_step_ok | apply preserves_for_each; apply exec_step_ok]|]).
  by apply elem_of_nil in Hm.
Qed.

Definition data_ok (s : mig_state) : Prop := catalogue_ok s.(ms_data).

Lemma run_one_ok now m : preserves catalogue_ok m.(up) → preserves data_ok (run_one now m).
Proof.
  intros Hm. apply preserves_transaction; [done|]. apply preserves_bind.
  - intros s Hs. unfold on_data. pose proof (Hm _ Hs). by destruct (up m (ms_data s)).
  - intros []. unfold insert_record. apply preserves_bind; [apply preserves_get|]. intros s.
    destruct (ms_table s); [|apply preserves_throw]. apply preserves_if; [apply preserves_throw|].
    by apply preserves_modify.
Qed.

Lemma preserves_for_each_in {E S A} (P : S → Prop) (f : A → action E S unit) l :
  (∀ x, x ∈ l → preserves P (f x)) → preserves P (for_each f l).
Proof.
  induction l as [|x l IH]; intros Hf; cbn [for_each]; [apply preserves_ret|].
  apply preserves_bind; [apply Hf; left|]. intros []. apply IH. intros y Hy. apply Hf. by right.
Qed.

(** whatever the kind of database, the date, the records and the state it starts
    from, a boot leaves the catalogue in order, also when a statement or a migration
    fails and the start is aborted. *)
Theorem boot_keeps_catalogue_in_order b now s (Hok : catalogue_ok s.(ms_data)) :
  catalogue_ok (boot_schema b now s).2.(ms_data).
Proof.
  unfold boot_schema. destruct (runMigrations (ms_data s)) as [[k log]|e] eqn:Hrun; [|done].
  assert (Hk : catalogue_ok k) by by eapply run_steps_ok.
  set (s1 := {| ms_data := k; ms_table := ms_table s |}).
  assert (Hpres : preserves data_ok (_ ← MigrationRunner.initialize; run numeric_compare now (versionedMigrations b))).
  { apply preserves_bind; [by apply preserves_modify|]. intros []. unfold run.
    intros s2 Hs2. unfold mbind, action_bind. destruct (ms_table s2) as [rows|] eqn:Ht.
    - rewrite (getPending_run numeric_compare _ _ rows Ht). apply preserves_for_each_in; [|done].
      intros m Hm. apply elem_of_pending in Hm as [Hm _]. by apply run_one_ok, (versioned_ok b).
    - unfold getPending, getApplied, get_state, mbind, action_bind. rewrite Ht. done. }
  specialize (Hpres s1 Hk).
  destruct ((_ ← MigrationRunner.initialize; run numeric_compare now (versionedMigrations b)) s1) as [[?|?] s2]; exact Hpres.
Qed.

Definition settled_catalogue : catalogue :=
  match runMigrations empty_catalogue with
  | Ok (k, _) => match runMigrations k with Ok (k', _) => k' | Throw _ => k end
  | Throw _ => empty_catalogue
  end.

Lemma bootstrap_is_idempotent_witness :
  ∃ k, exec_all [AddColumn "users" (col "badge" "TEXT"); DropNotNull "users" "email"] settled_catalogue = Ok k ∧
       runMigrations k = Ok (k, []).
Proof.
  eexists. split; [vm_compute; reflexivity|].
  apply (bootstrap_is_idempotent settled_catalogue settled_catalogue
    [AddColumn "users" (col "badge" "TEXT"); DropNotNull "users" "email"]).
  - vm_compute. reflexivity.
  - repeat constructor.
  - vm_compute. reflexivity.
Defined.

Lemma boot_keeps_catalogue_in_order_witness :
  catalogue_ok (boot_schema {| bo_isExternal := true; bo_near := ["audit_trail_2026_07"]; bo_old := [];
                               bo_trail_rows := true |} 0 new_database).2.(ms_data).
Proof. apply boot_keeps_catalogue_in_order, empty_ok. Defined.
