(* ===== verification/SchemaUse.v ===== *)
(** * The statements of the services against the schema

    Every [INSERT] the source writes out, as its table and columns, checked
    against the catalogue the migrations build.  An insert is accepted when the
    columns exist and no column is left out that must not be null and has no
    default.  The names are the file and the table of the statement. *)

From S2P Require Import Prelude JsMap JsStrings Catalogue MigrationRunner Schema Records AppCodes GenericRecords.

Definition insert : Type := string * list string.

Definition secureFile_file_access_logs : insert :=
  ("file_access_logs",
   ["user_id"; "file_path"; "access_type"; "result"; "ip_address"]).
Definition requestLogger_request_logs : insert :=
  ("request_logs",
   ["request_id"; "user_id"; "method"; "path"; "status_code"; "duration_ms"; "ip_address"; "user_agent";
    "error_message"]).
Definition idempotency_idempotency_keys : insert :=
  ("idempotency_keys",
   ["idempotency_key"; "user_id"; "method"; "path"; "response_status"; "response_body"; "expires_at"]).
Definition CommentService_comments : insert :=
  ("comments",
   ["related_type"; "related_id"; "user_id"; "content"]).
Definition CommentService_comments_2 : insert :=
  ("comments",
   ["related_type"; "related_id"; "user_id"; "content"]).
Definition NumberingService_numbering_counters : insert :=
  ("numbering_counters",
   ["scope_type"; "scope_id"; "last_value"]).
Definition CoiService_conflict_of_interest : insert :=
  ("conflict_of_interest",
   ["user_id"; "user_name"; "declaration_date"; "description"; "related_party"]).
Definition PermissionAuditService_permission_audit_logs : insert :=
  ("permission_audit_logs",
   ["event_type"; "actor_user_id"; "target_role_id"; "target_user_id"; "old_state"; "new_state"; "timestamp"]).
Definition LogService_system_error_log : insert :=
  ("system_error_log",
   ["message"; "stack"; "module"; "user_id"; "severity"; "user_agent"; "url"; "request_data"]).
Definition PdfTemplateService_pdf_templates : insert :=
  ("pdf_templates",
   ["id"; "template_name"; "template_type_key"; "template_type"; "content"; "status"; "is_default"; "version";
    "created_by"; "updated_by"; "created_at"; "updated_at"]).
Definition AuditService_audit_findings : insert :=
  ("audit_findings",
   ["audit_id"; "finding_number"; "title"; "description"; "criteria"; "condition"; "finding_type";
    "consequence"; "risk_level"; "status"; "created_by"]).
Definition AuditService_recommendations : insert :=
  ("recommendations",
   ["finding_id"; "plan_id"; "rec_number"; "department"; "responsible"; "due_date"; "status"; "risk_level"]).
Definition NotificationService_notifications : insert :=
  ("notifications",
   ["event_type"; "description"; "related_module"; "link"; "actor_id"; "entity_id"; "entity_type"; "data";
    "title"; "status"; "user_id"; "date"]).
Definition NotificationService_notification_recipients : insert :=
  ("notification_recipients",
   ["notification_id"; "recipient_id"]).
Definition NotificationService_notifications_2 : insert :=
  ("notifications",
   ["event_type"; "description"; "related_module"; "link"; "actor_id"; "entity_id"; "entity_type"; "data";
    "title"; "status"; "user_id"; "date"]).
Definition NotificationService_notifications_3 : insert :=
  ("notifications",
   ["user_id"; "event_type"; "description"; "related_module"; "link"; "status"; "actor_id"; "entity_id";
    "entity_type"; "data"]).
Definition PolicyService_internal_policies : insert :=
  ("internal_policies",
   ["title"; "department"; "version"; "upload_date"; "file_url"; "status"]).
Definition FraudService_fraud_access_requests : insert :=
  ("fraud_access_requests",
   ["user_id"; "user_name"; "reason"]).
Definition CircuitBreaker_dead_letter_queue : insert :=
  ("dead_letter_queue",
   ["event_type"; "payload"; "failure_reason"; "retry_count"]).
Definition EvidenceStorageService_audit_evidence : insert :=
  ("audit_evidence",
   ["audit_id"; "finding_id"; "evidence_number"; "type"; "description"; "uploaded_by"; "upload_date";
    "file_name"; "file_path"]).
Definition CorrespondenceService_incoming_correspondence : insert :=
  ("incoming_correspondence",
   ["sequence_number"; "letter_number"; "sender_entity"; "sender_entity_type"; "subject"; "letter_date";
    "receipt_date"; "classification"; "priority"; "method"; "receiving_dept_id"; "assigned_dept_id";
    "assigned_user_id"; "follow_up_required"; "follow_up_date"; "response_required"; "response_due_date";
    "notes"; "created_by"]).
Definition CorrespondenceService_correspondence_status_history : insert :=
  ("correspondence_status_history",
   ["correspondence_id"; "correspondence_type"; "old_status"; "new_status"; "changed_by"; "notes"]).
Definition CorrespondenceService_correspondence_referrals : insert :=
  ("correspondence_referrals",
   ["incoming_id"; "from_user_id"; "to_dept_id"; "to_user_id"; "notes"]).
Definition CorrespondenceService_correspondence_links : insert :=
  ("correspondence_links",
   ["incoming_id"; "outgoing_id"; "link_type"; "linked_by"]).
Definition CorrespondenceService_correspondence_attachments : insert :=
  ("correspondence_attachments",
   ["correspondence_id"; "correspondence_type"; "file_name"; "file_type"; "file_data"; "description";
    "uploaded_by"]).
Definition CorrespondenceService_outgoing_letters : insert :=
  ("outgoing_letters",
   ["sequence_number"; "letter_date"; "recipient_entity"; "subject"; "classification"; "sending_method";
    "attachment_file"; "created_by"]).
Definition ArchiveService_archived_plans : insert :=
  ("archived_plans",
   ["original_plan_id"; "plan_data"; "year"; "archived_by"]).
Definition ArchiveService_archived_tasks : insert :=
  ("archived_tasks",
   ["original_task_id"; "plan_id"; "task_data"]).
Definition ArchiveService_archived_findings : insert :=
  ("archived_findings",
   ["original_finding_id"; "plan_id"; "finding_data"]).
Definition ArchiveService_archived_recommendations : insert :=
  ("archived_recommendations",
   ["original_recommendation_id"; "plan_id"; "recommendation_data"]).
Definition ArchiveService_archived_evidence : insert :=
  ("archived_evidence",
   ["original_evidence_id"; "plan_id"; "evidence_data"]).
Definition AuditChainService_audit_trail : insert :=
  ("audit_trail",
   ["user"; "action"; "module"; "details"; "hash"; "previous_hash"; "timestamp"]).
Definition SettingsService_user_management_settings : insert :=
  ("user_management_settings",
   ["id"; "failed_login_threshold"; "inactive_account_threshold_days"; "password_min_length";
    "session_timeout_minutes"; "password_require_uppercase"; "password_require_lowercase";
    "password_require_numbers"; "password_require_symbols"; "password_expiry_days"; "enforce_single_session";
    "two_factor_auth"; "bulk_import_enabled"; "admin_approval_required"]).
Definition JobTitleService_job_titles : insert :=
  ("job_titles",
   ["name"; "department"; "job_level"; "description"; "reporting_to"; "status"]).
Definition PasswordService_password_reset_requests : insert :=
  ("password_reset_requests",
   ["user_id"; "username"; "name"; "department"]).
Definition PasswordService_password_history : insert :=
  ("password_history",
   ["user_id"; "password_hash"]).
Definition PasswordService_password_history_2 : insert :=
  ("password_history",
   ["user_id"; "password_hash"]).
Definition OrgService_org_entities : insert :=
  ("org_entities",
   ["entity_code"; "name_ar"; "name_en"; "entity_type"; "parent_id"; "manager_id"; "manager_name"; "level";
    "status"; "description"; "display_order"; "location"; "cost_center_code"; "notes"]).
Definition TOTPService_user_totp : insert :=
  ("user_totp",
   ["user_id"; "secret_encrypted"; "secret_iv"; "secret_tag"; "is_enabled"; "backup_codes_hash"; "created_at"]).
Definition UserService_users : insert :=
  ("users",
   ["username"; "password"; "name"; "email"; "department"; "job_title_id"; "role"; "unit";
    "reporting_manager_id"; "access_scope"; "phone_number"; "notes"; "role_id"; "status"; "created_at";
    "requires_password_change"; "employee_id"; "requires_2fa_setup"]).
Definition UserService_permission_change_logs : insert :=
  ("permission_change_logs",
   ["target_user_id"; "changed_by_id"; "old_role"; "new_role"; "reason"]).
Definition DepartmentService_org_entities : insert :=
  ("org_entities",
   ["id"; "entity_code"; "name_ar"; "name_en"; "entity_type"; "parent_id"; "manager_name"; "level"; "status";
    "description"; "location"; "cost_center_code"; "created_at"; "updated_at"]).
Definition AuditProgramService_audit_programs : insert :=
  ("audit_programs",
   ["program_code"; "program_title"; "audit_area"; "department"; "audit_type"; "audit_objective";
    "audit_scope"; "key_risks"; "reference_standard"; "status"; "version_number"; "created_by"]).
Definition AuditProgramService_program_risk_links : insert :=
  ("program_risk_links",
   ["program_id"; "risk_id"]).
Definition AuditProgramService_program_compliance_links : insert :=
  ("program_compliance_links",
   ["program_id"; "compliance_item_id"]).
Definition AuditProgramService_audit_procedures : insert :=
  ("audit_procedures",
   ["program_id"; "procedure_number"; "audit_step"; "audit_test_description"; "risk_addressed";
    "control_test_type"; "expected_evidence"; "sampling_method"; "responsible_auditor"; "remarks"]).
Definition RoleService_role_permissions : insert :=
  ("role_permissions",
   ["role_id"; "permission_id"]).
Definition PermissionService_role_permissions : insert :=
  ("role_permissions",
   ["role_id"; "permission_id"]).
Definition PermissionService_user_permissions : insert :=
  ("user_permissions",
   ["user_id"; "permission_id"; "is_allowed"]).
Definition AuthService_login_history : insert :=
  ("login_history",
   ["user_id"; "ip_address"; "user_agent"; "status"]).
Definition AuthService_refresh_tokens : insert :=
  ("refresh_tokens",
   ["token"; "user_id"; "expires_at"]).
Definition AuthService_user_sessions : insert :=
  ("user_sessions",
   ["user_id"; "session_token"; "refresh_token"; "ip_address"; "browser"; "status"]).
Definition AuthService_notifications : insert :=
  ("notifications",
   ["user_id"; "event_type"; "description"; "related_module"; "link"; "status"; "actor_id"; "entity_type"]).
Definition AuditPlanService_audit_reports : insert :=
  ("audit_reports",
   ["title"; "type"; "audit_id"; "summary"; "findings_included"; "status"; "created_by"]).
Definition AuditPlanService_system_error_log : insert :=
  ("system_error_log",
   ["user_id"; "module"; "url"; "message"; "stack"; "user_agent"; "request_data"; "severity"]).
Definition AuditTaskService_task_assignments : insert :=
  ("task_assignments",
   ["task_id"; "user_id"; "assigned_by"]).
Definition ComplianceService_compliance_items : insert :=
  ("compliance_items",
   ["id"; "ref_number"; "title"; "source_type"; "issuing_authority"; "category"; "issue_date";
    "effective_date"; "review_date"; "compliance_status"; "maturity_score"; "gap_notes";
    "responsible_person_id"; "department_id"; "description"; "keywords"; "version"; "attachment_path";
    "created_by"]).
Definition seed_system_policies : insert :=
  ("system_policies",
   ["policy_key"; "content"]).
Definition seed_compliance_items : insert :=
  ("compliance_items",
   ["ref_number"; "title"; "source_type"; "issuing_authority"; "category"; "issue_date"; "description";
    "compliance_status"; "created_at"]).
Definition seed_compliance_items_2 : insert :=
  ("compliance_items",
   ["ref_number"; "title"; "source_type"; "issuing_authority"; "issue_date"; "keywords"; "compliance_status";
    "created_at"]).
Definition seed_compliance_items_3 : insert :=
  ("compliance_items",
   ["ref_number"; "title"; "source_type"; "version"; "issue_date"; "attachment_path"; "compliance_status";
    "created_at"]).
Definition seed_permissions : insert :=
  ("permissions",
   ["module"; "action"; "description"]).
Definition seed_roles : insert :=
  ("roles",
   ["name"; "description"]).
Definition seed_role_permissions : insert :=
  ("role_permissions",
   ["role_id"; "permission_id"]).
Definition seed_users : insert :=
  ("users",
   ["username"; "password"; "name"; "email"; "phone_number"; "employee_id"; "role"; "role_id"; "department";
    "unit"; "job_title_id"; "language"; "theme"; "dashboard_layout"; "notifications_enabled"; "status";
    "session_version"; "requires_password_change"; "created_at"]).
Definition seed_users_2 : insert :=
  ("users",
   ["username"; "password"; "name"; "role"; "role_id"; "department"; "status"; "created_at"]).
Definition serverUtils_encrypted_files : insert :=
  ("encrypted_files",
   ["id"; "original_name"; "mime_type"; "original_size"; "encrypted_path"; "iv"; "auth_tag"; "checksum_sha256";
    "key_version"; "uploaded_by"; "module"]).
Definition backup_backup_history : insert :=
  ("backup_history",
   ["id"; "started_at"; "completed_at"; "status"; "type"; "size_bytes"; "tables_count"; "file_path";
    "error_message"; "verified"; "verified_at"]).
Definition permissionAdmin_roles : insert :=
  ("roles",
   ["name"; "description"; "is_custom"; "created_at"; "updated_at"]).
Definition permissionAdmin_user_permissions : insert :=
  ("user_permissions",
   ["user_id"; "permission_id"; "is_allowed"]).
Definition reports_audit_reports : insert :=
  ("audit_reports",
   ["id"; "audit_id"; "title"; "status"; "created_at"; "updated_at"]).
Definition twoFactor_refresh_tokens : insert :=
  ("refresh_tokens",
   ["token"; "user_id"; "expires_at"]).
Definition twoFactor_user_sessions : insert :=
  ("user_sessions",
   ["user_id"; "session_token"; "refresh_token"; "ip_address"; "browser"; "status"]).

Definition INSERTS : list insert :=
   [secureFile_file_access_logs; requestLogger_request_logs; idempotency_idempotency_keys;
    CommentService_comments; CommentService_comments_2; NumberingService_numbering_counters;
    CoiService_conflict_of_interest; PermissionAuditService_permission_audit_logs; LogService_system_error_log;
    PdfTemplateService_pdf_templates; AuditService_audit_findings; AuditService_recommendations;
    NotificationService_notifications; NotificationService_notification_recipients;
    NotificationService_notifications_2; NotificationService_notifications_3; PolicyService_internal_policies;
    FraudService_fraud_access_requests; CircuitBreaker_dead_letter_queue;
    EvidenceStorageService_audit_evidence; CorrespondenceService_incoming_correspondence;
    CorrespondenceService_correspondence_status_history; CorrespondenceService_correspondence_referrals;
    CorrespondenceService_correspondence_links; CorrespondenceService_correspondence_attachments;
    CorrespondenceService_outgoing_letters; ArchiveService_archived_plans; ArchiveService_archived_tasks;
    ArchiveService_archived_findings; ArchiveService_archived_recommendations;
    ArchiveService_archived_evidence; AuditChainService_audit_trail; SettingsService_user_management_settings;
    JobTitleService_job_titles; PasswordService_password_reset_requests; PasswordService_password_history;
    PasswordService_password_history_2; OrgService_org_entities; TOTPService_user_totp; UserService_users;
    UserService_permission_change_logs; DepartmentService_org_entities; AuditProgramService_audit_programs;
    AuditProgramService_program_risk_links; AuditProgramService_program_compliance_links;
    AuditProgramService_audit_procedures; RoleService_role_permissions; PermissionService_role_permissions;
    PermissionService_user_permissions; AuthService_login_history; AuthService_refresh_tokens;
    AuthService_user_sessions; AuthService_notifications; AuditPlanService_audit_reports;
    AuditPlanService_system_error_log; AuditTaskService_task_assignments; ComplianceService_compliance_items;
    seed_system_policies; seed_compliance_items; seed_compliance_items_2; seed_compliance_items_3;
    seed_permissions; seed_roles; seed_role_permissions; seed_users; seed_users_2; serverUtils_encrypted_files;
    backup_backup_history; permissionAdmin_roles; permissionAdmin_user_permissions; reports_audit_reports;
    twoFactor_refresh_tokens; twoFactor_user_sessions].

(** ** What PostgreSQL accepts *)

Definition mandatory (t : table_body) : list string :=
  map c_name (List.filter (λ c, c.(c_notnull) && negb (bool_decide (is_Some c.(c_default)))) t.(t_columns)).

Definition unknown_columns (k : catalogue) (i : insert) : list string :=
  match map_get i.1 k.(tables) with
  | Some t => List.filter (λ c, negb (bool_decide (c ∈ column_names t))) i.2
  | None => i.2
  end.
Definition missing_columns (k : catalogue) (i : insert) : list string :=
  match map_get i.1 k.(tables) with
  | Some t => List.filter (λ c, negb (bool_decide (c ∈ i.2))) (mandatory t)
  | None => []
  end.
Definition accepted (k : catalogue) (i : insert) : bool :=
  has_table k i.1 && bool_decide (unknown_columns k i = []) && bool_decide (missing_columns k i = []).

(** Boots one after the other: the time, the partitions for the date, the rows of the trail. *)
Fixpoint boots (isExternal : bool) (runs : list (Z * list string * list string * bool)) (s : mig_state) : mig_state :=
  match runs with
  | [] => s
  | (now, near, old, rows) :: runs =>
      boots isExternal runs
        (boot_schema {| bo_isExternal := isExternal; bo_near := near; bo_old := old; bo_trail_rows := rows |} now s).2
  end.

(** The two indexes of [migrations.ts] that name columns added after them. *)
Definition first_boot_log : list string :=
  ["column of the index does not exist"; "column of the index does not exist"].

Definition rejected_statements : list insert :=
  [AuditPlanService_audit_reports; ComplianceService_compliance_items; seed_compliance_items;
   seed_compliance_items_2; seed_compliance_items_3; permissionAdmin_roles].

(** What the whitelists may write and the searches may read, against the tables. *)
Definition columns_fit (k : catalogue) : bool :=
  forallb (λ e, forallb (has_column k e.1) e.2) (TABLE_WRITE_SCHEMAS ++ TABLE_SEARCH_COLUMNS) &&
  forallb (λ t, has_column k t "deleted_at" && has_column k t "deleted_by") SOFT_DELETE_TABLES.

(** ** Boots of the embedded database *)

Definition embedded (near old : list string) (rows : bool) : boot_env :=
  {| bo_isExternal := false; bo_near := near; bo_old := old; bo_trail_rows := rows |}.

(** From [s0] the first boot logs the two errors, the second none, and the third changes nothing. *)
Definition settles_from (s0 : mig_state) : Prop :=
  ∀ now near old rows, ∃ s, boot_schema (embedded near old rows) now s0 = (Ok first_boot_log, s) ∧
  ∀ now2 near2 old2 rows2, ∃ s2, boot_schema (embedded near2 old2 rows2) now2 s = (Ok [], s2) ∧
    (∀ now3 near3 old3 rows3, boot_schema (embedded near3 old3 rows3) now3 s2 = (Ok [], s2)) ∧
    List.filter (λ i, negb (accepted s2.(ms_data) i)) INSERTS = rejected_statements ∧ columns_fit s2.(ms_data) = true.

Lemma embedded_settles : settles_from new_database.
Proof.
  intros now near old rows. eexists. split; [vm_compute; reflexivity|]. intros. eexists. split; [vm_compute; reflexivity|].
  split; [intros; vm_compute; reflexivity|]. split; vm_compute; reflexivity.
Qed.

Lemma boots_settled runs s :
  (∀ now near old rows, boot_schema (embedded near old rows) now s = (Ok [], s)) → boots false runs s = s.
Proof.
  intros Hs. induction runs as [|[[[now near] old] rows] runs IH]; cbn [boots]; [done|].
  change {| bo_isExternal := _ |} with (embedded near old rows). by rewrite Hs.
Qed.

Lemma settled_boot s0 now near old rows runs : settles_from s0 → runs ≠ [] →
  let r := boot_schema (embedded near old rows) now s0 in
  r.1 = Ok first_boot_log ∧ boot_schema (embedded near old rows) now (boots false runs r.2) = (Ok [], boots false runs r.2).
Proof.
  intros Hs0 Hmore. destruct (Hs0 now near old rows) as (s & -> & Hnext). split; [done|].
  cbn [snd]. destruct runs as [|[[[now2 near2] old2] rows2] runs]; [done|].
  destruct (Hnext now2 near2 old2 rows2) as (s2 & Hs2 & Hfix & _). cbn [boots].
  change {| bo_isExternal := _ |} with (embedded near2 old2 rows2). rewrite Hs2. cbn [snd].
  rewrite (boots_settled runs s2 Hfix). apply Hfix.
Qed.

Lemma settled_statements s0 runs i : settles_from s0 → (2 ≤ length runs)%nat → i ∈ INSERTS →
  (accepted (boots false runs s0).(ms_data) i = false ↔ i ∈ rejected_statements) ∧
  columns_fit (boots false runs s0).(ms_data) = true.
Proof.
  intros Hs0 Htwice Hi.
  destruct runs as [|[[[now near] old] rows] [|[[[now2 near2] old2] rows2] runs]]; cbn [length] in Htwice; [lia..|].
  destruct (Hs0 now near old rows) as (s & Hs & Hnext).
  destruct (Hnext now2 near2 old2 rows2) as (s2 & Hs2 & Hfix & Hrejected & Hcols). cbn [boots].
  change {| bo_isExternal := _; bo_near := near |} with (embedded near old rows).
  change {| bo_isExternal := _; bo_near := near2 |} with (embedded near2 old2 rows2).
  rewrite Hs. cbn [snd]. rewrite Hs2. cbn [snd]. rewrite (boots_settled runs s2 Hfix).
  split; [|exact Hcols]. apply list_elem_of_In in Hi. rewrite <- Hrejected, list_elem_of_In, filter_In, negb_true_iff.
  clear - Hi. split; [intros H; exact (conj Hi H)|intros [_ H]; exact H].
Qed.

(** a new embedded database is complete after its second start: the first start
    succeeds and logs two errors, the indexes created before their columns; the
    second start adds those, and every later one succeeds, logs nothing and changes
    neither the catalogue nor the records of the migrations. *)
Theorem embedded_boots_settle now near old rows runs (Hmore : runs <> []) :
  let r := boot_schema (embedded near old rows) now new_database in
  r.1 = Ok first_boot_log /\
  boot_schema (embedded near old rows) now (boots false runs r.2) = (Ok [], boots false runs r.2).
Proof. exact (settled_boot new_database now near old rows runs embedded_settles Hmore). Qed.

(** once an embedded database has been started twice, PostgreSQL accepts every
    insert the source writes out, by its columns, but six: the report the plan
    service files, the compliance item of the service and its three seeds, and the
    custom role; the whitelists of the table service and the columns it searches all
    exist, and every table it deletes from softly has the columns for it. *)
Theorem statements_fit_schema runs i (Htwice : (2 <= length runs)%nat) (Hi : i ∈ INSERTS) :
  (accepted (boots false runs new_database).(ms_data) i = false <-> i ∈ rejected_statements) /\
  columns_fit (boots false runs new_database).(ms_data) = true.
Proof. exact (settled_statements new_database runs i embedded_settles Htwice Hi). Qed.

(** ** The first boots of an external database *)

Definition external (near old : list string) (rows : bool) : boot_env :=
  {| bo_isExternal := true; bo_near := near; bo_old := old; bo_trail_rows := rows |}.

(** On PostgreSQL the partitioned trail that migration 006 puts in place takes no
    chained entry until the next start adds the columns of the chain, and the trigger
    that keeps entries from being changed stays with the old table. *)
Lemma partitioned_trail_loses_chain now :
  let s1 := (boot_schema (external ["audit_trail_2026_07"; "audit_trail_2026_08"] [] true) now new_database).2 in
  let s2 := (boot_schema (external ["audit_trail_2026_07"; "audit_trail_2026_08"] [] true) now s1).2 in
  unknown_columns s1.(ms_data) AuditChainService_audit_trail = ["hash"; "previous_hash"] /\
  accepted s2.(ms_data) AuditChainService_audit_trail = true /\
  List.filter (λ t, bool_decide (t.1 = "audit_trail_immutable")) s2.(ms_data).(triggers)
    = [("audit_trail_immutable", "audit_trail_old")].
Proof. split; [|split]; vm_compute; reflexivity. Qed.

Definition sample_boot (now : Z) : Z * list string * list string * bool := (now, [], [], false).

Lemma embedded_boots_settle_witness :
  (boot_schema (embedded [] [] false) 1 (boots false [sample_boot 2; sample_boot 3]
     (boot_schema (embedded [] [] false) 1 new_database).2)).1 = Ok [].
Proof.
  rewrite (proj2 (embedded_boots_settle 1 [] [] false [sample_boot 2; sample_boot 3] ltac:(discriminate))).
  reflexivity.
Defined.

Lemma statements_fit_schema_witness :
  accepted (boots false [sample_boot 1; sample_boot 2] new_database).(ms_data) permissionAdmin_roles = false.
Proof.
  refine (proj2 (proj1 (statements_fit_schema [sample_boot 1; sample_boot 2] permissionAdmin_roles _ _)) _).
  - apply Nat.leb_le. reflexivity.
  - apply (bool_decide_unpack _). vm_compute. exact I.
  - apply (bool_decide_unpack _). vm_compute. exact I.
Defined.
