(* ===== verification/PermissionAdmin.v ===== *)
(** * Administration of roles and overrides

    [routes/permissionAdmin.ts] with the log of [services/PermissionAuditService.ts]
    and the limiter of [middleware/permissionAdminRateLimiter.ts], over the tables
    and caches of [PermissionService.v].  The checks of the middleware in front of
    the handlers are in [AuthMiddleware.v].

    What the database decides is a parameter: [lower] is its [LOWER], [is_uuid]
    says which texts it reads as an id, [insert_ok] and [update_ok] whether the
    table of the roles takes the two statements that write it (on the schema of
    [Schema.v] it does not, [SchemaUse.v]), and [log_ok] whether it takes an
    entry of the log. *)

From S2P Require Import Prelude JsMap JsStrings JsNumbers Json OrderBy ModuleRegistry ModuleCatalogue PermissionCache AuthCache PermissionService RateLimiter Pagination.
Local Open Scope Z_scope.

(** ** State *)

(** The columns of [roles] that resolution does not read. *)
Record role_detail := { rd_description : option string; rd_created_at : Z }.

Record audit_row := {
  al_event : string; al_actor : string; al_role : option string; al_user : option string;
  al_old : option string; al_new : option string; al_time : Z }.

Record admin_state := {
  ad_perm : perm_state; ad_details : list (string * role_detail); ad_logs : list audit_row }.

Abbreviation admin_action := (action app_error admin_state).

Definition with_perm (p : perm_state) (s : admin_state) : admin_state :=
  {| ad_perm := p; ad_details := s.(ad_details); ad_logs := s.(ad_logs) |}.
Definition with_logs (l : list audit_row) (s : admin_state) : admin_state :=
  {| ad_perm := s.(ad_perm); ad_details := s.(ad_details); ad_logs := l |}.
Definition with_details (l : list (string * role_detail)) (s : admin_state) : admin_state :=
  {| ad_perm := s.(ad_perm); ad_details := l; ad_logs := s.(ad_logs) |}.
Definition with_roles (l : list role_row) (d : perm_db) : perm_db :=
  {| permissions := d.(permissions); role_permissions := d.(role_permissions);
     user_permissions := d.(user_permissions); users := d.(users); roles := l |}.

Definition on_db (f : perm_db → perm_db) : admin_action unit :=
  modify (λ s, with_perm (with_pdb (f s.(ad_perm).(pdb)) s.(ad_perm)) s).
Definition on_perm {A} (m : action app_error perm_state A) : admin_action A := λ s,
  let '(r, p) := m s.(ad_perm) in (r, with_perm p s).
Definition db_of (s : admin_state) : perm_db := s.(ad_perm).(pdb).

(** A transaction that fails puts the tables back and keeps the caches. *)
Definition rollback_admin (old new : admin_state) : admin_state :=
  {| ad_perm := with_pdb (db_of old) new.(ad_perm); ad_details := old.(ad_details); ad_logs := old.(ad_logs) |}.

(** What a handler answers: a body, or a status with an error code. *)
Inductive answer (A : Type) : Type :=
  | Answer (status : Z) (body : A)
  | Refuse (status : Z) (code : string).
Arguments Answer {A} status body.
Arguments Refuse {A} status code.

(** ** Request bodies *)

Definition length_between (a b : nat) (s : string) : bool :=
  bool_decide (a ≤ utf16_length s)%nat && bool_decide (utf16_length s ≤ b)%nat.

(** [z.string().max(500).optional()]: [Some None] is [undefined]. *)
Definition optional_text (a b : nat) (v : option json) : option (option string) :=
  match v with
  | None => Some None
  | Some (JStr s) => if length_between a b s then Some (Some s) else None
  | Some _ => None
  end.

Definition createRoleSchema (body : json) : option (string * string) :=
  match body with
  | JObj _ =>
      match json_field "name" body, optional_text 0 500 (json_field "description" body) with
      | Some (JStr name), Some description =>
          if length_between 2 100 name then Some (name, default "" description) else None
      | _, _ => None
      end
  | _ => None
  end.

Definition updateRoleSchema (body : json) : option (option string * option string) :=
  match body with
  | JObj _ =>
      match optional_text 2 100 (json_field "name" body), optional_text 0 500 (json_field "description" body) with
      | Some name, Some description => Some (name, description)
      | _, _ => None
      end
  | _ => None
  end.

(** [{ module, action, <flag> }] with non-empty texts and a boolean. *)
Definition permission_item (flag : string) (v : json) : option PermissionUpdate :=
  match v with
  | JObj _ =>
      match json_field "module" v, json_field "action" v, json_field flag v with
      | Some (JStr m), Some (JStr a), Some (JBool b) =>
          if bool_decide (m = "") || bool_decide (a = "") then None
          else Some {| upd_module := m; upd_action := a; upd_granted := b |}
      | _, _, _ => None
      end
  | _ => None
  end.

Fixpoint all_items (flag : string) (l : list json) : option (list PermissionUpdate) :=
  match l with
  | [] => Some []
  | v :: l => u ← permission_item flag v; us ← all_items flag l; Some (u :: us)
  end.

Definition items_schema (field flag : string) (body : json) : option (list PermissionUpdate) :=
  match body with
  | JObj _ => match json_field field body with Some (JArr l) => all_items flag l | _ => None end
  | _ => None
  end.
Definition permissionUpdateSchema : json → option (list PermissionUpdate) := items_schema "permissions" "granted".
Definition userPermissionOverrideSchema : json → option (list PermissionUpdate) := items_schema "overrides" "isAllowed".

(** The first item whose module or action is not registered stops the request. *)
Definition registered (reg : registry) (u : PermissionUpdate) : bool :=
  match getModule reg u.(upd_module) with
  | Some d => bool_decide (u.(upd_action) ∈ d.(actions))
  | None => false
  end.

Section admin.
Context (lower : string → string) (is_uuid : string → bool) (insert_ok update_ok : bool) (log_ok : audit_row → bool).
Context (reg : registry) (env : string → redis_env).
(** [LIMIT] orders nothing by itself: the order the database finds the users of a role in. *)
Context (now : Z) (actor : string).

(** ** The log *)

(** [x || null] on an optional text *)
Definition logPermissionChange (eventType : string) (targetRoleId targetUserId : option string)
    (oldState newState : option json) : admin_action unit :=
  let row := {| al_event := eventType; al_actor := actor; al_role := truthy_id targetRoleId;
                al_user := truthy_id targetUserId; al_old := stringify <$> oldState;
                al_new := stringify <$> newState; al_time := now |} in
  _ ← ensure (log_ok row) (GenericError "permission_audit_logs");
  modify (λ s, with_logs (s.(ad_logs) ++ [row]) s).

(** ** Roles *)

Record role_view := {
  rv_id : string; rv_name : string; rv_description : string; rv_isCustom : bool; rv_createdAt : option Z }.

Definition detail_of (s : admin_state) (id : string) : option role_detail := map_get id s.(ad_details).
Definition description_of (s : admin_state) (id : string) : string :=
  match detail_of s id with Some d => default "" d.(rd_description) | None => "" end.
Definition view_of (s : admin_state) (r : role_row) : role_view :=
  {| rv_id := r.(r_id); rv_name := r.(r_name); rv_description := description_of s r.(r_id);
     rv_isCustom := r.(r_is_custom); rv_createdAt := rd_created_at <$> detail_of s r.(r_id) |}.

(** [SELECT .. FROM roles WHERE id = ?] *)
Definition find_role (id : string) : admin_action (option role_row) :=
  _ ← ensure (is_uuid id) (GenericError "invalid input syntax for type uuid");
  gets (λ s, select_one (λ r, bool_decide (r.(r_id) = id)) (db_of s).(roles)).

Definition same_name (name : string) (r : role_row) : bool := bool_decide (lower r.(r_name) = lower name).

(** [GET /roles]: by kind, then by name; the order of the texts is the database's. *)
Definition listRoles (before_text : string → string → bool) (s : admin_state) : list role_view :=
  let before := λ k k' : bool * string,
    if bool_decide (k.1 = k'.1) then before_text k.2 k'.2 else negb k.1 in
  map (view_of s) (order_by (λ r, (r.(r_is_custom), r.(r_name))) before (db_of s).(roles)).

(** [POST /roles]; [newId] is the default of the id column. *)
Definition createRole (newId : string) (body : json) : admin_action (answer role_view) :=
  match createRoleSchema body with
  | None => mret (Refuse 400 "VALIDATION_ERROR")
  | Some (name, description) =>
      existing ← gets (λ s, select_one (same_name name) (db_of s).(roles));
      match existing with
      | Some _ => mret (Refuse 409 "CONFLICT")
      | None =>
          try_catch
            (_ ← transaction rollback_admin
               (_ ← ensure insert_ok (GenericError "roles");
                _ ← on_db (λ d, with_roles (d.(roles) ++ [{| r_id := newId; r_name := name; r_is_custom := true |}]) d);
                _ ← modify (λ s, with_details (map_set newId {| rd_description := Some description; rd_created_at := now |}
                                                       s.(ad_details)) s);
                logPermissionChange "custom_role_created" (Some newId) None None
                  (Some (JObj [("name", JStr name); ("description", JStr description)])));
             mret (Answer 201 {| rv_id := newId; rv_name := name; rv_description := description;
                                 rv_isCustom := true; rv_createdAt := Some now |}))
            (λ _, mret (Refuse 500 "INTERNAL_ERROR"))
      end
  end.

Definition rename_role (id : string) (name : option string) : list role_row → list role_row :=
  update_where (λ r, bool_decide (r.(r_id) = id))
    (λ r, {| r_id := r.(r_id); r_name := default r.(r_name) name; r_is_custom := r.(r_is_custom) |}).
Definition describe_role (id : string) (description : option string) (l : list (string * role_detail)) :
    list (string * role_detail) :=
  match description, map_get id l with
  | Some d, Some old => map_set id {| rd_description := Some d; rd_created_at := old.(rd_created_at) |} l
  | _, _ => l
  end.

(** Another role of the name, when one is given. *)
Definition other_named (name : option string) (id : string) (l : list role_row) : option role_row :=
  match name with
  | Some n => select_one (λ r, same_name n r && negb (bool_decide (r.(r_id) = id))) l
  | None => None
  end.

(** [PUT /roles/:id]; the statement runs outside a transaction and is not logged. *)
Definition updateRole (id : string) (body : json) : admin_action (answer role_view) :=
  role ← find_role id;
  match role with
  | None => mret (Refuse 404 "NOT_FOUND")
  | Some role =>
      if negb role.(r_is_custom) then mret (Refuse 403 "FORBIDDEN")
      else match updateRoleSchema body with
      | None => mret (Refuse 400 "VALIDATION_ERROR")
      | Some (name, description) =>
          existing ← gets (λ s, other_named name id (db_of s).(roles));
          match existing with
          | Some _ => mret (Refuse 409 "CONFLICT")
          | None =>
              if bool_decide (name = None ∧ description = None) then gets (λ s, Answer 200 (view_of s role))
              else
                _ ← ensure update_ok (GenericError "roles");
                _ ← on_db (λ d, with_roles (rename_role id name d.(roles)) d);
                _ ← modify (λ s, with_details (describe_role id description s.(ad_details)) s);
                gets (λ s, Answer 200 (view_of s {| r_id := id; r_name := default role.(r_name) name; r_is_custom := true |}))
          end
      end
  end.

(** The refusal of [DELETE /roles/:id] lists the users that hold the role. *)
Inductive delete_answer : Type :=
  | Deleted (id name : string)
  | InUse (affectedUserIds : list string) (totalAffected : Z)
  | DeleteRefused (status : Z) (code : string).

Definition assigned_users (id : string) (d : perm_db) : list string :=
  take 101 (map pu_id (select (λ u, bool_decide (u.(pu_role_id) = Some id)) d.(users))).

Definition remove_role (role : role_row) (description : string) : admin_action unit :=
  let id := role.(r_id) in
  _ ← on_db (λ d, with_role_permissions (delete_where (λ rp, bool_decide (rp.1 = id)) d.(role_permissions)) d);
  _ ← on_db (λ d, with_roles (delete_where (λ r, bool_decide (r.(r_id) = id)) d.(roles)) d);
  _ ← modify (λ s, with_details (map_delete id s.(ad_details)) s);
  logPermissionChange "custom_role_deleted" (Some id) None
    (Some (JObj [("name", JStr role.(r_name)); ("description", JStr description)])) None.

Definition deleteRole (id : string) : admin_action delete_answer :=
  role ← find_role id;
  match role with
  | None => mret (DeleteRefused 404 "NOT_FOUND")
  | Some role =>
      if negb role.(r_is_custom) then mret (DeleteRefused 403 "FORBIDDEN")
      else
        assigned ← gets (λ s, assigned_users id (db_of s));
        if bool_decide (assigned <> []) then
          let n := Z.of_nat (length assigned) in
          mret (InUse (take 100 assigned) (if 100 <? n then n - 1 else n))
        else
          description ← gets (λ s, description_of s id);
          try_catch
            (_ ← transaction rollback_admin (remove_role role description);
             mret (Deleted id role.(r_name)))
            (λ _, mret (DeleteRefused 500 "INTERNAL_ERROR"))
  end.

(** ** The matrix of a role *)

(** Every registered module with a boolean for each of its actions. *)
Definition permission_matrix (granted : action_map) : list (string * list (string * bool)) :=
  map (λ m, (m.(name), map (λ a, (a, bool_decide (a ∈ default [] (map_get m.(name) granted)))) m.(actions)))
      (getAllModules reg).

Definition getRoleMatrix (id : string) : admin_action (answer (string * bool * list (string * list (string * bool)))) :=
  role ← find_role id;
  match role with
  | None => mret (Refuse 404 "NOT_FOUND")
  | Some role =>
      rolePermissions ← on_perm (getRolePermissions id);
      mret (Answer 200 (role.(r_name), role.(r_is_custom), permission_matrix rolePermissions.(rps_permissions)))
  end.

Definition matrix_json (m : action_map) : json := JObj (map (λ e, (e.1, JArr (map JStr e.2))) m).

(** The new state of the log, computed from the old one. *)
Definition apply_requested (l : list PermissionUpdate) (acc : action_map) : action_map :=
  foldl (λ acc u, if u.(upd_granted) then add_action acc u.(upd_module) u.(upd_action)
                  else remove_action acc u.(upd_module) u.(upd_action)) acc l.

Definition reversed (u : PermissionUpdate) : PermissionUpdate :=
  {| upd_module := u.(upd_module); upd_action := u.(upd_action); upd_granted := negb u.(upd_granted) |}.

(** [POST /roles/:id/permissions] *)
Definition updateRoleMatrix (id : string) (body : json) : admin_action (answer Z) :=
  role ← find_role id;
  match role with
  | None => mret (Refuse 404 "NOT_FOUND")
  | Some role =>
      if negb role.(r_is_custom) then mret (Refuse 403 "FORBIDDEN")
      else match permissionUpdateSchema body with
      | None => mret (Refuse 400 "VALIDATION_ERROR")
      | Some permissions =>
          if negb (forallb (registered reg) permissions) then mret (Refuse 400 "VALIDATION_ERROR")
          else
            oldRolePermissions ← on_perm (getRolePermissions id);
            _ ← on_perm (updateRolePermissions env id permissions);
            try_catch
              (_ ← logPermissionChange "role_permission_change" (Some id) None
                     (Some (matrix_json oldRolePermissions.(rps_permissions)))
                     (Some (matrix_json (apply_requested permissions oldRolePermissions.(rps_permissions))));
               mret (Answer 200 (Z.of_nat (length permissions))))
              (λ _, _ ← try_catch (on_perm (updateRolePermissions env id (map reversed permissions))) (λ _, mret tt);
                    mret (Refuse 500 "INTERNAL_ERROR"))
      end
  end.

(** [GET /permissions/modules] *)
Definition listModules : list (string * (string * string) * list string) :=
  map (λ m, (m.(name), (m.(label_en), m.(label_ar)), m.(actions))) (getAllModules reg).

(** ** Overrides of a user *)

Definition find_user (id : string) : admin_action (option perm_user) :=
  _ ← ensure (is_uuid id) (GenericError "invalid input syntax for type uuid");
  gets (λ s, getUser (db_of s) id).

Definition listed_overrides (id : string) (d : perm_db) : list (string * string * bool) :=
  map (λ o, (o.1, o.2 =? 1)) (user_overrides d id).

(** [GET /users/:id/permissions] *)
Definition getUserOverrides (id : string) : admin_action (answer (list (string * string * bool))) :=
  user ← find_user id;
  match user with
  | None => mret (Refuse 404 "NOT_FOUND")
  | Some _ => gets (λ s, Answer 200 (listed_overrides id (db_of s)))
  end.

(** One [INSERT INTO user_permissions]; a second row of the same user and
    permission violates the primary key, and a pair without a record is passed over. *)
Definition insert_override (id : string) (u : PermissionUpdate) : admin_action unit :=
  d ← gets db_of;
  match permission_record d u.(upd_module) u.(upd_action) with
  | None => mret tt
  | Some p =>
      _ ← ensure (negb (existsb (is_mine id p) d.(user_permissions))) (GenericError "user_permissions_pkey");
      on_db (λ d, with_user_permissions (d.(user_permissions) ++
        [{| up_user_id := id; up_permission_id := p.(p_id); up_is_allowed := if u.(upd_granted) then 1 else 0 |}]) d)
  end.

Definition overrides_json (l : list (string * string * bool)) : json :=
  JArr (map (λ o, JObj [("module", JStr o.1.1); ("action", JStr o.1.2); ("isAllowed", JBool o.2)]) l).
Definition requested (l : list PermissionUpdate) : list (string * string * bool) :=
  map (λ u, (u.(upd_module), u.(upd_action), u.(upd_granted))) l.

Definition save_overrides (id : string) (oldState : list (string * string * bool)) (overrides : list PermissionUpdate) :
    admin_action unit :=
  _ ← on_db (λ d, with_user_permissions (delete_where (λ o, bool_decide (o.(up_user_id) = id)) d.(user_permissions)) d);
  _ ← for_each (insert_override id) overrides;
  logPermissionChange "user_override_change" None (Some id)
    (Some (overrides_json oldState)) (Some (overrides_json (requested overrides))).

(** [PUT /users/:id/permissions] *)
Definition replaceUserOverrides (id : string) (body : json) : admin_action (answer Z) :=
  user ← find_user id;
  match user with
  | None => mret (Refuse 404 "NOT_FOUND")
  | Some _ =>
      match userPermissionOverrideSchema body with
      | None => mret (Refuse 400 "VALIDATION_ERROR")
      | Some overrides =>
          if negb (forallb (registered reg) overrides) then mret (Refuse 400 "VALIDATION_ERROR")
          else
            oldState ← gets (λ s, listed_overrides id (db_of s));
            saved ← try_catch
              (_ ← transaction rollback_admin (save_overrides id oldState overrides);
               mret true)
              (λ _, mret false);
            if saved : bool then
              _ ← on_perm (invalidate_user env id);
              mret (Answer 200 (Z.of_nat (length overrides)))
            else mret (Refuse 500 "INTERNAL_ERROR")
      end
  end.

(** ** The log, page by page *)

Record audit_query := {
  aq_actor : option string; aq_role : option string; aq_user : option string; aq_event : option string;
  aq_start : option string; aq_end : option string; aq_page : option string; aq_limit : option string }.

Record audit_entry := {
  ae_event : string; ae_actor : string; ae_role : option string; ae_user : option string;
  ae_old : option json; ae_new : option json; ae_time : Z }.

Record audit_page := {
  ap_entries : list audit_entry; ap_total : Z; ap_page : Z; ap_limit : Z; ap_totalPages : Z }.

(** [entry.old_state ? JSON.parse(entry.old_state) : null] *)
Definition parsed_state (o : option string) : outcome app_error (option json) :=
  match truthy_id o with
  | None => Ok None
  | Some text => match JSON_parse text with Some v => Ok (Some v) | None => Throw (GenericError "JSON.parse") end
  end.

Definition map_entry (r : audit_row) : outcome app_error audit_entry :=
  match parsed_state r.(al_old), parsed_state r.(al_new) with
  | Ok old, Ok new => Ok {| ae_event := r.(al_event); ae_actor := r.(al_actor); ae_role := truthy_id r.(al_role);
                            ae_user := truthy_id r.(al_user); ae_old := old; ae_new := new; ae_time := r.(al_time) |}
  | Throw e, _ | _, Throw e => Throw e
  end.
Fixpoint map_entries (l : list audit_row) : outcome app_error (list audit_entry) :=
  match l with
  | [] => Ok []
  | r :: l => match map_entry r, map_entries l with
              | Ok x, Ok xs => Ok (x :: xs)
              | Throw e, _ | _, Throw e => Throw e
              end
  end.

(** [if (params.x) conditions.push(..)]; the dates are compared as the database reads them. *)
Definition text_filter (value : option string) (column : audit_row → option string) (r : audit_row) : bool :=
  match truthy_id value with None => true | Some v => bool_decide (column r = Some v) end.
Definition entry_matches (q : audit_query) (from to : option Z) (r : audit_row) : bool :=
  text_filter q.(aq_actor) (λ r, Some r.(al_actor)) r && text_filter q.(aq_role) al_role r &&
  text_filter q.(aq_user) al_user r && text_filter q.(aq_event) (λ r, Some r.(al_event)) r &&
  match from with Some t => t <=? r.(al_time) | None => true end &&
  match to with Some t => r.(al_time) <=? t | None => true end.

(** Newest first; entries of one time in the order they were written. *)
Definition newest_first (l : list audit_row) : list audit_row := order_by al_time (λ a b, b <? a) l.

(** [Math.max(1, page || 1)], [Math.min(50, Math.max(1, limit || 50))] *)
Definition page_number (page : option js_num) : Z :=
  Z.max 1 (integer_value (js_or (default NaN page) 1)).
Definition page_limit (limit : option js_num) : Z :=
  Z.min 50 (Z.max 1 (integer_value (js_or (default NaN limit) 50))).

Context (pg_time Date_parse : string → option Z).

(** A date the database cannot read is an error of the statement. *)
Definition time_filter (value : option string) : outcome app_error (option Z) :=
  match truthy_id value with
  | None => Ok None
  | Some text => match pg_time text with Some t => Ok (Some t) | None => Throw (GenericError "timestamp") end
  end.

Definition getAuditLogs (q : audit_query) (page limit : option js_num) (logs : list audit_row) : outcome app_error audit_page :=
  let page := page_number page in let limit := page_limit limit in
  match time_filter q.(aq_start), time_filter q.(aq_end) with
  | Ok from, Ok to =>
      let found := newest_first (select (entry_matches q from to) logs) in
      let total := Z.of_nat (length found) in
      match map_entries (take (Z.to_nat limit) (drop (Z.to_nat ((page - 1) * limit)) found)) with
      | Ok entries => Ok {| ap_entries := entries; ap_total := total; ap_page := page; ap_limit := limit;
                            ap_totalPages := (total + limit - 1) / limit |}
      | Throw e => Throw e
      end
  | Throw e, _ | _, Throw e => Throw e
  end.

Definition validEventTypes : list string :=
  ["role_permission_change"; "user_override_change"; "custom_role_created"; "custom_role_deleted"].

(** [x && isNaN(Date.parse(x))] *)
Definition bad_date (value : option string) : bool :=
  match truthy_id value with Some text => negb (bool_decide (is_Some (Date_parse text))) | None => false end.

(** [GET /audit-logs/permissions] *)
Definition listAuditLogs (q : audit_query) : admin_action (answer audit_page) :=
  if match truthy_id q.(aq_event) with Some e => negb (bool_decide (e ∈ validEventTypes)) | None => false end
  then mret (Refuse 400 "VALIDATION_ERROR")
  else if bad_date q.(aq_start) || bad_date q.(aq_end) then mret (Refuse 400 "VALIDATION_ERROR")
  else
    logs ← gets ad_logs;
    match getAuditLogs q (parseInt_10 <$> truthy_id q.(aq_page)) (parseInt_10 <$> truthy_id q.(aq_limit)) logs with
    | Ok p => mret (Answer 200 p)
    | Throw e => throw e
    end.

(** ** The requests that write *)

Inductive admin_request : Type :=
  | CreateRole (newId : string) (body : json)
  | UpdateRole (id : string) (body : json)
  | DeleteRole (id : string)
  | UpdateMatrix (id : string) (body : json)
  | ReplaceOverrides (id : string) (body : json).

Definition status_of {A} (a : answer A) : Z := match a with Answer n _ | Refuse n _ => n end.
Definition delete_status (a : delete_answer) : Z :=
  match a with Deleted _ _ => 200 | InUse _ _ => 409 | DeleteRefused n _ => n end.

Definition ok_status (n : Z) : bool := (n =? 200) || (n =? 201).

(** The status of the answer. *)
Definition serve_admin (q : admin_request) : admin_action Z :=
  match q with
  | CreateRole newId body => a ← createRole newId body; mret (status_of a)
  | UpdateRole id body => a ← updateRole id body; mret (status_of a)
  | DeleteRole id => a ← deleteRole id; mret (delete_status a)
  | UpdateMatrix id body => a ← updateRoleMatrix id body; mret (status_of a)
  | ReplaceOverrides id body => a ← replaceUserOverrides id body; mret (status_of a)
  end.

End admin.

(** ** The limiter of these routes *)

Definition RATE_LIMIT : Z := 100.
Definition WINDOW_MS : Z := 15 * 60 * 1000.

Record limited := { li_reply : reply; li_retryAfter : option Z }.

Definition permissionAdminRateLimiter (user : option string) (now : Z) (st : fallback_store) : limited * fallback_store :=
  match truthy_id user with
  | None => ({| li_reply := Next; li_retryAfter := None |}, st)
  | Some id =>
      let key := "perm_admin:" +:+ id in
      let timestamps := List.filter (λ ts, now - ts <? WINDOW_MS) (default [] (map_get key st)) in
      if RATE_LIMIT <=? Z.of_nat (length timestamps) then
        let resetTimeMs := default now (head timestamps) + WINDOW_MS in
        ({| li_reply := Reply 429 "RATE_LIMIT_EXCEEDED";
            li_retryAfter := Some (Z.max 1 (ceil_seconds (resetTimeMs - now))) |}, map_set key timestamps st)
      else ({| li_reply := Next; li_retryAfter := None |}, map_set key (timestamps ++ [now]) st)
  end.

Definition cleanup_store (now : Z) (st : fallback_store) : fallback_store := fallback_cleanup WINDOW_MS now st.

Definition getPermissionAdminRateLimitCount (userId : string) (now : Z) (st : fallback_store) : Z :=
  match map_get ("perm_admin:" +:+ userId) st with
  | Some ts => Z.of_nat (length (List.filter (λ t, now - t <? WINDOW_MS) ts))
  | None => 0
  end.

(** ** What each handler does, branch by branch *)

Definition logged (row : audit_row) (s : admin_state) : admin_state := with_logs (s.(ad_logs) ++ [row]) s.

(** An entry of this actor at this time. *)
Definition entry_of (actor : string) (now : Z) (event : string) (row : audit_row) : Prop :=
  row.(al_event) = event ∧ row.(al_actor) = actor ∧ row.(al_time) = now.

Definition created (newId name description : string) (now : Z) (s : admin_state) : admin_state :=
  with_details (map_set newId {| rd_description := Some description; rd_created_at := now |} s.(ad_details))
    (with_perm (with_pdb (with_roles ((db_of s).(roles) ++ [{| r_id := newId; r_name := name; r_is_custom := true |}])
                                     (db_of s)) s.(ad_perm)) s).

Definition renamed (id : string) (name description : option string) (s : admin_state) : admin_state :=
  with_details (describe_role id description s.(ad_details))
    (with_perm (with_pdb (with_roles (rename_role id name (db_of s).(roles)) (db_of s)) s.(ad_perm)) s).

Definition without_role (id : string) (d : perm_db) : perm_db :=
  with_roles (delete_where (λ r, bool_decide (r.(r_id) = id)) d.(roles))
    (with_role_permissions (delete_where (λ rp, bool_decide (rp.1 = id)) d.(role_permissions)) d).
Definition removed (id : string) (s : admin_state) : admin_state :=
  with_details (map_delete id s.(ad_details)) (with_perm (with_pdb (without_role id (db_of s)) s.(ad_perm)) s).

Section handlers.
Context (lower : string → string) (is_uuid : string → bool) (insert_ok update_ok : bool) (log_ok : audit_row → bool).
Context (reg : registry) (env : string → redis_env) (now : Z) (actor : string).

Lemma rollback_same_auth s s1 : s1.(ad_perm).(auth) = s.(ad_perm).(auth) → rollback_admin s s1 = s.
Proof. destruct s as [[? ?] ? ?], s1 as [[? ?] ? ?]. cbn. by intros ->. Qed.

Lemma log_run event r u old new s :
  (∃ row, logPermissionChange log_ok now actor event r u old new s = (Ok tt, logged row s) ∧
     log_ok row = true ∧ entry_of actor now event row ∧ row.(al_role) = truthy_id r ∧ row.(al_user) = truthy_id u ∧
     row.(al_old) = stringify <$> old ∧ row.(al_new) = stringify <$> new) ∨
  ∃ e, logPermissionChange log_ok now actor event r u old new s = (Throw e, s).
Proof.
  unfold logPermissionChange. set (row := {| al_event := event |}). run_action.
  destruct (log_ok row) eqn:Hok; [left; by exists row|right; by eexists].
Qed.

Lemma find_role_run id s :
  (∃ e, find_role is_uuid id s = (Throw e, s)) ∨ find_role is_uuid id s = (Ok None, s) ∨
  ∃ role, find_role is_uuid id s = (Ok (Some role), s) ∧ role ∈ (db_of s).(roles) ∧ role.(r_id) = id.
Proof.
  unfold find_role. run_action. destruct (is_uuid id); [|left; by eexists]. right. cbn.
  destruct (select_one _ _) as [role|] eqn:Hs; [right|by left].
  apply select_one_Some in Hs as [Hin Hid]. bools. by exists role.
Qed.

Lemma createRole_run newId body s r s' :
  createRole lower insert_ok log_ok now actor newId body s = (r, s') →
  (s' = s ∧ ∃ n c, r = Ok (Refuse n c) ∧ ok_status n = false) ∨
  ∃ name description v row, createRoleSchema body = Some (name, description) ∧
    (∀ x, x ∈ (db_of s).(roles) → lower x.(r_name) ≠ lower name) ∧ insert_ok = true ∧ log_ok row = true ∧
    r = Ok (Answer 201 v) ∧ s' = logged row (created newId name description now s) ∧
    entry_of actor now "custom_role_created" row.
Proof.
  unfold createRole. destruct (createRoleSchema body) as [[name description]|]; [|run_action; intros [= <- <-]; left; eauto 10].
  intros H. unfold gets, mbind, action_bind in H. destruct (select_one _ _) as [x|] eqn:Hs.
  { run_action. injection H as <- <-. left. split; [done|]. by do 2 eexists. }
  unfold try_catch, transaction, ensure in H. destruct insert_ok; cbn in H.
  2:{ injection H as <- <-. left. split; [by apply rollback_same_auth|]. by do 2 eexists. }
  fold (created newId name description now s) in H.
  match type of H with context [logPermissionChange ?lo ?n ?ac ?ev ?ro ?us ?old ?new ?st] =>
    destruct (log_run ev ro us old new st) as [(row & Hrun & Hok & Hent & _)|[e Hrun]] end;
    unfold on_db, modify, mbind, action_bind in *; cbn in H, Hrun; rewrite Hrun in H; cbn in H; injection H as <- <-.
  - right. exists name, description. do 2 eexists. split_and!; try done.
    intros x Hx. rewrite select_one_None in Hs. specialize (Hs x Hx). unfold same_name in Hs. by bools.
  - left. split; [by apply rollback_same_auth|]. by do 2 eexists.
Qed.
Lemma updateRole_run id body s r s' :
  updateRole lower is_uuid update_ok id body s = (r, s') →
  (s' = s ∧ ∀ n v, r = Ok (Answer n v) → updateRoleSchema body = Some (None, None)) ∨
  ∃ name description role v, updateRoleSchema body = Some (name, description) ∧ role ∈ (db_of s).(roles) ∧
    role.(r_id) = id ∧ role.(r_is_custom) = true ∧
    (∀ n x, name = Some n → x ∈ (db_of s).(roles) → x.(r_id) ≠ id → lower x.(r_name) ≠ lower n) ∧
    r = Ok (Answer 200 v) ∧ s' = renamed id name description s.
Proof.
  unfold updateRole. intros H. unfold mbind, action_bind in H.
  destruct (find_role_run id s) as [[e Hf]|[Hf|(role & Hf & Hin & Hid)]]; rewrite Hf in H.
  { injection H as <- <-. by left. } { injection H as <- <-. by left. }
  destruct (r_is_custom role) eqn:Hcustom; cbn [negb] in H; [|injection H as <- <-; by left].
  destruct (updateRoleSchema body) as [[name description]|] eqn:Hbody; [|injection H as <- <-; by left].
  unfold gets in H. destruct (other_named _ _ _ _) as [x|] eqn:Hx in H.
  { injection H as <- <-. by left. }
  case_bool_decide as Hnone; [injection H as <- <-; left; split; [done|]; intros ? ? _; by destruct Hnone as [-> ->]|].
  destruct update_ok; unfold ensure, throw in H; [|injection H as <- <-; by left]. right.
  unfold on_db, modify, mret, action_ret in H. cbn in H. injection H as <- <-.
  exists name, description, role. eexists. split_and!; try done.
  intros n y -> Hy Hne Heq. unfold other_named in Hx. rewrite select_one_None in Hx. specialize (Hx y Hy). unfold same_name in Hx.
  apply andb_false_iff in Hx as [Hx|Hx]; bools; congruence.
Qed.

Lemma deleteRole_run id s r s' :
  deleteRole is_uuid log_ok now actor id s = (r, s') →
  (s' = s ∧ match r with Ok a => ok_status (delete_status a) = false | Throw _ => True end) ∨
  ∃ role row, role ∈ (db_of s).(roles) ∧ role.(r_id) = id ∧ role.(r_is_custom) = true ∧
    (∀ u, u ∈ (db_of s).(users) → u.(pu_role_id) ≠ Some id) ∧ log_ok row = true ∧
    r = Ok (Deleted id role.(r_name)) ∧ s' = logged row (removed id s) ∧ entry_of actor now "custom_role_deleted" row.
Proof.
  unfold deleteRole. intros H. unfold mbind, action_bind in H.
  destruct (find_role_run id s) as [[e Hf]|[Hf|(role & Hf & Hin & Hid)]]; rewrite Hf in H.
  { injection H as <- <-. by left. } { injection H as <- <-. by left. }
  destruct (r_is_custom role) eqn:Hcustom; cbn [negb] in H; [|injection H as <- <-; by left].
  unfold gets in H. case_bool_decide as Hassigned; [injection H as <- <-; by left|].
  unfold try_catch, transaction in H.
  assert (Hm : remove_role log_ok now actor role (description_of s id) s =
    logPermissionChange log_ok now actor "custom_role_deleted" (Some id) None
      (Some (JObj [("name", JStr role.(r_name)); ("description", JStr (description_of s id))])) None (removed id s))
    by (rewrite <- Hid; reflexivity).
  unfold mbind, action_bind in H. rewrite Hm in H.
  match type of Hm with _ = logPermissionChange _ _ _ ?ev ?ro ?us ?old ?new ?st =>
    destruct (log_run ev ro us old new st) as [(row & Hrun & Hok & Hent & _)|[e Hrun]] end;
    rewrite Hrun in H; injection H as <- <-.
  - right. exists role, row. split_and!; try done. intros u Hu Hr. unfold assigned_users in Hassigned.
    assert (Hn : u ∈ select (λ u, bool_decide (pu_role_id u = Some id)) (users (db_of s)))
      by (apply elem_of_select; split; [done|]; by apply bool_decide_eq_true).
    destruct (select _ _) as [|y l]; [by apply not_elem_of_nil in Hn|discriminate].
  - left. split; [by apply rollback_same_auth|done].
Qed.

Lemma updateRoleMatrix_run id body s r s' :
  db_wf (db_of s) → coherent reg s.(ad_perm) →
  updateRoleMatrix is_uuid log_ok reg env now actor id body s = (r, s') →
  (s' = s ∧ match r with Ok (Answer _ _) => False | Ok (Refuse n _) => ok_status n = false ∧ n ≠ 500 | Throw _ => True end) ∨
  ∃ role l p1, role ∈ (db_of s).(roles) ∧ role.(r_id) = id ∧ role.(r_is_custom) = true ∧
    permissionUpdateSchema body = Some l ∧ forallb (registered reg) l = true ∧
    updateRolePermissions env id l s.(ad_perm) = (Ok tt, p1) ∧
    let old := group_grants (role_grants (db_of s) id) [] in
    ((∃ row, log_ok row = true ∧ entry_of actor now "role_permission_change" row ∧
        row.(al_old) = Some (stringify (matrix_json old)) ∧
        row.(al_new) = Some (stringify (matrix_json (apply_requested l old))) ∧
        r = Ok (Answer 200 (Z.of_nat (length l))) ∧ s' = logged row (with_perm p1 s)) ∨
     (r = Ok (Refuse 500 "INTERNAL_ERROR") ∧
        s' = with_perm (updateRolePermissions env id (map reversed l) p1).2 s)).
Proof.
  intros Hwf Hc. unfold updateRoleMatrix. intros H. unfold mbind, action_bind in H.
  destruct (find_role_run id s) as [[e Hf]|[Hf|(role & Hf & Hin & Hid)]]; rewrite Hf in H.
  { injection H as <- <-. by left. } { injection H as <- <-. by left. }
  destruct (r_is_custom role) eqn:Hcustom; cbn [negb] in H; [|injection H as <- <-; by left].
  destruct (permissionUpdateSchema body) as [l|]; [|injection H as <- <-; by left].
  destruct (forallb (registered reg) l) eqn:Hreg; cbn [negb] in H; [|injection H as <- <-; by left].
  unfold on_perm at 1, getRolePermissions in H. unfold gets, mbind, action_bind in H.
  destruct (getRole (pdb (ad_perm s)) (Some id)) as [role'|]; cbn [mret action_ret throw] in H.
  2:{ injection H as <- <-. left. by destruct s. }
  unfold on_perm at 1 in H. replace (with_perm (ad_perm s) s) with s in H by by destruct s.
  pose proof (updateRolePermissions_spec reg env id l s.(ad_perm) Hwf Hc) as Hupd.
  destruct (updateRolePermissions env id l (ad_perm s)) as [[[]|e] p1] eqn:Hrun.
  2:{ subst p1. injection H as <- <-. left. by destruct s. }
  right. exists role, l, p1. split_and!; try done. cbn [rps_permissions] in H.
  unfold try_catch at 1, mbind, action_bind in H.
  match type of H with context [logPermissionChange _ _ _ ?ev ?ro ?us ?old ?new ?st] =>
    destruct (log_run ev ro us old new st) as [(row & Hlog & Hok & Hent & _ & _ & Hold & Hnew)|[e Hlog]] end;
    rewrite Hlog in H.
  - injection H as <- <-. left. by exists row.
  - right. unfold try_catch, on_perm in H. cbn [ad_perm with_perm] in H.
    destruct (updateRolePermissions env id (map reversed l) p1) as [[[]|e'] p2]; injection H as <- <-; done.
Qed.

End handlers.

(** ** Replacing the overrides of a user *)

(** What the overrides of [id] are once [l] is written, the others being those of [d]. *)
Definition written (id : string) (l : list PermissionUpdate) (d : perm_db) (u m a : string) (v : Z) : Prop :=
  if bool_decide (u = id) then
    permission_record d m a ≠ None ∧
    ∃ x, x ∈ l ∧ x.(upd_module) = m ∧ x.(upd_action) = a ∧ v = if x.(upd_granted) then 1 else 0
  else override_is d u m a v.

(** [d'] is [d] with the overrides of [id] replaced by [l]. *)
Record overrides_replaced (id : string) (l : list PermissionUpdate) (d d' : perm_db) : Prop := {
  or_table : ∃ rows, d' = with_user_permissions rows d;
  or_wf : db_wf d';
  or_written : ∀ u m a v, override_is d' u m a v ↔ written id l d u m a v }.

Lemma overrides_cleared id d : db_wf d →
  overrides_replaced id [] d
    (with_user_permissions (delete_where (λ o, bool_decide (o.(up_user_id) = id)) d.(user_permissions)) d).
Proof.
  intros Hwf. split; [by eexists|..].
  - destruct Hwf as (H1 & H2 & H3 & H4 & H5 & H6). split_and!; try done; cbn [user_permissions with_user_permissions].
    + by apply NoDup_map_filter.
    + intros o [Ho _]%elem_of_delete_where. by apply H4.
  - intros u m a v. unfold written, override_is. cbn [permissions user_permissions with_user_permissions].
    setoid_rewrite elem_of_delete_where. setoid_rewrite bool_decide_eq_false. case_bool_decide as Hu.
    + split; [|by intros (_ & x & []%not_elem_of_nil & _)]. intros (p & o & _ & [_ Hne] & _ & _ & Ho & _). by subst.
    + split; intros (p & o & H); exists p, o; naive_solver.
Qed.

Lemma override_inserted id u l d d' p : db_wf d →
  overrides_replaced id l d d' → permission_record d' u.(upd_module) u.(upd_action) = Some p →
  existsb (is_mine id p) d'.(user_permissions) = false →
  overrides_replaced id (l ++ [u]) d
    (with_user_permissions (d'.(user_permissions) ++
       [{| up_user_id := id; up_permission_id := p.(p_id); up_is_allowed := if u.(upd_granted) then 1 else 0 |}]) d').
Proof.
  intros Hwf0 [[rows Hrows] Hwf Hwr] Hp Hfree.
  set (v := if upd_granted u then 1 else 0). assert (Hv : v = 0 ∨ v = 1) by (unfold v; destruct (upd_granted u); auto).
  apply (permission_record_spec _ Hwf) in Hp as (Hp & Hm & Ha).
  assert (Hno : ∀ o, o ∈ d'.(user_permissions) → is_mine id p o = false).
  { intros o Ho. destruct (is_mine id p o) eqn:Hmine; [|done]. exfalso.
    enough (existsb (is_mine id p) d'.(user_permissions) = true) by congruence.
    apply existsb_exists. exists o. by rewrite <- list_elem_of_In. }
  split; [by rewrite Hrows; eexists|by apply override_insert_wf|].
  intros u' m a v'. rewrite (override_insert_effect d' Hwf id p v Hp) by done. unfold override_after.
  assert (Hrec : permission_record d (p_module p) (p_action p) = Some p).
  { apply (permission_record_spec _ Hwf0). split; [|done]. by rewrite Hrows in Hp. }
  case_bool_decide as Hb.
  - destruct Hb as (-> & -> & ->). unfold written. rewrite bool_decide_eq_true_2 by done. split.
    + intros ->. split; [by rewrite Hrec|]. exists u. split_and!; try done. set_solver.
    + intros (_ & x & [Hx|Hx%list_elem_of_singleton]%elem_of_app & Hxm & Hxa & ->); [|by subst].
      assert (Hov : override_is d' id (p_module p) (p_action p) (if upd_granted x then 1 else 0)).
      { apply Hwr. unfold written. rewrite bool_decide_eq_true_2, Hrec by done. eauto 10. }
      destruct Hov as (p' & o & Hp' & Ho & Hm' & Ha' & Huid & Hpid & _). exfalso.
      assert (p' = p) as -> by by apply (permission_unique d' Hwf).
      specialize (Hno o Ho). unfold is_mine in Hno. bools. tauto.
  - rewrite Hwr. unfold written. case_bool_decide as Hu; [|done]. subst u'.
    split; intros (Hr & x & Hx & Hxm & Hxa & ->); (split; [done|]); exists x; [set_solver|].
    apply elem_of_app in Hx as [Hx|Hx%list_elem_of_singleton]; [done|]. subst x. destruct Hb. split_and!; congruence.
Qed.

(** Only the overrides and the log change while a transaction saves overrides. *)
Definition same_but_db (s s' : admin_state) : Prop :=
  s'.(ad_perm).(auth) = s.(ad_perm).(auth) ∧ s'.(ad_details) = s.(ad_details) ∧ s'.(ad_logs) = s.(ad_logs).

Lemma insert_overrides_run id d us : ∀ l s, db_wf d → overrides_replaced id l d (db_of s) →
  match for_each (insert_override id) us s with
  | (Ok _, s') => same_but_db s s' ∧ overrides_replaced id (l ++ us) d (db_of s')
  | (Throw _, s') => same_but_db s s'
  end.
Proof.
  induction us as [|u us IH]; intros l s Hwf Hl; cbn [for_each]; [by rewrite app_nil_r|].
  unfold mbind, action_bind at 1, insert_override at 1. unfold gets, mbind, action_bind at 1.
  destruct (permission_record (db_of s) (upd_module u) (upd_action u)) as [p|] eqn:Hp.
  - unfold ensure, throw. destruct (existsb _ _) eqn:Hfree; cbn [negb]; [done|].
    unfold mret, action_ret, action_bind at 1, on_db, modify.
    set (s1 := with_perm _ s). specialize (IH (l ++ [u]) s1 Hwf (override_inserted id u l d (db_of s) p Hwf Hl Hp Hfree)).
    rewrite <- app_assoc in IH. exact IH.
  - unfold mret, action_ret. specialize (IH (l ++ [u]) s Hwf). rewrite <- app_assoc in IH. apply IH.
    destruct Hl as [Hrows Hwf' Hwr]. split; [done..|]. intros u' m a v. rewrite Hwr. unfold written.
    case_bool_decide; [|done]. split; intros (Hr & x & Hx & Hxm & Hxa & ->); (split; [done|]); exists x; [set_solver|].
    apply elem_of_app in Hx as [Hx|Hx%list_elem_of_singleton]; [done|]. subst x. destruct Hr.
    destruct Hrows as [rows Hrows]. rewrite Hrows in Hp. by rewrite <- Hxm, <- Hxa.
Qed.

Lemma coherent_invalidated reg env u s d' : db_wf s.(pdb) → u ≠ "" → coherent reg s →
  d'.(users) = s.(pdb).(users) →
  (∀ u' m a rid, u' ≠ u → resolvePermission d' u' m a rid = resolvePermission s.(pdb) u' m a rid) →
  coherent reg {| pdb := d'; auth := invalidate (env u) u s.(auth) |}.
Proof.
  intros Hwf Hne Hc Husers Hsame u' m a def user e Hm Ha Hu He. cbn [pdb auth] in *.
  rewrite invalidate_perm in He by done. unfold invalidateUser in He. cbn in He. rewrite delete_keys_get in He.
  destruct (starts_with _ _) eqn:Hsw; [done|]. unfold getUser in Hu. rewrite Husers in Hu.
  rewrite (Hc _ _ _ _ _ _ Hm Ha Hu He). symmetry. apply Hsame. intros ->. by rewrite cacheKey_user in Hsw.
Qed.

Section overrides.
Context (is_uuid : string → bool) (log_ok : audit_row → bool) (reg : registry) (env : string → redis_env).
Context (now : Z) (actor : string).

Lemma find_user_run id s :
  (∃ e, find_user is_uuid id s = (Throw e, s)) ∨ find_user is_uuid id s = (Ok (getUser (db_of s) id), s).
Proof. unfold find_user. run_action. destruct (is_uuid id); [by right|left; by eexists]. Qed.

Lemma replaceUserOverrides_run id body s r s' : db_wf (db_of s) →
  replaceUserOverrides is_uuid log_ok reg env now actor id body s = (r, s') →
  (s' = s ∧ match r with Ok (Answer _ _) => False | Ok (Refuse n _) => ok_status n = false | Throw _ => True end) ∨
  ∃ user l s1 row, getUser (db_of s) id = Some user ∧ userPermissionOverrideSchema body = Some l ∧
    forallb (registered reg) l = true ∧ same_but_db s s1 ∧ overrides_replaced id l (db_of s) (db_of s1) ∧
    log_ok row = true ∧ entry_of actor now "user_override_change" row ∧
    row.(al_old) = Some (stringify (overrides_json (listed_overrides id (db_of s)))) ∧
    row.(al_new) = Some (stringify (overrides_json (requested l))) ∧
    r = Ok (Answer 200 (Z.of_nat (length l))) ∧
    s' = with_perm {| pdb := db_of s1; auth := invalidate (env id) id s.(ad_perm).(auth) |} (logged row s).
Proof.
  intros Hwf. unfold replaceUserOverrides. intros H. unfold mbind, action_bind in H.
  destruct (find_user_run id s) as [[e Hf]|Hf]; rewrite Hf in H; [injection H as <- <-; by left|].
  destruct (getUser (db_of s) id) as [user|]; [|injection H as <- <-; by left].
  destruct (userPermissionOverrideSchema body) as [l|]; [|injection H as <- <-; by left].
  destruct (forallb (registered reg) l) eqn:Hreg; cbn [negb] in H; [|injection H as <- <-; by left].
  unfold gets in H. unfold try_catch, transaction in H. unfold save_overrides, mbind, action_bind in H.
  unfold on_db, modify in H.
  match type of H with context [for_each (insert_override id) l ?st] => set (s0 := st) in H;
    pose proof (insert_overrides_run id (db_of s) l [] s0 Hwf (overrides_cleared id _ Hwf)) as Hins end.
  destruct (for_each (insert_override id) l s0) as [[[]|e] s1].
  2:{ injection H as <- <-. left. split; [|done]. apply rollback_same_auth. by destruct Hins as (Hauth & _). }
  destruct Hins as [Hsame Hrep]. change (same_but_db s s1) in Hsame.
  match type of H with context [logPermissionChange _ _ _ ?ev ?ro ?us ?old ?new ?st] =>
    destruct (log_run log_ok now actor ev ro us old new st) as [(row & Hlog & Hok & Hent & _ & _ & Hold & Hnew)|[e Hlog]] end;
    rewrite Hlog in H.
  - right. injection H as <- <-. exists user, l, s1, row. destruct Hsame as (Hauth & Hdet & Hlogs). split_and!; try done.
    unfold with_perm, with_auth, logged, with_logs, db_of. cbn. by rewrite Hauth, Hdet, Hlogs.
  - left. injection H as <- <-. split; [|done]. apply rollback_same_auth. by destruct Hsame as (Hauth & _).
Qed.

(** replacing the overrides of a user is all or nothing: an answer other than 200
    leaves everything as it was; after a 200 the user's overrides are exactly those of
    the request that the permission table knows, nobody else's decision changes, no
    cached decision is stale, and one entry of the log names the administrator with the
    overrides before and after, as they can be read back. *)
Theorem replaceUserOverrides_spec id body s r s' (Hwf : db_wf (db_of s)) (Hc : coherent reg s.(ad_perm))
    (Hrun : replaceUserOverrides is_uuid log_ok reg env now actor id body s = (r, s')) :
  match r with
  | Ok (Answer status n) =>
      exists l row, status = 200 /\ n = Z.of_nat (length l) /\ userPermissionOverrideSchema body = Some l /\
        Forall (fun u => registered reg u = true) l /\
        (forall u m a v, override_is (db_of s') u m a v <-> written id l (db_of s) u m a v) /\
        (forall u m a, u <> id -> granted reg (db_of s') u m a = granted reg (db_of s) u m a) /\
        coherent reg s'.(ad_perm) /\
        s'.(ad_logs) = s.(ad_logs) ++ [row] /\ entry_of actor now "user_override_change" row /\
        option_map JSON_parse row.(al_old) = Some (Some (overrides_json (listed_overrides id (db_of s)))) /\
        option_map JSON_parse row.(al_new) = Some (Some (overrides_json (requested l)))
  | _ => s' = s
  end.
Proof.
  destruct (replaceUserOverrides_run id body s r s' Hwf Hrun) as [[-> Hr]|H].
  { by destruct r as [[]|]. }
  destruct H as (user & l & s1 & row & Hu & Hbody & Hreg & _ & [[rows Hrows] Hwf1 Hwr] & _ & Hent & Hold & Hnew & -> & ->).
  change (db_of (with_perm _ _)) with (db_of s1).
  assert (Hother : ∀ u m a rid, u ≠ id → resolvePermission (db_of s1) u m a rid = resolvePermission (db_of s) u m a rid).
  { intros u m a rid Hne. apply resolvePermission_ext; try done; [|by rewrite Hrows].
    intros v. rewrite Hwr. unfold written. by rewrite bool_decide_eq_false_2. }
  assert (Hobj : ∀ l, json_ok (overrides_json l) = true).
  { intros l'. cbn. induction l' as [|x l' IH]; [done|]. cbn. rewrite IH, andb_true_r.
    by rewrite bool_decide_eq_true_2 by (repeat constructor; set_solver). }
  exists l, row. split_and!; try done.
  - apply Forall_forall. intros x Hx. rewrite forallb_forall in Hreg. by apply Hreg, list_elem_of_In.
  - intros u m a Hne. unfold granted, getUser. rewrite Hrows. cbn [users with_user_permissions].
    destruct (select_one _ _) as [x|]; [|done]. destruct (getModule reg m); [|done]. by rewrite <- Hrows, Hother.
  - apply (coherent_invalidated reg env id s.(ad_perm)); try done; [|by rewrite Hrows].
    apply (getUser_spec _ Hwf) in Hu as [Hin <-]. destruct Hwf as (_ & _ & _ & _ & _ & Hne). by apply Hne.
  - rewrite Hold. cbn [option_map]. by rewrite JSON_parse_stringify.
  - rewrite Hnew. cbn [option_map]. by rewrite JSON_parse_stringify.
Qed.
End overrides.

(** ** The matrix of a role *)

Lemma last_update_reversed m a l : last_update m a (map reversed l) = negb <$> last_update m a l.
Proof.
  induction l as [|u l IH]; [done|]. cbn [map]. rewrite !last_update_cons, IH.
  destruct (last_update m a l); [done|]. change (same_permission m a (reversed u)) with (same_permission m a u).
  by destruct (same_permission m a u).
Qed.

Lemma apply_requested_has l : ∀ acc m a,
  has_action (apply_requested l acc) m a ↔
  match last_update m a l with Some g => g = true | None => has_action acc m a end.
Proof.
  induction l as [|u l IH]; intros acc m a; [done|]. cbn [apply_requested foldl]. fold (apply_requested l).
  rewrite last_update_cons. unfold apply_requested in IH |- *. rewrite IH.
  destruct (last_update m a l); [done|]. unfold same_permission.
  destruct (upd_granted u) eqn:Hg; rewrite ?has_action_add, ?has_action_remove; case_bool_decide; naive_solver.
Qed.

Lemma add_action_wf acc m a : map_wf acc → map_wf (add_action acc m a).
Proof. intros H. unfold add_action. by apply map_set_wf. Qed.
Lemma group_grants_wf l : ∀ acc, map_wf acc → map_wf (group_grants l acc).
Proof. induction l as [|x l IH]; intros acc H; [done|]. cbn. by apply IH, add_action_wf. Qed.
Lemma apply_requested_wf l : ∀ acc, map_wf acc → map_wf (apply_requested l acc).
Proof.
  induction l as [|u l IH]; intros acc H; [done|]. cbn. apply IH.
  destruct (upd_granted u); [by apply add_action_wf|by apply map_set_wf].
Qed.

Lemma matrix_json_ok m : map_wf m → json_ok (matrix_json m) = true.
Proof.
  intros Hm. cbn. apply andb_true_iff. split.
  - apply bool_decide_eq_true. unfold map_wf, keys in *. by rewrite map_map.
  - apply forallb_forall. intros x (e & <- & _)%in_map_iff. cbn. apply forallb_forall.
    by intros y (z & <- & _)%in_map_iff.
Qed.

Lemma apply_updates_ok roleId l : ∀ s, roleId ∈ map r_id s.(pdb).(roles) →
  ∃ s', for_each (apply_update roleId) l s = (Ok tt, s') ∧ s'.(pdb).(roles) = s.(pdb).(roles).
Proof.
  induction l as [|u l IH]; intros s Hin; [by exists s|].
  assert (Hstep : ∃ s1, apply_update roleId u s = (Ok tt, s1) ∧ s1.(pdb).(roles) = s.(pdb).(roles)).
  { unfold apply_update. run_action. destruct (permission_record _ _ _); [|by exists s].
    destruct (upd_granted u); [rewrite bool_decide_eq_true_2 by done|]; by eexists. }
  destruct Hstep as (s1 & Hs1 & Hr1). cbn [for_each]. unfold mbind, action_bind. rewrite Hs1.
  destruct (IH s1) as (s2 & Hs2 & Hr2); [by rewrite Hr1|]. exists s2. by rewrite Hr2.
Qed.

(** For an existing role the update goes through. *)
Lemma updateRolePermissions_ok env roleId l s : db_wf s.(pdb) → roleId ∈ map r_id s.(pdb).(roles) →
  ∃ s', updateRolePermissions env roleId l s = (Ok tt, s').
Proof.
  intros Hwf Hin. destruct (apply_updates_ok roleId l s Hin) as (s1 & Hs1 & _).
  pose proof (apply_updates_run roleId l s Hwf) as Hrun. rewrite Hs1 in Hrun. destruct Hrun as ([rp Hrp] & _ & _).
  unfold updateRolePermissions, transaction, mbind, action_bind. rewrite Hs1.
  unfold invalidateCacheForRole, gets, mbind, action_bind. set (us := select _ _).
  pose proof (invalidate_users_run env us s1) as Hinv. destruct (for_each _ us s1) as [r s']. exists s'.
  destruct Hinv as (-> & _); [|done]. intros user [Hu _]%elem_of_select. rewrite Hrp in Hu.
  destruct Hwf as (_ & _ & _ & _ & _ & Hne). by apply Hne.
Qed.

Section matrix.
Context (is_uuid : string → bool) (log_ok : audit_row → bool) (reg : registry) (env : string → redis_env).
Context (now : Z) (actor : string).

(** updating the matrix of a role: an answer other than 200 and 500 leaves everything
    as it was; after a 200 the role holds what the last item of the request says for each
    pair, no other role changes, no cached decision is stale, and the one new entry of the
    log can be read back and lists what the role held before and holds now, apart from
    granted pairs the permission table does not know; when the entry cannot be written
    the change is not undone but reversed: every pair of the request then has the
    opposite of what was asked for, whatever it had before. *)
Theorem updateRoleMatrix_spec id body s r s' (Hwf : db_wf (db_of s)) (Hc : coherent reg s.(ad_perm))
    (Hrun : updateRoleMatrix is_uuid log_ok reg env now actor id body s = (r, s')) :
  let before := group_grants (role_grants (db_of s) id) [] in
  match r with
  | Ok (Answer status n) =>
      exists l row after, permissionUpdateSchema body = Some l /\ status = 200 /\ n = Z.of_nat (length l) /\
        Forall (fun u => registered reg u = true) l /\
        (forall rid m a, role_has (db_of s') rid m a <-> role_after (db_of s) id (last_update m a l) rid m a) /\
        db_wf (db_of s') /\ coherent reg s'.(ad_perm) /\
        s'.(ad_logs) = s.(ad_logs) ++ [row] /\ entry_of actor now "role_permission_change" row /\
        option_map JSON_parse row.(al_old) = Some (Some (matrix_json before)) /\
        option_map JSON_parse row.(al_new) = Some (Some (matrix_json after)) /\
        (forall m a, has_action before m a <-> role_has (db_of s) id m a) /\
        (forall m a, has_action after m a <-> role_has (db_of s') id m a \/
           (last_update m a l = Some true /\ permission_record (db_of s) m a = None))
  | Ok (Refuse status _) => if negb (status =? 500) then s' = s else
      exists l, permissionUpdateSchema body = Some l /\ s'.(ad_logs) = s.(ad_logs) /\ coherent reg s'.(ad_perm) /\
        (forall rid m a, role_has (db_of s') rid m a <->
           role_after (db_of s) id (option_map negb (last_update m a l)) rid m a)
  | Throw _ => s' = s
  end.
Proof.
  intros before. destruct (updateRoleMatrix_run is_uuid log_ok reg env now actor id body s r s' Hwf Hc Hrun) as [[-> Hr]|H].
  { destruct r as [[n v|n c]|]; [done| |done]. destruct Hr as [_ Hr]. by destruct (Z.eqb_spec n 500). }
  destruct H as (role & l & p1 & Hin & Hid & _ & Hbody & Hreg & Hupd & H).
  pose proof (updateRolePermissions_spec reg env id l s.(ad_perm) Hwf Hc) as Hspec. rewrite Hupd in Hspec.
  destruct Hspec as ([rp Hrp] & Hrole & Hwf1 & Hc1). fold before in H.
  assert (Hbefore : ∀ m a, has_action before m a ↔ role_has (db_of s) id m a).
  { intros m a. unfold before. rewrite group_grants_has, elem_of_role_grants. split; [intros [(? & [=] & _)|?]; done|by right]. }
  assert (Hold : map_wf before) by by apply group_grants_wf; constructor.
  destruct H as [(row & _ & Hent & Hro & Hrn & -> & ->)|[-> ->]]; cbn [Z.eqb Pos.eqb negb].
  - exists l, row, (apply_requested l before). change (db_of (logged row (with_perm p1 s))) with (pdb p1).
    split_and!; try done.
    + apply Forall_forall. intros x Hx. rewrite forallb_forall in Hreg. by apply Hreg, list_elem_of_In.
    + rewrite Hro. cbn [option_map]. rewrite JSON_parse_stringify; [done|by apply matrix_json_ok].
    + rewrite Hrn. cbn [option_map]. rewrite JSON_parse_stringify; [done|by apply matrix_json_ok, apply_requested_wf].
    + intros m a. rewrite apply_requested_has, Hrole. unfold role_after. rewrite bool_decide_eq_true_2 by done.
      destruct (last_update m a l) as [[]|]; [|naive_solver|rewrite Hbefore; naive_solver].
      destruct (permission_record (db_of s) m a) as [p|] eqn:Hp; [|naive_solver].
      apply (permission_record_spec _ Hwf) in Hp. naive_solver.
  - assert (Hin1 : id ∈ map r_id (pdb p1).(roles)) by (rewrite Hrp, <- Hid; by apply list_elem_of_fmap_2).
    destruct (updateRolePermissions_ok env id (map reversed l) p1 Hwf1 Hin1) as [p2 Hp2].
    pose proof (updateRolePermissions_spec reg env id (map reversed l) p1 Hwf1 Hc1) as Hspec. rewrite Hp2 in Hspec |- *.
    destruct Hspec as (_ & Hrole2 & _ & Hc2). exists l. split_and!; try done.
    intros rid m a. cbn [snd]. change (db_of (with_perm p2 s)) with (pdb p2). rewrite Hrole2, last_update_reversed.
    pose proof (Hrole rid m a) as H1. unfold role_after in *. destruct (bool_decide (rid = id)); [|done].
    destruct (last_update m a l) as [g|]; [|done]. cbn [fmap option_fmap option_map]. by rewrite Hrp.
Qed.
End matrix.

(** ** What every request keeps *)

Record admin_ok (lower : string → string) (reg : registry) (s : admin_state) : Prop := {
  ao_wf : db_wf (db_of s);
  ao_coherent : coherent reg s.(ad_perm);
  ao_ids : NoDup (map r_id (db_of s).(roles));
  ao_names : NoDup (map (λ r, lower r.(r_name)) (db_of s).(roles)) }.

Definition builtin_roles (d : perm_db) : list role_row := select (λ r, negb r.(r_is_custom)) d.(roles).

(** The id the database makes up is new. *)
Definition fresh_id (q : admin_request) (s : admin_state) : Prop :=
  match q with CreateRole newId _ => newId ∉ map r_id (db_of s).(roles) | _ => True end.

Definition event_of (q : admin_request) : option string :=
  match q with
  | CreateRole _ _ => Some "custom_role_created"
  | UpdateRole _ _ => None
  | DeleteRole _ => Some "custom_role_deleted"
  | UpdateMatrix _ _ => Some "role_permission_change"
  | ReplaceOverrides _ _ => Some "user_override_change"
  end.

Definition succeeded (r : outcome app_error Z) : bool :=
  match r with Ok n => ok_status n | Throw _ => false end.

(** Deleting a role nobody holds changes no decision. *)
Lemma role_has_without id d rid m a : rid ≠ id → role_has (without_role id d) rid m a ↔ role_has d rid m a.
Proof.
  intros Hne. unfold role_has, without_role. cbn [permissions role_permissions with_roles with_role_permissions].
  setoid_rewrite elem_of_delete_where. setoid_rewrite bool_decide_eq_false. cbn. naive_solver.
Qed.

Lemma removed_coherent reg id s : db_wf (db_of s) → coherent reg s.(ad_perm) →
  (∀ u, u ∈ (db_of s).(users) → u.(pu_role_id) ≠ Some id) → coherent reg (removed id s).(ad_perm).
Proof.
  intros Hwf Hc Hfree u m a d user e Hm Ha Hu He. rewrite (Hc u m a d user e Hm Ha Hu He).
  apply resolvePermission_ext; try done. intros rid Hrid. symmetry. apply role_has_without. intros ->.
  apply (getUser_spec _ Hwf) in Hu as [Hin _]. apply (Hfree user Hin).
  unfold truthy_id in Hrid. destruct (pu_role_id user); [|done]. case_bool_decide; congruence.
Qed.

Lemma rename_role_ids id name l : map r_id (rename_role id name l) = map r_id l.
Proof. unfold rename_role. by apply update_where_column. Qed.

Lemma elem_of_rename_role id name l y : y ∈ rename_role id name l →
  ∃ x, x ∈ l ∧ y.(r_id) = x.(r_id) ∧ y.(r_is_custom) = x.(r_is_custom) ∧
       (y = x ∨ (x.(r_id) = id ∧ y.(r_name) = default x.(r_name) name)).
Proof.
  intros (x & Hx & ->)%elem_of_update_where. exists x. split; [done|].
  case_bool_decide as Hid; cbn; [|by auto]. split_and!; auto.
Qed.

Lemma rename_role_absent id name l : id ∉ map r_id l → rename_role id name l = l.
Proof.
  intros Hid. unfold rename_role, update_where. rewrite <- (map_id l) at 2. apply map_ext_in. intros x Hx.
  rewrite bool_decide_eq_false_2; [done|]. intros <-. apply Hid. by apply list_elem_of_fmap_2, list_elem_of_In.
Qed.

Lemma rename_role_names (lower : string → string) id name l :
  NoDup (map r_id l) → NoDup (map (λ r, lower r.(r_name)) l) →
  (∀ n x, name = Some n → x ∈ l → x.(r_id) ≠ id → lower x.(r_name) ≠ lower n) →
  NoDup (map (λ r, lower r.(r_name)) (rename_role id name l)).
Proof.
  destruct name as [n|].
  2:{ intros _ Hnd _. unfold rename_role. by rewrite update_where_column. }
  induction l as [|x l IH]; [constructor|]. intros [Hi Hids]%NoDup_cons [Hn Hnames]%NoDup_cons Hother.
  change (rename_role id (Some n) (x :: l)) with
    ((if bool_decide (r_id x = id) then {| r_id := r_id x; r_name := n; r_is_custom := r_is_custom x |} else x)
     :: rename_role id (Some n) l).
  cbn [map]. apply NoDup_cons. split; [|apply IH; [done..|]; intros m y Hm Hy; apply (Hother m); set_solver].
  case_bool_decide as Hid.
  - subst id. rewrite rename_role_absent by done. cbn. intros (y & Heq & Hy)%elem_of_map.
    apply (Hother n y eq_refl); [set_solver| |done]. intros Hyi. apply Hi. rewrite <- Hyi. by apply list_elem_of_fmap_2.
  - intros (y & Heq & (z & Hz & _ & _ & [->|[Hzi Hyn]])%elem_of_rename_role)%elem_of_map.
    + apply Hn. rewrite Heq. by apply (list_elem_of_fmap_2 (λ r, lower (r_name r))).
    + cbn in Hyn. apply (Hother n x eq_refl); [set_solver|done|]. by rewrite Heq, Hyn.
Qed.

Lemma select_update_out {R} (p q : R → bool) f l :
  (∀ x, x ∈ l → q x = true → p x = false ∧ p (f x) = false) → select p (update_where q f l) = select p l.
Proof.
  unfold select, update_where. induction l as [|x l IH]; intros H; [done|]. cbn.
  rewrite IH by (intros; apply H; set_solver). destruct (q x) eqn:Hq; [|done].
  destruct (H x) as [-> ->]; [set_solver|done..].
Qed.

Lemma select_delete_out {R} (p q : R → bool) l :
  (∀ x, x ∈ l → q x = true → p x = false) → select p (delete_where q l) = select p l.
Proof.
  unfold select, delete_where. induction l as [|x l IH]; intros H; [done|]. cbn.
  destruct (q x) eqn:Hq; cbn; [rewrite (H x) by (set_solver || done)|]; rewrite IH; try done; intros; apply H; set_solver.
Qed.

Section requests.
Context (lower : string → string) (is_uuid : string → bool) (insert_ok update_ok : bool) (log_ok : audit_row → bool).
Context (reg : registry) (env : string → redis_env) (now : Z) (actor : string).

Abbreviation serve := (serve_admin lower is_uuid insert_ok update_ok log_ok reg env now actor).

(** The ways a request can end: refused or failed with nothing changed, the
    four changes that succeed, and the failed change of a matrix. *)
Inductive admin_step (q : admin_request) (s : admin_state) : outcome app_error Z → admin_state → Prop :=
  | Step_none r : (succeeded r = true → ∃ id body, q = UpdateRole id body) → admin_step q s r s
  | Step_create newId body name description row : q = CreateRole newId body →
      (∀ x, x ∈ (db_of s).(roles) → lower x.(r_name) ≠ lower name) →
      entry_of actor now "custom_role_created" row →
      admin_step q s (Ok 201) (logged row (created newId name description now s))
  | Step_rename id body name description role : q = UpdateRole id body →
      role ∈ (db_of s).(roles) → role.(r_id) = id → role.(r_is_custom) = true →
      (∀ n x, name = Some n → x ∈ (db_of s).(roles) → x.(r_id) ≠ id → lower x.(r_name) ≠ lower n) →
      admin_step q s (Ok 200) (renamed id name description s)
  | Step_delete id role row : q = DeleteRole id →
      role ∈ (db_of s).(roles) → role.(r_id) = id → role.(r_is_custom) = true →
      (∀ u, u ∈ (db_of s).(users) → u.(pu_role_id) ≠ Some id) →
      entry_of actor now "custom_role_deleted" row → admin_step q s (Ok 200) (logged row (removed id s))
  | Step_matrix id body l p role row : q = UpdateMatrix id body →
      role ∈ (db_of s).(roles) → role.(r_id) = id → role.(r_is_custom) = true →
      updateRolePermissions env id l s.(ad_perm) = (Ok tt, p) →
      entry_of actor now "role_permission_change" row → admin_step q s (Ok 200) (logged row (with_perm p s))
  | Step_matrix_failed id body l p role : q = UpdateMatrix id body →
      role ∈ (db_of s).(roles) → role.(r_id) = id → role.(r_is_custom) = true →
      updateRolePermissions env id l s.(ad_perm) = (Ok tt, p) →
      admin_step q s (Ok 500) (with_perm (updateRolePermissions env id (map reversed l) p).2 s)
  | Step_overrides id body l s1 user row : q = ReplaceOverrides id body →
      getUser (db_of s) id = Some user → overrides_replaced id l (db_of s) (db_of s1) →
      entry_of actor now "user_override_change" row →
      admin_step q s (Ok 200)
        (with_perm {| pdb := db_of s1; auth := invalidate (env id) id s.(ad_perm).(auth) |} (logged row s)).

(** Every run is one of these steps. *)
Lemma serve_step q s r s' : db_wf (db_of s) → coherent reg s.(ad_perm) → serve q s = (r, s') → admin_step q s r s'.
Proof.
  intros Hwf Hc. destruct q as [newId body|id body|id|id body|id body]; cbn [serve_admin]; unfold mbind, action_bind;
    intros H.
  - destruct (createRole _ _ _ _ _ _ _ _) as [r1 s1] eqn:Hrun. apply createRole_run in Hrun.
    destruct Hrun as [(-> & n & c & -> & Hn)|(name & description & v & row & Hbody & Hnew & _ & _ & -> & -> & Hent)];
      injection H as <- <-; [|by eapply Step_create].
    apply Step_none. cbn. by rewrite Hn.
  - destruct (updateRole _ _ _ _ _ _) as [r1 s1] eqn:Hrun. apply updateRole_run in Hrun.
    destruct Hrun as [[-> _]|(name & description & role & v & _ & Hin & Hid & Hcu & Hother & -> & ->)].
    + destruct r1 as [[?|?]|]; injection H as <- <-; apply Step_none; eauto.
    + injection H as <- <-. by eapply Step_rename.
  - destruct (deleteRole _ _ _ _ _ _) as [r1 s1] eqn:Hrun. apply deleteRole_run in Hrun.
    destruct Hrun as [[-> Hno]|(role & row & Hin & Hid & Hcu & Hfree & _ & -> & -> & Hent)];
      [|injection H as <- <-; by eapply Step_delete].
    destruct r1; injection H as <- <-; apply Step_none; cbn; [by rewrite Hno|done].
  - destruct (updateRoleMatrix _ _ _ _ _ _ _ _ _) as [r1 s1] eqn:Hrun.
    apply (updateRoleMatrix_run _ _ reg env) in Hrun; [|done..].
    destruct Hrun as [[-> Hno]|(role & l & p & Hin & Hid & Hcu & _ & _ & Hupd & H2)].
    + destruct r1 as [[?|? ?]|]; [done|..]; injection H as <- <-; apply Step_none; cbn; [|done].
      by destruct Hno as [-> _].
    + destruct H2 as [(row & _ & Hent & _ & _ & -> & ->)|[-> ->]]; injection H as <- <-;
        [by eapply Step_matrix|by eapply Step_matrix_failed].
  - destruct (replaceUserOverrides _ _ _ _ _ _ _ _ _) as [r1 s1] eqn:Hrun.
    apply (replaceUserOverrides_run _ _ reg env) in Hrun; [|done].
    destruct Hrun as [[-> Hno]|(user & l & s2 & row & Hu & _ & _ & _ & Hrep & _ & Hent & _ & _ & -> & ->)].
    + destruct r1 as [[?|? ?]|]; [done|..]; injection H as <- <-; apply Step_none; cbn; [by rewrite Hno|done].
    + injection H as <- <-. by eapply Step_overrides.
Qed.

(** whatever the request and however it ends, the tables stay well formed, the ids of
    the roles and their names up to case stay distinct, and no cached decision is stale. *)
Theorem administration_keeps_order q s r s' (Hok : admin_ok lower reg s) (Hfresh : fresh_id q s)
    (Hrun : serve q s = (r, s')) : admin_ok lower reg s'.
Proof.
  destruct Hok as [Hwf Hc Hids Hnames]. destruct (serve_step q s r s' Hwf Hc Hrun) as [| newId body name description row Hq Hnew _
    |id body name description role Hq Hin Hid Hcu Hother|id role row Hq Hin Hid Hcu Hfree _
    |id body l p role row Hq Hin Hid Hcu Hupd _|id body l p role Hq Hin Hid Hcu Hupd|id body l s1 user row Hq Hu Hrep _].
  - done.
  - subst q. split; try done; cbn; rewrite map_app; apply NoDup_app; (split; [done|]); (split; [|apply NoDup_singleton]).
    + intros x Hx ->%list_elem_of_singleton. by apply Hfresh.
    + intros x (y & -> & Hy)%elem_of_map Heq%list_elem_of_singleton. by apply (Hnew y).
  - split; try done; cbn; [by rewrite rename_role_ids|by apply rename_role_names].
  - split; cbn; [|by apply removed_coherent|by apply NoDup_map_filter..]. done.
  - pose proof (updateRolePermissions_spec reg env id l s.(ad_perm) Hwf Hc) as Hspec. rewrite Hupd in Hspec.
    destruct Hspec as ([rp Hrp] & _ & Hwf1 & Hc1). by split; try done; cbn; unfold db_of; cbn; rewrite Hrp.
  - pose proof (updateRolePermissions_spec reg env id l s.(ad_perm) Hwf Hc) as Hspec. rewrite Hupd in Hspec.
    destruct Hspec as ([rp Hrp] & _ & Hwf1 & Hc1).
    pose proof (updateRolePermissions_spec reg env id (map reversed l) p Hwf1 Hc1) as Hspec.
    destruct (updateRolePermissions env id (map reversed l) p) as [[[]|e] p2]; [|subst p2].
    + destruct Hspec as ([rp2 Hrp2] & _ & Hwf2 & Hc2). split; try done; cbn; unfold db_of; cbn; by rewrite Hrp2, Hrp.
    + split; try done; cbn; unfold db_of; cbn; by rewrite Hrp.
  - destruct Hrep as [[rows Hrows] Hwf1 Hwr].
    assert (Hne : id ≠ "").
    { apply (getUser_spec _ Hwf) in Hu as [Hu <-]. destruct Hwf as (_ & _ & _ & _ & _ & Hne). by apply Hne. }
    split; cbn; [done| |by rewrite Hrows..].
    apply coherent_invalidated; try done; [by rewrite Hrows|]. intros u m a rid Hu'. apply resolvePermission_ext; try done.
    + intros v. rewrite Hwr. unfold written. by rewrite bool_decide_eq_false_2.
    + intros rid' _. by rewrite Hrows.
Qed.

(** no request touches a built-in role, whoever sends it: the rows of the built-in
    roles and what they grant stay as they are. *)
Theorem builtin_roles_are_fixed q s r s' role m a (Hok : admin_ok lower reg s)
    (Hrun : serve q s = (r, s')) (Hrole : role ∈ builtin_roles (db_of s)) :
  builtin_roles (db_of s') = builtin_roles (db_of s) /\
  (role_has (db_of s') role.(r_id) m a <-> role_has (db_of s) role.(r_id) m a).
Proof.
  destruct Hok as [Hwf Hc Hids _]. apply elem_of_select in Hrole as [Hrole Hnc]. bools.
  assert (Hne : ∀ x id, x ∈ (db_of s).(roles) → x.(r_id) = id → x.(r_is_custom) = true → role.(r_id) ≠ id).
  { intros x id Hx Hid Hcu Heq. assert (role = x) as -> by (apply (map_unique _ _ _ _ Hids Hrole Hx); congruence). congruence. }
  assert (Hupdate : ∀ id l p x, x ∈ (db_of s).(roles) → x.(r_id) = id → x.(r_is_custom) = true →
    updateRolePermissions env id l s.(ad_perm) = (Ok tt, p) →
    db_wf (pdb p) ∧ coherent reg p ∧ (pdb p).(roles) = (db_of s).(roles) ∧
    (role_has (pdb p) role.(r_id) m a ↔ role_has (db_of s) role.(r_id) m a)).
  { intros id l p x Hx Hid Hcu Hupd. pose proof (updateRolePermissions_spec reg env id l s.(ad_perm) Hwf Hc) as Hspec.
    rewrite Hupd in Hspec. destruct Hspec as ([rp Hrp] & Hafter & ? & ?). split_and!; [done..|by rewrite Hrp|].
    rewrite Hafter. unfold role_after. by rewrite bool_decide_eq_false_2 by by eapply Hne. }
  destruct (serve_step q s r s' Hwf Hc Hrun) as [| newId body name description row Hq Hnew _
    |id body name description x Hq Hx Hid Hcu Hother|id x row Hq Hx Hid Hcu Hfree _
    |id body l p x row Hq Hx Hid Hcu Hupd _|id body l p x Hq Hx Hid Hcu Hupd|id body l s1 user row Hq Hu Hrep _].
  - done.
  - split; [|done]. unfold builtin_roles, select. cbn. by rewrite List.filter_app, app_nil_r.
  - split; [|done]. apply select_update_out. intros y Hy Hyi. bools. cbn.
    assert (y = x) as -> by (apply (map_unique _ _ _ _ Hids Hy Hx); congruence). by rewrite Hcu.
  - split; [|by apply role_has_without, (Hne x)]. apply select_delete_out. intros y Hy Hyi. bools.
    assert (y = x) as -> by (apply (map_unique _ _ _ _ Hids Hy Hx); congruence). by rewrite Hcu.
  - destruct (Hupdate id l p x Hx Hid Hcu Hupd) as (_ & _ & Hr & Hh). split; [|exact Hh]. unfold builtin_roles. cbn.
    unfold db_of. cbn. by rewrite Hr.
  - destruct (Hupdate id l p x Hx Hid Hcu Hupd) as (Hwf1 & Hc1 & Hr & Hh).
    pose proof (updateRolePermissions_spec reg env id (map reversed l) p Hwf1 Hc1) as Hspec.
    destruct (updateRolePermissions env id (map reversed l) p) as [[[]|e] p2]; cbn [snd].
    + destruct Hspec as ([rp2 Hrp2] & Hafter & _). split; [unfold builtin_roles, db_of; cbn; by rewrite Hrp2; cbn; rewrite Hr|].
      change (db_of (with_perm p2 s)) with (pdb p2). rewrite Hafter. unfold role_after.
      by rewrite bool_decide_eq_false_2 by by apply (Hne x).
    + subst p2. split; [|exact Hh]. unfold builtin_roles, db_of. cbn. by rewrite Hr.
  - destruct Hrep as [[rows Hrows] _ _]. change (db_of (with_perm _ _)) with (db_of s1). unfold builtin_roles. by rewrite Hrows.
Qed.

(** the log of permission changes only grows, and with exactly the changes: a request
    that succeeds adds one entry with its event, the administrator and the time, one
    that does not adds none; only renaming a role is not logged. *)
Theorem changes_are_logged q s r s' (Hwf : db_wf (db_of s)) (Hc : coherent reg s.(ad_perm))
    (Hrun : serve q s = (r, s')) :
  exists entries, s'.(ad_logs) = s.(ad_logs) ++ entries /\
    if succeeded r then
      match event_of q with
      | Some event => exists row, entries = [row] /\ entry_of actor now event row
      | None => entries = []
      end
    else entries = [].
Proof.
  destruct (serve_step q s r s' Hwf Hc Hrun) as [r Hnone|newId body name description row -> _ Hent
    |id body name description role -> _ _ _ _|id role row -> _ _ _ _ Hent|id body l p role row -> _ _ _ _ Hent
    |id body l p role -> _ _ _ _|id body l s1 user row -> _ _ Hent].
  - exists []. rewrite app_nil_r. split; [done|]. destruct (succeeded r); [|done].
    destruct Hnone as (id & body & ->); done.
  - exists [row]. split; [done|]. by exists row.
  - exists []. by rewrite app_nil_r.
  - exists [row]. split; [done|]. by exists row.
  - exists [row]. split; [done|]. by exists row.
  - exists []. by rewrite app_nil_r.
  - exists [row]. split; [done|]. by exists row.
Qed.
End requests.

(** ** The pages of the log *)

#[local] Instance later_total : StrictTotal (λ a b : Z, b <? a).
Proof. constructor; intros *; rewrite ?Z.ltb_lt, ?Z.ltb_ge; lia. Qed.

Lemma map_entries_slice n m l : ∀ all, map_entries l = Ok all → map_entries (take n (drop m l)) = Ok (take n (drop m all)).
Proof.
  assert (Htake : ∀ l all n, map_entries l = Ok all → map_entries (take n l) = Ok (take n all)).
  { clear. induction l as [|r l IH]; intros all n H; cbn in H; [injection H as <-; by rewrite !take_nil|].
    destruct n; [done|]. cbn. destruct (map_entry r); [|by destruct (map_entries l)].
    destruct (map_entries l) as [xs|]; [|done]. injection H as <-. by rewrite (IH xs). }
  revert l. induction m as [|m IH]; intros l all H; [by apply Htake|].
  destruct l as [|r l]; cbn in H; [injection H as <-; by rewrite !drop_nil, !take_nil|]. cbn [drop].
  destruct (map_entry r); [|by destruct (map_entries l)]. destruct (map_entries l) as [xs|] eqn:Hl; [|done].
  injection H as <-. by apply IH.
Qed.

Lemma map_entries_length l : ∀ all, map_entries l = Ok all → length all = length l.
Proof.
  induction l as [|r l IH]; intros all H; cbn in H; [by injection H as <-|].
  destruct (map_entry r); [|by destruct (map_entries l)]. destruct (map_entries l) as [xs|]; [|done].
  injection H as <-. cbn. by rewrite (IH xs).
Qed.

(** Consecutive slices of a list. *)
Lemma slices_concat {A} (k : nat) (l : list A) n :
  concat (map (λ i, take k (drop (i * k) l)) (seq 0 n)) = take (n * k) l.
Proof.
  induction n as [|n IH]; [done|]. rewrite seq_S, map_app, concat_app, IH. cbn [map concat].
  rewrite app_nil_r. replace (S n * k)%nat with (n * k + k)%nat by lia. apply take_take_drop.
Qed.

Lemma page_number_int i : 1 ≤ i → page_number (Some (int i)) = i.
Proof.
  intros Hi. unfold page_number. cbn [default js_or int]. unfold js_or. cbn.
  destruct (Qeq_bool _ _) eqn:H0.
  - apply Qeq_bool_iff in H0. unfold Qeq in H0. cbn in H0. lia.
  - change (Finite (inject_Z i)) with (int i). rewrite integer_value_int. lia.
Qed.

Lemma page_limit_bounds limit : 1 ≤ page_limit limit ≤ 50.
Proof. unfold page_limit. lia. Qed.

(** reading the log page by page shows every matching entry exactly once, newest
    first, at most fifty at a time, and the reported total and number of pages are right. *)
Theorem audit_pages_complete pg_time q limit logs from to all
    (Hfrom : time_filter pg_time q.(aq_start) = Ok from) (Hto : time_filter pg_time q.(aq_end) = Ok to)
    (Hall : map_entries (newest_first (select (entry_matches q from to) logs)) = Ok all) :
  let n := (Z.of_nat (length all) + page_limit limit - 1) / page_limit limit in
  StronglySorted (fun x y => y.(al_time) <= x.(al_time)) (newest_first (select (entry_matches q from to) logs)) /\
  exists pages : nat -> audit_page,
    (forall i, (i < Z.to_nat n)%nat ->
       getAuditLogs pg_time q (Some (int (Z.of_nat i + 1))) limit logs = Ok (pages i) /\
       (pages i).(ap_total) = Z.of_nat (length all) /\ (pages i).(ap_totalPages) = n /\
       (pages i).(ap_page) = Z.of_nat i + 1 /\ (length (pages i).(ap_entries) <= 50)%nat) /\
    concat (map (fun i => (pages i).(ap_entries)) (seq 0 (Z.to_nat n))) = all.
Proof.
  intros n. set (found := newest_first _) in *. pose proof (page_limit_bounds limit) as Hlim.
  set (k := Z.to_nat (page_limit limit)).
  split.
  { pose proof (order_by_sorted al_time (λ a b, b <? a) (select (entry_matches q from to) logs)) as Hs.
    fold (newest_first (select (entry_matches q from to) logs)) in Hs. fold found in Hs. clear - Hs.
    induction Hs as [|x l _ IH Hx]; constructor; [done|]. eapply Forall_impl; [exact Hx|].
    unfold not_after. intros y Hy. cbn in Hy. by apply Z.ltb_ge in Hy. }
  exists (λ i, {| ap_entries := take k (drop (i * k) all); ap_total := Z.of_nat (length all); ap_page := Z.of_nat i + 1;
                  ap_limit := page_limit limit; ap_totalPages := n |}).
  cbn [ap_entries ap_total ap_page ap_totalPages]. split.
  - intros i _. split_and!; [|done..|].
    + unfold getAuditLogs. rewrite page_number_int by lia. rewrite Hfrom, Hto. fold found. fold k.
      replace (Z.to_nat ((Z.of_nat i + 1 - 1) * page_limit limit)) with (i * k)%nat by (unfold k; lia).
      rewrite (map_entries_slice k (i * k) _ _ Hall), <- (map_entries_length _ _ Hall). reflexivity.
    + rewrite length_take. unfold k. lia.
  - rewrite slices_concat. apply take_ge. unfold n, k.
    pose proof (Z.div_mod (Z.of_nat (length all) + page_limit limit - 1) (page_limit limit) ltac:(lia)) as Hd.
    pose proof (Z.mod_pos_bound (Z.of_nat (length all) + page_limit limit - 1) (page_limit limit) ltac:(lia)).
    nia.
Qed.

(** ** The limiter *)

(** A signed-in user gets the sliding window of [RateLimiter.v] with 100 requests in
    15 minutes; without a user nothing is counted. *)
Lemma permission_limiter_window user now st :
  match truthy_id user with
  | None => permissionAdminRateLimiter user now st = ({| li_reply := Next; li_retryAfter := None |}, st)
  | Some id =>
      let '(result, st') := checkRateLimitInMemory ("perm_admin:" +:+ id) RATE_LIMIT WINDOW_MS now st in
      let reply := limiter_reply RATE_LIMIT WINDOW_MS now result in
      permissionAdminRateLimiter user now st =
        ({| li_reply := reply.(rl_status); li_retryAfter := reply.(retry_after) |}, st')
  end.
Proof.
  unfold permissionAdminRateLimiter, checkRateLimitInMemory, in_window. destruct (truthy_id user) as [id|]; [|done].
  destruct (RATE_LIMIT <=? _) eqn:H; [|done]. unfold limiter_reply. cbn.
  by destruct (List.filter _ _).
Qed.

Module Administration.
(** One built-in and one custom role, with users in each. *)
Definition db : perm_db := {|
  permissions := PermissionService.Sample.db.(permissions);
  role_permissions := [("r1", "p1"); ("r2", "p1")];
  user_permissions := PermissionService.Sample.db.(user_permissions);
  users := PermissionService.Sample.db.(users) ++ [{| pu_id := "u3"; pu_role := "Manager"; pu_role_id := Some "r2" |}];
  roles := [{| r_id := "r1"; r_name := "Manager"; r_is_custom := false |};
            {| r_id := "r2"; r_name := "Branch"; r_is_custom := true |}] |}.
Definition state : admin_state := {|
  ad_perm := {| pdb := db; auth := {| perm_cache := new_cache 1000 5; redis := []; forceReadUserIds := [] |} |};
  ad_details := [("r2", {| rd_description := None; rd_created_at := 5 |})]; ad_logs := [] |}.
Definition env : string → redis_env := PermissionService.Sample.env.
Definition writable (_ : audit_row) : bool := true.
Definition unwritable (_ : audit_row) : bool := false.

Lemma db_wf_ok : db_wf db.
Proof.
  split_and!; try (by apply (bool_decide_unpack _)).
  - intros o Ho%list_elem_of_singleton. subst. by left.
  - intros user. cbn. rewrite !elem_of_cons. by intros [->|[->|[->|[]%not_elem_of_nil]]].
Qed.
Lemma coherent_ok : coherent loaded_registry state.(ad_perm).
Proof. by intros u m a d user e _ _ _ He. Qed.
Lemma order_ok : admin_ok toLowerCase loaded_registry state.
Proof.
  split; [exact db_wf_ok|exact coherent_ok|by apply (bool_decide_unpack _)..].
Qed.

(** [{ "permissions": [{ "module": "AuditPlans", "action": <a>, "granted": <b> }] }] *)
Definition matrix_body (a : string) (b : bool) : json :=
  JObj [("permissions", JArr [JObj [("module", JStr "AuditPlans"); ("action", JStr a); ("granted", JBool b)]])].
Definition overrides_body (a : string) (b : bool) : json :=
  JObj [("overrides", JArr [JObj [("module", JStr "AuditPlans"); ("action", JStr a); ("isAllowed", JBool b)]])].

Definition serve (log_ok : audit_row → bool) : admin_request → admin_action Z :=
  serve_admin toLowerCase (λ _, true) true true log_ok loaded_registry env 100 "u1".

(** Granting again what the role already holds takes it away when the log fails. *)
Lemma failed_grant_revokes :
  let '(r, s') := serve unwritable (UpdateMatrix "r2" (matrix_body "View" true)) state in
  r = Ok 500 ∧ role_grants (db_of state) "r2" = [("AuditPlans", "View")] ∧ role_grants (db_of s') "r2" = [].
Proof. split_and!; vm_compute; reflexivity. Qed.

Definition logged_twice : list audit_row :=
  let s1 := (serve writable (UpdateMatrix "r2" (matrix_body "Delete" true)) state).2 in
  (serve writable (ReplaceOverrides "u3" (overrides_body "View" false)) s1).2.(ad_logs).
Definition every_entry : audit_query :=
  {| aq_actor := None; aq_role := None; aq_user := None; aq_event := None; aq_start := None; aq_end := None;
     aq_page := None; aq_limit := None |}.
End Administration.

Lemma replaceUserOverrides_spec_witness :
  let s' := (replaceUserOverrides (λ _, true) Administration.writable loaded_registry Administration.env 100 "u1" "u3"
               (Administration.overrides_body "View" false) Administration.state).2 in
  ∃ row, s'.(ad_logs) = [row] ∧ entry_of "u1" 100 "user_override_change" row ∧
         override_is (db_of s') "u3" "AuditPlans" "View" 0.
Proof.
  destruct (replaceUserOverrides_spec (λ _, true) Administration.writable loaded_registry Administration.env 100 "u1" "u3"
    (Administration.overrides_body "View" false) Administration.state _ _ Administration.db_wf_ok
    Administration.coherent_ok eq_refl) as (l & row & _ & _ & Hbody & _ & Hov & _ & _ & Hlog & Hent & _).
  exists row. split; [exact Hlog|]. split; [exact Hent|]. apply Hov. unfold written.
  rewrite bool_decide_eq_true_2 by reflexivity. split; [vm_compute; discriminate|].
  vm_compute in Hbody. injection Hbody as <-. eexists. split; [left|]. repeat split; reflexivity.
Defined.

Lemma updateRoleMatrix_spec_witness :
  let s' := (updateRoleMatrix (λ _, true) Administration.writable loaded_registry Administration.env 100 "u1" "r2"
               (Administration.matrix_body "Delete" true) Administration.state).2 in
  role_has (db_of s') "r2" "AuditPlans" "Delete".
Proof.
  destruct (updateRoleMatrix_spec (λ _, true) Administration.writable loaded_registry Administration.env 100 "u1" "r2"
    (Administration.matrix_body "Delete" true) Administration.state _ _ Administration.db_wf_ok
    Administration.coherent_ok eq_refl) as (l & row & after & Hbody & _ & _ & _ & Hrole & _).
  apply Hrole. vm_compute in Hbody. injection Hbody as <-. unfold role_after. rewrite bool_decide_eq_true_2 by reflexivity.
  change (last_update _ _ _) with (Some true). split; [reflexivity|].
  exists {| p_id := "p2"; p_module := "AuditPlans"; p_action := "Delete" |}. repeat split; [|reflexivity..].
  right. left.
Defined.

Lemma administration_keeps_order_witness :
  admin_ok toLowerCase loaded_registry
    (Administration.serve Administration.writable
       (CreateRole "r3" (JObj [("name", JStr "Auditors")])) Administration.state).2.
Proof.
  refine (administration_keeps_order toLowerCase (λ _, true) true true Administration.writable loaded_registry
    Administration.env 100 "u1" (CreateRole "r3" (JObj [("name", JStr "Auditors")])) Administration.state _ _
    Administration.order_ok _ (surjective_pairing _)).
  apply (bool_decide_unpack _). reflexivity.
Defined.

Lemma builtin_roles_are_fixed_witness :
  role_has (db_of (Administration.serve Administration.writable (DeleteRole "r1") Administration.state).2) "r1"
    "AuditPlans" "View" ↔ role_has (db_of Administration.state) "r1" "AuditPlans" "View".
Proof.
  refine (proj2 (builtin_roles_are_fixed toLowerCase (λ _, true) true true Administration.writable loaded_registry
    Administration.env 100 "u1" (DeleteRole "r1") Administration.state _ _
    {| r_id := "r1"; r_name := "Manager"; r_is_custom := false |} "AuditPlans" "View" Administration.order_ok (surjective_pairing _) _)).
  left.
Defined.

Lemma changes_are_logged_witness :
  ∃ entries, (Administration.serve Administration.writable (ReplaceOverrides "u3" (Administration.overrides_body "View" false))
                Administration.state).2.(ad_logs) = [] ++ entries ∧ ∃ row, entries = [row] ∧ entry_of "u1" 100 "user_override_change" row.
Proof.
  destruct (changes_are_logged toLowerCase (λ _, true) true true Administration.writable loaded_registry
    Administration.env 100 "u1" (ReplaceOverrides "u3" (Administration.overrides_body "View" false)) Administration.state _ _
    Administration.db_wf_ok Administration.coherent_ok eq_refl) as (entries & Hlog & Hrow).
  exists entries. split; [exact Hlog|exact Hrow].
Defined.

Definition all_entries : list audit_entry :=
  match map_entries (newest_first (select (entry_matches Administration.every_entry None None) Administration.logged_twice)) with
  | Ok l => l
  | Throw _ => []
  end.

Lemma audit_pages_complete_witness :
  length all_entries = 2%nat ∧
  ∃ pages : nat → audit_page, concat (map (λ i, (pages i).(ap_entries)) (seq 0 2)) = all_entries.
Proof.
  split; [vm_compute; reflexivity|].
  destruct (audit_pages_complete (λ _, None) Administration.every_entry (Some (int 1))
    Administration.logged_twice None None all_entries eq_refl eq_refl ltac:(vm_compute; reflexivity)) as (_ & pages & _ & Hall).
  exists pages. exact Hall.
Defined.
