(* ===== verification/Backups.v ===== *)
(** * Backups and the restore drill

    [utils/backup.ts] and [src/scripts/restoreDrill.ts].  A path is written as its
    name inside the backup directory.  AES-256-GCM is the pair [seal] and [open_]
    of a key and HKDF is [deriveKey] as in [FileEncryption.v]; [tar] and [untar]
    are the archiver, and what [pg_dump], the disk and the database answer are
    fields of the environment of a run.  Errors of the two statements that write
    the history are swallowed by the code. *)

From S2P Require Import Prelude JsMap JsStrings JsNumbers Json OrderBy Pagination AppCodes FileEncryption GenericRecords.
Local Open Scope Z_scope.

(** A file, or a directory of files. *)
Inductive node : Type :=
  | FileNode (content : bytes)
  | DirNode (files : list (string * bytes)).

Record BackupConfig := {
  bc_schedule : string; bc_retentionDays : js_num; bc_encryptBackups : bool; bc_notifyOnFailure : bool }.

Record BackupRecord := {
  br_id : string; br_started_at : Z; br_completed_at : option Z; br_status : string; br_type : string;
  br_size_bytes : Z; br_tables_count : Z; br_file_path : string; br_error_message : option string;
  br_verified : bool; br_verified_at : option Z }.

Record BackupResult := {
  bres_id : string; bres_size : Z; bres_status : string; bres_verified : bool;
  bres_offsite : option string; bres_errors : list string }.

(** The backup directory, the history table, the offsite store, and the
    notifications sent (whom, what). *)
Record backup_state := {
  bs_disk : list (string * node); bs_history : list BackupRecord; bs_offsite : list (string * bytes);
  bs_notices : list (list string * string) }.

(** What the variables [BACKUP_RETENTION_DAYS] and [ENCRYPT_BACKUPS] configure. *)
Definition default_config (env : string → option string) : BackupConfig :=
  {| bc_schedule := "0 2 * * *";
     bc_retentionDays := parseInt_10 (default "30" (set_text (env "BACKUP_RETENTION_DAYS")));
     bc_encryptBackups := bool_decide (env "ENCRYPT_BACKUPS" = Some "true"); bc_notifyOnFailure := true |}.

Definition BACKUP_ENC_IV_LENGTH : nat := 12.
Definition BACKUP_ENC_AUTH_TAG_LENGTH : nat := 16.
Definition BACKUP_ENC_SUFFIX : string := ".enc".

(** [process.env.FILE_ENCRYPTION_KEY || process.env.FILE_ACCESS_SECRET] *)
Definition backup_raw_key (env : string → option string) : option string :=
  match set_text (env "FILE_ENCRYPTION_KEY") with Some k => Some k | None => set_text (env "FILE_ACCESS_SECRET") end.

Definition backup_tables : list string :=
  ["users"; "audit_programs"; "audit_plans"; "audit_tasks"; "audit_findings"; "recommendations"; "risk_register";
   "incoming_correspondence"; "outgoing_correspondence"; "notifications"].

(** What a run meets: its clock, the database, the directory of uploads, and which steps fail. *)
Record run_env := {
  ru_id : string; ru_started : Z; ru_completed : Z; ru_now : Z; ru_stamp : string;
  ru_vars : string → option string;
  ru_external : bool; ru_dump : outcome (string * bytes) bytes; ru_rows : string → outcome string bytes;
  ru_mkdir : option string; ru_uploads : option (string * list (string * bytes));
  ru_tar : option string; ru_encrypt : option string; ru_iv : bytes;
  ru_copy : outcome string unit; ru_locked : string → bool;
  ru_saved : bool; ru_updated : bool; ru_admins : list string; ru_notified : bool }.

Definition dump_name (id : string) : string := "backup_" +:+ id +:+ ".sql.gz".
Definition directory_name (id stamp : string) : string := "backup_" +:+ id +:+ "_" +:+ stamp.
Definition archive_name (id : string) : string := "backup_" +:+ id +:+ ".tar.gz".

Section backup.
Context {key : Type}.
Context (seal : key → bytes → bytes → bytes * bytes) (open_ : key → bytes → bytes → bytes → option bytes).
Context (deriveKey : string → key).
Context (tar : list (string * node) → bytes) (untar : bytes → option (list (string * node))).

Definition getBackupEncryptionKey (env : string → option string) : option key := deriveKey <$> backup_raw_key env.

(** The file format: IV, ciphertext, tag. *)
Definition encryptFileAtRest (k : key) (iv content : bytes) : bytes :=
  let sealed := seal k iv content in iv ++ sealed.1 ++ sealed.2.

(** ** One run *)

(** The variables of [executeBackup], with the disk and the offsite store. *)
Record run_state := {
  rs_disk : list (string * node); rs_offsite : list (string * bytes);
  rs_filePath : string; rs_size : Z; rs_tables : Z; rs_status : string; rs_errors : list string;
  rs_retained : option string; rs_location : option string }.

Abbreviation run_action := (action string run_state).

Definition set_disk (d : list (string * node)) (s : run_state) : run_state :=
  {| rs_disk := d; rs_offsite := s.(rs_offsite); rs_filePath := s.(rs_filePath); rs_size := s.(rs_size);
     rs_tables := s.(rs_tables); rs_status := s.(rs_status); rs_errors := s.(rs_errors);
     rs_retained := s.(rs_retained); rs_location := s.(rs_location) |}.
Definition set_file (path : string) (size : Z) (s : run_state) : run_state :=
  {| rs_disk := s.(rs_disk); rs_offsite := s.(rs_offsite); rs_filePath := path; rs_size := size;
     rs_tables := s.(rs_tables); rs_status := s.(rs_status); rs_errors := s.(rs_errors);
     rs_retained := s.(rs_retained); rs_location := s.(rs_location) |}.
Definition set_tables (n : Z) (s : run_state) : run_state :=
  {| rs_disk := s.(rs_disk); rs_offsite := s.(rs_offsite); rs_filePath := s.(rs_filePath); rs_size := s.(rs_size);
     rs_tables := n; rs_status := s.(rs_status); rs_errors := s.(rs_errors);
     rs_retained := s.(rs_retained); rs_location := s.(rs_location) |}.
Definition set_status (status : string) (errors : list string) (s : run_state) : run_state :=
  {| rs_disk := s.(rs_disk); rs_offsite := s.(rs_offsite); rs_filePath := s.(rs_filePath); rs_size := s.(rs_size);
     rs_tables := s.(rs_tables); rs_status := status; rs_errors := errors;
     rs_retained := s.(rs_retained); rs_location := s.(rs_location) |}.
Definition set_retained (path : string) (s : run_state) : run_state :=
  {| rs_disk := s.(rs_disk); rs_offsite := s.(rs_offsite); rs_filePath := s.(rs_filePath); rs_size := s.(rs_size);
     rs_tables := s.(rs_tables); rs_status := s.(rs_status); rs_errors := s.(rs_errors);
     rs_retained := Some path; rs_location := s.(rs_location) |}.
Definition set_offsite (l : list (string * bytes)) (location : option string) (s : run_state) : run_state :=
  {| rs_disk := s.(rs_disk); rs_offsite := l; rs_filePath := s.(rs_filePath); rs_size := s.(rs_size);
     rs_tables := s.(rs_tables); rs_status := s.(rs_status); rs_errors := s.(rs_errors);
     rs_retained := s.(rs_retained); rs_location := location |}.

Definition write_node (path : string) (n : node) : run_action unit :=
  modify (λ s, set_disk (map_set path n s.(rs_disk)) s).

Definition node_size (n : node) : Z := match n with FileNode b => Z.of_nat (length b) | DirNode _ => 0 end.
(** [fs.statSync(path).size] *)
Definition stat_size (path : string) : run_action Z :=
  s ← get_state;
  match map_get path s.(rs_disk) with Some n => mret (node_size n) | None => throw "ENOENT" end.

(** A failing step of the disk or of a child process. *)
Definition may_fail (e : option string) : run_action unit := match e with Some m => throw m | None => mret tt end.

(** Removal that must not fail the run: a locked entry stays. *)
Definition removeArtifact (r : run_env) (path : string) : run_action unit :=
  modify (λ s, if bool_decide (path = "") || r.(ru_locked) path then s else set_disk (map_delete path s.(rs_disk)) s).

(** The tables as JSON files.  A table that does not exist is passed over. *)
Definition table_file (r : run_env) (table : string) : list (string * bytes) * list string :=
  match r.(ru_rows) table with
  | Ok content => ([(table +:+ ".json", content)], [])
  | Throw e => ([], if includes e "does not exist" then [] else ["Failed to backup table " +:+ table +:+ ": " +:+ e])
  end.
Definition dumped_files (r : run_env) : list (string * bytes) := flat_map (λ t, (table_file r t).1) backup_tables.
Definition dump_errors (r : run_env) : list string := flat_map (λ t, (table_file r t).2) backup_tables.

Definition createBackupInternal (r : run_env) : run_action (string * Z * Z * list string) :=
  _ ← may_fail r.(ru_mkdir);
  let path := directory_name r.(ru_id) r.(ru_stamp) in
  let files := dumped_files r in
  _ ← write_node path (DirNode files);
  mret (path, Z.of_nat (list_sum (map (λ f, length f.2) files)), Z.of_nat (length files), dump_errors r).

(** The [pg_dump | gzip] pipe; when it fails what was written stays in the file. *)
Definition dump_database (r : run_env) : run_action unit :=
  let path := dump_name r.(ru_id) in
  _ ← modify (λ s, set_file path s.(rs_size) s);
  _ ← match r.(ru_vars) "DATABASE_URL" with
      | Some url => ensure (negb (bool_decide (url = ""))) "DATABASE_URL is not set for external PostgreSQL backup"
      | None => throw "DATABASE_URL is not set for external PostgreSQL backup"
      end;
  match r.(ru_dump) with
  | Throw (e, partial) => _ ← write_node path (FileNode partial); throw e
  | Ok content =>
      _ ← write_node path (FileNode content);
      size ← stat_size path;
      _ ← modify (set_file path size);
      _ ← ensure (negb (size =? 0)) "pg_dump produced an empty backup file";
      modify (set_tables (-1))
  end.

(** Where the offsite copy goes: the bucket before the directory; [None] without either. *)
Definition offsite_location (env : string → option string) (path : string) : option string :=
  match set_text (env "OFFSITE_S3_BUCKET") with
  | Some bucket => Some ("s3://" +:+ bucket +:+ "/" +:+ default "" (env "OFFSITE_S3_PREFIX") +:+ path)
  | None => (λ dir, dir +:+ "/" +:+ path) <$> set_text (env "OFFSITE_BACKUP_DIR")
  end.

Definition copyToOffsiteStore (r : run_env) (path : string) : run_action (option string) :=
  match offsite_location r.(ru_vars) path with
  | None => mret None
  | Some location =>
      s ← get_state;
      match r.(ru_copy), map_get path s.(rs_disk) with
      | Throw e, _ => throw e
      | Ok _, Some (FileNode b) =>
          _ ← modify (set_offsite (map_set location b s.(rs_offsite)) s.(rs_location)); mret (Some location)
      | Ok _, _ => throw "ENOENT"
      end
  end.

(** The dump with the uploads, compressed; then encrypted and everything
    readable removed, when a key is configured. *)
Definition storeBackup (r : run_env) (dumpPath : string) : run_action (string * Z * option string) :=
  let archivePath := archive_name r.(ru_id) in
  s ← get_state;
  dump ← match map_get dumpPath s.(rs_disk) with Some n => mret n | None => throw "tar exited with code 2" end;
  _ ← may_fail r.(ru_tar);
  let uploads := match r.(ru_uploads) with Some (name, files) => [(name, DirNode files)] | None => [] end in
  let content := tar ((dumpPath, dump) :: uploads) in
  _ ← write_node archivePath (FileNode content);
  retainedPath ←
    match getBackupEncryptionKey r.(ru_vars) with
    | None => _ ← removeArtifact r dumpPath; mret archivePath
    | Some k =>
        let encryptedPath := archivePath +:+ BACKUP_ENC_SUFFIX in
        _ ← may_fail r.(ru_encrypt);
        _ ← write_node encryptedPath (FileNode (encryptFileAtRest k r.(ru_iv) content));
        _ ← removeArtifact r dumpPath;
        _ ← removeArtifact r archivePath;
        mret encryptedPath
    end;
  size ← stat_size retainedPath;
  _ ← modify (set_retained retainedPath);
  offsiteLocation ← copyToOffsiteStore r retainedPath;
  mret (retainedPath, size, offsiteLocation).

(** The body of the [try] of [executeBackup]. *)
Definition run_body (r : run_env) : run_action unit :=
  _ ← may_fail r.(ru_mkdir);
  _ ← (if r.(ru_external) then dump_database r
       else
         result ← createBackupInternal r;
         let '(path, size, tables, errors) := result in
         _ ← modify (λ s, set_tables tables (set_file path size s));
         if bool_decide (errors = []) then mret tt
         else modify (λ s, set_status (if 0 <? tables then "partial" else "failed") (s.(rs_errors) ++ errors) s));
  s ← get_state;
  if negb (bool_decide (s.(rs_status) = "failed")) && negb (bool_decide (s.(rs_filePath) = "")) then
    stored ← storeBackup r s.(rs_filePath);
    let '(path, size, location) := stored in
    modify (λ s, set_offsite s.(rs_offsite) location (set_file path size s))
  else mret tt.

(** Its [catch]: a produced archive stays linked to the record. *)
Definition run_catch (e : string) (s : run_state) : run_state :=
  let s := set_status "failed" (s.(rs_errors) ++ [e]) s in
  match s.(rs_retained) with
  | Some path => set_file path (match map_get path s.(rs_disk) with Some n => node_size n | None => s.(rs_size) end) s
  | None => s
  end.

Definition start_state (s : backup_state) : run_state :=
  {| rs_disk := s.(bs_disk); rs_offsite := s.(bs_offsite); rs_filePath := ""; rs_size := 0; rs_tables := 0;
     rs_status := "success"; rs_errors := []; rs_retained := None; rs_location := None |}.

Definition run_steps (r : run_env) (s : backup_state) : run_state :=
  match run_body r (start_state s) with (Ok _, s') => s' | (Throw e, s') => run_catch e s' end.

(** ** The history and the retention *)

Definition running_record (type : string) (r : run_env) : BackupRecord :=
  {| br_id := r.(ru_id); br_started_at := r.(ru_started); br_completed_at := None; br_status := "running"; br_type := type;
     br_size_bytes := 0; br_tables_count := 0; br_file_path := ""; br_error_message := None; br_verified := false;
     br_verified_at := None |}.

Definition is_verified (s : run_state) : bool := negb (bool_decide (s.(rs_status) = "failed")) && (0 <? s.(rs_size)).

(** [updates.x || default] for every column. *)
Definition finished_record (r : run_env) (s : run_state) (b : BackupRecord) : BackupRecord :=
  {| br_id := b.(br_id); br_started_at := b.(br_started_at); br_completed_at := Some r.(ru_completed);
     br_status := s.(rs_status); br_type := b.(br_type); br_size_bytes := s.(rs_size); br_tables_count := s.(rs_tables);
     br_file_path := s.(rs_filePath);
     br_error_message := set_text (if bool_decide (s.(rs_errors) = []) then None else Some (join "; " s.(rs_errors)));
     br_verified := is_verified s; br_verified_at := if is_verified s then Some r.(ru_completed) else None |}.

Definition saveRecord (ok : bool) (b : BackupRecord) (l : list BackupRecord) : list BackupRecord :=
  if ok then l ++ [b] else l.
Definition updateRecord (ok : bool) (r : run_env) (s : run_state) (l : list BackupRecord) : list BackupRecord :=
  if ok then update_where (λ b, bool_decide (b.(br_id) = r.(ru_id))) (finished_record r s) l else l.

(** [d.setDate(d.getDate() - days)] moves the local time by whole days; [offset]
    is the time zone at a time and [local_offset] at a local time. *)
Context (offset local_offset : Z → Z).
Definition cutoff (now : Z) (days : js_num) : option Z :=
  match days with
  | Finite _ => let t := now + offset now - integer_value days * 86400000 in Some (t - local_offset t)
  | _ => None
  end.

Definition expired (c : Z) (b : BackupRecord) : bool :=
  (b.(br_started_at) <? c) && negb (bool_decide (b.(br_status) = "running")).

(** The files of the expired records, then the records; a file that cannot be removed is only logged. *)
Definition delete_file (locked : string → bool) (path : string) (d : list (string * node)) : list (string * node) :=
  if bool_decide (path = "") || locked path then d else map_delete path d.
Definition applyRetentionPolicy (c : BackupConfig) (r : run_env) (disk : list (string * node)) (l : list BackupRecord) :
    list (string * node) * list BackupRecord :=
  match cutoff r.(ru_now) c.(bc_retentionDays) with
  | None => (disk, l)
  | Some t =>
      let old := select (expired t) l in
      (foldl (λ d b, delete_file r.(ru_locked) b.(br_file_path) d) disk old,
       delete_where (λ b, bool_decide (b.(br_id) ∈ map br_id old)) l)
  end.

Definition failure_message (id : string) (errors : list string) : string :=
  "Backup " +:+ id +:+ " failed: " +:+ join "; " errors.

(** [executeBackup] *)
Definition executeBackup (c : BackupConfig) (type : string) (r : run_env) (s : backup_state) : BackupResult * backup_state :=
  let history := saveRecord r.(ru_saved) (running_record type r) s.(bs_history) in
  let v := run_steps r s in
  let history := updateRecord r.(ru_updated) r v history in
  let '(disk, history) := applyRetentionPolicy c r v.(rs_disk) history in
  let failed := bool_decide (v.(rs_status) = "failed") in
  let notices := if failed && c.(bc_notifyOnFailure) && negb (bool_decide (r.(ru_admins) = [])) && r.(ru_notified)
                 then [(r.(ru_admins), failure_message r.(ru_id) v.(rs_errors))] else [] in
  ({| bres_id := r.(ru_id); bres_size := v.(rs_size); bres_status := v.(rs_status); bres_verified := is_verified v;
      bres_offsite := v.(rs_location); bres_errors := v.(rs_errors) |},
   {| bs_disk := disk; bs_history := history; bs_offsite := v.(rs_offsite); bs_notices := s.(bs_notices) ++ notices |}).

(** ** The restore drill *)

Definition decryptBackupArchive (k : key) (content : bytes) : outcome string bytes :=
  let size := length content in
  if (size <? BACKUP_ENC_IV_LENGTH + BACKUP_ENC_AUTH_TAG_LENGTH)%nat then Throw "Encrypted archive too small to be valid"
  else
    let iv := take BACKUP_ENC_IV_LENGTH content in
    let authTag := drop (size - BACKUP_ENC_AUTH_TAG_LENGTH) content in
    let cipher := drop BACKUP_ENC_IV_LENGTH (take (size - BACKUP_ENC_AUTH_TAG_LENGTH) content) in
    match open_ k iv authTag cipher with Some b => Ok b | None => Throw "Unsupported state or unable to authenticate data" end.

(** What the archive at [path] holds, as the drill unpacks it. *)
Definition restore_archive (env : string → option string) (path : string) (content : bytes) :
    outcome string (list (string * node)) :=
  match (match getBackupEncryptionKey env with
         | Some k => if ends_with path ".enc" then decryptBackupArchive k content else Ok content
         | None => Ok content
         end) with
  | Throw e => Throw e
  | Ok archive => match untar archive with Some l => Ok l | None => Throw "tar exited with code 2" end
  end.

(** The database the drill loads: the rows of the tables it has. *)
Abbreviation drill_db := (list (string * Z)).

Definition CRITICAL_TABLES : list string := backup_tables.

(** The first file of the name in the directory itself or in one below it. *)
Definition find_json (extracted : list (string * node)) (table : string) : option bytes :=
  let name := table +:+ ".json" in
  match map_get name extracted with
  | Some (FileNode b) => Some b
  | _ => head (omap (λ e, match e.2 with DirNode files => map_get name files | FileNode _ => None end) extracted)
  end.

(** One table: [accepts] is whether the server takes the rows. *)
Definition load_table (accepts : string → list json → bool) (extracted : list (string * node)) (table : string) :
    action string drill_db unit :=
  match find_json extracted table with
  | None => mret tt
  | Some raw =>
      match JSON_parse (of_chars raw) with
      | None => throw "JSON.parse"
      | Some (JArr []) => mret tt
      | Some (JArr rows) =>
          d ← get_state;
          match map_get table d with
          | Some n => _ ← ensure (accepts table rows) "INSERT"; modify (map_set table (n + Z.of_nat (length rows)))
          | None => throw "does not exist"
          end
      | Some _ => mret tt
      end
  end.
Definition loadJsonBackupIntoTarget (accepts : string → list json → bool) (extracted : list (string * node)) :
    action string drill_db unit := for_each (load_table accepts extracted) CRITICAL_TABLES.

(** A table that does not exist counts as empty. *)
Definition countTableRows (d : drill_db) (table : string) : Z := default 0 (map_get table d).

(** [{ expected, actual }] of each table; a count that is not given is zero. *)
Definition buildTableRowCounts (tables : list string) (expected actual : list (string * Z)) : list (string * (Z * Z)) :=
  map (λ t, (t, (default 0 (map_get t expected), default 0 (map_get t actual)))) tables.
Definition allRowCountsMatch (counts : list (string * (Z * Z))) : bool := forallb (λ c, c.2.1 =? c.2.2) counts.

Record RestoreDrillLog := {
  rl_tableRowCounts : list (string * (Z * Z)); rl_result : string; rl_verifiedRestorable : bool }.

Definition buildRestoreDrillLog (counts : list (string * (Z * Z))) (restoreSucceeded : bool) : RestoreDrillLog :=
  let verified := restoreSucceeded && allRowCountsMatch counts in
  {| rl_tableRowCounts := counts; rl_result := if verified then "verified" else "failed";
     rl_verifiedRestorable := verified |}.

(** The drill on the archive [content] found at [path]; [target] is the database before it. *)
Definition runRestoreDrill (env : string → option string) (accepts : string → list json → bool) (path : string)
    (content : bytes) (expected : list (string * Z)) (target : drill_db) : RestoreDrillLog :=
  match restore_archive env path content with
  | Throw _ => buildRestoreDrillLog (buildTableRowCounts CRITICAL_TABLES expected []) false
  | Ok extracted =>
      match loadJsonBackupIntoTarget accepts extracted target with
      | (Throw _, _) => buildRestoreDrillLog (buildTableRowCounts CRITICAL_TABLES expected []) false
      | (Ok _, d) =>
          let actual := map (λ t, (t, countTableRows d t)) CRITICAL_TABLES in
          buildRestoreDrillLog (buildTableRowCounts CRITICAL_TABLES expected actual) true
      end
  end.

End backup.

(** ** The scheduler and the history *)

Record scheduler := { sc_config : BackupConfig; sc_task : option string; sc_running : bool }.

(** [start]: a running task is stopped first; an invalid schedule starts nothing. *)
Definition start_scheduler (cron_valid : string → bool) (config : option BackupConfig) (s : scheduler) : scheduler :=
  let c := default s.(sc_config) config in
  let stopped := match s.(sc_task) with Some _ => false | None => s.(sc_running) end in
  if cron_valid c.(bc_schedule) then {| sc_config := c; sc_task := Some c.(bc_schedule); sc_running := true |}
  else {| sc_config := c; sc_task := None; sc_running := stopped |}.
Definition stop_scheduler (s : scheduler) : scheduler :=
  {| sc_config := s.(sc_config); sc_task := None; sc_running := false |}.

(** [GET /admin/backup/history]: [Math.min(Math.max(parseInt(limit) || 20, 1), 100)] *)
Definition history_limit (limit : option string) : Z :=
  Z.min (Z.max (integer_value (js_or (match limit with Some s => parseInt s | None => NaN end) 20)) 1) 100.
Definition getHistory (limit : Z) (l : list BackupRecord) : list BackupRecord :=
  take (Z.to_nat limit) (order_by br_started_at (λ a b, b <? a) l).

(** ** The backups by hand of the embedded database *)

(** [entries.filter(startsWith('backup_')).sort().reverse()] *)
Definition backup_entries (d : list (string * node)) : list string :=
  order_by (λ x, x) (λ a b, String.ltb b a) (List.filter (λ e, starts_with e "backup_") (keys d)).

(** The loop starts at [MAX_BACKUPS]: with [NaN] it does nothing, below zero its first step fails. *)
Definition cleanupOldBackups (max : js_num) (d : list (string * node)) : list (string * node) :=
  match max with
  | Finite _ =>
      let n := integer_value max in
      if n <? 0 then d else foldl (λ d name, map_delete name d) d (drop (Z.to_nat n) (backup_entries d))
  | _ => d
  end.

(** [createBackup]: the name of the directory, whether or not it is still there. *)
Definition createBackup (isExternal : bool) (rows : string → outcome string bytes) (stamp : string) (max : js_num)
    (d : list (string * node)) : option string * list (string * node) :=
  if isExternal then (None, d)
  else
    let path := "backup_" +:+ stamp in
    let files := flat_map (λ t, match rows t with Ok content => [(t +:+ ".json", content)] | Throw _ => [] end) backup_tables in
    (Some path, cleanupOldBackups max (map_set path (DirNode files) d)).

(** ** What a backup leaves *)

(** Two names that start with [backup_] and the id. *)
Ltac name_clash :=
  let H := fresh in intros H; apply (app_inj_l_str "backup_") in H; apply app_inj_l_str in H; discriminate H.

Lemma dump_not_archive id : dump_name id ≠ archive_name id.
Proof. unfold dump_name, archive_name. name_clash. Qed.
Lemma directory_not_archive id stamp : directory_name id stamp ≠ archive_name id.
Proof. unfold directory_name, archive_name. name_clash. Qed.
Lemma archive_not_enc id : archive_name id ≠ archive_name id +:+ BACKUP_ENC_SUFFIX.
Proof. unfold archive_name. rewrite !app_assoc_str. name_clash. Qed.
Lemma dump_not_enc id : dump_name id ≠ archive_name id +:+ BACKUP_ENC_SUFFIX.
Proof. unfold dump_name, archive_name. rewrite !app_assoc_str. name_clash. Qed.
Lemma directory_not_enc id stamp : directory_name id stamp ≠ archive_name id +:+ BACKUP_ENC_SUFFIX.
Proof. unfold directory_name, archive_name. rewrite !app_assoc_str. name_clash. Qed.

Lemma ends_with_app a b : ends_with (a +:+ b) b = true.
Proof.
  unfold ends_with, slice_last. apply bool_decide_eq_true. rewrite <- !length_chars, chars_app, length_app.
  replace (length (chars a) + length (chars b) - length (chars b))%nat with (length (chars a)) by lia.
  rewrite drop_app_length. apply of_chars_chars.
Qed.

(** ** Retention *)

Lemma delete_files_other locked p l : ∀ d, (∀ b, b ∈ l → b.(br_file_path) ≠ p) →
  map_get p (foldl (λ d b, delete_file locked b.(br_file_path) d) d l) = map_get p d.
Proof.
  induction l as [|b l IH]; intros d H; [done|]. cbn [foldl]. rewrite IH by set_solver.
  unfold delete_file. destruct (_ || _); [done|]. apply map_get_delete_ne. intros ->. by apply (H b); [left|].
Qed.

Lemma delete_files_none locked p l : ∀ d, map_get p d = None →
  map_get p (foldl (λ d b, delete_file locked b.(br_file_path) d) d l) = None.
Proof.
  induction l as [|b l IH]; intros d H; [done|]. cbn [foldl]. apply IH. unfold delete_file.
  destruct (_ || _); [done|]. destruct (decide (p = br_file_path b)) as [->|Hne]; [apply map_get_delete_eq|].
  by rewrite map_get_delete_ne.
Qed.

Section retention.
Context (offset local_offset : Z → Z).

(** the retention removes exactly the finished records that started before the
    cutoff, with their files; running ones, newer ones and the files of the records it
    keeps stay, and without a number of days it removes nothing. *)
Theorem retention_spec c r disk l (Hpaths : NoDup (map br_id l)) :
  let kept := applyRetentionPolicy offset local_offset c r disk l in
  match cutoff offset local_offset r.(ru_now) c.(bc_retentionDays) with
  | None => kept = (disk, l)
  | Some t =>
      (forall b, b ∈ kept.2 <-> b ∈ l /\ (t <= b.(br_started_at) \/ b.(br_status) = "running")) /\
      (forall b, b ∈ l -> b ∉ kept.2 -> b.(br_file_path) <> "" -> r.(ru_locked) b.(br_file_path) = false ->
         map_get b.(br_file_path) kept.1 = None) /\
      (forall p, (forall b, b ∈ l -> b ∉ kept.2 -> b.(br_file_path) <> p) -> map_get p kept.1 = map_get p disk)
  end.
Proof.
  cbn zeta. unfold applyRetentionPolicy. destruct (cutoff _ _ _ _) as [t|]; [|done]. cbn [fst snd].
  assert (Hkept : ∀ b, b ∈ delete_where (λ b, bool_decide (b.(br_id) ∈ map br_id (select (expired t) l))) l ↔
    b ∈ l ∧ expired t b = false).
  { intros b. rewrite elem_of_delete_where, bool_decide_eq_false. split; intros [Hb Hx]; (split; [done|]).
    - destruct (expired t b) eqn:He; [|done]. destruct Hx. apply list_elem_of_fmap_2. by apply elem_of_select.
    - intros (x & Hid & [Hx' Hxe]%elem_of_select)%list_elem_of_fmap.
      assert (b = x) as -> by by apply (map_unique _ _ _ _ Hpaths). congruence. }
  assert (Hgone : ∀ b, b ∈ l → b ∉ delete_where (λ b, bool_decide (b.(br_id) ∈ map br_id (select (expired t) l))) l →
    b ∈ select (expired t) l).
  { intros b Hb Hn. apply elem_of_select. split; [done|]. destruct (expired t b) eqn:He; [done|]. destruct Hn. by apply Hkept. }
  split_and!.
  - intros b. rewrite Hkept. unfold expired. rewrite andb_false_iff, Z.ltb_ge, negb_false_iff, bool_decide_eq_true. done.
  - intros b Hb Hn Hp Hl. apply (Hgone b Hb) in Hn. clear - Hn Hp Hl. revert disk.
    induction (select (expired t) l) as [|x old IH]; [by apply not_elem_of_nil in Hn|]. intros disk. cbn [foldl].
    apply elem_of_cons in Hn as [->|Hn]; [|by apply IH]. apply delete_files_none. unfold delete_file.
    rewrite bool_decide_eq_false_2, Hl by done. apply map_get_delete_eq.
  - intros p Hp. apply delete_files_other. intros b Hb. apply Hp; [by apply elem_of_select in Hb as [? _]|].
    rewrite Hkept. apply elem_of_select in Hb as [_ He]. rewrite He. by intros [_ [=]].
Qed.

End retention.

(** ** One run *)

Section stored.
Context {key : Type}.
Context (seal : key → bytes → bytes → bytes * bytes) (open_ : key → bytes → bytes → bytes → option bytes).
Context (deriveKey : string → key).
Context (tar : list (string * node) → bytes) (untar : bytes → option (list (string * node))).
Context (Htag : ∀ k iv p, length (seal k iv p).2 = BACKUP_ENC_AUTH_TAG_LENGTH).
Context (Hopen : ∀ k iv p, open_ k iv (seal k iv p).2 (seal k iv p).1 = Some p).
Context (Huntar : ∀ l, untar (tar l) = Some l).
Context (offset local_offset : Z → Z).

Lemma decrypt_encrypted k iv b : length iv = BACKUP_ENC_IV_LENGTH →
  decryptBackupArchive open_ k (encryptFileAtRest seal k iv b) = Ok b.
Proof.
  intros Hiv. unfold decryptBackupArchive, encryptFileAtRest. set (c := (seal k iv b).1). set (t := (seal k iv b).2).
  assert (Ht : length t = BACKUP_ENC_AUTH_TAG_LENGTH) by apply Htag.
  rewrite !length_app, Hiv, Ht. unfold BACKUP_ENC_IV_LENGTH, BACKUP_ENC_AUTH_TAG_LENGTH in *.
  rewrite (proj2 (Nat.ltb_ge _ _)) by lia.
  rewrite (take_app_le iv) by lia. rewrite (take_ge iv) by lia.
  replace (12 + (length c + 16) - 16)%nat with (length (iv ++ c)) by (rewrite length_app; lia).
  rewrite (app_assoc iv c t), take_app_length, drop_app_length.
  rewrite (drop_app_length' iv c) by lia. unfold c, t. by rewrite Hopen.
Qed.

(** What [storeBackup] returns and leaves when it succeeds. *)
Definition uploads_of (r : run_env) : list (string * node) :=
  match r.(ru_uploads) with Some (name, files) => [(name, DirNode files)] | None => [] end.
Definition retained_name (r : run_env) : string :=
  match getBackupEncryptionKey deriveKey r.(ru_vars) with
  | Some _ => archive_name r.(ru_id) +:+ BACKUP_ENC_SUFFIX | None => archive_name r.(ru_id) end.
Definition retained_content (r : run_env) (dumpPath : string) (dump : node) : bytes :=
  let content := tar ((dumpPath, dump) :: uploads_of r) in
  match getBackupEncryptionKey deriveKey r.(ru_vars) with
  | Some k => encryptFileAtRest seal k r.(ru_iv) content | None => content end.

(** The name of a dump: the two kinds. *)
Definition dump_path (r : run_env) (p : string) : Prop :=
  p = dump_name r.(ru_id) ∨ p = directory_name r.(ru_id) r.(ru_stamp).

Lemma dump_path_retained r p : dump_path r p → p ≠ retained_name r ∧ p ≠ archive_name r.(ru_id).
Proof.
  unfold retained_name. intros [->| ->]; (destruct (getBackupEncryptionKey _ _); split);
    auto using dump_not_archive, dump_not_enc, directory_not_archive, directory_not_enc.
Qed.

Lemma copyToOffsiteStore_disk r p s x s' : copyToOffsiteStore r p s = (Ok x, s') →
  s'.(rs_disk) = s.(rs_disk) ∧ s'.(rs_status) = s.(rs_status) ∧ s'.(rs_errors) = s.(rs_errors) ∧ s'.(rs_tables) = s.(rs_tables).
Proof.
  unfold copyToOffsiteStore. destruct (offsite_location _ _); [|by intros [= <- <-]].
  unfold get_state, mbind, action_bind. destruct (ru_copy r) as [[]|]; [|done].
  destruct (map_get p (rs_disk s)) as [[b|]|]; [|done..]. by intros [= <- <-].
Qed.

Lemma removeArtifact_run r p s : ∃ d, removeArtifact r p s = (Ok tt, set_disk d s) ∧
  (∀ q, q ≠ p → map_get q d = map_get q s.(rs_disk)) ∧
  (p ≠ "" → r.(ru_locked) p = false → map_get p d = None).
Proof.
  unfold removeArtifact, modify. destruct (bool_decide (p = "") || ru_locked r p) eqn:Hkeep.
  - exists s.(rs_disk). split_and!; [by destruct s|done|]. intros Hp Hl. apply orb_true_iff in Hkeep as [Hk|Hk]; bools; congruence.
  - exists (map_delete p s.(rs_disk)). split_and!; [done|intros q Hq; by apply map_get_delete_ne|].
    intros _ _. apply map_get_delete_eq.
Qed.

Lemma dump_path_nonempty r p : dump_path r p → p ≠ "".
Proof. by intros [->| ->]. Qed.

Lemma storeBackup_run r dumpPath s path size location s' : dump_path r dumpPath →
  storeBackup seal deriveKey tar r dumpPath s = (Ok (path, size, location), s') →
  ∃ dump, map_get dumpPath s.(rs_disk) = Some dump ∧ path = retained_name r ∧
    map_get path s'.(rs_disk) = Some (FileNode (retained_content r dumpPath dump)) ∧
    size = Z.of_nat (length (retained_content r dumpPath dump)) ∧
    s'.(rs_status) = s.(rs_status) ∧ s'.(rs_errors) = s.(rs_errors) ∧ s'.(rs_tables) = s.(rs_tables) ∧
    ((∃ k, getBackupEncryptionKey deriveKey r.(ru_vars) = Some k) →
       (r.(ru_locked) dumpPath = false → map_get dumpPath s'.(rs_disk) = None) ∧
       (r.(ru_locked) (archive_name r.(ru_id)) = false → map_get (archive_name r.(ru_id)) s'.(rs_disk) = None)).
Proof.
  intros Hdump. pose proof (dump_path_retained r dumpPath Hdump) as [Hne1 Hne2].
  intros H. unfold storeBackup in H. apply bind_Ok in H as (s0 & s1 & [= <- <-] & H).
  apply bind_Ok in H as (dump & s1 & Hd & H). destruct (map_get dumpPath (rs_disk s)) as [dump'|]; [|done].
  injection Hd as -> <-. apply bind_Ok in H as ([] & s1 & Ht & H). destruct (ru_tar r); [done|]. injection Ht as <-.
  apply bind_Ok in H as ([] & s1 & Hw & H). injection Hw as <-.
  apply bind_Ok in H as (kept & s2 & Hkept & H). apply bind_Ok in H as (n & s3 & Hn & H).
  apply bind_Ok in H as ([] & s4 & Hret & H). injection Hret as <-. apply bind_Ok in H as (loc & s5 & Hcopy & H).
  injection H as -> <- -> <-. apply copyToOffsiteStore_disk in Hcopy as (-> & -> & -> & ->). cbn [rs_disk rs_status rs_errors rs_tables set_retained].
  unfold stat_size, get_state, mbind, action_bind in Hn.
  destruct (map_get path (rs_disk s2)) as [node|] eqn:Hnode; [|done]. injection Hn as <- <-.
  exists dump. unfold retained_name, retained_content, uploads_of in *. fold (uploads_of r) in *. set (content := tar _) in *.
  destruct (getBackupEncryptionKey deriveKey (ru_vars r)) as [k|].
  - apply bind_Ok in Hkept as ([] & s6 & He & Hkept). destruct (ru_encrypt r); [done|]. injection He as <-.
    apply bind_Ok in Hkept as ([] & s6 & Hw & Hkept). injection Hw as <-.
    apply bind_Ok in Hkept as ([] & s7 & Hr1 & Hkept). apply bind_Ok in Hkept as ([] & s8 & Hr2 & Hkept).
    injection Hkept as <- <-.
    destruct (removeArtifact_run r dumpPath (set_disk (map_set (archive_name (ru_id r) +:+ BACKUP_ENC_SUFFIX)
      (FileNode (encryptFileAtRest seal k (ru_iv r) content)) (map_set (archive_name (ru_id r)) (FileNode content) (rs_disk s))) s))
      as (d1 & Hd1 & Hkeep1 & Hgone1).
    change (set_disk _ (set_disk _ s)) with (set_disk (map_set (archive_name (ru_id r) +:+ BACKUP_ENC_SUFFIX)
      (FileNode (encryptFileAtRest seal k (ru_iv r) content)) (map_set (archive_name (ru_id r)) (FileNode content) (rs_disk s))) s) in Hr1.
    rewrite Hd1 in Hr1. injection Hr1 as <-.
    destruct (removeArtifact_run r (archive_name (ru_id r)) (set_disk d1 s)) as (d2 & Hd2 & Hkeep2 & Hgone2).
    change (set_disk d1 (set_disk _ s)) with (set_disk d1 s) in Hr2. rewrite Hd2 in Hr2. injection Hr2 as <-.
    cbn [rs_disk set_disk rs_status rs_errors rs_tables] in *.
    rewrite Hkeep2, Hkeep1, map_get_set_eq in Hnode by auto using archive_not_enc, dump_not_enc.
    injection Hnode as <-.
    split_and!; [done|done| |done..|].
    + rewrite Hkeep2, Hkeep1, map_get_set_eq by auto using archive_not_enc, dump_not_enc. done.
    + intros _. split; [|intros Hl; by apply Hgone2].
      intros Hl. rewrite Hkeep2 by done. apply Hgone1; [by eapply dump_path_nonempty|done].
  - apply bind_Ok in Hkept as ([] & s6 & Hr1 & Hkept). injection Hkept as <- <-.
    destruct (removeArtifact_run r dumpPath (set_disk (map_set (archive_name (ru_id r)) (FileNode content) (rs_disk s)) s))
      as (d1 & Hd1 & Hkeep1 & Hgone1). rewrite Hd1 in Hr1. injection Hr1 as <-.
    cbn [rs_disk set_disk rs_status rs_errors rs_tables] in *.
    rewrite Hkeep1, map_get_set_eq in Hnode by done. injection Hnode as <-.
    split_and!; [done|done| |done..|by intros [k [=]]]. by rewrite Hkeep1, map_get_set_eq by done.
Qed.

(** What a run dumped, and under which name. *)
Definition database_dump (r : run_env) (p : string) (dump : node) : Prop :=
  if r.(ru_external) then p = dump_name r.(ru_id) ∧ ∃ content, r.(ru_dump) = Ok content ∧ dump = FileNode content ∧ content ≠ []
  else p = directory_name r.(ru_id) r.(ru_stamp) ∧ dump = DirNode (dumped_files r).

Lemma dump_database_run r s s' : dump_database r s = (Ok tt, s') →
  ∃ content, r.(ru_dump) = Ok content ∧ content ≠ [] ∧ s'.(rs_filePath) = dump_name r.(ru_id) ∧
    map_get (dump_name r.(ru_id)) s'.(rs_disk) = Some (FileNode content) ∧ s'.(rs_status) = s.(rs_status) ∧
    s'.(rs_errors) = s.(rs_errors) ∧ s'.(rs_tables) = -1.
Proof.
  unfold dump_database. intros H. apply bind_Ok in H as ([] & s1 & [= <-] & H).
  apply bind_Ok in H as ([] & s1 & Hurl & H).
  assert (s1 = set_file (dump_name (ru_id r)) (rs_size s) s) as ->.
  { destruct (ru_vars r "DATABASE_URL"); [|done]. unfold ensure in Hurl. destruct (negb _); [by injection Hurl|done]. }
  destruct (ru_dump r) as [content|[e partial]]; [|by inv_ok].
  apply bind_Ok in H as ([] & s2 & [= <-] & H). apply bind_Ok in H as (size & s3 & Hsize & H).
  unfold stat_size, get_state, mbind, action_bind in Hsize. cbn [rs_disk set_disk] in Hsize.
  rewrite map_get_set_eq in Hsize. injection Hsize as <- <-.
  apply bind_Ok in H as ([] & s4 & [= <-] & H). apply bind_Ok in H as ([] & s5 & He & H).
  unfold ensure in He. destruct (negb _) eqn:Hnz; [|done]. injection He as <-. injection H as <-.
  exists content. split_and!; try done; [by intros ->|]. cbn [rs_disk set_disk set_tables set_file]. apply map_get_set_eq.
Qed.

Lemma run_body_run r s v : run_body seal deriveKey tar r (start_state s) = (Ok tt, v) → v.(rs_status) ≠ "failed" →
  ∃ p dump, dump_path r p ∧ database_dump r p dump ∧ v.(rs_filePath) = retained_name r ∧
    map_get (retained_name r) v.(rs_disk) = Some (FileNode (retained_content r p dump)) ∧
    v.(rs_size) = Z.of_nat (length (retained_content r p dump)) ∧
    v.(rs_errors) = (if r.(ru_external) then [] else dump_errors r) ∧
    ((∃ k, getBackupEncryptionKey deriveKey r.(ru_vars) = Some k) →
       (r.(ru_locked) p = false → map_get p v.(rs_disk) = None) ∧
       (r.(ru_locked) (archive_name r.(ru_id)) = false → map_get (archive_name r.(ru_id)) v.(rs_disk) = None)).
Proof.
  unfold run_body. intros H Hst. apply bind_Ok in H as ([] & s0 & Hm & H). destruct (ru_mkdir r) eqn:Hmkdir; [done|]. injection Hm as <-.
  apply bind_Ok in H as ([] & s1 & Hdump & H). apply bind_Ok in H as (s2 & s3 & [= <- <-] & H).
  assert (Hd : ∃ p dump, dump_path r p ∧ database_dump r p dump ∧ s1.(rs_filePath) = p ∧ map_get p s1.(rs_disk) = Some dump ∧
    s1.(rs_errors) = (if r.(ru_external) then [] else dump_errors r)).
  { unfold database_dump. destruct (ru_external r).
    - apply dump_database_run in Hdump as (content & Hc & Hne & Hp & Hd & Hs & He & _).
      exists (dump_name (ru_id r)), (FileNode content). split_and!; try done; [by left|by exists content].
    - exists (directory_name (ru_id r) (ru_stamp r)), (DirNode (dumped_files r)). unfold createBackupInternal in Hdump.
      rewrite Hmkdir in Hdump. unfold may_fail, write_node, modify, mbind, action_bind, mret, action_ret in Hdump.
      destruct (bool_decide (dump_errors r = [])) eqn:He in Hdump; injection Hdump as <-.
      + bools. split_and!; try done; [by right|apply map_get_set_eq].
      + split_and!; try done; [by right|apply map_get_set_eq]. }
  destruct Hd as (p & dump & Hp & Hdb & Hpath & Hget & Herrors).
  destruct (negb (bool_decide (rs_status s1 = "failed")) && _) eqn:Hstore.
  2:{ injection H as <-. apply andb_false_iff in Hstore as [Hs|Hs]; bools; [done|].
      rewrite Hpath in Hs. by apply dump_path_nonempty in Hp. }
  apply bind_Ok in H as ([[path size] location] & s2 & Hrun & H). injection H as <-. rewrite Hpath in Hrun.
  apply storeBackup_run in Hrun as (dump' & Hget' & -> & Hnew & -> & _ & He & _ & Hgone); [|done].
  rewrite Hget in Hget'. injection Hget' as <-. exists p, dump. cbn. rewrite He. by split_and!.
Qed.

Lemma backup_steps_ok r s : (run_steps seal deriveKey tar r s).(rs_status) ≠ "failed" →
  run_body seal deriveKey tar r (start_state s) = (Ok tt, run_steps seal deriveKey tar r s).
Proof.
  unfold run_steps. destruct (run_body _ _ _ _ _) as [[[]|e] v]; [done|]. unfold run_catch. cbn.
  by destruct (rs_retained v).
Qed.

(** The history as the run finds it when it ends. *)
Definition history_after (type : string) (r : run_env) (s : backup_state) : list BackupRecord :=
  updateRecord r.(ru_updated) r (run_steps seal deriveKey tar r s) (saveRecord r.(ru_saved) (running_record type r) s.(bs_history)).

Lemma executeBackup_run c type r s :
  let v := run_steps seal deriveKey tar r s in
  let kept := applyRetentionPolicy offset local_offset c r v.(rs_disk) (history_after type r s) in
  let out := executeBackup seal deriveKey tar offset local_offset c type r s in
  out.1.(bres_status) = v.(rs_status) ∧ out.1.(bres_verified) = is_verified v ∧ out.1.(bres_errors) = v.(rs_errors) ∧
  out.2.(bs_disk) = kept.1 ∧ out.2.(bs_history) = kept.2.
Proof. cbn zeta. unfold executeBackup. fold (history_after type r s). by destruct (applyRetentionPolicy _ _ _ _ _ _). Qed.

(** The runs the statements about a new backup speak of: a new id, whose file no
    record names, and a cutoff that lies before the start. *)
Record new_run (c : BackupConfig) (r : run_env) (s : backup_state) : Prop := {
  nr_id : r.(ru_id) ∉ map br_id s.(bs_history);
  nr_path : ∀ b, b ∈ s.(bs_history) → b.(br_file_path) ≠ retained_name r;
  nr_cutoff : ∀ t, cutoff offset local_offset r.(ru_now) c.(bc_retentionDays) = Some t → t <= r.(ru_started);
  nr_iv : length r.(ru_iv) = BACKUP_ENC_IV_LENGTH }.

(** What a retention of at least a day means for a run of at most a day, on a server whose
    clock is at one distance from UTC. *)
Lemma retention_reaches_back o now started days :
  (∀ t, offset t = o) → (∀ t, local_offset t = o) → 1 <= integer_value days →
  now - started <= 86400000 → ∀ t, cutoff offset local_offset now days = Some t → t <= started.
Proof.
  intros Ho Hl Hd Hn t. unfold cutoff. revert Hd. generalize (integer_value days). intros v Hd.
  destruct days; [|done..]. intros [= <-]. rewrite Ho, Hl. lia.
Qed.

Lemma elem_of_history_after type r s b : b ∈ history_after type r s →
  b ∈ s.(bs_history) ∨ b.(br_started_at) = r.(ru_started) ∧ b.(br_id) = r.(ru_id) ∨
  (∃ b0, b0 ∈ s.(bs_history) ∧ b0.(br_id) = r.(ru_id)).
Proof.
  unfold history_after, updateRecord, saveRecord. set (v := run_steps _ _ _ _ _).
  assert (Hsave : ∀ b, b ∈ (if ru_saved r then s.(bs_history) ++ [running_record type r] else s.(bs_history)) →
    b ∈ s.(bs_history) ∨ b = running_record type r).
  { intros b0. destruct (ru_saved r); [|by left]. rewrite elem_of_app, list_elem_of_singleton. tauto. }
  destruct (ru_updated r).
  - intros (b0 & Hb0 & ->)%elem_of_update_where. destruct (Hsave b0 Hb0) as [H| ->].
    + case_bool_decide; [right; right; by exists b0|by left].
    + right. left. by destruct (bool_decide _).
  - intros [H| ->]%Hsave; [by left|by right; left].
Qed.

Lemma expired_is_old c type r s t b : new_run c r s →
  cutoff offset local_offset r.(ru_now) c.(bc_retentionDays) = Some t →
  b ∈ select (expired t) (history_after type r s) → b ∈ s.(bs_history) ∧ b.(br_id) ≠ r.(ru_id).
Proof.
  intros [Hid _ Hcut _] Ht [Hb Hex]%elem_of_select. specialize (Hcut t Ht).
  destruct (elem_of_history_after type r s b Hb) as [H|[[Hs _]|(b0 & Hb0 & Hb0id)]].
  - split; [done|]. intros Heq. apply Hid. rewrite <- Heq. by apply list_elem_of_fmap_2.
  - unfold expired in Hex. bools. lia.
  - destruct Hid. rewrite <- Hb0id. by apply list_elem_of_fmap_2.
Qed.

Lemma retention_keeps_file c type r s d : new_run c r s →
  map_get (retained_name r) (applyRetentionPolicy offset local_offset c r d (history_after type r s)).1 = map_get (retained_name r) d.
Proof.
  intros Hnew. unfold applyRetentionPolicy. destruct (cutoff _ _ _ _) as [t|] eqn:Ht; [|done]. cbn [fst].
  apply delete_files_other. intros b Hb. apply (expired_is_old c type r s t b Hnew Ht) in Hb as [Hb _].
  by apply (nr_path _ _ _ Hnew).
Qed.

Lemma retention_keeps_none c r d l p :
  map_get p d = None → map_get p (applyRetentionPolicy offset local_offset c r d l).1 = None.
Proof. intros H. unfold applyRetentionPolicy. destruct (cutoff _ _ _ _); [|done]. by apply delete_files_none. Qed.

Lemma retention_keeps_record c type r s b : new_run c r s → b ∈ history_after type r s → b.(br_id) = r.(ru_id) →
  b ∈ (applyRetentionPolicy offset local_offset c r (run_steps seal deriveKey tar r s).(rs_disk) (history_after type r s)).2.
Proof.
  intros Hnew Hb Hid. unfold applyRetentionPolicy. destruct (cutoff _ _ _ _) as [t|] eqn:Ht; [|done]. cbn [snd].
  apply elem_of_delete_where. split; [done|]. apply bool_decide_eq_false. intros (x & Hxid & Hx)%list_elem_of_fmap.
  apply (expired_is_old c type r s t x Hnew Ht) in Hx as [_ Hx]. congruence.
Qed.

(** What a run that did not fail leaves behind, the retention included. *)
Lemma backup_file_kept c type r s : new_run c r s →
  (executeBackup seal deriveKey tar offset local_offset c type r s).1.(bres_status) ≠ "failed" →
  let s' := (executeBackup seal deriveKey tar offset local_offset c type r s).2 in
  ∃ p dump, database_dump r p dump ∧
    map_get (retained_name r) s'.(bs_disk) = Some (FileNode (retained_content r p dump)) ∧
    (is_Some (getBackupEncryptionKey deriveKey r.(ru_vars)) →
       (r.(ru_locked) p = false → map_get p s'.(bs_disk) = None) ∧
       (r.(ru_locked) (archive_name r.(ru_id)) = false → map_get (archive_name r.(ru_id)) s'.(bs_disk) = None)).
Proof.
  intros Hnew Hok. cbn zeta. pose proof (executeBackup_run c type r s) as (Hst & _ & _ & Hdisk & _). rewrite Hst in Hok. rewrite Hdisk.
  destruct (run_body_run r s _ (backup_steps_ok r s Hok) Hok) as (p & dump & _ & Hdb & _ & Hget & _ & _ & Hgone).
  exists p, dump. split_and!; [done|by rewrite retention_keeps_file|].
  intros [k Hk]. destruct Hgone as [Hg1 Hg2]; [by exists k|].
  split; intros Hl; apply retention_keeps_none; auto.
Qed.

Lemma restore_retained r p dump : length r.(ru_iv) = BACKUP_ENC_IV_LENGTH →
  restore_archive open_ deriveKey untar r.(ru_vars) (retained_name r) (retained_content r p dump) = Ok ((p, dump) :: uploads_of r).
Proof.
  intros Hiv. unfold restore_archive, retained_content, retained_name. destruct (getBackupEncryptionKey _ _) as [k|].
  - change ".enc" with BACKUP_ENC_SUFFIX. by rewrite ends_with_app, decrypt_encrypted, Huntar.
  - by rewrite Huntar.
Qed.

(** C20: a backup that does not fail can be restored: with the keys of the run its file
    unpacks to the dump of the database and the uploads, the retention of the run
    leaves it in place, and with a key configured neither the dump nor the readable
    archive stays on the disk, unless the system refuses to remove it; when both of the
    run's writes to the history succeed, the history leads to the file. The run is a new
    one: its id and its file name are not in the history, and its retention reaches back
    to before its own start, which BACKUP_RETENTION_DAYS of 1 or more gives a run of less
    than a day; with 0 or less the run may delete the file it has just verified. *)
Theorem backup_restores c type r s (Hnew : new_run c r s)
    (Hok : (executeBackup seal deriveKey tar offset local_offset c type r s).1.(bres_status) <> "failed") :
  let s' := (executeBackup seal deriveKey tar offset local_offset c type r s).2 in
  exists p dump content, database_dump r p dump /\
    map_get (retained_name r) s'.(bs_disk) = Some (FileNode content) /\
    restore_archive open_ deriveKey untar r.(ru_vars) (retained_name r) content = Ok ((p, dump) :: uploads_of r) /\
    (r.(ru_saved) = true -> r.(ru_updated) = true ->
       exists b, b ∈ s'.(bs_history) /\ b.(br_id) = r.(ru_id) /\ b.(br_file_path) = retained_name r /\
         b.(br_status) = (executeBackup seal deriveKey tar offset local_offset c type r s).1.(bres_status)) /\
    (is_Some (getBackupEncryptionKey deriveKey r.(ru_vars)) ->
       (r.(ru_locked) p = false -> map_get p s'.(bs_disk) = None) /\
       (r.(ru_locked) (archive_name r.(ru_id)) = false -> map_get (archive_name r.(ru_id)) s'.(bs_disk) = None)).
Proof.
  cbn zeta. destruct (backup_file_kept c type r s Hnew Hok) as (p & dump & Hdb & Hget & Hgone).
  exists p, dump, (retained_content r p dump). split_and!; [done|done|by apply restore_retained; apply Hnew| |done].
  pose proof (executeBackup_run c type r s) as (Hst & _ & _ & _ & Hhist). rewrite Hst in Hok |- *. rewrite Hhist.
  destruct (run_body_run r s _ (backup_steps_ok r s Hok) Hok) as (_ & _ & _ & _ & Hpath & _).
  intros Hs Hu. exists (finished_record r (run_steps seal deriveKey tar r s) (running_record type r)). split_and!; [|done..].
  apply (retention_keeps_record c type r s); [done| |done].
  unfold history_after, updateRecord, saveRecord. rewrite Hs, Hu. apply elem_of_update_where.
  exists (running_record type r). split; [set_solver|]. by rewrite bool_decide_eq_true_2.
Qed.

(** A failed run has an error to show. *)
Definition explained (s : run_state) : Prop := s.(rs_status) = "failed" → s.(rs_errors) ≠ [].

Lemma may_fail_explained e : preserves explained (may_fail e).
Proof. unfold may_fail. destruct e; auto with alsaqi. Qed.
Lemma stat_explained p : preserves explained (stat_size p).
Proof. unfold stat_size. apply preserves_bind; [auto with alsaqi|]. intros s. destruct (map_get _ _); auto with alsaqi. Qed.
Lemma modify_same f : (∀ s, rs_status (f s) = rs_status s ∧ rs_errors (f s) = rs_errors s) → preserves (E:=string) explained (modify f).
Proof. intros Hf. apply preserves_modify. intros s Hs. unfold explained in *. by destruct (Hf s) as [-> ->]. Qed.
Lemma remove_explained r p : preserves explained (removeArtifact r p).
Proof. apply modify_same. intros s. by destruct (_ || _). Qed.
Lemma write_explained p n : preserves explained (write_node p n).
Proof. by apply modify_same. Qed.
#[local] Hint Resolve may_fail_explained stat_explained remove_explained write_explained modify_same : alsaqi.

(** Steps through an action whose parts all keep the property. *)
Ltac explain_step :=
  match goal with
  | |- preserves _ (match ?x with _ => _ end) => destruct x
  | |- preserves _ (_ ≫= _) => apply preserves_bind; [|intros ?]
  end.
Ltac explain := repeat first [progress (auto with alsaqi)|explain_step].

Lemma copy_explained r p : preserves explained (copyToOffsiteStore r p).
Proof. unfold copyToOffsiteStore. explain. Qed.
#[local] Hint Resolve copy_explained : alsaqi.

Lemma storeBackup_explained r p : preserves explained (storeBackup seal deriveKey tar r p).
Proof. unfold storeBackup. explain. Qed.
Lemma dump_explained r : preserves explained (dump_database r).
Proof. unfold dump_database. explain. Qed.
Lemma internal_explained r : preserves explained (createBackupInternal r).
Proof. unfold createBackupInternal. explain. Qed.
#[local] Hint Resolve storeBackup_explained dump_explained internal_explained : alsaqi.

Lemma run_body_explained r : preserves explained (run_body seal deriveKey tar r).
Proof.
  assert (Hstatus : ∀ n l, l ≠ [] → preserves explained
    (modify (E:=string) (λ s, set_status (if 0 <? n then "partial" else "failed") (s.(rs_errors) ++ l) s))).
  { intros n l Hl. apply preserves_modify. intros s _ _. cbn. by intros [_ ?]%app_eq_nil. }
  unfold run_body. apply preserves_bind; [auto with alsaqi|]. intros _. apply preserves_bind; [|intros _; explain].
  destruct (ru_external r); [auto with alsaqi|]. apply preserves_bind; [auto with alsaqi|]. intros [[[p n] tables] errors].
  apply preserves_bind; [auto with alsaqi|]. intros _. destruct (bool_decide (errors = [])) eqn:He; bools; [auto with alsaqi|by apply Hstatus].
Qed.

Lemma run_steps_explained r s : explained (run_steps seal deriveKey tar r s).
Proof.
  pose proof (run_body_explained r (start_state s)) as H. unfold run_steps.
  destruct (run_body _ _ _ r (start_state s)) as [[[]|e] v]; [by apply H|].
  intros _. unfold run_catch. cbn. destruct (rs_retained v); cbn; by intros [_ [=]]%app_eq_nil.
Qed.

(** what a backup reports: it is verified exactly when it did not fail and its file is
    not empty; a failed one has an error and, when there are administrators and the
    notification goes out, tells them; others tell nobody. *)
Theorem backup_outcome_reported c type r s :
  let out := executeBackup seal deriveKey tar offset local_offset c type r s in
  (out.1.(bres_verified) = true <-> out.1.(bres_status) <> "failed" /\ 0 < out.1.(bres_size)) /\
  (out.1.(bres_status) = "failed" -> out.1.(bres_errors) <> []) /\
  out.2.(bs_notices) = s.(bs_notices) ++
    if bool_decide (out.1.(bres_status) = "failed" /\ c.(bc_notifyOnFailure) = true /\ r.(ru_admins) <> [] /\ r.(ru_notified) = true)
    then [(r.(ru_admins), failure_message r.(ru_id) out.1.(bres_errors))] else [].
Proof.
  cbn zeta. unfold executeBackup. set (v := run_steps _ _ _ _ _).
  destruct (applyRetentionPolicy _ _ _ _ _ _) as [disk history]. cbn. split_and!.
  - unfold is_verified. rewrite andb_true_iff, negb_true_iff, bool_decide_eq_false, Z.ltb_lt. done.
  - apply run_steps_explained.
  - f_equal. destruct (bool_decide (rs_status v = "failed")) eqn:H1, (bc_notifyOnFailure c),
      (bool_decide (ru_admins r = [])) eqn:H2, (ru_notified r); bools; cbn;
      by rewrite ?bool_decide_eq_true_2 by done; rewrite ?bool_decide_eq_false_2 by naive_solver.
Qed.

(** ** The drill on a backup of the embedded database *)

(** The text of a table in the dump, and how many rows it has. *)
Definition dumped_content (r : run_env) (t : string) : option bytes :=
  match r.(ru_rows) t with Ok content => Some content | Throw _ => None end.
Definition dumped_rows (r : run_env) (t : string) : Z :=
  match r.(ru_rows) t with
  | Ok content => match JSON_parse (of_chars content) with Some (JArr rows) => Z.of_nat (length rows) | _ => 0 end
  | Throw _ => 0
  end.

(** A target that can take the dump: its tables are there and empty, and it takes the
    rows; no upload has the name of a table's file. *)
Record drillable (r : run_env) (accepts : string → list json → bool) (target : list (string * Z)) : Prop := {
  dl_rows : ∀ t content, t ∈ backup_tables → r.(ru_rows) t = Ok content →
    ∃ rows, JSON_parse (of_chars content) = Some (JArr rows) ∧ accepts t rows = true ∧ is_Some (map_get t target);
  dl_empty : ∀ t, t ∈ backup_tables → countTableRows target t = 0;
  dl_uploads : ∀ name files t, r.(ru_uploads) = Some (name, files) → t ∈ backup_tables → map_get (t +:+ ".json") files = None }.

Lemma json_name_inj (a b : string) : a +:+ ".json" = b +:+ ".json" → a = b.
Proof.
  intros H. apply (f_equal chars) in H. rewrite !chars_app in H. apply app_inj_tail_iff in H || apply app_inv_tail in H.
  by rewrite <- (of_chars_chars a), H, of_chars_chars.
Qed.

Lemma dumped_file r t l : map_get (t +:+ ".json") (flat_map (λ t, (table_file r t).1) l) =
  if bool_decide (t ∈ l) then dumped_content r t else None.
Proof.
  induction l as [|x l IH]; [done|]. cbn [flat_map]. unfold table_file at 1. destruct (decide (t = x)) as [->|Hne].
  - rewrite (bool_decide_eq_true_2 (x ∈ x :: l)) by set_solver. destruct (ru_rows r x) eqn:Hx; cbn [fst app].
    + cbn [map_get]. rewrite bool_decide_eq_true_2 by done. unfold dumped_content. by rewrite Hx.
    + rewrite IH. unfold dumped_content. rewrite Hx. by destruct (bool_decide _).
  - rewrite (bool_decide_ext (t ∈ x :: l) (t ∈ l)) by set_solver. rewrite <- IH.
    destruct (ru_rows r x); [|done]. cbn [fst app map_get]. rewrite bool_decide_eq_false_2; [done|]. intros H. by apply json_name_inj in H.
Qed.

Lemma table_not_backup t : t ∈ backup_tables → starts_with (t +:+ ".json") "backup_" = false.
Proof.
  intros Ht. assert (Forall (λ t, starts_with (t +:+ ".json") "backup_" = false) backup_tables) as Hall.
  { apply (bool_decide_unpack _). by vm_compute. }
  by rewrite Forall_forall in Hall; apply Hall.
Qed.

Lemma find_dumped r accepts target t : drillable r accepts target → t ∈ backup_tables →
  find_json ((directory_name r.(ru_id) r.(ru_stamp), DirNode (dumped_files r)) :: uploads_of r) t = dumped_content r t.
Proof.
  intros Hd Ht. assert (Hdir : t +:+ ".json" ≠ directory_name (ru_id r) (ru_stamp r)).
  { intros H. pose proof (table_not_backup t Ht) as Hn. rewrite H in Hn. unfold directory_name in Hn. by rewrite starts_with_app in Hn. }
  unfold find_json. cbn [map_get]. rewrite bool_decide_eq_false_2 by done.
  assert (Hup : match map_get (t +:+ ".json") (uploads_of r) with Some (FileNode b) => False | _ => True end).
  { unfold uploads_of. destruct (ru_uploads r) as [[name files]|]; [|done]. cbn [map_get]. by destruct (bool_decide _). }
  transitivity (head (omap (λ e : string * node, match e.2 with DirNode files => map_get (t +:+ ".json") files | FileNode _ => None end)
    ((directory_name (ru_id r) (ru_stamp r), DirNode (dumped_files r)) :: uploads_of r))).
  { destruct (map_get _ (uploads_of r)) as [[]|]; done. }
  cbn [omap list_omap snd]. unfold dumped_files. rewrite dumped_file, bool_decide_eq_true_2 by done.
  destruct (dumped_content r t) eqn:Hc; [done|]. unfold uploads_of. destruct (ru_uploads r) as [[name files]|] eqn:Hu; [|done].
  cbn [omap list_omap snd]. by rewrite (dl_uploads _ _ _ Hd name files t Hu Ht).
Qed.

Lemma load_table_run r accepts target extracted t d : drillable r accepts target → t ∈ backup_tables →
  find_json extracted t = dumped_content r t → map_get t d = map_get t target →
  ∃ d', load_table accepts extracted t d = (Ok tt, d') ∧ countTableRows d' t = dumped_rows r t ∧
    (∀ t', t' ≠ t → map_get t' d' = map_get t' d).
Proof.
  intros Hd Ht Hfind Hsame. pose proof (dl_empty _ _ _ Hd t Ht) as H0. unfold countTableRows in *. rewrite <- Hsame in H0.
  unfold load_table, dumped_rows. rewrite Hfind. unfold dumped_content. destruct (ru_rows r t) as [content|] eqn:Hr; [|by exists d].
  destruct (dl_rows _ _ _ Hd t content Ht Hr) as (rows & -> & Hacc & Hsome). rewrite <- Hsame in Hsome.
  destruct rows as [|x rows]; [by exists d|]. destruct Hsome as [n Hn]. rewrite Hn in H0. cbn in H0. subst n.
  unfold get_state, mbind, action_bind. rewrite Hn, Hacc. exists (map_set t (0 + Z.of_nat (length (x :: rows))) d).
  split_and!; [done|by rewrite map_get_set_eq|]. intros t' Hne. by apply map_get_set_ne.
Qed.

Lemma load_all_run r accepts target extracted l : drillable r accepts target → NoDup l →
  (∀ t, t ∈ l → t ∈ backup_tables ∧ find_json extracted t = dumped_content r t) →
  ∀ d, (∀ t, t ∈ l → map_get t d = map_get t target) →
  ∃ d', for_each (load_table accepts extracted) l d = (Ok tt, d') ∧ (∀ t, t ∈ l → countTableRows d' t = dumped_rows r t) ∧
    (∀ t, t ∉ l → map_get t d' = map_get t d).
Proof.
  intros Hd. induction l as [|x l IH]; intros Hnd Hfind d Hsame; [exists d; split_and!; [done|by intros t ?%not_elem_of_nil|done]|].
  apply NoDup_cons in Hnd as [Hx Hnd]. destruct (Hfind x) as [Hxt Hxf]; [by left|].
  destruct (load_table_run r accepts target extracted x d Hd Hxt Hxf) as (d1 & Hrun & Hcount & Hother); [apply Hsame; by left|].
  destruct (IH Hnd) with (d := d1) as (d2 & Hrun2 & Hcount2 & Hother2).
  - intros t Ht. apply Hfind. by right.
  - intros t Ht. rewrite Hother by congruence. apply Hsame. by right.
  - exists d2. split_and!.
    + cbn [for_each]. unfold mbind, action_bind. by rewrite Hrun.
    + intros t [->|Ht]%elem_of_cons; [|by apply Hcount2]. unfold countTableRows in *. by rewrite Hother2.
    + intros t Ht. rewrite not_elem_of_cons in Ht. destruct Ht as [Hne Ht]. by rewrite Hother2, Hother.
Qed.

Lemma map_get_tabulate {A} (f : string → A) t l : t ∈ l → map_get t (map (λ x, (x, f x)) l) = Some (f t).
Proof.
  induction l as [|x l IH]; [by intros ?%not_elem_of_nil|]. intros Ht. cbn [map map_get].
  destruct (decide (t = x)) as [->|Hne]; [by rewrite bool_decide_eq_true_2|]. rewrite bool_decide_eq_false_2 by done. apply IH. by apply elem_of_cons in Ht as [?|?].
Qed.

(** the drill and the backup fit together: the archive of a backup of the embedded
    database that did not fail loads into a target with the tables, and the drill
    declares it restorable exactly when the expected counts are the rows that were
    dumped. *)
Theorem drill_verifies_backup c type r s accepts target expected (Hnew : new_run c r s) (Hemb : r.(ru_external) = false)
    (Hok : (executeBackup seal deriveKey tar offset local_offset c type r s).1.(bres_status) <> "failed")
    (Hd : drillable r accepts target) :
  exists content,
    map_get (retained_name r) (executeBackup seal deriveKey tar offset local_offset c type r s).2.(bs_disk) = Some (FileNode content) /\
    let log := runRestoreDrill open_ deriveKey untar r.(ru_vars) accepts (retained_name r) content expected target in
    (forall t, t ∈ CRITICAL_TABLES -> exists e, map_get t log.(rl_tableRowCounts) = Some (e, dumped_rows r t)) /\
    (log.(rl_verifiedRestorable) = true <-> forall t, t ∈ CRITICAL_TABLES -> default 0 (map_get t expected) = dumped_rows r t).
Proof.
  destruct (backup_file_kept c type r s Hnew Hok) as (p & dump & Hdb & Hget & _). unfold database_dump in Hdb. rewrite Hemb in Hdb.
  destruct Hdb as [-> ->]. eexists. split; [exact Hget|]. cbn zeta. unfold runRestoreDrill.
  rewrite restore_retained by apply Hnew. unfold loadJsonBackupIntoTarget.
  destruct (load_all_run r accepts target ((directory_name (ru_id r) (ru_stamp r), DirNode (dumped_files r)) :: uploads_of r)
    CRITICAL_TABLES Hd) with (d := target) as (d & -> & Hcount & _).
  - apply (bool_decide_unpack _). by vm_compute.
  - intros t Ht. split; [done|]. by eapply find_dumped.
  - done.
  - assert (buildTableRowCounts CRITICAL_TABLES expected (map (λ t, (t, countTableRows d t)) CRITICAL_TABLES) =
      map (λ t, (t, (default 0 (map_get t expected), dumped_rows r t))) CRITICAL_TABLES) as ->.
    { apply map_ext_in. intros t Ht%list_elem_of_In. rewrite map_get_tabulate by done. by rewrite <- Hcount. }
    unfold buildRestoreDrillLog, allRowCountsMatch. cbn [rl_tableRowCounts rl_verifiedRestorable andb]. split.
    + intros t Ht. eexists. by rewrite (map_get_tabulate (λ t, (default 0 (map_get t expected), dumped_rows r t)) t) by done.
    + rewrite forallb_forall. split; intros H t Ht.
      * apply (Z.eqb_eq _ _), (H (t, (_, _))), list_elem_of_In, list_elem_of_fmap. by exists t.
      * apply list_elem_of_In, list_elem_of_fmap in Ht as (u & -> & Hu). by apply Z.eqb_eq, H.
Qed.
End stored.

(** ** Runs of the definitions *)

Module Drills.

(** An archive as the bits of its code. *)
#[global] Instance node_eq_dec : EqDecision node.
Proof. solve_decision. Defined.
#[global] Instance node_countable : Countable node.
Proof.
  refine (inj_countable (λ n, match n with FileNode b => inl b | DirNode l => inr l end)
    (λ s, Some (match s with inl b => FileNode b | inr l => DirNode l end)) _). by intros [].
Defined.

Fixpoint bits (p : positive) : bytes :=
  match p with xH => [] | xO q => "0"%char :: bits q | xI q => "1"%char :: bits q end.
Fixpoint of_bits (b : bytes) : positive :=
  match b with [] => xH | c :: b => if bool_decide (c = "1"%char) then xI (of_bits b) else xO (of_bits b) end.
Definition tar (l : list (string * node)) : bytes := bits (encode l).
Definition untar (b : bytes) : option (list (string * node)) := decode (of_bits b).

Lemma untar_tar l : untar (tar l) = Some l.
Proof.
  unfold untar, tar. replace (of_bits (bits (encode l))) with (encode l); [apply decode_encode|].
  generalize (encode l). intros p. induction p as [p IH|p IH|]; [..|done];
    cbn [bits of_bits]; rewrite <- IH; by vm_compute.
Qed.

Definition vars (key : option string) (name : string) : option string :=
  if bool_decide (name = "FILE_ENCRYPTION_KEY") then key
  else if bool_decide (name = "DATABASE_URL") then Some "postgres://db" else None.

(** Two users and one plan; the other tables do not exist. *)
Definition rows (t : string) : outcome string bytes :=
  if bool_decide (t = "users") then Ok (chars "[{},{}]")
  else if bool_decide (t = "audit_plans") then Ok (chars "[{}]") else Throw "relation does not exist".

Definition day : Z := 86400000.
Definition run : run_env :=
  {| ru_id := "b1"; ru_started := 100 * day; ru_completed := 100 * day + 5; ru_now := 100 * day + 6; ru_stamp := "t";
     ru_vars := vars (Some "A"); ru_external := false; ru_dump := Throw ("exit 1", chars "half"); ru_rows := rows;
     ru_mkdir := None; ru_uploads := Some ("uploads", [("a.txt", chars "x")]); ru_tar := None; ru_encrypt := None;
     ru_iv := replicate 12 "i"%char; ru_copy := Ok tt; ru_locked := λ _, false; ru_saved := true; ru_updated := true;
     ru_admins := ["admin"]; ru_notified := true |}.
Definition with_rows (f : string → outcome string bytes) (r : run_env) : run_env :=
  {| ru_id := r.(ru_id); ru_started := r.(ru_started); ru_completed := r.(ru_completed); ru_now := r.(ru_now);
     ru_stamp := r.(ru_stamp); ru_vars := r.(ru_vars); ru_external := r.(ru_external); ru_dump := r.(ru_dump); ru_rows := f;
     ru_mkdir := r.(ru_mkdir); ru_uploads := r.(ru_uploads); ru_tar := r.(ru_tar); ru_encrypt := r.(ru_encrypt);
     ru_iv := r.(ru_iv); ru_copy := r.(ru_copy); ru_locked := r.(ru_locked); ru_saved := r.(ru_saved);
     ru_updated := r.(ru_updated); ru_admins := r.(ru_admins); ru_notified := r.(ru_notified) |}.
Definition with_external (r : run_env) : run_env :=
  {| ru_id := r.(ru_id); ru_started := r.(ru_started); ru_completed := r.(ru_completed); ru_now := r.(ru_now);
     ru_stamp := r.(ru_stamp); ru_vars := r.(ru_vars); ru_external := true; ru_dump := r.(ru_dump); ru_rows := r.(ru_rows);
     ru_mkdir := r.(ru_mkdir); ru_uploads := r.(ru_uploads); ru_tar := r.(ru_tar); ru_encrypt := r.(ru_encrypt);
     ru_iv := r.(ru_iv); ru_copy := r.(ru_copy); ru_locked := r.(ru_locked); ru_saved := r.(ru_saved);
     ru_updated := r.(ru_updated); ru_admins := r.(ru_admins); ru_notified := r.(ru_notified) |}.

Definition config (days : string) : BackupConfig :=
  default_config (λ name, if bool_decide (name = "BACKUP_RETENTION_DAYS") then Some days else None).

Definition old_record (id : string) (started : Z) : BackupRecord :=
  {| br_id := id; br_started_at := started; br_completed_at := Some started; br_status := "success"; br_type := "auto";
     br_size_bytes := 1; br_tables_count := 1; br_file_path := "backup_" +:+ id; br_error_message := None;
     br_verified := true; br_verified_at := Some started |}.
(** One backup of last month, one of yesterday. *)
Definition before : backup_state :=
  {| bs_disk := [("backup_old", FileNode (chars "o")); ("backup_new", FileNode (chars "n"))];
     bs_history := [old_record "old" (60 * day); old_record "new" (99 * day)]; bs_offsite := []; bs_notices := [] |}.

Abbreviation backup c r := (executeBackup FileEncryption.Sealed.seal FileEncryption.Sealed.derive tar (λ _, 0) (λ _, 0) c "auto" r before).
Abbreviation drill r path := (runRestoreDrill FileEncryption.Sealed.open_ FileEncryption.Sealed.derive untar r.(ru_vars) (λ _ _, true) path).

Lemma run_is_new : new_run FileEncryption.Sealed.derive (λ _, 0) (λ _, 0) (config "30") run before.
Proof.
  constructor; [by vm_compute; set_solver| |intros t Ht; vm_compute in Ht; injection Ht as <-; by vm_compute|done].
  intros b Hb. cbn in Hb. rewrite !elem_of_cons in Hb. destruct Hb as [->|[->|[]%not_elem_of_nil]]; discriminate.
Qed.

(** What the code lets pass: with no days of retention the run removes the backup it
    made and still reports it as a verified success; a database without tables is a
    verified backup; a dump that failed stays readable on the disk although a key is
    configured; and a drill that loads nothing and expects nothing is a success. *)
Theorem backup_gaps :
  ((backup (config "0") run).1.(bres_verified) = true ∧
   map_get "backup_b1.tar.gz.enc" (backup (config "0") run).2.(bs_disk) = None ∧
   (backup (config "0") run).2.(bs_history) = []) ∧
  (let none := with_rows (λ _, Throw "relation does not exist") run in
   (backup (config "30") none).1.(bres_status) = "success" ∧ (backup (config "30") none).1.(bres_verified) = true) ∧
  (let external := with_external run in
   (backup (config "30") external).1.(bres_status) = "failed" ∧
   map_get "backup_b1.sql.gz" (backup (config "30") external).2.(bs_disk) = Some (FileNode (chars "half"))) ∧
  (drill run "backup_b1.tar.gz" (tar [("backup_b1.sql.gz", FileNode (chars "dump"))]) [] []).(rl_verifiedRestorable) = true.
Proof. cbv zeta. split_and!; vm_compute; reflexivity. Qed.

(** The clean-up after a backup by hand orders names, not times: the archives of the
    scheduler, whose names go on with an id, push the new directory out. *)
Theorem cleanup_removes_the_new_backup :
  createBackup false rows "2026-01-02T00-00-00-000Z" (Finite 1) [("backup_f3b1.tar.gz.enc", FileNode (chars "o"))] =
  (Some "backup_2026-01-02T00-00-00-000Z", [("backup_f3b1.tar.gz.enc", FileNode (chars "o"))]).
Proof. vm_compute. reflexivity. Qed.
End Drills.

Lemma backup_restores_witness :
  ∃ content, map_get "backup_b1.tar.gz.enc" (Drills.backup (Drills.config "30") Drills.run).2.(bs_disk) = Some (FileNode content) ∧
    ∃ dump, restore_archive FileEncryption.Sealed.open_ FileEncryption.Sealed.derive Drills.untar (Drills.vars (Some "A"))
      "backup_b1.tar.gz.enc" content = Ok (dump :: uploads_of Drills.run).
Proof.
  destruct (backup_restores FileEncryption.Sealed.seal FileEncryption.Sealed.open_ FileEncryption.Sealed.derive Drills.tar Drills.untar
    FileEncryption.Sealed.seal_tag FileEncryption.Sealed.seal_open Drills.untar_tar (λ _, 0) (λ _, 0) (Drills.config "30") "auto"
    Drills.run Drills.before Drills.run_is_new) as (p & dump & content & _ & Hget & Hrestore & _).
  - vm_compute. discriminate.
  - exists content. split; [exact Hget|]. exists (p, dump). exact Hrestore.
Defined.

Lemma retention_spec_witness :
  (applyRetentionPolicy (λ _, 0) (λ _, 0) (Drills.config "30") Drills.run Drills.before.(bs_disk) Drills.before.(bs_history)).2 =
    [Drills.old_record "new" (99 * Drills.day)] ∧
  map_get "backup_old" (applyRetentionPolicy (λ _, 0) (λ _, 0) (Drills.config "30") Drills.run Drills.before.(bs_disk)
    Drills.before.(bs_history)).1 = None.
Proof.
  assert (Hk : (applyRetentionPolicy (λ _, 0) (λ _, 0) (Drills.config "30") Drills.run Drills.before.(bs_disk)
    Drills.before.(bs_history)).2 = [Drills.old_record "new" (99 * Drills.day)]) by by vm_compute.
  split; [exact Hk|].
  refine (proj1 (proj2 (retention_spec (λ _, 0) (λ _, 0) (Drills.config "30") Drills.run Drills.before.(bs_disk)
    Drills.before.(bs_history) _)) (Drills.old_record "old" (60 * Drills.day)) _ _ _ _).
  - apply (bool_decide_unpack _). by vm_compute.
  - by left.
  - rewrite Hk, list_elem_of_singleton. discriminate.
  - discriminate.
  - reflexivity.
Defined.

Lemma drill_verifies_backup_witness :
  ∃ content, map_get "backup_b1.tar.gz.enc" (Drills.backup (Drills.config "30") Drills.run).2.(bs_disk) = Some (FileNode content) ∧
    (Drills.drill Drills.run "backup_b1.tar.gz.enc" content [("users", 2); ("audit_plans", 1)]
      [("users", 0); ("audit_plans", 0)]).(rl_verifiedRestorable) = true.
Proof.
  destruct (drill_verifies_backup FileEncryption.Sealed.seal FileEncryption.Sealed.open_ FileEncryption.Sealed.derive Drills.tar
    Drills.untar FileEncryption.Sealed.seal_tag FileEncryption.Sealed.seal_open Drills.untar_tar (λ _, 0) (λ _, 0)
    (Drills.config "30") "auto" Drills.run Drills.before (λ _ _, true) [("users", 0); ("audit_plans", 0)]
    [("users", 2); ("audit_plans", 1)] Drills.run_is_new) as (content & Hget & _ & Hlog).
  - reflexivity.
  - vm_compute. discriminate.
  - constructor.
    + intros t content _ Hrow. unfold Drills.run in Hrow. cbn [ru_rows] in Hrow. unfold Drills.rows in Hrow.
      destruct (bool_decide (t = "users")) eqn:H1; [|destruct (bool_decide (t = "audit_plans")) eqn:H2]; bools; [..|discriminate];
        injection Hrow as <-; subst t; eexists; (split; [vm_compute; reflexivity|]); split; try done; by eexists.
    + intros t Ht. assert (Forall (λ t, countTableRows [("users", 0); ("audit_plans", 0)] t = 0) backup_tables) as Hall.
      { apply (bool_decide_unpack _). by vm_compute. }
      by rewrite Forall_forall in Hall; apply Hall.
    + intros name files t [= <- <-] Ht.
      assert (Forall (λ t, map_get (t +:+ ".json") [("a.txt", chars "x")] = None) backup_tables) as Hall.
      { apply (bool_decide_unpack _). by vm_compute. }
      by rewrite Forall_forall in Hall; apply Hall.
  - exists content. split; [exact Hget|]. apply Hlog. intros t Ht.
    assert (Forall (λ t, default 0 (map_get t [("users", 2); ("audit_plans", 1)]) = dumped_rows Drills.run t) CRITICAL_TABLES) as Hall.
    { apply (bool_decide_unpack _). by vm_compute. }
    by rewrite Forall_forall in Hall; apply Hall.
Defined.
