(* ===== verification/KeyStore.v ===== *)
(** * Signing keys ([utils/keyStore.ts], [auth/jwtVerificationKeys.ts], [index.ts])

    The RSA pair of the server, encrypted on the disk under a key derived from
    [JWT_SECRET], and the keys a token may be verified with while they rotate.
    AES-256-GCM is [seal] and [open_], HKDF is [deriveKey], the pair and the
    random bytes are arguments; [verify] is [jsonwebtoken].  The disk is a map
    from paths to texts, of which the environment says where it can be written. *)

From S2P Require Import Prelude JsMap JsStrings JsNumbers Json Encodings FileEncryption.
Local Open Scope Z_scope.

Record KeyPair := { privateKey : string; publicKey : string }.

#[export] Instance KeyPair_eq_dec : EqDecision KeyPair.
Proof. solve_decision. Defined.

(** What the disk answers: the directories that exist or can be made and take a
    file, whether a key file can be written, and copied. *)
Record disk_env := { de_usable : string → bool; de_write : bool; de_copy : bool; de_now : string }.

Definition PEM : string := "-----BEGIN".

Section key_store.
Context {key : Type}.
Context (seal : key → bytes → bytes → bytes * bytes) (open_ : key → bytes → bytes → bytes → option bytes).
Context (deriveKey : string → key).

Definition from_base64 (s : string) : bytes := base64url_decode (chars s).

(** [encrypt]: the payload as JSON. *)
Definition encrypt (secret : string) (iv : bytes) (plaintext : string) : string :=
  let sealed := seal (deriveKey secret) iv (chars plaintext) in
  stringify (JObj [("iv", JStr (base64 iv)); ("tag", JStr (base64 sealed.2)); ("data", JStr (base64 sealed.1))]).

(** [decrypt]: a payload without its fields, or with another tag, throws. *)
Definition decrypt (secret encryptedStr : string) : option string :=
  payload ← JSON_parse encryptedStr;
  iv ← json_field "iv" payload ≫= json_string;
  tag ← json_field "tag" payload ≫= json_string;
  data ← json_field "data" payload ≫= json_string;
  plain ← open_ (deriveKey secret) (from_base64 iv) (from_base64 tag) (from_base64 data);
  mret (utf8_to_string plain).

Definition pair_json (keys : KeyPair) : json :=
  JObj [("privateKey", JStr keys.(privateKey)); ("publicKey", JStr keys.(publicKey))].

(** [!keys.k?.includes('-----BEGIN')]: [None] when it throws.  (The array that an
    encrypted file could hold in place of a text is taken to throw.) *)
Definition lacks_pem (keys : json) (k : string) : option bool :=
  match keys with
  | JNull => None
  | _ => match json_field k keys with
         | None | Some JNull => Some true
         | Some (JStr s) => Some (negb (includes s PEM))
         | Some _ => None
         end
  end.

(** The pair of a decrypted file: [None] when reading it throws, [Some None] when it is no pair. *)
Definition parse_pair (text : string) : option (option KeyPair) :=
  keys ← JSON_parse text;
  bad1 ← lacks_pem keys "privateKey";
  if bad1 : bool then mret None
  else
    bad2 ← lacks_pem keys "publicKey";
    if bad2 : bool then mret None
    else match json_field "privateKey" keys, json_field "publicKey" keys with
         | Some (JStr a), Some (JStr b) => mret (Some {| privateKey := a; publicKey := b |})
         | _, _ => mret None
         end.

(** A [KeyStore] object: its options, the directory it settled on, and the disk. *)
Record store := {
  st_dataDir : string; st_secret : string; st_cwd : string; st_resolved : option string; st_disk : list (string * string) }.

Definition with_resolved (d : string) (s : store) : store :=
  {| st_dataDir := s.(st_dataDir); st_secret := s.(st_secret); st_cwd := s.(st_cwd); st_resolved := Some d; st_disk := s.(st_disk) |}.
Definition with_file (p content : string) (s : store) : store :=
  {| st_dataDir := s.(st_dataDir); st_secret := s.(st_secret); st_cwd := s.(st_cwd); st_resolved := s.(st_resolved);
     st_disk := map_set p content s.(st_disk) |}.
(** [new KeyStore(options)] on the disk it finds. *)
Definition new_store (dataDir secret cwd : string) (disk : list (string * string)) : store :=
  {| st_dataDir := dataDir; st_secret := secret; st_cwd := cwd; st_resolved := None; st_disk := disk |}.

Abbreviation store_action := (action string store).

(** [path.join]s of plain directory names. *)
Definition primary_dir (s : store) : string := s.(st_dataDir) +:+ "/keys".
Definition fallback_dir (s : store) : string := s.(st_cwd) +:+ "/data/keys".

Definition getKeysDir (e : disk_env) : store_action string :=
  s ← get_state;
  match s.(st_resolved) with
  | Some d => mret d
  | None =>
      let d := if e.(de_usable) (primary_dir s) then primary_dir s
               else if e.(de_usable) (fallback_dir s) then fallback_dir s else primary_dir s in
      _ ← modify (with_resolved d); mret d
  end.
Definition getKeyFilePath (e : disk_env) : store_action string :=
  d ← getKeysDir e; mret (d +:+ "/.rsa_keys.enc").

(** [load]: an unreadable file is copied aside before it is given up. *)
Definition load (e : disk_env) : store_action (option KeyPair) :=
  p ← getKeyFilePath e;
  s ← get_state;
  match map_get p s.(st_disk) with
  | None => mret None
  | Some encContent =>
      match text ← decrypt s.(st_secret) encContent; parse_pair text with
      | Some keys => mret keys
      | None =>
          _ ← (if e.(de_copy) then modify (with_file (p +:+ ".bak." +:+ e.(de_now)) encContent) else mret tt);
          mret None
      end
  end.

Definition save (e : disk_env) (iv : bytes) (keys : KeyPair) : store_action unit :=
  p ← getKeyFilePath e;
  s ← get_state;
  _ ← ensure e.(de_write) "EACCES";
  modify (with_file p (encrypt s.(st_secret) iv (stringify (pair_json keys)))).

(** [getOrCreate], with the pair that would be generated; a failing [save] is only logged. *)
Definition getOrCreate (e : disk_env) (generated : KeyPair) (iv : bytes) : store_action KeyPair :=
  existing ← load e;
  match existing with
  | Some keys => mret keys
  | None => _ ← try_catch (save e iv generated) (λ _, mret tt); mret generated
  end.

(** [index.ts]: the configured pair when both parts look like PEM, else the store's. *)
Definition pem_configured (privateKey publicKey : string) : bool := includes privateKey PEM && includes publicKey PEM.
Definition boot_keys (configured : KeyPair) (e : disk_env) (generated : KeyPair) (iv : bytes) : store_action KeyPair :=
  if pem_configured configured.(privateKey) configured.(publicKey) then mret configured else getOrCreate e generated iv.
End key_store.

(** ** Verification while keys rotate *)

Inductive JwtRotationMode := scheduled | post_incident.
Record JwtVerificationKeyConfig := {
  currentPublicKey : string; previousPublicKey : option string; mode : JwtRotationMode;
  rotatedAt : option Z; transitionWindowMs : option js_num }.

Definition isPreviousKeyWithinTransitionWindow (config : JwtVerificationKeyConfig) (now : Z) : bool :=
  match config.(mode) with
  | post_incident => false
  | scheduled =>
      match config.(previousPublicKey) with
      | None => false
      | Some previous =>
          if bool_decide (trim previous = "") then false
          else match default (int 0) config.(transitionWindowMs) with
               | Finite w =>
                   if Qle_bool w 0 then false
                   else Qle_bool (inject_Z now) (inject_Z (default 0 config.(rotatedAt)) + w)
               | _ => false
               end
      end
  end.

Definition resolveVerificationKeySet (config : JwtVerificationKeyConfig) (now : Z) : list string :=
  config.(currentPublicKey) ::
  match config.(previousPublicKey) with
  | Some previous => if isPreviousKeyWithinTransitionWindow config now then [previous] else []
  | None => []
  end.

Section verification.
Context {token payload : Type} (verify : token → string → outcome string payload).

(** The first key that accepts; the error of the last key otherwise. *)
Fixpoint try_keys (t : token) (keys : list string) (lastError : string) : outcome string payload :=
  match keys with
  | [] => Throw lastError
  | k :: keys' => match verify t k with Ok p => Ok p | Throw e => try_keys t keys' e end
  end.
Definition verifyJwtWithKeySet (t : token) (publicKeys : list string) : outcome string payload :=
  match publicKeys with
  | [] => Throw "no verification keys available"
  | _ => try_keys t publicKeys "jwt verification failed"
  end.
Definition verifyJwtWithRotation (t : token) (config : JwtVerificationKeyConfig) (now : Z) : outcome string payload :=
  verifyJwtWithKeySet t (resolveVerificationKeySet config now).
End verification.

(** ** Properties *)

Lemma char_sextet_base64 c : char_sextet (base64_char c) = char_sextet c.
Proof. unfold base64_char. do 2 (case_bool_decide; [by subst|]). done. Qed.

Lemma from_base64_to b : from_base64 (base64 b) = b.
Proof.
  unfold from_base64, base64, base64url_decode. rewrite chars_of_chars, omap_app.
  replace (omap char_sextet match (length b mod 3)%nat with 1%nat => ["="; "="]%char | 2%nat => ["="%char] | _ => [] end)
    with (@nil N) by by destruct (length b mod 3)%nat as [|[|[]]].
  rewrite app_nil_r. transitivity (base64url_decode (base64url_encode b)); [|apply base64url_round_trip].
  unfold base64url_decode. f_equal. induction (base64url_encode b) as [|c l IH]; [done|].
  cbn [map omap list_omap]. by rewrite char_sextet_base64, IH.
Qed.

Section stored_keys.
Context {key : Type}.
Context (seal : key → bytes → bytes → bytes * bytes) (open_ : key → bytes → bytes → bytes → option bytes).
Context (deriveKey : string → key).
Context (Hopen : ∀ k iv p, open_ k iv (seal k iv p).2 (seal k iv p).1 = Some p).

Lemma decrypt_encrypt secret iv v : json_ok v = true → json_utf8 v = true →
  decrypt open_ deriveKey secret (encrypt seal deriveKey secret iv (stringify v)) = Some (stringify v).
Proof.
  intros Hok Hu. unfold decrypt, encrypt. rewrite JSON_parse_stringify by done.
  pose proof (from_base64_to iv) as H1. set (sealed := seal _ iv _). pose proof (from_base64_to sealed.2) as H2.
  pose proof (from_base64_to sealed.1) as H3. revert H1 H2 H3. generalize (base64 iv), (base64 sealed.2), (base64 sealed.1).
  intros a b c H1 H2 H3. cbn [mbind option_bind].
  change (json_field "iv" _) with (Some (JStr a)). change (json_field "tag" _) with (Some (JStr b)).
  change (json_field "data" _) with (Some (JStr c)). cbn - [from_base64]. rewrite H1, H2, H3. unfold sealed. rewrite Hopen. cbn. f_equal. unfold stringify. rewrite chars_of_chars.
  by apply utf8_to_string_ok, utf8_print.
Qed.

(** A pair that is one: two PEM texts. *)
Definition pem_pair (k : KeyPair) : Prop :=
  includes k.(privateKey) PEM = true ∧ includes k.(publicKey) PEM = true ∧
  well_formed k.(privateKey) = true ∧ well_formed k.(publicKey) = true.

Lemma parse_pair_print k : pem_pair k → parse_pair (stringify (pair_json k)) = Some (Some k).
Proof.
  intros (H1 & H2 & _). unfold parse_pair. rewrite JSON_parse_stringify by done. unfold pair_json, lacks_pem. cbn [mbind option_bind].
  change (json_field "privateKey" _) with (Some (JStr k.(privateKey))). change (json_field "publicKey" _) with (Some (JStr k.(publicKey))).
  cbn. rewrite H1. cbn. rewrite H2. by destruct k.
Qed.

Lemma read_back secret iv k : pem_pair k →
  (text ← decrypt open_ deriveKey secret (encrypt seal deriveKey secret iv (stringify (pair_json k))); parse_pair text) = Some (Some k).
Proof.
  intros Hk. rewrite decrypt_encrypt; [by apply parse_pair_print|done|].
  destruct Hk as (_ & _ & H3 & H4). unfold pair_json. cbn [json_utf8 forallb fst snd]. by rewrite H3, H4.
Qed.

(** The file of the keys, which depends on the options and on the directories only. *)
Definition key_file (usable : string → bool) (s : store) : string :=
  (match s.(st_resolved) with
   | Some d => d
   | None => if usable (primary_dir s) then primary_dir s else if usable (fallback_dir s) then fallback_dir s else primary_dir s
   end) +:+ "/.rsa_keys.enc".

Lemma getKeyFilePath_run e s : ∃ d, key_file e.(de_usable) s = d +:+ "/.rsa_keys.enc" ∧
  getKeyFilePath e s = (Ok (key_file e.(de_usable) s), with_resolved d s).
Proof.
  unfold getKeyFilePath, getKeysDir, key_file. destruct s as [dd sec cwd [d|] disk]; run_action; by eexists.
Qed.

Lemma bak_ne p now : p +:+ ".bak." +:+ now ≠ p.
Proof. intros H. rewrite <- (app_nil_r_str p) in H at 2. by apply app_inj_l_str in H. Qed.

(** [load] on every branch. *)
Lemma load_run e s : let p := key_file e.(de_usable) s in
  ∃ d, p = d +:+ "/.rsa_keys.enc" ∧
  load open_ deriveKey e s =
  match map_get p s.(st_disk) with
  | None => (Ok None, with_resolved d s)
  | Some c =>
      match text ← decrypt open_ deriveKey s.(st_secret) c; parse_pair text with
      | Some keys => (Ok keys, with_resolved d s)
      | None => (Ok None, if e.(de_copy) then with_file (p +:+ ".bak." +:+ e.(de_now)) c (with_resolved d s) else with_resolved d s)
      end
  end.
Proof.
  cbn zeta. destruct (getKeyFilePath_run e s) as (d & Hd & Hrun). exists d. split; [done|].
  unfold load, get_state, mbind, action_bind. rewrite Hrun. cbn [st_disk with_resolved st_secret].
  destruct (map_get _ (st_disk s)) as [c|]; [|done]. destruct (option_bind _ _ _ _); [done|].
  unfold modify, mret, action_ret. by destruct (de_copy e).
Qed.

(** [getOrCreate] on every branch, by what is at the path of the keys. *)
Lemma getOrCreate_run e generated iv s : let p := key_file e.(de_usable) s in
  ∃ d, p = d +:+ "/.rsa_keys.enc" ∧
  let written := encrypt seal deriveKey s.(st_secret) iv (stringify (pair_json generated)) in
  let save_in s := if e.(de_write) then with_file p written s else s in
  getOrCreate seal open_ deriveKey e generated iv s =
  match map_get p s.(st_disk) with
  | None => (Ok generated, save_in (with_resolved d s))
  | Some c =>
      match text ← decrypt open_ deriveKey s.(st_secret) c; parse_pair text with
      | Some (Some keys) => (Ok keys, with_resolved d s)
      | Some None => (Ok generated, save_in (with_resolved d s))
      | None => (Ok generated,
          save_in (if e.(de_copy) then with_file (p +:+ ".bak." +:+ e.(de_now)) c (with_resolved d s) else with_resolved d s))
      end
  end.
Proof.
  cbn zeta. destruct (load_run e s) as (d & Hd & Hload). exists d. split; [done|].
  assert (Hsave : ∀ s1, s1.(st_resolved) = Some d → s1.(st_secret) = s.(st_secret) →
    (_ ← try_catch (save seal deriveKey e iv generated) (λ _, mret tt); mret generated) s1 =
    (Ok generated, if e.(de_write) then with_file (key_file e.(de_usable) s)
       (encrypt seal deriveKey s.(st_secret) iv (stringify (pair_json generated))) s1 else s1)).
  { intros s1 Hr Hs. unfold try_catch, save, getKeyFilePath, getKeysDir, ensure. run_action. rewrite Hr. run_action. rewrite Hs, Hd.
    by destruct (de_write e). }
  unfold getOrCreate. unfold mbind at 1. unfold action_bind at 1. rewrite Hload.
  destruct (map_get _ (st_disk s)) as [c|]; [|by apply Hsave].
  destruct (mbind _ (decrypt _ _ _ _)) as [[keys|]|]; [done|by apply Hsave|]. apply Hsave; by destruct (de_copy e).
Qed.

Lemma key_file_ext u u' s : (∀ d, u d = u' d) → key_file u s = key_file u' s.
Proof. intros H. unfold key_file. by rewrite !H. Qed.

(** The file at [p] holds the pair [k], under the secret. *)
Definition holds_pair (secret p : string) (disk : list (string * string)) (k : KeyPair) : Prop :=
  ∃ c, map_get p disk = Some c ∧ (text ← decrypt open_ deriveKey secret c; parse_pair text) = Some (Some k).

Lemma getOrCreate_reads e generated iv s k : holds_pair s.(st_secret) (key_file e.(de_usable) s) s.(st_disk) k →
  ∃ d, getOrCreate seal open_ deriveKey e generated iv s = (Ok k, with_resolved d s).
Proof.
  intros (c & Hc & Hdec). destruct (getOrCreate_run e generated iv s) as (d & _ & ->). exists d. by rewrite Hc, Hdec.
Qed.

Lemma getOrCreate_leaves e generated iv s k s' : e.(de_write) = true → pem_pair generated →
  getOrCreate seal open_ deriveKey e generated iv s = (Ok k, s') → holds_pair s.(st_secret) (key_file e.(de_usable) s) s'.(st_disk) k.
Proof.
  intros Hwrite Hpem Hrun. destruct (getOrCreate_run e generated iv s) as (d & _ & Hrun1). rewrite Hrun, Hwrite in Hrun1.
  assert (Hsaved : ∀ disk, holds_pair s.(st_secret) (key_file e.(de_usable) s)
    (map_set (key_file e.(de_usable) s) (encrypt seal deriveKey s.(st_secret) iv (stringify (pair_json generated))) disk) generated).
  { intros disk. eexists. split; [apply map_get_set_eq|by apply read_back]. }
  destruct (map_get _ (st_disk s)) as [c|] eqn:Hc; [|injection Hrun1 as -> ->; apply Hsaved].
  destruct (mbind _ (decrypt _ _ _ c)) as [[keys|]|] eqn:Hdec; injection Hrun1 as -> ->; [by exists c|apply Hsaved..].
Qed.

Lemma load_holds e s k s' : load open_ deriveKey e s = (Ok (Some k), s') →
  holds_pair s.(st_secret) (key_file e.(de_usable) s) s.(st_disk) k.
Proof.
  destruct (load_run e s) as (d & _ & ->). destruct (map_get _ _) as [c|] eqn:Hc; [|done].
  destruct (mbind _ (decrypt _ _ _ c)) as [[keys|]|] eqn:Hdec; [|done..].
  intros [= -> _]. exists c. by split.
Qed.

(** C21: the keys survive a restart: whatever was on the disk, a process that got its pair
    from the store on a disk it could write, or that read it there on a disk it could not
    write, is followed by processes with the same secret that get the same pair and leave
    the disk as it is, as long as the same directories can be used for the keys; what the
    later process can write does not matter. *)
Theorem keys_survive_restart dataDir secret cwd e e' generated generated' iv iv' disk k s'
    (Hkept : e.(de_write) = true \/
       (load open_ deriveKey e (new_store dataDir secret cwd disk)).1 = Ok (Some k))
    (Hpem : pem_pair generated) (Husable : forall d, e'.(de_usable) d = e.(de_usable) d)
    (Hrun : getOrCreate seal open_ deriveKey e generated iv (new_store dataDir secret cwd disk) = (Ok k, s')) :
  exists s'', getOrCreate seal open_ deriveKey e' generated' iv' (new_store dataDir secret cwd s'.(st_disk)) = (Ok k, s'') /\
    s''.(st_disk) = s'.(st_disk).
Proof.
  assert (Hholds : holds_pair secret (key_file e.(de_usable) (new_store dataDir secret cwd disk)) s'.(st_disk) k).
  { destruct Hkept as [Hwrite|Hread]; [by apply getOrCreate_leaves in Hrun|].
    destruct (load _ _ e _) as [r s1] eqn:Hload. cbn in Hread. subst r. apply load_holds in Hload.
    destruct (getOrCreate_reads e generated iv _ k Hload) as (d & Hrun1). rewrite Hrun1 in Hrun.
    injection Hrun as <-. exact Hload. }
  rewrite (key_file_ext _ e'.(de_usable)) in Hholds by done.
  destruct (getOrCreate_reads e' generated' iv' (new_store dataDir secret cwd s'.(st_disk)) k Hholds) as (d & ->). by eexists.
Qed.

(** a changed secret loses no key: the server goes on with a new pair, the old file is
    copied aside as it was, and putting the copy back under the old secret gives the
    old pair. *)
Theorem changed_secret_keeps_copy dataDir secret secret' cwd e generated iv disk old c
    (Hcopy : e.(de_copy) = true) (Hfile : map_get (key_file e.(de_usable) (new_store dataDir secret cwd disk)) disk = Some c)
    (Hold : (text ← decrypt open_ deriveKey secret c; parse_pair text) = Some (Some old))
    (Hnew : decrypt open_ deriveKey secret' c = None) :
  let p := key_file e.(de_usable) (new_store dataDir secret cwd disk) in
  exists s', getOrCreate seal open_ deriveKey e generated iv (new_store dataDir secret' cwd disk) = (Ok generated, s') /\
    map_get (p +:+ ".bak." +:+ e.(de_now)) s'.(st_disk) = Some c /\
    exists s'', getOrCreate seal open_ deriveKey e generated iv
      (new_store dataDir secret cwd (map_set p c s'.(st_disk))) = (Ok old, s'').
Proof.
  cbn zeta. destruct (getOrCreate_run e generated iv (new_store dataDir secret' cwd disk)) as (d & _ & ->).
  change (key_file _ (new_store dataDir secret' cwd disk)) with (key_file e.(de_usable) (new_store dataDir secret cwd disk)).
  set (p := key_file _ _) in *. cbn [st_disk st_secret new_store]. rewrite Hfile, Hnew, Hcopy. cbn [mbind option_bind].
  eexists. split; [done|]. split.
  - destruct (de_write e); cbn [with_file st_disk]; [rewrite map_get_set_ne by apply bak_ne|]; apply map_get_set_eq.
  - edestruct getOrCreate_reads as (d' & H); [|eexists; exact H].
    exists c. split; [apply map_get_set_eq|done].
Qed.
End stored_keys.

Section rotation.
Context {token payload : Type} (verify : token → string → outcome string payload).

(** while keys rotate a token is accepted exactly when the current key accepts it, or
    the rotation is a scheduled one and the previous key, which is not blank, accepts
    it within the window; after an incident the previous key accepts nothing. *)
Theorem rotation_accepts t config now p :
  verifyJwtWithRotation verify t config now = Ok p <->
  verify t config.(currentPublicKey) = Ok p \/
  (exists e, verify t config.(currentPublicKey) = Throw e) /\ config.(mode) = scheduled /\
  exists previous w, config.(previousPublicKey) = Some previous /\ trim previous <> "" /\
    config.(transitionWindowMs) = Some (Finite w) /\ (0 < w)%Q /\
    (inject_Z now <= inject_Z (default 0%Z config.(rotatedAt)) + w)%Q /\ verify t previous = Ok p.
Proof.
  unfold verifyJwtWithRotation, verifyJwtWithKeySet, resolveVerificationKeySet, isPreviousKeyWithinTransitionWindow. cbn [try_keys].
  destruct (verify t (currentPublicKey config)) as [p'|e] eqn:Hcur.
  { split; [intros [= ->]; by left|]. intros [[= ->]|[[e [=]] _]]; done. }
  split.
  - intros H. right. split; [by eexists|]. destruct (previousPublicKey config) as [prev|]; [|done].
    destruct (mode config); [|done]. destruct (bool_decide (trim prev = "")) eqn:Hblank; [done|]. bools.
    destruct (transitionWindowMs config) as [[w| |]|]; cbn [default id] in H; try done.
    destruct (Qle_bool w 0) eqn:Hw; [done|]. destruct (Qle_bool (inject_Z now) _) eqn:Hnow; [|done]. cbn [try_keys] in H.
    destruct (verify t prev) eqn:Hprev; [|done]. injection H as ->. split; [done|]. exists prev, w. split_and!; try done.
    + apply Qnot_le_lt. intros Hle%Qle_bool_iff. congruence.
    + by apply Qle_bool_iff.
  - intros [[=]|(_ & -> & prev & w & -> & Hblank & -> & Hw & Hnow & Hprev)].
    rewrite (bool_decide_eq_false_2 _ Hblank). cbn [default id]. apply Qlt_not_le in Hw.
    destruct (Qle_bool w 0) eqn:Hle; [by apply Qle_bool_iff in Hle|].
    apply Qle_bool_iff in Hnow. rewrite Hnow. cbn [try_keys]. by rewrite Hprev.
Qed.
End rotation.

(** ** Runs of the definitions *)

Module Stores.
Definition env : disk_env := {| de_usable := λ _, true; de_write := true; de_copy := true; de_now := "1" |}.
Definition pair (n : string) : KeyPair := {| privateKey := PEM +:+ n; publicKey := PEM +:+ n |}.
Definition iv : bytes := replicate 12 "i"%char.
Abbreviation start secret disk n :=
  (getOrCreate FileEncryption.Sealed.seal FileEncryption.Sealed.open_ FileEncryption.Sealed.derive env (pair n) iv
    (new_store "/d" secret "/app" disk)).
Definition first_disk : list (string * string) := (start "A" [] "1").2.(st_disk).

(** A file that decrypts but holds no pair is replaced without a copy. *)
Theorem no_pair_is_overwritten :
  let c := encrypt FileEncryption.Sealed.seal FileEncryption.Sealed.derive "A" iv "{}" in
  let '(r, s) := start "A" [("/d/keys/.rsa_keys.enc", c)] "2" in
  r = Ok (pair "2") ∧ keys s.(st_disk) = ["/d/keys/.rsa_keys.enc"] ∧ map_get "/d/keys/.rsa_keys.enc" s.(st_disk) ≠ Some c.
Proof. cbn zeta. vm_compute. split_and!; [done|done|discriminate]. Qed.
End Stores.

Lemma pair_is_pem n : well_formed (PEM +:+ n) = true → includes (PEM +:+ n) PEM = true → pem_pair (Stores.pair n).
Proof. by repeat split. Qed.

Lemma keys_survive_restart_witness :
  ∃ s, Stores.start "A" Stores.first_disk "2" = (Ok (Stores.pair "1"), s) ∧ s.(st_disk) = Stores.first_disk.
Proof.
  refine (keys_survive_restart FileEncryption.Sealed.seal FileEncryption.Sealed.open_ FileEncryption.Sealed.derive
    FileEncryption.Sealed.seal_open "/d" "A" "/app" Stores.env Stores.env (Stores.pair "1") (Stores.pair "2") Stores.iv Stores.iv []
    (Stores.pair "1") (Stores.start "A" [] "1").2 (or_introl eq_refl) _ (λ _, eq_refl) _).
  - by apply pair_is_pem.
  - rewrite (surjective_pairing (Stores.start "A" [] "1")). by vm_compute.
Defined.

Lemma changed_secret_keeps_copy_witness :
  ∃ c s, Stores.start "B" Stores.first_disk "2" = (Ok (Stores.pair "2"), s) ∧
    map_get "/d/keys/.rsa_keys.enc.bak.1" s.(st_disk) = Some c ∧
    ∃ s', Stores.start "A" (map_set "/d/keys/.rsa_keys.enc" c s.(st_disk)) "2" = (Ok (Stores.pair "1"), s').
Proof.
  destruct (map_get "/d/keys/.rsa_keys.enc" Stores.first_disk) as [c|] eqn:Hc; [|discriminate]. exists c.
  refine (changed_secret_keeps_copy FileEncryption.Sealed.seal FileEncryption.Sealed.open_ FileEncryption.Sealed.derive
    "/d" "A" "B" "/app" Stores.env (Stores.pair "2") Stores.iv Stores.first_disk (Stores.pair "1") c
    eq_refl Hc _ _); vm_compute in Hc; injection Hc as <-; by vm_compute.
Defined.
