(* ===== verification/WebSockets.v ===== *)
(** * Web sockets ([ws/index.ts], [ws/auth.ts], [ws/heartbeat.ts], [ws/notifications.ts])

    The upgrade of a request in its two halves, before and after the token is
    checked, the heartbeat and the messages, as steps of one server.  A client
    stays in the set of the server until its close event; [verify] is
    [jsonwebtoken] with the public key, timers are numbers. *)

From S2P Require Import Prelude JsMap JsStrings OrderBy AuthCache AuthMiddleware.
Local Open Scope Z_scope.

(** ** Authentication of the upgrade *)

Record upgrade_request := { uq_authorization : option string; uq_protocol : option string }.

(** The header [Authorization: Bearer t], or the sub-protocols [bearer, t] or [t]. *)
Definition extractToken (r : upgrade_request) : option string :=
  let from_header := match r.(uq_authorization) with
    | Some h => match JsStrings.split " " h with
                | [b; t] => if bool_decide (b = "Bearer") && negb (bool_decide (t = "")) then Some t else None
                | _ => None
                end
    | None => None
    end in
  match from_header, r.(uq_protocol) with
  | Some t, _ => Some t
  | None, None => None
  | None, Some p =>
      match List.filter (λ v, negb (bool_decide (v = ""))) (map trim (JsStrings.split "," p)) with
      | [v] => Some v
      | v :: w :: _ => if bool_decide (toLowerCase v = "bearer") then Some w else None
      | [] => None
      end
  end.

(** A decoded token; a missing id is the empty text. *)
Record ws_claims := { wt_id : string; wt_type : option string; wt_session_version : option Z }.
Record WsAuthPayload := { wp_id : string; wp_username : string; wp_role : string }.

Section authentication.
Context (verify : string → option ws_claims).

(** [users] is [None] when the query throws. *)
Definition authenticateWsRequest (users : option (list user_row)) (r : upgrade_request) : option WsAuthPayload :=
  token ← extractToken r;
  if bool_decide (token = "") then None
  else
    decoded ← verify token;
    if bool_decide (decoded.(wt_id) = "") then None
    else if negb (bool_decide (decoded.(wt_type) = Some "ws")) then None
    else
      db ← users;
      user ← find_user db decoded.(wt_id);
      if isLoginBlockedStatus user.(ur_status) then None
      else if match decoded.(wt_session_version) with
              | Some v => negb (v =? user.(ur_session_version)) | None => false end then None
      else Some {| wp_id := user.(ur_id); wp_username := user.(ur_username); wp_role := user.(ur_role) |}.
End authentication.

(** ** The server *)

Definition MAX_CONNECTIONS_PER_USER : nat := 5.
Definition MAX_TOTAL_CONNECTIONS : nat := Z.to_nat 10000.

(** A socket in [wss.clients]: who it is, whether it is open, [isAlive], and [pongTimeoutTimer]. *)
Record client := {
  cl_id : nat; cl_user : string; cl_username : string; cl_authenticated : bool; cl_connectedAt : Z;
  cl_open : bool; cl_alive : bool; cl_timer : option nat }.

Definition set_alive (alive : bool) (timer : option nat) (c : client) : client :=
  {| cl_id := c.(cl_id); cl_user := c.(cl_user); cl_username := c.(cl_username); cl_authenticated := c.(cl_authenticated);
     cl_connectedAt := c.(cl_connectedAt); cl_open := c.(cl_open); cl_alive := alive; cl_timer := timer |}.
(** [terminate()]: the socket is destroyed, the close event comes later. *)
Definition terminate (c : client) : client :=
  {| cl_id := c.(cl_id); cl_user := c.(cl_user); cl_username := c.(cl_username); cl_authenticated := c.(cl_authenticated);
     cl_connectedAt := c.(cl_connectedAt); cl_open := false; cl_alive := c.(cl_alive); cl_timer := c.(cl_timer) |}.

(** Sockets, upgrades whose token is being checked, pending timers with their
    socket, answers that refuse an upgrade, and the next free number. *)
Record server := {
  sv_clients : list client; sv_pending : list nat; sv_timers : list (nat * nat); sv_refused : list (nat * Z); sv_next : nat }.

Definition with_clients (l : list client) (s : server) : server :=
  {| sv_clients := l; sv_pending := s.(sv_pending); sv_timers := s.(sv_timers); sv_refused := s.(sv_refused); sv_next := s.(sv_next) |}.
Definition with_timers (l : list (nat * nat)) (n : nat) (s : server) : server :=
  {| sv_clients := s.(sv_clients); sv_pending := s.(sv_pending); sv_timers := l; sv_refused := s.(sv_refused); sv_next := n |}.
Definition refuse (r : nat) (status : Z) (s : server) : server :=
  {| sv_clients := s.(sv_clients); sv_pending := s.(sv_pending); sv_timers := s.(sv_timers);
     sv_refused := s.(sv_refused) ++ [(r, status)]; sv_next := s.(sv_next) |}.
Definition with_pending (l : list nat) (n : nat) (s : server) : server :=
  {| sv_clients := s.(sv_clients); sv_pending := l; sv_timers := s.(sv_timers); sv_refused := s.(sv_refused); sv_next := n |}.

Definition start_server : server := {| sv_clients := []; sv_pending := []; sv_timers := []; sv_refused := []; sv_next := 0 |}.

(** The synchronous half of the upgrade handler. *)
Definition upgrade_begin (s : server) : server :=
  let r := s.(sv_next) in
  if (MAX_TOTAL_CONNECTIONS <=? length s.(sv_clients))%nat then refuse r 503 (with_pending s.(sv_pending) (S r) s)
  else with_pending (s.(sv_pending) ++ [r]) (S r) s.

Definition user_connections (user : string) (l : list client) : nat :=
  length (select (λ c, bool_decide (c.(cl_user) = user)) l).

(** Its second half, with the outcome of the authentication and of the handshake. *)
Definition upgrade_end (r : nat) (auth : option WsAuthPayload) (handshake : bool) (now : Z) (s : server) : server :=
  let s := with_pending (List.filter (λ x, negb (bool_decide (x = r))) s.(sv_pending)) s.(sv_next) s in
  match auth with
  | None => refuse r 401 s
  | Some p =>
      if (MAX_CONNECTIONS_PER_USER <=? user_connections p.(wp_id) s.(sv_clients))%nat then refuse r 429 s
      else if handshake then
        with_clients (s.(sv_clients) ++ [{| cl_id := r; cl_user := p.(wp_id); cl_username := p.(wp_username);
          cl_authenticated := true; cl_connectedAt := now; cl_open := true; cl_alive := true; cl_timer := None |}]) s
      else s
  end.

(** One round of the heartbeat: who did not answer the last ping is terminated, the others are pinged. *)
Definition ping_one (acc : list client * list (nat * nat) * nat) (c : client) : list client * list (nat * nat) * nat :=
  let '(l, timers, n) := acc in
  if c.(cl_alive) then (l ++ [set_alive false (Some n) c], timers ++ [(n, c.(cl_id))], S n)
  else (l ++ [terminate c], timers, n).
Definition ping_all (s : server) : server :=
  let '(l, timers, n) := foldl ping_one ([], s.(sv_timers), s.(sv_next)) s.(sv_clients) in
  with_clients l (with_timers timers n s).

Definition update_client (id : nat) (f : client → client) (l : list client) : list client :=
  update_where (λ c, bool_decide (c.(cl_id) = id)) f l.

(** A pong: alive again, and the pending timer is cleared. *)
Definition pong (id : nat) (s : server) : server :=
  match select (λ c, bool_decide (c.(cl_id) = id)) s.(sv_clients) with
  | c :: _ =>
      let timers := match c.(cl_timer) with Some t => map_delete t s.(sv_timers) | None => s.(sv_timers) end in
      with_clients (update_client id (set_alive true None) s.(sv_clients)) (with_timers timers s.(sv_next) s)
  | [] => s
  end.

(** A timer fires. *)
Definition fire (t : nat) (s : server) : server :=
  match map_get t s.(sv_timers) with
  | Some id => with_clients (update_client id (λ c, if c.(cl_alive) then c else terminate c) s.(sv_clients))
                 (with_timers (map_delete t s.(sv_timers)) s.(sv_next) s)
  | None => s
  end.

Definition closed (id : nat) (s : server) : server :=
  with_clients (delete_where (λ c, bool_decide (c.(cl_id) = id)) s.(sv_clients)) s.

Inductive event :=
  | UpgradeBegin
  | UpgradeEnd (r : nat) (auth : option WsAuthPayload) (handshake : bool) (now : Z)
  | PingAll
  | Pong (id : nat)
  | TimerFires (t : nat)
  | Closed (id : nat).

(** Only an open socket answers, only a pending upgrade goes on. *)
Definition enabled (e : event) (s : server) : Prop :=
  match e with
  | UpgradeEnd r _ _ _ => r ∈ s.(sv_pending)
  | Pong id => ∃ c, c ∈ s.(sv_clients) ∧ c.(cl_id) = id ∧ c.(cl_open) = true
  | _ => True
  end.
Definition apply_event (e : event) (s : server) : server :=
  match e with
  | UpgradeBegin => upgrade_begin s
  | UpgradeEnd r auth handshake now => upgrade_end r auth handshake now s
  | PingAll => ping_all s
  | Pong id => pong id s
  | TimerFires t => fire t s
  | Closed id => closed id s
  end.

Inductive steps : server → list event → server → Prop :=
  | steps_nil s : steps s [] s
  | steps_cons s e es s' : enabled e s → steps (apply_event e s) es s' → steps s (e :: es) s'.
Definition reachable (s : server) : Prop := ∃ es, steps start_server es s.

(** ** Messages *)

Definition listens (c : client) : bool := c.(cl_open) && c.(cl_authenticated).
(** The sockets [broadcastToUsers] and [broadcastToAll] send to. *)
Definition broadcastToUsers (targetUserIds : list string) (s : server) : list nat :=
  map cl_id (select (λ c, listens c && bool_decide (c.(cl_user) ∈ targetUserIds)) s.(sv_clients)).
Definition broadcastToAll (s : server) : list nat := map cl_id (select listens s.(sv_clients)).
Definition getConnectedClientCount (s : server) : nat := length (select listens s.(sv_clients)).

(** ** Who gets a socket *)

(** an upgrade is accepted only for a token of the kind for web sockets that the key
    verifies, of a user who exists and is active now, and of the current version of the
    session when the token names one; the socket belongs to that user. *)
Theorem ws_authentication_sound verify users r p (H : authenticateWsRequest verify users r = Some p) :
  exists token t db u, extractToken r = Some token /\ verify token = Some t /\ t.(wt_type) = Some "ws" /\
    users = Some db /\ u ∈ db /\ u.(ur_id) = t.(wt_id) /\ u.(ur_status) = ACTIVE_STATUS /\
    (forall v, t.(wt_session_version) = Some v -> v = u.(ur_session_version)) /\
    p = {| wp_id := u.(ur_id); wp_username := u.(ur_username); wp_role := u.(ur_role) |}.
Proof.
  unfold authenticateWsRequest in H. destruct (extractToken r) as [token|]; [|done]. cbn [mbind option_bind] in H.
  destruct (bool_decide (token = "")); [done|]. destruct (verify token) as [t|] eqn:Hverify; [|done]. cbn [mbind option_bind] in H.
  destruct (bool_decide (wt_id t = "")); [done|]. destruct (bool_decide (wt_type t = Some "ws")) eqn:Ht; [|done]. cbn [negb] in H.
  destruct users as [db|]; [|done]. cbn [mbind option_bind] in H. destruct (find_user db (wt_id t)) as [u|] eqn:Hu; [|done].
  cbn [mbind option_bind] in H. unfold isLoginBlockedStatus in H.
  destruct (bool_decide (ur_status u = ACTIVE_STATUS)) eqn:Hst; [|done]. cbn [negb] in H. unfold find_user in Hu.
  apply select_one_Some in Hu as [Hu Hid]. bools. exists token, t, db, u. split_and!; try done.
  - intros v Hv. rewrite Hv in H. destruct (Z.eqb_spec v (ur_session_version u)); [done|]. done.
  - destruct (wt_session_version t) as [v|]; [|by injection H]. destruct (negb _); [done|]. by injection H.
Qed.

(** ** The invariant of the server *)

Record server_ok (s : server) : Prop := {
  ok_ids : NoDup (map cl_id s.(sv_clients));
  ok_pending : NoDup s.(sv_pending) ∧ ∀ r, r ∈ s.(sv_pending) → (r < s.(sv_next))%nat ∧ r ∉ map cl_id s.(sv_clients);
  ok_old : ∀ c, c ∈ s.(sv_clients) → (c.(cl_id) < s.(sv_next))%nat;
  ok_limit : ∀ user, (user_connections user s.(sv_clients) ≤ MAX_CONNECTIONS_PER_USER)%nat;
  ok_timers : map_wf s.(sv_timers) ∧ ∀ t, t ∈ keys s.(sv_timers) → (t < s.(sv_next))%nat;
  ok_owner : ∀ c t id, c ∈ s.(sv_clients) → c.(cl_timer) = Some t → (t < s.(sv_next))%nat ∧
    (map_get t s.(sv_timers) = Some id → id = c.(cl_id));
  ok_watched : ∀ c, c ∈ s.(sv_clients) → c.(cl_open) = true → c.(cl_alive) = false →
    ∃ t, c.(cl_timer) = Some t ∧ map_get t s.(sv_timers) = Some c.(cl_id);
  ok_authenticated : ∀ c, c ∈ s.(sv_clients) → c.(cl_authenticated) = true }.

Lemma user_connections_column user l : user_connections user l = length (List.filter (λ u, bool_decide (u = user)) (map cl_user l)).
Proof. unfold user_connections, select. induction l as [|c l IH]; [done|]. cbn. destruct (bool_decide _); cbn; auto. Qed.
Lemma user_connections_same user l l' : map cl_user l = map cl_user l' → user_connections user l = user_connections user l'.
Proof. intros H. by rewrite !user_connections_column, H. Qed.
Lemma user_connections_app user l c :
  user_connections user (l ++ [c]) = (user_connections user l + if bool_decide (c.(cl_user) = user) then 1 else 0)%nat.
Proof. unfold user_connections, select. rewrite List.filter_app, length_app. cbn. by destruct (bool_decide _). Qed.
Lemma user_connections_delete user p l : (user_connections user (delete_where p l) ≤ user_connections user l)%nat.
Proof.
  unfold user_connections, select, delete_where. induction l as [|c l IH]; [done|]. cbn.
  destruct (p c); cbn; destruct (bool_decide _); cbn; lia.
Qed.

(** A ping round: every socket pinged under a new timer of its own, or terminated. *)
Definition pinged (n0 n1 : nat) (added : list (nat * nat)) (c c' : client) : Prop :=
  (c.(cl_alive) = true ∧ ∃ t, (n0 ≤ t < n1)%nat ∧ (t, c.(cl_id)) ∈ added ∧ c' = set_alive false (Some t) c) ∨
  (c.(cl_alive) = false ∧ c' = terminate c).

Lemma ping_fold cs : ∀ l0 t0 n0, ∃ l1 t1 n1, foldl ping_one (l0, t0, n0) cs = (l0 ++ l1, t0 ++ t1, n1) ∧ (n0 ≤ n1)%nat ∧
  Forall2 (pinged n0 n1 t1) cs l1 ∧ NoDup (keys t1) ∧ (∀ t, t ∈ keys t1 → (n0 ≤ t < n1)%nat).
Proof.
  induction cs as [|c cs IH]; intros l0 t0 n0.
  { exists [], [], n0. cbn. rewrite !app_nil_r. split_and!; [done|lia|constructor|constructor|by intros t ?%not_elem_of_nil]. }
  cbn [foldl ping_one]. destruct (cl_alive c) eqn:Ha.
  - destruct (IH (l0 ++ [set_alive false (Some n0) c]) (t0 ++ [(n0, cl_id c)]) (S n0)) as (l1 & t1 & n1 & -> & Hn & HF & Hnd & Hk).
    exists (set_alive false (Some n0) c :: l1), ((n0, cl_id c) :: t1), n1. rewrite <- !app_assoc. split_and!; [done|lia| | |].
    + constructor; [left; split; [done|]; exists n0; split_and!; [lia|lia|by left|done]|].
      eapply Forall2_impl; [exact HF|]. intros x y [(Hx & t & Ht & Hin & ->)|?]; [|by right].
      left. split; [done|]. exists t. split_and!; [lia|lia|by right|done].
    + rewrite keys_cons. constructor; [|done]. intros Hin%Hk. lia.
    + intros t. rewrite keys_cons. intros [->|Hin%Hk]%elem_of_cons; lia.
  - destruct (IH (l0 ++ [terminate c]) t0 n0) as (l1 & t1 & n1 & -> & Hn & HF & Hnd & Hk).
    exists (terminate c :: l1), t1, n1. rewrite <- !app_assoc. split_and!; try done. by constructor; [right|].
Qed.

Lemma pinged_fields n0 n1 added c c' : pinged n0 n1 added c c' →
  c'.(cl_id) = c.(cl_id) ∧ c'.(cl_user) = c.(cl_user) ∧ c'.(cl_authenticated) = c.(cl_authenticated).
Proof. by intros [(_ & t & _ & _ & ->)|(_ & ->)]. Qed.

Lemma ping_all_run s : ∃ l t1 n1, ping_all s = with_clients l (with_timers (s.(sv_timers) ++ t1) n1 s) ∧ (s.(sv_next) ≤ n1)%nat ∧
  Forall2 (pinged s.(sv_next) n1 t1) s.(sv_clients) l ∧ NoDup (keys t1) ∧ (∀ t, t ∈ keys t1 → (s.(sv_next) ≤ t < n1)%nat).
Proof.
  destruct (ping_fold s.(sv_clients) [] s.(sv_timers) s.(sv_next)) as (l & t1 & n1 & H & Hrest).
  exists l, t1, n1. unfold ping_all. by rewrite H.
Qed.

Lemma Forall2_column {A B} (R : A → A → Prop) (col : A → B) l l' :
  (∀ x y, R x y → col y = col x) → Forall2 R l l' → map col l' = map col l.
Proof. intros HR H. induction H as [|x y l l' Hxy _ IH]; [done|]. cbn. by rewrite IH, (HR _ _ Hxy). Qed.

Lemma map_get_app {K V} `{EqDecision K} (k : K) (m1 m2 : list (K * V)) :
  map_get k (m1 ++ m2) = match map_get k m1 with Some v => Some v | None => map_get k m2 end.
Proof. induction m1 as [|[k' v] m1 IH]; [done|]. cbn. by destruct (bool_decide _). Qed.

Lemma map_get_deleted {K V} `{EqDecision K} (k k' : K) (m : list (K * V)) v :
  map_get k (map_delete k' m) = Some v → k ≠ k' ∧ map_get k m = Some v.
Proof.
  destruct (decide (k = k')) as [->|Hne]; [by rewrite map_get_delete_eq|]. by rewrite map_get_delete_ne.
Qed.

Ltac server_cbn := cbn [sv_clients sv_pending sv_timers sv_next sv_refused with_clients with_pending with_timers refuse].

(** Sockets changed in place: number, user and authentication stay. *)
Lemma server_ok_update s l timers n : server_ok s → (s.(sv_next) ≤ n)%nat →
  map cl_id l = map cl_id s.(sv_clients) → map cl_user l = map cl_user s.(sv_clients) →
  map cl_authenticated l = map cl_authenticated s.(sv_clients) →
  map_wf timers ∧ (∀ t, t ∈ keys timers → (t < n)%nat) →
  (∀ c t id, c ∈ l → c.(cl_timer) = Some t → (t < n)%nat ∧ (map_get t timers = Some id → id = c.(cl_id))) →
  (∀ c, c ∈ l → c.(cl_open) = true → c.(cl_alive) = false → ∃ t, c.(cl_timer) = Some t ∧ map_get t timers = Some c.(cl_id)) →
  server_ok (with_clients l (with_timers timers n s)).
Proof.
  intros [] Hn Hid Huser Hauth Ht Ho Hw. split; cbn [sv_clients sv_pending sv_timers sv_next with_clients with_timers]; try done.
  - by rewrite Hid.
  - destruct ok_pending0 as [Hnd Hp]. split; [done|]. intros r Hr. rewrite Hid. destruct (Hp r Hr). split; [lia|done].
  - intros c Hc. apply (list_elem_of_fmap_2 cl_id) in Hc. change (cl_id <$> l) with (map cl_id l) in Hc. rewrite Hid in Hc.
    apply list_elem_of_fmap in Hc as (c' & -> & Hc'). specialize (ok_old0 c' Hc'). lia.
  - intros user. by rewrite (user_connections_same _ _ _ Huser).
  - intros c Hc. apply (list_elem_of_fmap_2 cl_authenticated) in Hc. change (cl_authenticated <$> l) with (map cl_authenticated l) in Hc.
    rewrite Hauth in Hc. apply list_elem_of_fmap in Hc as (c' & -> & Hc'). by apply ok_authenticated0.
Qed.

Lemma begin_ok s : server_ok s → server_ok (upgrade_begin s).
Proof.
  intros []. unfold upgrade_begin. destruct (_ <=? _)%nat; split; cbn; try done.
  - destruct ok_pending0 as [Hnd Hp]. split; [done|]. intros r Hr. destruct (Hp r Hr). split; [lia|done].
  - intros c Hc. specialize (ok_old0 c Hc). lia.
  - destruct ok_timers0 as [? Ht]. split; [done|]. intros t Htk. specialize (Ht t Htk). lia.
  - intros c t id Hc Hct. destruct (ok_owner0 c t id Hc Hct). split; [lia|done].
  - destruct ok_pending0 as [Hnd Hp]. split.
    + apply NoDup_app. split_and!; [done| |apply NoDup_singleton]. intros r Hr ->%list_elem_of_singleton. destruct (Hp _ Hr). lia.
    + intros r [Hr| ->%list_elem_of_singleton]%elem_of_app; [destruct (Hp r Hr); split; [lia|done]|]. split; [lia|].
      intros (c & Hc & Hin)%list_elem_of_fmap. specialize (ok_old0 c Hin). lia.
  - intros c Hc. specialize (ok_old0 c Hc). lia.
  - destruct ok_timers0 as [? Ht]. split; [done|]. intros t Htk. specialize (Ht t Htk). lia.
  - intros c t id Hc Hct. destruct (ok_owner0 c t id Hc Hct). split; [lia|done].
Qed.

Lemma end_ok r auth handshake now s : r ∈ s.(sv_pending) → server_ok s → server_ok (upgrade_end r auth handshake now s).
Proof.
  intros Hr Hs. pose proof Hs as []. destruct ok_pending0 as [Hnd Hp].
  assert (Hrest : server_ok (with_pending (List.filter (λ x, negb (bool_decide (x = r))) s.(sv_pending)) s.(sv_next) s)).
  { split; cbn; try done. split; [by apply NoDup_ListNoDup, List.NoDup_filter, NoDup_ListNoDup|].
    intros x [Hx _]%list_elem_of_In%List.filter_In. by apply Hp, list_elem_of_In. }
  assert (Hrefuse : ∀ s st, server_ok s → server_ok (refuse r st s)) by by intros ? ? []; split.
  unfold upgrade_end. destruct auth as [p|]; [|by apply Hrefuse].
  destruct (MAX_CONNECTIONS_PER_USER <=? _)%nat eqn:Hcount; [by apply Hrefuse|]. destruct handshake; [|done].
  apply Nat.leb_gt in Hcount. cbn [sv_clients with_pending] in Hcount. destruct (Hp r Hr) as [Hrn Hrc].
  split; server_cbn; try done.
  - rewrite map_app. apply NoDup_app. split_and!; [done| |apply NoDup_singleton]. by intros x Hx ->%list_elem_of_singleton.
  - destruct Hrest. cbn in *. destruct ok_pending0 as [Hnd' Hp']. split; [done|]. intros x Hx.
    destruct (Hp' x Hx) as [Hxn Hxc]. split; [done|]. rewrite map_app. intros [?|Hxr]%elem_of_app; [done|].
    cbn in Hxr. apply list_elem_of_singleton in Hxr as ->.
    apply list_elem_of_In, List.filter_In in Hx as [_ Hx]. bools. done.
  - intros c [Hc| ->%list_elem_of_singleton]%elem_of_app; [by apply ok_old0|done].
  - intros user. rewrite user_connections_app. cbn [cl_user]. case_bool_decide as Hu; [subst user; lia|].
    specialize (ok_limit0 user). lia.
  - intros c t id [Hc| ->%list_elem_of_singleton]%elem_of_app; [by apply ok_owner0|done].
  - intros c [Hc| ->%list_elem_of_singleton]%elem_of_app; [by apply ok_watched0|done].
  - intros c [Hc| ->%list_elem_of_singleton]%elem_of_app; [by apply ok_authenticated0|done].
Qed.

Lemma ping_ok s : server_ok s → server_ok (ping_all s).
Proof.
  intros Hs. pose proof Hs as []. destruct (ping_all_run s) as (l & t1 & n1 & -> & Hn & HF & Hnd & Hk).
  destruct ok_timers0 as [Hwf Htk].
  assert (Hdisj : ∀ t, t ∈ keys t1 → map_get t s.(sv_timers) = None).
  { intros t Ht%Hk. apply map_get_None. intros Hin%Htk. lia. }
  apply server_ok_update; try done.
  - apply (Forall2_column _ _ _ _ (λ x y H, proj1 (pinged_fields _ _ _ x y H)) HF).
  - apply (Forall2_column _ _ _ _ (λ x y H, proj1 (proj2 (pinged_fields _ _ _ x y H))) HF).
  - apply (Forall2_column _ _ _ _ (λ x y H, proj2 (proj2 (pinged_fields _ _ _ x y H))) HF).
  - unfold map_wf. rewrite keys_app. split.
    + apply NoDup_app. split_and!; [done| |done]. intros t Ht%Htk Ht'%Hk. lia.
    + intros t [Ht%Htk|Ht%Hk]%elem_of_app; lia.
  - intros c t id Hc Hct. apply list_elem_of_lookup in Hc as [i Hi].
    destruct (Forall2_lookup_r _ _ _ _ _ HF Hi) as (c0 & Hi0 & [(Ha & t' & Ht' & Hin & ->)|(Ha & ->)]).
    + injection Hct as <-. split; [lia|]. rewrite map_get_app, Hdisj by by eapply elem_of_keys.
      rewrite (map_get_elem t' _ t1 Hnd Hin). by intros [= <-].
    + apply list_elem_of_lookup_2 in Hi0. destruct (ok_owner0 c0 t id Hi0 Hct) as [Htn Hid]. split; [lia|].
      rewrite map_get_app. destruct (map_get t (sv_timers s)); [done|]. intros Hg%map_get_Some_elem%elem_of_keys%Hk. lia.
  - intros c Hc Hop Ha. apply list_elem_of_lookup in Hc as [i Hi].
    destruct (Forall2_lookup_r _ _ _ _ _ HF Hi) as (c0 & Hi0 & [(Ha0 & t' & Ht' & Hin & ->)|(Ha0 & ->)]); [|done].
    exists t'. split; [done|]. rewrite map_get_app, Hdisj by by eapply elem_of_keys. by apply map_get_elem.
Qed.

Lemma update_client_column {A} (col : client → A) id f l : (∀ c, col (f c) = col c) → map col (update_client id f l) = map col l.
Proof. intros H. apply update_where_column. auto. Qed.

Lemma map_wf_deleted t (timers : list (nat * nat)) n : map_wf timers → (∀ t, t ∈ keys timers → (t < n)%nat) →
  map_wf (map_delete t timers) ∧ (∀ x, x ∈ keys (map_delete t timers) → (x < n)%nat).
Proof. intros Hwf H. split; [by apply map_delete_wf|]. intros x [_ Hx]%elem_of_keys_delete. auto. Qed.

Lemma pong_ok id s : server_ok s → server_ok (pong id s).
Proof.
  intros Hs. pose proof Hs as []. unfold pong. destruct (select _ _) as [|c rest] eqn:Hsel; [done|].
  assert (Hc : c ∈ s.(sv_clients) ∧ c.(cl_id) = id).
  { assert (c ∈ select (λ c, bool_decide (c.(cl_id) = id)) s.(sv_clients)) as [? ?]%elem_of_select by (rewrite Hsel; by left). by bools. }
  destruct Hc as [Hc Hid]. destruct ok_timers0 as [Hwf Htk].
  apply server_ok_update; try done; try by apply update_client_column.
  - destruct (cl_timer c); [by apply map_wf_deleted|done].
  - intros c' t id' (c0 & Hc0 & ->)%elem_of_update_where Ht. case_bool_decide; [done|].
    destruct (ok_owner0 c0 t id' Hc0 Ht) as [Htn Hown]. split; [done|]. intros Hg. apply Hown.
    destruct (cl_timer c); [by apply map_get_deleted in Hg as [_ ?]|done].
  - intros c' (c0 & Hc0 & ->)%elem_of_update_where Hop Ha. case_bool_decide as Hne; [done|].
    destruct (ok_watched0 c0 Hc0 Hop Ha) as (t & Ht & Hg). exists t. split; [done|].
    destruct (cl_timer c) as [t'|] eqn:Ht'; [|done]. rewrite map_get_delete_ne; [done|]. intros ->.
    destruct (ok_owner0 c t' (cl_id c0) Hc Ht') as [_ Hown]. apply Hne. rewrite (Hown Hg). done.
Qed.

Lemma fire_ok t s : server_ok s → server_ok (fire t s).
Proof.
  intros Hs. pose proof Hs as []. unfold fire. destruct (map_get t s.(sv_timers)) as [id|] eqn:Hg; [|done].
  destruct ok_timers0 as [Hwf Htk].
  apply server_ok_update; try done; try (apply update_client_column; intros c; by destruct (cl_alive c)).
  - by apply map_wf_deleted.
  - intros c t' id' (c0 & Hc0 & ->)%elem_of_update_where Ht.
    assert (Ht0 : c0.(cl_timer) = Some t') by by destruct (bool_decide _), (cl_alive c0).
    destruct (ok_owner0 c0 t' id' Hc0 Ht0) as [Htn Hown]. split; [done|]. intros [_ Hg']%map_get_deleted.
    rewrite (Hown Hg'). by destruct (bool_decide _), (cl_alive c0).
  - intros c (c0 & Hc0 & ->)%elem_of_update_where Hop Ha. case_bool_decide as Hid.
    + destruct (cl_alive c0) eqn:Ha0; [congruence|done].
    + destruct (ok_watched0 c0 Hc0 Hop Ha) as (t' & Ht' & Hg'). exists t'. split; [done|].
      rewrite map_get_delete_ne; [done|]. intros ->. congruence.
Qed.

Lemma closed_ok id s : server_ok s → server_ok (closed id s).
Proof.
  intros []. unfold closed. split; server_cbn; try done.
  - by apply NoDup_map_filter.
  - destruct ok_pending0 as [Hnd Hp]. split; [done|]. intros r Hr. destruct (Hp r Hr) as [? Hn]. split; [done|].
    intros (c & -> & [Hc _]%elem_of_delete_where)%list_elem_of_fmap. apply Hn. by apply list_elem_of_fmap_2.
  - intros c [Hc _]%elem_of_delete_where. by apply ok_old0.
  - intros user. etransitivity; [apply user_connections_delete|done].
  - intros c t i [Hc _]%elem_of_delete_where. by apply ok_owner0.
  - intros c [Hc _]%elem_of_delete_where. by apply ok_watched0.
  - intros c [Hc _]%elem_of_delete_where. by apply ok_authenticated0.
Qed.

Lemma apply_ok e s : enabled e s → server_ok s → server_ok (apply_event e s).
Proof.
  destruct e; cbn [enabled apply_event]; intros He Hs;
    auto using begin_ok, end_ok, ping_ok, pong_ok, fire_ok, closed_ok.
Qed.

Lemma steps_ok s es s' : steps s es s' → server_ok s → server_ok s'.
Proof. induction 1 as [|s e es s' He _ IH]; auto using apply_ok. Qed.

Lemma start_server_ok : server_ok start_server.
Proof.
  split; cbn; try (by intros ? ?%not_elem_of_nil); try (by intros ? ? ? ?%not_elem_of_nil); [constructor| |unfold user_connections; cbn; lia|].
  - split; [constructor|by intros ? ?%not_elem_of_nil].
  - split; [constructor|by intros ? ?%not_elem_of_nil].
Qed.

Lemma reachable_server_ok s : reachable s → server_ok s.
Proof. intros [es H]. eapply steps_ok; [exact H|apply start_server_ok]. Qed.

(** C22: however upgrades, pings, pongs, timers and closings interleave: no user has more
    than five sockets, every socket was authenticated and has its own number, and a
    socket that owes a pong is under a running timer, which terminates it. *)
Theorem sockets_bounded_and_watched s (H : reachable s) :
  (forall user, user_connections user s.(sv_clients) <= 5)%nat /\
  NoDup (map cl_id s.(sv_clients)) /\ (forall c, c ∈ s.(sv_clients) -> c.(cl_authenticated) = true) /\
  (forall c, c ∈ s.(sv_clients) -> c.(cl_open) = true -> c.(cl_alive) = false ->
     exists t, map_get t s.(sv_timers) = Some c.(cl_id) /\
       forall c', c' ∈ (fire t s).(sv_clients) -> c'.(cl_id) = c.(cl_id) -> c'.(cl_open) = false).
Proof.
  destruct (reachable_server_ok s H) as []. split_and!; try done. intros c Hc Hop Ha.
  destruct (ok_watched0 c Hc Hop Ha) as (t & _ & Hg). exists t. split; [done|]. unfold fire. rewrite Hg. server_cbn.
  intros c' (c0 & Hc0 & ->)%elem_of_update_where Hid. case_bool_decide as Hcid; [|by destruct Hcid].
  assert (c0 = c) as -> by by eapply map_unique. by rewrite Ha.
Qed.

(** ** Silence *)

(** What holds of the socket of this number, which no upgrade will get again. *)
Definition of_socket (id : nat) (f : client → bool) (s : server) : Prop :=
  (id < s.(sv_next))%nat ∧ (id ∉ s.(sv_pending)) ∧ ∀ c, c ∈ s.(sv_clients) → c.(cl_id) = id → f c = true.

Lemma of_socket_step id f e s : (∀ c, f c = true → f (terminate c) = true) →
  (∀ c t, f c = true → f (set_alive false t c) = true) → enabled e s → e ≠ Pong id → of_socket id f s → of_socket id f (apply_event e s).
Proof.
  intros Hterm Hping He Hne (Hid & Hp & Hf). destruct e as [|r auth handshake now| |id'|t|id']; cbn [apply_event enabled] in *.
  - unfold upgrade_begin. destruct (_ <=? _)%nat; split_and!; server_cbn; try done; try lia.
    rewrite elem_of_app, list_elem_of_singleton. intros [?| ->]; [done|]. lia.
  - assert (Hp' : id ∉ List.filter (λ x, negb (bool_decide (x = r))) s.(sv_pending)).
    { intros [Hin _]%list_elem_of_In%List.filter_In. by apply Hp, list_elem_of_In. }
    unfold upgrade_end. destruct auth as [p|]; [|done]. destruct (_ <=? _)%nat; [done|]. destruct handshake; [|done].
    split_and!; try done. server_cbn. intros c [Hc| ->%list_elem_of_singleton]%elem_of_app; [by apply Hf|]. cbn. intros ->. done.
  - destruct (ping_all_run s) as (l & t1 & n1 & -> & Hn & HF & _). split_and!; [server_cbn; lia|done|]. server_cbn.
    intros c Hc Hcid. apply list_elem_of_lookup in Hc as [i Hi].
    destruct (Forall2_lookup_r _ _ _ _ _ HF Hi) as (c0 & Hi0%list_elem_of_lookup_2 & [(Ha & t' & _ & _ & ->)|(Ha & ->)]); auto.
  - unfold pong. destruct (select _ _) as [|c0 ?]; [done|]. split_and!; [done..|]. server_cbn.
    intros c (c1 & Hc1 & ->)%elem_of_update_where. case_bool_decide; [cbn; congruence|auto].
  - unfold fire. destruct (map_get t (sv_timers s)); [|done]. split_and!; [done..|]. server_cbn.
    intros c (c1 & Hc1 & ->)%elem_of_update_where. case_bool_decide; [|auto]. destruct (cl_alive c1) eqn:Ha; auto.
  - split_and!; [done..|]. unfold closed. server_cbn. intros c [Hc _]%elem_of_delete_where. auto.
Qed.

Lemma of_socket_steps id f s es s' : (∀ c, f c = true → f (terminate c) = true) →
  (∀ c t, f c = true → f (set_alive false t c) = true) → steps s es s' → Pong id ∉ es → of_socket id f s → of_socket id f s'.
Proof.
  intros Ht Hp. induction 1 as [|s e es s' He _ IH]; [done|]. intros Hes Hs. apply not_elem_of_cons in Hes as [Hne Hes].
  apply IH; [done|]. by apply of_socket_step.
Qed.

Lemma of_socket_ping id f g s : (∀ c, f c = true → g (if c.(cl_alive) then set_alive false None c else terminate c) = true) →
  (∀ c t t', g (set_alive false t c) = g (set_alive false t' c)) → of_socket id f s → of_socket id g (ping_all s).
Proof.
  intros Hfg Hg (Hid & Hp & Hf). destruct (ping_all_run s) as (l & t1 & n1 & -> & Hn & HF & _).
  split_and!; [server_cbn; lia|done|]. server_cbn. intros c Hc Hcid. apply list_elem_of_lookup in Hc as [i Hi].
  destruct (Forall2_lookup_r _ _ _ _ _ HF Hi) as (c0 & Hi0%list_elem_of_lookup_2 & [(Ha & t' & _ & _ & ->)|(Ha & ->)]).
  - rewrite (Hg _ _ None). specialize (Hfg c0). rewrite Ha in Hfg. auto.
  - specialize (Hfg c0). rewrite Ha in Hfg. auto.
Qed.

Lemma steps_app s es1 es2 s' : steps s (es1 ++ es2) s' → ∃ s1, steps s es1 s1 ∧ steps s1 es2 s'.
Proof.
  revert s. induction es1 as [|e es1 IH]; intros s H; [exists s; split; [constructor|done]|].
  inversion H as [|? ? ? ? He Hs]; subst. destruct (IH _ Hs) as (s1 & H1 & H2). exists s1. split; [by constructor|done].
Qed.

(** C23: a socket that answers nothing is terminated by the second ping at the latest,
    whatever else happens in between, and its number never listens again. *)
Theorem silent_socket_terminated s c es1 es2 es3 s' (Hs : reachable s) (Hc : c ∈ s.(sv_clients))
    (H : steps s (es1 ++ PingAll :: es2 ++ PingAll :: es3) s') (Hsilent : Pong c.(cl_id) ∉ es1 ++ es2 ++ es3) :
  forall c', c' ∈ s'.(sv_clients) -> c'.(cl_id) = c.(cl_id) -> listens c' = false.
Proof.
  destruct (reachable_server_ok s Hs) as []. rewrite !not_elem_of_app in Hsilent. destruct Hsilent as (Hs1 & Hs2 & Hs3).
  apply steps_app in H as (s1 & H1 & H). inversion H as [|? ? ? ? _ H2]; subst. cbn [apply_event] in H2.
  apply steps_app in H2 as (s2 & H2 & H3). inversion H3 as [|? ? ? ? _ H4]; subst. cbn [apply_event] in H4.
  assert (P0 : of_socket (cl_id c) (λ _, true) s).
  { split_and!; [by apply ok_old0| |done]. intros Hin. destruct ok_pending0 as [_ Hp]. destruct (Hp _ Hin) as [_ Hn].
    apply Hn. by apply list_elem_of_fmap_2. }
  apply (of_socket_steps _ (λ _, true) _ _ _ (λ _ H, H) (λ _ _ H, H) H1 Hs1) in P0.
  apply (of_socket_ping _ _ (λ c, negb (c.(cl_open) && c.(cl_alive)))) in P0; [|intros x _; destruct (cl_alive x); cbn; by rewrite ?andb_false_r|done].
  eapply of_socket_steps in P0; [|cbn; intros; by rewrite ?andb_false_r|cbn; intros; by rewrite ?andb_false_r|exact H2|done].
  apply (of_socket_ping _ _ (λ c, negb c.(cl_open))) in P0; [| |done].
  2:{ intros x Hx. destruct (cl_alive x); cbn; [|done]. by rewrite andb_true_r in Hx. }
  eapply of_socket_steps in P0; [|done|done|exact H4|done]. destruct P0 as (_ & _ & Hf). intros c' Hc' Hid.
  specialize (Hf c' Hc' Hid). unfold listens. by destruct (cl_open c').
Qed.

Lemma upgrade_end_accepts r p now s : (user_connections p.(wp_id) s.(sv_clients) < MAX_CONNECTIONS_PER_USER)%nat →
  (upgrade_end r (Some p) true now s).(sv_clients) = s.(sv_clients) ++ [{| cl_id := r; cl_user := p.(wp_id);
    cl_username := p.(wp_username); cl_authenticated := true; cl_connectedAt := now; cl_open := true; cl_alive := true; cl_timer := None |}].
Proof. intros H%Nat.leb_gt. unfold upgrade_end. server_cbn. by rewrite H. Qed.

(** The limit of all sockets is tested before the token is checked, so upgrades that
    are being checked together all pass it. *)
Theorem total_limit_exceeded s p : length s.(sv_clients) = Z.to_nat 9999 → user_connections p.(wp_id) s.(sv_clients) = 0%nat →
  let n := s.(sv_next) in
  let s2 := upgrade_begin (upgrade_begin s) in
  s2.(sv_pending) = s.(sv_pending) ++ [n; S n] ∧
  length (upgrade_end (S n) (Some p) true 0 (upgrade_end n (Some p) true 0 s2)).(sv_clients) = Z.to_nat 10001.
Proof.
  intros Hlen Hu. cbn zeta.
  assert (Hb : ∀ s, (upgrade_begin s).(sv_clients) = s.(sv_clients)) by (intros s0; unfold upgrade_begin; by destruct (_ <=? _)%nat).
  split.
  { assert (Hp : ∀ s0, length s0.(sv_clients) = Z.to_nat 9999 →
      upgrade_begin s0 = with_pending (s0.(sv_pending) ++ [s0.(sv_next)]) (S s0.(sv_next)) s0).
    { intros s0 H0. unfold upgrade_begin, MAX_TOTAL_CONNECTIONS. rewrite H0. by rewrite (proj2 (Nat.leb_gt _ _)) by lia. }
    rewrite (Hp (upgrade_begin s)) by by rewrite Hb. rewrite (Hp s) by done. server_cbn. by rewrite <- app_assoc. }
  assert (H1 : ∃ c, (upgrade_end (sv_next s) (Some p) true 0 (upgrade_begin (upgrade_begin s))).(sv_clients) = s.(sv_clients) ++ [c]).
  { eexists. rewrite upgrade_end_accepts; rewrite !Hb; [done|]. rewrite Hu. unfold MAX_CONNECTIONS_PER_USER. lia. }
  destruct H1 as [c H1]. rewrite upgrade_end_accepts; rewrite H1.
  - rewrite !length_app, Hlen. cbn [length]. lia.
  - rewrite user_connections_app, Hu. unfold MAX_CONNECTIONS_PER_USER. destruct (bool_decide _); lia.
Qed.

(** ** Runs of the definitions *)

Module Sockets.
Definition ann : user_row := {|
  ur_id := "u1"; ur_role := "Auditor"; ur_status := "Active"; ur_username := "ann"; ur_name := "Ann"; ur_email := "a@x";
  ur_session_version := 3; ur_requires_password_change := false; ur_department_id := None |}.
Definition verify (t : string) : option ws_claims :=
  if bool_decide (t = "t") then Some {| wt_id := "u1"; wt_type := Some "ws"; wt_session_version := Some 3 |} else None.
Definition request : upgrade_request := {| uq_authorization := None; uq_protocol := Some "Bearer, t" |}.
Definition user : WsAuthPayload := {| wp_id := "u1"; wp_username := "ann"; wp_role := "Auditor" |}.
Definition joined : server := upgrade_end 0 (Some user) true 0 (upgrade_begin start_server).
Definition pinged_once : server := ping_all joined.

Lemma joined_reachable : reachable joined.
Proof.
  exists [UpgradeBegin; UpgradeEnd 0 (Some user) true 0]. constructor; [done|]. constructor; [by left|]. constructor.
Qed.
Lemma pinged_reachable : reachable pinged_once.
Proof.
  exists [UpgradeBegin; UpgradeEnd 0 (Some user) true 0; PingAll]. constructor; [done|]. constructor; [by left|].
  constructor; [done|]. constructor.
Qed.
Definition ann_socket : client :=
  {| cl_id := 0; cl_user := "u1"; cl_username := "ann"; cl_authenticated := true; cl_connectedAt := 0; cl_open := true;
     cl_alive := true; cl_timer := None |}.
End Sockets.

Lemma ws_authentication_sound_witness :
  authenticateWsRequest Sockets.verify (Some [Sockets.ann]) Sockets.request = Some Sockets.user ∧
  ∃ token t, extractToken Sockets.request = Some token ∧ Sockets.verify token = Some t ∧ t.(wt_type) = Some "ws".
Proof.
  assert (H : authenticateWsRequest Sockets.verify (Some [Sockets.ann]) Sockets.request = Some Sockets.user) by by vm_compute.
  split; [exact H|]. destruct (ws_authentication_sound _ _ _ _ H) as (token & t & _ & _ & H1 & H2 & H3 & _). by exists token, t.
Defined.

Lemma sockets_bounded_and_watched_witness :
  ∃ t, map_get t Sockets.pinged_once.(sv_timers) = Some 0%nat ∧
    ∀ c', c' ∈ (fire t Sockets.pinged_once).(sv_clients) → c'.(cl_id) = 0%nat → c'.(cl_open) = false.
Proof.
  refine (proj2 (proj2 (proj2 (sockets_bounded_and_watched _ Sockets.pinged_reachable))) (set_alive false (Some 1%nat) Sockets.ann_socket) _ _ _);
    [by left|done..].
Defined.

Lemma silent_socket_terminated_witness :
  Forall (λ c', c'.(cl_id) = 0%nat → listens c' = false) (ping_all (ping_all Sockets.joined)).(sv_clients).
Proof.
  apply Forall_forall.
  refine (silent_socket_terminated Sockets.joined Sockets.ann_socket [] [] [] _ Sockets.joined_reachable _ _ _).
  - by left.
  - constructor; [done|]. constructor; [done|]. constructor.
  - apply not_elem_of_nil.
Defined.
