(* ===== verification/Notifications.v ===== *)
(** * Notifications ([services/NotificationService.ts], [routes/notifications.ts])

    A notification is a row of [notifications] and a row of
    [notification_recipients] for everybody it goes to; the first table keeps the
    columns of an older scheme, to which every operation falls back when a
    statement fails.  [fresh] is the generator of keys, [uuid_ok] the cast to
    [uuid]; the sockets are those of [WebSockets.v]. *)

From S2P Require Import Prelude JsMap JsStrings JsNumbers Json OrderBy AuthCache AuthMiddleware Pagination FileEncryption WebSockets.
Local Open Scope Z_scope.

Record notification := {
  n_id : string; n_user_id : string; n_event_type : string; n_description : string; n_related_module : string;
  n_link : string; n_status : string; n_actor_id : option string; n_entity_id : option string;
  n_entity_type : option string; n_data : string; n_title : option string; n_date : Z }.

Record recipient := {
  rc_id : string; rc_notification : string; rc_recipient : string; rc_is_read : bool; rc_read_at : option Z;
  rc_is_dismissed : bool; rc_dismissed_at : option Z }.

Record user := { us_id : string; us_name : string; us_username : string; us_role : string; us_department : option string; us_status : string }.

(** The tables, whether the second one exists, the next key, and what was sent to the sockets. *)
Record notify_state := {
  ns_users : list user; ns_notifications : list notification; ns_recipients : list recipient; ns_two_tables : bool;
  ns_next : nat; ns_sent : list (nat * string) }.

Definition with_notifications (l : list notification) (s : notify_state) : notify_state :=
  {| ns_users := s.(ns_users); ns_notifications := l; ns_recipients := s.(ns_recipients); ns_two_tables := s.(ns_two_tables);
     ns_next := s.(ns_next); ns_sent := s.(ns_sent) |}.
Definition with_recipients (l : list recipient) (s : notify_state) : notify_state :=
  {| ns_users := s.(ns_users); ns_notifications := s.(ns_notifications); ns_recipients := l; ns_two_tables := s.(ns_two_tables);
     ns_next := s.(ns_next); ns_sent := s.(ns_sent) |}.
Definition with_next (n : nat) (s : notify_state) : notify_state :=
  {| ns_users := s.(ns_users); ns_notifications := s.(ns_notifications); ns_recipients := s.(ns_recipients);
     ns_two_tables := s.(ns_two_tables); ns_next := n; ns_sent := s.(ns_sent) |}.
Definition with_sent (l : list (nat * string)) (s : notify_state) : notify_state :=
  {| ns_users := s.(ns_users); ns_notifications := s.(ns_notifications); ns_recipients := s.(ns_recipients);
     ns_two_tables := s.(ns_two_tables); ns_next := s.(ns_next); ns_sent := l |}.

Abbreviation notify_action := (action string notify_state).

(** [recipientIds: string | string[] | 'all'] *)
Inductive recipients := All | Many (l : list string) | One (id : string).

Record CreateNotificationOptions := {
  co_actorId : option string; co_entityId : option string; co_entityType : option string; co_data : option json;
  co_wss : option server; co_title : option string }.

Record NotificationFeedItem := {
  fi_id : string; fi_recipient_row_id : string; fi_event_type : string; fi_title : option string; fi_description : string;
  fi_related_module : string; fi_link : string; fi_actor_id : option string; fi_entity_id : option string;
  fi_entity_type : option string; fi_data : string; fi_date : Z; fi_is_read : bool; fi_read_at : option Z }.

(** The first of [changes], [rowCount] and [affectedRows] that is there, as a positive number. *)
Definition affectedCount (changes rowCount affectedRows : option js_value) : js_num :=
  let raw := match changes, rowCount, affectedRows with
             | Some v, _, _ | None, Some v, _ | None, None, Some v => v
             | None, None, None => JsNumber 0
             end in
  let n := match raw with JsNumber z => int z | JsString s => js_Number s end in
  if isFinite n && js_lt (int 0) n then n else int 0.

Section notifications.
Context (fresh : nat → string) (uuid_ok : string → bool).

(** [$n::uuid] *)
Definition cast_uuid (id : string) : notify_action unit := ensure (uuid_ok id) "invalid input syntax for type uuid".
Definition cast_uuid_opt (id : option string) : notify_action unit :=
  match id with Some i => cast_uuid i | None => mret tt end.
Definition needs_recipients : notify_action unit :=
  s ← get_state; ensure s.(ns_two_tables) "relation notification_recipients does not exist".
Definition new_key : notify_action string :=
  s ← get_state; _ ← modify (with_next (S s.(ns_next))); mret (fresh s.(ns_next)).

(** ** Reading *)

Definition item_of (r : recipient) (n : notification) : NotificationFeedItem :=
  {| fi_id := n.(n_id); fi_recipient_row_id := r.(rc_id); fi_event_type := n.(n_event_type); fi_title := n.(n_title);
     fi_description := n.(n_description); fi_related_module := n.(n_related_module); fi_link := n.(n_link);
     fi_actor_id := n.(n_actor_id); fi_entity_id := n.(n_entity_id); fi_entity_type := n.(n_entity_type);
     fi_data := n.(n_data); fi_date := n.(n_date); fi_is_read := r.(rc_is_read); fi_read_at := r.(rc_read_at) |}.
Definition legacy_item (n : notification) : NotificationFeedItem :=
  {| fi_id := n.(n_id); fi_recipient_row_id := n.(n_id); fi_event_type := n.(n_event_type); fi_title := None;
     fi_description := n.(n_description); fi_related_module := n.(n_related_module); fi_link := n.(n_link);
     fi_actor_id := n.(n_actor_id); fi_entity_id := n.(n_entity_id); fi_entity_type := n.(n_entity_type);
     fi_data := n.(n_data); fi_date := n.(n_date); fi_is_read := bool_decide (n.(n_status) = "Read"); fi_read_at := None |}.

(** The rows of [notification_recipients] of a user that are not dismissed. *)
Definition shown_to (userId : string) (r : recipient) : bool :=
  bool_decide (r.(rc_recipient) = userId) && negb r.(rc_is_dismissed).
Definition joined (userId : string) (s : notify_state) : list NotificationFeedItem :=
  flat_map (λ r, map (item_of r) (select (λ n, bool_decide (n.(n_id) = r.(rc_notification))) s.(ns_notifications)))
    (select (shown_to userId) s.(ns_recipients)).
(** [ORDER BY date DESC] *)
Definition newest (l : list NotificationFeedItem) : list NotificationFeedItem := order_by fi_date (λ a b, b <? a) l.

Definition feed_page (total : Z) (rows : list NotificationFeedItem) (page pageSize : Z) :
    list NotificationFeedItem * PaginationMeta :=
  (page_rows pageSize page (newest rows), computePaginationMeta page pageSize total).

Definition getNotifications (userId : string) (page pageSize : Z) : notify_action (list NotificationFeedItem * PaginationMeta) :=
  try_catch
    (_ ← needs_recipients; _ ← cast_uuid userId;
     gets (λ s, feed_page (count_where (shown_to userId) s.(ns_recipients)) (joined userId s) page pageSize))
    (λ _, _ ← cast_uuid userId;
     gets (λ s, let mine := select (λ n, bool_decide (n.(n_user_id) = userId)) s.(ns_notifications) in
                feed_page (Z.of_nat (length mine)) (map legacy_item mine) page pageSize)).

Definition unread (userId : string) (r : recipient) : bool := shown_to userId r && negb r.(rc_is_read).
Definition getUnreadCount (userId : string) : notify_action Z :=
  try_catch
    (_ ← needs_recipients; _ ← cast_uuid userId; gets (λ s, count_where (unread userId) s.(ns_recipients)))
    (λ _, _ ← cast_uuid userId;
     gets (λ s, count_where (λ n, bool_decide (n.(n_user_id) = userId) && bool_decide (n.(n_status) = "Unread")) s.(ns_notifications))).

(** ** Reading marks *)

Definition read_row (now : Z) (r : recipient) : recipient :=
  {| rc_id := r.(rc_id); rc_notification := r.(rc_notification); rc_recipient := r.(rc_recipient); rc_is_read := true;
     rc_read_at := Some now; rc_is_dismissed := r.(rc_is_dismissed); rc_dismissed_at := r.(rc_dismissed_at) |}.
Definition dismissed_row (now : Z) (r : recipient) : recipient :=
  {| rc_id := r.(rc_id); rc_notification := r.(rc_notification); rc_recipient := r.(rc_recipient); rc_is_read := r.(rc_is_read);
     rc_read_at := r.(rc_read_at); rc_is_dismissed := true; rc_dismissed_at := Some now |}.
Definition read_notification (n : notification) : notification :=
  {| n_id := n.(n_id); n_user_id := n.(n_user_id); n_event_type := n.(n_event_type); n_description := n.(n_description);
     n_related_module := n.(n_related_module); n_link := n.(n_link); n_status := "Read"; n_actor_id := n.(n_actor_id);
     n_entity_id := n.(n_entity_id); n_entity_type := n.(n_entity_type); n_data := n.(n_data); n_title := n.(n_title);
     n_date := n.(n_date) |}.

(** [UPDATE notification_recipients SET f WHERE p], with the number of rows. *)
Definition update_recipients (p : recipient → bool) (f : recipient → recipient) : notify_action Z :=
  _ ← needs_recipients; n ← gets (λ s, count_where p s.(ns_recipients));
  _ ← modify (λ s, with_recipients (update_where p f s.(ns_recipients)) s); mret n.
Definition update_notifications (p : notification → bool) (f : notification → notification) : notify_action Z :=
  n ← gets (λ s, count_where p s.(ns_notifications));
  _ ← modify (λ s, with_notifications (update_where p f s.(ns_notifications)) s); mret n.

Definition row_of (notificationId userId : string) (r : recipient) : bool :=
  bool_decide (r.(rc_notification) = notificationId) && bool_decide (r.(rc_recipient) = userId).
Definition legacy_row_of (notificationId userId : string) (n : notification) : bool :=
  bool_decide (n.(n_id) = notificationId) && bool_decide (n.(n_user_id) = userId).

Definition markAsRead (now : Z) (notificationId userId : string) : notify_action bool :=
  _ ← try_catch
    (_ ← cast_uuid notificationId; _ ← cast_uuid userId; update_recipients (row_of notificationId userId) (read_row now))
    (λ _, _ ← cast_uuid notificationId; _ ← cast_uuid userId;
      update_notifications (legacy_row_of notificationId userId) read_notification);
  mret true.

(** The count a statement reports, through the driver. *)
Definition reported (driver : Z → js_value) (n : Z) : js_num := affectedCount (Some (driver n)) None None.

Definition unread_of (userId : string) (r : recipient) : bool := bool_decide (r.(rc_recipient) = userId) && negb r.(rc_is_read).
Definition legacy_unread_of (userId : string) (n : notification) : bool :=
  bool_decide (n.(n_user_id) = userId) && bool_decide (n.(n_status) = "Unread").

Definition markManyRead (driver : Z → js_value) (now : Z) (notificationIds : list string) (userId : string) : notify_action js_num :=
  if bool_decide (notificationIds = []) then mret (int 0)
  else try_catch
    (_ ← cast_uuid userId; _ ← for_each cast_uuid notificationIds;
     n ← update_recipients (λ r, unread_of userId r && bool_decide (r.(rc_notification) ∈ notificationIds)) (read_row now);
     mret (reported driver n))
    (λ _, _ ← cast_uuid userId; _ ← for_each cast_uuid notificationIds;
     n ← update_notifications (λ n, legacy_unread_of userId n && bool_decide (n.(n_id) ∈ notificationIds)) read_notification;
     mret (reported driver n)).

Definition markAllRead (driver : Z → js_value) (now : Z) (userId : string) : notify_action js_num :=
  try_catch
    (_ ← cast_uuid userId; n ← update_recipients (unread_of userId) (read_row now); mret (reported driver n))
    (λ _, _ ← cast_uuid userId; n ← update_notifications (legacy_unread_of userId) read_notification; mret (reported driver n)).

Definition dismiss (now : Z) (notificationId userId : string) : notify_action bool :=
  _ ← try_catch
    (_ ← cast_uuid notificationId; _ ← cast_uuid userId;
     _ ← update_recipients (row_of notificationId userId) (dismissed_row now); mret tt)
    (λ _, _ ← cast_uuid notificationId; _ ← cast_uuid userId;
      modify (λ s, with_notifications (delete_where (legacy_row_of notificationId userId) s.(ns_notifications)) s));
  mret true.

(** ** Creating *)

Definition active_ids (s : notify_state) : list string := map us_id (select (λ u, bool_decide (u.(us_status) = "Active")) s.(ns_users)).
(** The recipients without the actor. *)
Definition targets (recipientIds : recipients) (actorId : option string) (s : notify_state) : list string :=
  let l := match recipientIds with All => active_ids s | Many l => l | One id => [id] end in
  match set_text actorId with
  | Some a => List.filter (λ id, negb (bool_decide (id = a))) l
  | None => l
  end.

Definition insert_notification (now : Z) (type message module link : string) (o : CreateNotificationOptions)
    (title : option string) (uid : string) : notify_action string :=
  let actor := set_text o.(co_actorId) in
  let entity := set_text o.(co_entityId) in
  _ ← cast_uuid_opt actor; _ ← cast_uuid_opt entity; _ ← cast_uuid uid;
  id ← new_key;
  _ ← modify (λ s, with_notifications (s.(ns_notifications) ++ [{|
    n_id := id; n_user_id := uid; n_event_type := type; n_description := message; n_related_module := module; n_link := link;
    n_status := "Unread"; n_actor_id := actor; n_entity_id := entity; n_entity_type := set_text o.(co_entityType);
    n_data := match o.(co_data) with Some d => stringify d | None => "{}" end; n_title := title; n_date := now |}]) s);
  mret id.

(** The recipient must be a user: the column is a foreign key. *)
Definition insert_recipient (nid uid : string) : notify_action unit :=
  _ ← needs_recipients; _ ← cast_uuid uid;
  s ← get_state;
  _ ← ensure (bool_decide (uid ∈ map us_id s.(ns_users))) "violates foreign key constraint";
  id ← new_key;
  modify (λ s, with_recipients (s.(ns_recipients) ++ [{| rc_id := id; rc_notification := nid; rc_recipient := uid;
    rc_is_read := false; rc_read_at := None; rc_is_dismissed := false; rc_dismissed_at := None |}]) s).

(** The transaction: one notification, its recipients, then a row of the older scheme for every further one. *)
Definition insert_all (now : Z) (type message module link : string) (o : CreateNotificationOptions) (l : list string) :
    notify_action string :=
  let title := set_text o.(co_title) in
  nid ← insert_notification now type message module link o title (default "" (head l));
  _ ← for_each (insert_recipient nid) l;
  _ ← for_each (λ uid, _ ← insert_notification now type message module link o title uid; mret tt) (tail l);
  mret nid.

Definition send_live (wss : option server) (l : list string) (nid : string) : notify_action unit :=
  match wss with
  | Some w => modify (λ s, with_sent (s.(ns_sent) ++ map (λ c, (c, nid)) (broadcastToUsers l w)) s)
  | None => mret tt
  end.

Definition create (now : Z) (recipientIds : recipients) (type message module link : string) (o : CreateNotificationOptions) :
    notify_action bool :=
  l ← gets (targets recipientIds o.(co_actorId));
  if bool_decide (l = []) then mret true
  else
    _ ← try_catch
      (nid ← transaction (λ old _, old) (insert_all now type message module link o l); send_live o.(co_wss) l nid)
      (λ _, for_each (λ uid, try_catch (_ ← insert_notification now type message module link o None uid; mret tt)
                                (λ _, mret tt)) l);
    mret true.

Definition getAdminIds (s : notify_state) : list string :=
  map us_id (select (λ u, bool_decide (u.(us_role) = "Admin") && bool_decide (u.(us_status) = "Active")) s.(ns_users)).
Definition getUserIdByName (name : string) (s : notify_state) : option string :=
  us_id <$> select_one (λ u, bool_decide (u.(us_name) = name) || bool_decide (u.(us_username) = name)) s.(ns_users).
Definition getUserIdsByDepartment (department : string) (s : notify_state) : list string :=
  map us_id (select (λ u, bool_decide (u.(us_department) = Some department) && bool_decide (u.(us_status) = "Active")) s.(ns_users)).
End notifications.

(** ** The routes of the reading marks *)

(** [/^[0-9a-f]{8}-[0-9a-f]{4}-[0-9a-f]{4}-[0-9a-f]{4}-[0-9a-f]{12}$/i] *)
Definition is_hex (c : ascii) : bool := is_digit c || in_range 65 70 c || in_range 97 102 c.
Definition uuid_text (s : string) : bool :=
  match map (map is_hex) (split_chars "-" (chars s)) with
  | [a; b; c; d; e] =>
      forallb id (a ++ b ++ c ++ d ++ e) &&
      bool_decide ((length a, length b, length c, length d, length e) = (8, 4, 4, 4, 12)%nat)
  | _ => false
  end.

Inductive mark_request :=
  | PutMarkRead (body : json)
  | PutMarkAllRead
  | PutRead (id : string)
  | DeleteOne (id : string).

Inductive mark_answer :=
  | BadIds
  | Updated (n : js_num)
  | Success.

(** The ids of the body: [None] when it has no array, or one of its elements is no UUID. *)
Definition mark_ids (body : json) : option (list string) :=
  match json_field "notification_ids" body with
  | Some (JArr l) => mapM (λ v, i ← json_string v; if uuid_text i then Some i else None) l
  | _ => None
  end.

Definition serve_mark (uuid_ok : string → bool) (driver : Z → js_value) (now : Z) (userId : string) (q : mark_request) :
    notify_action mark_answer :=
  match q with
  | PutMarkRead body =>
      match mark_ids body with
      | Some ids => n ← markManyRead uuid_ok driver now ids userId; mret (Updated n)
      | None => mret BadIds
      end
  | PutMarkAllRead => n ← markAllRead uuid_ok driver now userId; mret (Updated n)
  | PutRead id => _ ← markAsRead uuid_ok now id userId; mret Success
  | DeleteOne id => _ ← dismiss uuid_ok now id userId; mret Success
  end.

(** ** What a notification leaves in the tables *)

Section created.
Context (fresh : nat → string) (uuid_ok : string → bool).
Context (fresh_inj : ∀ a b, fresh a = fresh b → a = b).

(** Keys are unique and were generated; recipients name existing notifications. *)
Record tables_ok (s : notify_state) : Prop := {
  tk_nodup : NoDup (map n_id s.(ns_notifications));
  tk_made : ∀ n, n ∈ s.(ns_notifications) → ∃ k, (k < s.(ns_next))%nat ∧ n.(n_id) = fresh k;
  tk_foreign : ∀ r, r ∈ s.(ns_recipients) → r.(rc_notification) ∈ map n_id s.(ns_notifications) }.

Definition opt_uuid (id : option string) : Prop := match set_text id with Some i => uuid_ok i = true | None => True end.

(** What a delivery to [l] needs. *)
Record deliverable (o : CreateNotificationOptions) (l : list string) (s : notify_state) : Prop := {
  dv_tables : s.(ns_two_tables) = true;
  dv_actor : opt_uuid o.(co_actorId);
  dv_entity : opt_uuid o.(co_entityId);
  dv_users : ∀ uid, uid ∈ l → uuid_ok uid = true ∧ uid ∈ map us_id s.(ns_users) }.

(** The row an insertion adds. *)
Definition row (now : Z) (type message module link : string) (o : CreateNotificationOptions) (title : option string)
    (uid id : string) : notification :=
  {| n_id := id; n_user_id := uid; n_event_type := type; n_description := message; n_related_module := module; n_link := link;
     n_status := "Unread"; n_actor_id := set_text o.(co_actorId); n_entity_id := set_text o.(co_entityId);
     n_entity_type := set_text o.(co_entityType);
     n_data := match o.(co_data) with Some d => stringify d | None => "{}" end; n_title := title; n_date := now |}.

Definition add_notification (n : notification) (s : notify_state) : notify_state :=
  with_notifications (s.(ns_notifications) ++ [n]) (with_next (S s.(ns_next)) s).

Lemma cast_opt_run id s : cast_uuid_opt uuid_ok (set_text id) s = (Ok tt, s) ∧ opt_uuid id ∨
  (∃ e, cast_uuid_opt uuid_ok (set_text id) s = (Throw e, s)) ∧ ¬ opt_uuid id.
Proof.
  unfold cast_uuid_opt, opt_uuid, cast_uuid, ensure. destruct (set_text id) as [i|]; [|by left].
  destruct (uuid_ok i); [by left|]. right. split; [by eexists|done].
Qed.

Lemma insert_notification_run now type message module link o title uid s :
  insert_notification fresh uuid_ok now type message module link o title uid s =
    (Ok (fresh s.(ns_next)), add_notification (row now type message module link o title uid (fresh s.(ns_next))) s) ∧
    opt_uuid o.(co_actorId) ∧ opt_uuid o.(co_entityId) ∧ uuid_ok uid = true ∨
  (∃ e, insert_notification fresh uuid_ok now type message module link o title uid s = (Throw e, s)) ∧
    ¬ (opt_uuid o.(co_actorId) ∧ opt_uuid o.(co_entityId) ∧ uuid_ok uid = true).
Proof.
  unfold insert_notification, mbind, action_bind.
  destruct (cast_opt_run o.(co_actorId) s) as [[-> Ha]|[[e ->] Ha]]; [|right; split; [by eexists|by intros [? _]]].
  destruct (cast_opt_run o.(co_entityId) s) as [[-> He]|[[e ->] He]]; [|right; split; [by eexists|by intros (_ & ? & _)]].
  unfold cast_uuid, ensure. destruct (uuid_ok uid) eqn:Hu; [left|right]; [by split_and!|].
  split; [by eexists|by intros (_ & _ & ?)].
Qed.

(** The recipients of one notification. *)
Definition new_recipients (nid : string) (k : nat) (l : list string) : list recipient :=
  imap (λ i uid, {| rc_id := fresh (k + i); rc_notification := nid; rc_recipient := uid; rc_is_read := false; rc_read_at := None;
    rc_is_dismissed := false; rc_dismissed_at := None |}) l.

Definition can_receive (s : notify_state) (uid : string) : Prop :=
  s.(ns_two_tables) = true ∧ uuid_ok uid = true ∧ uid ∈ map us_id s.(ns_users).

Lemma insert_recipient_run nid uid s :
  insert_recipient fresh uuid_ok nid uid s =
    (Ok tt, with_recipients (s.(ns_recipients) ++ new_recipients nid s.(ns_next) [uid]) (with_next (S s.(ns_next)) s)) ∧
    can_receive s uid ∨
  (∃ e, insert_recipient fresh uuid_ok nid uid s = (Throw e, s)) ∧ ¬ can_receive s uid.
Proof.
  unfold insert_recipient, needs_recipients, cast_uuid, ensure, new_key, mbind, action_bind, mret, action_ret, get_state, can_receive.
  cbn beta iota. destruct (ns_two_tables s) eqn:Ht; [|right; split; [by eexists|by intros [? _]]].
  destruct (uuid_ok uid) eqn:Hu; [|right; split; [by eexists|by intros (_ & ? & _)]].
  cbn beta iota. case_bool_decide as Hin; [left|right].
  - split; [|done]. unfold modify, new_recipients. cbn. by rewrite Nat.add_0_r.
  - split; [by eexists|by intros (_ & _ & ?)].
Qed.

Lemma new_recipients_cons nid k uid l : new_recipients nid k (uid :: l) = new_recipients nid k [uid] ++ new_recipients nid (S k) l.
Proof.
  unfold new_recipients. cbn. f_equal. apply imap_ext. intros i x _. cbn. do 2 f_equal. lia.
Qed.

Lemma insert_recipients_run nid l : ∀ s,
  for_each (insert_recipient fresh uuid_ok nid) l s =
    (Ok tt, with_recipients (s.(ns_recipients) ++ new_recipients nid s.(ns_next) l) (with_next (s.(ns_next) + length l) s)) ∧
    (∀ uid, uid ∈ l → can_receive s uid) ∨
  (∃ e s', for_each (insert_recipient fresh uuid_ok nid) l s = (Throw e, s')) ∧ ¬ (∀ uid, uid ∈ l → can_receive s uid).
Proof.
  induction l as [|uid l IH]; intros s.
  { left. split; [|by intros ? ?%not_elem_of_nil]. cbn. unfold mret, action_ret, new_recipients. cbn.
    rewrite app_nil_r, Nat.add_0_r. by destruct s. }
  cbn [for_each]. unfold mbind, action_bind.
  destruct (insert_recipient_run nid uid s) as [[-> Hu]|[[e ->] Hu]].
  2:{ right. split; [by eexists _, _|]. intros H. apply Hu, H. by left. }
  destruct (IH (with_recipients (s.(ns_recipients) ++ new_recipients nid s.(ns_next) [uid]) (with_next (S s.(ns_next)) s)))
    as [(-> & Hall)|((e & s' & ->) & Hn)].
  - left. split; [|intros x [->|Hx]%elem_of_cons; [done|by apply Hall]].
    cbn [ns_recipients ns_next with_recipients with_next]. rewrite (new_recipients_cons nid (ns_next s) uid l), app_assoc.
    unfold with_recipients, with_next. cbn. do 2 f_equal. lia.
  - right. split; [by eexists _, _|]. intros H. apply Hn. intros x Hx. apply H. by right.
Qed.

(** The state after insertions into [notifications] alone. *)
Definition extended (s s' : notify_state) : Prop :=
  ∃ rows n, s' = with_notifications (s.(ns_notifications) ++ rows) (with_next n s) ∧ (s.(ns_next) ≤ n)%nat ∧ NoDup (map n_id rows) ∧
    ∀ r, r ∈ rows → ∃ k, (s.(ns_next) ≤ k < n)%nat ∧ r.(n_id) = fresh k.

Lemma extended_refl s : extended s s.
Proof. exists [], s.(ns_next). rewrite app_nil_r. split_and!; [by destruct s|lia|constructor|by intros ? ?%not_elem_of_nil]. Qed.

Lemma extended_trans s1 s2 s3 : extended s1 s2 → extended s2 s3 → extended s1 s3.
Proof.
  intros (l1 & n1 & -> & H1 & Hnd1 & Hk1) (l2 & n2 & -> & H2 & Hnd2 & Hk2). cbn in H2, Hk2. exists (l1 ++ l2), n2. split_and!.
  - cbn. by rewrite app_assoc.
  - lia.
  - rewrite map_app. apply NoDup_app. split_and!; [done| |done].
    intros x (a & -> & Ha)%list_elem_of_fmap (b & Hab & Hb)%list_elem_of_fmap.
    destruct (Hk1 a Ha) as (ka & Hka & Ea), (Hk2 b Hb) as (kb & Hkb & Eb). rewrite Ea, Eb in Hab. apply fresh_inj in Hab. lia.
  - intros r [Hr|Hr]%elem_of_app; [destruct (Hk1 r Hr) as (k & ? & ?)|destruct (Hk2 r Hr) as (k & ? & ?)]; exists k; split; (lia || done).
Qed.

Lemma extended_add n s : n.(n_id) = fresh s.(ns_next) → extended s (add_notification n s).
Proof.
  intros Hn. exists [n], (S s.(ns_next)). split_and!; [done|lia|apply NoDup_singleton|].
  intros r ->%list_elem_of_singleton. exists s.(ns_next). split; [lia|done].
Qed.

Lemma insert_extended now type message module link o title uid s :
  extended s (insert_notification fresh uuid_ok now type message module link o title uid s).2.
Proof.
  destruct (insert_notification_run now type message module link o title uid s) as [[-> _]|[[e ->] _]];
    [by apply extended_add|apply extended_refl].
Qed.

Lemma legacy_run now type message module link o l : ∀ s, ∃ s',
  for_each (λ uid, try_catch (_ ← insert_notification fresh uuid_ok now type message module link o None uid; mret tt)
                     (λ _, mret tt)) l s = (Ok tt, s') ∧ extended s s'.
Proof.
  induction l as [|uid l IH]; intros s; [exists s; split; [done|apply extended_refl]|]. cbn [for_each].
  pose proof (insert_extended now type message module link o None uid s) as Hx.
  unfold mbind, action_bind, try_catch, mret, action_ret in *.
  destruct (insert_notification _ _ _ _ _ _ _ _ _ _ s) as [[id|e] s1]; cbn in Hx |- *;
    destruct (IH s1) as (s' & -> & Hs'); exists s'; (split; [done|by eapply extended_trans]).
Qed.

Lemma further_run now type message module link o title l : opt_uuid o.(co_actorId) → opt_uuid o.(co_entityId) → ∀ s,
  (∀ uid, uid ∈ l → uuid_ok uid = true) → ∃ s',
  for_each (λ uid, _ ← insert_notification fresh uuid_ok now type message module link o title uid; mret tt) l s = (Ok tt, s') ∧ extended s s'.
Proof.
  intros Ha He. induction l as [|uid l IH]; intros s Hl; [exists s; split; [done|apply extended_refl]|]. cbn [for_each].
  pose proof (insert_extended now type message module link o title uid s) as Hx. unfold mbind, action_bind.
  destruct (insert_notification_run now type message module link o title uid s) as [[Hrun _]|[_ Hn]].
  2:{ destruct Hn. split_and!; [done..|]. apply Hl. by left. }
  rewrite Hrun in *. unfold mret, action_ret in *.
  destruct (IH (add_notification (row now type message module link o title uid (fresh (ns_next s))) s)) as (s' & Hrest & Hs').
  { intros x Hx'. apply Hl. by right. }
  unfold mbind, action_bind, mret, action_ret in Hrest. rewrite Hrest. exists s'. split; [done|]. by eapply extended_trans.
Qed.

(** The transaction succeeds exactly for what is deliverable. *)
Lemma insert_all_run now type message module link o l s : l ≠ [] →
  (∃ s', let nid := fresh s.(ns_next) in
     insert_all fresh uuid_ok now type message module link o l s = (Ok nid, s') ∧ deliverable o l s ∧
     ∃ s1, s1 = add_notification (row now type message module link o (set_text o.(co_title)) (default "" (head l)) nid) s ∧
       extended (with_recipients (s.(ns_recipients) ++ new_recipients nid (S s.(ns_next)) l) (with_next (S s.(ns_next) + length l) s1)) s') ∨
  (∃ e s', insert_all fresh uuid_ok now type message module link o l s = (Throw e, s')) ∧ ¬ deliverable o l s.
Proof.
  intros Hl. unfold insert_all. unfold mbind, action_bind.
  destruct (insert_notification_run now type message module link o (set_text o.(co_title)) (default "" (head l)) s)
    as [(-> & Ha & He & Hu)|[[e ->] Hn]].
  2:{ right. split; [by eexists _, _|]. intros []. apply Hn. split_and!; [done..|].
      destruct l as [|u l]; [done|]. by apply dv_users0; left. }
  set (s1 := add_notification _ s). cbn beta iota.
  destruct (insert_recipients_run (fresh s.(ns_next)) l s1) as [(-> & Hall)|((e & s' & ->) & Hn)].
  2:{ right. split; [by eexists _, _|]. intros []. apply Hn. intros uid Hin. split_and!; [done|by apply dv_users0..]. }
  destruct (further_run now type message module link o (set_text o.(co_title)) (tail l) Ha He
    (with_recipients (ns_recipients s1 ++ new_recipients (fresh (ns_next s)) (ns_next s1) l) (with_next (ns_next s1 + length l) s1)))
    as (s' & Hrun & Hs').
  { intros uid Hin. apply Hall. destruct l; [done|]. by right. }
  unfold mbind, action_bind in Hrun. rewrite Hrun. left. exists s'. split_and!; [done| |by exists s1].
  split; [|done|done|].
  - destruct l as [|u l]; [done|]. by destruct (Hall u) as (? & _); [left|].
  - intros uid Hin. destruct (Hall uid Hin) as (_ & ? & ?). done.
Qed.

Lemma extended_ok s s' : tables_ok s → extended s s' → tables_ok s'.
Proof.
  intros [] (rows & n & -> & Hn & Hnd & Hk). split; cbn.
  - rewrite map_app. apply NoDup_app. split_and!; [done| |done].
    intros x (a & -> & Ha)%list_elem_of_fmap (b & Hab & Hb)%list_elem_of_fmap.
    destruct (tk_made0 a Ha) as (ka & Hka & Ea), (Hk b Hb) as (kb & Hkb & Eb). rewrite Ea, Eb in Hab. apply fresh_inj in Hab. lia.
  - intros r [Hr|Hr]%elem_of_app; [destruct (tk_made0 r Hr) as (k & ? & ?)|destruct (Hk r Hr) as (k & ? & ?)]; exists k; split; (lia || done).
  - intros r Hr. rewrite map_app. apply elem_of_app. left. auto.
Qed.

Lemma flat_map_ext_in {A B} (f g : A → list B) l : (∀ x, x ∈ l → f x = g x) → flat_map f l = flat_map g l.
Proof.
  induction l as [|x l IH]; intros H; [done|]. cbn. rewrite (H x) by by left. f_equal. apply IH. intros y Hy. apply H. by right.
Qed.

Lemma joined_extended v s s' : tables_ok s → extended s s' → joined v s' = joined v s.
Proof.
  intros [] (rows & n & -> & _ & _ & Hk). unfold joined. cbn. apply flat_map_ext_in.
  intros r [Hr _]%elem_of_select. f_equal. unfold select. rewrite List.filter_app. rewrite (proj2 (select_nil _ rows)); [apply app_nil_r|].
  intros x Hx. apply bool_decide_eq_false. intros Heq. apply tk_foreign0, list_elem_of_fmap in Hr as (y & Hy & Hin).
  destruct (tk_made0 y Hin) as (ky & ? & Ey), (Hk x Hx) as (kx & ? & Ex). rewrite Hy, Ey, Ex in Heq. apply fresh_inj in Heq. lia.
Qed.

(** What a reader sees of an item. *)
Definition item_text (i : NotificationFeedItem) : string * string * string * string * option string * bool :=
  (i.(fi_event_type), i.(fi_description), i.(fi_related_module), i.(fi_link), i.(fi_title), i.(fi_is_read)).
Definition occurrences (v : string) (l : list string) : nat := length (select (λ u, bool_decide (u = v)) l).

(** The tables after one delivered notification. *)
Definition delivered (n : notification) (l : list string) (m : nat) (s : notify_state) : notify_state :=
  with_recipients (s.(ns_recipients) ++ new_recipients n.(n_id) (S s.(ns_next)) l) (with_next m (add_notification n s)).

Lemma elem_of_new_recipients nid k l r : r ∈ new_recipients nid k l → r.(rc_notification) = nid.
Proof. unfold new_recipients. intros (i & x & -> & _)%elem_of_lookup_imap. done. Qed.

Lemma delivered_ok n l m s : tables_ok s → n.(n_id) = fresh s.(ns_next) → (S s.(ns_next) ≤ m)%nat → tables_ok (delivered n l m s).
Proof.
  intros Hok Hn Hm. pose proof (extended_ok _ _ Hok (extended_add n s Hn)) as []. split; cbn in *.
  - done.
  - intros x Hx. destruct (tk_made0 x Hx) as (k & ? & ?). exists k. split; [lia|done].
  - intros r [Hr|Hr%elem_of_new_recipients]%elem_of_app; [auto|]. rewrite Hr, map_app. apply elem_of_app. right. by left.
Qed.

Lemma new_items v nid notifications n k l : n.(n_id) = nid → NoDup (map n_id notifications) → n ∈ notifications →
  map item_text (flat_map (λ r, map (item_of r) (select (λ n, bool_decide (n.(n_id) = r.(rc_notification))) notifications))
    (select (shown_to v) (new_recipients nid k l))) =
  replicate (occurrences v l) (n.(n_event_type), n.(n_description), n.(n_related_module), n.(n_link), n.(n_title), false).
Proof.
  intros Hn Hnd Hin.
  assert (Hsel : select (λ x, bool_decide (x.(n_id) = nid)) notifications = [n]).
  { subst nid. clear - Hnd Hin. unfold select. induction notifications as [|x l IH]; [by apply not_elem_of_nil in Hin|]. cbn in *.
    apply NoDup_cons in Hnd as [Hx Hnd]. apply elem_of_cons in Hin as [->|Hin].
    - rewrite bool_decide_eq_true_2 by done. f_equal. apply (select_nil _ l). intros y Hy. apply bool_decide_eq_false.
      intros Heq. apply Hx. rewrite <- Heq. by apply list_elem_of_fmap_2.
    - rewrite bool_decide_eq_false_2; [by apply IH|]. intros Heq. apply Hx. rewrite Heq. by apply list_elem_of_fmap_2. }
  revert k. induction l as [|u l IH]; intros k; [done|]. rewrite new_recipients_cons. unfold select in *. rewrite List.filter_app, flat_map_app, map_app, IH.
  unfold occurrences, new_recipients, shown_to, select. cbn. rewrite andb_true_r.
  destruct (bool_decide (u = v)); [|done]. cbn. rewrite app_nil_r. rewrite Hsel. done.
Qed.

Lemma joined_delivered v n l m s : tables_ok s → n.(n_id) = fresh s.(ns_next) → (S s.(ns_next) ≤ m)%nat →
  map item_text (joined v (delivered n l m s)) = map item_text (joined v s) ++
    replicate (occurrences v l) (n.(n_event_type), n.(n_description), n.(n_related_module), n.(n_link), n.(n_title), false).
Proof.
  intros Hok Hn Hm. pose proof (extended_add n s Hn) as Hext. pose proof (extended_ok _ _ Hok Hext) as [].
  rewrite <- (joined_extended v s _ Hok Hext). unfold joined, delivered. cbn [ns_notifications ns_recipients with_recipients with_next add_notification with_notifications].
  unfold select at 2. rewrite List.filter_app, flat_map_app, map_app. f_equal. apply new_items; [done|done|].
  cbn. apply elem_of_app. right. by left.
Qed.

(** [create] returns true; either all recipients got their rows, or only the older table grew. *)
Lemma create_cases now rs type message module link o s :
  let l := targets rs o.(co_actorId) s in
  ∃ s', create fresh uuid_ok now rs type message module link o s = (Ok true, s') ∧
    (l = [] ∧ s' = s ∨
     l ≠ [] ∧ deliverable o l s ∧
       (∃ s1, extended (delivered (row now type message module link o (set_text o.(co_title)) (default "" (head l)) (fresh s.(ns_next)))
                 l (S s.(ns_next) + length l) s) s1 ∧
          s' = with_sent (s.(ns_sent) ++ match o.(co_wss) with
                 | Some w => map (λ c, (c, fresh s.(ns_next))) (broadcastToUsers l w) | None => [] end) s1) ∨
     l ≠ [] ∧ ¬ deliverable o l s ∧ extended s s').
Proof.
  cbn zeta. unfold create, gets, mbind, action_bind. set (l := targets rs _ s).
  destruct (decide (l = [])) as [Hl|Hl]; [rewrite Hl; exists s; split; [done|by left]|].
  rewrite bool_decide_eq_false_2 by done. unfold try_catch at 1, transaction.
  destruct (insert_all_run now type message module link o l s Hl) as [(s1 & Hrun & Hd & s0 & -> & Hext)|((e & s1 & Hrun) & Hn)]; rewrite Hrun.
  - assert (Hsent : s1.(ns_sent) = s.(ns_sent)) by by destruct Hext as (? & ? & -> & _).
    exists (with_sent (s.(ns_sent) ++ match o.(co_wss) with
      | Some w => map (λ c, (c, fresh s.(ns_next))) (broadcastToUsers l w) | None => [] end) s1).
    split; [|right; left; split_and!; [done|done|by exists s1]]. rewrite <- Hsent.
    unfold send_live. destruct (co_wss o); unfold modify, mret, action_ret; [done|]. rewrite app_nil_r. by destruct s1.
  - destruct (legacy_run now type message module link o l s) as (s' & Hleg & Hext).
    unfold mbind, action_bind in Hleg. rewrite Hleg. exists s'. split; [done|]. right. right. by split_and!.
Qed.

(** What changes in the feeds when everybody can be reached. *)
Lemma create_delivers now rs type message module link o s : let l := targets rs o.(co_actorId) s in
  tables_ok s → deliverable o l s →
  ∃ s', create fresh uuid_ok now rs type message module link o s = (Ok true, s') ∧ tables_ok s' ∧
    s'.(ns_users) = s.(ns_users) ∧ s'.(ns_two_tables) = s.(ns_two_tables) ∧
    (∀ v, map item_text (joined v s') = map item_text (joined v s) ++
       replicate (occurrences v l) (type, message, module, link, set_text o.(co_title), false)) ∧
    ∃ nid, s'.(ns_sent) = s.(ns_sent) ++
      match o.(co_wss) with Some w => map (λ c, (c, nid)) (broadcastToUsers l w) | None => [] end.
Proof.
  cbn zeta. intros Hok Hd. destruct (create_cases now rs type message module link o s) as (s' & Hrun & Hcases). exists s'. split; [done|].
  set (l := targets rs _ s) in *. destruct Hcases as [[Hl ->]|[(_ & _ & s1 & Hext & ->)|(_ & Hn & Hext)]]; [..|done].
  - rewrite Hl. split_and!; [done..|intros v; by rewrite app_nil_r|]. exists "".
    destruct (co_wss o) as [w|]; [|by rewrite app_nil_r]. unfold broadcastToUsers.
    rewrite (proj2 (select_nil _ _)); [by rewrite app_nil_r|]. intros c _. apply andb_false_iff. right.
    apply bool_decide_eq_false, not_elem_of_nil.
  - set (n := row _ _ _ _ _ _ _ _ _) in Hext. set (m := (S (ns_next s) + length l)%nat) in Hext.
    assert (Hok1 : tables_ok (delivered n l m s)) by (apply delivered_ok; [done|done|unfold m; lia]).
    pose proof (extended_ok _ _ Hok1 Hext) as Hok2. split; [by destruct Hok2; split|].
    split; [by destruct Hext as (? & ? & -> & _)|]. split; [by destruct Hext as (? & ? & -> & _)|]. split; [|by eexists].
    intros v. change (joined v (with_sent _ s1)) with (joined v s1). rewrite (joined_extended v _ _ Hok1 Hext).
    apply (joined_delivered v n l m s); [done|done|unfold m; lia].
Qed.

(** a notification reaches all its recipients or none of them: whatever fails, [create]
    answers true; when every recipient is a user the feed of each shows it once more for
    every time he is named, unread, the feeds of others stay, and it is sent to the open
    sockets of the recipients; otherwise no feed changes and nothing is sent. *)
Theorem notification_reaches_all_or_none now rs type message module link o s (Hok : tables_ok s) :
  let l := targets rs o.(co_actorId) s in
  exists s', create fresh uuid_ok now rs type message module link o s = (Ok true, s') /\ tables_ok s' /\
    (deliverable o l s ->
       (forall v, map item_text (joined v s') = map item_text (joined v s) ++
          replicate (occurrences v l) (type, message, module, link, set_text o.(co_title), false)) /\
       exists nid, s'.(ns_sent) = s.(ns_sent) ++
         match o.(co_wss) with Some w => map (λ c, (c, nid)) (broadcastToUsers l w) | None => [] end) /\
    (~ deliverable o l s -> (forall v, joined v s' = joined v s) /\ s'.(ns_sent) = s.(ns_sent)).
Proof.
  cbn zeta. destruct (create_cases now rs type message module link o s) as (s' & Hrun & Hcases). exists s'. split; [done|].
  pose proof (create_delivers now rs type message module link o s Hok) as Hd. cbn zeta in Hd. rewrite Hrun in Hd.
  set (l := targets rs _ s) in *.
  assert (Hdone : deliverable o l s → tables_ok s' ∧ (∀ v, map item_text (joined v s') = map item_text (joined v s) ++
      replicate (occurrences v l) (type, message, module, link, set_text o.(co_title), false)) ∧
    ∃ nid, s'.(ns_sent) = s.(ns_sent) ++ match o.(co_wss) with Some w => map (λ c, (c, nid)) (broadcastToUsers l w) | None => [] end).
  { intros H. destruct (Hd H) as (s2 & [= <-] & H1 & _ & _ & H2). by split. }
  destruct Hcases as [[Hl ->]|[(_ & H & _)|(_ & Hn & Hext)]].
  - split_and!; [done|intros H; by apply Hdone|done].
  - split_and!; [by apply Hdone|intros _; by apply Hdone|by intros []].
  - split_and!; [by eapply extended_ok|by intros|]. intros _. split; [intros v; by apply joined_extended|].
    by destruct Hext as (? & ? & -> & _).
Qed.

(** ** What the marks change *)

(** Only rows of the user, and of each only its marks. *)
Definition marks_of (u : string) (s s' : notify_state) : Prop :=
  ∃ p f, s' = with_recipients (update_where p f s.(ns_recipients)) s ∧
    (∀ r, p r = true → r.(rc_recipient) = u) ∧ (∀ r, (f r).(rc_recipient) = r.(rc_recipient)).

Lemma marks_refl u s : marks_of u s s.
Proof.
  exists (λ _, false), id. split_and!; [|done|done]. unfold update_where. cbn. rewrite map_id. by destruct s.
Qed.

Lemma marks_joined u v s s' : marks_of u s s' → v ≠ u → joined v s' = joined v s.
Proof.
  intros (p & f & -> & Hp & Hf) Hv. unfold joined. cbn. f_equal. unfold select, update_where.
  induction (ns_recipients s) as [|r l IH]; [done|]. cbn. rewrite IH. destruct (p r) eqn:Hr; [|done].
  assert (∀ r', rc_recipient r' = u → shown_to v r' = false) as Hout.
  { intros r' Hr'. unfold shown_to. by rewrite bool_decide_eq_false_2 by congruence. }
  by rewrite !Hout by (rewrite ?Hf; auto).
Qed.

Lemma cast_run id s : cast_uuid uuid_ok id s = if uuid_ok id then (Ok tt, s) else (Throw "invalid input syntax for type uuid", s).
Proof. unfold cast_uuid, ensure. by destruct (uuid_ok id). Qed.

Lemma casts_run ids s : for_each (cast_uuid uuid_ok) ids s =
  if forallb uuid_ok ids then (Ok tt, s) else (Throw "invalid input syntax for type uuid", s).
Proof.
  induction ids as [|i ids IH]; [done|]. cbn. unfold mbind, action_bind. rewrite cast_run. destruct (uuid_ok i); [by rewrite IH|done].
Qed.

Lemma update_recipients_run p f s : s.(ns_two_tables) = true →
  update_recipients p f s = (Ok (count_where p s.(ns_recipients)), with_recipients (update_where p f s.(ns_recipients)) s).
Proof. intros Ht. unfold update_recipients, needs_recipients, ensure. run_action. by rewrite Ht. Qed.

Lemma marks_update u p f s : (∀ r, p r = true → r.(rc_recipient) = u) → (∀ r, (f r).(rc_recipient) = r.(rc_recipient)) →
  marks_of u s (with_recipients (update_where p f s.(ns_recipients)) s).
Proof. intros Hp Hf. by exists p, f. Qed.

Ltac cast_steps :=
  repeat (rewrite ?cast_run, ?casts_run; match goal with
    | H : uuid_ok ?i = _ |- context [if uuid_ok ?i then _ else _] => rewrite H
    | H : forallb uuid_ok ?i = _ |- context [if forallb uuid_ok ?i then _ else _] => rewrite H
    | |- context [if uuid_ok ?i then _ else _] => let H := fresh "Hcast" in destruct (uuid_ok i) eqn:H
    | |- context [if forallb uuid_ok ?i then _ else _] => let H := fresh "Hcast" in destruct (forallb uuid_ok i) eqn:H
    end).

(** the marks of a user are his own: whatever he marks or dismisses, nobody else's feed
    changes and no notification does; and after he marked all as read, his feed lists
    the same items, all of them read, and none is counted as unread. *)
Theorem marks_stay_private driver now u q s (Ht : s.(ns_two_tables) = true) :
  let s' := (serve_mark uuid_ok driver now u q s).2 in
  (forall v, v <> u -> joined v s' = joined v s) /\ s'.(ns_notifications) = s.(ns_notifications) /\
  (q = PutMarkAllRead -> uuid_ok u = true ->
     map fi_id (joined u s') = map fi_id (joined u s) /\ (forall i, i ∈ joined u s' -> i.(fi_is_read) = true) /\
     getUnreadCount uuid_ok u s' = (Ok 0, s')).
Proof.
  cbn zeta.
  assert (Hm : marks_of u s (serve_mark uuid_ok driver now u q s).2).
  { assert (Hrow : ∀ id r, row_of id u r = true → r.(rc_recipient) = u) by (intros id r; unfold row_of; intros H; by bools).
    assert (Hunread : ∀ r, unread_of u r = true → r.(rc_recipient) = u) by (intros r; unfold unread_of; intros H; by bools).
    destruct q as [body| |id|id]; cbn [serve_mark].
    - destruct (mark_ids body) as [ids|]; [|apply marks_refl]. unfold markManyRead.
      destruct (bool_decide (ids = [])); [apply marks_refl|]. unfold try_catch, mbind, action_bind.
      cast_steps; try apply marks_refl. rewrite update_recipients_run by done. apply marks_update; [|done].
      intros r H. bools. auto.
    - unfold markAllRead, try_catch, mbind, action_bind. cast_steps; try apply marks_refl.
      rewrite update_recipients_run by done. by apply marks_update.
    - unfold markAsRead, try_catch, mbind, action_bind. cast_steps; try apply marks_refl.
      rewrite update_recipients_run by done. apply marks_update; [|done]. intros r. apply Hrow.
    - unfold dismiss, try_catch, mbind, action_bind. cast_steps; try apply marks_refl.
      rewrite update_recipients_run by done. apply marks_update; [|done]. intros r. apply Hrow. }
  split_and!.
  - intros v Hv. by eapply marks_joined.
  - by destruct Hm as (p & f & -> & _).
  - intros -> Hu. cbn [serve_mark]. unfold markAllRead, try_catch, mbind, action_bind. rewrite cast_run, Hu.
    rewrite update_recipients_run by done. unfold mret, action_ret. cbn [snd].
    assert (Hall : ∀ r, r ∈ update_where (unread_of u) (read_row now) s.(ns_recipients) → r.(rc_recipient) = u → r.(rc_is_read) = true).
    { intros r (r0 & Hr0 & ->)%elem_of_update_where Hr. destruct (unread_of u r0) eqn:Hun; [done|].
      unfold unread_of in Hun. rewrite bool_decide_eq_true_2 in Hun by done. by destruct (rc_is_read r0). }
    split_and!.
    + unfold joined. cbn [ns_recipients ns_notifications with_recipients]. clear Hall Hm. unfold update_where, select.
      induction (ns_recipients s) as [|r l IH]; [done|]. cbn [map List.filter].
      assert (Hsh : shown_to u (if unread_of u r then read_row now r else r) = shown_to u r) by by destruct (unread_of u r).
      rewrite Hsh. destruct (shown_to u r); [|done]. cbn [flat_map]. rewrite !map_app, IH. f_equal. rewrite !map_map.
      by destruct (unread_of u r).
    + intros i. unfold joined. cbn. intros (r & [Hr Hshown]%List.filter_In & Hi)%list_elem_of_In%in_flat_map.
      apply in_map_iff in Hi as (n & <- & _). cbn. apply Hall; [by apply list_elem_of_In|]. unfold shown_to in Hshown. by bools.
    + unfold getUnreadCount, needs_recipients, try_catch, mbind, action_bind, get_state, ensure, gets, mret, action_ret. cbn. rewrite Ht.
      rewrite cast_run, Hu. f_equal. f_equal. apply count_where_zero. intros r Hr. unfold unread, shown_to.
      destruct (bool_decide (rc_recipient r = u)) eqn:Hru; [|done]. bools. rewrite (Hall r Hr Hru). by rewrite andb_false_r.
Qed.
End created.

(** ** Runs of the definitions *)

Module Feeds.
Definition fresh (k : nat) : string := pretty (N.of_nat k).
Definition uuid_ok (id : string) : bool := negb (bool_decide (id = "")).
Lemma fresh_inj a b : fresh a = fresh b → a = b.
Proof. intros H%(inj pretty). lia. Qed.

Definition account (id status : string) : user :=
  {| us_id := id; us_name := id; us_username := id; us_role := "Auditor"; us_department := None; us_status := status |}.
Definition empty : notify_state :=
  {| ns_users := [account "a" "Active"; account "b" "Active"; account "c" "Suspended"]; ns_notifications := [];
     ns_recipients := []; ns_two_tables := true; ns_next := 0; ns_sent := [] |}.
Definition by_a : CreateNotificationOptions :=
  {| co_actorId := Some "a"; co_entityId := None; co_entityType := None; co_data := None;
     co_wss := Some WebSockets.Sockets.joined; co_title := Some "T" |}.
Definition silent : CreateNotificationOptions :=
  {| co_actorId := None; co_entityId := None; co_entityType := None; co_data := None; co_wss := None; co_title := None |}.
Abbreviation notify rs o s := (create fresh uuid_ok 7 rs "plan_started" "m" "Audit" "/" o s).
Definition feed (u : string) (s : notify_state) : list (string * option string * bool) :=
  map (λ i, (i.(fi_description), i.(fi_title), i.(fi_is_read))) (joined u s).

Lemma feeds_ok : tables_ok fresh empty.
Proof. split; cbn; [constructor|by intros ? ?%not_elem_of_nil..]. Qed.

(** One recipient who is not a user hides the notification from the others, although
    the call answers true and rows of the older scheme are written; who is named twice
    sees it twice; and marking all as read also counts rows that were dismissed. *)
Theorem notification_gaps :
  (let '(r, s) := notify (Many ["b"; "gone"]) silent empty in
   r = Ok true ∧ feed "b" s = [] ∧ map n_user_id s.(ns_notifications) = ["b"; "gone"]) ∧
  feed "b" (notify (Many ["b"; "b"]) silent empty).2 = [("m", None, false); ("m", None, false)] ∧
  (let s := (notify (One "b") silent (notify (One "b") silent empty).2).2 in
   let s1 := (dismiss uuid_ok 8 "0" "b" s).2 in
   (getUnreadCount uuid_ok "b" s1).1 = Ok 1 ∧ (markAllRead uuid_ok number_driver 9 "b" s1).1 = Ok (int 2)).
Proof. vm_compute. repeat split. Qed.
End Feeds.

Lemma notification_reaches_all_or_none_witness :
  ∃ s', Feeds.notify All Feeds.by_a Feeds.empty = (Ok true, s') ∧
    map item_text (joined "b" s') = [("plan_started", "m", "Audit", "/", Some "T", false)] ∧ map item_text (joined "a" s') = [].
Proof.
  destruct (notification_reaches_all_or_none Feeds.fresh Feeds.uuid_ok Feeds.fresh_inj 7 All "plan_started" "m" "Audit" "/"
    Feeds.by_a Feeds.empty Feeds.feeds_ok) as (s' & Hrun & _ & Hd & _).
  destruct Hd as [Hfeed _].
  - split; [done|by vm_compute|done|]. intros uid Huid. vm_compute in Huid. apply list_elem_of_singleton in Huid as ->.
    split; [by vm_compute|]. apply (bool_decide_unpack _). by vm_compute.
  - exists s'. split_and!; [exact Hrun|rewrite Hfeed; by vm_compute..].
Defined.

Lemma marks_stay_private_witness :
  let s := (Feeds.notify (Many ["b"; "c"]) Feeds.silent Feeds.empty).2 in
  let s' := (serve_mark Feeds.uuid_ok number_driver 9 "b" PutMarkAllRead s).2 in
  joined "c" s' = joined "c" s ∧ getUnreadCount Feeds.uuid_ok "b" s' = (Ok 0, s').
Proof.
  cbn zeta.
  destruct (marks_stay_private Feeds.uuid_ok number_driver 9 "b" PutMarkAllRead
    (Feeds.notify (Many ["b"; "c"]) Feeds.silent Feeds.empty).2) as (Hother & _ & Hall); [by vm_compute|].
  split; [by apply Hother|]. by apply Hall.
Defined.
