(* ===== verification/Queues.v ===== *)
(** * Job queues ([queues/queueManager.ts], [queues/notificationQueueService.ts], [queues/workers/notificationWorker.ts])

    The manager with the limit of failed jobs it keeps, the dead letters, and the
    way of a notification through the queue or around it.  BullMQ is not modelled:
    whether it takes a job, and which job it finds under a number, are arguments,
    and a worker is run on the jobs that were taken. *)

From S2P Require Import Prelude JsMap JsStrings JsNumbers Json AuthMiddleware Pagination FileEncryption WebSockets Notifications.
Local Open Scope Z_scope.

(** ** The limit of failed jobs *)

Definition FAILED_RETENTION_MIN : Z := 1.
Definition FAILED_RETENTION_MAX : Z := 100000.
Definition FAILED_RETENTION_DEFAULT : Z := 1000.

Inductive FailedJobRetentionResult :=
  | Limit (limit : Z)
  | Rejected (reason : string).

Definition retention_reason (raw : string) : string :=
  "QUEUE_FAILED_RETENTION must be an integer " +:+ pretty FAILED_RETENTION_MIN +:+ ".." +:+ pretty FAILED_RETENTION_MAX +:+
  "; received " +:+ of_chars [chr 34] +:+ raw +:+ of_chars [chr 34].

Definition parseFailedJobRetention (raw : option string) : FailedJobRetentionResult :=
  match raw with
  | None => Limit FAILED_RETENTION_DEFAULT
  | Some raw =>
      let trimmed := trim raw in
      if bool_decide (trimmed = "") then Limit FAILED_RETENTION_DEFAULT
      else if negb (integer_text trimmed) then Rejected (retention_reason raw)
      else
        let value := parseInt_10 trimmed in
        if negb (isInteger value) || js_lt value (int FAILED_RETENTION_MIN) || js_lt (int FAILED_RETENTION_MAX) value
        then Rejected (retention_reason raw) else Limit (integer_value value)
  end.

(** ** The manager *)

Record ConnectionOptions := {
  cx_host : string; cx_port : Z; cx_password : option string; cx_username : option string; cx_tls : bool }.
Definition local_redis : ConnectionOptions :=
  {| cx_host := "localhost"; cx_port := 6379; cx_password := None; cx_username := None; cx_tls := false |}.

(** What the URL parser finds; [None] when it throws. *)
Record url_parts := { up_hostname : string; up_port : string; up_password : string; up_username : string; up_protocol : string }.

Definition parseRedisUrl (URL : string → option url_parts) (url : string) : ConnectionOptions :=
  if bool_decide (url = "") then local_redis
  else match URL url with
       | Some p => {| cx_host := default "localhost" (set_text (Some p.(up_hostname)));
                      cx_port := integer_value (js_or (parseInt_10 p.(up_port)) 6379);
                      cx_password := set_text (Some p.(up_password)); cx_username := set_text (Some p.(up_username));
                      cx_tls := bool_decide (p.(up_protocol) = "rediss:") |}
       | None => local_redis
       end.

(** Which queues exist, the workers and listeners, and the limit. *)
Record QueueManager := {
  qm_connection : ConnectionOptions; qm_limit : Z; qm_pdf : bool; qm_notifications : bool; qm_dead : bool;
  qm_events : list string; qm_workers : list string; qm_initialized : bool }.

Definition with_limit (n : Z) (q : QueueManager) : QueueManager :=
  {| qm_connection := q.(qm_connection); qm_limit := n; qm_pdf := q.(qm_pdf); qm_notifications := q.(qm_notifications);
     qm_dead := q.(qm_dead); qm_events := q.(qm_events); qm_workers := q.(qm_workers); qm_initialized := q.(qm_initialized) |}.
Definition with_queues (pdf notifications dead initialized : bool) (events workers : list string) (q : QueueManager) : QueueManager :=
  {| qm_connection := q.(qm_connection); qm_limit := q.(qm_limit); qm_pdf := pdf; qm_notifications := notifications;
     qm_dead := dead; qm_events := events; qm_workers := workers; qm_initialized := initialized |}.

(** [setFailedJobRetention]: a rejected value leaves the limit. *)
Definition setFailedJobRetention (raw : option string) (q : QueueManager) : FailedJobRetentionResult * QueueManager :=
  let result := parseFailedJobRetention raw in
  (result, match result with Limit n => with_limit n q | Rejected _ => q end).

Definition first_set (a b : option string) : option string := match a with Some v => Some v | None => b end.
(** The constructor: options before the environment ([||] for the URL, [??] for the limit). *)
Definition new_manager (URL : string → option url_parts) (redisUrl failedJobRetention : option string) (env : string → option string) :
    QueueManager :=
  let url := match set_text redisUrl with Some u => u | None => default "" (env "REDIS_URL") end in
  (setFailedJobRetention (first_set failedJobRetention (env "QUEUE_FAILED_RETENTION"))
     {| qm_connection := parseRedisUrl URL url; qm_limit := FAILED_RETENTION_DEFAULT; qm_pdf := false; qm_notifications := false;
        qm_dead := false; qm_events := []; qm_workers := []; qm_initialized := false |}).2.

Definition PDF_GENERATION : string := "pdf-generation".
Definition NOTIFICATIONS : string := "notifications".

(** [initialize]: [fails] is how many of its constructions succeed before one throws. *)
Definition initialize (fails : option nat) (q : QueueManager) : outcome string unit * QueueManager :=
  if q.(qm_initialized) then (Ok tt, q)
  else
    let made n := match fails with Some k => bool_decide (n < k)%nat | None => true end in
    let q' := with_queues (made 1%nat || q.(qm_pdf)) (made 2%nat || q.(qm_notifications)) (made 0%nat || q.(qm_dead)) (made 4%nat)
                (q.(qm_events) ++ (if made 3%nat then [PDF_GENERATION] else []) ++ (if made 4%nat then [NOTIFICATIONS] else []))
                q.(qm_workers) q in
    (if made 4%nat then Ok tt else Throw "connect", q').

(** [shutdown]: closing may fail, which is only logged. *)
Definition shutdown (q : QueueManager) : QueueManager := with_queues false false false false [] [] q.

Definition registerWorker (name : string) (q : QueueManager) : QueueManager :=
  with_queues q.(qm_pdf) q.(qm_notifications) q.(qm_dead) q.(qm_initialized) q.(qm_events) (q.(qm_workers) ++ [name]) q.

(** ** Jobs *)

Record JobsOptions := { jo_attempts : Z; jo_backoff : Z; jo_keepCompleted : Z; jo_keepFailed : option Z }.
Definition DEFAULT_JOB_OPTIONS : JobsOptions :=
  {| jo_attempts := 3; jo_backoff := 2000; jo_keepCompleted := 1000; jo_keepFailed := None |}.
Definition buildJobOptions (limit : Z) (attempts : option Z) : JobsOptions :=
  {| jo_attempts := default DEFAULT_JOB_OPTIONS.(jo_attempts) attempts; jo_backoff := DEFAULT_JOB_OPTIONS.(jo_backoff);
     jo_keepCompleted := DEFAULT_JOB_OPTIONS.(jo_keepCompleted); jo_keepFailed := Some limit |}.

Record NotificationJobData := {
  jd_recipientId : string; jd_type : string; jd_title : string; jd_body : string; jd_actorId : option string;
  jd_entityId : option string; jd_entityType : option string; jd_data : option json; jd_relatedModule : string; jd_link : string }.

Record dead_letter := {
  dl_queue : string; dl_jobId : string; dl_reason : string; dl_attemptsMade : Z }.
(** A job as [getJob] returns it. *)
Record found_job := { fj_attemptsMade : Z; fj_attempts : option Z }.

(** The queues with the tables the workers write to. *)
Record queue_state := {
  qs_manager : QueueManager; qs_jobs : list (string * (NotificationJobData * JobsOptions));
  qs_pdf : list (string * (json * JobsOptions)); qs_dead : list dead_letter; qs_tables : notify_state }.

Definition with_jobs (l : list (string * (NotificationJobData * JobsOptions))) (s : queue_state) : queue_state :=
  {| qs_manager := s.(qs_manager); qs_jobs := l; qs_pdf := s.(qs_pdf); qs_dead := s.(qs_dead); qs_tables := s.(qs_tables) |}.
Definition with_pdf (l : list (string * (json * JobsOptions))) (s : queue_state) : queue_state :=
  {| qs_manager := s.(qs_manager); qs_jobs := s.(qs_jobs); qs_pdf := l; qs_dead := s.(qs_dead); qs_tables := s.(qs_tables) |}.
Definition with_tables (t : notify_state) (s : queue_state) : queue_state :=
  {| qs_manager := s.(qs_manager); qs_jobs := s.(qs_jobs); qs_pdf := s.(qs_pdf); qs_dead := s.(qs_dead); qs_tables := t |}.
Definition with_dead (l : list dead_letter) (s : queue_state) : queue_state :=
  {| qs_manager := s.(qs_manager); qs_jobs := s.(qs_jobs); qs_pdf := s.(qs_pdf); qs_dead := l; qs_tables := s.(qs_tables) |}.

Abbreviation queue_action := (action string queue_state).

(** An operation of the notification service. *)
Definition on_tables {A} (m : action string notify_state A) : queue_action A :=
  λ s, let '(r, t) := m s.(qs_tables) in (r, with_tables t s).

(** [moveToDeadLetterIfExhausted], with the job that [getJob] finds; errors are only logged. *)
Definition moveToDeadLetterIfExhausted (queue jobId reason : string) (job : option found_job) (s : queue_state) : queue_state :=
  let source := if bool_decide (queue = PDF_GENERATION) then s.(qs_manager).(qm_pdf) else s.(qs_manager).(qm_notifications) in
  if negb source || negb s.(qs_manager).(qm_dead) then s
  else match job with
       | None => s
       | Some j =>
           if default 3 j.(fj_attempts) <=? j.(fj_attemptsMade) then
             with_dead (s.(qs_dead) ++ [{| dl_queue := queue; dl_jobId := jobId; dl_reason := reason;
                                          dl_attemptsMade := j.(fj_attemptsMade) |}]) s
           else s
       end.

Section service.
Context (fresh : nat → string) (uuid_ok : string → bool).
(** What BullMQ answers to the n-th job: its number, or an error. *)
Context (accept : nat → outcome string string).

Definition addNotificationJob (data : NotificationJobData) : queue_action string :=
  s ← get_state;
  _ ← ensure s.(qs_manager).(qm_notifications) "[QueueManager] Notifications queue not initialized. Call initialize() first.";
  match accept (length s.(qs_jobs)) with
  | Throw e => throw e
  | Ok id => _ ← modify (λ s, with_jobs (s.(qs_jobs) ++ [(id, (data, buildJobOptions s.(qs_manager).(qm_limit) None))]) s); mret id
  end.

Definition addPdfJob (data : json) (attempts : option Z) : queue_action string :=
  s ← get_state;
  _ ← ensure s.(qs_manager).(qm_pdf) "[QueueManager] PDF queue not initialized. Call initialize() first.";
  match accept (length s.(qs_pdf)) with
  | Throw e => throw e
  | Ok id => _ ← modify (λ s, with_pdf (s.(qs_pdf) ++ [(id, (data, buildJobOptions s.(qs_manager).(qm_limit) attempts))]) s); mret id
  end.

(** The options of a caller: those of the notification, the module and the link. *)
Record EnqueueOptions := { eo_options : CreateNotificationOptions; eo_relatedModule : option string; eo_link : option string }.
Record EnqueueNotificationResult := { en_jobId : option string; en_enqueued : bool }.

Definition eo_module (o : EnqueueOptions) : string := default "system" (set_text o.(eo_relatedModule)).
Definition eo_path (o : EnqueueOptions) : string := default "/" (set_text o.(eo_link)).

Definition resolveRecipients (rs : recipients) : list string :=
  match rs with All => ["all"] | Many l => l | One id => [id] end.

Definition job_data (type title body : string) (o : EnqueueOptions) (recipient : string) : NotificationJobData :=
  {| jd_recipientId := recipient; jd_type := type; jd_title := title; jd_body := body;
     jd_actorId := o.(eo_options).(co_actorId); jd_entityId := o.(eo_options).(co_entityId);
     jd_entityType := o.(eo_options).(co_entityType); jd_data := o.(eo_options).(co_data);
     jd_relatedModule := eo_module o; jd_link := eo_path o |}.

(** One job per recipient, in order; the first error ends the loop. *)
Fixpoint add_jobs (l : list NotificationJobData) : queue_action (list string) :=
  match l with
  | [] => mret []
  | d :: l' => id ← addNotificationJob d; ids ← add_jobs l'; mret (id :: ids)
  end.

(** The synchronous way: without the title, which only the options carry. *)
Definition create_directly (now : Z) (fallbackId : string) (rs : recipients) (type body : string) (o : EnqueueOptions) :
    queue_action EnqueueNotificationResult :=
  _ ← on_tables (create fresh uuid_ok now rs type body (eo_module o) (eo_path o) o.(eo_options));
  mret {| en_jobId := Some fallbackId; en_enqueued := false |}.

Definition enqueueNotification (now : Z) (fallbackId : string) (rs : recipients) (type title body : string) (o : EnqueueOptions) :
    queue_action EnqueueNotificationResult :=
  s ← get_state;
  if negb s.(qs_manager).(qm_initialized) then create_directly now fallbackId rs type body o
  else try_catch
    (ids ← add_jobs (map (job_data type title body o) (resolveRecipients rs));
     mret {| en_jobId := head ids; en_enqueued := true |})
    (λ _, create_directly now fallbackId rs type body o).

(** [NotificationService.create] takes the text [all] for everybody. *)
Definition recipients_of_text (id : string) : recipients := if bool_decide (id = "all") then All else One id.

(** The worker on one job; an error goes back to BullMQ, which tries again. *)
Definition processNotificationJob (now : Z) (d : NotificationJobData) : queue_action bool :=
  on_tables (create fresh uuid_ok now (recipients_of_text d.(jd_recipientId)) d.(jd_type) d.(jd_body)
    (default "system" (set_text (Some d.(jd_relatedModule)))) (default "/" (set_text (Some d.(jd_link))))
    {| co_actorId := d.(jd_actorId); co_entityId := d.(jd_entityId); co_entityType := d.(jd_entityType); co_data := d.(jd_data);
       co_wss := None; co_title := set_text (Some d.(jd_title)) |}).

(** Every job once, in this order. *)
Definition process_jobs (now : Z) (l : list (string * (NotificationJobData * JobsOptions))) : queue_action unit :=
  for_each (λ j, _ ← processNotificationJob now j.2.1; mret tt) l.
End service.

(** ** Properties *)

(** the limit of failed jobs is always between one and a hundred thousand, whatever
    values are set one after the other; a value is accepted exactly when it is blank,
    which means the default, or an integer of that range, and a rejected one leaves
    the limit in force, under which every job is added. *)
Theorem retention_limit_spec (raws : list (option string)) q (Hq : 1 <= q.(qm_limit) <= 100000) :
  let q' := foldl (λ q raw, (setFailedJobRetention raw q).2) q raws in
  1 <= q'.(qm_limit) <= 100000 /\
  forall raw,
    match parseFailedJobRetention raw with
    | Limit n => (setFailedJobRetention raw q').2.(qm_limit) = n /\
        (trim (default "" raw) = "" /\ n = 1000 \/ integer_text (trim (default "" raw)) = true /\ n = text_value (trim (default "" raw)) /\ 1 <= n <= 100000)
    | Rejected _ => (setFailedJobRetention raw q').2 = q' /\ trim (default "" raw) <> "" /\
        ~ (integer_text (trim (default "" raw)) = true /\ 1 <= text_value (trim (default "" raw)) <= 100000)
    end.
Proof.
  assert (Hparse : ∀ raw, match parseFailedJobRetention raw with
    | Limit n => trim (default "" raw) = "" ∧ n = 1000 ∨
        integer_text (trim (default "" raw)) = true ∧ n = text_value (trim (default "" raw)) ∧ 1 <= n <= 100000
    | Rejected _ => trim (default "" raw) ≠ "" ∧
        ¬ (integer_text (trim (default "" raw)) = true ∧ 1 <= text_value (trim (default "" raw)) <= 100000)
    end).
  { intros [raw|]; [|by left]. unfold parseFailedJobRetention. cbn [default id]. destruct (bool_decide (trim raw = "")) eqn:Hb; bools; [by left|].
    destruct (integer_text (trim raw)) eqn:Ht; cbn [negb]; [|by split; [|intros []]].
    rewrite (integer_text_parseInt _ Ht), isInteger_int, !js_lt_int, integer_value_int. cbn [negb orb].
    unfold FAILED_RETENTION_MIN, FAILED_RETENTION_MAX.
    destruct (Z.ltb_spec (text_value (trim raw)) 1); cbn [orb]; [split; [done|lia]|].
    destruct (Z.ltb_spec 100000 (text_value (trim raw))); [split; [done|lia]|]. right. split_and!; [done|done|lia..]. }
  assert (Hstep : ∀ raw q, 1 <= q.(qm_limit) <= 100000 → 1 <= (setFailedJobRetention raw q).2.(qm_limit) <= 100000).
  { intros raw q0 H0. specialize (Hparse raw). unfold setFailedJobRetention. destruct (parseFailedJobRetention raw) as [n|]; cbn; [|done].
    destruct Hparse as [[_ ->]|(_ & _ & ?)]; lia. }
  cbn zeta. split.
  - revert q Hq. induction raws as [|raw raws IH]; intros q Hq; [done|]. cbn [foldl]. apply IH. by apply Hstep.
  - intros raw. specialize (Hparse raw). unfold setFailedJobRetention. destruct (parseFailedJobRetention raw); by split.
Qed.

Section reached.
Context (fresh : nat → string) (uuid_ok : string → bool) (accept : nat → outcome string string).
Context (fresh_inj : ∀ a b, fresh a = fresh b → a = b).

(** How often a text is in the feed of a user: type, body, module and link. *)
Definition shown (x : string * string * string * string) (v : string) (t : notify_state) : nat :=
  length (select (λ i, bool_decide ((i.(fi_event_type), i.(fi_description), i.(fi_related_module), i.(fi_link)) = x)) (joined v t)).

Lemma shown_text x v t : shown x v t = length (select (λ y, bool_decide (y.1.1 = x)) (map item_text (joined v t))).
Proof.
  unfold shown, select. induction (joined v t) as [|i l IH]; [done|]. cbn. destruct (bool_decide _); cbn; by rewrite IH.
Qed.

Lemma shown_grows x v t t' k title : map item_text (joined v t') = map item_text (joined v t) ++ replicate k (x, title, false) →
  shown x v t' = (shown x v t + k)%nat.
Proof.
  intros H. rewrite !shown_text, H. unfold select. rewrite List.filter_app, length_app. f_equal. clear H.
  induction k as [|k IH]; [done|]. cbn [replicate List.filter fst]. rewrite bool_decide_eq_true_2 by done.
  cbn [length]. by rewrite IH.
Qed.

(** The recipients of a single job, without the actor. *)
Definition job_targets (o : EnqueueOptions) (t : notify_state) (id : string) : list string :=
  targets (recipients_of_text id) o.(eo_options).(co_actorId) t.

Definition same_users (t t' : notify_state) : Prop := t'.(ns_users) = t.(ns_users) ∧ t'.(ns_two_tables) = t.(ns_two_tables).

Lemma targets_same rs a t t' : same_users t t' → targets rs a t' = targets rs a t.
Proof. intros [Hu _]. unfold targets, active_ids. by rewrite Hu. Qed.

Lemma default_set_text d s : s ≠ "" → default d (set_text (Some s)) = s.
Proof. intros H. unfold set_text. cbn. by rewrite bool_decide_eq_false_2. Qed.
Lemma eo_module_nonempty o : eo_module o ≠ "".
Proof.
  unfold eo_module, set_text. destruct (eo_relatedModule o) as [m|]; [|done]. cbn. by case_bool_decide.
Qed.
Lemma eo_path_nonempty o : eo_path o ≠ "".
Proof. unfold eo_path, set_text. destruct (eo_link o) as [m|]; [|done]. cbn. by case_bool_decide. Qed.

(** The options with which the worker calls the service. *)
Lemma worker_run now type title body o id s : tables_ok fresh s.(qs_tables) →
  deliverable uuid_ok o.(eo_options) (job_targets o s.(qs_tables) id) s.(qs_tables) →
  ∃ t, processNotificationJob fresh uuid_ok now (job_data type title body o id) s = (Ok true, with_tables t s) ∧ tables_ok fresh t ∧
    same_users s.(qs_tables) t ∧
    ∀ v, shown (type, body, eo_module o, eo_path o) v t =
         (shown (type, body, eo_module o, eo_path o) v s.(qs_tables) + occurrences v (job_targets o s.(qs_tables) id))%nat.
Proof.
  intros Hok Hd. unfold processNotificationJob, on_tables, job_data. cbn [jd_recipientId jd_type jd_body jd_relatedModule jd_link jd_actorId
    jd_entityId jd_entityType jd_data jd_title]. rewrite !default_set_text by auto using eo_module_nonempty, eo_path_nonempty.
  set (o' := Build_CreateNotificationOptions _ _ _ _ _ _).
  assert (Hd' : deliverable uuid_ok o' (targets (recipients_of_text id) o'.(co_actorId) s.(qs_tables)) s.(qs_tables)) by by destruct Hd; split.
  destruct (create_delivers fresh uuid_ok fresh_inj now (recipients_of_text id) type body (eo_module o) (eo_path o) o' s.(qs_tables) Hok Hd')
    as (t & -> & Hok' & Hu & Ht & Htext & _).
  exists t. split_and!; [done|done|done|]. intros v. eapply shown_grows, Htext.
Qed.

Definition sum_occurrences (o : EnqueueOptions) (t : notify_state) (v : string) (l : list string) : nat :=
  list_sum (map (λ id, occurrences v (job_targets o t id)) l).

Lemma process_run now type title body o js : ∀ s l, map (λ j, j.2.1) js = map (job_data type title body o) l →
  tables_ok fresh s.(qs_tables) → (∀ id, id ∈ l → deliverable uuid_ok o.(eo_options) (job_targets o s.(qs_tables) id) s.(qs_tables)) →
  ∃ t, process_jobs fresh uuid_ok now js s = (Ok tt, with_tables t s) ∧
    ∀ v, shown (type, body, eo_module o, eo_path o) v t =
         (shown (type, body, eo_module o, eo_path o) v s.(qs_tables) + sum_occurrences o s.(qs_tables) v l)%nat.
Proof.
  induction js as [|j js IH]; intros s l Hl Hok Hd.
  { destruct l; [|done]. exists s.(qs_tables). split; [by destruct s|]. intros v. cbn. lia. }
  destruct l as [|id l]; [done|]. cbn [map] in Hl. injection Hl as Hj Hl.
  destruct (worker_run now type title body o id s Hok) as (t1 & Hrun & Hok1 & Hsame & Hshown); [apply Hd; by left|].
  destruct (IH (with_tables t1 s) l Hl Hok1) as (t & Hrest & Hcount).
  { intros x Hx. cbn [qs_tables with_tables]. unfold job_targets. rewrite (targets_same _ _ _ _ Hsame).
    destruct (Hd x) as []; [by right|]. destruct Hsame as [Hu Ht]. split; [by rewrite Ht|done|done|]. by rewrite Hu. }
  exists t. split.
  - unfold process_jobs in *. cbn [for_each]. unfold mbind, action_bind, mret, action_ret in *. rewrite Hj, Hrun, Hrest. by destruct s.
  - intros v. assert (Heq : sum_occurrences o t1 v l = sum_occurrences o s.(qs_tables) v l).
    { unfold sum_occurrences. f_equal. apply map_ext. intros x. unfold job_targets. by rewrite (targets_same _ _ _ _ Hsame). }
    rewrite Hcount. cbn [qs_tables with_tables]. rewrite Hshown, Heq.
    change (sum_occurrences o (qs_tables s) v (id :: l)) with (occurrences v (job_targets o (qs_tables s) id) + sum_occurrences o (qs_tables s) v l)%nat. lia.
Qed.

(** Jobs are added in order; an error leaves those added before it. *)
Lemma add_jobs_run ds : ∀ s, ∃ js r, add_jobs accept ds s = (r, with_jobs (s.(qs_jobs) ++ js) s) ∧
  (∃ n, map (λ j, j.2.1) js = take n ds) ∧ ((∃ ids, r = Ok ids) → map (λ j, j.2.1) js = ds).
Proof.
  assert (Hnil : ∀ s, with_jobs (s.(qs_jobs) ++ []) s = s) by (intros s; rewrite app_nil_r; by destruct s).
  induction ds as [|d ds IH]; intros s.
  { exists [], (Ok []). rewrite Hnil. split_and!; [done|by exists 0%nat|done]. }
  cbn [add_jobs]. unfold addNotificationJob, mbind, action_bind, get_state, ensure, mret, action_ret.
  destruct (qm_notifications (qs_manager s)).
  2:{ exists [], (Throw "[QueueManager] Notifications queue not initialized. Call initialize() first."). rewrite Hnil.
      split_and!; [done|by exists 0%nat|by intros [? [=]]]. }
  destruct (accept (length (qs_jobs s))) as [id|e].
  2:{ exists [], (Throw e). rewrite Hnil. split_and!; [done|by exists 0%nat|by intros [? [=]]]. }
  unfold modify. cbn beta iota.
  set (j := (id, (d, buildJobOptions (qm_limit (qs_manager s)) None))).
  destruct (IH (with_jobs (s.(qs_jobs) ++ [j]) s)) as (js & r & -> & (n & Hn) & Hall). exists (j :: js).
  destruct r as [ids|e]; eexists; (split; [cbn; by rewrite <- app_assoc|]); (split; [exists (S n); cbn; by rewrite Hn|]).
  - intros _. cbn. f_equal. apply Hall. by eexists.
  - by intros [? [=]].
Qed.

(** Recipients as the callers write them: [all] is not an id. *)
Definition plain (rs : recipients) : Prop := "all" ∉ match rs with All => [] | Many l => l | One id => [id] end.

Lemma occurrences_app v l l' : occurrences v (l ++ l') = (occurrences v l + occurrences v l')%nat.
Proof. unfold occurrences, select. by rewrite List.filter_app, length_app. Qed.

Lemma sum_targets o t v rs : plain rs →
  sum_occurrences o t v (resolveRecipients rs) = occurrences v (targets rs o.(eo_options).(co_actorId) t).
Proof.
  assert (Hlist : ∀ l, "all" ∉ l → sum_occurrences o t v l = occurrences v (targets (Many l) o.(eo_options).(co_actorId) t)).
  { intros l. induction l as [|id l IH]; intros Hall.
    - unfold targets. by destruct (set_text _).
    - apply not_elem_of_cons in Hall as [Hid Hall].
      change (sum_occurrences o t v (id :: l)) with (occurrences v (job_targets o t id) + sum_occurrences o t v l)%nat. rewrite IH by done.
      unfold job_targets, recipients_of_text. rewrite bool_decide_eq_false_2 by done. rewrite <- occurrences_app. f_equal.
      unfold targets. destruct (set_text _) as [a|]; [|done]. cbn. by destruct (negb _). }
  unfold plain. destruct rs as [|l|id]; cbn [resolveRecipients].
  - intros _. change (sum_occurrences o t v ["all"]) with (occurrences v (job_targets o t "all") + 0)%nat. by rewrite Nat.add_0_r.
  - apply Hlist.
  - intros H. by rewrite Hlist.
Qed.

Lemma elem_of_job_targets o t rs id x : plain rs → id ∈ resolveRecipients rs → x ∈ job_targets o t id →
  x ∈ targets rs o.(eo_options).(co_actorId) t.
Proof.
  unfold plain, job_targets, recipients_of_text. destruct rs as [|l|y]; cbn [resolveRecipients]; intros Hp Hid.
  - apply list_elem_of_singleton in Hid as ->. done.
  - rewrite bool_decide_eq_false_2 by (intros ->; done). unfold targets. destruct (set_text _).
    + intros [Hx Hne]%list_elem_of_In%List.filter_In. apply list_elem_of_In, List.filter_In. split; [|done].
      apply list_elem_of_In. by destruct Hx as [->|[]].
    + by intros ->%list_elem_of_singleton.
  - apply list_elem_of_singleton in Hid as ->. rewrite bool_decide_eq_false_2; [done|]. intros ->. apply Hp. by left.
Qed.

Lemma sum_prefix o t v n l : (sum_occurrences o t v (take n l) ≤ sum_occurrences o t v l)%nat.
Proof.
  unfold sum_occurrences. rewrite <- (take_drop n l) at 2. rewrite map_app, list_sum_app. lia.
Qed.

Lemma deliverable_each o t rs id : plain rs → id ∈ resolveRecipients rs →
  deliverable uuid_ok o.(eo_options) (targets rs o.(eo_options).(co_actorId) t) t → deliverable uuid_ok o.(eo_options) (job_targets o t id) t.
Proof. intros Hp Hid []. split; [done..|]. intros u Hu. eapply dv_users, elem_of_job_targets; done. Qed.

Lemma deliverable_same o l t t' : same_users t t' → deliverable uuid_ok o l t → deliverable uuid_ok o l t'.
Proof. intros [Hu Ht] []. split; [by rewrite Ht|done|done|by rewrite Hu]. Qed.

(** The synchronous way. *)
Lemma direct_run now fb rs type body o s : tables_ok fresh s.(qs_tables) →
  deliverable uuid_ok o.(eo_options) (targets rs o.(eo_options).(co_actorId) s.(qs_tables)) s.(qs_tables) →
  ∃ t, create_directly fresh uuid_ok now fb rs type body o s = (Ok {| en_jobId := Some fb; en_enqueued := false |}, with_tables t s) ∧
    tables_ok fresh t ∧ same_users s.(qs_tables) t ∧
    ∀ v, shown (type, body, eo_module o, eo_path o) v t = (shown (type, body, eo_module o, eo_path o) v s.(qs_tables) +
      occurrences v (targets rs o.(eo_options).(co_actorId) s.(qs_tables)))%nat.
Proof.
  intros Hok Hd. destruct (create_delivers fresh uuid_ok fresh_inj now rs type body (eo_module o) (eo_path o) o.(eo_options) s.(qs_tables) Hok Hd)
    as (t & Hrun & Hok' & Hu & Ht & Htext & _).
  exists t. split_and!; [|done|done|intros v; eapply shown_grows, Htext].
  unfold create_directly, on_tables, mbind, action_bind. by rewrite Hrun.
Qed.

(** C24: a notification that is enqueued arrives: when its recipients are users, whatever
    BullMQ refuses, once the jobs that were taken have been processed every recipient
    but the actor has it in his feed as often as he was named, and nobody has it more
    often unless the queue failed on the way, when it was created directly. *)
Theorem enqueue_reaches_recipients now now' fb rs type title body o s r s'
    (Hok : tables_ok fresh s.(qs_tables)) (Hplain : plain rs)
    (Hd : deliverable uuid_ok o.(eo_options) (targets rs o.(eo_options).(co_actorId) s.(qs_tables)) s.(qs_tables))
    (Hrun : enqueueNotification fresh uuid_ok accept now fb rs type title body o s = (r, s')) :
  exists res js s'', r = Ok res /\ s'.(qs_jobs) = s.(qs_jobs) ++ js /\ process_jobs fresh uuid_ok now' js s' = (Ok tt, s'') /\
    let x := (type, body, eo_module o, eo_path o) in
    let l := targets rs o.(eo_options).(co_actorId) s.(qs_tables) in
    forall v, (shown x v s.(qs_tables) + occurrences v l <= shown x v s''.(qs_tables))%nat /\
      ((res.(en_enqueued) = true \/ js = []) -> shown x v s''.(qs_tables) = (shown x v s.(qs_tables) + occurrences v l)%nat).
Proof.
  unfold enqueueNotification, mbind at 1, action_bind at 1, get_state in Hrun.
  destruct (qm_initialized (qs_manager s)); cbn [negb] in Hrun.
  2:{ destruct (direct_run now fb rs type body o s Hok Hd) as (t & Hdir & _ & _ & Hshown). rewrite Hdir in Hrun. injection Hrun as <- <-.
      eexists _, [], (with_tables t s). split_and!; [done|by rewrite app_nil_r|done|]. cbn zeta. intros v. cbn [qs_tables with_tables].
      rewrite Hshown. split; [lia|done]. }
  destruct (add_jobs_run (map (job_data type title body o) (resolveRecipients rs)) s) as (js & r1 & Hadd & (n & Hn) & Hall).
  unfold try_catch, mbind, action_bind in Hrun. rewrite Hadd in Hrun. destruct r1 as [ids|e].
  - injection Hrun as <- <-.
    destruct (process_run now' type title body o js (with_jobs (qs_jobs s ++ js) s) (resolveRecipients rs)) as (t & Hproc & Hshown).
    { apply Hall. by eexists. } { done. } { intros id Hid. by eapply deliverable_each. }
    eexists _, js, _. split_and!; [done|done|exact Hproc|]. cbn zeta. intros v. cbn [qs_tables with_tables with_jobs] in *.
    rewrite Hshown, sum_targets by done. split; [lia|done].
  - destruct (direct_run now fb rs type body o (with_jobs (qs_jobs s ++ js) s) Hok Hd) as (t & Hdir & Hok' & Hsame & Hshown).
    rewrite Hdir in Hrun. injection Hrun as <- <-.
    destruct (process_run now' type title body o js (with_tables t (with_jobs (qs_jobs s ++ js) s)) (take n (resolveRecipients rs)))
      as (t' & Hproc & Hshown').
    { by rewrite Hn, <- firstn_map. } { done. }
    { intros id Hid%elem_of_take. destruct Hid as (i & Hid%list_elem_of_lookup_2 & _).
      cbn [qs_tables with_tables]. unfold job_targets. rewrite (targets_same _ _ _ _ Hsame). eapply deliverable_same; [exact Hsame|].
      by eapply deliverable_each. }
    eexists _, js, _. split_and!; [done|done|exact Hproc|]. cbn zeta. intros v. cbn [qs_tables with_tables with_jobs] in *.
    rewrite Hshown', Hshown. split; [lia|]. intros [[=]|Hjs]. rewrite Hjs in Hn. destruct (take n (resolveRecipients rs)) eqn:Htk.
    + cbn. lia.
    + rewrite firstn_map, Htk in Hn. done.
Qed.
End reached.

(** ** Runs of the definitions *)

Module Jobs.
Definition manager (initialized : bool) : QueueManager :=
  (if initialized then (initialize None (new_manager (λ _, None) None None (λ _, None))).2 else new_manager (λ _, None) None None (λ _, None)).
Definition start (initialized : bool) : queue_state :=
  {| qs_manager := manager initialized; qs_jobs := []; qs_pdf := []; qs_dead := []; qs_tables := Notifications.Feeds.empty |}.
Definition options : EnqueueOptions := {| eo_options := Notifications.Feeds.silent; eo_relatedModule := None; eo_link := None |}.
(** Takes one job. *)
Definition one_job (n : nat) : outcome string string := if bool_decide (n = 0%nat) then Ok "j" else Throw "redis".
Abbreviation enqueue rs s :=
  (enqueueNotification Notifications.Feeds.fresh Notifications.Feeds.uuid_ok one_job 7 "sync" rs "plan_started" "Title" "m" options s).

(** When the queue fails after the first of two recipients, the first one is notified
    twice; what is created directly has no title; an empty list is reported as
    enqueued although there is no job. *)
Theorem queue_gaps :
  (let '(r, s) := enqueue (Many ["a"; "b"]) (start true) in
   let s' := (process_jobs Notifications.Feeds.fresh Notifications.Feeds.uuid_ok 8 s.(qs_jobs) s).2 in
   r = Ok {| en_jobId := Some "sync"; en_enqueued := false |} ∧
   Notifications.Feeds.feed "a" s'.(qs_tables) = [("m", None, false); ("m", Some "Title", false)] ∧
   Notifications.Feeds.feed "b" s'.(qs_tables) = [("m", None, false)]) ∧
  (enqueue (Many []) (start true)).1 = Ok {| en_jobId := None; en_enqueued := true |}.
Proof. vm_compute. repeat split. Qed.

(** The dead letter is looked up under the number of the job, so one that the limit
    of failed jobs has already removed leaves none, and every process that listens
    writes its own. *)
Theorem dead_letter_gaps job : job = {| fj_attemptsMade := 3; fj_attempts := Some 3 |} →
  (moveToDeadLetterIfExhausted NOTIFICATIONS "j" "e" None (start true)).(qs_dead) = [] ∧
  length (moveToDeadLetterIfExhausted NOTIFICATIONS "j" "e" (Some job)
    (moveToDeadLetterIfExhausted NOTIFICATIONS "j" "e" (Some job) (start true))).(qs_dead) = 2%nat.
Proof. intros ->. by vm_compute. Qed.
End Jobs.

Lemma retention_limit_spec_witness :
  1 <= (setFailedJobRetention (Some "0") (Jobs.manager true)).2.(qm_limit) <= 100000.
Proof. refine (proj1 (retention_limit_spec [Some "0"] (Jobs.manager true) _)). vm_compute. split; discriminate. Defined.

Lemma enqueue_reaches_recipients_witness :
  ∃ js s'', (Jobs.enqueue (One "b") (Jobs.start true)).2.(qs_jobs) = js ∧
    process_jobs Notifications.Feeds.fresh Notifications.Feeds.uuid_ok 8 js (Jobs.enqueue (One "b") (Jobs.start true)).2 = (Ok tt, s'') ∧
    (1 <= shown ("plan_started", "m", "system", "/") "b" s''.(qs_tables))%nat.
Proof.
  destruct (enqueue_reaches_recipients Notifications.Feeds.fresh Notifications.Feeds.uuid_ok Jobs.one_job Notifications.Feeds.fresh_inj
    7 8 "sync" (One "b") "plan_started" "Title" "m" Jobs.options (Jobs.start true) (Jobs.enqueue (One "b") (Jobs.start true)).1
    (Jobs.enqueue (One "b") (Jobs.start true)).2) as (res & js & s'' & _ & Hjs & Hproc & Hshown).
  - exact Notifications.Feeds.feeds_ok.
  - unfold plain. rewrite list_elem_of_singleton. discriminate.
  - split; [done..|]. intros uid Huid. vm_compute in Huid. apply list_elem_of_singleton in Huid as ->.
    split; [by vm_compute|]. apply (bool_decide_unpack _). by vm_compute.
  - apply surjective_pairing.
  - exists js, s''. split_and!; [exact Hjs|exact Hproc|]. destruct (Hshown "b") as [H _].
    etransitivity; [|exact H]. apply Nat.leb_le. by vm_compute.
Defined.
