(* ===== verification/Cron.v ===== *)
(** * Scheduled jobs ([cron/index.ts])

    The daily automations and the check of upcoming deadlines over the rows they
    read and write, with the notifications they create.  Every statement has a
    name, and [fails] says which of them throw; a block of the code is a [try] that
    swallows the error.  Dates in text columns are compared as texts; [offset] and
    [local_offset] are the time zone at a time and at a local time. *)

From S2P Require Import Prelude JsMap JsStrings JsNumbers Json Calendar AuthMiddleware Pagination FileEncryption WebSockets Notifications Queues.
Local Open Scope Z_scope.

Record plan := {
  pl_id : string; pl_title : string; pl_lead : option string; pl_status : string; pl_start : option string;
  pl_end : option string; pl_archived : bool; pl_year : option Z }.
Record recommendation := {
  re_id : string; re_responsible : option string; re_status : string; re_due : option string }.
Record instruction := { in_id : string; in_status : string; in_issue : option string }.
Record policy := { po_id : string; po_status : string; po_upload : string }.
(** [due_date] as the server compares it. *)
Record task := {
  ta_id : string; ta_title : string; ta_due : option string; ta_status : string; ta_assigned : option string; ta_deleted : bool }.

(** The tables, [lastDeadlineCheckDate], and the time of the last daily run. *)
Record cron_state := {
  cr_plans : list plan; cr_recs : list recommendation; cr_instructions : list instruction; cr_policies : list policy;
  cr_tasks : list task; cr_assignments : list (string * string); cr_tables : notify_state;
  cr_checked : option string; cr_lastRun : option Z }.

Definition with_plans (l : list plan) (s : cron_state) : cron_state :=
  {| cr_plans := l; cr_recs := s.(cr_recs); cr_instructions := s.(cr_instructions); cr_policies := s.(cr_policies);
     cr_tasks := s.(cr_tasks); cr_assignments := s.(cr_assignments); cr_tables := s.(cr_tables); cr_checked := s.(cr_checked);
     cr_lastRun := s.(cr_lastRun) |}.
Definition with_recs (l : list recommendation) (s : cron_state) : cron_state :=
  {| cr_plans := s.(cr_plans); cr_recs := l; cr_instructions := s.(cr_instructions); cr_policies := s.(cr_policies);
     cr_tasks := s.(cr_tasks); cr_assignments := s.(cr_assignments); cr_tables := s.(cr_tables); cr_checked := s.(cr_checked);
     cr_lastRun := s.(cr_lastRun) |}.
Definition with_instructions (l : list instruction) (s : cron_state) : cron_state :=
  {| cr_plans := s.(cr_plans); cr_recs := s.(cr_recs); cr_instructions := l; cr_policies := s.(cr_policies);
     cr_tasks := s.(cr_tasks); cr_assignments := s.(cr_assignments); cr_tables := s.(cr_tables); cr_checked := s.(cr_checked);
     cr_lastRun := s.(cr_lastRun) |}.
Definition with_policies (l : list policy) (s : cron_state) : cron_state :=
  {| cr_plans := s.(cr_plans); cr_recs := s.(cr_recs); cr_instructions := s.(cr_instructions); cr_policies := l;
     cr_tasks := s.(cr_tasks); cr_assignments := s.(cr_assignments); cr_tables := s.(cr_tables); cr_checked := s.(cr_checked);
     cr_lastRun := s.(cr_lastRun) |}.
Definition with_feeds (t : notify_state) (s : cron_state) : cron_state :=
  {| cr_plans := s.(cr_plans); cr_recs := s.(cr_recs); cr_instructions := s.(cr_instructions); cr_policies := s.(cr_policies);
     cr_tasks := s.(cr_tasks); cr_assignments := s.(cr_assignments); cr_tables := t; cr_checked := s.(cr_checked);
     cr_lastRun := s.(cr_lastRun) |}.
Definition with_times (checked : option string) (lastRun : option Z) (s : cron_state) : cron_state :=
  {| cr_plans := s.(cr_plans); cr_recs := s.(cr_recs); cr_instructions := s.(cr_instructions); cr_policies := s.(cr_policies);
     cr_tasks := s.(cr_tasks); cr_assignments := s.(cr_assignments); cr_tables := s.(cr_tables); cr_checked := checked;
     cr_lastRun := lastRun |}.

Abbreviation cron_action := (action string cron_state).

(** ** Batches *)

Definition BATCH_SIZE : nat := 500.
Fixpoint batches {A} (fuel : nat) (l : list A) : list (list A) :=
  match fuel, l with
  | S f, _ :: _ => take BATCH_SIZE l :: batches f (drop BATCH_SIZE l)
  | _, _ => []
  end.
(** [processBatches]: [batchFn] updates a map and returns the rows of a batch. *)
Definition processBatches {A M R} (items : list A) (batchFn : list A → M → M * list R) (m : M) : M * list R :=
  foldl (λ acc batch, let '(m, rows) := batchFn batch acc.1 in (m, acc.2 ++ rows)) (m, []) (batches (length items) items).

(** The names of a user that are there lead to him; later users overwrite. *)
Definition set_names (m : list (string * string)) (u : user) : list (string * string) :=
  let m := if bool_decide (u.(us_name) = "") then m else map_set u.(us_name) u.(us_id) m in
  if bool_decide (u.(us_username) = "") then m else map_set u.(us_username) u.(us_id) m.
Definition named_in (batch : list string) (u : user) : bool :=
  bool_decide (u.(us_name) ∈ batch) || bool_decide (u.(us_username) ∈ batch).
Definition unique_names (names : list string) : list string := set_of_list (List.filter (λ n, negb (bool_decide (n = ""))) names).
Definition resolve_names (usable : user → bool) (names : list string) (users : list user) : list (string * string) :=
  let uniqueNames := unique_names names in
  (processBatches uniqueNames
     (λ batch m, let found := select (λ u, named_in batch u && usable u) users in (foldl set_names m found, found)) []).1.
Definition batchResolveUsersByName : list string → list user → list (string * string) := resolve_names (λ _, true).
Definition batchResolveActiveUsersByName : list string → list user → list (string * string) :=
  resolve_names (λ u, bool_decide (u.(us_status) = "Active")).
Definition batchGetTaskAssignments (taskIds : list string) (assignments : list (string * string)) : list (string * list string) :=
  (processBatches taskIds
     (λ batch m, let found := select (λ a, bool_decide (a.1 ∈ batch)) assignments in
        (foldl (λ m a, map_set a.1 (default [] (map_get a.1 m) ++ [a.2]) m) m found, found)) []).1.

(** ** Dates *)

Definition iso_date (t : Z) : string :=
  pad_start 4 (pretty (getUTCFullYear t)) +:+ "-" +:+ two_digits (getUTCMonth t + 1) +:+ "-" +:+ two_digits (getUTCDate t).

Section jobs.
Context (offset local_offset : Z → Z).
(** [d.setDate(d.getDate() + n)]; [d.setFullYear(d.getFullYear() - 1)] *)
Definition add_days (n t : Z) : Z := let l := LocalTime offset t + n * msPerDay in l - local_offset l.
Definition year_before (t : Z) : Z :=
  let l := LocalTime offset t in
  let l' := MakeDay (getUTCFullYear l - 1) (getUTCMonth l) (getUTCDate l) * msPerDay + l mod msPerDay in l' - local_offset l'.

Context (fresh : nat → string) (uuid_ok : string → bool).
Context (fails : string → bool).
(** Whether the server takes a statement of so many placeholders with so many values. *)
Context (bind_ok : nat → nat → bool).
(** A date as the driver hands it over, printed. *)
Context (printed : string → string).

Definition statement (name : string) : cron_action unit := ensure (negb (fails name)) name.
Definition swallow (block : cron_action unit) : cron_action unit := try_catch block (λ _, mret tt).

Definition no_options : CreateNotificationOptions :=
  {| co_actorId := None; co_entityId := None; co_entityType := None; co_data := None; co_wss := None; co_title := None |}.
Definition about (entityId entityType : string) (title : option string) : CreateNotificationOptions :=
  {| co_actorId := None; co_entityId := Some entityId; co_entityType := Some entityType; co_data := None; co_wss := None; co_title := title |}.

Definition notify (now : Z) (rs : recipients) (type message module link : string) (o : CreateNotificationOptions) : cron_action unit :=
  λ s, let '(r, t) := create fresh uuid_ok now rs type message module link o s.(cr_tables) in
       (match r with Ok _ => Ok tt | Throw e => Throw e end, with_feeds t s).

Definition quote (t : string) : string := of_chars [chr 34] +:+ t +:+ of_chars [chr 34].
(** [JSON.stringify({ key, params })] *)
Definition message (key : string) (params : list (string * json)) : string :=
  stringify (JObj [("key", JStr key); ("params", JObj params)]).

(** The statements that resolve names: none when there is no name. *)
Definition resolving (names : list string) (name : string) : cron_action unit :=
  if bool_decide (names = []) then mret tt else statement name.

(** The statements of [batchResolveUsersByName]: the placeholders are written twice under
    the same numbers and the names are passed twice. *)
Definition resolving_batches (names : list string) (name : string) : cron_action unit :=
  if bool_decide (unique_names names = []) then mret tt
  else
    _ ← statement name;
    for_each (λ batch, ensure (bind_ok (length batch) (length batch + length batch)) "bind message")
      (batches (length (unique_names names)) (unique_names names)).

(** A set name. *)
Definition name_of (n : option string) : list string := match set_text n with Some t => [t] | None => [] end.

(** ** The daily automations *)

Definition due_by (today : string) (d : option string) : bool := match d with Some t => String.leb t today | None => false end.
Definition past (today : string) (d : option string) : bool := match d with Some t => String.ltb t today | None => false end.

Definition plan_starts (today : string) (p : plan) : bool := bool_decide (p.(pl_status) = "Planned") && due_by today p.(pl_start).
Definition started (p : plan) : plan :=
  {| pl_id := p.(pl_id); pl_title := p.(pl_title); pl_lead := p.(pl_lead); pl_status := "In Progress"; pl_start := p.(pl_start);
     pl_end := p.(pl_end); pl_archived := p.(pl_archived); pl_year := p.(pl_year) |}.

(** To the user a map of names gives for a name, when it gives one. *)
Definition notify_named (now : Z) (m : list (string * string)) (name : option string) (type text link : string) : cron_action unit :=
  match set_text name with
  | Some n => match set_text (map_get n m) with
              | Some u => notify now (One u) type text "info" link no_options
              | None => mret tt
              end
  | None => mret tt
  end.

Definition start_plans (now : Z) (today : string) : cron_action unit :=
  _ ← statement "plans.select";
  due ← gets (λ s, select (plan_starts today) s.(cr_plans));
  if bool_decide (length due = 0%nat) then mret tt
  else
    _ ← statement "plans.update";
    _ ← modify (λ s, with_plans (update_where (plan_starts today) started s.(cr_plans)) s);
    _ ← resolving_batches (flat_map (λ p, name_of p.(pl_lead)) due) "plans.users";
    m ← gets (λ s, batchResolveUsersByName (flat_map (λ p, name_of p.(pl_lead)) due) s.(cr_tables).(ns_users));
    for_each (λ p, notify_named now m p.(pl_lead) "plan_started"
      ("The audit plan " +:+ quote p.(pl_title) +:+ " has automatically started today.") "/plan") due.

Definition rec_open (r : recommendation) : bool := bool_decide (r.(re_status) ∈ ["Open"; "In Progress"]).
Definition rec_overdue (today : string) (r : recommendation) : bool := rec_open r && past today r.(re_due).
Definition overdue (r : recommendation) : recommendation :=
  {| re_id := r.(re_id); re_responsible := r.(re_responsible); re_status := "Overdue"; re_due := r.(re_due) |}.
(** The users a LEFT JOIN finds for the responsible person. *)
Definition responsible_users (users : list user) (r : recommendation) : list string :=
  match r.(re_responsible) with
  | Some n => map us_id (select (λ u, bool_decide (u.(us_name) = n) || bool_decide (u.(us_username) = n)) users)
  | None => []
  end.
Definition count_user (m : list (string * Z)) (id : string) : list (string * Z) := map_set id (default 0 (map_get id m) + 1) m.

Definition overdue_recommendations (now : Z) (today : string) : cron_action unit :=
  _ ← statement "recs.select";
  due ← gets (λ s, select (rec_overdue today) s.(cr_recs));
  if bool_decide (length due = 0%nat) then mret tt
  else
    users ← gets (λ s, flat_map (responsible_users s.(cr_tables).(ns_users)) due);
    _ ← statement "recs.update";
    _ ← modify (λ s, with_recs (update_where (rec_overdue today) overdue s.(cr_recs)) s);
    for_each (λ c, notify now (One c.1) "recommendation_overdue"
      (message "notifications.recommendationsOverdue" [("count", JNum (pretty c.2))]) "warning" "/recommendations" no_options)
      (foldl count_user [] users).

Definition rec_due_on (day : string) (r : recommendation) : bool := rec_open r && bool_decide (r.(re_due) = Some day).
Definition due_soon (now : Z) : cron_action unit :=
  _ ← statement "soon.select";
  due ← gets (λ s, select (rec_due_on (iso_date (add_days 7 now))) s.(cr_recs));
  if bool_decide (length due = 0%nat) then mret tt
  else
    _ ← resolving_batches (flat_map (λ r, name_of r.(re_responsible)) due) "soon.users";
    m ← gets (λ s, batchResolveUsersByName (flat_map (λ r, name_of r.(re_responsible)) due) s.(cr_tables).(ns_users));
    for_each (λ r, notify_named now m r.(re_responsible) "recommendation_due_soon"
      "A recommendation assigned to you is due in 7 days." "/recommendations") due.

Definition instruction_overdue (today : string) (i : instruction) : bool :=
  bool_decide (i.(in_status) ∈ ["Draft"; "Under Review"]) && past today i.(in_issue).
Definition overdue_instruction (i : instruction) : instruction :=
  {| in_id := i.(in_id); in_status := "Overdue"; in_issue := i.(in_issue) |}.
(** [SELECT id FROM users WHERE role = 'Admin'] *)
Definition all_admins (users : list user) : list string := map us_id (select (λ u, bool_decide (u.(us_role) = "Admin")) users).

Definition overdue_instructions (now : Z) (today : string) : cron_action unit :=
  _ ← statement "instructions.select";
  due ← gets (λ s, select (instruction_overdue today) s.(cr_instructions));
  if bool_decide (length due = 0%nat) then mret tt
  else
    _ ← statement "instructions.update";
    _ ← modify (λ s, with_instructions (update_where (instruction_overdue today) overdue_instruction s.(cr_instructions)) s);
    _ ← statement "instructions.admins";
    admins ← gets (λ s, all_admins s.(cr_tables).(ns_users));
    for_each (λ a, notify now (One a) "instruction_overdue" "Central Bank Instruction(s) have become overdue. Please review."
      "warning" "/regulatory" no_options) admins.

Definition policy_old (day : string) (p : policy) : bool := bool_decide (p.(po_status) = "active") && String.leb p.(po_upload) day.
Definition needs_review (p : policy) : policy := {| po_id := p.(po_id); po_status := "needs_review"; po_upload := p.(po_upload) |}.

Definition review_policies (now : Z) : cron_action unit :=
  let day := iso_date (year_before now) in
  _ ← statement "policies.select";
  due ← gets (λ s, select (policy_old day) s.(cr_policies));
  if bool_decide (length due = 0%nat) then mret tt
  else
    _ ← statement "policies.update";
    _ ← modify (λ s, with_policies (update_where (policy_old day) needs_review s.(cr_policies)) s);
    _ ← statement "policies.admins";
    admins ← gets (λ s, all_admins s.(cr_tables).(ns_users));
    for_each (λ a, notify now (One a) "policy_review_required"
      (pretty (N.of_nat (length due)) +:+ " internal policies have reached their 1-year review mark.") "info" "/legal" no_options) admins.

Definition task_near (day : string) (t : task) : bool :=
  negb (bool_decide (t.(ta_status) ∈ ["completed"; "cancelled"])) && bool_decide (t.(ta_due) = Some day) &&
  negb t.(ta_deleted) && bool_decide (is_Some t.(ta_assigned)).
Definition near_tasks (now : Z) : cron_action unit :=
  _ ← statement "near.select";
  due ← gets (λ s, select (task_near (iso_date (add_days 3 now))) s.(cr_tasks));
  for_each (λ t, notify now (One (default "" t.(ta_assigned))) "task_status_changed"
    (message "notifications.taskDeadlineNear" [("title", JStr t.(ta_title)); ("date", JStr (printed (default "" t.(ta_due))))])
    "AuditTasks" "/tasks"
    (about t.(ta_id) "audit_task" (Some (stringify (JObj [("key", JStr "notifications.taskDeadlineNear")]))))) due.

Definition runDailyAutomations (now : Z) : cron_action unit :=
  let today := iso_date now in
  _ ← swallow (start_plans now today);
  _ ← swallow (overdue_recommendations now today);
  _ ← swallow (due_soon now);
  _ ← swallow (overdue_instructions now today);
  _ ← swallow (review_policies now);
  _ ← swallow (near_tasks now);
  modify (λ s, with_times s.(cr_checked) (Some now) s).

(** ** Upcoming deadlines *)

Definition getManagerAdminIds (users : list user) : list string :=
  map us_id (select (λ u, bool_decide (u.(us_role) ∈ ["Admin"; "Manager"]) && bool_decide (u.(us_status) = "Active")) users).

(** [todayStr] is the start of its day in UTC. *)
Definition task_due (day : string) (t : task) : bool :=
  bool_decide (t.(ta_due) = Some day) && negb (bool_decide (t.(ta_status) ∈ ["completed"; "approved"])) && negb t.(ta_deleted).
Definition assigned_to (assignments : list (string * string)) (taskId : string) : list string :=
  map snd (select (λ a, bool_decide (a.1 = taskId)) assignments).
Definition getTasksDueTomorrow (today : Z) (s : cron_state) : list (task * list string) :=
  List.filter (λ x, negb (bool_decide (x.2 = [])))
    (map (λ t, (t, assigned_to s.(cr_assignments) t.(ta_id))) (select (task_due (iso_date (add_days 1 today))) s.(cr_tasks))).

(** [true] for the start of a plan, [false] for its end. *)
Definition plan_events (day : string) (p : plan) : list (plan * bool * string) :=
  (if bool_decide (p.(pl_start) = Some day) then [(p, true, day)] else []) ++
  (if bool_decide (p.(pl_end) = Some day) then [(p, false, day)] else []).
Definition getPlansDueIn3Days (today : Z) (s : cron_state) : list (plan * bool * string) :=
  flat_map (plan_events (iso_date (add_days 3 today))) (select (λ p, negb p.(pl_archived)) s.(cr_plans)).

Definition getUnarchivedPlansForYear (year : Z) (s : cron_state) : list plan :=
  select (λ p, bool_decide (p.(pl_year) = Some year) && negb p.(pl_archived)) s.(cr_plans).
Definition resolveLeadAuditorId (lead : option string) (users : list user) : option string :=
  n ← set_text lead;
  us_id <$> select_one (λ u, (bool_decide (u.(us_name) = n) || bool_decide (u.(us_username) = n)) && bool_decide (u.(us_status) = "Active")) users.

Definition remind_task (now : Z) (x : task * list string) : cron_action unit :=
  notify now (Many x.2) "task_status_changed"
    (message "notifications.taskDueTomorrow" [("title", JStr x.1.(ta_title)); ("dueDate", JStr (printed (default "" x.1.(ta_due))))])
    "AuditTasks" "/tasks" (about x.1.(ta_id) "audit_task" None).
Definition tasks_tomorrow (now today : Z) : cron_action unit :=
  _ ← statement "tomorrow.select";
  tasks ← gets (λ s, select (task_due (iso_date (add_days 1 today))) s.(cr_tasks));
  _ ← for_each (λ _, statement "tomorrow.assignments") tasks;
  due ← gets (getTasksDueTomorrow today);
  for_each (remind_task now) due.

(** The managers and administrators, and the lead auditor when he is found. *)
Definition plan_recipients (managers : list string) (lead : option string) : list string :=
  match lead with
  | Some l => if bool_decide (l ∈ managers) then managers else managers ++ [l]
  | None => managers
  end.
Definition remind_plan (now : Z) (managers : list string) (e : plan * bool * string) : cron_action unit :=
  let '(p, starts, date) := e in
  _ ← resolving (name_of p.(pl_lead)) "plans3.lead";
  lead ← gets (λ s, resolveLeadAuditorId p.(pl_lead) s.(cr_tables).(ns_users));
  notify now (Many (plan_recipients managers lead)) "plan_status_changed"
    (message (if starts : bool then "notifications.planStartingSoon" else "notifications.planEndingSoon")
       [("title", JStr p.(pl_title)); ("date", JStr date); ("missingLeadAuditor", JBool (bool_decide (lead = None)))])
    "AuditPlans" "/plan" (about p.(pl_id) "audit_plan" None).
Definition plans_in_3_days (now today : Z) : cron_action unit :=
  _ ← statement "plans3.select";
  due ← gets (getPlansDueIn3Days today);
  if bool_decide (length due = 0%nat) then mret tt
  else
    _ ← statement "plans3.managers";
    managers ← gets (λ s, getManagerAdminIds s.(cr_tables).(ns_users));
    for_each (remind_plan now managers) due.

Definition year_end (now : Z) : cron_action unit :=
  if (getMonth offset now =? 11) && (getDate offset now =? 15) then
    _ ← statement "year.select";
    due ← gets (getUnarchivedPlansForYear (getFullYear offset now));
    if bool_decide (length due = 0%nat) then mret tt
    else
      _ ← statement "year.managers";
      managers ← gets (λ s, getManagerAdminIds s.(cr_tables).(ns_users));
      notify now (Many managers) "plan_status_changed"
        (message "notifications.yearEndArchiveReminder"
           [("year", JNum (pretty (getFullYear offset now))); ("planCount", JNum (pretty (N.of_nat (length due))));
            ("planTitles", JStr (join ", " (map pl_title due)))]) "AuditPlans" "/plan" no_options
  else mret tt.

(** [checkUpcomingDeadlines()]: once per date and process. *)
Definition checkUpcomingDeadlines (now : Z) : cron_action unit :=
  let todayStr := iso_date now in
  let today := Day now * msPerDay in
  s ← get_state;
  if bool_decide (s.(cr_checked) = Some todayStr) then mret tt
  else
    _ ← swallow (tasks_tomorrow now today);
    _ ← swallow (plans_in_3_days now today);
    _ ← swallow (year_end now);
    modify (λ s, with_times (Some todayStr) s.(cr_lastRun) s).

(** What a start of the jobs runs at once, and what midnight runs. *)
Definition daily_job (now : Z) : cron_action unit :=
  _ ← swallow (runDailyAutomations now); swallow (checkUpcomingDeadlines now).
End jobs.

(** ** Properties *)

(** What notifications leave alone. *)
Definition rows_of (s : cron_state) :=
  (s.(cr_plans), s.(cr_recs), s.(cr_instructions), s.(cr_policies), s.(cr_tasks), s.(cr_assignments), s.(cr_checked)).

Lemma keeps_rows (m : action string cron_state unit) s : (∀ x, preserves (λ s, rows_of s = x) m) → rows_of (m s).2 = rows_of s.
Proof. intros H. by apply (H (rows_of s)). Qed.

(** What only notifies keeps the rows. *)
Ltac rest_keeps := apply keeps_rows; intros;
  repeat first [progress (auto with alsaqi)|apply preserves_bind; [|intros ?]|apply preserves_for_each; intros ?].

Section runs.
Context (offset local_offset : Z → Z) (fresh : nat → string) (uuid_ok : string → bool) (fails : string → bool) (bind_ok : nat → nat → bool)
  (printed : string → string).

Lemma swallow_run m s : swallow m s = (Ok tt, (m s).2).
Proof. unfold swallow, try_catch. by destruct (m s) as [[[]|e] s']. Qed.

Lemma notify_rows x now rs type text module link o : preserves (λ s, rows_of s = x) (notify fresh uuid_ok now rs type text module link o).
Proof. intros s H. unfold notify. by destruct (create _ _ _ _ _ _ _ _ _ _) as [[|] t]. Qed.
Lemma statement_rows x name : preserves (λ s, rows_of s = x) (statement fails name).
Proof. unfold statement. auto with alsaqi. Qed.
Lemma resolving_rows x l name : preserves (λ s, rows_of s = x) (resolving fails l name).
Proof. unfold resolving, statement. auto with alsaqi. Qed.
Lemma named_rows x now m name type text link : preserves (λ s, rows_of s = x) (notify_named fresh uuid_ok now m name type text link).
Proof. unfold notify_named. destruct (set_text name); [|auto with alsaqi]. destruct (set_text _); auto using notify_rows with alsaqi. Qed.
Lemma batches_rows x l name : preserves (λ s, rows_of s = x) (resolving_batches fails bind_ok l name).
Proof. unfold resolving_batches, statement. auto with alsaqi. Qed.
#[local] Hint Resolve notify_rows statement_rows resolving_rows batches_rows named_rows : alsaqi.

Lemma update_where_none {A} (p : A → bool) f l : select p l = [] → update_where p f l = l.
Proof.
  intros H. unfold update_where. rewrite <- (map_id l) at 2. apply map_ext_in. intros r Hr%list_elem_of_In.
  by rewrite (proj1 (select_nil p l) H r Hr).
Qed.

Lemma statement_bind {B} name (k : unit → action string cron_state B) s :
  (statement fails name ≫= k) s = if fails name then (Throw name, s) else k tt s.
Proof. unfold statement, ensure, mbind, action_bind. by destruct (fails name). Qed.
Lemma gets_bind {A B} (g : cron_state → A) (k : A → action string cron_state B) s : (gets g ≫= k) s = k (g s) s.
Proof. done. Qed.
Lemma modify_bind {B} (g : cron_state → cron_state) (k : unit → action string cron_state B) s : (modify g ≫= k) s = k tt (g s).
Proof. done. Qed.

Lemma start_plans_rows now today s : rows_of (start_plans fresh uuid_ok fails bind_ok now today s).2 =
  rows_of (with_plans (if fails "plans.select" || fails "plans.update" then s.(cr_plans)
                       else update_where (plan_starts today) started s.(cr_plans)) s).
Proof.
  unfold start_plans. rewrite statement_bind. destruct (fails "plans.select"); [done|]. cbn [orb]. rewrite gets_bind.
  case_bool_decide as Hlen.
  { apply nil_length_inv in Hlen. rewrite update_where_none by done. by destruct (fails "plans.update"). }
  rewrite statement_bind. destruct (fails "plans.update"); [done|]. rewrite modify_bind. rest_keeps.
Qed.

Lemma overdue_recommendations_rows now today s : rows_of (overdue_recommendations fresh uuid_ok fails now today s).2 =
  rows_of (with_recs (if fails "recs.select" || fails "recs.update" then s.(cr_recs)
                      else update_where (rec_overdue today) overdue s.(cr_recs)) s).
Proof.
  unfold overdue_recommendations. rewrite statement_bind. destruct (fails "recs.select"); [done|]. cbn [orb]. rewrite gets_bind.
  case_bool_decide as Hlen.
  { apply nil_length_inv in Hlen. rewrite update_where_none by done. by destruct (fails "recs.update"). }
  rewrite gets_bind, statement_bind. destruct (fails "recs.update"); [done|]. rewrite modify_bind. rest_keeps.
Qed.

Lemma overdue_instructions_rows now today s : rows_of (overdue_instructions fresh uuid_ok fails now today s).2 =
  rows_of (with_instructions (if fails "instructions.select" || fails "instructions.update" then s.(cr_instructions)
                              else update_where (instruction_overdue today) overdue_instruction s.(cr_instructions)) s).
Proof.
  unfold overdue_instructions. rewrite statement_bind. destruct (fails "instructions.select"); [done|]. cbn [orb]. rewrite gets_bind.
  case_bool_decide as Hlen.
  { apply nil_length_inv in Hlen. rewrite update_where_none by done. by destruct (fails "instructions.update"). }
  rewrite statement_bind. destruct (fails "instructions.update"); [done|]. rewrite modify_bind. rest_keeps.
Qed.

Lemma review_policies_rows now s : let day := iso_date (year_before offset local_offset now) in
  rows_of (review_policies offset local_offset fresh uuid_ok fails now s).2 =
  rows_of (with_policies (if fails "policies.select" || fails "policies.update" then s.(cr_policies)
                          else update_where (policy_old day) needs_review s.(cr_policies)) s).
Proof.
  cbn zeta. unfold review_policies. rewrite statement_bind. destruct (fails "policies.select"); [done|]. cbn [orb]. rewrite gets_bind.
  case_bool_decide as Hlen.
  { apply nil_length_inv in Hlen. rewrite update_where_none by done. by destruct (fails "policies.update"). }
  rewrite statement_bind. destruct (fails "policies.update"); [done|]. rewrite modify_bind. rest_keeps.
Qed.

Lemma due_soon_rows now s : rows_of (due_soon offset local_offset fresh uuid_ok fails bind_ok now s).2 = rows_of s.
Proof. unfold due_soon. rest_keeps. Qed.
Lemma near_tasks_rows now s : rows_of (near_tasks offset local_offset fresh uuid_ok fails printed now s).2 = rows_of s.
Proof. unfold near_tasks. rest_keeps. Qed.

Lemma swallow_bind {B} (m : action string cron_state unit) (k : unit → action string cron_state B) s : (swallow m ≫= k) s = k tt (m s).2.
Proof. unfold mbind, action_bind. by rewrite swallow_run. Qed.

(** The rows after the automations of a day. *)
Definition after_day (now : Z) (s : cron_state) : cron_state :=
  let today := iso_date now in
  let s := with_plans (if fails "plans.select" || fails "plans.update" then s.(cr_plans)
                       else update_where (plan_starts today) started s.(cr_plans)) s in
  let s := with_recs (if fails "recs.select" || fails "recs.update" then s.(cr_recs)
                      else update_where (rec_overdue today) overdue s.(cr_recs)) s in
  let s := with_instructions (if fails "instructions.select" || fails "instructions.update" then s.(cr_instructions)
                      else update_where (instruction_overdue today) overdue_instruction s.(cr_instructions)) s in
  with_policies (if fails "policies.select" || fails "policies.update" then s.(cr_policies)
                 else update_where (policy_old (iso_date (year_before offset local_offset now))) needs_review s.(cr_policies)) s.

Lemma daily_rows now s : rows_of (runDailyAutomations offset local_offset fresh uuid_ok fails bind_ok printed now s).2 = rows_of (after_day now s).
Proof.
  unfold runDailyAutomations. rewrite !swallow_bind.
  match goal with |- rows_of (modify _ ?s6).2 = _ => transitivity (rows_of s6); [by destruct s6|] end.
  rewrite near_tasks_rows.
  set (s1 := (start_plans _ _ _ _ _ _ s).2). pose proof (start_plans_rows now (iso_date now) s) as H1. fold s1 in H1.
  set (s2 := (overdue_recommendations _ _ _ _ _ s1).2). pose proof (overdue_recommendations_rows now (iso_date now) s1) as H2. fold s2 in H2.
  set (s3 := (due_soon _ _ _ _ _ _ _ s2).2). pose proof (due_soon_rows now s2) as H3. fold s3 in H3.
  set (s4 := (overdue_instructions _ _ _ _ _ s3).2). pose proof (overdue_instructions_rows now (iso_date now) s3) as H4. fold s4 in H4.
  rewrite review_policies_rows. unfold after_day, rows_of in *. clearbody s1 s2 s3 s4. cbn in *.
  injection H1 as E1 E2 E3 E4 E5 E6 E7. injection H2 as F1 F2 F3 F4 F5 F6 F7. injection H3 as G1 G2 G3 G4 G5 G6 G7.
  injection H4 as K1 K2 K3 K4 K5 K6 K7.
  by rewrite K1, K2, K3, K4, K5, K6, K7, G1, G2, G3, G4, G5, G6, G7, F1, F2, F3, F4, F5, F6, F7, E1, E2, E3, E4, E5, E6, E7.
Qed.

Lemma update_where_again {A} (p : A → bool) f l : (∀ x, p x = true → p (f x) = false) →
  update_where p f (update_where p f l) = update_where p f l.
Proof.
  intros H. unfold update_where. rewrite map_map. apply map_ext. intros x. destruct (p x) eqn:Hp; [by rewrite H|by rewrite Hp].
Qed.

Lemma after_day_calm now s : (∀ name, fails name = false) → after_day now s =
  {| cr_plans := update_where (plan_starts (iso_date now)) started s.(cr_plans);
     cr_recs := update_where (rec_overdue (iso_date now)) overdue s.(cr_recs);
     cr_instructions := update_where (instruction_overdue (iso_date now)) overdue_instruction s.(cr_instructions);
     cr_policies := update_where (policy_old (iso_date (year_before offset local_offset now))) needs_review s.(cr_policies);
     cr_tasks := s.(cr_tasks); cr_assignments := s.(cr_assignments); cr_tables := s.(cr_tables); cr_checked := s.(cr_checked);
     cr_lastRun := s.(cr_lastRun) |}.
Proof. intros Hf. unfold after_day. by rewrite !Hf. Qed.

Lemma after_day_again now s : (∀ name, fails name = false) → after_day now (after_day now s) = after_day now s.
Proof.
  intros Hf. rewrite !(after_day_calm now) by done.
  cbn [cr_plans cr_recs cr_instructions cr_policies cr_tasks cr_assignments cr_checked cr_tables cr_lastRun].
  by rewrite !update_where_again by (intros x _; done).
Qed.

Lemma after_day_ext now s s' : rows_of s = rows_of s' → rows_of (after_day now s) = rows_of (after_day now s').
Proof. destruct s, s'. unfold rows_of, after_day. cbn. by intros [= -> -> -> -> -> -> ->]. Qed.

(** the daily automations move exactly the rows that are due: planned plans whose start
    has come go into progress, open recommendations and instructions past their date
    become overdue, active policies of a year ago need review; every other row, task and
    assignment stays.  A statement that fails costs its own table and no other, the run
    always ends, and running again the same day moves nothing further. *)
Theorem daily_statuses now s :
  let run := runDailyAutomations offset local_offset fresh uuid_ok fails bind_ok printed now in
  let s' := (run s).2 in
  (run s).1 = Ok tt /\
  s'.(cr_plans) = (if fails "plans.select" || fails "plans.update" then s.(cr_plans)
                   else update_where (plan_starts (iso_date now)) started s.(cr_plans)) /\
  s'.(cr_recs) = (if fails "recs.select" || fails "recs.update" then s.(cr_recs)
                  else update_where (rec_overdue (iso_date now)) overdue s.(cr_recs)) /\
  s'.(cr_instructions) = (if fails "instructions.select" || fails "instructions.update" then s.(cr_instructions)
                          else update_where (instruction_overdue (iso_date now)) overdue_instruction s.(cr_instructions)) /\
  s'.(cr_policies) = (if fails "policies.select" || fails "policies.update" then s.(cr_policies)
                      else update_where (policy_old (iso_date (year_before offset local_offset now))) needs_review s.(cr_policies)) /\
  s'.(cr_tasks) = s.(cr_tasks) /\ s'.(cr_assignments) = s.(cr_assignments) /\
  ((forall name, fails name = false) -> rows_of (run s').2 = rows_of s').
Proof.
  cbn zeta. pose proof (daily_rows now s) as H. unfold rows_of, after_day in H.
  injection H as H1 H2 H3 H4 H5 H6 H7. split_and!; try assumption.
  - unfold runDailyAutomations. by rewrite !swallow_bind.
  - intros Hf. rewrite !daily_rows. rewrite (after_day_ext now _ (after_day now s)) by apply daily_rows. by rewrite after_day_again.
Qed.
End runs.

Section reminders.
Context (offset local_offset : Z → Z) (fresh : nat → string) (uuid_ok : string → bool) (fails : string → bool) (printed : string → string).
Context (fresh_inj : ∀ a b, fresh a = fresh b → a = b).

(** Notifications only add to feeds. *)
Definition grown (t t' : notify_state) : Prop :=
  tables_ok fresh t' ∧ same_users t t' ∧ ∀ x v, (shown x v t <= shown x v t')%nat.

Lemma grown_trans t1 t2 t3 : grown t1 t2 → grown t2 t3 → grown t1 t3.
Proof.
  intros (_ & [U1 T1] & H1) (Hok & [U2 T2] & H2). split_and!; [done|split; congruence|].
  intros x v. specialize (H1 x v). specialize (H2 x v). lia.
Qed.

Lemma create_grows now rs type message module link o t : tables_ok fresh t →
  ∃ t', create fresh uuid_ok now rs type message module link o t = (Ok true, t') ∧ grown t t'.
Proof.
  intros Hok. destruct (create_cases fresh uuid_ok fresh_inj now rs type message module link o t) as (t' & Hrun & [[_ ->]|[(_ & Hd & _)|(_ & _ & Hext)]]).
  - exists t. split; [done|]. by split_and!.
  - destruct (create_delivers fresh uuid_ok fresh_inj now rs type message module link o t Hok Hd) as (t1 & Hrun1 & Hok1 & Hu & Ht & Htext & _).
    exists t1. split; [done|]. split_and!; [done|by split|]. intros x v. rewrite !shown_text, Htext. unfold select.
    rewrite List.filter_app, length_app. lia.
  - exists t'. split; [done|]. split_and!; [by eapply extended_ok|by destruct Hext as (? & ? & -> & _)|].
    intros x v. unfold shown. by rewrite (joined_extended fresh fresh_inj v t t' Hok Hext).
Qed.

(** What blocks may do before and after a reminder. *)
Definition since (t : notify_state) (s : cron_state) : Prop := grown t s.(cr_tables).

Lemma since_refl s : tables_ok fresh s.(cr_tables) → since s.(cr_tables) s.
Proof. intros H. unfold since. by split_and!. Qed.

Lemma notify_since t now rs type text module link o : preserves (since t) (notify fresh uuid_ok now rs type text module link o).
Proof.
  intros s H. unfold notify. destruct (create_grows now rs type text module link o s.(cr_tables)) as (t' & -> & Ht'); [apply H|].
  by apply (grown_trans _ _ _ H).
Qed.
Lemma swallow_since t m : preserves (since t) m → preserves (since t) (swallow m).
Proof. intros H s Hs. rewrite swallow_run. by apply H. Qed.
#[local] Hint Resolve notify_since swallow_since : alsaqi.

Lemma remind_plan_since t now managers e : preserves (since t) (remind_plan fresh uuid_ok fails now managers e).
Proof. destruct e as [[p starts] date]. unfold remind_plan, resolving, statement. auto 8 with alsaqi. Qed.
#[local] Hint Resolve remind_plan_since : alsaqi.

Lemma plans_since t now today : preserves (since t) (plans_in_3_days offset local_offset fresh uuid_ok fails now today).
Proof. unfold plans_in_3_days, statement. auto 10 with alsaqi. Qed.
Lemma year_since t now : preserves (since t) (year_end offset fresh uuid_ok fails now).
Proof. unfold year_end, statement. auto 10 with alsaqi. Qed.

Lemma remind_tasks_since t now l : preserves (since t) (for_each (remind_task fresh uuid_ok printed now) l).
Proof. unfold remind_task. auto with alsaqi. Qed.

Lemma notify_runs now rs type text module link o s : tables_ok fresh s.(cr_tables) →
  (notify fresh uuid_ok now rs type text module link o s).1 = Ok tt.
Proof.
  intros H. unfold notify. by destruct (create_grows now rs type text module link o s.(cr_tables) H) as (t' & -> & _).
Qed.

(** What a task's reminder says. *)
Definition reminder (t : task) : string * string * string * string :=
  ("task_status_changed",
   message "notifications.taskDueTomorrow" [("title", JStr t.(ta_title)); ("dueDate", JStr (printed (default "" t.(ta_due))))],
   "AuditTasks", "/tasks").

Lemma remind_task_delivers now t l s v : tables_ok fresh s.(cr_tables) →
  deliverable uuid_ok (about t.(ta_id) "audit_task" None) (targets (Many l) None s.(cr_tables)) s.(cr_tables) →
  let s' := (remind_task fresh uuid_ok printed now (t, l) s).2 in
  since s.(cr_tables) s' ∧
  (shown (reminder t) v s'.(cr_tables) = shown (reminder t) v s.(cr_tables) + occurrences v (targets (Many l) None s.(cr_tables)))%nat.
Proof.
  intros Hok Hd. cbn zeta. split.
  - unfold remind_task. by apply notify_since, since_refl.
  - unfold remind_task, notify. destruct (create_delivers fresh uuid_ok fresh_inj now (Many l) "task_status_changed" (reminder t).1.1.2 "AuditTasks" "/tasks"
      (about t.(ta_id) "audit_task" None) s.(cr_tables) Hok Hd) as (t1 & Hrun1 & _ & _ & _ & Htext & _).
    cbn [fst snd reminder] in Hrun1. cbn [fst snd]. rewrite Hrun1. cbn [snd cr_tables with_feeds]. eapply shown_grows. exact (Htext v).
Qed.

Lemma reminders_reach now due : ∀ s t l v, tables_ok fresh s.(cr_tables) → (t, l) ∈ due →
  deliverable uuid_ok (about t.(ta_id) "audit_task" None) (targets (Many l) None s.(cr_tables)) s.(cr_tables) →
  (shown (reminder t) v s.(cr_tables) + occurrences v (targets (Many l) None s.(cr_tables)) <=
   shown (reminder t) v (for_each (remind_task fresh uuid_ok printed now) due s).2.(cr_tables))%nat.
Proof.
  induction due as [|[t0 l0] due IH]; intros s t l v Hok Hin Hd; [by apply not_elem_of_nil in Hin|].
  cbn [for_each]. unfold mbind, action_bind.
  pose proof (notify_since s.(cr_tables) now (Many l0) "task_status_changed" (reminder t0).1.1.2 "AuditTasks" "/tasks" (about t0.(ta_id) "audit_task" None)
    s (since_refl s Hok)) as Hs.
  pose proof (notify_runs now (Many l0) "task_status_changed" (reminder t0).1.1.2 "AuditTasks" "/tasks" (about t0.(ta_id) "audit_task" None) s Hok) as Hr.
  apply elem_of_cons in Hin as [[= -> ->]|Hin].
  - destruct (remind_task_delivers now t0 l0 s v Hok Hd) as [Hs1 Hshown].
    change (remind_task fresh uuid_ok printed now (t0, l0) s) with
      (notify fresh uuid_ok now (Many l0) "task_status_changed" (reminder t0).1.1.2 "AuditTasks" "/tasks" (about t0.(ta_id) "audit_task" None) s) in *.
    destruct (notify _ _ _ _ _ _ _ _ _ _) as [r s1]. cbn [fst snd] in *. subst r.
    pose proof (remind_tasks_since s1.(cr_tables) now due s1) as (_ & _ & Hmono); [apply since_refl, Hs1|].
    specialize (Hmono (reminder t0) v). lia.
  - change (remind_task fresh uuid_ok printed now (t0, l0) s) with
      (notify fresh uuid_ok now (Many l0) "task_status_changed" (reminder t0).1.1.2 "AuditTasks" "/tasks" (about t0.(ta_id) "audit_task" None) s).
    destruct (notify _ _ _ _ _ _ _ _ _ _) as [r s1]. cbn [fst snd] in *. subst r. destruct Hs as (Hok1 & Hsame & Hmono).
    specialize (IH s1 t l v Hok1 Hin). rewrite !(targets_same _ _ _ _ Hsame) in IH. specialize (IH (deliverable_same _ _ _ _ _ Hsame Hd)).
    specialize (Hmono (reminder t) v). lia.
Qed.

Lemma statements_run {A} name (l : list A) s : fails name = false → for_each (λ _, statement fails name) l s = (Ok tt, s).
Proof.
  intros Hf. induction l as [|x l IH]; [done|]. cbn [for_each]. unfold mbind, action_bind. unfold statement at 1.
  rewrite Hf. cbn. exact IH.
Qed.

Lemma elem_of_assigned a id u : u ∈ assigned_to a id ↔ (id, u) ∈ a.
Proof.
  unfold assigned_to. rewrite list_elem_of_fmap. setoid_rewrite elem_of_select. split.
  - intros ([i v] & -> & Hin & Hi%bool_decide_eq_true). cbn in *. by subst i.
  - intros Hin. exists (id, u). split; [done|]. split; [done|]. by apply bool_decide_eq_true.
Qed.

Lemma elem_of_due today s t u : t ∈ s.(cr_tasks) → task_due (iso_date (add_days offset local_offset 1 today)) t = true →
  (t.(ta_id), u) ∈ s.(cr_assignments) → (t, assigned_to s.(cr_assignments) t.(ta_id)) ∈ getTasksDueTomorrow offset local_offset today s.
Proof.
  intros Ht Hdue Hu%elem_of_assigned. apply list_elem_of_In, List.filter_In. split.
  - apply in_map_iff. exists t. split; [done|]. apply list_elem_of_In, elem_of_select. by split.
  - apply negb_true_iff, bool_decide_eq_false. cbn. intros Hnil. rewrite Hnil in Hu. by apply not_elem_of_nil in Hu.
Qed.

Lemma occurrences_pos u l : u ∈ l → (1 <= occurrences u l)%nat.
Proof.
  intros H. unfold occurrences. destruct (select _ l) eqn:Hs; [|cbn; lia].
  pose proof (proj1 (select_nil _ l) Hs u H) as Hn. cbn in Hn. by rewrite bool_decide_eq_true_2 in Hn.
Qed.

Lemma check_run now s : s.(cr_checked) ≠ Some (iso_date now) →
  let today := Day now * msPerDay in
  let s1 := (tasks_tomorrow offset local_offset fresh uuid_ok fails printed now today s).2 in
  let s2 := (plans_in_3_days offset local_offset fresh uuid_ok fails now today s1).2 in
  let s3 := (year_end offset fresh uuid_ok fails now s2).2 in
  checkUpcomingDeadlines offset local_offset fresh uuid_ok fails printed now s =
    (Ok tt, with_times (Some (iso_date now)) s3.(cr_lastRun) s3).
Proof.
  intros Hnew. unfold checkUpcomingDeadlines, get_state. unfold mbind at 1, action_bind at 1.
  rewrite bool_decide_eq_false_2 by done. by rewrite !swallow_bind.
Qed.

Lemma check_again now s : s.(cr_checked) = Some (iso_date now) →
  checkUpcomingDeadlines offset local_offset fresh uuid_ok fails printed now s = (Ok tt, s).
Proof.
  intros H. unfold checkUpcomingDeadlines, get_state. unfold mbind at 1, action_bind at 1. by rewrite bool_decide_eq_true_2.
Qed.

#[local] Hint Resolve notify_rows statement_rows resolving_rows named_rows : alsaqi.
Lemma tasks_rows now today s : rows_of (tasks_tomorrow offset local_offset fresh uuid_ok fails printed now today s).2 = rows_of s.
Proof. unfold tasks_tomorrow, remind_task. rest_keeps. Qed.
Lemma remind_plan_rows x now managers e : preserves (λ s, rows_of s = x) (remind_plan fresh uuid_ok fails now managers e).
Proof. destruct e as [[p starts] date]. unfold remind_plan. auto 8 with alsaqi. Qed.
#[local] Hint Resolve remind_plan_rows : alsaqi.
Lemma plans_rows now today s : rows_of (plans_in_3_days offset local_offset fresh uuid_ok fails now today s).2 = rows_of s.
Proof. unfold plans_in_3_days. rest_keeps. Qed.
Lemma year_rows now s : rows_of (year_end offset fresh uuid_ok fails now s).2 = rows_of s.
Proof. unfold year_end. apply keeps_rows. intros x. auto 10 with alsaqi. Qed.

(** C29: the check of upcoming deadlines reminds everybody a task due tomorrow is assigned to,
    when those users and the task have valid identifiers and the task queries succeed;
    no failure of another block prevents that.  It changes no task, plan or assignment,
    always ends, and a further check on the same date does nothing. *)
Theorem deadline_reminders now s t u
  (Hok : tables_ok fresh s.(cr_tables)) (Htwo : s.(cr_tables).(ns_two_tables) = true)
  (Hnew : s.(cr_checked) <> Some (iso_date now))
  (Hsel : fails "tomorrow.select" = false) (Hass : fails "tomorrow.assignments" = false)
  (Ht : t ∈ s.(cr_tasks)) (Hdue : task_due (iso_date (add_days offset local_offset 1 (Day now * msPerDay))) t = true)
  (Hid : opt_uuid uuid_ok (Some t.(ta_id))) (Hu : (t.(ta_id), u) ∈ s.(cr_assignments))
  (Husers : forall v, (t.(ta_id), v) ∈ s.(cr_assignments) -> uuid_ok v = true /\ v ∈ map us_id s.(cr_tables).(ns_users)) :
  let check := checkUpcomingDeadlines offset local_offset fresh uuid_ok fails printed in
  let s' := (check now s).2 in
  (check now s).1 = Ok tt /\
  (shown (reminder t) u s.(cr_tables) < shown (reminder t) u s'.(cr_tables))%nat /\
  rows_of (with_times None None s') = rows_of (with_times None None s) /\
  s'.(cr_checked) = Some (iso_date now) /\
  forall now', iso_date now' = iso_date now -> check now' s' = (Ok tt, s').
Proof.
  cbn zeta. rewrite check_run by done. cbn [fst snd].
  set (today := Day now * msPerDay) in *. set (due := getTasksDueTomorrow offset local_offset today s).
  assert (Hrun : tasks_tomorrow offset local_offset fresh uuid_ok fails printed now today s =
                 for_each (remind_task fresh uuid_ok printed now) due s).
  { unfold tasks_tomorrow. rewrite statement_bind, Hsel, gets_bind. unfold mbind, action_bind. by rewrite statements_run. }
  assert (Hin : (t, assigned_to s.(cr_assignments) t.(ta_id)) ∈ due) by by eapply elem_of_due.
  set (s1 := (tasks_tomorrow _ _ _ _ _ _ now today s).2). set (s2 := (plans_in_3_days _ _ _ _ _ now today s1).2).
  set (s3 := (year_end _ _ _ _ now s2).2).
  assert (Hreach : (shown (reminder t) u s.(cr_tables) < shown (reminder t) u s1.(cr_tables))%nat).
  { subst s1. rewrite Hrun. pose proof (reminders_reach now due s t _ u Hok Hin) as Hr.
    pose proof (occurrences_pos u (assigned_to s.(cr_assignments) t.(ta_id))) as Ho. rewrite elem_of_assigned in Ho. specialize (Ho Hu).
    cbn [targets set_text] in Hr. change (targets (Many ?l) None ?t) with l in Hr. enough (tables_ok fresh s.(cr_tables)) by (pose proof Hr as Hr'; specialize (Hr' ltac:(split; [done|done|exact Hid|intros v Hv%elem_of_assigned; by apply Husers])); lia).
    done. }
  assert (Hs1 : tables_ok fresh s1.(cr_tables)).
  { subst s1. rewrite Hrun. by apply (remind_tasks_since s.(cr_tables)), since_refl. }
  assert (Hs3 : since s1.(cr_tables) s3) by by apply year_since, plans_since, since_refl.
  split_and!; [done| | |done|intros now' Heq; apply check_again; by rewrite Heq].
  - destruct Hs3 as (_ & _ & Hmono). specialize (Hmono (reminder t) u). cbn. lia.
  - assert (rows_of s3 = rows_of s) as Hrows by (subst s3 s2 s1; by rewrite year_rows, plans_rows, tasks_rows).
    unfold rows_of in *. cbn. congruence.
Qed.

Lemma batches_fail (bind_ok : nat → nat → bool) l name s : (∀ n m, bind_ok n m = true → n = m) → unique_names l ≠ [] →
  ∃ e, resolving_batches fails bind_ok l name s = (Throw e, s).
Proof.
  intros Hbind Hne. unfold resolving_batches. rewrite bool_decide_eq_false_2 by done. rewrite statement_bind.
  destruct (fails name); [by eexists|]. destruct (unique_names l) as [|n names] eqn:Hl; [done|]. cbn [length batches for_each].
  unfold mbind at 1, action_bind at 1. unfold ensure at 1.
  destruct (bind_ok _ _) eqn:Hb; [|by eexists]. apply Hbind in Hb. change BATCH_SIZE with (S 499) in Hb. cbn [take length] in Hb. lia.
Qed.

Lemma unique_names_nil l : (∀ n, n ∈ l → n ≠ "") → unique_names l = [] → l = [].
Proof.
  intros Hne Hu. destruct l as [|n l]; [done|]. exfalso. assert (n ∈ unique_names (n :: l)) as Hin.
  { unfold unique_names. apply set_of_list_spec, list_elem_of_In, List.filter_In. split; [by left|].
    apply negb_true_iff, bool_decide_eq_false, Hne. by left. }
  rewrite Hu in Hin. by apply not_elem_of_nil in Hin.
Qed.

Lemma name_of_nonempty n x : x ∈ name_of n → x ≠ "" ∧ set_text n = Some x.
Proof.
  unfold name_of. destruct (set_text n) as [t|] eqn:Ht; [|by intros ?%not_elem_of_nil].
  intros ->%list_elem_of_singleton. split; [|done]. intros ->. unfold set_text in Ht. destruct n as [t|]; [|done]. cbn in Ht.
  case_bool_decide; congruence.
Qed.

(** Without a name there is nobody to tell. *)
Lemma nameless_quiet {A} (f : A → option string) (type text : A → string) now m link l s : flat_map (λ x, name_of (f x)) l = [] →
  for_each (λ x, notify_named fresh uuid_ok now m (f x) (type x) (text x) link) l s = (Ok tt, s).
Proof.
  induction l as [|x l IH]; intros H; [done|]. cbn [flat_map] in H. apply app_eq_nil in H as [Hx Hl]. cbn [for_each].
  unfold mbind, action_bind. unfold notify_named at 1. unfold name_of in Hx. destruct (set_text (f x)); [done|]. cbn. by apply IH.
Qed.

(** Resolving the names and telling their users ends where it began. *)
Lemma nobody_told {A} (bind_ok : nat → nat → bool) (f : A → option string) (type text : A → string) (table : cron_state → list user) now name link l s :
  (∀ n m, bind_ok n m = true → n = m) → let names := flat_map (λ x, name_of (f x)) l in
  let r := (_ ← resolving_batches fails bind_ok names name;
            m ← gets (λ s, batchResolveUsersByName names (table s));
            for_each (λ x, notify_named fresh uuid_ok now m (f x) (type x) (text x) link) l) s in
  r.2 = s ∧ (names ≠ [] → ∃ e, r.1 = Throw e).
Proof.
  intros Hbind. cbn zeta. assert (Hne : ∀ n, n ∈ flat_map (λ x, name_of (f x)) l → n ≠ "").
  { intros n (x & _ & Hn%list_elem_of_In)%list_elem_of_In%in_flat_map. exact (proj1 (name_of_nonempty _ _ Hn)). }
  unfold mbind at 1 3, action_bind at 1 3. destruct (decide (unique_names (flat_map (λ x, name_of (f x)) l) = [])) as [Hu|Hu].
  - unfold resolving_batches at 1. rewrite !bool_decide_eq_true_2 by done. apply unique_names_nil in Hu; [|done].
    cbn. rewrite gets_bind. rewrite nameless_quiet by done. done.
  - destruct (batches_fail bind_ok _ name s Hbind Hu) as [e ->]. split; [done|]. intros _. by eexists.
Qed.

(** the lead auditors of the plans a day starts and the people responsible for the
    recommendations due in a week are never notified: the query that resolves their
    names passes every name twice for one placeholder, which a server that counts the
    values of a statement refuses; the plans have been moved by then. *)
Theorem names_are_never_resolved (bind_ok : nat -> nat -> bool) now s
  (Hbind : forall n m, bind_ok n m = true -> n = m) :
  let plans := start_plans fresh uuid_ok fails bind_ok now (iso_date now) s in
  plans.2.(cr_tables) = s.(cr_tables) /\
  (due_soon offset local_offset fresh uuid_ok fails bind_ok now s).2.(cr_tables) = s.(cr_tables) /\
  (forall p, p ∈ s.(cr_plans) -> plan_starts (iso_date now) p = true -> set_text p.(pl_lead) <> None -> exists e, plans.1 = Throw e).
Proof.
  cbn zeta. pose proof (λ s1, nobody_told bind_ok pl_lead (λ _, "plan_started")
    (λ p, "The audit plan " +:+ quote p.(pl_title) +:+ " has automatically started today.") (λ s, s.(cr_tables).(ns_users)) now "plans.users" "/plan"
    (select (plan_starts (iso_date now)) s.(cr_plans)) s1 Hbind) as Hplans.
  pose proof (nobody_told bind_ok re_responsible (λ _, "recommendation_due_soon")
    (λ _, "A recommendation assigned to you is due in 7 days.") (λ s, s.(cr_tables).(ns_users)) now "soon.users" "/recommendations"
    (select (rec_due_on (iso_date (add_days offset local_offset 7 now))) s.(cr_recs)) s Hbind) as Hsoon.
  cbn zeta in Hplans, Hsoon. unfold start_plans, due_soon. rewrite !statement_bind. split_and!.
  - destruct (fails "plans.select"); [done|]. rewrite gets_bind. case_bool_decide; [done|].
    rewrite statement_bind. destruct (fails "plans.update"); [done|]. rewrite modify_bind. by rewrite (proj1 (Hplans _)).
  - destruct (fails "soon.select"); [done|]. rewrite gets_bind. case_bool_decide; [done|]. by rewrite (proj1 Hsoon).
  - intros p Hp Hstart Hlead. destruct (fails "plans.select"); [by eexists|]. rewrite gets_bind.
    assert (Hin : p ∈ select (plan_starts (iso_date now)) s.(cr_plans)) by by apply elem_of_select.
    rewrite bool_decide_eq_false_2 by (intros Hl%nil_length_inv; rewrite Hl in Hin; by apply not_elem_of_nil in Hin).
    rewrite statement_bind. destruct (fails "plans.update"); [by eexists|]. rewrite modify_bind. apply Hplans.
    intros Hnil. destruct (set_text (pl_lead p)) as [n|] eqn:Hn; [|done].
    assert (n ∈ flat_map (λ x, name_of (pl_lead x)) (select (plan_starts (iso_date now)) s.(cr_plans))) as Hx.
    { apply list_elem_of_In, in_flat_map. exists p. split; [by apply list_elem_of_In|]. unfold name_of. rewrite Hn. by left. }
    rewrite Hnil in Hx. by apply not_elem_of_nil in Hx.
Qed.
End reminders.

(** ** Runs of the definitions *)

Module Days.
(** Four hours ahead of UTC. *)
Definition east (_ : Z) : Z := 14400000.
Definition utc (_ : Z) : Z := 0.
Definition calm (_ : string) : bool := false.
Definition due_task : task :=
  {| ta_id := "t"; ta_title := "Check"; ta_due := Some "2026-03-05"; ta_status := "in_progress"; ta_assigned := Some "b"; ta_deleted := false |}.
Definition near_task : task :=
  {| ta_id := "n"; ta_title := "Near"; ta_due := Some "2026-03-07"; ta_status := "in_progress"; ta_assigned := Some "b"; ta_deleted := false |}.
Definition due_rec : recommendation := {| re_id := "r"; re_responsible := Some "b"; re_status := "Open"; re_due := Some "2026-03-11" |}.
Definition plan_today : plan :=
  {| pl_id := "p"; pl_title := "Plan"; pl_lead := Some "b"; pl_status := "Planned"; pl_start := Some "2026-03-05"; pl_end := None;
     pl_archived := false; pl_year := Some 2026 |}.
Definition day_one : cron_state :=
  {| cr_plans := [plan_today]; cr_recs := [due_rec]; cr_instructions := []; cr_policies := []; cr_tasks := [due_task; near_task];
     cr_assignments := [("t", "b")]; cr_tables := Notifications.Feeds.empty; cr_checked := None; cr_lastRun := None |}.
(** 2026-03-04T12:00Z *)
Definition noon : Z := 1772625600000.
Abbreviation check fails := (checkUpcomingDeadlines utc utc Notifications.Feeds.fresh Notifications.Feeds.uuid_ok fails (λ t, t)).
Abbreviation daily off := (runDailyAutomations off off Notifications.Feeds.fresh Notifications.Feeds.uuid_ok calm Nat.eqb (λ t, t)).
Definition near_count (s : cron_state) : nat :=
  shown ("task_status_changed", message "notifications.taskDeadlineNear" [("title", JStr "Near"); ("date", JStr "2026-03-07")],
         "AuditTasks", "/tasks") "b" s.(cr_tables).
Definition reminded (s : cron_state) : nat := shown (reminder (λ t, t) due_task) "b" s.(cr_tables).

(** A failed query costs the reminders of the day: the date is recorded all the same.  A
    restart forgets the date and the reminders come twice; so do those of the daily
    automations.  And the job that midnight starts four hours east of Greenwich
    computes the day before, so a plan starts a day late. *)
Theorem schedule_gaps :
  (let broken := check (λ name, bool_decide (name = "tomorrow.select")) noon day_one in
   broken.2.(cr_checked) = Some "2026-03-04" ∧ reminded (check calm (noon + 3600000) broken.2).2 = 0%nat) ∧
  (let once := (check calm noon day_one).2 in
   reminded once = 1%nat ∧ reminded (check calm noon (with_times None None once)).2 = 2%nat) ∧
  (let once := (daily utc noon day_one).2 in near_count once = 1%nat ∧ near_count (daily utc noon once).2 = 2%nat) ∧
  (let midnight := 1772654400000 in
   getDate east midnight = 5 ∧ LocalTime east midnight mod msPerDay = 0 ∧
   map pl_status (daily east midnight day_one).2.(cr_plans) = ["Planned"]).
Proof. vm_compute. repeat split. Qed.
End Days.

Lemma deadline_reminders_witness :
  let s' := (Days.check Days.calm Days.noon Days.day_one).2 in
  (Days.reminded Days.day_one < Days.reminded s')%nat ∧ Days.check Days.calm (Days.noon + 3600000) s' = (Ok tt, s').
Proof.
  destruct (deadline_reminders Days.utc Days.utc Notifications.Feeds.fresh Notifications.Feeds.uuid_ok Days.calm (λ t, t)
    Notifications.Feeds.fresh_inj Days.noon Days.day_one Days.due_task "b") as (_ & Hmore & _ & _ & Hagain).
  - exact Notifications.Feeds.feeds_ok.
  - done.
  - done.
  - done.
  - done.
  - by left.
  - by vm_compute.
  - by vm_compute.
  - by left.
  - intros v [[= <-]|[]]%list_elem_of_In. split; [by vm_compute|]. apply (bool_decide_unpack _). by vm_compute.
  - split; [exact Hmore|]. apply Hagain. by vm_compute.
Defined.

Lemma names_are_never_resolved_witness :
  let plans := start_plans Notifications.Feeds.fresh Notifications.Feeds.uuid_ok Days.calm Nat.eqb (Days.noon + 86400000) "2026-03-05" Days.day_one in
  map pl_status plans.2.(cr_plans) = ["In Progress"] ∧ plans.2.(cr_tables) = Days.day_one.(cr_tables) ∧ ∃ e, plans.1 = Throw e.
Proof.
  destruct (names_are_never_resolved Days.utc Days.utc Notifications.Feeds.fresh Notifications.Feeds.uuid_ok Days.calm Nat.eqb
    (Days.noon + 86400000) Days.day_one) as (Hsame & _ & Hthrow).
  - intros n m. apply Nat.eqb_eq.
  - change (iso_date (Days.noon + 86400000)) with "2026-03-05" in Hsame, Hthrow. split_and!; [by vm_compute|exact Hsame|].
    apply (Hthrow Days.plan_today); [by left|by vm_compute|discriminate].
Defined.
