(* ===== verification/RedisManager.v ===== *)
(** * The Redis connection ([cache/redisManager.ts])

    The connection manager as a state machine: a call of [connect], what its clients and
    timers do, in any order, and the commands that fall back when there is no
    connection.  A client is a number; what a command of a client answers is an argument.
    An unsettled promise of [createConnection] is listed by its client; the handlers
    of a rejection run at once. *)

From S2P Require Import Prelude.
Local Open Scope Z_scope.

(** ** State *)

Inductive RedisConnectionStatus := Disconnected | Connecting | Connected | Degraded.
#[export] Instance status_eq_dec : EqDecision RedisConnectionStatus.
Proof. solve_decision. Defined.

Record RedisManagerOptions := {
  ro_url : option string; ro_connectTimeout : option Z; ro_reconnectInterval : option Z;
  ro_maxReconnectAttempts : option Z; ro_maxBackoffMs : option Z }.

Record RedisManager := {
  rm_client : option nat; rm_status : RedisConnectionStatus; rm_attempts : Z; rm_timer : option Z;
  rm_url : string; rm_connectTimeout : Z; rm_interval : Z; rm_max : Z; rm_maxBackoff : Z;
  (** Clients made so far, connection timeouts that run, promises that are not settled. *)
  rm_made : nat; rm_timeouts : list nat; rm_pending : list nat }.

Definition with_status (s : RedisConnectionStatus) (m : RedisManager) : RedisManager :=
  {| rm_client := m.(rm_client); rm_status := s; rm_attempts := m.(rm_attempts); rm_timer := m.(rm_timer); rm_url := m.(rm_url);
     rm_connectTimeout := m.(rm_connectTimeout); rm_interval := m.(rm_interval); rm_max := m.(rm_max); rm_maxBackoff := m.(rm_maxBackoff);
     rm_made := m.(rm_made); rm_timeouts := m.(rm_timeouts); rm_pending := m.(rm_pending) |}.
Definition with_attempts (n : Z) (m : RedisManager) : RedisManager :=
  {| rm_client := m.(rm_client); rm_status := m.(rm_status); rm_attempts := n; rm_timer := m.(rm_timer); rm_url := m.(rm_url);
     rm_connectTimeout := m.(rm_connectTimeout); rm_interval := m.(rm_interval); rm_max := m.(rm_max); rm_maxBackoff := m.(rm_maxBackoff);
     rm_made := m.(rm_made); rm_timeouts := m.(rm_timeouts); rm_pending := m.(rm_pending) |}.
Definition with_timer (t : option Z) (m : RedisManager) : RedisManager :=
  {| rm_client := m.(rm_client); rm_status := m.(rm_status); rm_attempts := m.(rm_attempts); rm_timer := t; rm_url := m.(rm_url);
     rm_connectTimeout := m.(rm_connectTimeout); rm_interval := m.(rm_interval); rm_max := m.(rm_max); rm_maxBackoff := m.(rm_maxBackoff);
     rm_made := m.(rm_made); rm_timeouts := m.(rm_timeouts); rm_pending := m.(rm_pending) |}.
Definition with_client (c : option nat) (m : RedisManager) : RedisManager :=
  {| rm_client := c; rm_status := m.(rm_status); rm_attempts := m.(rm_attempts); rm_timer := m.(rm_timer); rm_url := m.(rm_url);
     rm_connectTimeout := m.(rm_connectTimeout); rm_interval := m.(rm_interval); rm_max := m.(rm_max); rm_maxBackoff := m.(rm_maxBackoff);
     rm_made := m.(rm_made); rm_timeouts := m.(rm_timeouts); rm_pending := m.(rm_pending) |}.
Definition with_promises (made : nat) (timeouts pending : list nat) (m : RedisManager) : RedisManager :=
  {| rm_client := m.(rm_client); rm_status := m.(rm_status); rm_attempts := m.(rm_attempts); rm_timer := m.(rm_timer); rm_url := m.(rm_url);
     rm_connectTimeout := m.(rm_connectTimeout); rm_interval := m.(rm_interval); rm_max := m.(rm_max); rm_maxBackoff := m.(rm_maxBackoff);
     rm_made := made; rm_timeouts := timeouts; rm_pending := pending |}.

(** The constructor; [REDIS_URL] of the environment is used when there is no URL. *)
Definition new_manager (o : RedisManagerOptions) (REDIS_URL : option string) : RedisManager :=
  let given u := match u with Some t => if bool_decide (t = "") then None else Some t | None => None end in
  {| rm_client := None; rm_status := Disconnected; rm_attempts := 0; rm_timer := None;
     rm_url := match given o.(ro_url) with Some u => u | None => default "" (given REDIS_URL) end;
     rm_connectTimeout := default 5000 o.(ro_connectTimeout); rm_interval := default 5000 o.(ro_reconnectInterval);
     rm_max := default 3 o.(ro_maxReconnectAttempts); rm_maxBackoff := default 60000 o.(ro_maxBackoffMs);
     rm_made := 0; rm_timeouts := []; rm_pending := [] |}.

Definition isAvailable (m : RedisManager) : bool := bool_decide (m.(rm_status) = Connected) && bool_decide (is_Some m.(rm_client)).

(** ** Reconnecting *)

(** The delay before the next attempt. *)
Definition backoffMs (m : RedisManager) : Z :=
  let exhausted := m.(rm_max) <=? m.(rm_attempts) in
  let exponent := if exhausted then m.(rm_attempts) - m.(rm_max) + 1 else 0 in
  if exhausted then Z.min m.(rm_maxBackoff) (m.(rm_interval) * 2 ^ exponent) else m.(rm_interval).

Definition scheduleReconnect (m : RedisManager) : RedisManager :=
  match m.(rm_timer) with Some _ => m | None => with_timer (Some (backoffMs m)) m end.
Definition clearReconnectTimer (m : RedisManager) : RedisManager := with_timer None m.

(** A new client replaces the one there is; its promise and its timeout start. *)
Definition createConnection (m : RedisManager) : RedisManager :=
  let c := m.(rm_made) in
  with_promises (S c) (c :: m.(rm_timeouts)) (c :: m.(rm_pending)) (with_client (Some c) m).

Definition drop_id (c : nat) (l : list nat) : list nat := List.filter (λ x, negb (Nat.eqb x c)) l.
Definition clear_timeout (c : nat) (m : RedisManager) : RedisManager :=
  with_promises m.(rm_made) (drop_id c m.(rm_timeouts)) m.(rm_pending) m.
Definition resolve (c : nat) (m : RedisManager) : RedisManager :=
  with_promises m.(rm_made) m.(rm_timeouts) (drop_id c m.(rm_pending)) m.
(** [connect] and the timer handle a rejection alike. *)
Definition reject (c : nat) (m : RedisManager) : RedisManager :=
  if bool_decide (c ∈ m.(rm_pending)) then scheduleReconnect (with_status Degraded (resolve c m)) else m.

(** What happens to a client: it connects, fails, closes, or its [connect()] rejects. *)
Inductive event :=
  | OnConnect (c : nat) | OnError (c : nat) | OnClose (c : nat) | ConnectFails (c : nat)
  | ConnectionTimeout (c : nat) | ReconnectTimer.

Definition lost (m : RedisManager) : RedisManager :=
  if bool_decide (m.(rm_status) = Connected) then scheduleReconnect (with_status Degraded m) else m.

Definition apply_event (m : RedisManager) (e : event) : RedisManager :=
  match e with
  | OnConnect c => resolve c (clearReconnectTimer (with_attempts 0 (with_status Connected (clear_timeout c m))))
  | OnError _ | OnClose _ => lost m
  | ConnectFails c => reject c (clear_timeout c m)
  | ConnectionTimeout c =>
      if bool_decide (c ∈ m.(rm_timeouts)) then
        let m := clear_timeout c m in
        if bool_decide (m.(rm_status) = Connecting) then reject c m else m
      else m
  | ReconnectTimer =>
      match m.(rm_timer) with
      | Some _ => createConnection (with_attempts (m.(rm_attempts) + 1) (with_timer None m))
      | None => m
      end
  end.

(** [connect()] up to its first wait; [None] when the process exits. *)
Definition connect (production : bool) (m : RedisManager) : option RedisManager :=
  if bool_decide (m.(rm_url) = "") then
    if production then None else Some (with_status Degraded m)
  else Some (createConnection (with_status Connecting m)).

(** [disconnect()] before and after its wait for [quit]. *)
Definition disconnect_begin (m : RedisManager) : RedisManager := clearReconnectTimer m.
Definition disconnect_end (m : RedisManager) : RedisManager := with_status Disconnected (with_client None m).

(** ** Commands *)

Section commands.
Context (client_get : nat → string → outcome string (option string)).
Context (client_set : nat → string → string → option Z → outcome string unit) (client_del : nat → string → outcome string unit).
Context (client_ping : nat → outcome string string).

Definition available_client (m : RedisManager) : option nat := if isAvailable m then m.(rm_client) else None.
Definition get (m : RedisManager) (key : string) : option string :=
  match available_client m with
  | Some c => match client_get c key with Ok v => v | Throw _ => None end
  | None => None
  end.
Definition set (m : RedisManager) (key value : string) (ttlSeconds : option Z) : bool :=
  match available_client m with
  | Some c =>
      let ttl := match ttlSeconds with Some t => if 0 <? t then Some t else None | None => None end in
      match client_set c key value ttl with Ok _ => true | Throw _ => false end
  | None => false
  end.
Definition del (m : RedisManager) (key : string) : bool :=
  match available_client m with
  | Some c => match client_del c key with Ok _ => true | Throw _ => false end
  | None => false
  end.
Definition ping (m : RedisManager) : bool :=
  match available_client m with
  | Some c => match client_ping c with Ok r => bool_decide (r = "PONG") | Throw _ => false end
  | None => false
  end.
Definition getClient (m : RedisManager) : option nat := available_client m.
End commands.

(** ** Properties *)

(** While there is no connection, a timer or an attempt is on its way; a delay is the
    one the number of failures gives. *)
Record recovering (m : RedisManager) : Prop := {
  rc_client : is_Some m.(rm_client);
  rc_attempts : 0 <= m.(rm_attempts);
  rc_timer : ∀ d, m.(rm_timer) = Some d → d = m.(rm_interval) ∨ ∃ k, 0 <= k ∧ d = Z.min m.(rm_maxBackoff) (m.(rm_interval) * 2 ^ k);
  rc_status : m.(rm_status) ≠ Disconnected;
  rc_way : m.(rm_status) ≠ Connected → is_Some m.(rm_timer) ∨ m.(rm_pending) ≠ [] }.

(** The settings never change. *)
Definition same_settings (m m' : RedisManager) : Prop :=
  m'.(rm_interval) = m.(rm_interval) ∧ m'.(rm_maxBackoff) = m.(rm_maxBackoff) ∧ m'.(rm_max) = m.(rm_max).

Lemma schedule_recovering m : is_Some m.(rm_client) → 0 <= m.(rm_attempts) → m.(rm_status) = Degraded →
  (∀ d, m.(rm_timer) = Some d → d = m.(rm_interval) ∨ ∃ k, 0 <= k ∧ d = Z.min m.(rm_maxBackoff) (m.(rm_interval) * 2 ^ k)) →
  recovering (scheduleReconnect m).
Proof.
  intros Hc Ha Hs Ht. unfold scheduleReconnect. destruct (rm_timer m) as [d|] eqn:Hd.
  - split; [done|done|by rewrite Hd|by rewrite Hs|]. intros _. left. by rewrite Hd.
  - split; cbn; [done|done| |by rewrite Hs|by left]. intros d [= <-]. unfold backoffMs.
    case_match eqn:He; [|by left]. apply Z.leb_le in He. right. eexists. split; [|done]. lia.
Qed.

Lemma reject_recovering c m : recovering m → recovering (reject c m).
Proof.
  intros H. unfold reject. case_bool_decide; [|done]. destruct H. by apply schedule_recovering.
Qed.

Lemma clear_timeout_recovering c m : recovering m → recovering (clear_timeout c m).
Proof. by intros []. Qed.

Lemma event_recovering m e : recovering m → recovering (apply_event m e).
Proof.
  intros H. destruct e as [c|c|c|c|c|]; cbn [apply_event].
  - destruct H. split; cbn; [done|done|by intros d [=]|done|done].
  - unfold lost. case_bool_decide; [|done]. destruct H. by apply schedule_recovering.
  - unfold lost. case_bool_decide; [|done]. destruct H. by apply schedule_recovering.
  - by apply reject_recovering, clear_timeout_recovering.
  - case_bool_decide; [|done]. case_bool_decide; [by apply reject_recovering, clear_timeout_recovering|by apply clear_timeout_recovering].
  - destruct (rm_timer m) eqn:Ht; [|done]. destruct H. split; cbn; [done|lia|by intros d [=]|done|by right].
Qed.

Lemma event_settings m e : same_settings m (apply_event m e).
Proof.
  unfold same_settings. destruct e as [c|c|c|c|c|]; cbn [apply_event]; unfold lost, reject, scheduleReconnect;
    repeat (case_bool_decide || case_match); done.
Qed.

Lemma events_settings l : ∀ m, same_settings m (foldl apply_event m l).
Proof.
  induction l as [|e l IH]; intros m; [done|]. cbn [foldl]. destruct (event_settings m e) as (H1 & H2 & H3), (IH (apply_event m e)) as (K1 & K2 & K3).
  split_and!; congruence.
Qed.

Lemma events_recovering l : ∀ m, recovering m → recovering (foldl apply_event m l).
Proof. induction l as [|e l IH]; intros m H; [done|]. cbn [foldl]. by apply IH, event_recovering. Qed.

Lemma connect_recovering m : rm_url m ≠ "" → 0 <= rm_attempts m → rm_timer m = None → ∃ m', connect true m = Some m' ∧ connect false m = Some m' ∧
  recovering m' ∧ same_settings m m'.
Proof.
  intros Hu Ha Ht. exists (createConnection (with_status Connecting m)). unfold connect. rewrite bool_decide_eq_false_2 by done.
  split_and!; try done. split; cbn; [done|done|by rewrite Ht|done|by right].
Qed.

(** C31: The manager never gives up: after [connect] with a URL, whatever its clients and
    timers do, it is connected, or a reconnection is scheduled, or an attempt is under
    way; a delay is positive and no longer than the larger of the interval and the
    greatest backoff; and from every such state two events suffice for commands to reach Redis again. *)
Theorem redis_keeps_recovering o REDIS_URL production l m0
  (Hurl : (new_manager o REDIS_URL).(rm_url) <> "")
  (Hint : 0 < (new_manager o REDIS_URL).(rm_interval)) (Hback : 0 < (new_manager o REDIS_URL).(rm_maxBackoff))
  (Hconnect : connect production (new_manager o REDIS_URL) = Some m0) :
  let m := foldl apply_event m0 l in
  (m.(rm_status) = Connected \/ is_Some m.(rm_timer) \/ m.(rm_pending) <> []) /\
  (forall d, m.(rm_timer) = Some d -> 0 < d <= Z.max m.(rm_interval) m.(rm_maxBackoff)) /\
  exists l', (length l' <= 2)%nat /\ isAvailable (foldl apply_event m l') = true /\
    forall c, OnConnect c ∈ l' -> c ∈ m.(rm_pending) \/ (m.(rm_timer) <> None /\ c = m.(rm_made)).
Proof.
  destruct (connect_recovering _ Hurl (Z.le_refl 0) eq_refl) as (m1 & Htrue & Hfalse & Hrec & Hset).
  assert (m0 = m1) as -> by (destruct production; congruence).
  pose proof (events_settings l m1) as (S1 & S2 & _). destruct Hset as (T1 & T2 & _).
  pose proof (events_recovering l m1 Hrec) as H. cbn zeta. set (m := foldl apply_event m1 l) in *. clearbody m.
  rewrite S1, S2, T1, T2. split_and!.
  - destruct (decide (rm_status m = Connected)); [by left|right]. by apply rc_way.
  - intros d Hd. destruct (rc_timer m H d Hd) as [->|(k & Hk & ->)]; rewrite ?S1, ?S2, ?T1, ?T2; [lia|].
    assert (0 < 2 ^ k) by (apply Z.pow_pos_nonneg; lia). split; [apply Z.min_glb_lt; [done|nia]|lia].
  - destruct (decide (rm_status m = Connected)) as [Hs|Hs].
    + exists []. split_and!; [cbn; lia| |by intros c ?%not_elem_of_nil]. unfold isAvailable. cbn.
      rewrite Hs. destruct (rc_client m H) as [c ->]. done.
    + destruct (rc_way m H Hs) as [[d Ht]|Hp].
      * exists [ReconnectTimer; OnConnect m.(rm_made)]. split_and!; [done| |].
        { cbn [foldl apply_event]. by rewrite Ht. }
        intros c [[=]|[[=]|[]%elem_of_nil]%elem_of_cons]%elem_of_cons. right. by rewrite Ht.
      * destruct (rm_pending m) as [|c p] eqn:Hpend; [done|]. exists [OnConnect c]. split_and!; [cbn; lia| |].
        { cbn [foldl apply_event]. unfold isAvailable. cbn. by destruct (rc_client m H) as [c' ->]. }
        intros c' [[= ->]|[]%elem_of_nil]%elem_of_cons. left. by left.
Qed.

(** The first attempts wait the interval; the later ones wait twice as long every time, up to the greatest backoff. *)
Theorem backoff_doubles m n (Hm : 0 < rm_max m) (Hi : 0 < rm_interval m) (Hn : 0 <= n) :
  (n < m.(rm_max) -> backoffMs (with_attempts n m) = m.(rm_interval)) /\
  (m.(rm_max) <= n -> backoffMs (with_attempts n m) = Z.min m.(rm_maxBackoff) (m.(rm_interval) * 2 ^ (n - m.(rm_max) + 1)) /\
     (backoffMs (with_attempts n m) = m.(rm_maxBackoff) \/
      backoffMs (with_attempts (n + 1) m) = Z.min m.(rm_maxBackoff) (2 * backoffMs (with_attempts n m)))).
Proof.
  unfold backoffMs. cbn [with_attempts rm_max rm_attempts rm_interval rm_maxBackoff]. split.
  - intros H. by rewrite (proj2 (Z.leb_gt _ _) H).
  - intros H. rewrite (proj2 (Z.leb_le _ _) H), (proj2 (Z.leb_le (rm_max m) (n + 1))) by lia. split; [done|].
    replace (n + 1 - rm_max m + 1) with (Z.succ (n - rm_max m + 1)) by lia. rewrite Z.pow_succ_r by lia.
    assert (0 < 2 ^ (n - rm_max m + 1)) by (apply Z.pow_pos_nonneg; lia).
    destruct (Z.le_gt_cases (rm_maxBackoff m) (rm_interval m * 2 ^ (n - rm_max m + 1))); [left|right]; nia.
Qed.

Lemma backoff_doubles_witness :
  let m := new_manager (Build_RedisManagerOptions (Some "redis://cache:6379") None None None None) None in
  map (λ n, backoffMs (with_attempts n m)) [0; 2; 3; 4; 5; 6] = [5000; 5000; 10000; 20000; 40000; 60000] ∧
  backoffMs (with_attempts 2 m) = m.(rm_interval).
Proof.
  cbn zeta. split; [by vm_compute|].
  refine (proj1 (backoff_doubles (new_manager (Build_RedisManagerOptions (Some "redis://cache:6379") None None None None) None) 2 _ _ _) _);
    vm_compute; congruence.
Defined.

Module Cache.
Definition options : RedisManagerOptions := Build_RedisManagerOptions (Some "redis://cache:6379") None None None None.
Definition manager : RedisManager := new_manager options None.
Definition connecting : RedisManager := default manager (connect true manager).

(** Disconnecting while an attempt is under way stops nothing: when the attempt fails,
    the manager schedules the next one.  And the timeout of a reconnection never ends it,
    because the status is then degraded, not connecting. *)
Theorem redis_gaps :
  (let stopped := disconnect_end (disconnect_begin connecting) in
   let later := apply_event stopped (ConnectFails 0) in
   stopped.(rm_status) = Disconnected ∧ later.(rm_status) = Degraded ∧ later.(rm_timer) = Some 5000 ∧
   isAvailable (foldl apply_event later [ReconnectTimer; OnConnect 1]) = true) ∧
  (let again := foldl apply_event connecting [ConnectionTimeout 0; ReconnectTimer] in
   again.(rm_pending) = [1%nat] ∧
   let later := apply_event again (ConnectionTimeout 1) in later.(rm_pending) = [1%nat] ∧ later.(rm_timer) = None).
Proof. by vm_compute. Qed.
End Cache.

Lemma redis_keeps_recovering_witness :
  let m := foldl apply_event Cache.connecting [OnConnect 0; OnClose 0; ReconnectTimer; ConnectFails 1; OnError 0] in
  m.(rm_timer) = Some 5000 ∧ (m.(rm_status) = Connected ∨ is_Some m.(rm_timer) ∨ m.(rm_pending) ≠ []).
Proof.
  cbn zeta. split; [by vm_compute|].
  destruct (redis_keeps_recovering Cache.options None true [OnConnect 0; OnClose 0; ReconnectTimer; ConnectFails 1; OnError 0] Cache.connecting)
    as (H & _); [discriminate|by vm_compute..|exact H].
Defined.
