(* ===== verification/DbWrapper.v ===== *)
(** * The database wrapper ([db/index.ts])

    What a statement of the services goes through: its placeholders are numbered, the
    lock of the embedded database is taken, the engine is checked and restarted when it
    failed, the query is sent and sent again after an engine failure, and its error is
    classified.  Then the connection at start-up.  An engine is a number; what it
    answers, when it is ready and whether the lock is granted are arguments, and the
    state counts the answers used.  [store] is the connection of the transaction a
    statement runs in.  Steps of one statement are not interleaved with others here;
    the lock itself is [ReadWriteLock]. *)

From S2P Require Import Prelude JsMap JsStrings Json.
Local Open Scope Z_scope.

(** ** Errors *)

Inductive errno_value := ErrnoText (s : string) | ErrnoNumber (n : Z).
(** [de_status] is [None] without the property, [Some None] when it is not a number. *)
Record db_error := {
  de_message : string; de_name : string; de_code : option string; de_errno : option errno_value; de_status : option (option Z);
  de_statusCode : option Z }.
Inductive fault := Failed (e : db_error) | Exited.

Definition error_text (e : db_error) : string := if bool_decide (e.(de_message) = "") then e.(de_name) else e.(de_message).
(** What [executeWithRetry] takes for a failure of the engine. *)
Definition isExitStatus (e : db_error) : bool :=
  includes (error_text e) "ExitStatus" || includes e.(de_name) "ExitStatus" || bool_decide (is_Some e.(de_status)) || bool_decide (is_Some e.(de_errno)).

(** What [ensureReady] takes for one. *)
Definition checkError (e : db_error) : bool :=
  let errStr := toLowerCase e.(de_message) in
  let errName := toLowerCase e.(de_name) in
  let isNetworkOrIo :=
    match e.(de_code) with
    | Some c => if bool_decide (c = "") then
                  match e.(de_errno) with
                  | Some (ErrnoText t) => bool_decide (t ∈ ["EIO"; "EPERM"; "EBUSY"; "ECONNREFUSED"])
                  | Some (ErrnoNumber n) => n =? 20
                  | None => false
                  end
                else bool_decide (c ∈ ["EIO"; "EPERM"; "EBUSY"; "ECONNREFUSED"])
    | None => match e.(de_errno) with
              | Some (ErrnoText t) => bool_decide (t ∈ ["EIO"; "EPERM"; "EBUSY"; "ECONNREFUSED"])
              | Some (ErrnoNumber n) => n =? 20
              | None => false
              end
    end in
  let isPgFail := bool_decide (e.(de_name) = "PgError") || match e.(de_status) with Some (Some n) => negb (n =? 200) | _ => false end in
  let isWasmCrash := existsb (includes errStr) ["exit status"; "abort("; "failed to initialize properly"; "closed"; "errno: 20"] ||
    existsb (includes errName) ["exitstatus"; "errnoerror"] in
  isNetworkOrIo || isPgFail || isWasmCrash.

Definition pool_timeout (cause : db_error) : db_error :=
  {| de_message := "pool acquisition timeout: a database connection did not become available within the configured acquisition timeout";
     de_name := "Error"; de_code := Some "POOL_ACQUISITION_TIMEOUT"; de_errno := None; de_status := None; de_statusCode := Some 503 |}.
Definition is_pool_timeout (e : db_error) : bool :=
  includes (toLowerCase e.(de_message)) "timeout exceeded when trying to connect" ||
  includes (toLowerCase e.(de_message)) "connection terminated due to connection timeout" ||
  bool_decide (e.(de_code) = Some "POOL_ACQUISITION_TIMEOUT").
Definition normalizePoolError (e : db_error) : db_error := if is_pool_timeout e then pool_timeout e else e.

Definition classifyConnectionError (e : db_error) : string :=
  let message := toLowerCase (error_text e) in
  let code_is c := bool_decide (e.(de_code) = Some c) in
  if code_is "ECONNREFUSED" || includes message "econnrefused" || includes message "connection refused" then "connection refused"
  else if code_is "ETIMEDOUT" || includes message "timeout" || includes message "timed out" then "connection timeout"
  else if includes message "password" || includes message "authentication" || includes message "auth" || code_is "28P01" || code_is "28000"
       then "bad credentials"
  else if includes message "ssl" || includes message "certificate" then "SSL/TLS error"
  else if includes message "does not exist" || includes message "no such host" || code_is "ENOTFOUND" then "host not found"
  else "unknown error".

(** ** Statement texts *)

(** [sql.replace(/\?/g, () => `$${counter++}`)] *)
Fixpoint number_chars (counter : N) (l : list ascii) : list ascii :=
  match l with
  | [] => []
  | c :: r => if (code c =? 63)%N then chars ("$" +:+ pretty counter) ++ number_chars (counter + 1) r else c :: number_chars counter r
  end.
Definition number_placeholders (sql : string) : string := of_chars (number_chars 1 (chars sql)).

(** [w], in lower case, at the front of a text in any case. *)
Fixpoint strip_ci (w l : list ascii) : option (list ascii) :=
  match w, l with
  | [], _ => Some l
  | a :: w', b :: l' => if bool_decide (a = lower_char b) then strip_ci w' l' else None
  | _, _ => None
  end.
(** [s.replace(/w/gi, by)]; every round consumes a character, so the length is enough. *)
Fixpoint replace_ci (fuel : nat) (w by' : list ascii) (l : list ascii) : list ascii :=
  match fuel, l with
  | S f, c :: r => match strip_ci w l with Some rest => by' ++ replace_ci f w by' rest | None => c :: replace_ci f w by' r end
  | _, _ => l
  end.
Definition replaceAll_ci (w by' s : string) : string := of_chars (replace_ci (S (String.length s)) (chars w) (chars by') (chars s)).
Definition quoted_user : string := of_chars [chr 34] +:+ "user" +:+ of_chars [chr 34].
Definition convertSql (sql : string) : string :=
  replaceAll_ci "id, user, action, module" ("id, " +:+ quoted_user +:+ ", action, module")
    (replaceAll_ci "(user, action, module, details)" ("(" +:+ quoted_user +:+ ", action, module, details)") (number_placeholders sql)).

Definition trimStart (s : string) : string := of_chars (drop_while is_js_space (chars s)).
(** [/\)\s*(INSERT|UPDATE|DELETE)/i] *)
Fixpoint write_after_cte (l : list ascii) : bool :=
  match l with
  | [] => false
  | c :: r => (code c =? 41)%N && existsb (λ w, String.prefix w (toUpperCase (of_chars (drop_while is_js_space r)))) ["INSERT"; "UPDATE"; "DELETE"]
              || write_after_cte r
  end.
Definition isReadQuery (sql : string) : bool :=
  let trimmed := toUpperCase (trimStart sql) in
  if starts_with trimmed "SELECT" || starts_with trimmed "EXPLAIN" || starts_with trimmed "SHOW" then true
  else if starts_with trimmed "WITH" then negb (write_after_cte (chars sql)) else false.

Definition is_insert (sql : string) : bool := starts_with (toUpperCase (trim sql)) "INSERT".
Definition final_sql (sql : string) : string :=
  if is_insert sql && negb (includes (toUpperCase sql) "RETURNING") then sql +:+ " RETURNING *" else sql.

(** ** State *)

Abbreviation db_row := (list (string * json)).
Record DBQueryResult := { qr_rows : option (list db_row); qr_rowCount : option Z; qr_affectedRows : option Z }.
Record RunResult := { rr_lastInsertRowid : json; rr_changes : Z }.

Record wrapper := {
  wr_client : option nat; wr_isExternal : bool; wr_reconnecting : bool; wr_reconnectAttempts : Z;
  (** Engines made so far and those of them that live in memory; the locks held; the texts sent, with their connection. *)
  wr_made : nat; wr_in_memory : list nat; wr_readers : nat; wr_writers : nat; wr_sent : list (option nat * string * list json) }.

Definition with_client (c : option nat) (made : nat) (memory : list nat) (w : wrapper) : wrapper :=
  {| wr_client := c; wr_isExternal := w.(wr_isExternal); wr_reconnecting := w.(wr_reconnecting); wr_reconnectAttempts := w.(wr_reconnectAttempts);
     wr_made := made; wr_in_memory := memory; wr_readers := w.(wr_readers); wr_writers := w.(wr_writers); wr_sent := w.(wr_sent) |}.
Definition with_recovery (reconnecting : bool) (attempts : Z) (w : wrapper) : wrapper :=
  {| wr_client := w.(wr_client); wr_isExternal := w.(wr_isExternal); wr_reconnecting := reconnecting; wr_reconnectAttempts := attempts;
     wr_made := w.(wr_made); wr_in_memory := w.(wr_in_memory); wr_readers := w.(wr_readers); wr_writers := w.(wr_writers); wr_sent := w.(wr_sent) |}.
Definition with_locks (readers writers : nat) (w : wrapper) : wrapper :=
  {| wr_client := w.(wr_client); wr_isExternal := w.(wr_isExternal); wr_reconnecting := w.(wr_reconnecting); wr_reconnectAttempts := w.(wr_reconnectAttempts);
     wr_made := w.(wr_made); wr_in_memory := w.(wr_in_memory); wr_readers := readers; wr_writers := writers; wr_sent := w.(wr_sent) |}.
Definition with_sent (l : list (option nat * string * list json)) (w : wrapper) : wrapper :=
  {| wr_client := w.(wr_client); wr_isExternal := w.(wr_isExternal); wr_reconnecting := w.(wr_reconnecting); wr_reconnectAttempts := w.(wr_reconnectAttempts);
     wr_made := w.(wr_made); wr_in_memory := w.(wr_in_memory); wr_readers := w.(wr_readers); wr_writers := w.(wr_writers); wr_sent := l |}.

Definition new_wrapper (client : option nat) (isExternal : bool) : wrapper :=
  {| wr_client := client; wr_isExternal := isExternal; wr_reconnecting := false; wr_reconnectAttempts := 0;
     wr_made := match client with Some c => S c | None => 0 end; wr_in_memory := []; wr_readers := 0; wr_writers := 0; wr_sent := [] |}.
Definition updateClient (client : option nat) (isExternal : bool) (w : wrapper) : wrapper :=
  {| wr_client := client; wr_isExternal := isExternal; wr_reconnecting := w.(wr_reconnecting); wr_reconnectAttempts := 0;
     wr_made := w.(wr_made); wr_in_memory := w.(wr_in_memory); wr_readers := w.(wr_readers); wr_writers := w.(wr_writers); wr_sent := w.(wr_sent) |}.

Abbreviation db_action := (action fault wrapper).
Definition MAX_RECONNECT_ATTEMPTS : Z := 3.

Section wrapper.
Context (production : bool) (store : option nat).
(** The answer to the n-th query; the readiness of the n-th engine; whether a lock is granted. *)
Context (answer : nat → option nat → string → list json → outcome db_error DBQueryResult).
Context (ready : nat → outcome db_error unit) (grant : bool → outcome db_error unit).

(** A new engine, over the data directory or in memory. *)
Definition new_engine (memory : bool) : db_action unit :=
  modify (λ w, with_client (Some w.(wr_made)) (S w.(wr_made)) (if memory then w.(wr_made) :: w.(wr_in_memory) else w.(wr_in_memory)) w).
(** The getter [client]. *)
Definition client : db_action (option nat) :=
  w ← get_state;
  if bool_decide (w.(wr_client) = None) && negb w.(wr_isExternal) then
    if production then throw Exited else _ ← new_engine false; gets wr_client
  else mret w.(wr_client).

Definition waitReady : db_action unit :=
  w ← get_state;
  match w.(wr_client) with
  | Some c => match ready c with Ok _ => mret tt | Throw e => throw (Failed e) end
  | None => mret tt
  end.

(** What [ensureReady] does after the engine failed. *)
Definition recover (e : db_error) : db_action unit :=
  w ← get_state;
  if negb (checkError e) then throw (Failed e)
  else if MAX_RECONNECT_ATTEMPTS <=? w.(wr_reconnectAttempts) then
    if w.(wr_reconnecting) then mret tt
    else
      _ ← modify (with_recovery true w.(wr_reconnectAttempts));
      _ ← new_engine true;
      _ ← waitReady;
      modify (λ w, with_recovery false w.(wr_reconnectAttempts) w)
  else if w.(wr_reconnecting) then mret tt
  else
    _ ← modify (with_recovery true (w.(wr_reconnectAttempts) + 1));
    _ ← try_catch (_ ← new_engine false; waitReady) (λ _, mret tt);
    modify (λ w, with_recovery false w.(wr_reconnectAttempts) w).

Definition ensureReady : db_action unit :=
  w ← get_state;
  if w.(wr_isExternal) then mret tt
  else if production then throw Exited
  else
    _ ← (if bool_decide (w.(wr_client) = None) then new_engine false else mret tt);
    try_catch (_ ← waitReady; modify (λ w, with_recovery w.(wr_reconnecting) 0 w))
      (λ f, match f with Failed e => recover e | Exited => throw Exited end).

(** Without a client the call of [query] throws. *)
Definition no_client : db_error :=
  {| de_message := "Cannot read properties of null (reading 'query')"; de_name := "TypeError"; de_code := None; de_errno := None;
     de_status := None; de_statusCode := None |}.
(** [als.getStore() || this.client] *)
Definition connection : db_action (option nat) := match store with Some c => mret (Some c) | None => client end.
Definition query (sql : string) (params : list json) : db_action DBQueryResult :=
  conn ← connection;
  match conn with
  | None => throw (Failed no_client)
  | Some _ =>
      w ← get_state;
      _ ← modify (with_sent (w.(wr_sent) ++ [(conn, sql, params)]));
      match answer (length w.(wr_sent)) conn sql params with Ok r => mret r | Throw e => throw (Failed e) end
  end.

(** [executeWithRetry] with the retries that are left: two at first. *)
Fixpoint executeWithRetry (retries : nat) (sql : string) (params : list json) : db_action DBQueryResult :=
  try_catch (query sql params)
    (λ f, match f with
          | Exited => throw Exited
          | Failed e =>
              w ← get_state;
              match retries with
              | S r => if isExitStatus e && negb w.(wr_isExternal) then _ ← ensureReady; executeWithRetry r sql params else throw (Failed e)
              | O => throw (Failed e)
              end
          end).

(** A body with the lock held, which its end gives back. *)
Definition holding {A} (write : bool) (body : db_action A) : db_action A := λ s,
  let s1 := if write then with_locks s.(wr_readers) (S s.(wr_writers)) s else with_locks (S s.(wr_readers)) s.(wr_writers) s in
  let '(r, s') := body s1 in
  (r, if write then with_locks s'.(wr_readers) (pred s'.(wr_writers)) s' else with_locks (pred s'.(wr_readers)) s'.(wr_writers) s').
(** The lock around a statement of the embedded database: none in a transaction. *)
Definition locked {A} (write : bool) (body : db_action A) : db_action A :=
  w ← get_state;
  if w.(wr_isExternal) || bool_decide (is_Some store) then body
  else match grant write with Throw e => throw (Failed e) | Ok _ => holding write body end.
Definition normalized {A} (m : db_action A) : db_action A :=
  try_catch m (λ f, match f with Failed e => throw (Failed (normalizePoolError e)) | Exited => throw Exited end).

(** [res.rows ? res.rows[0] : undefined] *)
Definition first_row (r : DBQueryResult) : option db_row := match r.(qr_rows) with Some (row :: _) => Some row | _ => None end.
Definition get (sql : string) (params : list json) : db_action (option db_row) :=
  locked false (normalized (_ ← ensureReady; r ← executeWithRetry 2 (convertSql sql) params; mret (first_row r))).
Definition all (sql : string) (params : list json) : db_action (list db_row) :=
  locked false (normalized (_ ← ensureReady; r ← executeWithRetry 2 (convertSql sql) params; mret (default [] r.(qr_rows)))).
Definition changes_of (r : DBQueryResult) : Z :=
  match r.(qr_rowCount) with Some n => n | None => default 0 r.(qr_affectedRows) end.
(** [insertedRow?.id || 0] *)
Definition inserted_id (r : DBQueryResult) : json :=
  match match first_row r with Some row => map_get "id" row | None => None end with
  | Some (JStr "") | Some (JBool false) | Some JNull | None => JNum "0"
  | Some v => v
  end.
Definition run (sql : string) (params : list json) : db_action RunResult :=
  locked true (normalized (
    _ ← ensureReady;
    r ← executeWithRetry 2 (final_sql (convertSql sql)) params;
    mret {| rr_lastInsertRowid := if is_insert (convertSql sql) then inserted_id r else JNum "0"; rr_changes := changes_of r |})).
Definition exec (sql : string) : db_action unit :=
  locked (negb (isReadQuery sql)) (_ ← ensureReady; _ ← executeWithRetry 2 sql []; mret tt).
End wrapper.

(** ** Connecting at start-up *)

(** [SELECT 1] until it succeeds: [probe] answers the n-th attempt. *)
Fixpoint connectWithRetry (probe : nat → outcome db_error unit) (attempt : nat) (left : nat) (lastError : option db_error) :
    bool * option db_error :=
  match left with
  | O => (false, lastError)
  | S l => match probe attempt with Ok _ => (true, None) | Throw e => connectWithRetry probe (S attempt) l (Some e) end
  end.
Definition MAX_RETRIES : nat := 3.
Definition EXTERNAL_CONNECT_BUDGET_MS : Z := 30000.
Definition remainingConnectBudgetMs (uptimeMs : Z) : Z := Z.max 0 (EXTERNAL_CONNECT_BUDGET_MS - uptimeMs).

Inductive init_result := Refused (reason : string) | Initialized (w : wrapper).
(** [initDb]: whether the budget runs out first, and what the check of the connection's TLS says, are arguments. *)
Definition initDb (poolConfigError isProduction embeddedAllowed budgetFirst : bool) (probe : nat → outcome db_error unit)
    (ssl : outcome db_error unit) (w : wrapper) : init_result :=
  if poolConfigError then Refused "pool configuration"
  else if isProduction && negb w.(wr_isExternal) && negb embeddedAllowed then Refused "DATABASE_URL"
  else if w.(wr_isExternal) then
    if isProduction then
      if budgetFirst then Refused "budget"
      else
        match connectWithRetry probe 0 MAX_RETRIES None with
        | (false, e) => Refused (match e with Some e => classifyConnectionError e | None => "unknown error" end)
        | (true, _) => match ssl with Ok _ => Initialized w | Throw _ => Refused "SSL/TLS error" end
        end
    else
      match probe 0%nat with
      | Ok _ => Initialized w
      | Throw _ => Initialized (updateClient (Some w.(wr_made)) false (with_client w.(wr_client) (S w.(wr_made)) w.(wr_in_memory) w))
      end
  else
    match w.(wr_client) with
    | Some _ => Initialized w
    | None => if isProduction then Refused "no client" else Initialized (with_client (Some w.(wr_made)) (S w.(wr_made)) w.(wr_in_memory) w)
    end.

(** ** Properties *)

(** The parts of a text with numbered placeholders between them. *)
Fixpoint numbered_parts (k : N) (parts : list string) : string :=
  match parts with
  | [] => ""
  | [p] => p
  | p :: parts => p +:+ "$" +:+ pretty k +:+ numbered_parts (k + 1) parts
  end.

Lemma number_chars_app k l r : (∀ c, c ∈ l → (code c =? 63)%N = false) → number_chars k (l ++ r) = l ++ number_chars k r.
Proof.
  induction l as [|c l IH]; intros H; [done|]. cbn. rewrite (H c) by by left. f_equal. apply IH. intros d Hd. apply H. by right.
Qed.

Lemma concat_cons sep p q l : String.concat sep (p :: q :: l) = p +:+ sep +:+ String.concat sep (q :: l).
Proof. done. Qed.

(** Every question mark becomes the next number, from one, and nothing else changes. *)
Theorem placeholders_in_order parts (Hparts : forall p c, p ∈ parts -> c ∈ chars p -> c <> "?"%char) :
  number_placeholders (join "?" parts) = numbered_parts 1 parts.
Proof.
  unfold number_placeholders, join. generalize 1%N as k. revert Hparts. induction parts as [|p [|q l] IH]; intros Hparts k; [done| |].
  - cbn [String.concat numbered_parts]. rewrite <- (app_nil_r (chars p)). rewrite number_chars_app; [by rewrite app_nil_r, of_chars_chars|].
    intros c Hc. apply N.eqb_neq. intros Heq. apply (Hparts p c); [by left|done|].
    rewrite <- (ascii_N_embedding c). change (N_of_ascii c) with (code c). by rewrite Heq.
  - rewrite concat_cons, !chars_app, number_chars_app.
    2:{ intros c Hc. apply N.eqb_neq. intros Heq. apply (Hparts p c); [by left|done|].
        rewrite <- (ascii_N_embedding c). change (N_of_ascii c) with (code c). by rewrite Heq. }
    change (chars "?") with ["?"%char]. cbn [app number_chars]. change (code "?" =? 63)%N with true. cbn iota.
    change (numbered_parts k (p :: q :: l)) with (p +:+ "$" +:+ pretty k +:+ numbered_parts (k + 1) (q :: l)).
    rewrite <- IH by (intros x c Hx; apply Hparts; by right).
    rewrite <- (of_chars_chars (p +:+ _)). f_equal. by rewrite !chars_app, chars_of_chars, <- app_assoc.
Qed.

Section statements.
Context (production : bool) (store : option nat).
Context (answer : nat → option nat → string → list json → outcome db_error DBQueryResult).
Context (ready : nat → outcome db_error unit) (grant : bool → outcome db_error unit).

Definition locks (w : wrapper) : nat * nat := (w.(wr_readers), w.(wr_writers)).
(** What every action but [query] and [holding] leaves alone. *)
Definition quiet (w : wrapper) : nat * nat * bool * list (option nat * string * list json) := (locks w, w.(wr_isExternal), w.(wr_sent)).

Lemma engine_quiet x b : preserves (λ w, quiet w = x) (new_engine b).
Proof. unfold new_engine. apply preserves_modify. intros w <-. done. Qed.
Lemma recovery_quiet x f g : preserves (E := fault) (λ w, quiet w = x) (modify (λ w, with_recovery (f w) (g w) w)).
Proof. apply preserves_modify. intros w <-. done. Qed.
#[local] Hint Resolve engine_quiet recovery_quiet : alsaqi.

Lemma client_quiet x : preserves (λ w, quiet w = x) (client production).
Proof.
  unfold client. apply preserves_bind; [auto with alsaqi|]. intros w. repeat case_match; auto with alsaqi.
Qed.
Lemma waitReady_quiet x : preserves (λ w, quiet w = x) (waitReady ready).
Proof. unfold waitReady. apply preserves_bind; [auto with alsaqi|]. intros w. repeat case_match; auto with alsaqi. Qed.
#[local] Hint Resolve client_quiet waitReady_quiet : alsaqi.

Lemma try_catch_preserves {A} (P : wrapper → Prop) (m : action fault wrapper A) h : preserves P m → (∀ e, preserves P (h e)) → preserves P (try_catch m h).
Proof.
  intros Hm Hh s Hs. unfold try_catch. specialize (Hm s Hs). destruct (m s) as [[a|e] s']; [done|]. by apply Hh.
Qed.
#[local] Hint Resolve try_catch_preserves : alsaqi.

Lemma recover_quiet x e : preserves (λ w, quiet w = x) (recover ready e).
Proof.
  unfold recover. apply preserves_bind; [auto with alsaqi|]. intros w.
  repeat case_match; auto 10 with alsaqi.
Qed.
#[local] Hint Resolve recover_quiet : alsaqi.

Lemma ensureReady_quiet x : preserves (λ w, quiet w = x) (ensureReady production ready).
Proof.
  unfold ensureReady. apply preserves_bind; [auto with alsaqi|]. intros w. case_match; [auto with alsaqi|]. case_match; [auto with alsaqi|].
  apply preserves_bind; [case_match; auto with alsaqi|]. intros _. apply try_catch_preserves; [auto with alsaqi|]. intros [e|]; auto with alsaqi.
Qed.

(** A query is sent once, unless there is nobody to send it to. *)
Lemma query_cases sql params s :
  let '(r, s') := query production store answer sql params s in
  (∃ f, r = Throw f ∧ quiet s' = quiet s) ∨
  ∃ c, s'.(wr_sent) = s.(wr_sent) ++ [(c, sql, params)] ∧ locks s' = locks s ∧ s'.(wr_isExternal) = s.(wr_isExternal) ∧
    r = match answer (length s.(wr_sent)) c sql params with Ok v => Ok v | Throw e => Throw (Failed e) end.
Proof.
  unfold query. unfold mbind at 1, action_bind at 1.
  assert (Hc : quiet (connection production store s).2 = quiet s) by (unfold connection; destruct store; [done|by apply (client_quiet (quiet s))]).
  destruct (connection production store s) as [[conn|f] s1]; cbn [snd] in Hc; [|left; by exists f].
  destruct conn as [c|]; [|left; by eexists]. unfold get_state, modify, mbind, action_bind. cbn beta iota. unfold quiet, locks in Hc.
  injection Hc as Hr Hw He Hs. rewrite Hs.
  destruct (answer (length (wr_sent s)) (Some c) sql params) eqn:Ha; unfold mret, action_ret, throw; right; exists (Some c); rewrite Ha;
    unfold locks; cbn; split_and!; congruence.
Qed.

(** The exchanges of a statement: the connections it was sent to, all but the last of which answered with a failure of the engine. *)
Record exchanged {A} (sql : string) (params : list json) (most : nat) (s : wrapper) (r : outcome fault A) (value : DBQueryResult → A) (s' : wrapper) : Prop := {
  ex_locks : locks s' = locks s;
  ex_external : s'.(wr_isExternal) = s.(wr_isExternal);
  ex_sent : ∃ conns, s'.(wr_sent) = s.(wr_sent) ++ map (λ c, (c, sql, params)) conns ∧ (length conns <= most)%nat ∧
    (s.(wr_isExternal) = true → (length conns <= 1)%nat) ∧
    (∀ i c, conns !! i = Some c → (S i < length conns)%nat →
       ∃ e, answer (length s.(wr_sent) + i) c sql params = Throw e ∧ isExitStatus e = true) ∧
    (∀ v, r = Ok v → ∃ i c res, conns !! i = Some c ∧ S i = length conns ∧
       answer (length s.(wr_sent) + i) c sql params = Ok res ∧ v = value res) }.

Lemma nothing_exchanged {A} sql params most s (f : fault) (value : DBQueryResult → A) s' : quiet s' = quiet s →
  exchanged sql params most s (Throw f) value s'.
Proof.
  unfold quiet, locks. intros [= Hr Hw He Hs]. split; [unfold locks; congruence|done|]. exists []. cbn. rewrite app_nil_r.
  split_and!; [done|lia|lia|by intros i c|by intros v].
Qed.

Lemma one_exchanged sql params most c s r s1 : (1 <= most)%nat → quiet s1 = (locks s, s.(wr_isExternal), s.(wr_sent) ++ [(c, sql, params)]) →
  (∀ v, r = Ok v → answer (length s.(wr_sent)) c sql params = Ok v) → exchanged sql params most s r id s1.
Proof.
  unfold quiet. intros Hm [= Hr Hw He Hs] Hok. split; [unfold locks; congruence|done|]. exists [c]. cbn [map length].
  split_and!; [done|done|lia|intros i c' _; lia|]. intros v Hv. exists 0%nat, c, v. rewrite Nat.add_0_r. split_and!; [done..|by apply Hok|done].
Qed.

Lemma execute_spec sql params retries : ∀ s,
  let '(r, s') := executeWithRetry production store answer ready retries sql params s in exchanged sql params (S retries) s r id s'.
Proof.
  induction retries as [|n IH]; intros s; cbn [executeWithRetry]; unfold try_catch;
    pose proof (query_cases sql params s) as Hq; destruct (query production store answer sql params s) as [r s1];
    destruct Hq as [(f & -> & Hquiet)|(c & Hsent & Hlocks & Hext & Hr)].
  - unfold get_state, throw, mbind, action_bind. destruct f; by apply nothing_exchanged.
  - assert (Hone : exchanged sql params 1 s r id s1).
    { apply (one_exchanged _ _ _ c); [done|unfold quiet; congruence|]. intros v Hv. rewrite Hr in Hv. destruct (answer _ c sql params); [by injection Hv as ->|done]. }
    destruct r as [v|[e|]]; done.
  - unfold get_state, throw, mbind, action_bind. destruct f as [e|]; cbn beta iota; [|by apply nothing_exchanged].
    destruct (isExitStatus e && negb (wr_isExternal s1)) eqn:Hretry; cbn beta iota; [|by apply nothing_exchanged].
    pose proof (ensureReady_quiet (quiet s1) s1 eq_refl) as He. destruct (ensureReady production ready s1) as [[[]|f] s2]; cbn [snd] in He; cbn beta iota;
      [|apply nothing_exchanged; congruence].
    specialize (IH s2). destruct (executeWithRetry _ _ _ _ n sql params s2) as [r s3]. destruct IH as [Hl Hx (conns & Hc & Hlen & Hone & Hfail & Hok)].
    assert (Hq2 : quiet s2 = quiet s) by congruence. unfold quiet, locks in Hq2. injection Hq2 as Hrd Hwr Hex Hse.
    split; [unfold locks in *; congruence|congruence|]. exists conns. rewrite Hc, Hse. split_and!; [done|lia|rewrite <- Hex; done|by rewrite <- Hse|by rewrite <- Hse].
  - subst r. destruct (answer _ c sql params) as [v|e] eqn:Ha.
    { apply (one_exchanged _ _ _ c); [lia|unfold quiet; congruence|congruence]. }
    unfold get_state, throw, mbind, action_bind. cbn beta iota.
    assert (Hfailed : ∀ s', quiet s' = quiet s1 → exchanged sql params (S (S n)) s (Throw (Failed e)) id s').
    { intros s' Hq. apply (one_exchanged _ _ _ c); [lia| |done]. rewrite Hq. unfold quiet. congruence. }
    destruct (isExitStatus e && negb (wr_isExternal s1)) eqn:Hretry; cbn beta iota; [|by apply Hfailed].
    apply andb_true_iff in Hretry as [Hexit Hemb]. apply negb_true_iff in Hemb.
    pose proof (ensureReady_quiet (quiet s1) s1 eq_refl) as He. destruct (ensureReady production ready s1) as [[[]|f] s2]; cbn [snd] in He; cbn beta iota.
    2:{ by apply (one_exchanged _ _ _ c); [lia|rewrite He; unfold quiet; congruence|]. }
    specialize (IH s2). destruct (executeWithRetry _ _ _ _ n sql params s2) as [r s3]. destruct IH as [Hl Hx (conns & Hc & Hlen & Hone & Hfail & Hok)].
    unfold quiet, locks in He. injection He as H1 H2 H3 H4. split; [unfold locks in *; congruence|congruence|].
    assert (Hn : length (wr_sent s2) = S (length (wr_sent s))) by (rewrite H4, Hsent, length_app; cbn; lia).
    exists (c :: conns). cbn [map length]. split_and!.
    + rewrite Hc, H4, Hsent. by rewrite <- app_assoc.
    + lia.
    + intros Ht. congruence.
    + intros [|i] c' Hi Hlt; cbn in Hi.
      * injection Hi as <-. exists e. by rewrite Nat.add_0_r.
      * destruct (Hfail i c' Hi) as (e' & He' & Hx'); [lia|]. exists e'. split; [|done]. rewrite Hn in He'. rewrite <- He'. f_equal. lia.
    + intros v Hv. destruct (Hok v Hv) as (i & c' & res & Hi & Hlast & Hans & Hres). exists (S i), c', res. split_and!; [done|lia| |done].
      rewrite Hn in Hans. rewrite <- Hans. f_equal. lia.
Qed.

Lemma mapped_exchange {A} sql params most (value : DBQueryResult → A) (m : action fault wrapper DBQueryResult) s :
  (let '(r, s') := m s in exchanged sql params most s r id s') →
  let '(r, s') := (x ← m; mret (value x)) s in exchanged sql params most s r value s'.
Proof.
  unfold mbind, action_bind. destruct (m s) as [[v|f] s']; intros [Hl He (conns & Hs & Hlen & Hone & Hfail & Hok)].
  - split; [done..|]. exists conns. split_and!; [done..|]. intros a [= <-]. destruct (Hok v eq_refl) as (i & c & res & ? & ? & ? & ->).
    exists i, c, res. by split_and!.
  - split; [done..|]. exists conns. by split_and!.
Qed.

Lemma ready_exchange {A} sql params most (value : DBQueryResult → A) (m : action fault wrapper A) s :
  (∀ s, let '(r, s') := m s in exchanged sql params most s r value s') →
  let '(r, s') := (_ ← ensureReady production ready; m) s in exchanged sql params most s r value s'.
Proof.
  intros Hm. unfold mbind, action_bind. pose proof (ensureReady_quiet (quiet s) s eq_refl) as He.
  destruct (ensureReady production ready s) as [[[]|f] s1]; cbn [snd] in He; [|by apply nothing_exchanged].
  specialize (Hm s1). destruct (m s1) as [r s2]. destruct Hm as [Hl Hx Hc]. unfold quiet, locks in He. injection He as H1 H2 H3 H4.
  split; [unfold locks in *; congruence|congruence|]. by rewrite <- H3, <- H4.
Qed.

Lemma normalized_exchange {A} sql params most (value : DBQueryResult → A) (m : action fault wrapper A) s :
  (let '(r, s') := m s in exchanged sql params most s r value s') →
  let '(r, s') := normalized m s in exchanged sql params most s r value s'.
Proof.
  unfold normalized, try_catch. destruct (m s) as [[v|[e|]] s']; intros [Hl He (conns & Hs & Hlen & Hone & Hfail & Hok)];
    (split; [done..|]); exists conns; by split_and!.
Qed.

Lemma locked_exchange {A} sql params most write (value : DBQueryResult → A) (m : action fault wrapper A) s :
  (∀ s, let '(r, s') := m s in exchanged sql params most s r value s') →
  let '(r, s') := locked store grant write m s in exchanged sql params most s r value s'.
Proof.
  intros Hm. unfold locked, get_state. unfold mbind, action_bind. destruct (wr_isExternal s || bool_decide (is_Some store)); [apply Hm|].
  destruct (grant write) as [[]|e]; [|by apply nothing_exchanged]. unfold holding.
  set (s1 := if write then _ else _). specialize (Hm s1). destruct (m s1) as [r s2]. destruct Hm as [Hl Hx Hc].
  unfold locks in Hl. destruct write; subst s1; cbn in Hl, Hx, Hc; injection Hl as H1 H2;
    (split; [unfold locks; cbn; rewrite H1, H2; done|done|done]).
Qed.

(** C32: every statement gives back the lock it took, however it ends; its text is sent at most
    three times, and only once to an external server; every time but the last was answered by
    a failure of the engine, and what it returns is read off the last answer. *)
Theorem statements_exchange sql params s :
  (let '(r, s') := get production store answer ready grant sql params s in
   exchanged (convertSql sql) params 3 s r first_row s') /\
  (let '(r, s') := all production store answer ready grant sql params s in
   exchanged (convertSql sql) params 3 s r (λ res, default [] res.(qr_rows)) s') /\
  (let '(r, s') := run production store answer ready grant sql params s in
   exchanged (final_sql (convertSql sql)) params 3 s r
     (λ res, {| rr_lastInsertRowid := if is_insert (convertSql sql) then inserted_id res else JNum "0"; rr_changes := changes_of res |}) s') /\
  (let '(r, s') := exec production store answer ready grant sql s in exchanged sql [] 3 s r (λ _, tt) s').
Proof.
  split_and!; apply locked_exchange; intros s1; try apply normalized_exchange; apply ready_exchange; intros s2; apply mapped_exchange, execute_spec.
Qed.

End statements.

(** The embedded database in production, which the configuration can allow: the start-up
    ends the process, and with a client every statement outside the lock's timeout would. *)
Theorem embedded_production_exits store answer ready sql params s probe ssl (Hext : s.(wr_isExternal) = false) :
  (s.(wr_client) = None -> exists why, initDb false true true false probe ssl s = Refused why) /\
  (get true store answer ready (λ _, Ok tt) sql params s).1 = Throw Exited /\
  (run true store answer ready (λ _, Ok tt) sql params s).1 = Throw Exited.
Proof.
  split_and!.
  - intros Hc. unfold initDb. rewrite Hext, Hc. cbn. by eexists.
  - unfold get, locked, get_state, mbind, action_bind, normalized, try_catch, holding, ensureReady. rewrite Hext.
    destruct store; cbn; unfold get_state, mbind, action_bind; cbn; by rewrite Hext.
  - unfold run, locked, get_state, mbind, action_bind, normalized, try_catch, holding, ensureReady. rewrite Hext.
    destruct store; cbn; unfold get_state, mbind, action_bind; cbn; by rewrite Hext.
Qed.

(** ** Runs of the definitions *)

Module Engine.
Definition failure (message : string) : db_error :=
  {| de_message := message; de_name := "Error"; de_code := None; de_errno := None; de_status := None; de_statusCode := None |}.
Definition one_row : DBQueryResult := {| qr_rows := Some [[("id", JStr "7")]]; qr_rowCount := None; qr_affectedRows := Some 1 |}.
Definition started : wrapper := new_wrapper (Some 0%nat) false.
(** The first query crashes the engine; the next one answers. *)
Definition crash_once (n : nat) (c : option nat) (sql : string) (params : list json) : outcome db_error DBQueryResult :=
  match n with O => Throw (failure "ExitStatus 1") | S _ => Ok one_row end.
Abbreviation ready_all := (λ _ : nat, @Ok db_error unit tt).
Definition never_ready (_ : nat) : outcome db_error unit := Throw (failure "PGlite is closed").
Abbreviation insert ready s := (run false None crash_once ready (λ _, Ok tt) "INSERT INTO t (a, b) VALUES (?, ?)" [JNum "1"; JNum "2"] s).
Abbreviation prepare_engine ready s := (ensureReady false ready s).

(** Numbers and retries at work: the insert is sent again after the crash and its id is read. *)
Theorem wrapper_runs :
  (let '(r, s) := insert ready_all started in
   r = Ok {| rr_lastInsertRowid := JStr "7"; rr_changes := 1 |} ∧
   map (λ x, x.1.2) s.(wr_sent) = ["INSERT INTO t (a, b) VALUES ($1, $2) RETURNING *"; "INSERT INTO t (a, b) VALUES ($1, $2) RETURNING *"]) ∧
  convertSql "insert into audit_logs (user, action, module, details) values (?, ?, ?, ?)" =
    "insert into audit_logs (" +:+ quoted_user +:+ ", action, module, details) values ($1, $2, $3, $4)" ∧
  (normalizePoolError (failure "timeout exceeded when trying to connect")).(de_statusCode) = Some 503.
Proof. by vm_compute. Qed.

(** A question mark in a literal is numbered like a placeholder.  A statement whose common
    table expression deletes is taken for a read and shares the lock.  After three restarts
    that fail the wrapper goes on with an empty database in memory, and when that one
    fails too it is never restarted again. *)
Theorem wrapper_gaps :
  convertSql "SELECT 'why?' FROM t WHERE a = ?" = "SELECT 'why$1' FROM t WHERE a = $2" ∧
  isReadQuery "WITH gone AS (DELETE FROM t RETURNING *) SELECT * FROM gone" = true ∧
  (let s3 := Nat.iter 3 (λ s, (prepare_engine never_ready s).2) started in
   s3.(wr_reconnectAttempts) = 3 ∧
   (let s4 := (prepare_engine (λ n, if (n <=? 3)%nat then never_ready n else Ok tt) s3).2 in
    s4.(wr_client) = Some 4%nat ∧ s4.(wr_in_memory) = [4%nat]) ∧
   (let s4 := (prepare_engine never_ready s3).2 in
    s4.(wr_reconnecting) = true ∧ prepare_engine never_ready s4 = (Ok tt, s4))).
Proof. by vm_compute. Qed.
End Engine.

Lemma placeholders_in_order_witness : number_placeholders "a = ? AND b = ?" = "a = $1 AND b = $2".
Proof.
  change "a = ? AND b = ?" with (join "?" ["a = "; " AND b = "; ""]).
  refine (eq_trans (placeholders_in_order ["a = "; " AND b = "; ""] _) _); [|by vm_compute].
  intros p c Hp%list_elem_of_In Hc%list_elem_of_In ->. destruct Hp as [<-|[<-|[<-|[]]]]; vm_compute in Hc; intuition discriminate.
Defined.

Lemma embedded_production_exits_witness :
  (get true None Engine.crash_once Engine.ready_all (λ _, Ok tt) "SELECT 1" [] Engine.started).1 = Throw Exited.
Proof.
  exact (proj1 (proj2 (embedded_production_exits None Engine.crash_once Engine.ready_all "SELECT 1" [] Engine.started Engine.ready_all (Ok tt) eq_refl))).
Defined.
