(* ===== verification/QueryBuilder.v ===== *)
(** * The query builder ([utils/QueryBuilder.ts])

    Conditions with their values, the order, the page, and the statement texts with the
    parameters a caller passes.  A value is [None] where the code has undefined. *)

From S2P Require Import Prelude JsStrings JsNumbers Json DbWrapper.
Local Open Scope Z_scope.

Record QueryBuilder := {
  qb_baseQuery : string; qb_whereClauses : list string; qb_params : list (option json); qb_orderBy : string;
  qb_limit : string; qb_offset : string }.

Definition new_builder (baseQuery : string) : QueryBuilder :=
  {| qb_baseQuery := baseQuery; qb_whereClauses := []; qb_params := []; qb_orderBy := ""; qb_limit := ""; qb_offset := "" |}.

(** [where(condition, value, ...extraValues)]: without a first value nothing is bound. *)
Definition where_ (condition : string) (value : option json) (extraValues : list (option json)) (q : QueryBuilder) : QueryBuilder :=
  {| qb_baseQuery := q.(qb_baseQuery); qb_whereClauses := q.(qb_whereClauses) ++ [condition];
     qb_params := match value with Some v => q.(qb_params) ++ Some v :: extraValues | None => q.(qb_params) end;
     qb_orderBy := q.(qb_orderBy); qb_limit := q.(qb_limit); qb_offset := q.(qb_offset) |}.
Definition whereIf (shouldApply : bool) (condition : string) (value : option json) (extraValues : list (option json)) (q : QueryBuilder) : QueryBuilder :=
  if shouldApply then where_ condition value extraValues q else q.

Definition is_identifier_start (c : ascii) : bool := is_upper c || is_lower c || (code c =? 95)%N.
Definition is_identifier_char (c : ascii) : bool := is_identifier_start c || is_digit c || (code c =? 46)%N.
Definition ORDER_BY_IDENTIFIER (s : string) : bool :=
  match chars s with c :: r => is_identifier_start c && forallb is_identifier_char r | [] => false end.
Definition orderBy (column direction : string) (q : QueryBuilder) : outcome app_error QueryBuilder :=
  if negb (ORDER_BY_IDENTIFIER column) then Throw (ValidationError ("Invalid ORDER BY identifier: " +:+ column))
  else
    let dir := if bool_decide (toUpperCase direction = "DESC") then "DESC" else "ASC" in
    Ok {| qb_baseQuery := q.(qb_baseQuery); qb_whereClauses := q.(qb_whereClauses); qb_params := q.(qb_params);
          qb_orderBy := "ORDER BY " +:+ column +:+ " " +:+ dir; qb_limit := q.(qb_limit); qb_offset := q.(qb_offset) |}.

(** [parseInt(v) || d] of a query text; none is [undefined]. *)
Definition page_value (v : option string) (d : Z) : js_num := js_or (match v with Some t => parseInt t | None => NaN end) d.
(** [(p - 1) * ps] of two integers. *)
Definition offset_of (p ps : js_num) : js_num :=
  match p, ps with Finite a, Finite b => Finite ((a - 1) * b)%Q | _, _ => NaN end.
Record page_params := { pg_offset : js_num; pg_limit : js_num }.
Definition paginate (page pageSize : option string) (q : QueryBuilder) : QueryBuilder * page_params :=
  let p := page_value page 1 in
  let ps := page_value pageSize 10 in
  ({| qb_baseQuery := q.(qb_baseQuery); qb_whereClauses := q.(qb_whereClauses); qb_params := q.(qb_params);
      qb_orderBy := q.(qb_orderBy); qb_limit := "LIMIT ?"; qb_offset := "OFFSET ?" |},
   {| pg_offset := offset_of p ps; pg_limit := ps |}).

Definition getWhereBlock (q : QueryBuilder) : string :=
  if bool_decide (q.(qb_whereClauses) = []) then "" else "WHERE " +:+ join " AND " q.(qb_whereClauses).
Definition buildCountQuery (q : QueryBuilder) : string := trim (q.(qb_baseQuery) +:+ " " +:+ getWhereBlock q).
Definition buildDataQuery (q : QueryBuilder) : string :=
  trim (q.(qb_baseQuery) +:+ " " +:+ getWhereBlock q +:+ " " +:+ q.(qb_orderBy) +:+ " " +:+ q.(qb_limit) +:+ " " +:+ q.(qb_offset)).

(** A bound value: one of the conditions, or a number of the page. *)
Inductive parameter := Bound (v : option json) | PageNumber (n : js_num).
Definition buildParams (p : option page_params) (q : QueryBuilder) : list parameter :=
  map Bound q.(qb_params) ++ match p with Some p => [PageNumber p.(pg_limit); PageNumber p.(pg_offset)] | None => [] end.

(** ** Properties *)

Definition is_mark (c : ascii) : bool := (code c =? 63)%N.
(** How many placeholders a text has. *)
Definition marks (s : string) : nat := length (List.filter is_mark (chars s)).

Lemma marks_app s t : marks (s +:+ t) = (marks s + marks t)%nat.
Proof. unfold marks. by rewrite chars_app, List.filter_app, length_app. Qed.

Lemma drop_spaces_marks l : length (List.filter is_mark (drop_while is_js_space l)) = length (List.filter is_mark l).
Proof.
  induction l as [|c l IH]; [done|]. cbn [drop_while]. destruct (is_js_space c) eqn:Hc; [|done]. cbn [List.filter].
  destruct (is_mark c) eqn:Hm; [|done]. unfold is_mark in Hm. apply N.eqb_eq in Hm. unfold is_js_space, in_range in Hc. rewrite Hm in Hc. done.
Qed.

Lemma filter_rev_length {A} (p : A → bool) l : length (List.filter p (rev l)) = length (List.filter p l).
Proof.
  induction l as [|x l IH]; [done|]. cbn [rev]. rewrite List.filter_app, length_app, IH. cbn. destruct (p x); cbn; lia.
Qed.

Lemma marks_trim s : marks (trim s) = marks s.
Proof.
  unfold marks, trim. rewrite ?chars_of_chars, ?filter_rev_length, ?drop_spaces_marks, ?filter_rev_length, ?drop_spaces_marks. done.
Qed.

Lemma marks_join l : marks (join " AND " l) = list_sum (map marks l).
Proof.
  unfold join. induction l as [|s [|t l] IH]; [done|change (marks s = (marks s + 0)%nat); lia|].
  rewrite concat_cons, !marks_app. change (marks " AND ") with 0%nat.
  change (list_sum (map marks (s :: t :: l))) with (marks s + list_sum (map marks (t :: l)))%nat. lia.
Qed.

(** What callers do: every condition has as many marks as values. *)
Record balanced (q : QueryBuilder) : Prop := {
  ba_params : length q.(qb_params) = list_sum (map marks q.(qb_whereClauses));
  ba_base : marks q.(qb_baseQuery) = 0%nat;
  ba_order : marks q.(qb_orderBy) = 0%nat;
  ba_page : (q.(qb_limit) = "" ∧ q.(qb_offset) = "") ∨ (q.(qb_limit) = "LIMIT ?" ∧ q.(qb_offset) = "OFFSET ?") }.

(** The calls that build a query. *)
Inductive call :=
  | Where (condition : string) (value : option json) (extra : list (option json))
  | WhereIf (apply : bool) (condition : string) (value : option json) (extra : list (option json))
  | OrderBy (column direction : string).
(** A call that throws leaves the builder as it is. *)
Definition perform (q : QueryBuilder) (c : call) : QueryBuilder :=
  match c with
  | Where condition value extra => where_ condition value extra q
  | WhereIf apply condition value extra => whereIf apply condition value extra q
  | OrderBy column direction => match orderBy column direction q with Ok q' => q' | Throw _ => q end
  end.
Definition fits (condition : string) (value : option json) (extra : list (option json)) : Prop :=
  marks condition = match value with Some _ => S (length extra) | None => 0%nat end.
Definition call_fits (c : call) : Prop :=
  match c with
  | Where condition value extra => fits condition value extra
  | WhereIf apply condition value extra => apply = true → fits condition value extra
  | OrderBy _ _ => True
  end.

Lemma identifier_marks s : ORDER_BY_IDENTIFIER s = true → marks s = 0%nat.
Proof.
  unfold ORDER_BY_IDENTIFIER, marks. intros H. enough (Hf : forallb is_identifier_char (chars s) = true).
  { clear H. induction (chars s) as [|c l IH]; [done|]. cbn in Hf. apply andb_true_iff in Hf as [Hc Hl]. cbn [List.filter].
    destruct (is_mark c) eqn:Hm; [|by apply IH]. unfold is_mark in Hm. apply N.eqb_eq in Hm.
    unfold is_identifier_char, is_identifier_start, is_upper, is_lower, is_digit, in_range in Hc. rewrite Hm in Hc. done. }
  destruct (chars s) as [|c l]; [done|]. cbn. apply andb_true_iff in H as [Hc ->]. unfold is_identifier_char. by rewrite Hc.
Qed.

Lemma where_balanced condition value extra q : fits condition value extra → balanced q → balanced (where_ condition value extra q).
Proof.
  unfold fits. intros Hm []. split; cbn [where_ qb_orderBy qb_params qb_whereClauses qb_baseQuery qb_limit qb_offset]; [|done..]. rewrite map_app, list_sum_app. cbn [map list_sum foldr].
  rewrite <- ba_params0, Hm. destruct value; [rewrite length_app; cbn|]; lia.
Qed.

Lemma perform_balanced q c : call_fits c → balanced q → balanced (perform q c).
Proof.
  destruct c as [condition value extra|apply condition value extra|column direction]; cbn.
  - apply where_balanced.
  - destruct apply; cbn; [intros H; by apply where_balanced, H|done].
  - intros _ H. unfold orderBy. destruct (ORDER_BY_IDENTIFIER column) eqn:Hi; cbn [negb]; [|done]. destruct H.
    split; cbn [qb_orderBy qb_params qb_whereClauses qb_baseQuery qb_limit qb_offset]; [done..| |done].
    rewrite !marks_app, (identifier_marks column) by done. by case_bool_decide.
Qed.

Lemma calls_balanced l : ∀ q, Forall call_fits l → balanced q → balanced (foldl perform q l).
Proof. induction l as [|c l IH]; intros q Hl H; [done|]. inversion Hl; subst. cbn [foldl]. apply IH; [done|]. by apply perform_balanced. Qed.

(** However a query is built from conditions that have a value for every mark, its texts
    have exactly as many placeholders as the parameters built for them: the count
    query without a page, the data query with the page that was asked for; and a column to
    order by adds none whatever it is. *)
Theorem parameters_match_placeholders base l page pageSize (Hbase : marks base = 0%nat) (Hcalls : Forall call_fits l) :
  let q := foldl perform (new_builder base) l in
  let '(paged, p) := paginate page pageSize q in
  marks (buildCountQuery q) = length (buildParams None q) /\
  marks (buildDataQuery q) = length (buildParams None q) /\
  marks (buildCountQuery paged) = length (buildParams None paged) /\
  marks (buildDataQuery paged) = length (buildParams (Some p) paged).
Proof.
  cbn zeta. set (q := foldl perform _ l).
  assert (Hb : balanced q) by (apply calls_balanced; [done|split; cbn; [done..|by left]]).
  assert (Hw : ∀ q', q'.(qb_whereClauses) = q.(qb_whereClauses) → marks (getWhereBlock q') = length q.(qb_params)).
  { intros q' Hq. unfold getWhereBlock. rewrite Hq, (ba_params q Hb). case_bool_decide as Hn; [by rewrite Hn|].
    rewrite marks_app, marks_join. done. }
  assert (Hl : qb_limit q = "" ∧ qb_offset q = "").
  { clear Hb Hw. subst q. assert (H0 : qb_limit (new_builder base) = "" ∧ qb_offset (new_builder base) = "") by done.
    revert H0. generalize (new_builder base). clear. induction l as [|c l IH]; intros q H; [done|]. cbn [foldl]. apply IH.
    destruct c as [? ? ?|[] ? ? ?|? ?]; cbn; try done. unfold orderBy. by destruct (ORDER_BY_IDENTIFIER _). }
  destruct Hb as [Hp Hbase' Ho _], Hl as [Hl1 Hl2]. unfold paginate. cbn beta iota.
  unfold buildCountQuery, buildDataQuery, buildParams. rewrite !marks_trim, !marks_app, !Hw by done.
  cbn [qb_baseQuery qb_orderBy qb_limit qb_offset qb_params]. rewrite Hbase', Ho, Hl1, Hl2, !app_nil_r, !length_app, !length_map.
  change (marks " ") with 0%nat. change (marks "") with 0%nat. change (marks "LIMIT ?") with 1%nat. change (marks "OFFSET ?") with 1%nat.
  cbn [length]. lia.
Qed.

(** A column that is no identifier is refused, and what is taken adds nothing else to the order. *)
Theorem orderBy_spec column direction q :
  match orderBy column direction q with
  | Ok q' => ORDER_BY_IDENTIFIER column = true /\
      (q'.(qb_orderBy) = "ORDER BY " +:+ column +:+ " ASC" \/ q'.(qb_orderBy) = "ORDER BY " +:+ column +:+ " DESC")
  | Throw _ => ORDER_BY_IDENTIFIER column = false
  end.
Proof.
  unfold orderBy. destruct (ORDER_BY_IDENTIFIER column); cbn; [|done]. split; [done|]. case_bool_decide; [by right|by left].
Qed.

Module Queries.
Definition letters : QueryBuilder :=
  foldl perform (new_builder "SELECT * FROM letters")
    [Where "is_archived = ?" (Some (JBool false)) []; WhereIf false "status = ?" (Some (JStr "New")) []; OrderBy "created_at" "desc"].

(** A condition whose first value is undefined stays without its values; a negative page
    gives a negative offset, which the server refuses. *)
Theorem builder_gaps :
  buildDataQuery (paginate (Some "2") None letters).1 = "SELECT * FROM letters WHERE is_archived = ? ORDER BY created_at DESC LIMIT ? OFFSET ?" ∧
  (let q := where_ "a = ? AND b = ?" None [Some (JNum "1")] (new_builder "SELECT 1") in
   marks (buildDataQuery q) = 2%nat ∧ buildParams None q = []) ∧
  js_lt (paginate (Some "-1") None letters).2.(pg_offset) (int 0) = true.
Proof. by vm_compute. Qed.
End Queries.

Lemma parameters_match_placeholders_witness :
  let q := Queries.letters in marks (buildDataQuery (paginate (Some "2") (Some "5") q).1) = 3%nat.
Proof.
  cbn zeta. refine (eq_trans (proj2 (proj2 (proj2 (parameters_match_placeholders "SELECT * FROM letters"
    [Where "is_archived = ?" (Some (JBool false)) []; WhereIf false "status = ?" (Some (JStr "New")) []; OrderBy "created_at" "desc"]
    (Some "2") (Some "5") _ _)))) _); [by vm_compute| |by vm_compute].
  repeat constructor; done.
Defined.
