(* ===== verification/PdfTemplates.v ===== *)
(** * Templates of documents ([services/PdfTemplateService.ts], [routes/pdfTemplates.ts], [constants/templateTypes.ts])

    The table of templates with its two unique indexes, the service and the requests of
    the route as its schema hands them on.  A template is active when it is the approved
    default of its type.  Keys and the cast of an identifier are arguments. *)

From S2P Require Import Prelude JsMap JsStrings.
Local Open Scope Z_scope.

(** ** Types of templates *)

Definition TEMPLATE_TYPES : list string :=
  ["audit_report"; "quarterly_report"; "annual_report"; "audit_plan"; "audit_missions"; "recommendations"; "outgoing_letter"; "general"].
Definition isValidTemplateTypeKey (input : string) : bool := bool_decide (input ∈ TEMPLATE_TYPES).
Definition LEGACY_MAPPING : list (string * string) :=
  [("تقرير التدقيق", "audit_report"); ("التقرير الربعي", "quarterly_report"); ("التقرير السنوي", "annual_report");
   ("خطة التدقيق", "audit_plan"); ("مهام التدقيق", "audit_missions"); ("التوصيات", "recommendations");
   ("خطاب صادر", "outgoing_letter"); ("عام", "general"); ("auditReport", "audit_report");
   ("quarterlyReport", "quarterly_report"); ("complianceRequirements", "audit_report");
   ("activityAuditResults", "audit_report"); ("eventParticipationSummary", "general"); ("monthlyDepartmentReport", "quarterly_report")].
Definition resolveTemplateTypeKey (input : option string) : string :=
  match input with
  | None => "general"
  | Some t => if bool_decide (t = "") then "general"
              else if isValidTemplateTypeKey t then t
              else default "general" (map_get t LEGACY_MAPPING)
  end.

(** ** Rows *)

Record PdfTemplateRow := {
  pt_id : string; pt_name : string; pt_key : string; pt_type : string; pt_content : string; pt_status : string; pt_is_default : Z;
  pt_version : Z; pt_created_by : string; pt_updated_by : string; pt_created_at : Z; pt_updated_at : Z }.
#[export] Instance PdfTemplateRow_eq_dec : EqDecision PdfTemplateRow.
Proof. solve_decision. Defined.
(** [mapRowToTemplate] turns the column into a boolean and keeps the rest. *)
Record PdfTemplate := { tm_row : PdfTemplateRow; tm_is_default : bool }.
Definition mapRowToTemplate (r : PdfTemplateRow) : PdfTemplate := {| tm_row := r; tm_is_default := r.(pt_is_default) =? 1 |}.

Record pdf_state := { ps_rows : list PdfTemplateRow; ps_next : nat }.
Definition with_rows (l : list PdfTemplateRow) (s : pdf_state) : pdf_state := {| ps_rows := l; ps_next := s.(ps_next) |}.
Abbreviation pdf_action := (action app_error pdf_state).

(** [is_default] of a body: [z.union([z.boolean(), z.number()])]; the number is given by whether it is zero. *)
Inductive flag := FlagBool (b : bool) | FlagNumber (nonzero : bool).
Definition truthy (f : option flag) : bool := match f with Some (FlagBool b) | Some (FlagNumber b) => b | None => false end.

Record CreateTemplateDto := {
  cd_name : string; cd_key : option string; cd_content : string; cd_status : option string; cd_is_default : option flag }.
Record UpdateTemplateDto := { ud_name : option string; ud_content : option string; ud_status : option string; ud_is_default : option flag }.

Definition MAX_CONTENT_BYTES : Z := 500 * 1024.
Definition MAX_NAME_LENGTH : nat := 200.
Definition too_large (content : string) : bool := MAX_CONTENT_BYTES <? Z.of_nat (String.length content).
Definition too_long (n : string) : bool := (MAX_NAME_LENGTH <? utf16_length n)%nat.

Definition is_active (key : string) (r : PdfTemplateRow) : bool :=
  bool_decide (r.(pt_key) = key) && bool_decide (r.(pt_status) = "Approved") && (r.(pt_is_default) =? 1).
(** The partial unique index [idx_one_default_per_type], as a check of the whole table. *)
Definition one_active (l : list PdfTemplateRow) : bool :=
  forallb (λ r, (length (select (is_active r.(pt_key)) l) <=? 1)%nat) l.

Section service.
Context (fresh : nat → string) (uuid_ok : string → bool).

Definition cast_uuid (id : string) : pdf_action unit := ensure (uuid_ok id) (GenericError "invalid input syntax for type uuid").
Definition rolled_back (old _ : pdf_state) : pdf_state := old.
(** A statement that writes rows fails when the index is violated. *)
Definition write (f : list PdfTemplateRow → list PdfTemplateRow) : pdf_action unit :=
  s ← get_state;
  _ ← ensure (one_active (f s.(ps_rows))) (GenericError "duplicate key value violates unique constraint");
  modify (λ s, with_rows (f s.(ps_rows)) s).

(** [ORDER BY created_at DESC] leaves the ties to the server: the rows, not their order. *)
Definition getAll : pdf_action (list PdfTemplate) := gets (λ s, map mapRowToTemplate s.(ps_rows)).
Definition getById (id : string) : pdf_action PdfTemplateRow :=
  _ ← cast_uuid id;
  s ← get_state;
  match select_one (λ r, bool_decide (r.(pt_id) = id)) s.(ps_rows) with
  | Some r => mret r
  | None => throw (NotFoundError "Template not found")
  end.
(** The index leaves at most one candidate, so the order does not matter. *)
Definition getActiveByType (key : string) (s : pdf_state) : option PdfTemplate := mapRowToTemplate <$> select_one (is_active key) s.(ps_rows).

Definition clears (key : string) (r : PdfTemplateRow) : bool := bool_decide (r.(pt_key) = key) && (r.(pt_is_default) =? 1).
Definition cleared (r : PdfTemplateRow) : PdfTemplateRow :=
  {| pt_id := r.(pt_id); pt_name := r.(pt_name); pt_key := r.(pt_key); pt_type := r.(pt_type); pt_content := r.(pt_content);
     pt_status := r.(pt_status); pt_is_default := 0; pt_version := r.(pt_version); pt_created_by := r.(pt_created_by);
     pt_updated_by := r.(pt_updated_by); pt_created_at := r.(pt_created_at); pt_updated_at := r.(pt_updated_at) |}.

(** The former default of the type, when the template is to be the new one. *)
Definition clear_default (wanted : bool) (key : string) : pdf_action unit :=
  if wanted then write (update_where (clears key) cleared) else mret tt.
Definition insert_template (row : string → PdfTemplateRow) : pdf_action PdfTemplate :=
  s ← get_state;
  _ ← modify (λ s, {| ps_rows := s.(ps_rows); ps_next := S s.(ps_next) |});
  _ ← write (λ l, l ++ [row (fresh s.(ps_next))]);
  mret (mapRowToTemplate (row (fresh s.(ps_next)))).

Definition create (now : Z) (d : CreateTemplateDto) (username : string) : pdf_action PdfTemplate :=
  let key := default "" d.(cd_key) in
  let status := match d.(cd_status) with Some t => if bool_decide (t = "") then "Draft" else t | None => "Draft" end in
  let isDefault := if truthy d.(cd_is_default) then 1 else 0 in
  _ ← ensure (negb (bool_decide (d.(cd_name) = "") || bool_decide (key = "") || bool_decide (d.(cd_content) = ""))) (ValidationError "Missing required fields");
  _ ← ensure (negb (too_long d.(cd_name))) (ValidationError "template_name exceeds maximum length");
  _ ← ensure (negb (too_large d.(cd_content))) (ValidationError "content exceeds maximum size of 500 KB");
  _ ← ensure (isValidTemplateTypeKey key) (ValidationError "Invalid template_type_key");
  _ ← ensure (negb ((isDefault =? 1) && negb (bool_decide (status = "Approved")))) (ValidationError "Only Approved templates can be set as default");
  transaction rolled_back (
    _ ← clear_default (isDefault =? 1) key;
    insert_template (λ id,
      {| pt_id := id; pt_name := d.(cd_name); pt_key := key; pt_type := key; pt_content := d.(cd_content);
         pt_status := status; pt_is_default := isDefault; pt_version := 1; pt_created_by := username; pt_updated_by := username;
         pt_created_at := now; pt_updated_at := now |})).

Definition coalesce {A} (v : option A) (old : A) : A := default old v.
Definition updated (now : Z) (d : UpdateTemplateDto) (version : Z) (username : string) (r : PdfTemplateRow) : PdfTemplateRow :=
  {| pt_id := r.(pt_id); pt_name := coalesce d.(ud_name) r.(pt_name); pt_key := r.(pt_key); pt_type := r.(pt_type);
     pt_content := coalesce d.(ud_content) r.(pt_content); pt_status := coalesce d.(ud_status) r.(pt_status);
     pt_is_default := coalesce ((λ f, if truthy (Some f) then 1 else 0) <$> d.(ud_is_default)) r.(pt_is_default);
     pt_version := version; pt_created_by := r.(pt_created_by); pt_updated_by := username; pt_created_at := r.(pt_created_at);
     pt_updated_at := now |}.
Definition wants_default (d : UpdateTemplateDto) : bool := match d.(ud_is_default) with Some (FlagBool true) => true | _ => false end.
Definition new_version (d : UpdateTemplateDto) (existing : PdfTemplateRow) : Z :=
  match d.(ud_content) with
  | Some c => if bool_decide (c = existing.(pt_content)) then existing.(pt_version) else existing.(pt_version) + 1
  | None => existing.(pt_version)
  end.

Definition update (now : Z) (id : string) (d : UpdateTemplateDto) (username : string) : pdf_action PdfTemplate :=
  existing ← getById id;
  _ ← ensure (negb (match d.(ud_name) with Some n => too_long n | None => false end)) (ValidationError "template_name exceeds maximum length");
  _ ← ensure (negb (match d.(ud_content) with Some c => too_large c | None => false end)) (ValidationError "content exceeds maximum size of 500 KB");
  _ ← ensure (negb (wants_default d && negb (bool_decide (coalesce d.(ud_status) existing.(pt_status) = "Approved"))))
        (ValidationError "Only Approved templates can be set as default");
  transaction rolled_back (
    _ ← clear_default (wants_default d) existing.(pt_key);
    _ ← write (update_where (λ r, bool_decide (r.(pt_id) = id)) (updated now d (new_version d existing) username));
    s ← get_state;
    match select_one (λ r, bool_decide (r.(pt_id) = id)) s.(ps_rows) with
    | Some r => mret (mapRowToTemplate r)
    | None => throw (NotFoundError "Template not found")
    end).

Definition delete (id : string) : pdf_action unit :=
  existing ← getById id;
  _ ← ensure (negb ((existing.(pt_is_default) =? 1) && bool_decide (existing.(pt_status) = "Approved")))
        (ValidationError "Cannot delete the default approved template");
  transaction rolled_back (write (delete_where (λ r, bool_decide (r.(pt_id) = id)))).

(** ** The route *)

(** A body the schema of the route accepts: it knows [template_type], and an object schema
    drops the fields it does not know. *)
Record template_body := {
  tb_template_name : string; tb_template_type : string; tb_content : string; tb_status : option string; tb_is_default : option flag }.
Inductive template_request :=
  | PostTemplate (b : template_body) | PutTemplate (id : string) (b : template_body) | DeleteTemplate (id : string).
Definition serve (now : Z) (username : string) (q : template_request) : pdf_action (option PdfTemplate) :=
  match q with
  | PostTemplate b =>
      t ← create now {| cd_name := b.(tb_template_name); cd_key := None; cd_content := b.(tb_content); cd_status := b.(tb_status);
                        cd_is_default := b.(tb_is_default) |} username; mret (Some t)
  | PutTemplate id b =>
      t ← update now id {| ud_name := Some b.(tb_template_name); ud_content := Some b.(tb_content); ud_status := b.(tb_status);
                           ud_is_default := b.(tb_is_default) |} username; mret (Some t)
  | DeleteTemplate id => _ ← delete id; mret None
  end.
End service.

(** ** Properties *)

Section requests.
Context (fresh : nat → string) (uuid_ok : string → bool) (ids_distinct : ∀ a b, fresh a = fresh b → a = b).

(** Keys are unique and were generated, and no type has two active templates. *)
Record rows_ok (s : pdf_state) : Prop := {
  ro_ids : NoDup (map pt_id s.(ps_rows));
  ro_made : ∀ r, r ∈ s.(ps_rows) → ∃ k, (k < s.(ps_next))%nat ∧ r.(pt_id) = fresh k;
  ro_active : ∀ key r r', r ∈ s.(ps_rows) → r' ∈ s.(ps_rows) → is_active key r = true → is_active key r' = true → r = r' }.

Lemma one_active_spec l : NoDup (map pt_id l) → one_active l = true →
  ∀ key r r', r ∈ l → r' ∈ l → is_active key r = true → is_active key r' = true → r = r'.
Proof.
  intros Hnd Hone key r r' Hr Hr' Ha Ha'. unfold one_active in Hone. rewrite forallb_forall in Hone.
  specialize (Hone r (proj1 (list_elem_of_In _ _) Hr)). apply Nat.leb_le in Hone.
  assert (r.(pt_key) = key) as Hk by (unfold is_active in Ha; by bools). rewrite Hk in Hone.
  assert (Hs : r ∈ select (is_active key) l) by by apply elem_of_select.
  assert (Hs' : r' ∈ select (is_active key) l) by by apply elem_of_select.
  destruct (select (is_active key) l) as [|x [|y rest]]; [by apply not_elem_of_nil in Hs| |cbn in Hone; lia].
  apply list_elem_of_singleton in Hs as ->. by apply list_elem_of_singleton in Hs' as ->.
Qed.

Lemma write_run f s : write f s = if one_active (f s.(ps_rows)) then (Ok tt, with_rows (f s.(ps_rows)) s)
  else (Throw (GenericError "duplicate key value violates unique constraint"), s).
Proof. unfold write, get_state, ensure, mbind, action_bind. by destruct (one_active _). Qed.

Lemma getById_run id s :
  match getById uuid_ok id s with
  | (Ok r, s') => s' = s ∧ r ∈ s.(ps_rows) ∧ r.(pt_id) = id
  | (Throw _, s') => s' = s
  end.
Proof.
  unfold getById, cast_uuid, ensure, get_state, mbind, action_bind. destruct (uuid_ok id); cbn; [|done].
  destruct (select_one _ _) as [r|] eqn:Hr; [|done]. apply select_one_Some in Hr as [Hin Hid]. by bools.
Qed.

(** The row an update leaves under its key. *)
Lemma select_updated p f l r : NoDup (map pt_id l) → r ∈ l → (∀ x, (f x).(pt_id) = x.(pt_id)) →
  p r = true → f r ∈ update_where p f l.
Proof. intros _ Hr _ Hp. apply elem_of_update_where. exists r. by rewrite Hp. Qed.

Lemma ok_rows_ok f s : rows_ok s → map pt_id (f s.(ps_rows)) = map pt_id s.(ps_rows) → one_active (f s.(ps_rows)) = true →
  rows_ok (with_rows (f s.(ps_rows)) s).
Proof.
  intros [] Hids Hone. split; cbn.
  - by rewrite Hids.
  - intros r Hr. assert (r.(pt_id) ∈ map pt_id s.(ps_rows)) as Hin by (rewrite <- Hids; by apply list_elem_of_fmap_2).
    apply list_elem_of_fmap in Hin as (r0 & -> & Hin). auto.
  - apply one_active_spec; [by rewrite Hids|done].
Qed.

Lemma clears_keeps key l : map pt_id (update_where (clears key) cleared l) = map pt_id l.
Proof. by apply update_where_column. Qed.
Lemma updated_keeps now id d v u l : map pt_id (update_where (λ r, bool_decide (r.(pt_id) = id)) (updated now d v u) l) = map pt_id l.
Proof. by apply update_where_column. Qed.

Lemma write_ok f s : (∀ l, map pt_id (f l) = map pt_id l) → rows_ok s →
  match write f s with (Ok _, s') => s' = with_rows (f s.(ps_rows)) s ∧ rows_ok s' | (Throw _, s') => s' = s end.
Proof.
  intros Hids Hok. rewrite write_run. destruct (one_active _) eqn:Hone; [|done]. split; [done|]. by apply ok_rows_ok.
Qed.

Lemma insert_ok row s : rows_ok s → row.(pt_id) = fresh s.(ps_next) → one_active (s.(ps_rows) ++ [row]) = true →
  rows_ok {| ps_rows := s.(ps_rows) ++ [row]; ps_next := S s.(ps_next) |}.
Proof.
  intros [] Hid Hone. assert (Hnd : NoDup (map pt_id (s.(ps_rows) ++ [row]))).
  { rewrite map_app. apply NoDup_app. split_and!; [done| |apply NoDup_singleton].
    intros x (r & -> & Hr)%list_elem_of_fmap Hx%list_elem_of_singleton. destruct (ro_made0 r Hr) as (k & Hk & Hrk).
    rewrite Hid, Hrk in Hx. apply ids_distinct in Hx. lia. }
  split; cbn; [done| |by apply one_active_spec].
  intros r [Hr| ->%list_elem_of_singleton]%elem_of_app; [|exists s.(ps_next); split; [lia|done]].
  destruct (ro_made0 r Hr) as (k & ? & ?). exists k. split; [lia|done].
Qed.

Lemma delete_ok p s : rows_ok s → rows_ok (with_rows (delete_where p s.(ps_rows)) s).
Proof.
  intros []. split; cbn.
  - unfold delete_where. clear - ro_ids0. induction s.(ps_rows) as [|r l IH]; [constructor|]. cbn in *. apply NoDup_cons in ro_ids0 as [Hr Hl].
    destruct (p r); cbn; [by apply IH|]. apply NoDup_cons. split; [|by apply IH]. intros (x & Hx & Hin)%list_elem_of_fmap.
    apply Hr. rewrite Hx. apply list_elem_of_fmap_2. by apply elem_of_delete_where in Hin as [].
  - intros r [Hr _]%elem_of_delete_where. auto.
  - intros key r r' [Hr _]%elem_of_delete_where [Hr' _]%elem_of_delete_where. by apply (ro_active0 key).
Qed.

(** What an operation leaves: everything as it was when it throws, well-formed rows always. *)
Definition atomic {A} (m : action app_error pdf_state A) : Prop :=
  ∀ s, rows_ok s → match m s with (Ok _, s') => rows_ok s' | (Throw _, s') => s' = s end.

Lemma unchanged_ensure {A} b e (m : action app_error pdf_state A) : atomic m → atomic (_ ← ensure b e; m).
Proof. intros H s Hs. unfold ensure, mbind, action_bind. destruct b; [by apply H|done]. Qed.

Lemma unchanged_transaction {A} (m : action app_error pdf_state A) : preserves rows_ok m → atomic (transaction rolled_back m).
Proof.
  intros H s Hs. specialize (H s Hs). unfold transaction. by destruct (m s) as [[a|e] s'].
Qed.

Lemma write_preserves f : (∀ l, map pt_id (f l) = map pt_id l) → preserves rows_ok (write f).
Proof. intros Hf s Hs. pose proof (write_ok f s Hf Hs) as H. by destruct (write f s) as [[]]; [destruct H|subst]. Qed.

Lemma clear_preserves b key : preserves rows_ok (clear_default b key).
Proof. unfold clear_default. destruct b; [apply write_preserves, clears_keeps|auto with alsaqi]. Qed.

Lemma insert_preserves row : (∀ id, (row id).(pt_id) = id) → preserves rows_ok (insert_template fresh row).
Proof.
  intros Hrow s Hs. unfold insert_template, get_state, modify, mbind, action_bind. cbn beta iota. rewrite write_run. cbn [ps_rows].
  destruct (one_active _) eqn:Hone; [by apply insert_ok|]. destruct Hs. split; cbn; [done| |done].
  intros r Hr. destruct (ro_made0 r Hr) as (k & ? & ?). exists k. split; [lia|done].
Qed.

Lemma create_atomic now d u : atomic (create fresh now d u).
Proof.
  unfold create. do 5 apply unchanged_ensure. apply unchanged_transaction. apply preserves_bind; [by apply clear_preserves|].
  intros _. by apply insert_preserves.
Qed.

Lemma update_atomic now id d u : atomic (update uuid_ok now id d u).
Proof.
  intros s Hs. unfold update. unfold mbind at 1, action_bind at 1. pose proof (getById_run id s) as Hg.
  destruct (getById uuid_ok id s) as [[r|e] s1]; [destruct Hg as (-> & _)|done]. revert s Hs.
  change (atomic (_ ← ensure (negb match ud_name d with Some n => too_long n | None => false end) (ValidationError "template_name exceeds maximum length");
    _ ← ensure (negb match ud_content d with Some c => too_large c | None => false end) (ValidationError "content exceeds maximum size of 500 KB");
    _ ← ensure (negb (wants_default d && negb (bool_decide (coalesce (ud_status d) (pt_status r) = "Approved"))))
      (ValidationError "Only Approved templates can be set as default");
    transaction rolled_back (
      _ ← clear_default (wants_default d) r.(pt_key);
      _ ← write (update_where (λ r, bool_decide (r.(pt_id) = id)) (updated now d (new_version d r) u));
      s ← get_state;
      match select_one (λ r, bool_decide (r.(pt_id) = id)) s.(ps_rows) with
      | Some r => mret (mapRowToTemplate r)
      | None => throw (NotFoundError "Template not found")
      end))).
  do 3 apply unchanged_ensure. apply unchanged_transaction. apply preserves_bind; [by apply clear_preserves|].
  intros _. apply preserves_bind; [apply write_preserves, updated_keeps|]. intros _. apply preserves_bind; [auto with alsaqi|].
  intros s. case_match; auto with alsaqi.
Qed.

Lemma delete_atomic id : atomic (delete uuid_ok id).
Proof.
  intros s Hs. unfold delete. unfold mbind at 1, action_bind at 1. pose proof (getById_run id s) as Hg.
  destruct (getById uuid_ok id s) as [[r|e] s1]; [destruct Hg as (-> & _)|done].
  apply (unchanged_ensure _ _ (transaction rolled_back (write (delete_where (λ r, bool_decide (pt_id r = id)))))); [|done].
  apply unchanged_transaction. intros s2 H2. rewrite write_run. destruct (one_active _); [by apply delete_ok|done].
Qed.

Lemma select_one_delete (q p : PdfTemplateRow → bool) l : (∀ r, r ∈ l → p r = true → q r = false) →
  select_one q (delete_where p l) = select_one q l.
Proof.
  unfold select_one, delete_where. induction l as [|r l IH]; intros H; [done|]. cbn [List.filter List.find].
  assert (IH' : List.find q (List.filter (λ r, negb (p r)) l) = List.find q l) by (apply IH; intros x Hx; apply H; by right).
  destruct (p r) eqn:Hp; cbn [negb List.find]; [rewrite (H r) by (done || by left); exact IH'|]. destruct (q r); [done|exact IH'].
Qed.

Lemma delete_active id key s : rows_ok s → getActiveByType key (delete uuid_ok id s).2 = getActiveByType key s.
Proof.
  intros Hok. unfold delete. unfold mbind at 1, action_bind at 1. pose proof (getById_run id s) as Hg.
  destruct (getById uuid_ok id s) as [[r|e] s1]; [destruct Hg as (-> & Hr & Hid)|by subst s1].
  unfold ensure. unfold mbind, action_bind. destruct ((pt_is_default r =? 1) && bool_decide (pt_status r = "Approved")) eqn:Hactive; [done|].
  cbn. unfold transaction. rewrite write_run. destruct (one_active _); [|done]. cbn. unfold getActiveByType. cbn [ps_rows with_rows].
  f_equal. apply select_one_delete. intros x Hx Hxid%bool_decide_eq_true.
  assert (x = r) as -> by (apply (map_unique pt_id s.(ps_rows)); [apply Hok|done..|congruence]).
  unfold is_active. destruct (bool_decide (pt_key r = key)); [|done]. cbn. by rewrite andb_comm.
Qed.

(** C33: whatever is asked of the route, a request that fails changes nothing and one that succeeds
    keeps every key unique and at most one active template of a type; deleting never takes
    an active template away; and posting a template never succeeds, because the schema of
    the route drops the type the service requires. *)
Theorem template_requests_keep_one_active now username q s (Hok : rows_ok s) :
  let '(r, s') := serve fresh uuid_ok now username q s in
  (is_ok r = true -> rows_ok s') /\ (is_ok r = false -> s' = s) /\
  (forall id key, q = DeleteTemplate id -> getActiveByType key s' = getActiveByType key s) /\
  (forall b, q = PostTemplate b -> is_ok r = false) /\
  (forall d, match create fresh now d username s with (Ok _, s'') => rows_ok s'' | (Throw _, s'') => s'' = s end).
Proof.
  pose proof (fun d => create_atomic now d username s Hok) as Hcreate. destruct q as [b|id b|id]; cbn [serve].
  - unfold create. cbn [cd_key default id cd_name cd_content cd_status cd_is_default]. rewrite (bool_decide_eq_true_2 ("" = "")) by done.
    rewrite orb_true_r. cbn. by split_and!.
  - unfold mbind, action_bind. pose proof (update_atomic now id {| ud_name := Some b.(tb_template_name); ud_content := Some b.(tb_content);
      ud_status := b.(tb_status); ud_is_default := b.(tb_is_default) |} username s Hok) as H.
    destruct (update uuid_ok now id _ username s) as [[v|e] s']; cbn; by split_and!.
  - unfold mbind, action_bind. pose proof (delete_atomic id s Hok) as H. pose proof (λ key, delete_active id key s Hok) as Ha.
    destruct (delete uuid_ok id s) as [[[]|e] s']; cbn in *; split_and!; try done; intros i key [= <-]; apply Ha.
Qed.

Lemma one_active_complete l : NoDup (map pt_id l) →
  (∀ key r r', r ∈ l → r' ∈ l → is_active key r = true → is_active key r' = true → r = r') → one_active l = true.
Proof.
  intros Hnd Hone. unfold one_active. apply forallb_forall. intros r _. apply Nat.leb_le.
  assert (Hs : NoDup (select (is_active r.(pt_key)) l)).
  { apply NoDup_fmap_1 in Hnd. unfold select. rewrite NoDup_ListNoDup in *. by apply List.NoDup_filter. }
  destruct (select (is_active r.(pt_key)) l) as [|x [|y rest]] eqn:Hl; [cbn; lia|cbn; lia|]. exfalso.
  assert (Hx : x ∈ select (is_active r.(pt_key)) l) by (rewrite Hl; by left).
  assert (Hy : y ∈ select (is_active r.(pt_key)) l) by (rewrite Hl; right; by left).
  apply elem_of_select in Hx as [Hx Hax], Hy as [Hy Hay]. rewrite (Hone _ x y) in Hs by done.
  apply NoDup_cons in Hs as [Hni _]. apply Hni. by left.
Qed.

(** The rows a designation leaves. *)
Definition designated (now : Z) (id key : string) (d : UpdateTemplateDto) (v : Z) (u : string) (l : list PdfTemplateRow) : list PdfTemplateRow :=
  update_where (λ r, bool_decide (r.(pt_id) = id)) (updated now d v u) (update_where (clears key) cleared l).

Lemma designated_ids now id key d v u l : map pt_id (designated now id key d v u l) = map pt_id l.
Proof. unfold designated. by rewrite updated_keeps, clears_keeps. Qed.

Lemma cleared_active key r : is_active key (if clears key r then cleared r else r) = false.
Proof.
  unfold is_active, clears. destruct (bool_decide (pt_key r = key)) eqn:Hk; cbn [andb]; [|by rewrite Hk].
  destruct (pt_is_default r =? 1) eqn:Hd; cbn [andb cleared pt_is_default pt_key pt_status]; by rewrite ?Hd, ?andb_false_r.
Qed.

Lemma other_active key key' r : key' ≠ key → is_active key' (if clears key r then cleared r else r) = is_active key' r.
Proof.
  intros Hne. unfold is_active, clears. destruct (decide (pt_key r = key)) as [Hk|Hk].
  - rewrite (bool_decide_eq_true_2 (pt_key r = key)) by done. assert (Hk' : pt_key r ≠ key') by congruence.
    destruct (pt_is_default r =? 1); cbn [andb cleared pt_key]; by rewrite (bool_decide_eq_false_2 (pt_key r = key')).
  - by rewrite (bool_decide_eq_false_2 (pt_key r = key)).
Qed.

Section designation.
Context (now : Z) (id : string) (d : UpdateTemplateDto) (u : string) (s : pdf_state) (r : PdfTemplateRow) (v : Z).
Context (Hok : rows_ok s) (Hr : r ∈ s.(ps_rows)) (Hid : r.(pt_id) = id).
Context (Hwants : wants_default d = true) (Hstatus : coalesce d.(ud_status) r.(pt_status) = "Approved").
Let rows := designated now id r.(pt_key) d v u s.(ps_rows).
Let row := updated now d v u r.

Lemma designated_row : updated now d v u (if clears r.(pt_key) r then cleared r else r) = row.
Proof.
  unfold row, wants_default in *. destruct (clears (pt_key r) r); [|done]. unfold updated. cbn.
  by destruct (ud_is_default d) as [[[]|]|].
Qed.

Lemma elem_of_designated x : x ∈ rows ↔ x = row ∨ ∃ x0, x0 ∈ s.(ps_rows) ∧ x0.(pt_id) ≠ id ∧ x = if clears r.(pt_key) x0 then cleared x0 else x0.
Proof.
  unfold rows, designated. rewrite elem_of_update_where. setoid_rewrite elem_of_update_where.
  assert (Hcid : ∀ y, pt_id (if clears (pt_key r) y then cleared y else y) = pt_id y) by (intros y; by destruct (clears (pt_key r) y)).
  split.
  - intros (y & (x0 & Hx0 & ->) & ->). rewrite Hcid. case_bool_decide as Hx.
    + left. rewrite <- Hid in Hx. rewrite (map_unique pt_id s.(ps_rows) x0 r) by (apply Hok || done). apply designated_row.
    + right. exists x0. by split_and!.
  - intros [->|(x0 & Hx0 & Hne & ->)].
    + exists (if clears (pt_key r) r then cleared r else r). split; [by exists r|]. rewrite Hcid, bool_decide_eq_true_2 by done. by rewrite designated_row.
    + exists (if clears (pt_key r) x0 then cleared x0 else x0). split; [by exists x0|]. by rewrite Hcid, bool_decide_eq_false_2.
Qed.

Lemma row_active : is_active r.(pt_key) row = true.
Proof.
  unfold is_active, row, updated. cbn. rewrite Hstatus. rewrite !bool_decide_eq_true_2 by done. unfold wants_default in Hwants.
  by destruct (ud_is_default d) as [[[]|]|].
Qed.

Lemma designated_unique key x x' : x ∈ rows → x' ∈ rows → is_active key x = true → is_active key x' = true → x = x'.
Proof.
  intros Hx Hx' Ha Ha'. assert (Hrow : is_active key row = true → key = r.(pt_key)).
  { unfold is_active, row, updated. cbn. intros H. by bools. }
  apply elem_of_designated in Hx as [->|(x0 & Hx0 & Hne & ->)]; apply elem_of_designated in Hx' as [->|(x0' & Hx0' & Hne' & ->)].
  - done.
  - apply Hrow in Ha as ->. by rewrite cleared_active in Ha'.
  - apply Hrow in Ha' as ->. by rewrite cleared_active in Ha.
  - destruct (decide (key = r.(pt_key))) as [->|Hk]; [by rewrite cleared_active in Ha|]. rewrite other_active in Ha, Ha' by done.
    by rewrite (ro_active s Hok key x0 x0').
Qed.

Lemma designated_one_active : one_active rows = true.
Proof. apply one_active_complete; [unfold rows; rewrite designated_ids; apply Hok|exact designated_unique]. Qed.

Lemma cleared_one_active : one_active (update_where (clears r.(pt_key)) cleared s.(ps_rows)) = true.
Proof.
  apply one_active_complete; [rewrite clears_keeps; apply Hok|]. intros key x x' Hx Hx' Ha Ha'.
  apply elem_of_update_where in Hx as (x0 & Hx0 & ->), Hx' as (x0' & Hx0' & ->).
  destruct (decide (key = r.(pt_key))) as [->|Hk]; [by rewrite cleared_active in Ha|]. rewrite other_active in Ha, Ha' by done.
  by rewrite (ro_active s Hok key x0 x0').
Qed.

Lemma find_active l key x : (∀ y y', y ∈ l → y' ∈ l → is_active key y = true → is_active key y' = true → y = y') →
  x ∈ l → is_active key x = true → select_one (is_active key) l = Some x.
Proof.
  intros Hu Hx Ha. destruct (select_one (is_active key) l) as [y|] eqn:Hy.
  - apply select_one_Some in Hy as [Hy Hay]. by rewrite (Hu x y).
  - pose proof (proj1 (select_one_None _ _) Hy x Hx). congruence.
Qed.

Lemma designated_others key : key ≠ r.(pt_key) → select_one (is_active key) rows = select_one (is_active key) s.(ps_rows).
Proof.
  intros Hk. destruct (select_one (is_active key) s.(ps_rows)) as [x|] eqn:Hx.
  - apply select_one_Some in Hx as [Hx Ha]. apply find_active; [apply designated_unique| |done].
    apply elem_of_designated. right. exists x. unfold is_active in Ha. bools. split_and!; [done| |].
    + intros Hxid. rewrite <- Hid in Hxid. apply (map_unique pt_id s.(ps_rows)) in Hxid; [congruence|apply Hok|done..].
    + unfold clears. by rewrite bool_decide_eq_false_2 by congruence.
  - apply select_one_None. intros y [->|(x0 & Hx0 & Hne & ->)]%elem_of_designated.
    + unfold is_active, row, updated. cbn. by rewrite bool_decide_eq_false_2 by congruence.
    + rewrite other_active by done. by apply (proj1 (select_one_None _ _) Hx).
Qed.
End designation.

(** making an approved template the default of its type always succeeds, whatever the former
    default was: it becomes the active template of the type, the former one keeps
    everything but the mark, and no other type is touched. *)
Theorem designation_switches_default now id d u s r (Hok : rows_ok s) (Huuid : uuid_ok id = true)
  (Hr : r ∈ s.(ps_rows)) (Hid : r.(pt_id) = id) (Hname : forall n, d.(ud_name) = Some n -> too_long n = false)
  (Hcontent : forall c, d.(ud_content) = Some c -> too_large c = false)
  (Hwants : wants_default d = true) (Hstatus : coalesce d.(ud_status) r.(pt_status) = "Approved") :
  exists t s', update uuid_ok now id d u s = (Ok t, s') /\ rows_ok s' /\
    t.(tm_row) = updated now d (new_version d r) u r /\ t.(tm_is_default) = true /\
    getActiveByType r.(pt_key) s' = Some t /\
    (forall key, key <> r.(pt_key) -> getActiveByType key s' = getActiveByType key s) /\
    (forall x, x ∈ s.(ps_rows) -> x.(pt_id) <> id -> (if clears r.(pt_key) x then cleared x else x) ∈ s'.(ps_rows)).
Proof.
  set (v := new_version d r). set (row := updated now d v u r).
  set (s' := with_rows (designated now id r.(pt_key) d v u s.(ps_rows)) s).
  assert (Hget : getById uuid_ok id s = (Ok r, s)).
  { unfold getById, cast_uuid, ensure, get_state, mbind, action_bind. rewrite Huuid. cbn.
    destruct (select_one _ _) as [x|] eqn:Hx.
    - apply select_one_Some in Hx as [Hx Hxid%bool_decide_eq_true]. unfold mret, action_ret.
      rewrite (map_unique pt_id s.(ps_rows) x r); [done|apply Hok|done..|congruence].
    - pose proof (proj1 (select_one_None _ _) Hx r Hr) as H. cbn beta in H. by rewrite bool_decide_eq_true_2 in H. }
  assert (Hrow : row ∈ s'.(ps_rows)) by (apply (elem_of_designated now id d u s r v Hok Hr Hid Hwants); by left).
  assert (Hids : NoDup (map pt_id s'.(ps_rows))) by (cbn; rewrite designated_ids; apply Hok).
  assert (Hrun : update uuid_ok now id d u s = (Ok (mapRowToTemplate row), s')).
  { unfold update. unfold mbind at 1, action_bind at 1. rewrite Hget. unfold ensure at 1 2 3.
    replace (match ud_name d with Some n => too_long n | None => false end) with false by (destruct (ud_name d); [symmetry; by apply Hname|done]).
    replace (match ud_content d with Some c => too_large c | None => false end) with false by (destruct (ud_content d); [symmetry; by apply Hcontent|done]).
    rewrite Hwants, (bool_decide_eq_true_2 _ Hstatus). cbn [negb andb]. unfold mbind at 1 2 3, action_bind at 1 2 3. unfold mret at 1 2 3, action_ret at 1 2 3.
    unfold transaction, clear_default. unfold mbind at 1, action_bind at 1. rewrite write_run, (cleared_one_active s r Hok).
    unfold mbind at 1, action_bind at 1. rewrite write_run. cbn [ps_rows with_rows].
    change (update_where (λ r0, bool_decide (pt_id r0 = id)) (updated now d (new_version d r) u) (update_where (clears (pt_key r)) cleared (ps_rows s)))
      with (designated now id r.(pt_key) d v u s.(ps_rows)).
    rewrite (designated_one_active now id d u s r v Hok Hr Hid Hwants). unfold get_state, mbind, action_bind.
    change (with_rows (designated now id (pt_key r) d v u (ps_rows s)) (with_rows (update_where (clears (pt_key r)) cleared (ps_rows s)) s)) with s'.
    cbn beta iota. destruct (select_one _ _) as [x|] eqn:Hx.
    - apply select_one_Some in Hx as [Hx Hxid%bool_decide_eq_true]. unfold mret, action_ret.
      by rewrite (map_unique pt_id s'.(ps_rows) x row) by (done || (cbn; congruence)).
    - pose proof (proj1 (select_one_None _ _) Hx row Hrow) as H. cbn in H. by rewrite bool_decide_eq_true_2 in H. }
  exists (mapRowToTemplate row), s'. split_and!.
  - exact Hrun.
  - apply (ok_rows_ok (designated now id r.(pt_key) d v u)); [done|apply designated_ids|].
    by apply (designated_one_active now id d u s r v Hok Hr Hid Hwants).
  - done.
  - cbn. unfold row, updated, wants_default in *. cbn. by destruct (ud_is_default d) as [[[]|]|].
  - unfold getActiveByType. rewrite (find_active _ _ row); [done| |done|by apply (row_active now d u r v Hwants)].
    intros y y'. by apply (designated_unique now id d u s r v Hok Hr Hid Hwants).
  - intros key Hk. unfold getActiveByType. f_equal. by apply (designated_others now id d u s r v Hok Hr Hid Hwants).
  - intros x Hx Hne. apply (elem_of_designated now id d u s r v Hok Hr Hid Hwants). right. by exists x.
Qed.
End requests.

(** ** Runs of the definitions *)

Module Templates.
Definition fresh (k : nat) : string := pretty (N.of_nat k).
Definition uuid_ok (id : string) : bool := negb (bool_decide (id = "")).
Lemma ids_distinct a b : fresh a = fresh b → a = b.
Proof. intros H%(inj pretty). lia. Qed.

Definition template (id status : string) (is_default : Z) : PdfTemplateRow :=
  {| pt_id := id; pt_name := id; pt_key := "general"; pt_type := "general"; pt_content := "<p>"; pt_status := status;
     pt_is_default := is_default; pt_version := 1; pt_created_by := "a"; pt_updated_by := "a"; pt_created_at := 0; pt_updated_at := 0 |}.
(** The active template of a type, another approved one and a draft. *)
Definition start : pdf_state :=
  {| ps_rows := [template "0" "Approved" 1; template "1" "Approved" 0; template "2" "Draft" 0]; ps_next := 3 |}.

Lemma templates_ok : rows_ok fresh start.
Proof.
  assert (Hids : NoDup (map pt_id start.(ps_rows))) by (apply (bool_decide_unpack _); by vm_compute).
  split; [exact Hids| |by apply one_active_spec].
  assert (H : ∀ r, List.In r start.(ps_rows) → ∃ k, (k < 3)%nat ∧ r.(pt_id) = fresh k).
  { intros r [<-|[<-|[<-|[]]]]; [exists 0%nat|exists 1%nat|exists 2%nat]; split; by (lia || vm_compute). }
  intros r Hr%list_elem_of_In. by apply H.
Qed.

Definition body (status : option string) (f : flag) : template_body :=
  {| tb_template_name := "n"; tb_template_type := "general"; tb_content := "<p>"; tb_status := status; tb_is_default := Some f |}.
Definition put (id : string) (status : option string) (f : flag) : outcome app_error (option PdfTemplate) * pdf_state :=
  serve fresh uuid_ok 9 "b" (PutTemplate id (body status f)) start.
Definition marks (s : pdf_state) : list (string * string * Z) := map (λ r, (r.(pt_id), r.(pt_status), r.(pt_is_default))) s.(ps_rows).

(** Only the literal [true] is checked and clears the former default: the number that the
    schema accepts as well makes a draft the default, or breaks the index of the table, and
    answers a bare error; a template that becomes a draft stays the default; and a
    request that creates a template always fails. *)
Theorem template_gaps :
  (let '(r, s) := put "2" None (FlagNumber true) in is_ok r = true ∧ marks s = [("0", "Approved", 1); ("1", "Approved", 0); ("2", "Draft", 1)]) ∧
  (put "2" None (FlagBool true)).1 = Throw (ValidationError "Only Approved templates can be set as default") ∧
  (put "1" None (FlagNumber true)).1 = Throw (GenericError "duplicate key value violates unique constraint") ∧
  (let '(r, s) := put "0" (Some "Draft") (FlagBool true) in is_ok r = false) ∧
  (let '(r, s) := put "0" (Some "Draft") (FlagNumber true) in
     is_ok r = true ∧ getActiveByType "general" s = None ∧ marks s = [("0", "Draft", 1); ("1", "Approved", 0); ("2", "Draft", 0)]) ∧
  (serve fresh uuid_ok 9 "b" (PostTemplate (body None (FlagBool false))) start).1 = Throw (ValidationError "Missing required fields").
Proof. vm_compute. repeat split. Qed.

Theorem template_types :
  resolveTemplateTypeKey (Some "auditReport") = "audit_report" ∧ resolveTemplateTypeKey None = "general" ∧
  resolveTemplateTypeKey (Some "constructor") = "general" ∧
  forallb (λ e, isValidTemplateTypeKey e.2) LEGACY_MAPPING = true.
Proof. by vm_compute. Qed.
End Templates.

Lemma template_requests_keep_one_active_witness :
  rows_ok Templates.fresh Templates.start /\
  getActiveByType "general" (serve Templates.fresh Templates.uuid_ok 9 "b" (DeleteTemplate "0") Templates.start).2 =
  getActiveByType "general" Templates.start.
Proof.
  split; [exact Templates.templates_ok|].
  pose proof (template_requests_keep_one_active Templates.fresh Templates.uuid_ok Templates.ids_distinct 9 "b" (DeleteTemplate "0")
    Templates.start Templates.templates_ok) as H.
  destruct (serve _ _ _ _ _ _) as [r s']. destruct H as (_ & _ & H & _). by apply (H "0" "general").
Defined.

Lemma designation_switches_default_witness :
  exists t s', update Templates.uuid_ok 9 "1" {| ud_name := None; ud_content := None; ud_status := None; ud_is_default := Some (FlagBool true) |}
    "b" Templates.start = (Ok t, s') /\ getActiveByType "general" s' = Some t.
Proof.
  destruct (designation_switches_default Templates.fresh Templates.uuid_ok 9 "1"
    {| ud_name := None; ud_content := None; ud_status := None; ud_is_default := Some (FlagBool true) |} "b" Templates.start
    (Templates.template "1" "Approved" 0) Templates.templates_ok eq_refl) as (t & s' & Hrun & _ & _ & _ & Ha & _);
    [apply (bool_decide_unpack _); by vm_compute|done..|].
  exists t, s'. by split.
Defined.
