(* ===== verification/Governance.v ===== *)
(** * Integrity and governance ([services/FraudService.ts], [CoiService.ts],
    [IntegrityService.ts], [PolicyService.ts], [JobTitleService.ts] with their
    routes [fraud.ts], [coi.ts], [integrity.ts], [policies.ts], [jobTitles.ts])

    Requests for access to the fraud log as a state machine, declarations of
    conflicts of interest, policies and job titles.  A statement, an event and an
    entry of the audit trail succeed here, and identifiers are ones the database
    can read; the checks of a route come before the operation.  A column without a value is [NULL], which some columns refuse.
    [set_date t d] is the time [d] days after [t] on the calendar of the server. *)

From S2P Require Import Prelude JsMap JsStrings OrderBy ModuleRegistry RequestGuards.
Local Open Scope Z_scope.

(** ** Tables *)

Record access_request := {
  fr_id : string; fr_user : string; fr_user_name : string; fr_reason : string; fr_status : string; fr_date : Z;
  fr_response : option Z; fr_by : option string; fr_expires : option Z; fr_rejection : option string }.
Record declaration := { co_id : string; co_user : string; co_status : string; co_notes : option string; co_description : string; co_party : string; co_date : string }.
Record internal_policy := {
  ip_id : string; ip_title : string; ip_department : string; ip_version : string; ip_upload_date : string; ip_file_url : string; ip_status : option string }.
Record system_policy := { sp_key : string; sp_content : string; sp_updated_by : option string }.
Record job_title := {
  jt_id : string; jt_name : string; jt_department : string; jt_level : string; jt_description : option string; jt_reports : option string; jt_status : string }.
Record account := { gu_id : string; gu_role : string; gu_job_title : option string }.

(** What is told to others, in order: an event, a notification to a user, an entry of the trail. *)
Inductive told := EventSent (name subject : string) | Notified (user kind : string) | Audited (user action details : string).

Record governance := {
  gv_requests : list access_request; gv_coi : list declaration; gv_policies : list internal_policy; gv_system : list system_policy;
  gv_jobs : list job_title; gv_users : list account; gv_told : list told }.
Abbreviation gv_action := (action app_error governance).

Definition with_requests (l : list access_request) (s : governance) : governance :=
  {| gv_requests := l; gv_coi := s.(gv_coi); gv_policies := s.(gv_policies); gv_system := s.(gv_system); gv_jobs := s.(gv_jobs); gv_users := s.(gv_users); gv_told := s.(gv_told) |}.
Definition with_coi (l : list declaration) (s : governance) : governance :=
  {| gv_requests := s.(gv_requests); gv_coi := l; gv_policies := s.(gv_policies); gv_system := s.(gv_system); gv_jobs := s.(gv_jobs); gv_users := s.(gv_users); gv_told := s.(gv_told) |}.
Definition with_policies (l : list internal_policy) (m : list system_policy) (s : governance) : governance :=
  {| gv_requests := s.(gv_requests); gv_coi := s.(gv_coi); gv_policies := l; gv_system := m; gv_jobs := s.(gv_jobs); gv_users := s.(gv_users); gv_told := s.(gv_told) |}.
Definition with_jobs (l : list job_title) (s : governance) : governance :=
  {| gv_requests := s.(gv_requests); gv_coi := s.(gv_coi); gv_policies := s.(gv_policies); gv_system := s.(gv_system); gv_jobs := l; gv_users := s.(gv_users); gv_told := s.(gv_told) |}.
Definition told_more (l : list told) (s : governance) : governance :=
  {| gv_requests := s.(gv_requests); gv_coi := s.(gv_coi); gv_policies := s.(gv_policies); gv_system := s.(gv_system); gv_jobs := s.(gv_jobs);
     gv_users := s.(gv_users); gv_told := s.(gv_told) ++ l |}.
Definition tell (l : list told) : gv_action unit := modify (told_more l).

Definition sized (least most : nat) (t : string) : bool := bool_decide (least ≤ utf16_length t ≤ most)%nat.
(** [v || other] on a text that may be missing *)
Definition text_or (v : option string) (other : string) : string := match v with Some t => if bool_decide (t = "") then other else t | None => other end.
Definition filled_text (v : option string) : option string := match v with Some t => if bool_decide (t = "") then None else Some t | None => None end.
(** The value of a [NOT NULL] column. *)
Definition required (column : string) (v : option string) : gv_action string :=
  match v with Some t => mret t | None => throw (GenericError (column +:+ " must not be null")) end.

(** ** Access to the fraud log *)

Definition ADMIN_ROLES : list string := [UserRole.ADMIN; UserRole.MANAGER].

(** [createRequest]: the check and the insert are two statements. *)
Definition pending_of (userId : string) (r : access_request) : bool := bool_decide (r.(fr_user) = userId) && bool_decide (r.(fr_status) = "Pending").
Definition insert_request (id : string) (now : Z) (userId userName reason : string) : gv_action unit :=
  modify (λ s, with_requests (s.(gv_requests) ++ [{|
    fr_id := id; fr_user := userId; fr_user_name := userName; fr_reason := reason; fr_status := "Pending"; fr_date := now; fr_response := None;
    fr_by := None; fr_expires := None; fr_rejection := None |}]) s).
Definition createRequest (id : string) (now : Z) (userId userName reason : string) : gv_action unit :=
  s ← get_state;
  _ ← ensure (negb (existsb (pending_of userId) s.(gv_requests))) (ConflictError "You already have a pending request.");
  _ ← insert_request id now userId userName reason;
  tell [EventSent "fraud_access_request.created" id].

Definition post_request (id : string) (now : Z) (userId userName reason : string) : gv_action unit :=
  _ ← ensure (sized 5 1000 reason) (ValidationError "Invalid request data");
  _ ← createRequest id now userId userName reason;
  s ← get_state;
  _ ← tell (map (λ a, Notified a.(gu_id) "access_requested") (List.filter (λ a, bool_decide (a.(gu_role) ∈ ADMIN_ROLES)) s.(gv_users)));
  tell [Audited userName "Request Access" "User requested access to Fraud Log"].

(** [ORDER BY request_date DESC] *)
Definition newest_requests (l : list access_request) : list access_request := order_by fr_date (λ a b, b <? a) l.
Definition getRequests (userId role : string) (s : governance) : list access_request :=
  newest_requests (if bool_decide (role ∈ ADMIN_ROLES) then s.(gv_requests) else select (λ r, bool_decide (r.(fr_user) = userId)) s.(gv_requests)).

Inductive my_status := NoAccess | Granted (r : access_request) | Latest (r : access_request).
Definition in_force (userId : string) (now : Z) (r : access_request) : bool :=
  bool_decide (r.(fr_user) = userId) && bool_decide (r.(fr_status) = "Approved") && match r.(fr_expires) with Some t => now <? t | None => true end.
Definition getMyStatus (userId : string) (now : Z) (s : governance) : my_status :=
  match select_one (in_force userId now) s.(gv_requests) with
  | Some r => Granted r
  | None =>
      match newest_requests (select (λ r, bool_decide (r.(fr_user) = userId)) s.(gv_requests)) with
      | r :: _ => if bool_decide (r.(fr_status) = "Approved") then NoAccess else Latest r
      | [] => NoAccess
      end
  end.

Definition has_request_id (id : string) (r : access_request) : bool := bool_decide (r.(fr_id) = id).
Definition approved (by' : string) (now : Z) (expires : option Z) (r : access_request) : access_request :=
  {| fr_id := r.(fr_id); fr_user := r.(fr_user); fr_user_name := r.(fr_user_name); fr_reason := r.(fr_reason); fr_status := "Approved"; fr_date := r.(fr_date);
     fr_response := Some now; fr_by := Some by'; fr_expires := expires; fr_rejection := r.(fr_rejection) |}.
Definition rejected (by' : string) (now : Z) (reason : string) (r : access_request) : access_request :=
  {| fr_id := r.(fr_id); fr_user := r.(fr_user); fr_user_name := r.(fr_user_name); fr_reason := r.(fr_reason); fr_status := "Rejected"; fr_date := r.(fr_date);
     fr_response := Some now; fr_by := Some by'; fr_expires := r.(fr_expires); fr_rejection := Some reason |}.
Definition find_request (id : string) : gv_action access_request :=
  s ← get_state;
  match select_one (has_request_id id) s.(gv_requests) with Some r => mret r | None => throw (NotFoundError "Request not found") end.
Definition on_request (id : string) (f : access_request → access_request) : gv_action unit :=
  modify (λ s, with_requests (update_where (has_request_id id) f s.(gv_requests)) s).

Section dates.
Context (set_date : Z → Z → Z).

Definition approveRequest (id : string) (now duration : Z) (responderId : string) : gv_action access_request :=
  request ← find_request id;
  let expiresAt := if duration =? 0 then None else Some (set_date now duration) in
  _ ← on_request id (approved responderId now expiresAt);
  _ ← tell [EventSent "fraud_access_request.status_changed" id];
  mret request.
Definition put_approve (id : string) (now duration : Z) (responderId username : string) : gv_action unit :=
  _ ← ensure ((0 <? duration) && (duration <=? 365)) (ValidationError "Invalid duration");
  request ← approveRequest id now duration responderId;
  tell [Notified request.(fr_user) "access_approved"; Audited username "Approve Access" request.(fr_user)].
End dates.

Definition rejectRequest (id reason : string) (now : Z) (responderId : string) : gv_action access_request :=
  request ← find_request id;
  _ ← on_request id (rejected responderId now reason);
  _ ← tell [EventSent "fraud_access_request.status_changed" id];
  mret request.
Definition put_reject (id reason : string) (now : Z) (responderId username : string) : gv_action unit :=
  _ ← ensure (sized 5 1000 reason) (ValidationError "Invalid reject reason");
  request ← rejectRequest id reason now responderId;
  tell [Notified request.(fr_user) "access_rejected"; Audited username "Reject Access" request.(fr_user)].

(** ** Conflicts of interest *)

Definition create_coi (id today userId username description related_party : string) : gv_action unit :=
  _ ← ensure (sized 1 2000 description && sized 1 255 related_party) (ValidationError "Invalid COI data");
  _ ← modify (λ s, with_coi (s.(gv_coi) ++ [{| co_id := id; co_user := userId; co_status := "pending"; co_notes := None; co_description := description;
                                              co_party := related_party; co_date := today |}]) s);
  tell [Audited username "Created Conflict of Interest Declaration" ("ID: " +:+ id); EventSent "coi.created" id].

Definition coi_statuses : list string := ["Pending"; "Approved"; "Rejected"; "Closed"].
Definition updateStatus (id status : string) (notes : option string) (username : string) : gv_action unit :=
  _ ← ensure (bool_decide (status ∈ coi_statuses)) (ValidationError "Invalid COI status update");
  _ ← modify (λ s, with_coi (update_where (λ d, bool_decide (d.(co_id) = id))
        (λ d, {| co_id := d.(co_id); co_user := d.(co_user); co_status := status; co_notes := notes; co_description := d.(co_description);
                 co_party := d.(co_party); co_date := d.(co_date) |}) s.(gv_coi)) s);
  tell [Audited username "Updated Conflict of Interest Status" ("ID: " +:+ id); EventSent "coi.status_changed" id].

(** [ORDER BY declaration_date DESC LIMIT ?] *)
Definition getAll_coi (limit : Z) (s : governance) : list declaration :=
  take (Z.to_nat (Z.min (Z.max (if limit =? 0 then 200 else limit) 1) 500))
    (order_by (λ d, map code (chars d.(co_date))) (λ a b, lex N.ltb b a) s.(gv_coi)).

Record integrity_stats := { is_conflicts : nat; is_pending : nat; is_fraud : nat; is_open : nat; is_total : nat; is_active : nat }.
(** [fraud_statuses] are the statuses of the fraud log. *)
Definition getIntegrityStats (fraud_statuses : list string) (s : governance) : integrity_stats :=
  let conflicts := length s.(gv_coi) in
  let pending := length (List.filter (λ d, bool_decide (d.(co_status) = "pending")) s.(gv_coi)) in
  let fraud := length fraud_statuses in
  let open_ := length (List.filter (λ t, bool_decide (t = "Open") || bool_decide (t = "Pending")) fraud_statuses) in
  {| is_conflicts := conflicts; is_pending := pending; is_fraud := fraud; is_open := open_; is_total := (conflicts + fraud)%nat; is_active := (pending + open_)%nat |}.

(** ** Policies *)

Record policy_body := {
  pb_title : option string; pb_department : option string; pb_version : option string; pb_file_url : option string; pb_status : option string;
  pb_content : option (option string) }.
Definition policy_statuses : list string := ["Active"; "Inactive"; "Draft"; "Archived"].
(** [policySchema], and [policySchema.partial()], in which the title may be missing. *)
Definition policy_partial (b : policy_body) : bool :=
  match b.(pb_title) with Some t => sized 1 255 t | None => true end &&
  match b.(pb_status) with Some t => bool_decide (t ∈ policy_statuses) | None => true end.
Definition policy_full (b : policy_body) : bool := bool_decide (is_Some b.(pb_title)) && policy_partial b.

Definition has_policy_id (id : string) (p : internal_policy) : bool := bool_decide (p.(ip_id) = id).
Definition has_key (key : string) (p : system_policy) : bool := bool_decide (p.(sp_key) = key).

Inductive policy_found := Internal (p : internal_policy) | System (p : system_policy).
Definition getById (id : string) (s : governance) : outcome app_error policy_found :=
  match (if isValidUuid id then select_one (has_policy_id id) s.(gv_policies) else None) with
  | Some p => Ok (Internal p)
  | None => match select_one (has_key id) s.(gv_system) with Some p => Ok (System p) | None => Throw (NotFoundError "Policy not found") end
  end.
Definition getFile (id : string) (s : governance) : outcome app_error string :=
  match (if isValidUuid id then select_one (has_policy_id id) s.(gv_policies) else None) with
  | Some p => Ok p.(ip_file_url)
  | None => Throw (NotFoundError "Policy file not found")
  end.
(** [ORDER BY upload_date DESC] *)
Definition getAll_policies (s : governance) : list internal_policy :=
  order_by (λ p, map code (chars p.(ip_upload_date))) (λ a b, lex N.ltb b a) s.(gv_policies).

Definition create_policy (id today username : string) (b : policy_body) : gv_action unit :=
  _ ← ensure (policy_full b) (ValidationError "Invalid policy data");
  title ← required "title" b.(pb_title);
  department ← required "department" b.(pb_department);
  version ← required "version" b.(pb_version);
  file_url ← required "file_url" b.(pb_file_url);
  _ ← modify (λ s, with_policies (s.(gv_policies) ++ [{| ip_id := id; ip_title := title; ip_department := department; ip_version := version;
        ip_upload_date := today; ip_file_url := file_url; ip_status := Some (text_or b.(pb_status) "Active") |}]) s.(gv_system) s);
  tell [Audited username "Added Internal Policy" ("Title: " +:+ title)].

(** The database refuses a missing value only where a row is changed. *)
Definition set_policy (b : policy_body) (p : internal_policy) : option internal_policy :=
  title ← b.(pb_title); department ← b.(pb_department); version ← b.(pb_version); file_url ← b.(pb_file_url);
  Some {| ip_id := p.(ip_id); ip_title := title; ip_department := department; ip_version := version; ip_upload_date := p.(ip_upload_date);
          ip_file_url := file_url; ip_status := b.(pb_status) |}.
Definition update_policy (id username : string) (b : policy_body) : gv_action bool :=
  _ ← ensure (policy_partial b) (ValidationError "Invalid policy data");
  if isValidUuid id then
    s ← get_state;
    _ ← (if existsb (has_policy_id id) s.(gv_policies) then
           match mapM (λ p, if has_policy_id id p then set_policy b p else Some p) s.(gv_policies) with
           | Some l => modify (with_policies l s.(gv_system))
           | None => throw (GenericError "null value violates not-null constraint")
           end
         else mret tt);
    _ ← tell [Audited username "Updated Internal Policy" ("ID: " +:+ id)];
    mret true
  else
    match b.(pb_content) with
    | None => mret false
    | Some content =>
        s ← get_state;
        _ ← (if existsb (has_key id) s.(gv_system) then
               match content with
               | Some text => modify (with_policies s.(gv_policies) (update_where (has_key id) (λ p, {| sp_key := p.(sp_key); sp_content := text;
                                        sp_updated_by := Some username |}) s.(gv_system)))
               | None => throw (GenericError "null value violates not-null constraint")
               end
             else mret tt);
        _ ← tell [Audited username "Updated System Policy" ("Key: " +:+ id)];
        mret true
    end.

Definition delete_policy (id username : string) : gv_action unit :=
  if isValidUuid id then
    _ ← modify (λ s, with_policies (delete_where (has_policy_id id) s.(gv_policies)) s.(gv_system) s);
    tell [Audited username "Deleted Internal Policy" ("ID: " +:+ id)]
  else
    _ ← modify (λ s, with_policies s.(gv_policies) (delete_where (has_key id) s.(gv_system)) s);
    tell [Audited username "Deleted System Policy" ("Key: " +:+ id)].

(** ** Job titles *)

Record job_body := {
  jb_name : option string; jb_department : option string; jb_level : option string; jb_description : option string;
  jb_reports : option string; jb_status : option string }.
Definition job_partial (b : job_body) : bool :=
  match b.(jb_name) with Some t => sized 1 255 t | None => true end &&
  match b.(jb_department) with Some t => negb (bool_decide (t = "")) | None => true end &&
  match b.(jb_level) with Some t => negb (bool_decide (t = "")) | None => true end &&
  match b.(jb_reports) with Some t => bool_decide (t = "") || isValidUuid t | None => true end.
Definition job_full (b : job_body) : bool :=
  bool_decide (is_Some b.(jb_name)) && bool_decide (is_Some b.(jb_department)) && bool_decide (is_Some b.(jb_level)) && job_partial b.

Definition has_job_id (id : string) (j : job_title) : bool := bool_decide (j.(jt_id) = id).
Definition create_job (id username : string) (b : job_body) : gv_action unit :=
  _ ← ensure (job_full b) (ValidationError "Invalid job title data");
  name ← required "name" b.(jb_name);
  department ← required "department" b.(jb_department);
  level ← required "job_level" b.(jb_level);
  _ ← modify (λ s, with_jobs (s.(gv_jobs) ++ [{| jt_id := id; jt_name := name; jt_department := department; jt_level := level;
        jt_description := b.(jb_description); jt_reports := filled_text b.(jb_reports); jt_status := text_or b.(jb_status) "Active" |}]) s);
  tell [Audited username "Created Job Title" ("Created job title " +:+ name)].

Definition set_job (b : job_body) (j : job_title) : option job_title :=
  name ← b.(jb_name); department ← b.(jb_department); level ← b.(jb_level); status ← b.(jb_status);
  Some {| jt_id := j.(jt_id); jt_name := name; jt_department := department; jt_level := level; jt_description := b.(jb_description);
          jt_reports := filled_text b.(jb_reports); jt_status := status |}.
Definition update_job (id username : string) (b : job_body) : gv_action unit :=
  _ ← ensure (job_partial b) (ValidationError "Invalid job title data");
  s ← get_state;
  _ ← (if existsb (has_job_id id) s.(gv_jobs) then
         match mapM (λ j, if has_job_id id j then set_job b j else Some j) s.(gv_jobs) with
         | Some l => modify (with_jobs l)
         | None => throw (GenericError "null value violates not-null constraint")
         end
       else mret tt);
  tell [Audited username "Updated Job Title" ("Updated job title ID " +:+ id)].

Definition delete_job (id username : string) : gv_action unit :=
  s ← get_state;
  _ ← ensure (negb (existsb (λ u, bool_decide (u.(gu_job_title) = Some id)) s.(gv_users)))
        (ValidationError "Cannot delete job title assigned to users. Please mark as Inactive instead.");
  match select_one (has_job_id id) s.(gv_jobs) with
  | None => throw (NotFoundError "Job title not found")
  | Some j => _ ← modify (λ s, with_jobs (delete_where (has_job_id id) s.(gv_jobs)) s);
              tell [Audited username "Deleted Job Title" ("Deleted job title " +:+ j.(jt_name))]
  end.

(** ** Requests as steps *)

(** What a request to the routes of this file is. *)
Inductive command :=
  | AskAccess (userId userName reason : string)
  | Approve (id : string) (duration : Z) (by' name : string)
  | Reject (id reason by' name : string)
  | FileConflict (userId username description party : string)
  | Review (id status : string) (notes : option string) (username : string)
  | CreatePolicy (username : string) (b : policy_body)
  | UpdatePolicy (id username : string) (b : policy_body)
  | DeletePolicy (id username : string)
  | CreateJob (username : string) (b : job_body)
  | UpdateJob (id username : string) (b : job_body)
  | DeleteJob (id username : string).

(** [id], [now] and [today] are what the database and the clock give the request. *)
Definition perform (set_date : Z → Z → Z) (id : string) (now : Z) (today : string) (c : command) : gv_action unit :=
  match c with
  | AskAccess u n r => post_request id now u n r
  | Approve i d b n => put_approve set_date i now d b n
  | Reject i r b n => put_reject i r now b n
  | FileConflict u n d p => create_coi id today u n d p
  | Review i st n u => updateStatus i st n u
  | CreatePolicy u b => create_policy id today u b
  | UpdatePolicy i u b => _ ← update_policy i u b; mret tt
  | DeletePolicy i u => delete_policy i u
  | CreateJob u b => create_job id u b
  | UpdateJob i u b => update_job i u b
  | DeleteJob i u => delete_job i u
  end.

(** ** Properties *)

Ltac run_request H :=
  unfold perform, post_request, createRequest, insert_request, put_approve, approveRequest, put_reject, rejectRequest, find_request, on_request,
    create_coi, updateStatus, create_policy, update_policy, delete_policy, create_job, update_job, delete_job, required, tell, ensure, throw, modify,
    get_state, mbind, action_bind, mret, action_ret in H;
  cbv beta iota in H;
  repeat (match type of H with
          | context [if ?b then _ else _] => destruct b eqn:?
          | context [match ?o with Some _ => _ | None => _ end] => destruct o eqn:?
          end; cbv beta iota in H);
  simplify_eq.

(** A request that is refused changes no table and tells no one. *)
Lemma refused_changes_nothing set_date id now today c s e s' : perform set_date id now today c s = (Throw e, s') → s' = s.
Proof. intros H. destruct c; run_request H; done. Qed.

Section requests.
Context (set_date : Z → Z → Z).

(** A request that waits has no answer, an approval has its approver and ends
    at most a year later, a rejection has its reason. *)
Definition request_ok (r : access_request) : Prop :=
  (r.(fr_status) = "Pending" ∧ r.(fr_response) = None ∧ r.(fr_by) = None ∧ r.(fr_expires) = None) ∨
  (r.(fr_status) = "Approved" ∧ ∃ b t d, 1 ≤ d ≤ 365 ∧ r.(fr_by) = Some b ∧ r.(fr_response) = Some t ∧ r.(fr_expires) = Some (set_date t d)) ∨
  (r.(fr_status) = "Rejected" ∧ ∃ b t why, r.(fr_by) = Some b ∧ r.(fr_response) = Some t ∧ r.(fr_rejection) = Some why).

Record governance_ok (s : governance) : Prop := {
  ok_ids : NoDup (map fr_id s.(gv_requests));
  ok_requests : Forall request_ok s.(gv_requests);
  ok_pending : ∀ u, (length (List.filter (pending_of u) s.(gv_requests)) ≤ 1)%nat;
  ok_jobs : ∀ a j, a ∈ s.(gv_users) → a.(gu_job_title) = Some j → j ∈ map jt_id s.(gv_jobs) }.

(** A change of other tables. *)
Lemma governance_ok_other s s' : governance_ok s → s'.(gv_requests) = s.(gv_requests) → s'.(gv_users) = s.(gv_users) →
  (∀ a j, a ∈ s.(gv_users) → a.(gu_job_title) = Some j → j ∈ map jt_id s.(gv_jobs) → j ∈ map jt_id s'.(gv_jobs)) → governance_ok s'.
Proof. intros [H1 H2 H3 H4] Hr Hu Hj. constructor; rewrite ?Hr, ?Hu; auto. intros a j Ha Hg. apply (Hj a); auto. rewrite <-?Hu; eauto. Qed.

Lemma filter_app_length {A} (p : A → bool) l1 l2 : length (List.filter p (l1 ++ l2)) = (length (List.filter p l1) + length (List.filter p l2))%nat.
Proof. by rewrite List.filter_app, length_app. Qed.

(** An answered request waits no more. *)
Lemma pending_update p f u l : (∀ r, pending_of u (f r) = false) →
  (length (List.filter (pending_of u) (update_where p f l)) ≤ length (List.filter (pending_of u) l))%nat.
Proof.
  intros Hf. unfold update_where. induction l as [|r l IH]; [done|]. cbn [map List.filter]. destruct (p r); [rewrite Hf|]; destruct (pending_of u r); cbn; lia.
Qed.

Lemma answer_ok s id f : governance_ok s → (∀ r, (f r).(fr_id) = r.(fr_id)) → (∀ r u, pending_of u (f r) = false) → (∀ r, request_ok (f r)) →
  governance_ok (with_requests (update_where (has_request_id id) f s.(gv_requests)) s).
Proof.
  intros [H1 H2 H3 H4] Hid Hp Hr. constructor; cbn [with_requests gv_requests gv_users gv_jobs].
  - rewrite update_where_column; [done|]. intros r _. apply Hid.
  - apply Forall_forall. intros r (r0 & Hr0 & ->)%elem_of_update_where. destruct (has_request_id id r0); [apply Hr|]. rewrite Forall_forall in H2. auto.
  - intros u. pose proof (pending_update (has_request_id id) f u s.(gv_requests) (λ r, Hp r u)). specialize (H3 u). lia.
  - done.
Qed.

Lemma mapM_ids {A} (id : A → string) (f : A → option A) l l' : (∀ x y, f x = Some y → id y = id x) → mapM f l = Some l' → map id l' = map id l.
Proof. intros Hf H. apply mapM_Some in H. induction H as [|x y l l' Hx H IH]; [done|]. cbn. by rewrite IH, (Hf _ _ Hx). Qed.

Lemma set_job_id b j j' : set_job b j = Some j' → j'.(jt_id) = j.(jt_id).
Proof.
  unfold set_job. destruct (jb_name b), (jb_department b), (jb_level b), (jb_status b); cbn; intros H; try discriminate H. by injection H as <-.
Qed.

Lemma told_ok l s : governance_ok s → governance_ok (told_more l s).
Proof. intros H. by apply (governance_ok_other s). Qed.

Lemma perform_ok id now today c s : governance_ok s → id ∉ map fr_id s.(gv_requests) → governance_ok (perform set_date id now today c s).2.
Proof.
  intros Hok Hid. destruct (perform set_date id now today c s) as [[[]|e] s'] eqn:H; [|by rewrite (refused_changes_nothing _ _ _ _ _ _ _ _ H)].
  cbn [snd]. destruct c; run_request H; repeat apply told_ok; try done; try (by apply (governance_ok_other s)).
  - destruct Hok as [Ha Hb Hc Hd]. constructor; cbn [with_requests gv_requests gv_users gv_jobs].
    + rewrite map_app. apply NoDup_app. split; [done|]. split; [|apply NoDup_singleton]. intros x Hx Hx'. cbn in Hx'. set_solver.
    + apply Forall_app. split; [done|]. apply Forall_singleton. by left.
    + intros u. rewrite filter_app_length. cbn [List.filter]. unfold pending_of at 2. cbn [fr_user fr_status].
      destruct (decide (userId = u)) as [<-|Hu]; [|rewrite (bool_decide_eq_false_2 _ Hu); cbn; specialize (Hc u); lia].
      assert (Hn : List.filter (pending_of userId) s.(gv_requests) = []).
      { destruct (List.filter _ _) as [|r l] eqn:Hf; [done|]. exfalso. assert (Hi : In r (List.filter (pending_of userId) s.(gv_requests))) by (rewrite Hf; by left).
        apply filter_In in Hi as [Hi Hr]. assert (Hex : existsb (pending_of userId) s.(gv_requests) = true) by (apply existsb_exists; eauto).
        by rewrite Hex in *. }
      rewrite Hn. cbn. rewrite !bool_decide_eq_true_2 by done. cbn. lia.
    + done.
  - exfalso. bools. lia.
  - bools. apply answer_ok; [done|done|intros r u; unfold pending_of; cbn; by rewrite andb_false_r|].
    intros r. right. left. split; [done|]. exists by', now, duration. split; [lia|]. done.
  - apply answer_ok; [done|done|intros r u; unfold pending_of; cbn; by rewrite andb_false_r|].
    intros r. right. right. split; [done|]. by exists by', now, reason.
  - apply (governance_ok_other s); [done..|]. intros a j _ _ Hj. cbn [with_jobs gv_jobs]. rewrite map_app. set_solver.
  - apply (governance_ok_other s); [done..|]. intros a j _ _ Hj. cbn [with_jobs gv_jobs]. erewrite mapM_ids; [exact Hj| |exact Heqo].
    intros x y Hxy. cbn in Hxy. destruct (has_job_id id0 x); [by eapply set_job_id|by injection Hxy as <-].
  - apply (governance_ok_other s); [done..|]. intros a j' Ha Hg Hj. cbn [with_jobs gv_jobs].
    apply list_elem_of_fmap in Hj as (t & -> & Ht). apply list_elem_of_fmap_2, elem_of_delete_where. split; [done|].
    apply bool_decide_eq_false. intros Heq. subst id0.
    apply negb_true_iff in Heqb. apply not_true_iff_false in Heqb. apply Heqb. apply existsb_exists. exists a.
    split; [by apply list_elem_of_In|]. by apply bool_decide_eq_true.
Qed.

(** The states that requests lead to from [s0], each with the id and the clock it was given. *)
Inductive reached (s0 : governance) : governance → Prop :=
  | reached_start : reached s0 s0
  | reached_step s id now today c : reached s0 s → id ∉ map fr_id s.(gv_requests) → reached s0 (perform set_date id now today c s).2.

(** Whatever requests follow one another, a user has one open request at most, every request
    is open, or approved by somebody for one to 365 days, or rejected by somebody with a reason,
    and no account is left with a job title that was deleted. *)
Theorem governance_stays_ok s0 s (Hstart : governance_ok s0) (Hreach : reached s0 s) : governance_ok s.
Proof. induction Hreach as [|s id now today c _ IH Hid]; [done|]. by apply perform_ok. Qed.

#[local] Instance newest_strict : StrictTotal (λ a b : Z, b <? a).
Proof. split; intros; lia. Qed.

(** A user is told of access exactly while an approval of a request of theirs has not ended, and
    every approval ends at most 365 days after it was given. *)
Theorem access_is_bounded s0 s userId now (Hstart : governance_ok s0) (Hreach : reached s0 s) :
  match getMyStatus userId now s with
  | Granted r => r ∈ s.(gv_requests) ∧ r.(fr_user) = userId ∧ r.(fr_status) = "Approved" ∧
                 ∃ t d, r.(fr_response) = Some t ∧ 1 ≤ d ≤ 365 ∧ now < set_date t d
  | Latest r => r ∈ s.(gv_requests) ∧ r.(fr_user) = userId ∧ r.(fr_status) ≠ "Approved" ∧
                ∀ r', r' ∈ s.(gv_requests) → r'.(fr_user) = userId → r'.(fr_date) ≤ r.(fr_date)
  | NoAccess => ∀ r, r ∈ s.(gv_requests) → in_force userId now r = false
  end.
Proof.
  assert (Hok : governance_ok s) by by apply (governance_stays_ok s0).
  unfold getMyStatus. destruct (select_one _ _) as [r|] eqn:Hsel.
  - apply select_one_Some in Hsel as [Hin Hforce]. unfold in_force in Hforce. bools.
    split_and!; [done..|]. pose proof (ok_requests s Hok) as Hall. rewrite Forall_forall in Hall.
    destruct (Hall r Hin) as [(Hp & _)|[(_ & b & t & d & Hd & _ & Ht & He)|(Hp & _)]]; [congruence| |congruence].
    exists t, d. rewrite He in *. split_and!; [done|lia..|]. lia.
  - assert (Hnone : ∀ r, r ∈ s.(gv_requests) → in_force userId now r = false) by (intros r Hr; by eapply select_one_None in Hsel).
    destruct (newest_requests _) as [|r l] eqn:Hn; [done|].
    assert (Hin : r ∈ select (λ r, bool_decide (r.(fr_user) = userId)) s.(gv_requests)).
    { apply (elem_of_order_by fr_date (λ a b, b <? a)). unfold newest_requests in Hn. rewrite Hn. by left. }
    apply elem_of_select in Hin as [Hin Hu]. bools. case_bool_decide as Hst; [done|]. split_and!; [done..|].
    intros r' Hr' Hu'. pose proof (order_by_head fr_date (λ a b, b <? a) _ _ _ Hn r') as Hh.
    assert (Hr'' : r' ∈ select (λ r, bool_decide (r.(fr_user) = userId)) s.(gv_requests))
      by (apply elem_of_select; split; [done|by apply bool_decide_eq_true]).
    specialize (Hh Hr''). cbn in Hh. apply Z.ltb_ge in Hh. lia.
Qed.
End requests.

(** ** Runs *)

Module Desk.
Definition set_date (t d : Z) : Z := t + d * 86400000.
Definition job (id name : string) (reports : option string) : job_title :=
  {| jt_id := id; jt_name := name; jt_department := "Audit"; jt_level := "1"; jt_description := None; jt_reports := reports; jt_status := "Active" |}.
Definition start : governance :=
  {| gv_requests := []; gv_coi := []; gv_policies := []; gv_system := []; gv_jobs := [job "j1" "Head" None; job "j2" "Auditor" (Some "j1")];
     gv_users := [{| gu_id := "a1"; gu_role := UserRole.ADMIN; gu_job_title := Some "j2" |}]; gv_told := [] |}.
Definition runs (l : list (string * Z * command)) (s : governance) : governance :=
  foldl (λ s '(id, now, c), (perform set_date id now "2025-01-01" c s).2) s l.
Definition ask : string * Z * command := ("q1", 5, AskAccess "u1" "sami" "need to look").
Definition deny : string * Z * command := ("", 6, Reject "q1" "not needed" "a1" "admin").
Definition allow : string * Z * command := ("", 7, Approve "q1" 30 "a1" "admin").

Lemma desk_ok : governance_ok set_date start.
Proof.
  constructor; [constructor|constructor|intros u; cbn; lia|]. intros a j Ha Hj.
  apply list_elem_of_singleton in Ha as ->. injection Hj as <-. apply (bool_decide_unpack _). by vm_compute.
Qed.

Lemma allowed_reached : reached set_date start (runs [ask; allow] start).
Proof.
  apply (reached_step set_date start (runs [ask] start) "" 7 "2025-01-01" (Approve "q1" 30 "a1" "admin")).
  - apply (reached_step set_date start start "q1" 5 "2025-01-01" (AskAccess "u1" "sami" "need to look")); [constructor|].
    apply (bool_decide_unpack _). by vm_compute.
  - apply (bool_decide_unpack _). by vm_compute.
Qed.

(** An approval is in force until the day it ends; a second open request is refused, and the
    administrators are told of the first. *)
Lemma access_runs :
  (∃ r, getMyStatus "u1" 8 (runs [ask; allow] start) = Granted r) ∧
  getMyStatus "u1" (set_date 7 30) (runs [ask; allow] start) = NoAccess ∧
  (perform set_date "q2" 9 "" (AskAccess "u1" "sami" "need to look") (runs [ask] start)).1
    = Throw (ConflictError "You already have a pending request.") ∧
  Notified "a1" "access_requested" ∈ (runs [ask] start).(gv_told).
Proof. split; [eexists; by vm_compute|]. split; [by vm_compute|]. split; [by vm_compute|]. apply list_elem_of_In. vm_compute. tauto. Qed.

(** A request that was rejected can be approved; a declaration that was sent back to Pending is
    not counted as pending; a job title keeps reporting to one that was deleted; and a change of
    what does not exist is answered and logged as done, while a partial one is refused. *)
Lemma governance_gaps :
  (∃ r, getMyStatus "u1" 8 (runs [ask; deny; allow] start) = Granted r) ∧
  is_pending (getIntegrityStats [] (runs [("c1", 5, FileConflict "u1" "sami" "shares" "ACME"); ("", 6, Review "c1" "Pending" None "admin")] start)) = 0%nat ∧
  map jt_reports (runs [("", 5, DeleteJob "j1" "admin")] start).(gv_jobs) = [Some "j1"] ∧
  (runs [("", 5, DeletePolicy "nothing" "admin")] start).(gv_told) = [Audited "admin" "Deleted System Policy" "Key: nothing"] ∧
  (perform set_date "" 5 "" (UpdateJob "j2" "admin"
     {| jb_name := Some "Senior"; jb_department := None; jb_level := None; jb_description := None; jb_reports := None; jb_status := None |}) start).1
    = Throw (GenericError "null value violates not-null constraint").
Proof. split; [eexists; by vm_compute|]. split_and!; by vm_compute. Qed.

Lemma governance_stays_ok_witness : governance_ok set_date (runs [ask; allow] start).
Proof. apply (governance_stays_ok set_date start (runs [ask; allow] start)); [exact desk_ok|exact allowed_reached]. Defined.

Lemma access_is_bounded_witness : ∃ t d, 1 ≤ d ≤ 365 ∧ 8 < set_date t d.
Proof.
  pose proof (access_is_bounded set_date start (runs [ask; allow] start) "u1" 8 desk_ok allowed_reached) as H.
  destruct (getMyStatus "u1" 8 (runs [ask; allow] start)) as [|r|r] eqn:Hs; [by vm_compute in Hs| |by vm_compute in Hs].
  destruct H as (_ & _ & _ & t & d & _ & H1 & H2). by exists t, d.
Defined.
End Desk.
