(* ===== verification/UserDirectory.v ===== *)
(** * The directory of users ([services/UserService.ts], [routes/users.ts], [routes/auth/register.ts])

    Creation of an account with its employee number, the update with its log, the
    listing, the counts and the bundle of the start page.  A statement that fails inside
    a transaction leaves it aborted: PostgreSQL refuses every further statement until the
    rollback.  Keys, random letters, the cast to [uuid], the hash of a password and the
    numbers other transactions commit meanwhile are arguments. *)

From S2P Require Import Prelude JsMap JsStrings JsNumbers OrderBy ModuleRegistry PermissionService AppCodes Sessions QueryBuilder.
Local Open Scope Z_scope.

(** ** Tables *)

Record user_row := {
  du_id : string; du_username : string; du_password : string; du_name : string; du_email : string; du_department : option string;
  du_job_title : option string; du_role : string; du_unit : option string; du_manager : option string; du_scope : option string;
  du_phone : option string; du_notes : option string; du_role_id : option string; du_status : string; du_employee : option string;
  du_requires_change : bool; du_requires_2fa : bool; du_session_version : Z; du_last_login : option Z }.
Record org_entity := { oe_code : option string; oe_name_ar : option string; oe_name_en : option string }.
Record change_log := { cl_target : string; cl_actor : string; cl_old_role : string; cl_new_role : string; cl_reason : string }.

(** Calls of the other services, in order: an automation event, the permission notice of a
    recipient, the invalidation of an account, an entry of the audit trail. *)
Inductive service_call :=
  | Event (name subject : string) | Notice (recipient details : string) | Invalidate (id : string) | Audit (user action details : string).

Record directory := {
  dr_users : list user_row; dr_roles : list (string * string); dr_entities : option (list org_entity); dr_changes : list change_log;
  dr_calls : list service_call;
  dr_aborted : bool; dr_next : nat; dr_random : nat }.
Abbreviation dir_action := (action app_error directory).

Definition with_users (l : list user_row) (s : directory) : directory :=
  {| dr_users := l; dr_roles := s.(dr_roles); dr_entities := s.(dr_entities); dr_changes := s.(dr_changes); dr_calls := s.(dr_calls);
     dr_aborted := s.(dr_aborted); dr_next := s.(dr_next); dr_random := s.(dr_random) |}.
Definition with_aborted (b : bool) (s : directory) : directory :=
  {| dr_users := s.(dr_users); dr_roles := s.(dr_roles); dr_entities := s.(dr_entities); dr_changes := s.(dr_changes); dr_calls := s.(dr_calls);
     dr_aborted := b; dr_next := s.(dr_next); dr_random := s.(dr_random) |}.
Definition with_made (next random : nat) (s : directory) : directory :=
  {| dr_users := s.(dr_users); dr_roles := s.(dr_roles); dr_entities := s.(dr_entities); dr_changes := s.(dr_changes); dr_calls := s.(dr_calls);
     dr_aborted := s.(dr_aborted); dr_next := next; dr_random := random |}.
Definition with_log (changes : list change_log) (calls : list service_call) (s : directory) : directory :=
  {| dr_users := s.(dr_users); dr_roles := s.(dr_roles); dr_entities := s.(dr_entities); dr_changes := changes; dr_calls := calls;
     dr_aborted := s.(dr_aborted); dr_next := s.(dr_next); dr_random := s.(dr_random) |}.

(** A statement of a transaction. *)
Definition ABORTED : string := "current transaction is aborted, commands ignored until end of transaction block".
Definition statement {A} (m : dir_action A) : dir_action A := λ s,
  if s.(dr_aborted) then (Throw (GenericError ABORTED), s)
  else match m s with (Throw e, s') => (Throw e, with_aborted true s') | r => r end.
(** [ROLLBACK]: what was generated stays used. *)
Definition rollback_directory (old new : directory) : directory := with_made new.(dr_next) new.(dr_random) old.

Definition call_service (c : service_call) : dir_action unit := modify (λ s, with_log s.(dr_changes) (s.(dr_calls) ++ [c]) s).

(** [v || null] *)
Definition or_null (v : option string) : option string := match v with Some t => if bool_decide (t = "") then None else v | None => None end.
Definition truthy_text (v : option string) : bool := match or_null v with Some _ => true | None => false end.

(** A body the schema of the routes accepts; for the scope, absent and [null] differ. *)
Record user_data := {
  ud_username : option string; ud_password : option string; ud_name : string; ud_email : string; ud_department : option string;
  ud_job_title : option string; ud_role : string; ud_unit : option string; ud_manager : option string; ud_scope : option (option string);
  ud_phone : option string; ud_notes : option string; ud_status : option string }.

Definition ROLES_REQUIRING_2FA : list string := ["Admin"; "Manager"].
Definition MAX_EMP_ID_ATTEMPTS : nat := 5.

Section service.
Context (fresh : nat → string) (hex6 : nat → string) (uuid_ok : string → bool) (hash : string → string).

Definition role_named (role : string) (s : directory) : option string := fst <$> select_one (λ r, bool_decide (r.2 = role)) s.(dr_roles).
Definition opt_uuid_ok (v : option string) : bool := match v with Some t => uuid_ok t | None => true end.

(** ** Creation *)

(** [SELECT entity_code FROM org_entities ..]; [None] is a table the statement fails on. *)
Definition entity_of (department : string) : dir_action (option org_entity) :=
  statement (s ← get_state;
    match s.(dr_entities) with
    | Some l => mret (select_one (λ e, bool_decide (e.(oe_name_ar) = Some department) || bool_decide (e.(oe_name_en) = Some department)) l)
    | None => throw (GenericError "relation does not exist")
    end).
Definition department_code (department : option string) : dir_action string :=
  match or_null department with
  | None => mret "EMP"
  | Some d =>
      try_catch (e ← entity_of d;
                 mret (match e with Some e => default "EMP" (or_null e.(oe_code)) | None => "EMP" end))
                (λ _, mret "EMP")
  end.

(** [employee_id.slice(deptCode.length + 1).split('-')[0]], read as a number. *)
Definition sequence_part (deptCode id : string) : string :=
  default "" (hd_error (JsStrings.split "-"%char (of_chars (drop (S (String.length deptCode)) (chars id))))).
Definition sequence_number (deptCode id : string) : option Z :=
  match parseInt_10 (sequence_part deptCode id) with Finite q => Some (Qfloor q) | _ => None end.
(** The employee numbers [LIKE 'code-%'] finds; an empty one is skipped. *)
Definition numbers_of (deptCode : string) (l : list user_row) : list string :=
  List.filter (λ id, negb (bool_decide (id = "")))
    (flat_map (λ u, match u.(du_employee) with Some id => if like (chars (deptCode +:+ "-%")) (chars id) then [id] else [] | None => [] end) l).
Definition next_number (deptCode : string) (ids : list string) : Z :=
  foldl (λ n id, match sequence_number deptCode id with Some k => if n <? k + 1 then k + 1 else n | None => n end) 1001 ids.
Definition makeEmployeeId (deptCode : string) (n : Z) : dir_action string :=
  s ← get_state;
  _ ← modify (with_made s.(dr_next) (S s.(dr_random)));
  mret (deptCode +:+ "-" +:+ pretty (Z.to_N n) +:+ "-" +:+ hex6 s.(dr_random)).

(** A unique violation names the constraint. *)
Definition duplicate (constraint : string) : app_error := GenericError ("duplicate key value violates unique constraint " +:+ constraint).
Definition error_message (e : app_error) : string := match e with GenericError m => m | _ => "" end.
Definition isEmployeeIdConflict (e : app_error) : bool :=
  let m := toLowerCase (error_message e) in
  includes m "employee_id" && (includes m "unique" || includes m "duplicate" || includes m "constraint").

(** [INSERT INTO users ..]: the casts and the two unique columns; [taken] are the numbers
    that other transactions have committed since the statement before. *)
Definition insert_user (taken : list string) (row : string → user_row) : dir_action string :=
  statement (s ← get_state;
    let r := row (fresh s.(dr_next)) in
    _ ← modify (with_made (S s.(dr_next)) s.(dr_random));
    _ ← ensure (opt_uuid_ok r.(du_job_title) && opt_uuid_ok r.(du_manager) && opt_uuid_ok r.(du_role_id)) (GenericError "invalid input syntax for type uuid");
    _ ← ensure (negb (bool_decide (r.(du_username) ∈ map du_username s.(dr_users)))) (duplicate "users_username_key");
    _ ← ensure (negb (bool_decide (r.(du_employee) ∈ map du_employee s.(dr_users)) || bool_decide (default "" r.(du_employee) ∈ taken)))
          (duplicate "users_employee_id_key");
    _ ← modify (λ s, with_users (s.(dr_users) ++ [r]) s);
    mret r.(du_id)).

(** The loop of the insert: [left] attempts remain after this one. *)
Fixpoint insert_attempts (left : nat) (taken : list string) (deptCode : string) (n : Z) (row : string → string → user_row) (employee : string) :
    dir_action (string * string) :=
  try_catch (id ← insert_user taken (row employee); mret (id, employee))
    (λ e, match left with
          | S left' => if isEmployeeIdConflict e then employee' ← makeEmployeeId deptCode n; insert_attempts left' taken deptCode n row employee'
                       else throw e
          | O => throw e
          end).

Definition new_user (username password : string) (d : user_data) (role_id : option string) (employee id : string) : user_row :=
  {| du_id := id; du_username := username; du_password := password; du_name := d.(ud_name); du_email := d.(ud_email);
     du_department := or_null d.(ud_department); du_job_title := or_null d.(ud_job_title); du_role := d.(ud_role); du_unit := or_null d.(ud_unit);
     du_manager := or_null d.(ud_manager); du_scope := or_null (default None d.(ud_scope)); du_phone := or_null d.(ud_phone); du_notes := or_null d.(ud_notes);
     du_role_id := role_id; du_status := "Active"; du_employee := Some employee; du_requires_change := true;
     du_requires_2fa := bool_decide (d.(ud_role) ∈ ROLES_REQUIRING_2FA); du_session_version := 1; du_last_login := None |}.

Definition createUser (taken : list string) (username password : string) (d : user_data) : dir_action (string * string) :=
  created ← transaction rollback_directory (
    existing ← statement (gets (λ s, select_one (λ u, bool_decide (u.(du_username) = username)) s.(dr_users)));
    _ ← ensure (match existing with Some _ => false | None => true end) (ConflictError "A user with this username already exists");
    _ ← (if bool_decide (d.(ud_email) = "") then mret tt
         else same ← statement (gets (λ s, select_one (λ u, bool_decide (toLowerCase u.(du_email) = toLowerCase d.(ud_email))) s.(dr_users)));
              ensure (match same with Some _ => false | None => true end) (ConflictError "A user with this email already exists"));
    role_id ← statement (gets (role_named d.(ud_role)));
    deptCode ← department_code d.(ud_department);
    ids ← statement (gets (λ s, numbers_of deptCode s.(dr_users)));
    employee ← makeEmployeeId deptCode (next_number deptCode ids);
    insert_attempts (MAX_EMP_ID_ATTEMPTS - 1) taken deptCode (next_number deptCode ids) (λ e id, new_user username (hash password) d role_id e id) employee);
  _ ← call_service (Event "user.created" created.1);
  mret created.

(** [POST /users] and [POST /auth/register]; the schema of the second asks for both texts. *)
Definition post_user (actor : string) (taken : list string) (d : user_data) : dir_action (string * string) :=
  _ ← ensure (truthy_text d.(ud_username) && truthy_text d.(ud_password)) (ValidationError "Username and password are required for new users");
  user ← createUser taken (default "" d.(ud_username)) (default "" d.(ud_password)) d;
  _ ← call_service (Audit actor "Created User" (default "" d.(ud_username) +:+ " " +:+ d.(ud_role)));
  mret user.

(** ** Update *)

Definition cast_id (id : string) : dir_action unit := ensure (uuid_ok id) (GenericError "invalid input syntax for type uuid").
Definition has_user_id (id : string) (u : user_row) : bool := bool_decide (u.(du_id) = id).
Definition find_user_row (id : string) : dir_action user_row :=
  u ← statement (_ ← cast_id id; gets (λ s, select_one (has_user_id id) s.(dr_users)));
  match u with Some u => mret u | None => throw (NotFoundError "User not found") end.

(** The columns of the update; a password changes three more. *)
Definition updated_user (d : user_data) (role_id : option string) (password : option string) (old : user_row) (u : user_row) : user_row :=
  {| du_id := u.(du_id); du_username := u.(du_username); du_password := default u.(du_password) password; du_name := d.(ud_name);
     du_email := d.(ud_email); du_department := or_null d.(ud_department); du_job_title := or_null d.(ud_job_title); du_role := d.(ud_role);
     du_unit := or_null d.(ud_unit); du_manager := or_null d.(ud_manager); du_scope := or_null (default None d.(ud_scope)); du_phone := or_null d.(ud_phone);
     du_notes := or_null d.(ud_notes); du_role_id := role_id; du_status := default old.(du_status) (or_null d.(ud_status));
     du_employee := u.(du_employee); du_requires_change := match password with Some _ => true | None => u.(du_requires_change) end;
     du_requires_2fa := u.(du_requires_2fa); du_session_version := match password with Some _ => u.(du_session_version) + 1 | None => u.(du_session_version) end;
     du_last_login := u.(du_last_login) |}.

(** [UPDATE users SET ..] with its casts; the table has no constraint on the status. *)
Definition update_user_row (id : string) (d : user_data) (role_id : option string) (password : option string) (old : user_row) : dir_action unit :=
  statement (_ ← ensure (opt_uuid_ok (or_null d.(ud_job_title)) && opt_uuid_ok (or_null d.(ud_manager)) && opt_uuid_ok role_id)
                   (GenericError "invalid input syntax for type uuid");
             modify (λ s, with_users (update_where (has_user_id id) (updated_user d role_id password old) s.(dr_users)) s)).

Definition updateUser (pol : option password_policy) (id : string) (d : user_data) : dir_action user_row :=
  old ← transaction rollback_directory (
    old ← find_user_row id;
    role_id ← statement (gets (role_named d.(ud_role)));
    _ ← (if truthy_text d.(ud_password) then
           match validatePasswordPolicy pol (default "" d.(ud_password)) with
           | Throw e => throw e
           | Ok _ => update_user_row id d role_id (Some (hash (default "" d.(ud_password)))) old
           end
         else update_user_row id d role_id None old);
    mret old);
  _ ← call_service (Event "user.updated" id);
  mret old.

Definition logPermissionChange (targetUserId changedById oldRole newRole reason : string) : dir_action unit :=
  modify (λ s, with_log (s.(dr_changes) ++ [{| cl_target := targetUserId; cl_actor := changedById; cl_old_role := oldRole; cl_new_role := newRole; cl_reason := reason |}])
                        s.(dr_calls) s).

(** [PUT /users/:id]: a field the body leaves out is [undefined], which differs from every value of a column. *)
Definition role_differs (old : user_row) (d : user_data) : bool := negb (bool_decide (old.(du_role) = d.(ud_role))).
Definition status_differs (old : user_row) (d : user_data) : bool := negb (bool_decide (Some old.(du_status) = d.(ud_status))).
Definition scope_differs (old : user_row) (d : user_data) : bool := negb (bool_decide (Some old.(du_scope) = d.(ud_scope))).
Definition change_text (old : user_row) (d : user_data) : string :=
  (if role_differs old d then "Role: " +:+ old.(du_role) +:+ " → " +:+ d.(ud_role) +:+ ". " else "") +:+
  (if status_differs old d then "Status: " +:+ old.(du_status) +:+ " → " +:+ default "undefined" d.(ud_status) +:+ ". " else "") +:+
  (if scope_differs old d then "Access scope changed. " else "").
Definition put_user (pol : option password_policy) (actor actorId id : string) (d : user_data) : dir_action unit :=
  old ← updateUser pol id d;
  _ ← (if role_differs old d || status_differs old d || scope_differs old d then
         _ ← logPermissionChange id actorId old.(du_role) (if bool_decide (d.(ud_role) = "") then old.(du_role) else d.(ud_role)) "Profile update";
         call_service (Notice id (change_text old d))
       else mret tt);
  _ ← call_service (Invalidate id);
  call_service (Audit actor "Updated User" id).
End service.

(** ** Listings *)

(** [parseInt(v) || d]: an integer. *)
Definition page_number (v : option string) (d : Z) : Z := match page_value v d with Finite q => Qfloor q | _ => d end.
Record user_query := { uq_page : option string; uq_pageSize : option string; uq_search : option string; uq_department : option string; uq_role : option string }.
Definition matches_text (t : string) (v : string) : bool := like (chars ("%" +:+ t +:+ "%")) (chars v).
Definition user_matches (q : user_query) (u : user_row) : bool :=
  match or_null q.(uq_search) with
  | Some t => matches_text t u.(du_name) || matches_text t u.(du_email) || matches_text t u.(du_username)
  | None => true
  end &&
  match or_null q.(uq_department) with Some t => bool_decide (u.(du_department) = Some t) | None => true end &&
  match or_null q.(uq_role) with Some t => bool_decide (u.(du_role) = t) | None => true end.
(** [ORDER BY u.id DESC] *)
Definition by_text {A} (f : A → string) (l : list A) : list A := order_by (λ x, map code (chars (f x))) (lex N.ltb) l.
Definition by_id_desc (l : list user_row) : list user_row := order_by (λ u, map code (chars u.(du_id))) (λ a b, lex N.ltb b a) l.
Record user_page := { up_data : list user_row; up_page : Z; up_pageSize : Z; up_total : Z; up_totalPages : Z }.
Definition getUsers (q : user_query) (s : directory) : outcome app_error user_page :=
  let page := page_number q.(uq_page) 1 in
  let pageSize := page_number q.(uq_pageSize) 10 in
  let rows := by_id_desc (select (user_matches q) s.(dr_users)) in
  let total := Z.of_nat (length rows) in
  if pageSize <? 0 then Throw (GenericError "LIMIT must not be negative")
  else if (page - 1) * pageSize <? 0 then Throw (GenericError "OFFSET must not be negative")
  else Ok {| up_data := take (Z.to_nat pageSize) (drop (Z.to_nat ((page - 1) * pageSize)) rows); up_page := page; up_pageSize := pageSize;
             up_total := total; up_totalPages := - (- total / pageSize) |}.

Record UserSummary := { sm_total : Z; sm_active : Z; sm_suspended : Z; sm_archived : Z; sm_admins : Z; sm_inactive : Z }.
Definition with_status (t : string) (u : user_row) : bool := bool_decide (u.(du_status) = t).
(** [cutoff] is thirty days ago. *)
Definition getUserSummary (cutoff : Z) (s : directory) : UserSummary :=
  let count p := count_where p s.(dr_users) in
  {| sm_total := count (λ _, true); sm_active := count (with_status "Active"); sm_suspended := count (with_status "Suspended");
     sm_archived := count (with_status "Inactive"); sm_admins := count (λ u, bool_decide (u.(du_role) = UserRole.ADMIN));
     sm_inactive := count (λ u, match u.(du_last_login) with Some t => t <? cutoff | None => true end) |}.

Definition getActiveUsers (s : directory) : list (string * string * string * option string * string) :=
  map (λ u, (u.(du_id), u.(du_name), u.(du_username), u.(du_department), u.(du_role))) (select (with_status "Active") s.(dr_users)).

(** The user with the name of the role and what he may do. *)
Definition getUserById (perms : perm_db) (id : string) (s : directory) : option (user_row * option string * list (string * string)) :=
  match select_one (has_user_id id) s.(dr_users) with
  | None => None
  | Some u =>
      let granted := match u.(du_role_id) with Some rid => role_grants perms rid | None => [] end in
      let allowed := map fst (select (λ o, o.2 =? 1) (user_overrides perms u.(du_id))) in
      let denied := map fst (select (λ o, o.2 =? 0) (user_overrides perms u.(du_id))) in
      Some (u, match u.(du_role_id) with Some rid => snd <$> select_one (λ r, bool_decide (r.1 = rid)) s.(dr_roles) | None => None end,
            set_of_list (List.filter (λ p, negb (bool_decide (p ∈ denied))) (granted ++ allowed)))
  end.

(** The roles of the start page with their permissions: the join is read once for all of them
    and divided up by the role. *)
Definition all_permissions (perms : perm_db) (roleIds : list string) : list (string * permission_row) :=
  flat_map (λ p, map (λ rp, (rp.1, p)) (select (λ rp, bool_decide (rp.2 = p.(p_id) ∧ rp.1 ∈ roleIds)) perms.(role_permissions))) perms.(permissions).
Definition rolesWithPermissions (perms : perm_db) : list (role_row * list permission_row) :=
  let roles := by_text r_name perms.(roles) in
  let all := if bool_decide (roles = []) then [] else all_permissions perms (map r_id roles) in
  map (λ r, (r, map snd (select (λ x, bool_decide (x.1 = r.(r_id))) all))) roles.

(** The tables the start page reads besides: the sessions and requests with the columns the
    statements test, the rest as the rows come. *)
Record session_entry := { se_id : string; se_user : string; se_status : string; se_last : Z }.
Record request_entry := { re_id : string; re_status : string; re_date : Z }.
Record office := {
  of_sessions : list session_entry; of_settings : list (Z * string); of_login_history : list string; of_audit_trail : list string;
  of_requests : list request_entry; of_departments : list string; of_job_titles : list string }.
(** Open sessions with the name of their user, the latest first; a session of nobody is left out. *)
Definition open_sessions (o : office) (s : directory) : list (session_entry * string * string) :=
  order_by (λ x, x.1.1.(se_last)) (λ a b, b <? a)
    (flat_map (λ e, map (λ u, (e, u.(du_name), u.(du_username))) (select (has_user_id e.(se_user)) s.(dr_users)))
       (select (λ e, bool_decide (e.(se_status) = "Active")) o.(of_sessions))).
(** A list the page loads later: no rows, but its total. *)
Record deferred := { df_page : Z; df_pageSize : Z; df_total : Z; df_totalPages : Z }.
Definition deferred_list (l : list string) : deferred :=
  let total := Z.of_nat (length l) in {| df_page := 1; df_pageSize := 50; df_total := total; df_totalPages := - (- total / 50) |}.
Record init_data := {
  id_summary : UserSummary; id_roles : list (role_row * list permission_row); id_permissions : list permission_row;
  id_sessions : list (session_entry * string * string); id_settings : option (Z * string); id_loginHistory : deferred; id_auditTrail : deferred;
  id_resetRequests : list request_entry; id_departments : list string; id_jobTitles : list string; id_users : user_page }.
Definition getInitData (cutoff : Z) (perms : perm_db) (o : office) (s : directory) : outcome app_error init_data :=
  match getUsers {| uq_page := Some "1"; uq_pageSize := Some "10"; uq_search := None; uq_department := None; uq_role := None |} s with
  | Throw e => Throw e
  | Ok page => Ok {|
      id_summary := getUserSummary cutoff s; id_roles := rolesWithPermissions perms;
      id_permissions := order_by (λ p, (map code (chars p.(p_module)), map code (chars p.(p_action))))
                          (λ a b, lex N.ltb a.1 b.1 || (bool_decide (a.1 = b.1) && lex N.ltb a.2 b.2)) perms.(permissions);
      id_sessions := open_sessions o s; id_settings := select_one (λ r, r.1 =? 1) o.(of_settings);
      id_loginHistory := deferred_list o.(of_login_history); id_auditTrail := deferred_list o.(of_audit_trail);
      id_resetRequests := order_by re_date (λ a b, b <? a) (select (λ r, bool_decide (r.(re_status) = "Pending")) o.(of_requests));
      id_departments := o.(of_departments); id_jobTitles := o.(of_job_titles); id_users := page |}
  end.

(** [computePagination] of the envelope. *)
Record pagination_meta := { pm_page : js_num; pm_pageSize : js_num; pm_total : js_num; pm_totalPages : js_num; pm_hasNext : bool; pm_hasPrev : bool }.
Definition js_ceil_div (a b : js_num) : js_num := match a, b with Finite x, Finite y => int (Qceiling (x / y)) | _, _ => NaN end.
Definition computePagination (page pageSize total : js_num) : pagination_meta :=
  let page := js_max (int 1) (js_or page 1) in
  let pageSize := js_min (int 100) (js_max (int 1) (js_or pageSize 20)) in
  let total := js_max (int 0) total in
  let totalPages := js_ceil_div total pageSize in
  {| pm_page := page; pm_pageSize := pageSize; pm_total := total; pm_totalPages := totalPages;
     pm_hasNext := js_lt page totalPages; pm_hasPrev := js_lt (int 1) page |}.
(** [GET /users]: [result.total] is not a field of the page, hence undefined. *)
Definition list_page (q : user_query) (s : directory) : outcome app_error (list user_row * pagination_meta) :=
  let number v d := js_or (match v with Some t => js_Number t | None => NaN end) d in
  match getUsers q s with
  | Throw e => Throw e
  | Ok p => Ok (p.(up_data), computePagination (number q.(uq_page) 1) (number q.(uq_pageSize) 20) NaN)
  end.

(** ** Properties *)

Lemma statement_gets {A} (f : directory → A) s :
  statement (gets f) s = if s.(dr_aborted) then (Throw (GenericError ABORTED), s) else (Ok (f s), s).
Proof. by unfold statement, gets; destruct (dr_aborted s). Qed.

Lemma bind_gets {A B} (f : directory → A) (k : A → dir_action B) s : s.(dr_aborted) = false → (statement (gets f) ≫= k) s = k (f s) s.
Proof. intros Ha. unfold mbind, action_bind. by rewrite statement_gets, Ha. Qed.
Lemma bind_aborted {A B} (m : dir_action A) (k : A → dir_action B) s : s.(dr_aborted) = true → (statement m ≫= k) s = (Throw (GenericError ABORTED), s).
Proof. intros Ha. unfold mbind, action_bind, statement. by rewrite Ha. Qed.
Lemma bind_mret {A B} (a : A) (k : A → dir_action B) s : ((mret a : dir_action A) ≫= k) s = k a s.
Proof. done. Qed.

(** Numbers of a department. *)
Lemma next_number_bound code ids : 1001 ≤ next_number code ids ∧
  ∀ e k, e ∈ ids → sequence_number code e = Some k → k < next_number code ids.
Proof.
  unfold next_number. assert (H : ∀ l n, n ≤ foldl (λ n id, match sequence_number code id with Some k => if n <? k + 1 then k + 1 else n | None => n end) n l ∧
    ∀ e k, e ∈ l → sequence_number code e = Some k → k < foldl (λ n id, match sequence_number code id with Some k => if n <? k + 1 then k + 1 else n | None => n end) n l).
  { induction l as [|x l IH]; intros n; cbn [foldl].
    - split; [lia|]. by intros e k []%not_elem_of_nil.
    - set (m := match sequence_number code x with Some k => if n <? k + 1 then k + 1 else n | None => n end).
      destruct (IH m) as [Hle Hall]. assert (Hm : n ≤ m ∧ ∀ k, sequence_number code x = Some k → k < m).
      { unfold m. destruct (sequence_number code x) as [k0|]; [|split; [lia|done]]. destruct (n <? k0 + 1) eqn:Hn; bools; (split; [lia|]); intros k [= ->]; lia. }
      split; [lia|]. intros e k [->|He]%elem_of_cons Hk; [|by apply (Hall e)]. destruct Hm as [_ Hm]. specialize (Hm k Hk). lia. }
  apply H.
Qed.

Lemma like_any p t : like ("%"%char :: p) t = like p t || match t with [] => false | _ :: t' => like ("%"%char :: p) t' end.
Proof. by destruct t. Qed.
Lemma like_any_prefix p t : like p t = true → ∀ d, like ("%"%char :: p) (d ++ t) = true.
Proof.
  intros H d. induction d as [|x d IH]; rewrite like_any; [cbn [app]; by rewrite H|]. cbn [app]. by rewrite IH, orb_true_r.
Qed.
Lemma like_self p q t : "\"%char ∉ p → like q t = true → like (p ++ q) (p ++ t) = true.
Proof.
  induction p as [|c p IH]; intros Hp Hq; [done|]. apply not_elem_of_cons in Hp as [Hc Hp]. specialize (IH Hp Hq).
  destruct (decide (c = "%"%char)) as [->|Hpc]; [by apply (like_any_prefix (p ++ q) (p ++ t) IH ["%"%char])|].
  cbn [app like]. rewrite (bool_decide_eq_false_2 (c = "%"%char)) by done. case_bool_decide; [done|].
  rewrite (bool_decide_eq_false_2 (c = "\"%char)) by congruence. by rewrite bool_decide_eq_true_2.
Qed.

Lemma sequence_number_made code n hex : sequence_number code (code +:+ "-" +:+ pretty (Z.to_N n) +:+ "-" +:+ hex) = Some (Z.of_N (Z.to_N n)).
Proof.
  unfold sequence_number, sequence_part, JsStrings.split. rewrite !chars_app.
  assert (Hd : drop (S (String.length code)) (chars code ++ chars "-" ++ chars (pretty (Z.to_N n)) ++ chars "-" ++ chars hex) =
    chars (pretty (Z.to_N n)) ++ "-"%char :: chars hex).
  { rewrite <- length_chars. replace (S (length (chars code))) with (length (chars code ++ chars "-")) by (rewrite length_app; cbn; lia).
    rewrite (app_assoc (chars code)). by rewrite drop_app_length. }
  rewrite Hd, chars_of_chars, split_app.
  rewrite split_none by (apply (all_chars_not_in is_digit); [apply pretty_digits|done]).
  cbn [app map hd_error default]. unfold id. rewrite of_chars_chars, parseInt_10_digits.
  - rewrite decimal_value_pretty. unfold int. by rewrite Qfloor_Z.
  - intros Hp. pose proof (decimal_value_pretty (Z.to_N n)) as Hv. destruct (Z.to_N n); [by vm_compute in Hp|].
    rewrite Hp in Hv. done.
  - apply pretty_digits.
Qed.

Lemma employee_new code l n hex : "\"%char ∉ chars code → n = next_number code (numbers_of code l) →
  Some (code +:+ "-" +:+ pretty (Z.to_N n) +:+ "-" +:+ hex) ∉ map du_employee l.
Proof.
  intros Hcode Hn (u & He & Hu)%list_elem_of_fmap. set (e := code +:+ "-" +:+ _) in *.
  destruct (next_number_bound code (numbers_of code l)) as [Hlow Hall]. rewrite <- Hn in *.
  assert (He2 : e ∈ numbers_of code l).
  { unfold numbers_of. apply list_elem_of_In, List.filter_In. split.
    - apply in_flat_map. exists u. split; [by apply list_elem_of_In|]. rewrite <- He.
      assert (like (chars (code +:+ "-%")) (chars e) = true) as ->; [|by left]. unfold e. rewrite !chars_app. apply like_self; [done|].
      set (x := chars (pretty _) ++ _). change (like ["%"%char] x = true). rewrite <- (app_nil_r x). by apply like_any_prefix.
    - apply negb_true_iff, bool_decide_eq_false. unfold e. intros H. apply (f_equal String.length) in H. rewrite !app_length_str in H. cbn in H. lia. }
  pose proof (Hall e _ He2 (sequence_number_made code n hex)). lia.
Qed.

Section creation.
Context (fresh hex6 : nat → string) (uuid_ok : string → bool) (hash : string → string).

Lemma makeEmployeeId_run code n s : makeEmployeeId hex6 code n s =
  (Ok (code +:+ "-" +:+ pretty (Z.to_N n) +:+ "-" +:+ hex6 s.(dr_random)), with_made s.(dr_next) (S s.(dr_random)) s).
Proof. done. Qed.

Lemma insert_user_run taken row s : s.(dr_aborted) = false →
  let r := row (fresh s.(dr_next)) in
  insert_user fresh uuid_ok taken row s =
    if opt_uuid_ok uuid_ok r.(du_job_title) && opt_uuid_ok uuid_ok r.(du_manager) && opt_uuid_ok uuid_ok r.(du_role_id) then
      if bool_decide (r.(du_username) ∈ map du_username s.(dr_users)) then
        (Throw (duplicate "users_username_key"), with_aborted true (with_made (S s.(dr_next)) s.(dr_random) s))
      else if bool_decide (r.(du_employee) ∈ map du_employee s.(dr_users)) || bool_decide (default "" r.(du_employee) ∈ taken) then
        (Throw (duplicate "users_employee_id_key"), with_aborted true (with_made (S s.(dr_next)) s.(dr_random) s))
      else (Ok r.(du_id), with_users (s.(dr_users) ++ [r]) (with_made (S s.(dr_next)) s.(dr_random) s))
    else (Throw (GenericError "invalid input syntax for type uuid"), with_aborted true (with_made (S s.(dr_next)) s.(dr_random) s)).
Proof.
  intros Ha. cbn zeta. unfold insert_user, statement. rewrite Ha. unfold ensure. run_action.
  destruct (_ && _); [|done]. case_bool_decide; cbn; [done|]. by destruct (_ || _).
Qed.

(** An aborted transaction stays aborted: the loop does not get a second insert through. *)
Lemma attempts_aborted left taken code n row employee s : s.(dr_aborted) = true →
  insert_attempts fresh hex6 uuid_ok left taken code n row employee s = (Throw (GenericError ABORTED), s).
Proof.
  intros Ha. destruct left; cbn [insert_attempts]; unfold try_catch, insert_user, statement, mbind, action_bind; rewrite Ha; [done|].
  by replace (isEmployeeIdConflict (GenericError ABORTED)) with false by by vm_compute.
Qed.

Lemma attempts_run left taken code n row employee s : s.(dr_aborted) = false →
  (∃ id s', insert_user fresh uuid_ok taken (row employee) s = (Ok id, s') ∧
     insert_attempts fresh hex6 uuid_ok left taken code n row employee s = (Ok (id, employee), s')) ∨
  (∃ e e' s', (insert_user fresh uuid_ok taken (row employee) s).1 = Throw e ∧
     insert_attempts fresh hex6 uuid_ok left taken code n row employee s = (Throw e', s') ∧
     (isEmployeeIdConflict e = true → (0 < left)%nat → e' = GenericError ABORTED)).
Proof.
  intros Ha. pose proof (insert_user_run taken (row employee) s Ha) as Hrun. cbn zeta in Hrun.
  destruct (insert_user fresh uuid_ok taken (row employee) s) as [[id|e] s1] eqn:Hi.
  - left. exists id, s1. split; [done|]. destruct left; cbn [insert_attempts]; unfold try_catch, mbind, action_bind; by rewrite Hi.
  - right. assert (Ha1 : dr_aborted s1 = true) by (repeat case_match; simplify_eq; done).
    destruct left as [|left]; cbn [insert_attempts]; unfold try_catch, mbind, action_bind; rewrite Hi.
    + exists e, e, s1. split_and!; [done..|lia].
    + destruct (isEmployeeIdConflict e) eqn:Hc; [|exists e, e, s1; split_and!; [done|done|congruence]].
      rewrite makeEmployeeId_run, attempts_aborted by done. exists e, (GenericError ABORTED), (with_made (dr_next s1) (S (dr_random s1)) s1). by split_and!.
Qed.

Lemma department_code_run d s : s.(dr_aborted) = false →
  ∃ code s', department_code d s = (Ok code, s') ∧ (s' = s ∨ s'.(dr_aborted) = true) ∧ (s.(dr_entities) ≠ None → s' = s).
Proof.
  intros Ha. unfold department_code. destruct (or_null d) as [name|]; [|by exists "EMP", s; split_and!; [done|left|done]].
  unfold try_catch, entity_of, statement. unfold mbind at 1, action_bind at 1. rewrite Ha. run_action.
  destruct (dr_entities s) as [l|]; cbn.
  - eexists _, s. split_and!; [reflexivity|by left|done].
  - eexists "EMP", (with_aborted true s). split_and!; [reflexivity|by right|done].
Qed.

(** The code of a department: EMP without one; the code of an entity that has the department's
    Arabic or English name, or EMP if it has none; EMP when no entity has that name. *)
Definition named (department : string) (e : org_entity) : Prop :=
  e.(oe_name_ar) = Some department ∨ e.(oe_name_en) = Some department.
Definition code_of_department (department : option string) (s : directory) (code : string) : Prop :=
  match or_null department with
  | None => code = "EMP"
  | Some name => ∃ l, s.(dr_entities) = Some l ∧
      ((∃ e, e ∈ l ∧ named name e ∧ code = match e.(oe_code) with None | Some "" => "EMP" | Some c => c end) ∨
       (∀ e, e ∈ l → ¬ named name e) ∧ code = "EMP")
  end.

Lemma department_code_spec d s code s' : s.(dr_aborted) = false →
  department_code d s = (Ok code, s') → s'.(dr_aborted) = false → code_of_department d s code.
Proof.
  intros Ha. unfold department_code, code_of_department. destruct (or_null d) as [name|]; [|by intros [= <- _]].
  unfold try_catch, entity_of, statement. unfold mbind at 1, action_bind at 1. rewrite Ha. run_action.
  destruct (dr_entities s) as [l|]; cbn; [|by intros [= <- <-]]. intros [= <- <-] _. exists l. split; [done|].
  destruct (select_one _ l) as [e|] eqn:He.
  - left. apply select_one_Some in He as [Hin Hn]. exists e. split_and!; [done| |].
    + unfold named. apply orb_true_iff in Hn as [Hn|Hn]; bools; auto.
    + unfold or_null. destruct (oe_code e) as [[|]|]; done.
  - right. split; [|done]. intros e Hin [Hn|Hn]; pose proof (proj1 (select_one_None _ _) He e Hin) as Hno;
      cbn beta in Hno; apply orb_false_iff in Hno as [? ?]; by bools.
Qed.

(** What is checked before the number is made: the statements of the body up to the insert. *)
Definition name_taken (username : string) (s : directory) : bool := bool_decide (username ∈ map du_username s.(dr_users)).
Definition same_email (email : string) (u : user_row) : bool := bool_decide (toLowerCase u.(du_email) = toLowerCase email).
Definition email_taken (email : string) (s : directory) : bool := negb (bool_decide (email = "")) && existsb (same_email email) s.(dr_users).

Lemma select_one_existsb {A} (p : A → bool) l : (match select_one p l with Some _ => false | None => true end) = negb (existsb p l).
Proof. unfold select_one. induction l as [|x l IH]; [done|]. cbn. by destruct (p x). Qed.
Lemma name_taken_existsb username l : existsb (λ u, bool_decide (u.(du_username) = username)) l = bool_decide (username ∈ map du_username l).
Proof.
  induction l as [|u l IH]; [done|]. cbn [existsb map]. rewrite IH. apply bool_decide_ext || idtac.
  destruct (decide (du_username u = username)) as [Hu|Hu].
  - rewrite (bool_decide_eq_true_2 _ Hu). symmetry. apply bool_decide_eq_true. rewrite Hu. by left.
  - rewrite (bool_decide_eq_false_2 _ Hu). cbn. apply bool_decide_ext. rewrite elem_of_cons. split; [by right|intros [?|?]; congruence].
Qed.

(** The body of the creation after its checks. *)
Definition add_user (taken : list string) (username password : string) (d : user_data) : dir_action (string * string) :=
  role_id ← statement (gets (role_named d.(ud_role)));
  deptCode ← department_code d.(ud_department);
  ids ← statement (gets (λ s, numbers_of deptCode s.(dr_users)));
  employee ← makeEmployeeId hex6 deptCode (next_number deptCode ids);
  insert_attempts fresh hex6 uuid_ok (MAX_EMP_ID_ATTEMPTS - 1) taken deptCode (next_number deptCode ids)
    (λ e id, new_user username (hash password) d role_id e id) employee.

Lemma createUser_run taken username password d s : s.(dr_aborted) = false →
  createUser fresh hex6 uuid_ok hash taken username password d s =
    if name_taken username s then (Throw (ConflictError "A user with this username already exists"), s)
    else if email_taken d.(ud_email) s then (Throw (ConflictError "A user with this email already exists"), s)
    else match add_user taken username password d s with
         | (Ok c, s') => (Ok c, with_log s'.(dr_changes) (s'.(dr_calls) ++ [Event "user.created" c.1]) s')
         | (Throw e, s') => (Throw e, rollback_directory s s')
         end.
Proof.
  intros Ha. assert (Hroll : rollback_directory s s = s) by by destruct s.
  unfold createUser, transaction. unfold mbind at 1, action_bind at 1. rewrite bind_gets by done.
  rewrite select_one_existsb, name_taken_existsb. fold (name_taken username s). rewrite ensure_bind.
  destruct (name_taken username s); cbn [negb]; [by rewrite Hroll|]. unfold email_taken.
  destruct (bool_decide (ud_email d = "")); cbn [negb andb].
  - rewrite bind_mret. fold (add_user taken username password d). by destruct (add_user taken username password d s) as [[c|e] s'].
  - rewrite bind_bind, bind_gets by done. rewrite select_one_existsb, ensure_bind. fold (same_email (ud_email d)).
    destruct (existsb (same_email (ud_email d)) (dr_users s)); cbn [negb]; [by rewrite Hroll|].
    fold (add_user taken username password d). by destruct (add_user taken username password d s) as [[c|e] s'].
Qed.

(** The row and the number an insertion adds. *)
Record added (taken : list string) (username password : string) (d : user_data) (s : directory) (id employee : string) (s' : directory) : Prop := {
  ad_number : ∃ deptCode n, code_of_department d.(ud_department) s deptCode ∧
    employee = deptCode +:+ "-" +:+ pretty (Z.to_N n) +:+ "-" +:+ hex6 s.(dr_random) ∧ 1001 ≤ n ∧
    (∀ e k, e ∈ numbers_of deptCode s.(dr_users) → sequence_number deptCode e = Some k → k < n);
  ad_unused : (Some employee ∉ map du_employee s.(dr_users)) ∧ employee ∉ taken;
  ad_users : s'.(dr_users) = s.(dr_users) ++ [new_user username (hash password) d (role_named d.(ud_role) s) employee id];
  ad_rest : s'.(dr_calls) = s.(dr_calls) ∧ s'.(dr_aborted) = false }.

Definition casts_ok (d : user_data) (s : directory) : bool :=
  opt_uuid_ok uuid_ok (or_null d.(ud_job_title)) && opt_uuid_ok uuid_ok (or_null d.(ud_manager)) && opt_uuid_ok uuid_ok (role_named d.(ud_role) s).

(** The department's code of a directory whose table of entities can be read. *)
Lemma add_user_run taken username password d s : s.(dr_aborted) = false →
  ∃ deptCode s1, department_code d.(ud_department) s = (Ok deptCode, s1) ∧
  ((s1 = s ∧
    (let n := next_number deptCode (numbers_of deptCode s.(dr_users)) in
     let employee := deptCode +:+ "-" +:+ pretty (Z.to_N n) +:+ "-" +:+ hex6 s.(dr_random) in
     add_user taken username password d s =
       insert_attempts fresh hex6 uuid_ok (MAX_EMP_ID_ATTEMPTS - 1) taken deptCode n
         (λ e id, new_user username (hash password) d (role_named d.(ud_role) s) e id) employee (with_made s.(dr_next) (S s.(dr_random)) s))) ∨
   (s1.(dr_aborted) = true ∧ s.(dr_entities) = None ∧ ∃ s', add_user taken username password d s = (Throw (GenericError ABORTED), s'))).
Proof.
  intros Ha. destruct (department_code_run d.(ud_department) s Ha) as (code & s1 & Hrun & Hs1 & Hent). exists code, s1. split; [done|].
  unfold add_user. rewrite bind_gets by done. rewrite (ok_bind _ _ _ _ _ Hrun). destruct Hs1 as [->|Ha1].
  - left. split; [done|]. cbn zeta. by rewrite bind_gets.
  - right. split; [done|]. split.
    + destruct (dr_entities s) eqn:He; [|done]. rewrite Hent in Ha1 by done. congruence.
    + exists s1. apply bind_aborted, Ha1.
Qed.

Lemma add_user_added taken username password d s c s' : s.(dr_aborted) = false →
  add_user taken username password d s = (Ok c, s') → added taken username password d s c.1 c.2 s' ∧ casts_ok d s = true.
Proof.
  intros Ha Hrun. destruct (add_user_run taken username password d s Ha) as (code & s1 & Hcode & [(-> & Hadd)|(_ & _ & s2 & Hadd)]); [|congruence].
  apply department_code_spec in Hcode; [|done..].
  cbn zeta in Hadd. rewrite Hrun in Hadd. destruct (next_number_bound code (numbers_of code s.(dr_users))) as [Hlow Hall].
  set (n := next_number code _) in *. set (em := code +:+ "-" +:+ _) in *. set (s1 := with_made _ _ s) in *.
  destruct (attempts_run (MAX_EMP_ID_ATTEMPTS - 1) taken code n
    (λ e id, new_user username (hash password) d (role_named d.(ud_role) s) e id) em s1 Ha) as [(id & s2 & Hi & Hadd2)|(e & e' & s2 & _ & Hadd2 & _)];
    rewrite Hadd2 in Hadd; [|done]. injection Hadd as -> ->. rewrite insert_user_run in Hi by done.
  destruct (_ && _) eqn:Hcasts; [|done]. change (casts_ok d s = true) in Hcasts. case_bool_decide; [done|]. destruct (_ || _) eqn:Hem; [done|]. bools. injection Hi as <- <-.
  split; [|exact Hcasts]. split; [by exists code, n|done|done|done].
Qed.

(** C34: a creation either adds exactly one account, under a user name and an e-mail nobody has
    (the e-mail ignoring case), with an employee number that starts with the code of the
    user's department, goes above every number an account of that department has at the
    time (accounts that were deleted do not count) and is different from every other, and
    announces it; or it changes neither the accounts nor announces anything, and the
    transaction is over. *)
Theorem createUser_spec taken username password d s (Hready : s.(dr_aborted) = false) :
  match createUser fresh hex6 uuid_ok hash taken username password d s with
  | (Ok (id, employee), s') =>
      exists s1, added taken username password d s id employee s1 /\ s'.(dr_users) = s1.(dr_users) /\
        s'.(dr_calls) = s.(dr_calls) ++ [Event "user.created" id] /\ (username ∉ map du_username s.(dr_users)) /\
        (d.(ud_email) <> "" -> forall u, u ∈ s.(dr_users) -> toLowerCase u.(du_email) <> toLowerCase d.(ud_email))
  | (Throw _, s') => s'.(dr_users) = s.(dr_users) /\ s'.(dr_calls) = s.(dr_calls) /\ s'.(dr_aborted) = false
  end.
Proof.
  rewrite createUser_run by done. destruct (name_taken username s) eqn:Hname; [done|]. destruct (email_taken _ s) eqn:Hemail; [done|].
  destruct (add_user taken username password d s) as [[[id employee]|e] s'] eqn:Hadd; [|by split_and!].
  apply add_user_added in Hadd as [Hadd _]; [|done]. exists s'. split_and!; [exact Hadd|done| | |].
  - cbn. f_equal. by destruct Hadd as [_ _ _ [? _]].
  - unfold name_taken in Hname. by bools.
  - intros Hne u Hu Heq. unfold email_taken in Hemail. rewrite bool_decide_eq_false_2 in Hemail by done. cbn [negb andb] in Hemail.
    assert (existsb (same_email d.(ud_email)) s.(dr_users) = true); [|congruence]. apply existsb_exists. exists u.
    split; [by apply list_elem_of_In|]. by apply bool_decide_eq_true.
Qed.

(** when no other transaction interferes, a creation fails only because the user name or
    the e-mail is taken or a reference is no key: the employee number is always free. *)
Theorem createUser_succeeds username password d s (Hready : s.(dr_aborted) = false) (Htable : s.(dr_entities) <> None)
  (Hcode : forall code, (department_code d.(ud_department) s).1 = Ok code -> "\"%char ∉ chars code) :
  is_ok (createUser fresh hex6 uuid_ok hash [] username password d s).1 =
  negb (name_taken username s) && negb (email_taken d.(ud_email) s) && casts_ok d s.
Proof.
  rewrite createUser_run by done. destruct (name_taken username s) eqn:Hname; [done|]. destruct (email_taken _ s); [done|]. cbn [negb andb].
  destruct (casts_ok d s) eqn:Hcasts.
  2:{ destruct (add_user [] username password d s) as [[c|e] s'] eqn:Hadd; [|done]. apply add_user_added in Hadd as [_ Hok]; [congruence|done]. }
  destruct (add_user_run [] username password d s Hready) as (code & s1 & Hdept & [(-> & Hadd)|(_ & ? & _)]); [|done]. cbn zeta in Hadd.
  specialize (Hcode code). rewrite Hdept in Hcode. specialize (Hcode eq_refl).
  set (n := next_number code _) in *. set (em := code +:+ "-" +:+ _) in *. set (s1 := with_made _ _ s) in *.
  pose proof (employee_new code s.(dr_users) n (hex6 s.(dr_random)) Hcode eq_refl) as Hnew. fold em in Hnew.
  pose proof (insert_user_run [] (λ id, new_user username (hash password) d (role_named d.(ud_role) s) em id) s1 Hready) as Hi. cbn zeta in Hi.
  cbn [du_job_title du_manager du_role_id du_username du_employee new_user s1 dr_users with_made] in Hi. fold (casts_ok d s) in Hi. rewrite Hcasts in Hi.
  fold (name_taken username s) in Hi. rewrite Hname, (bool_decide_eq_false_2 (Some em ∈ _)) in Hi by done. cbn in Hi.
  destruct (attempts_run (MAX_EMP_ID_ATTEMPTS - 1) [] code n
    (λ e id, new_user username (hash password) d (role_named d.(ud_role) s) e id) em s1 Hready) as [(id & s2 & Hi2 & Hadd2)|(e & e' & s2 & Hi2 & _)].
  - by rewrite Hadd, Hadd2.
  - rewrite Hi in Hi2. done.
Qed.
End creation.

Ltac in_calls := cbn [dr_calls dr_changes with_log with_users]; rewrite !elem_of_app, !list_elem_of_singleton; tauto.

Section update.
Context (uuid_ok : string → bool) (hash : string → string) (pol : option password_policy).

(** The password of the body after the policy. *)
Definition new_password (d : user_data) : outcome app_error (option string) :=
  if truthy_text d.(ud_password) then
    match validatePasswordPolicy pol (default "" d.(ud_password)) with Throw e => Throw e | Ok _ => Ok (Some (hash (default "" d.(ud_password)))) end
  else Ok None.

Lemma update_user_row_run id d role_id pw old s : s.(dr_aborted) = false →
  update_user_row uuid_ok id d role_id pw old s =
    if opt_uuid_ok uuid_ok (or_null d.(ud_job_title)) && opt_uuid_ok uuid_ok (or_null d.(ud_manager)) && opt_uuid_ok uuid_ok role_id
    then (Ok tt, with_users (update_where (has_user_id id) (updated_user d role_id pw old) s.(dr_users)) s)
    else (Throw (GenericError "invalid input syntax for type uuid"), with_aborted true s).
Proof. intros Ha. unfold update_user_row, statement. rewrite Ha, ensure_bind. by destruct (_ && _). Qed.

Lemma find_user_row_run id s : s.(dr_aborted) = false →
  match find_user_row uuid_ok id s with
  | (Ok u, s') => s' = s ∧ u ∈ s.(dr_users) ∧ u.(du_id) = id
  | (Throw _, s') => s'.(dr_users) = s.(dr_users)
  end.
Proof.
  intros Ha. unfold find_user_row, cast_id, statement. unfold mbind at 1, action_bind at 1. rewrite Ha, ensure_bind. destruct (uuid_ok id); [|done].
  unfold gets. destruct (select_one (has_user_id id) (dr_users s)) as [u|] eqn:Hu; [|done].
  apply select_one_Some in Hu as [Hin Hid]. unfold has_user_id in Hid. by bools.
Qed.

Lemma updateUser_run id d s : s.(dr_aborted) = false →
  match updateUser uuid_ok hash pol id d s with
  | (Ok old, s') => old ∈ s.(dr_users) ∧ old.(du_id) = id ∧ ∃ pw, new_password d = Ok pw ∧
      s' = with_log s.(dr_changes) (s.(dr_calls) ++ [Event "user.updated" id])
             (with_users (update_where (has_user_id id) (updated_user d (role_named d.(ud_role) s) pw old) s.(dr_users)) s)
  | (Throw _, s') => ∃ s1, s' = rollback_directory s s1
  end.
Proof.
  intros Ha. unfold updateUser. unfold mbind at 1, action_bind at 1. unfold transaction. unfold mbind at 1, action_bind at 1.
  pose proof (find_user_row_run id s Ha) as Hf. destruct (find_user_row uuid_ok id s) as [[old|e] s1]; [destruct Hf as (-> & Hin & Hid)|by exists s1].
  rewrite bind_gets by done.
  assert (Hdone : ∀ pw, new_password d = Ok pw → ∀ m : dir_action unit, m s = update_user_row uuid_ok id d (role_named d.(ud_role) s) pw old s →
    match (match (match (_ ← m; mret old) s with (Ok a, s') => (Ok a, s') | (Throw e, s') => (Throw e, rollback_directory s s') end) with
           | (Ok a, s') => (_ ← call_service (Event "user.updated" id); mret a) s' | (Throw e, s') => (Throw e, s') end) with
    | (Ok old, s') => old ∈ s.(dr_users) ∧ old.(du_id) = id ∧ ∃ pw, new_password d = Ok pw ∧
        s' = with_log s.(dr_changes) (s.(dr_calls) ++ [Event "user.updated" id])
               (with_users (update_where (has_user_id id) (updated_user d (role_named d.(ud_role) s) pw old) s.(dr_users)) s)
    | (Throw _, s') => ∃ s1, s' = rollback_directory s s1 end).
  { intros pw Hpw m Hm. unfold mbind at 1 2, action_bind at 1 2. rewrite Hm, update_user_row_run by done. destruct (_ && _); [|by eexists].
    cbn. split_and!; [done..|]. by exists pw. }
  unfold new_password in *. destruct (truthy_text (ud_password d)); [|by apply (Hdone None)].
  destruct (validatePasswordPolicy pol _) as [[]|e]; [by apply (Hdone (Some (hash (default "" (ud_password d)))))|]. by exists s.
Qed.
End update.

(** an update that succeeds writes the columns of the body to the one account and leaves the
    others alone; a change of role, of status or of access scope is recorded with the old
    role and the new one, announced to the account, and its cached row is dropped; an
    update that fails changes no account and records nothing. *)
Theorem put_user_spec uuid_ok hash pol actor actorId id d s (Hready : s.(dr_aborted) = false)
  (Hrole : d.(ud_role) <> "") (Hscope : d.(ud_scope) <> Some (Some "")) :
  match put_user uuid_ok hash pol actor actorId id d s with
  | (Ok _, s') =>
      exists old pw, old ∈ s.(dr_users) /\ old.(du_id) = id /\ new_password hash pol d = Ok pw /\
        let new := updated_user d (role_named d.(ud_role) s) pw old old in
        s'.(dr_users) = update_where (has_user_id id) (updated_user d (role_named d.(ud_role) s) pw old) s.(dr_users) /\
        (new.(du_role) <> old.(du_role) \/ new.(du_status) <> old.(du_status) \/ new.(du_scope) <> old.(du_scope) ->
           s'.(dr_changes) = s.(dr_changes) ++ [{| cl_target := id; cl_actor := actorId; cl_old_role := old.(du_role); cl_new_role := new.(du_role); cl_reason := "Profile update" |}] /\
           exists details, Notice id details ∈ s'.(dr_calls)) /\
        Invalidate id ∈ s'.(dr_calls)
  | (Throw _, s') => s'.(dr_users) = s.(dr_users) /\ s'.(dr_changes) = s.(dr_changes) /\ s'.(dr_calls) = s.(dr_calls)
  end.
Proof.
  unfold put_user. unfold mbind at 1, action_bind at 1. pose proof (updateUser_run uuid_ok hash pol id d s Hready) as H.
  destruct (updateUser uuid_ok hash pol id d s) as [[old|e] s1]; [|by destruct H as (s2 & ->)]. destruct H as (Hin & Hid & pw & Hpw & ->).
  set (new := updated_user d (role_named (ud_role d) s) pw old old).
  assert (Hdiff : role_differs old d || status_differs old d || scope_differs old d = false →
    new.(du_role) = old.(du_role) ∧ new.(du_status) = old.(du_status) ∧ new.(du_scope) = old.(du_scope)).
  { intros H. bools. unfold role_differs, status_differs, scope_differs in *. bools. cbn. rewrite <- H0, <- H1. cbn.
    split_and!; [done| |].
    - unfold or_null. by destruct (bool_decide (du_status old = "")).
    - destruct (du_scope old) as [t|]; [|done]. cbn. unfold or_null.
      rewrite bool_decide_eq_false_2; [done|]. intros ->. by apply Hscope. }
  assert (Hold : (if bool_decide (ud_role d = "") then old.(du_role) else ud_role d) = new.(du_role)) by by rewrite bool_decide_eq_false_2.
  destruct (role_differs old d || status_differs old d || scope_differs old d) eqn:Hd; cbn; exists old, pw; (split; [done|]; split; [done|]; split; [done|]; split; [done|]).
  - rewrite Hold. split; [|by in_calls]. intros _. split; [done|]. exists (change_text old d). by in_calls.
  - split; [|by in_calls]. intros Hne. destruct (Hdiff eq_refl) as (? & ? & ?). by destruct Hne as [?|[?|?]].
Qed.

(** ** Listings *)

Lemma page_number_text n d : (0 < n)%nat → page_number (Some (pretty (N.of_nat n))) d = Z.of_nat n.
Proof.
  intros Hn. unfold page_number, page_value. rewrite parseInt_digits.
  - rewrite decimal_value_pretty, js_or_int. replace (Z.of_N (N.of_nat n) =? 0) with false by (symmetry; apply Z.eqb_neq; lia).
    unfold int. rewrite Qfloor_Z. lia.
  - intros Hp. pose proof (decimal_value_pretty (N.of_nat n)) as Hv. rewrite Hp in Hv. change (0%N = N.of_nat n) in Hv. lia.
  - apply pretty_digits.
Qed.

Lemma slices_whole {A} (k : nat) (l : list A) n : concat (map (λ i, take k (drop (i * k) l)) (seq 0 n)) = take (n * k) l.
Proof.
  induction n as [|n IH]; [done|]. rewrite seq_S, map_app, concat_app, IH. cbn [map concat].
  rewrite app_nil_r. replace (S n * k)%nat with (n * k + k)%nat by lia. apply take_take_drop.
Qed.

Definition at_page (n : nat) (q : user_query) : user_query :=
  {| uq_page := Some (pretty (N.of_nat n)); uq_pageSize := q.(uq_pageSize); uq_search := q.(uq_search); uq_department := q.(uq_department); uq_role := q.(uq_role) |}.

(** the pages of a listing, from the first to the announced last, are answered and contain,
    put together, every account that matches the query exactly once. *)
Theorem user_pages_complete q s (Hsize : 0 < page_number q.(uq_pageSize) 10) :
  exists rows last, Permutation rows (select (user_matches q) s.(dr_users)) /\
    Forall (fun n => exists p, getUsers (at_page n q) s = Ok p /\ p.(up_total) = Z.of_nat (length rows) /\ p.(up_totalPages) = Z.of_nat last)
      (seq 1 last) /\
    concat (map (fun n => match getUsers (at_page n q) s with Ok p => p.(up_data) | Throw _ => [] end) (seq 1 last)) = rows.
Proof.
  set (rows := by_id_desc (select (user_matches q) s.(dr_users))). set (size := page_number q.(uq_pageSize) 10) in *.
  set (last := Z.to_nat (- (- Z.of_nat (length rows) / size))).
  assert (Hlast : Z.of_nat last = - (- Z.of_nat (length rows) / size)).
  { unfold last. rewrite Z2Nat.id; [done|]. pose proof (Z.div_le_upper_bound (- Z.of_nat (length rows)) size 0 ltac:(lia) ltac:(lia)). lia. }
  assert (Hpage : ∀ n, (0 < n)%nat → getUsers (at_page n q) s = Ok {|
    up_data := take (Z.to_nat size) (drop ((n - 1) * Z.to_nat size) rows); up_page := Z.of_nat n; up_pageSize := size;
    up_total := Z.of_nat (length rows); up_totalPages := Z.of_nat last |}).
  { intros n Hn. unfold getUsers. cbn [at_page uq_page uq_pageSize]. rewrite page_number_text by done. fold size.
    change (user_matches (at_page n q)) with (user_matches q). fold rows. rewrite Hlast.
    replace (size <? 0) with false by (symmetry; apply Z.ltb_ge; lia). replace ((Z.of_nat n - 1) * size <? 0) with false by (symmetry; apply Z.ltb_ge; nia).
    do 3 f_equal. f_equal. nia. }
  exists rows, last. split_and!.
  - apply order_by_perm.
  - apply Forall_forall. intros n Hn%elem_of_seq. eexists. split; [apply Hpage; lia|done].
  - transitivity (concat (map (λ i, take (Z.to_nat size) (drop (i * Z.to_nat size) rows)) (seq 0 last))).
    + f_equal. rewrite <- fmap_S_seq. change (S <$> seq 0 last) with (map S (seq 0 last)). rewrite map_map. apply map_ext. intros i.
      rewrite Hpage by lia. cbn [up_data]. by replace (S i - 1)%nat with i by lia.
    + rewrite slices_whole. apply take_ge. apply Nat2Z.inj_le. rewrite Nat2Z.inj_mul, Hlast, Z2Nat.id by lia.
      pose proof (Z.mul_div_le (- Z.of_nat (length rows)) size Hsize). lia.
Qed.

(** the roles of the start page carry exactly the permissions the permission service grants
    to each of them. *)
Theorem init_roles_agree perms :
  map fst (rolesWithPermissions perms) ≡ₚ perms.(roles) /\
  forall r l, (r, l) ∈ rolesWithPermissions perms -> map (fun p => (p.(p_module), p.(p_action))) l = role_grants perms r.(r_id).
Proof.
  split; [unfold rolesWithPermissions; rewrite map_map, map_id; apply order_by_perm|].
  unfold rolesWithPermissions. generalize (by_text r_name (roles perms)). intros rows.
  intros r l (r' & [= -> ->] & Hr)%list_elem_of_fmap. rewrite bool_decide_eq_false_2 by (intros H; rewrite H in Hr; by apply not_elem_of_nil in Hr).
  assert (Hid : r'.(r_id) ∈ map r_id rows) by by apply list_elem_of_fmap_2. clear Hr. revert Hid. generalize (map r_id rows). intros ids Hid.
  unfold all_permissions, role_grants, select. induction (permissions perms) as [|p ps IH]; [done|]. cbn [flat_map].
  rewrite List.filter_app, !map_app, IH. f_equal. clear IH. induction (role_permissions perms) as [|rp rps IH]; [done|]. cbn [List.filter].
  destruct (decide (rp.1 = r'.(r_id) ∧ rp.2 = p.(p_id))) as [[H1 H2]|Hne].
  - rewrite (bool_decide_eq_true_2 (rp.2 = _ ∧ _)) by (by rewrite H1). rewrite (bool_decide_eq_true_2 (rp.1 = _ ∧ _)) by done.
    cbn [map List.filter]. rewrite bool_decide_eq_true_2 by done. cbn [map snd]. by rewrite IH.
  - rewrite (bool_decide_eq_false_2 (rp.1 = _ ∧ _)) by done. case_bool_decide as Hb; [|exact IH]. cbn [map List.filter fst].
    rewrite bool_decide_eq_false_2 by naive_solver. exact IH.
Qed.

(** ** Runs of the definitions *)

Module People.
Definition fresh (k : nat) : string := "u" +:+ pretty (N.of_nat k).
Definition letters (k : nat) : string := "A" +:+ pretty (N.of_nat k).
Definition uuid_ok (id : string) : bool := negb (bool_decide (id = "")).
Definition hash (p : string) : string := "h:" +:+ p.

Definition person (id name role : string) (employee : string) : user_row :=
  {| du_id := id; du_username := name; du_password := "h"; du_name := name; du_email := name +:+ "@x"; du_department := None; du_job_title := None;
     du_role := role; du_unit := None; du_manager := None; du_scope := None; du_phone := None; du_notes := None; du_role_id := Some "r2";
     du_status := "Active"; du_employee := Some employee; du_requires_change := false; du_requires_2fa := false; du_session_version := 1; du_last_login := None |}.
Definition start : directory :=
  {| dr_users := [person "a" "ann" "Admin" "EMP-0001"; person "b" "bob" "Auditor" "IT-1004-77"]; dr_roles := [("r1", "Admin"); ("r2", "Auditor")];
     dr_entities := Some [{| oe_code := Some "IT"; oe_name_ar := None; oe_name_en := Some "Systems" |}]; dr_changes := []; dr_calls := [];
     dr_aborted := false; dr_next := 0; dr_random := 0 |}.
Definition body (email : string) (department : option string) : user_data :=
  {| ud_username := Some "eve"; ud_password := Some "Secret-1"; ud_name := "Eve"; ud_email := email; ud_department := department; ud_job_title := None;
     ud_role := "Auditor"; ud_unit := None; ud_manager := None; ud_scope := None; ud_phone := None; ud_notes := None; ud_status := None |}.
Abbreviation create taken email department := (createUser fresh letters uuid_ok hash taken "eve" "Secret-1" (body email department) start).
Abbreviation put id d := (put_user uuid_ok hash None "ann" "a" id d start).
Definition no_query : user_query := {| uq_page := None; uq_pageSize := None; uq_search := None; uq_department := None; uq_role := None |}.

Theorem creation_runs :
  (create [] "e@x" (Some "Systems")).1 = Ok ("u0", "IT-1005-A0") ∧ (create [] "e@x" None).1 = Ok ("u0", "EMP-1001-A0") ∧
  (create [] "BOB@X" None).1 = Throw (ConflictError "A user with this email already exists").
Proof. by vm_compute. Qed.

(** The loop that makes a new number after a conflict runs in the transaction the conflict
    has aborted, so it never succeeds; a body without a status or a scope is recorded and
    announced as a change of both; and the listing announces no total. *)
Theorem directory_gaps :
  (create ["EMP-1001-A0"] "e@x" None).1 = Throw (GenericError ABORTED) ∧
  (let '(r, s) := put "b" (body "bob@x" None) in
   r = Ok tt ∧ map (λ c, (c.(cl_old_role), c.(cl_new_role))) s.(dr_changes) = [("Auditor", "Auditor")] ∧
   Notice "b" "Status: Active → undefined. Access scope changed. " ∈ s.(dr_calls)) ∧
  match list_page no_query start with
  | Ok (l, m) => length l = 2%nat ∧ m.(pm_total) = NaN ∧ m.(pm_totalPages) = NaN ∧ m.(pm_hasNext) = false
  | Throw _ => False
  end.
Proof. vm_compute. split_and!; try done. apply list_elem_of_In. cbn. tauto. Qed.

Definition perms : perm_db :=
  {| permissions := [{| p_id := "q"; p_module := "Users"; p_action := "View" |}; {| p_id := "p"; p_module := "AuditPlans"; p_action := "View" |}];
     role_permissions := [("r2", "p")]; user_permissions := []; users := [];
     roles := [{| r_id := "r2"; r_name := "Auditor"; r_is_custom := false |}; {| r_id := "r1"; r_name := "Admin"; r_is_custom := false |}] |}.
Definition office_tables : office :=
  {| of_sessions := [{| se_id := "s1"; se_user := "a"; se_status := "Active"; se_last := 5 |}; {| se_id := "s2"; se_user := "gone"; se_status := "Active"; se_last := 6 |};
                     {| se_id := "s3"; se_user := "b"; se_status := "Terminated"; se_last := 7 |}; {| se_id := "s4"; se_user := "b"; se_status := "Active"; se_last := 8 |}];
     of_settings := [(1, "settings")]; of_login_history := repeat "login" 51; of_audit_trail := [];
     of_requests := [{| re_id := "x"; re_status := "Approved"; re_date := 1 |}; {| re_id := "y"; re_status := "Pending"; re_date := 2 |}];
     of_departments := ["IT"]; of_job_titles := [] |}.
Theorem start_page :
  match getInitData 0 perms office_tables start with
  | Ok i => map (λ x, (x.1.(r_name), map p_module x.2)) i.(id_roles) = [("Admin", []); ("Auditor", ["AuditPlans"])] ∧
      map p_id i.(id_permissions) = ["p"; "q"] ∧ i.(id_summary).(sm_active) = 2 ∧ i.(id_loginHistory).(df_totalPages) = 2 ∧
      map (λ x, (x.1.1.(se_id), x.2)) i.(id_sessions) = [("s4", "bob"); ("s1", "ann")] ∧ map re_id i.(id_resetRequests) = ["y"]
  | Throw _ => False
  end.
Proof. by vm_compute. Qed.
End People.

Lemma createUser_spec_witness :
  exists s1, added People.letters People.hash [] "eve" "Secret-1" (People.body "e@x" None) People.start "u0" "EMP-1001-A0" s1.
Proof.
  destruct (createUser_spec People.fresh People.letters People.uuid_ok People.hash [] "eve" "Secret-1" (People.body "e@x" None) People.start eq_refl)
    as (s1 & Hadd & _).
  exists s1. exact Hadd.
Defined.

Lemma createUser_succeeds_witness :
  is_ok (createUser People.fresh People.letters People.uuid_ok People.hash [] "eve" "Secret-1" (People.body "e@x" (Some "Systems")) People.start).1 = true.
Proof.
  refine (createUser_succeeds People.fresh People.letters People.uuid_ok People.hash "eve" "Secret-1" (People.body "e@x" (Some "Systems")) People.start eq_refl _ _).
  - discriminate.
  - intros code. intros [= <-]. apply (bool_decide_unpack _). by vm_compute.
Defined.

Lemma put_user_spec_witness :
  (put_user People.uuid_ok People.hash None "ann" "a" "b" (People.body "bob@x" None) People.start).1 = Ok tt /\
  exists old, old ∈ People.start.(dr_users) /\ old.(du_id) = "b".
Proof.
  pose proof (put_user_spec People.uuid_ok People.hash None "ann" "a" "b" (People.body "bob@x" None) People.start eq_refl) as H.
  destruct (put_user _ _ _ _ _ _ _ _) as [[[]|e] s'] eqn:Hrun.
  - split; [done|]. destruct H as (old & _ & Hin & Hid & _); [done..|]. by exists old.
  - exfalso. revert Hrun. vm_compute. discriminate.
Defined.

Lemma user_pages_complete_witness :
  exists rows : list user_row, Permutation rows People.start.(dr_users) /\ length rows = 2%nat.
Proof.
  destruct (user_pages_complete People.no_query People.start ltac:(done)) as (rows & last & Hp & _).
  exists rows. split; [exact Hp|]. by rewrite Hp.
Defined.
