(* ===== verification/PasswordReset.v ===== *)
(** * Reset of a forgotten password ([services/PasswordService.ts], [routes/auth/password.ts])

    A user asks, an administrator approves with a temporary password or rejects.  The
    accounts are those of [Accounts.v]; the temporary password and the identifiers of the
    requests are arguments, as are the columns of a user that the accounts leave out. *)

From S2P Require Import Prelude JsMap JsStrings ModuleRegistry Accounts OrderBy AuthMiddleware AuthService Sessions.
Local Open Scope Z_scope.

Record reset_request := {
  rq_id : string; rq_user : string; rq_username : string; rq_name : string; rq_department : option string; rq_status : string;
  rq_date : Z; rq_resolved_by : option string }.
Record reset_db := {
  rs_login : login_state; rs_requests : list reset_request; rs_next : nat; rs_alerts : list (string * string); rs_audit : list (string * string) }.
Definition with_requests (l : list reset_request) (s : reset_db) : reset_db :=
  {| rs_login := s.(rs_login); rs_requests := l; rs_next := s.(rs_next); rs_alerts := s.(rs_alerts); rs_audit := s.(rs_audit) |}.
Definition with_login (l : login_state) (s : reset_db) : reset_db :=
  {| rs_login := l; rs_requests := s.(rs_requests); rs_next := s.(rs_next); rs_alerts := s.(rs_alerts); rs_audit := s.(rs_audit) |}.
Definition with_told (alerts : list (string * string)) (audit : list (string * string)) (s : reset_db) : reset_db :=
  {| rs_login := s.(rs_login); rs_requests := s.(rs_requests); rs_next := s.(rs_next); rs_alerts := alerts; rs_audit := audit |}.
Abbreviation reset_action := (action app_error reset_db).
Definition modify_accounts (f : accounts_db → accounts_db) : reset_action unit :=
  modify (λ s, with_login (with_adb (f s.(rs_login).(adb)) s.(rs_login)) s).

Section service.
Context (fresh : nat → string) (uuid_ok : string → bool) (name_of : account → string) (department_of : account → option string).
Context (hash : string → string).

(** ** The service *)

Definition pending_of (user : string) (r : reset_request) : bool := bool_decide (r.(rq_user) = user ∧ r.(rq_status) = "Pending").
Definition add_request (now : Z) (user : account) : reset_action unit :=
  modify (λ s, {| rs_login := s.(rs_login);
    rs_requests := s.(rs_requests) ++ [{| rq_id := fresh s.(rs_next); rq_user := user.(ac_id); rq_username := user.(ac_username); rq_name := name_of user;
      rq_department := department_of user; rq_status := "Pending"; rq_date := now; rq_resolved_by := None |}];
    rs_next := S s.(rs_next); rs_alerts := s.(rs_alerts); rs_audit := s.(rs_audit) |}).
Definition getAdminIds (d : accounts_db) : list string := map ac_id (select active_admin d.(accounts)).
(** [department || 'N/A'] *)
Definition alert_message (user : account) : string :=
  "Username: " +:+ user.(ac_username) +:+ " Name: " +:+ name_of user +:+ " Department: " +:+
  match department_of user with Some t => if bool_decide (t = "") then "N/A" else t | None => "N/A" end.
(** The account and the administrators to tell, when a request was added. *)
Definition requestReset (now : Z) (username : string) : reset_action (option (account * list string)) :=
  s ← get_state;
  match lookup_user s.(rs_login).(adb) username with
  | None => mret None
  | Some user =>
      match select_one (pending_of user.(ac_id)) s.(rs_requests) with
      | Some _ => mret None
      | None =>
          _ ← add_request now user;
          mret (Some (user, getAdminIds s.(rs_login).(adb)))
      end
  end.

(** [ORDER BY request_date DESC LIMIT 1] *)
Definition newest_request (user : string) (l : list reset_request) : option reset_request :=
  hd_error (order_by rq_date (λ a b, b <? a) (select (λ r, bool_decide (r.(rq_user) = user)) l)).
Definition getResetStatus (username : string) : reset_action string :=
  s ← get_state;
  mret match lookup_user s.(rs_login).(adb) username with
       | None => "None"
       | Some user =>
           if negb user.(ac_requires_password_change) then "None"
           else match newest_request user.(ac_id) s.(rs_requests) with Some r => r.(rq_status) | None => "None" end
       end.

Definition find_request (requestId : string) : reset_action reset_request :=
  s ← get_state;
  _ ← ensure (uuid_ok requestId) (GenericError "invalid input syntax for type uuid");
  match select_one (λ r, bool_decide (r.(rq_id) = requestId)) s.(rs_requests) with
  | Some r => mret r
  | None => throw (NotFoundError "Request not found")
  end.
Definition resolve_request (st adminId : string) (r : reset_request) : reset_request :=
  {| rq_id := r.(rq_id); rq_user := r.(rq_user); rq_username := r.(rq_username); rq_name := r.(rq_name); rq_department := r.(rq_department);
     rq_status := st; rq_date := r.(rq_date); rq_resolved_by := Some adminId |}.
Definition resolve (st adminId requestId : string) : reset_action unit :=
  modify (λ s, with_requests (update_where (λ r, bool_decide (r.(rq_id) = requestId)) (resolve_request st adminId) s.(rs_requests)) s).

(** The temporary password replaces the old one, the account is unlocked, and what was open is closed. *)
Definition temporary (hashed : string) (a : account) : account := set_password hashed true a.(ac_password_last_changed) (set_lock 0 None a).
Definition approveReset (tempPass requestId adminId : string) : reset_action (string * string) :=
  request ← find_request requestId;
  _ ← modify_accounts (update_account request.(rq_user) (temporary (hash tempPass)));
  _ ← modify_accounts (revoke_user_tokens request.(rq_user));
  _ ← modify_accounts (terminate_sessions request.(rq_user));
  _ ← resolve "Approved" adminId requestId;
  mret (tempPass, request.(rq_username)).
Definition rejectReset (requestId adminId : string) : reset_action unit :=
  _ ← find_request requestId;
  resolve "Rejected" adminId requestId.

Definition getResetRequests (s : reset_db) : list (reset_request * string) :=
  flat_map (λ r, map (λ a, (r, a.(ac_email))) (select (has_id r.(rq_user)) s.(rs_login).(adb).(accounts)))
    (order_by rq_date (λ a b, b <? a) (select (λ r, bool_decide (r.(rq_status) = "Pending")) s.(rs_requests))).

(** ** The routes *)

Inductive reset_call :=
  | Forgot (usernameOrEmail : string)
  | Approve (requestId tempPass : string)
  | Reject (requestId : string).
(** What a client is told: success, or the temporary password. *)
Definition serve_reset (now : Z) (actor actorId : string) (c : reset_call) : reset_action (option string) :=
  match c with
  | Forgot u =>
      _ ← ensure (negb (bool_decide (u = ""))) (ValidationError "Invalid username");
      result ← requestReset now u;
      _ ← match result with
          | Some (user, admins) =>
              modify (λ s, with_told (s.(rs_alerts) ++ map (λ id, (id, alert_message user)) admins) (s.(rs_audit) ++ [(user.(ac_username), "Password Reset Request")]) s)
          | None => mret tt
          end;
      mret None
  | Approve requestId tempPass =>
      _ ← ensure (negb (bool_decide (requestId = ""))) (ValidationError "Invalid request ID");
      result ← approveReset tempPass requestId actorId;
      _ ← modify (λ s, with_told s.(rs_alerts) (s.(rs_audit) ++ [(actor, "Admin Password Reset")]) s);
      mret (Some result.1)
  | Reject requestId =>
      _ ← ensure (uuid_ok requestId) (ValidationError "Invalid request ID");
      _ ← rejectReset requestId actorId;
      mret None
  end.
End service.

(** ** Properties *)

Section requests.
Context (fresh : nat → string) (uuid_ok : string → bool) (name_of : account → string) (department_of : account → option string).
Context (hash : string → string) (fresh_inj : ∀ a b, fresh a = fresh b → a = b).

(** Keys are distinct and were generated; no user has two requests pending. *)
Record requests_ok (s : reset_db) : Prop := {
  rk_ids : NoDup (map rq_id s.(rs_requests));
  rk_made : ∀ r, r ∈ s.(rs_requests) → ∃ k, (k < s.(rs_next))%nat ∧ r.(rq_id) = fresh k;
  rk_one : ∀ u r r', r ∈ s.(rs_requests) → r' ∈ s.(rs_requests) → pending_of u r = true → pending_of u r' = true → r = r' }.

Lemma find_request_run id s :
  match find_request uuid_ok id s with
  | (Ok r, s') => s' = s ∧ r ∈ s.(rs_requests) ∧ r.(rq_id) = id
  | (Throw _, s') => s' = s
  end.
Proof.
  unfold find_request. run_action. destruct (uuid_ok id); [|done]. destruct (select_one _ _) as [r|] eqn:Hr; [|done].
  apply select_one_Some in Hr as [Hin Hid]. by bools.
Qed.

Lemma requests_same s s' : s'.(rs_requests) = s.(rs_requests) → s'.(rs_next) = s.(rs_next) → requests_ok s → requests_ok s'.
Proof. intros H1 H2 []. split; by rewrite ?H1, ?H2. Qed.

(** A resolution takes the one request out of the pending ones. *)
Lemma resolve_ok st adminId id s : st ≠ "Pending" → requests_ok s → requests_ok (resolve st adminId id s).2.
Proof.
  intros Hst []. unfold resolve, modify. cbn [snd]. split; cbn [rs_requests rs_next with_requests].
  - by rewrite update_where_column.
  - intros r (r0 & Hr0 & ->)%elem_of_update_where. destruct (rk_made0 r0 Hr0) as (k & Hk & Hid). exists k. split; [done|]. by case_bool_decide.
  - assert (Hp : ∀ u r, pending_of u (if bool_decide (rq_id r = id) then resolve_request st adminId r else r) = true →
      (if bool_decide (rq_id r = id) then resolve_request st adminId r else r) = r ∧ pending_of u r = true).
    { intros u r. case_bool_decide; [|done]. unfold pending_of. cbn. intros [_ ?]%bool_decide_eq_true. congruence. }
    intros u r r' (r0 & Hr0 & ->)%elem_of_update_where (r0' & Hr0' & ->)%elem_of_update_where H H'.
    apply Hp in H as [-> H], H' as [-> H']. by apply (rk_one0 u).
Qed.

Lemma add_request_ok now user s : requests_ok s → select_one (pending_of user.(ac_id)) s.(rs_requests) = None →
  requests_ok (add_request fresh name_of department_of now user s).2.
Proof.
  intros [] Hnone. pose proof (proj1 (select_one_None _ _) Hnone) as Hno. unfold add_request, modify. cbn [snd]. split; cbn [rs_requests rs_next].
  - rewrite map_app. apply NoDup_app. split_and!; [done| |apply NoDup_singleton]. intros x (r & -> & Hr)%list_elem_of_fmap Hx%list_elem_of_singleton.
    destruct (rk_made0 r Hr) as (k & Hk & Hid). rewrite Hid in Hx. apply fresh_inj in Hx. lia.
  - intros r [Hr| ->%list_elem_of_singleton]%elem_of_app; [|exists s.(rs_next); split; [lia|done]].
    destruct (rk_made0 r Hr) as (k & ? & ?). exists k. split; [lia|done].
  - assert (Hnew : ∀ u r, r ∈ s.(rs_requests) → pending_of u r = true → u ≠ user.(ac_id)).
    { intros u r Hr Hp ->. by rewrite (Hno r Hr) in Hp. }
    intros u r r' [Hr| ->%list_elem_of_singleton]%elem_of_app [Hr'| ->%list_elem_of_singleton]%elem_of_app Hp Hp'; [by apply (rk_one0 u)| | |done];
      [apply bool_decide_eq_true in Hp' as [Hu _]|apply bool_decide_eq_true in Hp as [Hu _]]; cbn in Hu; subst u; exfalso; by eapply Hnew.
Qed.

(** the requests of the three routes keep at most one pending request of every user, answer a
    forgotten password the same way whether or not the account exists, and hand out the
    temporary password only to the administrator who approves. *)
Theorem one_pending_request now actor actorId c s (Hok : requests_ok s) :
  let '(r, s') := serve_reset fresh uuid_ok name_of department_of hash now actor actorId c s in
  requests_ok s' /\
  (forall u, c = Forgot u -> u <> "" -> r = Ok None) /\
  (forall t, r = Ok (Some t) -> exists id, c = Approve id t).
Proof.
  destruct c as [u|id t|id]; cbn [serve_reset]; unfold mbind at 1, action_bind at 1; unfold ensure at 1.
  - destruct (bool_decide (u = "")) eqn:Hu; cbn [negb]; [bools; by split_and!; [|intros ? [= <-]|]|].
    unfold mret at 1, action_ret at 1. unfold mbind at 1, action_bind at 1. unfold requestReset. run_action.
    destruct (lookup_user _ u) as [user|]; [|by split_and!]. destruct (select_one (pending_of (ac_id user)) (rs_requests s)) eqn:Hp; cbn; [by split_and!|].
    split_and!; [|done..]. refine (requests_same _ _ _ _ (add_request_ok now user s Hok Hp)); done.
  - destruct (negb (bool_decide (id = ""))); [|by split_and!]. unfold mret at 1, action_ret at 1.
    unfold mbind at 1, action_bind at 1. unfold approveReset. unfold mbind at 1, action_bind at 1.
    pose proof (find_request_run id s) as Hf. destruct (find_request uuid_ok id s) as [[r|e] s1]; [destruct Hf as (-> & _)|by rewrite Hf; split_and!].
    unfold modify_accounts, resolve. run_action. split_and!; [|done|intros t' [= ->]; by exists id].
    refine (requests_same _ _ _ _ (resolve_ok "Approved" actorId id s _ Hok)); done.
  - destruct (uuid_ok id); [|by split_and!]. unfold mret at 1, action_ret at 1.
    unfold mbind at 1, action_bind at 1. unfold rejectReset. unfold mbind at 1, action_bind at 1.
    pose proof (find_request_run id s) as Hf. destruct (find_request uuid_ok id s) as [[r|e] s1]; [destruct Hf as (-> & _)|by rewrite Hf; split_and!].
    unfold resolve. run_action. split_and!; [|done..]. by apply (resolve_ok "Rejected" actorId id s).
Qed.
End requests.

Lemma login_as_checked verify sign sha256 now u p rm r2 s user :
  check_credentials verify now u p s.(adb) = inl user →
  match login verify sign sha256 now u p rm r2 s with
  | (Ok res, _) => res.(lr_user) = user ∧ (user.(ac_requires_password_change) = true → res.(lr_requires_password_change) = true)
  | (Throw e, _) => e = GenericError "unique constraint"
  end.
Proof.
  intros Hc. unfold login. rewrite Hc. unfold transaction.
  destruct (open_session sign sha256 now rm (r2 user) user s) as [[res|e] s'] eqn:Ho; [|by apply open_session_fails in Ho].
  unfold open_session in Ho. inv_ok. split; [done|]. cbn. by intros ->.
Qed.

(** C35: an approved request replaces the password of the account by the temporary one, unlocks
    it and makes it change the password; no session and no refresh token of the user is left,
    and no other account is touched. When the account is active a login with the temporary
    password then succeeds and asks for a new password (unless the refresh token it would
    issue is already stored), and one with any other password is refused. An account that is
    not active is reset in the same way and no password lets it in. Ids are unique, and bcrypt
    accepts for the hash of the temporary password that password only. *)
Theorem approved_reset uuid_ok hash verify sign sha256 s request user u tempPass adminId
  (Hids : NoDup (map rq_id s.(rs_requests))) (Hreq : request ∈ s.(rs_requests)) (Huuid : uuid_ok request.(rq_id) = true)
  (Haccounts : ids_unique s.(rs_login).(adb)) (Hu : lookup_user s.(rs_login).(adb) u = Some user) (Hid : user.(ac_id) = request.(rq_user))
  (Hverify : forall p, verify p (hash tempPass) = Ok (bool_decide (p = tempPass))) :
  exists s', approveReset uuid_ok hash tempPass request.(rq_id) adminId s = (Ok (tempPass, request.(rq_username)), s') /\
    lookup_user s'.(rs_login).(adb) u = Some (temporary (hash tempPass) user) /\
    (temporary (hash tempPass) user).(ac_requires_password_change) = true /\
    (temporary (hash tempPass) user).(ac_locked_until) = None /\
    (forall now rm r2,
       let login p := login verify sign sha256 now u p rm r2 s'.(rs_login) in
       if bool_decide (user.(ac_status) = "Active") then
         match login tempPass with
         | (Ok res, _) => res.(lr_user) = temporary (hash tempPass) user /\ res.(lr_requires_password_change) = true
         | (Throw e, _) => e = GenericError "unique constraint"
         end /\
         (forall p, p <> tempPass -> (login p).1 = Throw InvalidCredentialsError)
       else forall p, (login p).1 = Throw InvalidCredentialsError) /\
    no_active_session s'.(rs_login).(adb) user.(ac_id) /\
    (forall t, t ∈ s'.(rs_login).(adb).(refresh_tokens) -> t.(rt_user) = user.(ac_id) -> t.(rt_revoked) = true) /\
    (forall a, a.(ac_id) <> user.(ac_id) -> (a ∈ s'.(rs_login).(adb).(accounts) <-> a ∈ s.(rs_login).(adb).(accounts))) /\
    resolve_request "Approved" adminId request ∈ s'.(rs_requests).
Proof.
  assert (Hf : find_request uuid_ok request.(rq_id) s = (Ok request, s)).
  { unfold find_request. run_action. rewrite Huuid. destruct (select_one _ _) as [r|] eqn:Hr.
    - apply select_one_Some in Hr as [Hin Hrid]. bools. by rewrite (map_unique rq_id s.(rs_requests) r request).
    - pose proof (proj1 (select_one_None _ _) Hr request Hreq) as H. cbn beta in H. by rewrite bool_decide_eq_true_2 in H. }
  set (d1 := update_account user.(ac_id) (temporary (hash tempPass)) s.(rs_login).(adb)).
  set (d2 := terminate_sessions user.(ac_id) (revoke_user_tokens user.(ac_id) d1)).
  exists (with_requests (update_where (λ r, bool_decide (r.(rq_id) = request.(rq_id))) (resolve_request "Approved" adminId) s.(rs_requests))
           (with_login (with_adb d2 s.(rs_login)) s)).
  assert (Hl : lookup_user d2 u = Some (temporary (hash tempPass) user)).
  { change (lookup_user d1 u = Some (temporary (hash tempPass) user)). by apply lookup_user_update. }
  assert (Hcheck : ∀ now p, check_credentials verify now u p d2 =
    if bool_decide (user.(ac_status) = "Active") then
      if bool_decide (p = tempPass) then inl (temporary (hash tempPass) user) else inr (Some (temporary (hash tempPass) user))
    else inr None).
  { intros now p. unfold check_credentials. rewrite Hl. cbn [from_option]. rewrite Hverify. unfold isLoginBlockedStatus, ACTIVE_STATUS. cbn.
    case_bool_decide as Hst; cbn; [|done]. by case_bool_decide. }
  split_and!.
  - unfold approveReset. unfold mbind at 1, action_bind at 1. rewrite Hf, <- Hid. done.
  - exact Hl.
  - done.
  - done.
  - intros now rm r2. cbn zeta. cbn [rs_login with_requests with_login].
    assert (Hrefused : ∀ p, (∀ a, check_credentials verify now u p d2 ≠ inl a) →
      (login verify sign sha256 now u p rm r2 (with_adb d2 s.(rs_login))).1 = Throw InvalidCredentialsError).
    { intros p Hp. unfold login. cbn [adb with_adb]. destruct (check_credentials _ _ _ _ _) as [a|[a|]]; [by destruct (Hp a)|done..]. }
    case_bool_decide as Hact.
    + split.
      * pose proof (login_as_checked verify sign sha256 now u tempPass rm r2 (with_adb d2 s.(rs_login)) (temporary (hash tempPass) user)) as H.
        cbn [adb with_adb] in H. rewrite Hcheck, bool_decide_eq_true_2 in H by done.
        specialize (H eq_refl). destruct (login _ _ _ _ _ _ _ _ _) as [[res|e] s2]; [|done]. destruct H as [Hr Hc]. split; [done|by apply Hc].
      * intros p Hp. apply Hrefused. intros a. by rewrite Hcheck, bool_decide_eq_false_2.
    + intros p. apply Hrefused. intros a. by rewrite Hcheck.
  - apply terminate_sessions_none.
  - intros t (t0 & _ & ->)%elem_of_update_where Ht. case_bool_decide; [done|]. by destruct H.
  - intros a Ha. cbn. rewrite elem_of_update_where. split.
    + intros (a0 & Ha0 & ->). unfold has_id in *. case_bool_decide; [by destruct Ha|done].
    + intros Hin. exists a. split; [done|]. unfold has_id. by rewrite bool_decide_eq_false_2.
  - cbn. apply elem_of_update_where. exists request. split; [done|]. by rewrite bool_decide_eq_true_2.
Qed.

(** ** Runs of the definitions *)

Module Resets.
Definition fresh (k : nat) : string := pretty (N.of_nat k).
Lemma keys_distinct a b : fresh a = fresh b → a = b.
Proof. intros H%(inj pretty). lia. Qed.
Definition uuid_ok (id : string) : bool := negb (bool_decide (id = "")).
Definition hash (p : string) : string := "h:" +:+ p.
Definition verify (p h : string) : outcome unit bool := Ok (bool_decide (hash p = h)).
Definition request (id status : string) : reset_request :=
  {| rq_id := id; rq_user := "a"; rq_username := "a"; rq_name := "Ann"; rq_department := None; rq_status := status; rq_date := 1; rq_resolved_by := None |}.
Definition start (l : list reset_request) : reset_db :=
  {| rs_login := with_adb (AdminSample.db [AdminSample.user "a" "Auditor"; AdminSample.user "m" UserRole.ADMIN]) LoginSample.state;
     rs_requests := l; rs_next := 1; rs_alerts := []; rs_audit := [] |}.
Abbreviation serve c s := (serve_reset fresh uuid_ok (λ _, "Ann") (λ _, None) hash 5 "m" "m" c s).
Definition passwords (s : reset_db) : list string := map ac_password s.(rs_login).(adb).(accounts).

(** The status of a request is not looked at when it is resolved: an approval can be repeated
    and gives a second temporary password, a rejected request can still be approved, and
    an approved one can be marked rejected although the password stays replaced. *)
Theorem reset_gaps :
  (let '(r, s) := serve (Approve "0" "t2") (start [request "0" "Approved"]) in r = Ok (Some "t2") ∧ hd "" (passwords s) = "h:t2") ∧
  (let '(r, s) := serve (Approve "0" "t") (start [request "0" "Rejected"]) in r = Ok (Some "t") ∧ hd "" (passwords s) = "h:t") ∧
  (let '(r, s) := serve (Reject "0") (serve (Approve "0" "t") (start [request "0" "Pending"])).2 in
     r = Ok None ∧ map rq_status s.(rs_requests) = ["Rejected"] ∧ hd "" (passwords s) = "h:t").
Proof. vm_compute. repeat split. Qed.

Theorem reset_runs :
  (let '(r, s) := serve (Forgot "A") (start []) in r = Ok None ∧ map rq_status s.(rs_requests) = ["Pending"] ∧ map fst s.(rs_alerts) = ["m"]) ∧
  (serve (Forgot "A") (serve (Forgot "a") (start [])).2).2.(rs_requests) = (serve (Forgot "a") (start [])).2.(rs_requests) ∧
  (serve (Forgot "nobody") (start [])).1 = Ok None ∧
  (serve (Approve "7" "t") (start [])).1 = Throw (NotFoundError "Request not found").
Proof. vm_compute. repeat split. Qed.

Lemma start_requests_ok : requests_ok fresh (start [request "0" "Pending"]).
Proof.
  split; cbn.
  - apply NoDup_singleton.
  - intros r ->%list_elem_of_singleton. exists 0%nat. split; [lia|done].
  - by intros u r r' ->%list_elem_of_singleton ->%list_elem_of_singleton.
Qed.
End Resets.

Lemma one_pending_request_witness :
  requests_ok Resets.fresh (serve_reset Resets.fresh Resets.uuid_ok (λ _, "Ann") (λ _, None) Resets.hash 5 "m" "m" (Forgot "a") (Resets.start [Resets.request "0" "Pending"])).2.
Proof.
  pose proof (one_pending_request Resets.fresh Resets.uuid_ok (λ _, "Ann") (λ _, None) Resets.hash Resets.keys_distinct 5 "m" "m" (Forgot "a") _ Resets.start_requests_ok) as H.
  destruct (serve_reset _ _ _ _ _ _ _ _ _ _) as [r s']. exact (proj1 H).
Defined.

Lemma approved_reset_witness :
  exists s', approveReset Resets.uuid_ok Resets.hash "t" "0" "m" (Resets.start [Resets.request "0" "Pending"]) = (Ok ("t", "a"), s') /\
    no_active_session s'.(rs_login).(adb) "a" /\
    (login Resets.verify LoginSample.sign LoginSample.sha256 9 "A" "old" false (fun _ => false) s'.(rs_login)).1
      = Throw InvalidCredentialsError.
Proof.
  destruct (approved_reset Resets.uuid_ok Resets.hash Resets.verify LoginSample.sign LoginSample.sha256
    (Resets.start [Resets.request "0" "Pending"]) (Resets.request "0" "Pending")
    (AdminSample.user "a" "Auditor") "A" "t" "m") as (s' & Hrun & _ & _ & _ & Hlogin & Hno & _).
  - apply NoDup_singleton.
  - by left.
  - done.
  - apply (bool_decide_unpack _). by vm_compute.
  - by vm_compute.
  - done.
  - intros p. unfold Resets.verify, Resets.hash. f_equal. apply bool_decide_ext. split; [apply app_inj_l_str|by intros ->].
  - exists s'. split; [exact Hrun|]. split; [exact Hno|].
    exact (proj2 (Hlogin 9 false (fun _ => false)) "old" ltac:(discriminate)).
Defined.
