(* ===== verification/Health.v ===== *)
(** * The health endpoints ([routes/health.ts], [src/src/index.ts])

    The report: six checks of subsystems, each under a timer of its own, the timer over all of
    them and the status derived from what they answer.  The two short handlers the application
    registers by itself, and which of the three answers a request.  Times are milliseconds since the request;
    how long a subsystem takes and what it answers are arguments.  A check that takes as
    long as its timer loses to it. *)

From S2P Require Import Prelude JsMap JsStrings Json RequestGuards.
From stdpp Require Import pretty.
From Stdlib Require Import QArith.
Local Open Scope Z_scope.

Inductive check_status := CheckOk | CheckFail | CheckTimeout.
#[export] Instance check_status_eq_dec : EqDecision check_status.
Proof. solve_decision. Defined.
Inductive detail := Text (t : string) | Number (n : Z) | Flag (b : bool) | Null.
Record SubsystemCheck := { sc_status : check_status; sc_latency : Z; sc_details : list (string * detail) }.

(** What a subsystem does: it answers or fails after a time, or never answers. *)
Inductive answer (A : Type) := Answers (after : Z) (v : A) | Fails (after : Z) (message : string) | Hangs.
Arguments Answers {A}.
Arguments Fails {A}.
Arguments Hangs {A}.
Definition then_ {A B} (a : answer A) (f : Z → A → answer B) : answer B :=
  match a with Answers t v => f t v | Fails t m => Fails t m | Hangs => Hangs end.

Definition CRON_EXPECTED_INTERVAL_MS : Z := 25 * 60 * 60 * 1000.
Definition CHECK_TIMEOUT_MS : Z := 2000.
Definition OVERALL_TIMEOUT_MS : Z := 3000.

Definition timed_out : SubsystemCheck := {| sc_status := CheckTimeout; sc_latency := CHECK_TIMEOUT_MS; sc_details := [("reason", Text "Check timed out after 2000ms")] |}.
(** The result and the time it is there. *)
Definition withTimeout (check : answer SubsystemCheck) : SubsystemCheck * Z :=
  match check with
  | Answers t r => if t <? CHECK_TIMEOUT_MS then (r, t) else (timed_out, CHECK_TIMEOUT_MS)
  | Fails t m =>
      if t <? CHECK_TIMEOUT_MS then
        ({| sc_status := CheckFail; sc_latency := t; sc_details := [("reason", Text (if bool_decide (m = "") then "Unknown error" else m))] |}, t)
      else (timed_out, CHECK_TIMEOUT_MS)
  | Hangs => (timed_out, CHECK_TIMEOUT_MS)
  end.

Definition result (st : check_status) (latency : Z) (details : list (string * detail)) : answer SubsystemCheck :=
  Answers latency {| sc_status := st; sc_latency := latency; sc_details := details |}.

Definition checkDatabase (isExternal : bool) (select_1 : answer unit) : answer SubsystemCheck :=
  then_ select_1 (λ t _, result CheckOk t [("type", Text (if isExternal then "PostgreSQL" else "PGlite"))]).

(** [ping] answers whether there was a PONG. *)
Definition checkRedis (isAvailable : bool) (status : string) (ping : answer bool) : answer SubsystemCheck :=
  then_ ping (λ t pong,
    if pong then result CheckOk t [("connected", Flag true)]
    else result CheckFail t [("reason", Text (if isAvailable then "PING did not return PONG" else "Redis not available (status: " +:+ status +:+ ")"))]).

(** [Math.round] of a quotient of positive integers. *)
Definition round_div (a b : Z) : Z := (2 * a + b) / (2 * b).
Definition MB : Z := 1024 * 1024.
(** [statfs] gives the free blocks and the size of a block. *)
Definition checkFilesystem (access : answer unit) (statfs : answer (Z * Z)) : answer SubsystemCheck :=
  then_ access (λ t _,
    match statfs with
    | Hangs => Hangs
    | Fails t' _ => result CheckOk (t + t') [("writable", Flag true)]
    | Answers t' (bfree, bsize) =>
        let freeSpaceMB := round_div (bfree * bsize) MB in
        if freeSpaceMB <? 100 then result CheckFail (t + t') [("freeSpaceMB", Number freeSpaceMB); ("reason", Text "Less than 100MB free space")]
        else result CheckOk (t + t') [("writable", Flag true); ("freeSpaceMB", Number freeSpaceMB)]
    end).

Definition checkMemory (heapUsed heapTotal : Z) : answer SubsystemCheck :=
  let usage := [("heapUsedMB", Number (round_div heapUsed MB)); ("heapTotalMB", Number (round_div heapTotal MB));
                ("usagePercent", Number (round_div (heapUsed * 100) heapTotal))] in
  if 90 * heapTotal <=? heapUsed * 100 then result CheckFail 0 (usage ++ [("reason", Text "Heap usage exceeds 90% threshold")])
  else result CheckOk 0 usage.

(** The server and how many clients it has. *)
Definition checkWebSocket (wss : option Z) : answer SubsystemCheck :=
  match wss with
  | None => result CheckFail 0 [("reason", Text "WebSocket server not initialized")]
  | Some clientCount => result CheckOk 0 [("connections", Number clientCount)]
  end.

(** [cronLastRunTimestamp]: set by every run of the daily job. *)
Definition updateCronLastRun (now : Z) (_ : option Z) : option Z := Some now.
Definition checkCron (now uptimeMs : Z) (lastRun : option Z) : answer SubsystemCheck :=
  match lastRun with
  | None =>
      if uptimeMs <? CRON_EXPECTED_INTERVAL_MS then result CheckOk 0 [("lastRun", Null); ("note", Text "Server recently started, cron not yet due")]
      else result CheckFail 0 [("lastRun", Null); ("reason", Text "Cron has never run and server uptime exceeds expected interval")]
  | Some last =>
      if CRON_EXPECTED_INTERVAL_MS <? now - last then
        result CheckFail 0 [("lastRun", Number last); ("elapsedMs", Number (now - last)); ("reason", Text "Last cron run exceeds expected interval")]
      else result CheckOk 0 [("lastRun", Number last)]
  end.

Record checks := {
  ck_database : SubsystemCheck; ck_redis : SubsystemCheck; ck_filesystem : SubsystemCheck; ck_memory : SubsystemCheck;
  ck_websocket : SubsystemCheck; ck_cron : SubsystemCheck }.
Inductive overall := Healthy | Degraded | Unhealthy.
#[export] Instance overall_eq_dec : EqDecision overall.
Proof. solve_decision. Defined.
Definition not_ok (c : SubsystemCheck) : bool := negb (bool_decide (c.(sc_status) = CheckOk)).
Definition deriveOverallStatus (c : checks) : overall :=
  if existsb not_ok [c.(ck_database); c.(ck_redis)] then Unhealthy
  else if existsb not_ok [c.(ck_filesystem); c.(ck_memory); c.(ck_websocket); c.(ck_cron)] then Degraded
  else Healthy.

(** What the process and its surroundings are at the time of a request. *)
Record surroundings := {
  su_external : bool; su_select : answer unit; su_redis_available : bool; su_redis_status : string; su_ping : answer bool;
  su_access : answer unit; su_statfs : answer (Z * Z); su_heapUsed : Z; su_heapTotal : Z; su_wss : option Z; su_now : Z; su_uptime : Z;
  su_lastRun : option Z }.
Record health_response := { hr_code : Z; hr_status : overall; hr_checks : checks; hr_at : Z }.

Definition overall_timeout : SubsystemCheck := {| sc_status := CheckTimeout; sc_latency := OVERALL_TIMEOUT_MS; sc_details := [("reason", Text "Overall timeout")] |}.
Definition run_checks (s : surroundings) : checks * Z :=
  let d := withTimeout (checkDatabase s.(su_external) s.(su_select)) in
  let r := withTimeout (checkRedis s.(su_redis_available) s.(su_redis_status) s.(su_ping)) in
  let f := withTimeout (checkFilesystem s.(su_access) s.(su_statfs)) in
  let m := withTimeout (checkMemory s.(su_heapUsed) s.(su_heapTotal)) in
  let w := withTimeout (checkWebSocket s.(su_wss)) in
  let c := withTimeout (checkCron s.(su_now) s.(su_uptime) s.(su_lastRun)) in
  ({| ck_database := d.1; ck_redis := r.1; ck_filesystem := f.1; ck_memory := m.1; ck_websocket := w.1; ck_cron := c.1 |},
   foldl Z.max 0 [d.2; r.2; f.2; m.2; w.2; c.2]).
(** [GET /health]: the checks race with the timer over all of them. *)
Definition health (s : surroundings) : health_response :=
  let '(c, t) := run_checks s in
  let finalChecks := if t <? OVERALL_TIMEOUT_MS then c
    else {| ck_database := overall_timeout; ck_redis := overall_timeout; ck_filesystem := overall_timeout; ck_memory := overall_timeout;
            ck_websocket := overall_timeout; ck_cron := overall_timeout |} in
  let status := deriveOverallStatus finalChecks in
  {| hr_code := if bool_decide (status = Unhealthy) then 503 else 200; hr_status := status; hr_checks := finalChecks; hr_at := Z.min t OVERALL_TIMEOUT_MS |}.

(** *** The handlers of the application ([index.ts]) *)

Record probe_reply := { pb_code : Z; pb_status : string; pb_checks : list (string * string) }.

(** [healthHandler] looks at nothing. *)
Definition healthHandler : answer probe_reply := Answers 0 {| pb_code := 200; pb_status := "ok"; pb_checks := [] |}.

(** [readinessHandler]; [redis] and [queues] are [None] when the module cannot be loaded.  The
    statement has no timer. *)
Definition readinessHandler (select_1 : answer unit) (redis : option string) (queues : option bool) : answer probe_reply :=
  let reply healthy database := {|
    pb_code := if healthy : bool then 200 else 503; pb_status := if healthy then "ready" else "degraded";
    pb_checks := [("database", database);
      ("redis", match redis with
                | Some status => if bool_decide (status = "connected") then "ok" else "not_connected"
                | None => "unavailable" end);
      ("queues", match queues with Some isInitialized => if isInitialized : bool then "ok" else "not_initialized"
                 | None => "unavailable" end)] |} in
  match select_1 with
  | Answers t _ => Answers t (reply true "ok")
  | Fails t _ => Answers t (reply false "failed")
  | Hangs => Hangs
  end.

(** The handlers in the order they are registered: the router with the report is mounted when
    the server starts, after the others.  Paths are relative to [/api]. *)
Inductive health_handler := Light | Readiness | Report.
#[export] Instance health_handler_eq_dec : EqDecision health_handler.
Proof. solve_decision. Defined.
Definition health_routes : list (string * health_handler) :=
  [("/health", Light); ("/v1/health", Light); ("/health/ready", Readiness); ("/v1/health/ready", Readiness); ("/v1/health", Report)].

(** A route matches in any case and with or without a slash at the end. *)
Definition route_matches (pattern path : string) : bool :=
  bool_decide (toLowerCase path = pattern) || bool_decide (toLowerCase path = pattern +:+ "/").

(** The handler of a GET request below [/api], after the two handlers of versions. *)
Definition handler_of (url : string) : option health_handler :=
  match unsupportedVersionHandler (url_path url) with
  | Next => snd <$> select_one (λ r, route_matches r.1 (url_path (versionFallbackRewrite url))) health_routes
  | _ => None
  end.

Definition get_health (s : surroundings) (redis : option string) (queues : option bool) (url : string) : option (answer probe_reply) :=
  match handler_of url with
  | Some Light => Some healthHandler
  | Some Readiness => Some (readinessHandler s.(su_select) redis queues)
  | Some Report => let r := health s in
      Some (Answers r.(hr_at) {| pb_code := r.(hr_code); pb_checks := [];
        pb_status := match r.(hr_status) with Healthy => "healthy" | Degraded => "degraded" | Unhealthy => "unhealthy" end |})
  | None => None
  end.

(** ** Properties *)

Lemma timeout_settles a : (withTimeout a).2 ≤ CHECK_TIMEOUT_MS.
Proof. unfold withTimeout. destruct a as [t v|t m|]; [destruct (t <? CHECK_TIMEOUT_MS) eqn:H; cbn; bools; lia..|done]. Qed.

Lemma settles_max l : Forall (λ t, t ≤ CHECK_TIMEOUT_MS) l → ∀ m, m ≤ CHECK_TIMEOUT_MS → foldl Z.max m l ≤ CHECK_TIMEOUT_MS.
Proof. induction 1 as [|t l Ht _ IH]; intros m Hm; [done|]. cbn. apply IH. lia. Qed.

Lemma checks_settle s : (run_checks s).2 ≤ CHECK_TIMEOUT_MS.
Proof. cbn -[foldl CHECK_TIMEOUT_MS withTimeout]. apply settles_max; [|done]. repeat constructor; apply timeout_settles. Qed.

(** When a check is fine: its subsystem answered in time and well. *)
Definition answered {A} (a : answer A) (good : Z → A → Prop) : Prop := ∃ t v, a = Answers t v ∧ t < CHECK_TIMEOUT_MS ∧ good t v.

Lemma timeout_ok a : not_ok (withTimeout a).1 = false ↔ answered a (λ _ r, r.(sc_status) = CheckOk).
Proof.
  unfold answered, not_ok, withTimeout. destruct a as [t r|t m|].
  - destruct (t <? CHECK_TIMEOUT_MS) eqn:Ht; cbn; bools; rewrite negb_false_iff, bool_decide_eq_true.
    + split; [intros H; by exists t, r|by intros (? & ? & [= <- <-] & _ & ?)].
    + split; [done|]. intros (? & ? & [= <- <-] & ? & _). lia.
  - destruct (t <? CHECK_TIMEOUT_MS); (split; [done|by intros (? & ? & ? & _)]).
  - split; [done|by intros (? & ? & ? & _)].
Qed.

Lemma database_ok b a : not_ok (withTimeout (checkDatabase b a)).1 = false ↔ answered a (λ _ _, True).
Proof. rewrite timeout_ok. unfold answered, checkDatabase, result. destruct a; cbn; naive_solver. Qed.
Lemma redis_ok b st a : not_ok (withTimeout (checkRedis b st a)).1 = false ↔ answered a (λ _ pong, pong = true).
Proof.
  rewrite timeout_ok. unfold answered, checkRedis, result. destruct a as [t pong| |]; cbn; [destruct pong|..]; naive_solver.
Qed.

(** The report is answered within two seconds, whichever subsystem hangs, so the timer over all
    the checks never decides; its code is 503 exactly when the database or Redis did not answer
    well in that time, and the status is healthy exactly when all six checks are fine. *)
Theorem health_answers s :
  let r := health s in
  r.(hr_at) <= CHECK_TIMEOUT_MS /\ r.(hr_checks) = (run_checks s).1 /\
  (r.(hr_code) = 503 <-> ~ (answered s.(su_select) (fun _ _ => True) /\ answered s.(su_ping) (fun _ pong => pong = true))) /\
  (r.(hr_code) <> 503 -> r.(hr_code) = 200) /\
  (r.(hr_status) = Healthy <->
     Forall (fun c => c.(sc_status) = CheckOk)
       [r.(hr_checks).(ck_database); r.(hr_checks).(ck_redis); r.(hr_checks).(ck_filesystem); r.(hr_checks).(ck_memory);
        r.(hr_checks).(ck_websocket); r.(hr_checks).(ck_cron)]).
Proof.
  cbn zeta. pose proof (checks_settle s) as Hs. unfold health. destruct (run_checks s) as [c t] eqn:Hrun. cbn [snd] in Hs.
  replace (t <? OVERALL_TIMEOUT_MS) with true by (symmetry; apply Z.ltb_lt; unfold OVERALL_TIMEOUT_MS, CHECK_TIMEOUT_MS in *; lia).
  cbn [hr_at hr_checks hr_code hr_status fst].
  assert (Hd : not_ok c.(ck_database) = false ↔ answered s.(su_select) (λ _ _, True)).
  { rewrite <- (database_ok s.(su_external)). by injection Hrun as <- _. }
  assert (Hr : not_ok c.(ck_redis) = false ↔ answered s.(su_ping) (λ _ pong, pong = true)).
  { rewrite <- (redis_ok s.(su_redis_available) s.(su_redis_status)). by injection Hrun as <- _. }
  split_and!.
  - lia.
  - done.
  - rewrite <- Hd, <- Hr. unfold deriveOverallStatus. cbn [existsb].
    destruct (not_ok (ck_database c)), (not_ok (ck_redis c)); cbn; [naive_solver..|]. destruct (_ || _); cbn; naive_solver.
  - by case_bool_decide.
  - unfold deriveOverallStatus. cbn [existsb]. unfold not_ok. rewrite !Forall_cons, Forall_nil.
    repeat case_bool_decide; cbn; naive_solver.
Qed.

(** The report is behind a handler with the same pattern. *)
Lemma report_is_shadowed url : handler_of url ≠ Some Report.
Proof.
  unfold handler_of. destruct (unsupportedVersionHandler _); [|done..]. generalize (url_path (versionFallbackRewrite url)).
  intros path. unfold select_one, health_routes. cbn [List.find fst].
  destruct (route_matches "/health" path), (route_matches "/v1/health" path), (route_matches "/health/ready" path),
    (route_matches "/v1/health/ready" path); done.
Qed.


(** ** Runs of the definitions *)

Module Checks.
Definition calm : surroundings :=
  {| su_external := true; su_select := Answers 3 tt; su_redis_available := true; su_redis_status := "ready"; su_ping := Answers 1 true;
     su_access := Answers 1 tt; su_statfs := Answers 1 (1000000, 4096); su_heapUsed := 50; su_heapTotal := 100; su_wss := Some 4;
     su_now := 100000000; su_uptime := 1000; su_lastRun := None |}.
Definition full_heap : surroundings :=
  {| su_external := true; su_select := Hangs; su_redis_available := false; su_redis_status := "closed"; su_ping := Answers 1 false;
     su_access := Fails 1 ""; su_statfs := Hangs; su_heapUsed := 95; su_heapTotal := 100; su_wss := None;
     su_now := 100000000; su_uptime := 1000; su_lastRun := Some 0 |}.

Theorem health_runs :
  (health calm).(hr_status) = Healthy ∧ (health calm).(hr_at) = 3 ∧
  (health full_heap).(hr_code) = 503 ∧ (health full_heap).(hr_at) = 2000 ∧
  (health full_heap).(hr_checks).(ck_filesystem).(sc_details) = [("reason", Text "Unknown error")] ∧
  (health full_heap).(hr_checks).(ck_database) = timed_out.
Proof. by vm_compute. Qed.

(** With the database and Redis down the health endpoint says that all is well. *)
Example health_hides_outage :
  (health full_heap).(hr_code) = 503 ∧
  get_health full_heap (Some "closed") None "/v1/health" = Some (Answers 0 {| pb_code := 200; pb_status := "ok"; pb_checks := [] |}).
Proof. by vm_compute. Qed.

(** Half a megabyte less than the announced minimum still passes, because the space is
    rounded before it is compared. *)
Theorem free_space_is_rounded :
  match checkFilesystem (Answers 0 tt) (Answers 0 (99 * MB + MB / 2, 1)) with
  | Answers _ r => r.(sc_status) = CheckOk ∧ ("freeSpaceMB", Number 100) ∈ r.(sc_details)
  | _ => False
  end.
Proof. split; [done|]. right. by left. Qed.
End Checks.
