(* ===== verification/Uploads.v ===== *)
(** * Uploads ([utils/serverUtils.ts])

    What is accepted, the name under which it is stored, and the encrypted variant with its
    row in [encrypted_files].  The label Magika gives to the bytes, the move of the file by
    the upload middleware, random names, the statement that inserts the row and the unlink
    after it are arguments; the cipher is that of [FileEncryption.v]. *)

From S2P Require Import Prelude JsMap JsStrings Encodings PathGate Paths FileEncryption.
Local Open Scope Z_scope.

Definition ALLOWED_EXTENSIONS : list string :=
  [".jpg"; ".jpeg"; ".png"; ".gif"; ".webp"; ".pdf"; ".doc"; ".docx"; ".xls"; ".xlsx"; ".txt"; ".csv"].
Definition EXT_TO_MAGIKA_LABEL : list (string * list string) :=
  [(".jpg", ["jpeg"; "jpg"]); (".jpeg", ["jpeg"; "jpg"]); (".png", ["png"]); (".gif", ["gif"]); (".webp", ["webp"]); (".pdf", ["pdf"]);
   (".doc", ["doc"; "msword"; "unknown"; "rtf"]); (".docx", ["docx"; "zip"; "unknown"]); (".xls", ["xls"; "unknown"]);
   (".xlsx", ["xlsx"; "zip"; "unknown"]); (".txt", ["txt"; "txt"; "csv"; "unknown"; "empty"]); (".csv", ["csv"; "txt"; "unknown"; "empty"])].
Definition MIME_TO_EXT : list (string * list string) :=
  [("image/jpeg", [".jpg"; ".jpeg"]); ("image/png", [".png"]); ("image/gif", [".gif"]); ("image/webp", [".webp"]); ("application/pdf", [".pdf"]);
   ("application/msword", [".doc"]); ("application/vnd.openxmlformats-officedocument.wordprocessingml.document", [".docx"]);
   ("application/vnd.ms-excel", [".xls"]); ("application/vnd.openxmlformats-officedocument.spreadsheetml.sheet", [".xlsx"]);
   ("text/plain", [".txt"]); ("text/csv", [".csv"])].
(** The labels that stop an upload. *)
Definition DANGEROUS_LABELS : list string := ["elf"; "pebin"; "macho"; "javascript"; "php"; "html"].

Record upload := { fl_name : string; fl_mimetype : string; fl_data : bytes; fl_size : Z }.

(** [path.extname]: from the last dot of the last segment, unless nothing precedes it or the segment is [..]. *)
Definition path_extname (p : string) : string :=
  let base := chars (path_basename p) in
  let after := take_while (λ c, negb (bool_decide (c = "."%char))) (rev base) in
  match drop (length after) (rev base) with
  | [] | [_] => ""
  | _ :: _ :: _ => if bool_decide (base = ["."%char; "."%char]) then "" else of_chars ("."%char :: rev after)
  end.
(** [path.basename(p, ext)] for an extension that is not the whole name. *)
Definition path_basename_without (p ext : string) : string :=
  let base := path_basename p in
  let (stem, end_) := (take (String.length base - String.length ext) (chars base), drop (String.length base - String.length ext) (chars base)) in
  if bool_decide (end_ = chars ext ∧ stem ≠ []) then of_chars stem else base.
(** [s.replace(/[^a-zA-Z0-9]/g, '_')]: one for every UTF-16 unit. *)
Definition plain_name (s : string) : string :=
  of_chars (flat_map (λ c, if is_alnum c then [c] else replicate (utf16_units c) "_"%char) (chars s)).

Section uploads.
Context {key : Type} (seal : key → bytes → bytes → bytes * bytes) (sha256 : bytes → string) (uploadDir : string).

Record encrypted_row := {
  ex_id : string; ex_name : string; ex_mime : string; ex_size : Z; ex_path : string; ex_iv : string; ex_tag : string; ex_checksum : string;
  ex_version : Z; ex_by : string; ex_module : string }.
Record upload_state := { us_enc : @enc_state key; us_rows : list encrypted_row }.
Abbreviation upload_action := (action app_error upload_state).
Definition with_enc (e : @enc_state key) (s : upload_state) : upload_state := {| us_enc := e; us_rows := s.(us_rows) |}.

(** What Magika answers: it is not there, it fails, or it names a label. *)
Inductive identification := NoMagika | MagikaFails | Labelled (label : string).

Definition check_content (rawExt : string) (i : identification) : upload_action unit :=
  match i with
  | Labelled label =>
      ensure (bool_decide (label = "") || bool_decide (label ∈ default [] (map_get rawExt EXT_TO_MAGIKA_LABEL)) || negb (bool_decide (label ∈ DANGEROUS_LABELS)))
        (ValidationError ("File content does not match extension (detected: " +:+ label +:+ ")"))
  | NoMagika | MagikaFails => mret tt
  end.
(** The checks of both variants; the result is the extension. *)
Definition check_upload (file : upload) (i : identification) : upload_action string :=
  let rawExt := toLowerCase (path_extname file.(fl_name)) in
  _ ← ensure (bool_decide (rawExt ∈ ALLOWED_EXTENSIONS)) (ValidationError ("Extension " +:+ rawExt +:+ " is not allowed"));
  _ ← ensure (match map_get file.(fl_mimetype) MIME_TO_EXT with Some expectedExts => bool_decide (rawExt ∈ expectedExts) | None => false end)
        (ValidationError ("Mime-type mismatch for extension " +:+ rawExt));
  _ ← check_content rawExt i;
  mret rawExt.

(** [hex] are the eight random digits; [moved] is what [file.mv] answers. *)
Definition stored_name (now : Z) (hex : string) (name rawExt : string) : string :=
  pretty (Z.to_N now) +:+ "-" +:+ hex +:+ "-" +:+ plain_name (path_basename_without name rawExt) +:+ rawExt.
Definition createSaveFile (now : Z) (hex : string) (moved : outcome string unit) (i : identification) (file : upload) : upload_action string :=
  rawExt ← check_upload file i;
  let fileName := stored_name now hex file.(fl_name) rawExt in
  match moved with
  | Throw e => throw (GenericError e)
  | Ok _ =>
      _ ← modify (λ s, with_enc (with_disk (map_set (path_join uploadDir [fileName]) file.(fl_data) s.(us_enc).(es_disk)) s.(us_enc)) s);
      mret ("/uploads/" +:+ fileName)
  end.

(** [file.size || fileBuffer.length] *)
Definition upload_size (file : upload) : Z := if file.(fl_size) =? 0 then Z.of_nat (length file.(fl_data)) else file.(fl_size).
(** The encryption is a call of the service; it takes the state of the service only. *)
Definition encrypt (file : upload) (fileId : string) (iv : bytes) (now : string) : upload_action (string * EncryptionMetadata) := λ s,
  match encryptFile seal sha256 uploadDir file.(fl_data)
          {| ef_fileId := fileId; ef_originalName := file.(fl_name); ef_mimeType := file.(fl_mimetype); ef_size := upload_size file; ef_keyVersion := 1 |} iv now s.(us_enc) with
  | (Ok r, e) => (Ok r, with_enc e s)
  | (Throw m, e) => (Throw (GenericError m), with_enc e s)
  end.
Definition unlink (p : string) (s : upload_state) : upload_state := with_enc (with_disk (map_delete p s.(us_enc).(es_disk)) s.(us_enc)) s.

(** [accepts] is what the table says to the row; [unlinks] whether the clean-up works. *)
Definition createEncryptedSaveFile (accepts : encrypted_row → outcome string unit) (unlinks : bool) (now : Z) (isoNow hex fileId : string) (iv : bytes)
    (moved : outcome string unit) (i : identification) (module uploadedBy : option string) (file : upload) : upload_action string :=
  s ← get_state;
  match s.(us_enc).(es_key) with
  | None => createSaveFile now hex moved i file
  | Some _ =>
      _ ← check_upload file i;
      r ← encrypt file fileId iv isoNow;
      let row := {| ex_id := fileId; ex_name := file.(fl_name); ex_mime := file.(fl_mimetype); ex_size := upload_size file; ex_path := r.1;
                    ex_iv := r.2.(em_iv); ex_tag := r.2.(em_authTag); ex_checksum := r.2.(em_checksum); ex_version := 1;
                    ex_by := match uploadedBy with Some t => if bool_decide (t = "") then "system" else t | None => "system" end;
                    ex_module := match module with Some t => if bool_decide (t = "") then "audit" else t | None => "audit" end |} in
      _ ← match accepts row with
          | Ok _ => modify (λ s, {| us_enc := s.(us_enc); us_rows := s.(us_rows) ++ [row] |})
          | Throw e =>
              _ ← (if unlinks then modify (unlink r.1) else mret tt);
              throw (GenericError e)
          end;
      mret ("/uploads/" +:+ path_basename r.1)
  end.
End uploads.

(** ** Properties *)

Lemma plain_name_chars s c : c ∈ chars (plain_name s) → is_alnum c = true ∨ c = "_"%char.
Proof.
  unfold plain_name. rewrite chars_of_chars. intros (x & Hx & Hin)%list_elem_of_In%in_flat_map. apply list_elem_of_In in Hx.
  destruct (is_alnum x) eqn:Ha.
  - destruct Hin as [<-|[]]. by left.
  - right. apply repeat_spec in Hin || apply list_elem_of_In, elem_of_replicate in Hin as [-> _]; done.
Qed.

Lemma allowed_no_slash ext : ext ∈ ALLOWED_EXTENSIONS → "/"%char ∉ chars ext.
Proof.
  assert (H : Forall (λ e, "/"%char ∉ chars e) ALLOWED_EXTENSIONS) by (apply (bool_decide_unpack _); by vm_compute).
  rewrite Forall_forall in H. apply H.
Qed.

Section contained.
Context {key : Type} (seal : key → bytes → bytes → bytes * bytes) (open_ : key → bytes → bytes → bytes → option bytes) (sha256 : bytes → string).
Context (uploadDir : string) (dir : list string) (Hdir : Forall segment_ok dir) (Hupload : uploadDir = abs_path dir).

Lemma stored_name_ok now hex name ext : all_chars is_alnum hex = true → ext ∈ ALLOWED_EXTENSIONS → segment_ok (stored_name now hex name ext).
Proof.
  intros Hhex Hext. assert (Hlen : (2 < String.length (stored_name now hex name ext))%nat).
  { unfold stored_name. rewrite !app_length_str. cbn [String.length]. assert (H : Forall (λ e, (1 < String.length e)%nat) ALLOWED_EXTENSIONS).
    { apply (bool_decide_unpack _). by vm_compute. } rewrite Forall_forall in H. specialize (H ext Hext). cbn beta in H. lia. }
  split_and!; [by intros H; rewrite H in Hlen; cbn in Hlen; lia..|].
  unfold stored_name. rewrite !chars_app, !elem_of_app. intros [H|[H|[H|[H|[H|H]]]]].
  - revert H. apply (all_chars_not_in is_digit); [apply pretty_digits|done].
  - by apply (bool_decide_pack _) in H.
  - revert H. by apply (all_chars_not_in is_alnum).
  - by apply (bool_decide_pack _) in H.
  - apply plain_name_chars in H as [H|H]; done.
  - by apply (allowed_no_slash ext).
Qed.

Lemma check_upload_run file i (s : @upload_state key) :
  match check_upload file i s with
  | (Ok ext, s') => s' = s ∧ ext = toLowerCase (path_extname file.(fl_name)) ∧ ext ∈ ALLOWED_EXTENSIONS ∧
      (∃ l, map_get file.(fl_mimetype) MIME_TO_EXT = Some l ∧ ext ∈ l) ∧
      (∀ label, i = Labelled label → label ∈ DANGEROUS_LABELS → label ∈ default [] (map_get ext EXT_TO_MAGIKA_LABEL))
  | (Throw e, s') => s' = s ∧ ∃ m, e = ValidationError m
  end.
Proof.
  unfold check_upload. rewrite ensure_bind. case_bool_decide as Hext; [|eauto]. rewrite ensure_bind.
  destruct (map_get (fl_mimetype file) MIME_TO_EXT) as [l|] eqn:Hm; [|eauto]. case_bool_decide as Hl; [|eauto].
  destruct i as [| |label]; cbn [check_content].
  1,2: split_and!; [done|done|done|by exists l|intros ? [=]].
  rewrite ensure_bind. destruct (_ || _ || _) eqn:Hc; [|eauto]. split_and!; [done|done|done|by exists l|]. intros ? [= <-] Hd.
  rewrite (bool_decide_eq_true_2 (label ∈ DANGEROUS_LABELS)) in Hc by done.
  rewrite orb_false_r in Hc. apply orb_true_iff in Hc as [->%bool_decide_eq_true|Hc%bool_decide_eq_true]; [|done].
  by apply (bool_decide_pack _) in Hd.
Qed.

(** C37: a file that is accepted is stored, with the bytes received, under one name directly
    inside the upload directory, whatever name the client gave it, with an extension that is
    allowed and fits the MIME type, and only if the recognition of its bytes, when it ran, did
    not give one of the six labels that count as dangerous; other programs pass. A file that
    is refused leaves the disk as it was, and so does one that cannot be moved, on the
    assumption that a failed move writes nothing. *)
Theorem saved_file_is_contained now hex moved i file (s : @upload_state key) (Hhex : all_chars is_alnum hex = true) :
  match createSaveFile uploadDir now hex moved i file s with
  | (Ok p, s') =>
      exists name, p = "/uploads/" +:+ name /\ segment_ok name /\
        s'.(us_enc).(es_disk) = map_set (abs_path (dir ++ [name])) file.(fl_data) s.(us_enc).(es_disk) /\ s'.(us_rows) = s.(us_rows) /\
        (exists ext l stem, name = stem +:+ ext /\ ext ∈ ALLOWED_EXTENSIONS /\ map_get file.(fl_mimetype) MIME_TO_EXT = Some l /\ ext ∈ l) /\
        (forall label, i = Labelled label -> label ∉ DANGEROUS_LABELS)
  | (Throw _, s') => s' = s
  end.
Proof.
  unfold createSaveFile. unfold mbind at 1, action_bind at 1. pose proof (check_upload_run file i s) as Hc.
  destruct (check_upload file i s) as [[ext|e] s1]; [|by destruct Hc]. destruct Hc as (-> & Hext & Hin & (l & Hl & Hmime) & Hlabel).
  destruct moved as [u|e]; [|done]. run_action.
  pose proof (stored_name_ok now hex file.(fl_name) ext Hhex Hin) as Hok. exists (stored_name now hex file.(fl_name) ext). split_and!; [done|exact Hok| |done| |].
  - do 2 f_equal. rewrite Hupload. apply join_abs; [done|by constructor|done].
  - exists ext, l, (pretty (Z.to_N now) +:+ "-" +:+ hex +:+ "-" +:+ plain_name (path_basename_without file.(fl_name) ext)).
    split_and!; [|done..]. unfold stored_name. by rewrite !app_assoc_str.
  - intros label Hi Hd. specialize (Hlabel label Hi Hd). revert Hlabel Hin Hd. clear. intros Hlabel Hin Hd.
    assert (H : Forall (λ e, Forall (λ d, d ∉ default [] (map_get e EXT_TO_MAGIKA_LABEL)) DANGEROUS_LABELS) ALLOWED_EXTENSIONS) by (apply (bool_decide_unpack _); by vm_compute).
    rewrite Forall_forall in H. specialize (H ext Hin). cbn beta in H. rewrite Forall_forall in H. by apply (H label).
Qed.

Context (Htag : ∀ k iv p, length (seal k iv p).2 = AUTH_TAG_LENGTH).
Context (Hopen : ∀ k iv p, open_ k iv (seal k iv p).2 (seal k iv p).1 = Some p).

Lemma delete_fresh {V} (p : string) (v : V) m : map_get p m = None → map_delete p (map_set p v m) = m.
Proof.
  intros Hp%map_get_None. rewrite map_set_absent by done. unfold map_delete. rewrite List.filter_app. cbn. rewrite bool_decide_eq_true_2 by done. cbn.
  rewrite app_nil_r. by apply map_delete_absent.
Qed.

(** with a key configured, an upload either leaves the encrypted file, which reads back as
    what was sent, together with its one row, and answers the path of the file; or it leaves
    no row and, when the clean-up works, no file. *)
Theorem encrypted_upload_all_or_nothing accepts now isoNow hex fileId iv moved i module by_ file (s : @upload_state key)
  (Hkey : s.(us_enc).(es_key) <> None) (Hid : id_ok fileId) (Hiv : length iv = IV_LENGTH)
  (Hfresh : map_get (enc_path uploadDir fileId) s.(us_enc).(es_disk) = None) :
  match createEncryptedSaveFile seal sha256 uploadDir accepts true now isoNow hex fileId iv moved i module by_ file s with
  | (Ok p, s') =>
      p = "/uploads/" +:+ fileId +:+ ".enc" /\
      (forall previous, readable open_ sha256 uploadDir previous s'.(us_enc) fileId file.(fl_data)) /\
      exists row, s'.(us_rows) = s.(us_rows) ++ [row] /\ row.(ex_id) = fileId /\ row.(ex_path) = enc_path uploadDir fileId /\ accepts row = Ok tt
  | (Throw _, s') => s'.(us_rows) = s.(us_rows) /\ s'.(us_enc).(es_disk) = s.(us_enc).(es_disk)
  end.
Proof.
  unfold createEncryptedSaveFile. rewrite (ok_bind get_state _ s s s) by done. destruct (es_key (us_enc s)) as [k|] eqn:Hk; [|done].
  unfold mbind at 1, action_bind at 1. pose proof (check_upload_run file i s) as Hc.
  destruct (check_upload file i s) as [[ext|e] s1]; [destruct Hc as (-> & _)|by destruct Hc as (-> & _)].
  unfold mbind at 1, action_bind at 1. unfold encrypt. set (input := {| ef_fileId := fileId |}).
  destruct (encryptFile seal sha256 uploadDir (fl_data file) input iv isoNow (us_enc s)) as [r e] eqn:Hrun.
  assert (Hread := Hrun). unfold encryptFile, writeFile, setMetadata in Hrun. unfold mbind, action_bind in Hrun.
  unfold get_state at 1 in Hrun. cbn beta iota in Hrun. rewrite Hk in Hrun. cbn beta iota zeta delta [modify mret action_ret] in Hrun.
  injection Hrun as <- He. apply (encrypted_file_reads_back seal open_ sha256 Htag Hopen uploadDir dir Hdir Hupload) in Hread as [Hread _]; [|exact Hid|done|exact Hiv].
  set (row := {| ex_id := fileId |}). destruct (accepts row) as [[]|m] eqn:Hacc.
  - cbn beta iota zeta delta [mbind action_bind modify mret action_ret]. split_and!.
    + f_equal. cbn [fst]. rewrite (enc_path_abs uploadDir dir Hdir Hupload) by apply Hid. apply basename_snoc, enc_segment, Hid.
    + exact Hread.
    + exists row. by split_and!.
  - cbn. split; [done|]. rewrite <- He. cbn. by apply delete_fresh.
Qed.
End contained.

(** ** Runs of the definitions *)

Module Files.
Definition pdf (name : string) : upload := {| fl_name := name; fl_mimetype := "application/pdf"; fl_data := chars "data"; fl_size := 4 |}.
Definition start (k : option ascii) : @upload_state ascii :=
  {| us_enc := {| es_key := k; es_previous := None; es_metadata := []; es_disk := [] |}; us_rows := [] |}.
Abbreviation save name := (createSaveFile Sealed.up 7 "0a" (Ok tt) NoMagika (pdf name) (start (@None ascii))).1.
Abbreviation save_encrypted accepts unlinks k := (createEncryptedSaveFile Sealed.seal Sealed.sum Sealed.up accepts unlinks 7 "t" "0a" "id" Sealed.iv (Ok tt) NoMagika None None (pdf "a.pdf") (start k)).

Theorem upload_runs :
  save "report.pdf" = Ok "/uploads/7-0a-report.pdf" ∧ save "../../etc/x.PDF" = Ok "/uploads/7-0a-x_PDF.pdf" ∧
  save "a.pdf/.." = Throw (ValidationError "Extension  is not allowed") ∧ save ".pdf" = Throw (ValidationError "Extension  is not allowed") ∧
  save "run.exe" = Throw (ValidationError "Extension .exe is not allowed") ∧
  save "a.png" = Throw (ValidationError "Mime-type mismatch for extension .png") ∧
  (save_encrypted (λ _, Ok tt) true (Some "k"%char)).1 = Ok "/uploads/id.enc".
Proof. by vm_compute. Qed.

(** Bytes that are recognised as another kind of file pass unless the kind is one of six; and
    where the clean-up fails a refused row leaves the encrypted file behind. *)
Theorem upload_gaps :
  is_ok (createSaveFile Sealed.up 7 "0a" (Ok tt) (Labelled "python") (pdf "a.pdf") (start None)).1 = true ∧
  (let '(r, s) := save_encrypted (λ _, Throw "down") false (Some "k"%char) in
   r = Throw (GenericError "down") ∧ s.(us_rows) = [] ∧ keys s.(us_enc).(es_disk) = ["/up/id.enc"]).
Proof. by vm_compute. Qed.
End Files.

Lemma saved_file_is_contained_witness :
  exists name, segment_ok name /\ "/uploads/7-0a-x_PDF.pdf" = "/uploads/" +:+ name.
Proof.
  assert (Hdir : Forall segment_ok ["up"]) by (apply (bool_decide_unpack _); by vm_compute).
  pose proof (saved_file_is_contained Sealed.up ["up"] Hdir eq_refl 7 "0a" (Ok tt) NoMagika (Files.pdf "../../etc/x.PDF") (Files.start None) eq_refl) as H.
  destruct (createSaveFile _ _ _ _ _ _ _) as [[p|e] s'] eqn:Hrun.
  - destruct H as (name & Hp & Hok & _). exists name. split; [exact Hok|]. rewrite <- Hp. revert Hrun. vm_compute. by intros [= <- _].
  - exfalso. revert Hrun. vm_compute. discriminate.
Defined.

Lemma encrypted_upload_all_or_nothing_witness :
  exists s', createEncryptedSaveFile Sealed.seal Sealed.sum Sealed.up (λ _, Ok tt) true 7 "t" "0a" "id" Sealed.iv (Ok tt) NoMagika None None (Files.pdf "a.pdf")
      (Files.start (Some "k"%char)) = (Ok "/uploads/id.enc", s') /\
    readable Sealed.open_ Sealed.sum Sealed.up None s'.(us_enc) "id" (chars "data").
Proof.
  assert (Hdir : Forall segment_ok ["up"]) by (apply (bool_decide_unpack _); by vm_compute).
  assert (Hid : id_ok "id").
  { split; [apply (bool_decide_unpack _); by vm_compute|]. intros a Ha. apply (f_equal String.length) in Ha. rewrite app_length_str in Ha. cbn in Ha. lia. }
  pose proof (encrypted_upload_all_or_nothing Sealed.seal Sealed.open_ Sealed.sum Sealed.up ["up"] Hdir eq_refl Sealed.seal_tag Sealed.seal_open
    (λ _, Ok tt) 7 "t" "0a" "id" Sealed.iv (Ok tt) NoMagika None None (Files.pdf "a.pdf") (Files.start (Some "k"%char)) ltac:(done) Hid eq_refl eq_refl) as H.
  destruct (createEncryptedSaveFile _ _ _ _ _ _ _ _ _ _ _ _ _ _ _ _) as [[p|e] s'] eqn:Hrun.
  - destruct H as (-> & Hread & _). exists s'. split; [done|]. apply Hread.
  - exfalso. revert Hrun. vm_compute. discriminate.
Defined.
