(* ===== verification/OrgTree.v ===== *)
(** * The organization chart ([services/DepartmentService.ts], [services/OrgService.ts],
    [routes/departments.ts], [routes/orgEntities.ts])

    The entities with their parents, the two services that write them and the tree built
    from the rows.  The recursion of [buildTree] runs on fuel; that it always ends is a
    theorem.  Keys, the clock and the cast to [uuid] are arguments, the entries of the audit
    trail a list. *)

From S2P Require Import Prelude JsMap JsStrings OrderBy UserDirectory.
Local Open Scope Z_scope.

(** ** Tables *)

Record entity := {
  en_id : string; en_code : string; en_name_ar : string; en_name_en : string; en_type : string; en_parent : option string; en_manager : option string;
  en_manager_name : option string; en_level : option Z; en_status : option string; en_description : option string; en_order : option Z;
  en_location : option string; en_cost_center : option string; en_notes : option string }.
(** The links of a user to the chart. *)
Record org_user := { ou_id : string; ou_name : string; ou_entity : option string; ou_division : option string; ou_unit : option string }.
Record org_db := { og_entities : list entity; og_users : list org_user; og_audit : list (string * string * string) }.
Abbreviation org_action := (action app_error org_db).
Definition with_entities (l : list entity) (s : org_db) : org_db := {| og_entities := l; og_users := s.(og_users); og_audit := s.(og_audit) |}.
Definition org_audit (user act details : string) : org_action unit :=
  modify (λ s, {| og_entities := s.(og_entities); og_users := s.(og_users); og_audit := s.(og_audit) ++ [(user, act, details)] |}).

Definition has_entity_id (id : string) (e : entity) : bool := bool_decide (e.(en_id) = id).
(** [status != 'Archived'], which a null does not satisfy. *)
Definition live (e : entity) : bool := match e.(en_status) with Some t => negb (bool_decide (t = "Archived")) | None => false end.
Definition child_of (id : string) (e : entity) : bool := bool_decide (e.(en_parent) = Some id).

(** [entity_code] is unique and a parent is an entity of the table. *)
Definition parent_exists (l : list entity) (p : option string) : bool := match p with Some id => bool_decide (id ∈ map en_id l) | None => true end.
Definition foreign_key : app_error := GenericError "insert or update on table violates foreign key constraint org_entities_parent_id_fkey".
Definition not_null : app_error := GenericError "null value violates not-null constraint of org_entities".
Definition insert_entity (e : entity) : org_action unit :=
  s ← get_state;
  _ ← ensure (negb (bool_decide (e.(en_id) ∈ map en_id s.(og_entities)))) (duplicate "org_entities_pkey");
  _ ← ensure (negb (bool_decide (e.(en_code) ∈ map en_code s.(og_entities)))) (duplicate "org_entities_entity_code_key");
  _ ← ensure (parent_exists (s.(og_entities) ++ [e]) e.(en_parent)) foreign_key;
  modify (λ s, with_entities (s.(og_entities) ++ [e]) s).
(** [UPDATE org_entities SET .. WHERE id = ?]; [None] is a row with a null where none may be. *)
Definition write_entity (id : string) (f : entity → option entity) : org_action unit :=
  s ← get_state;
  match select_one (has_entity_id id) s.(og_entities) with
  | None => mret tt
  | Some e =>
      match f e with
      | None => throw not_null
      | Some e' =>
          _ ← ensure (negb (bool_decide (e'.(en_code) ∈ map en_code (delete_where (has_entity_id id) s.(og_entities))))) (duplicate "org_entities_entity_code_key");
          _ ← ensure (parent_exists s.(og_entities) e'.(en_parent)) foreign_key;
          modify (λ s, with_entities (update_where (has_entity_id id) (λ _, e') s.(og_entities)) s)
      end
  end.
Definition with_status (t : string) (e : entity) : entity :=
  {| en_id := e.(en_id); en_code := e.(en_code); en_name_ar := e.(en_name_ar); en_name_en := e.(en_name_en); en_type := e.(en_type); en_parent := e.(en_parent);
     en_manager := e.(en_manager); en_manager_name := e.(en_manager_name); en_level := e.(en_level); en_status := Some t;
     en_description := e.(en_description); en_order := e.(en_order); en_location := e.(en_location); en_cost_center := e.(en_cost_center); en_notes := e.(en_notes) |}.

(** ** Reading *)

(** [ORDER BY] the first, then the second. *)
Definition then_by {A B} (lt1 : A → A → bool) (lt2 : B → B → bool) (a b : A * B) : bool := lt1 a.1 b.1 || (negb (lt1 b.1 a.1) && lt2 a.2 b.2).
Definition text_codes (t : string) : list N := map code (chars t).
(** [DepartmentService.getAll]; [answers] is false when the statement fails. *)
Definition getAll (answers : bool) (s : org_db) : list entity :=
  if answers then
    take 2000 (order_by (λ e, (e.(en_level), (e.(en_order), text_codes e.(en_name_ar))))
                 (then_by (nullable_lt Z.ltb) (then_by (nullable_lt Z.ltb) (lex N.ltb))) (select live s.(og_entities)))
  else [].

#[warnings="-automatic-prop-lowering"]
Inductive tree := Node (e : entity) (children : list tree).
Fixpoint buildTree (fuel : nat) (nodes : list entity) (parent : option string) : option (list tree) :=
  match fuel with
  | O => None
  | S fuel' => mapM (λ e, Node e <$> buildTree fuel' nodes (Some e.(en_id))) (List.filter (λ e, bool_decide (e.(en_parent) = parent)) nodes)
  end.
Definition getTree (fuel : nat) (answers : bool) (s : org_db) : option (list tree) := buildTree fuel (getAll answers s) None.

(** [OrgService.getOrgEntities]: the entity, the names of its parent and of its manager. *)
Definition getOrgEntities (limit : Z) (s : org_db) : list (entity * option (string * string) * option string) :=
  let safeLimit := Z.min (Z.max (if limit =? 0 then 1000 else limit) 1) 2000 in
  let rows := order_by (λ e, (e.(en_order), text_codes e.(en_name_ar))) (then_by (nullable_lt Z.ltb) (lex N.ltb)) s.(og_entities) in
  map (λ e, (e, (p ← e.(en_parent); (λ x, (x.(en_name_ar), x.(en_name_en))) <$> select_one (has_entity_id p) s.(og_entities)),
             (m ← e.(en_manager); ou_name <$> select_one (λ u, bool_decide (u.(ou_id) = m)) s.(og_users)))) (take (Z.to_nat safeLimit) rows).

(** ** The services and their routes *)

Section service.
Context (uuid_ok : string → bool).

Definition cast_entity (id : string) : org_action unit := ensure (uuid_ok id) (GenericError "invalid input syntax for type uuid").

(** A body of [/departments]: for the parent, absent and [null] differ. *)
Record dept_body := {
  db_name : option string; db_code : option string; db_name_ar : option string; db_name_en : option string; db_type : option string;
  db_parent : option (option string); db_manager_name : option string; db_description : option string; db_location : option string;
  db_cost_center : option string; db_status : option string }.
Definition sized (least most : nat) (v : option string) : bool :=
  match v with Some t => bool_decide (least ≤ utf16_length t ≤ most)%nat | None => true end.
Definition departmentBaseSchema (d : dept_body) : bool :=
  sized 1 255 d.(db_name) && sized 1 50 d.(db_code) && sized 1 255 d.(db_name_ar) && sized 0 255 d.(db_name_en) &&
  match d.(db_parent) with Some (Some p) => uuid_ok p | _ => true end &&
  match d.(db_status) with Some t => bool_decide (t ∈ ["Active"; "Inactive"; "Archived"]) | None => true end.
Definition departmentSchema (d : dept_body) : bool := departmentBaseSchema d && (truthy_text d.(db_name_ar) || truthy_text d.(db_name)).

(** The first of two that is there. *)
Definition coalesce {A} (a b : option A) : option A := match a with Some _ => a | None => b end.

(** [DepartmentService.create] with the body of its route; the schema sees to a name. *)
Definition department_level (parent : option string) (s : org_db) : Z :=
  match or_null parent with
  | Some p => match select_one (has_entity_id p) s.(og_entities) with Some e => default 0 e.(en_level) + 1 | None => 1 end
  | None => 1
  end.
Definition create_department (new_id user : string) (entity_code name_ar : string) (d : dept_body) : org_action unit :=
  s ← get_state;
  _ ← ensure (negb (bool_decide (entity_code ∈ map en_code s.(og_entities)))) (ValidationError "Entity code already exists");
  let parent := default None d.(db_parent) in
  _ ← insert_entity {|
        en_id := new_id; en_code := entity_code; en_name_ar := name_ar; en_name_en := default name_ar (or_null d.(db_name_en));
        en_type := default "Department" d.(db_type); en_parent := parent; en_manager := None; en_manager_name := d.(db_manager_name);
        en_level := Some (department_level parent s); en_status := Some "Active"; en_description := d.(db_description); en_order := Some 0;
        en_location := d.(db_location); en_cost_center := d.(db_cost_center); en_notes := None |};
  org_audit user "Created Org Entity" ("Created: " +:+ name_ar +:+ " (" +:+ entity_code +:+ ")").

(** [DepartmentService.update]: the columns the route passes on, each when it is there. *)
Definition updated_department (d : dept_body) (e : entity) : entity :=
  let or_old v old := default old v in
  {| en_id := e.(en_id); en_code := e.(en_code); en_name_ar := or_old (coalesce d.(db_name_ar) d.(db_name)) e.(en_name_ar);
     en_name_en := or_old d.(db_name_en) e.(en_name_en); en_type := or_old d.(db_type) e.(en_type);
     en_parent := default e.(en_parent) d.(db_parent); en_manager := e.(en_manager); en_manager_name := coalesce d.(db_manager_name) e.(en_manager_name);
     en_level := e.(en_level); en_status := coalesce d.(db_status) e.(en_status); en_description := coalesce d.(db_description) e.(en_description);
     en_order := e.(en_order); en_location := coalesce d.(db_location) e.(en_location); en_cost_center := coalesce d.(db_cost_center) e.(en_cost_center);
     en_notes := e.(en_notes) |}.
Definition update_department (user id : string) (d : dept_body) : org_action unit :=
  _ ← cast_entity id;
  s ← get_state;
  _ ← ensure (bool_decide (id ∈ map en_id s.(og_entities))) (NotFoundError "Org entity not found");
  _ ← write_entity id (λ e, Some (updated_department d e));
  org_audit user "Updated Org Entity" ("Updated entity ID: " +:+ id).

Definition has_children (id : string) (s : org_db) : bool := 0 <? count_where (λ e, child_of id e && live e) s.(og_entities).
Definition delete_department (user id : string) : org_action unit :=
  _ ← cast_entity id;
  s ← get_state;
  _ ← ensure (negb (has_children id s)) (ValidationError "Cannot delete an entity that has sub-units. Move or delete them first.");
  _ ← write_entity id (λ e, Some (with_status "Archived" e));
  org_audit user "Archived Org Entity" ("Archived entity ID: " +:+ id).

(** A body of [/org-entities]; [is_active] is accepted and not used. *)
Record org_body := { ob_code : option string; ob_name_ar : option string; ob_name_en : option string; ob_type : option string; ob_parent : option string }.
Definition orgEntitySchema (partial : bool) (b : org_body) : bool :=
  (partial || (bool_decide (b.(ob_code) ≠ None) && bool_decide (b.(ob_name_ar) ≠ None))) &&
  sized 1 50 b.(ob_code) && sized 1 255 b.(ob_name_ar) && match b.(ob_parent) with Some p => uuid_ok p | None => true end.
(** The columns the schema knows; the schema drops every other key of the body, and what is
    undefined is stored as null. *)
Definition org_row (id : string) (level : option Z) (status : option string) (order : option Z) (b : org_body) : option entity :=
  match b.(ob_code), b.(ob_name_ar), b.(ob_name_en), b.(ob_type) with
  | Some code, Some ar, Some en, Some type =>
      Some {| en_id := id; en_code := code; en_name_ar := ar; en_name_en := en; en_type := type; en_parent := b.(ob_parent); en_manager := None;
              en_manager_name := None; en_level := level; en_status := status; en_description := None; en_order := order; en_location := None;
              en_cost_center := None; en_notes := None |}
  | _, _, _, _ => None
  end.
Definition is_unique_violation (e : app_error) : bool :=
  let m := toLowerCase (error_message e) in includes m "unique" || includes m "duplicate".
Definition createOrgEntity (new_id : string) (b : org_body) : org_action string :=
  s ← get_state;
  _ ← ensure (negb (bool_decide (default "" b.(ob_code) ∈ map en_code s.(og_entities)))) (ConflictError "Entity code must be unique");
  _ ← try_catch (match org_row new_id (Some 1) (Some "Active") (Some 0) b with
                 | Some e => insert_entity e
                 | None => throw not_null
                 end)
        (λ e, if is_unique_violation e then throw (ConflictError "Entity code must be unique") else throw e);
  mret new_id.
Definition updateOrgEntity (id : string) (b : org_body) : org_action unit :=
  _ ← ensure (negb (truthy_text b.(ob_parent) && bool_decide (b.(ob_parent) = Some id))) (ValidationError "An entity cannot be its own parent");
  _ ← cast_entity id;
  write_entity id (λ e, org_row e.(en_id) None None None b).
Definition linked_to (id : string) (u : org_user) : bool :=
  bool_decide (u.(ou_entity) = Some id) || bool_decide (u.(ou_division) = Some id) || bool_decide (u.(ou_unit) = Some id).
Definition deleteOrgEntity (id : string) : org_action unit :=
  _ ← cast_entity id;
  s ← get_state;
  _ ← ensure (negb (has_children id s)) (ValidationError "Cannot delete entity with sub-entities. Move or delete children first.");
  _ ← ensure (negb (0 <? count_where (linked_to id) s.(og_users))) (ValidationError "Cannot delete entity linked to users. Archive it instead.");
  write_entity id (λ e, Some (with_status "Archived" e)).

Inductive org_call :=
  | PostDepartment (new_id : string) (d : dept_body) | PutDepartment (id : string) (d : dept_body) | DeleteDepartment (id : string)
  | PostEntity (new_id : string) (b : org_body) | PutEntity (id : string) (b : org_body) | DeleteEntity (id : string).
Definition serve_org (now : Z) (user : string) (c : org_call) : org_action unit :=
  match c with
  | PostDepartment new_id d =>
      _ ← ensure (departmentSchema d) (ValidationError "Invalid data");
      create_department new_id user (default ("DEPT-" +:+ pretty (Z.to_N now)) d.(db_code)) (default "" (coalesce d.(db_name_ar) d.(db_name))) d
  | PutDepartment id d =>
      _ ← ensure (departmentBaseSchema d) (ValidationError "Invalid data");
      update_department user id d
  | DeleteDepartment id => delete_department user id
  | PostEntity new_id b =>
      _ ← ensure (orgEntitySchema false b) (ValidationError "Invalid org entity data");
      _ ← createOrgEntity new_id b;
      org_audit user "Create Org Entity" ("Created entity: " +:+ default "" b.(ob_name_ar) +:+ " (" +:+ default "" b.(ob_code) +:+ ")")
  | PutEntity id b =>
      _ ← ensure (orgEntitySchema true b) (ValidationError "Invalid org entity data");
      _ ← updateOrgEntity id b;
      org_audit user "Update Org Entity" ("Updated entity ID: " +:+ id)
  | DeleteEntity id => _ ← deleteOrgEntity id; org_audit user "Delete Org Entity" ("Deleted entity ID: " +:+ id)
  end.
End service.

(** ** The tree *)

Definition root (t : tree) : entity := match t with Node e _ => e end.
Definition children (t : tree) : list tree := match t with Node _ cs => cs end.
Fixpoint entities_of (t : tree) : list entity := match t with Node e cs => e :: flat_map entities_of cs end.

(** The entities that hang on an entity without a parent. *)
Inductive rooted (nodes : list entity) : entity → Prop :=
  | rooted_top e : e ∈ nodes → e.(en_parent) = None → rooted nodes e
  | rooted_below e f : e ∈ nodes → e.(en_parent) = Some f.(en_id) → rooted nodes f → rooted nodes e.
(** Trees whose roots are the rows with that parent, in the order of the rows, and so on below. *)
Inductive placed (nodes : list entity) : option string → list tree → Prop :=
  | placed_intro p ts : map root ts = List.filter (λ e, bool_decide (e.(en_parent) = p)) nodes →
      Forall (λ t, placed nodes (Some (root t).(en_id)) (children t)) ts → placed nodes p ts.

Section tree.
Context (nodes : list entity) (Hids : NoDup (map en_id nodes)).

(** The way from an entity up to the top. *)
Inductive path : list entity → Prop :=
  | path_top e : e ∈ nodes → e.(en_parent) = None → path [e]
  | path_below e f l : e ∈ nodes → e.(en_parent) = Some f.(en_id) → path (f :: l) → path (e :: f :: l).
Definition below (p : option string) (l : list entity) : Prop :=
  match l with [] => p = None | f :: _ => p = Some f.(en_id) ∧ path l end.

Lemma below_extend p l e : below p l → e ∈ nodes → e.(en_parent) = p → path (e :: l).
Proof. destruct l as [|f l]; cbn; [intros -> ??; by constructor|]. intros [-> Hf] ??. by constructor. Qed.

Lemma path_in l : path l → ∀ e, e ∈ l → e ∈ nodes.
Proof. induction 1; set_solver. Qed.

Lemma path_unique e l1 l2 : path (e :: l1) → path (e :: l2) → l1 = l2.
Proof.
  intros H1. revert l2. remember (e :: l1) as l eqn:Hl. revert e l1 Hl. induction H1 as [x Hx Hp|x f l Hx Hp Hf IH]; intros e l1 [= <- <-] l2 H2; inversion H2; subst; try congruence.
  assert (f = f0) as <-. { apply (map_unique en_id nodes); [done|by eapply path_in; [exact Hf|left]|by eapply path_in; [eassumption|left]|congruence]. }
  f_equal. by eapply IH.
Qed.

Lemma path_suffix a l : path (a ++ l) → l = [] ∨ path l.
Proof.
  induction a as [|x a IH]; cbn; [by right|]. intros H.
  assert (a ++ l = [] ∨ path (a ++ l)) as [[_ ->]%app_nil|Hp] by (inversion H; subst; [by left|by right]); [by left|by apply IH].
Qed.

Lemma path_NoDup l : path l → NoDup l.
Proof.
  induction 1 as [e|e f l He Hp Hf IH]; [apply NoDup_singleton|]. constructor; [|done].
  intros (a & b & Hab)%list_elem_of_split. assert (Hsuf : path (e :: b)). { rewrite Hab in Hf. apply path_suffix in Hf as [?|?]; done. }
  assert (Hb : f :: l = b) by (eapply path_unique; [by constructor|exact Hsuf]).
  apply (f_equal length) in Hab. rewrite length_app, Hb in Hab. cbn in Hab. lia.
Qed.

Lemma path_length l : path l → (length l ≤ length nodes)%nat.
Proof. intros H. apply submseteq_length, NoDup_submseteq; [by apply path_NoDup|by apply path_in]. Qed.

Lemma stuck n : ∀ p l, below p l → buildTree n nodes p = None → ∃ p' l', below p' l' ∧ length l' = (n + length l)%nat.
Proof.
  induction n as [|n IH]; intros p l Hb; [by exists p, l|]. cbn. intros (e & He & Hn)%mapM_None%Exists_exists.
  apply elem_of_select in He as [He Hp%bool_decide_eq_true]. apply fmap_None in Hn.
  destruct (IH _ (e :: l) (conj eq_refl (below_extend _ _ _ Hb He Hp)) Hn) as (p' & l' & Hl & Hlen). exists p', l'. cbn in Hlen. split; [done|lia].
Qed.

Lemma build_ends n : (length nodes < n)%nat → ∃ ts, buildTree n nodes None = Some ts.
Proof.
  intros Hn. destruct (buildTree n nodes None) as [ts|] eqn:Hb; [by exists ts|].
  destruct (stuck n None [] eq_refl Hb) as (p & [|e l] & Hl & Hlen); cbn in Hlen; [lia|].
  destruct Hl as [_ Hl%path_length]. cbn in Hl. lia.
Qed.

Lemma build_S n p ts : buildTree (S n) nodes p = Some ts ↔
  Forall2 (λ e t, ∃ cs, t = Node e cs ∧ buildTree n nodes (Some e.(en_id)) = Some cs) (List.filter (λ e, bool_decide (e.(en_parent) = p)) nodes) ts.
Proof.
  cbn [buildTree]. rewrite mapM_Some. split; (intros H; eapply Forall2_impl; [exact H|]; intros e t).
  - intros (cs & Hcs & ->)%fmap_Some. by exists cs. - intros (cs & -> & Hcs). by rewrite Hcs.
Qed.

Lemma build_more n m p ts : buildTree n nodes p = Some ts → (n ≤ m)%nat → buildTree m nodes p = Some ts.
Proof.
  revert m p ts. induction n as [|n IH]; intros [|m] p ts; try done; [lia|]. rewrite !build_S. intros H Hm.
  eapply Forall2_impl; [exact H|]. intros e t (cs & -> & Hcs). exists cs. split; [done|]. apply IH; [done|lia].
Qed.

Lemma build_placed n : ∀ p ts, buildTree n nodes p = Some ts → placed nodes p ts.
Proof.
  induction n as [|n IH]; intros p ts; [done|]. intros H%build_S. constructor.
  - induction H as [|e t l ts (cs & -> & _) _ IHl]; [done|]. cbn. by rewrite IHl.
  - clear -IH H. induction H as [|e t l ts (cs & -> & Hcs) _ IHl]; constructor; [by apply IH|done].
Qed.

(** An entity of the tree has a way up to the parent of the tree. *)
Lemma build_elem n : ∀ p l ts x, below p l → buildTree n nodes p = Some ts →
  x ∈ flat_map entities_of ts ↔ ∃ a, hd_error a = Some x ∧ path (a ++ l).
Proof.
  induction n as [|n IH]; intros p l ts x Hb; [done|]. intros H%build_S. rewrite list_elem_of_In, in_flat_map. setoid_rewrite <- list_elem_of_In. split.
  - intros (t & Ht & Hx). apply list_elem_of_lookup in Ht as [i Hi].
    destruct (Forall2_lookup_r _ _ _ _ _ H Hi) as (e & He%list_elem_of_lookup_2%elem_of_select & cs & -> & Hcs).
    destruct He as [He Hp%bool_decide_eq_true]. pose proof (below_extend _ _ _ Hb He Hp) as Hpath.
    cbn [entities_of] in Hx. apply elem_of_cons in Hx as [->|Hx]; [by exists [e]|].
    apply (IH (Some e.(en_id)) (e :: l)) in Hx as (a & Ha & Hx); [|done|done]. exists (a ++ [e]). rewrite <- app_assoc. split; [by destruct a|done].
  - intros (a & Ha & Hx). destruct (exists_last (l := a)) as (a' & e & ->); [by destruct a|]. rewrite <- app_assoc in Hx. cbn in Hx.
    assert (Hpath : path (e :: l)) by (by apply path_suffix in Hx as [?|?]).
    assert (He : e ∈ nodes ∧ e.(en_parent) = p). { destruct l as [|f l]; inversion Hpath; subst; cbn in Hb; naive_solver. }
    destruct (list_elem_of_lookup_1 (List.filter (λ e, bool_decide (e.(en_parent) = p)) nodes) e) as [i Hi].
    { apply elem_of_select. by rewrite bool_decide_eq_true. }
    destruct (Forall2_lookup_l _ _ _ _ _ H Hi) as (t & Ht%list_elem_of_lookup_2 & cs & -> & Hcs). exists (Node e cs). split; [done|].
    cbn [entities_of]. apply elem_of_cons. destruct a' as [|y a']; cbn in *; [left; congruence|right].
    apply (IH (Some e.(en_id)) (e :: l) cs); [done|done|]. by exists (y :: a').
Qed.

Lemma node_elem n e l cs x : path (e :: l) → buildTree n nodes (Some e.(en_id)) = Some cs → x ∈ entities_of (Node e cs) →
  ∃ a, hd_error (a ++ [e]) = Some x ∧ path (a ++ e :: l).
Proof.
  intros Hp Hcs [->|Hx]%elem_of_cons; [by exists []|].
  apply (build_elem n (Some e.(en_id)) (e :: l)) in Hx as (a & Ha & Hx); [|done|done]. exists a. split; [by destruct a|done].
Qed.

Lemma node_disjoint n e1 e2 l cs1 cs2 x : path (e1 :: l) → path (e2 :: l) →
  buildTree n nodes (Some e1.(en_id)) = Some cs1 → buildTree n nodes (Some e2.(en_id)) = Some cs2 →
  x ∈ entities_of (Node e1 cs1) → x ∈ entities_of (Node e2 cs2) → e1 = e2.
Proof.
  intros Hp1 Hp2 Hcs1 Hcs2 Hx1 Hx2. destruct (node_elem n _ _ _ _ Hp1 Hcs1 Hx1) as (a1 & Ha1 & H1). destruct (node_elem n _ _ _ _ Hp2 Hcs2 Hx2) as (a2 & Ha2 & H2).
  rewrite cons_middle, app_assoc in H1, H2. destruct (a1 ++ [e1]) as [|x1 b1] eqn:Hb1; [done|]. destruct (a2 ++ [e2]) as [|x2 b2] eqn:Hb2; [done|].
  injection Ha1 as ->. injection Ha2 as ->. pose proof (path_unique _ _ _ H1 H2) as Heq%app_inv_tail. subst b2. rewrite <- Hb1 in Hb2.
  by apply app_inj_tail in Hb2 as [_ ->].
Qed.

Lemma build_NoDup n : ∀ p l ts, below p l → buildTree n nodes p = Some ts → NoDup (flat_map entities_of ts).
Proof.
  induction n as [|n IH]; intros p l ts Hb; [done|]. intros H%build_S.
  assert (Hrows : ∀ e, e ∈ List.filter (λ e, bool_decide (e.(en_parent) = p)) nodes → path (e :: l)).
  { intros e [He Hp%bool_decide_eq_true]%elem_of_select. by eapply below_extend. }
  assert (Hnd : NoDup (List.filter (λ e, bool_decide (e.(en_parent) = p)) nodes)).
  { apply NoDup_fmap_1 in Hids. rewrite NoDup_ListNoDup in *. by apply List.NoDup_filter. }
  revert Hrows Hnd. induction H as [|e t rows ts (cs & -> & Hcs) Hts IHts]; intros Hrows Hnd; [constructor|]. cbn [flat_map].
  apply NoDup_cons in Hnd as [Hne Hnd]. assert (Hpe : path (e :: l)) by (apply Hrows; left).
  apply NoDup_app. split_and!.
  - cbn [entities_of]. apply NoDup_cons. split; [|by eapply (IH (Some e.(en_id)) (e :: l))].
    intros (a & Ha & Hx)%(build_elem n (Some e.(en_id)) (e :: l)); [|done..]. destruct a as [|y a]; [done|]. injection Ha as ->.
    apply path_NoDup, NoDup_cons in Hx as [Hx _]. apply Hx, elem_of_app. right. left.
  - intros x Hx1 Hx2. apply list_elem_of_In, in_flat_map in Hx2 as (t & Ht%list_elem_of_In & Hx2%list_elem_of_In).
    apply list_elem_of_lookup in Ht as [i Hi]. destruct (Forall2_lookup_r _ _ _ _ _ Hts Hi) as (e2 & He2%list_elem_of_lookup_2 & cs2 & -> & Hcs2).
    assert (e = e2) as <-; [|done]. eapply (node_disjoint n e e2 l); [done|apply Hrows; by right|done..].
  - apply IHts; [|done]. intros e' He'. apply Hrows. by right.
Qed.

Lemma rooted_path x : rooted nodes x ↔ ∃ l, path (x :: l).
Proof.
  split.
  - induction 1 as [e He Hp|e f He Hp _ (l & IH)]; [by exists []; constructor|]. exists (f :: l). by constructor.
  - intros (l & Hl). remember (x :: l) as q eqn:Hq. revert x l Hq. induction Hl as [e He Hp|e f l He Hp Hf IH]; intros x l' [= <- _].
    + by constructor. + eapply rooted_below; [done..|]. by eapply IH.
Qed.
End tree.

(** ** Properties *)

Record org_ok (s : org_db) : Prop := {
  ok_ids : NoDup (map en_id s.(og_entities));
  ok_codes : NoDup (map en_code s.(og_entities));
  ok_parents : ∀ e, e ∈ s.(og_entities) → parent_exists s.(og_entities) e.(en_parent) = true }.

Lemma read_bind {B} (k : org_db → org_action B) s : (get_state ≫= k) s = k s s.
Proof. done. Qed.

Lemma insert_entity_ok e : preserves org_ok (insert_entity e).
Proof.
  intros s [Hi Hc Hp]. unfold insert_entity. rewrite read_bind, ensure_bind.
  destruct (bool_decide_reflect (e.(en_id) ∈ map en_id s.(og_entities))) as [|Hni]; [done|]. cbn [negb]. rewrite ensure_bind.
  destruct (bool_decide_reflect (e.(en_code) ∈ map en_code s.(og_entities))) as [|Hnc]; [done|]. cbn [negb]. rewrite ensure_bind.
  destruct (parent_exists (s.(og_entities) ++ [e]) e.(en_parent)) eqn:Hpe; [|done]. constructor; cbn; rewrite ?map_app.
  - apply NoDup_app; split_and!; [done|set_solver|apply NoDup_singleton].
  - apply NoDup_app; split_and!; [done|set_solver|apply NoDup_singleton].
  - intros x [Hx| ->%list_elem_of_singleton]%elem_of_app; [|done]. specialize (Hp x Hx). unfold parent_exists in *. destruct x.(en_parent); [|done].
    apply bool_decide_eq_true in Hp. apply bool_decide_eq_true. rewrite map_app. set_solver.
Qed.

Lemma delete_where_id {row : Type} (col : row → string) (l : list row) id :
  id ∉ map col l → delete_where (λ r, bool_decide (col r = id)) l = l ∧ ∀ f, update_where (λ r, bool_decide (col r = id)) f l = l.
Proof.
  induction l as [|x l IH]; [done|]. cbn. intros [Hx Hl]%not_elem_of_cons. destruct (IH Hl) as [IH1 IH2].
  unfold delete_where, update_where in *. cbn. rewrite bool_decide_eq_false_2 by congruence. cbn. rewrite IH1. split; [done|]. intros f. by rewrite IH2.
Qed.

(** A unique column stays unique when one row takes a value no other row has. *)
Lemma update_one_NoDup {row : Type} (col key : row → string) (l : list row) id r :
  NoDup (map key l) → NoDup (map col l) → col r ∉ map col (delete_where (λ r, bool_decide (key r = id)) l) →
  NoDup (map col (update_where (λ r, bool_decide (key r = id)) (λ _, r) l)).
Proof.
  induction l as [|x l IH]; [by intros; constructor|]. cbn. intros [Hk Hks]%NoDup_cons [Hc Hcs]%NoDup_cons. unfold delete_where, update_where in *. cbn.
  destruct (bool_decide_reflect (key x = id)) as [<-|Hne]; cbn.
  - destruct (delete_where_id key l _ Hk) as [H1 H2]. unfold delete_where, update_where in *. rewrite H1, H2. intros Hr. by constructor.
  - intros [Hr Hrs]%not_elem_of_cons. constructor; [|by apply IH]. intros (y & Hy & (z & Hz & Hin)%list_elem_of_fmap)%list_elem_of_fmap.
    case_bool_decide; subst; [done|]. apply Hc. rewrite Hy. by apply list_elem_of_fmap_2.
Qed.

(** What a row that is written leaves of the table. *)
Lemma write_entity_ok id f : (∀ e e', f e = Some e' → e'.(en_id) = e.(en_id)) → preserves org_ok (write_entity id f).
Proof.
  intros Hf s [Hi Hc Hp]. unfold write_entity. rewrite read_bind.
  destruct (select_one _ _) as [e|] eqn:Hs; [|done]. apply select_one_Some in Hs as [Hin Hid%bool_decide_eq_true].
  destruct (f e) as [e'|] eqn:Hfe; [|done]. apply Hf in Hfe. rewrite ensure_bind.
  destruct (bool_decide_reflect (e'.(en_code) ∈ map en_code (delete_where (has_entity_id id) s.(og_entities)))) as [|Hnc]; [done|]. cbn [negb].
  rewrite ensure_bind. destruct (parent_exists s.(og_entities) e'.(en_parent)) eqn:Hpe; [|done].
  assert (Hids : map en_id (update_where (has_entity_id id) (λ _, e') s.(og_entities)) = map en_id s.(og_entities)).
  { apply update_where_column. intros r Hr%bool_decide_eq_true. congruence. }
  assert (Hpar : ∀ p, parent_exists (update_where (has_entity_id id) (λ _, e') s.(og_entities)) p = parent_exists s.(og_entities) p)
    by (intros p; unfold parent_exists; by rewrite Hids).
  constructor; cbn; [by rewrite Hids|by apply update_one_NoDup|].
  intros x (x0 & Hx0 & ->)%elem_of_update_where. rewrite Hpar. destruct (has_entity_id id x0); [done|by apply Hp].
Qed.

Lemma org_audit_ok u a d : preserves org_ok (org_audit u a d).
Proof. intros s [H1 H2 H3]. by constructor. Qed.

Lemma preserves_try {A} P (m : org_action A) h : preserves P m → (∀ e, preserves P (h e)) → preserves P (try_catch m h).
Proof. intros Hm Hh s Hs. specialize (Hm s Hs). unfold try_catch. destruct (m s) as [[a|e] s1]; [done|by apply Hh]. Qed.

Lemma org_row_id id level st order b e : org_row id level st order b = Some e → e.(en_id) = id.
Proof. unfold org_row. repeat case_match; naive_solver. Qed.

Ltac keeps_org :=
  repeat first [ apply insert_entity_ok | apply org_audit_ok | apply preserves_try; [|intros ?] | apply preserves_get | apply preserves_ensure
               | apply preserves_ret | apply preserves_throw | apply write_entity_ok; intros ? ?; first [by intros [= <-] | apply org_row_id]
               | apply preserves_bind; [|intros ?] | progress case_match ].

(** the table stays well formed whatever the two routers are asked: identifiers and codes stay
    unique and every parent is an entity of the table. *)
Theorem org_stays_well_formed uuid_ok now user c s : org_ok s -> org_ok (serve_org uuid_ok now user c s).2.
Proof.
  revert s. change (preserves org_ok (serve_org uuid_ok now user c)).
  destruct c; cbn; unfold create_department, update_department, delete_department, createOrgEntity, updateOrgEntity, deleteOrgEntity, cast_entity; keeps_org.
Qed.

(** C38: the recursion of the chart ends for every table, one whose parents form a cycle included:
    fuel for one level more than there are rows is enough, and then the tree holds every
    listed entity that hangs on one without a parent exactly once, below its parent and in
    the order of the list. *)
Theorem tree_complete answers s :
  NoDup (map en_id s.(og_entities)) ->
  exists ts, (forall fuel, (length (getAll answers s) < fuel)%nat -> getTree fuel answers s = Some ts) /\ placed (getAll answers s) None ts /\
    NoDup (flat_map entities_of ts) /\ (forall e, e ∈ flat_map entities_of ts <-> rooted (getAll answers s) e).
Proof.
  intros Hids. assert (Hnodes : NoDup (map en_id (getAll answers s))).
  { unfold getAll. destruct answers; [|constructor]. rewrite <- firstn_map. eapply sublist_NoDup; [|apply sublist_take].
    rewrite order_by_perm. by apply NoDup_map_filter. }
  destruct (build_ends _ Hnodes (S (length (getAll answers s)))) as [ts Hts]; [lia|]. exists ts. split_and!.
  - intros fuel Hf. eapply build_more; [exact Hts|lia].
  - by eapply build_placed.
  - by eapply build_NoDup with (l := []).
  - intros e. rewrite rooted_path. rewrite (build_elem _ _ None [] ts e eq_refl Hts). split.
    + intros ([|x a] & [= ->] & Ha). exists a. by rewrite app_nil_r in Ha.
    + intros (l & Hl). exists (e :: l). by rewrite app_nil_r.
Qed.

Lemma elem_of_getAll s e : (length (select live s.(og_entities)) ≤ 2000)%nat → e ∈ getAll true s ↔ e ∈ s.(og_entities) ∧ live e = true.
Proof.
  intros Hlen. unfold getAll. rewrite take_ge; [|by rewrite order_by_perm]. by rewrite elem_of_order_by, elem_of_select.
Qed.

Lemma rooted_in nodes e : rooted nodes e → e ∈ nodes.
Proof. by destruct 1. Qed.

(** without the entity [id], on which no entity of the list hangs, the chart keeps the rest. *)
Lemma rooted_without nodes nodes' id :
  (∀ e, e ∈ nodes' ↔ e ∈ nodes ∧ e.(en_id) ≠ id) → (∀ e, e ∈ nodes → e.(en_parent) ≠ Some id) →
  ∀ e, rooted nodes' e ↔ rooted nodes e ∧ e.(en_id) ≠ id.
Proof.
  intros Hin Hno e. split.
  - induction 1 as [e He Hp|e f He Hp _ [IH _]]; apply Hin in He as [He Hne]; split; [by apply rooted_top|done|by eapply rooted_below|done].
  - intros [Hr Hne]. revert Hne. induction Hr as [e He Hp|e f He Hp _ IH]; intros Hne.
    + apply rooted_top; [by apply Hin|done].
    + eapply rooted_below; [by apply Hin|exact Hp|]. apply IH. intros Hf. apply (Hno e He). congruence.
Qed.

Lemma select_fewer {row : Type} (p q : row → bool) f (l : list row) :
  (∀ r, p (f r) = true → p r = true) → (length (select p (update_where q f l)) ≤ length (select p l))%nat.
Proof.
  intros Hf. unfold select, update_where. induction l as [|x l IH]; [done|]. cbn. specialize (Hf x).
  destruct (q x); [destruct (p (f x)), (p x)|destruct (p x)]; cbn; try lia; naive_solver lia.
Qed.

Lemma archive_step s e : org_ok s → e ∈ s.(og_entities) →
  write_entity e.(en_id) (λ e, Some (with_status "Archived" e)) s =
  (Ok tt, with_entities (update_where (has_entity_id e.(en_id)) (λ _, with_status "Archived" e) s.(og_entities)) s).
Proof.
  intros [Hi Hc Hp] He. unfold write_entity. rewrite read_bind.
  destruct (select_one (has_entity_id e.(en_id)) s.(og_entities)) as [x|] eqn:Hs.
  2:{ eapply select_one_None in Hs; [|exact He]. unfold has_entity_id in Hs. by rewrite bool_decide_eq_true_2 in Hs. }
  apply select_one_Some in Hs as [Hx Hid%bool_decide_eq_true]. assert (x = e) as -> by by eapply (map_unique en_id).
  rewrite ensure_bind, bool_decide_eq_false_2; [|].
  2:{ cbn. intros (y & Hy & [Hin Hne%bool_decide_eq_false]%elem_of_delete_where)%list_elem_of_fmap. apply Hne. f_equal. by apply (map_unique en_code s.(og_entities)). }
  cbn [negb with_status en_parent]. rewrite ensure_bind, Hp by done. done.
Qed.

(** deletion of a department: one with a live entity below it is refused and nothing changes;
    otherwise the deletion is recorded and the chart keeps exactly the other entities. *)
Theorem department_deletion uuid_ok now user id s :
  org_ok s -> uuid_ok id = true -> (length (select live s.(og_entities)) <= 2000)%nat ->
  if has_children id s
  then serve_org uuid_ok now user (DeleteDepartment id) s =
         (Throw (ValidationError "Cannot delete an entity that has sub-units. Move or delete them first."), s)
  else exists s', serve_org uuid_ok now user (DeleteDepartment id) s = (Ok tt, s') /\
         s'.(og_audit) = s.(og_audit) ++ [(user, "Archived Org Entity", "Archived entity ID: " +:+ id)] /\
         (forall e, rooted (getAll true s') e <-> rooted (getAll true s) e /\ e.(en_id) <> id).
Proof.
  intros Hok Hid Hlen. cbn [serve_org]. unfold delete_department, cast_entity. rewrite ensure_bind, Hid, read_bind, ensure_bind.
  destruct (has_children id s) eqn:Hch; [done|]. cbn [negb].
  assert (Hno : forall e, e ∈ getAll true s -> e.(en_parent) <> Some id).
  { intros e [He Hl]%elem_of_getAll Hp; [|done]. apply Z.ltb_ge in Hch. pose proof (count_where_nonneg (fun e => child_of id e && live e) s.(og_entities)).
    assert (Hz : count_where (fun e => child_of id e && live e) s.(og_entities) = 0) by lia. eapply count_where_zero in Hz; [|exact He].
    unfold child_of in Hz. by rewrite bool_decide_eq_true_2, Hl in Hz. }
  destruct (decide (id ∈ map en_id s.(og_entities))) as [(e & -> & He)%list_elem_of_fmap|Hni].
  - rewrite (ok_bind _ _ _ _ _ (archive_step s e Hok He)). eexists. split_and!; [done|done|].
    apply rooted_without; [|done]. intros x. rewrite !elem_of_getAll; [|done|].
    2:{ etrans; [apply select_fewer; done|done]. }
    cbn. rewrite elem_of_update_where. split.
    + intros [(x0 & Hx0 & ->) Hl]. destruct (bool_decide_reflect (x0.(en_id) = e.(en_id))) as [Hx|Hx]; unfold has_entity_id in *;
        [by rewrite bool_decide_eq_true_2 in Hl|]. by rewrite bool_decide_eq_false_2 in Hl |- *.
    + intros [[Hx Hl] Hne]. split; [|done]. exists x. split; [done|]. unfold has_entity_id. by rewrite bool_decide_eq_false_2.
  - assert (Hw : write_entity id (fun e => Some (with_status "Archived" e)) s = (Ok tt, s)).
    { unfold write_entity. rewrite read_bind. destruct (select_one _ _) as [x|] eqn:Hs; [|done].
      apply select_one_Some in Hs as [Hx Hxid%bool_decide_eq_true]. destruct Hni. rewrite <- Hxid. by apply list_elem_of_fmap_2. }
    rewrite (ok_bind _ _ _ _ _ Hw). eexists. split_and!; [done|done|]. intros e. split; [|by intros [? _]].
    intros He. split; [done|]. apply rooted_in, elem_of_getAll in He as [He _]; [|done]. intros <-. apply Hni. by apply list_elem_of_fmap_2.
Qed.

(** a change of an entity through [/org-entities] that is answered with success empties every
    column the schema of the route does not know, its level and its status included, and the
    entity is no longer listed. *)
Theorem put_entity_hides uuid_ok now user id b s s' :
  org_ok s -> id ∈ map en_id s.(og_entities) -> serve_org uuid_ok now user (PutEntity id b) s = (Ok tt, s') ->
  (id ∉ map en_id (getAll true s')) /\
  exists e, e ∈ s'.(og_entities) /\ e.(en_id) = id /\ (e.(en_level), e.(en_status), e.(en_manager_name), e.(en_notes)) = (None, None, None, None).
Proof.
  intros [Hi _ _] Hin H. cbn [serve_org] in H. unfold updateOrgEntity, cast_entity in H. rewrite ensure_bind in H.
  destruct (orgEntitySchema _ _ _) eqn:Hsch; [|done]. rewrite bind_bind, ensure_bind in H. destruct (negb _) eqn:Hself; [|done].
  rewrite bind_bind, ensure_bind in H. destruct (uuid_ok id); [|done]. unfold write_entity in H. rewrite bind_bind, read_bind in H.
  destruct (select_one _ _) as [e|] eqn:Hs; [apply select_one_Some in Hs as [He Hid%bool_decide_eq_true]|].
  2:{ apply list_elem_of_fmap in Hin as (e & -> & He). eapply select_one_None in Hs; [|exact He]. unfold has_entity_id in Hs. by rewrite bool_decide_eq_true_2 in Hs. }
  destruct (org_row _ _ _ _ _) as [e'|] eqn:Hrow; [|done]. rewrite bind_bind, ensure_bind in H.
  case_match; [|done]. rewrite bind_bind, ensure_bind in H. case_match; [|done]. rewrite (ok_bind (modify _) _ _ tt _ eq_refl) in H.
  injection H as <-. cbn. assert (Hcols : e'.(en_id) = id /\ (e'.(en_level), e'.(en_status), e'.(en_manager_name), e'.(en_notes)) = (None, None, None, None)).
  { unfold org_row in Hrow. repeat case_match; naive_solver. }
  destruct Hcols as [Hid' Hcols]. split; [|exists e'; split_and!; [|done|done]].
  - intros (x & Hx & Hg)%list_elem_of_fmap. unfold getAll in Hg. apply elem_of_take in Hg as (i & Hg%list_elem_of_lookup_2 & _).
    apply elem_of_order_by, elem_of_select in Hg as [(x0 & _ & ->)%elem_of_update_where Hl]. unfold has_entity_id in *.
    case_bool_decide; [|congruence]. unfold live in Hl. injection Hcols as _ Hst _ _. by rewrite Hst in Hl.
  - apply elem_of_update_where. exists e. split; [done|]. unfold has_entity_id. by rewrite bool_decide_eq_true_2.
Qed.

(** ** Runs of the definitions *)

Module Chart.
Definition uuid_ok (id : string) : bool := negb (bool_decide (id = "")).
Definition unit_of (id : string) (parent : option string) : entity :=
  {| en_id := id; en_code := "C" +:+ id; en_name_ar := id; en_name_en := id; en_type := "Department"; en_parent := parent; en_manager := None;
     en_manager_name := None; en_level := Some 1; en_status := Some "Active"; en_description := None; en_order := Some 0; en_location := None;
     en_cost_center := None; en_notes := None |}.
Definition start : org_db :=
  {| og_entities := [unit_of "a" None; unit_of "c" (Some "b"); unit_of "b" (Some "a"); unit_of "d" None]; og_users := []; og_audit := [] |}.
Definition no_change : dept_body :=
  {| db_name := None; db_code := None; db_name_ar := None; db_name_en := None; db_type := None; db_parent := None; db_manager_name := None;
     db_description := None; db_location := None; db_cost_center := None; db_status := None |}.
Definition under (p : string) : dept_body :=
  {| db_name := None; db_code := None; db_name_ar := None; db_name_en := None; db_type := None; db_parent := Some (Some p); db_manager_name := None;
     db_description := None; db_location := None; db_cost_center := None; db_status := None |}.
Definition archived : dept_body :=
  {| db_name := None; db_code := None; db_name_ar := None; db_name_en := None; db_type := None; db_parent := None; db_manager_name := None;
     db_description := None; db_location := None; db_cost_center := None; db_status := Some "Archived" |}.
Definition full (p : option string) : org_body := {| ob_code := Some "Cd"; ob_name_ar := Some "d"; ob_name_en := Some "d"; ob_type := Some "Unit"; ob_parent := p |}.
Abbreviation serve c s := (serve_org uuid_ok 7 "ann" c s).
(** The chart as parents and children, level by level. *)
Definition listed (s : org_db) : option (list string) := (λ ts, map en_id (flat_map entities_of ts)) <$> getTree 10 true s.

Theorem chart_runs :
  listed start = Some ["a"; "b"; "c"; "d"] ∧
  (let '(r, s) := serve (DeleteDepartment "b") start in r = Throw (ValidationError "Cannot delete an entity that has sub-units. Move or delete them first.") ∧ s = start) ∧
  (let '(r, s) := serve (DeleteDepartment "c") start in r = Ok tt ∧ listed s = Some ["a"; "b"; "d"]) ∧
  (serve (PutEntity "d" (full (Some "d"))) start).1 = Throw (ValidationError "An entity cannot be its own parent").
Proof. by vm_compute. Qed.

(** A department can be put below itself or below its own sub-unit, and one with sub-units can
    be archived by an update; what hangs on them is no longer in the chart.  A change of an
    entity must name every required column, and takes the entity out of the list; its parent
    can then be deleted. *)
Theorem chart_gaps :
  (let '(r, s) := serve (PutDepartment "a" (under "a")) start in r = Ok tt ∧ listed s = Some ["d"]) ∧
  (let '(r, s) := serve (PutDepartment "a" (under "c")) start in r = Ok tt ∧ listed s = Some ["d"]) ∧
  (let '(r, s) := serve (PutDepartment "b" archived) start in r = Ok tt ∧ listed s = Some ["a"; "d"]) ∧
  (serve (PutEntity "d" {| ob_code := None; ob_name_ar := Some "new"; ob_name_en := None; ob_type := None; ob_parent := None |}) start).1 = Throw not_null ∧
  (let '(r, s) := serve (PutEntity "d" (full (Some "c"))) start in r = Ok tt ∧ listed s = Some ["a"; "b"; "c"] ∧ (serve (DeleteEntity "c") s).1 = Ok tt).
Proof. by vm_compute. Qed.

Lemma start_ok : org_ok start.
Proof. constructor; [apply (bool_decide_unpack _); by vm_compute..|]. intros e. cbn. set_solver. Qed.
End Chart.

Lemma tree_complete_witness :
  exists ts, getTree 5 true Chart.start = Some ts /\ length (flat_map entities_of ts) = 4%nat.
Proof.
  destruct (tree_complete true Chart.start (ok_ids _ Chart.start_ok)) as (ts & Hts & _). exists ts.
  assert (H5 : getTree 5 true Chart.start = Some ts) by (apply Hts; apply (bool_decide_unpack _); by vm_compute).
  split; [exact H5|].
  vm_compute in H5. injection H5 as <-. reflexivity.
Defined.

Lemma org_stays_well_formed_witness : org_ok (serve_org Chart.uuid_ok 7 "ann" (DeleteDepartment "c") Chart.start).2.
Proof. exact (org_stays_well_formed Chart.uuid_ok 7 "ann" (DeleteDepartment "c") Chart.start Chart.start_ok). Defined.

Lemma department_deletion_witness :
  exists s', serve_org Chart.uuid_ok 7 "ann" (DeleteDepartment "c") Chart.start = (Ok tt, s') /\
    s'.(og_audit) = [("ann", "Archived Org Entity", "Archived entity ID: c")].
Proof.
  assert (Hlen : (length (select live Chart.start.(og_entities)) <= 2000)%nat) by (apply (bool_decide_unpack _); by vm_compute).
  destruct (department_deletion Chart.uuid_ok 7 "ann" "c" Chart.start Chart.start_ok eq_refl Hlen) as (s' & Hs & Ha & _).
  exists s'. split; [exact Hs|exact Ha].
Defined.

Lemma put_entity_hides_witness :
  exists s', serve_org Chart.uuid_ok 7 "ann" (PutEntity "d" (Chart.full None)) Chart.start = (Ok tt, s') /\ "d" ∉ map en_id (getAll true s').
Proof.
  eexists. split; [reflexivity|].
  refine (proj1 (put_entity_hides Chart.uuid_ok 7 "ann" "d" (Chart.full None) Chart.start _ Chart.start_ok _ eq_refl)).
  apply (bool_decide_unpack _). by vm_compute.
Defined.
