(* ===== verification/FallbackTemplates.v ===== *)
(** * Built-in templates of documents ([constants/fallbackTemplates.ts])

    One Handlebars text per type of document.  In the strings of this file a backtick stands
    for the double quote of the source. *)

From S2P Require Import Prelude JsMap JsStrings PdfTemplates.

Definition quoted (s : string) : string := of_chars (map (λ c, if bool_decide (c = "`"%char) then Ascii.ascii_of_N 34 else c) (chars s)).

Definition audit_report_template : string := quoted "<div dir=`{{#if isRtl}}rtl{{else}}ltr{{/if}}` style=`font-family: Tahoma, sans-serif; padding: 20px;`>
  <h1 style=`text-align: center; margin-bottom: 8px;`>{{auditTitle}}</h1>
  <p style=`text-align: center; color: #555; margin-bottom: 24px;`>{{auditDate}} | {{auditorName}} | {{departmentName}}</p>

  {{#if scope}}
  <h3>{{#if isRtl}}النطاق{{else}}Scope{{/if}}</h3>
  <p>{{scope}}</p>
  {{/if}}

  {{#if objectives}}
  <h3>{{#if isRtl}}الأهداف{{else}}Objectives{{/if}}</h3>
  <p>{{objectives}}</p>
  {{/if}}

  <h3>{{#if isRtl}}النتائج{{else}}Findings{{/if}}</h3>
  {{#if findings.length}}
  <table style=`width: 100%; border-collapse: collapse; margin-bottom: 16px;`>
    <thead>
      <tr style=`background: #f0f0f0;`>
        <th style=`border: 1px solid #ccc; padding: 8px;`>{{#if isRtl}}العنوان{{else}}Title{{/if}}</th>
        <th style=`border: 1px solid #ccc; padding: 8px;`>{{#if isRtl}}الوصف{{else}}Description{{/if}}</th>
        <th style=`border: 1px solid #ccc; padding: 8px;`>{{#if isRtl}}مستوى المخاطر{{else}}Risk Level{{/if}}</th>
        <th style=`border: 1px solid #ccc; padding: 8px;`>{{#if isRtl}}الحالة{{else}}Status{{/if}}</th>
      </tr>
    </thead>
    <tbody>
      {{#each findings}}
      <tr>
        <td style=`border: 1px solid #ccc; padding: 8px;`>{{title}}</td>
        <td style=`border: 1px solid #ccc; padding: 8px;`>{{description}}</td>
        <td style=`border: 1px solid #ccc; padding: 8px;`>{{risk_level}}</td>
        <td style=`border: 1px solid #ccc; padding: 8px;`>{{status}}</td>
      </tr>
      {{/each}}
    </tbody>
  </table>
  {{else}}
  <p>{{#if isRtl}}لا توجد نتائج{{else}}No findings{{/if}}</p>
  {{/if}}

  {{#if recommendations.length}}
  <h3>{{#if isRtl}}التوصيات{{else}}Recommendations{{/if}}</h3>
  <table style=`width: 100%; border-collapse: collapse;`>
    <thead>
      <tr style=`background: #f0f0f0;`>
        <th style=`border: 1px solid #ccc; padding: 8px;`>{{#if isRtl}}خطة العمل{{else}}Action Plan{{/if}}</th>
        <th style=`border: 1px solid #ccc; padding: 8px;`>{{#if isRtl}}المسؤول{{else}}Responsible{{/if}}</th>
        <th style=`border: 1px solid #ccc; padding: 8px;`>{{#if isRtl}}تاريخ الاستحقاق{{else}}Due Date{{/if}}</th>
        <th style=`border: 1px solid #ccc; padding: 8px;`>{{#if isRtl}}الحالة{{else}}Status{{/if}}</th>
      </tr>
    </thead>
    <tbody>
      {{#each recommendations}}
      <tr>
        <td style=`border: 1px solid #ccc; padding: 8px;`>{{action_plan}}</td>
        <td style=`border: 1px solid #ccc; padding: 8px;`>{{responsible}}</td>
        <td style=`border: 1px solid #ccc; padding: 8px;`>{{due_date}}</td>
        <td style=`border: 1px solid #ccc; padding: 8px;`>{{status}}</td>
      </tr>
      {{/each}}
    </tbody>
  </table>
  {{/if}}
</div>".

Definition quarterly_report_template : string := quoted "<div dir=`{{#if isRtl}}rtl{{else}}ltr{{/if}}` style=`font-family: Tahoma, sans-serif; padding: 20px;`>
  <h1 style=`text-align: center; margin-bottom: 8px;`>{{auditTitle}}</h1>
  <p style=`text-align: center; color: #555; margin-bottom: 24px;`>{{auditDate}} | {{auditorName}} | {{departmentName}}</p>

  {{#if scope}}
  <h3>{{#if isRtl}}نطاق الفترة{{else}}Period Scope{{/if}}</h3>
  <p>{{scope}}</p>
  {{/if}}

  <h3>{{#if isRtl}}مؤشرات الأداء الرئيسية{{else}}Key Performance Indicators{{/if}}</h3>
  {{#if findings.length}}
  <table style=`width: 100%; border-collapse: collapse; margin-bottom: 16px;`>
    <thead>
      <tr style=`background: #f0f0f0;`>
        <th style=`border: 1px solid #ccc; padding: 8px;`>{{#if isRtl}}المؤشر{{else}}Indicator{{/if}}</th>
        <th style=`border: 1px solid #ccc; padding: 8px;`>{{#if isRtl}}الوصف{{else}}Description{{/if}}</th>
        <th style=`border: 1px solid #ccc; padding: 8px;`>{{#if isRtl}}المستوى{{else}}Level{{/if}}</th>
        <th style=`border: 1px solid #ccc; padding: 8px;`>{{#if isRtl}}الحالة{{else}}Status{{/if}}</th>
      </tr>
    </thead>
    <tbody>
      {{#each findings}}
      <tr>
        <td style=`border: 1px solid #ccc; padding: 8px;`>{{title}}</td>
        <td style=`border: 1px solid #ccc; padding: 8px;`>{{description}}</td>
        <td style=`border: 1px solid #ccc; padding: 8px;`>{{risk_level}}</td>
        <td style=`border: 1px solid #ccc; padding: 8px;`>{{status}}</td>
      </tr>
      {{/each}}
    </tbody>
  </table>
  {{else}}
  <p>{{#if isRtl}}لا توجد بيانات{{else}}No data available{{/if}}</p>
  {{/if}}

  {{#if recommendations.length}}
  <h3>{{#if isRtl}}التوصيات{{else}}Recommendations{{/if}}</h3>
  <ul>
    {{#each recommendations}}
    <li>{{action_plan}}{{#if responsible}} — {{responsible}}{{/if}}{{#if due_date}} ({{due_date}}){{/if}}</li>
    {{/each}}
  </ul>
  {{/if}}
</div>".

Definition annual_report_template : string := quoted "<div dir=`{{#if isRtl}}rtl{{else}}ltr{{/if}}` style=`font-family: Tahoma, sans-serif; padding: 20px;`>
  <h1 style=`text-align: center; margin-bottom: 8px;`>{{auditTitle}}</h1>
  <p style=`text-align: center; color: #555; margin-bottom: 24px;`>{{auditDate}} | {{auditorName}} | {{departmentName}}</p>

  {{#if scope}}
  <h3>{{#if isRtl}}الملخص السنوي{{else}}Annual Summary{{/if}}</h3>
  <p>{{scope}}</p>
  {{/if}}

  {{#if objectives}}
  <h3>{{#if isRtl}}الأهداف المحققة{{else}}Achieved Objectives{{/if}}</h3>
  <p>{{objectives}}</p>
  {{/if}}

  <h3>{{#if isRtl}}النتائج الرئيسية{{else}}Key Findings{{/if}}</h3>
  {{#if findings.length}}
  <table style=`width: 100%; border-collapse: collapse; margin-bottom: 16px;`>
    <thead>
      <tr style=`background: #f0f0f0;`>
        <th style=`border: 1px solid #ccc; padding: 8px;`>{{#if isRtl}}العنوان{{else}}Title{{/if}}</th>
        <th style=`border: 1px solid #ccc; padding: 8px;`>{{#if isRtl}}الوصف{{else}}Description{{/if}}</th>
        <th style=`border: 1px solid #ccc; padding: 8px;`>{{#if isRtl}}مستوى المخاطر{{else}}Risk Level{{/if}}</th>
        <th style=`border: 1px solid #ccc; padding: 8px;`>{{#if isRtl}}الحالة{{else}}Status{{/if}}</th>
      </tr>
    </thead>
    <tbody>
      {{#each findings}}
      <tr>
        <td style=`border: 1px solid #ccc; padding: 8px;`>{{title}}</td>
        <td style=`border: 1px solid #ccc; padding: 8px;`>{{description}}</td>
        <td style=`border: 1px solid #ccc; padding: 8px;`>{{risk_level}}</td>
        <td style=`border: 1px solid #ccc; padding: 8px;`>{{status}}</td>
      </tr>
      {{/each}}
    </tbody>
  </table>
  {{else}}
  <p>{{#if isRtl}}لا توجد نتائج{{else}}No findings{{/if}}</p>
  {{/if}}

  {{#if recommendations.length}}
  <h3>{{#if isRtl}}التوصيات والخطط المستقبلية{{else}}Recommendations & Future Plans{{/if}}</h3>
  <table style=`width: 100%; border-collapse: collapse;`>
    <thead>
      <tr style=`background: #f0f0f0;`>
        <th style=`border: 1px solid #ccc; padding: 8px;`>{{#if isRtl}}خطة العمل{{else}}Action Plan{{/if}}</th>
        <th style=`border: 1px solid #ccc; padding: 8px;`>{{#if isRtl}}المسؤول{{else}}Responsible{{/if}}</th>
        <th style=`border: 1px solid #ccc; padding: 8px;`>{{#if isRtl}}تاريخ الاستحقاق{{else}}Due Date{{/if}}</th>
      </tr>
    </thead>
    <tbody>
      {{#each recommendations}}
      <tr>
        <td style=`border: 1px solid #ccc; padding: 8px;`>{{action_plan}}</td>
        <td style=`border: 1px solid #ccc; padding: 8px;`>{{responsible}}</td>
        <td style=`border: 1px solid #ccc; padding: 8px;`>{{due_date}}</td>
      </tr>
      {{/each}}
    </tbody>
  </table>
  {{/if}}
</div>".

Definition audit_plan_template : string := quoted "<div dir=`{{#if isRtl}}rtl{{else}}ltr{{/if}}` style=`font-family: Tahoma, sans-serif; padding: 20px;`>
  <h1 style=`text-align: center; margin-bottom: 8px;`>{{auditTitle}}</h1>
  <p style=`text-align: center; color: #555; margin-bottom: 24px;`>{{auditDate}} | {{auditorName}} | {{departmentName}}</p>

  {{#if planCode}}
  <p><strong>{{#if isRtl}}رمز الخطة{{else}}Plan Code{{/if}}:</strong> {{planCode}}</p>
  {{/if}}

  {{#if status}}
  <p><strong>{{#if isRtl}}الحالة{{else}}Status{{/if}}:</strong> {{status}}</p>
  {{/if}}

  {{#if objectives}}
  <h3>{{#if isRtl}}أهداف التدقيق{{else}}Audit Objectives{{/if}}</h3>
  <p>{{objectives}}</p>
  {{/if}}

  {{#if scope}}
  <h3>{{#if isRtl}}نطاق التدقيق{{else}}Audit Scope{{/if}}</h3>
  <p>{{scope}}</p>
  {{/if}}

  <h3>{{#if isRtl}}مهام الخطة{{else}}Plan Tasks{{/if}}</h3>
  {{#if findings.length}}
  <table style=`width: 100%; border-collapse: collapse; margin-bottom: 16px;`>
    <thead>
      <tr style=`background: #f0f0f0;`>
        <th style=`border: 1px solid #ccc; padding: 8px;`>{{#if isRtl}}المهمة{{else}}Task{{/if}}</th>
        <th style=`border: 1px solid #ccc; padding: 8px;`>{{#if isRtl}}الوصف{{else}}Description{{/if}}</th>
        <th style=`border: 1px solid #ccc; padding: 8px;`>{{#if isRtl}}الأولوية{{else}}Priority{{/if}}</th>
        <th style=`border: 1px solid #ccc; padding: 8px;`>{{#if isRtl}}الحالة{{else}}Status{{/if}}</th>
      </tr>
    </thead>
    <tbody>
      {{#each findings}}
      <tr>
        <td style=`border: 1px solid #ccc; padding: 8px;`>{{title}}</td>
        <td style=`border: 1px solid #ccc; padding: 8px;`>{{description}}</td>
        <td style=`border: 1px solid #ccc; padding: 8px;`>{{risk_level}}</td>
        <td style=`border: 1px solid #ccc; padding: 8px;`>{{status}}</td>
      </tr>
      {{/each}}
    </tbody>
  </table>
  {{else}}
  <p>{{#if isRtl}}لا توجد مهام{{else}}No tasks defined{{/if}}</p>
  {{/if}}
</div>".

Definition audit_missions_template : string := quoted "<div dir=`{{#if isRtl}}rtl{{else}}ltr{{/if}}` style=`font-family: Tahoma, sans-serif; padding: 20px;`>
  <h1 style=`text-align: center; margin-bottom: 8px;`>{{auditTitle}}</h1>
  <p style=`text-align: center; color: #555; margin-bottom: 24px;`>{{auditDate}} | {{auditorName}} | {{departmentName}}</p>

  {{#if scope}}
  <h3>{{#if isRtl}}نطاق المهام{{else}}Mission Scope{{/if}}</h3>
  <p>{{scope}}</p>
  {{/if}}

  <h3>{{#if isRtl}}المهام{{else}}Missions{{/if}}</h3>
  {{#if findings.length}}
  <table style=`width: 100%; border-collapse: collapse; margin-bottom: 16px;`>
    <thead>
      <tr style=`background: #f0f0f0;`>
        <th style=`border: 1px solid #ccc; padding: 8px;`>{{#if isRtl}}المهمة{{else}}Mission{{/if}}</th>
        <th style=`border: 1px solid #ccc; padding: 8px;`>{{#if isRtl}}الوصف{{else}}Description{{/if}}</th>
        <th style=`border: 1px solid #ccc; padding: 8px;`>{{#if isRtl}}المستوى{{else}}Level{{/if}}</th>
        <th style=`border: 1px solid #ccc; padding: 8px;`>{{#if isRtl}}الحالة{{else}}Status{{/if}}</th>
      </tr>
    </thead>
    <tbody>
      {{#each findings}}
      <tr>
        <td style=`border: 1px solid #ccc; padding: 8px;`>{{title}}</td>
        <td style=`border: 1px solid #ccc; padding: 8px;`>{{description}}</td>
        <td style=`border: 1px solid #ccc; padding: 8px;`>{{risk_level}}</td>
        <td style=`border: 1px solid #ccc; padding: 8px;`>{{status}}</td>
      </tr>
      {{/each}}
    </tbody>
  </table>
  {{else}}
  <p>{{#if isRtl}}لا توجد مهام{{else}}No missions{{/if}}</p>
  {{/if}}

  {{#if evidence}}
  <h3>{{#if isRtl}}الأدلة{{else}}Evidence{{/if}}</h3>
  <ul>
    {{#each evidence}}
    <li>{{description}}{{#if file_name}} ({{file_name}}){{/if}}</li>
    {{/each}}
  </ul>
  {{/if}}
</div>".

Definition recommendations_template : string := quoted "<div dir=`{{#if isRtl}}rtl{{else}}ltr{{/if}}` style=`font-family: Tahoma, sans-serif; padding: 20px;`>
  <h1 style=`text-align: center; margin-bottom: 8px;`>{{auditTitle}}</h1>
  <p style=`text-align: center; color: #555; margin-bottom: 24px;`>{{auditDate}} | {{auditorName}} | {{departmentName}}</p>

  {{#if recommendations.length}}
  <h3>{{#if isRtl}}التوصيات{{else}}Recommendations{{/if}}</h3>
  <table style=`width: 100%; border-collapse: collapse; margin-bottom: 16px;`>
    <thead>
      <tr style=`background: #f0f0f0;`>
        <th style=`border: 1px solid #ccc; padding: 8px;`>{{#if isRtl}}خطة العمل{{else}}Action Plan{{/if}}</th>
        <th style=`border: 1px solid #ccc; padding: 8px;`>{{#if isRtl}}المسؤول{{else}}Responsible{{/if}}</th>
        <th style=`border: 1px solid #ccc; padding: 8px;`>{{#if isRtl}}تاريخ الاستحقاق{{else}}Due Date{{/if}}</th>
        <th style=`border: 1px solid #ccc; padding: 8px;`>{{#if isRtl}}الحالة{{else}}Status{{/if}}</th>
      </tr>
    </thead>
    <tbody>
      {{#each recommendations}}
      <tr>
        <td style=`border: 1px solid #ccc; padding: 8px;`>{{action_plan}}</td>
        <td style=`border: 1px solid #ccc; padding: 8px;`>{{responsible}}</td>
        <td style=`border: 1px solid #ccc; padding: 8px;`>{{due_date}}</td>
        <td style=`border: 1px solid #ccc; padding: 8px;`>{{status}}</td>
      </tr>
      {{/each}}
    </tbody>
  </table>
  {{else}}
  <p>{{#if isRtl}}لا توجد توصيات{{else}}No recommendations{{/if}}</p>
  {{/if}}

  {{#if findings.length}}
  <h3>{{#if isRtl}}النتائج المرتبطة{{else}}Related Findings{{/if}}</h3>
  <ul>
    {{#each findings}}
    <li><strong>{{title}}</strong>{{#if description}} — {{description}}{{/if}}</li>
    {{/each}}
  </ul>
  {{/if}}
</div>".

Definition outgoing_letter_template : string := quoted "<div dir=`{{#if isRtl}}rtl{{else}}ltr{{/if}}` style=`font-family: Tahoma, sans-serif; padding: 20px;`>
  <div style=`text-align: {{#if isRtl}}right{{else}}left{{/if}}; margin-bottom: 32px;`>
    <p style=`margin: 4px 0;`><strong>{{#if isRtl}}التاريخ{{else}}Date{{/if}}:</strong> {{auditDate}}</p>
    <p style=`margin: 4px 0;`><strong>{{#if isRtl}}من{{else}}From{{/if}}:</strong> {{auditorName}}</p>
    <p style=`margin: 4px 0;`><strong>{{#if isRtl}}الإدارة{{else}}Department{{/if}}:</strong> {{departmentName}}</p>
  </div>

  <h2 style=`text-align: center; margin-bottom: 24px;`>{{auditTitle}}</h2>

  {{#if scope}}
  <p style=`margin-bottom: 16px;`>{{scope}}</p>
  {{/if}}

  {{#if findings.length}}
  <h3>{{#if isRtl}}التفاصيل{{else}}Details{{/if}}</h3>
  <ul>
    {{#each findings}}
    <li>{{title}}{{#if description}} — {{description}}{{/if}}</li>
    {{/each}}
  </ul>
  {{/if}}

  {{#if recommendations.length}}
  <h3>{{#if isRtl}}الإجراءات المطلوبة{{else}}Required Actions{{/if}}</h3>
  <ul>
    {{#each recommendations}}
    <li>{{action_plan}}{{#if due_date}} ({{#if ../isRtl}}بحلول{{else}}by{{/if}} {{due_date}}){{/if}}</li>
    {{/each}}
  </ul>
  {{/if}}

  <div style=`margin-top: 48px; text-align: {{#if isRtl}}left{{else}}right{{/if}};`>
    <p>{{#if isRtl}}مع التحية{{else}}Regards{{/if}},</p>
    <p><strong>{{auditorName}}</strong></p>
    <p>{{departmentName}}</p>
  </div>
</div>".

Definition general_template : string := quoted "<div dir=`{{#if isRtl}}rtl{{else}}ltr{{/if}}` style=`font-family: Tahoma, sans-serif; padding: 20px;`>
  <h1 style=`text-align: center; margin-bottom: 8px;`>{{auditTitle}}</h1>
  <p style=`text-align: center; color: #555; margin-bottom: 24px;`>{{auditDate}} | {{auditorName}} | {{departmentName}}</p>

  {{#if scope}}
  <p>{{scope}}</p>
  {{/if}}

  {{#if objectives}}
  <h3>{{#if isRtl}}الأهداف{{else}}Objectives{{/if}}</h3>
  <p>{{objectives}}</p>
  {{/if}}

  {{#if findings.length}}
  <h3>{{#if isRtl}}المحتوى{{else}}Content{{/if}}</h3>
  <table style=`width: 100%; border-collapse: collapse; margin-bottom: 16px;`>
    <thead>
      <tr style=`background: #f0f0f0;`>
        <th style=`border: 1px solid #ccc; padding: 8px;`>{{#if isRtl}}العنوان{{else}}Title{{/if}}</th>
        <th style=`border: 1px solid #ccc; padding: 8px;`>{{#if isRtl}}الوصف{{else}}Description{{/if}}</th>
        <th style=`border: 1px solid #ccc; padding: 8px;`>{{#if isRtl}}الحالة{{else}}Status{{/if}}</th>
      </tr>
    </thead>
    <tbody>
      {{#each findings}}
      <tr>
        <td style=`border: 1px solid #ccc; padding: 8px;`>{{title}}</td>
        <td style=`border: 1px solid #ccc; padding: 8px;`>{{description}}</td>
        <td style=`border: 1px solid #ccc; padding: 8px;`>{{status}}</td>
      </tr>
      {{/each}}
    </tbody>
  </table>
  {{else}}
  <p>{{#if isRtl}}لا يوجد محتوى{{else}}No content{{/if}}</p>
  {{/if}}
</div>".

(** [FALLBACK_TEMPLATES] *)
Definition FALLBACK_TEMPLATES : list (string * string) :=
  [("audit_report", audit_report_template);
   ("quarterly_report", quarterly_report_template);
   ("annual_report", annual_report_template);
   ("audit_plan", audit_plan_template);
   ("audit_missions", audit_missions_template);
   ("recommendations", recommendations_template);
   ("outgoing_letter", outgoing_letter_template);
   ("general", general_template)].


(** ** Blocks *)

(** Handlebars refuses a text whose blocks do not close in order.  The tags of a text that
    open or close a block, or divide one. *)
Inductive block_tag := Opens (name : string) | Divides | Closes (name : string).
Definition tag_of (t : string) : list block_tag :=
  match JsStrings.split " "%char t with
  | w :: _ =>
      match chars w with
      | c :: l => if bool_decide (c = "#"%char) then [Opens (of_chars l)] else if bool_decide (c = "/"%char) then [Closes (of_chars l)]
                  else if bool_decide (w = "else") then [Divides] else []
      | [] => []
      end
  | [] => []
  end.
(** The texts between two opening and two closing braces. *)
Fixpoint tags_from (inside : option (list ascii)) (l : list ascii) : list string :=
  match l with
  | a :: l' =>
      let doubled c := bool_decide (a = c) && bool_decide (head l' = Some c) in
      match inside with
      | None => tags_from (if doubled "{"%char then Some [] else None) l'
      | Some t => if doubled "}"%char then of_chars (tl (rev t)) :: tags_from None l' else tags_from (Some (a :: t)) l'
      end
  | [] => []
  end.
Fixpoint closes (stack : list string) (l : list block_tag) : bool :=
  match l with
  | [] => bool_decide (stack = [])
  | Opens n :: l' => closes (n :: stack) l'
  | Divides :: l' => negb (bool_decide (stack = [])) && closes stack l'
  | Closes n :: l' => match stack with m :: st => bool_decide (n = m) && closes st l' | [] => false end
  end.
Definition well_nested (t : string) : bool := closes [] (flat_map tag_of (tags_from None (chars t))).

(** every type of document has a built-in template, and the blocks of each of them close in
    order, so the template of last resort always parses. *)
Theorem fallback_templates_complete :
  map fst FALLBACK_TEMPLATES = TEMPLATE_TYPES ∧ forallb (λ x, well_nested x.2) FALLBACK_TEMPLATES = true ∧
  forallb (λ x, (10 <=? length (flat_map tag_of (tags_from None (chars x.2))))%nat) FALLBACK_TEMPLATES = true.
Proof. by vm_compute. Qed.
