(* ===== verification/PdfRendering.v ===== *)
(** * Rendering of documents ([services/PdfEngine.ts], [services/pdfHelpers.ts], [types/pdf.ts])

    The page around a document with its settings, the cache of compiled templates, the
    preview and the rendering with its timers and its second attempt.  Handlebars, the
    sanitizer, the browser and the pool it comes from are arguments: what each of their calls
    answers, and when.  In the texts a backtick stands for the double quote of the source. *)

From S2P Require Import Prelude JsMap JsStrings Json PdfTemplates FallbackTemplates.
Local Open Scope Z_scope.

(** ** Settings *)

Record PdfSettingsRow := {
  sr_font : string; sr_arabic_size : Z; sr_heading_size : Z; sr_subheading_size : Z; sr_table_size : Z; sr_rtl : Z; sr_top : Z; sr_right : Z;
  sr_bottom : Z; sr_left : Z; sr_header : option string; sr_footer : option string; sr_logo : string; sr_page_number : Z }.
Record PdfSettings := {
  st_font : string; st_arabic_size : Z; st_heading_size : Z; st_subheading_size : Z; st_table_size : Z; st_rtl : bool; st_top : Z; st_right : Z;
  st_bottom : Z; st_left : Z; st_header : option string; st_footer : option string; st_logo : string; st_page_number : bool }.
Definition mapRowToSettings (r : PdfSettingsRow) : PdfSettings :=
  {| st_font := r.(sr_font); st_arabic_size := r.(sr_arabic_size); st_heading_size := r.(sr_heading_size); st_subheading_size := r.(sr_subheading_size);
     st_table_size := r.(sr_table_size); st_rtl := r.(sr_rtl) =? 1; st_top := r.(sr_top); st_right := r.(sr_right); st_bottom := r.(sr_bottom);
     st_left := r.(sr_left); st_header := r.(sr_header); st_footer := r.(sr_footer); st_logo := r.(sr_logo); st_page_number := r.(sr_page_number) =? 1 |}.
(** [SettingsService.getPdfSettings], with the row it invents when there is none. *)
Definition getPdfSettings (row : option PdfSettingsRow) : PdfSettingsRow :=
  match row with
  | Some r => r
  | None =>
      {| sr_font := "Amiri"; sr_arabic_size := 12; sr_heading_size := 16; sr_subheading_size := 14; sr_table_size := 10; sr_rtl := 1; sr_top := 20;
         sr_right := 20; sr_bottom := 20; sr_left := 20; sr_header := Some ""; sr_footer := Some ""; sr_logo := "Right"; sr_page_number := 1 |}
  end.
Inductive language := Ar | En.
Definition language_text (l : language) : string := match l with Ar => "ar" | En => "en" end.

(** ** The page around a document *)

(** The characters a font name loses: brackets, braces, quotes and what ends a declaration. *)
Definition CSS_REMOVED : list ascii := chars (quoted "<>{}();'`\/").
(** [replace(/\s+/g, ' ')] *)
Fixpoint one_space (after_space : bool) (l : list ascii) : list ascii :=
  match l with
  | [] => []
  | c :: l' => if is_js_space c then if after_space then one_space true l' else " "%char :: one_space true l' else c :: one_space false l'
  end.
Definition sanitizeCssFontName (name : string) : string :=
  let cleaned := trim (of_chars (one_space false (List.filter (λ c, negb (bool_decide (c ∈ CSS_REMOVED))) (chars name)))) in
  if bool_decide (cleaned = "") then "sans-serif" else cleaned.
(** The columns are integers. *)
Definition sanitizeCssNumber (n : Z) : Z := if n <? 0 then 0 else n.
Definition number (n : Z) : string := pretty (Z.to_N n).

Definition page_head (settings : PdfSettings) (lang : language) : list string :=
  let isRtl := bool_decide (language_text lang = "ar") || settings.(st_rtl) in
  let dir := if isRtl then "rtl" else "ltr" in
  let safeFontName := sanitizeCssFontName settings.(st_font) in
  let fontFamily := if isRtl then "'" +:+ safeFontName +:+ "', Tahoma, 'Amiri', sans-serif" else "'" +:+ safeFontName +:+ "', sans-serif" in
  let arabicFontSize := sanitizeCssNumber settings.(st_arabic_size) in
  let headingFontSize := sanitizeCssNumber settings.(st_heading_size) in
  let subheadingFontSize := sanitizeCssNumber settings.(st_subheading_size) in
  let tableFontSize := sanitizeCssNumber settings.(st_table_size) in
  let marginTop := sanitizeCssNumber settings.(st_top) in
  let marginRight := sanitizeCssNumber settings.(st_right) in
  let marginBottom := sanitizeCssNumber settings.(st_bottom) in
  let marginLeft := sanitizeCssNumber settings.(st_left) in
  let language := language_text lang in
  [quoted "<!DOCTYPE html>
<html lang=`";
   language;
   quoted "` dir=`";
   dir;
   quoted "`>
<head>
  <meta charset=`UTF-8`>
  <meta name=`viewport` content=`width=device-width, initial-scale=1.0`>
  <style>
    @font-face {
      font-family: 'Tahoma';
      src: local('Tahoma');
    }
    @font-face {
      font-family: 'Amiri';
      src: local('Amiri');
    }

    * {
      box-sizing: border-box;
    }

    body {
      font-family: ";
   fontFamily;
   quoted ";
      font-size: ";
   number arabicFontSize;
   quoted "pt;
      direction: ";
   dir;
   quoted ";
      margin: 0;
      padding: ";
   number marginTop;
   quoted "mm ";
   number marginRight;
   quoted "mm ";
   number marginBottom;
   quoted "mm ";
   number marginLeft;
   quoted "mm;
      line-height: 1.6;
    }

    h1, h2, h3 {
      font-size: ";
   number headingFontSize;
   quoted "pt;
    }

    h4, h5, h6 {
      font-size: ";
   number subheadingFontSize;
   quoted "pt;
    }

    table {
      font-size: ";
   number tableFontSize;
   quoted "pt;
      width: 100%;
      border-collapse: collapse;
    }

    table th, table td {
      border: 1px solid #ddd;
      padding: 6px 8px;
      text-align: ";
   (if isRtl then "right" else "left");
   quoted ";
    }

    table th {
      background-color: #f5f5f5;
      font-weight: bold;
    }

    @media print {
      body {
        -webkit-print-color-adjust: exact;
        print-color-adjust: exact;
      }

      table {
        page-break-inside: auto;
      }

      tr {
        page-break-inside: avoid;
        page-break-after: auto;
      }

      h1, h2, h3, h4, h5, h6 {
        page-break-after: avoid;
      }

      img {
        max-width: 100%;
        page-break-inside: avoid;
      }
    }
  </style>
</head>
<body dir=`";
   dir;
   quoted "` style=`font-family: ";
   fontFamily;
   quoted "; font-size: ";
   number arabicFontSize;
   quoted "pt; direction: ";
   dir;
   quoted "; margin: 0; padding: ";
   number marginTop;
   quoted "mm ";
   number marginRight;
   quoted "mm ";
   number marginBottom;
   quoted "mm ";
   number marginLeft;
   quoted "mm;`>
  "].
Definition wrapWithStyles (bodyHtml : string) (settings : PdfSettings) (lang : language) : string :=
  String.concat "" (page_head settings lang) +:+ bodyHtml +:+ quoted "
</body>
</html>".

(** What [sanitizeHtml] asks of the sanitizer. *)
Record sanitize_options := { so_tags : list string; so_attributes : list (string * list string); so_schemes : list string; so_schemes_by_tag : list (string * list string) }.
Definition SANITIZE_OPTIONS : sanitize_options :=
  {| so_tags := ["div"; "span"; "p"; "br"; "hr"; "h1"; "h2"; "h3"; "h4"; "h5"; "h6"; "table"; "thead"; "tbody"; "tfoot"; "tr"; "td"; "th"; "caption"; "colgroup"; "col";
                 "ul"; "ol"; "li"; "strong"; "em"; "b"; "i"; "u"; "s"; "sub"; "sup"; "small"; "mark"; "a"; "img"; "blockquote"; "pre"; "code"; "section"; "article";
                 "header"; "footer"; "nav"; "aside"; "dl"; "dt"; "dd"; "figure"; "figcaption"];
     so_attributes := [("*", ["style"; "class"; "id"; "dir"; "lang"; "title"]); ("a", ["href"; "target"; "rel"]); ("img", ["src"; "alt"; "width"; "height"]);
                       ("td", ["colspan"; "rowspan"; "style"; "class"; "id"; "dir"]); ("th", ["colspan"; "rowspan"; "scope"; "style"; "class"; "id"; "dir"]);
                       ("col", ["span"; "style"]); ("colgroup", ["span"]); ("ol", ["start"; "type"])];
     so_schemes := ["data"; "http"; "https"; "mailto"];
     so_schemes_by_tag := [("img", ["data"; "https"; "http"]); ("a", ["http"; "https"; "mailto"])] |}.

(** [buildHeaderTemplate] and [buildFooterTemplate]; no module of the source calls them. *)
Definition truthy_option (v : option string) : bool := match v with Some t => negb (bool_decide (t = "")) | None => false end.
Definition buildHeaderTemplate (settings : PdfSettings) : string :=
  if bool_decide (settings.(st_logo) = "none") && negb (truthy_option settings.(st_header)) then "<div></div>"
  else if truthy_option settings.(st_header) then
    quoted "<div style=`width: 100%; font-size: 9px; padding: 0 10mm;`>
      " +:+ default "" settings.(st_header) +:+ "
    </div>"
  else
    let justify := default "center" (map_get settings.(st_logo) [("left", "flex-start"); ("center", "center"); ("right", "flex-end")]) in
    quoted "<div style=`width: 100%; display: flex; justify-content: " +:+ justify +:+ quoted "; align-items: center; padding: 5mm 10mm; font-size: 9px;`>
    <span class=`logo-placeholder` style=`font-size: 10px; color: #666;`>&#9679;</span>
  </div>".
Definition buildFooterTemplate (settings : PdfSettings) (lang : language) : string :=
  if negb settings.(st_page_number) && negb (truthy_option settings.(st_footer)) then "<div></div>"
  else if truthy_option settings.(st_footer) then
    quoted "<div style=`width: 100%; font-size: 9px; padding: 0 10mm;`>
      " +:+ default "" settings.(st_footer) +:+ "
    </div>"
  else
    let '(pageLabel, ofLabel, dir) := match lang with Ar => ("صفحة", "من", "rtl") | En => ("Page", "of", "ltr") end in
    quoted "<div style=`width: 100%; display: flex; justify-content: center; align-items: center; padding: 5mm 10mm; font-size: 9px; direction: " +:+ dir +:+ quoted ";`>
      <span>" +:+ pageLabel +:+ quoted " <span class=`pageNumber`></span> " +:+ ofLabel +:+ quoted " <span class=`totalPages`></span></span>
    </div>".

(** ** Compiled templates *)

Section templates.
Context {T : Type} (hb_compile : string → outcome string T) (hb_run : T → list (string * json) → outcome string string) (sanitize : sanitize_options → string → string).

Definition MAX_CACHE_SIZE : nat := 100.
(** A [Map] in insertion order, the least recently used first. *)
Definition template_cache : Type := list (string * T).
Definition cache_get (key : string) (c : template_cache) : option T * template_cache :=
  match map_get key c with
  | Some value => (Some value, map_set key value (map_delete key c))
  | None => (None, c)
  end.
Definition cache_set (key : string) (value : T) (c : template_cache) : template_cache :=
  let c := if map_has key c then map_delete key c else if (MAX_CACHE_SIZE <=? length c)%nat then tl c else c in
  map_set key value c.

Definition cache_key (t : PdfTemplate) : string := t.(tm_row).(pt_id) +:+ ":" +:+ pretty t.(tm_row).(pt_version).
Definition compileTemplate (t : PdfTemplate) (data : list (string * json)) (c : template_cache) : outcome string string * template_cache :=
  let '(found, c) := cache_get (cache_key t) c in
  match found with
  | Some compiled => (hb_run compiled data, c)
  | None =>
      match hb_compile t.(tm_row).(pt_content) with
      | Throw e => (Throw e, c)
      | Ok compiled => (hb_run compiled data, cache_set (cache_key t) compiled c)
      end
  end.

(** A key of [FALLBACK_TEMPLATES] that is not there has no text to compile. *)
Definition buildFallbackHtml (data : list (string * json)) (lang : language) (templateTypeKey : string) : outcome string string :=
  match map_get templateTypeKey FALLBACK_TEMPLATES with
  | None => Throw "You must pass a string or Handlebars AST to Handlebars.compile."
  | Some fallbackHtml =>
      match hb_compile fallbackHtml with
      | Throw e => Throw e
      | Ok compiled => hb_run compiled (map_set "isRtl" (JBool (bool_decide (language_text lang = "ar"))) data)
      end
  end.

(** [renderFromTemplate] and [renderFallback] up to the page that is rendered. *)
Definition template_page (template : option PdfTemplate) (data : list (string * json)) (settings : PdfSettings) (lang : language) (c : template_cache) :
    outcome string string * template_cache :=
  let '(html, c) :=
    match template with
    | Some t =>
        match compileTemplate t data c with
        | (Ok html, c') => (Ok html, c')
        | (Throw _, c') => (buildFallbackHtml data lang (if bool_decide (t.(tm_row).(pt_key) = "") then "general" else t.(tm_row).(pt_key)), c')
        end
    | None => (buildFallbackHtml data lang "general", c)
    end in
  (match html with Ok h => Ok (wrapWithStyles (sanitize SANITIZE_OPTIONS h) settings lang) | Throw e => Throw e end, c).
Definition fallback_page (data : list (string * json)) (settings : PdfSettings) (lang : language) (templateTypeKey : option string) : outcome string string :=
  match buildFallbackHtml data lang (default "general" templateTypeKey) with
  | Ok h => Ok (wrapWithStyles (sanitize SANITIZE_OPTIONS h) settings lang)
  | Throw e => Throw e
  end.

(** [/on line (\d+)/i] *)
Fixpoint line_number_in (l : list ascii) : option string :=
  match l with
  | [] => None
  | _ :: l' =>
      let here := of_chars (map lower_char l) in
      let digits := of_chars (take_while is_digit (drop 8 l)).1 in
      if starts_with here "on line " && negb (bool_decide (digits = "")) then Some digits else line_number_in l'
  end.
Definition extractLineNumber (errorMessage : string) : option N := decimal_value <$> line_number_in (chars errorMessage).
Definition replace_char (c : ascii) (by_ : string) (s : string) : string :=
  String.concat "" (map (λ x, if bool_decide (x = c) then by_ else String x "") (chars s)).
Definition escapeHtml (str : string) : string :=
  replace_char "'"%char "&#039;" (replace_char (Ascii.ascii_of_N 34) "&quot;" (replace_char ">"%char "&gt;" (replace_char "<"%char "&lt;" (replace_char "&"%char "&amp;" str)))).

(** [compilePreviewHtml]: the page, and the error with its line if there is one. *)
Definition error_box (message : string) : string :=
  quoted "<div style=`color: #dc2626; font-family: monospace; padding: 16px; border: 1px solid #dc2626; border-radius: 4px; background: #fef2f2;`>
          <h3 style=`margin: 0 0 8px;`>⚠️ Template Compilation Error</h3>
          <pre style=`margin: 0; white-space: pre-wrap; word-break: break-word;`>" +:+ escapeHtml message +:+ quoted "</pre>
          " +:+ match extractLineNumber message with
                | Some n => if bool_decide (n = 0%N) then "" else quoted "<p style=`margin: 8px 0 0; font-size: 0.875em; color: #991b1b;`>Line: " +:+ pretty n +:+ "</p>"
                | None => ""
                end +:+ "
        </div>".
Definition compilePreviewHtml (htmlContent : string) (data : list (string * json)) (settings : PdfSettings) (lang : language) :
    string * list (string * option N) :=
  match (match hb_compile htmlContent with Ok compiled => hb_run compiled data | Throw e => Throw e end) with
  | Ok renderedBody => (wrapWithStyles renderedBody settings lang, [])
  | Throw e => (wrapWithStyles (error_box e) settings lang, [(e, extractLineNumber e)])
  end.

(** The template [POST /pdf-templates/preview-pdf] makes of a text, and the page of it when
    there is no queue. *)
Definition preview_template (now : Z) (content : string) : PdfTemplate :=
  {| tm_row := {| pt_id := "preview"; pt_name := "Preview"; pt_key := "general"; pt_type := "general"; pt_content := content; pt_status := "Draft";
                  pt_is_default := 0; pt_version := 0; pt_created_by := "preview"; pt_updated_by := "preview"; pt_created_at := now; pt_updated_at := now |};
     tm_is_default := false |}.
Definition preview_language (settings : PdfSettings) : language := if settings.(st_rtl) then Ar else En.
Definition preview_page (now : Z) (content : string) (data : list (string * json)) (row : option PdfSettingsRow) (c : template_cache) : outcome string string * template_cache :=
  let settings := mapRowToSettings (getPdfSettings row) in
  template_page (Some (preview_template now content)) data settings (preview_language settings) c.
End templates.

(** ** Time, browsers and failures *)

(** What a call of the browser or of the pool does: it answers or fails after a time, or
    never answers.  A failure is shown as its name and message. *)
Inductive reply (A : Type) := Replies (after : Z) (v : A) | Breaks (after : Z) (message : string) | Silent.
Arguments Replies {A}.
Arguments Breaks {A}.
Arguments Silent {A}.
Inductive pdf_error := RenderTimeout (message : string) | JobTimeout (elapsed maximum : Z) | BrowserCrashed | Failure (message : string).
(** A call ends with a value or an error, or the caller waits for ever. *)
Inductive finish (A : Type) := Returned (v : A) | Raised (e : pdf_error) | Stuck.
Arguments Returned {A}.
Arguments Raised {A}.
Arguments Stuck {A}.
(** What the pool was told about a browser. *)
Inductive pool_call := Lent (browser : string) | GivenBack (browser : string) | Dropped (browser : string).
(** The clock, the renders of every browser the pool counts, and the calls of the pool. *)
Record job_state := { jb_now : Z; jb_meta : list (string * Z); jb_log : list pool_call }.
Definition job (A : Type) : Type := job_state → finish A * job_state.
#[export] Instance job_ret : MRet job := λ A v s, (Returned v, s).
#[export] Instance job_bind : MBind job := λ A B f m s,
  match m s with (Returned v, s1) => f v s1 | (Raised e, s1) => (Raised e, s1) | (Stuck, s1) => (Stuck, s1) end.
Definition raise {A} (e : pdf_error) : job A := λ s, (Raised e, s).
Definition later (t : Z) (s : job_state) : job_state := {| jb_now := s.(jb_now) + t; jb_meta := s.(jb_meta); jb_log := s.(jb_log) |}.
Definition with_meta (m : list (string * Z)) (s : job_state) : job_state := {| jb_now := s.(jb_now); jb_meta := m; jb_log := s.(jb_log) |}.
Definition tell_pool (c : pool_call) : job unit := λ s, (Returned tt, {| jb_now := s.(jb_now); jb_meta := s.(jb_meta); jb_log := s.(jb_log) ++ [c] |}).
Definition on_meta (f : list (string * Z) → list (string * Z)) : job unit := λ s, (Returned tt, with_meta (f s.(jb_meta)) s).
Definition await {A} (r : reply A) : job A := λ s,
  match r with Replies t v => (Returned v, later t s) | Breaks t m => (Raised (Failure m), later t s) | Silent => (Stuck, s) end.
(** [Promise.race] of a call and a timer. *)
Definition within {A} (ms : Z) (expired : Z → finish A) (r : reply A) : job A := λ s,
  let timer := let s' := later ms s in (expired s'.(jb_now), s') in
  match r with
  | Replies t v => if t <? ms then (Returned v, later t s) else timer
  | Breaks t m => if t <? ms then (Raised (Failure m), later t s) else timer
  | Silent => timer
  end.
Definition catching {A} (m : job A) (h : pdf_error → job A) : job A := λ s,
  match m s with (Raised e, s1) => h e s1 | r => r end.
(** [try .. finally ..]: what the second part throws replaces what the first one did. *)
Definition finally {A} (m : job A) (c : job unit) : job A := λ s,
  match m s with
  | (Stuck, s1) => (Stuck, s1)
  | (r, s1) => match c s1 with (Returned _, s2) => (r, s2) | (Raised e, s2) => (Raised e, s2) | (Stuck, s2) => (Stuck, s2) end
  end.
Definition ignoring (m : job unit) : job unit := catching m (λ _, mret tt).

(** ** The pool of browsers ([services/BrowserPool.ts]) *)

Definition MAX_POOL_SIZE : Z := 3.
Definition MAX_PAGES_PER_INSTANCE : Z := 50.
Definition ACQUIRE_TIMEOUT_MS : Z := 30000.
Definition DISPOSE_TIMEOUT_MS : Z := 10000.

(** What the pool and the browser answer to the calls of one acquisition. *)
Record acquisition := { aq_first : reply (string * bool); aq_destroy : reply unit; aq_second : reply string }.
Definition acquire_error (e : pdf_error) : pdf_error :=
  match e with
  | Failure m =>
      if includes m "timeout" || includes m "TimeoutError" then
        Failure ("BrowserPool acquire timeout: all " +:+ pretty MAX_POOL_SIZE +:+ " instances are busy and the request waited more than " +:+
                 pretty (ACQUIRE_TIMEOUT_MS / 1000) +:+ " seconds")
      else e
  | _ => e
  end.
Definition acquire (a : acquisition) : job string :=
  catching (x ← await a.(aq_first);
            let '(browser, connected) := x in
            _ ← tell_pool (Lent browser);
            if connected : bool then mret browser
            else (_ ← tell_pool (Dropped browser); _ ← await a.(aq_destroy); b ← await a.(aq_second); _ ← tell_pool (Lent b); mret b))
           (λ e, raise (acquire_error e)).
(** The pool's answer to the end of a loan, and whether the browser still runs.  After
    [dispose], which has no caller, there is no pool and [release] would do nothing. *)
Record release_reply := { rl_connected : bool; rl_destroy : reply unit; rl_release : reply unit }.
Definition count_render (browser : string) (m : list (string * Z)) : list (string * Z) :=
  match map_get browser m with Some n => map_set browser (n + 1) m | None => m end.
Definition release (browser : string) (r : release_reply) : job unit :=
  _ ← on_meta (count_render browser);
  if r.(rl_connected) then (_ ← tell_pool (GivenBack browser); await r.(rl_release))
  else (_ ← on_meta (map_delete browser); _ ← tell_pool (Dropped browser); _ ← ignoring (await r.(rl_destroy)); raise BrowserCrashed).

(** [validate]: the pool keeps the browser. *)
Definition validate (connected : bool) (browser : string) (m : list (string * Z)) : bool :=
  connected && match map_get browser m with Some n => negb (MAX_PAGES_PER_INSTANCE <=? n) | None => true end.

(** The callbacks of the pool and what becomes of its browsers.  [Borrow] and [Launch] are
    what the pool is documented to do with [testOnBorrow]: it lends a browser it has just
    launched or one that [validate] accepts, to one borrower at a time, and it holds no more
    than [MAX_POOL_SIZE]. *)
Record browsers := { bs_meta : list (string * Z); bs_idle : list string; bs_lent : list string }.
Definition set_browsers (m : list (string * Z)) (idle lent : list string) : browsers := {| bs_meta := m; bs_idle := idle; bs_lent := lent |}.
Inductive pool_step : browsers → browsers → Prop :=
  | Launch b s : b ∉ s.(bs_idle) → b ∉ s.(bs_lent) → b ∉ keys s.(bs_meta) → Z.of_nat (length s.(bs_idle) + length s.(bs_lent)) < MAX_POOL_SIZE →
      pool_step s (set_browsers (map_set b 0 s.(bs_meta)) s.(bs_idle) (b :: s.(bs_lent)))
  | Borrow b s : b ∈ s.(bs_idle) → validate true b s.(bs_meta) = true →
      pool_step s (set_browsers s.(bs_meta) (set_delete b s.(bs_idle)) (b :: s.(bs_lent)))
  | Retire b s : b ∈ s.(bs_idle) → pool_step s (set_browsers (map_delete b s.(bs_meta)) (set_delete b s.(bs_idle)) s.(bs_lent))
  | Disconnect b s : pool_step s (set_browsers (map_delete b s.(bs_meta)) s.(bs_idle) s.(bs_lent))
  | GiveBack b s : b ∈ s.(bs_lent) →
      pool_step s (set_browsers (count_render b s.(bs_meta)) (b :: s.(bs_idle)) (set_delete b s.(bs_lent)))
  | DropLent b s : b ∈ s.(bs_lent) →
      pool_step s (set_browsers (map_delete b s.(bs_meta)) s.(bs_idle) (set_delete b s.(bs_lent))).

(** [dispose]: the drained pool, or after [DISPOSE_TIMEOUT_MS] the browsers closed one by one. *)
Fixpoint close_all (closes : list (reply unit)) : job unit :=
  match closes with [] => mret tt | r :: l => _ ← ignoring (await r); close_all l end.
Record pool_state := { po_created : bool; po_disposed : bool }.
Definition ensurePool (p : pool_state) : outcome string pool_state :=
  if p.(po_disposed) then Throw "BrowserPool has been disposed" else Ok {| po_created := true; po_disposed := false |}.
Definition dispose (p : pool_state) (drain : reply unit) (closes : list (reply unit)) : job pool_state := λ s,
  let disposed := {| po_created := false; po_disposed := true |} in
  if p.(po_disposed) then (Returned p, s)
  else if negb p.(po_created) then (Returned disposed, with_meta [] s)
  else
    let emptied r := match r with (Returned _, s') => (Returned disposed, with_meta [] s') | (Raised e, s') => (Raised e, s') | (Stuck, s') => (Stuck, s') end in
    let forced := emptied (close_all closes (later DISPOSE_TIMEOUT_MS s)) in
    match drain with
    | Replies t _ => if t <? DISPOSE_TIMEOUT_MS then emptied (Returned tt, later t s) else forced
    | Breaks t m => if t <? DISPOSE_TIMEOUT_MS then (Raised (Failure m), later t s) else forced
    | Silent => forced
    end.

(** ** Rendering with the engine *)

Definition RENDER_TIMEOUT_MS : Z := 30000.
(** Requests of the page that are let through. *)
Definition request_allowed (url : string) : bool := starts_with url "data:" || starts_with url "about:" || starts_with url "blob:".
Record pdf_options := { po_margins : string * string * string * string; po_displayHeaderFooter : bool; po_headerTemplate : option string; po_footerTemplate : option string }.
Definition pdfOptions (settings : PdfSettings) : pdf_options :=
  let mm z := pretty z +:+ "mm" in
  {| po_margins := (mm settings.(st_top), mm settings.(st_right), mm settings.(st_bottom), mm settings.(st_left));
     po_displayHeaderFooter := truthy_option settings.(st_header) || truthy_option settings.(st_footer) || settings.(st_page_number);
     po_headerTemplate := if truthy_option settings.(st_header) then settings.(st_header) else None;
     po_footerTemplate := if truthy_option settings.(st_footer) || settings.(st_page_number) then Some (default "" settings.(st_footer)) else None |}.

Record attempt := {
  at_acquire : acquisition; at_new_page : reply unit; at_intercept : reply unit; at_content : reply unit; at_pdf : reply string; at_close : reply unit;
  at_release : release_reply }.
Definition render_timeout {A} (operation : string) (_ : Z) : finish A :=
  Raised (RenderTimeout ("Puppeteer " +:+ operation +:+ " exceeded " +:+ pretty (RENDER_TIMEOUT_MS / 1000) +:+ " second timeout")).
Definition replied {A} (r : reply A) : bool := match r with Replies _ _ => true | _ => false end.
Definition renderPdfAttempt (a : attempt) : job string :=
  browser ← acquire a.(at_acquire);
  finally (_ ← await a.(at_new_page);
           _ ← await a.(at_intercept);
           _ ← within RENDER_TIMEOUT_MS (render_timeout "setContent") a.(at_content);
           within RENDER_TIMEOUT_MS (render_timeout "page.pdf") a.(at_pdf))
          (_ ← (if replied a.(at_new_page) then ignoring (await a.(at_close)) else mret tt);
           catching (release browser a.(at_release)) (λ e, match e with BrowserCrashed => mret tt | _ => raise e end)).
Definition renderPdf (first second : attempt) : job string :=
  catching (renderPdfAttempt first) (λ e,
    match e with
    | RenderTimeout _ =>
        catching (renderPdfAttempt second) (λ e2,
          match e2 with
          | RenderTimeout _ => raise (Failure "PDF rendering timeout: Puppeteer exceeded 30 seconds on both attempts. The template may be too complex or contain external resources that cannot be loaded.")
          | _ => raise e2
          end)
    | _ => raise e
    end).
Definition renderFromTemplate {T} (hb_compile : string → outcome string T) hb_run sanitize (template : option PdfTemplate) (data : list (string * json))
    (settings : PdfSettings) (lang : language) (c : template_cache) (browser_does : string → attempt * attempt) : job string * template_cache :=
  let '(page, c') := template_page hb_compile hb_run sanitize template data settings lang c in
  (match page with Throw e => raise (Failure e) | Ok html => renderPdf (browser_does html).1 (browser_does html).2 end, c').

(** ** Properties of the page *)

Definition count_char (c : ascii) (s : string) : nat := length (List.filter (λ x, bool_decide (x = c)) (chars s)).
Lemma count_char_app c a b : count_char c (a +:+ b) = (count_char c a + count_char c b)%nat.
Proof. unfold count_char. by rewrite chars_app, List.filter_app, length_app. Qed.

Lemma count_char_none c s : c ∉ chars s → count_char c s = 0%nat.
Proof.
  unfold count_char. intros H. apply length_zero_iff_nil. apply select_nil. intros x Hx. apply bool_decide_eq_false. by intros ->.
Qed.

Lemma one_space_sub l : ∀ b c, c ∈ one_space b l → c ∈ l ∨ c = " "%char.
Proof.
  induction l as [|x l IH]; intros b c; cbn; [by left|]. destruct (is_js_space x), b; rewrite ?elem_of_cons.
  - intros H%IH. naive_solver. - intros [->|H%IH]; naive_solver. - intros [->|H%IH]; naive_solver. - intros [->|H%IH]; naive_solver.
Qed.

Lemma drop_while_sub {A} (p : A → bool) l c : c ∈ drop_while p l → c ∈ l.
Proof. induction l as [|x l IH]; cbn; [done|]. destruct (p x); [|done]. intros H%IH. by right. Qed.

Lemma elem_of_rev {A} (x : A) l : x ∈ rev l ↔ x ∈ l.
Proof. by rewrite !list_elem_of_In, <- in_rev. Qed.

Lemma trim_sub s c : c ∈ chars (trim s) → c ∈ chars s.
Proof.
  unfold trim. rewrite chars_of_chars. rewrite elem_of_rev. intros H%drop_while_sub. rewrite elem_of_rev in H. by apply drop_while_sub in H.
Qed.

(** No character of a cleaned font name ends the text, the declaration or the element it stands in. *)
Lemma font_name_clean name c : c ∈ CSS_REMOVED → c ∉ chars (sanitizeCssFontName name).
Proof.
  intros Hc. unfold sanitizeCssFontName. case_bool_decide; [|intros Hin%trim_sub].
  - intros Hin. assert (Hd : forallb (λ c, negb (bool_decide (c ∈ CSS_REMOVED))) (chars "sans-serif") = true) by by vm_compute.
    rewrite forallb_forall in Hd. apply list_elem_of_In, Hd in Hin. by rewrite bool_decide_eq_true_2 in Hin.
  - rewrite chars_of_chars in Hin. apply one_space_sub in Hin as [[_ Hin%negb_true_iff%bool_decide_eq_false]%elem_of_select| ->]; [done|].
    assert (Hd : negb (bool_decide (" "%char ∈ CSS_REMOVED)) = true) by by vm_compute. by rewrite bool_decide_eq_true_2 in Hd.
Qed.

Lemma number_clean n c : c ∈ CSS_REMOVED → count_char c (number n) = 0%nat.
Proof.
  intros Hc. apply count_char_none. intros Hin. pose proof (pretty_digits (Z.to_N n)) as Hd. unfold all_chars in Hd. rewrite forallb_forall in Hd.
  apply list_elem_of_In, Hd in Hin. assert (Hn : forallb (λ c, negb (is_digit c)) CSS_REMOVED = true) by by vm_compute.
  rewrite forallb_forall in Hn. apply list_elem_of_In, Hn in Hc. by rewrite Hin in Hc.
Qed.

Lemma count_char_concat c l : count_char c (String.concat "" l) = list_sum (map (count_char c) l).
Proof.
  induction l as [|x l IH]; [done|]. destruct l as [|y l].
  - cbn [String.concat map list_sum fold_right]. change (list_sum [count_char c x]) with (count_char c x + 0)%nat. lia.
  - change (String.concat "" (x :: y :: l)) with (x +:+ "" +:+ String.concat "" (y :: l)). rewrite !count_char_app, IH. done.
Qed.

(** The settings a document would have without any. *)
Definition plain_settings (rtl : bool) : PdfSettings :=
  {| st_font := ""; st_arabic_size := 0; st_heading_size := 0; st_subheading_size := 0; st_table_size := 0; st_rtl := rtl; st_top := 0; st_right := 0;
     st_bottom := 0; st_left := 0; st_header := None; st_footer := None; st_logo := ""; st_page_number := false |}.

(** whatever the settings hold, they bring no character into the page that ends a text, a
    declaration, a rule or an element: of each of these the page has exactly as many as the
    page without settings, and the document stands in it as it is. *)
Theorem settings_add_no_markup body settings lang c :
  c ∈ CSS_REMOVED ->
  count_char c (wrapWithStyles body settings lang) = count_char c (wrapWithStyles body (plain_settings settings.(st_rtl)) lang).
Proof.
  intros Hc. unfold wrapWithStyles. rewrite !count_char_app, !count_char_concat. f_equal. unfold page_head. cbn [plain_settings st_rtl].
  pose proof (fun name => count_char_none c _ (font_name_clean name c Hc)) as Hfont. pose proof (fun n => number_clean n c Hc) as Hnum.
  destruct (bool_decide _ || _); cbn [map]; rewrite !count_char_app, !Hfont, !Hnum; reflexivity.
Qed.

Lemma chars_concat l : chars (String.concat "" l) = flat_map chars l.
Proof.
  induction l as [|x l IH]; [done|]. destruct l as [|y l]; [cbn [flat_map]; by rewrite app_nil_r|].
  change (String.concat "" (x :: y :: l)) with (x +:+ "" +:+ String.concat "" (y :: l)). rewrite !chars_app, IH. done.
Qed.

Lemma replace_char_chars c by_ s : chars (replace_char c by_ s) = flat_map (λ x, if bool_decide (x = c) then chars by_ else [x]) (chars s).
Proof.
  unfold replace_char. rewrite chars_concat. induction (chars s) as [|x l IH]; [done|]. cbn [map flat_map]. rewrite IH. by destruct (bool_decide (x = c)).
Qed.

Lemma replace_char_elem x c by_ s : x ∈ chars (replace_char c by_ s) → x ∈ chars by_ ∨ x ∈ chars s ∧ x ≠ c.
Proof.
  rewrite replace_char_chars, list_elem_of_In, in_flat_map. intros (y & Hy%list_elem_of_In & Hx). rewrite <- list_elem_of_In in Hx.
  case_bool_decide; [by left|]. apply list_elem_of_singleton in Hx as ->. by right.
Qed.

(** what is printed in the error box of the preview cannot open an element or end an
    attribute: the escaped text has no angle bracket and no quote. *)
Theorem escaped_text_is_inert t c : c ∈ chars (quoted "<>'`") -> c ∉ chars (escapeHtml t).
Proof.
  intros Hc Hin. assert (Hd : forallb (fun c => negb (bool_decide (c ∈ chars "&#039;&quot;&gt;&lt;&amp;"))) (chars (quoted "<>'`")) = true) by by vm_compute.
  rewrite forallb_forall in Hd. pose proof (Hd c (proj1 (list_elem_of_In _ _) Hc)) as Hne%negb_true_iff%bool_decide_eq_false. clear Hd.
  assert (Hent : forall t, (exists a b, "&#039;&quot;&gt;&lt;&amp;" = a +:+ t +:+ b) -> c ∉ chars t).
  { intros u (a & b & Heq) Hu. apply Hne. rewrite Heq, !chars_app. apply elem_of_app. right. apply elem_of_app. by left. }
  unfold escapeHtml in Hin.
  apply replace_char_elem in Hin as [H|[Hin H1]]; [revert H; apply Hent; by exists "", "&quot;&gt;&lt;&amp;"|].
  apply replace_char_elem in Hin as [H|[Hin H2]]; [revert H; apply Hent; by exists "&#039;", "&gt;&lt;&amp;"|].
  apply replace_char_elem in Hin as [H|[Hin H3]]; [revert H; apply Hent; by exists "&#039;&quot;", "&lt;&amp;"|].
  apply replace_char_elem in Hin as [H|[Hin H4]]; [revert H; apply Hent; by exists "&#039;&quot;&gt;", "&amp;"|].
  assert (Hall : forallb (fun c => bool_decide (c ∈ ["'"%char; Ascii.ascii_of_N 34; ">"%char; "<"%char])) (chars (quoted "<>'`")) = true) by by vm_compute.
  rewrite forallb_forall in Hall. apply list_elem_of_In, Hall, bool_decide_eq_true in Hc. set_solver.
Qed.

(** nothing the sanitizer is told to keep runs a script or loads a foreign element: no such
    tag, no event handler and no scheme but the four that name data and documents. *)
Theorem sanitizer_keeps_no_script :
  forallb (λ t, negb (bool_decide (t ∈ ["script"; "style"; "iframe"; "object"; "embed"; "form"; "input"; "link"; "meta"; "base"; "svg"; "math"]))) SANITIZE_OPTIONS.(so_tags) = true ∧
  forallb (λ x, forallb (λ a, negb (starts_with a "on")) x.2) SANITIZE_OPTIONS.(so_attributes) = true ∧
  forallb (λ x, forallb (λ a, bool_decide (a ∈ SANITIZE_OPTIONS.(so_schemes)) && negb (bool_decide (a = "javascript"))) x.2) SANITIZE_OPTIONS.(so_schemes_by_tag) = true.
Proof. by vm_compute. Qed.

(** ** Properties of the cache of templates *)

Section cache.
Context {T : Type} (hb_compile : string → outcome string T) (hb_run : T → list (string * json) → outcome string string).

(** A template without the cache. *)
Definition compiled_fresh (t : PdfTemplate) (data : list (string * json)) : outcome string string :=
  match hb_compile t.(tm_row).(pt_content) with Ok compiled => hb_run compiled data | Throw e => Throw e end.
(** The pages of a list of renderings, one after the other. *)
Fixpoint render_all (l : list (PdfTemplate * list (string * json))) (c : list (string * T)) : list (outcome string string) * list (string * T) :=
  match l with
  | [] => ([], c)
  | (t, data) :: l' =>
      let '(r, c1) := compileTemplate hb_compile hb_run t data c in
      let '(rs, c2) := render_all l' c1 in (r :: rs, c2)
  end.

(** Every entry is the compiled text of a template of the list. *)
Definition cached_of (l : list PdfTemplate) (c : list (string * T)) : Prop :=
  map_wf c ∧ (length c ≤ MAX_CACHE_SIZE)%nat ∧
  ∀ k v, map_get k c = Some v → ∃ t, t ∈ l ∧ cache_key t = k ∧ hb_compile t.(tm_row).(pt_content) = Ok v.

Lemma cached_touch l c k v : cached_of l c → map_get k c = Some v → cached_of l (map_set k v (map_delete k c)).
Proof.
  intros (Hwf & Hlen & Hs) Hk. assert (Hin : k ∈ keys c) by (destruct (decide (k ∈ keys c)) as [|Hn]; [done|]; by apply map_get_None in Hn; congruence).
  assert (Hnk : k ∉ keys (map_delete k c)) by (rewrite elem_of_keys_delete; tauto). split_and!.
  - by apply map_set_wf, map_delete_wf.
  - rewrite map_set_absent, length_app by done. pose proof (length_map_delete_present k c Hin). cbn. lia.
  - intros k' v' Hk'. destruct (decide (k' = k)) as [->|Hne]; [rewrite map_get_set_eq in Hk'; injection Hk' as <-; by apply Hs|].
    rewrite map_get_set_ne, map_get_delete_ne in Hk' by done. by apply Hs.
Qed.

Lemma map_get_tl k v (c : list (string * T)) : map_wf c → map_get k (tl c) = Some v → map_get k c = Some v.
Proof.
  intros Hwf Hk. apply map_get_elem; [done|]. apply map_get_Some_elem in Hk. destruct c as [|x c]; [done|]. by right.
Qed.

Lemma cached_add l c t v : cached_of l c → t ∈ l → hb_compile t.(tm_row).(pt_content) = Ok v → map_get (cache_key t) c = None →
  cached_of l (cache_set (cache_key t) v c).
Proof.
  intros (Hwf & Hlen & Hs) Ht Hv Hnone. unfold cache_set, map_has. rewrite bool_decide_eq_false_2 by (rewrite Hnone; by intros [? [=]]).
  set (c' := if (MAX_CACHE_SIZE <=? length c)%nat then tl c else c).
  assert (Hc' : map_wf c' ∧ (length c' < MAX_CACHE_SIZE)%nat ∧ ∀ k v, map_get k c' = Some v → map_get k c = Some v).
  { subst c'. destruct (Nat.leb_spec MAX_CACHE_SIZE (length c)) as [Hge|Hlt]; [|done]. split_and!.
    - unfold map_wf, keys in *. destruct c as [|x c]; [done|]. by apply NoDup_cons in Hwf as [_ ?].
    - destruct c as [|x c]; cbn in *; [unfold MAX_CACHE_SIZE in Hge; lia|lia].
    - intros k w. by apply map_get_tl. }
  destruct Hc' as (Hwf' & Hlen' & Hsub). assert (Hni : cache_key t ∉ keys c').
  { apply map_get_None. destruct (map_get (cache_key t) c') as [w|] eqn:Hw; [apply Hsub in Hw; congruence|done]. }
  split_and!.
  - by apply map_set_wf.
  - rewrite map_set_absent, length_app by done. cbn. lia.
  - intros k' v' Hk'. destruct (decide (k' = cache_key t)) as [->|Hne]; [rewrite map_get_set_eq in Hk'; injection Hk' as <-; by exists t|].
    rewrite map_get_set_ne in Hk' by done. by apply Hs, Hsub.
Qed.

Lemma compile_cached l t data c : cached_of l c → t ∈ l →
  (∀ t', t' ∈ l → cache_key t' = cache_key t → t'.(tm_row).(pt_content) = t.(tm_row).(pt_content)) →
  (compileTemplate hb_compile hb_run t data c).1 = compiled_fresh t data ∧ cached_of l (compileTemplate hb_compile hb_run t data c).2.
Proof.
  intros Hc Ht Hsame. unfold compileTemplate, cache_get, compiled_fresh. destruct (map_get (cache_key t) c) as [v|] eqn:Hk.
  - destruct (Hc) as (_ & _ & Hs). destruct (Hs _ _ Hk) as (t' & Ht' & Hkey & Hv). rewrite (Hsame t' Ht' Hkey) in Hv. rewrite Hv.
    split; [done|]. by apply cached_touch.
  - destruct (hb_compile (pt_content (tm_row t))) as [v|e] eqn:Hv; [|done]. split; [done|]. by apply cached_add.
Qed.

Lemma last_separator {A} (c : A) a1 b1 a2 b2 : a1 ++ c :: b1 = a2 ++ c :: b2 → c ∉ b1 → c ∉ b2 → a1 = a2 ∧ b1 = b2.
Proof.
  revert a2. induction a1 as [|x a1 IH]; intros [|y a2]; cbn; intros Heq H1 H2; simplify_eq/=; [done|set_solver..|].
  destruct (IH a2) as [-> ->]; done.
Qed.

Lemma pretty_no_colon (v : Z) : ":"%char ∉ chars (pretty v).
Proof.
  assert (HN : ∀ n : N, ":"%char ∉ chars (pretty n)).
  { intros n Hin. pose proof (pretty_digits n) as Hd. unfold all_chars in Hd. rewrite forallb_forall in Hd. by apply list_elem_of_In, Hd in Hin. }
  destruct v as [|p|p]; [by vm_compute; set_solver|exact (HN (Npos p))|].
  change (pretty (Z.neg p)) with ("-" +:+ pretty (Npos p)). rewrite chars_app, elem_of_app. intros [Hin|Hin]; [|by apply (HN (Npos p))]. cbn in Hin. set_solver.
Qed.

(** The key tells templates and versions apart. *)
Lemma cache_key_inj t t' : cache_key t = cache_key t' → t.(tm_row).(pt_id) = t'.(tm_row).(pt_id) ∧ t.(tm_row).(pt_version) = t'.(tm_row).(pt_version).
Proof.
  intros H. apply (f_equal chars) in H. unfold cache_key in H. rewrite !chars_app in H. change (chars ":") with [":"%char] in H. cbn [app] in H.
  apply last_separator in H as [H1 H2]; [|apply pretty_no_colon..]. apply (f_equal of_chars) in H1, H2. rewrite !of_chars_chars in H1, H2.
  split; [done|by apply (inj pretty)].
Qed.

(** C39: as long as the templates with one identifier and one version have one text, the cache is
    invisible: every rendering gives what compiling the text again would give, in whatever
    order, and the cache never holds more than a hundred templates. *)
Theorem cache_is_transparent l :
  (forall t t', t ∈ map fst l -> t' ∈ map fst l -> t.(tm_row).(pt_id) = t'.(tm_row).(pt_id) -> t.(tm_row).(pt_version) = t'.(tm_row).(pt_version) ->
     t.(tm_row).(pt_content) = t'.(tm_row).(pt_content)) ->
  (render_all l []).1 = map (fun x => compiled_fresh x.1 x.2) l /\ (length (render_all l []).2 <= MAX_CACHE_SIZE)%nat.
Proof.
  intros Hsame'. assert (Hsame : forall t t', t ∈ map fst l -> t' ∈ map fst l -> cache_key t = cache_key t' -> t.(tm_row).(pt_content) = t'.(tm_row).(pt_content))
    by (intros t t' Ht Ht' [H1 H2]%cache_key_inj; by apply Hsame').
  assert (Hgen : forall l' c, (forall x, x ∈ map fst l' -> x ∈ map fst l) -> cached_of (map fst l) c ->
    (render_all l' c).1 = map (fun x => compiled_fresh x.1 x.2) l' /\ cached_of (map fst l) (render_all l' c).2).
  { intros l'. induction l' as [|[t data] l' IH]; intros c Hin Hc; [done|]. cbn [render_all map].
    assert (Ht : t ∈ map fst l) by (apply Hin; left).
    destruct (compile_cached _ t data c Hc Ht) as [H1 H2]; [intros t' Ht' Hk; by apply Hsame|].
    destruct (compileTemplate _ _ _ _ _) as [r c1]. cbn in H1, H2. destruct (IH c1) as [H3 H4]; [intros x Hx; apply Hin; by right|done|].
    destruct (render_all l' c1) as [rs c2]. cbn in *. by rewrite H1, H3. }
  destruct (Hgen l []) as [H1 (_ & H2 & _)]; [done| |by split].
  split_and!; [by constructor|cbn; unfold MAX_CACHE_SIZE; lia|done].
Qed.

Lemma template_page_result sanitize t data settings lang c :
  template_page hb_compile hb_run sanitize (Some t) data settings lang c =
  (match match (compileTemplate hb_compile hb_run t data c).1 with
         | Ok html => Ok html
         | Throw _ => buildFallbackHtml hb_compile hb_run data lang (if bool_decide (t.(tm_row).(pt_key) = "") then "general" else t.(tm_row).(pt_key))
         end with
   | Ok h => Ok (wrapWithStyles (sanitize SANITIZE_OPTIONS h) settings lang)
   | Throw e => Throw e
   end, (compileTemplate hb_compile hb_run t data c).2).
Proof. unfold template_page. by destruct (compileTemplate _ _ _ _ _) as [[html|e] c']. Qed.

(** the preview of a text is cached under one key for every text: once a preview was rendered,
    the next one shows its text with the new data, whatever it asks for. *)
Theorem preview_shows_first_text sanitize now1 now2 text1 text2 data1 data2 row compiled :
  hb_compile text1 = Ok compiled ->
  (preview_page hb_compile hb_run sanitize now2 text2 data2 row (preview_page hb_compile hb_run sanitize now1 text1 data1 row []).2).1 =
  (preview_page hb_compile hb_run sanitize now2 text1 data2 row []).1.
Proof.
  intros H1. unfold preview_page. rewrite !template_page_result. cbn [fst snd].
  assert (Hfirst : forall now data, compileTemplate hb_compile hb_run (preview_template now text1) data [] = (hb_run compiled data, [("preview:0", compiled)])).
  { intros now data. unfold compileTemplate. change (cache_key (preview_template now text1)) with "preview:0".
    change (pt_content (tm_row (preview_template now text1))) with text1. cbn [cache_get map_get]. by rewrite H1. }
  rewrite !Hfirst. cbn [snd fst]. assert (Hsecond : compileTemplate hb_compile hb_run (preview_template now2 text2) data2 [("preview:0", compiled)] =
    (hb_run compiled data2, [("preview:0", compiled)])) by done. by rewrite Hsecond.
Qed.
End cache.

(** ** Properties of the rendering *)

(** Loans of a browser that are still open after some calls. *)
Definition loan (b : string) (c : pool_call) : Z :=
  match c with Lent x => if bool_decide (x = b) then 1 else 0 | GivenBack x | Dropped x => if bool_decide (x = b) then -1 else 0 end.
Definition open_loans (b : string) (l : list pool_call) : Z := fold_right (λ c n, loan b c + n) 0 l.
Lemma open_loans_app b l1 l2 : open_loans b (l1 ++ l2) = open_loans b l1 + open_loans b l2.
Proof. unfold open_loans. induction l1 as [|c l1 IH]; [done|]. cbn. lia. Qed.

Definition time_of {A} (r : reply A) : Z := match r with Replies t _ | Breaks t _ => t | Silent => 0 end.
Definition speaks {A} (r : reply A) : Prop := match r with Replies t _ | Breaks t _ => 0 <= t | Silent => False end.
(** A reply that may never come, but not before it is asked for. *)
Definition forward {A} (r : reply A) : Prop := match r with Replies t _ | Breaks t _ => 0 <= t | Silent => True end.

(** The error is not that of a crashed browser. *)
Definition no_crash {A} (r : finish A) : Prop := match r with Raised BrowserCrashed => False | _ => True end.

Section settling.
Context (n : Z).
(** Begun at [n] or later, [m] ends after at most [k], with a result and calls of the pool as
    [Q] says. *)
Definition settles {A} (m : job A) (Q : finish A → list pool_call → Prop) (k : Z) : Prop :=
  ∀ s, n <= s.(jb_now) → ∃ r s' l, m s = (r, s') ∧ r ≠ Stuck ∧ s'.(jb_log) = s.(jb_log) ++ l ∧ Q r l ∧ s.(jb_now) <= s'.(jb_now) <= s.(jb_now) + k.

Lemma settles_weaken {A} (m : job A) (Q Q' : finish A → list pool_call → Prop) k k' :
  settles m Q k → (∀ r l, Q r l → Q' r l) → k <= k' → settles m Q' k'.
Proof. intros H HQ Hk s Hs. destruct (H s Hs) as (r & s' & l & ? & ? & ? & ? & ?). exists r, s', l. split_and!; auto; lia. Qed.

Lemma settles_ret {A} (v : A) (Q : finish A → list pool_call → Prop) : Q (Returned v) [] → settles (mret v) Q 0.
Proof. intros H s Hs. exists (Returned v), s, []. rewrite app_nil_r. split_and!; try done; lia. Qed.
Lemma settles_raise {A} e (Q : finish A → list pool_call → Prop) : Q (Raised e) [] → settles (raise e) Q 0.
Proof. intros H s Hs. exists (Raised e), s, []. rewrite app_nil_r. split_and!; try done; lia. Qed.
Lemma settles_tell c (Q : finish unit → list pool_call → Prop) : Q (Returned tt) [c] → settles (tell_pool c) Q 0.
Proof. intros H s Hs. eexists _, _, [c]. split_and!; [done..|cbn; lia|cbn; lia]. Qed.
Lemma settles_meta f (Q : finish unit → list pool_call → Prop) : Q (Returned tt) [] → settles (on_meta f) Q 0.
Proof. intros H s Hs. eexists _, _, []. rewrite app_nil_r. split_and!; [done..|cbn; lia|cbn; lia]. Qed.
Lemma settles_await {A} (x : reply A) (Q : finish A → list pool_call → Prop) :
  speaks x → (∀ r, no_crash r → Q r []) → settles (await x) Q (time_of x).
Proof. intros Hx HQ s Hs. destruct x as [t v|t m|]; [| |done]; eexists _, _, []; rewrite app_nil_r; cbn in *; split_and!; try done; try (by apply HQ); auto; cbn; lia. Qed.
Lemma settles_within {A} ms (expired : Z → finish A) (x : reply A) (Q : finish A → list pool_call → Prop) :
  0 <= ms → forward x → (∀ t, expired t ≠ Stuck) → (∀ t, no_crash (expired t)) → (∀ r, no_crash r → Q r []) → settles (within ms expired x) Q ms.
Proof.
  intros Hms Hx He He' HQ s Hs. unfold within. destruct x as [t v|t m|]; cbn in Hx;
    repeat match goal with |- context [?a <? ?b] => destruct (Z.ltb_spec a b) end; eexists _, _, []; rewrite app_nil_r; cbn; split_and!; try done; try (by apply HQ); auto; cbn; lia.
Qed.

Lemma settles_bind {A B} (m : job A) (f : A → job B) (Q : finish A → list pool_call → Prop) (Q' : finish B → list pool_call → Prop) k1 k2 :
  settles m Q k1 → (∀ v l, Q (Returned v) l → settles (f v) (λ r l', Q' r (l ++ l')) k2) → (∀ e l, Q (Raised e) l → Q' (Raised e) l) → 0 <= k2 →
  settles (m ≫= f) Q' (k1 + k2).
Proof.
  intros Hm Hf He Hk s Hs. destruct (Hm s Hs) as ([v|e|] & s1 & l1 & Hs1 & ? & Hl1 & HQ & Hn1); [| |done].
  - destruct (Hf v l1 HQ s1 ltac:(lia)) as (r & s2 & l2 & Hs2 & ? & Hl2 & HQ2 & Hn2). exists r, s2, (l1 ++ l2). unfold mbind, job_bind. rewrite Hs1.
    rewrite app_assoc, <- Hl1. split_and!; try done; lia.
  - exists (Raised e), s1, l1. unfold mbind, job_bind. rewrite Hs1. split_and!; auto; lia.
Qed.
Lemma settles_catching {A} (m : job A) h (Q Q' : finish A → list pool_call → Prop) k1 k2 :
  settles m Q k1 → (∀ v l, Q (Returned v) l → Q' (Returned v) l) → (∀ e l, Q (Raised e) l → settles (h e) (λ r l', Q' r (l ++ l')) k2) → 0 <= k2 →
  settles (catching m h) Q' (k1 + k2).
Proof.
  intros Hm Hv Hh Hk s Hs. destruct (Hm s Hs) as ([v|e|] & s1 & l1 & Hs1 & ? & Hl1 & HQ & Hn1); [| |done].
  - exists (Returned v), s1, l1. unfold catching. rewrite Hs1. split_and!; auto; lia.
  - destruct (Hh e l1 HQ s1 ltac:(lia)) as (r & s2 & l2 & Hs2 & ? & Hl2 & HQ2 & Hn2). exists r, s2, (l1 ++ l2). unfold catching. rewrite Hs1.
    rewrite app_assoc, <- Hl1. split_and!; try done; lia.
Qed.
Lemma settles_finally {A} (m : job A) c (Q : finish A → list pool_call → Prop) (Qc : finish unit → list pool_call → Prop) (Q' : finish A → list pool_call → Prop) k1 k2 :
  settles m Q k1 → settles c Qc k2 → (∀ r l u l', Q r l → Qc (Returned u) l' → Q' r (l ++ l')) → (∀ r l e l', Q r l → Qc (Raised e) l' → Q' (Raised e) (l ++ l')) →
  settles (finally m c) Q' (k1 + k2).
Proof.
  intros Hm Hc Hu He s Hs. destruct (Hm s Hs) as (r & s1 & l1 & Hs1 & Hr & Hl1 & HQ & Hn1).
  destruct (Hc s1 ltac:(lia)) as (rc & s2 & l2 & Hs2 & Hrc & Hl2 & HQc & Hn2).
  exists (match rc with Returned _ => r | Raised e => Raised e | Stuck => Stuck end), s2, (l1 ++ l2). unfold finally. rewrite Hs1, app_assoc, <- Hl1.
  destruct r; [| |done]; destruct rc; try done; rewrite Hs2; split_and!; try done; try lia; eauto.
Qed.
Lemma settles_ignoring m (Q : finish unit → list pool_call → Prop) k : settles m (λ _ l, l = []) k → Q (Returned tt) [] → settles (ignoring m) Q k.
Proof.
  intros Hm HQ. rewrite <- (Z.add_0_r k). eapply settles_catching; [exact Hm|by intros [] ? ->| |done]. intros e l ->. by apply settles_ret.
Qed.

(** Calls that leave every loan as it was, but for one more of [b]. *)
Definition lends (b : string) (l : list pool_call) : Prop := ∀ x, open_loans x l = if bool_decide (x = b) then 1 else 0.
Definition balanced (l : list pool_call) : Prop := ∀ x, open_loans x l = 0.

Definition acquisition_speaks (a : acquisition) : Prop := speaks a.(aq_first) ∧ speaks a.(aq_destroy) ∧ speaks a.(aq_second).
Definition acquisition_time (a : acquisition) : Z := time_of a.(aq_first) + time_of a.(aq_destroy) + time_of a.(aq_second).
Lemma speaks_time {A} (r : reply A) : speaks r → 0 <= time_of r.
Proof. by destruct r. Qed.

Lemma acquire_settles a : acquisition_speaks a →
  settles (acquire a) (λ r l, match r with Returned b => lends b l | _ => balanced l end) (acquisition_time a).
Proof.
  intros (H1 & H2 & H3). pose proof (speaks_time _ H2). pose proof (speaks_time _ H3). unfold acquire, acquisition_time.
  rewrite <- (Z.add_0_r (_ + _)). eapply settles_catching with (Q := λ r l, match r with Returned b => lends b l | _ => balanced l end);
    [|done| |done]; [|intros e l Hl; apply settles_raise; by rewrite app_nil_r].
  rewrite <- Z.add_assoc. eapply settles_bind; [apply settles_await with (Q := λ _ l, l = []); done| | |lia]; [|by intros e l ->].
  intros [b conn] l ->. cbn [app]. rewrite <- (Z.add_0_l (_ + _)).
  eapply settles_bind; [apply settles_tell with (Q := λ r l, l = [Lent b] ∧ ∃ u, r = Returned u); by eauto| | |lia]; [|by intros e l [_ [? [=]]]].
  intros _ l [-> _]. destruct conn.
  - eapply settles_weaken; [apply settles_ret with (Q := λ r l', r = Returned b ∧ l' = []); done| |lia].
    intros r l' [-> ->] x. cbn. repeat case_bool_decide; congruence || lia.
  - rewrite <- (Z.add_0_l (_ + _)).
    eapply settles_bind; [apply settles_tell with (Q := λ r l, l = [Dropped b]); done| | |lia]; [intros _ l ->|intros e l -> x; cbn; case_bool_decide; lia].
    eapply settles_bind; [apply settles_await with (Q := λ _ l, l = []); done| | |lia]; [intros _ l ->|intros e l -> x; cbn; case_bool_decide; lia].
    rewrite <- (Z.add_0_r (time_of _)).
    eapply settles_bind; [apply settles_await with (Q := λ _ l, l = []); done| | |lia]; [intros b2 l ->|intros e l -> x; cbn; case_bool_decide; lia].
    rewrite <- (Z.add_0_r 0). eapply settles_bind; [apply settles_tell with (Q := λ r l, l = [Lent b2] ∧ ∃ u, r = Returned u); by eauto| | |lia]; [|by intros e l [_ [? [=]]]].
    intros _ l [-> _]. apply settles_ret. intros x. cbn. repeat case_bool_decide; congruence || lia.
Qed.

Definition release_speaks (r : release_reply) : Prop := speaks r.(rl_destroy) ∧ speaks r.(rl_release).
Definition release_time (r : release_reply) : Z := time_of r.(rl_destroy) + time_of r.(rl_release).
(** The end of a loan: the pool is told once, whatever it answers. *)
Definition ends_loan (b : string) (l : list pool_call) : Prop := l = [GivenBack b] ∨ l = [Dropped b].
Lemma ends_loan_lends b l l' : lends b l → ends_loan b l' → balanced (l ++ l').
Proof. intros Hl [->| ->] x; rewrite open_loans_app, Hl; cbn; repeat case_bool_decide; congruence || lia. Qed.

Lemma release_settles b r : release_speaks r →
  settles (release b r) (λ f l, ends_loan b l ∧ (r.(rl_connected) = true → f ≠ Raised BrowserCrashed)) (release_time r).
Proof.
  intros [H1 H2]. pose proof (speaks_time _ H1). pose proof (speaks_time _ H2). unfold release, release_time. rewrite <- (Z.add_0_l (_ + _)).
  eapply settles_bind; [apply settles_meta with (Q := λ r l, l = [] ∧ ∃ u, r = Returned u); by eauto| | |lia]; [|by intros e l [_ [? [=]]]].
  intros _ l [-> _]. cbn [app]. destruct r.(rl_connected) eqn:Hc; rewrite <- (Z.add_0_l (_ + _)).
  - eapply settles_bind; [apply settles_tell with (Q := λ r l, l = [GivenBack b] ∧ ∃ u, r = Returned u); by eauto| | |lia]; [|by intros e l [_ [? [=]]]].
    intros _ l [-> _] s Hs. destruct (rl_release r) as [t v|t m|]; [| |done]; eexists _, _, []; rewrite app_nil_r; cbn in *; split_and!; try done; try (cbn; lia); by left.
  - eapply settles_bind; [apply settles_meta with (Q := λ r l, l = [] ∧ ∃ u, r = Returned u); by eauto| | |lia]; [|by intros e l [_ [? [=]]]].
    intros _ l [-> _]. cbn [app]. rewrite <- (Z.add_0_l (_ + _)).
    eapply settles_bind; [apply settles_tell with (Q := λ r l, l = [Dropped b] ∧ ∃ u, r = Returned u); by eauto| | |lia]; [|by intros e l [_ [? [=]]]].
    intros _ l [-> _]. eapply settles_weaken with (k := time_of (rl_destroy r) + 0) (Q := λ f l', l' = [] ∧ f = Raised BrowserCrashed);
      [|by intros f l' [-> ->]; split; [right|congruence]|lia].
    eapply settles_bind; [apply settles_ignoring with (Q := λ r l, l = [] ∧ ∃ u, r = Returned u); [by apply settles_await|by eauto]| | |lia]; [|by intros e l [_ [? [=]]]].
    intros _ l [-> _]. by apply settles_raise.
Qed.

(** Everything but the two calls the timers watch is answered some time. *)
Definition attempt_speaks (a : attempt) : Prop :=
  acquisition_speaks a.(at_acquire) ∧ speaks a.(at_new_page) ∧ speaks a.(at_intercept) ∧ forward a.(at_content) ∧ forward a.(at_pdf) ∧ speaks a.(at_close) ∧
  release_speaks a.(at_release).
Definition attempt_time (a : attempt) : Z :=
  acquisition_time a.(at_acquire) + (time_of a.(at_new_page) + (time_of a.(at_intercept) + (RENDER_TIMEOUT_MS + RENDER_TIMEOUT_MS)) +
    (time_of a.(at_close) + release_time a.(at_release))).

Lemma times_nonneg r : release_speaks r → 0 <= release_time r.
Proof. intros [H1%speaks_time H2%speaks_time]. unfold release_time. lia. Qed.

Lemma attempt_settles a : attempt_speaks a → settles (renderPdfAttempt a) (λ _ l, balanced l) (attempt_time a).
Proof.
  intros (Ha & Hn & Hi & Hc & Hp & Hcl & Hr). pose proof (speaks_time _ Hn). pose proof (speaks_time _ Hi). pose proof (speaks_time _ Hcl).
  pose proof (times_nonneg _ Hr). assert (0 <= RENDER_TIMEOUT_MS) by done.
  eapply settles_bind; [by apply acquire_settles| |done|lia]. intros b l Hl. cbn in Hl.
  eapply settles_weaken with (Q := λ _ l', ends_loan b l'); [|by intros r l' ?; eapply ends_loan_lends|reflexivity].
  eapply settles_finally with (Q := λ _ l, l = []) (Qc := λ _ l, ends_loan b l); [| |by intros r ? u l' -> ?|by intros r ? e l' -> ?].
  - repeat (eapply settles_bind; [first [apply settles_await with (Q := λ _ l, l = []); done|apply settles_within with (Q := λ _ l, l = []); done]|intros ? ? ->|by intros ? ? ->|lia]).
    by apply settles_within.
  - eapply settles_bind with (Q := λ r l, l = [] ∧ ∃ u, r = Returned u); [| |by intros e ? [_ [? [=]]]|lia].
    + destruct (replied _); [apply settles_ignoring; [by apply settles_await|by eauto]|].
      eapply settles_weaken; [apply settles_ret with (Q := λ r l, l = [] ∧ ∃ u, r = Returned u); by eauto|done|lia].
    + intros u ? [-> _]. cbn [app]. rewrite <- (Z.add_0_r (release_time _)). eapply settles_catching; [by apply release_settles|by intros ? ? [? _]| |lia].
      intros e l' [Hl' _]. destruct e; [apply settles_raise..|apply settles_ret|apply settles_raise]; by rewrite app_nil_r.
Qed.

End settling.

(** a rendering whose other calls are answered some time ends, however long the page and the
    print take: within the time of those calls and a minute for each of its two attempts,
    with every browser it was lent given back or dropped exactly once, and never with the
    timeout of an attempt, which becomes a second attempt or a final error. *)
Theorem rendering_returns_browsers first second s :
  attempt_speaks first -> attempt_speaks second ->
  exists r s' l, renderPdf first second s = (r, s') /\ r <> Stuck /\ (forall m, r <> Raised (RenderTimeout m)) /\
    s'.(jb_log) = s.(jb_log) ++ l /\ (forall b, open_loans b l = 0) /\ s'.(jb_now) <= s.(jb_now) + attempt_time first + attempt_time second.
Proof.
  intros H1 H2.
  assert (Ht2 : 0 <= attempt_time second).
  { destruct H2 as ((Hq1 & Hq2 & Hq3) & Hn & Hi & _ & _ & Hcl & Hr). pose proof (times_nonneg _ Hr). unfold attempt_time, acquisition_time.
    apply speaks_time in Hq1, Hq2, Hq3, Hn, Hi, Hcl. assert (0 <= RENDER_TIMEOUT_MS) by done. lia. }
  assert (Hs : settles s.(jb_now) (renderPdf first second) (fun r l => balanced l /\ forall m, r <> Raised (RenderTimeout m)) (attempt_time first + (attempt_time second + 0))).
  { eapply settles_catching; [by apply attempt_settles|by intros v l Hl| |lia]. intros e l Hl. destruct e;
      try (eapply settles_weaken; [apply settles_raise with (Q := fun r l' => l' = [] /\ forall m, r <> Raised (RenderTimeout m)); done| |lia];
           intros r l' [-> Hr]; rewrite app_nil_r; done).
    eapply settles_catching; [by apply attempt_settles| | |done].
    - intros v l2 Hl2. split; [|done]. intros x. by rewrite open_loans_app, Hl, Hl2.
    - intros e l2 Hl2. assert (Hbal : balanced (l ++ l2)) by (intros x; by rewrite open_loans_app, Hl, Hl2).
      destruct e; apply settles_raise; rewrite app_nil_r; done. }
  destruct (Hs s ltac:(lia)) as (r & s' & l & Hrun & Hr & Hl & [Hb Hm] & _ & Hn). exists r, s', l. split_and!; try done. lia.
Qed.

(** The pool keeps its browsers apart and counts the renders of each. *)
Record browsers_ok (s : browsers) : Prop := {
  bo_nodup : NoDup (s.(bs_idle) ++ s.(bs_lent));
  bo_size : Z.of_nat (length s.(bs_idle) + length s.(bs_lent)) <= MAX_POOL_SIZE;
  bo_count : ∀ b n, map_get b s.(bs_meta) = Some n → 0 <= n <= MAX_PAGES_PER_INSTANCE ∧ (b ∈ s.(bs_lent) → n < MAX_PAGES_PER_INSTANCE) }.

Lemma set_delete_perm (b : string) l : NoDup l → b ∈ l → l ≡ₚ b :: set_delete b l.
Proof.
  intros Hnd Hb. apply NoDup_Permutation; [done| |].
  - constructor; [by rewrite elem_of_set_delete; intros [? ?]|]. unfold set_delete. rewrite NoDup_ListNoDup in *. by apply List.NoDup_filter.
  - intros x. rewrite elem_of_cons, elem_of_set_delete. destruct (decide (x = b)) as [->|]; naive_solver.
Qed.

Lemma browsers_step s s' : pool_step s s' → browsers_ok s → browsers_ok s'.
Proof.
  intros Hstep [Hnd Hsz Hc]. pose proof Hnd as (Hni & Hdis & Hnl)%NoDup_app. destruct Hstep as [b s Hi Hl Hm Hlt|b s Hb Hv|b s Hb|b s|b s Hb|b s Hb]; cbn in *.
  - constructor; cbn; [|lia|].
    + rewrite <- Permutation_middle. constructor; [|done]. set_solver.
    + intros x n. destruct (decide (x = b)) as [->|Hne]; [rewrite map_get_set_eq; intros [= <-]; unfold MAX_PAGES_PER_INSTANCE; lia|].
      rewrite map_get_set_ne by done. intros Hx. destruct (Hc x n Hx) as [? Hlent]. split; [done|]. intros [->|?]%elem_of_cons; auto; done.
  - pose proof (set_delete_perm _ _ Hni Hb) as Hp. constructor; cbn.
    + rewrite <- Permutation_middle, app_comm_cons, <- Hp. done.
    + rewrite Hp in Hsz. cbn in Hsz. lia.
    + intros x n Hx. destruct (Hc x n Hx) as [? Hlent]. split; [done|]. intros [->|?]%elem_of_cons; [|by auto].
      unfold validate in Hv. rewrite Hx in Hv. cbn in Hv. lia.
  - pose proof (set_delete_perm _ _ Hni Hb) as Hp. constructor; cbn.
    + rewrite Hp in Hnd. by apply NoDup_cons in Hnd as [_ ?].
    + rewrite Hp in Hsz. cbn in Hsz. lia.
    + intros x n. destruct (decide (x = b)) as [->|Hne]; [by rewrite map_get_delete_eq|]. rewrite map_get_delete_ne by done. apply Hc.
  - constructor; cbn; [done..|]. intros x n. destruct (decide (x = b)) as [->|Hne]; [by rewrite map_get_delete_eq|]. rewrite map_get_delete_ne by done. apply Hc.
  - pose proof (set_delete_perm _ _ Hnl Hb) as Hp. constructor; cbn.
    + by rewrite Permutation_middle, <- Hp.
    + rewrite Hp in Hsz. cbn in Hsz. lia.
    + intros x n. unfold count_render. destruct (map_get b (bs_meta s)) as [k|] eqn:Hk; [destruct (decide (x = b)) as [->|Hne]|].
      * rewrite map_get_set_eq. intros [= <-]. destruct (Hc b k Hk) as [? Hlent]. specialize (Hlent Hb). split; [lia|]. by intros [? ?]%elem_of_set_delete.
      * rewrite map_get_set_ne by done. intros Hx. destruct (Hc x n Hx) as [? Hlent]. split; [done|]. intros [? ?]%elem_of_set_delete. auto.
      * intros Hx. destruct (Hc x n Hx) as [? Hlent]. split; [done|]. intros [? ?]%elem_of_set_delete. auto.
  - pose proof (set_delete_perm _ _ Hnl Hb) as Hp. constructor; cbn.
    + rewrite Hp, <- Permutation_middle in Hnd. by apply NoDup_cons in Hnd as [_ ?].
    + rewrite Hp in Hsz. cbn in Hsz. lia.
    + intros x n. destruct (decide (x = b)) as [->|Hne]; [by rewrite map_get_delete_eq|]. rewrite map_get_delete_ne by done. intros Hx.
      destruct (Hc x n Hx) as [? Hlent]. split; [done|]. intros [? ?]%elem_of_set_delete. auto.
Qed.

(** however borrowers, crashes and the pool interleave: there are at most three browsers, none
    is lent to two borrowers or lent and idle at once, and none renders more than fifty pages. *)
Theorem browsers_are_bounded s : rtc pool_step (set_browsers [] [] []) s -> browsers_ok s.
Proof.
  intros H. assert (Hinit : browsers_ok (set_browsers [] [] [])) by (constructor; cbn; [constructor|done|done]).
  revert Hinit. induction H as [|x y z Hxy _ IH]; [done|]. intros Hx. by eapply IH, browsers_step.
Qed.

(** ** Runs of the definitions *)

Module Rendering.
(** A template is its text; running it puts the title where the text asks for it. *)
Definition compile (t : string) : outcome string string := if includes t "{{#if" && negb (includes t "{{/if}}") then Throw "Parse error on line 3: expected a closing block" else Ok t.
Definition run (t : string) (data : list (string * json)) : outcome string string :=
  Ok (match map_get "title" data with Some (JStr v) => t +:+ ":" +:+ v | _ => t end).
Definition clean (_ : sanitize_options) (h : string) : string := h.
Definition titled (v : string) : list (string * json) := [("title", JStr v)].
Definition template (content : string) (version : Z) : PdfTemplate :=
  {| tm_row := {| pt_id := "t"; pt_name := "n"; pt_key := "general"; pt_type := "general"; pt_content := content; pt_status := "Approved"; pt_is_default := 1;
                  pt_version := version; pt_created_by := "a"; pt_updated_by := "a"; pt_created_at := 0; pt_updated_at := 0 |}; tm_is_default := true |}.
Definition fast : attempt :=
  {| at_acquire := {| aq_first := Replies 1 ("b", true); aq_destroy := Replies 1 tt; aq_second := Replies 1 "c" |}; at_new_page := Replies 1 tt; at_intercept := Replies 1 tt;
     at_content := Replies 10 tt; at_pdf := Replies 10 "pdf"; at_close := Replies 1 tt;
     at_release := {| rl_connected := true; rl_destroy := Replies 1 tt; rl_release := Replies 1 tt |} |}.
Definition slow (close : reply unit) (connected : bool) : attempt :=
  {| at_acquire := {| aq_first := Replies 1 ("b", true); aq_destroy := Replies 1 tt; aq_second := Replies 1 "c" |}; at_new_page := Replies 1 tt; at_intercept := Replies 1 tt;
     at_content := Silent; at_pdf := Silent; at_close := close;
     at_release := {| rl_connected := connected; rl_destroy := Replies 1 tt; rl_release := Replies 1 tt |} |}.
Definition start : job_state := {| jb_now := 0; jb_meta := [("b", 7)]; jb_log := [] |}.

Theorem rendering_runs :
  (let '(r, s) := renderPdf fast fast start in r = Returned "pdf" ∧ s.(jb_now) = 25 ∧ s.(jb_log) = [Lent "b"; GivenBack "b"] ∧ s.(jb_meta) = [("b", 8)]) ∧
  (let '(r, s) := renderPdf (slow (Replies 1 tt) true) fast start in r = Returned "pdf" ∧ s.(jb_log) = [Lent "b"; GivenBack "b"; Lent "b"; GivenBack "b"]) ∧
  (let '(r, s) := renderPdf (slow (Replies 1 tt) false) fast start in r = Returned "pdf" ∧ s.(jb_log) = [Lent "b"; Dropped "b"; Lent "b"; GivenBack "b"]) ∧
  sanitizeCssFontName "a'; } </style>   b" = "a style b" ∧ extractLineNumber "Parse Error ON line 42:" = Some 42%N ∧
  (compilePreviewHtml compile run "{{#if x}}" [] (plain_settings false) En).2 = [("Parse error on line 3: expected a closing block", Some 3%N)].
Proof. by vm_compute. Qed.

(** A page that never closes keeps its browser for good.  The text of a preview is shown as it
    is, while a rendered document passes the sanitizer.  A footer with page numbers only is
    asked for and left empty. *)
Theorem rendering_gaps :
  (let '(r, s) := renderPdf (slow Silent true) fast start in r = Stuck ∧ s.(jb_log) = [Lent "b"]) ∧
  (exists tail, (compilePreviewHtml compile run "<script>" [] (plain_settings false) En).1 = String.concat "" (page_head (plain_settings false) En) +:+ "<script>" +:+ tail) ∧
  po_footerTemplate (pdfOptions (mapRowToSettings (getPdfSettings None))) = Some "" ∧
  po_displayHeaderFooter (pdfOptions (mapRowToSettings (getPdfSettings None))) = true ∧
  (preview_page compile run clean 2 "second" (titled "x") None (preview_page compile run clean 1 "first" [] None []).2).1 =
    Ok (wrapWithStyles "first:x" (mapRowToSettings (getPdfSettings None)) Ar).
Proof. split_and!; [by vm_compute|eexists; reflexivity|by vm_compute..]. Qed.
End Rendering.

Lemma settings_add_no_markup_witness :
  count_char ";"%char (wrapWithStyles "x" (mapRowToSettings (getPdfSettings None)) Ar) = count_char ";"%char (wrapWithStyles "x" (plain_settings true) Ar).
Proof. refine (settings_add_no_markup "x" (mapRowToSettings (getPdfSettings None)) Ar ";"%char _). apply (bool_decide_unpack _). by vm_compute. Defined.

Lemma escaped_text_is_inert_witness : "<"%char ∉ chars (escapeHtml "<b>").
Proof. apply (escaped_text_is_inert "<b>" "<"%char). apply (bool_decide_unpack _). by vm_compute. Defined.

Lemma cache_is_transparent_witness :
  let l := [(Rendering.template "a" 1, Rendering.titled "x"); (Rendering.template "b" 2, []); (Rendering.template "a" 1, [])] in
  (render_all Rendering.compile Rendering.run l []).1 = [Ok "a:x"; Ok "b"; Ok "a"].
Proof.
  cbv zeta. refine (proj1 (cache_is_transparent Rendering.compile Rendering.run _ _)).
  intros t t' Ht Ht' _ Hk. cbn in Ht, Ht'. rewrite !elem_of_cons in Ht, Ht'.
  destruct Ht as [->|[->|[->|Ht]]], Ht' as [->|[->|[->|Ht']]]; try (by apply not_elem_of_nil in Ht); try (by apply not_elem_of_nil in Ht'); try reflexivity; discriminate.
Defined.

Lemma preview_shows_first_text_witness :
  (preview_page Rendering.compile Rendering.run Rendering.clean 2 "second" [] None (preview_page Rendering.compile Rendering.run Rendering.clean 1 "first" [] None []).2).1 =
  (preview_page Rendering.compile Rendering.run Rendering.clean 2 "first" [] None []).1.
Proof. exact (preview_shows_first_text Rendering.compile Rendering.run Rendering.clean 1 2 "first" "second" [] [] None "first" eq_refl). Defined.

Lemma rendering_returns_browsers_witness :
  exists r s', renderPdf (Rendering.slow (Replies 1 tt) true) Rendering.fast Rendering.start = (r, s') /\ r <> Stuck.
Proof.
  assert (Hslow : attempt_speaks (Rendering.slow (Replies 1 tt) true)) by (cbv; intuition congruence).
  assert (Hfast : attempt_speaks Rendering.fast) by (cbv; intuition congruence).
  destruct (rendering_returns_browsers _ _ Rendering.start Hslow Hfast) as (r & s' & l & Hrun & Hr & _).
  exists r, s'. split; [exact Hrun|exact Hr].
Defined.

Lemma browsers_are_bounded_witness : browsers_ok (set_browsers [("b", 0)] [] ["b"]).
Proof.
  apply browsers_are_bounded. eapply rtc_l; [|apply rtc_refl].
  refine (Launch "b" (set_browsers [] [] []) _ _ _ _); [apply not_elem_of_nil..|reflexivity].
Defined.
