(* ===== verification/ErrorLogs.v ===== *)
(** * System errors and their export ([services/LogService.ts], [routes/logs.ts])

    What a client or the server reports of an error, the three listings with
    their filters and pages, and the export as comma-separated values.
    [export_reads_back] is stated against [read_csv], a reader of RFC 4180 that
    ends a record at a line feed.  [timestamp] is a number of the clock; how
    JavaScript and the database read a date of the query are arguments; how a
    cell is turned into text by [String(v)] is done by the caller. *)

From S2P Require Import Prelude JsMap JsStrings JsNumbers Json OrderBy Responses AppCodes QueryBuilder Paths FallbackTemplates PdfRendering UserDirectory.
Local Open Scope Z_scope.

(** ** What is stored *)

Record error_row := {
  er_id : string; er_message : option string; er_stack : option string; er_module : option string; er_user : option string;
  er_severity : string; er_user_agent : option string; er_url : option string; er_request_data : option string; er_timestamp : Z }.
Record error_data := {
  ed_message : option string; ed_stack : option string; ed_module : option string; ed_userId : option string; ed_severity : option string;
  ed_user_agent : option string; ed_url : option string; ed_request_data : option json }.

(** [s.substring(0, n)] *)
Definition first_units (n : nat) (s : string) : string := of_chars (Paths.take_units n (chars s)).
(** [v || null] *)
Definition non_empty (v : option string) : option string := match v with Some s => if bool_decide (s = "") then None else Some s | None => None end.

Definition logSystemError (id : string) (now : Z) (data : error_data) (table : list error_row) : list error_row :=
  table ++ [{| er_id := id; er_message := data.(ed_message); er_stack := first_units 2000 <$> non_empty data.(ed_stack); er_module := data.(ed_module);
               er_user := non_empty data.(ed_userId); er_severity := default "error" (non_empty data.(ed_severity));
               er_user_agent := non_empty data.(ed_user_agent); er_url := non_empty data.(ed_url);
               er_request_data := match data.(ed_request_data) with Some v => if falsy v then None else Some (stringify v) | None => None end;
               er_timestamp := now |}].

(** ** Reports of a client *)

Definition MAX_FIELD_LENGTH : nat := 4096.
(** [undefined] for a missing value; the five replacements are those of [escapeHtml]. *)
Definition sanitizeContent (value : option json) : option string :=
  match value with
  | None | Some JNull => None
  | Some (JStr s) => Some (escapeHtml (first_units MAX_FIELD_LENGTH s))
  | Some v => Some (escapeHtml (first_units MAX_FIELD_LENGTH (stringify v)))
  end.

(** [!v] *)
Definition absent (v : option json) : bool := match v with Some v => falsy v | None => true end.

Record socket := { so_id : nat; so_ready : bool; so_authenticated : bool }.
Record error_event := { ev_message : option string; ev_module : option string; ev_severity : option string }.
Record log_state := { ls_errors : list error_row; ls_sent : list (nat * error_event); ls_audit : list (string * string) }.

Definition post_system_error (field : string → option json) (userId : option string) (clients : list socket) (id : string) (now : Z)
    (s : log_state) : Z * log_state :=
  if absent (field "message") || absent (field "module") then (400, s)
  else
    let safe name := sanitizeContent (field name) in
    let errors := logSystemError id now {|
      ed_message := safe "message"; ed_stack := safe "stack"; ed_module := safe "module"; ed_userId := userId; ed_severity := safe "severity";
      ed_user_agent := safe "user_agent"; ed_url := safe "url"; ed_request_data := JStr <$> safe "request_data" |} s.(ls_errors) in
    let event := {| ev_message := safe "message"; ev_module := safe "module"; ev_severity := safe "severity" |} in
    let to := List.filter (λ c, c.(so_ready) && c.(so_authenticated)) clients in
    (200, {| ls_errors := errors; ls_sent := s.(ls_sent) ++ map (λ c, (c.(so_id), event)) to; ls_audit := s.(ls_audit) |}).

Definition post_log_error (field : string → option json) (userId : option string) (id : string) (now : Z) (s : log_state) : Z * log_state :=
  if absent (field "message") then (400, s)
  else
    (200, {| ls_errors := logSystemError id now {|
               ed_message := sanitizeContent (field "message"); ed_stack := sanitizeContent (field "stack");
               ed_module := Some (default "Frontend" (non_empty (sanitizeContent (field "module")))); ed_userId := userId;
               ed_severity := Some "error"; ed_user_agent := None; ed_url := None; ed_request_data := None |} s.(ls_errors);
             ls_sent := s.(ls_sent); ls_audit := s.(ls_audit) |}).

(** The entry of the audit trail may fail; the answer does not depend on it. *)
Definition clearSystemErrors (s : log_state) : log_state := {| ls_errors := []; ls_sent := s.(ls_sent); ls_audit := s.(ls_audit) |}.
Definition delete_system_errors (username : option string) (audit_ok : bool) (s : log_state) : Z * log_state :=
  let s := clearSystemErrors s in
  (200, if audit_ok then {| ls_errors := s.(ls_errors); ls_sent := s.(ls_sent);
                            ls_audit := s.(ls_audit) ++ [(default "unknown" (non_empty username), "Cleared System Errors")] |} else s).

(** ** Listings *)

Record listing (A : Type) := { li_data : list A; li_page : Z; li_pageSize : Z; li_total : Z; li_totalPages : Z }.
Arguments li_data {A}.
Arguments li_page {A}.
Arguments li_pageSize {A}.
Arguments li_total {A}.
Arguments li_totalPages {A}.

(** [ORDER BY timestamp DESC] *)
Definition newest_first {A} (time : A → Z) (l : list A) : list A := order_by time (λ a b, b <? a) l.

(** The page the three listings cut out of [rows]; the database refuses a negative limit or offset. *)
Definition cut_page {A} (page pageSize : option string) (rows : list A) : outcome app_error (listing A) :=
  let page := page_number page 1 in
  let pageSize := page_number pageSize 50 in
  let total := Z.of_nat (length rows) in
  if pageSize <? 0 then Throw (GenericError "LIMIT must not be negative")
  else if (page - 1) * pageSize <? 0 then Throw (GenericError "OFFSET must not be negative")
  else Ok {| li_data := take (Z.to_nat pageSize) (drop (Z.to_nat ((page - 1) * pageSize)) rows); li_page := page; li_pageSize := pageSize;
             li_total := total; li_totalPages := - (- total / pageSize) |}.

Record login_entry := { le_id : string; le_user_id : option string; le_time : Z; le_status : string }.
(** The join adds the name of the user. *)
Definition getLoginHistory (page pageSize : option string) (names : list (string * string)) (history : list login_entry) :
    outcome app_error (listing (login_entry * option string)) :=
  cut_page page pageSize
    (map (λ e, (e, e.(le_user_id) ≫= λ u, map_get u names)) (newest_first le_time history)).

Record trail_entry := { te_id : string; te_user : string; te_action : string; te_module : string; te_details : string; te_time : Z }.
Record trail_query := { tq_page : option string; tq_pageSize : option string; tq_module : option string; tq_action : option string; tq_username : option string }.
(** [LOWER(column) LIKE '%' || lower(v) || '%'] *)
Definition contains_ci (t v : string) : bool := matches_text (toLowerCase t) (toLowerCase v).
Definition trail_matches (q : trail_query) (e : trail_entry) : bool :=
  match non_empty q.(tq_module) with Some t => contains_ci t e.(te_module) | None => true end &&
  match non_empty q.(tq_action) with Some t => contains_ci t e.(te_action) | None => true end &&
  match non_empty q.(tq_username) with Some t => matches_text t e.(te_user) | None => true end.
Definition getAuditTrail (q : trail_query) (trail : list trail_entry) : outcome app_error (listing trail_entry) :=
  cut_page q.(tq_page) q.(tq_pageSize) (newest_first te_time (select (trail_matches q) trail)).

Record error_query := {
  eq_page : option string; eq_pageSize : option string; eq_module : option string; eq_severity : option string;
  eq_start : option string; eq_end : option string; eq_user : option string }.

Section errors.
(** Whether [new Date(v)] is valid; the time the database reads in a text, if it can. *)
Context (js_date : string → bool) (sql_time : string → option Z).

(** A date that JavaScript reads and the database does not fails the statement. *)
Definition time_bound (v : option string) : outcome app_error (option Z) :=
  match non_empty v with
  | Some t => if js_date t then match sql_time t with Some n => Ok (Some n) | None => Throw (GenericError "timestamp") end else Ok None
  | None => Ok None
  end.
Definition error_matches (q : error_query) (from to : option Z) (e : error_row) : bool :=
  match non_empty q.(eq_module) with Some t => match e.(er_module) with Some m => matches_text t m | None => false end | None => true end &&
  match non_empty q.(eq_severity) with Some t => bool_decide (e.(er_severity) = t) | None => true end &&
  match from with Some t => t <=? e.(er_timestamp) | None => true end &&
  match to with Some t => e.(er_timestamp) <=? t | None => true end &&
  match non_empty q.(eq_user) with Some t => bool_decide (e.(er_user) = Some t) | None => true end.

(** [request_data] is parsed again; a text that is no JSON would make the listing fail. *)
Definition parsed_request (e : error_row) : outcome app_error (error_row * json) :=
  match non_empty e.(er_request_data) with
  | None => Ok (e, JNull)
  | Some t => match JSON_parse t with Some v => Ok (e, v) | None => Throw (GenericError "SyntaxError") end
  end.
Fixpoint all_ok {A B} (f : A → outcome app_error B) (l : list A) : outcome app_error (list B) :=
  match l with
  | [] => Ok []
  | x :: l' => match f x with
               | Ok y => match all_ok f l' with Ok ys => Ok (y :: ys) | Throw e => Throw e end
               | Throw e => Throw e
               end
  end.
Definition getSystemErrors (q : error_query) (table : list error_row) : outcome app_error (listing (error_row * json)) :=
  match time_bound q.(eq_start), time_bound q.(eq_end) with
  | Ok from, Ok to =>
      match cut_page q.(eq_page) q.(eq_pageSize) (newest_first er_timestamp (select (error_matches q from to) table)) with
      | Ok p => match all_ok parsed_request p.(li_data) with
                | Ok rows => Ok {| li_data := rows; li_page := p.(li_page); li_pageSize := p.(li_pageSize); li_total := p.(li_total);
                                   li_totalPages := p.(li_totalPages) |}
                | Throw e => Throw e
                end
      | Throw e => Throw e
      end
  | Throw e, _ | _, Throw e => Throw e
  end.
End errors.

(** ** Export *)

(** [Math.min(Math.max(parseInt(limit) || 10000, 1), 50000)] *)
Definition safeLimit (limit : string) : Z := Z.min (Z.max (page_number (Some limit) 10000) 1) 50000.
Definition getSystemErrorsForExport (limit : string) (table : list error_row) : list error_row :=
  take (Z.to_nat (safeLimit limit)) (newest_first er_timestamp table).

Definition quote_mark : ascii := chr 34.
Definition comma : ascii := ","%char.
Definition newline : ascii := chr 10.
(** [/^[=+\-@\t\r]/] *)
Definition formula_char (c : ascii) : bool := bool_decide (c ∈ ["="; "+"; "-"; "@"; chr 9; chr 13]%char).
Definition guarded (str : string) : string :=
  match chars str with c :: _ => if formula_char c then "'" +:+ str else str | [] => str end.
Definition must_quote (str : string) : bool :=
  existsb (λ c, bool_decide (c = comma) || bool_decide (c = quote_mark) || bool_decide (c = newline)) (chars str).
Definition doubled (l : list ascii) : list ascii := flat_map (λ c, if bool_decide (c = quote_mark) then [quote_mark; quote_mark] else [c]) l.
(** [val] is [None] for [null] and [undefined], otherwise [String(val)]. *)
Definition escapeCsv (val : option string) : string :=
  match val with
  | None => ""
  | Some v => let str := guarded v in
              if must_quote str then of_chars (quote_mark :: doubled (chars str) ++ [quote_mark]) else str
  end.

Definition csv_headers : list string := ["ID"; "Message"; "Module"; "Severity"; "Timestamp"; "URL"; "UserAgent"; "RequestData"].
(** [String(date)] *)
Definition csv_cells (date_text : Z → string) (e : error_row) : list (option string) :=
  [Some e.(er_id); e.(er_message); e.(er_module); Some e.(er_severity); Some (date_text e.(er_timestamp)); e.(er_url); e.(er_user_agent); e.(er_request_data)].
Definition export_csv (date_text : Z → string) (table : list error_row) : string :=
  String.concat (of_chars [newline])
    (String.concat "," csv_headers ::
     map (λ e, String.concat "," (map escapeCsv (csv_cells date_text e))) (getSystemErrorsForExport "10000" table)).

(** ** [createLogError] ([utils/serverUtils.ts]) *)

(** What was thrown: an [Error], an object with the text it has when it can be
    serialised and the text [String] makes of it, or another value. *)
Inductive thrown_value := AnError (message : string) (stack : option string) | AnObject (serialised : option string) (text : string) | AValue (text : string).
(** The statement may fail, which is ignored. *)
Definition createLogError (err : thrown_value) (module : string) (stored : bool) (id : string) (now : Z) (table : list error_row) : list error_row :=
  let message := match err with AnError m _ => m | AnObject (Some t) _ => t | AnObject None t => t | AValue t => t end in
  let stack := match err with AnError _ st => non_empty st | _ => None end in
  if stored then
    logSystemError id now {| ed_message := Some message; ed_stack := stack; ed_module := Some module; ed_userId := None; ed_severity := Some "error";
                             ed_user_agent := None; ed_url := None; ed_request_data := None |} table
  else table.

(** ** Reading the export *)

Inductive csv_mode := AtStart | Bare | Quoted | AfterQuote.
Record csv_state := { cs_mode : csv_mode; cs_cell : list ascii; cs_row : list (list ascii); cs_rows : list (list (list ascii)) }.
Definition csv_start : csv_state := {| cs_mode := AtStart; cs_cell := []; cs_row := []; cs_rows := [] |}.
Definition end_cell (s : csv_state) : csv_state :=
  {| cs_mode := AtStart; cs_cell := []; cs_row := s.(cs_row) ++ [s.(cs_cell)]; cs_rows := s.(cs_rows) |}.
Definition end_row (s : csv_state) : csv_state :=
  {| cs_mode := AtStart; cs_cell := []; cs_row := []; cs_rows := s.(cs_rows) ++ [s.(cs_row) ++ [s.(cs_cell)]] |}.
Definition add_char (m : csv_mode) (c : ascii) (s : csv_state) : csv_state :=
  {| cs_mode := m; cs_cell := s.(cs_cell) ++ [c]; cs_row := s.(cs_row); cs_rows := s.(cs_rows) |}.
Definition in_mode (m : csv_mode) (s : csv_state) : csv_state :=
  {| cs_mode := m; cs_cell := s.(cs_cell); cs_row := s.(cs_row); cs_rows := s.(cs_rows) |}.

Definition csv_step (s : csv_state) (c : ascii) : option csv_state :=
  match s.(cs_mode) with
  | Quoted => Some (if bool_decide (c = quote_mark) then in_mode AfterQuote s else add_char Quoted c s)
  | m =>
      if bool_decide (c = comma) then Some (end_cell s)
      else if bool_decide (c = newline) then Some (end_row s)
      else if bool_decide (c = quote_mark) then
        match m with AtStart => Some (in_mode Quoted s) | AfterQuote => Some (add_char Quoted c s) | _ => None end
      else match m with AfterQuote => None | _ => Some (add_char Bare c s) end
  end.
Fixpoint csv_run (s : csv_state) (l : list ascii) : option csv_state :=
  match l with [] => Some s | c :: l' => match csv_step s c with Some s' => csv_run s' l' | None => None end end.
(** The records of a text; [None] when it is none of RFC 4180. *)
Definition read_csv (text : string) : option (list (list string)) :=
  match csv_run csv_start (chars text) with
  | Some s => match s.(cs_mode) with Quoted => None | _ => Some (map (map of_chars) (end_row s).(cs_rows)) end
  | None => None
  end.

(** ** Properties of the export *)

Lemma csv_run_app s l1 l2 : csv_run s (l1 ++ l2) = match csv_run s l1 with Some s' => csv_run s' l2 | None => None end.
Proof. revert s. induction l1 as [|c l1 IH]; intros s; cbn; [done|]. destruct (csv_step s c); [apply IH|done]. Qed.

(** The states in which a cell can end. *)
Definition can_end (m : csv_mode) : bool := match m with Quoted => false | _ => true end.

Lemma bare_cell l : ∀ s, can_end s.(cs_mode) = true → s.(cs_mode) ≠ AfterQuote →
  existsb (λ c, bool_decide (c = comma) || bool_decide (c = quote_mark) || bool_decide (c = newline)) l = false →
  ∃ m, can_end m = true ∧ csv_run s l = Some {| cs_mode := m; cs_cell := s.(cs_cell) ++ l; cs_row := s.(cs_row); cs_rows := s.(cs_rows) |}.
Proof.
  induction l as [|c l IH]; intros s Hm Ha Hn.
  - exists s.(cs_mode). split; [done|]. rewrite app_nil_r. by destruct s.
  - cbn [existsb] in Hn. apply orb_false_iff in Hn as [Hc Hn]. apply orb_false_iff in Hc as [Hc Hnl]. apply orb_false_iff in Hc as [Hcomma Hq].
    assert (Hs : csv_step s c = Some (add_char Bare c s)).
    { unfold csv_step. rewrite Hcomma, Hnl, Hq. by destruct (cs_mode s). }
    cbn [csv_run]. rewrite Hs. destruct (IH (add_char Bare c s)) as (m & Hm' & ->); [done|done|done|].
    exists m. split; [done|]. cbn. by rewrite <-app_assoc.
Qed.

Lemma quoted_cell l : ∀ s, s.(cs_mode) = Quoted →
  csv_run s (doubled l) = Some {| cs_mode := Quoted; cs_cell := s.(cs_cell) ++ l; cs_row := s.(cs_row); cs_rows := s.(cs_rows) |}.
Proof.
  induction l as [|c l IH]; intros s Hm; cbn [doubled flat_map].
  - rewrite app_nil_r. destruct s; cbn in *; by subst.
  - fold (doubled l). case_bool_decide as Hc; cbn [app csv_run].
    + subst c. assert (H1 : csv_step s quote_mark = Some (in_mode AfterQuote s)) by (unfold csv_step; by rewrite Hm).
      assert (H2 : csv_step (in_mode AfterQuote s) quote_mark = Some (add_char Quoted quote_mark (in_mode AfterQuote s))) by done.
      rewrite H1. cbv beta iota. rewrite H2. cbv beta iota. rewrite IH by done. cbn. by rewrite <-app_assoc.
    + assert (H1 : csv_step s c = Some (add_char Quoted c s)) by (unfold csv_step; by rewrite Hm, (bool_decide_eq_false_2 _ Hc)).
      rewrite H1. cbv beta iota. rewrite IH by done. cbn. by rewrite <-app_assoc.
Qed.

(** What a reader finds in a cell. *)
Definition cell_text (v : option string) : string := match v with Some s => guarded s | None => "" end.

Lemma cell_reads_back v row rows : ∃ m, can_end m = true ∧
  csv_run {| cs_mode := AtStart; cs_cell := []; cs_row := row; cs_rows := rows |} (chars (escapeCsv v)) =
    Some {| cs_mode := m; cs_cell := chars (cell_text v); cs_row := row; cs_rows := rows |}.
Proof.
  destruct v as [v|]; [|by exists AtStart]. cbn [escapeCsv cell_text]. destruct (must_quote (guarded v)) eqn:Hq.
  - exists AfterQuote. split; [done|]. rewrite chars_of_chars. cbn [csv_run csv_step]. cbn -[doubled csv_run].
    change (csv_run {| cs_mode := Quoted; cs_cell := []; cs_row := row; cs_rows := rows |} (doubled (chars (guarded v)) ++ [quote_mark]) =
      Some {| cs_mode := AfterQuote; cs_cell := chars (guarded v); cs_row := row; cs_rows := rows |}).
    rewrite csv_run_app, quoted_cell by done. done.
  - destruct (bare_cell (chars (guarded v)) {| cs_mode := AtStart; cs_cell := []; cs_row := row; cs_rows := rows |}) as (m & Hm & ->);
      [done|done|exact Hq|]. by exists m.
Qed.

Definition at_cell (row : list (list ascii)) (rows : list (list (list ascii))) : csv_state :=
  {| cs_mode := AtStart; cs_cell := []; cs_row := row; cs_rows := rows |}.

Lemma step_comma s : can_end s.(cs_mode) = true → csv_step s comma = Some (end_cell s).
Proof. unfold csv_step. by destruct (cs_mode s). Qed.
Lemma step_newline s : can_end s.(cs_mode) = true → csv_step s newline = Some (end_row s).
Proof. unfold csv_step. by destruct (cs_mode s). Qed.

Lemma record_reads_back : ∀ cells row rows, cells ≠ [] → ∃ s,
  csv_run (at_cell row rows) (chars (String.concat "," (map escapeCsv cells))) = Some s ∧ can_end s.(cs_mode) = true ∧
  s.(cs_row) ++ [s.(cs_cell)] = row ++ map (λ v, chars (cell_text v)) cells ∧ s.(cs_rows) = rows.
Proof.
  induction cells as [|v cells IH]; intros row rows Hne; [done|].
  destruct (cell_reads_back v row rows) as (m & Hm & Hv). destruct cells as [|w cells].
  - cbn [map String.concat]. eexists. split; [exact Hv|]. done.
  - change (String.concat "," (map escapeCsv (v :: w :: cells))) with (escapeCsv v +:+ "," +:+ String.concat "," (map escapeCsv (w :: cells))).
    rewrite !chars_app, csv_run_app. unfold at_cell. rewrite Hv. change (chars ",") with [comma]. cbn [app csv_run].
    rewrite step_comma by done. destruct (IH (row ++ [chars (cell_text v)]) rows) as (s & Hr & He & Hc & Hrows); [done|].
    exists s. split; [exact Hr|]. split; [done|]. split; [|done]. rewrite Hc. cbn [map]. by rewrite <-app_assoc.
Qed.

Lemma records_read_back : ∀ records rows, records ≠ [] → Forall (λ cells, cells ≠ []) records → ∃ s,
  csv_run (at_cell [] rows) (chars (String.concat (of_chars [newline]) (map (λ cells, String.concat "," (map escapeCsv cells)) records))) = Some s ∧
  can_end s.(cs_mode) = true ∧ (end_row s).(cs_rows) = rows ++ map (map (λ v, chars (cell_text v))) records.
Proof.
  induction records as [|cells records IH]; intros rows Hne Hall; [done|]. inversion_clear Hall as [|? ? Hc Hr].
  destruct (record_reads_back cells [] rows Hc) as (s & Hs & He & Hrow & Hrows). destruct records as [|cells' records].
  - cbn [map String.concat]. exists s. split; [exact Hs|]. split; [done|]. unfold end_row. cbn [cs_rows]. by rewrite Hrow, Hrows.
  - set (text := λ cells, String.concat "," (map escapeCsv cells)) in *.
    change (String.concat (of_chars [newline]) (map text (cells :: cells' :: records))) with
      (text cells +:+ of_chars [newline] +:+ String.concat (of_chars [newline]) (map text (cells' :: records))).
    rewrite !chars_app, chars_of_chars, csv_run_app. unfold text at 1. rewrite Hs. cbn [app csv_run]. rewrite step_newline by done.
    assert (Hend : end_row s = at_cell [] (rows ++ [map (λ v, chars (cell_text v)) cells])).
    { unfold end_row, at_cell. by rewrite Hrow, Hrows. }
    rewrite Hend. destruct (IH (rows ++ [map (λ v, chars (cell_text v)) cells])) as (s' & Hs' & He' & Hr'); [done|done|].
    exists s'. split; [exact Hs'|]. split; [done|]. rewrite Hr'. cbn [map]. by rewrite <-app_assoc.
Qed.

(** The exported text is read back as the header and, in order, one record for
    each of the newest ten thousand errors; a cell is the value it came from,
    behind an apostrophe when it begins as a formula, so no cell that is read
    begins as one, whatever the reported texts contain. *)
Theorem export_reads_back date_text table :
  let rows := map (λ e, map cell_text (csv_cells date_text e)) (getSystemErrorsForExport "10000" table) in
  read_csv (export_csv date_text table) = Some (csv_headers :: rows) ∧
  Z.of_nat (length rows) ≤ 10000 ∧
  Forall (Forall (λ cell, match chars cell with c :: _ => formula_char c = false | [] => True end)) rows ∧
  (∀ e, e ∈ getSystemErrorsForExport "10000" table → e ∈ table).
Proof.
  intros rows. split; [|split; [|split]].
  - assert (Hrec : export_csv date_text table = String.concat (of_chars [newline]) (map (λ cells, String.concat "," (map escapeCsv cells))
      (map Some csv_headers :: map (csv_cells date_text) (getSystemErrorsForExport "10000" table)))).
    { assert (Hh : String.concat "," csv_headers = String.concat "," (map escapeCsv (map Some csv_headers))) by by vm_compute.
      unfold export_csv. by rewrite Hh, map_cons, (map_map (csv_cells date_text)). }
    unfold read_csv. rewrite Hrec. destruct (records_read_back (map Some csv_headers :: map (csv_cells date_text) (getSystemErrorsForExport "10000" table)) [])
      as (s & Hs & He & Hrows); [done| |].
    { constructor; [done|]. apply Forall_forall. intros c (e & -> & _)%list_elem_of_fmap. done. }
    change csv_start with (at_cell [] []). rewrite Hs. cbn [app] in Hrows.
    assert (Hall : map (map of_chars) (end_row s).(cs_rows) = csv_headers :: rows).
    { rewrite Hrows. cbn [map]. rewrite !map_map. f_equal. unfold rows. apply map_ext. intros e. rewrite map_map. apply map_ext. intros v.
      apply of_chars_chars. }
    destruct (cs_mode s); [| |done|]; by rewrite Hall.
  - unfold rows, getSystemErrorsForExport. rewrite length_map, length_take.
    assert (H : safeLimit "10000" = 10000) by by vm_compute. rewrite H. lia.
  - apply Forall_forall. intros r (e & -> & _)%list_elem_of_fmap. apply Forall_forall. intros c (v & -> & _)%list_elem_of_fmap.
    destruct v as [v|]; cbn [cell_text]; [|done]. unfold guarded. destruct (chars v) as [|c l] eqn:Hv; [by rewrite Hv|].
    destruct (formula_char c) eqn:Hc; [|by rewrite Hv]. rewrite chars_app. done.
  - intros e He. unfold getSystemErrorsForExport in He. apply (elem_of_take) in He as (i & He & _). apply list_elem_of_lookup_2 in He.
    unfold newest_first in He. by rewrite order_by_perm in He.
Qed.

(** ** Properties of the reports *)

Definition markup (c : ascii) : bool := bool_decide (c ∈ chars (quoted "<>'`")).
Definition inert (v : option string) : Prop := ∀ t c, v = Some t → c ∈ chars t → markup c = false.

Lemma sanitized_inert v : inert (sanitizeContent v).
Proof.
  assert (He : ∀ s t c, Some (escapeHtml s) = Some t → c ∈ chars t → markup c = false).
  { intros s t c [= <-] Hc. unfold markup. apply bool_decide_eq_false. intros Hm. by apply (escaped_text_is_inert s c Hm). }
  intros t c Ht Hc. destruct v as [[| | |s| |]|]; cbn [sanitizeContent] in Ht; try discriminate Ht; by apply (He _ _ _ Ht Hc).
Qed.

Lemma inert_units n s : inert (Some s) → inert (Some (first_units n s)).
Proof.
  intros Hs t c [= <-] Hc. unfold first_units in Hc. rewrite chars_of_chars in Hc.
  destruct (markup c) eqn:Hm; [|done]. rewrite <-Hm. apply (Hs s c eq_refl). clear Hs.
  revert n Hc. induction (chars s) as [|x l IH]; intros n; cbn [take_units]; [done|]. intros Hc.
  destruct (in_range 128 191 x); [apply elem_of_cons in Hc as [->|Hc]; [by left|right; by apply (IH n)]|].
  destruct (utf16_units x <=? n)%nat; [apply elem_of_cons in Hc as [->|Hc]; [by left|right; by eapply IH]|].
  case_bool_decide; [by apply elem_of_nil in Hc|]. exfalso.
  repeat (apply elem_of_cons in Hc as [->|Hc]; [by vm_compute in Hm|]). by apply elem_of_nil in Hc.
Qed.

Lemma inert_non_empty v : inert v → inert (non_empty v).
Proof. intros Hv t c Ht. apply Hv. destruct v as [s|]; [|done]. cbn in Ht. by case_bool_decide. Qed.
#[local] Hint Resolve sanitized_inert inert_non_empty : core.

(** A report without a message or a module changes nothing.  Any other is
    stored as one row, without a mark-up character in a text a page could show,
    the listing finds the request data as they were escaped, and exactly the
    open sockets with a user are told of it. *)
Theorem reports_are_inert field userId clients id now s :
  let '(status, s') := post_system_error field userId clients id now s in
  if absent (field "message") || absent (field "module") then status = 400 ∧ s' = s
  else
    ∃ row, status = 200 ∧ s'.(ls_errors) = s.(ls_errors) ++ [row] ∧ s'.(ls_audit) = s.(ls_audit) ∧
      inert row.(er_message) ∧ inert row.(er_stack) ∧ inert row.(er_module) ∧ inert (Some row.(er_severity)) ∧
      inert row.(er_user_agent) ∧ inert row.(er_url) ∧
      parsed_request row = Ok (row, default JNull (JStr <$> non_empty (sanitizeContent (field "request_data")))) ∧
      ∃ told, s'.(ls_sent) = s.(ls_sent) ++ told ∧
        (∀ i, i ∈ map fst told ↔ ∃ c, c ∈ clients ∧ c.(so_id) = i ∧ c.(so_ready) = true ∧ c.(so_authenticated) = true) ∧
        ∀ i e, (i, e) ∈ told → inert e.(ev_message) ∧ inert e.(ev_module) ∧ inert e.(ev_severity).
Proof.
  unfold post_system_error. destruct (absent (field "message") || absent (field "module")) eqn:Ha; [done|].
  eexists. split; [done|]. split; [reflexivity|]. split; [done|].
  cbn [er_message er_stack er_module er_severity er_user_agent er_url ed_message ed_stack ed_module ed_severity ed_user_agent ed_url].
  split; [auto|]. split.
  { destruct (non_empty (sanitizeContent (field "stack"))) as [t|] eqn:Ht; [|done]. cbn. apply inert_units. rewrite <-Ht. auto. }
  split; [auto|]. split.
  { destruct (non_empty (sanitizeContent (field "severity"))) as [t|] eqn:Ht; cbn; [rewrite <-Ht; auto|].
    intros t c [= <-] Hc. revert c Hc. apply Forall_forall. apply (bool_decide_unpack _). by vm_compute. }
  split; [auto|]. split; [auto|]. split.
  - unfold parsed_request. cbn [er_request_data ed_request_data]. destruct (sanitizeContent (field "request_data")) as [t|]; cbn [fmap option_fmap option_map]; [|done].
    cbn [falsy non_empty]. case_bool_decide as Ht; [done|].
    pose proof (JSON_parse_stringify (JStr t) eq_refl) as Hp. cbn [non_empty]. destruct (decide (stringify (JStr t) = "")) as [He|He].
    { rewrite He in Hp. by vm_compute in Hp. }
    rewrite (bool_decide_eq_false_2 _ He), Hp. done.
  - eexists. split; [reflexivity|]. split.
    + intros i. rewrite map_map. cbn. rewrite list_elem_of_In, in_map_iff. split.
      * intros (c & <- & (Hc & Hb%andb_true_iff)%filter_In). exists c. by rewrite list_elem_of_In.
      * intros (c & Hc & <- & Hr & Hau). exists c. split; [done|]. apply filter_In. rewrite Hr, Hau. by rewrite <-list_elem_of_In.
    + intros i e (c & [= -> ->] & _)%list_elem_of_fmap. cbn. auto.
Qed.

(** ** Properties of the listings *)

(** The pages up to the announced last are answered and put together the rows
    of a listing, in its order. *)
Lemma cut_pages_complete {A} (rows : list A) pageSize : 0 < page_number pageSize 50 → ∃ last,
  Forall (λ n, ∃ p, cut_page (Some (pretty (N.of_nat n))) pageSize rows = Ok p ∧ p.(li_total) = Z.of_nat (length rows) ∧ p.(li_totalPages) = Z.of_nat last)
    (seq 1 last) ∧
  concat (map (λ n, match cut_page (Some (pretty (N.of_nat n))) pageSize rows with Ok p => p.(li_data) | Throw _ => [] end) (seq 1 last)) = rows.
Proof.
  intros Hsize. set (size := page_number pageSize 50) in *.
  set (last := Z.to_nat (- (- Z.of_nat (length rows) / size))).
  assert (Hlast : Z.of_nat last = - (- Z.of_nat (length rows) / size)).
  { unfold last. rewrite Z2Nat.id; [done|]. pose proof (Z.div_le_upper_bound (- Z.of_nat (length rows)) size 0 ltac:(lia) ltac:(lia)). lia. }
  assert (Hpage : ∀ n, (0 < n)%nat → cut_page (Some (pretty (N.of_nat n))) pageSize rows = Ok {|
    li_data := take (Z.to_nat size) (drop ((n - 1) * Z.to_nat size) rows); li_page := Z.of_nat n; li_pageSize := size;
    li_total := Z.of_nat (length rows); li_totalPages := Z.of_nat last |}).
  { intros n Hn. unfold cut_page. rewrite page_number_text by done. fold size. rewrite Hlast.
    replace (size <? 0) with false by (symmetry; apply Z.ltb_ge; lia). replace ((Z.of_nat n - 1) * size <? 0) with false by (symmetry; apply Z.ltb_ge; nia).
    do 3 f_equal. f_equal. nia. }
  exists last. split.
  - apply Forall_forall. intros n Hn%elem_of_seq. eexists. split; [apply Hpage; lia|done].
  - transitivity (concat (map (λ i, take (Z.to_nat size) (drop (i * Z.to_nat size) rows)) (seq 0 last))).
    + f_equal. rewrite <- fmap_S_seq. change (S <$> seq 0 last) with (map S (seq 0 last)). rewrite map_map. apply map_ext. intros i.
      rewrite Hpage by lia. cbn [li_data]. by replace (S i - 1)%nat with i by lia.
    + rewrite slices_whole. apply take_ge. apply Nat2Z.inj_le. rewrite Nat2Z.inj_mul, Hlast, Z2Nat.id by lia.
      pose proof (Z.mul_div_le (- Z.of_nat (length rows)) size Hsize). lia.
Qed.

(** The pages of the audit trail contain every entry that matches the query,
    each as often as it is stored, and no other. *)
Theorem trail_pages_complete q trail (Hsize : 0 < page_number q.(tq_pageSize) 50) :
  let at_page n := {| tq_page := Some (pretty (N.of_nat n)); tq_pageSize := q.(tq_pageSize); tq_module := q.(tq_module);
                      tq_action := q.(tq_action); tq_username := q.(tq_username) |} in
  ∃ rows last, rows ≡ₚ select (trail_matches q) trail ∧
    Forall (λ n, is_ok (getAuditTrail (at_page n) trail) = true) (seq 1 last) ∧
    concat (map (λ n, match getAuditTrail (at_page n) trail with Ok p => p.(li_data) | Throw _ => [] end) (seq 1 last)) = rows.
Proof.
  intros at_page. destruct (cut_pages_complete (newest_first te_time (select (trail_matches q) trail)) _ Hsize) as (last & Hall & Hc).
  exists (newest_first te_time (select (trail_matches q) trail)), last. split; [apply order_by_perm|]. split; [|exact Hc].
  eapply Forall_impl; [exact Hall|]. intros n (p & Hp & _). unfold getAuditTrail. cbn [at_page tq_page tq_pageSize]. 
  change (trail_matches (at_page n)) with (trail_matches q). by rewrite Hp.
Qed.

(** *** Runs *)

Module Reports.
Definition row (message : option string) : error_row :=
  {| er_id := "e1"; er_message := message; er_stack := None; er_module := Some "UI"; er_user := None; er_severity := "error"; er_user_agent := None;
     er_url := None; er_request_data := None; er_timestamp := 5 |}.
Definition field (k : string) : option json :=
  if bool_decide (k = "message") then Some (JStr "<b>&") else if bool_decide (k = "module") then Some (JStr "UI") else None.
Definition sockets : list socket := [{| so_id := 1; so_ready := true; so_authenticated := true |}; {| so_id := 2; so_ready := true; so_authenticated := false |}].
Definition start : log_state := {| ls_errors := []; ls_sent := []; ls_audit := [] |}.
Definition entry (i : string) (m : string) (t : Z) : trail_entry :=
  {| te_id := i; te_user := "u"; te_action := "Login"; te_module := m; te_details := ""; te_time := t |}.
Definition query (m p ps : option string) : trail_query := {| tq_page := p; tq_pageSize := ps; tq_module := m; tq_action := None; tq_username := None |}.
End Reports.

Lemma report_runs :
  (post_system_error Reports.field (Some "u1") Reports.sockets "e1" 7 Reports.start).2.(ls_errors) =
    [{| er_id := "e1"; er_message := Some "&lt;b&gt;&amp;"; er_stack := None; er_module := Some "UI"; er_user := Some "u1"; er_severity := "error";
        er_user_agent := None; er_url := None; er_request_data := None; er_timestamp := 7 |}] ∧
  map fst (post_system_error Reports.field (Some "u1") Reports.sockets "e1" 7 Reports.start).2.(ls_sent) = [1%nat] ∧
  escapeCsv (Some (quoted "=1,`2`")) = quoted "`'=1,``2```" ∧
  read_csv (export_csv (λ t, "t") [Reports.row (Some (quoted "=1,`2`"))]) =
    Some [csv_headers; ["e1"; quoted "'=1,`2`"; "UI"; "error"; "t"; ""; ""; ""]].
Proof. by vm_compute. Qed.

(** A carriage return inside a cell is left bare.  The filters of the trail are
    patterns: a percent sign matches everything.  A negative size of the page
    fails the statement. *)
Lemma report_gaps :
  escapeCsv (Some (of_chars ["a"; chr 13; "b"]%char)) = of_chars ["a"; chr 13; "b"]%char ∧
  trail_matches (Reports.query (Some "a%z") None None) (Reports.entry "1" "abcz" 1) = true ∧
  is_ok (getAuditTrail (Reports.query None None (Some "-1")) [Reports.entry "1" "m" 1]) = false.
Proof. by vm_compute. Qed.

Lemma trail_pages_complete_witness :
  0 < page_number (Some "2") 50 ∧ ∃ rows, rows ≡ₚ [Reports.entry "1" "Users" 1; Reports.entry "3" "users" 3].
Proof.
  assert (H : 0 < page_number (Some "2") 50) by by vm_compute. split; [exact H|].
  destruct (trail_pages_complete (Reports.query (Some "Users") None (Some "2")) [Reports.entry "1" "Users" 1; Reports.entry "2" "Roles" 2; Reports.entry "3" "users" 3] H)
    as (rows & last & Hp & _). exists rows. exact Hp.
Defined.
