(* ===== verification/PdfJobs.v ===== *)
(** * Documents rendered by the queue ([queues/workers/pdfWorker.ts])

    A job of the queue: its limit of time, the template and the settings it reads, the page
    and the print on a browser of the pool, and what becomes of the browser when something
    fails.  Every call the job waits for is a reply with its time, as in [PdfRendering]. *)

From S2P Require Import Prelude JsMap JsStrings JsNumbers Json PdfTemplates PdfRendering.
Local Open Scope Z_scope.

(** ** The limit *)

Definition PDF_TIMEOUT_MIN_S : Z := 5.
Definition PDF_TIMEOUT_MAX_S : Z := 300.
Definition PDF_TIMEOUT_DEFAULT_S : Z := 30.
Definition CLEANUP_DEADLINE_MS : Z := 1000.
(** The setting: absent, a text or a number. *)
Inductive timeout_setting := Absent | TextSetting (t : string) | NumberSetting (x : js_num).
Definition accepted_timeout (x : js_num) : Z :=
  match x with
  | Finite q => if negb (isInteger x) then PDF_TIMEOUT_DEFAULT_S
                else if (Qfloor q <? PDF_TIMEOUT_MIN_S) || (PDF_TIMEOUT_MAX_S <? Qfloor q) then PDF_TIMEOUT_DEFAULT_S
                else Qfloor q
  | _ => PDF_TIMEOUT_DEFAULT_S
  end.
Definition parsePdfTimeout (raw : timeout_setting) : Z :=
  match raw with
  | Absent => PDF_TIMEOUT_DEFAULT_S
  | NumberSetting x => accepted_timeout x
  | TextSetting t =>
      let trimmed := trim t in
      if bool_decide (trimmed = "") || negb (integer_text trimmed) then PDF_TIMEOUT_DEFAULT_S else accepted_timeout (js_Number trimmed)
  end.

(** ** The job *)

(** [runWithin]: errors are swallowed, and at the deadline the job goes on.  What the operation
    tells the pool it tells before it waits. *)
Definition runWithin (ms : Z) (op : job unit) : job unit := λ s,
  let '(r, s1) := op s in
  let over := {| jb_now := s.(jb_now) + ms; jb_meta := s1.(jb_meta); jb_log := s1.(jb_log) |} in
  match r with
  | Stuck => (Returned tt, over)
  | _ => if s1.(jb_now) <? s.(jb_now) + ms then (Returned tt, s1) else (Returned tt, over)
  end.

(** What the calls of one job are answered. *)
Record pdf_job := {
  pj_templates : reply pdf_state; pj_settings : reply (option PdfSettingsRow); pj_acquire : acquisition; pj_new_page : reply unit;
  pj_intercept : reply unit; pj_content : reply unit; pj_pdf : reply string; pj_close : reply unit; pj_release : release_reply; pj_cleanup : release_reply }.
Record PdfJobResult := { pr_buffer : string; pr_fileSize : Z; pr_pageCount : Z; pr_durationMs : Z }.
Definition now : job Z := λ s, (Returned s.(jb_now), s).

(** [renderPage]: the content, then the print. *)
Definition renderPage (content : reply unit) (pdf : reply string) : reply string :=
  match content with
  | Replies t _ => match pdf with Replies t' v => Replies (t + t') v | Breaks t' m => Breaks (t + t') m | Silent => Silent end
  | Breaks t m => Breaks t m
  | Silent => Silent
  end.
Definition renderWithTimeout (j : pdf_job) (configuredMaxMs startTime : Z) : job string :=
  _ ← await j.(pj_new_page);
  finally (_ ← await j.(pj_intercept);
           t ← now;
           let remainingMs := startTime + configuredMaxMs - t in
           within (Z.max 0 remainingMs) (λ t', Raised (JobTimeout (t' - startTime) configuredMaxMs)) (renderPage j.(pj_content) j.(pj_pdf)))
          (runWithin CLEANUP_DEADLINE_MS (ignoring (await j.(pj_close)))).

Section worker.
Context {T : Type} (hb_compile : string → outcome string T) (hb_run : T → list (string * json) → outcome string string) (sanitize : sanitize_options → string → string).

(** The page of a job; it fails before a browser is asked for. *)
Definition job_page (templateId : string) (payload : list (string * json)) (j : pdf_job) : job string :=
  rows ← await j.(pj_templates);
  match getActiveByType (resolveTemplateTypeKey (Some templateId)) rows with
  | None => raise (Failure ("Template not found for type: " +:+ templateId))
  | Some t =>
      row ← await j.(pj_settings);
      let settings := mapRowToSettings (getPdfSettings row) in
      match compiled_fresh hb_compile hb_run t payload with
      | Throw e => raise (Failure e)
      | Ok renderedBody => mret (wrapWithStyles (sanitize SANITIZE_OPTIONS renderedBody) settings (preview_language settings))
      end
  end.
(** What is left to do with the browser when the job failed: a crashed one is destroyed by
    the pool itself, any other is given back within the deadline. *)
Definition clean_up (browser : string) (r : release_reply) : job unit :=
  runWithin CLEANUP_DEADLINE_MS (if r.(rl_connected) then release browser r else mret tt).
Definition processPdfJob (raw : timeout_setting) (templateId : string) (payload : list (string * json)) (browser_does : string → pdf_job) (first : pdf_job) :
    job PdfJobResult :=
  startTime ← now;
  let configuredMaxMs := parsePdfTimeout raw * 1000 in
  html ← job_page templateId payload first;
  let j := browser_does html in
  browser ← acquire j.(pj_acquire);
  buffer ← catching (pdfBuffer ← renderWithTimeout j configuredMaxMs startTime;
                     _ ← release browser j.(pj_release);
                     mret pdfBuffer)
                    (λ e, match e with
                          | BrowserCrashed => raise e
                          | _ => _ ← clean_up browser j.(pj_cleanup); raise e
                          end);
  t ← now;
  mret {| pr_buffer := buffer; pr_fileSize := Z.of_nat (String.length buffer); pr_pageCount := 0; pr_durationMs := t - startTime |}.
End worker.

(** ** Properties *)

Lemma accepted_int z : accepted_timeout (int z) = if (PDF_TIMEOUT_MIN_S <=? z) && (z <=? PDF_TIMEOUT_MAX_S) then z else PDF_TIMEOUT_DEFAULT_S.
Proof.
  unfold accepted_timeout, int. assert (isInteger (Finite (inject_Z z)) = true) as -> by (unfold isInteger; rewrite Qfloor_Z; apply Qeq_bool_iff; reflexivity).
  rewrite Qfloor_Z. cbn [negb]. rewrite !Z.ltb_antisym. by destruct (_ <=? z), (z <=? _).
Qed.

(** the limit of a job is between five seconds and five minutes whatever the setting holds; a
    text counts exactly when it is an integer in that range. *)
Theorem pdf_timeout_bounds raw :
  (PDF_TIMEOUT_MIN_S <= parsePdfTimeout raw <= PDF_TIMEOUT_MAX_S) /\
  (forall t, parsePdfTimeout (TextSetting t) =
    if integer_text (trim t) && (PDF_TIMEOUT_MIN_S <=? text_value (trim t)) && (text_value (trim t) <=? PDF_TIMEOUT_MAX_S) then text_value (trim t) else PDF_TIMEOUT_DEFAULT_S).
Proof.
  assert (Hacc : forall x, PDF_TIMEOUT_MIN_S <= accepted_timeout x <= PDF_TIMEOUT_MAX_S).
  { intros [q| |]; cbn; try done. repeat case_match; try done. bools. lia. }
  split; [destruct raw; cbn; [done| |done]; case_match; done|]. intros t. cbn [parsePdfTimeout].
  destruct (integer_text (trim t)) eqn:Hi; [|by rewrite orb_true_r]. cbn [negb andb]. rewrite orb_false_r.
  rewrite bool_decide_eq_false_2 by (intros Ht; by rewrite Ht in Hi).
  destruct (integer_text_Number _ Hi) as [->|(neg & -> & Hbig)]; [apply accepted_int|].
  unfold PDF_TIMEOUT_MIN_S, PDF_TIMEOUT_MAX_S, PDF_TIMEOUT_DEFAULT_S.
  cbn. destruct (Z.leb_spec 5 (text_value (trim t))), (Z.leb_spec (text_value (trim t)) 300); try done. lia.
Qed.

Lemma settles_runWithin n ms op (Q : finish unit → list pool_call → Prop) :
  0 <= ms → (∀ s, n <= s.(jb_now) → let '(r, s1) := op s in s.(jb_now) <= s1.(jb_now) ∧ ∃ l, s1.(jb_log) = s.(jb_log) ++ l ∧ Q (Returned tt) l) →
  settles n (runWithin ms op) Q ms.
Proof.
  intros Hms Hop s Hs. specialize (Hop s Hs). unfold runWithin. destruct (op s) as [r s1]. destruct Hop as (Hn & l & Hl & HQ).
  destruct r; try destruct (Z.ltb_spec s1.(jb_now) (s.(jb_now) + ms)); eexists _, _, l; split_and!; try done; cbn; lia.
Qed.

Lemma settles_now n (Q : finish Z → list pool_call → Prop) : (∀ t, n <= t → Q (Returned t) []) → settles n now Q 0.
Proof. intros HQ s Hs. eexists _, s, []. rewrite app_nil_r. split_and!; [done..|by apply HQ|lia|lia]. Qed.

Lemma forward_page content pdf : forward content → forward pdf → forward (renderPage content pdf).
Proof. destruct content, pdf; cbn; lia || done. Qed.

Lemma render_settles n j limit start : speaks j.(pj_new_page) → speaks j.(pj_intercept) → forward j.(pj_content) → forward j.(pj_pdf) → forward j.(pj_close) →
  start <= n → 0 <= limit →
  settles n (renderWithTimeout j limit start) (λ r l, l = [] ∧ no_crash r) (time_of j.(pj_new_page) + ((time_of j.(pj_intercept) + (0 + limit)) + CLEANUP_DEADLINE_MS)).
Proof.
  intros Hn Hi Hc Hp Hcl Hs Hl. pose proof (speaks_time _ Hi). assert (Hd : 0 <= CLEANUP_DEADLINE_MS) by done.
  eapply settles_bind with (Q := λ r l, l = [] ∧ no_crash r); [apply settles_await; [done|by intros r Hr]| |by intros e ? [-> He]|lia]. intros _ ? [-> _].
  eapply settles_finally with (Q := λ r l, l = [] ∧ no_crash r) (Qc := λ r l, l = [] ∧ r = Returned tt);
    [| |by intros r ? u ? [-> Hr] [-> _]|by intros ???? _ [_ [=]]].
  - eapply settles_bind with (Q := λ r l, l = [] ∧ no_crash r); [apply settles_await; [done|by intros r Hr]| |by intros e ? [-> He]|lia]. intros _ ? [-> _].
    eapply settles_bind with (Q := λ r l, l = [] ∧ ∃ t, n <= t ∧ r = Returned t); [apply settles_now; by eauto| |by intros e ? [_ (? & _ & [=])]|lia].
    intros t ? [-> (t' & Ht & [= <-])]. eapply settles_weaken; [apply settles_within with (Q := λ r l, l = [] ∧ no_crash r)| |]; try done; [lia|by apply forward_page|lia].
  - apply settles_runWithin; [done|]. intros s _. destruct (pj_close j) as [t v|t m|]; cbn in Hcl |- *; (split; [lia|]); exists []; by rewrite app_nil_r.
Qed.

Lemma clean_up_settles n b r : forward r.(rl_release) →
  settles n (clean_up b r) (λ f l, f = Returned tt ∧ if r.(rl_connected) then l = [GivenBack b] else l = []) CLEANUP_DEADLINE_MS.
Proof.
  intros Hr. apply settles_runWithin; [done|]. intros s _. unfold release, mbind, job_bind. destruct (rl_connected r).
  - destruct (rl_release r) as [t v|t m|]; cbn in Hr |- *; (split; [lia|]); by exists [GivenBack b].
  - cbn. split; [lia|]. exists []. by rewrite app_nil_r.
Qed.

(** Every call of a job but the content, the print and the end of the page is answered some time. *)
Definition job_speaks (j : pdf_job) : Prop :=
  acquisition_speaks j.(pj_acquire) ∧ speaks j.(pj_new_page) ∧ speaks j.(pj_intercept) ∧ forward j.(pj_content) ∧ forward j.(pj_pdf) ∧ forward j.(pj_close) ∧
  release_speaks j.(pj_release) ∧ forward j.(pj_cleanup).(rl_release).
Definition job_time (first j : pdf_job) : Z :=
  time_of first.(pj_templates) + time_of first.(pj_settings) + acquisition_time j.(pj_acquire) + time_of j.(pj_new_page) + time_of j.(pj_intercept) +
  release_time j.(pj_release).

(** The rendering and the release of one browser. *)
Lemma on_browser_settles n b limit start j : job_speaks j → start <= n → 0 <= limit →
  settles n (catching (pdfBuffer ← renderWithTimeout j limit start; _ ← release b j.(pj_release); mret pdfBuffer)
               (λ e, match e with BrowserCrashed => raise e | _ => _ ← clean_up b j.(pj_cleanup); raise e end))
    (λ r l, match r with
            | Returned _ => ends_loan b l
            | _ => j.(pj_cleanup).(rl_connected) = true → ends_loan b l ∨ ∃ l', ends_loan b l' ∧ l = l' ++ [GivenBack b]
            end)
    (time_of j.(pj_new_page) + ((time_of j.(pj_intercept) + (0 + limit)) + CLEANUP_DEADLINE_MS) + release_time j.(pj_release) + CLEANUP_DEADLINE_MS).
Proof.
  intros (_ & Hn & Hi & Hc & Hp & Hcl & Hr & Hclean) Hs Hl. pose proof (times_nonneg _ Hr). assert (Hd : 0 <= CLEANUP_DEADLINE_MS) by done.
  eapply settles_catching with (Q := λ r l, match r with Returned _ | Raised BrowserCrashed => ends_loan b l | _ => l = [] ∨ ends_loan b l end); [| | |done].
  - eapply settles_bind; [by apply render_settles| | |lia].
    + intros v ? [-> _]. rewrite <- (Z.add_0_r (release_time _)). eapply settles_bind; [by apply release_settles| |intros e l [He _]; destruct e; cbn; auto|done].
      intros _ l [He _]. apply settles_ret. by rewrite app_nil_r.
    + intros e ? [-> He]. by destruct e; try (by left).
  - by intros v l He.
  - intros e l He. assert (Hcleaned : settles n (_ ← clean_up b j.(pj_cleanup); raise (A:=string) e)
      (λ r l', (∃ e', r = Raised e') ∧ if j.(pj_cleanup).(rl_connected) then l' = [GivenBack b] else l' = []) CLEANUP_DEADLINE_MS).
    { rewrite <- (Z.add_0_r CLEANUP_DEADLINE_MS). eapply settles_bind; [by apply clean_up_settles| |by intros ?? [[=] _]|done].
      intros u l' [_ Hl']. apply settles_raise. rewrite app_nil_r. by eauto. }
    assert (Hcrash : ends_loan b l → settles n (raise (A:=string) e)
      (λ r l', match r with Returned _ => ends_loan b (l ++ l') | _ => rl_connected (pj_cleanup j) = true → ends_loan b (l ++ l') ∨ (∃ l'', ends_loan b l'' ∧ l ++ l' = l'' ++ [GivenBack b]) end) CLEANUP_DEADLINE_MS).
    { intros Hl'. eapply settles_weaken; [apply settles_raise with (Q := λ r l', r = Raised e ∧ l' = []); done| |done].
      intros r ? [-> ->]. rewrite app_nil_r. by left. }
    destruct e; try (by apply Hcrash);
      (eapply settles_weaken; [exact Hcleaned| |reflexivity]; intros r l' [(e' & ->) Hl'] Hconn; rewrite Hconn in Hl'; subst l';
       destruct He as [->|He]; [left; by left|right; by exists l]).
Qed.

Lemma page_settles {T} (hb_compile : string → outcome string T) hb_run sanitize n templateId payload j : speaks j.(pj_templates) → speaks j.(pj_settings) →
  settles n (job_page hb_compile hb_run sanitize templateId payload j) (λ _ l, l = []) (time_of j.(pj_templates) + (time_of j.(pj_settings) + 0)).
Proof.
  intros Ht Hs. pose proof (speaks_time _ Hs). eapply settles_bind; [apply settles_await with (Q := λ _ l, l = []); done| |by intros ?? ->|lia]. intros rows ? ->.
  destruct (getActiveByType _ _) as [t|]; [|eapply settles_weaken; [apply settles_raise with (Q := λ _ l, l = []); done|done|lia]].
  eapply settles_bind; [apply settles_await with (Q := λ _ l, l = []); done| |by intros ?? ->|lia]. intros row ? ->.
  destruct (compiled_fresh _ _ _ _); [by apply settles_ret|by apply settles_raise].
Qed.

(** What is known of the loans of a job that ended. *)
Definition job_loans (j : pdf_job) (r : finish PdfJobResult) (l : list pool_call) : Prop :=
  (∀ v, r = Returned v → ∀ b, open_loans b l = 0) ∧ (j.(pj_cleanup).(rl_connected) = true → ∀ b, open_loans b l <= 0).
Definition browser_time (j : pdf_job) (limit : Z) : Z :=
  time_of j.(pj_new_page) + ((time_of j.(pj_intercept) + (0 + limit)) + CLEANUP_DEADLINE_MS) + release_time j.(pj_release) + CLEANUP_DEADLINE_MS.

Lemma rendered_settles n j limit start : job_speaks j → start <= n → 0 <= limit →
  settles n (browser ← acquire j.(pj_acquire);
             buffer ← catching (pdfBuffer ← renderWithTimeout j limit start; _ ← release browser j.(pj_release); mret pdfBuffer)
               (λ e, match e with BrowserCrashed => raise e | _ => _ ← clean_up browser j.(pj_cleanup); raise e end);
             t ← now;
             mret {| pr_buffer := buffer; pr_fileSize := Z.of_nat (String.length buffer); pr_pageCount := 0; pr_durationMs := t - start |})
    (job_loans j) (acquisition_time j.(pj_acquire) + (browser_time j limit + (0 + 0))).
Proof.
  intros Hj Hs Hl. pose proof Hj as (Hacq & Hn & Hi & _ & _ & _ & Hr & _). apply speaks_time in Hn, Hi. apply times_nonneg in Hr.
  assert (0 <= CLEANUP_DEADLINE_MS) by done.
  eapply settles_bind; [by apply acquire_settles| |intros e l Hb; split; [done|intros _ b; by rewrite Hb]|unfold browser_time; lia].
  intros b l Hb. cbn in Hb. eapply settles_bind; [by apply on_browser_settles| | |done].
  - intros v l' Hl'. eapply settles_bind with (Q := λ r l, l = [] ∧ ∃ t, r = Returned t); [apply settles_now; by eauto| |by intros e ? [_ [? [=]]]|done].
    intros t ? [-> _]. apply settles_ret. rewrite !app_nil_r. pose proof (ends_loan_lends _ _ _ Hb Hl') as Hbal.
    split; intros; by rewrite Hbal.
  - intros e l' Hl'. split; [done|]. intros Hc x. specialize (Hl' Hc) as [Hl'|(l'' & Hl' & ->)].
    + by rewrite (ends_loan_lends _ _ _ Hb Hl').
    + rewrite app_assoc, open_loans_app, (ends_loan_lends _ _ _ Hb Hl'). cbn. case_bool_decide; lia.
Qed.

(** C40: a job whose other calls are answered some time ends, however long the page, the print or
    the closing of the page take: within its limit, the time of those calls and two seconds.
    A finished job has given its browser back exactly once; a failed one has not kept any,
    unless the browser crashed, which the pool notices itself. *)
Theorem pdf_job_settles {T} (hb_compile : string -> outcome string T) hb_run sanitize raw templateId payload browser_does first K s :
  speaks first.(pj_templates) -> speaks first.(pj_settings) -> (forall html, job_speaks (browser_does html) /\ job_time first (browser_does html) <= K) ->
  exists r s' l, processPdfJob hb_compile hb_run sanitize raw templateId payload browser_does first s = (r, s') /\ r <> Stuck /\
    s'.(jb_log) = s.(jb_log) ++ l /\ s'.(jb_now) <= s.(jb_now) + K + parsePdfTimeout raw * 1000 + 2 * CLEANUP_DEADLINE_MS /\
    (forall v, r = Returned v -> forall b, open_loans b l = 0) /\
    ((forall html, (browser_does html).(pj_cleanup).(rl_connected) = true) -> forall b, open_loans b l <= 0).
Proof.
  intros Ht Hs Hj. set (limit := parsePdfTimeout raw * 1000).
  assert (Hlimit : 0 <= limit) by (pose proof (proj1 (pdf_timeout_bounds raw)); unfold limit, PDF_TIMEOUT_MIN_S in *; lia).
  pose proof (speaks_time _ Ht). pose proof (speaks_time _ Hs). assert (Hd : 0 <= CLEANUP_DEADLINE_MS) by done.
  set (page := time_of first.(pj_templates) + (time_of first.(pj_settings) + 0)).
  set (Q := fun (r : finish PdfJobResult) l => (forall v, r = Returned v -> forall b, open_loans b l = 0) /\
    ((forall html, (browser_does html).(pj_cleanup).(rl_connected) = true) -> forall b, open_loans b l <= 0)).
  assert (Htime : forall html, 0 <= browser_time (browser_does html) limit /\ page + (acquisition_time (browser_does html).(pj_acquire) +
      (browser_time (browser_does html) limit + (0 + 0))) <= K + limit + 2 * CLEANUP_DEADLINE_MS).
  { intros html. destruct (Hj html) as [(Hacq & Hn & Hi & _ & _ & _ & Hr & _) Htime]. apply speaks_time in Hn, Hi. apply times_nonneg in Hr.
    unfold job_time in Htime. unfold browser_time, page. lia. }
  assert (Hrun : settles s.(jb_now) (html ← job_page hb_compile hb_run sanitize templateId payload first;
      let j := browser_does html in
      browser ← acquire j.(pj_acquire);
      buffer ← catching (pdfBuffer ← renderWithTimeout j limit s.(jb_now); _ ← release browser j.(pj_release); mret pdfBuffer)
        (fun e => match e with BrowserCrashed => raise e | _ => _ ← clean_up browser j.(pj_cleanup); raise e end);
      t ← now;
      mret {| pr_buffer := buffer; pr_fileSize := Z.of_nat (String.length buffer); pr_pageCount := 0; pr_durationMs := t - s.(jb_now) |})
      Q (page + (K + limit + 2 * CLEANUP_DEADLINE_MS - page))).
  { eapply settles_bind; [by apply page_settles| | |].
    - intros html ? ->. destruct (Hj html) as [Hsp _]. eapply settles_weaken; [by apply rendered_settles| |specialize (Htime html); lia].
      intros r l [H1 H2]. split; [exact H1|]. intros Hc. apply H2, Hc.
    - intros e ? ->. split; [done|intros _ b; cbn; lia].
    - destruct (Hj "") as [((Hq1%speaks_time & Hq2%speaks_time & Hq3%speaks_time) & _) _]. specialize (Htime ""). unfold acquisition_time in Htime. lia. }
  destruct (Hrun s ltac:(lia)) as (r & s' & l & Hr & Hstuck & Hlog & [HQ1 HQ2] & Hnow). exists r, s', l.
  split_and!; [exact Hr|done|done|lia|exact HQ1|exact HQ2].
Qed.

(** ** Runs of the definitions *)

Module Jobs.
Definition tables : pdf_state := {| ps_rows := [(Rendering.template "text" 1).(tm_row)]; ps_next := 0 |}.
Definition pool_reply (connected : bool) : release_reply := {| rl_connected := connected; rl_destroy := Replies 1 tt; rl_release := Replies 1 tt |}.
Definition job_of (new_page : reply unit) (pdf : reply string) (close : reply unit) (first : release_reply) (again : release_reply) : pdf_job :=
  {| pj_templates := Replies 1 tables; pj_settings := Replies 1 None; pj_acquire := Rendering.fast.(at_acquire); pj_new_page := new_page; pj_intercept := Replies 1 tt;
     pj_content := Replies 1 tt; pj_pdf := pdf; pj_close := close; pj_release := first; pj_cleanup := again |}.
Definition usual : pdf_job := job_of (Replies 1 tt) (Replies 10 "pdf") (Replies 1 tt) (pool_reply true) (pool_reply true).
Definition endless : pdf_job := job_of (Replies 1 tt) Silent Silent (pool_reply true) (pool_reply true).
Abbreviation process id j := (processPdfJob Rendering.compile Rendering.run Rendering.clean (TextSetting "5") id [] (λ _, j) j Rendering.start).

Theorem job_runs :
  (let '(r, s) := process "general" usual in r = Returned {| pr_buffer := "pdf"; pr_fileSize := 3; pr_pageCount := 0; pr_durationMs := 18 |} ∧ s.(jb_log) = [Lent "b"; GivenBack "b"]) ∧
  (let '(r, s) := process "audit_plan" usual in r = Raised (Failure "Template not found for type: audit_plan") ∧ s.(jb_log) = []) ∧
  (let '(r, s) := process "general" endless in r = Raised (JobTimeout 5000 5000) ∧ s.(jb_now) = 6001 ∧ s.(jb_log) = [Lent "b"; GivenBack "b"]) ∧
  (let '(r, s) := process "general" (job_of (Replies 1 tt) (Replies 10 "pdf") (Replies 1 tt) (pool_reply false) (pool_reply true)) in
     r = Raised BrowserCrashed ∧ s.(jb_log) = [Lent "b"; Dropped "b"]).
Proof. by vm_compute. Qed.

(** The limit watches the page and the print only: a browser that never opens a page keeps the
    job, and its browser, for ever, and slow calls before it are not counted against it.  When
    the pool refuses a browser that was given back, it is given back again. *)
Theorem job_gaps :
  (let '(r, s) := process "general" (job_of Silent (Replies 10 "pdf") (Replies 1 tt) (pool_reply true) (pool_reply true)) in r = Stuck ∧ s.(jb_log) = [Lent "b"]) ∧
  (let '(r, s) := process "general" (job_of (Replies 9000 tt) Silent (Replies 1 tt) (pool_reply true) (pool_reply true)) in r = Raised (JobTimeout 9004 5000)) ∧
  (let '(r, s) := process "general" (job_of (Replies 1 tt) (Replies 10 "pdf") (Replies 1 tt) {| rl_connected := true; rl_destroy := Silent; rl_release := Breaks 1 "no" |} (pool_reply true)) in
     r = Raised (Failure "no") ∧ s.(jb_log) = [Lent "b"; GivenBack "b"; GivenBack "b"]).
Proof. by vm_compute. Qed.
End Jobs.

Lemma pdf_job_settles_witness :
  exists r s', processPdfJob Rendering.compile Rendering.run Rendering.clean (TextSetting "5") "general" [] (fun _ => Jobs.endless) Jobs.endless Rendering.start = (r, s') /\
    r <> Stuck.
Proof.
  assert (Hj : forall html : string, job_speaks Jobs.endless /\ job_time Jobs.endless Jobs.endless <= 20) by (intros _; cbv; intuition congruence).
  destruct (pdf_job_settles Rendering.compile Rendering.run Rendering.clean (TextSetting "5") "general" [] (fun _ => Jobs.endless) Jobs.endless 20 Rendering.start)
    as (r & s' & l & Hrun & Hr & _); [cbv; congruence|cbv; congruence|exact Hj|].
  exists r, s'. split; [exact Hrun|exact Hr].
Defined.
